(* ===== verification/_CoqProject ===== *)
-Q . S2P
Prelude.v
Core.v
Words.v
Sha256.v
Text.v
Utf8.v
Json.v
NameIndex.v
NativeWeights.v
Safetensors.v
Float64.v
Qtype.v
Artifact.v
GgufReader.v
GgufSpec.v
GgufText.v
GgufValues.v
GgufIndex.v
GgufMetadata.v
GgufTensors.v
GgufOpen.v
GgufLayout.v
GgufWriter.v
GgufWritten.v
GgufStaging.v
IrData.v
IrCore.v
IrSequence.v
IrNeural.v
IrModule.v
IrInvariant.v
IrVerify.v
IrSafety.v
IrPrint.v
IrPasses.v
IrPassSafety.v
IrDeadCode.v
IrSerialization.v
RequestQueue.v
Transaction.v
Resource.v
ResourceInvariant.v
ResourceSafety.v
