(* ===== verification/Prelude.v ===== *)
(** * YVEX: a verification library for the native core

    YVEX prepares, verifies and serves neural-network programs.  Its C sources
    ([src/src], public headers in [src/include/yvex]) are organised in layers:
    a core of status values, hashing, bounded text and byte buffers; a typed
    program representation (the IR) that model importers construct, that is
    verified, optimised, sealed under a content identity and stored; readers of
    untrusted containers and messages; and a runtime and a server that execute
    sealed programs in transactions and serialise client requests.  This library
    models the core, the whole IR subsystem, the JSON and UTF-8 readers, the
    reader of SafeTensors headers with the tensor table it fills, the reader, the
    layout validator and the writer plan of GGUF containers, the execution
    transaction with one of its drivers, the engine's resource catalog, and the
    server's request queue, each translated function by function from the
    sources.

    Conventions:

    An unsigned integer of width [w] is a [Z]; wrap-around is written [u32] or
    [u64] wherever the C expression can wrap, and theorems show where it cannot.
    [size_t] and [unsigned long long] have 64 bits (LP64).  Fallible code runs in
    [Core.outcome]: [Done], [Refuse] (a status and a reason, an error the code
    reports) or [Fault] (an access outside an object, a null dereference, a use
    after free, or fuel that ran out).  No theorem assumes that there is no
    fault: where a component is shown safe, [Fault] is shown unreachable.
    Stateful code threads its state through the monad [Core.SO], which returns
    the changed state on every path.  The allocator, the clock, threads and
    callbacks are oracles: arguments that answer each request, over which the
    theorems quantify.  Fuel appears where recursion is not structural: the C
    depth limits (64 levels), the length of an operation chain, the bytes that
    remain in a text, the slots of an index, the levels of a nested array; the safety theorems show each bound is enough.

    Files:

    - [Prelude]: machine integers, indexed lists ([zlen], [zget], [zset], [zseq]),
      shared lemmas and tactics.
    - [Core] ([core/status.c], [internal/core.h]): statuses, errors, checked
      arithmetic, observation counters, the bounded byte arena; [outcome], [SO].
    - [Words]: little-endian words.  [NameIndex]: open addressing, for the two
      components that keep a name index.
    - [Sha256] ([core/sha256.c]): the portable hash; streaming equals the reference.
    - [Text]: [printf] conversions, [strcmp], [qsort].
    - [Utf8], [Json] ([core/json.c], [yvex_provider_json_value_validate] of
      [provider/core.c]): the scalar decoder, the fragment validator and the JSON
      cursor, compared with independently written grammars.
    - [NativeWeights] ([source/native_weights.c]): the tensor table, its
      open-addressing name index, growth, duplicate refusal and finalization.
    - [Safetensors] ([source/safetensors_header.c]): the reader of one shard
      header, from the bytes of the file to the rows of the table, and the
      observation of a truncated shard.
    - [Float64]: the doubles carried by attributes and metadata, as bit patterns.
    - [Qtype] ([gguf/qtype.c]): the registry of tensor element types and the bytes a
      tensor occupies.
    - [Artifact] ([artifact/core.c]): exact positioned reads over [pread] and the
      identity of an open file.
    - [GgufReader] ([gguf/core.c]): the reader of the untrusted directory of a GGUF
      file, with its budgets, indexes, lookups and release.
    - [GgufSpec]: what a run of the reader promises, as composable rules: it accepts
      exactly a set of texts, at a stated cost in bytes, reads and owned memory.
      [GgufText], [GgufValues], [GgufIndex], [GgufMetadata], [GgufTensors] apply the
      rules to strings, typed values, name indexes, the metadata table and the tensor
      directory; [GgufOpen] composes them into the format of a document.
    - [GgufLayout] ([gguf/layout_integrity.c]): the validator of payload ranges and
      padding, and the shape of the files it accepts.
    - [GgufWriter] ([gguf/writer.c]): the serializer, the staging of metadata, the
      layout of tensors and the sealed plan of a file of explicit tensors.
      [GgufWritten]: the file of such a plan, read back and validated;
      [GgufStaging]: staged metadata, its invariant, and what the reader decodes.
    - [IrData], [IrCore], [IrSequence], [IrNeural], [IrModule] ([internal/ir.h],
      [ir/core.c], [ir/sequence.c], [ir/neural.c], [ir/module.c]): the data of a
      module, the contracts of the 76 built-in operations, the constructors and
      the reference-counted lifecycle.
    - [IrInvariant]: the structural invariant of every module a client can build.
    - [IrVerify] ([ir/verify.c]): the verifier and what acceptance means;
      [IrSafety]: the verifier reads only what exists.
    - [IrPrint] ([ir/print.c]): the canonical projection and sealing.
    - [IrPasses] ([ir/passes.c]): canonicalization, dead-code elimination, inlining
      and the pipeline; [IrPassSafety]: the passes never fault; [IrDeadCode]: dead-code
      elimination keeps exactly the live operations.
    - [IrSerialization] ([ir/serialization.c]): the binary writer and the reader of
      untrusted bytes.
    - [RequestQueue] ([server/request_queue.c]): the keyed queue, its workers,
      its lifecycle and the failures of the thread library, as a step relation.
    - [Transaction] ([runtime/transaction.c], the driver of [runtime/latent.c]): the
      execution transaction as a state machine over a log of external effects.
    - [Resource] ([runtime/resource.c]): the engine's catalog of reserved, borrowed
      and released resources, its two accounting layers, its close protocol and its
      snapshots, with the abstract specification; [ResourceInvariant]: the
      invariant and the refinement of each operation; [ResourceSafety]: schedules of
      concurrent callers and the theorems about them.

    How they interact: constructors allocate and grow arrays ([IrModule]); the
    verifier dispatches to the dialects ([IrVerify]); sealing verifies, prints and
    hashes ([IrPrint], [Sha256]); a pass rebuilds a module through the constructors
    and seals it again ([IrPasses]); decoding rebuilds, seals and compares
    identities ([IrSerialization]); the header reader drives the JSON cursor and
    appends each tensor to the table ([Safetensors], [Json], [NativeWeights]); the
    GGUF reader reads through an artifact handle, sizes tensors with the registry
    and indexes names, and the validator checks the view it returned against the
    file ([Artifact], [Qtype], [NameIndex], [GgufReader], [GgufLayout]); the writer
    sizes tensors with the same registry, and what it lays out is composed with the
    reader and the validator ([GgufWriter], [GgufWritten], [GgufStaging]); the
    driver runs its quanta inside a transaction ([Transaction]).  A transaction
    asks for its resource lease through an oracle; the catalog that grants such
    leases is modelled on its own, against any schedule of callers ([Resource]).

    What the theorems show:

    - IR acceptance: an accepted module has dominating operands, declared effects,
      conforming attributes, terminated blocks, state versions that are not used
      after their consumer in program order, consistent parameters and a
      well-founded call graph.
    - IR construction: every reachable module satisfies the invariant, no call
      faults, refused calls change nothing, types are interned canonically, and
      the module is freed exactly by its last owner.
    - IR transformation: each pass is total and memory safe, liveness is computed
      exactly, dead-code elimination copies exactly the live operations in program
      order, aliases and calls are gone after their passes, interfaces are kept,
      and the pipeline's receipts chain identities.  The theorems that run built-in
      contracts (safety of the verifier, the passes and the decoder, and what the
      passes and the decoder publish) hold over any selection of the built-in
      dialects in any order ([IrInvariant.native_dialects]).
    - Identity: sealing is deterministic and equals the SHA-256 of the projection;
      decoding is safe on all bytes and returns only authentic modules; field
      codecs round-trip.
    - Text: UTF-8 decoding inverts the reference encoder and accepts nothing else;
      the JSON reader accepts exactly its grammar; strings and integers are read
      exactly, and failures leave the cursor where the code says.
    - Sources: under every sequence of calls without a refused finalization
      ([NativeWeights.refused_finalize_loses_row] shows what one does) the tensor
      table refines a finite map from names to rows and an addition succeeds unless its documented refusal
      applies; a header is accepted exactly when it is a text of the header grammar
      whose tensors fit the payload, and the reader never faults on any file.
    - GGUF: whatever the file, the limits, the allocator and the kernel, opening
      returns, and with an allocator and a kernel that grant every request it
      accepts exactly the texts of documents within the limits and returns the view
      of the document; what it decodes is what was encoded; lookups answer from the document;
      tensor sizes are exact; the layout validator accepts exactly the canonical
      files.  The one fault, the release of an array whose storage was refused, is
      exhibited by [GgufOpen.gguf_budget_refusal_faults].
    - GGUF, written: a file laid out by a plan of explicit tensors whose names the
      reader admits has the planned size, is opened, reports every tensor as planned with its payload, and is
      canonical; staged metadata has distinct keys after every sequence of calls,
      and, when keys and values are within the reader's grammar and limits, is
      found by the reader with the staged values.
      [GgufWritten.long_name_planned_not_read] exhibits names the writer admits and
      the reader refuses.
    - Queue: under every schedule in which the joins and the locks of [finish]
      succeed, per-key mutual exclusion with exact active keys, per-key FIFO
      refinement, memory safety, bounded draining after a stop; examples exhibit
      the use after free that a failed join or stop allows.
    - Transaction: every call sequence refines the abstract automaton; publication
      is atomic; the driver returns with the outcome its status reports.
    - Resources: under every schedule the catalog refines a finite map of live
      resources; a borrowed resource is not released and a release runs once; a
      handle of an earlier generation is refused; the accounts equal the sums over
      the live entries; a close that nobody blocks completes, dependents first.
      (With fewer than 2^64 - 1 registrations, after which generations repeat.)

    Not modelled:

    Numerical kernels (floating-point execution on CPU, CUDA and Metal), model
    families and graph planning, tokenizers, GGUF conversion and quantization, the
    writing of artifact files, the descriptors and materialization of artifacts, HTTP and the
    wire protocol, files, processes and the command-line clients.
    Of the modelled files: the verify callbacks of dialects other than the built-in
    ones ([ir/verify.c] calls them through a pointer, here an enumeration); failed
    mutex locks of the workers of [server/request_queue.c], which ignore them; formatted errors, the clock helpers and log names of
    [core/status.c]; the ARM64 path of [core/sha256.c]; the file read, the two text
    probes and the keyed row lookup of [core/json.c]; the directory scan, the open
    and the release of [source/native_weights.c]; the process-wide counter of header
    reads in [source/safetensors_header.c]; the JSON helpers of [gguf/core.c] (lines
    104-245); the plans of [gguf/writer.c] derived from a lowering or a component
    (lines 763-1635), of whose inputs the plan of explicit tensors needs none; the
    rest of [gguf/quant_plan.c] and [gguf/tokenizer_metadata.c]; the open, the close and the cached digest of [artifact/core.c]; the numerical work of
    [runtime/latent.c] (a list of external answers); the remainder of
    [provider/core.c]; the cleanup lease of [runtime/resource.c]. *)

From Stdlib Require Import ZArith Lia Bool.
From stdpp Require Import base list option numbers sets.

#[global] Open Scope Z_scope.

(** ** Machine integers *)

Definition UINT8_MAX : Z := 255.
Definition UINT32_MAX : Z := 4294967295.
Definition UINT64_MAX : Z := 18446744073709551615.
(** On the supported LP64 targets [size_t] and [unsigned long long] are
    64 bits wide and [unsigned int] is 32 bits wide. *)
Definition SIZE_MAX : Z := UINT64_MAX.
Definition ULLONG_MAX : Z := UINT64_MAX.
Definition UINT_MAX : Z := UINT32_MAX.

Definition u8 (z : Z) : Z := z mod 256.
Definition u32 (z : Z) : Z := z mod 4294967296.
Definition u64 (z : Z) : Z := z mod 18446744073709551616.

Definition is_u8 (z : Z) : Prop := 0 <= z < 256.
Definition is_u32 (z : Z) : Prop := 0 <= z < 4294967296.
Definition is_u64 (z : Z) : Prop := 0 <= z < 18446744073709551616.

Lemma u8_range z : is_u8 (u8 z).
Proof. unfold is_u8, u8. apply Z.mod_pos_bound. lia. Qed.
Lemma u32_range z : is_u32 (u32 z).
Proof. unfold is_u32, u32. apply Z.mod_pos_bound. lia. Qed.
Lemma u64_range z : is_u64 (u64 z).
Proof. unfold is_u64, u64. apply Z.mod_pos_bound. lia. Qed.
Lemma u8_id z : is_u8 z -> u8 z = z.
Proof. apply Z.mod_small. Qed.
Lemma u32_id z : is_u32 z -> u32 z = z.
Proof. apply Z.mod_small. Qed.
Lemma u64_id z : is_u64 z -> u64 z = z.
Proof. apply Z.mod_small. Qed.

(** ** Arrays addressed by machine integers

    A C array with its element count is a list; [zget] is a bounds-checked
    read and [zset] an in-place write that leaves the array unchanged when the
    index lies outside it. *)

Definition zlen {A} (l : list A) : Z := Z.of_nat (length l).

Definition zget {A} (l : list A) (i : Z) : option A :=
  if (0 <=? i) && (i <? zlen l) then l !! Z.to_nat i else None.

Definition zset {A} (l : list A) (i : Z) (x : A) : list A :=
  if (0 <=? i) && (i <? zlen l) then <[Z.to_nat i := x]> l else l.

Section Arrays.
  Context {A : Type}.
  Implicit Types (l k : list A) (i j : Z) (x y : A).

Lemma zlen_nonneg l : 0 <= zlen l.
  Proof. unfold zlen. lia. Qed.

Lemma zlen_nil : zlen (@nil A) = 0.
  Proof. reflexivity. Qed.

Lemma zlen_cons x l : zlen (x :: l) = zlen l + 1.
  Proof. unfold zlen. cbn [length]. lia. Qed.

Lemma zlen_app l k : zlen (l ++ k) = zlen l + zlen k.
  Proof. unfold zlen. rewrite length_app. lia. Qed.

Lemma zlen_zset l i x : zlen (zset l i x) = zlen l.
  Proof. unfold zset, zlen. case_match; [rewrite length_insert|]; done. Qed.

Lemma zlen_replicate n x : zlen (replicate n x) = Z.of_nat n.
  Proof. unfold zlen. by rewrite length_replicate. Qed.

Lemma zget_Some_range l i x : zget l i = Some x -> 0 <= i < zlen l.
  Proof. unfold zget. case_match; [lia|done]. Qed.

Lemma zget_lookup l i : 0 <= i < zlen l -> zget l i = l !! Z.to_nat i.
  Proof.
    intros H. unfold zget.
    by replace ((0 <=? i) && (i <? zlen l)) with true by lia.
  Qed.

Lemma zget_is_Some l i : is_Some (zget l i) <-> 0 <= i < zlen l.
  Proof.
    split.
    - intros [x Hx]. by eapply zget_Some_range.
    - intros H. rewrite zget_lookup by done. apply lookup_lt_is_Some.
      unfold zlen in H. lia.
  Qed.

Lemma zget_in l i : 0 <= i < zlen l -> exists x, zget l i = Some x.
  Proof. intros H. by apply zget_is_Some in H. Qed.

Lemma zget_None l i : ~ (0 <= i < zlen l) -> zget l i = None.
  Proof.
    intros H. unfold zget.
    by replace ((0 <=? i) && (i <? zlen l)) with false by lia.
  Qed.

Lemma zget_None_inv l i : zget l i = None -> ~ (0 <= i < zlen l).
  Proof. intros H Hr. apply zget_in in Hr as [x Hx]. congruence. Qed.

Lemma zget_nil i : zget (@nil A) i = None.
  Proof. apply zget_None. unfold zlen. cbn. lia. Qed.

Lemma zget_nat l (n : nat) : zget l (Z.of_nat n) = l !! n.
  Proof.
    destruct (decide (n < length l)%nat) as [H|H].
    - rewrite zget_lookup by (unfold zlen; lia). by rewrite Nat2Z.id.
    - rewrite zget_None by (unfold zlen; lia).
      symmetry. apply lookup_ge_None. lia.
  Qed.

Lemma zget_app_l l k i : i < zlen l -> zget (l ++ k) i = zget l i.
  Proof.
    intros H. destruct (decide (0 <= i)) as [Hi|Hi].
    - rewrite !zget_lookup by (rewrite ?zlen_app; pose proof (zlen_nonneg k); lia).
      apply lookup_app_l. unfold zlen in H. lia.
    - by rewrite !zget_None by lia.
  Qed.

Lemma zget_app_r l k i : zlen l <= i -> zget (l ++ k) i = zget k (i - zlen l).
  Proof.
    intros H. pose proof (zlen_nonneg l).
    destruct (decide (i - zlen l < zlen k)) as [Hi|Hi].
    - rewrite !zget_lookup by (rewrite ?zlen_app; lia).
      rewrite lookup_app_r by (unfold zlen in *; lia).
      f_equal. unfold zlen. lia.
    - by rewrite !zget_None by (rewrite ?zlen_app; lia).
  Qed.

Lemma zget_snoc_eq l x : zget (l ++ [x]) (zlen l) = Some x.
  Proof. rewrite zget_app_r by lia. by rewrite Z.sub_diag. Qed.

Lemma zlen_snoc l x : zlen (l ++ [x]) = zlen l + 1.
  Proof. rewrite zlen_app. reflexivity. Qed.

Lemma zget_cons_succ x l i : 0 <= i -> zget (x :: l) (i + 1) = zget l i.
  Proof.
    intros H. change (x :: l) with ([x] ++ l). rewrite zget_app_r by (unfold zlen; cbn; lia).
    f_equal. unfold zlen. cbn. lia.
  Qed.

Lemma zget_app_Some l k i x : zget l i = Some x -> zget (l ++ k) i = Some x.
  Proof. intros H. rewrite zget_app_l; [done|]. apply zget_Some_range in H. lia. Qed.

Lemma zget_snoc_inv l x i y :
    zget (l ++ [x]) i = Some y -> zget l i = Some y \/ (i = zlen l /\ y = x).
  Proof.
    intros H. destruct (decide (i < zlen l)) as [Hi|Hi].
    - rewrite zget_app_l in H by done. by left.
    - pose proof (zget_Some_range _ _ _ H) as Hr.
      rewrite zlen_app, zlen_cons, zlen_nil in Hr. right.
      assert (i = zlen l) as -> by lia. rewrite zget_snoc_eq in H.
      by simplify_eq.
  Qed.

Lemma zget_zset_eq l i x : 0 <= i < zlen l -> zget (zset l i x) i = Some x.
  Proof.
    intros H. rewrite zget_lookup by (by rewrite zlen_zset). unfold zset.
    replace ((0 <=? i) && (i <? zlen l)) with true by lia.
    apply list_lookup_insert_eq. unfold zlen in H. lia.
  Qed.

Lemma zget_zset_ne l i j x : i <> j -> zget (zset l i x) j = zget l j.
  Proof.
    intros H. unfold zset. case_match eqn:E; [|done].
    unfold zget. replace (zlen (<[Z.to_nat i:=x]> l)) with (zlen l)
      by (unfold zlen; by rewrite length_insert).
    case_match eqn:E2; [|done]. apply list_lookup_insert_ne. lia.
  Qed.

Lemma zget_elem_of l i x : zget l i = Some x -> x ∈ l.
  Proof.
    intros H. pose proof (zget_Some_range _ _ _ H).
    rewrite zget_lookup in H by done. by eapply list_elem_of_lookup_2.
  Qed.

Lemma elem_of_zget l x : x ∈ l -> exists i, zget l i = Some x.
  Proof.
    intros [n Hn]%list_elem_of_lookup. exists (Z.of_nat n). by rewrite zget_nat.
  Qed.

Lemma zget_ext l k :
    zlen l = zlen k -> (forall i, 0 <= i < zlen l -> zget l i = zget k i) -> l = k.
  Proof.
    intros Hlen H. apply list_eq. intros n. rewrite <- !zget_nat.
    destruct (decide (0 <= Z.of_nat n < zlen l)) as [Hn|Hn]; [by apply H|].
    by rewrite !zget_None by lia.
  Qed.
End Arrays.

Arguments zget : simpl never.
Arguments zset : simpl never.
Arguments zlen : simpl never.

(** ** Automation shared by the components *)

(** [yvex]: facts about array reads and writes; [word]: ranges of machine
    integers. *)
Create HintDb yvex.
Create HintDb word.
Create Rewrite HintDb zlen.

#[export] Hint Resolve zlen_nonneg zget_app_Some : yvex.
#[export] Hint Resolve u8_range u32_range u64_range : word.
#[export] Hint Rewrite @zlen_app @zlen_cons @zlen_nil @zlen_zset @zlen_replicate : zlen.

(** Destruct the innermost scrutinee of a match or conditional of the goal or
    of a hypothesis, keeping its equation. *)
Ltac split_match :=
  match goal with
  | |- context [match ?x with _ => _ end] =>
      lazymatch x with context [match _ with _ => _ end] => fail | _ => destruct x eqn:? end
  | H : context [match ?x with _ => _ end] |- _ =>
      lazymatch x with context [match _ with _ => _ end] => fail | _ => destruct x eqn:? end
  end.

(** Turn boolean guards in the context into propositions. *)
Ltac bool_hyps :=
  repeat match goal with
  | H : _ && _ = true |- _ => apply andb_true_iff in H; destruct H
  | H : _ || _ = false |- _ => apply orb_false_iff in H; destruct H
  | H : negb _ = true |- _ => apply negb_true_iff in H
  | H : negb _ = false |- _ => apply negb_false_iff in H
  end.

Ltac deex :=
  repeat match goal with
  | H : exists _, _ |- _ => destruct H
  | H : _ /\ _ |- _ => destruct H
  end.

(** A bounded numeric loop [for (i = 0; i < n; ++i)] over the indices of an
    array is a fold over [zseq n]. *)
Definition zseq (n : Z) : list Z := Z.of_nat <$> seq 0 (Z.to_nat n).

Lemma elem_of_zseq n i : i ∈ zseq n <-> 0 <= i < n.
Proof.
  unfold zseq. rewrite list_elem_of_fmap. split.
  - intros (k & -> & Hk%elem_of_seq). lia.
  - intros H. exists (Z.to_nat i). split; [lia|]. apply elem_of_seq. lia.
Qed.

Lemma zlen_zseq n : 0 <= n -> zlen (zseq n) = n.
Proof. intros. unfold zlen, zseq. rewrite length_fmap, length_seq. lia. Qed.

(** Exhaustive evaluation over a small range. *)
Lemma zseq_forallb (f : Z -> bool) n :
  forallb f (zseq n) = true -> forall i, 0 <= i < n -> f i = true.
Proof.
  intros H i Hi. rewrite forallb_forall in H. apply H.
  apply list_elem_of_In. by apply elem_of_zseq.
Qed.

Lemma zseq_snoc k : 0 <= k -> zseq (k + 1) = zseq k ++ [k].
Proof.
  intros Hk. unfold zseq. replace (Z.to_nat (k + 1)) with (S (Z.to_nat k)) by lia.
  rewrite seq_S, fmap_app. cbn. by rewrite Z2Nat.id.
Qed.

(** ** Positions in arrays and bytes of words *)


Lemma zget_middle {A} (pre : list A) x post : zget (pre ++ x :: post) (zlen pre) = Some x.
Proof. rewrite zget_app_r by lia. by rewrite Z.sub_diag. Qed.

Lemma zset_middle {A} (pre : list A) x y post :
  zset (pre ++ x :: post) (zlen pre) y = pre ++ y :: post.
Proof.
  unfold zset. pose proof (zlen_nonneg pre). pose proof (zlen_nonneg post).
  replace ((0 <=? zlen pre) && (zlen pre <? zlen (pre ++ x :: post))) with true
    by (autorewrite with zlen; lia).
  unfold zlen. rewrite Nat2Z.id. rewrite <- (Nat.add_0_r (length pre)). by rewrite insert_app_r.
Qed.

Lemma zget_split {A} (l : list A) i x :
  zget l i = Some x -> exists pre post, l = pre ++ x :: post /\ i = zlen pre.
Proof.
  intros H. pose proof (zget_Some_range _ _ _ H). rewrite zget_lookup in H by done.
  exists (take (Z.to_nat i) l), (drop (S (Z.to_nat i)) l).
  rewrite take_drop_middle by done. split; [done|].
  apply lookup_lt_Some in H. unfold zlen. rewrite length_take. lia.
Qed.

Lemma take_snoc_zget {A} (l : list A) n x :
  zget l (Z.of_nat n) = Some x -> take (S n) l = take n l ++ [x].
Proof. rewrite zget_nat. apply take_S_r. Qed.

Lemma to_nat_zlen {A} (l : list A) : Z.to_nat (zlen l) = length l.
Proof. unfold zlen. apply Nat2Z.id. Qed.

Lemma take_zlen_app {A} (l k : list A) : take (Z.to_nat (zlen l)) (l ++ k) = l.
Proof. rewrite to_nat_zlen. apply take_app_length. Qed.

(** Bytes at distinct positions do not overlap. *)
(** ** Sums over arrays *)

Definition zsum {A} (f : A -> Z) (l : list A) : Z := foldr (fun x acc => f x + acc) 0 l.

Section Sums.
Context {A : Type}.
Implicit Types (f g : A -> Z) (l k : list A).

Lemma zsum_cons f x l : zsum f (x :: l) = f x + zsum f l.
Proof. done. Qed.

Lemma zsum_app f l k : zsum f (l ++ k) = zsum f l + zsum f k.
Proof. induction l as [|x l IH]; cbn [app]; rewrite ?zsum_cons; [done|lia]. Qed.

Lemma zsum_zset f l i x y : zget l i = Some x -> zsum f (zset l i y) = zsum f l - f x + f y.
Proof.
  intros (pre & post & -> & ->)%zget_split. rewrite zset_middle, !zsum_app, !zsum_cons. lia.
Qed.

Lemma zsum_nonneg f l : (forall x, x ∈ l -> 0 <= f x) -> 0 <= zsum f l.
Proof.
  induction l as [|x l IH]; intros H; [done|]. rewrite zsum_cons.
  pose proof (H x ltac:(set_solver)). pose proof (IH ltac:(set_solver)). lia.
Qed.

Lemma zsum_le_zset f l i x : (forall x, x ∈ l -> 0 <= f x) -> zget l i = Some x -> f x <= zsum f l.
Proof.
  intros H (pre & post & -> & ->)%zget_split. rewrite zsum_app, zsum_cons.
  pose proof (zsum_nonneg f pre ltac:(set_solver)).
  pose proof (zsum_nonneg f post ltac:(set_solver)). lia.
Qed.

Lemma zsum_bound f l : (forall x, x ∈ l -> f x <= 1) -> zsum f l <= zlen l.
Proof.
  induction l as [|x l IH]; intros H; [done|]. rewrite zsum_cons, zlen_cons.
  pose proof (H x ltac:(set_solver)). pose proof (IH ltac:(set_solver)). lia.
Qed.

Lemma zsum_zero f l : (forall x, x ∈ l -> f x = 0) -> zsum f l = 0.
Proof.
  induction l as [|x l IH]; intros H; [done|]. rewrite zsum_cons.
  rewrite (H x) by set_solver. apply IH. set_solver.
Qed.

Lemma zsum_replicate f n x : f x = 0 -> zsum f (replicate n x) = 0.
Proof. intros H. apply zsum_zero. intros y ->%elem_of_replicate_inv. done. Qed.

Lemma zsum_zero_inv f l x :
  (forall x, x ∈ l -> 0 <= f x) -> zsum f l = 0 -> x ∈ l -> f x = 0.
Proof.
  intros H Hs [i Hi]%elem_of_zget. pose proof (zsum_le_zset f l i x H Hi).
  pose proof (H x (zget_elem_of _ _ _ Hi)). lia.
Qed.

End Sums.

Lemma lor_shiftl_add a b k : 0 <= k -> 0 <= a < 2 ^ k -> 0 <= b -> Z.lor a (Z.shiftl b k) = a + b * 2 ^ k.
Proof.
  intros Hk Ha Hb. rewrite Z.shiftl_mul_pow2 by done.
  pose proof (Z.add_lor_land a (b * 2 ^ k)). enough (Z.land a (b * 2 ^ k) = 0) by lia. apply Z.bits_inj'. intros n Hn.
  rewrite Z.land_spec, Z.bits_0. destruct (decide (n < k)) as [Hlt|Hge].
  - rewrite Z.mul_pow2_bits_low by done. apply andb_false_r.
  - destruct (decide (a = 0)) as [->|Hne]; [by rewrite Z.bits_0|].
    rewrite Z.bits_above_log2; [done|lia|]. apply Z.log2_lt_pow2; [lia|].
    apply Z.lt_le_trans with (2 ^ k); [lia|]. apply Z.pow_le_mono_r; lia.
Qed.

