(* ===== verification/Core.v ===== *)
(** * Core: status values, errors, checked arithmetic and byte arenas

    Models [src/core/status.c] and the inline helpers of
    [include/yvex/internal/core.h]: the status vocabulary and the structured
    error, the checked 64-bit arithmetic used by every geometry computation,
    the observation counters, the bounded byte arena shared by the canonical
    serializers and the FNV index hash.  It also introduces [outcome], the
    result type in which every fallible operation of the later files runs. *)

From Stdlib Require Import ZArith Lia Bool.
From stdpp Require Import base list option numbers strings sets.
From S2P Require Import Prelude.

(** ** Status vocabulary *)

Inductive yvex_status : Type :=
  | YVEX_OK
  | YVEX_ERR
  | YVEX_ERR_NOMEM
  | YVEX_ERR_IO
  | YVEX_ERR_FORMAT
  | YVEX_ERR_UNSUPPORTED
  | YVEX_ERR_BACKEND
  | YVEX_ERR_BOUNDS
  | YVEX_ERR_STATE
  | YVEX_ERR_CANCELLED
  | YVEX_ERR_INVALID_ARG
  | YVEX_ERR_TIMEOUT
  | YVEX_ERR_TOKEN_CAPACITY
  | YVEX_ERR_INPUT_CAPACITY
  | YVEX_ERR_OUTPUT_CAPACITY.

#[export] Instance yvex_status_eq_dec : EqDecision yvex_status.
Proof. solve_decision. Defined.

Definition yvex_status_code (status : yvex_status) : Z :=
  match status with
  | YVEX_OK => 0
  | YVEX_ERR => -1
  | YVEX_ERR_NOMEM => -2
  | YVEX_ERR_IO => -3
  | YVEX_ERR_FORMAT => -4
  | YVEX_ERR_UNSUPPORTED => -5
  | YVEX_ERR_BACKEND => -6
  | YVEX_ERR_BOUNDS => -7
  | YVEX_ERR_STATE => -8
  | YVEX_ERR_CANCELLED => -9
  | YVEX_ERR_INVALID_ARG => -10
  | YVEX_ERR_TIMEOUT => -11
  | YVEX_ERR_TOKEN_CAPACITY => -12
  | YVEX_ERR_INPUT_CAPACITY => -13
  | YVEX_ERR_OUTPUT_CAPACITY => -14
  end.

Definition yvex_status_name (code : Z) : string :=
  match code with
  | 0 => "YVEX_OK"
  | -1 => "YVEX_ERR"
  | -2 => "YVEX_ERR_NOMEM"
  | -3 => "YVEX_ERR_IO"
  | -4 => "YVEX_ERR_FORMAT"
  | -5 => "YVEX_ERR_UNSUPPORTED"
  | -6 => "YVEX_ERR_BACKEND"
  | -7 => "YVEX_ERR_BOUNDS"
  | -8 => "YVEX_ERR_STATE"
  | -9 => "YVEX_ERR_CANCELLED"
  | -10 => "YVEX_ERR_INVALID_ARG"
  | -11 => "YVEX_ERR_TIMEOUT"
  | -12 => "YVEX_ERR_TOKEN_CAPACITY"
  | -13 => "YVEX_ERR_INPUT_CAPACITY"
  | -14 => "YVEX_ERR_OUTPUT_CAPACITY"
  | _ => "YVEX_STATUS_UNKNOWN"
  end.

Definition yvex_status_is_ok (status : yvex_status) : bool :=
  bool_decide (status = YVEX_OK).

Definition yvex_status_is_error (status : yvex_status) : bool :=
  negb (bool_decide (status = YVEX_OK)).

(** ** Bounded text

    A C string is the characters before its terminator. *)

Definition yvex_core_text_copy (dst : string) (cap : Z) (src : option string) : string :=
  if cap =? 0 then dst else String.substring 0 (Z.to_nat (cap - 1)) (default "" src).

(** ** Structured errors *)

Definition YVEX_ERROR_WHERE_CAP : Z := 96.
Definition YVEX_ERROR_MESSAGE_CAP : Z := 256.

Record yvex_error : Type := mk_error {
  err_code : yvex_status;
  err_where : string;
  err_message : string
}.

Definition yvex_error_clear (err : option yvex_error) : option yvex_error :=
  match err with
  | None => None
  | Some _ => Some (mk_error YVEX_OK "" "")
  end.

Definition yvex_error_set (err : option yvex_error) (code : yvex_status)
    (where_ message : option string) : option yvex_error :=
  match err with
  | None => None
  | Some e => Some {|
      err_code := code;
      err_where := yvex_core_text_copy (err_where e) YVEX_ERROR_WHERE_CAP
                     (Some (default "unknown" where_));
      err_message := yvex_core_text_copy (err_message e) YVEX_ERROR_MESSAGE_CAP message |}
  end.

Definition yvex_error_is_set (err : option yvex_error) : bool :=
  match err with
  | None => false
  | Some e => negb (bool_decide (err_code e = YVEX_OK))
  end.

Definition yvex_error_code (err : option yvex_error) : yvex_status :=
  match err with
  | None => YVEX_OK
  | Some e => err_code e
  end.

Definition yvex_error_where (err : option yvex_error) : string :=
  match err with
  | None => ""
  | Some e => err_where e
  end.

Definition yvex_error_message (err : option yvex_error) : string :=
  match err with
  | None => ""
  | Some e => err_message e
  end.

(** ** Checked scalars *)

Definition yvex_core_u64_add (left right : Z) : option Z :=
  if ULLONG_MAX - right <? left then None else Some (left + right).

Definition yvex_core_u64_mul (left right : Z) : option Z :=
  if negb (left =? 0) && (ULLONG_MAX / left <? right) then None
  else Some (left * right).

(** ** Process-local observation counters *)

Record yvex_core_allocation_epoch : Type := mk_epoch {
  allocation_events : Z;
  reallocation_events : Z;
  release_events : Z;
  epoch_overflowed : bool
}.

Inductive yvex_core_allocation_operation : Type :=
  | YVEX_CORE_ALLOCATE_MALLOC
  | YVEX_CORE_ALLOCATE_CALLOC
  | YVEX_CORE_ALLOCATE_REALLOC
  | YVEX_CORE_ALLOCATE_FREE.

(** The counter after [++*counter], and whether the advance latched overflow. *)
Definition allocation_epoch_advance (counter : Z) : Z * bool :=
  if counter =? ULLONG_MAX then (counter, true) else (counter + 1, false).

Definition epoch_allocation (e : yvex_core_allocation_epoch) : yvex_core_allocation_epoch :=
  let '(n, o) := allocation_epoch_advance (allocation_events e) in
  mk_epoch n (reallocation_events e) (release_events e) (epoch_overflowed e || o).

Definition epoch_reallocation (e : yvex_core_allocation_epoch) : yvex_core_allocation_epoch :=
  let '(n, o) := allocation_epoch_advance (reallocation_events e) in
  mk_epoch (allocation_events e) n (release_events e) (epoch_overflowed e || o).

Definition epoch_release (e : yvex_core_allocation_epoch) : yvex_core_allocation_epoch :=
  let '(n, o) := allocation_epoch_advance (release_events e) in
  mk_epoch (allocation_events e) (reallocation_events e) n (epoch_overflowed e || o).

(** [granted] is whether the C library returned a non-null pointer, [pointer]
    whether the argument pointer is non-null. *)
Definition yvex_core_allocate (operation : yvex_core_allocation_operation)
    (pointer granted : bool) (size : Z) (e : yvex_core_allocation_epoch)
    : yvex_core_allocation_epoch :=
  match operation with
  | YVEX_CORE_ALLOCATE_MALLOC => if granted then epoch_allocation e else e
  | YVEX_CORE_ALLOCATE_CALLOC => if granted then epoch_allocation e else e
  | YVEX_CORE_ALLOCATE_REALLOC =>
      if granted then epoch_reallocation e
      else if pointer && (size =? 0) then epoch_release e else e
  | YVEX_CORE_ALLOCATE_FREE => if pointer then epoch_release e else e
  end.

Inductive yvex_core_execution_observation_kind : Type :=
  | YVEX_CORE_OBSERVE_SOURCE_HEADER
  | YVEX_CORE_OBSERVE_SOURCE_PAYLOAD_BYTES
  | YVEX_CORE_OBSERVE_TRANSFORM_PLAN
  | YVEX_CORE_OBSERVE_QUANT_PLAN
  | YVEX_CORE_OBSERVE_WRITER_PLAN
  | YVEX_CORE_OBSERVE_COUNT.

#[export] Instance observation_kind_eq_dec :
  EqDecision yvex_core_execution_observation_kind.
Proof. solve_decision. Defined.

Record yvex_core_execution_observation : Type := mk_observation {
  source_headers_read : Z;
  source_payload_bytes_read : Z;
  transform_plans_built : Z;
  quant_plans_built : Z;
  writer_plans_built : Z;
  observation_overflowed : bool
}.

Definition observation_latch (o : yvex_core_execution_observation)
    : yvex_core_execution_observation :=
  mk_observation (source_headers_read o) (source_payload_bytes_read o)
    (transform_plans_built o) (quant_plans_built o) (writer_plans_built o) true.

Definition yvex_core_execution_observation_record
    (kind : yvex_core_execution_observation_kind) (amount : Z)
    (o : yvex_core_execution_observation) : yvex_core_execution_observation :=
  let bump (counter : Z) (update : Z -> yvex_core_execution_observation) :=
    if ULLONG_MAX - amount <? counter then observation_latch o
    else update (counter + amount) in
  match kind with
  | YVEX_CORE_OBSERVE_SOURCE_HEADER =>
      bump (source_headers_read o) (fun n =>
        mk_observation n (source_payload_bytes_read o) (transform_plans_built o)
          (quant_plans_built o) (writer_plans_built o) (observation_overflowed o))
  | YVEX_CORE_OBSERVE_SOURCE_PAYLOAD_BYTES =>
      bump (source_payload_bytes_read o) (fun n =>
        mk_observation (source_headers_read o) n (transform_plans_built o)
          (quant_plans_built o) (writer_plans_built o) (observation_overflowed o))
  | YVEX_CORE_OBSERVE_TRANSFORM_PLAN =>
      bump (transform_plans_built o) (fun n =>
        mk_observation (source_headers_read o) (source_payload_bytes_read o) n
          (quant_plans_built o) (writer_plans_built o) (observation_overflowed o))
  | YVEX_CORE_OBSERVE_QUANT_PLAN =>
      bump (quant_plans_built o) (fun n =>
        mk_observation (source_headers_read o) (source_payload_bytes_read o)
          (transform_plans_built o) n (writer_plans_built o) (observation_overflowed o))
  | YVEX_CORE_OBSERVE_WRITER_PLAN =>
      bump (writer_plans_built o) (fun n =>
        mk_observation (source_headers_read o) (source_payload_bytes_read o)
          (transform_plans_built o) (quant_plans_built o) n (observation_overflowed o))
  | YVEX_CORE_OBSERVE_COUNT => observation_latch o
  end.

Definition yvex_core_execution_observation_delta
    (before after : yvex_core_execution_observation)
    : option yvex_core_execution_observation :=
  if observation_overflowed before || observation_overflowed after then None
  else if (source_headers_read after <? source_headers_read before)
       || (source_payload_bytes_read after <? source_payload_bytes_read before)
       || (transform_plans_built after <? transform_plans_built before)
       || (quant_plans_built after <? quant_plans_built before)
       || (writer_plans_built after <? writer_plans_built before) then None
  else Some (mk_observation
    (source_headers_read after - source_headers_read before)
    (source_payload_bytes_read after - source_payload_bytes_read before)
    (transform_plans_built after - transform_plans_built before)
    (quant_plans_built after - quant_plans_built before)
    (writer_plans_built after - writer_plans_built before) false).

(** ** Outcomes of fallible operations

    [Refuse] is a status returned with its reason recorded in the caller's
    error; [Fault] is behaviour the C program must never reach: a read outside
    an array, a dereferenced null pointer, a union member read through the wrong
    alternative, the exhaustion of the fuel that bounds a loop, or an access to
    a structure that was freed. *)

Inductive fault : Type :=
  | OutOfBounds
  | NullPointer
  | WrongMember
  | OutOfFuel
  | UseAfterFree.

Inductive outcome (A : Type) : Type :=
  | Done (a : A)
  | Refuse (status : yvex_status) (reason : string)
  | Fault (f : fault).
Arguments Done {A} a.
Arguments Refuse {A} status reason.
Arguments Fault {A} f.

#[export] Instance outcome_ret : MRet outcome := fun _ a => Done a.
#[export] Instance outcome_bind : MBind outcome := fun _ _ k c =>
  match c with
  | Done a => k a
  | Refuse s r => Refuse s r
  | Fault f => Fault f
  end.

Definition no_fault {A} (c : outcome A) : Prop :=
  match c with Fault _ => False | _ => True end.

(** Whether an evaluation returned a value. *)
Definition is_done {A} (c : outcome A) : bool :=
  match c with Done _ => true | _ => false end.

Lemma is_done_Done {A} (c : outcome A) : is_done c = true -> exists a, c = Done a.
Proof. destruct c; [eauto|done..]. Qed.

(** Unchecked reads of the C program. *)
Definition read_at {A} (l : list A) (i : Z) : outcome A :=
  match zget l i with Some x => Done x | None => Fault OutOfBounds end.

Definition write_at {A} (l : list A) (i : Z) (x : A) : outcome (list A) :=
  if (0 <=? i) && (i <? zlen l) then Done (zset l i x) else Fault OutOfBounds.

Definition deref {A} (p : option A) : outcome A :=
  match p with Some x => Done x | None => Fault NullPointer end.

(** [if (condition) return refuse(...)]. *)
Definition refuse_if (b : bool) (status : yvex_status) (reason : string) : outcome unit :=
  if b then Refuse status reason else Done tt.

(** Short-circuit disjunction and conjunction of conditions that read memory. *)
Definition or_else (a b : outcome bool) : outcome bool :=
  match a with Done false => b | _ => a end.
Definition and_then (a b : outcome bool) : outcome bool :=
  match a with Done true => b | _ => a end.

(** Loops with early return. *)
Fixpoint foldO {A S} (f : S -> A -> outcome S) (l : list A) (s : S) : outcome S :=
  match l with
  | [] => Done s
  | x :: l => s' ← f s x; foldO f l s'
  end.

(** [for (; index < count; ++index) if (stop) break;], with [n = count - index] *)
Fixpoint scan (n : nat) (stop : Z -> outcome bool) (index : Z) : outcome Z :=
  match n with
  | O => Done index
  | S n => b ← stop index; if b : bool then Done index else scan n stop (index + 1)
  end.

Definition eachO {A} (f : A -> outcome unit) (l : list A) : outcome unit :=
  foldO (fun _ x => f x) l tt.

Fixpoint forallO {A} (f : A -> outcome bool) (l : list A) : outcome bool :=
  match l with
  | [] => Done true
  | x :: l => and_then (f x) (forallO f l)
  end.

Fixpoint existsO {A} (f : A -> outcome bool) (l : list A) : outcome bool :=
  match l with
  | [] => Done false
  | x :: l => or_else (f x) (existsO f l)
  end.

Fixpoint mapO {A B} (f : A -> outcome B) (l : list A) : outcome (list B) :=
  match l with
  | [] => Done []
  | x :: l => y ← f x; ys ← mapO f l; Done (y :: ys)
  end.

(** Operations that update a state run in [SO S]: they return the state on every
    path, so that what a refused operation leaves behind is explicit. *)

Definition SO (S A : Type) : Type := S -> S * outcome A.

#[export] Instance so_ret {S} : MRet (SO S) := fun _ a s => (s, Done a).
#[export] Instance so_bind {S} : MBind (SO S) := fun _ _ k c s =>
  match c s with
  | (s', Done a) => k a s'
  | (s', Refuse st r) => (s', Refuse st r)
  | (s', Fault f) => (s', Fault f)
  end.

Definition so_get {S} : SO S S := fun s => (s, Done s).
Definition so_put {S} (s : S) : SO S unit := fun _ => (s, Done tt).
Definition so_modify {S} (f : S -> S) : SO S unit := fun s => (f s, Done tt).
Definition so_lift {S A} (c : outcome A) : SO S A := fun s => (s, c).
Definition so_refuse {S A} (status : yvex_status) (reason : string) : SO S A :=
  fun s => (s, Refuse status reason).
Definition so_refuse_if {S} (b : bool) (status : yvex_status) (reason : string) : SO S unit :=
  so_lift (refuse_if b status reason).

Fixpoint so_each {S A} (f : A -> SO S unit) (l : list A) : SO S unit :=
  match l with
  | [] => mret tt
  | x :: l => f x ;; so_each f l
  end.

Fixpoint so_map {S A B} (f : A -> SO S B) (l : list A) : SO S (list B) :=
  match l with
  | [] => mret []
  | x :: l => y ← f x; ys ← so_map f l; mret (y :: ys)
  end.

(** ** Bounded byte arena *)

(** [data] are the [count] bytes written so far. *)
Record yvex_core_bytes : Type := mk_bytes {
  bytes_data : list Z;
  bytes_capacity : Z;
  bytes_maximum : Z;
  bytes_initial_capacity : Z
}.

Definition bytes_count (b : yvex_core_bytes) : Z := zlen (bytes_data b).

(** The doubling loop of [yvex_core_bytes_reserve]; 64 doublings exceed any
    64-bit capacity, so the loop ends within the fuel given below. *)
Fixpoint bytes_grow (fuel : nat) (capacity required maximum : Z) : option Z :=
  match fuel with
  | O => None
  | S fuel =>
      if capacity <? required then
        if maximum / 2 <? capacity then Some maximum
        else bytes_grow fuel (capacity * 2) required maximum
      else Some capacity
  end.

Definition bytes_fuel : nat := 65.

Definition yvex_core_bytes_reserve (granted : bool) (b : yvex_core_bytes) (additional : Z)
    : option yvex_core_bytes :=
  if SIZE_MAX - bytes_count b <? additional then None else
  let required := bytes_count b + additional in
  if bytes_maximum b <? required then None else
  if required <=? bytes_capacity b then Some b else
  let capacity := if bytes_capacity b =? 0 then bytes_initial_capacity b
                  else bytes_capacity b in
  let capacity := if capacity =? 0 then 1 else capacity in
  match bytes_grow bytes_fuel capacity required (bytes_maximum b) with
  | None => None
  | Some capacity =>
      if capacity <? required then None
      else if granted
      then Some (mk_bytes (bytes_data b) capacity (bytes_maximum b) (bytes_initial_capacity b))
      else None
  end.

Definition yvex_core_bytes_append (granted : bool) (b : yvex_core_bytes) (data : list Z)
    : option yvex_core_bytes :=
  match yvex_core_bytes_reserve granted b (zlen data) with
  | None => None
  | Some b => Some (mk_bytes (bytes_data b ++ data) (bytes_capacity b)
                      (bytes_maximum b) (bytes_initial_capacity b))
  end.

Definition yvex_core_bytes_append_zero (granted : bool) (b : yvex_core_bytes) (count : Z)
    : option yvex_core_bytes :=
  match yvex_core_bytes_reserve granted b count with
  | None => None
  | Some b => Some (mk_bytes (bytes_data b ++ replicate (Z.to_nat count) 0)
                      (bytes_capacity b) (bytes_maximum b) (bytes_initial_capacity b))
  end.

(** ** Index hash and table capacity *)

Definition yvex_core_hash_mix_bytes (hash : Z) (data : list Z) : Z :=
  foldl (fun h byte => u64 (Z.lxor h byte * 1099511628211)) hash data.

(** Little-endian bytes of an unsigned 64-bit integer: the byte at index [i]
    is [(value >> (8 * i)) & 0xff]. *)
Definition le_bytes (n : nat) (value : Z) : list Z :=
  (fun i => u8 (Z.shiftr value (8 * Z.of_nat i))) <$> seq 0 n.

Definition yvex_core_hash_mix_u64 (hash value : Z) : Z :=
  yvex_core_hash_mix_bytes hash (le_bytes 8 value).

(** Characters as bytes. *)
Definition byte_of_ascii (a : Ascii.ascii) : Z := Z.of_N (Ascii.N_of_ascii a).
Definition ascii_of_byte (b : Z) : Ascii.ascii := Ascii.ascii_of_N (Z.to_N b).
Definition string_bytes (s : string) : list Z := byte_of_ascii <$> String.list_ascii_of_string s.
Definition bytes_string (l : list Z) : string :=
  String.string_of_list_ascii (ascii_of_byte <$> l).

Definition yvex_core_index_hash (text : option string) : Z :=
  let hash := yvex_core_hash_mix_bytes 1469598103934665603 (string_bytes (default "" text)) in
  if hash =? 0 then 1 else hash.

Fixpoint power_of_two_grow (fuel : nat) (capacity required : Z) : option (option Z) :=
  match fuel with
  | O => None
  | S fuel =>
      if capacity <? required then
        if ULLONG_MAX / 2 <? capacity then Some None
        else power_of_two_grow fuel (capacity * 2) required
      else Some (Some capacity)
  end.

(** [None] is a refused computation; the fuel bounds the doublings. *)
Definition yvex_core_power_of_two_capacity
    (count minimum load_numerator load_denominator : Z) : option Z :=
  if (minimum =? 0) || negb (Z.land minimum (minimum - 1) =? 0)
     || (load_numerator =? 0) || (load_denominator =? 0)
     || (negb (count =? 0) && (ULLONG_MAX / count <? load_denominator)) then None
  else
    let scaled := count * load_denominator in
    let required := scaled / load_numerator
                    + (if scaled mod load_numerator =? 0 then 0 else 1) in
    default None (power_of_two_grow 65 minimum required).

(** * Theorems *)

(** ** Outcome algebra *)

Lemma bind_Done {A B} (c : outcome A) (k : A -> outcome B) b :
  (c ≫= k) = Done b <-> exists a, c = Done a /\ k a = Done b.
Proof. destruct c; naive_solver. Qed.

Lemma refuse_if_Done b s r : refuse_if b s r = Done tt <-> b = false.
Proof. destruct b; naive_solver. Qed.

Lemma or_else_false a b : or_else a b = Done false <-> a = Done false /\ b = Done false.
Proof. destruct a as [[]| |]; naive_solver. Qed.

Lemma or_else_true a b :
  or_else a b = Done true <-> a = Done true \/ (a = Done false /\ b = Done true).
Proof. destruct a as [[]| |]; naive_solver. Qed.

Lemma and_then_true a b : and_then a b = Done true <-> a = Done true /\ b = Done true.
Proof. destruct a as [[]| |]; naive_solver. Qed.

Lemma read_at_Done {A} (l : list A) i x : read_at l i = Done x <-> zget l i = Some x.
Proof. unfold read_at. destruct (zget l i); naive_solver. Qed.

Lemma write_at_middle {A} (pre : list A) x y post :
  write_at (pre ++ x :: post) (zlen pre) y = Done (pre ++ y :: post).
Proof.
  unfold write_at. pose proof (zlen_nonneg pre). pose proof (zlen_nonneg post).
  replace ((0 <=? zlen pre) && (zlen pre <? zlen (pre ++ x :: post))) with true
    by (autorewrite with zlen; lia).
  by rewrite zset_middle.
Qed.

(** The search stops at the first element that satisfies the test. *)
Lemma scan_spec {A} (p : A -> bool) (stop : Z -> outcome bool) (pre l rest : list A) :
  (forall i x, zget (pre ++ l ++ rest) i = Some x -> i < zlen (pre ++ l) -> stop i = Done (p x)) ->
  (Forall (fun x => p x = false) l /\ scan (length l) stop (zlen pre) = Done (zlen (pre ++ l)))
  \/ exists l1 x l2, l = l1 ++ x :: l2 /\ Forall (fun x => p x = false) l1 /\ p x = true
       /\ scan (length l) stop (zlen pre) = Done (zlen (pre ++ l1)).
Proof.
  revert pre. induction l as [|x l IH]; intros pre H.
  { left. split; [done|]. by rewrite app_nil_r. }
  cbn [scan length]. rewrite (H (zlen pre) x).
  2: apply zget_middle. 2: { pose proof (zlen_nonneg l). autorewrite with zlen. lia. }
  cbn. destruct (p x) eqn:Ex.
  { right. exists [], x, l. by rewrite app_nil_r. }
  replace (zlen pre + 1) with (zlen (pre ++ [x])) by by rewrite zlen_app.
  destruct (IH (pre ++ [x])) as [[Hf E]|(l1 & y & l2 & -> & Hf & Hy & E)].
  { intros i y. rewrite <- !app_assoc. apply H. }
  - left. split; [by constructor|]. by rewrite <- app_assoc in E.
  - right. exists (x :: l1), y, l2. split; [done|]. split; [by constructor|]. split; [done|].
    by rewrite <- app_assoc in E.
Qed.

Lemma deref_Done {A} (p : option A) x : deref p = Done x <-> p = Some x.
Proof. destruct p; naive_solver. Qed.

Lemma foldO_app {A S} (f : S -> A -> outcome S) l k s :
  foldO f (l ++ k) s = (s' ← foldO f l s; foldO f k s').
Proof.
  revert s. induction l as [|x l IH]; intros s; [done|]. cbn. destruct (f s x); cbn; [apply IH|done|done].
Qed.

Lemma eachO_Done {A} (f : A -> outcome unit) l :
  eachO f l = Done tt <-> Forall (fun x => f x = Done tt) l.
Proof.
  unfold eachO. induction l as [|x l IH]; cbn; [by split|].
  rewrite Forall_cons, <- IH. destruct (f x) as [[]| |]; cbn; naive_solver.
Qed.

Lemma forallO_true {A} (f : A -> outcome bool) l :
  forallO f l = Done true <-> Forall (fun x => f x = Done true) l.
Proof.
  induction l as [|x l IH]; cbn; [by split|].
  rewrite and_then_true, Forall_cons. by rewrite IH.
Qed.

Lemma existsO_false {A} (f : A -> outcome bool) l :
  existsO f l = Done false <-> Forall (fun x => f x = Done false) l.
Proof.
  induction l as [|x l IH]; cbn; [by split|].
  rewrite or_else_false, Forall_cons. by rewrite IH.
Qed.

Lemma mapO_Done {A B} (f : A -> outcome B) l ys :
  mapO f l = Done ys <-> Forall2 (fun x y => f x = Done y) l ys.
Proof.
  revert ys. induction l as [|x l IH]; intros ys; cbn.
  - split; [naive_solver|]. intros H. by inversion H.
  - rewrite bind_Done. setoid_rewrite bind_Done. split.
    + intros (y & Hy & ys' & Hys & Heq). simplify_eq. constructor; [done|]. by apply IH.
    + intros H. inversion H; subst. eexists. split; [done|]. eexists. split; [|done].
      by apply IH.
Qed.

Lemma mapO_app {A B} (f : A -> outcome B) l k :
  mapO f (l ++ k) = (a ← mapO f l; b ← mapO f k; Done (a ++ b)).
Proof.
  induction l as [|x l IH]; cbn; [by destruct (mapO f k)|]. destruct (f x); cbn; [|done|done].
  rewrite IH. destruct (mapO f l); cbn; [|done|done]. by destruct (mapO f k).
Qed.

Lemma mapO_read {A} (l : list A) n :
  (n <= length l)%nat -> mapO (read_at l) (zseq (Z.of_nat n)) = Done (take n l).
Proof.
  induction n as [|n IH]; intros Hn; [done|].
  rewrite Nat2Z.inj_succ, <- Z.add_1_r, zseq_snoc, mapO_app, IH by lia. cbn.
  destruct (zget_in l (Z.of_nat n) ltac:(unfold zlen; lia)) as (x & Hx).
  rewrite (proj2 (read_at_Done _ _ _) Hx). cbn. by rewrite (take_snoc_zget _ _ _ Hx).
Qed.

Create Rewrite HintDb outcome.
#[export] Hint Rewrite @bind_Done refuse_if_Done or_else_false and_then_true
  @read_at_Done @deref_Done @eachO_Done @forallO_true @existsO_false @mapO_Done : outcome.

(** ** No-fault rules: how the absence of a fault composes *)

Lemma no_fault_bind {A B} (c : outcome A) (k : A -> outcome B) :
  no_fault c -> (forall a, c = Done a -> no_fault (k a)) -> no_fault (c ≫= k).
Proof. destruct c; naive_solver. Qed.

Lemma no_fault_refuse_if b s r : no_fault (refuse_if b s r).
Proof. by destruct b. Qed.

Lemma no_fault_or_else a b :
  no_fault a -> (a = Done false -> no_fault b) -> no_fault (or_else a b).
Proof. destruct a as [[]| |]; naive_solver. Qed.

Lemma no_fault_and_then a b :
  no_fault a -> (a = Done true -> no_fault b) -> no_fault (and_then a b).
Proof. destruct a as [[]| |]; naive_solver. Qed.

Lemma no_fault_read_at {A} (l : list A) i : 0 <= i < zlen l -> no_fault (read_at l i).
Proof. intros H. unfold read_at. by destruct (zget_in l i H) as [x ->]. Qed.

Lemma no_fault_deref {A} (p : option A) : is_Some p -> no_fault (deref p).
Proof. by intros [x ->]. Qed.

Lemma no_fault_foldO {A S} (P : S -> Prop) (f : S -> A -> outcome S) l s :
  P s -> (forall s x, x ∈ l -> P s -> no_fault (f s x)) ->
  (forall s x s', x ∈ l -> P s -> f s x = Done s' -> P s') -> no_fault (foldO f l s).
Proof.
  revert s. induction l as [|x l IH]; intros s Hs Hf Hp; cbn; [done|].
  apply no_fault_bind; [apply Hf; [set_solver|done]|].
  intros s' Hs'. apply IH; [eapply Hp; [|done..]; set_solver|..].
  - intros; apply Hf; set_solver.
  - intros ???? ? H'. eapply Hp; [|done..]. set_solver.
Qed.

Lemma no_fault_eachO {A} (f : A -> outcome unit) l :
  (forall x, x ∈ l -> no_fault (f x)) -> no_fault (eachO f l).
Proof. intros H. apply (no_fault_foldO (fun _ => True)); auto. Qed.

Lemma no_fault_forallO {A} (f : A -> outcome bool) l :
  (forall x, x ∈ l -> no_fault (f x)) -> no_fault (forallO f l).
Proof.
  induction l as [|x l IH]; intros H; cbn; [done|].
  apply no_fault_and_then; [apply H; set_solver|]. intros _. apply IH. set_solver.
Qed.

Lemma no_fault_existsO {A} (f : A -> outcome bool) l :
  (forall x, x ∈ l -> no_fault (f x)) -> no_fault (existsO f l).
Proof.
  induction l as [|x l IH]; intros H; cbn; [done|].
  apply no_fault_or_else; [apply H; set_solver|]. intros _. apply IH. set_solver.
Qed.

Lemma no_fault_mapO {A B} (f : A -> outcome B) l :
  (forall x, x ∈ l -> no_fault (f x)) -> no_fault (mapO f l).
Proof.
  induction l as [|x l IH]; intros H; cbn; [done|].
  apply no_fault_bind; [apply H; set_solver|]. intros y _.
  apply no_fault_bind; [apply IH; set_solver|]. done.
Qed.

#[export] Hint Resolve no_fault_refuse_if : yvex.

(** ** Stateful outcomes *)

Lemma so_bind_Done {S A B} (c : SO S A) (k : A -> SO S B) s s' b :
  (c ≫= k) s = (s', Done b) <->
  exists a s1, c s = (s1, Done a) /\ k a s1 = (s', Done b).
Proof. unfold mbind, so_bind. destruct (c s) as [s1 [|? ?|]]; naive_solver. Qed.

Lemma so_bind_eq {S A B} (c : SO S A) (k : A -> SO S B) s s1 a :
  c s = (s1, Done a) -> (c ≫= k) s = k a s1.
Proof. unfold mbind, so_bind. by intros ->. Qed.

Lemma so_lift_Done {S A} (c : outcome A) (s s' : S) a :
  so_lift c s = (s', Done a) <-> s' = s /\ c = Done a.
Proof. unfold so_lift. naive_solver. Qed.

(** Reasoning about every path at once: [so_post c s Q] when the state and
    outcome of [c] from [s] satisfy [Q]. *)
Definition so_post {S A} (c : SO S A) (s : S) (Q : S -> outcome A -> Prop) : Prop :=
  Q (c s).1 (c s).2.

Lemma so_post_bind {S A B} (c : SO S A) (k : A -> SO S B) s (Q : S -> outcome B -> Prop) :
  so_post c s (fun s' r =>
    match r with
    | Done a => so_post (k a) s' Q
    | Refuse st m => Q s' (Refuse st m)
    | Fault f => Q s' (Fault f)
    end) -> so_post (c ≫= k) s Q.
Proof. unfold so_post, mbind, so_bind. by destruct (c s) as [s1 [|? ?|]]. Qed.

Lemma so_post_mono {S A} (c : SO S A) s (P Q : S -> outcome A -> Prop) :
  so_post c s P -> (forall s' r, P s' r -> Q s' r) -> so_post c s Q.
Proof. unfold so_post. auto. Qed.

Lemma so_post_ret {S A} (a : A) s (Q : S -> outcome A -> Prop) :
  Q s (Done a) -> so_post (mret a) s Q.
Proof. done. Qed.

Lemma so_post_lift {S A} (c : outcome A) (s : S) (Q : S -> outcome A -> Prop) :
  Q s c -> so_post (so_lift c) s Q.
Proof. done. Qed.

(** ** Checked scalars *)

Lemma u64_add_Some l r s :
  is_u64 l -> is_u64 r -> yvex_core_u64_add l r = Some s <-> s = l + r /\ is_u64 s.
Proof.
  unfold yvex_core_u64_add, is_u64, ULLONG_MAX, UINT64_MAX. intros.
  case_match; split; intros; simplify_eq; try lia. f_equal. lia.
Qed.

Lemma u64_mul_Some l r p :
  is_u64 l -> is_u64 r -> yvex_core_u64_mul l r = Some p <-> p = l * r /\ is_u64 p.
Proof.
  unfold yvex_core_u64_mul, is_u64, ULLONG_MAX, UINT64_MAX. intros Hl Hr.
  destruct (decide (l = 0)) as [->|Hl0]; [cbn; split; intros; simplify_eq; naive_solver lia|].
  replace (l =? 0) with false by lia. cbn [negb andb].
  pose proof (Z.div_mod 18446744073709551615 l Hl0) as Hd.
  pose proof (Z.mod_pos_bound 18446744073709551615 l ltac:(lia)) as Hm.
  case_match eqn:E; (split; [intros; simplify_eq|intros [-> ?]]); try (f_equal; lia).
  - exfalso. nia.
  - split; [done|]. nia.
Qed.

Lemma u64_mul_None l r : is_u64 l -> is_u64 r -> yvex_core_u64_mul l r = None -> ~ is_u64 (l * r).
Proof. intros Hl Hr E H. by rewrite (proj2 (u64_mul_Some l r _ Hl Hr) (conj eq_refl H)) in E. Qed.

(** ** Byte arena *)

Definition bytes_wf (b : yvex_core_bytes) : Prop :=
  bytes_count b <= bytes_capacity b /\ bytes_count b <= bytes_maximum b /\
  is_u64 (bytes_capacity b) /\ is_u64 (bytes_maximum b) /\ is_u64 (bytes_initial_capacity b).

Lemma bytes_grow_total n capacity required maximum :
  0 < capacity -> required <= maximum -> maximum < capacity * 2 ^ Z.of_nat n ->
  exists c, bytes_grow (S n) capacity required maximum = Some c /\
            required <= c /\ c <= Z.max capacity maximum.
Proof.
  revert capacity. induction n as [|n IH]; intros c Hc Hr Hm; cbn [bytes_grow].
  - rewrite Z.mul_1_r in Hm. case_match; [lia|]. exists c. split; [done|lia].
  - case_match; [|exists c; split; [done|lia]].
    case_match; [exists maximum; split; [done|lia]|].
    pose proof (Z.mul_div_le maximum 2 ltac:(lia)).
    destruct (IH (c * 2)) as (c' & Hc' & ? & ?); [lia..| |].
    { rewrite Nat2Z.inj_succ, Z.pow_succ_r in Hm by lia. lia. }
    exists c'. split; [exact Hc'|lia].
Qed.

Lemma bytes_reserve_spec granted b n :
  bytes_wf b -> 0 <= n ->
  match yvex_core_bytes_reserve granted b n with
  | Some b' => bytes_wf b' /\ bytes_data b' = bytes_data b /\
      bytes_maximum b' = bytes_maximum b /\
      bytes_count b + n <= bytes_capacity b' /\ bytes_count b + n <= bytes_maximum b
  | None => bytes_maximum b < bytes_count b + n \/ granted = false
  end.
Proof.
  intros (H1 & H2 & H3 & H4 & H5) Hn. unfold yvex_core_bytes_reserve.
  pose proof (zlen_nonneg (bytes_data b)) as Hc. fold (bytes_count b) in Hc.
  unfold is_u64 in *. unfold SIZE_MAX, UINT64_MAX.
  destruct (_ <? n) eqn:?; [left; lia|].
  destruct (bytes_maximum b <? _) eqn:?; [left; lia|].
  destruct (_ <=? bytes_capacity b) eqn:?.
  { unfold bytes_wf, is_u64. repeat split; lia. }
  set (c0 := if (if bytes_capacity b =? 0 then _ else _) =? 0 then 1 else _).
  assert (0 < c0 /\ c0 < 18446744073709551616) as [Hc0 Hc1]
    by (subst c0; repeat case_match; lia).
  destruct (bytes_grow_total 64 c0 (bytes_count b + n) (bytes_maximum b))
    as (c & Hg & ? & ?); [lia..|].
  unfold bytes_fuel. rewrite Hg. replace (c <? _) with false by lia. destruct granted; [|by right].
  unfold bytes_wf, is_u64, bytes_count in *. cbn in *. repeat split; lia.
Qed.

(** Appending to a well-formed arena either writes the exact span after the
    bytes already present, keeps the arena within its budget and its capacity,
    or fails because the budget or the allocator refused it. *)
Theorem bytes_append_spec granted b data :
  bytes_wf b ->
  match yvex_core_bytes_append granted b data with
  | Some b' => bytes_wf b' /\ bytes_data b' = bytes_data b ++ data /\
      bytes_maximum b' = bytes_maximum b
  | None => bytes_maximum b < bytes_count b + zlen data \/ granted = false
  end.
Proof.
  intros Hb. unfold yvex_core_bytes_append.
  pose proof (bytes_reserve_spec granted b (zlen data) Hb (zlen_nonneg _)) as Hr.
  destruct (yvex_core_bytes_reserve granted b (zlen data)) as [b'|]; [|done].
  destruct Hr as (Hw & Hd & Hm & ? & ?). unfold bytes_wf, bytes_count, is_u64 in *. cbn.
  rewrite Hd in *. rewrite zlen_app. repeat split; (done || lia).
Qed.

(** ** Observation counters *)

(** What a recorded sequence adds to one counter. *)
Definition observed (k : yvex_core_execution_observation_kind)
    (events : list (yvex_core_execution_observation_kind * Z)) : Z :=
  foldr (fun e acc => (if decide (e.1 = k) then e.2 else 0) + acc) 0 events.

Definition record_all (events : list (yvex_core_execution_observation_kind * Z))
    (o : yvex_core_execution_observation) : yvex_core_execution_observation :=
  foldl (fun o e => yvex_core_execution_observation_record e.1 e.2 o) o events.

Lemma record_latched k n o :
  observation_overflowed o = true ->
  observation_overflowed (yvex_core_execution_observation_record k n o) = true.
Proof. intros H. destruct k; cbn; repeat case_match; done. Qed.

Lemma record_all_latched events o :
  observation_overflowed o = true -> observation_overflowed (record_all events o) = true.
Proof.
  revert o. induction events as [|e events IH]; intros o H; [done|].
  apply IH. by apply record_latched.
Qed.

Lemma record_counters k n o :
  let o' := yvex_core_execution_observation_record k n o in
  observation_overflowed o' = false ->
  observation_overflowed o = false /\
  source_headers_read o' = source_headers_read o
    + observed YVEX_CORE_OBSERVE_SOURCE_HEADER [(k, n)] /\
  source_payload_bytes_read o' = source_payload_bytes_read o
    + observed YVEX_CORE_OBSERVE_SOURCE_PAYLOAD_BYTES [(k, n)] /\
  transform_plans_built o' = transform_plans_built o
    + observed YVEX_CORE_OBSERVE_TRANSFORM_PLAN [(k, n)] /\
  quant_plans_built o' = quant_plans_built o
    + observed YVEX_CORE_OBSERVE_QUANT_PLAN [(k, n)] /\
  writer_plans_built o' = writer_plans_built o
    + observed YVEX_CORE_OBSERVE_WRITER_PLAN [(k, n)].
Proof.
  destruct k; cbn -[observed]; unfold observation_latch;
    try (destruct (_ <? _)); cbn -[observed]; intros H; try done;
    unfold observed; cbn [foldr fst snd]; repeat case_decide; try congruence;
    repeat split; (done || lia).
Qed.

Lemma observed_cons k e events : observed k (e :: events) = observed k [e] + observed k events.
Proof. unfold observed. cbn [foldr]. lia. Qed.

Lemma observed_nonneg k events :
  Forall (fun e => 0 <= e.2) events -> 0 <= observed k events.
Proof.
  induction 1 as [|e l He _ IH]; [done|]. unfold observed in *. cbn [foldr].
  case_decide; lia.
Qed.

Lemma record_all_counters events o :
  let o' := record_all events o in
  observation_overflowed o' = false ->
  observation_overflowed o = false /\
  source_headers_read o' = source_headers_read o
    + observed YVEX_CORE_OBSERVE_SOURCE_HEADER events /\
  source_payload_bytes_read o' = source_payload_bytes_read o
    + observed YVEX_CORE_OBSERVE_SOURCE_PAYLOAD_BYTES events /\
  transform_plans_built o' = transform_plans_built o
    + observed YVEX_CORE_OBSERVE_TRANSFORM_PLAN events /\
  quant_plans_built o' = quant_plans_built o
    + observed YVEX_CORE_OBSERVE_QUANT_PLAN events /\
  writer_plans_built o' = writer_plans_built o
    + observed YVEX_CORE_OBSERVE_WRITER_PLAN events.
Proof.
  revert o. induction events as [|[k n] events IH]; intros o o' H.
  { subst o'. cbn in *. repeat split; (done || lia). }
  pose proof (IH (yvex_core_execution_observation_record k n o) H) as (H0 & ?).
  pose proof (record_counters k n o H0) as (? & ?).
  rewrite !(observed_cons _ (k, n) events). subst o'. cbn [record_all foldl] in *.
  unfold record_all in *. cbn [foldl fst snd] in *. repeat split; (done || lia).
Qed.

(** The delta between two snapshots around a sequence of recorded events is
    exactly the per-kind sum of the recorded amounts, unless a counter
    overflowed, in which case no delta is produced. *)
Theorem observation_delta_exact events o :
  Forall (fun e => 0 <= e.2) events ->
  yvex_core_execution_observation_delta o (record_all events o) =
    if observation_overflowed (record_all events o) then None
    else Some (mk_observation
      (observed YVEX_CORE_OBSERVE_SOURCE_HEADER events)
      (observed YVEX_CORE_OBSERVE_SOURCE_PAYLOAD_BYTES events)
      (observed YVEX_CORE_OBSERVE_TRANSFORM_PLAN events)
      (observed YVEX_CORE_OBSERVE_QUANT_PLAN events)
      (observed YVEX_CORE_OBSERVE_WRITER_PLAN events) false).
Proof.
  intros Hpos. unfold yvex_core_execution_observation_delta.
  destruct (observation_overflowed (record_all events o)) eqn:Ho; [by rewrite orb_true_r|].
  destruct (record_all_counters events o Ho) as (-> & H1 & H2 & H3 & H4 & H5). cbn [orb].
  pose proof (fun k => observed_nonneg k events Hpos) as Hn.
  rewrite H1, H2, H3, H4, H5.
  pose proof (Hn YVEX_CORE_OBSERVE_SOURCE_HEADER).
  pose proof (Hn YVEX_CORE_OBSERVE_SOURCE_PAYLOAD_BYTES).
  pose proof (Hn YVEX_CORE_OBSERVE_TRANSFORM_PLAN).
  pose proof (Hn YVEX_CORE_OBSERVE_QUANT_PLAN).
  pose proof (Hn YVEX_CORE_OBSERVE_WRITER_PLAN).
  repeat match goal with |- context [?a + ?b <? ?a] =>
    replace (a + b <? a) with false by lia end.
  cbn [orb]. do 2 f_equal; lia.
Qed.

Lemma observation_delta_exact_witness :
  yvex_core_execution_observation_delta (mk_observation 1 2 3 4 5 false)
    (record_all [(YVEX_CORE_OBSERVE_QUANT_PLAN, 2); (YVEX_CORE_OBSERVE_SOURCE_HEADER, 7)]
       (mk_observation 1 2 3 4 5 false)) = Some (mk_observation 7 0 0 2 0 false).
Proof.
  rewrite (observation_delta_exact
    [(YVEX_CORE_OBSERVE_QUANT_PLAN, 2); (YVEX_CORE_OBSERVE_SOURCE_HEADER, 7)]
    (mk_observation 1 2 3 4 5 false)).
  - vm_compute. reflexivity.
  - repeat constructor; cbn; lia.
Defined.

Lemma bytes_append_spec_witness :
  exists b', yvex_core_bytes_append true (mk_bytes [1; 2] 2 16 0) [3; 4; 5] = Some b' /\
    bytes_data b' = [1; 2; 3; 4; 5].
Proof.
  pose proof (bytes_append_spec true (mk_bytes [1; 2] 2 16 0) [3; 4; 5]) as H.
  assert (bytes_wf (mk_bytes [1; 2] 2 16 0)) as Hw
    by (unfold bytes_wf, is_u64; vm_compute; intuition discriminate).
  specialize (H Hw).
  destruct (yvex_core_bytes_append true (mk_bytes [1; 2] 2 16 0) [3; 4; 5]) as [b'|] eqn:E.
  - exists b'. split; [reflexivity|]. apply H.
  - exfalso. vm_compute in E. discriminate.
Defined.
