(* ===== verification/Words.v ===== *)
(** * Words: little-endian integers

    The readers of binary containers assemble an integer from its bytes, least
    significant first.  [le_word] is that assembly; it inverts [Core.le_bytes]
    on integers that fit and is inverted by it on bytes. *)

From Stdlib Require Import ZArith Lia Bool.
From stdpp Require Import base list option numbers.
From S2P Require Import Prelude Core.

(** [value |= byte << (8 * index)] over the bytes. *)
Definition le_word (bytes : list Z) : Z :=
  foldl Z.lor 0 (imap (fun i b => Z.shiftl b (8 * Z.of_nat i)) bytes).

Lemma length_le_bytes n v : length (le_bytes n v) = n.
Proof. unfold le_bytes. by rewrite length_fmap, length_seq. Qed.

Lemma zlen_le_bytes n v : zlen (le_bytes n v) = Z.of_nat n.
Proof. unfold zlen. by rewrite length_le_bytes. Qed.

Lemma le_bytes_range n v : Forall is_u8 (le_bytes n v).
Proof. unfold le_bytes. apply Forall_fmap, Forall_true. intros i. apply u8_range. Qed.

Lemma le_word_snoc l b :
  le_word (l ++ [b]) = Z.lor (le_word l) (Z.shiftl b (8 * zlen l)).
Proof. unfold le_word, zlen. rewrite imap_app, foldl_app. cbn. by rewrite Nat.add_0_r. Qed.

Lemma le_word_range l : Forall is_u8 l -> 0 <= le_word l < 2 ^ (8 * zlen l).
Proof.
  induction l as [|b l IH] using rev_ind; intros Hl.
  { unfold le_word, zlen. cbn. lia. }
  apply Forall_app in Hl as [Hl [Hb _]%Forall_cons_1]. specialize (IH Hl).
  pose proof (zlen_nonneg l). unfold is_u8 in Hb.
  rewrite le_word_snoc, lor_shiftl_add by lia. autorewrite with zlen.
  replace (8 * (zlen l + (0 + 1))) with (8 * zlen l + 8) by lia. rewrite Z.pow_add_r by lia. nia.
Qed.

Lemma le_bytes_snoc n v : le_bytes (S n) v = le_bytes n v ++ [u8 (Z.shiftr v (8 * Z.of_nat n))].
Proof. unfold le_bytes. by rewrite seq_S, fmap_app. Qed.

Lemma le_word_bytes n v : 0 <= v -> le_word (le_bytes n v) = v mod 2 ^ (8 * Z.of_nat n).
Proof.
  intros Hv. induction n as [|n IH]; [unfold le_word; cbn; by rewrite Z.mod_1_r|].
  rewrite le_bytes_snoc, le_word_snoc. unfold zlen at 1. rewrite length_le_bytes.
  rewrite lor_shiftl_add; [|lia| |apply u8_range].
  2:{ rewrite IH. apply Z.mod_pos_bound, Z.pow_pos_nonneg; lia. }
  rewrite IH, Z.shiftr_div_pow2 by lia. unfold u8.
  replace (8 * Z.of_nat (S n)) with (8 * Z.of_nat n + 8) by lia.
  rewrite Z.pow_add_r, Z.rem_mul_r by lia. change (2 ^ 8) with 256. lia.
Qed.

Lemma le_word_u64 v : is_u64 v -> le_word (le_bytes 8 v) = v.
Proof. intros Hv. unfold is_u64 in Hv. rewrite le_word_bytes by lia. apply Z.mod_small. exact Hv. Qed.

Lemma le_word_u32 v : is_u32 v -> le_word (le_bytes 4 v) = v.
Proof. intros Hv. unfold is_u32 in Hv. rewrite le_word_bytes by lia. apply Z.mod_small. exact Hv. Qed.

Lemma le_bytes_mod n v : 0 <= v -> le_bytes n (v mod 2 ^ (8 * Z.of_nat n)) = le_bytes n v.
Proof.
  intros Hv. apply list_eq. intros i. unfold le_bytes. rewrite !list_lookup_fmap.
  destruct (decide (i < n)%nat) as [Hi|Hi]; [|by rewrite lookup_seq_ge by lia].
  rewrite lookup_seq_lt by lia. cbn. f_equal. unfold u8. change 256 with (2 ^ 8).
  apply Z.bits_inj'. intros j Hj. destruct (decide (j < 8)).
  - rewrite !Z.mod_pow2_bits_low, !Z.shiftr_spec by lia. apply Z.mod_pow2_bits_low. lia.
  - by rewrite !Z.mod_pow2_bits_high by lia.
Qed.

(** The bytes of the word assembled from bytes are those bytes. *)
Lemma le_bytes_word l : Forall is_u8 l -> le_bytes (length l) (le_word l) = l.
Proof.
  induction l as [|b l IH] using rev_ind; intros Hl; [done|].
  apply Forall_app in Hl as [Hl [Hb _]%Forall_cons_1]. pose proof (le_word_range l Hl) as Hr.
  specialize (IH Hl). unfold is_u8 in Hb. pose proof (zlen_nonneg l) as Hz.
  rewrite length_app, Nat.add_1_r. rewrite le_bytes_snoc, le_word_snoc, lor_shiftl_add by lia.
  unfold zlen in *. set (n := 8 * Z.of_nat (length l)) in *.
  assert (0 < 2 ^ n) by (apply Z.pow_pos_nonneg; lia). f_equal.
  - transitivity (le_bytes (length l) (le_word l)); [|done]. rewrite <- le_bytes_mod by nia. fold n.
    rewrite Z.mod_add, Z.mod_small by lia. done.
  - f_equal. rewrite Z.shiftr_div_pow2 by lia.
    rewrite Z.div_add, Z.div_small by lia. rewrite Z.add_0_l. by apply u8_id.
Qed.

Lemma le_bytes_inj n v w : 0 <= v < 2 ^ (8 * Z.of_nat n) -> 0 <= w < 2 ^ (8 * Z.of_nat n) ->
  le_bytes n v = le_bytes n w -> v = w.
Proof.
  intros Hv Hw E. apply (f_equal le_word) in E. rewrite !le_word_bytes, !Z.mod_small in E by lia. done.
Qed.
