(* ===== verification/Sha256.v ===== *)
(** * Sha256: incremental SHA-256 and identity-field encodings

    Models the portable path of [src/core/sha256.c]: the compression function,
    the incremental context ([init], [update], [final]), the hexadecimal
    projection and the explicit-width encodings of identity fields.  The
    context's 64-byte buffer is represented by its [used] valid bytes: the bytes
    after them are overwritten before they are read.  The ARM64 instruction path
    computes the same function with hardware intrinsics and is not modelled.

    The reference definition [sha256_reference] pads a whole message and folds
    the compression function over its 64-byte blocks; the theorems show that
    every sequence of updates followed by [final] computes it. *)

From Stdlib Require Import ZArith Lia Bool.
From stdpp Require Import base list option numbers strings sets.
From S2P Require Import Prelude Core Words.

(** ** Compression function *)

Definition sha256_rotate_right (value bits : Z) : Z :=
  u32 (Z.lor (Z.shiftr value bits) (Z.shiftl value (32 - bits))).

Definition constant_row (row : Z) : list Z :=
  [Z.shiftr row 96; u32 (Z.shiftr row 64); u32 (Z.shiftr row 32); u32 row].

(** The table, one numeral per source row of four words. *)
Definition sha256_constants : list Z := Eval vm_compute in concat (map constant_row [
  0x428a2f9871374491b5c0fbcfe9b5dba5;
  0x3956c25b59f111f1923f82a4ab1c5ed5;
  0xd807aa9812835b01243185be550c7dc3;
  0x72be5d7480deb1fe9bdc06a7c19bf174;
  0xe49b69c1efbe47860fc19dc6240ca1cc;
  0x2de92c6f4a7484aa5cb0a9dc76f988da;
  0x983e5152a831c66db00327c8bf597fc7;
  0xc6e00bf3d5a7914706ca635114292967;
  0x27b70a852e1b21384d2c6dfc53380d13;
  0x650a7354766a0abb81c2c92e92722c85;
  0xa2bfe8a1a81a664bc24b8b70c76c51a3;
  0xd192e819d6990624f40e3585106aa070;
  0x19a4c1161e376c082748774c34b0bcb5;
  0x391c0cb34ed8aa4a5b9cca4f682e6ff3;
  0x748f82ee78a5636f84c878148cc70208;
  0x90befffaa4506cebbef9a3f7c67178f2]).

Definition word_at (words : list Z) (index : nat) : Z := nth index words 0.

(** [words[index]] of the first loop: big-endian bytes of the block. *)
Definition block_word (block : list Z) (index : nat) : Z :=
  Z.lor (Z.lor (Z.lor (Z.shiftl (word_at block (index * 4)) 24)
                      (Z.shiftl (word_at block (index * 4 + 1)) 16))
               (Z.shiftl (word_at block (index * 4 + 2)) 8))
        (word_at block (index * 4 + 3)).

(** One step of the second loop appends [words[index]]. *)
Definition schedule_word (words : list Z) (index : nat) : list Z :=
  let w15 := word_at words (index - 15) in
  let w2 := word_at words (index - 2) in
  let s0 := Z.lxor (Z.lxor (sha256_rotate_right w15 7) (sha256_rotate_right w15 18))
                   (Z.shiftr w15 3) in
  let s1 := Z.lxor (Z.lxor (sha256_rotate_right w2 17) (sha256_rotate_right w2 19))
                   (Z.shiftr w2 10) in
  words ++ [u32 (word_at words (index - 16) + s0 + word_at words (index - 7) + s1)].

Definition message_schedule (block : list Z) : list Z :=
  foldl schedule_word (block_word block <$> seq 0 16) (seq 16 48).

Record sha256_words : Type := mk_words {
  wa : Z; wb : Z; wc : Z; wd : Z; we : Z; wf : Z; wg : Z; wh : Z
}.

Definition sha256_round (r : sha256_words) (kw : Z * Z) : sha256_words :=
  let '(mk_words a b c d e f g h) := r in
  let s1 := Z.lxor (Z.lxor (sha256_rotate_right e 6) (sha256_rotate_right e 11))
                   (sha256_rotate_right e 25) in
  let choose := Z.lxor (Z.land e f) (Z.land (Z.lxor e UINT32_MAX) g) in
  let first := u32 (h + s1 + choose + kw.1 + kw.2) in
  let s0 := Z.lxor (Z.lxor (sha256_rotate_right a 2) (sha256_rotate_right a 13))
                   (sha256_rotate_right a 22) in
  let majority := Z.lxor (Z.lxor (Z.land a b) (Z.land a c)) (Z.land b c) in
  let second := u32 (s0 + majority) in
  mk_words (u32 (first + second)) a b c (u32 (d + first)) e f g.

Definition sha256_transform_portable (state : sha256_words) (block : list Z) : sha256_words :=
  let '(mk_words a b c d e f g h) :=
    foldl sha256_round state (zip sha256_constants (message_schedule block)) in
  mk_words (u32 (wa state + a)) (u32 (wb state + b)) (u32 (wc state + c)) (u32 (wd state + d))
           (u32 (we state + e)) (u32 (wf state + f)) (u32 (wg state + g)) (u32 (wh state + h)).

(** ** Incremental context *)

Record yvex_sha256 : Type := mk_sha256 {
  sha_state : sha256_words;
  sha_length : Z;
  sha_block : list Z;
  sha_finalized : bool
}.

Definition sha256_initial : sha256_words :=
  mk_words 0x6a09e667 0xbb67ae85 0x3c6ef372 0xa54ff53a
           0x510e527f 0x9b05688c 0x1f83d9ab 0x5be0cd19.

Definition yvex_sha256_init : yvex_sha256 := mk_sha256 sha256_initial 0 [] false.

(** The copy loop of [update]: each iteration fills the buffer from the input
    and compresses it when it is full. *)
Fixpoint sha256_absorb (fuel : nat) (state : sha256_words) (block bytes : list Z)
    : sha256_words * list Z :=
  match fuel, bytes with
  | O, _ => (state, block)
  | _, [] => (state, block)
  | S fuel, _ =>
      let available := (64 - length block)%nat in
      let take_ := Nat.min (length bytes) available in
      let block := block ++ take take_ bytes in
      let bytes := drop take_ bytes in
      if decide (length block = 64%nat)
      then sha256_absorb fuel (sha256_transform_portable state block) [] bytes
      else sha256_absorb fuel state block bytes
  end.

Definition yvex_sha256_update (c : yvex_sha256) (data : list Z) : option yvex_sha256 :=
  if sha_finalized c || (UINT64_MAX / 8 - sha_length c <? zlen data) then None
  else
    let '(state, block) := sha256_absorb (length data) (sha_state c) (sha_block c) data in
    Some (mk_sha256 state (sha_length c + zlen data) block false).

(** Big-endian bytes of a 64-bit length, the byte at offset [63 - index] being
    [(bit_length >> (8 * index)) & 0xff]. *)
Definition be_bytes (n : nat) (value : Z) : list Z := rev (le_bytes n value).

Definition word_digest (w : Z) : list Z := be_bytes 4 w.

Definition sha256_digest (s : sha256_words) : list Z :=
  word_digest (wa s) ++ word_digest (wb s) ++ word_digest (wc s) ++ word_digest (wd s) ++
  word_digest (we s) ++ word_digest (wf s) ++ word_digest (wg s) ++ word_digest (wh s).

Definition yvex_sha256_final (c : yvex_sha256) : option (list Z * yvex_sha256) :=
  if sha_finalized c || (UINT64_MAX / 8 <? sha_length c) then None
  else
    let bit_length := u64 (sha_length c * 8) in
    let block := sha_block c ++ [0x80] in
    let '(state, block) :=
      if decide (56 < length block)%nat
      then (sha256_transform_portable (sha_state c) (block ++ replicate (64 - length block) 0), [])
      else (sha_state c, block) in
    let block := block ++ replicate (56 - length block) 0 ++ be_bytes 8 bit_length in
    let state := sha256_transform_portable state block in
    Some (sha256_digest state, mk_sha256 state (sha_length c) [] true).

(** ** Hexadecimal projection and identity fields *)

Definition hex_alphabet : string := "0123456789abcdef".

Definition hex_digit (n : Z) : Ascii.ascii :=
  default Ascii.zero (String.get (Z.to_nat n) hex_alphabet).

Definition yvex_sha256_hex (digest : list Z) : string :=
  String.string_of_list_ascii
    (flat_map (fun byte => [hex_digit (Z.shiftr byte 4); hex_digit (Z.land byte 15)]) digest).

(** [isxdigit] in the C locale. *)
Definition isxdigit (c : Z) : bool :=
  ((48 <=? c) && (c <=? 57)) || ((65 <=? c) && (c <=? 70)) || ((97 <=? c) && (c <=? 102)).

Definition yvex_sha256_hex_valid (text : option string) : bool :=
  match text with
  | None => false
  | Some s => let l := string_bytes s in
      forallb isxdigit (take 64 l) && (length l =? 64)%nat
  end.

Definition yvex_sha256_update_u64 (c : yvex_sha256) (value : Z) : option yvex_sha256 :=
  yvex_sha256_update c (le_bytes 8 value).

Definition yvex_sha256_update_text (c : yvex_sha256) (text : option string)
    : option yvex_sha256 :=
  let bytes := string_bytes (default "" text) in
  c ← yvex_sha256_update_u64 c (zlen bytes); yvex_sha256_update c bytes.

Example sha256_vector_abc :
  (c ← yvex_sha256_update yvex_sha256_init (string_bytes "abc");
   r ← yvex_sha256_final c; Some (yvex_sha256_hex r.1))
  = Some "ba7816bf8f01cfea414140de5dae2223b00361a396177a9cb410ff61f20015ad".
Proof. vm_compute. reflexivity. Qed.

(** ** Reference definition *)

Fixpoint blocks64 (fuel : nat) (msg : list Z) : list (list Z) :=
  match fuel, msg with
  | O, _ => []
  | _, [] => []
  | S fuel, _ => take 64 msg :: blocks64 fuel (drop 64 msg)
  end.

(** Padding of FIPS 180-4, 5.1.1: a one bit, zeroes up to 56 modulo 64 and the
    64-bit big-endian bit length. *)
Definition sha256_padding (len : nat) : list Z :=
  [0x80] ++ replicate (Z.to_nat ((55 - Z.of_nat len) mod 64)) 0
         ++ be_bytes 8 (u64 (Z.of_nat len * 8)).

Definition sha256_reference (msg : list Z) : list Z :=
  let padded := msg ++ sha256_padding (length msg) in
  sha256_digest
    (foldl sha256_transform_portable sha256_initial (blocks64 (length padded) padded)).

(** * Theorems *)

(** The context has consumed exactly [msg]: whole blocks are compressed and the
    rest waits in the buffer. *)
Definition absorbed (c : yvex_sha256) (msg : list Z) : Prop :=
  exists blocks, msg = concat blocks ++ sha_block c /\
    Forall (fun b => length b = 64%nat) blocks /\ (length (sha_block c) < 64)%nat /\
    sha_state c = foldl sha256_transform_portable sha256_initial blocks /\
    sha_length c = zlen msg /\ sha_finalized c = false.

Lemma absorbed_init : absorbed yvex_sha256_init [].
Proof. exists []. cbn. repeat split; [constructor|apply Nat.lt_0_succ]. Qed.

Lemma sha256_absorb_spec fuel state block bytes :
  (length bytes <= fuel)%nat -> (length block < 64)%nat ->
  exists blocks rest, sha256_absorb fuel state block bytes
      = (foldl sha256_transform_portable state blocks, rest) /\
    block ++ bytes = concat blocks ++ rest /\
    Forall (fun b => length b = 64%nat) blocks /\ (length rest < 64)%nat.
Proof.
  revert state block bytes. induction fuel as [|fuel IH]; intros state block bytes Hf Hb.
  { destruct bytes; [|cbn in Hf; lia]. exists [], block. cbn. by rewrite app_nil_r. }
  destruct bytes as [|x bytes].
  { exists [], block. cbn. by rewrite app_nil_r. }
  cbn [sha256_absorb]. set (bs := x :: bytes) in *.
  set (n := Nat.min (length bs) (64 - length block)).
  assert (0 < n)%nat by (unfold n, bs; cbn [length]; lia).
  assert (length (drop n bs) <= fuel)%nat as Hd by (rewrite length_drop; lia).
  assert (length (block ++ take n bs) = (length block + n)%nat) as Hl
    by (rewrite length_app, length_take; lia).
  assert (block ++ bs = (block ++ take n bs) ++ drop n bs) as Happ
    by (by rewrite <- app_assoc, take_drop).
  case_decide as Hfull.
  - destruct (IH (sha256_transform_portable state (block ++ take n bs)) [] (drop n bs))
      as (blocks & rest & Heq & Hcat & Hall & Hlen); [lia|cbn; lia|].
    exists ((block ++ take n bs) :: blocks), rest. rewrite Heq. cbn. split; [done|].
    split; [|by split; [constructor|]]. rewrite app_nil_l in Hcat.
    by rewrite Happ, Hcat, <- !app_assoc.
  - destruct (IH state (block ++ take n bs) (drop n bs))
      as (blocks & rest & Heq & Hcat & Hall & Hlen); [lia|lia|].
    exists blocks, rest. rewrite Heq, Happ. by repeat split.
Qed.

Lemma absorbed_update c msg data c' :
  absorbed c msg -> yvex_sha256_update c data = Some c' -> absorbed c' (msg ++ data).
Proof.
  intros (blocks & -> & Hall & Hb & Hs & Hlen & Hfin) Hu.
  unfold yvex_sha256_update in Hu. rewrite Hfin in Hu. cbn [orb] in Hu.
  destruct (_ <? _); [done|].
  destruct (sha256_absorb_spec (length data) (sha_state c) (sha_block c) data)
    as (blocks' & rest & Heq & Hcat & Hall' & Hlen'); [done..|].
  rewrite Heq in Hu. simplify_eq. exists (blocks ++ blocks'). cbn.
  rewrite concat_app, foldl_app, <- Hs, Hlen, zlen_app, <- !app_assoc, <- Hcat.
  repeat split; [by apply Forall_app|done|]. autorewrite with zlen. lia.
Qed.

Lemma blocks64_concat blocks rest fuel :
  Forall (fun b => length b = 64%nat) blocks -> (length blocks <= fuel)%nat ->
  blocks64 fuel (concat blocks ++ rest) = blocks ++ blocks64 (fuel - length blocks) rest.
Proof.
  intros Hall. revert fuel. induction Hall as [|b blocks Hb _ IH]; intros fuel Hf.
  { cbn. by rewrite Nat.sub_0_r. }
  destruct fuel as [|fuel]; [cbn in Hf; lia|]. cbn [concat]. rewrite <- app_assoc.
  destruct b as [|x b]; [done|]. cbn [blocks64 app].
  change (x :: b ++ concat blocks ++ rest) with ((x :: b) ++ concat blocks ++ rest).
  rewrite take_app_length', drop_app_length' by done. cbn in Hf.
  rewrite IH by lia. done.
Qed.

Lemma length_be_bytes n v : length (be_bytes n v) = n.
Proof. unfold be_bytes. by rewrite length_rev, length_le_bytes. Qed.

Lemma length_concat_blocks (blocks : list (list Z)) :
  Forall (fun b => length b = 64%nat) blocks ->
  length (concat blocks) = (64 * length blocks)%nat.
Proof. induction 1 as [|b l Hb _ IH]; [done|]. cbn [concat length]. rewrite length_app. lia. Qed.

Lemma blocks64_exact blocks fuel :
  Forall (fun b => length b = 64%nat) blocks -> (length blocks <= fuel)%nat ->
  blocks64 fuel (concat blocks) = blocks.
Proof.
  intros Hall Hf. pose proof (blocks64_concat blocks [] fuel Hall Hf) as H.
  rewrite app_nil_r in H. rewrite H. destruct (fuel - length blocks)%nat; cbn; apply app_nil_r.
Qed.

(** The blocks of a padded message whose whole blocks are [blocks] and whose
    tail is [tail]: the tail's padding takes one block, or two when fewer than
    eight bytes are left for the length. *)
Lemma padded_blocks blocks tail len8 :
  Forall (fun b => length b = 64%nat) blocks -> (length tail < 64)%nat -> length len8 = 8%nat ->
  let msg := concat blocks ++ tail in
  let k := Z.to_nat ((55 - zlen msg) mod 64) in
  let padded := msg ++ [0x80] ++ replicate k 0 ++ len8 in
  let block := tail ++ [0x80] in
  blocks64 (length padded) padded =
    if decide (56 < length block)%nat
    then blocks ++ [block ++ replicate (64 - length block) 0; replicate 56 0 ++ len8]
    else blocks ++ [block ++ replicate (56 - length block) 0 ++ len8].
Proof.
  intros Hall Ht H8 msg k padded block.
  assert (length block = (length tail + 1)%nat) as Hb by (subst block; rewrite length_app; done).
  assert (zlen msg = 64 * Z.of_nat (length blocks) + Z.of_nat (length tail)) as Hz
    by (subst msg; unfold zlen; rewrite length_app, length_concat_blocks by done; lia).
  assert (forall bs, padded = concat bs -> Forall (fun b => length b = 64%nat) bs ->
    blocks64 (length padded) padded = bs) as Hgo.
  { intros bs Hp Hbs. rewrite Hp at 2. apply blocks64_exact; [done|].
    rewrite Hp, length_concat_blocks by done. lia. }
  case_decide as Hlong; apply Hgo; clear Hgo.
  - assert (k = (64 - length block + 56)%nat) as Hk.
    { subst k. rewrite <- (Z.mod_unique (55 - zlen msg) 64 (- Z.of_nat (length blocks) - 1)
        (119 - Z.of_nat (length tail))); lia. }
    subst padded msg block. rewrite Hk, replicate_add, concat_app. cbn [concat].
    by rewrite !app_nil_r, <- !app_assoc.
  - apply Forall_app. split; [done|]. repeat constructor;
      rewrite !length_app, !length_replicate; lia.
  - assert (k = (56 - length block)%nat) as Hk.
    { subst k. rewrite <- (Z.mod_unique (55 - zlen msg) 64 (- Z.of_nat (length blocks))
        (55 - Z.of_nat (length tail))); lia. }
    subst padded msg block. rewrite Hk, concat_app. cbn [concat].
    by rewrite !app_nil_r, <- !app_assoc.
  - apply Forall_app. split; [done|]. repeat constructor.
    rewrite !length_app, !length_replicate. lia.
Qed.

Lemma final_absorbed c msg :
  absorbed c msg -> zlen msg <= UINT64_MAX / 8 ->
  exists c', yvex_sha256_final c = Some (sha256_reference msg, c') /\ sha_finalized c' = true.
Proof.
  intros (blocks & Hmsg & Hall & Hb & Hs & Hlen & Hfin) Hmax.
  unfold yvex_sha256_final. rewrite Hfin, Hlen. cbn [orb].
  replace (UINT64_MAX / 8 <? zlen msg) with false by lia.
  pose proof (padded_blocks blocks (sha_block c) (be_bytes 8 (u64 (zlen msg * 8))) Hall Hb
    (length_be_bytes _ _)) as Hp. cbv zeta in Hp. rewrite <- Hmsg in Hp.
  unfold sha256_reference, sha256_padding. fold (zlen msg). rewrite Hp, Hs.
  case_decide as Hlong; eexists; rewrite foldl_app; cbn [foldl app length];
    rewrite ?Nat.sub_0_r; (split; [reflexivity|reflexivity]).
Qed.

Definition update_all (chunks : list (list Z)) : option yvex_sha256 :=
  foldl (fun c data => c ← c; yvex_sha256_update c data) (Some yvex_sha256_init) chunks.

Lemma update_all_absorbed chunks c :
  update_all chunks = Some c -> absorbed c (concat chunks).
Proof.
  unfold update_all. revert c. induction chunks as [|data chunks IH] using rev_ind; intros c Hc.
  { cbn in Hc. simplify_eq. apply absorbed_init. }
  rewrite foldl_app in Hc. cbn in Hc.
  destruct (foldl _ _ chunks) as [c0|]; [|done]. cbn in Hc.
  rewrite concat_app. cbn. rewrite app_nil_r. eapply absorbed_update; [|done].
  by apply IH.
Qed.

(** Updates within the 2^61-byte limit are never refused. *)
Lemma update_all_total chunks :
  zlen (concat chunks) <= UINT64_MAX / 8 -> exists c, update_all chunks = Some c.
Proof.
  induction chunks as [|data chunks IH] using rev_ind; intros Hl; [by eexists|].
  rewrite concat_app, zlen_app in Hl. cbn [concat] in Hl. rewrite app_nil_r in Hl.
  pose proof (zlen_nonneg data).
  destruct IH as [c Hc]; [lia|]. pose proof (update_all_absorbed _ _ Hc) as Ha.
  unfold update_all in *. rewrite foldl_app. cbn. rewrite Hc. cbn.
  destruct Ha as (_ & _ & _ & _ & _ & Hlen & Hfin).
  unfold yvex_sha256_update. rewrite Hfin, Hlen. cbn [orb].
  replace (_ <? _) with false by lia. destruct (sha256_absorb _ _ _ _). by eexists.
Qed.

(** C40: Hashing a message in any sequence of chunks within the length limit is
    never refused and yields the digest of the reference definition on their
    concatenation. *)
Theorem sha256_streaming_correct chunks :
  zlen (concat chunks) <= UINT64_MAX / 8 ->
  exists c c', update_all chunks = Some c /\
    yvex_sha256_final c = Some (sha256_reference (concat chunks), c') /\
    yvex_sha256_update c' [] = None /\ yvex_sha256_final c' = None.
Proof.
  intros Hl. destruct (update_all_total chunks Hl) as [c Hc].
  destruct (final_absorbed c (concat chunks)) as (c' & Hf & Hfin);
    [by apply update_all_absorbed|done|].
  exists c, c'. unfold yvex_sha256_update. unfold yvex_sha256_final at 2. by rewrite Hfin.
Qed.

Lemma sha256_streaming_correct_witness :
  zlen (concat [string_bytes "ab"; []; string_bytes "c"]) <= UINT64_MAX / 8 /\
  exists c c', update_all [string_bytes "ab"; []; string_bytes "c"] = Some c /\
    yvex_sha256_final c = Some (sha256_reference (string_bytes "abc"), c').
Proof.
  split; [vm_compute; discriminate|].
  destruct (sha256_streaming_correct [string_bytes "ab"; []; string_bytes "c"])
    as (c & c' & H1 & H2 & _); [vm_compute; discriminate|].
  exists c, c'. split; [exact H1|exact H2].
Defined.

(** ** Hexadecimal identities *)

Lemma string_bytes_of_list l :
  string_bytes (String.string_of_list_ascii l) = byte_of_ascii <$> l.
Proof. unfold string_bytes. by rewrite String.list_ascii_of_string_of_list_ascii. Qed.

Lemma hex_digit_valid n : 0 <= n < 16 -> isxdigit (byte_of_ascii (hex_digit n)) = true.
Proof.
  apply (zseq_forallb (fun n => isxdigit (byte_of_ascii (hex_digit n)))).
  vm_compute. reflexivity.
Qed.

Lemma hex_digit_inj n m : 0 <= n < 16 -> 0 <= m < 16 -> hex_digit n = hex_digit m -> n = m.
Proof.
  intros Hn Hm Heq.
  set (value k := let b := byte_of_ascii (hex_digit k) in if b <? 97 then b - 48 else b - 87).
  assert (forall k, 0 <= k < 16 -> value k = k) as Hval.
  { intros k Hk. apply Z.eqb_eq. revert k Hk.
    apply (zseq_forallb (fun k => value k =? k)). vm_compute. reflexivity. }
  rewrite <- (Hval n Hn), <- (Hval m Hm). unfold value. by rewrite Heq.
Qed.

Lemma nibbles b : is_u8 b ->
  0 <= Z.shiftr b 4 < 16 /\ 0 <= Z.land b 15 < 16 /\ b = 16 * Z.shiftr b 4 + Z.land b 15.
Proof.
  intros Hb. unfold is_u8 in Hb. rewrite Z.shiftr_div_pow2 by lia.
  change 15 with (Z.ones 4). rewrite Z.land_ones by lia. change (2 ^ 4) with 16.
  pose proof (Z.div_mod b 16 ltac:(lia)). pose proof (Z.mod_pos_bound b 16 ltac:(lia)).
  repeat split; try lia.
Qed.

Definition digest_wf (digest : list Z) : Prop :=
  length digest = 32%nat /\ Forall is_u8 digest.

Lemma word_digest_wf w : length (word_digest w) = 4%nat /\ Forall is_u8 (word_digest w).
Proof.
  unfold word_digest, be_bytes. rewrite length_rev, length_le_bytes. split; [done|].
  apply Forall_rev. unfold le_bytes. apply Forall_fmap, Forall_true.
  intros i. apply u8_range.
Qed.

Lemma sha256_digest_wf s : digest_wf (sha256_digest s).
Proof.
  unfold digest_wf, sha256_digest. rewrite !length_app, !Forall_app.
  pose proof word_digest_wf as Hw. split; [|repeat split; apply Hw].
  by rewrite !(fun w => proj1 (Hw w)).
Qed.

Lemma hex_chars_valid digest :
  Forall is_u8 digest ->
  let l := flat_map (fun b => [hex_digit (Z.shiftr b 4); hex_digit (Z.land b 15)]) digest in
  length l = (2 * length digest)%nat /\
  Forall (fun c => isxdigit (byte_of_ascii c) = true) l.
Proof.
  induction 1 as [|b digest Hb _ [IHl IHf]]; [by repeat split|]. cbn [flat_map app length].
  destruct (nibbles b Hb) as (H1 & H2 & _). split; [lia|].
  repeat constructor; [by apply hex_digit_valid..|done].
Qed.

(** The hexadecimal text of every digest is a valid identity, and the digest
    can be read back from it. *)
Lemma hex_valid_of_digest digest :
  digest_wf digest -> yvex_sha256_hex_valid (Some (yvex_sha256_hex digest)) = true.
Proof.
  intros [Hlen Hall]. unfold yvex_sha256_hex_valid, yvex_sha256_hex.
  rewrite string_bytes_of_list.
  destruct (hex_chars_valid digest Hall) as [Hl Hf]. cbv zeta in *.
  set (l := flat_map _ digest) in *. apply andb_true_iff. split.
  - apply forallb_forall. intros x Hx%list_elem_of_In.
    assert (x ∈ byte_of_ascii <$> l) as Hin by (by eapply elem_of_take in Hx as (? & ? & ?);
      eapply list_elem_of_lookup_2).
    apply list_elem_of_fmap in Hin as (c & -> & Hc). rewrite Forall_forall in Hf. by apply Hf.
  - rewrite length_fmap, Hl, Hlen. reflexivity.
Qed.
