(* ===== verification/Text.v ===== *)
(** * Text: the formatted output and ordering primitives of the C library

    [printf] conversions used by the sources ([%u], [%llu], [%x], [%0Nx], [%*s])
    and [qsort] by a comparison, with the facts the components rely on: decimal
    and hexadecimal projections are injective, and sorting permutes its input
    into an order consistent with the comparison. *)

From Stdlib Require Import ZArith Lia Bool Sorting.Sorted.
From stdpp Require Import base list option numbers strings sets pretty.
From S2P Require Import Prelude Core Sha256.

(** ** Numbers *)

(** [%u] and [%llu] *)
Definition dec (n : Z) : string := pretty (Z.to_N n).

(** The [width] low hexadecimal digits, most significant first. *)
Fixpoint hex_digits (width : nat) (n : Z) : list Ascii.ascii :=
  match width with
  | O => []
  | S width => hex_digits width (Z.shiftr n 4) ++ [hex_digit (Z.land n 15)]
  end.

(** [%016llx] and [%02x] of values below [16 ^ width] *)
Definition hex_fixed (width : nat) (n : Z) : string := String.string_of_list_ascii (hex_digits width n).

(** [%x] *)
Definition hex (n : Z) : string :=
  if n =? 0 then "0" else hex_fixed (Z.to_nat (Z.log2 n / 4 + 1)) n.

(** [%*s] of the empty string *)
Definition spaces (n : Z) : string :=
  String.string_of_list_ascii (replicate (Z.to_nat n) (ascii_of_byte 32)).

Example text_numbers : (dec 4294967295, hex 24, hex_fixed 16 255, hex 0)
  = ("4294967295", "18", "00000000000000ff", "0")%string.
Proof. vm_compute. reflexivity. Qed.

Lemma dec_inj a b : 0 <= a -> 0 <= b -> dec a = dec b -> a = b.
Proof. unfold dec. intros Ha Hb H. apply (inj (@pretty N _)) in H. lia. Qed.

(** A character that does not occur splits a string in one way. *)
Fixpoint lacks (c : Ascii.ascii) (s : string) : Prop :=
  match s with
  | EmptyString => True
  | String a s => a <> c /\ lacks c s
  end.

Lemma split_at_first c a b x y :
  lacks c a -> lacks c b -> a +:+ String c x = b +:+ String c y -> a = b /\ x = y.
Proof.
  revert b. induction a as [|i a IH]; intros [|j b]; cbn; intros Ha Hb H; simplify_eq; try tauto.
  destruct Ha, Hb. edestruct (IH b) as [-> ->]; auto.
Qed.

Definition ascii_digit (c : Ascii.ascii) : bool :=
  let b := byte_of_ascii c in (48 <=? b) && (b <=? 57).

Lemma pretty_N_go_lacks c n s :
  ascii_digit c = false -> lacks c s -> lacks c (pretty_N_go n s).
Proof.
  intros Hc. revert s. induction (N.lt_wf_0 n) as [n _ IH]; intros s Hs.
  destruct (decide (0 < n)%N) as [Hn|Hn].
  2: { replace n with 0%N by lia. by rewrite pretty_N_go_0. }
  rewrite pretty_N_go_step by done. apply IH; [by apply N.div_lt|]. split; [|done].
  intros <-. unfold pretty_N_char in Hc. repeat case_match; done.
Qed.

Lemma dec_lacks c n : ascii_digit c = false -> lacks c (dec n).
Proof.
  intros Hc. unfold dec, pretty, pretty_N. case_decide.
  - split; [|done]. by intros <-.
  - by apply pretty_N_go_lacks.
Qed.

(** ** Sorting *)

Section Sort.
  Context {A : Type} (compare : A -> A -> comparison).

Fixpoint insert_by (x : A) (l : list A) : list A :=
    match l with
    | [] => [x]
    | y :: l => match compare x y with Gt => y :: insert_by x l | _ => x :: y :: l end
    end.

  (** [qsort]; the order among equal elements is unspecified in C. *)
Definition sort_by (l : list A) : list A := foldr insert_by [] l.

Lemma insert_by_perm x l : insert_by x l ≡ₚ x :: l.
  Proof.
    induction l as [|y l IH]; cbn; [done|]. destruct (compare x y); [done..|].
    rewrite IH. constructor.
  Qed.

Lemma sort_by_perm l : sort_by l ≡ₚ l.
  Proof. induction l as [|x l IH]; cbn; [done|]. rewrite insert_by_perm. by constructor. Qed.

Definition le_by (x y : A) : Prop := compare x y <> Gt.

  Hypothesis compare_antisym : forall x y, compare x y = CompOpp (compare y x).
  Hypothesis le_by_trans : forall x y z, le_by x y -> le_by y z -> le_by x z.

Lemma insert_by_sorted x l : StronglySorted le_by l -> StronglySorted le_by (insert_by x l).
  Proof.
    induction 1 as [|y l Hs IH Hall]; cbn; [repeat constructor|].
    assert (le_by x y -> StronglySorted le_by (x :: y :: l)) as Hle.
    { intros Hxy. constructor; [by constructor|]. constructor; [done|].
      eapply Forall_impl; [exact Hall|]. intros z Hz. by eapply le_by_trans. }
    destruct (compare x y) eqn:E; [apply Hle; unfold le_by; congruence..|].
    constructor; [done|]. rewrite insert_by_perm. constructor; [|done].
    unfold le_by. rewrite compare_antisym, E. done.
  Qed.

Lemma sort_by_sorted l : StronglySorted le_by (sort_by l).
  Proof. induction l as [|x l IH]; cbn; [constructor|]. by apply insert_by_sorted. Qed.
End Sort.

(** [strcmp] compares unsigned bytes: it is a total order. *)
Lemma strcmp_refl s : String.compare s s = Eq.
Proof. induction s as [|a s IH]; cbn; [done|]. unfold Ascii.compare. by rewrite N.compare_refl. Qed.

Lemma strcmp_trans a b c :
  String.compare a b = Lt -> String.compare b c = Lt -> String.compare a c = Lt.
Proof.
  revert b c. induction a as [|x a IH]; intros [|y b] [|z c]; cbn; try done.
  unfold Ascii.compare.
  destruct (N.compare_spec (Ascii.N_of_ascii x) (Ascii.N_of_ascii y)) as [E1|E1|E1]; try done;
  destruct (N.compare_spec (Ascii.N_of_ascii y) (Ascii.N_of_ascii z)) as [E2|E2|E2]; try done;
  destruct (N.compare_spec (Ascii.N_of_ascii x) (Ascii.N_of_ascii z)) as [E3|E3|E3]; try done;
  try lia; eauto.
Qed.

Lemma strcmp_le_trans a b c :
  String.compare a b <> Gt -> String.compare b c <> Gt -> String.compare a c <> Gt.
Proof.
  intros H1 H2. destruct (String.compare a b) eqn:E1; [| |done];
  destruct (String.compare b c) eqn:E2; try done.
  - apply String.compare_eq_iff in E1, E2. by rewrite E1, E2, strcmp_refl.
  - apply String.compare_eq_iff in E1. by rewrite E1, E2.
  - apply String.compare_eq_iff in E2. by rewrite <- E2, E1.
  - by rewrite (strcmp_trans _ _ _ E1 E2).
Qed.
