(* ===== verification/Utf8.v ===== *)
(** * UTF-8 scalars ([src/core/json.c], lines 21-111)

    The decoder of one scalar value and the validator of streamed fragments,
    with every byte read through a checked access.  They are compared with a
    reference encoder: decoding inverts it on every scalar value and accepts no
    other byte sequence, and the validator accepts exactly the concatenations of
    encodings followed by at most one unfinished encoding. *)

From Stdlib Require Import ZArith Lia Bool.
From stdpp Require Import base list option numbers.
From S2P Require Import Prelude Core.

(** ** Code *)

(** The loop over the [needed] continuation bytes: the value and the cursor, or
    [None] when a byte is not a continuation. *)
Fixpoint utf8_continue (needed : nat) (bytes : list Z) (cursor value : Z) : outcome (option (Z * Z)) :=
  match needed with
  | O => Done (Some (value, cursor))
  | S needed =>
      byte ← read_at bytes cursor;
      if negb (Z.land byte 0xc0 =? 0x80) then Done None
      else utf8_continue needed bytes (cursor + 1)
             (Z.lor (u32 (Z.shiftl value 6)) (Z.land byte 0x3f))
  end.

(** The value bits of a lead byte and the number of bytes that follow it. *)
Definition utf8_lead (first : Z) : option (Z * Z) :=
  if (0xc2 <=? first) && (first <=? 0xdf) then Some (Z.land first 0x1f, 1)
  else if (0xe0 <=? first) && (first <=? 0xef) then Some (Z.land first 0x0f, 2)
  else if (0xf0 <=? first) && (first <=? 0xf4) then Some (Z.land first 0x07, 3)
  else None.

(** The scalar value and the offset after it. *)
Definition yvex_core_utf8_next (bytes : list Z) (offset : Z) : outcome (option (Z * Z)) :=
  if zlen bytes <=? offset then Done None else
  first ← read_at bytes offset;
  let cursor := offset + 1 in
  if first <=? 0x7f then Done (Some (first, cursor)) else
  match utf8_lead first with
  | None => Done None
  | Some (value, needed) =>
      if zlen bytes - cursor <? needed then Done None else
      r ← utf8_continue (Z.to_nat needed) bytes cursor value;
      match r with
      | None => Done None
      | Some (value, cursor) =>
          if ((needed =? 2) && (value <? 0x800)) || ((needed =? 3) && (value <? 0x10000))
             || (0x10ffff <? value) || ((0xd800 <=? value) && (value <=? 0xdfff))
          then Done None else Done (Some (value, cursor))
      end
  end.

Definition utf8_tail_needed (first : Z) : option Z :=
  if (0xc2 <=? first) && (first <=? 0xdf) then Some 2
  else if (0xe0 <=? first) && (first <=? 0xef) then Some 3
  else if (0xf0 <=? first) && (first <=? 0xf4) then Some 4
  else None.

Definition utf8_tail_valid (bytes : list Z) : outcome bool :=
  let count := zlen bytes in
  if (count =? 0) || (3 <? count) then Done false else
  first ← read_at bytes 0;
  match utf8_tail_needed first with
  | None => Done false
  | Some needed =>
      if needed <=? count then Done false else
      continued ← forallO (fun index => byte ← read_at bytes (index + 1);
                                        Done (Z.land byte 0xc0 =? 0x80)) (zseq (count - 1));
      if negb continued then Done false else
      if 1 <? count then
        second ← read_at bytes 1;
        Done (negb (((first =? 0xe0) && (second <? 0xa0)) || ((first =? 0xed) && (0xa0 <=? second))
                    || ((first =? 0xf0) && (second <? 0x90)) || ((first =? 0xf4) && (0x90 <=? second))))
      else Done true
  end.

(** The scan; every step consumes at least one byte, so the number of bytes is
    fuel enough. *)
Fixpoint utf8_scan (fuel : nat) (bytes : list Z) (offset : Z) : outcome (option Z) :=
  if zlen bytes <=? offset then Done (Some (zlen bytes)) else
  match fuel with
  | O => Fault OutOfFuel
  | S fuel =>
      r ← yvex_core_utf8_next bytes offset;
      match r with
      | Some (_, offset) => utf8_scan fuel bytes offset
      | None =>
          valid ← utf8_tail_valid (drop (Z.to_nat offset) bytes);
          Done (if valid : bool then Some offset else None)
      end
  end.

Definition yvex_core_utf8_prefix (bytes : list Z) : outcome (option Z) :=
  utf8_scan (length bytes) bytes 0.

(** ** Reference *)

Definition scalar (point : Z) : bool :=
  (0 <=? point) && (point <=? 0x10ffff) && negb ((0xd800 <=? point) && (point <=? 0xdfff)).

Definition continuation (bits : Z) : Z := 0x80 + bits mod 64.

Definition encode (point : Z) : list Z :=
  if point <? 0x80 then [point]
  else if point <? 0x800 then [0xc0 + point / 64; continuation point]
  else if point <? 0x10000 then
    [0xe0 + point / 4096; continuation (point / 64); continuation point]
  else [0xf0 + point / 262144; continuation (point / 4096); continuation (point / 64);
        continuation point].

Definition encode_all (points : list Z) : list Z := concat (encode <$> points).

(** A non-empty strict prefix of an encoding. *)
Definition unfinished (tail : list Z) : Prop :=
  exists point rest, scalar point = true /\ tail <> [] /\ rest <> [] /\ encode point = tail ++ rest.

Example utf8_examples :
  (encode 0x41, encode 0xe9, encode 0x20ac, encode 0x1f600)
  = ([0x41], [0xc3; 0xa9], [0xe2; 0x82; 0xac], [0xf0; 0x9f; 0x98; 0x80])
  /\ yvex_core_utf8_next [0xe2; 0x82; 0xac; 0x41] 0 = Done (Some (0x20ac, 3))
  /\ yvex_core_utf8_next [0xc0; 0x80] 0 = Done None
  /\ yvex_core_utf8_prefix [0x41; 0xe2; 0x82] = Done (Some 1)
  /\ yvex_core_utf8_prefix [0x41; 0xed; 0xa0] = Done None.
Proof. vm_compute. repeat split. Qed.

(** * Theorems *)

(** ** Bits of bytes *)

Lemma is_continuation byte :
  is_u8 byte -> (Z.land byte 0xc0 =? 0x80) = (128 <=? byte) && (byte <? 192).
Proof.
  intros H. apply eqb_prop.
  apply (zseq_forallb (fun b => eqb (Z.land b 0xc0 =? 0x80) ((128 <=? b) && (b <? 192))) 256);
    [by vm_compute|exact H].
Qed.

Lemma land_ones b k : 0 <= k -> Z.land b (2 ^ k - 1) = b mod 2 ^ k.
Proof. intros. rewrite <- Z.land_ones by done. by rewrite Z.ones_equiv, Z.sub_1_r. Qed.

(** Appending six bits. *)
Lemma append_bits value byte :
  0 <= value < 2 ^ 20 -> Z.lor (u32 (Z.shiftl value 6)) (Z.land byte 0x3f) = value * 64 + byte mod 64.
Proof.
  intros Hv. change 0x3f with (2 ^ 6 - 1). rewrite land_ones by lia.
  rewrite u32_id by (unfold is_u32; rewrite Z.shiftl_mul_pow2 by lia; lia).
  rewrite Z.lor_comm, lor_shiftl_add; [|lia|apply Z.mod_pos_bound; lia|lia].
  change (2 ^ 6) with 64. lia.
Qed.

Lemma lead_spec first :
  is_u8 first ->
  utf8_lead first =
    if (194 <=? first) && (first <=? 223) then Some (first - 192, 1)
    else if (224 <=? first) && (first <=? 239) then Some (first - 224, 2)
    else if (240 <=? first) && (first <=? 244) then Some (first - 240, 3)
    else None.
Proof.
  intros H. unfold utf8_lead.
  change 0x1f with (2 ^ 5 - 1). change 0x0f with (2 ^ 4 - 1). change 0x07 with (2 ^ 3 - 1).
  rewrite !land_ones by lia.
  destruct ((194 <=? first) && (first <=? 223)) eqn:E1.
  { do 2 f_equal. symmetry. apply (Z.mod_unique_pos _ _ 6); lia. }
  destruct ((224 <=? first) && (first <=? 239)) eqn:E2.
  { do 2 f_equal. symmetry. apply (Z.mod_unique_pos _ _ 14); lia. }
  destruct ((240 <=? first) && (first <=? 244)) eqn:E3; [|done].
  do 2 f_equal. symmetry. apply (Z.mod_unique_pos _ _ 30); lia.
Qed.

(** ** Decoding at the head of a list *)

Definition is_cont (byte : Z) : bool := (128 <=? byte) && (byte <? 192).

Definition point_valid (needed value : Z) : bool :=
  negb (((needed =? 2) && (value <? 0x800)) || ((needed =? 3) && (value <? 0x10000))
        || (0x10ffff <? value) || ((0xd800 <=? value) && (value <=? 0xdfff))).

(** The scalar value at the head and the number of bytes it takes. *)
Definition decode (l : list Z) : option (Z * Z) :=
  let checked needed value := if point_valid needed value then Some (value, needed + 1) else None in
  match l with
  | [] => None
  | b0 :: l =>
      if b0 <=? 127 then Some (b0, 1)
      else if (194 <=? b0) && (b0 <=? 223) then
        match l with
        | b1 :: _ => if is_cont b1 then checked 1 ((b0 - 192) * 64 + b1 mod 64) else None
        | _ => None
        end
      else if (224 <=? b0) && (b0 <=? 239) then
        match l with
        | b1 :: b2 :: _ =>
            if is_cont b1 && is_cont b2
            then checked 2 (((b0 - 224) * 64 + b1 mod 64) * 64 + b2 mod 64) else None
        | _ => None
        end
      else if (240 <=? b0) && (b0 <=? 244) then
        match l with
        | b1 :: b2 :: b3 :: _ =>
            if is_cont b1 && is_cont b2 && is_cont b3
            then checked 3 ((((b0 - 240) * 64 + b1 mod 64) * 64 + b2 mod 64) * 64 + b3 mod 64)
            else None
        | _ => None
        end
      else None
  end.

Lemma read_middle {A} (pre : list A) x post : read_at (pre ++ x :: post) (zlen pre) = Done x.
Proof. unfold read_at. by rewrite zget_middle. Qed.

Lemma continue_step n pre b rest value :
  is_u8 b -> 0 <= value < 2 ^ 20 ->
  utf8_continue (S n) (pre ++ b :: rest) (zlen pre) value
  = if is_cont b then utf8_continue n ((pre ++ [b]) ++ rest) (zlen (pre ++ [b])) (value * 64 + b mod 64)
    else Done None.
Proof.
  intros Hb Hv. cbn [utf8_continue]. rewrite read_middle. cbn [mbind outcome_bind].
  rewrite is_continuation by done. fold (is_cont b). destruct (is_cont b); [|done]. cbn [negb].
  rewrite append_bits by done. rewrite zlen_app, <- app_assoc. done.
Qed.

Lemma next_decode pre l :
  Forall is_u8 l ->
  yvex_core_utf8_next (pre ++ l) (zlen pre)
  = Done (match decode l with Some (p, used) => Some (p, zlen pre + used) | None => None end).
Proof.
  intros Hl. unfold yvex_core_utf8_next. pose proof (zlen_nonneg pre).
  destruct l as [|b0 l]; cbn [decode].
  { rewrite app_nil_r. by replace (zlen pre <=? zlen pre) with true by lia. }
  pose proof (zlen_nonneg l). inversion_clear Hl as [|? ? Hb0 Hl'].
  replace (zlen (pre ++ b0 :: l) <=? zlen pre) with false by (autorewrite with zlen; lia).
  rewrite read_middle. cbn [mbind outcome_bind]. change 0x7f with 127.
  destruct (b0 <=? 127) eqn:E; [done|]. rewrite lead_spec by done.
  assert (forall r : list Z, pre ++ b0 :: r = (pre ++ [b0]) ++ r) as Happ by (intros r; by rewrite <- app_assoc).
  replace (zlen pre + 1) with (zlen (pre ++ [b0])) by by rewrite zlen_app.
  assert (zlen (pre ++ b0 :: l) - zlen (pre ++ [b0]) = zlen l) as Hleft by (autorewrite with zlen; lia).
  destruct ((194 <=? b0) && (b0 <=? 223)) eqn:E1;
    [|destruct ((224 <=? b0) && (b0 <=? 239)) eqn:E2;
      [|destruct ((240 <=? b0) && (b0 <=? 244)) eqn:E3; [|done]]]; rewrite Hleft.
  - destruct l as [|b1 l]; [done|]. inversion_clear Hl' as [|? ? Hb1 Hl].
    replace (zlen (b1 :: l) <? 1) with false by (autorewrite with zlen in *; pose proof (zlen_nonneg l); lia).
    rewrite Happ. change (Z.to_nat 1) with 1%nat. rewrite continue_step by (done || lia).
    destruct (is_cont b1); [|done]. cbn [utf8_continue mbind outcome_bind]. unfold point_valid.
    destruct (_ || _); [done|]. cbn [negb]. autorewrite with zlen. do 3 f_equal. lia.
  - destruct l as [|b1 [|b2 l]]; [done..|].
    inversion_clear Hl' as [|? ? Hb1 Hl]. inversion_clear Hl as [|? ? Hb2 Hl'].
    replace (zlen (b1 :: b2 :: l) <? 2) with false
      by (autorewrite with zlen in *; pose proof (zlen_nonneg l); lia).
    rewrite Happ. change (Z.to_nat 2) with 2%nat. rewrite continue_step by (done || lia).
    destruct (is_cont b1) eqn:Ec1; [|done]. pose proof (Z.mod_pos_bound b1 64).
    rewrite continue_step by (done || lia). cbn [andb].
    destruct (is_cont b2); [|done]. cbn [utf8_continue mbind outcome_bind]. unfold point_valid.
    destruct (_ || _); [done|]. cbn [negb]. autorewrite with zlen. do 3 f_equal. lia.
  - destruct l as [|b1 [|b2 [|b3 l]]]; [done..|].
    inversion_clear Hl' as [|? ? Hb1 Hl]. inversion_clear Hl as [|? ? Hb2 Hl'].
    inversion_clear Hl' as [|? ? Hb3 Hl].
    replace (zlen (b1 :: b2 :: b3 :: l) <? 3) with false
      by (autorewrite with zlen in *; pose proof (zlen_nonneg l); lia).
    rewrite Happ. change (Z.to_nat 3) with 3%nat. rewrite continue_step by (done || lia).
    destruct (is_cont b1) eqn:Ec1; [|done]. pose proof (Z.mod_pos_bound b1 64).
    rewrite continue_step by (done || lia). cbn [andb].
    destruct (is_cont b2) eqn:Ec2; [|done]. pose proof (Z.mod_pos_bound b2 64).
    rewrite continue_step by (done || lia). cbn [andb].
    destruct (is_cont b3); [|done]. cbn [utf8_continue mbind outcome_bind]. unfold point_valid.
    destruct (_ || _); [done|]. cbn [negb]. autorewrite with zlen. do 3 f_equal. lia.
Qed.

(** ** Decoding inverts encoding *)

Ltac divs := Z.to_euclidean_division_equations; lia.

Lemma cont_range bits : is_cont (continuation bits) = true /\ continuation bits mod 64 = bits mod 64.
Proof. unfold is_cont, continuation. split; [|]; divs. Qed.

Lemma scalar_range p :
  scalar p = true -> 0 <= p <= 0x10ffff /\ ~ (0xd800 <= p <= 0xdfff).
Proof. unfold scalar. lia. Qed.

Lemma point_valid_scalar p needed :
  scalar p = true -> (needed = 2 -> 0x800 <= p) -> (needed = 3 -> 0x10000 <= p) ->
  point_valid needed p = true.
Proof. unfold scalar, point_valid. lia. Qed.

Lemma decode_encode p rest :
  scalar p = true -> decode (encode p ++ rest) = Some (p, zlen (encode p)).
Proof.
  intros Hp. pose proof (scalar_range _ Hp) as [Hr _]. unfold encode.
  destruct (p <? 128) eqn:E1.
  { cbn. by replace (p <=? 127) with true by lia. }
  destruct (p <? 2048) eqn:E2.
  { cbn [app decode]. replace (192 + p / 64 <=? 127) with false by divs.
    replace ((194 <=? 192 + p / 64) && (192 + p / 64 <=? 223)) with true by divs.
    destruct (cont_range p) as [-> ->].
    replace ((192 + p / 64 - 192) * 64 + p mod 64) with p by divs.
    by rewrite point_valid_scalar by (done || lia). }
  destruct (p <? 65536) eqn:E3.
  { cbn [app decode]. replace (224 + p / 4096 <=? 127) with false by divs.
    replace ((194 <=? 224 + p / 4096) && (224 + p / 4096 <=? 223)) with false by divs.
    replace ((224 <=? 224 + p / 4096) && (224 + p / 4096 <=? 239)) with true by divs.
    destruct (cont_range p) as [-> ->], (cont_range (p / 64)) as [-> ->]. cbn [andb].
    replace (((224 + p / 4096 - 224) * 64 + (p / 64) mod 64) * 64 + p mod 64) with p by divs.
    by rewrite point_valid_scalar by (done || lia). }
  cbn [app decode]. replace (240 + p / 262144 <=? 127) with false by divs.
  replace ((194 <=? 240 + p / 262144) && (240 + p / 262144 <=? 223)) with false by divs.
  replace ((224 <=? 240 + p / 262144) && (240 + p / 262144 <=? 239)) with false by divs.
  replace ((240 <=? 240 + p / 262144) && (240 + p / 262144 <=? 244)) with true by divs.
  destruct (cont_range p) as [-> ->], (cont_range (p / 64)) as [-> ->], (cont_range (p / 4096)) as [-> ->].
  cbn [andb].
  replace ((((240 + p / 262144 - 240) * 64 + (p / 4096) mod 64) * 64 + (p / 64) mod 64) * 64 + p mod 64)
    with p by divs.
  by rewrite point_valid_scalar by (done || lia).
Qed.

(** The encodings of the values that a lead and its continuations denote. *)
Lemma encode_two b0 b1 :
  194 <= b0 <= 223 -> is_cont b1 = true -> encode ((b0 - 192) * 64 + b1 mod 64) = [b0; b1].
Proof.
  unfold is_cont, encode, continuation. intros H0 H1.
  replace (_ <? 128) with false by divs. replace (_ <? 2048) with true by divs. f_equal; [divs|].
  f_equal. divs.
Qed.

Lemma encode_three b0 b1 b2 :
  224 <= b0 <= 239 -> is_cont b1 = true -> is_cont b2 = true ->
  2048 <= ((b0 - 224) * 64 + b1 mod 64) * 64 + b2 mod 64 ->
  encode (((b0 - 224) * 64 + b1 mod 64) * 64 + b2 mod 64) = [b0; b1; b2].
Proof.
  unfold is_cont, encode, continuation. intros H0 H1 H2 H3.
  replace (_ <? 128) with false by divs. replace (_ <? 2048) with false by divs.
  replace (_ <? 65536) with true by divs. f_equal; [divs|]. f_equal; [divs|]. f_equal. divs.
Qed.

Lemma encode_four b0 b1 b2 b3 :
  240 <= b0 <= 244 -> is_cont b1 = true -> is_cont b2 = true -> is_cont b3 = true ->
  65536 <= (((b0 - 240) * 64 + b1 mod 64) * 64 + b2 mod 64) * 64 + b3 mod 64 ->
  encode ((((b0 - 240) * 64 + b1 mod 64) * 64 + b2 mod 64) * 64 + b3 mod 64) = [b0; b1; b2; b3].
Proof.
  unfold is_cont, encode, continuation. intros H0 H1 H2 H3 H4.
  replace (_ <? 128) with false by divs. replace (_ <? 2048) with false by divs.
  replace (_ <? 65536) with false by divs. f_equal; [divs|]. f_equal; [divs|]. f_equal; [divs|].
  f_equal. divs.
Qed.

Lemma decode_sound l p used :
  Forall is_u8 l -> decode l = Some (p, used) ->
  scalar p = true /\ used = zlen (encode p) /\ exists rest, l = encode p ++ rest.
Proof.
  intros Hl H. destruct l as [|b0 l]; [done|]. inversion_clear Hl as [|? ? Hb0 _].
  unfold is_u8 in Hb0. cbn [decode] in H. destruct (b0 <=? 127) eqn:E0.
  { simplify_eq. unfold encode, scalar. replace (p <? 128) with true by lia.
    split; [lia|]. split; [done|]. by exists l. }
  destruct ((194 <=? b0) && (b0 <=? 223)) eqn:E1;
    [|destruct ((224 <=? b0) && (b0 <=? 239)) eqn:E2;
      [|destruct ((240 <=? b0) && (b0 <=? 244)) eqn:E3; [|done]]].
  - destruct l as [|b1 l]; [done|]. destruct (is_cont b1) eqn:C1; [|done].
    destruct (point_valid _ _) eqn:V; [|done]. simplify_eq. rewrite encode_two by (done || lia).
    split; [unfold scalar, point_valid in *; divs|]. split; [done|]. by exists l.
  - destruct l as [|b1 [|b2 l]]; [done..|]. destruct (is_cont b1) eqn:C1, (is_cont b2) eqn:C2; try done.
    cbn [andb] in H. destruct (point_valid _ _) eqn:V; [|done]. simplify_eq.
    rewrite encode_three by (done || (unfold point_valid in V; lia)).
    split; [unfold scalar, point_valid in *; divs|]. split; [done|]. by exists l.
  - destruct l as [|b1 [|b2 [|b3 l]]]; [done..|].
    destruct (is_cont b1) eqn:C1, (is_cont b2) eqn:C2, (is_cont b3) eqn:C3; try done.
    cbn [andb] in H. destruct (point_valid _ _) eqn:V; [|done]. simplify_eq.
    rewrite encode_four by (done || (unfold point_valid in V; lia)).
    split; [unfold scalar, point_valid in *; divs|]. split; [done|]. by exists l.
Qed.

(** ** Unfinished encodings *)

Definition second_ok (first second : Z) : bool :=
  negb (((first =? 224) && (second <? 160)) || ((first =? 237) && (160 <=? second))
        || ((first =? 240) && (second <? 144)) || ((first =? 244) && (144 <=? second))).

Definition tail_ok (l : list Z) : bool :=
  match l with
  | [b0] => (194 <=? b0) && (b0 <=? 244)
  | [b0; b1] => (224 <=? b0) && (b0 <=? 244) && is_cont b1 && second_ok b0 b1
  | [b0; b1; b2] => (240 <=? b0) && (b0 <=? 244) && is_cont b1 && is_cont b2 && second_ok b0 b1
  | _ => false
  end.

#[local] Arguments Z.land : simpl never.

Lemma tail_spec l : Forall is_u8 l -> utf8_tail_valid l = Done (tail_ok l).
Proof.
  intros Hl. unfold utf8_tail_valid.
  destruct l as [|b0 [|b1 [|b2 [|b3 l]]]]; [done|..].
  4: { pose proof (zlen_nonneg l). autorewrite with zlen. cbn [tail_ok].
       replace (3 <? zlen l + 1 + 1 + 1 + 1) with true by lia. by rewrite orb_true_r. }
  all: repeat match goal with H : Forall is_u8 (_ :: _) |- _ => inversion H; subst; clear H end.
  - change (zlen [b0]) with 1. change (zseq (1 - 1)) with (@nil Z).
    change (read_at [b0] 0) with (Done b0). cbn. unfold utf8_tail_needed.
    repeat (case_match; simplify_eq; cbn; try (f_equal; lia)); try lia.
  - change (zlen [b0; b1]) with 2. change (zseq (2 - 1)) with [0].
    change (read_at [b0; b1] 0) with (Done b0). cbn. change (read_at [b0; b1] 1) with (Done b1).
    change (read_at [b0; b1] (0 + 1)) with (Done b1). unfold and_then. cbn.
    unfold utf8_tail_needed, second_ok, is_cont. rewrite is_continuation by done.
    repeat (case_match; simplify_eq; cbn; try (f_equal; lia)); try lia.
  - change (zlen [b0; b1; b2]) with 3. change (zseq (3 - 1)) with [0; 1].
    change (read_at [b0; b1; b2] 0) with (Done b0). cbn.
    change (read_at [b0; b1; b2] 1) with (Done b1).
    change (read_at [b0; b1; b2] (0 + 1)) with (Done b1).
    change (read_at [b0; b1; b2] (1 + 1)) with (Done b2). unfold and_then. cbn.
    unfold utf8_tail_needed, second_ok, is_cont. rewrite !is_continuation by done.
    repeat (case_match; simplify_eq; cbn; try (f_equal; lia)); try lia.
Qed.

(** A tail is unfinished exactly when the validator accepts it: each accepted
    tail is completed with the smallest continuations that keep it canonical. *)
Lemma unfinished_tail l : Forall is_u8 l -> unfinished l <-> tail_ok l = true.
Proof.
  intros Hl. split.
  - intros (p & rest & Hp & Ht & Hr & E). apply scalar_range in Hp as [Hp Hs]. unfold encode in E.
    destruct (p <? 128) eqn:E1; [|destruct (p <? 2048) eqn:E2; [|destruct (p <? 65536) eqn:E3]];
      destruct l as [|b0 [|b1 [|b2 [|b3 l]]]]; try done; cbn in E; simplify_eq; cbn;
      unfold is_cont, second_ok, continuation; try divs; destruct rest; try done; destruct l; done.
  - intros H. destruct l as [|b0 [|b1 [|b2 [|b3 l]]]]; try done; cbn in H; unfold is_cont in H.
    + destruct (b0 <=? 223) eqn:E1.
      { exists ((b0 - 192) * 64 + 128 mod 64), [128]. rewrite encode_two by (done || lia).
        split; [unfold scalar; divs|done]. }
      destruct (b0 <=? 239) eqn:E2.
      { pose (b1 := if b0 =? 224 then 160 else 128).
        exists (((b0 - 224) * 64 + b1 mod 64) * 64 + 128 mod 64), [b1; 128]. subst b1.
        rewrite encode_three; [|lia|unfold is_cont; case_match; lia|done|case_match; divs].
        split; [unfold scalar; case_match; divs|done]. }
      pose (b1 := if b0 =? 240 then 144 else 128).
      exists ((((b0 - 240) * 64 + b1 mod 64) * 64 + 128 mod 64) * 64 + 128 mod 64), [b1; 128; 128].
      subst b1. rewrite encode_four; [|lia|unfold is_cont; case_match; lia|done|done|case_match; divs].
      split; [unfold scalar; case_match; divs|done].
    + unfold second_ok in H. destruct (b0 <=? 239) eqn:E2.
      { exists (((b0 - 224) * 64 + b1 mod 64) * 64 + 128 mod 64), [128].
        rewrite encode_three; [|lia|unfold is_cont; lia|done|divs].
        split; [unfold scalar; divs|done]. }
      exists ((((b0 - 240) * 64 + b1 mod 64) * 64 + 128 mod 64) * 64 + 128 mod 64), [128; 128].
      rewrite encode_four; [|lia|unfold is_cont; lia|done|done|divs].
      split; [unfold scalar; divs|done].
    + unfold second_ok in H.
      exists ((((b0 - 240) * 64 + b1 mod 64) * 64 + b2 mod 64) * 64 + 128 mod 64), [128].
      rewrite encode_four; [|lia|unfold is_cont; lia|unfold is_cont; lia|done|divs].
      split; [unfold scalar; divs|done].
Qed.

Lemma tail_decode l : tail_ok l = true -> decode l = None.
Proof.
  destruct l as [|b0 [|b1 [|b2 [|b3 l]]]]; try done; cbn; intros H; repeat case_match; try done; lia.
Qed.

Lemma decode_used l p used : decode l = Some (p, used) -> 1 <= used <= zlen l.
Proof.
  intros H. destruct l as [|b0 l]; [done|]. cbn in H.
  repeat case_match; simplify_eq; autorewrite with zlen;
    repeat match goal with |- context [zlen ?l] => pose proof (zlen_nonneg l); generalize dependent (zlen l) end;
    lia.
Qed.

(** The scan at a boundary, in terms of the bytes that remain. *)
Inductive valid_prefix : list Z -> Z -> Prop :=
  | valid_done : valid_prefix [] 0
  | valid_tail l : unfinished l -> valid_prefix l 0
  | valid_scalar p l k : scalar p = true -> valid_prefix l k ->
      valid_prefix (encode p ++ l) (zlen (encode p) + k).

Lemma scan_end fuel pre : utf8_scan fuel (pre ++ []) (zlen pre) = Done (Some (zlen pre)).
Proof.
  rewrite app_nil_r. destruct fuel; cbn; by replace (zlen pre <=? zlen pre) with true by lia.
Qed.

Lemma scan_step fuel pre l :
  Forall is_u8 l -> l <> [] ->
  utf8_scan (S fuel) (pre ++ l) (zlen pre)
  = match decode l with
    | Some (_, used) => utf8_scan fuel (pre ++ l) (zlen pre + used)
    | None => Done (if tail_ok l then Some (zlen pre) else None)
    end.
Proof.
  intros Hl Hne. cbn [utf8_scan].
  replace (zlen (pre ++ l) <=? zlen pre) with false.
  2: { destruct l as [|b l]; [done|]. pose proof (zlen_nonneg l). autorewrite with zlen. lia. }
  rewrite next_decode by done. cbn [mbind outcome_bind]. destruct (decode l) as [[p used]|]; [done|].
  rewrite to_nat_zlen, drop_app_length. by rewrite tail_spec.
Qed.

Lemma encode_nonempty p : encode p <> [].
Proof. unfold encode. by repeat case_match. Qed.

Lemma scan_complete l k :
  valid_prefix l k -> Forall is_u8 l -> forall fuel pre, (length l <= fuel)%nat ->
  utf8_scan fuel (pre ++ l) (zlen pre) = Done (Some (zlen pre + k)).
Proof.
  induction 1 as [|l Hu|p l k Hp Hv IH]; intros Hl fuel pre Hf.
  - rewrite scan_end. by rewrite Z.add_0_r.
  - assert (l <> []) as Hne by (destruct Hu as (? & ? & _ & ? & _); done).
    apply unfinished_tail in Hu; [|done]. destruct fuel as [|fuel]; [destruct l; [done|cbn in Hf; lia]|].
    rewrite scan_step, tail_decode, Hu by done. by rewrite Z.add_0_r.
  - pose proof (encode_nonempty p). apply Forall_app in Hl as [He Hl]. rewrite length_app in Hf.
    destruct fuel as [|fuel]; [destruct (encode p); [done|cbn in Hf; lia]|].
    rewrite scan_step; [|by apply Forall_app|by destruct (encode p)].
    rewrite decode_encode, app_assoc by done. rewrite <- zlen_app. rewrite IH; [|done|].
    + autorewrite with zlen. do 2 f_equal. lia.
    + destruct (encode p); [done|]. cbn in Hf. lia.
Qed.

Lemma scan_sound fuel pre l :
  Forall is_u8 l -> (length l <= fuel)%nat ->
  exists r, utf8_scan fuel (pre ++ l) (zlen pre) = Done r
    /\ forall k, r = Some k -> valid_prefix l (k - zlen pre).
Proof.
  revert pre l. induction fuel as [|fuel IH]; intros pre l Hl Hf.
  { destruct l; [|cbn in Hf; lia]. rewrite scan_end. eexists. split; [done|]. intros k [= <-].
    rewrite Z.sub_diag. constructor. }
  destruct (decide (l = [])) as [->|Hne].
  { rewrite scan_end. eexists. split; [done|]. intros k [= <-]. rewrite Z.sub_diag. constructor. }
  rewrite scan_step by done. destruct (decode l) as [[p used]|] eqn:Ed.
  - destruct (decode_sound _ _ _ Hl Ed) as (Hp & -> & rest & ->).
    apply Forall_app in Hl as [_ Hl]. rewrite app_assoc, <- zlen_app.
    destruct (IH (pre ++ encode p) rest) as (r & -> & Hr); [done| |].
    { rewrite length_app in Hf. pose proof (encode_nonempty p). destruct (encode p); [done|].
      cbn in Hf. lia. }
    exists r. split; [done|]. intros k Hk. apply Hr in Hk.
    replace (k - zlen pre) with (zlen (encode p) + (k - zlen (pre ++ encode p)))
      by (rewrite zlen_app; lia). by constructor.
  - eexists. split; [done|]. intros k Hk. destruct (tail_ok l) eqn:Et; [|done]. simplify_eq.
    rewrite Z.sub_diag. apply valid_tail. by apply unfinished_tail.
Qed.

Lemma valid_prefix_spec l k :
  valid_prefix l k <-> exists points tail, Forall (fun p => scalar p = true) points
    /\ l = encode_all points ++ tail /\ k = zlen (encode_all points) /\ (tail = [] \/ unfinished tail).
Proof.
  split.
  - induction 1 as [|l Hu|p l k Hp Hv (points & tail & Hps & -> & -> & Ht)].
    + exists [], []. by repeat split; auto.
    + exists [], l. repeat split; auto.
    + exists (p :: points), tail. split; [by constructor|]. unfold encode_all. cbn.
      rewrite app_assoc, zlen_app. auto.
  - intros (points & tail & Hps & -> & -> & Ht). induction Hps as [|p points Hp _ IH]; cbn.
    + destruct Ht as [->|Ht]; by constructor.
    + unfold encode_all. cbn. rewrite <- app_assoc, zlen_app. by constructor.
Qed.

(** ** Properties *)

(** C35: Decoding one scalar value never reads outside the buffer, and succeeds
    exactly on the canonical encoding of a Unicode scalar value: no overlong
    form, no surrogate, nothing beyond U+10FFFF. *)
Theorem utf8_next_exact bytes offset :
  Forall is_u8 bytes -> 0 <= offset <= zlen bytes ->
  exists r, yvex_core_utf8_next bytes offset = Done r
    /\ forall point next, r = Some (point, next)
         <-> scalar point = true /\ exists pre rest, bytes = pre ++ encode point ++ rest
               /\ offset = zlen pre /\ next = zlen (pre ++ encode point).
Proof.
  intros Hb Ho.
  assert (exists pre l, bytes = pre ++ l /\ offset = zlen pre) as (pre & l & -> & ->).
  { exists (take (Z.to_nat offset) bytes), (drop (Z.to_nat offset) bytes). rewrite take_drop.
    split; [done|]. unfold zlen in *. rewrite length_take. lia. }
  apply Forall_app in Hb as [_ Hl]. rewrite next_decode by done.
  eexists. split; [done|]. intros point next. split.
  - destruct (decode l) as [[p used]|] eqn:Ed; [|done]. intros [= <- <-].
    destruct (decode_sound _ _ _ Hl Ed) as (Hp & -> & rest & ->). split; [done|].
    exists pre, rest. by rewrite zlen_app.
  - intros (Hp & pre' & rest & E & Hz & ->).
    assert (pre = pre' /\ l = encode point ++ rest) as [-> ->].
    { apply app_inj_1 in E; [done|]. unfold zlen in Hz. lia. }
    rewrite decode_encode by done. by rewrite zlen_app.
Qed.

(** The fragment validator terminates without reading outside the buffer,
    accepts exactly a sequence of encoded scalar values followed by at most one
    unfinished encoding, and reports the length of the complete part. *)
Theorem utf8_prefix_exact bytes :
  Forall is_u8 bytes ->
  exists r, yvex_core_utf8_prefix bytes = Done r
    /\ forall k, r = Some k
         <-> exists points tail, Forall (fun p => scalar p = true) points
               /\ bytes = encode_all points ++ tail /\ k = zlen (encode_all points)
               /\ (tail = [] \/ unfinished tail).
Proof.
  intros Hb. unfold yvex_core_utf8_prefix.
  destruct (scan_sound (length bytes) [] bytes) as (r & E & Hr); [done|done|].
  change ([] ++ bytes) with bytes in E. change (zlen (@nil Z)) with 0 in *.
  exists r. split; [done|]. intros k. rewrite <- valid_prefix_spec. split.
  - intros Hk. apply Hr in Hk. by rewrite Z.sub_0_r in Hk.
  - intros Hv. pose proof (scan_complete _ _ Hv Hb (length bytes) [] ltac:(done)) as E'.
    change ([] ++ bytes) with bytes in E'. change (zlen (@nil Z)) with 0 in E'.
    rewrite E in E'. by simplify_eq.
Qed.

Ltac demo_bytes := repeat apply Forall_cons_2; try apply Forall_nil_2; unfold is_u8; lia.

Lemma utf8_next_exact_witness :
  exists r, yvex_core_utf8_next [0x41; 0xe2; 0x82; 0xac] 1 = Done r
    /\ (r = Some (0x20ac, 4) <-> scalar 0x20ac = true /\ exists pre rest,
          [0x41; 0xe2; 0x82; 0xac] = pre ++ encode 0x20ac ++ rest /\ 1 = zlen pre
          /\ 4 = zlen (pre ++ encode 0x20ac)).
Proof.
  destruct (utf8_next_exact [0x41; 0xe2; 0x82; 0xac] 1) as (r & E & H);
    [demo_bytes|split; vm_compute; discriminate|].
  exists r. split; [exact E|apply H].
Defined.

Lemma utf8_prefix_exact_witness :
  exists r, yvex_core_utf8_prefix [0x41; 0xe2; 0x82] = Done r.
Proof.
  destruct (utf8_prefix_exact [0x41; 0xe2; 0x82]) as (r & E & _); [demo_bytes|].
  exists r. exact E.
Defined.
