(* ===== verification/Json.v ===== *)
(** * The bounded JSON reader ([src/core/json.c])

    The cursor is the list of bytes from the current position to the end of the
    text, so that [json->cursor >= json->end] is the empty list and a byte can
    only be read where one remains; the functions return the moved cursor on
    failure too, as the code does.  Nesting is bounded by the depth counter, and
    the collection loops by the number of bytes that remain; both bounds appear
    as fuel whose exhaustion is a fault.

    The reader is compared with a grammar written independently of it: the
    accepted documents are exactly those of the grammar with at most 64 levels
    and bounded member names; string decoding and integer parsing are exact,
    overflow included, and printing followed by parsing is the identity. *)

From Stdlib Require Import ZArith Lia Bool String.
From stdpp Require Import base list option numbers strings pretty.
From S2P Require Import Prelude Core Sha256 Text.

(** ** Data *)

Definition YVEX_JSON_DEPTH_CAP : Z := 64.
Definition YVEX_JSON_KEY_CAP : Z := 1024.
Definition YVEX_JSON_EXTENSION_POSITIVE_INFINITY : Z := 1.

Record yvex_json : Type := mk_json {
  js_rest : list Z;
  js_depth : Z;
  js_extensions : Z
}.

Inductive yvex_json_item : Type :=
  | YVEX_JSON_ITEM_ERROR
  | YVEX_JSON_ITEM_END
  | YVEX_JSON_ITEM_READY.

Inductive yvex_json_collection : Type :=
  | YVEX_JSON_COLLECTION_OBJECT
  | YVEX_JSON_COLLECTION_ARRAY.

(** The iterator, without its pointer to the reader. *)
Record yvex_json_iter : Type := mk_iter {
  it_count : Z;
  it_closing : Z;
  it_complete : bool;
  it_trailing_separator : bool
}.

Definition yvex_json_init (data : list Z) : yvex_json := mk_json data 0 0.

Definition set_rest (rest : list Z) (j : yvex_json) : yvex_json :=
  mk_json rest (js_depth j) (js_extensions j).
Definition set_depth (depth : Z) (j : yvex_json) : yvex_json :=
  mk_json (js_rest j) depth (js_extensions j).

Definition isspace (b : Z) : bool := ((9 <=? b) && (b <=? 13)) || (b =? 32).
Definition isdigit (b : Z) : bool := (48 <=? b) && (b <=? 57).

(** ** Cursor *)

Definition JS (A : Type) : Type := SO yvex_json A.

Fixpoint skip_while (p : Z -> bool) (l : list Z) : list Z :=
  match l with
  | b :: l' => if p b then skip_while p l' else l
  | [] => []
  end.

Definition js_move (rest : list Z) : JS unit := so_modify (set_rest rest).

Definition yvex_json_space : JS unit :=
  j ← so_get; js_move (skip_while isspace (js_rest j)).

(** [while (cursor < end && isdigit( *cursor)) cursor++] *)
Definition skip_digits : JS unit :=
  j ← so_get; js_move (skip_while isdigit (js_rest j)).

(** [cursor < end && *cursor == byte] *)
Definition js_at (byte : Z) : JS bool :=
  j ← so_get; mret (match js_rest j with b :: _ => b =? byte | [] => false end).

(** [cursor < end && *cursor++ == byte]: the cursor moves past any byte. *)
Definition js_accept (byte : Z) : JS bool :=
  j ← so_get;
  match js_rest j with
  | [] => mret false
  | b :: rest => _ ← js_move rest; mret (b =? byte)
  end.

(** [cursor++] where a byte is known to remain *)
Definition js_next : JS unit :=
  j ← so_get;
  match js_rest j with
  | [] => so_lift (Fault OutOfBounds)
  | _ :: rest => js_move rest
  end.

(** ** Strings *)

Definition source_json_hex (b : Z) : bool :=
  ((48 <=? b) && (b <=? 57)) || ((97 <=? b) && (b <=? 102)) || ((65 <=? b) && (b <=? 70)).

(** The byte that a one-letter escape denotes. *)
Definition json_escape (b : Z) : option Z :=
  if b =? 34 then Some 34 else if b =? 92 then Some 92 else if b =? 47 then Some 47
  else if b =? 98 then Some 8 else if b =? 102 then Some 12 else if b =? 110 then Some 10
  else if b =? 114 then Some 13 else if b =? 116 then Some 9 else None.

(** [if (out && length + 1 < cap) out[length] = ch;]: [out] are the bytes stored
    so far and [None] is a null buffer. *)
Definition store (out : option (Z * list Z)) (length : Z) (ch : Z) : option (Z * list Z) :=
  match out with
  | Some (cap, bytes) => Some (cap, if length + 1 <? cap then bytes ++ [ch] else bytes)
  | None => None
  end.

(** The loop after the opening quote: where it stopped, and the length and the
    stored bytes at the closing quote. *)
Fixpoint json_string_loop (rest : list Z) (out : option (Z * list Z)) (length : Z)
    : list Z * option (Z * option (Z * list Z)) :=
  match rest with
  | [] => ([], None)
  | ch :: rest =>
      if ch =? 34 then (rest, Some (length, out))
      else if ch <? 32 then (rest, None)
      else if ch =? 92 then
        match rest with
        | [] => ([], None)
        | escaped :: rest =>
            if escaped =? 117 then
              match rest with
              | [] => ([], None)
              | h0 :: rest => if negb (source_json_hex h0) then (rest, None) else
                match rest with
                | [] => ([], None)
                | h1 :: rest => if negb (source_json_hex h1) then (rest, None) else
                  match rest with
                  | [] => ([], None)
                  | h2 :: rest => if negb (source_json_hex h2) then (rest, None) else
                    match rest with
                    | [] => ([], None)
                    | h3 :: rest => if negb (source_json_hex h3) then (rest, None) else
                        json_string_loop rest (store out length 63) (length + 1)
                    end
                  end
                end
              end
            else match json_escape escaped with
                 | Some ch => json_string_loop rest (store out length ch) (length + 1)
                 | None => (rest, None)
                 end
        end
      else json_string_loop rest (store out length ch) (length + 1)
  end.

(** [cap] is [None] for a null buffer.  The result carries the stored bytes when
    the call succeeds. *)
Definition yvex_json_string (cap : option Z) : JS (option (list Z)) :=
  _ ← yvex_json_space;
  opened ← js_accept 34;
  if negb opened then mret None else
  j ← so_get;
  let '(rest, r) := json_string_loop (js_rest j) ((fun c => (c, [])) <$> cap) 0 in
  _ ← js_move rest;
  match r with
  | None => mret None
  | Some (length, None) => mret (Some [])
  | Some (length, Some (cap, bytes)) => mret (if length <? cap then Some bytes else None)
  end.

(** [granted]: whether the allocation succeeds.  The original cursor is restored
    by not moving it on failure. *)
Definition yvex_json_string_dup (granted : bool) (cap : Z) : JS (option (list Z)) :=
  if cap =? 0 then mret None else
  j ← so_get;
  let '(probe, _) := yvex_json_space j in
  match yvex_json_string None probe with
  | (after, Done (Some _)) =>
      let encoded := zlen (js_rest probe) - zlen (js_rest after) in
      if (encoded <? 2) || (cap <? encoded - 1) || negb granted then mret None else
      r ← yvex_json_string (Some encoded);
      match r with
      | Some bytes => mret (Some bytes)
      | None => _ ← so_put j; mret None
      end
  | (_, Fault f) => so_lift (Fault f)
  | _ => mret None
  end.

(** ** Iterators *)

Definition yvex_json_iter_begin (collection : yvex_json_collection) : JS (option yvex_json_iter) :=
  let '(opening, closing) := match collection with
                             | YVEX_JSON_COLLECTION_OBJECT => (123, 125)
                             | YVEX_JSON_COLLECTION_ARRAY => (91, 93)
                             end in
  _ ← yvex_json_space;
  opened ← js_accept opening;
  mret (if opened : bool then Some (mk_iter 0 closing false false) else None).

Definition iter_close (trailing : bool) (iter : yvex_json_iter) : yvex_json_iter :=
  mk_iter (it_count iter) (it_closing iter) true (it_trailing_separator iter || trailing).
Definition iter_ready (iter : yvex_json_iter) : yvex_json_iter :=
  mk_iter (u64 (it_count iter + 1)) (it_closing iter) (it_complete iter) (it_trailing_separator iter).

Definition json_iter_advance (iter : yvex_json_iter) : JS (yvex_json_item * yvex_json_iter) :=
  if it_complete iter then mret (YVEX_JSON_ITEM_ERROR, iter) else
  _ ← yvex_json_space;
  j ← so_get;
  match js_rest j with
  | [] => mret (YVEX_JSON_ITEM_ERROR, iter)
  | b :: rest =>
      if b =? it_closing iter then _ ← js_move rest; mret (YVEX_JSON_ITEM_END, iter_close false iter)
      else if negb (it_count iter =? 0) then
        _ ← js_move rest;
        if negb (b =? 44) then mret (YVEX_JSON_ITEM_ERROR, iter) else
        _ ← yvex_json_space;
        j ← so_get;
        match js_rest j with
        | [] => mret (YVEX_JSON_ITEM_ERROR, iter)
        | b :: rest =>
            if b =? it_closing iter
            then _ ← js_move rest; mret (YVEX_JSON_ITEM_END, iter_close true iter)
            else mret (YVEX_JSON_ITEM_READY, iter_ready iter)
        end
      else mret (YVEX_JSON_ITEM_READY, iter_ready iter)
  end.

(** The name of the member is stored in a buffer of [capacity] bytes. *)
Definition yvex_json_object_member (iter : yvex_json_iter) (capacity : Z)
    : JS (yvex_json_item * yvex_json_iter * list Z) :=
  '(item, iter) ← json_iter_advance iter;
  match item with
  | YVEX_JSON_ITEM_READY =>
      key ← yvex_json_string (Some capacity);
      match key with
      | None => mret (YVEX_JSON_ITEM_ERROR, iter, [])
      | Some key =>
          _ ← yvex_json_space;
          colon ← js_accept 58;
          mret (if colon : bool then YVEX_JSON_ITEM_READY else YVEX_JSON_ITEM_ERROR, iter, key)
      end
  | _ => mret (item, iter, [])
  end.

Definition yvex_json_array_value (iter : yvex_json_iter) : JS (yvex_json_item * yvex_json_iter) :=
  json_iter_advance iter.

(** ** Skipping *)

(** A run of at least one digit. *)
Definition need_digits : JS bool :=
  j ← so_get;
  match js_rest j with
  | b :: _ => if isdigit b then _ ← skip_digits; mret true else mret false
  | [] => mret false
  end.

Definition source_json_skip_number : JS bool :=
  _ ← yvex_json_space;
  start ← so_get;
  minus ← js_at 45;
  _ ← (if minus : bool then js_next else mret tt);
  zero ← js_at 48;
  whole ← (if zero : bool then _ ← js_next; mret true else need_digits);
  if negb whole then mret false else
  point ← js_at 46;
  fraction ← (if point : bool then _ ← js_next; need_digits else mret true);
  if negb fraction then mret false else
  lower ← js_at 101;
  upper ← js_at 69;
  exponent ←
    (if lower || upper then
       _ ← js_next;
       plus ← js_at 43;
       minus ← js_at 45;
       _ ← (if plus || minus then js_next else mret tt);
       need_digits
     else mret true);
  if negb exponent then mret false else
  j ← so_get;
  mret (zlen (js_rest j) <? zlen (js_rest start)).

Definition source_json_literal (literal : list Z) : JS bool :=
  _ ← yvex_json_space;
  j ← so_get;
  if (zlen (js_rest j) <? zlen literal)
     || negb (bool_decide (take (length literal) (js_rest j) = literal))
  then mret false
  else _ ← js_move (drop (length literal) (js_rest j)); mret true.

(** [next] advances the iterator (and reads the member's name in an object);
    [value] skips one value. *)
Fixpoint json_skip_items (fuel : nat) (next : yvex_json_iter -> JS (yvex_json_item * yvex_json_iter))
    (value : JS bool) (iter : yvex_json_iter) : JS bool :=
  match fuel with
  | O => so_lift (Fault OutOfFuel)
  | S fuel =>
      '(item, iter) ← next iter;
      match item with
      | YVEX_JSON_ITEM_READY =>
          ok ← value;
          if negb ok then mret false else json_skip_items fuel next value iter
      | YVEX_JSON_ITEM_END => mret (negb (it_trailing_separator iter))
      | YVEX_JSON_ITEM_ERROR => mret false
      end
  end.

Definition json_skip_collection (collection : yvex_json_collection)
    (next : yvex_json_iter -> JS (yvex_json_item * yvex_json_iter)) (value : JS bool) : JS bool :=
  j ← so_get;
  if YVEX_JSON_DEPTH_CAP <=? js_depth j then mret false else
  begun ← yvex_json_iter_begin collection;
  match begun with
  | None => mret false
  | Some iter =>
      _ ← so_modify (fun j => set_depth (u32 (js_depth j + 1)) j);
      j ← so_get;
      ok ← json_skip_items (S (length (js_rest j))) next value iter;
      if negb ok then mret false else
      _ ← so_modify (fun j => set_depth (u32 (js_depth j - 1)) j);
      mret true
  end.

Definition json_skip_array (value : JS bool) : JS bool :=
  json_skip_collection YVEX_JSON_COLLECTION_ARRAY yvex_json_array_value value.

Definition json_skip_object (value : JS bool) : JS bool :=
  json_skip_collection YVEX_JSON_COLLECTION_OBJECT
    (fun iter => '(item, iter, _) ← yvex_json_object_member iter YVEX_JSON_KEY_CAP; mret (item, iter))
    value.

Definition lit_true : list Z := [116; 114; 117; 101].
Definition lit_false : list Z := [102; 97; 108; 115; 101].
Definition lit_null : list Z := [110; 117; 108; 108].
Definition lit_infinity : list Z := [73; 110; 102; 105; 110; 105; 116; 121].

(** The nesting of the recursive calls is one more than the depth they may
    reach, so 65 is fuel enough. *)
Fixpoint json_skip (fuel : nat) : JS bool :=
  match fuel with
  | O => so_lift (Fault OutOfFuel)
  | S fuel =>
      _ ← yvex_json_space;
      j ← so_get;
      match js_rest j with
      | [] => mret false
      | b :: _ =>
          if b =? 123 then json_skip_object (json_skip fuel)
          else if b =? 91 then json_skip_array (json_skip fuel)
          else if b =? 34 then r ← yvex_json_string None; mret (bool_decide (is_Some r))
          else if b =? 116 then source_json_literal lit_true
          else if b =? 102 then source_json_literal lit_false
          else if b =? 110 then source_json_literal lit_null
          else if (b =? 73)
                  && negb (Z.land (js_extensions j) YVEX_JSON_EXTENSION_POSITIVE_INFINITY =? 0)
          then source_json_literal lit_infinity
          else source_json_skip_number
      end
  end.

Definition yvex_json_skip_value : JS bool := json_skip 65.

Definition yvex_json_complete : JS bool :=
  _ ← yvex_json_space;
  j ← so_get;
  mret (bool_decide (js_rest j = []) && (js_depth j =? 0)).

(** ** Scalars *)

(** The digit loop: the value, or [None] when it would overflow. *)
Fixpoint json_u64_loop (rest : list Z) (value : Z) : list Z * option Z :=
  match rest with
  | b :: rest' =>
      if isdigit b then
        let digit := b - 48 in
        if (ULLONG_MAX - digit) / 10 <? value then (rest', None)
        else json_u64_loop rest' (u64 (value * 10 + digit))
      else (rest, Some value)
  | [] => ([], Some value)
  end.

Definition yvex_json_u64 : JS (option Z) :=
  _ ← yvex_json_space;
  j ← so_get;
  match js_rest j with
  | b :: _ =>
      if isdigit b then
        let '(rest, r) := json_u64_loop (js_rest j) 0 in
        _ ← js_move rest; mret r
      else mret None
  | [] => mret None
  end.

Definition yvex_json_bool : JS (option bool) :=
  t ← source_json_literal lit_true;
  if t : bool then mret (Some true) else
  f ← source_json_literal lit_false;
  mret (if f : bool then Some false else None).

Definition yvex_json_number_text (cap : Z) : JS (option (list Z)) :=
  if cap =? 0 then mret None else
  _ ← yvex_json_space;
  start ← so_get;
  ok ← source_json_skip_number;
  if negb ok then mret None else
  j ← so_get;
  let length := zlen (js_rest start) - zlen (js_rest j) in
  mret (if (length =? 0) || (cap <=? length) then None else Some (take (Z.to_nat length) (js_rest start))).

Fixpoint json_u64_items (fuel : nat) (cap : Z) (iter : yvex_json_iter) (values : list Z)
    : JS (option (list Z)) :=
  match fuel with
  | O => so_lift (Fault OutOfFuel)
  | S fuel =>
      '(item, iter) ← yvex_json_array_value iter;
      match item with
      | YVEX_JSON_ITEM_READY =>
          if cap <=? zlen values then mret None else
          r ← yvex_json_u64;
          match r with
          | None => mret None
          | Some v => json_u64_items fuel cap iter (values ++ [v])
          end
      | YVEX_JSON_ITEM_END =>
          mret (if it_trailing_separator iter || (zlen values =? 0) then None else Some values)
      | YVEX_JSON_ITEM_ERROR => mret None
      end
  end.

Definition yvex_json_u64_array (cap : Z) : JS (option (list Z)) :=
  if cap =? 0 then mret None else
  begun ← yvex_json_iter_begin YVEX_JSON_COLLECTION_ARRAY;
  match begun with
  | None => mret None
  | Some iter => j ← so_get; json_u64_items (S (length (js_rest j))) cap iter []
  end.

(** ** A client: one bounded JSON value ([provider/core.c]) *)

Definition YVEX_PROVIDER_MAX_TOOL_SCHEMA_BYTES : Z := 65536.

Definition wire_space (b : Z) : bool := (b =? 32) || (b =? 9) || (b =? 13) || (b =? 10).

(** [!yvex_json_skip_value(&json) || !yvex_json_complete(&json)], negated *)
Definition json_one_value : JS bool :=
  ok ← yvex_json_skip_value; if negb ok then mret false else yvex_json_complete.

Definition yvex_provider_json_value_validate (bytes : list Z) (require_object : bool) : outcome unit :=
  let byte_count := zlen bytes in
  if (byte_count =? 0) || (YVEX_PROVIDER_MAX_TOOL_SCHEMA_BYTES <? byte_count)
  then Refuse YVEX_ERR_BOUNDS "bounded JSON bytes are required" else
  if match skip_while wire_space bytes with
     | [] => true
     | b :: _ => require_object && negb (b =? 123)
     end
  then Refuse YVEX_ERR_FORMAT "JSON object syntax is required" else
  match snd (json_one_value (yvex_json_init bytes)) with
  | Done true => Done tt
  | Done false => Refuse YVEX_ERR_FORMAT "one complete JSON value is required"
  | Refuse status reason => Refuse status reason
  | Fault f => Fault f
  end.

Example json_examples :
  let run (text : string) := (_ ← yvex_json_skip_value; yvex_json_complete) (yvex_json_init (string_bytes text)) in
  snd (run " [true, null, -1.5e+3, 'a'] "%string) = Done false
  /\ snd (run "[true, [], -1.5e+3, {}] "%string) = Done true
  /\ snd (yvex_json_u64 (yvex_json_init (string_bytes "18446744073709551615"))) = Done (Some ULLONG_MAX)
  /\ snd (yvex_json_u64 (yvex_json_init (string_bytes "18446744073709551616"))) = Done None
  /\ snd (yvex_json_u64_array 4 (yvex_json_init (string_bytes "[1, 2 ,3]"))) = Done (Some [1; 2; 3]).
Proof. vm_compute. repeat split. Qed.

(** ** Reference grammar *)

Definition ws (l : list Z) : Prop := Forall (fun b => isspace b = true) l.

(** The bytes between the quotes of a string, and what they denote. *)
Inductive jchars : list Z -> list Z -> Prop :=
  | jc_nil : jchars [] []
  | jc_plain b d r : 32 <= b -> b <> 34 -> b <> 92 -> jchars d r -> jchars (b :: d) (b :: r)
  | jc_escape e c d r : json_escape e = Some c -> jchars d r -> jchars (c :: d) (92 :: e :: r)
  | jc_unicode h0 h1 h2 h3 d r :
      source_json_hex h0 = true -> source_json_hex h1 = true -> source_json_hex h2 = true ->
      source_json_hex h3 = true -> jchars d r -> jchars (63 :: d) (92 :: 117 :: h0 :: h1 :: h2 :: h3 :: r).

Definition jstring (d l : list Z) : Prop := exists r, l = 34 :: r ++ [34] /\ jchars d r.

Definition digits (l : list Z) : Prop := l <> [] /\ Forall (fun b => isdigit b = true) l.
Definition jwhole (l : list Z) : Prop := l = [48] \/ (digits l /\ head l <> Some 48).
Definition jfraction (l : list Z) : Prop := l = [] \/ exists n, l = 46 :: n /\ digits n.
Definition jexponent (l : list Z) : Prop :=
  l = [] \/ exists e sign n, l = e :: sign ++ n /\ (e = 101 \/ e = 69)
              /\ (sign = [] \/ sign = [43] \/ sign = [45]) /\ digits n.
Definition jnumber (l : list Z) : Prop :=
  exists sign whole fraction exponent, l = sign ++ whole ++ fraction ++ exponent
    /\ (sign = [] \/ sign = [45]) /\ jwhole whole /\ jfraction fraction /\ jexponent exponent.

Definition jscalar (infinity : bool) (l : list Z) : Prop :=
  (exists d, jstring d l) \/ l = lit_true \/ l = lit_false \/ l = lit_null
  \/ (infinity = true /\ l = lit_infinity) \/ jnumber l.

(** The text of a collection after its opening byte, or after one of its items. *)
Inductive jlist (close : Z) (item : list Z -> Prop) : bool -> list Z -> Prop :=
  | jl_end first w : ws w -> jlist close item first (w ++ [close])
  | jl_first w v t : ws w -> item v -> jlist close item false t -> jlist close item true (w ++ v ++ t)
  | jl_next w w' v t : ws w -> ws w' -> item v -> jlist close item false t ->
      jlist close item false (w ++ 44 :: w' ++ v ++ t).

(** A member of an object: its name, which fits the reader's buffer, and its value. *)
Definition jmember (value : list Z -> Prop) (m : list Z) : Prop :=
  exists key d w w' v, m = key ++ w ++ 58 :: w' ++ v /\ jstring d key /\ zlen d < YVEX_JSON_KEY_CAP
    /\ ws w /\ ws w' /\ value v.

(** Values with at most [depth] nested collections. *)
Fixpoint jvalue (infinity : bool) (depth : nat) (l : list Z) : Prop :=
  jscalar infinity l \/
  match depth with
  | O => False
  | S depth =>
      (exists t, l = 91 :: t /\ jlist 93 (jvalue infinity depth) true t)
      \/ (exists t, l = 123 :: t /\ jlist 125 (jmember (jvalue infinity depth)) true t)
  end.

(** A document. *)
Definition jdocument (infinity : bool) (l : list Z) : Prop :=
  exists w v w', l = w ++ v ++ w' /\ ws w /\ ws w' /\ jvalue infinity 64 v.

(** * Theorems *)

Lemma js_bind_eq {A B} (c : JS A) (k : A -> JS B) j j1 a :
  c j = (j1, Done a) -> (c ≫= k) j = k a j1.
Proof. exact (so_bind_eq c k j j1 a). Qed.

(** ** Whitespace and digits *)

Lemma skip_while_split p l :
  exists w, l = w ++ skip_while p l /\ Forall (fun b => p b = true) w.
Proof.
  induction l as [|b l (w & E & H)]; [by exists []|]. cbn. destruct (p b) eqn:Eb.
  - exists (b :: w). cbn. split; [by f_equal|by constructor].
  - by exists [].
Qed.

(** No byte of the kind follows. *)
Definition ends (p : Z -> bool) (l : list Z) : Prop :=
  match l with b :: _ => p b = false | [] => True end.

Lemma skip_while_ends p l : ends p (skip_while p l).
Proof. induction l as [|b l IH]; [done|]. cbn. destruct (p b) eqn:E; [done|by cbn]. Qed.

Lemma skip_while_app p w l :
  Forall (fun b => p b = true) w -> ends p l -> skip_while p (w ++ l) = l.
Proof.
  intros Hw Hl. induction Hw as [|b w Hb _ IH]; cbn; [|by rewrite Hb].
  destruct l as [|b l]; [done|]. cbn in *. by rewrite Hl.
Qed.

Lemma space_run j : yvex_json_space j = (set_rest (skip_while isspace (js_rest j)) j, Done tt).
Proof. reflexivity. Qed.

Lemma space_app j w l :
  js_rest j = w ++ l -> ws w -> ends isspace l -> yvex_json_space j = (set_rest l j, Done tt).
Proof. intros E Hw Hl. by rewrite space_run, E, skip_while_app. Qed.

(** ** Strings *)

Lemma string_loop_complete d raw :
  jchars d raw -> forall rest out n, exists out',
    json_string_loop (raw ++ 34 :: rest) out n = (rest, Some (n + zlen d, out'))
    /\ match out with
       | None => out' = None
       | Some (cap, bytes) => exists bytes', out' = Some (cap, bytes')
           /\ (n + zlen d < cap -> bytes' = bytes ++ d)
       end.
Proof.
  assert (forall c d rest raw out n,
    (forall out n, exists out',
      json_string_loop (raw ++ 34 :: rest) out n = (rest, Some (n + zlen d, out'))
      /\ match out with
         | None => out' = None
         | Some (cap, bytes) => exists bytes', out' = Some (cap, bytes')
             /\ (n + zlen d < cap -> bytes' = bytes ++ d)
         end) ->
    exists out', json_string_loop (raw ++ 34 :: rest) (store out n c) (n + 1)
        = (rest, Some (n + zlen (c :: d), out'))
      /\ match out with
         | None => out' = None
         | Some (cap, bytes) => exists bytes', out' = Some (cap, bytes')
             /\ (n + zlen (c :: d) < cap -> bytes' = bytes ++ c :: d)
         end) as Hstep.
  { intros c d' rest raw' out n IH. destruct (IH (store out n c) (n + 1)) as (out' & E & H). exists out'.
    rewrite E. split; [do 3 f_equal; rewrite zlen_cons; lia|].
    destruct out as [[cap bytes]|]; cbn in *; [|done]. destruct H as (bytes' & -> & Hb). exists bytes'.
    split; [done|]. rewrite zlen_cons. intros Hlt. pose proof (zlen_nonneg d').
    rewrite Hb by lia. replace (n + 1 <? cap) with true by lia. by rewrite <- app_assoc. }
  induction 1 as [|b d r H1 H2 H3 _ IH|e c d r He _ IH|h0 h1 h2 h3 d r H0 H1 H2 H3 _ IH];
    intros rest out n; cbn [app json_string_loop].
  - cbn. eexists. split; [do 3 f_equal; rewrite Z.add_0_r; done|]. destruct out as [[cap bytes]|]; [|done].
    exists bytes. split; [done|]. by rewrite app_nil_r.
  - replace (b =? 34) with false by lia. replace (b <? 32) with false by lia.
    replace (b =? 92) with false by lia. by apply Hstep.
  - cbn. destruct (e =? 117) eqn:E; [|rewrite He; by apply Hstep].
    assert (e = 117) as -> by lia. done.
  - cbn. rewrite H0, H1, H2, H3. cbn. by apply Hstep.
Qed.

Lemma string_loop_sound m l rest out n k out' :
  (length l <= m)%nat -> json_string_loop l out n = (rest, Some (k, out')) ->
  exists d raw, l = raw ++ 34 :: rest /\ jchars d raw /\ k = n + zlen d.
Proof.
  revert l out n. induction m as [|m IH]; intros l out n Hm H; (destruct l as [|b l]; [done|cbn in Hm; try lia]).
  cbn [json_string_loop] in H. destruct (b =? 34) eqn:E1.
  { simplify_eq. exists [], []. split; [cbn; f_equal; lia|]. split; [constructor|]. rewrite zlen_nil. lia. }
  destruct (b <? 32) eqn:E2; [done|]. destruct (b =? 92) eqn:E3.
  - assert (b = 92) as -> by lia. destruct l as [|e l]; [done|]. cbn in Hm.
    destruct (e =? 117) eqn:E4.
    + assert (e = 117) as -> by lia.
      destruct l as [|h0 [|h1 [|h2 [|h3 l]]]]; try (repeat case_match; done).
      destruct (source_json_hex h0) eqn:H0; [|done]. destruct (source_json_hex h1) eqn:H1; [|done].
      destruct (source_json_hex h2) eqn:H2; [|done]. destruct (source_json_hex h3) eqn:H3; [|done].
      cbn [negb] in H. cbn in Hm. apply IH in H as (d & raw & -> & Hc & ->); [|lia].
      exists (63 :: d), (92 :: 117 :: h0 :: h1 :: h2 :: h3 :: raw). split; [done|].
      split; [by constructor|]. rewrite zlen_cons. lia.
    + destruct (json_escape e) as [c|] eqn:E5; [|done].
      apply IH in H as (d & raw & -> & Hc & ->); [|lia].
      exists (c :: d), (92 :: e :: raw). split; [done|]. split; [by constructor|]. rewrite zlen_cons. lia.
  - apply IH in H as (d & raw & -> & Hc & ->); [|lia].
    exists (b :: d), (b :: raw). split; [done|]. split; [constructor; (done || lia)|].
    rewrite zlen_cons. lia.
Qed.

(** Different texts may denote the same bytes, but a text denotes at most one. *)
Lemma jchars_fun d raw : jchars d raw -> forall d', jchars d' raw -> d = d'.
Proof.
  induction 1 as [|b d r H1 H2 H3 _ IH|e c d r He _ IH|h0 h1 h2 h3 d r H0 H1 H2 H3 _ IH];
    intros d' H'; inversion H'; subst; try done; f_equal; try (by apply IH); congruence.
Qed.

(** The reader after leading whitespace. *)
Lemma string_run cap j :
  yvex_json_string cap j
  = match skip_while isspace (js_rest j) with
    | [] => (set_rest [] j, Done None)
    | b :: l =>
        if b =? 34 then
          let '(rest, r) := json_string_loop l ((fun c => (c, [])) <$> cap) 0 in
          (set_rest rest j, Done match r with
                                 | None => None
                                 | Some (_, None) => Some []
                                 | Some (length, Some (cap, bytes)) =>
                                     if length <? cap then Some bytes else None
                                 end)
        else (set_rest l j, Done None)
    end.
Proof.
  unfold yvex_json_string, yvex_json_space, js_accept, js_move, so_modify, so_get, mbind, so_bind.
  cbn. destruct (skip_while isspace (js_rest j)) as [|b l]; [done|].
  cbn. destruct (b =? 34); [|done]. cbn.
  destruct (json_string_loop l ((λ c : Z, (c, [])) <$> cap) 0) as [rest [[n [[c bytes]|]]|]]; done.
Qed.

Lemma quote_not_space : isspace 34 = false.
Proof. reflexivity. Qed.

Lemma string_complete cap j w d l rest :
  js_rest j = w ++ l ++ rest -> ws w -> jstring d l ->
  yvex_json_string cap j
  = (set_rest rest j, Done match cap with
                           | None => Some []
                           | Some c => if zlen d <? c then Some d else None
                           end).
Proof.
  intros E Hw (raw & -> & Hc). rewrite string_run, E. cbn [app].
  rewrite skip_while_app by done. rewrite <- app_assoc. cbn.
  destruct (string_loop_complete _ _ Hc rest ((λ c : Z, (c, [])) <$> cap) 0) as (out' & -> & H).
  destruct cap as [c|]; cbn in H; [|by subst]. destruct H as (bytes & -> & Hb). rewrite Z.add_0_l in *.
  destruct (zlen d <? c) eqn:Ec; [|done]. cbn in Hb. by rewrite Hb by lia.
Qed.

Lemma string_sound cap j j' r :
  yvex_json_string cap j = (j', Done (Some r)) ->
  exists w d l, js_rest j = w ++ l ++ js_rest j' /\ ws w /\ jstring d l
    /\ j' = set_rest (js_rest j') j
    /\ match cap with None => r = [] | Some c => r = d /\ zlen d < c end.
Proof.
  intros H. pose proof H as H'. rewrite string_run in H.
  destruct (skip_while_split isspace (js_rest j)) as (w & Ej & Hw).
  destruct (skip_while isspace (js_rest j)) as [|b l] eqn:Es; [done|].
  destruct (b =? 34) eqn:Eb; [|done].
  destruct (json_string_loop l _ 0) as [rest [[n out]|]] eqn:El; [|by simplify_eq].
  apply (string_loop_sound (length l)) in El as (d & raw & -> & Hc & _); [|done].
  assert (b = 34) as -> by lia. exists w, d, (34 :: raw ++ [34]).
  assert (jstring d (34 :: raw ++ [34])) as Hs by by exists raw.
  assert (js_rest j' = rest) as Hrest by (destruct out as [[c bytes]|]; by simplify_eq).
  assert (js_rest j = w ++ (34 :: raw ++ [34]) ++ rest) as Ej'.
  { rewrite Ej. cbn. by rewrite <- app_assoc. }
  rewrite Hrest. split; [done|]. split; [done|]. split; [done|].
  rewrite (string_complete _ _ _ _ _ _ Ej' Hw Hs) in H'. simplify_eq. split; [done|].
  destruct cap as [c|]; [|by simplify_eq]. destruct (zlen d <? c) eqn:Ec; [|done]. simplify_eq.
  split; [done|lia].
Qed.

Lemma string_total cap j : exists j' r, yvex_json_string cap j = (j', Done r).
Proof.
  rewrite string_run. destruct (skip_while isspace (js_rest j)) as [|b l]; [by eauto|].
  destruct (b =? 34); [|by eauto]. destruct (json_string_loop l _ 0). eauto.
Qed.

(** ** What a reader promises *)

(** The states a reader is called in; a text has fewer than 2^64 bytes. *)
Definition at_level (depth extensions : Z) (j : yvex_json) : Prop :=
  js_depth j = depth /\ js_extensions j = extensions /\ zlen (js_rest j) < 2 ^ 64.

(** After a value comes the end, whitespace, a separator or a closing byte. *)
Definition stop_byte (b : Z) : bool :=
  isspace b || (b =? 44) || (b =? 93) || (b =? 125).
Definition stops (l : list Z) : Prop :=
  match l with b :: _ => stop_byte b = true | [] => True end.

(** The first byte of a value or of a member. *)
Definition start_byte (b : Z) : bool :=
  negb (isspace b) && negb (b =? 44) && negb (b =? 93) && negb (b =? 125) && negb (b =? 58).
Definition starts (l : list Z) : Prop :=
  match l with b :: _ => start_byte b = true | [] => False end.

Lemma stops_ends_digit l : stops l -> ends isdigit l.
Proof. destruct l as [|b l]; [done|]. unfold stops, ends, stop_byte, isspace, isdigit. lia. Qed.
Lemma starts_ends_space l t : starts l -> ends isspace (l ++ t).
Proof. destruct l as [|b l]; [done|]. cbn. unfold start_byte. by destruct (isspace b). Qed.

(** [p] returns in every case, and reads exactly the texts of [G], after
    whitespace and up to a byte that may follow a value. *)
Record json_reads (p : JS bool) (G : list Z -> Prop) (depth extensions : Z) : Prop := {
  r_starts : forall v, G v -> starts v;
  r_sound : forall j, at_level depth extensions j ->
    exists j' b, p j = (j', Done b)
      /\ (b = true -> j' = set_rest (js_rest j') j
            /\ exists w v, js_rest j = w ++ v ++ js_rest j' /\ ws w /\ G v);
  r_complete : forall j w v rest, at_level depth extensions j ->
    js_rest j = w ++ v ++ rest -> ws w -> G v -> stops rest ->
    p j = (set_rest rest j, Done true)
}.

(** ** Literals *)

Lemma literal_run literal j :
  source_json_literal literal j
  = let l := skip_while isspace (js_rest j) in
    if bool_decide (take (length literal) l = literal)
    then (set_rest (drop (length literal) l) j, Done true) else (set_rest l j, Done false).
Proof.
  unfold source_json_literal, yvex_json_space, js_move, so_modify, so_get, mbind, so_bind. cbn.
  set (l := skip_while isspace (js_rest j)). case_bool_decide as Ht.
  - replace (zlen l <? zlen literal) with false; [done|]. symmetry. apply Z.ltb_ge.
    unfold zlen. rewrite <- Ht at 1. rewrite length_take. lia.
  - by rewrite orb_true_r.
Qed.

Lemma literal_reads literal d e : starts literal -> json_reads (source_json_literal literal) (eq literal) d e.
Proof.
  intros Hs. split; [by intros v <-| |].
  - intros j _. rewrite literal_run. cbn zeta.
    destruct (skip_while_split isspace (js_rest j)) as (w & Ej & Hw).
    case_bool_decide as Ht; eexists _, _; (split; [reflexivity|]); [|done].
    intros _. split; [done|]. exists w, literal. cbn. split; [|done].
    rewrite Ej at 1. f_equal. set (l := skip_while isspace (js_rest j)) in *.
    rewrite <- (take_drop (length literal) l) at 1. by rewrite Ht.
  - intros j w v rest _ E Hw <- _. rewrite literal_run, E. cbn zeta.
    rewrite skip_while_app by (try done; by apply starts_ends_space).
    by rewrite take_app_length, drop_app_length, bool_decide_eq_true_2.
Qed.

(** ** Numbers *)

(** The parts of a number as functions on the text. *)
Definition cut_sign (l : list Z) : list Z :=
  match l with b :: l' => if b =? 45 then l' else l | [] => [] end.
Definition cut_digits (l : list Z) : option (list Z) :=
  match l with b :: _ => if isdigit b then Some (skip_while isdigit l) else None | [] => None end.
Definition cut_whole (l : list Z) : option (list Z) :=
  match l with b :: l' => if b =? 48 then Some l' else cut_digits l | [] => None end.
Definition cut_fraction (l : list Z) : option (list Z) :=
  match l with b :: l' => if b =? 46 then cut_digits l' else Some l | [] => Some [] end.
Definition cut_exponent_sign (l : list Z) : list Z :=
  match l with b :: l' => if (b =? 43) || (b =? 45) then l' else l | [] => [] end.
Definition cut_exponent (l : list Z) : option (list Z) :=
  match l with
  | b :: l' => if (b =? 101) || (b =? 69) then cut_digits (cut_exponent_sign l') else Some l
  | [] => Some []
  end.
Definition cut_number (l : list Z) : option (list Z) :=
  match cut_whole (cut_sign l) with
  | None => None
  | Some l => match cut_fraction l with None => None | Some l => cut_exponent l end
  end.

Lemma set_set_rest a b j : set_rest a (set_rest b j) = set_rest a j.
Proof. done. Qed.
Lemma set_rest_id j : set_rest (js_rest j) j = j.
Proof. by destruct j. Qed.

Lemma need_digits_run j :
  need_digits j = match cut_digits (js_rest j) with
                  | Some l => (set_rest l j, Done true)
                  | None => (j, Done false)
                  end.
Proof.
  unfold need_digits, skip_digits, js_move, so_modify, so_get, mbind, so_bind. cbn.
  destruct (js_rest j) as [|b l] eqn:E; [done|]. cbn. destruct (isdigit b) eqn:Eb; [|done]. rewrite E. cbn. by rewrite Eb.
Qed.

Lemma skip_while_length p l : (length (skip_while p l) <= length l)%nat.
Proof. induction l as [|b l IH]; cbn; [lia|]. destruct (p b); cbn; lia. Qed.

Lemma cut_digits_spec l l' :
  cut_digits l = Some l' <-> ends isdigit l' /\ exists v, l = v ++ l' /\ digits v.
Proof.
  split.
  - destruct l as [|b l]; [done|]. cbn. destruct (isdigit b) eqn:E; [|done]. intros [= <-].
    split; [apply skip_while_ends|]. destruct (skip_while_split isdigit l) as (w & El & Hw).
    exists (b :: w). cbn. split; [by f_equal|]. split; [done|by constructor].
  - intros (He & v & -> & Hv & Hd). destruct v as [|b v]; [done|]. inversion Hd; subst.
    unfold cut_digits. cbn. rewrite H1. f_equal. by apply skip_while_app.
Qed.

(** [cursor < end && *cursor == byte] as a function of the text *)
Definition next_is (byte : Z) (l : list Z) : bool := match l with b :: _ => b =? byte | [] => false end.
(** How a part of a number leaves the reader. *)
Definition part (j : yvex_json) (r : option (list Z)) : yvex_json * outcome bool :=
  match r with Some l => (set_rest l j, Done true) | None => (j, Done false) end.

Lemma js_at_run byte j : js_at byte j = (j, Done (next_is byte (js_rest j))).
Proof. reflexivity. Qed.

Lemma next_run j : js_rest j <> [] -> js_next j = (set_rest (tail (js_rest j)) j, Done tt).
Proof. unfold js_next, mbind, so_bind. cbn. by destruct (js_rest j). Qed.

Lemma sign_run j :
  (if next_is 45 (js_rest j) then js_next else mret tt) j = (set_rest (cut_sign (js_rest j)) j, Done tt).
Proof.
  destruct (js_rest j) as [|b l] eqn:E; cbn; [by rewrite <- E, set_rest_id|].
  destruct (b =? 45); [|by rewrite <- E, set_rest_id]. rewrite next_run by by rewrite E. by rewrite E.
Qed.

Lemma exponent_sign_run j :
  (if next_is 43 (js_rest j) || next_is 45 (js_rest j) then js_next else mret tt) j
  = (set_rest (cut_exponent_sign (js_rest j)) j, Done tt).
Proof.
  destruct (js_rest j) as [|b l] eqn:E; cbn; [by rewrite <- E, set_rest_id|].
  destruct ((b =? 43) || (b =? 45)); [|by rewrite <- E, set_rest_id].
  rewrite next_run by by rewrite E. by rewrite E.
Qed.

Lemma whole_run j :
  (if next_is 48 (js_rest j) then js_next ≫= (fun _ => mret true) else need_digits) j
  = part j (cut_whole (js_rest j)).
Proof.
  unfold part, cut_whole. destruct (js_rest j) as [|b l] eqn:E; cbn.
  { by rewrite need_digits_run, E. }
  destruct (b =? 48); [|by rewrite need_digits_run, E].
  erewrite js_bind_eq by (apply next_run; by rewrite E). by rewrite E.
Qed.

Lemma fraction_run j :
  (exists j', (if next_is 46 (js_rest j) then js_next ≫= (fun _ => need_digits) else mret true) j
    = match cut_fraction (js_rest j) with Some l => (set_rest l j, Done true) | None => (j', Done false) end).
Proof.
  destruct (js_rest j) as [|b l] eqn:E; cbn; [exists j; by rewrite <- E, set_rest_id|].
  destruct (b =? 46); [|exists j; by rewrite <- E, set_rest_id].
  erewrite js_bind_eq by (apply next_run; by rewrite E).
  rewrite need_digits_run, E. cbn. exists (set_rest l j). by destruct (cut_digits l).
Qed.

Lemma exponent_run j :
  (exists j', (if next_is 101 (js_rest j) || next_is 69 (js_rest j) then
      js_next ≫= (fun _ => js_at 43 ≫= (fun plus => js_at 45 ≫= (fun minus =>
        (if plus || minus then js_next else mret tt) ≫= (fun _ => need_digits))))
      else mret true) j
    = match cut_exponent (js_rest j) with Some l => (set_rest l j, Done true) | None => (j', Done false) end).
Proof.
  destruct (js_rest j) as [|b l] eqn:E; cbn; [exists j; by rewrite <- E, set_rest_id|].
  destruct ((b =? 101) || (b =? 69)); [|exists j; by rewrite <- E, set_rest_id].
  erewrite js_bind_eq by (apply next_run; by rewrite E). rewrite E. cbn [tail].
  erewrite js_bind_eq by apply js_at_run. erewrite js_bind_eq by apply js_at_run.
  erewrite js_bind_eq by apply exponent_sign_run. rewrite need_digits_run. cbn.
  eexists. destruct (cut_digits (cut_exponent_sign l)); [done|reflexivity].
Qed.

Lemma number_run j :
  exists j', source_json_skip_number j
  = match cut_number (skip_while isspace (js_rest j)) with
    | Some l => (set_rest l j, Done (zlen l <? zlen (skip_while isspace (js_rest j))))
    | None => (j', Done false)
    end.
Proof.
  unfold source_json_skip_number. erewrite js_bind_eq by apply space_run.
  set (l := skip_while isspace (js_rest j)). erewrite js_bind_eq by reflexivity.
  erewrite js_bind_eq by apply js_at_run. erewrite js_bind_eq by apply sign_run.
  erewrite js_bind_eq by apply js_at_run. unfold cut_number. cbn [js_rest set_rest].
  pose proof (whole_run (set_rest (cut_sign l) j)) as W. cbn [js_rest set_rest] in W.
  destruct (cut_whole (cut_sign l)) as [l1|];
    [|exists (set_rest (cut_sign l) j); by erewrite js_bind_eq by apply W].
  erewrite js_bind_eq by apply W. cbn [negb].
  erewrite js_bind_eq by apply js_at_run. cbn [js_rest set_rest].
  destruct (fraction_run (set_rest l1 j)) as (j1 & F). cbn [js_rest set_rest] in F.
  destruct (cut_fraction l1) as [l2|]; [|exists j1; by erewrite js_bind_eq by apply F].
  erewrite js_bind_eq by apply F. cbn [negb].
  erewrite js_bind_eq by apply js_at_run. erewrite js_bind_eq by apply js_at_run.
  cbn [js_rest set_rest].
  destruct (exponent_run (set_rest l2 j)) as (j2 & X). cbn [js_rest set_rest] in X.
  destruct (cut_exponent l2) as [l3|]; [|exists j2; by erewrite js_bind_eq by apply X].
  exists j. by erewrite js_bind_eq by apply X.
Qed.

Lemma cut_number_sound l l' : cut_number l = Some l' -> exists v, l = v ++ l' /\ jnumber v.
Proof.
  unfold cut_number. intros H.
  assert (exists s, l = s ++ cut_sign l /\ (s = [] \/ s = [45])) as (s & El & Hs).
  { destruct l as [|b l]; [by exists []; auto|]. cbn. destruct (b =? 45) eqn:E.
    - exists [45]. cbn. split; [f_equal; lia|auto].
    - exists []. auto. }
  destruct (cut_whole (cut_sign l)) as [l1|] eqn:E1; [|done].
  destruct (cut_fraction l1) as [l2|] eqn:E2; [|done].
  assert (exists whole, cut_sign l = whole ++ l1 /\ jwhole whole) as (whole & Ew & Hw).
  { destruct (cut_sign l) as [|b m]; [done|]. cbn [cut_whole] in E1. destruct (b =? 48) eqn:Eb.
    - simplify_eq. exists [48]. cbn. split; [f_equal; lia|by left].
    - apply cut_digits_spec in E1 as (_ & v & E & Hv). exists v. split; [done|]. right. split; [done|].
      destruct Hv as [Hv _]. destruct v as [|c v]; [done|]. cbn in *. simplify_eq. intros [= ->]. lia. }
  assert (exists fraction, l1 = fraction ++ l2 /\ jfraction fraction) as (fraction & Ef & Hf).
  { destruct l1 as [|b m]; [exists []; cbn in *; simplify_eq; split; [done|by left]|]. cbn in E2. destruct (b =? 46) eqn:Eb.
    - apply cut_digits_spec in E2 as (_ & v & -> & Hv). exists (46 :: v). cbn.
      split; [f_equal; lia|]. right. eauto.
    - simplify_eq. exists []. split; [done|by left]. }
  assert (exists exponent, l2 = exponent ++ l' /\ jexponent exponent) as (exponent & Ex & Hx).
  { destruct l2 as [|b m]; [exists []; cbn in *; simplify_eq; split; [done|by left]|]. cbn in H.
    destruct ((b =? 101) || (b =? 69)) eqn:Eb.
    - apply cut_digits_spec in H as (_ & v & E & Hv).
      assert (exists s', m = s' ++ v ++ l' /\ (s' = [] \/ s' = [43] \/ s' = [45])) as (s' & -> & Hs').
      { destruct m as [|c m]; [exists []; auto|]. cbn in E. destruct ((c =? 43) || (c =? 45)) eqn:Ec.
        - exists [c]. cbn. split; [by f_equal|]. right.
          apply orb_true_iff in Ec as [Ec|Ec]; [left|right]; f_equal; lia.
        - exists []. cbn. auto. }
      exists (b :: s' ++ v). cbn. rewrite <- app_assoc. split; [done|]. right. exists b, s', v.
      split; [done|]. split; [lia|done].
    - simplify_eq. exists []. split; [done|by left]. }
  exists (s ++ whole ++ fraction ++ exponent). rewrite El, Ew, Ef, Ex, <- !app_assoc. split; [done|].
  exists s, whole, fraction, exponent. done.
Qed.

(** No byte that could continue a number. *)
Lemma cut_digits_app v rest : digits v -> ends isdigit rest -> cut_digits (v ++ rest) = Some rest.
Proof. intros Hv He. apply cut_digits_spec. eauto. Qed.

Lemma digits_head v : digits v -> exists b v', v = b :: v' /\ isdigit b = true.
Proof. intros [Hn Hv]. destruct v as [|b v']; [done|]. inversion Hv; subst. eauto. Qed.

Lemma cut_exponent_complete x rest :
  jexponent x -> stops rest -> cut_exponent (x ++ rest) = Some rest.
Proof.
  intros [->|(e & s & n & -> & He & Hs & Hn)] Hr.
  - destruct rest as [|b rest]; [done|]. cbn in *. unfold stop_byte, isspace in Hr.
    by replace ((b =? 101) || (b =? 69)) with false by lia.
  - cbn. replace ((e =? 101) || (e =? 69)) with true by lia. rewrite <- app_assoc.
    replace (cut_exponent_sign (s ++ n ++ rest)) with (n ++ rest).
    { apply cut_digits_app; [done|by apply stops_ends_digit]. }
    destruct Hs as [->|[->| ->]]; cbn; [|done|done]. destruct (digits_head _ Hn) as (b & n' & -> & Hb).
    cbn. unfold isdigit in Hb. by replace ((b =? 43) || (b =? 45)) with false by lia.
Qed.

Lemma exponent_ends x rest :
  jexponent x -> stops rest -> ends isdigit (x ++ rest) /\ next_is 46 (x ++ rest) = false.
Proof.
  intros [->|(e & s & n & -> & He & _)] Hr.
  - split; [by apply stops_ends_digit|]. destruct rest as [|b rest]; [done|]. cbn in *.
    unfold stop_byte, isspace in Hr. lia.
  - cbn. unfold isdigit. lia.
Qed.

Lemma cut_number_complete v rest : jnumber v -> stops rest -> cut_number (v ++ rest) = Some rest.
Proof.
  intros (s & whole & f & x & -> & Hs & Hw & Hf & Hx) Hr. rewrite <- !app_assoc. unfold cut_number.
  destruct (exponent_ends x rest Hx Hr) as (Hd & Hp).
  assert (ends isdigit (f ++ x ++ rest)) as Hfd.
  { destruct Hf as [->|(n & -> & _)]; [done|]. cbn. done. }
  replace (cut_sign (s ++ whole ++ f ++ x ++ rest)) with (whole ++ f ++ x ++ rest).
  2:{ destruct Hs as [->| ->]; [|done]. destruct Hw as [->|[Hw _]]; [done|].
      destruct (digits_head _ Hw) as (b & n' & -> & Hb). cbn. unfold isdigit in Hb.
      by replace (b =? 45) with false by lia. }
  replace (cut_whole (whole ++ f ++ x ++ rest)) with (Some (f ++ x ++ rest)).
  2:{ destruct Hw as [->|[Hw Hh]]; [done|]. destruct (digits_head _ Hw) as (b & n' & -> & Hb).
      cbn [app cut_whole]. cbn in Hh. replace (b =? 48) with false by (symmetry; apply Z.eqb_neq; congruence).
      symmetry. by apply (cut_digits_app (b :: n')). }
  replace (cut_fraction (f ++ x ++ rest)) with (Some (x ++ rest)); [by apply cut_exponent_complete|].
  destruct Hf as [->|(n & -> & Hn)]; cbn.
  - destruct (x ++ rest) as [|b l]; [done|]. cbn in Hp. cbn. by rewrite Hp.
  - by rewrite cut_digits_app.
Qed.

Lemma number_starts v : jnumber v -> starts v /\ exists b v', v = b :: v' /\ (b = 45 \/ isdigit b = true).
Proof.
  intros (s & whole & f & x & -> & Hs & Hw & _).
  assert (exists b w, s ++ whole = b :: w /\ (b = 45 \/ isdigit b = true)) as (b & w & E & Hb).
  { destruct Hs as [->| ->]; [|cbn; eauto]. destruct Hw as [->|[Hw _]]; [cbn; eauto|].
    destruct (digits_head _ Hw) as (b & n' & -> & Hb). cbn. eauto. }
  rewrite app_assoc, E. cbn. split; [|eauto]. unfold start_byte, isspace, isdigit in *. lia.
Qed.

Lemma number_reads d e : json_reads source_json_skip_number jnumber d e.
Proof.
  split; [by intros v [H _]%number_starts| |].
  - intros j _. destruct (number_run j) as (j0 & E). rewrite E.
    destruct (skip_while_split isspace (js_rest j)) as (w & Ej & Hw).
    destruct (cut_number _) as [l|] eqn:En; [|by exists j0, false].
    eexists _, _. split; [reflexivity|]. intros _. split; [done|]. cbn.
    apply cut_number_sound in En as (v & Ev & Hv). exists w, v. by rewrite <- Ev.
  - intros j w v rest _ E Hw Hv Hr. destruct (number_run j) as (j0 & En). rewrite En, E.
    destruct (number_starts _ Hv) as [Hs _].
    rewrite skip_while_app by (try done; by apply starts_ends_space).
    rewrite cut_number_complete by done. do 2 f_equal. apply Z.ltb_lt. rewrite zlen_app.
    destruct v; [done|]. rewrite zlen_cons. pose proof (zlen_nonneg v). lia.
Qed.

(** ** String values and member names *)

Lemma string_starts d l : jstring d l -> starts l.
Proof. by intros (raw & -> & _). Qed.

Definition skip_string : JS bool := r ← yvex_json_string None; mret (bool_decide (is_Some r)).

Lemma string_reads d e : json_reads skip_string (fun l => exists s, jstring s l) d e.
Proof.
  split; [intros v (s & H); by eapply string_starts| |].
  - intros j _. destruct (string_total None j) as (j' & r & E). exists j', (bool_decide (is_Some r)).
    unfold skip_string. split; [by erewrite js_bind_eq by apply E|]. intros (s & ->)%bool_decide_eq_true.
    apply string_sound in E as (w & d' & l & Ej & Hw & Hs & Ej' & _). split; [done|]. eauto 10.
  - intros j w v rest _ E Hw (s & Hs) _. unfold skip_string.
    by erewrite js_bind_eq by by eapply string_complete.
Qed.

(** A member's name and its colon. *)
Definition skip_name (capacity : Z) : JS bool :=
  key ← yvex_json_string (Some capacity);
  match key with
  | None => mret false
  | Some key => _ ← yvex_json_space; js_accept 58
  end.

Definition jname (capacity : Z) (l : list Z) : Prop :=
  exists key d w, l = key ++ w ++ [58] /\ jstring d key /\ zlen d < capacity /\ ws w.

Lemma accept_run byte j :
  js_accept byte j = match js_rest j with
                     | [] => (j, Done false)
                     | b :: rest => (set_rest rest j, Done (b =? byte))
                     end.
Proof. unfold js_accept, mbind, so_bind. cbn. by destruct (js_rest j). Qed.

Lemma name_sound cap j :
  exists j' b, skip_name cap j = (j', Done b)
    /\ (b = true -> j' = set_rest (js_rest j') j
          /\ exists w v, js_rest j = w ++ v ++ js_rest j' /\ ws w /\ jname cap v).
Proof.
  destruct (string_total (Some cap) j) as (j1 & [key|] & E); unfold skip_name;
    erewrite js_bind_eq by apply E; [|by exists j1, false].
  apply string_sound in E as (w & d & l & Ej & Hw & Hs & Ej1 & -> & Hcap).
  erewrite js_bind_eq by apply space_run. rewrite accept_run. cbn [js_rest set_rest].
  destruct (skip_while_split isspace (js_rest j1)) as (w1 & El & Hw1).
  destruct (skip_while isspace (js_rest j1)) as [|b rest]; [by eexists _, false|].
  eexists _, _. split; [reflexivity|]. intros Hb. assert (b = 58) as -> by lia. cbn.
  split; [by rewrite Ej1|]. exists w, (l ++ w1 ++ [58]). rewrite Ej, El, <- !app_assoc. split; [done|].
  split; [done|]. by exists l, d, w1.
Qed.

Lemma name_complete cap j w v rest :
  js_rest j = w ++ v ++ rest -> ws w -> jname cap v -> skip_name cap j = (set_rest rest j, Done true).
Proof.
  intros E Hw (key & d & w1 & -> & Hs & Hcap & Hw1). unfold skip_name.
  rewrite <- !app_assoc in E.
  erewrite js_bind_eq by (eapply (string_complete _ _ _ _ _ _ E Hw Hs)).
  replace (zlen d <? cap) with true by lia.
  erewrite js_bind_eq by (eapply (space_app _ w1 (58 :: rest)); [done|done|reflexivity]).
  by rewrite accept_run.
Qed.

(** ** Collections *)

(** The iterator as a function of the text. *)
Lemma advance_run iter j :
  it_complete iter = false ->
  json_iter_advance iter j
  = match skip_while isspace (js_rest j) with
    | [] => (set_rest [] j, Done (YVEX_JSON_ITEM_ERROR, iter))
    | b :: l =>
        if b =? it_closing iter then (set_rest l j, Done (YVEX_JSON_ITEM_END, iter_close false iter))
        else if it_count iter =? 0 then (set_rest (b :: l) j, Done (YVEX_JSON_ITEM_READY, iter_ready iter))
        else if negb (b =? 44) then (set_rest l j, Done (YVEX_JSON_ITEM_ERROR, iter))
        else match skip_while isspace l with
             | [] => (set_rest [] j, Done (YVEX_JSON_ITEM_ERROR, iter))
             | b' :: l' =>
                 if b' =? it_closing iter
                 then (set_rest l' j, Done (YVEX_JSON_ITEM_END, iter_close true iter))
                 else (set_rest (b' :: l') j, Done (YVEX_JSON_ITEM_READY, iter_ready iter))
             end
    end.
Proof.
  intros H. unfold json_iter_advance. rewrite H.
  erewrite js_bind_eq by apply space_run. erewrite js_bind_eq by reflexivity. cbn [js_rest set_rest].
  destruct (skip_while isspace (js_rest j)) as [|b l]; [done|].
  destruct (b =? it_closing iter); [done|]. destruct (it_count iter =? 0); [done|]. cbn [negb].
  erewrite js_bind_eq by reflexivity. destruct (negb (b =? 44)); [done|].
  erewrite js_bind_eq by apply space_run. erewrite js_bind_eq by reflexivity. cbn.
  destruct (skip_while isspace l) as [|b' l']; [done|]. by destruct (b' =? it_closing iter).
Qed.

(** The name of a member followed by its value. *)
Definition skip_member (value : JS bool) : JS bool :=
  ok ← skip_name YVEX_JSON_KEY_CAP; if negb ok then mret false else value.

Definition object_next (iter : yvex_json_iter) : JS (yvex_json_item * yvex_json_iter) :=
  '(item, iter, _) ← yvex_json_object_member iter YVEX_JSON_KEY_CAP; mret (item, iter).

Lemma accept_total byte j : exists j' b, js_accept byte j = (j', Done b).
Proof. rewrite accept_run. destruct (js_rest j); eauto. Qed.

Lemma name_total cap j : exists j' b, skip_name cap j = (j', Done b).
Proof. destruct (name_sound cap j) as (j' & b & E & _). eauto. Qed.

Lemma object_next_run iter j j1 item iter1 :
  json_iter_advance iter j = (j1, Done (item, iter1)) ->
  object_next iter j
  = match item with
    | YVEX_JSON_ITEM_READY =>
        let '(j2, r) := skip_name YVEX_JSON_KEY_CAP j1 in
        (j2, match r with
             | Done b => Done (if b : bool then YVEX_JSON_ITEM_READY else YVEX_JSON_ITEM_ERROR, iter1)
             | Refuse st m => Refuse st m
             | Fault f => Fault f
             end)
    | _ => (j1, Done (item, iter1))
    end.
Proof.
  intros E. unfold object_next, yvex_json_object_member, skip_name, mbind, so_bind. rewrite E.
  destruct item; [done|done|].
  destruct (yvex_json_string (Some YVEX_JSON_KEY_CAP) j1) as [j2 [[key|]|st m|f]]; [|done..].
  rewrite space_run. cbn.
  destruct (accept_total 58 (set_rest (skip_while isspace (js_rest j2)) j2)) as (j3 & b & ->). by destruct b.
Qed.

Lemma member_run value j j1 b :
  skip_name YVEX_JSON_KEY_CAP j = (j1, Done b) ->
  skip_member value j = if b then value j1 else (j1, Done false).
Proof. intros N. unfold skip_member. erewrite js_bind_eq by apply N. by destruct b. Qed.

(** The members of an object are the items of an array whose values are named. *)
Lemma object_items value fuel iter j :
  json_skip_items fuel object_next value iter j
  = json_skip_items fuel json_iter_advance (skip_member value) iter j.
Proof.
  revert iter j. induction fuel as [|fuel IH]; intros iter j; [done|]. cbn [json_skip_items].
  destruct (json_iter_advance iter j) as [j1 [[item iter1]|st m|f]] eqn:E;
    [|unfold object_next, yvex_json_object_member, mbind, so_bind; by rewrite E..].
  pose proof (object_next_run _ _ _ _ _ E) as O. erewrite (js_bind_eq (json_iter_advance iter)) by apply E.
  destruct item; [by erewrite js_bind_eq by apply O..|].
  destruct (name_total YVEX_JSON_KEY_CAP j1) as (j2 & b & N). rewrite N in O.
  erewrite js_bind_eq by apply O. unfold mbind, so_bind. rewrite (member_run _ _ _ _ N).
  destruct b; [|done]. cbn.
  destruct (value j2) as [j3 [[|]|st m|f]]; [|done..]. apply IH.
Qed.

Definition closing (close : Z) : Prop := close = 93 \/ close = 125.

Lemma ws_app a b : ws a -> ws b -> ws (a ++ b).
Proof. apply Forall_app_2. Qed.

(** What follows an item in a collection ends its value. *)
Lemma jlist_stops close G t rest : closing close -> jlist close G false t -> stops (t ++ rest).
Proof.
  intros Hc Ht. inversion Ht as [? w Hw|? ? ? ? ? ?|w w' v t' Hw ? ? ?]; subst; rewrite <- app_assoc;
    (destruct Hw as [|b w Hb _]; cbn; unfold stop_byte; [|by rewrite Hb]);
    [destruct Hc as [->| ->]|]; reflexivity.
Qed.

Lemma ready_count iter n :
  0 <= it_count iter -> it_count iter + n < 2 ^ 64 -> 0 < n ->
  it_count (iter_ready iter) = it_count iter + 1.
Proof. intros. cbn. unfold u64. apply Z.mod_small. lia. Qed.

(** The loop over the items: [iter] is not complete and [n] bytes remain. *)
Definition iterating (close : Z) (iter : yvex_json_iter) (n : Z) : Prop :=
  it_closing iter = close /\ it_complete iter = false /\ it_trailing_separator iter = false
  /\ 0 <= it_count iter /\ it_count iter + n < 2 ^ 64.

Lemma iterating_ready close iter n m :
  iterating close iter n -> 0 <= m < n ->
  iterating close (iter_ready iter) m /\ (it_count (iter_ready iter) =? 0) = false.
Proof.
  intros (H1 & H2 & H3 & H4 & H5) Hm. unfold iterating. rewrite (ready_count iter n) by lia.
  cbn [iter_ready it_closing it_complete it_trailing_separator].
  split; [|apply Z.eqb_neq; lia]. repeat split; (done || lia).
Qed.

Lemma starts_length v : starts v -> 0 < zlen v.
Proof. destruct v; [done|]. rewrite zlen_cons. pose proof (zlen_nonneg v). lia. Qed.

Lemma at_level_shorter d e j l : at_level d e j -> zlen l <= zlen (js_rest j) -> at_level d e (set_rest l j).
Proof. intros (? & ? & ?) Hl. repeat split; [done|done|]. cbn. lia. Qed.

Section items.
Context (p : JS bool) (G : list Z -> Prop) (depth extensions close : Z).
Context (Hp : json_reads p G depth extensions) (Hclose : closing close).

(** One item read by [p] and the rest of the loop. *)
Lemma items_step fuel iter j l n :
  iterating close iter n -> zlen l <= n -> (length l <= fuel)%nat -> at_level depth extensions (set_rest l j) ->
  (forall iter j, iterating close iter (zlen (js_rest j)) -> (length (js_rest j) < fuel)%nat ->
     at_level depth extensions j ->
     exists j' b, json_skip_items fuel json_iter_advance p iter j = (j', Done b)
       /\ (b = true -> j' = set_rest (js_rest j') j
             /\ exists t, js_rest j = t ++ js_rest j' /\ jlist close G (it_count iter =? 0) t)) ->
  exists j' b, (p ≫= (fun ok : bool => if negb ok then mret false
      else json_skip_items fuel json_iter_advance p (iter_ready iter))) (set_rest l j) = (j', Done b)
    /\ (b = true -> j' = set_rest (js_rest j') j
          /\ exists w v t, l = w ++ v ++ t ++ js_rest j' /\ ws w /\ G v /\ jlist close G false t).
Proof.
  intros Hi Hn Hf Hl IH. destruct (r_sound _ _ _ _ Hp _ Hl) as (j1 & b & E & Hb).
  erewrite js_bind_eq by apply E. destruct b; [|by exists j1, false]. cbn [negb].
  destruct (Hb eq_refl) as (Ej1 & w & v & El & Hw & Hv). cbn in El.
  pose proof (starts_length v (r_starts _ _ _ _ Hp v Hv)) as Hlen.
  assert (zlen l = zlen w + zlen v + zlen (js_rest j1)) as Hl1 by (rewrite El, !zlen_app; lia).
  pose proof (zlen_nonneg w). pose proof (zlen_nonneg (js_rest j1)).
  destruct (iterating_ready close iter n (zlen (js_rest j1)) Hi ltac:(lia)) as (Hi1 & Hc).
  destruct (IH (iter_ready iter) j1 Hi1) as (j2 & b & E2 & H2).
  { unfold zlen in *. lia. }
  { destruct Hl as (H1 & H2 & H3). rewrite Ej1. repeat split; (done || cbn in *; lia). }
  rewrite E2. exists j2, b. split; [done|]. intros ->. destruct (H2 eq_refl) as (Ej2 & t & Et & Ht).
  rewrite Hc in Ht. split; [by rewrite Ej2, Ej1|]. exists w, v, t. by rewrite El, Et.
Qed.

Lemma items_sound fuel iter j :
  iterating close iter (zlen (js_rest j)) -> (length (js_rest j) < fuel)%nat ->
  at_level depth extensions j ->
  exists j' b, json_skip_items fuel json_iter_advance p iter j = (j', Done b)
    /\ (b = true -> j' = set_rest (js_rest j') j
          /\ exists t, js_rest j = t ++ js_rest j' /\ jlist close G (it_count iter =? 0) t).
Proof.
  revert iter j. induction fuel as [|fuel IH]; intros iter j Hi Hf Hl; [lia|].
  cbn [json_skip_items]. pose proof Hi as (Hc & Hcomp & Htr & _).
  destruct (skip_while_split isspace (js_rest j)) as (w & Ej & Hw).
  pose proof (advance_run iter j Hcomp) as A.
  destruct (skip_while isspace (js_rest j)) as [|b l].
  { erewrite js_bind_eq by apply A. by eexists _, false. }
  assert (zlen (js_rest j) = zlen w + zlen l + 1) as Hlen by (rewrite Ej, zlen_app, zlen_cons; lia).
  pose proof (zlen_nonneg w). pose proof (zlen_nonneg l). rewrite Hc in A.
  destruct (b =? close) eqn:Eb.
  { erewrite js_bind_eq by apply A. cbn. rewrite Htr. eexists _, _. split; [reflexivity|].
    intros _. split; [done|]. exists (w ++ [b]). cbn. rewrite <- app_assoc. split; [done|].
    assert (b = close) as -> by lia. by constructor. }
  destruct (it_count iter =? 0) eqn:E0.
  - erewrite js_bind_eq by apply A.
    destruct (items_step fuel iter j (b :: l) (zlen (js_rest j)) Hi) as (j' & r & -> & Hr).
    { rewrite zlen_cons. lia. } { unfold zlen in *. cbn. lia. }
    { destruct Hl as (? & ? & ?). repeat split; [done|done|]. cbn. rewrite zlen_cons. lia. }
    { done. }
    exists j', r. split; [done|]. intros ->. destruct (Hr eq_refl) as (Ej' & w' & v & t & El & Hw' & Hv & Ht).
    split; [done|]. exists ((w ++ w') ++ v ++ t). rewrite Ej, El, <- !app_assoc. split; [done|].
    rewrite app_assoc. constructor; (done || by apply ws_app).
  - destruct (b =? 44) eqn:E44; cbn [negb] in A.
    2:{ erewrite js_bind_eq by apply A. by eexists _, false. }
    destruct (skip_while_split isspace l) as (w1 & El & Hw1).
    destruct (skip_while isspace l) as [|b' l'].
    { erewrite js_bind_eq by apply A. by eexists _, false. }
    assert (zlen l = zlen w1 + zlen l' + 1) as Hlen1 by (rewrite El, zlen_app, zlen_cons; lia).
    pose proof (zlen_nonneg w1). pose proof (zlen_nonneg l').
    destruct (b' =? close) eqn:Eb'.
    { erewrite js_bind_eq by apply A. cbn. rewrite orb_true_r. by eexists _, false. }
    erewrite js_bind_eq by apply A.
    destruct (items_step fuel iter j (b' :: l') (zlen (js_rest j)) Hi) as (j' & r & -> & Hr).
    { rewrite zlen_cons. lia. } { unfold zlen in *. cbn. lia. }
    { destruct Hl as (? & ? & ?). repeat split; [done|done|]. cbn. rewrite zlen_cons. lia. }
    { done. }
    exists j', r. split; [done|]. intros ->. destruct (Hr eq_refl) as (Ej' & w' & v & t & El' & Hw' & Hv & Ht).
    split; [done|]. assert (b = 44) as -> by lia.
    exists (w ++ 44 :: (w1 ++ w') ++ v ++ t). rewrite Ej, El, El', <- !app_assoc. cbn.
    rewrite <- !app_assoc. split; [done|]. rewrite (app_assoc w1). constructor; (done || by apply ws_app).
Qed.

(** The same from a text of the grammar. *)
Lemma items_take fuel iter j n l v t rest :
  iterating close iter n -> zlen l <= n -> l = v ++ t ++ rest ->
  at_level depth extensions (set_rest l j) -> G v -> jlist close G false t -> (length l <= fuel)%nat ->
  (forall iter j rest, iterating close iter (zlen (js_rest j)) -> (length (js_rest j) < fuel)%nat ->
    at_level depth extensions j -> (it_count iter =? 0) = false -> js_rest j = t ++ rest ->
    json_skip_items fuel json_iter_advance p iter j = (set_rest rest j, Done true)) ->
  (p ≫= (fun ok : bool => if negb ok then mret false
    else json_skip_items fuel json_iter_advance p (iter_ready iter))) (set_rest l j)
  = (set_rest rest j, Done true).
Proof.
  intros Hi Hn El Hl Hv Ht Hf IH.
  pose proof (starts_length v (r_starts _ _ _ _ Hp v Hv)) as Hlen.
  assert (zlen l = zlen v + zlen (t ++ rest)) as Hl1 by (rewrite El, zlen_app; lia).
  pose proof (zlen_nonneg (t ++ rest)).
  erewrite js_bind_eq.
  2:{ apply (r_complete _ _ _ _ Hp _ [] v (t ++ rest) Hl); [done|by constructor|done|].
      by eapply jlist_stops. }
  cbn [negb]. destruct (iterating_ready close iter n (zlen (t ++ rest)) Hi ltac:(lia)) as (Hi1 & Hc).
  rewrite set_set_rest. rewrite (IH _ _ rest); [done|done| |  |done|done].
  - cbn. unfold zlen in *. lia.
  - destruct Hl as (? & ? & ?). repeat split; (done || cbn in *; lia).
Qed.

Lemma items_complete first t :
  jlist close G first t ->
  forall fuel iter j rest, iterating close iter (zlen (js_rest j)) -> (length (js_rest j) < fuel)%nat ->
    at_level depth extensions j -> (it_count iter =? 0) = first -> js_rest j = t ++ rest ->
    json_skip_items fuel json_iter_advance p iter j = (set_rest rest j, Done true).
Proof.
  assert (isspace close = false) as Hcs by (destruct Hclose as [->| ->]; done).
  induction 1 as [first w Hw|w v t Hw Hv Ht IH|w w' v t Hw Hw' Hv Ht IH];
    intros [|fuel] iter j rest Hi Hf Hl Hfirst Ej; try lia; cbn [json_skip_items];
    pose proof Hi as (Hc & Hcomp & Htr & _); pose proof (advance_run iter j Hcomp) as A;
    rewrite Hc in A; rewrite Ej, <- app_assoc in A; cbn [app] in A.
  - rewrite skip_while_app in A by done. rewrite Z.eqb_refl in A. erewrite js_bind_eq by apply A.
    cbn. by rewrite Htr.
  - pose proof (r_starts _ _ _ _ Hp v Hv) as Hs.
    rewrite <- app_assoc, skip_while_app in A by (try done; by apply starts_ends_space).
    destruct v as [|b v]; [done|]. cbn [app] in A. cbn in Hs. unfold start_byte in Hs.
    replace (b =? close) with false in A by (destruct Hclose as [->| ->]; lia).
    rewrite Hfirst in A. erewrite js_bind_eq by apply A.
    pose proof (zlen_nonneg w).
    assert (zlen (js_rest j) = zlen w + zlen (b :: v ++ t ++ rest)) as Hlen.
    { by rewrite Ej, <- !app_assoc, zlen_app. }
    eapply (items_take fuel iter j (zlen (js_rest j)) _ (b :: v) t rest Hi);
      [lia|done|eapply at_level_shorter; [done|lia]|done|done|unfold zlen in *; lia|eauto].
  - pose proof (r_starts _ _ _ _ Hp v Hv) as Hs.
    rewrite skip_while_app in A by done.
    replace (44 =? close) with false in A by (destruct Hclose as [->| ->]; done).
    rewrite Hfirst, <- !app_assoc in A. cbn [Z.eqb negb] in A.
    rewrite skip_while_app in A by (try done; by apply starts_ends_space).
    destruct v as [|b v]; [done|]. cbn [app] in A. cbn in Hs. unfold start_byte in Hs.
    replace (b =? close) with false in A by (destruct Hclose as [->| ->]; lia).
    erewrite js_bind_eq by apply A.
    pose proof (zlen_nonneg w). pose proof (zlen_nonneg w').
    assert (zlen (js_rest j) = zlen w + 1 + zlen w' + zlen (b :: v ++ t ++ rest)) as Hlen.
    { rewrite Ej. repeat first [rewrite zlen_app | rewrite zlen_cons]. lia. }
    eapply (items_take fuel iter j (zlen (js_rest j)) _ (b :: v) t rest Hi);
      [lia|done|eapply at_level_shorter; [done|lia]|done|done|unfold zlen in *; lia|eauto].
Qed.

End items.

Definition opening_of (c : yvex_json_collection) : Z :=
  match c with YVEX_JSON_COLLECTION_OBJECT => 123 | YVEX_JSON_COLLECTION_ARRAY => 91 end.
Definition closing_of (c : yvex_json_collection) : Z :=
  match c with YVEX_JSON_COLLECTION_OBJECT => 125 | YVEX_JSON_COLLECTION_ARRAY => 93 end.

Lemma begin_run c j :
  yvex_json_iter_begin c j
  = match skip_while isspace (js_rest j) with
    | [] => (set_rest [] j, Done None)
    | b :: l => (set_rest l j, Done (if b =? opening_of c then Some (mk_iter 0 (closing_of c) false false)
                                     else None))
    end.
Proof.
  destruct c; cbn [opening_of closing_of]; unfold yvex_json_iter_begin;
    (erewrite js_bind_eq by apply space_run; unfold mbind, so_bind; rewrite accept_run; cbn;
     by destruct (skip_while isspace (js_rest j))).
Qed.

Definition jcollection (c : yvex_json_collection) (G : list Z -> Prop) (l : list Z) : Prop :=
  exists t, l = opening_of c :: t /\ jlist (closing_of c) G true t.

Lemma collection_starts c G l : jcollection c G l -> starts l.
Proof. by intros (t & -> & _); destruct c. Qed.

Lemma enter_level c d e j l :
  0 <= d < 64 -> at_level d e (set_rest l j) ->
  at_level (d + 1) e (set_depth (u32 (js_depth (set_rest l j) + 1)) (set_rest l j))
  /\ iterating (closing_of c) (mk_iter 0 (closing_of c) false false) (zlen l).
Proof.
  intros Hd (H1 & H2 & H3). split; [|repeat split; cbn in *; lia]. repeat split; [|done|done].
  cbn in *. rewrite H1. unfold u32. apply Z.mod_small. lia.
Qed.

Lemma leave_level d j rest :
  0 <= d < 64 -> js_depth j = d ->
  set_depth (u32 (u32 (d + 1) - 1)) (set_rest rest j) = set_rest rest j.
Proof.
  intros Hd <-. unfold u32. rewrite (Z.mod_small (js_depth j + 1)) by lia.
  rewrite Z.mod_small by lia. unfold set_depth, set_rest. cbn. f_equal. lia.
Qed.

Lemma collection_reads c p G d e :
  0 <= d < YVEX_JSON_DEPTH_CAP -> json_reads p G (d + 1) e ->
  json_reads (json_skip_collection c json_iter_advance p) (jcollection c G) d e.
Proof.
  intros Hd Hp. unfold YVEX_JSON_DEPTH_CAP in Hd.
  assert (closing (closing_of c)) as Hc by (destruct c; unfold closing; cbn; auto).
  split; [apply collection_starts| |].
  - intros j Hl. pose proof Hl as (Hdj & _). unfold json_skip_collection, YVEX_JSON_DEPTH_CAP.
    erewrite js_bind_eq by reflexivity. replace (64 <=? js_depth j) with false by lia.
    destruct (skip_while_split isspace (js_rest j)) as (w & Ej & Hw).
    pose proof (begin_run c j) as B. destruct (skip_while isspace (js_rest j)) as [|b l].
    { erewrite js_bind_eq by apply B. by eexists _, false. }
    erewrite js_bind_eq by apply B. destruct (b =? opening_of c) eqn:Eb; [|by eexists _, false].
    assert (zlen (js_rest j) = zlen w + zlen l + 1) as Hlen by (rewrite Ej, zlen_app, zlen_cons; lia).
    pose proof (zlen_nonneg w).
    destruct (enter_level c d e j l Hd) as (Hl1 & Hi). { apply at_level_shorter; [done|lia]. }
    erewrite js_bind_eq by reflexivity. erewrite js_bind_eq by reflexivity.
    destruct (items_sound p G (d + 1) e _ Hp (S (length l)) _ (set_depth (u32 (js_depth (set_rest l j) + 1)) (set_rest l j))
                Hi ltac:(cbn; lia) Hl1)
      as (j' & r & E & Hr).
    erewrite js_bind_eq by apply E. destruct r; [|by exists j', false].
    eexists _, true. split; [reflexivity|]. intros _. destruct (Hr eq_refl) as (Ej' & t & Et & Ht).
    split; [rewrite Ej'; cbn; rewrite Hdj; exact (leave_level d j _ Hd Hdj)|].
    exists w, (b :: t). cbn in *. rewrite Ej, Et. split; [done|]. split; [done|]. exists t.
    split; [f_equal; lia|done].
  - intros j w v rest Hl E Hw (t & -> & Ht) _. pose proof Hl as (Hdj & _).
    unfold json_skip_collection, YVEX_JSON_DEPTH_CAP.
    erewrite js_bind_eq by reflexivity. replace (64 <=? js_depth j) with false by lia.
    pose proof (begin_run c j) as B. rewrite E in B. cbn [app] in B.
    rewrite skip_while_app in B by (done || by destruct c).
    rewrite Z.eqb_refl in B. erewrite js_bind_eq by apply B.
    assert (zlen (js_rest j) = zlen w + 1 + zlen (t ++ rest)) as Hlen.
    { rewrite E. repeat first [rewrite zlen_app | rewrite zlen_cons]. lia. }
    pose proof (zlen_nonneg w).
    destruct (enter_level c d e j (t ++ rest) Hd) as (Hl1 & Hi). { apply at_level_shorter; [done|lia]. }
    erewrite js_bind_eq by reflexivity. erewrite js_bind_eq by reflexivity.
    erewrite js_bind_eq.
    2:{ eapply (items_complete p G (d + 1) e _ Hp Hc true t Ht (S (length (t ++ rest))) _
                (set_depth (u32 (js_depth (set_rest (t ++ rest) j) + 1)) (set_rest (t ++ rest) j)) rest Hi);
        [cbn; lia|done|done|done]. }
    cbn [negb]. erewrite js_bind_eq by reflexivity. unfold mret, so_ret. f_equal. cbn. rewrite Hdj.
    exact (leave_level d j _ Hd Hdj).
Qed.

Lemma member_reads p G d e : json_reads p G d e -> json_reads (skip_member p) (jmember G) d e.
Proof.
  intros Hp. split.
  - intros m (key & dd & w & w' & v & -> & Hs & _). apply string_starts in Hs. by destruct key.
  - intros j Hl. destruct (name_sound YVEX_JSON_KEY_CAP j) as (j1 & b & E & Hb).
    rewrite (member_run _ _ _ _ E). destruct b; [|by exists j1, false].
    destruct (Hb eq_refl) as (Ej1 & w & n & Ej & Hw & key & dd & w1 & -> & Hk & Hcap & Hw1).
    destruct (r_sound _ _ _ _ Hp j1) as (j2 & b & E2 & Hb2).
    { rewrite Ej1. apply at_level_shorter; [done|]. rewrite Ej. rewrite !zlen_app.
      pose proof (zlen_nonneg w). pose proof (zlen_nonneg key). pose proof (zlen_nonneg w1).
      pose proof (zlen_nonneg [58]). lia. }
    exists j2, b. split; [done|]. intros ->. destruct (Hb2 eq_refl) as (Ej2 & w2 & v & E1 & Hw2 & Hv).
    split; [by rewrite Ej2, Ej1|]. exists w, (key ++ w1 ++ 58 :: w2 ++ v).
    rewrite Ej, E1, <- !app_assoc. cbn. rewrite <- !app_assoc. split; [done|]. split; [done|].
    by exists key, dd, w1, w2, v.
  - intros j w m rest Hl E Hw (key & dd & w1 & w2 & v & -> & Hk & Hcap & Hw1 & Hw2 & Hv) Hr.
    assert (skip_name YVEX_JSON_KEY_CAP j = (set_rest (w2 ++ v ++ rest) j, Done true)) as N.
    { apply (name_complete _ _ w (key ++ w1 ++ [58])); [|done|by exists key, dd, w1].
      rewrite E, <- !app_assoc. cbn. by rewrite <- !app_assoc. }
    rewrite (member_run _ _ _ _ N).
    rewrite (r_complete _ _ _ _ Hp _ w2 v rest); [done| |done..].
    apply at_level_shorter; [done|]. rewrite E.
    repeat first [rewrite zlen_app | rewrite zlen_cons].
    pose proof (zlen_nonneg w). pose proof (zlen_nonneg key). pose proof (zlen_nonneg w1). lia.
Qed.

Lemma reads_ext p q G d e : (forall j, p j = q j) -> json_reads p G d e -> json_reads q G d e.
Proof.
  intros H [H1 H2 H3]. split; [done| |].
  - intros j Hj. rewrite <- H. by apply H2.
  - intros. rewrite <- H. by eapply H3.
Qed.

Lemma array_reads p G d e :
  0 <= d < YVEX_JSON_DEPTH_CAP -> json_reads p G (d + 1) e ->
  json_reads (json_skip_array p) (jcollection YVEX_JSON_COLLECTION_ARRAY G) d e.
Proof. apply collection_reads. Qed.

Lemma object_reads p G d e :
  0 <= d < YVEX_JSON_DEPTH_CAP -> json_reads p G (d + 1) e ->
  json_reads (json_skip_object p) (jcollection YVEX_JSON_COLLECTION_OBJECT (jmember G)) d e.
Proof.
  intros Hd Hp. eapply reads_ext; [|by apply collection_reads, member_reads].
  intros j. unfold json_skip_object, json_skip_collection.
  erewrite !js_bind_eq by reflexivity. destruct (YVEX_JSON_DEPTH_CAP <=? js_depth j); [done|].
  unfold mbind, so_bind. destruct (yvex_json_iter_begin _ j) as [j1 [[iter|]|st m|f]]; [|done..].
  cbn -[json_skip_items]. by rewrite <- object_items.
Qed.

(** ** Values *)

(** At the deepest level a collection is refused. *)
Lemma deep_reads c next p e :
  json_reads (json_skip_collection c next p) (fun _ => False) YVEX_JSON_DEPTH_CAP e.
Proof.
  split; [done| |done]. intros j (Hd & _). exists j, false. split; [|done].
  unfold json_skip_collection. erewrite js_bind_eq by reflexivity. by rewrite Hd.
Qed.

Definition infinity_on (extensions : Z) : bool :=
  negb (Z.land extensions YVEX_JSON_EXTENSION_POSITIVE_INFINITY =? 0).

(** The reader of the values whose first byte is [b]. *)
Definition dispatch (fuel : nat) (extensions b : Z) : JS bool :=
  if b =? 123 then json_skip_object (json_skip fuel)
  else if b =? 91 then json_skip_array (json_skip fuel)
  else if b =? 34 then skip_string
  else if b =? 116 then source_json_literal lit_true
  else if b =? 102 then source_json_literal lit_false
  else if b =? 110 then source_json_literal lit_null
  else if (b =? 73) && infinity_on extensions then source_json_literal lit_infinity
  else source_json_skip_number.

Lemma skip_run fuel j :
  json_skip (S fuel) j
  = match skip_while isspace (js_rest j) with
    | [] => (set_rest [] j, Done false)
    | b :: l => dispatch fuel (js_extensions j) b (set_rest (b :: l) j)
    end.
Proof.
  cbn [json_skip]. erewrite js_bind_eq by apply space_run. erewrite js_bind_eq by reflexivity.
  cbn [js_rest set_rest]. destruct (skip_while isspace (js_rest j)) as [|b l]; [done|]. unfold dispatch.
  repeat (match goal with |- context [if ?c then _ else _] => destruct c; [done|] end). done.
Qed.

(** The collections of one more level. *)
Definition jdeeper (infinity : bool) (c : yvex_json_collection) (depth : nat) (l : list Z) : Prop :=
  match depth, c with
  | O, _ => False
  | S depth, YVEX_JSON_COLLECTION_ARRAY => jcollection c (jvalue infinity depth) l
  | S depth, YVEX_JSON_COLLECTION_OBJECT => jcollection c (jmember (jvalue infinity depth)) l
  end.

Lemma jvalue_cases infinity k l :
  jvalue infinity k l <->
  jscalar infinity l \/ jdeeper infinity YVEX_JSON_COLLECTION_ARRAY k l
  \/ jdeeper infinity YVEX_JSON_COLLECTION_OBJECT k l.
Proof. destruct k; cbn; [tauto|done]. Qed.

Lemma jdeeper_first infinity c k b v : jdeeper infinity c k (b :: v) -> b = opening_of c.
Proof. destruct k as [|k]; [done|]. by destruct c; intros (t & [= -> _] & _). Qed.

Lemma jnumber_first b v : jnumber (b :: v) -> b = 45 \/ 48 <= b <= 57.
Proof.
  intros [_ (b' & v' & [= <- <-] & [->|H])]%number_starts; [by left|]. right. unfold isdigit in H. lia.
Qed.

(** The first byte of a text decides which production it is of. *)
Lemma jvalue_first infinity k b v :
  jvalue infinity k (b :: v) ->
  (b = 123 /\ jdeeper infinity YVEX_JSON_COLLECTION_OBJECT k (b :: v))
  \/ (b = 91 /\ jdeeper infinity YVEX_JSON_COLLECTION_ARRAY k (b :: v))
  \/ (b = 34 /\ exists s, jstring s (b :: v))
  \/ (b = 116 /\ lit_true = b :: v) \/ (b = 102 /\ lit_false = b :: v) \/ (b = 110 /\ lit_null = b :: v)
  \/ (b = 73 /\ infinity = true /\ lit_infinity = b :: v)
  \/ ((b = 45 \/ 48 <= b <= 57) /\ jnumber (b :: v)).
Proof.
  intros [[(s & Hs)|[H|[H|[H|[[Hi H]|H]]]]]|[H|H]]%jvalue_cases.
  - do 2 right; left. split; [by destruct Hs as (r & [= -> _] & _)|eauto].
  - do 3 right; left. by inversion H.
  - do 4 right; left. by inversion H.
  - do 5 right; left. by inversion H.
  - do 6 right; left. by inversion H.
  - do 7 right. split; [by eapply jnumber_first|done].
  - right; left. split; [by apply jdeeper_first in H|done].
  - left. split; [by apply jdeeper_first in H|done].
Qed.

Lemma deeper_reads c k fuel e :
  (k <= 64)%nat ->
  (forall k', k = S k' -> json_reads (json_skip fuel) (jvalue (infinity_on e) k') (64 - Z.of_nat k') e) ->
  json_reads (match c with YVEX_JSON_COLLECTION_ARRAY => json_skip_array (json_skip fuel)
                    | YVEX_JSON_COLLECTION_OBJECT => json_skip_object (json_skip fuel) end)
    (jdeeper (infinity_on e) c k) (64 - Z.of_nat k) e.
Proof.
  intros Hk IH. destruct k as [|k].
  { destruct c; apply deep_reads. }
  specialize (IH k eq_refl). replace (64 - Z.of_nat k) with (64 - Z.of_nat (S k) + 1) in IH by lia.
  destruct c; [apply object_reads|apply array_reads]; (done || unfold YVEX_JSON_DEPTH_CAP; lia).
Qed.

Lemma dispatch_reads b k fuel e :
  (k <= 64)%nat ->
  (forall k', k = S k' -> json_reads (json_skip fuel) (jvalue (infinity_on e) k') (64 - Z.of_nat k') e) ->
  exists G, json_reads (dispatch fuel e b) G (64 - Z.of_nat k) e
    /\ (forall v, G v -> jvalue (infinity_on e) k v)
    /\ (forall v, jvalue (infinity_on e) k (b :: v) -> G (b :: v)).
Proof.
  intros Hk IH. setoid_rewrite jvalue_cases at 1. unfold dispatch.
  pose proof (fun v => jvalue_first (infinity_on e) k b v) as Hf.
  destruct (b =? 123) eqn:E1.
  { eexists. split; [exact (deeper_reads YVEX_JSON_COLLECTION_OBJECT k fuel e Hk IH)|].
    split; [by auto|]. intros v Hv%Hf. naive_solver lia. }
  destruct (b =? 91) eqn:E2.
  { eexists. split; [exact (deeper_reads YVEX_JSON_COLLECTION_ARRAY k fuel e Hk IH)|].
    split; [by auto|]. intros v Hv%Hf. naive_solver lia. }
  destruct (b =? 34) eqn:E3.
  { eexists. split; [apply string_reads|]. split; [unfold jscalar; eauto|]. intros v Hv%Hf. naive_solver lia. }
  destruct (b =? 116) eqn:E4.
  { eexists. split; [by apply literal_reads|]. split; [unfold jscalar; by eauto 10|].
    intros v Hv%Hf. naive_solver lia. }
  destruct (b =? 102) eqn:E5.
  { eexists. split; [by apply literal_reads|]. split; [unfold jscalar; by eauto 10|].
    intros v Hv%Hf. naive_solver lia. }
  destruct (b =? 110) eqn:E6.
  { eexists. split; [by apply literal_reads|]. split; [unfold jscalar; by eauto 10|].
    intros v Hv%Hf. naive_solver lia. }
  destruct ((b =? 73) && infinity_on e) eqn:E7.
  { eexists. split; [by apply literal_reads|]. apply andb_true_iff in E7 as [E7 Hi].
    split; [unfold jscalar; by eauto 10|]. intros v Hv%Hf. naive_solver lia. }
  eexists. split; [apply number_reads|]. split; [unfold jscalar; by eauto 10|].
  intros v Hv%Hf. destruct (infinity_on e); naive_solver lia.
Qed.

Lemma jvalue_nonempty infinity k : ~ jvalue infinity k [].
Proof.
  intros [[(s & r & ? & _)|[H|[H|[H|[[Hi H]|[H _]%number_starts]]]]]|[H|H]]%jvalue_cases; try done.
  all: destruct k; [done|by destruct H as (t & ? & _)].
Qed.

Lemma value_reads k fuel e :
  (k <= 64)%nat -> (k < fuel)%nat -> json_reads (json_skip fuel) (jvalue (infinity_on e) k) (64 - Z.of_nat k) e.
Proof.
  revert fuel. induction k as [k IH] using lt_wf_ind. intros [|fuel] Hk Hf; [lia|].
  assert (forall b, exists G, json_reads (dispatch fuel e b) G (64 - Z.of_nat k) e
    /\ (forall v, G v -> jvalue (infinity_on e) k v)
    /\ (forall v, jvalue (infinity_on e) k (b :: v) -> G (b :: v))) as Hd.
  { intros b. apply dispatch_reads; [done|]. intros k' ->. apply IH; lia. }
  split.
  - intros [|b v] Hv; [by apply jvalue_nonempty in Hv|]. destruct (Hd b) as (G & HG & _ & Hin).
    by apply (r_starts _ _ _ _ HG), Hin.
  - intros j Hl. rewrite skip_run. destruct (skip_while_split isspace (js_rest j)) as (w & Ej & Hw).
    destruct (skip_while isspace (js_rest j)) as [|b l]; [by eexists _, false|].
    destruct (Hd b) as (G & HG & Hout & _). pose proof Hl as (_ & He & _).
    destruct (r_sound _ _ _ _ HG (set_rest (b :: l) j)) as (j' & r & E & Hr).
    { apply at_level_shorter; [done|]. rewrite Ej, zlen_app. pose proof (zlen_nonneg w). lia. }
    rewrite He, E. exists j', r. split; [done|]. intros ->.
    destruct (Hr eq_refl) as (Ej' & w' & v & El & Hw' & Hv). split; [done|]. cbn in El.
    exists (w ++ w'), v. rewrite Ej, El, <- app_assoc. split; [done|]. split; [by apply ws_app|by apply Hout].
  - intros j w v rest Hl E Hw Hv Hr. destruct v as [|b v]; [by apply jvalue_nonempty in Hv|].
    destruct (Hd b) as (G & HG & _ & Hin). apply Hin in Hv.
    pose proof (r_starts _ _ _ _ HG _ Hv) as Hs. pose proof Hl as (_ & He & _).
    rewrite skip_run, E. rewrite skip_while_app by (try done; by apply starts_ends_space).
    cbn [app]. rewrite He. rewrite (r_complete _ _ _ _ HG _ [] (b :: v) rest); [done| |done|constructor|done|done].
    apply at_level_shorter; [done|]. rewrite E, zlen_app. pose proof (zlen_nonneg w). cbn. lia.
Qed.

(** ** Documents *)

Lemma ws_stops w : ws w -> stops w.
Proof. destruct 1 as [|b w Hb _]; [done|]. cbn. unfold stop_byte. by rewrite Hb. Qed.

Lemma complete_run j :
  js_depth j = 0 ->
  snd (yvex_json_complete j) = Done (bool_decide (skip_while isspace (js_rest j) = [])).
Proof.
  intros Hj. unfold yvex_json_complete. erewrite js_bind_eq by apply space_run.
  erewrite js_bind_eq by reflexivity. cbn [js_depth set_rest]. by rewrite Hj, andb_true_r.
Qed.

(** The reader returns on every text, and accepts exactly the documents of the grammar. *)
Lemma document_exact extensions text :
  zlen text < 2 ^ 64 ->
  exists b, snd (json_one_value (mk_json text 0 extensions)) = Done b
    /\ (b = true <-> jdocument (infinity_on extensions) text).
Proof.
  intros Hlen. pose proof (value_reads 64 65 extensions (le_n _) (le_n _)) as H.
  change (64 - Z.of_nat 64) with 0 in H.
  assert (at_level 0 extensions (mk_json text 0 extensions)) as Hl by done.
  destruct (r_sound _ _ _ _ H _ Hl) as (j' & b & E & Hb).
  unfold json_one_value. erewrite js_bind_eq by apply E.
  destruct b; cbn [negb].
  - destruct (Hb eq_refl) as (Ej' & w & v & Et & Hw & Hv). cbn in Et.
    rewrite complete_run by by rewrite Ej'. eexists. split; [done|]. rewrite bool_decide_eq_true. split.
    + intros Hr. exists w, v, (js_rest j'). split; [done|]. split; [done|]. split; [|done].
      destruct (skip_while_split isspace (js_rest j')) as (w' & E' & Hw'). rewrite Hr, app_nil_r in E'. by rewrite E'.
    + intros (w0 & v0 & w1 & E0 & Hw0 & Hw1 & Hv0).
      rewrite (r_complete _ _ _ _ H _ w0 v0 w1 Hl E0 Hw0 Hv0) in E by by apply ws_stops.
      injection E as <-. cbn [js_rest set_rest]. rewrite <- (app_nil_r w1). by apply skip_while_app.
  - eexists. split; [done|]. split; [done|]. intros (w0 & v0 & w1 & E0 & Hw0 & Hw1 & Hv0).
    rewrite (r_complete _ _ _ _ H _ w0 v0 w1 Hl E0 Hw0 Hv0) in E by by apply ws_stops. done.
Qed.

(** C27: [yvex_provider_json_value_validate] returns on every byte string without reading past its
    end.  It accepts exactly the non-empty strings of at most 64 KiB that are one document of the JSON
    grammar (nesting at most 64, member names below 1024 bytes, no trailing separator, nothing but
    whitespace around the value) and, when an object is required, whose first byte after the
    whitespace of the wire format is a brace. *)
Theorem json_value_validate_exact bytes require_object :
  no_fault (yvex_provider_json_value_validate bytes require_object)
  /\ (yvex_provider_json_value_validate bytes require_object = Done tt <->
      0 < zlen bytes <= YVEX_PROVIDER_MAX_TOOL_SCHEMA_BYTES /\ jdocument false bytes
      /\ (require_object = true -> exists w t, bytes = w ++ 123 :: t /\ Forall (fun b => wire_space b = true) w)).
Proof.
  unfold yvex_provider_json_value_validate. pose proof (zlen_nonneg bytes).
  destruct (_ || _) eqn:E1; unfold YVEX_PROVIDER_MAX_TOOL_SCHEMA_BYTES in *.
  { split; [done|]. split; [done|]. lia. }
  destruct (document_exact 0 bytes ltac:(lia)) as (b & E & Hb).
  change (infinity_on 0) with false in Hb. unfold yvex_json_init. rewrite E.
  destruct (skip_while_split wire_space bytes) as (w & Ew & Hw).
  pose proof (skip_while_ends wire_space bytes) as He.
  destruct (skip_while wire_space bytes) as [|c t] eqn:Es.
  { split; [done|]. split; [done|]. intros (_ & (w0 & v & w1 & Ed & _ & _ & Hv) & _). exfalso.
    pose proof (value_reads 64 65 0 (le_n _) (le_n _)) as R.
    pose proof (r_starts _ _ _ _ R v Hv) as Hs. rewrite app_nil_r in Ew. subst bytes.
    destruct v as [|x v]; [done|]. rewrite Ed, !Forall_app in Hw. destruct Hw as (_ & Hx & _).
    inversion Hx as [|? ? Hxs _]; subst. cbn in Hs. unfold start_byte, isspace in Hs. unfold wire_space in Hxs. lia. }
  destruct (require_object && negb (c =? 123)) eqn:Er.
  { split; [done|]. split; [done|]. intros (_ & _ & Ho). destruct require_object; [|done].
    destruct (Ho eq_refl) as (w0 & t0 & E0 & Hw0). exfalso.
    rewrite E0, skip_while_app in Es by done. simplify_eq. }
  split; [by destruct b|]. split.
  - destruct b; [|done]. intros _. split; [lia|]. split; [by apply Hb|]. intros ->.
    exists w, t. rewrite Ew. split; [|done]. do 2 f_equal. cbn in Er. lia.
  - intros (_ & Hd & _). apply Hb in Hd. by subst.
Qed.

(** ** Strings, as the callers use them *)

(** [yvex_json_string] with a buffer returns on every text; it delivers [d] and stops at [rest]
    exactly when, after whitespace, the text up to [rest] is a string that denotes [d] and the buffer
    has room for [d] and its terminator. *)
Theorem json_string_exact cap j rest d :
  (exists j' r, yvex_json_string (Some cap) j = (j', Done r))
  /\ (yvex_json_string (Some cap) j = (set_rest rest j, Done (Some d))
      <-> exists w l, js_rest j = w ++ l ++ rest /\ ws w /\ jstring d l /\ zlen d < cap).
Proof.
  split; [apply string_total|]. split.
  - intros (w & d' & l & E & Hw & Hs & _ & -> & Hc)%string_sound. by exists w, l.
  - intros (w & l & E & Hw & Hs & Hc). rewrite (string_complete _ _ _ _ _ _ E Hw Hs).
    by replace (zlen d <? cap) with true by lia.
Qed.

Lemma jchars_length d raw : jchars d raw -> zlen d <= zlen raw.
Proof. induction 1; rewrite ?zlen_cons in *; lia. Qed.

Lemma jstring_length d l : jstring d l -> zlen d + 2 <= zlen l.
Proof.
  intros (raw & -> & Hc%jchars_length). rewrite zlen_cons, zlen_app, zlen_cons, zlen_nil. lia.
Qed.

(** Two strings at the start of a text are the same. *)
Lemma jstring_prefix d l rest d' l' rest' :
  jstring d l -> jstring d' l' -> l ++ rest = l' ++ rest' -> zlen l = zlen l'.
Proof.
  intros H H' E.
  pose proof (string_complete None (mk_json (l ++ rest) 0 0) [] d l rest eq_refl ltac:(constructor) H) as C.
  rewrite (string_complete None (mk_json (l ++ rest) 0 0) [] d' l' rest' E ltac:(constructor) H') in C.
  injection C as ->. apply (f_equal zlen) in E. rewrite !zlen_app in E. lia.
Qed.

Lemma string_dup_spec granted cap j :
  0 <= cap ->
  match yvex_json_string_dup granted cap j with
  | (j', Done (Some d)) => granted = true /\ exists w l, js_rest j = w ++ l ++ js_rest j'
      /\ j' = set_rest (js_rest j') j /\ ws w /\ jstring d l /\ zlen l - 1 <= cap
  | (j', Done None) => j' = j /\ (granted = false \/ forall w l rest d,
      js_rest j = w ++ l ++ rest -> ws w -> jstring d l -> cap < zlen l - 1)
  | _ => False
  end.
Proof.
  intros Hcap. unfold yvex_json_string_dup.
  assert (forall d l, jstring d l -> 1 <= zlen l - 1) as Hlen.
  { intros d l H%jstring_length. pose proof (zlen_nonneg d). lia. }
  destruct (cap =? 0) eqn:E0.
  { split; [done|]. right. intros w l rest d _ _ Hs%Hlen. lia. }
  erewrite js_bind_eq by reflexivity. rewrite space_run.
  set (probe := set_rest (skip_while isspace (js_rest j)) j).
  destruct (skip_while_split isspace (js_rest j)) as (w & Ej & Hw).
  destruct (string_total None probe) as (after & r & E). rewrite E.
  assert (forall w l rest d, js_rest j = w ++ l ++ rest -> ws w -> jstring d l ->
    js_rest probe = l ++ rest) as Hprobe.
  { intros w0 l rest d E1 Hw0 Hs%string_starts. unfold probe. cbn. rewrite E1.
    by rewrite skip_while_app by (try done; by apply starts_ends_space). }
  destruct r as [r|].
  2:{ split; [done|]. right. intros w0 l rest d E1 Hw0 Hs.
      rewrite (string_complete None probe [] d l rest) in E; [done|exact (Hprobe _ _ _ _ E1 Hw0 Hs)|constructor|done]. }
  apply string_sound in E as (w1 & d & l & E1 & Hw1 & Hs & Ea & _).
  assert (js_rest j = (w ++ w1) ++ l ++ js_rest after) as Ej2 by (rewrite Ej, <- app_assoc; f_equal; exact E1).
  pose proof (Hprobe _ _ _ _ Ej2 (ws_app _ _ Hw Hw1) Hs) as Ep.
  replace (zlen (js_rest probe) - zlen (js_rest after)) with (zlen l) by (rewrite Ep, zlen_app; lia).
  pose proof (jstring_length _ _ Hs). pose proof (zlen_nonneg d).
  replace (zlen l <? 2) with false by lia. cbn [orb].
  destruct (cap <? zlen l - 1) eqn:Ec; cbn [orb].
  { split; [done|]. right. intros w0 l0 rest0 d0 E2 Hw0 Hs0.
    rewrite (Hprobe _ _ _ _ E2 Hw0 Hs0) in Ep. pose proof (jstring_prefix _ _ _ _ _ _ Hs0 Hs Ep). lia. }
  destruct granted; cbn [negb]; [|by split; [|left]].
  erewrite js_bind_eq by exact (string_complete (Some (zlen l)) j _ _ _ _ Ej2 (ws_app _ _ Hw Hw1) Hs).
  replace (zlen d <? zlen l) with true by lia.
  split; [done|]. exists (w ++ w1), l. split; [done|]. split; [done|]. split; [by apply ws_app|].
  split; [done|lia].
Qed.

(** [yvex_json_string_dup] delivers the bytes the string denotes when its text fits the cap and
    memory is granted, the second pass never failing; otherwise it delivers nothing and the reader
    has not moved. *)
Theorem json_string_dup_exact granted cap j :
  0 <= cap ->
  match yvex_json_string_dup granted cap j with
  | (j', Done (Some d)) => granted = true /\ exists w l, js_rest j = w ++ l ++ js_rest j'
      /\ j' = set_rest (js_rest j') j /\ ws w /\ jstring d l /\ zlen l - 1 <= cap
  | (j', Done None) => j' = j /\ (granted = false \/ forall w l rest d,
      js_rest j = w ++ l ++ rest -> ws w -> jstring d l -> cap < zlen l - 1)
  | _ => False
  end.
Proof. apply string_dup_spec. Qed.

Lemma json_string_dup_exact_witness :
  let j := yvex_json_init [32; 34; 97; 92; 110; 34; 44] in
  exists w l, js_rest j = w ++ l ++ [44] /\ ws w /\ jstring [97; 10] l.
Proof.
  pose proof (json_string_dup_exact true 8 (yvex_json_init [32; 34; 97; 92; 110; 34; 44]) ltac:(lia)) as H.
  vm_compute in H. destruct H as (_ & w & l & E & _ & Hw & Hs & _). exists w, l. done.
Defined.

(** ** Integers *)

(** The value of a run of digits after [value]. *)
Definition digits_value (value : Z) (l : list Z) : Z := fold_left (fun v b => 10 * v + (b - 48)) l value.

Lemma digits_value_mono v l :
  0 <= v -> Forall (fun b => isdigit b = true) l -> v <= digits_value v l.
Proof.
  intros Hv H. revert v Hv. induction H as [|b l Hb _ IH]; intros v Hv; cbn; [lia|].
  unfold isdigit in Hb. specialize (IH (10 * v + (b - 48)) ltac:(lia)). unfold digits_value in IH. lia.
Qed.

Lemma u64_loop_spec v l rest :
  0 <= v < 2 ^ 64 -> Forall (fun b => isdigit b = true) l -> ends isdigit rest ->
  if digits_value v l <? 2 ^ 64 then json_u64_loop (l ++ rest) v = (rest, Some (digits_value v l))
  else exists rest', json_u64_loop (l ++ rest) v = (rest', None).
Proof.
  intros Hv H Hr. revert v Hv. induction H as [|b l Hb Hl IH]; intros v Hv; cbn [app json_u64_loop].
  - cbn. replace (v <? 2 ^ 64) with true by lia. destruct rest as [|c rest]; [done|]. cbn in *. by rewrite Hr.
  - rewrite Hb. change (digits_value v (b :: l)) with (digits_value (10 * v + (b - 48)) l).
    unfold isdigit in Hb. destruct ((ULLONG_MAX - (b - 48)) / 10 <? v) eqn:E;
      change ULLONG_MAX with (2 ^ 64 - 1) in E.
    + pose proof (digits_value_mono (10 * v + (b - 48)) l ltac:(lia) Hl) as Hm.
      pose proof (Z.mul_succ_div_gt (2 ^ 64 - 1 - (b - 48)) 10 ltac:(lia)). apply Z.ltb_lt in E.
      replace (digits_value (10 * v + (b - 48)) l <? 2 ^ 64) with false by (symmetry; apply Z.ltb_ge; lia).
      by eexists.
    + pose proof (Z.mul_div_le (2 ^ 64 - 1 - (b - 48)) 10 ltac:(lia)). apply Z.ltb_ge in E.
      unfold u64. rewrite Z.mod_small by lia. replace (v * 10 + (b - 48)) with (10 * v + (b - 48)) by lia.
      apply IH. lia.
Qed.

(** [yvex_json_u64] reads a run of digits exactly: the value when it fits 64 bits, a refusal
    when it does not (never a wrapped value), and a refusal when no digit comes first. *)
Lemma json_u64_exact j w l rest :
  js_rest j = w ++ l ++ rest -> ws w -> Forall (fun b => isdigit b = true) l -> ends isdigit rest ->
  ends isspace (l ++ rest) ->
  if bool_decide (l <> []) && (digits_value 0 l <? 2 ^ 64)
  then yvex_json_u64 j = (set_rest rest j, Done (Some (digits_value 0 l)))
  else exists j', yvex_json_u64 j = (j', Done None).
Proof.
  intros E Hw Hl Hr Hs. unfold yvex_json_u64.
  erewrite js_bind_eq by exact (space_app j w (l ++ rest) E Hw Hs). erewrite js_bind_eq by reflexivity.
  cbn [js_rest set_rest]. pose proof (u64_loop_spec 0 l rest ltac:(lia) Hl Hr) as H.
  destruct l as [|b l]; cbn [app] in *.
  { cbn. destruct rest as [|c rest]; [by eauto|]. cbn in Hr. rewrite Hr. by eauto. }
  rewrite bool_decide_eq_true_2 by done. inversion Hl as [|? ? Hb _]; subst. rewrite Hb. cbn [andb].
  destruct (digits_value 0 (b :: l) <? 2 ^ 64); [by rewrite H|]. destruct H as (rest' & H). rewrite H. by eauto.
Qed.

Lemma pretty_char_value n : (n < 10)%N -> byte_of_ascii (pretty_N_char n) = 48 + Z.of_N n.
Proof.
  intros Hn. destruct n as [|n]; [reflexivity|].
  do 4 (destruct n as [n|n|]; try reflexivity; try (exfalso; lia)).
Qed.

Lemma pretty_digits n s :
  Forall (fun b => isdigit b = true) (string_bytes s) ->
  Forall (fun b => isdigit b = true) (string_bytes (pretty_N_go n s))
  /\ digits_value 0 (string_bytes (pretty_N_go n s)) = digits_value (Z.of_N n) (string_bytes s).
Proof.
  revert s. induction (N.lt_wf_0 n) as [n _ IH]; intros s Hs.
  destruct (decide (0 < n)%N) as [Hn|Hn].
  2: { replace n with 0%N by lia. by rewrite pretty_N_go_0. }
  rewrite pretty_N_go_step by done.
  pose proof (pretty_char_value (n `mod` 10) ltac:(by apply N.mod_lt)) as Hc.
  pose proof (N.mod_lt n 10 ltac:(done)) as Hm.
  destruct (IH (n `div` 10)%N ltac:(by apply N.div_lt) (String (pretty_N_char (n `mod` 10)) s)) as (H1 & H2).
  { change (Forall (fun b => isdigit b = true) (byte_of_ascii (pretty_N_char (n `mod` 10)) :: string_bytes s)).
    constructor; [|done]. rewrite Hc. unfold isdigit.
    generalize dependent (n `mod` 10)%N. intros. lia. }
  split; [done|]. rewrite H2. unfold string_bytes, digits_value. cbn. rewrite Hc. f_equal.
  pose proof (N.div_mod' n 10). lia.
Qed.

Lemma dec_digits n :
  0 <= n -> digits (string_bytes (dec n)) /\ digits_value 0 (string_bytes (dec n)) = n.
Proof.
  intros Hn. unfold dec, pretty, pretty_N. case_decide as E.
  - assert (n = 0) as -> by lia. split; [|done]. split; [done|]. repeat constructor.
  - destruct (pretty_digits (Z.to_N n) EmptyString ltac:(constructor)) as (H1 & H2).
    rewrite H2. split; [|cbn; lia]. split; [|done]. intros H0. rewrite H0 in H2. cbn in H2. lia.
Qed.

(** Reading back the decimal text of any natural number, whatever follows its digits, yields
    that number when it fits 64 bits and is refused otherwise: [%llu] and [yvex_json_u64] are a round
    trip, and no overflow is ever silently wrapped. *)
Theorem json_u64_round_trip n rest :
  0 <= n -> ends isdigit rest ->
  if n <? 2 ^ 64
  then yvex_json_u64 (yvex_json_init (string_bytes (dec n) ++ rest)) = (yvex_json_init rest, Done (Some n))
  else exists j', yvex_json_u64 (yvex_json_init (string_bytes (dec n) ++ rest)) = (j', Done None).
Proof.
  intros Hn Hr. destruct (dec_digits n Hn) as (Hd & Hv).
  pose proof (digits_head _ Hd) as (b & l & E & Hb). destruct Hd as [Hne Hd].
  assert (ends isspace (string_bytes (dec n) ++ rest)) as Hs.
  { rewrite E. cbn. unfold isdigit in Hb. unfold isspace. lia. }
  pose proof (json_u64_exact (yvex_json_init (string_bytes (dec n) ++ rest)) [] _ rest eq_refl
    (Forall_nil_2 _) Hd Hr Hs) as H.
  rewrite bool_decide_eq_true_2, Hv in H by done. exact H.
Qed.

Lemma json_u64_round_trip_witness :
  yvex_json_u64 (yvex_json_init (string_bytes (dec (2 ^ 64 - 1)) ++ [44]))
  = (yvex_json_init [44], Done (Some (2 ^ 64 - 1))).
Proof. exact (json_u64_round_trip (2 ^ 64 - 1) [44] ltac:(lia) eq_refl). Defined.
