(* ===== verification/NameIndex.v ===== *)
(** * NameIndex: open-addressed indexes of names

    Both container readers index the names they read in a power-of-two table of
    slots: a slot holds zero or the position of a name plus one, a name starts at
    the slot its hash selects, and the next slot is tried on a collision.  This
    file states when such a table indexes a list of names, whatever the hash, and
    that claiming the first free slot keeps it so. *)

From Stdlib Require Import ZArith Lia Bool.
From stdpp Require Import base list option numbers sets strings.
From S2P Require Import Prelude Core.

(** [hash(name) & (cap - 1)] and [(slot + 1) & (cap - 1)]. *)
Definition slot_home (hash : list Z -> Z) (name : list Z) (cap : Z) : Z :=
  Z.land (hash name) (u64 (cap - 1)).
Definition slot_next (slot cap : Z) : Z := Z.land (u64 (slot + 1)) (u64 (cap - 1)).

(** The capacities of the index. *)
Definition index_size (cap : Z) : Prop := exists k, 0 <= k <= 63 /\ cap = 2 ^ k.

Lemma index_size_pos cap : index_size cap -> 0 < cap <= 2 ^ 63.
Proof.
  intros (k & Hk & ->). split; [apply Z.pow_pos_nonneg; lia|]. apply Z.pow_le_mono_r; lia.
Qed.

Lemma land_index x cap : index_size cap -> Z.land x (u64 (cap - 1)) = x mod cap.
Proof.
  intros H. pose proof (index_size_pos cap H). destruct H as (k & Hk & ->).
  rewrite u64_id by (unfold is_u64; lia). rewrite <- Z.land_ones by lia. by rewrite Z.ones_equiv.
Qed.

Lemma slot_home_range hash name cap : index_size cap -> 0 <= slot_home hash name cap < cap.
Proof.
  intros H. unfold slot_home. rewrite land_index by done. apply Z.mod_pos_bound.
  apply index_size_pos in H. lia.
Qed.

Lemma slot_next_mod h d cap :
  index_size cap -> slot_next ((h + d) mod cap) cap = (h + (d + 1)) mod cap.
Proof.
  intros H. pose proof (index_size_pos cap H). unfold slot_next. rewrite land_index by done.
  pose proof (Z.mod_pos_bound (h + d) cap ltac:(lia)).
  rewrite u64_id by (unfold is_u64; lia). rewrite Z.add_mod_idemp_l by lia. f_equal. lia.
Qed.

(** The slot at distance [d] from [h] holds [v], and no slot before it is free. *)
Definition reach (slots : list Z) (h v d : Z) : Prop :=
  zget slots ((h + d) mod zlen slots) = Some v
  /\ forall d', 0 <= d' < d -> exists u, zget slots ((h + d') mod zlen slots) = Some u /\ u <> 0.

(** The number of slots in use. *)
Definition used (slots : list Z) : Z := zlen (filter (fun v => v <> 0) slots).

Lemma used_free slots : used slots < zlen slots -> exists i, zget slots i = Some 0.
Proof.
  intros H. assert (0 ∈ slots) as (i & Hi)%elem_of_zget; [|eauto].
  induction slots as [|v slots IH]; [unfold used in H; cbn in H; lia|].
  destruct (decide (v = 0)) as [->|Hv]; [by left|]. right. apply IH.
  unfold used in *. rewrite filter_cons_True, !zlen_cons in H by done. lia.
Qed.

Lemma used_claim slots i v :
  zget slots i = Some 0 -> v <> 0 -> used (zset slots i v) = used slots + 1.
Proof.
  intros (a & b & -> & ->)%zget_split Hv. rewrite zset_middle. unfold used.
  rewrite !filter_app, filter_cons_True, filter_cons_False by auto. rewrite !zlen_app, zlen_cons. lia.
Qed.

Lemma used_replicate n : used (replicate n 0) = 0.
Proof.
  unfold used. induction n as [|n IH]; [done|]. cbn [replicate]. rewrite filter_cons_False by auto. done.
Qed.

(** ** The index *)

Section Index.
  Context (hash : list Z -> Z).

(** [slots] indexes [names]: each name is found from its home slot before any
    free slot, and the slots in use are exactly as many as the names. *)
Record name_index (names : list (list Z)) (slots : list Z) : Prop := {
  io_size : index_size (zlen slots);
  io_range : forall s v, zget slots s = Some v -> 0 <= v <= zlen names;
  io_reach : forall i name, zget names i = Some name ->
    exists d, 0 <= d < zlen slots /\ reach slots (slot_home hash name (zlen slots)) (i + 1) d;
  io_used : used slots = zlen names
}.

Lemma index_empty cap : index_size cap -> name_index [] (replicate (Z.to_nat cap) 0).
Proof.
  intros H. pose proof (index_size_pos cap H).
  assert (zlen (replicate (Z.to_nat cap) 0) = cap) as E by (rewrite zlen_replicate; lia).
  split; [by rewrite E| | |apply used_replicate].
  - intros s v Hv%zget_elem_of%elem_of_replicate_inv. subst. unfold zlen. cbn. lia.
  - intros i name Hi. by rewrite zget_nil in Hi.
Qed.

(** Claiming a free slot keeps what was found before. *)
Lemma reach_claim slots h v d s x :
  zget slots s = Some 0 -> v <> 0 -> x <> 0 -> reach slots h v d -> reach (zset slots s x) h v d.
Proof.
  intros Hs Hv Hx (Hd & Hb). unfold reach. rewrite zlen_zset.
  pose proof (zget_Some_range _ _ _ Hs).
  split.
  - rewrite zget_zset_ne; [done|]. intros ->. congruence.
  - intros d' Hd'. destruct (Hb d' Hd') as (u & Hu & Hn).
    exists u. split; [|done]. rewrite zget_zset_ne; [done|]. intros ->. congruence.
Qed.

(** A table with room has a first free slot from every home. *)
Lemma free_slot names slots h :
  name_index names slots -> zlen names < zlen slots ->
  exists e, 0 <= e < zlen slots /\ reach slots h 0 e.
Proof.
  intros H Hlt. destruct (used_free slots) as (z & Hz); [by rewrite (io_used _ _ H)|].
  pose proof (zget_Some_range _ _ _ Hz) as Hzr. pose proof (Z.mod_pos_bound (z - h) (zlen slots) ltac:(lia)) as Hd.
  assert (zget slots ((h + (z - h) mod zlen slots) mod zlen slots) = Some 0) as E.
  { rewrite Z.add_mod_idemp_r by lia. replace (h + (z - h)) with z by lia. by rewrite Z.mod_small. }
  revert E Hd. generalize ((z - h) mod zlen slots). intros d E Hd.
  assert (0 <= d) as Hd0 by lia. revert E Hd. pattern d.
  apply Z_lt_induction; [|done]. clear d Hd0. intros d IH E Hd.
  destruct (decide (Exists (fun d' => zget slots ((h + d') mod zlen slots) = Some 0) (zseq d))) as [Hx|Hx].
  - apply Exists_exists in Hx as (d' & Hin & E'). apply elem_of_zseq in Hin. apply (IH d'); [lia|done|lia].
  - exists d. split; [lia|]. split; [done|]. intros d' Hd'.
    destruct (zget_in slots ((h + d') mod zlen slots) ltac:(apply Z.mod_pos_bound; lia)) as (u & Hu).
    exists u. split; [done|]. intros ->. apply Hx, Exists_exists. exists d'. by rewrite elem_of_zseq.
Qed.

(** Claiming the first free slot for a new name. *)
Lemma claim_index names slots name e :
  name_index names slots -> 0 <= e < zlen slots ->
  reach slots (slot_home hash name (zlen slots)) 0 e ->
  name_index (names ++ [name])
    (zset slots ((slot_home hash name (zlen slots) + e) mod zlen slots) (zlen names + 1)).
Proof.
  intros H He Hr. set (h := slot_home hash name (zlen slots)) in *. pose proof (zlen_nonneg names) as Hn.
  pose proof Hr as (Hfree & _). pose proof (zget_Some_range _ _ _ Hfree) as Hsr.
  set (s := (h + e) mod zlen slots) in *. set (slots' := zset slots s (zlen names + 1)).
  assert (zlen slots' = zlen slots) as El by apply zlen_zset. split; rewrite ?El.
  - apply (io_size _ _ H).
  - intros i v Hi. rewrite zlen_snoc. unfold slots' in Hi.
    destruct (decide (i = s)) as [->|Hne].
    + rewrite zget_zset_eq in Hi by done. simplify_eq. lia.
    + rewrite zget_zset_ne in Hi by done. pose proof (io_range _ _ H _ _ Hi). lia.
  - intros i n Hi. apply zget_snoc_inv in Hi as [Hi|[-> ->]].
    + destruct (io_reach _ _ H _ _ Hi) as (d & Hd' & Hrd). exists d. split; [done|].
      pose proof (zget_Some_range _ _ _ Hi). apply reach_claim; [done|lia|lia|done].
    + exists e. fold h. split; [lia|]. split; [rewrite El; fold s; by apply zget_zset_eq|].
      intros d' Hd'. destruct (proj2 Hr d' Hd') as (u & Hu & Hun). exists u. split; [|done].
      rewrite El. unfold slots'. rewrite zget_zset_ne; [done|]. intros Heq. rewrite <- Heq in Hu. congruence.
  - rewrite zlen_snoc. unfold slots'. rewrite used_claim by (done || lia).
    rewrite (io_used _ _ H). lia.
Qed.

(** The positions of an index fit its table. *)
Lemma index_fits names slots : name_index names slots -> zlen names <= zlen slots.
Proof. intros H. rewrite <- (io_used _ _ H). unfold used, zlen. apply Nat2Z.inj_le, length_filter. Qed.

End Index.

Arguments io_size {hash} names slots _.
Arguments io_range {hash} names slots _ s v _.
Arguments io_reach {hash} names slots _ i name _.
Arguments io_used {hash} names slots _.
Arguments free_slot {hash} names slots h _ _.
Arguments claim_index {hash} names slots name e _ _ _.
Arguments index_fits {hash} names slots _.
