(* ===== verification/NativeWeights.v ===== *)
(** * The native tensor table ([src/source/native_weights.c])

    A growable array of tensor rows with an open-addressing index over their
    names: linear probing in a power-of-two array of slots, a slot holding the
    index of its row plus one.  Rows are appended until the table is finalized,
    which sorts them and rebuilds the index.

    Texts are lists of bytes without their terminator.  A slot and a row are
    read through checked accesses, the probing loops that the source leaves
    unbounded carry the number of slots as fuel, and a write past the allocated
    rows is a fault.  [alloc k] says whether the [k]-th allocation of a call is
    granted.  Directory scanning is file input and is not modelled.

    The theorems: the table refines a finite map from names to rows (lookup is
    exact before and after finalization, under every allocator, as long as no
    finalization was refused for want of memory), no call faults, names stay unique, refused calls
    leave the rows unchanged, and the summary is exact. *)

From Stdlib Require Import ZArith Lia Bool Sorting.Sorted.
From stdpp Require Import base list option numbers strings gmap.
From S2P Require Import Prelude Core NameIndex Sha256 Text.

(** ** Data *)

Definition YVEX_NATIVE_WEIGHT_MAX_DIMS : Z := 8.
Definition SIZEOF_WEIGHT_INFO : Z := 128.

Inductive yvex_native_dtype : Type :=
  | YVEX_NATIVE_DTYPE_UNKNOWN | YVEX_NATIVE_DTYPE_F64 | YVEX_NATIVE_DTYPE_F32
  | YVEX_NATIVE_DTYPE_F16 | YVEX_NATIVE_DTYPE_BF16 | YVEX_NATIVE_DTYPE_I64
  | YVEX_NATIVE_DTYPE_I32 | YVEX_NATIVE_DTYPE_I16 | YVEX_NATIVE_DTYPE_I8
  | YVEX_NATIVE_DTYPE_U8 | YVEX_NATIVE_DTYPE_BOOL | YVEX_NATIVE_DTYPE_F8_E4M3
  | YVEX_NATIVE_DTYPE_F8_E5M2 | YVEX_NATIVE_DTYPE_F8_E8M0 | YVEX_NATIVE_DTYPE_FP4
  | YVEX_NATIVE_DTYPE_OTHER.

#[export] Instance native_dtype_eq : EqDecision yvex_native_dtype.
Proof. solve_decision. Defined.

(** [dims] are the first [rank] extents; the others are zero. *)
Record yvex_native_weight_info : Type := mk_weight {
  w_name : list Z;
  w_shard_path : list Z;
  w_dtype : yvex_native_dtype;
  w_dtype_name : list Z;
  w_dims : list Z;
  w_data_start : Z;
  w_data_end : Z;
  w_data_bytes : Z
}.

Definition w_rank (w : yvex_native_weight_info) : Z := zlen (w_dims w).

Record yvex_native_weight_summary : Type := mk_weight_summary {
  s_shard_count : Z;
  s_tensor_count : Z;
  s_total_tensor_bytes : Z;
  s_unknown_dtype_count : Z;
  s_malformed_shard_count : Z
}.

(** [items] are the [count] rows; [nt_name_slots] is empty for a null pointer. *)
Record yvex_native_weight_table : Type := mk_table {
  nt_items : list yvex_native_weight_info;
  nt_cap : Z;
  nt_summary : yvex_native_weight_summary;
  nt_header_read_count : Z;
  nt_header_error_count : Z;
  nt_header_bytes : Z;
  nt_name_slots : list Z;
  nt_lookup_count : Z;
  nt_collision_count : Z;
  nt_maximum_probe : Z;
  nt_finalized : bool
}.

Definition nt_count (t : yvex_native_weight_table) : Z := zlen (nt_items t).
Definition nt_name_slot_count (t : yvex_native_weight_table) : Z := zlen (nt_name_slots t).

Definition summary_zero : yvex_native_weight_summary := mk_weight_summary 0 0 0 0 0.

(** [calloc(1, sizeof( *table))] *)
Definition table_zero : yvex_native_weight_table :=
  mk_table [] 0 summary_zero 0 0 0 [] 0 0 0 false.

Definition set_items (l : list yvex_native_weight_info) (t : yvex_native_weight_table) :=
  mk_table l (nt_cap t) (nt_summary t) (nt_header_read_count t) (nt_header_error_count t)
    (nt_header_bytes t) (nt_name_slots t) (nt_lookup_count t) (nt_collision_count t)
    (nt_maximum_probe t) (nt_finalized t).
Definition set_cap (c : Z) (t : yvex_native_weight_table) :=
  mk_table (nt_items t) c (nt_summary t) (nt_header_read_count t) (nt_header_error_count t)
    (nt_header_bytes t) (nt_name_slots t) (nt_lookup_count t) (nt_collision_count t)
    (nt_maximum_probe t) (nt_finalized t).
Definition set_summary (s : yvex_native_weight_summary) (t : yvex_native_weight_table) :=
  mk_table (nt_items t) (nt_cap t) s (nt_header_read_count t) (nt_header_error_count t)
    (nt_header_bytes t) (nt_name_slots t) (nt_lookup_count t) (nt_collision_count t)
    (nt_maximum_probe t) (nt_finalized t).
Definition set_index (slots : list Z) (maximum_probe : Z) (t : yvex_native_weight_table) :=
  mk_table (nt_items t) (nt_cap t) (nt_summary t) (nt_header_read_count t) (nt_header_error_count t)
    (nt_header_bytes t) slots (nt_lookup_count t) (nt_collision_count t)
    maximum_probe (nt_finalized t).
Definition set_lookups (lookups collisions : Z) (t : yvex_native_weight_table) :=
  mk_table (nt_items t) (nt_cap t) (nt_summary t) (nt_header_read_count t) (nt_header_error_count t)
    (nt_header_bytes t) (nt_name_slots t) lookups collisions (nt_maximum_probe t) (nt_finalized t).
Definition set_headers (reads errors bytes : Z) (t : yvex_native_weight_table) :=
  mk_table (nt_items t) (nt_cap t) (nt_summary t) reads errors
    bytes (nt_name_slots t) (nt_lookup_count t) (nt_collision_count t)
    (nt_maximum_probe t) (nt_finalized t).
Definition set_finalized (t : yvex_native_weight_table) :=
  mk_table (nt_items t) (nt_cap t) (nt_summary t) (nt_header_read_count t) (nt_header_error_count t)
    (nt_header_bytes t) (nt_name_slots t) (nt_lookup_count t) (nt_collision_count t)
    (nt_maximum_probe t) true.

Definition NT (A : Type) : Type := SO yvex_native_weight_table A.

(** ** Names of scalar types *)

Definition native_dtype_rows : list (yvex_native_dtype * list string) :=
  [(YVEX_NATIVE_DTYPE_UNKNOWN, ["UNKNOWN"]);
   (YVEX_NATIVE_DTYPE_F64, ["F64"]);
   (YVEX_NATIVE_DTYPE_F32, ["F32"]);
   (YVEX_NATIVE_DTYPE_F16, ["F16"]);
   (YVEX_NATIVE_DTYPE_BF16, ["BF16"]);
   (YVEX_NATIVE_DTYPE_I64, ["I64"]);
   (YVEX_NATIVE_DTYPE_I32, ["I32"]);
   (YVEX_NATIVE_DTYPE_I16, ["I16"]);
   (YVEX_NATIVE_DTYPE_I8, ["I8"]);
   (YVEX_NATIVE_DTYPE_U8, ["U8"]);
   (YVEX_NATIVE_DTYPE_BOOL, ["BOOL"]);
   (YVEX_NATIVE_DTYPE_F8_E4M3, ["F8_E4M3"; "F8_E4M3FN"]);
   (YVEX_NATIVE_DTYPE_F8_E5M2, ["F8_E5M2"]);
   (YVEX_NATIVE_DTYPE_F8_E8M0, ["F8_E8M0"; "F8_E8M0FNU"; "F8_E8M0FNUZ"]);
   (YVEX_NATIVE_DTYPE_FP4, ["FP4"; "F4"]);
   (YVEX_NATIVE_DTYPE_OTHER, ["OTHER"])]%string.

Definition yvex_native_dtype_name (dtype : yvex_native_dtype) : string :=
  match list_find (fun row => row.1 = dtype) native_dtype_rows with
  | Some (_, (_, name :: _)) => name
  | _ => "UNKNOWN"%string
  end.

Definition nw_dtype_from_name (name : list Z) : yvex_native_dtype :=
  match list_find (fun row => existsb (fun alias => bool_decide (string_bytes alias = name)) row.2 = true)
          native_dtype_rows with
  | Some (_, (dtype, _)) => dtype
  | None => YVEX_NATIVE_DTYPE_OTHER
  end.

(** ** The index *)

Definition nw_name_hash (name : list Z) : Z :=
  foldl (fun hash byte => u64 (Z.lxor hash byte * 1099511628211)) 1469598103934665603 name.

(** [nw_name_hash(name) & (cap - 1)] *)
Definition nw_home (name : list Z) (cap : Z) : Z := slot_home nw_name_hash name cap.
(** [(slot + 1) & (cap - 1)] *)
Definition nw_next (slot cap : Z) : Z := slot_next slot cap.

(** [while (slots[slot] != 0) { slot = next; probe++; }] *)
Fixpoint nw_probe (fuel : nat) (slots : list Z) (slot probe : Z) : outcome (Z * Z) :=
  match fuel with
  | O => Fault OutOfFuel
  | S fuel =>
      v ← read_at slots slot;
      if v =? 0 then Done (slot, probe)
      else nw_probe fuel slots (nw_next slot (zlen slots)) (u64 (probe + 1))
  end.

(** The slot of a name is claimed for [value]. *)
Definition nw_claim (slots : list Z) (maximum_probe : Z) (name : list Z) (value : Z)
    : outcome (list Z * Z) :=
  '(slot, probe) ← nw_probe (S (length slots)) slots (nw_home name (zlen slots)) 0;
  Done (zset slots slot value, if maximum_probe <? probe then probe else maximum_probe).

(** [while (cap < requested * 2) { if (cap > SIZE_MAX / 2) refuse; cap *= 2; }] *)
Fixpoint nw_capacity (fuel : nat) (cap requested : Z) : outcome Z :=
  match fuel with
  | O => Fault OutOfFuel
  | S fuel =>
      if cap <? u64 (requested * 2) then
        if SIZE_MAX / 2 <? cap
        then Refuse YVEX_ERR_BOUNDS "native tensor name index capacity overflow"
        else nw_capacity fuel (u64 (cap * 2)) requested
      else Done cap
  end.

Definition nw_index_rebuild (granted : bool) (requested : Z) : NT unit :=
  if SIZE_MAX / 2 <? requested
  then so_refuse YVEX_ERR_BOUNDS "native tensor name index capacity overflow" else
  cap ← so_lift (nw_capacity 65 128 requested);
  if negb granted then so_refuse YVEX_ERR_NOMEM "native tensor name index allocation failed" else
  t ← so_get;
  '(slots, maximum_probe) ← so_lift (foldO (fun '(slots, maximum_probe) i =>
      row ← read_at (nt_items t) i;
      nw_claim slots maximum_probe (w_name row) (u64 (i + 1)))
    (zseq (nt_count t)) (replicate (Z.to_nat cap) 0, nt_maximum_probe t));
  so_modify (set_index slots maximum_probe).

(** The lookup loop with [visits] iterations left: the row found and the number
    of collisions met. *)
Fixpoint nw_find_loop (visits : nat) (t : yvex_native_weight_table) (name : list Z) (slot collisions : Z)
    : outcome (option Z * Z) :=
  match visits with
  | O => Done (None, collisions)
  | S visits =>
      v ← read_at (nt_name_slots t) slot;
      if v =? 0 then Done (None, collisions) else
      let index := u64 (v - 1) in
      row ← read_at (nt_items t) index;
      if bool_decide (w_name row = name) then Done (Some index, collisions)
      else nw_find_loop visits t name (nw_next slot (nt_name_slot_count t)) (u64 (collisions + 1))
  end.

Definition nw_index_find (name : list Z) : NT (option Z) :=
  t ← so_get;
  if nt_name_slot_count t =? 0 then mret None else
  '(found, collisions) ← so_lift (nw_find_loop (length (nt_name_slots t)) t name
                                    (nw_home name (nt_name_slot_count t)) (nt_collision_count t));
  _ ← so_modify (set_lookups (u64 (nt_lookup_count t + 1)) collisions);
  mret found.

(** [strcmp]: unsigned bytes. *)
Fixpoint bytes_compare (a b : list Z) : comparison :=
  match a, b with
  | [], [] => Eq
  | [], _ :: _ => Lt
  | _ :: _, [] => Gt
  | x :: a, y :: b => match x ?= y with Eq => bytes_compare a b | c => c end
  end.

Definition nw_row_compare (a b : yvex_native_weight_info) : comparison :=
  match bytes_compare (w_name a) (w_name b) with
  | Eq => bytes_compare (w_shard_path a) (w_shard_path b)
  | c => c
  end.

(** ** Operations *)

(** [err]: whether the caller passes an error record, whose code is returned. *)
Definition yvex_native_weight_table_finalize (granted err : bool) : NT unit :=
  t ← so_get;
  if nt_finalized t then mret tt else
  if SIZE_MAX <? nt_count t
  then so_refuse YVEX_ERR_BOUNDS "native tensor count exceeds addressable memory" else
  _ ← (if 1 <? nt_count t then so_modify (set_items (sort_by nw_row_compare (nt_items t))) else mret tt);
  _ ← so_modify (fun t => set_index (nt_name_slots t) 0 t);
  t ← so_get;
  match nw_index_rebuild granted (u64 (nt_count t + 1)) t with
  | (t, Done _) => _ ← so_put t; so_modify set_finalized
  | (t, Refuse status reason) => _ ← so_put t; if err then so_refuse status reason else mret tt
  | (t, Fault f) => _ ← so_put t; so_lift (Fault f)
  end.

(** What the row contributes to the summary. *)
Definition summary_add (row : yvex_native_weight_info) (s : yvex_native_weight_summary)
    : yvex_native_weight_summary :=
  mk_weight_summary (s_shard_count s) (u64 (s_tensor_count s + 1))
    (u64 (s_total_tensor_bytes s + w_data_bytes row))
    (if bool_decide (w_dtype row = YVEX_NATIVE_DTYPE_UNKNOWN) || bool_decide (w_dtype row = YVEX_NATIVE_DTYPE_OTHER)
     then u64 (s_unknown_dtype_count s + 1) else s_unknown_dtype_count s)
    (s_malformed_shard_count s).

(** The index is rebuilt when there is none or it is half full. *)
Definition crowded (t : yvex_native_weight_table) : bool :=
  (nt_name_slot_count t =? 0) || (nt_name_slot_count t / 2 <=? nt_count t + 1).

Definition nw_reindex (granted : bool) : NT unit :=
  t ← so_get;
  if crowded t then nw_index_rebuild granted (nt_count t + 1) else mret tt.

(** The growth of the row array. *)
Definition nw_grow (granted : bool) : NT unit :=
  t ← so_get;
  if negb (nt_count t =? nt_cap t) then mret tt else
  if (SIZE_MAX / (2 * SIZEOF_WEIGHT_INFO) <? nt_cap t) || (ULLONG_MAX / 2 <? nt_cap t)
  then so_refuse YVEX_ERR_BOUNDS "native tensor table capacity overflow" else
  if negb granted then so_refuse YVEX_ERR_NOMEM "native tensor table allocation failed" else
  so_modify (set_cap (if nt_cap t =? 0 then 64 else u64 (nt_cap t * 2))).

(** The row is allocated, filled and indexed. *)
Definition nw_append (alloc : nat -> bool) (name shard_path dtype_name : list Z)
    (rank : Z) (dims : list Z) (data_start data_end : Z) : NT unit :=
  _ ← nw_grow (alloc 1%nat);
  t ← so_get;
  if nt_cap t <=? nt_count t then so_lift (Fault OutOfBounds) else
  if negb (alloc 2%nat && alloc 3%nat && alloc 4%nat)
  then so_refuse YVEX_ERR_NOMEM "native tensor row allocation failed" else
  dims ← so_lift (mapO (read_at dims) (zseq rank));
  let row := mk_weight name shard_path (nw_dtype_from_name dtype_name) dtype_name dims
               data_start data_end (u64 (data_end - data_start)) in
  if (nt_count t =? ULLONG_MAX) || (s_tensor_count (nt_summary t) =? ULLONG_MAX)
     || (ULLONG_MAX - s_total_tensor_bytes (nt_summary t) <? w_data_bytes row)
  then so_refuse YVEX_ERR_BOUNDS "native tensor inventory overflow" else
  '(slots, maximum_probe) ←
    so_lift (nw_claim (nt_name_slots t) (nt_maximum_probe t) name (u64 (nt_count t + 1)));
  so_modify (fun t => set_index slots maximum_probe
    (set_summary (summary_add row (nt_summary t)) (set_items (nt_items t ++ [row]) t))).

(** The allocations: the index, the rows, and the three copied texts. *)
Definition yvex_native_weight_table_add (alloc : nat -> bool) (name shard_path dtype_name : list Z)
    (rank : Z) (dims : list Z) (data_start data_end : Z) : NT unit :=
  if (YVEX_NATIVE_WEIGHT_MAX_DIMS <? rank) || (data_end <? data_start)
  then so_refuse YVEX_ERR_INVALID_ARG "invalid native tensor row" else
  t ← so_get;
  if nt_finalized t
  then so_refuse YVEX_ERR_STATE "cannot mutate a finalized native tensor table" else
  if (SIZE_MAX <=? nt_count t) || (nt_count t =? ULLONG_MAX)
  then so_refuse YVEX_ERR_BOUNDS "native tensor count exceeds addressable memory" else
  _ ← nw_reindex (alloc 0%nat);
  found ← nw_index_find name;
  if bool_decide (is_Some found)
  then so_refuse YVEX_ERR_FORMAT ("duplicate tensor name: " +:+ bytes_string name)
  else nw_append alloc name shard_path dtype_name rank dims data_start data_end.

Definition yvex_native_weight_table_count (t : yvex_native_weight_table) : Z := nt_count t.

Definition yvex_native_weight_table_at (t : yvex_native_weight_table) (index : Z)
    : option yvex_native_weight_info :=
  if nt_count t <=? index then None else zget (nt_items t) index.

Definition yvex_native_weight_table_find (name : list Z) : NT (option yvex_native_weight_info) :=
  found ← nw_index_find name;
  match found with
  | None => mret None
  | Some index => t ← so_get; row ← so_lift (read_at (nt_items t) index); mret (Some row)
  end.

Definition yvex_native_weight_table_summary (t : yvex_native_weight_table) : yvex_native_weight_summary :=
  nt_summary t.

Example native_example :
  let add name stop := yvex_native_weight_table_add (fun _ => true) (string_bytes name) [] (string_bytes "F32")
                   1 [2] 0 stop in
  let '(t, r) := (_ ← add "b"%string 8; _ ← add "a"%string 4; yvex_native_weight_table_finalize true true)
                   table_zero in
  r = Done tt /\ w_name <$> nt_items t = [[97]; [98]] /\ s_total_tensor_bytes (nt_summary t) = 12
  /\ (match snd (yvex_native_weight_table_find [98] t) with Done o => w_data_end <$> o | _ => None end) = Some 8.
Proof. vm_compute. repeat split. Qed.

(** * Theorems *)

Lemma nt_bind_run {A B} (c : NT A) (k : A -> NT B) t :
  (c ≫= k) t = match c t with
               | (t', Done a) => k a t'
               | (t', Refuse st r) => (t', Refuse st r)
               | (t', Fault f) => (t', Fault f)
               end.
Proof. reflexivity. Qed.

(** ** Slots *)

Lemma home_range name cap : index_size cap -> 0 <= nw_home name cap < cap.
Proof. apply slot_home_range. Qed.

Lemma next_mod h d cap :
  index_size cap -> nw_next ((h + d) mod cap) cap = (h + (d + 1)) mod cap.
Proof. apply slot_next_mod. Qed.

(** Probing stops at the first free slot. *)
Lemma probe_spec slots h fuel d stop :
  index_size (zlen slots) -> 0 <= d <= stop -> stop < zlen slots ->
  zget slots ((h + stop) mod zlen slots) = Some 0 ->
  (forall d', 0 <= d' < d -> exists u, zget slots ((h + d') mod zlen slots) = Some u /\ u <> 0) ->
  (Z.to_nat (stop - d) < fuel)%nat ->
  exists e, nw_probe fuel slots ((h + d) mod zlen slots) d = Done ((h + e) mod zlen slots, e)
    /\ d <= e < zlen slots /\ reach slots h 0 e.
Proof.
  intros Hs Hd Hstop Hz. pose proof (index_size_pos _ Hs).
  revert d Hd. induction fuel as [|fuel IH]; intros d Hd Hb Hf; [lia|]. cbn [nw_probe].
  destruct (zget_in slots ((h + d) mod zlen slots) ltac:(apply Z.mod_pos_bound; lia)) as (v & Hv).
  unfold read_at. rewrite Hv. cbn. destruct (v =? 0) eqn:E.
  - assert (v = 0) as -> by lia. exists d. split; [done|]. split; [lia|done].
  - assert (d <> stop) by (intros ->; rewrite Hz in Hv; simplify_eq; lia).
    rewrite next_mod, u64_id by (done || unfold is_u64; lia).
    destruct (IH (d + 1)) as (e & -> & He & Hr); [lia| |lia|exists e; split; [done|split; [lia|done]]].
    intros d' Hd'. destruct (decide (d' = d)) as [->|]; [|apply Hb; lia]. exists v. split; [done|lia].
Qed.

(** ** The index *)

Notation index_ok := (name_index nw_name_hash).

Lemma claim_ok names slots maximum name :
  index_ok names slots -> zlen names < zlen slots ->
  exists slots' maximum', nw_claim slots maximum name (zlen names + 1) = Done (slots', maximum')
    /\ index_ok (names ++ [name]) slots' /\ zlen slots' = zlen slots.
Proof.
  intros H Hlt. pose proof (io_size _ _ H) as Hs. set (h := nw_home name (zlen slots)).
  pose proof (home_range name _ Hs) as Hh. fold h in Hh.
  destruct (free_slot _ _ h H Hlt) as (stop & Hstop & Hfree & _).
  destruct (probe_spec slots h (S (length slots)) 0 stop) as (e & E & He & Hr);
    [done|lia|lia|done|lia|unfold zlen in *; lia|].
  unfold nw_claim. fold h. replace ((h + 0) mod zlen slots) with h in E by (rewrite Z.add_0_r, Z.mod_small; lia).
  rewrite E. cbn. eexists _, _. split; [reflexivity|]. split; [|apply zlen_zset].
  by apply claim_index.
Qed.

Lemma capacity_ok fuel cap requested :
  index_size cap -> 0 <= requested <= SIZE_MAX / 2 -> 2 ^ 64 <= cap * 2 ^ (Z.of_nat fuel) ->
  match nw_capacity fuel cap requested with
  | Done c => index_size c /\ requested * 2 <= c
  | Refuse st _ => st = YVEX_ERR_BOUNDS /\ 2 ^ 62 < requested
  | Fault _ => False
  end.
Proof.
  intros Hc Hr. change (SIZE_MAX / 2) with (2 ^ 63 - 1) in Hr.
  revert cap Hc. induction fuel as [|fuel IH]; intros cap Hc Hf;
    pose proof (index_size_pos _ Hc) as Hp; cbn [nw_capacity].
  { cbn in Hf. lia. }
  rewrite u64_id by (unfold is_u64; lia). destruct (cap <? requested * 2) eqn:E1; [|split; [done|lia]].
  change (SIZE_MAX / 2) with (2 ^ 63 - 1). destruct (2 ^ 63 - 1 <? cap) eqn:E2; [split; [done|lia]|].
  rewrite u64_id by (unfold is_u64; lia). apply IH.
  - destruct Hc as (k & Hk & ->). exists (k + 1). rewrite Z.pow_add_r, Z.pow_1_r by lia. split; [|done].
    assert (k <> 63) by (intros ->; lia). lia.
  - rewrite Nat2Z.inj_succ, Z.pow_succ_r in Hf by lia. lia.
Qed.

Definition names_of (items : list yvex_native_weight_info) : list (list Z) := w_name <$> items.

Lemma zlen_names items : zlen (names_of items) = zlen items.
Proof. unfold zlen, names_of. by rewrite length_fmap. Qed.

Lemma zget_names items i : zget (names_of items) i = w_name <$> zget items i.
Proof.
  destruct (decide (0 <= i < zlen items)) as [Hi|Hi].
  - rewrite !zget_lookup by (rewrite ?zlen_names; done). unfold names_of. by rewrite list_lookup_fmap.
  - by rewrite !zget_None by (rewrite ?zlen_names; done).
Qed.

(** The loop of a rebuild over the first [n] rows. *)
Lemma rebuild_loop items cap maximum n :
  index_size cap -> zlen items < cap -> (n <= length items)%nat ->
  exists slots maximum', foldO (fun '(slots, maximum_probe) i =>
      row ← read_at items i; nw_claim slots maximum_probe (w_name row) (u64 (i + 1)))
    (zseq (Z.of_nat n)) (replicate (Z.to_nat cap) 0, maximum) = Done (slots, maximum')
  /\ index_ok (take n (names_of items)) slots /\ zlen slots = cap.
Proof.
  intros Hc Hlt. pose proof (index_size_pos _ Hc). induction n as [|n IH]; intros Hn.
  { eexists _, _. split; [reflexivity|]. split; [by apply index_empty|]. rewrite zlen_replicate. lia. }
  destruct IH as (slots & m & E & Hi & El); [lia|].
  rewrite Nat2Z.inj_succ, <- Z.add_1_r, zseq_snoc, foldO_app, E by lia. cbn -[nw_claim].
  destruct (zget_in items (Z.of_nat n) ltac:(unfold zlen; lia)) as (row & Hrow).
  assert (zget (names_of items) (Z.of_nat n) = Some (w_name row)) as Hname by by rewrite zget_names, Hrow.
  unfold read_at. rewrite Hrow. cbn -[nw_claim].
  assert (zlen (take n (names_of items)) = Z.of_nat n) as Et.
  { unfold zlen, names_of. rewrite length_take, length_fmap. lia. }
  rewrite u64_id by (unfold is_u64, zlen in *; lia).
  destruct (claim_ok _ _ m (w_name row) Hi) as (slots' & m' & C & Hok & El').
  { rewrite Et, El. unfold zlen in Hlt. lia. }
  rewrite Et in C. rewrite C. cbn. exists slots', m'. split; [done|].
  rewrite (take_snoc_zget _ _ _ Hname). split; [done|lia].
Qed.

(** Reasons for which a call may be refused although its arguments are right. *)
Definition exhausted (status : yvex_status) : Prop := status = YVEX_ERR_NOMEM \/ status = YVEX_ERR_BOUNDS.

Lemma rebuild_ok granted t requested :
  nt_count t < requested <= SIZE_MAX ->
  match nw_index_rebuild granted requested t with
  | (t', Done _) => exists slots maximum, t' = set_index slots maximum t
      /\ index_ok (names_of (nt_items t)) slots /\ requested * 2 <= zlen slots
  | (t', Refuse st _) => t' = t /\ exhausted st /\ (granted = true -> 2 ^ 62 < requested)
  | (_, Fault _) => False
  end.
Proof.
  intros Hr. unfold nw_index_rebuild, exhausted. pose proof (zlen_nonneg (nt_items t)) as Hn.
  unfold nt_count in *. destruct (SIZE_MAX / 2 <? requested) eqn:E1.
  { split; [done|]. split; [by right|]. intros _. change (SIZE_MAX / 2) with (2 ^ 63 - 1) in E1. lia. }
  pose proof (capacity_ok 65 128 requested) as C.
  assert (index_size 128) as H128 by (exists 7; split; [lia|done]).
  specialize (C H128 ltac:(lia) ltac:(done)). unfold mbind, so_bind, so_lift.
  destruct (nw_capacity 65 128 requested) as [cap|st r|f]; [|destruct C as (-> & C); by auto|done].
  destruct C as (Hc & Hcap). destruct granted; cbn [negb]; [|split; [done|split; [by left|done]]].
  cbn -[foldO nw_claim read_at].
  destruct (rebuild_loop (nt_items t) cap (nt_maximum_probe t) (length (nt_items t)) Hc ltac:(lia) (le_n _))
    as (slots & m & E & Hi & El).
  change (Z.of_nat (length (nt_items t))) with (zlen (nt_items t)) in E.
  unfold mbind in E. unfold nt_count. rewrite E.
  exists slots, m. split; [done|]. rewrite firstn_all2 in Hi; [by rewrite El|].
  unfold names_of. by rewrite length_fmap.
Qed.

(** ** Lookup *)

Lemma find_loop_sound t name visits slot collisions :
  index_ok (names_of (nt_items t)) (nt_name_slots t) -> 0 <= slot < nt_name_slot_count t ->
  exists r c, nw_find_loop visits t name slot collisions = Done (r, c)
    /\ (forall i, r = Some i -> zget (names_of (nt_items t)) i = Some name).
Proof.
  intros H. pose proof (io_size _ _ H) as Hs. pose proof (index_size_pos _ Hs). unfold nt_name_slot_count.
  revert slot collisions. induction visits as [|visits IH]; intros slot c Hslot; cbn [nw_find_loop].
  { by eexists None, _. }
  destruct (zget_in _ _ Hslot) as (v & Hv). rewrite (proj2 (read_at_Done _ _ _) Hv). cbn.
  destruct (v =? 0) eqn:E0; [by eexists None, _|].
  pose proof (io_range _ _ H _ _ Hv) as Hr. rewrite zlen_names in Hr.
  pose proof (zlen_nonneg (nt_items t)).
  assert (zlen (nt_items t) <= zlen (nt_name_slots t)) as Hfit.
  { rewrite <- zlen_names, <- (io_used _ _ H). unfold used, zlen. apply Nat2Z.inj_le, length_filter. }
  rewrite u64_id by (unfold is_u64; lia).
  destruct (zget_in (nt_items t) (v - 1) ltac:(lia)) as (row & Hrow). rewrite (proj2 (read_at_Done _ _ _) Hrow). cbn.
  case_bool_decide as Hn.
  - eexists _, _. split; [reflexivity|]. intros i [= <-]. by rewrite zget_names, Hrow, <- Hn.
  - apply IH. unfold nt_name_slot_count, nw_next, slot_next. rewrite land_index by done. apply Z.mod_pos_bound. lia.
Qed.

Lemma find_loop_complete t name i d visits e collisions :
  index_ok (names_of (nt_items t)) (nt_name_slots t) ->
  zget (names_of (nt_items t)) i = Some name ->
  reach (nt_name_slots t) (nw_home name (nt_name_slot_count t)) (i + 1) d ->
  0 <= e <= d -> (Z.to_nat (d - e) < visits)%nat ->
  exists j c, nw_find_loop visits t name
    ((nw_home name (nt_name_slot_count t) + e) mod nt_name_slot_count t) collisions = Done (Some j, c).
Proof.
  intros H Hi (Hd & Hb). pose proof (io_size _ _ H) as Hs. pose proof (index_size_pos _ Hs).
  unfold nt_name_slot_count in *. set (h := nw_home name (zlen (nt_name_slots t))) in *.
  pose proof (zget_Some_range _ _ _ Hi) as Hir. rewrite zlen_names in Hir.
  assert (zlen (nt_items t) <= zlen (nt_name_slots t)) as Hfit.
  { rewrite <- zlen_names, <- (io_used _ _ H). unfold used, zlen. apply Nat2Z.inj_le, length_filter. }
  revert e collisions. induction visits as [|visits IH]; intros e c He Hf; [lia|]. cbn [nw_find_loop].
  assert (exists v, zget (nt_name_slots t) ((h + e) mod zlen (nt_name_slots t)) = Some v /\ v <> 0
            /\ (e = d -> v = i + 1)) as (v & Hv & Hv0 & Hvd).
  { destruct (decide (e = d)) as [->|Hne]; [exists (i + 1); split; [done|lia]|].
    destruct (Hb e ltac:(lia)) as (u & Hu & Hu0). by exists u. }
  rewrite (proj2 (read_at_Done _ _ _) Hv). cbn. replace (v =? 0) with false by lia.
  pose proof (io_range _ _ H _ _ Hv) as Hr. rewrite zlen_names in Hr.
  rewrite u64_id by (unfold is_u64; lia).
  destruct (zget_in (nt_items t) (v - 1) ltac:(lia)) as (row & Hrow). rewrite (proj2 (read_at_Done _ _ _) Hrow). cbn.
  case_bool_decide as Hn; [by eauto|].
  destruct (decide (e = d)) as [->|Hne].
  { specialize (Hvd eq_refl). subst v. exfalso. apply Hn.
    rewrite zget_names in Hi. replace (i + 1 - 1) with i in Hrow by lia. rewrite Hrow in Hi. by simplify_eq/=. }
  unfold nt_name_slot_count. rewrite next_mod by done. apply IH; lia.
Qed.

(** What every operation keeps of the table. *)
Definition same_rows (t t' : yvex_native_weight_table) : Prop :=
  nt_items t' = nt_items t /\ nt_summary t' = nt_summary t /\ nt_finalized t' = nt_finalized t.

(** The index answers for the rows: it indexes them, or there is none and no row. *)
Definition indexed (t : yvex_native_weight_table) : Prop :=
  (nt_items t = [] /\ nt_name_slots t = []) \/ index_ok (names_of (nt_items t)) (nt_name_slots t).

Lemma find_exact t name :
  indexed t -> NoDup (names_of (nt_items t)) ->
  exists r lookups collisions, nw_index_find name t = (set_lookups lookups collisions t, Done r)
    /\ forall i, r = Some i <-> zget (names_of (nt_items t)) i = Some name.
Proof.
  intros [[Hi Hs]|H] Hnd; unfold nw_index_find, mbind, so_bind; cbn [so_get].
  { unfold nt_name_slot_count. rewrite Hs. exists None, (nt_lookup_count t), (nt_collision_count t).
    split; [by destruct t|]. intros i. rewrite Hi. cbn. by rewrite zget_nil. }
  pose proof (io_size _ _ H) as Hs. pose proof (index_size_pos _ Hs) as Hp.
  fold (nt_name_slot_count t) in Hs, Hp. replace (nt_name_slot_count t =? 0) with false by lia.
  pose proof (home_range name _ Hs) as Hh.
  destruct (find_loop_sound t name (length (nt_name_slots t)) (nw_home name (nt_name_slot_count t))
    (nt_collision_count t) H Hh) as (r & c & E & Hr).
  unfold so_lift. rewrite E. cbn. eexists _, _, _. split; [reflexivity|]. intros i. split; [apply Hr|].
  intros Hi. destruct (io_reach _ _ H _ _ Hi) as (d & Hd & Hreach).
  destruct (find_loop_complete t name i d (length (nt_name_slots t)) 0 (nt_collision_count t) H Hi Hreach)
    as (j & c' & Ej); [lia|unfold nt_name_slot_count, zlen in *; lia|].
  rewrite Z.add_0_r, Z.mod_small in Ej by done. rewrite E in Ej. simplify_eq. f_equal.
  specialize (Hr j eq_refl).
  pose proof (zget_Some_range _ _ _ Hi). pose proof (zget_Some_range _ _ _ Hr).
  rewrite zget_lookup in Hi, Hr by done. apply Z2Nat.inj; [lia|lia|]. eapply NoDup_lookup; eauto.
Qed.

(** ** The invariant *)

Definition unknown_dtype (w : yvex_native_weight_info) : bool :=
  bool_decide (w_dtype w = YVEX_NATIVE_DTYPE_UNKNOWN) || bool_decide (w_dtype w = YVEX_NATIVE_DTYPE_OTHER).

Definition row_ok (w : yvex_native_weight_info) : Prop :=
  0 <= w_data_start w <= w_data_end w /\ w_data_end w < 2 ^ 64
  /\ w_data_bytes w = w_data_end w - w_data_start w
  /\ w_rank w <= YVEX_NATIVE_WEIGHT_MAX_DIMS
  /\ w_dtype w = nw_dtype_from_name (w_dtype_name w).

Definition total_bytes (items : list yvex_native_weight_info) : Z :=
  foldr (fun w n => w_data_bytes w + n) 0 items.

(** The summary describes the rows. *)
Definition summarized (items : list yvex_native_weight_info) (s : yvex_native_weight_summary) : Prop :=
  s_tensor_count s = zlen items /\ s_total_tensor_bytes s = total_bytes items
  /\ total_bytes items < 2 ^ 64
  /\ s_unknown_dtype_count s = zlen (filter (fun w => unknown_dtype w = true) items).

Record table_ok (t : yvex_native_weight_table) : Prop := {
  tk_names : NoDup (names_of (nt_items t));
  tk_index : indexed t;
  tk_cap : nt_count t <= nt_cap t <= 2 ^ 57;
  tk_rows : Forall row_ok (nt_items t);
  tk_summary : summarized (nt_items t) (nt_summary t);
  tk_sorted : nt_finalized t = true -> StronglySorted (le_by nw_row_compare) (nt_items t)
}.

Lemma table_zero_ok : table_ok table_zero.
Proof. split; [apply NoDup_nil_2|by left|done|apply Forall_nil_2|done|done]. Qed.

(** The fields an operation may change without touching the rows. *)
Lemma table_ok_index t slots maximum :
  table_ok t -> index_ok (names_of (nt_items t)) slots -> table_ok (set_index slots maximum t).
Proof. intros [H1 H2 H3 H4 H5 H6] H. split; [done|by right|done..]. Qed.
Lemma table_ok_lookups t a b : table_ok t -> table_ok (set_lookups a b t).
Proof. intros [H1 H2 H3 H4 H5 H6]. by split. Qed.
Lemma table_ok_cap t c : table_ok t -> nt_count t <= c <= 2 ^ 57 -> table_ok (set_cap c t).
Proof. intros [H1 H2 H3 H4 H5 H6] H. by split. Qed.

Lemma same_rows_refl t : same_rows t t.
Proof. done. Qed.

Lemma ensure_index granted t :
  table_ok t ->
  match nw_reindex granted t with
  | (t', Done _) => table_ok t' /\ same_rows t t' /\ nt_cap t' = nt_cap t
      /\ index_ok (names_of (nt_items t')) (nt_name_slots t') /\ nt_count t' < nt_name_slot_count t'
  | (t', Refuse st _) => t' = t /\ granted = false /\ exhausted st
  | (_, Fault _) => False
  end.
Proof.
  intros Ht. pose proof (tk_cap _ Ht) as Hc. pose proof (zlen_nonneg (nt_items t)) as Hn.
  unfold nt_count in *. unfold nw_reindex. rewrite nt_bind_run. cbn [so_get]. destruct (crowded t) eqn:E.
  - pose proof (rebuild_ok granted t (nt_count t + 1)) as H. unfold nt_count, SIZE_MAX, UINT64_MAX in H.
    specialize (H ltac:(lia)). unfold nt_count.
    destruct (nw_index_rebuild granted (zlen (nt_items t) + 1) t) as [t' [u|st r|f]].
    + destruct H as (slots & m & -> & Hi & Hl). split; [by apply table_ok_index|]. split; [done|]. split; [done|].
      split; [done|]. unfold nt_name_slot_count. cbn. lia.
    + destruct H as (-> & Hx & Hg). split; [done|]. split; [|done]. destruct granted; [|done].
      specialize (Hg eq_refl). lia.
    + done.
  - unfold crowded, nt_count in E. cbn. split; [done|]. split; [done|]. split; [done|].
    assert (nt_name_slot_count t <> 0 /\ zlen (nt_items t) + 1 < nt_name_slot_count t / 2) as [H0 Hlt] by lia.
    destruct (tk_index _ Ht) as [[_ Hs]|Hi]; [unfold nt_name_slot_count in H0; rewrite Hs in H0; done|].
    split; [done|]. pose proof (zlen_nonneg (nt_name_slots t)) as Hp. fold (nt_name_slot_count t) in Hp.
    pose proof (Z.div_le_upper_bound (nt_name_slot_count t) 2 (nt_name_slot_count t) ltac:(lia) ltac:(lia)). lia.
Qed.

Lemma grow_ok granted t :
  table_ok t ->
  match nw_grow granted t with
  | (t', Done _) => table_ok t' /\ nt_count t' < nt_cap t' /\ exists c, t' = set_cap c t
  | (t', Refuse st _) => t' = t /\ exhausted st /\ (granted = false \/ 2 ^ 56 <= nt_count t)
  | (_, Fault _) => False
  end.
Proof.
  intros Ht. pose proof (tk_cap _ Ht) as Hc. pose proof (zlen_nonneg (nt_items t)) as Hn.
  unfold nw_grow, mbind, so_bind, exhausted. cbn [so_get].
  destruct (nt_count t =? nt_cap t) eqn:E; cbn [negb].
  2:{ split; [done|]. split; [lia|]. exists (nt_cap t). by destruct t. }
  change (SIZE_MAX / (2 * SIZEOF_WEIGHT_INFO)) with (2 ^ 56 - 1).
  change (ULLONG_MAX / 2) with (2 ^ 63 - 1).
  destruct ((2 ^ 56 - 1 <? nt_cap t) || (2 ^ 63 - 1 <? nt_cap t)) eqn:E1.
  { split; [done|]. split; [by right|]. right. lia. }
  destruct granted; cbn [negb]; [|split; [done|split; [by left|by left]]]. cbn [so_modify].
  assert (nt_count t < (if nt_cap t =? 0 then 64 else u64 (nt_cap t * 2)) <= 2 ^ 57) as Hb.
  { unfold nt_count in *. destruct (nt_cap t =? 0) eqn:E0; [lia|]. rewrite u64_id by (unfold is_u64; lia). lia. }
  split; [apply table_ok_cap; [done|lia]|]. split; [exact (proj1 Hb)|]. eauto.
Qed.

(** ** Adding a row *)

Lemma total_bytes_app a b : total_bytes (a ++ b) = total_bytes a + total_bytes b.
Proof.
  induction a as [|w a IH]; [done|].
  change (w_data_bytes w + total_bytes (a ++ b) = w_data_bytes w + total_bytes a + total_bytes b). lia.
Qed.

Lemma total_bytes_nonneg items : Forall row_ok items -> 0 <= total_bytes items.
Proof.
  induction 1 as [|w l (H1 & _ & H3 & _) _ IH]; [done|].
  change (0 <= w_data_bytes w + total_bytes l). lia.
Qed.

Lemma summary_add_ok items s row :
  summarized items s -> zlen items < 2 ^ 57 -> 0 <= total_bytes items -> 0 <= w_data_bytes row ->
  total_bytes items + w_data_bytes row < 2 ^ 64 ->
  summarized (items ++ [row]) (summary_add row s).
Proof.
  intros (H1 & H2 & H3 & H4) Hc Ht0 Hb Hlt. unfold summarized. cbn.
  rewrite H1, H2, H4, zlen_snoc, total_bytes_app. change (total_bytes [row]) with (w_data_bytes row + 0).
  pose proof (zlen_nonneg items). rewrite !u64_id by (unfold is_u64; lia).
  split; [done|]. split; [lia|]. split; [lia|]. fold (unknown_dtype row). rewrite filter_app.
  assert (zlen (filter (fun w => unknown_dtype w = true) items) <= zlen items) as Hf.
  { unfold zlen. apply Nat2Z.inj_le, length_filter. }
  pose proof (zlen_nonneg (filter (fun w => unknown_dtype w = true) items)).
  destruct (unknown_dtype row) eqn:E.
  - rewrite filter_cons_True, filter_nil, zlen_snoc by done. apply u64_id. unfold is_u64. lia.
  - rewrite filter_cons_False, filter_nil, app_nil_r by congruence. done.
Qed.

Definition append_row (row : yvex_native_weight_info) (slots : list Z) (maximum : Z)
    (t : yvex_native_weight_table) : yvex_native_weight_table :=
  set_index slots maximum
    (set_summary (summary_add row (nt_summary t)) (set_items (nt_items t ++ [row]) t)).

Lemma append_ok t row :
  table_ok t -> index_ok (names_of (nt_items t)) (nt_name_slots t) ->
  nt_count t < nt_name_slot_count t -> nt_count t < nt_cap t -> nt_finalized t = false ->
  w_name row ∉ names_of (nt_items t) ->
  row_ok row -> total_bytes (nt_items t) + w_data_bytes row < 2 ^ 64 ->
  exists slots maximum,
    nw_claim (nt_name_slots t) (nt_maximum_probe t) (w_name row) (nt_count t + 1) = Done (slots, maximum)
    /\ table_ok (append_row row slots maximum t).
Proof.
  intros [H1 H2 H3 H4 H5 H6] Hi Hlt Hcap Hfin Hnew Hrow Hb. unfold nt_count, nt_name_slot_count in *.
  destruct (claim_ok _ _ (nt_maximum_probe t) (w_name row) Hi) as (slots & m & C & Hok & _);
    [by rewrite zlen_names|].
  rewrite zlen_names in C. exists slots, m. split; [done|].
  assert (names_of (nt_items t ++ [row]) = names_of (nt_items t) ++ [w_name row]) as En.
  { unfold names_of. by rewrite fmap_app. }
  split; cbn [append_row set_index set_summary set_items nt_items nt_name_slots nt_summary nt_cap].
  - rewrite En. apply NoDup_app. split; [done|]. split; [|apply NoDup_singleton].
    intros x Hx ->%list_elem_of_singleton. done.
  - right. change (index_ok (names_of (nt_items t ++ [row])) slots). by rewrite En.
  - unfold nt_count. cbn. rewrite zlen_snoc. lia.
  - apply Forall_app. split; [done|]. by apply Forall_singleton.
  - apply summary_add_ok; [done|lia|by apply total_bytes_nonneg| |done].
    destruct Hrow as (? & _ & ? & _). lia.
  - cbn. congruence.
Qed.

(** The row a call describes. *)
Definition described (name shard_path dtype_name : list Z) (rank : Z) (dims : list Z)
    (data_start data_end : Z) : yvex_native_weight_info :=
  mk_weight name shard_path (nw_dtype_from_name dtype_name) dtype_name (take (Z.to_nat rank) dims)
    data_start data_end (data_end - data_start).

(** Every allocation is granted and the counters have room. *)
Definition roomy (alloc : nat -> bool) (t : yvex_native_weight_table) (bytes : Z) : Prop :=
  (forall k, alloc k = true) /\ nt_count t < 2 ^ 56 /\ total_bytes (nt_items t) + bytes < 2 ^ 64.

Section add.
Context (alloc : nat -> bool) (name shard_path dtype_name : list Z) (rank : Z) (dims : list Z).
Context (data_start data_end : Z) (Hrank : 0 <= rank <= zlen dims).
Context (Hs : is_u64 data_start) (He : is_u64 data_end).
Let row := described name shard_path dtype_name rank dims data_start data_end.

Lemma described_ok :
  (YVEX_NATIVE_WEIGHT_MAX_DIMS <? rank) || (data_end <? data_start) = false -> row_ok row.
Proof using Hrank Hs He.
  intros E. unfold is_u64 in *. unfold row_ok, row, described, w_rank.
  cbn [w_data_start w_data_end w_data_bytes w_dims w_dtype w_dtype_name].
  split; [lia|]. split; [lia|]. split; [done|]. split; [|done]. unfold zlen. rewrite length_take. lia.
Qed.

Lemma nw_append_ok t :
  table_ok t -> index_ok (names_of (nt_items t)) (nt_name_slots t) ->
  nt_count t < nt_name_slot_count t -> nt_finalized t = false -> name ∉ names_of (nt_items t) -> row_ok row ->
  match nw_append alloc name shard_path dtype_name rank dims data_start data_end t with
  | (t', Done _) => table_ok t' /\ nt_items t' = nt_items t ++ [row] /\ nt_finalized t' = false
  | (t', Refuse st _) => table_ok t' /\ same_rows t t' /\ exhausted st /\ ~ roomy alloc t (w_data_bytes row)
  | (_, Fault _) => False
  end.
Proof using Hrank Hs He.
  intros Ht Hidx Hlt Hfin Hnew Hrow. pose proof (tk_cap _ Ht) as Hc.
  pose proof (zlen_nonneg (nt_items t)) as Hn. fold (nt_count t) in Hn.
  unfold nw_append. rewrite nt_bind_run. pose proof (grow_ok (alloc 1%nat) t Ht) as H3.
  destruct (nw_grow (alloc 1%nat) t) as [t3 [u'|st r|f]]; [|destruct H3 as (-> & Hx & Hg)|done].
  2:{ split; [done|]. split; [done|]. split; [done|]. intros (Hr & Hcount & _).
      destruct Hg as [Hg|Hg]; [specialize (Hr 1%nat); congruence|lia]. }
  destruct H3 as (Ht3 & Hcap & cap & ->). set (t3 := set_cap cap t) in *.
  change (nt_count t3) with (nt_count t) in *.
  rewrite nt_bind_run. cbn [so_get]. replace (nt_cap t3 <=? nt_count t3) with false by (symmetry; by apply Z.leb_gt).
  destruct (alloc 2%nat && alloc 3%nat && alloc 4%nat) eqn:Ea; cbn [negb].
  2:{ split; [done|]. split; [done|]. split; [by left|]. intros (Hr & _). by rewrite !Hr in Ea. }
  rewrite nt_bind_run. unfold so_lift at 1.
  replace rank with (Z.of_nat (Z.to_nat rank)) by lia. rewrite mapO_read by (unfold zlen in Hrank; lia).
  pose proof Hrow as (Hse & He2 & _). cbn in Hse, He2.
  rewrite (u64_id (data_end - data_start)) by (unfold is_u64; lia).
  replace (Z.of_nat (Z.to_nat rank)) with rank by lia. cbn zeta.
  fold (described name shard_path dtype_name rank dims data_start data_end). fold row.
  pose proof (tk_summary _ Ht3) as (Sc & Sb & Sl & _). change (nt_items t3) with (nt_items t) in Sc, Sb, Sl.
  pose proof (total_bytes_nonneg _ (tk_rows _ Ht)) as Hb0.
  rewrite Sc, Sb. fold (nt_count t). change ULLONG_MAX with (2 ^ 64 - 1).
  change (nt_count t3) with (nt_count t).
  match goal with |- context [if ?b then so_refuse _ _ else _] => destruct b eqn:E4 end.
  { split; [done|]. split; [done|]. split; [by right|]. intros (_ & _ & Hb). lia. }
  rewrite u64_id by (unfold is_u64; lia).
  destruct (append_ok t3 row Ht3 Hidx Hlt Hcap Hfin Hnew Hrow) as (slots & m & C & Hok).
  { change (nt_items t3) with (nt_items t). lia. }
  rewrite nt_bind_run. unfold so_lift. change name with (w_name row).
  change (nt_count t3) with (nt_count t) in C. rewrite C. split; [exact Hok|]. done.
Qed.

Lemma add_ok t :
  table_ok t ->
  match yvex_native_weight_table_add alloc name shard_path dtype_name rank dims data_start data_end t with
  | (t', Done _) => table_ok t' /\ nt_items t' = nt_items t ++ [row] /\ nt_finalized t = false
      /\ nt_finalized t' = false /\ name ∉ names_of (nt_items t) /\ row_ok row
  | (t', Refuse st _) => table_ok t' /\ same_rows t t' /\
      (if (YVEX_NATIVE_WEIGHT_MAX_DIMS <? rank) || (data_end <? data_start) then st = YVEX_ERR_INVALID_ARG
       else if nt_finalized t then st = YVEX_ERR_STATE
       else (st = YVEX_ERR_FORMAT /\ name ∈ names_of (nt_items t))
            \/ (exhausted st /\ ~ roomy alloc t (w_data_bytes row)))
  | (_, Fault _) => False
  end.
Proof using Hrank Hs He.
  intros Ht. unfold yvex_native_weight_table_add.
  destruct ((YVEX_NATIVE_WEIGHT_MAX_DIMS <? rank) || (data_end <? data_start)) eqn:E1; [done|].
  pose proof (described_ok E1) as Hrow.
  rewrite nt_bind_run. cbn [so_get]. destruct (nt_finalized t) eqn:E2; [done|].
  pose proof (tk_cap _ Ht) as Hc.
  destruct ((SIZE_MAX <=? nt_count t) || (nt_count t =? ULLONG_MAX)) eqn:E3.
  { exfalso. unfold ULLONG_MAX, SIZE_MAX, UINT64_MAX in E3. lia. }
  pose proof (ensure_index (alloc 0%nat) t Ht) as H1. rewrite nt_bind_run.
  destruct (nw_reindex (alloc 0%nat) t) as [t1 [u|st r|f]]; [|destruct H1 as (-> & Hg & Hx)|done].
  2:{ split; [done|]. split; [done|]. right. split; [done|]. intros (Hr & _). specialize (Hr 0%nat). congruence. }
  destruct H1 as (Ht1 & Hsame & Ec & Hidx & Hlt). pose proof Hsame as (Ei & Es & Ef). rewrite nt_bind_run.
  destruct (find_exact t1 name (tk_index _ Ht1) (tk_names _ Ht1)) as (found & l & c & Efind & Hfound).
  rewrite Efind. rewrite Ei in Hfound. case_bool_decide as Hdup.
  { split; [by apply table_ok_lookups|]. split; [done|]. left. split; [done|]. destruct Hdup as (i & Hi).
    apply Hfound in Hi. by eapply zget_elem_of. }
  assert (name ∉ names_of (nt_items t)) as Hnew.
  { intros (i & Hi)%elem_of_zget. apply Hfound in Hi. apply Hdup. by exists i. }
  pose proof (nw_append_ok (set_lookups l c t1) (table_ok_lookups _ _ _ Ht1) Hidx Hlt) as H.
  cbn [nt_items nt_finalized set_lookups] in H. rewrite Ei, Ef in H. specialize (H E2 Hnew Hrow).
  destruct (nw_append _ _ _ _ _ _ _ _ _) as [t2 [u2|st r|f]]; [|destruct H as (H1 & H2 & H3 & H4)|done].
  - destruct H as (H1 & H2 & H3). split; [done|]. split; [done|]. done.
  - split; [done|]. split.
    { destruct H2 as (A & B & C). split; [etrans; [exact A|done]|]. split; [etrans; [exact B|done]|].
      etrans; [exact C|]. exact Ef. }
    right. split; [done|]. intros (R1 & R2 & R3). apply H4. split; [done|].
    unfold nt_count in *. cbn. by rewrite Ei.
Qed.

End add.

(** ** Finalization *)

Lemma bytes_compare_eq a b : bytes_compare a b = Eq <-> a = b.
Proof.
  revert b. induction a as [|x a IH]; intros [|y b]; cbn; try done.
  destruct (Z.compare_spec x y) as [->|H|H]; [|naive_solver lia..]. rewrite IH. naive_solver.
Qed.

Lemma bytes_compare_antisym a b : bytes_compare a b = CompOpp (bytes_compare b a).
Proof.
  revert b. induction a as [|x a IH]; intros [|y b]; cbn; try done.
  rewrite (Z.compare_antisym y x). destruct (y ?= x); cbn; [apply IH|done..].
Qed.

Lemma bytes_compare_trans a b c :
  bytes_compare a b = Lt -> bytes_compare b c = Lt -> bytes_compare a c = Lt.
Proof.
  revert b c. induction a as [|x a IH]; intros [|y b] [|z c]; cbn; try done.
  destruct (Z.compare_spec x y) as [->|H1|H1]; [|  |done].
  - destruct (Z.compare_spec y z) as [->|H2|H2]; [apply IH|done..].
  - destruct (Z.compare_spec y z) as [->|H2|H2]; [|  |done]; intros _ _.
    + by rewrite (proj2 (Z.compare_lt_iff x z)).
    + by rewrite (proj2 (Z.compare_lt_iff x z)) by lia.
Qed.

Lemma row_compare_antisym a b : nw_row_compare a b = CompOpp (nw_row_compare b a).
Proof.
  unfold nw_row_compare. rewrite (bytes_compare_antisym (w_name a) (w_name b)).
  destruct (bytes_compare (w_name b) (w_name a)); cbn; [apply bytes_compare_antisym|done..].
Qed.

Lemma row_le_trans a b c :
  le_by nw_row_compare a b -> le_by nw_row_compare b c -> le_by nw_row_compare a c.
Proof.
  unfold le_by, nw_row_compare. intros H1 H2.
  destruct (bytes_compare (w_name a) (w_name b)) eqn:E1; [| |done];
  destruct (bytes_compare (w_name b) (w_name c)) eqn:E2; try done.
  - apply bytes_compare_eq in E1, E2. rewrite E1, E2, (proj2 (bytes_compare_eq _ _) eq_refl).
    destruct (bytes_compare (w_shard_path a) (w_shard_path b)) eqn:E3; [| |done];
    destruct (bytes_compare (w_shard_path b) (w_shard_path c)) eqn:E4; try done.
    + apply bytes_compare_eq in E3, E4. by rewrite E3, E4, (proj2 (bytes_compare_eq _ _) eq_refl).
    + apply bytes_compare_eq in E3. by rewrite E3, E4.
    + apply bytes_compare_eq in E4. by rewrite <- E4, E3.
    + by rewrite (bytes_compare_trans _ _ _ E3 E4).
  - apply bytes_compare_eq in E1. by rewrite E1, E2.
  - apply bytes_compare_eq in E2. by rewrite <- E2, E1.
  - by rewrite (bytes_compare_trans _ _ _ E1 E2).
Qed.

Lemma sorted_rows items : StronglySorted (le_by nw_row_compare) (sort_by nw_row_compare items).
Proof. apply sort_by_sorted; [apply row_compare_antisym|apply row_le_trans]. Qed.

Lemma total_bytes_perm a b : a ≡ₚ b -> total_bytes a = total_bytes b.
Proof.
  assert (forall w l, total_bytes (w :: l) = w_data_bytes w + total_bytes l) as E by done.
  induction 1; rewrite ?E; lia.
Qed.

Lemma summarized_perm a b s : a ≡ₚ b -> summarized a s -> summarized b s.
Proof.
  intros H (H1 & H2 & H3 & H4). unfold summarized, zlen in *.
  rewrite <- (total_bytes_perm _ _ H), <- H. done.
Qed.

(** The rows of [t], permuted. *)
Definition permuted (t t' : yvex_native_weight_table) : Prop :=
  nt_items t' ≡ₚ nt_items t /\ nt_summary t' = nt_summary t.

Lemma finalize_ok granted err t :
  table_ok t ->
  match yvex_native_weight_table_finalize granted err t with
  | (t', Done _) => permuted t t' /\ (granted = true \/ err = true -> table_ok t' /\ nt_finalized t' = true)
  | (t', Refuse st _) => permuted t t' /\ granted = false /\ err = true /\ exhausted st /\ nt_finalized t' = false
  | (_, Fault _) => False
  end.
Proof.
  intros Ht. pose proof (tk_cap _ Ht) as Hc. pose proof (zlen_nonneg (nt_items t)) as Hn. fold (nt_count t) in Hn.
  unfold yvex_native_weight_table_finalize. rewrite nt_bind_run. cbn [so_get].
  destruct (nt_finalized t) eqn:Ef; [done|].
  replace (SIZE_MAX <? nt_count t) with false by (unfold SIZE_MAX, UINT64_MAX; lia).
  set (items := if 1 <? nt_count t then sort_by nw_row_compare (nt_items t) else nt_items t).
  assert (items ≡ₚ nt_items t) as Hp by (unfold items; destruct (1 <? nt_count t); [apply sort_by_perm|done]).
  assert (StronglySorted (le_by nw_row_compare) items) as Hsort.
  { unfold items. destruct (1 <? nt_count t) eqn:E1; [apply sorted_rows|].
    unfold nt_count in E1. destruct (nt_items t) as [|w [|w' l]]; [constructor|repeat constructor|].
    rewrite !zlen_cons in E1. pose proof (zlen_nonneg l). lia. }
  rewrite nt_bind_run.
  replace ((if 1 <? nt_count t then so_modify (set_items (sort_by nw_row_compare (nt_items t))) else mret tt : NT unit) t)
    with (set_items items t, Done tt) by (unfold items; destruct (1 <? nt_count t); [done|by destruct t]).
  set (t1 := set_items items t). rewrite nt_bind_run. cbn [so_modify]. rewrite nt_bind_run. cbn [so_get].
  set (t2 := set_index (nt_name_slots t1) 0 t1).
  assert (nt_count t2 = nt_count t) as Ec by (unfold nt_count, zlen; cbn; by rewrite Hp).
  rewrite Ec, u64_id by (unfold is_u64; lia).
  pose proof (rebuild_ok granted t2 (nt_count t + 1)) as H. rewrite Ec in H.
  specialize (H ltac:(unfold SIZE_MAX, UINT64_MAX; lia)).
  destruct (nw_index_rebuild granted (nt_count t + 1) t2) as [t3 [u|st r|f]]; [|destruct H as (-> & Hx & Hg)|done].
  - destruct H as (slots & m & -> & Hi & _). split; [done|]. intros _. split; [|done].
    destruct Ht as [H1 H2 H3 H4 H5 H6]. split.
    + cbn. unfold names_of. by rewrite Hp.
    + by right.
    + change (nt_count t2 <= nt_cap t <= 2 ^ 57). lia.
    + cbn. by rewrite Hp.
    + by eapply summarized_perm.
    + done.
  - destruct err; cbn.
    + split; [done|]. split; [|done]. destruct granted; [specialize (Hg eq_refl); lia|done].
    + split; [done|]. intros [->|[=]]. specialize (Hg eq_refl). lia.
Qed.

(** ** Specification: a finite map *)

Definition keyed (w : yvex_native_weight_info) : list Z * yvex_native_weight_info := (w_name w, w).

Definition map_of (items : list yvex_native_weight_info) : gmap (list Z) yvex_native_weight_info :=
  list_to_map (keyed <$> items).

(** The abstract table: its rows by name, and whether it is sealed. *)
Record map_spec : Type := mk_map_spec {
  ms_rows : gmap (list Z) yvex_native_weight_info;
  ms_sealed : bool
}.

Definition abstraction (t : yvex_native_weight_table) : map_spec :=
  mk_map_spec (map_of (nt_items t)) (nt_finalized t).

Inductive table_call : Type :=
  | CallAdd (alloc : nat -> bool) (name shard_path dtype_name : list Z) (rank : Z) (dims : list Z)
      (data_start data_end : Z)
  | CallFind (name : list Z)
  | CallFinalize (granted : bool).

Definition call_valid (c : table_call) : Prop :=
  match c with
  | CallAdd _ _ _ _ rank dims data_start data_end =>
      0 <= rank <= zlen dims /\ is_u64 data_start /\ is_u64 data_end
  | _ => True
  end.

Definition perform (c : table_call) : NT (option yvex_native_weight_info) :=
  match c with
  | CallAdd alloc name shard_path dtype_name rank dims data_start data_end =>
      _ ← yvex_native_weight_table_add alloc name shard_path dtype_name rank dims data_start data_end; mret None
  | CallFind name => yvex_native_weight_table_find name
  | CallFinalize granted => _ ← yvex_native_weight_table_finalize granted true; mret None
  end.

(** What a call may do to the map, and what it answers. *)
Definition map_step (c : table_call) (s s' : map_spec) (r : outcome (option yvex_native_weight_info)) : Prop :=
  match c with
  | CallAdd _ name shard_path dtype_name rank dims data_start data_end =>
      let row := described name shard_path dtype_name rank dims data_start data_end in
      match r with
      | Done _ => ms_sealed s = false /\ ms_rows s !! name = None /\ row_ok row
          /\ s' = mk_map_spec (<[name := row]> (ms_rows s)) false
      | Refuse st _ => s' = s
          /\ (if (YVEX_NATIVE_WEIGHT_MAX_DIMS <? rank) || (data_end <? data_start)
              then st = YVEX_ERR_INVALID_ARG
              else if ms_sealed s then st = YVEX_ERR_STATE
              else (st = YVEX_ERR_FORMAT /\ is_Some (ms_rows s !! name)) \/ exhausted st)
      | Fault _ => False
      end
  | CallFind name => r = Done (ms_rows s !! name) /\ s' = s
  | CallFinalize granted =>
      ms_rows s' = ms_rows s /\
      match r with
      | Done _ => ms_sealed s' = true
      | Refuse st _ => granted = false /\ exhausted st
      | Fault _ => False
      end
  end.

(** A table after a history of calls in which no finalization was refused.  A
    refused finalization has sorted the rows and kept the index of the former
    order, so the table can then only be closed: [refused_finalize_loses_row]
    shows what a later lookup and a later insertion do. *)
Inductive table_reachable : yvex_native_weight_table -> Prop :=
  | tr_open : table_reachable table_zero
  | tr_call c t t' r :
      table_reachable t -> call_valid c -> perform c t = (t', r) ->
      match c, r with CallFinalize _, Refuse _ _ => False | _, _ => True end ->
      table_reachable t'.

Lemma keyed_names items : (keyed <$> items).*1 = names_of items.
Proof. unfold names_of. by rewrite <- list_fmap_compose. Qed.

Lemma map_of_lookup items name w :
  NoDup (names_of items) ->
  map_of items !! name = Some w <-> exists i, zget items i = Some w /\ w_name w = name.
Proof.
  intros Hnd. unfold map_of. rewrite <- elem_of_list_to_map by by rewrite keyed_names.
  rewrite list_elem_of_fmap. unfold keyed. split.
  - intros (w' & [= -> ->] & (i & Hi)%elem_of_zget). eauto.
  - intros (i & Hi%zget_elem_of & <-). eauto.
Qed.

Lemma map_of_None items name : map_of items !! name = None <-> name ∉ names_of items.
Proof.
  unfold map_of. rewrite <- not_elem_of_list_to_map. by rewrite keyed_names.
Qed.

Lemma map_of_snoc items row :
  w_name row ∉ names_of items -> map_of (items ++ [row]) = <[w_name row := row]> (map_of items).
Proof.
  intros H. unfold map_of. rewrite fmap_app. cbn. apply list_to_map_snoc. by rewrite keyed_names.
Qed.

Lemma map_of_perm a b : NoDup (names_of a) -> a ≡ₚ b -> map_of a = map_of b.
Proof. intros Hnd H. apply list_to_map_proper; [by rewrite keyed_names|by rewrite H]. Qed.

Lemma map_of_is_Some items name : name ∈ names_of items -> is_Some (map_of items !! name).
Proof.
  intros H. destruct (map_of items !! name) eqn:E; [done|]. apply map_of_None in E. done.
Qed.

Lemma table_find_ok t name :
  table_ok t ->
  exists a b, yvex_native_weight_table_find name t
    = (set_lookups a b t, Done (map_of (nt_items t) !! name)).
Proof.
  intros Ht. destruct (find_exact t name (tk_index _ Ht) (tk_names _ Ht)) as (r & a & b & E & Hr).
  exists a, b. unfold yvex_native_weight_table_find. rewrite nt_bind_run, E. destruct r as [i|].
  - pose proof (proj1 (Hr i) eq_refl) as Hi. rewrite zget_names in Hi.
    destruct (zget (nt_items t) i) as [w|] eqn:Ew; [|done]. cbn in Hi. simplify_eq.
    rewrite nt_bind_run. cbn [so_get]. rewrite nt_bind_run. unfold so_lift. cbn [nt_items set_lookups].
    rewrite (proj2 (read_at_Done _ _ _) Ew). unfold mret, so_ret. do 2 f_equal. symmetry.
    apply map_of_lookup; [apply Ht|]. eauto.
  - unfold mret, so_ret. do 2 f_equal. symmetry. apply map_of_None. intros (i & Hi)%elem_of_zget.
    apply Hr in Hi. done.
Qed.

Lemma table_perform_ok c t :
  table_ok t -> call_valid c ->
  let '(t', r) := perform c t in
  map_step c (abstraction t) (abstraction t') r
  /\ (match c, r with CallFinalize _, Refuse _ _ => True | _, _ => table_ok t' end).
Proof.
  intros Ht Hv. destruct c as [alloc name shard_path dtype_name rank dims data_start data_end|name|granted];
    cbn [perform map_step call_valid] in *.
  - destruct Hv as (H1 & H2 & H3). rewrite nt_bind_run.
    pose proof (add_ok alloc name shard_path dtype_name rank dims data_start data_end H1 H2 H3 t Ht) as H.
    destruct (yvex_native_weight_table_add _ _ _ _ _ _ _ _ t) as [t' [u|st m|f]]; [| |done].
    + destruct H as (Ht' & Ei & Ef & Ef' & Hnew & Hrow). cbn. split; [|done]. split; [done|].
      split; [by apply map_of_None|]. split; [done|]. unfold abstraction. rewrite Ei, Ef'. f_equal.
      by rewrite map_of_snoc.
    + destruct H as (Ht' & (Ei & _ & Ef) & H). split; [|done]. unfold abstraction. rewrite Ei, Ef. split; [done|].
      cbn [ms_sealed ms_rows].
      destruct (_ || _); [done|]. destruct (nt_finalized t); [done|].
      destruct H as [(-> & Hin)|(Hx & _)]; [left; split; [done|by apply map_of_is_Some]|by right].
  - destruct (table_find_ok t name Ht) as (a & b & ->). split; [done|by apply table_ok_lookups].
  - rewrite nt_bind_run. pose proof (finalize_ok granted true t Ht) as H.
    destruct (yvex_native_weight_table_finalize granted true t) as [t' [u|st m|f]]; [| |done].
    + destruct H as ((Hp & _) & H). destruct (H (or_intror eq_refl)) as (Ht' & Ef). split; [|done]. cbn.
      split; [|done]. by apply map_of_perm; [apply Ht'|].
    + destruct H as ((Hp & _) & Hg & _ & Hx & _). split; [|done]. cbn. split; [|done].
      symmetry. by apply map_of_perm; [apply Ht|].
Qed.

Lemma table_reachable_ok t : table_reachable t -> table_ok t.
Proof.
  induction 1 as [|c t t' r _ IH Hv E Hr]; [apply table_zero_ok|].
  pose proof (table_perform_ok c t IH Hv) as H. rewrite E in H. destruct H as [_ H].
  destruct c, r; done.
Qed.

(** C29: The tensor table refines a finite map.  In every table reached by a history of calls in
    which no finalization was refused, under any allocator, adding a row, looking a name up and
    finalizing, each with an error record, return without a fault and do to the map of rows by name,
    and answer, exactly what the specification allows: a row is inserted only
    under a new name, a lookup answers with the map, a refusal (that of this call's finalization
    included) changes no row, and finalization keeps the map. *)
Theorem native_table_refines_map c t t' r :
  table_reachable t -> call_valid c -> perform c t = (t', r) ->
  map_step c (abstraction t) (abstraction t') r.
Proof.
  intros Ht Hv E. pose proof (table_perform_ok c t (table_reachable_ok t Ht) Hv) as H.
  rewrite E in H. apply H.
Qed.

(** Two rows, added and finalized. *)
Definition demo_rows : yvex_native_weight_table :=
  fst ((_ ← perform (CallAdd (fun _ => true) [98] [] (string_bytes "F32") 1 [2] 0 8);
        perform (CallAdd (fun _ => true) [97] [] (string_bytes "F32") 1 [1] 8 12)) table_zero).

Lemma demo_rows_reachable : table_reachable demo_rows.
Proof.
  eapply (tr_call (CallAdd (fun _ => true) [97] [] (string_bytes "F32") 1 [1] 8 12));
    [eapply (tr_call (CallAdd (fun _ => true) [98] [] (string_bytes "F32") 1 [2] 0 8));
     [constructor|vm_compute; repeat split; done|vm_compute; reflexivity|done]
    |vm_compute; repeat split; done|vm_compute; reflexivity|done].
Qed.

Lemma native_table_refines_map_witness :
  map_step (CallFind [98]) (abstraction demo_rows)
    (abstraction (fst (perform (CallFind [98]) demo_rows))) (snd (perform (CallFind [98]) demo_rows))
  /\ ms_rows (abstraction demo_rows) !! [98]
     = Some (described [98] [] (string_bytes "F32") 1 [2] 0 8).
Proof.
  split; [|vm_compute; reflexivity].
  apply (native_table_refines_map (CallFind [98]) demo_rows); [apply demo_rows_reachable|done|].
  by destruct (perform (CallFind [98]) demo_rows).
Defined.

(** Why the histories exclude a refused finalization: it sorts the rows and keeps the index of their
    former order, after which the row [b] is not found and is added a second time. *)
Definition refused_rows : yvex_native_weight_table := fst (perform (CallFinalize false) demo_rows).

Example refused_finalize_loses_row :
  (exists reason, snd (perform (CallFinalize false) demo_rows) = Refuse YVEX_ERR_NOMEM reason)
  /\ w_name <$> nt_items refused_rows = [[97]; [98]]
  /\ snd (perform (CallFind [98]) refused_rows) = Done None
  /\ w_name <$> nt_items (fst (perform (CallAdd (fun _ => true) [98] [] (string_bytes "F32") 1 [2] 0 8)
                               refused_rows)) = [[97]; [98]; [98]].
Proof. split; [eexists|repeat split]; vm_compute; reflexivity. Qed.

(** In every reachable table the names are unique, every row is a valid byte range with at most
    eight extents and the scalar type of its name, the summary counts the rows, their bytes and their
    unknown types exactly without overflow, and a finalized table is sorted by name and shard. *)
Theorem native_table_invariant t :
  table_reachable t ->
  NoDup (w_name <$> nt_items t) /\ Forall row_ok (nt_items t)
  /\ summarized (nt_items t) (yvex_native_weight_table_summary t)
  /\ (nt_finalized t = true -> StronglySorted (le_by nw_row_compare) (nt_items t)).
Proof. by intros [H1 _ _ H2 H3 H4]%table_reachable_ok. Qed.

Lemma native_table_invariant_witness :
  summarized (nt_items demo_rows) (yvex_native_weight_table_summary demo_rows) /\ nt_count demo_rows = 2.
Proof. split; [apply native_table_invariant, demo_rows_reachable|vm_compute; reflexivity]. Defined.

(** A row with valid fields and a new name is always added when the table is not finalized, the
    allocator grants memory, fewer than 2^56 rows are present and the total of bytes fits 64 bits:
    the probing loops end, and afterwards the row is found under its name. *)
Theorem native_add_succeeds alloc name shard_path dtype_name rank dims data_start data_end t :
  table_reachable t -> nt_finalized t = false ->
  0 <= rank <= YVEX_NATIVE_WEIGHT_MAX_DIMS -> rank <= zlen dims -> 0 <= data_start <= data_end ->
  is_u64 data_end -> name ∉ (w_name <$> nt_items t) -> roomy alloc t (data_end - data_start) ->
  exists t' row, yvex_native_weight_table_add alloc name shard_path dtype_name rank dims data_start data_end t
      = (t', Done tt)
    /\ nt_items t' = nt_items t ++ [row] /\ w_name row = name /\ w_data_start row = data_start
    /\ w_data_end row = data_end
    /\ snd (yvex_native_weight_table_find name t') = Done (Some row).
Proof.
  intros Ht%table_reachable_ok Hf Hr Hd Hs He Hnew Hroom. unfold is_u64 in He.
  pose proof (add_ok alloc name shard_path dtype_name rank dims data_start data_end
    ltac:(lia) ltac:(unfold is_u64; lia) He t Ht) as H.
  replace (_ || _) with false in H by (unfold YVEX_NATIVE_WEIGHT_MAX_DIMS in *; lia). rewrite Hf in H.
  destruct (yvex_native_weight_table_add _ _ _ _ _ _ _ _ t) as [t' [[]|st m|f]]; [| |done].
  - destruct H as (Ht' & Ei & _ & _ & _ & _). eexists t', _. split; [done|]. split; [exact Ei|].
    split; [done|]. split; [done|]. split; [done|].
    destruct (table_find_ok t' name Ht') as (a & b & ->). cbn. f_equal. rewrite Ei.
    rewrite map_of_snoc by done. apply lookup_insert_eq.
  - exfalso. destruct H as (_ & _ & [(_ & H)|(_ & H)]); done.
Qed.

Lemma native_add_succeeds_witness :
  exists t' row, yvex_native_weight_table_add (fun _ => true) [97] [] (string_bytes "F16") 1 [3] 0 6 table_zero
      = (t', Done tt) /\ nt_items t' = [row] /\ w_dtype row = YVEX_NATIVE_DTYPE_F16.
Proof.
  destruct (native_add_succeeds (fun _ => true) [97] [] (string_bytes "F16") 1 [3] 0 6 table_zero)
    as (t' & row & E & Ei & _); [constructor|done|done|done|done|done|by intros ?%elem_of_nil|done|].
  exists t', row. split; [exact E|]. split; [exact Ei|]. vm_compute in E. injection E as <-.
  vm_compute in Ei. injection Ei as <-. reflexivity.
Defined.

(** A finalization refused for lack of memory reports success to a caller that
    passes no error record, and the table is not finalized. *)
Example finalize_without_error_record :
  let '(t, r) := yvex_native_weight_table_finalize false false table_zero in
  r = Done tt /\ nt_finalized t = false.
Proof. split; reflexivity. Qed.
