(* ===== verification/Safetensors.v ===== *)
(** * SafeTensors headers ([src/source/safetensors_header.c])

    The parser of the untrusted header of a tensor file, on top of the JSON
    reader of [Json] and the tensor table of [NativeWeights].  A file is the
    list of its bytes; the header is handed to the parser as a C string, which
    ends at its first null byte.  [heap k] is the allocator seen by the [k]-th
    allocating step (the copy of a type name, or the append of a row).

    The parser's state is the JSON reader and a world: the fields read so far
    inside a tensor object, the table at the level of the header.  The loop over
    the members of an object is shared by the two levels, and one pair of
    lemmas relates it to a grammar of objects whose members are read by a
    handler.

    The theorems: parsing and reading return on every file, under every
    allocator and every earlier content of the table, and keep the table's
    invariant; a header is accepted exactly when it is a text of the grammar,
    and then exactly its tensors are appended, each within the payload; the
    extent inspection classifies files exactly. *)

From Stdlib Require Import ZArith Lia Bool String.
From stdpp Require Import base list option numbers strings.
From S2P Require Import Prelude Core Sha256 Text Json NativeWeights.

Notation allocator := (nat -> bool).

(** ** Objects and their members *)

Section members.
Context {W : Type}.

(** The reader and the world of a handler. *)
Definition RD (A : Type) : Type := SO (yvex_json * W) A.

Definition rd_js {A} (c : JS A) : RD A :=
  fun s => let '(j, r) := c s.1 in ((j, s.2), r).
Definition rd_world {A} (c : SO W A) : RD A :=
  fun s => let '(w, r) := c s.2 in ((s.1, w), r).

(** [while ((item = yvex_json_object_member(&iter, key, sizeof(key))) == READY) body]:
    the body says whether to go on. *)
Fixpoint json_members (fuel : nat) (handler : list Z -> RD bool) (iter : yvex_json_iter)
    : RD (yvex_json_item * yvex_json_iter) :=
  match fuel with
  | O => so_lift (Fault OutOfFuel)
  | S fuel =>
      '(item, iter, key) ← rd_js (yvex_json_object_member iter YVEX_JSON_KEY_CAP);
      match item with
      | YVEX_JSON_ITEM_READY =>
          ok ← handler key;
          if ok : bool then json_members fuel handler iter else mret (item, iter)
      | _ => mret (item, iter)
      end
  end.

End members.
Arguments RD W A : clear implicits.

(** ** Tensor objects *)

Definition safetensors_json_expect (token : Z) : JS bool :=
  _ ← yvex_json_space;
  at_token ← js_at token;
  if at_token : bool then _ ← js_next; mret true else mret false.

(** The extents after [count] were read, with [n] places left. *)
Fixpoint shape_loop (n : nat) (dims : list Z) : JS (option (list Z)) :=
  match n with
  | O => mret None
  | S n =>
      r ← yvex_json_u64;
      match r with
      | None => mret None
      | Some v =>
          let dims := dims ++ [v] in
          _ ← yvex_json_space;
          j ← so_get;
          match js_rest j with
          | [] => mret None
          | b :: rest =>
              _ ← js_move rest;
              if b =? 93 then mret (Some dims)
              else if negb (b =? 44) then mret None else shape_loop n dims
          end
      end
  end.

Definition safetensors_shape : JS (option (list Z)) :=
  opened ← safetensors_json_expect 91;
  if negb opened then mret None else
  _ ← yvex_json_space;
  empty ← js_at 93;
  if empty : bool then _ ← js_next; mret (Some [])
  else shape_loop (Z.to_nat YVEX_NATIVE_WEIGHT_MAX_DIMS) [].

Definition safetensors_offsets : JS (option (Z * Z)) :=
  opened ← safetensors_json_expect 91;
  if negb opened then mret None else
  start ← yvex_json_u64;
  match start with
  | None => mret None
  | Some start =>
      comma ← safetensors_json_expect 44;
      if negb comma then mret None else
      stop ← yvex_json_u64;
      match stop with
      | None => mret None
      | Some stop =>
          closed ← safetensors_json_expect 93;
          mret (if closed && (start <=? stop) then Some (start, stop) else None)
      end
  end.

(** The local variables of [safetensors_tensor]; [f_dims] are the first [rank]
    extents. *)
Record tensor_fields : Type := mk_fields {
  f_dtype : option (list Z);
  f_dims : list Z;
  f_start : Z;
  f_end : Z;
  f_seen : Z;
  f_tick : nat
}.

Definition text_dtype : list Z := string_bytes "dtype".
Definition text_shape : list Z := string_bytes "shape".
Definition text_data_offsets : list Z := string_bytes "data_offsets".
Definition text_metadata : list Z := string_bytes "__metadata__".

(** The body of the member loop; [heap] answers the allocation of a type name. *)
Definition tensor_member (heap : nat -> allocator) (key : list Z) : RD tensor_fields bool :=
  if bool_decide (key = text_dtype) then
    s ← so_get;
    dtype ← rd_js (yvex_json_string_dup (heap (f_tick s.2) 0%nat) 64);
    _ ← rd_world (so_modify (fun f =>
          mk_fields dtype (f_dims f) (f_start f) (f_end f)
            (if bool_decide (is_Some dtype) then Z.lor (f_seen f) 1 else f_seen f) (S (f_tick f))));
    mret (bool_decide (is_Some dtype))
  else if bool_decide (key = text_shape) then
    dims ← rd_js safetensors_shape;
    match dims with
    | None => mret false
    | Some dims =>
        _ ← rd_world (so_modify (fun f =>
              mk_fields (f_dtype f) dims (f_start f) (f_end f) (Z.lor (f_seen f) 2) (f_tick f)));
        mret true
    end
  else if bool_decide (key = text_data_offsets) then
    offsets ← rd_js safetensors_offsets;
    match offsets with
    | None => mret false
    | Some (start, stop) =>
        _ ← rd_world (so_modify (fun f =>
              mk_fields (f_dtype f) (f_dims f) start stop (Z.lor (f_seen f) 4) (f_tick f)));
        mret true
    end
  else rd_js yvex_json_skip_value.

(** The object of one tensor: whether it was read to its end, and its fields. *)
Definition tensor_object (heap : nat -> allocator) : RD tensor_fields bool :=
  begun ← rd_js (yvex_json_iter_begin YVEX_JSON_COLLECTION_OBJECT);
  match begun with
  | None => mret false
  | Some iter =>
      s ← so_get;
      '(item, _) ← json_members (S (length (js_rest s.1))) (tensor_member heap) iter;
      mret (match item with YVEX_JSON_ITEM_END => true | _ => false end)
  end.

(** The world of the header: the table and the number of allocating steps. *)
Record header_world : Type := mk_hworld {
  h_table : yvex_native_weight_table;
  h_tick : nat
}.

Definition safetensors_tensor (heap : nat -> allocator) (name : list Z) (payload_bytes : Z)
    (shard_path : list Z) : RD header_world unit :=
  s ← so_get;
  let '((j, f), r) := tensor_object heap (s.1, mk_fields None [] 0 0 0 (h_tick s.2)) in
  _ ← so_put (j, mk_hworld (h_table s.2) (f_tick f));
  valid ← so_lift r;
  if negb valid || negb (f_seen f =? 7) || (payload_bytes <? f_end f)
  then so_refuse YVEX_ERR_FORMAT
         (if negb (f_seen f =? 7) then "tensor entry missing dtype, shape, or data_offsets"
          else "invalid tensor shape or data offsets")
  else
  dtype ← so_lift (deref (f_dtype f));
  rd_world (fun w =>
    let '(t, r) := yvex_native_weight_table_add (heap (h_tick w)) name shard_path dtype
                     (zlen (f_dims f)) (f_dims f) (f_start f) (f_end f) (h_table w) in
    (mk_hworld t (S (h_tick w)), r)).

(** ** Headers *)

Definition header_member (heap : nat -> allocator) (payload_bytes : Z) (shard_path : list Z)
    (key : list Z) : RD header_world bool :=
  if bool_decide (key = text_metadata) then
    ok ← rd_js yvex_json_skip_value;
    if ok : bool then mret true else so_refuse YVEX_ERR_FORMAT "malformed metadata value"
  else _ ← safetensors_tensor heap key payload_bytes shard_path; mret true.

(** The text a [char *] denotes: the bytes before the first null byte. *)
Fixpoint c_text (bytes : list Z) : list Z :=
  match bytes with
  | [] => []
  | b :: bytes => if b =? 0 then [] else b :: c_text bytes
  end.

(** The header is read in the state [(reader, world)] of the shared loop. *)
Definition header_body (heap : nat -> allocator) (payload_bytes : Z) (shard_path : list Z)
    : RD header_world unit :=
  begun ← rd_js (yvex_json_iter_begin YVEX_JSON_COLLECTION_OBJECT);
  match begun with
  | None => so_refuse YVEX_ERR_FORMAT "unexpected JSON token"
  | Some iter =>
      s ← so_get;
      '(item, iter) ← json_members (S (length (js_rest s.1))) (header_member heap payload_bytes shard_path) iter;
      if match item with YVEX_JSON_ITEM_END => it_trailing_separator iter | _ => true end
      then so_refuse YVEX_ERR_FORMAT "malformed safetensors header" else
      if it_count iter =? 0 then so_refuse YVEX_ERR_FORMAT "empty safetensors header" else
      complete ← rd_js yvex_json_complete;
      if complete : bool then mret tt else so_refuse YVEX_ERR_FORMAT "trailing JSON bytes"
  end.

Definition safetensors_parse_header (heap : nat -> allocator) (json : list Z) (payload_bytes : Z)
    (shard_path : list Z) : NT unit :=
  fun t =>
    let '((_, w), r) := header_body heap payload_bytes shard_path
                          (yvex_json_init (c_text json), mk_hworld t 0) in
    (h_table w, r).

(** ** Files *)

(** [!file_opens]: the file cannot be opened or stated, or is not regular;
    the other fields say whether the stream and the two reads succeed. *)
Record header_file : Type := mk_header_file {
  file_opens : bool;
  file_streams : bool;
  file_length_read : bool;
  file_header_read : bool;
  file_bytes_of : list Z
}.

Record yvex_safetensors_file_facts : Type := mk_facts {
  fact_file_bytes : Z;
  fact_header_json_bytes : Z;
  fact_data_region_offset : Z;
  fact_payload_bytes : Z
}.

Definition st_le64 (b : list Z) : outcome Z :=
  bs ← mapO (read_at b) (zseq 8);
  Done (foldr (fun byte acc => Z.lor byte (Z.shiftl acc 8)) 0 bs).

(** [malformed_shard_count++; header_error_count++;] *)
Definition count_malformed (t : yvex_native_weight_table) : yvex_native_weight_table :=
  let s := nt_summary t in
  set_headers (nt_header_read_count t) (u64 (nt_header_error_count t + 1)) (nt_header_bytes t)
    (set_summary (mk_weight_summary (s_shard_count s) (s_tensor_count s) (s_total_tensor_bytes s)
       (s_unknown_dtype_count s) (u64 (s_malformed_shard_count s + 1))) t).

Definition malformed_header {A} (reason : string) : NT A :=
  _ ← so_modify count_malformed; so_refuse YVEX_ERR_FORMAT reason.

Definition SAFETENSORS_HEADER_LIMIT : Z := 64 * 1024 * 1024.

Definition safetensors_read_header (granted : bool) (heap : nat -> allocator) (file : header_file)
    (shard_path : list Z) (inspect_incomplete : bool) : NT yvex_safetensors_file_facts :=
  let file_size := zlen (file_bytes_of file) in
  if negb (file_opens file) || (file_size <? 8) then malformed_header "short safetensors file" else
  if negb (file_streams file) then so_refuse YVEX_ERR_IO "cannot open safetensors file" else
  if negb (file_length_read file) then malformed_header "cannot read safetensors header length" else
  header_len ← so_lift (st_le64 (take 8 (file_bytes_of file)));
  if (header_len =? 0) || (u64 (file_size - 8) <? header_len) || (SAFETENSORS_HEADER_LIMIT <? header_len)
  then malformed_header "invalid safetensors header length" else
  if negb granted then so_refuse YVEX_ERR_NOMEM "header allocation failed" else
  if negb (file_header_read file) then malformed_header "cannot read safetensors header" else
  _ ← so_modify (fun t => set_headers (u64 (nt_header_read_count t + 1)) (nt_header_error_count t)
                            (u64 (nt_header_bytes t + header_len)) t);
  let payload_bytes := u64 (file_size - 8 - header_len) in
  t ← so_get;
  match safetensors_parse_header heap (take (Z.to_nat header_len) (drop 8 (file_bytes_of file)))
          (if inspect_incomplete then UINT64_MAX else payload_bytes) shard_path t with
  | (t, Done _) =>
      _ ← so_put t; mret (mk_facts file_size header_len (8 + header_len) payload_bytes)
  | (t, Refuse status reason) => _ ← so_put (count_malformed t); so_refuse status reason
  | (t, Fault f) => _ ← so_put t; so_lift (Fault f)
  end.

Definition yvex_safetensors_read_header_file_with_facts (granted : bool) (heap : nat -> allocator)
    (file : header_file) (shard : list Z) : NT yvex_safetensors_file_facts :=
  safetensors_read_header granted heap file shard false.

Definition yvex_safetensors_read_header_file (granted : bool) (heap : nat -> allocator)
    (file : header_file) (shard_path : list Z) : NT unit :=
  _ ← yvex_safetensors_read_header_file_with_facts granted heap file shard_path; mret tt.

Inductive yvex_safetensors_extent : Type :=
  | YVEX_SAFETENSORS_EXTENT_VALID
  | YVEX_SAFETENSORS_EXTENT_TRUNCATED
  | YVEX_SAFETENSORS_EXTENT_INVALID_HEADER.

(** [alloc]: the table of the observation and the header buffer. *)
Definition yvex_safetensors_inspect_extent (alloc : allocator) (heap : nat -> allocator)
    (file : header_file) (path : list Z) : outcome yvex_safetensors_extent :=
  if negb (alloc 0%nat) then Refuse YVEX_ERR_NOMEM "header observation allocation failed" else
  match safetensors_read_header (alloc 1%nat) heap file path true table_zero with
  | (t, Done facts) =>
      Done (if existsb (fun row => fact_payload_bytes facts <? w_data_end row) (nt_items t)
            then YVEX_SAFETENSORS_EXTENT_TRUNCATED else YVEX_SAFETENSORS_EXTENT_VALID)
  | (_, Refuse status reason) =>
      if bool_decide (status = YVEX_ERR_FORMAT) || bool_decide (status = YVEX_ERR_BOUNDS)
      then Done YVEX_SAFETENSORS_EXTENT_INVALID_HEADER else Refuse status reason
  | (_, Fault f) => Fault f
  end.

Definition demo_file (header : string) (payload : nat) : header_file :=
  mk_header_file true true true true
    (le_bytes 8 (zlen (string_bytes header)) ++ string_bytes header ++ replicate payload 0).

Definition quoted (s : string) : string :=
  String.string_of_list_ascii ((fun c => if (byte_of_ascii c =? 39)%Z then ascii_of_byte 34 else c)
    <$> String.list_ascii_of_string s).

Definition demo_header : string :=
  quoted "{'__metadata__':{'k':'v'}, 'a':{'dtype':'F32','shape':[2, 3],'data_offsets':[0,24]} }".

Example safetensors_examples :
  let '(t, r) := safetensors_read_header true (fun _ _ => true) (demo_file demo_header 24) [] false table_zero in
  (exists facts, r = Done facts /\ fact_payload_bytes facts = 24)
  /\ nt_items t = [described (string_bytes "a") [] (string_bytes "F32") 2 [2; 3] 0 24]
  /\ yvex_safetensors_inspect_extent (fun _ => true) (fun _ _ => true) (demo_file demo_header 20) []
     = Done YVEX_SAFETENSORS_EXTENT_TRUNCATED.
Proof. vm_compute. split; [eexists; split; reflexivity|]. split; reflexivity. Qed.

(** * Theorems *)

Lemma rd_bind_run {W A B} (c : RD W A) (k : A -> RD W B) s :
  (c ≫= k) s = match c s with
               | (s', Done a) => k a s'
               | (s', Refuse st r) => (s', Refuse st r)
               | (s', Fault f) => (s', Fault f)
               end.
Proof. reflexivity. Qed.

Lemma so_bind_run {S A B} (c : SO S A) (k : A -> SO S B) s :
  (c ≫= k) s = match c s with
               | (s', Done a) => k a s'
               | (s', Refuse st r) => (s', Refuse st r)
               | (s', Fault f) => (s', Fault f)
               end.
Proof. reflexivity. Qed.

(** One step of a sequence. *)
Ltac run_bind := first [rewrite rd_bind_run | rewrite so_bind_run | rewrite nt_bind_run].

Lemma rd_bind_eq {W A B} (c : RD W A) (k : A -> RD W B) s s1 a :
  c s = (s1, Done a) -> (c ≫= k) s = k a s1.
Proof. rewrite rd_bind_run. by intros ->. Qed.

Lemma rd_js_run {W A} (c : JS A) (j : yvex_json) (w : W) j' a :
  c j = (j', Done a) -> rd_js c (j, w) = ((j', w), Done a).
Proof. unfold rd_js. cbn. by intros ->. Qed.

(** ** Member names *)

(** The text of a member's name and its colon, and the bytes the name denotes. *)
Definition named (d l : list Z) : Prop :=
  exists key w, l = key ++ w ++ [58] /\ jstring d key /\ zlen d < YVEX_JSON_KEY_CAP /\ ws w.

Definition read_key : JS (option (list Z)) :=
  key ← yvex_json_string (Some YVEX_JSON_KEY_CAP);
  match key with
  | None => mret None
  | Some key => _ ← yvex_json_space; colon ← js_accept 58; mret (if colon : bool then Some key else None)
  end.

Lemma key_sound j :
  exists j' r, read_key j = (j', Done r)
    /\ (forall d, r = Some d -> j' = set_rest (js_rest j') j
          /\ exists w v, js_rest j = w ++ v ++ js_rest j' /\ ws w /\ named d v).
Proof.
  destruct (string_total (Some YVEX_JSON_KEY_CAP) j) as (j1 & [key|] & E); unfold read_key;
    erewrite js_bind_eq by apply E; [|by exists j1, None].
  apply string_sound in E as (w & d & l & Ej & Hw & Hs & Ej1 & -> & Hcap).
  erewrite js_bind_eq by apply space_run. unfold mbind, so_bind. rewrite accept_run. cbn [js_rest set_rest].
  destruct (skip_while_split isspace (js_rest j1)) as (w1 & El & Hw1).
  destruct (skip_while isspace (js_rest j1)) as [|b rest]; [by eexists _, None|].
  destruct (b =? 58) eqn:Eb; eexists _, _; (split; [reflexivity|]); [|done]. intros d' [= <-].
  assert (b = 58) as -> by lia. cbn.
  split; [by rewrite Ej1|]. exists w, (l ++ w1 ++ [58]). rewrite Ej, El, <- !app_assoc. split; [done|].
  split; [done|]. by exists l, w1.
Qed.

Lemma key_complete j w v d rest :
  js_rest j = w ++ v ++ rest -> ws w -> named d v -> read_key j = (set_rest rest j, Done (Some d)).
Proof.
  intros E Hw (key & w1 & -> & Hs & Hcap & Hw1). unfold read_key. rewrite <- !app_assoc in E.
  erewrite js_bind_eq by (eapply (string_complete _ _ _ _ _ _ E Hw Hs)).
  replace (zlen d <? YVEX_JSON_KEY_CAP) with true by lia.
  erewrite js_bind_eq by (eapply (space_app _ w1 (58 :: rest)); [done|done|reflexivity]).
  unfold mbind, so_bind. by rewrite accept_run.
Qed.

Lemma named_starts d v : named d v -> starts v.
Proof. intros (key & w & -> & Hs%string_starts & _). by destruct key. Qed.

(** A member after the iterator's advance. *)
Lemma object_member_run iter j j1 item iter1 :
  json_iter_advance iter j = (j1, Done (item, iter1)) ->
  exists key, yvex_json_object_member iter YVEX_JSON_KEY_CAP j
  = match item with
    | YVEX_JSON_ITEM_READY =>
        let '(j2, r) := read_key j1 in
        (j2, match r with
             | Done (Some key) => Done (YVEX_JSON_ITEM_READY, iter1, key)
             | Done None => Done (YVEX_JSON_ITEM_ERROR, iter1, key)
             | Refuse st m => Refuse st m
             | Fault f => Fault f
             end)
    | _ => (j1, Done (item, iter1, []))
    end.
Proof.
  intros E. unfold yvex_json_object_member, read_key, mbind, so_bind. rewrite E.
  destruct item; [by exists []..|].
  destruct (yvex_json_string (Some YVEX_JSON_KEY_CAP) j1) as [j2 [[key|]|st m|f]]; [|by exists []..].
  exists key. rewrite space_run. cbn.
  destruct (accept_total 58 (set_rest (skip_while isspace (js_rest j2)) j2)) as (j3 & b & ->). by destruct b.
Qed.

(** ** The grammar of objects *)

Section objects.
Context {W : Type} (handler : list Z -> RD W bool).
(** [R key v w w']: the value of [key] is the text [v] (with the whitespace before
    it), and reading it changes the world from [w] to [w']. *)
Context (R : list Z -> list Z -> W -> W -> Prop) (I : W -> Prop) (depth extensions : Z).

(** The text of an object after its opening brace or after a member: whether a
    trailing separator ends it, its number of members, and its effect. *)
Inductive jmembers : bool -> bool -> Z -> list Z -> W -> W -> Prop :=
  | jm_end first p w : ws p -> jmembers first false 0 (p ++ [125]) w w
  | jm_trailing p p' w : ws p -> ws p' -> jmembers false true 0 (p ++ 44 :: p' ++ [125]) w w
  | jm_first p name key v t trailing n w1 w2 w3 :
      ws p -> named key name -> R key v w1 w2 -> jmembers false trailing n t w2 w3 ->
      jmembers true trailing (n + 1) (p ++ name ++ v ++ t) w1 w3
  | jm_next p p' name key v t trailing n w1 w2 w3 :
      ws p -> ws p' -> named key name -> R key v w1 w2 -> jmembers false trailing n t w2 w3 ->
      jmembers false trailing (n + 1) (p ++ 44 :: p' ++ name ++ v ++ t) w1 w3.

(** What the loop needs of the handler of its members. *)
Record handles : Prop := {
  hd_sound : forall key j w, at_level depth extensions j -> I w ->
    exists j' w' r, handler key (j, w) = ((j', w'), r) /\ no_fault r /\ I w'
      /\ (r = Done true -> j' = set_rest (js_rest j') j
            /\ exists v, js_rest j = v ++ js_rest j' /\ R key v w w');
  hd_complete : forall key j v rest w w', at_level depth extensions j -> I w ->
    js_rest j = v ++ rest -> R key v w w' -> stops rest ->
    handler key (j, w) = ((set_rest rest j, w'), Done true)
}.

Lemma jmembers_stops trailing n t w w' rest : jmembers false trailing n t w w' -> stops (t ++ rest).
Proof.
  intros H. inversion H as [? p ? Hp|p p' ? Hp|?|p p' name key v t' ? ? ? ? ? Hp]; subst; rewrite <- app_assoc;
    (destruct Hp as [|b p Hb _]; cbn; unfold stop_byte; [reflexivity|by rewrite Hb]).
Qed.
End objects.

Section object_loop.
Context {W : Type} (handler : list Z -> RD W bool) (R : list Z -> list Z -> W -> W -> Prop).
Context (I : W -> Prop) (depth extensions : Z).
Context (H : handles handler R I depth extensions).

(** What a run of the loop from [iter] guarantees. *)
Definition loop_sound (iter : yvex_json_iter) (j : yvex_json) (w : W)
    (out : yvex_json * W * outcome (yvex_json_item * yvex_json_iter)) : Prop :=
  let '((j', w'), r) := out in
  no_fault r /\ I w'
  /\ forall iter', r = Done (YVEX_JSON_ITEM_END, iter') -> j' = set_rest (js_rest j') j
      /\ exists t n, js_rest j = t ++ js_rest j' /\ it_count iter' = it_count iter + n
          /\ jmembers R (it_count iter =? 0) (it_trailing_separator iter') n t w w'.

(** One member, at the text [l], and the rest of the loop. *)
Lemma member_step fuel iter j l n w :
  iterating 125 iter n -> zlen l <= n -> (length l <= fuel)%nat ->
  at_level depth extensions (set_rest l j) -> I w ->
  (forall iter j w, iterating 125 iter (zlen (js_rest j)) -> (length (js_rest j) < fuel)%nat ->
     at_level depth extensions j -> I w -> loop_sound iter j w (json_members fuel handler iter (j, w))) ->
  forall j1 key, read_key (set_rest l j) = (j1, Done (Some key)) ->
  let '((j', w'), r) := (handler key ≫= (fun ok : bool =>
      if ok then json_members fuel handler (iter_ready iter) else mret (YVEX_JSON_ITEM_READY, iter_ready iter)))
      (j1, w) in
  no_fault r /\ I w'
  /\ forall iter', r = Done (YVEX_JSON_ITEM_END, iter') -> j' = set_rest (js_rest j') j
      /\ exists p name key v t m w2, l = p ++ name ++ v ++ t ++ js_rest j' /\ ws p /\ named key name
          /\ R key v w w2 /\ jmembers R false (it_trailing_separator iter') m t w2 w'
          /\ it_count iter' = it_count iter + (m + 1).
Proof using H.
  intros Hi Hn Hf Hl HI IH j1 key Ek.
  destruct (key_sound (set_rest l j)) as (j1' & r & E & Hk). rewrite Ek in E. simplify_eq.
  destruct (Hk key eq_refl) as (Ej1 & p & name & El & Hp & Hname). cbn in El.
  pose proof (starts_length name (named_starts _ _ Hname)) as Hlen.
  assert (zlen l = zlen p + zlen name + zlen (js_rest j1')) as Hl1 by (rewrite El, !zlen_app; lia).
  pose proof (zlen_nonneg p). pose proof (zlen_nonneg (js_rest j1')).
  assert (at_level depth extensions j1') as Hl1' by (rewrite Ej1; apply at_level_shorter; [done|cbn; lia]).
  destruct (hd_sound _ _ _ _ _ H key j1' w Hl1' HI) as (j2 & w2 & r2 & E2 & Hnf & HI2 & Hr2).
  rewrite rd_bind_run, E2. destruct r2 as [[|]|st m|f]; [|done..].
  destruct (Hr2 eq_refl) as (Ej2 & v & Ev & HR).
  assert (zlen (js_rest j1') = zlen v + zlen (js_rest j2)) as Hl2 by (by rewrite Ev, zlen_app).
  pose proof (zlen_nonneg v). pose proof (zlen_nonneg (js_rest j2)).
  destruct (iterating_ready 125 iter n (zlen (js_rest j2)) Hi ltac:(lia)) as (Hi1 & Hc).
  assert (at_level depth extensions j2) as Hl2' by (rewrite Ej2; apply at_level_shorter; [done|lia]).
  pose proof (IH (iter_ready iter) j2 w2 Hi1 ltac:(unfold zlen in *; lia) Hl2' HI2) as L.
  destruct (json_members fuel handler (iter_ready iter) (j2, w2)) as [[j' w'] r'].
  destruct L as (L1 & L2 & L3). split; [done|]. split; [done|]. intros iter' ->.
  destruct (L3 iter' eq_refl) as (Ej' & t & m & Et & Ecount & Ht). rewrite Hc in Ht.
  split; [by rewrite Ej', Ej2, Ej1|]. exists p, name, key, v, t, m, w2.
  rewrite El, Ev, Et. split; [done|]. split; [done|]. split; [done|]. split; [done|]. split; [done|].
  rewrite Ecount. destruct Hi as (_ & _ & _ & Hcn & Hlt). rewrite (ready_count iter n) by lia. lia.
Qed.

(** The loop when the iterator stands before a member at [l]. *)
Lemma members_ready fuel iter j l n w :
  iterating 125 iter n -> zlen l <= n -> (length l <= fuel)%nat ->
  at_level depth extensions (set_rest l j) -> I w ->
  json_iter_advance iter j = (set_rest l j, Done (YVEX_JSON_ITEM_READY, iter_ready iter)) ->
  (forall iter j w, iterating 125 iter (zlen (js_rest j)) -> (length (js_rest j) < fuel)%nat ->
     at_level depth extensions j -> I w -> loop_sound iter j w (json_members fuel handler iter (j, w))) ->
  let '((j', w'), r) := json_members (S fuel) handler iter (j, w) in
  no_fault r /\ I w'
  /\ forall iter', r = Done (YVEX_JSON_ITEM_END, iter') -> j' = set_rest (js_rest j') j
      /\ exists p name key v t m w2, l = p ++ name ++ v ++ t ++ js_rest j' /\ ws p /\ named key name
          /\ R key v w w2 /\ jmembers R false (it_trailing_separator iter') m t w2 w'
          /\ it_count iter' = it_count iter + (m + 1).
Proof using H.
  intros Hi Hn Hf Hl HI A IH. cbn [json_members].
  destruct (object_member_run _ _ _ _ _ A) as (bad & O).
  destruct (key_sound (set_rest l j)) as (j1 & r & E & _). rewrite E in O. destruct r as [key|].
  - erewrite rd_bind_eq by (apply rd_js_run; exact O). cbn.
    exact (member_step fuel iter j l n w Hi Hn Hf Hl HI IH j1 key E).
  - erewrite rd_bind_eq by (apply rd_js_run; exact O). cbn. split; [done|]. split; [done|]. done.
Qed.

Lemma members_sound fuel iter j w :
  iterating 125 iter (zlen (js_rest j)) -> (length (js_rest j) < fuel)%nat ->
  at_level depth extensions j -> I w ->
  loop_sound iter j w (json_members fuel handler iter (j, w)).
Proof using H.
  revert iter j w. induction fuel as [|fuel IH]; intros iter j w Hi Hf Hl HI; [lia|].
  pose proof Hi as (Hc & Hcomp & Htr & _). pose proof (advance_run iter j Hcomp) as A. rewrite Hc in A.
  destruct (skip_while_split isspace (js_rest j)) as (p & Ej & Hp).
  assert (forall j1 item iter1, json_iter_advance iter j = (j1, Done (item, iter1)) ->
    item <> YVEX_JSON_ITEM_READY ->
    json_members (S fuel) handler iter (j, w) = ((j1, w), Done (item, iter1))) as Hstop.
  { intros j1 item iter1 E Hitem. cbn [json_members]. destruct (object_member_run _ _ _ _ _ E) as (bad & O).
    destruct item; [..|done]; by erewrite rd_bind_eq by (apply rd_js_run; exact O). }
  destruct (skip_while isspace (js_rest j)) as [|b l].
  { rewrite (Hstop _ _ _ A) by done. by split. }
  assert (zlen (js_rest j) = zlen p + zlen l + 1) as Hlen by (rewrite Ej, zlen_app, zlen_cons; lia).
  pose proof (zlen_nonneg p). pose proof (zlen_nonneg l).
  destruct (b =? 125) eqn:Eb.
  { rewrite (Hstop _ _ _ A) by done. split; [done|]. split; [done|]. intros iter' [= <-].
    split; [done|]. exists (p ++ [b]), 0. cbn. rewrite <- app_assoc, Htr. split; [done|]. split; [lia|].
    assert (b = 125) as -> by lia. by constructor. }
  destruct (it_count iter =? 0) eqn:E0.
  - pose proof (members_ready fuel iter j (b :: l) (zlen (js_rest j)) w Hi) as M.
    specialize (M ltac:(rewrite zlen_cons; lia) ltac:(unfold zlen in *; cbn; lia)).
    specialize (M ltac:(apply at_level_shorter; [done|rewrite zlen_cons; lia]) HI A IH).
    destruct (json_members (S fuel) handler iter (j, w)) as [[j' w'] r]. destruct M as (M1 & M2 & M3).
    split; [done|]. split; [done|]. intros iter' ->.
    destruct (M3 iter' eq_refl) as (Ej' & p' & name & key & v & t & m & w2 & El & Hp' & Hname & HR & Ht & Ecount).
    split; [done|]. exists ((p ++ p') ++ name ++ v ++ t), (m + 1). rewrite Ej, El, <- !app_assoc.
    split; [done|]. split; [done|]. rewrite E0, app_assoc. econstructor; [by apply ws_app|done..].
  - destruct (b =? 44) eqn:E44; cbn [negb] in A; [|rewrite (Hstop _ _ _ A) by done; by split].
    assert (b = 44) as -> by lia.
    destruct (skip_while_split isspace l) as (p1 & El & Hp1).
    destruct (skip_while isspace l) as [|b' l'].
    { rewrite (Hstop _ _ _ A) by done. by split. }
    assert (zlen l = zlen p1 + zlen l' + 1) as Hlen1 by (rewrite El, zlen_app, zlen_cons; lia).
    pose proof (zlen_nonneg p1). pose proof (zlen_nonneg l').
    destruct (b' =? 125) eqn:Eb'.
    { rewrite (Hstop _ _ _ A) by done. split; [done|]. split; [done|]. intros iter' [= <-].
      split; [done|]. exists (p ++ 44 :: p1 ++ [b']), 0. cbn. rewrite orb_true_r, E0. split.
      { rewrite Ej, El, <- app_assoc. cbn. by rewrite <- app_assoc. }
      split; [lia|]. assert (b' = 125) as -> by lia. by constructor. }
    pose proof (members_ready fuel iter j (b' :: l') (zlen (js_rest j)) w Hi) as M.
    specialize (M ltac:(rewrite zlen_cons; lia) ltac:(unfold zlen in *; cbn; lia)).
    specialize (M ltac:(apply at_level_shorter; [done|rewrite zlen_cons; lia]) HI A IH).
    destruct (json_members (S fuel) handler iter (j, w)) as [[j' w'] r]. destruct M as (M1 & M2 & M3).
    split; [done|]. split; [done|]. intros iter' ->.
    destruct (M3 iter' eq_refl) as (Ej' & p' & name & key & v & t & m & w2 & El' & Hp' & Hname & HR & Ht & Ecount).
    split; [done|]. exists (p ++ 44 :: (p1 ++ p') ++ name ++ v ++ t), (m + 1).
    rewrite Ej, El, El', <- !app_assoc. cbn. rewrite <- !app_assoc.
    split; [done|]. split; [done|]. rewrite E0, (app_assoc p1). econstructor; [done|by apply ws_app|done..].
Qed.

(** A member of the grammar at [name ++ v ++ t ++ rest]. *)
Lemma member_take fuel iter j n l name key v trailing m t rest w1 w2 w3 :
  iterating 125 iter n -> zlen l <= n -> (length l <= fuel)%nat -> l = name ++ v ++ t ++ rest ->
  at_level depth extensions (set_rest l j) -> I w1 -> named key name -> R key v w1 w2 ->
  jmembers R false trailing m t w2 w3 ->
  json_iter_advance iter j = (set_rest l j, Done (YVEX_JSON_ITEM_READY, iter_ready iter)) ->
  (forall iter j rest, iterating 125 iter (zlen (js_rest j)) -> (length (js_rest j) < fuel)%nat ->
    at_level depth extensions j -> I w2 -> (it_count iter =? 0) = false -> js_rest j = t ++ rest ->
    json_members fuel handler iter (j, w2)
    = ((set_rest rest j, w3), Done (YVEX_JSON_ITEM_END, mk_iter (it_count iter + m) 125 true trailing))) ->
  json_members (S fuel) handler iter (j, w1)
  = ((set_rest rest j, w3), Done (YVEX_JSON_ITEM_END, mk_iter (it_count iter + (m + 1)) 125 true trailing)).
Proof using H.
  intros Hi Hn Hf El Hl HI Hname HR Ht A IH. cbn [json_members].
  destruct (object_member_run _ _ _ _ _ A) as (bad & O).
  rewrite (key_complete (set_rest l j) [] name key (v ++ t ++ rest)) in O; [|done|constructor|done].
  erewrite rd_bind_eq by (apply rd_js_run; exact O). cbn [negb].
  pose proof (starts_length name (named_starts _ _ Hname)) as Hlen.
  assert (zlen l = zlen name + zlen v + zlen (t ++ rest)) as Hl1 by (rewrite El, !zlen_app; lia).
  pose proof (zlen_nonneg v). pose proof (zlen_nonneg (t ++ rest)).
  assert (at_level depth extensions (set_rest (v ++ t ++ rest) (set_rest l j))) as Hl2.
  { apply at_level_shorter; [done|]. cbn. rewrite El, (zlen_app name). lia. }
  pose proof (hd_complete _ _ _ _ _ H key (set_rest (v ++ t ++ rest) (set_rest l j)) v (t ++ rest) w1 w2
    Hl2 HI eq_refl HR (jmembers_stops _ _ _ _ _ _ rest Ht)) as Hh.
  erewrite rd_bind_eq by exact Hh. cbn iota.
  destruct (hd_sound _ _ _ _ _ H key _ w1 Hl2 HI) as (? & ? & ? & Hs & _ & HI2 & _). rewrite Hh in Hs.
  simplify_eq. destruct (iterating_ready 125 iter n (zlen (t ++ rest)) Hi ltac:(lia)) as (Hi1 & Hc).
  rewrite set_set_rest. rewrite (IH (iter_ready iter) _ rest); [|done| |  |done|done|done].
  - destruct Hi as (_ & _ & _ & Hcn & Hlt). rewrite (ready_count iter n) by lia.
    rewrite !set_set_rest. by replace (it_count iter + 1 + m) with (it_count iter + (m + 1)) by lia.
  - cbn. unfold zlen in *. lia.
  - rewrite !set_set_rest. destruct Hl as (? & ? & ?). repeat split; [done|done|]. cbn in *. lia.
Qed.

Lemma members_complete first trailing m t w w' :
  jmembers R first trailing m t w w' ->
  forall fuel iter j rest, iterating 125 iter (zlen (js_rest j)) -> (length (js_rest j) < fuel)%nat ->
    at_level depth extensions j -> I w -> (it_count iter =? 0) = first -> js_rest j = t ++ rest ->
    json_members fuel handler iter (j, w)
    = ((set_rest rest j, w'), Done (YVEX_JSON_ITEM_END, mk_iter (it_count iter + m) 125 true trailing)).
Proof using H.
  assert (forall fuel iter j w j1 iter1, json_iter_advance iter j = (j1, Done (YVEX_JSON_ITEM_END, iter1)) ->
    json_members (S fuel) handler iter (j, w) = ((j1, w), Done (YVEX_JSON_ITEM_END, iter1))) as Hstop.
  { intros fuel iter j w0 j1 iter1 E. cbn [json_members]. destruct (object_member_run _ _ _ _ _ E) as (bad & O).
    by erewrite rd_bind_eq by (apply rd_js_run; exact O). }
  induction 1 as [first p w Hp|p p' w Hp Hp'|p name key v t trailing m w1 w2 w3 Hp Hname HR Ht IH
                 |p p' name key v t trailing m w1 w2 w3 Hp Hp' Hname HR Ht IH];
    intros [|fuel] iter j rest Hi Hf Hl HI Hfirst Ej; try lia;
    pose proof Hi as (Hc & Hcomp & Htr & _); pose proof (advance_run iter j Hcomp) as A;
    rewrite Hc in A; rewrite Ej, <- app_assoc in A; cbn [app] in A.
  - rewrite skip_while_app in A by done. rewrite Z.eqb_refl in A. rewrite (Hstop _ _ _ _ _ _ A).
    unfold iter_close. by rewrite Hc, Htr, Z.add_0_r.
  - rewrite skip_while_app in A by done. rewrite Hfirst in A. cbn [Z.eqb negb Pos.eqb] in A.
    rewrite <- app_assoc, skip_while_app in A by done. cbn [app Z.eqb Pos.eqb] in A.
    rewrite (Hstop _ _ _ _ _ _ A). unfold iter_close. by rewrite Hc, orb_true_r, Z.add_0_r.
  - pose proof (named_starts _ _ Hname) as Hs. rewrite <- !app_assoc in A.
    rewrite skip_while_app in A by (try done; by apply starts_ends_space).
    pose proof (zlen_nonneg p).
    assert (zlen (js_rest j) = zlen p + zlen (name ++ v ++ t ++ rest)) as Hlen.
    { by rewrite Ej, <- !app_assoc, zlen_app. }
    destruct name as [|b name]; [done|]. cbn [app] in A, Hlen. cbn in Hs. unfold start_byte in Hs.
    replace (b =? 125) with false in A by lia. rewrite Hfirst in A.
    eapply (member_take fuel iter j (zlen (js_rest j)) (b :: name ++ v ++ t ++ rest) (b :: name));
      try done; [lia|unfold zlen in *; cbn in *; lia|apply at_level_shorter; [done|cbn in *; lia]|eauto].
  - pose proof (named_starts _ _ Hname) as Hs.
    rewrite skip_while_app in A by done. rewrite Hfirst in A. cbn [Z.eqb negb Pos.eqb] in A.
    rewrite <- !app_assoc in A. rewrite skip_while_app in A by (try done; by apply starts_ends_space).
    pose proof (zlen_nonneg p). pose proof (zlen_nonneg p').
    assert (zlen (js_rest j) = zlen p + 1 + zlen p' + zlen (name ++ v ++ t ++ rest)) as Hlen.
    { rewrite Ej. repeat first [rewrite zlen_app | rewrite zlen_cons]. lia. }
    destruct name as [|b name]; [done|]. cbn [app] in A, Hlen. cbn in Hs. unfold start_byte in Hs.
    replace (b =? 125) with false in A by lia.
    eapply (member_take fuel iter j (zlen (js_rest j)) (b :: name ++ v ++ t ++ rest) (b :: name));
      try done; [lia|unfold zlen in *; cbn in *; lia|apply at_level_shorter; [done|cbn in *; lia]|eauto].
Qed.

End object_loop.

(** ** Numbers, shapes and offsets *)

Lemma stops_ends b : stop_byte b = true -> isdigit b = false.
Proof. unfold stop_byte, isspace, isdigit. lia. Qed.

Definition u64_text (v : Z) (l : list Z) : Prop :=
  exists w ds, l = w ++ ds /\ ws w /\ digits ds /\ digits_value 0 ds = v /\ v < 2 ^ 64.

Lemma digits_ends_space ds rest : digits ds -> ends isspace (ds ++ rest).
Proof. intros (b & l & -> & Hb)%digits_head. cbn. unfold isdigit in Hb. unfold isspace. lia. Qed.

Lemma u64_sound j :
  exists j' r, yvex_json_u64 j = (j', Done r)
    /\ (forall v, r = Some v -> j' = set_rest (js_rest j') j
          /\ exists l, js_rest j = l ++ js_rest j' /\ u64_text v l).
Proof.
  destruct (skip_while_split isspace (js_rest j)) as (w & Ej & Hw).
  set (rest := skip_while isspace (js_rest j)) in *.
  assert (ends isspace rest) as Hs by apply skip_while_ends.
  destruct (skip_while_split isdigit rest) as (ds & Er & Hds).
  assert (ends isdigit (skip_while isdigit rest)) as He by apply skip_while_ends.
  set (rest' := skip_while isdigit rest) in *. rewrite Er in Ej, Hs.
  pose proof (json_u64_exact j w ds rest' Ej Hw Hds He Hs) as H.
  destruct (bool_decide (ds <> []) && (digits_value 0 ds <? 2 ^ 64)) eqn:E.
  - rewrite H. eexists _, _. split; [reflexivity|]. intros v [= <-]. split; [done|].
    apply andb_true_iff in E as [En%bool_decide_eq_true Ev]. exists (w ++ ds). cbn.
    rewrite <- app_assoc. split; [done|]. exists w, ds. split; [done|]. split; [done|]. split; [done|].
    split; [done|lia].
  - destruct H as (j' & ->). by exists j', None.
Qed.

Lemma u64_complete j v l rest :
  js_rest j = l ++ rest -> u64_text v l -> ends isdigit rest ->
  yvex_json_u64 j = (set_rest rest j, Done (Some v)).
Proof.
  intros E (w & ds & -> & Hw & Hd & <- & Hv) He. rewrite <- app_assoc in E.
  pose proof (json_u64_exact j w ds rest E Hw (proj2 Hd) He (digits_ends_space _ _ Hd)) as H.
  rewrite bool_decide_eq_true_2 in H by apply Hd. by replace (digits_value 0 ds <? 2 ^ 64) with true in H by lia.
Qed.

Lemma u64_text_range v l : u64_text v l -> is_u64 v.
Proof.
  intros (w & ds & _ & _ & Hd & <- & Hv). pose proof (digits_value_mono 0 ds ltac:(lia) (proj2 Hd)).
  unfold is_u64. lia.
Qed.

Lemma expect_run token j :
  safetensors_json_expect token j
  = match skip_while isspace (js_rest j) with
    | b :: rest => if b =? token then (set_rest rest j, Done true) else (set_rest (b :: rest) j, Done false)
    | [] => (set_rest [] j, Done false)
    end.
Proof.
  unfold safetensors_json_expect. erewrite js_bind_eq by apply space_run.
  erewrite js_bind_eq by apply js_at_run. cbn [js_rest set_rest].
  destruct (skip_while isspace (js_rest j)) as [|b rest]; [done|]. cbn. destruct (b =? token); [|done].
  erewrite js_bind_eq by by apply next_run. done.
Qed.

Lemma expect_sound token j :
  exists j' b, safetensors_json_expect token j = (j', Done b)
    /\ (b = true -> j' = set_rest (js_rest j') j /\ exists w, js_rest j = w ++ token :: js_rest j' /\ ws w).
Proof.
  rewrite expect_run. destruct (skip_while_split isspace (js_rest j)) as (w & Ej & Hw).
  destruct (skip_while isspace (js_rest j)) as [|b rest]; [by eexists _, false|].
  destruct (b =? token) eqn:E; [|by eexists _, false]. eexists _, true. split; [reflexivity|].
  intros _. split; [done|]. exists w. cbn. assert (b = token) as <- by lia. done.
Qed.

Lemma expect_complete token j w rest :
  isspace token = false -> js_rest j = w ++ token :: rest -> ws w ->
  safetensors_json_expect token j = (set_rest rest j, Done true).
Proof. intros Ht E Hw. rewrite expect_run, E, skip_while_app by done. by rewrite Z.eqb_refl. Qed.

(** At most [n] extents and the closing bracket. *)
Inductive shape_items : nat -> list Z -> list Z -> Prop :=
  | si_last n v l w : u64_text v l -> ws w -> shape_items (S n) [v] (l ++ w ++ [93])
  | si_more n v l w dims t : u64_text v l -> ws w -> shape_items n dims t ->
      shape_items (S n) (v :: dims) (l ++ w ++ 44 :: t).

Definition shape_text (dims l : list Z) : Prop :=
  exists w t, l = w ++ 91 :: t /\ ws w
    /\ ((dims = [] /\ exists w', t = w' ++ [93] /\ ws w') \/ shape_items 8 dims t).

Definition offsets_text (start stop : Z) (l : list Z) : Prop :=
  exists w la wa lb wb, l = w ++ 91 :: la ++ wa ++ 44 :: lb ++ wb ++ [93]
    /\ ws w /\ u64_text start la /\ ws wa /\ u64_text stop lb /\ ws wb /\ start <= stop.

Lemma ws_then_ends w b rest : ws w -> isdigit b = false -> ends isdigit (w ++ b :: rest).
Proof.
  intros Hw Hb. destruct Hw as [|x w Hx _]; [done|]. cbn. unfold isspace in Hx. unfold isdigit. lia.
Qed.

Lemma shape_loop_sound n dims j :
  exists j' r, shape_loop n dims j = (j', Done r)
    /\ (forall ds, r = Some ds -> j' = set_rest (js_rest j') j
          /\ exists t ds', js_rest j = t ++ js_rest j' /\ ds = dims ++ ds' /\ shape_items n ds' t).
Proof.
  revert dims j. induction n as [|n IH]; intros dims j; cbn [shape_loop]; [by exists j, None|].
  destruct (u64_sound j) as (j1 & r & E & Hr). erewrite js_bind_eq by apply E.
  destruct r as [v|]; [|by exists j1, None]. destruct (Hr v eq_refl) as (Ej1 & l & El & Hv).
  erewrite js_bind_eq by apply space_run. erewrite js_bind_eq by reflexivity. cbn [js_rest set_rest].
  destruct (skip_while_split isspace (js_rest j1)) as (w & Ew & Hw).
  destruct (skip_while isspace (js_rest j1)) as [|b rest]; [by eexists _, None|].
  erewrite js_bind_eq by reflexivity. cbn beta. destruct (b =? 93) eqn:E93.
  { eexists _, _. split; [reflexivity|]. intros ds [= <-]. split; [by rewrite Ej1|].
    exists (l ++ w ++ [93]), [v]. cbn. rewrite El, Ew, <- !app_assoc. cbn.
    split; [do 3 f_equal; lia|]. split; [done|]. by constructor. }
  destruct (b =? 44) eqn:E44; cbn [negb]; [|by eexists _, None].
  destruct (IH (dims ++ [v]) (set_rest rest (set_rest (b :: rest) j1))) as (j2 & r & E2 & H2).
  exists j2, r. split; [exact E2|]. intros ds ->. destruct (H2 ds eq_refl) as (Ej2 & t & ds' & Et & -> & Ht).
  split; [by rewrite Ej2, Ej1|]. cbn in Et. exists (l ++ w ++ 44 :: t), (v :: ds').
  rewrite El, Ew, Et, <- !app_assoc. cbn. split; [|split; [done|by constructor]].
  by assert (b = 44) as -> by lia.
Qed.

Lemma shape_loop_complete n ds t :
  shape_items n ds t -> forall dims j rest, js_rest j = t ++ rest ->
  shape_loop n dims j = (set_rest rest j, Done (Some (dims ++ ds))).
Proof.
  induction 1 as [n v l w Hv Hw|n v l w ds t Hv Hw _ IH]; intros dims j rest E; cbn [shape_loop];
    rewrite <- !app_assoc in E; cbn [app] in E.
  - erewrite js_bind_eq by (eapply u64_complete; [exact E|done|by apply ws_then_ends]). cbn iota beta.
    erewrite js_bind_eq by (eapply (space_app _ w (93 :: rest)); [done|done|reflexivity]).
    erewrite js_bind_eq by reflexivity. done.
  - erewrite js_bind_eq by (eapply u64_complete; [exact E|done|by apply ws_then_ends]). cbn iota beta.
    erewrite js_bind_eq by (eapply (space_app _ w (44 :: t ++ rest)); [done|done|reflexivity]).
    erewrite js_bind_eq by reflexivity. cbn [js_rest set_rest]. erewrite js_bind_eq by reflexivity. cbn beta iota.
    change (44 =? 93) with false. change (negb (44 =? 44)) with false. cbn iota.
    rewrite (IH (dims ++ [v]) _ rest) by done. by rewrite <- app_assoc.
Qed.

Lemma shape_items_facts n ds t :
  shape_items n ds t -> (length ds <= n)%nat /\ Forall is_u64 ds
    /\ exists b t', t = b :: t' /\ (isspace b = true \/ isdigit b = true).
Proof.
  assert (forall v l r, u64_text v l -> exists b t', l ++ r = b :: t' /\ (isspace b = true \/ isdigit b = true))
    as Hh.
  { intros v l r (w & ds' & -> & Hw & Hd & _). destruct Hw as [|b w Hb _]; [|cbn; eauto].
    destruct (digits_head _ Hd) as (b & l & -> & Hb). cbn. eauto. }
  induction 1 as [n v l w Hv Hw|n v l w ds t Hv Hw _ (IH1 & IH2 & _)].
  - cbn. split; [lia|]. split; [|by eapply Hh]. apply Forall_singleton. by eapply u64_text_range.
  - cbn. split; [lia|]. split; [|by eapply Hh]. apply Forall_cons. split; [by eapply u64_text_range|done].
Qed.

Lemma shape_text_facts dims l : shape_text dims l -> zlen dims <= 8 /\ Forall is_u64 dims.
Proof.
  intros (w & t & _ & _ & [(-> & _)|H%shape_items_facts]).
  - split; [done|]. apply Forall_nil_2.
  - unfold zlen. destruct H as (? & ? & _). split; [lia|done].
Qed.

(** Whitespace before an item belongs to its number. *)
Lemma u64_text_space v l w : ws w -> u64_text v l -> u64_text v (w ++ l).
Proof.
  intros Hw (w' & ds & -> & Hw' & H). exists (w ++ w'), ds. rewrite app_assoc. split; [done|].
  split; [by apply ws_app|done].
Qed.

Lemma shape_items_space n ds t w : ws w -> shape_items n ds t -> shape_items n ds (w ++ t).
Proof.
  intros Hw [n' v l w' Hv Hw'|n' v l w' ds' t' Hv Hw' Ht]; rewrite app_assoc; constructor;
    (done || by apply u64_text_space).
Qed.

Lemma shape_items_trim n ds t :
  shape_items n ds t -> exists w b t', t = w ++ b :: t' /\ ws w /\ isdigit b = true /\ shape_items n ds (b :: t').
Proof.
  assert (forall v l, u64_text v l -> exists w b l', l = w ++ b :: l' /\ ws w /\ isdigit b = true
    /\ u64_text v (b :: l')) as Hh.
  { intros v l (w & ds' & -> & Hw & Hd & Hv). destruct (digits_head _ Hd) as (b & l & -> & Hb).
    exists w, b, l. split; [done|]. split; [done|]. split; [done|]. exists [], (b :: l).
    split; [done|]. split; [apply Forall_nil_2|done]. }
  intros [n' v l w' (w & b & l' & -> & Hw & Hb & Hv)%Hh Hw'|n' v l w' ds' t' (w & b & l' & -> & Hw & Hb & Hv)%Hh Hw' Ht];
    [exists w, b, (l' ++ w' ++ [93])|exists w, b, (l' ++ w' ++ 44 :: t')];
    rewrite <- app_assoc; (split; [done|]); (split; [done|]); (split; [done|]);
    [exact (si_last n' v (b :: l') w' Hv Hw')|exact (si_more n' v (b :: l') w' ds' t' Hv Hw' Ht)].
Qed.

Lemma shape_sound j :
  exists j' r, safetensors_shape j = (j', Done r)
    /\ (forall dims, r = Some dims -> j' = set_rest (js_rest j') j
          /\ exists l, js_rest j = l ++ js_rest j' /\ shape_text dims l).
Proof.
  unfold safetensors_shape. destruct (expect_sound 91 j) as (j1 & b & E & Hb).
  erewrite js_bind_eq by apply E. destruct b; cbn [negb]; [|by exists j1, None].
  destruct (Hb eq_refl) as (Ej1 & w & Ej & Hw).
  erewrite js_bind_eq by apply space_run. erewrite js_bind_eq by apply js_at_run. cbn [js_rest set_rest].
  destruct (skip_while_split isspace (js_rest j1)) as (w1 & Ew & Hw1).
  destruct (next_is 93 (skip_while isspace (js_rest j1))) eqn:E93.
  - destruct (skip_while isspace (js_rest j1)) as [|c rest]; [done|]. cbn in E93.
    erewrite js_bind_eq by by apply next_run. eexists _, _. split; [reflexivity|]. intros dims [= <-].
    split; [by rewrite Ej1|]. exists (w ++ 91 :: w1 ++ [93]). cbn. rewrite Ej, Ew, <- app_assoc. cbn.
    rewrite <- app_assoc. assert (c = 93) as -> by lia. split; [done|]. exists w, (w1 ++ [93]). split; [done|]. split; [done|].
    left. split; [done|]. eauto.
  - destruct (shape_loop_sound 8 [] (set_rest (skip_while isspace (js_rest j1)) j1)) as (j2 & r & E2 & H2).
    exists j2, r. split; [exact E2|]. intros dims ->. destruct (H2 dims eq_refl) as (Ej2 & t & ds & Et & -> & Ht).
    split; [by rewrite Ej2, Ej1|]. cbn in Et. exists (w ++ 91 :: w1 ++ t).
    rewrite Ej, Ew, Et, <- app_assoc. cbn. rewrite <- app_assoc. split; [done|].
    exists w, (w1 ++ t). split; [done|]. split; [done|]. right. by apply shape_items_space.
Qed.

Lemma shape_complete j dims l rest :
  js_rest j = l ++ rest -> shape_text dims l -> safetensors_shape j = (set_rest rest j, Done (Some dims)).
Proof.
  intros E (w & t & -> & Hw & Ht). rewrite <- app_assoc in E. cbn [app] in E. unfold safetensors_shape.
  erewrite js_bind_eq by (eapply expect_complete; [reflexivity|exact E|done]). cbn [negb].
  destruct Ht as [(-> & w' & -> & Hw')|Ht].
  - rewrite <- app_assoc in *. cbn [app] in *.
    erewrite js_bind_eq by (eapply (space_app _ w' (93 :: rest)); [done|done|reflexivity]).
    erewrite js_bind_eq by apply js_at_run. cbn. erewrite js_bind_eq by by apply next_run. done.
  - destruct (shape_items_trim _ _ _ Ht) as (w' & b & t' & -> & Hw' & Hb & Ht').
    rewrite <- app_assoc in *. cbn [app] in *.
    erewrite js_bind_eq by (eapply (space_app _ w' (b :: t' ++ rest)); [done|done|]; cbn;
      unfold isdigit in Hb; unfold isspace; lia).
    erewrite js_bind_eq by apply js_at_run. cbn [js_rest set_rest next_is].
    replace (b =? 93) with false by (unfold isdigit in Hb; lia).
    by rewrite (shape_loop_complete _ _ _ Ht' [] _ rest).
Qed.

Lemma offsets_sound j :
  exists j' r, safetensors_offsets j = (j', Done r)
    /\ (forall start stop, r = Some (start, stop) -> j' = set_rest (js_rest j') j
          /\ exists l, js_rest j = l ++ js_rest j' /\ offsets_text start stop l).
Proof.
  unfold safetensors_offsets. destruct (expect_sound 91 j) as (j1 & b & E & Hb).
  erewrite js_bind_eq by apply E. destruct b; cbn [negb]; [|by exists j1, None].
  destruct (Hb eq_refl) as (Ej1 & w & Ej & Hw).
  destruct (u64_sound j1) as (j2 & r & E2 & H2). erewrite js_bind_eq by apply E2.
  destruct r as [start|]; [|by exists j2, None]. destruct (H2 start eq_refl) as (Ej2 & la & Ela & Hla).
  destruct (expect_sound 44 j2) as (j3 & b & E3 & H3). erewrite js_bind_eq by apply E3.
  destruct b; cbn [negb]; [|by exists j3, None]. destruct (H3 eq_refl) as (Ej3 & wa & Ewa & Hwa).
  destruct (u64_sound j3) as (j4 & r & E4 & H4). erewrite js_bind_eq by apply E4.
  destruct r as [stop|]; [|by exists j4, None]. destruct (H4 stop eq_refl) as (Ej4 & lb & Elb & Hlb).
  destruct (expect_sound 93 j4) as (j5 & b & E5 & H5). erewrite js_bind_eq by apply E5.
  destruct b; [|by exists j5, None]. destruct (H5 eq_refl) as (Ej5 & wb & Ewb & Hwb). cbn [andb].
  exists j5. destruct (start <=? stop) eqn:Ele; [|by exists None]. eexists. split; [reflexivity|].
  intros s e [= <- <-]. split; [by rewrite Ej5, Ej4, Ej3, Ej2, Ej1|].
  exists (w ++ 91 :: la ++ wa ++ 44 :: lb ++ wb ++ [93]).
  rewrite Ej, Ela, Ewa, Elb, Ewb. split.
  { rewrite <- !app_assoc. cbn. rewrite <- !app_assoc. cbn. by rewrite <- !app_assoc. }
  exists w, la, wa, lb, wb. split; [done|]. split; [done|]. split; [done|]. split; [done|]. split; [done|].
  split; [done|lia].
Qed.

Lemma offsets_complete j start stop l rest :
  js_rest j = l ++ rest -> offsets_text start stop l ->
  safetensors_offsets j = (set_rest rest j, Done (Some (start, stop))).
Proof.
  intros E (w & la & wa & lb & wb & -> & Hw & Hla & Hwa & Hlb & Hwb & Hle). unfold safetensors_offsets.
  rewrite <- app_assoc in E. cbn [app] in E. rewrite <- !app_assoc in E. cbn [app] in E. rewrite <- !app_assoc in E.
  erewrite js_bind_eq by (eapply expect_complete; [reflexivity|exact E|done]). cbn [negb].
  erewrite js_bind_eq by (eapply u64_complete; [reflexivity|exact Hla|by apply ws_then_ends]). cbn beta iota.
  erewrite js_bind_eq by (eapply expect_complete; [reflexivity|reflexivity|done]). cbn [negb].
  erewrite js_bind_eq by (eapply u64_complete; [reflexivity|exact Hlb|by apply ws_then_ends]). cbn beta iota.
  erewrite js_bind_eq by (eapply expect_complete; [reflexivity|reflexivity|done]). cbn [andb].
  by replace (start <=? stop) with true by lia.
Qed.

(** ** Tensor objects *)

(** Skipping any value at the outermost level. *)
Lemma skip_value_reads : json_reads yvex_json_skip_value (jvalue false 64) 0 0.
Proof. exact (value_reads 64 65 0 (le_n _) (le_n _)). Qed.

Definition value_text (v : list Z) : Prop := exists w l, v = w ++ l /\ ws w /\ jvalue false 64 l.

Lemma skip_value_sound j :
  at_level 0 0 j -> exists j' b, yvex_json_skip_value j = (j', Done b)
    /\ (b = true -> j' = set_rest (js_rest j') j /\ exists v, js_rest j = v ++ js_rest j' /\ value_text v).
Proof.
  intros Hl. destruct (r_sound _ _ _ _ skip_value_reads j Hl) as (j' & b & E & Hb). exists j', b.
  split; [done|]. intros ->. destruct (Hb eq_refl) as (Ej & w & v & Ew & Hw & Hv). split; [done|].
  exists (w ++ v). rewrite <- app_assoc. split; [done|]. by exists w, v.
Qed.

Lemma skip_value_complete j v rest :
  at_level 0 0 j -> js_rest j = v ++ rest -> value_text v -> stops rest ->
  yvex_json_skip_value j = (set_rest rest j, Done true).
Proof.
  intros Hl E (w & l & -> & Hw & Hv) Hr. rewrite <- app_assoc in E.
  by eapply (r_complete _ _ _ _ skip_value_reads).
Qed.

(** The text of a type name of at most 64 bytes of escapes and characters. *)
Definition dtype_text (d v : list Z) : Prop :=
  exists w l, v = w ++ l /\ ws w /\ jstring d l /\ zlen l - 1 <= 64.

Lemma dtype_sound granted j :
  exists j' r, yvex_json_string_dup granted 64 j = (j', Done r)
    /\ (forall d, r = Some d -> granted = true /\ j' = set_rest (js_rest j') j
          /\ exists v, js_rest j = v ++ js_rest j' /\ dtype_text d v).
Proof.
  pose proof (string_dup_spec granted 64 j ltac:(lia)) as H.
  destruct (yvex_json_string_dup granted 64 j) as [j' [[d|]|st m|f]]; [|by exists j', None|done..].
  destruct H as (Hg & w & l & Ej & Ej' & Hw & Hs & Hl). exists j', (Some d). split; [done|]. intros ? [= <-].
  split; [done|]. split; [done|]. exists (w ++ l). rewrite <- app_assoc. split; [done|]. by exists w, l.
Qed.

Lemma jstring_same d l rest d' l' rest' :
  jstring d l -> jstring d' l' -> l ++ rest = l' ++ rest' -> d = d' /\ rest = rest'.
Proof.
  intros H H' E. pose proof (jstring_prefix _ _ _ _ _ _ H H' E) as Hlen.
  apply app_inj_1 in E as (-> & ->); [|unfold zlen in Hlen; lia]. split; [|done].
  destruct H as (r & -> & Hr), H' as (r' & [= Er]%eq_sym & Hr'). apply app_inj_tail in Er as (-> & _).
  by eapply jchars_fun.
Qed.

Lemma dtype_complete j d v rest :
  js_rest j = v ++ rest -> dtype_text d v ->
  yvex_json_string_dup true 64 j = (set_rest rest j, Done (Some d)).
Proof.
  intros E (w & l & -> & Hw & Hs & Hlen). rewrite <- app_assoc in E.
  pose proof (string_dup_spec true 64 j ltac:(lia)) as H.
  destruct (yvex_json_string_dup true 64 j) as [j' [[d'|]|st m|f]]; [| |done..].
  - destruct H as (_ & w' & l' & E' & -> & Hw' & Hs' & _). rewrite E in E'.
    assert (l ++ rest = l' ++ js_rest j') as El.
    { apply (f_equal (skip_while isspace)) in E'.
      rewrite !skip_while_app in E' by (done || by eapply starts_ends_space, string_starts). done. }
    destruct (jstring_same _ _ _ _ _ _ Hs Hs' El) as (-> & ->). done.
  - destruct H as (_ & [[=]|H]). specialize (H w l rest d E Hw Hs). lia.
Qed.

Definition with_dtype (d : list Z) (f : tensor_fields) : tensor_fields :=
  mk_fields (Some d) (f_dims f) (f_start f) (f_end f) (Z.lor (f_seen f) 1) (S (f_tick f)).
Definition with_dims (dims : list Z) (f : tensor_fields) : tensor_fields :=
  mk_fields (f_dtype f) dims (f_start f) (f_end f) (Z.lor (f_seen f) 2) (f_tick f).
Definition with_offsets (start stop : Z) (f : tensor_fields) : tensor_fields :=
  mk_fields (f_dtype f) (f_dims f) start stop (Z.lor (f_seen f) 4) (f_tick f).

(** The value of a tensor's member and its effect on the fields. *)
Definition tensor_value (heap : nat -> allocator) (key v : list Z) (f f' : tensor_fields) : Prop :=
  (key = text_dtype /\ exists d, dtype_text d v /\ heap (f_tick f) 0%nat = true /\ f' = with_dtype d f)
  \/ (key = text_shape /\ exists dims, shape_text dims v /\ f' = with_dims dims f)
  \/ (key = text_data_offsets /\ exists start stop, offsets_text start stop v /\ f' = with_offsets start stop f)
  \/ (key <> text_dtype /\ key <> text_shape /\ key <> text_data_offsets /\ value_text v /\ f' = f).

(** The fields are machine values. *)
Definition fields_ok (f : tensor_fields) : Prop :=
  zlen (f_dims f) <= 8 /\ is_u64 (f_start f) /\ is_u64 (f_end f) /\ f_start f <= f_end f.

Lemma offsets_text_facts start stop v :
  offsets_text start stop v -> is_u64 start /\ is_u64 stop /\ start <= stop.
Proof.
  intros (w & la & wa & lb & wb & _ & _ & Hla & _ & Hlb & _ & Hle).
  split; [by eapply u64_text_range|]. split; [by eapply u64_text_range|done].
Qed.

Lemma tensor_handles heap : handles (tensor_member heap) (tensor_value heap) fields_ok 0 0.
Proof.
  split.
  - intros key j f Hl (I1 & I2 & I3 & I4). unfold tensor_member.
    case_bool_decide as Hd; [|case_bool_decide as Hs; [|case_bool_decide as Ho]].
    + rewrite rd_bind_run. cbn [so_get snd].
      destruct (dtype_sound (heap (f_tick f) 0%nat) j) as (j' & r & E & Hr).
      erewrite rd_bind_eq by (apply rd_js_run; exact E). cbn.
      eexists _, _, _. split; [reflexivity|]. split; [done|]. split; [done|].
      intros Hdone. destruct r as [d|]; [|done]. destruct (Hr d eq_refl) as (Hg & Ej' & v & Ev & Hv).
      split; [done|]. exists v. split; [done|]. left. split; [done|]. by exists d.
    + destruct (shape_sound j) as (j' & r & E & Hr). erewrite rd_bind_eq by (apply rd_js_run; exact E).
      destruct r as [dims|]; [|by eexists _, _, _]. destruct (Hr dims eq_refl) as (Ej' & v & Ev & Hv). cbn.
      eexists _, _, _. split; [reflexivity|]. split; [done|]. split; [by split; [apply (shape_text_facts _ _ Hv)|]|].
      intros _. split; [done|]. exists v. split; [done|]. right; left. split; [done|]. by exists dims.
    + destruct (offsets_sound j) as (j' & r & E & Hr). erewrite rd_bind_eq by (apply rd_js_run; exact E).
      destruct r as [[start stop]|]; [|by eexists _, _, _].
      destruct (Hr start stop eq_refl) as (Ej' & v & Ev & Hv). cbn.
      eexists _, _, _. split; [reflexivity|]. split; [done|]. split; [by split; [|apply (offsets_text_facts _ _ _ Hv)]|].
      intros _. split; [done|]. exists v. split; [done|]. right; right; left. split; [done|]. by exists start, stop.
    + destruct (skip_value_sound j Hl) as (j' & b & E & Hb).
      eexists _, _, _. split; [apply rd_js_run; exact E|]. split; [done|]. split; [done|].
      intros [= ->]. destruct (Hb eq_refl) as (Ej' & v & Ev & Hv). split; [done|]. exists v. split; [done|].
      by right; right; right.
  - intros key j v rest f f' Hl HI E HR Hrest. unfold tensor_member.
    destruct HR as [(-> & d & Hv & Hg & ->)|[(-> & dims & Hv & ->)|[(-> & start & stop & Hv & ->)|(N1 & N2 & N3 & Hv & ->)]]].
    + rewrite bool_decide_eq_true_2 by done. rewrite rd_bind_run. cbn [so_get snd]. rewrite Hg.
      erewrite rd_bind_eq by (apply rd_js_run; by eapply dtype_complete). done.
    + rewrite bool_decide_eq_false_2, bool_decide_eq_true_2 by done.
      erewrite rd_bind_eq by (apply rd_js_run; by eapply shape_complete). done.
    + rewrite !bool_decide_eq_false_2, bool_decide_eq_true_2 by done.
      erewrite rd_bind_eq by (apply rd_js_run; by eapply offsets_complete). done.
    + rewrite !bool_decide_eq_false_2 by done. apply rd_js_run. by eapply skip_value_complete.
Qed.

(** The object of a tensor, and its effect on the fields. *)
Definition object_text {W} (R : list Z -> list Z -> W -> W -> Prop) (trailing : bool) (n : Z)
    (v : list Z) (w w' : W) : Prop :=
  exists p t, v = p ++ 123 :: t /\ ws p /\ jmembers R true trailing n t w w'.

Lemma begin_sound j :
  exists j' r, yvex_json_iter_begin YVEX_JSON_COLLECTION_OBJECT j = (j', Done r)
    /\ (forall iter, r = Some iter -> iter = mk_iter 0 125 false false /\ j' = set_rest (js_rest j') j
          /\ exists p, js_rest j = p ++ 123 :: js_rest j' /\ ws p).
Proof.
  rewrite begin_run. destruct (skip_while_split isspace (js_rest j)) as (p & Ej & Hp).
  destruct (skip_while isspace (js_rest j)) as [|b l]; [by eexists _, None|].
  eexists _, _. split; [reflexivity|]. intros iter. cbn. destruct (b =? 123) eqn:Eb; [|done]. intros [= <-].
  split; [done|]. split; [done|]. exists p. assert (b = 123) as <- by lia. done.
Qed.

Lemma begin_complete j p t :
  js_rest j = p ++ 123 :: t -> ws p ->
  yvex_json_iter_begin YVEX_JSON_COLLECTION_OBJECT j = (set_rest t j, Done (Some (mk_iter 0 125 false false))).
Proof. intros E Hp. rewrite begin_run, E. by rewrite skip_while_app by done. Qed.

Section object.
Context {W : Type} (handler : list Z -> RD W bool) (R : list Z -> list Z -> W -> W -> Prop) (I : W -> Prop).
Context (H : handles handler R I 0 0).

(** The loop over the members of an object that was opened. *)
Definition object_loop : RD W (option (yvex_json_item * yvex_json_iter)) :=
  begun ← rd_js (yvex_json_iter_begin YVEX_JSON_COLLECTION_OBJECT);
  match begun with
  | None => mret None
  | Some iter =>
      s ← so_get;
      r ← json_members (S (length (js_rest s.1))) handler iter;
      mret (Some r)
  end.

Lemma fresh_iterating n : 0 <= n < 2 ^ 64 -> iterating 125 (mk_iter 0 125 false false) n.
Proof. intros Hn. repeat split; cbn; lia. Qed.

Lemma object_loop_sound j w :
  at_level 0 0 j -> I w ->
  exists j' w' r, object_loop (j, w) = ((j', w'), r) /\ no_fault r /\ I w'
    /\ (forall iter, r = Done (Some (YVEX_JSON_ITEM_END, iter)) -> j' = set_rest (js_rest j') j
          /\ exists v, js_rest j = v ++ js_rest j'
               /\ object_text R (it_trailing_separator iter) (it_count iter) v w w').
Proof using H.
  intros Hl HI. unfold object_loop. destruct (begin_sound j) as (j1 & r & E & Hr).
  erewrite rd_bind_eq by (apply rd_js_run; exact E). destruct r as [iter|]; [|by exists j1, w, (Done None)].
  destruct (Hr iter eq_refl) as (-> & Ej1 & p & Ej & Hp). rewrite rd_bind_run. cbn [so_get fst].
  assert (zlen (js_rest j1) <= zlen (js_rest j)) as Hlen.
  { rewrite Ej, zlen_app, zlen_cons. pose proof (zlen_nonneg p). lia. }
  assert (at_level 0 0 j1) as Hl1 by (rewrite Ej1; by apply at_level_shorter).
  pose proof (zlen_nonneg (js_rest j1)). pose proof Hl1 as (_ & _ & Hlt).
  pose proof (members_sound handler R I 0 0 H (S (length (js_rest j1))) _ j1 w
    (fresh_iterating _ (conj H0 Hlt)) ltac:(lia) Hl1 HI) as L.
  rewrite rd_bind_run.
  destruct (json_members (S (length (js_rest j1))) handler (mk_iter 0 125 false false) (j1, w)) as [[j2 w2] r2].
  destruct L as (L1 & L2 & L3). destruct r2 as [[item iter2]|st m|f];
    [|by exists j2, w2, (Refuse st m)|by exists j2, w2, (Fault f)].
  eexists _, _, _. split; [reflexivity|]. split; [done|]. split; [done|]. intros iter [= -> ->].
  destruct (L3 iter eq_refl) as (Ej2 & t & n & Et & Ec & Ht). cbn in Ec, Ht.
  split; [by rewrite Ej2, Ej1|]. exists (p ++ 123 :: t). rewrite Ej, Et, <- app_assoc. split; [done|].
  exists p, t. split; [done|]. split; [done|]. by rewrite Ec.
Qed.

Lemma object_loop_complete j v rest trailing n w w' :
  at_level 0 0 j -> I w -> js_rest j = v ++ rest -> object_text R trailing n v w w' ->
  object_loop (j, w)
  = ((set_rest rest j, w'), Done (Some (YVEX_JSON_ITEM_END, mk_iter n 125 true trailing))).
Proof using H.
  intros Hl HI E (p & t & -> & Hp & Ht). rewrite <- app_assoc in E. cbn [app] in E. unfold object_loop.
  erewrite rd_bind_eq by (apply rd_js_run; by apply (begin_complete _ _ _ E)). cbn beta iota.
  rewrite rd_bind_run. cbn [so_get fst].
  assert (zlen (t ++ rest) <= zlen (js_rest j)) as Hlen.
  { rewrite E, (zlen_app p), zlen_cons. pose proof (zlen_nonneg p). lia. }
  pose proof (zlen_nonneg (t ++ rest)). pose proof Hl as (_ & _ & Hlt).
  erewrite rd_bind_eq; [reflexivity|].
  apply (members_complete handler R I 0 0 H _ _ _ _ _ _ Ht _ (mk_iter 0 125 false false) (set_rest (t ++ rest) j));
    [apply fresh_iterating; cbn; lia|cbn; lia|by apply at_level_shorter|done|done|done].
Qed.
End object.

Definition fields_zero (tick : nat) : tensor_fields := mk_fields None [] 0 0 0 tick.

Lemma jmembers_keep {W} (R : list Z -> list Z -> W -> W -> Prop) (J : W -> Prop) first trailing n t w w' :
  (forall key v w w', R key v w w' -> J w -> J w') -> jmembers R first trailing n t w w' -> J w -> J w'.
Proof. intros HR. induction 1; eauto. Qed.

(** A type name was seen only if there is one. *)
Lemma tensor_dtype heap trailing n v tick f :
  object_text (tensor_value heap) trailing n v (fields_zero tick) f -> f_seen f = 7 -> is_Some (f_dtype f).
Proof.
  intros (p & t & _ & _ & Ht) Hs.
  refine (jmembers_keep _ (fun f => Z.testbit (f_seen f) 0 = true -> is_Some (f_dtype f)) _ _ _ _ _ _ _ Ht _ _);
    [|done|by rewrite Hs].
  intros key v' f0 f1 [(_ & d & _ & _ & ->)|[(_ & dims & _ & ->)|[(_ & a & b & _ & ->)|(_ & _ & _ & _ & ->)]]] IH;
    [done| | |done]; cbn [with_dims with_offsets f_seen f_dtype]; rewrite Z.lor_spec, orb_false_r; exact IH.
Qed.

(** A tensor: its text, and the row it adds to the table. *)
Definition tensor_text (heap : nat -> allocator) (payload_bytes : Z) (shard_path name v : list Z)
    (w w' : header_world) : Prop :=
  exists trailing n f dtype t,
    object_text (tensor_value heap) trailing n v (fields_zero (h_tick w)) f
    /\ f_seen f = 7 /\ f_end f <= payload_bytes /\ f_dtype f = Some dtype
    /\ yvex_native_weight_table_add (heap (f_tick f)) name shard_path dtype (zlen (f_dims f)) (f_dims f)
         (f_start f) (f_end f) (h_table w) = (t, Done tt)
    /\ w' = mk_hworld t (S (f_tick f)).

Lemma tensor_object_loop heap s :
  tensor_object heap s = (r ← object_loop (tensor_member heap);
    mret (match r with Some (YVEX_JSON_ITEM_END, _) => true | _ => false end)) s.
Proof.
  unfold tensor_object, object_loop. rewrite !rd_bind_run.
  destruct (rd_js _ s) as [s1 [[iter|]|st m|f]]; [|done..]. rewrite !rd_bind_run. cbn [so_get].
  rewrite !rd_bind_run. destruct (json_members _ _ _ s1) as [s2 [[item iter']|st m|f]]; [|done..].
  by destruct item.
Qed.

Lemma tensor_object_sound heap j f :
  at_level 0 0 j -> fields_ok f ->
  exists j' f' r, tensor_object heap (j, f) = ((j', f'), r) /\ no_fault r /\ fields_ok f'
    /\ (r = Done true -> j' = set_rest (js_rest j') j
          /\ exists v trailing n, js_rest j = v ++ js_rest j'
               /\ object_text (tensor_value heap) trailing n v f f').
Proof.
  intros Hl Hf. rewrite tensor_object_loop.
  destruct (object_loop_sound _ _ _ (tensor_handles heap) j f Hl Hf) as (j' & f' & r & E & Hnf & Hf' & Hr).
  rewrite rd_bind_run, E. destruct r as [o|st m|fl]; [|by exists j', f', (Refuse st m)|done].
  eexists _, _, _. split; [reflexivity|]. split; [done|]. split; [done|].
  destruct o as [[[| |] iter]|]; try done. intros _. destruct (Hr iter eq_refl) as (Ej & v & Ev & Hv). eauto 10.
Qed.

Lemma tensor_object_complete heap j f v rest trailing n f' :
  at_level 0 0 j -> fields_ok f -> js_rest j = v ++ rest ->
  object_text (tensor_value heap) trailing n v f f' ->
  tensor_object heap (j, f) = ((set_rest rest j, f'), Done true).
Proof.
  intros Hl Hf E Hv. rewrite tensor_object_loop.
  by erewrite rd_bind_eq by exact (object_loop_complete _ _ _ (tensor_handles heap) j v rest _ _ _ _ Hl Hf E Hv).
Qed.

Lemma fields_zero_ok tick : fields_ok (fields_zero tick).
Proof. repeat split; done. Qed.

(** ** Headers *)

(** Rows of one shard within the payload were appended. *)
Definition appended (payload_bytes : Z) (shard_path : list Z) (t t' : yvex_native_weight_table) : Prop :=
  exists rows, nt_items t' = nt_items t ++ rows
    /\ Forall (fun r => w_data_end r <= payload_bytes /\ w_shard_path r = shard_path) rows.

Lemma appended_refl payload shard t : appended payload shard t t.
Proof. exists []. rewrite app_nil_r. split; [done|]. apply Forall_nil_2. Qed.

Lemma appended_trans payload shard a b c :
  appended payload shard a b -> appended payload shard b c -> appended payload shard a c.
Proof.
  intros (r1 & E1 & H1) (r2 & E2 & H2). exists (r1 ++ r2). rewrite E2, E1, app_assoc. split; [done|].
  by apply Forall_app.
Qed.

(** What holds of the table while the header of [shard_path] is read from [t0]. *)
Definition reading (payload_bytes : Z) (shard_path : list Z) (t0 : yvex_native_weight_table)
    (w : header_world) : Prop :=
  table_ok (h_table w) /\ nt_finalized (h_table w) = nt_finalized t0
  /\ appended payload_bytes shard_path t0 (h_table w).

(** One append of the header, on every path. *)
Lemma add_reading heap payload shard t0 name dtype f w :
  reading payload shard t0 w -> fields_ok f -> f_end f <= payload ->
  match yvex_native_weight_table_add (heap (h_tick w)) name shard dtype (zlen (f_dims f)) (f_dims f)
          (f_start f) (f_end f) (h_table w) with
  | (_, Fault _) => False
  | (t, _) => reading payload shard t0 (mk_hworld t (S (h_tick w)))
  end.
Proof.
  intros (Ht & Hfin & Happ) (I1 & I2 & I3 & I4) He. pose proof (zlen_nonneg (f_dims f)).
  pose proof (add_ok (heap (h_tick w)) name shard dtype (zlen (f_dims f)) (f_dims f) (f_start f) (f_end f)
    ltac:(lia) I2 I3 (h_table w) Ht) as A.
  destruct (yvex_native_weight_table_add _ _ _ _ _ _ _ _ (h_table w)) as [t [u|st m|fl]]; [| |done].
  - destruct A as (Ht' & Ei & Ef & Ef' & _). split; [done|]. split; [cbn; congruence|].
    eapply appended_trans; [exact Happ|]. eexists. split; [exact Ei|]. by apply Forall_singleton.
  - destruct A as (Ht' & (Ei & _ & Ef) & _). split; [done|]. split; [cbn; congruence|].
    eapply appended_trans; [exact Happ|]. exists []. rewrite app_nil_r. split; [exact Ei|apply Forall_nil_2].
Qed.

Lemma tensor_sound heap payload shard t0 name j w :
  at_level 0 0 j -> reading payload shard t0 w ->
  exists j' w' r, safetensors_tensor heap name payload shard (j, w) = ((j', w'), r) /\ no_fault r
    /\ reading payload shard t0 w'
    /\ (r = Done tt -> j' = set_rest (js_rest j') j
          /\ exists v, js_rest j = v ++ js_rest j' /\ tensor_text heap payload shard name v w w').
Proof.
  intros Hl Hw. unfold safetensors_tensor. run_bind. cbn [so_get fst snd].
  destruct (tensor_object_sound heap j (fields_zero (h_tick w)) Hl (fields_zero_ok _))
    as (j1 & f & r & E & Hnf & Hf & Hr).
  unfold fields_zero in E. rewrite E. run_bind. cbn [so_put]. run_bind. unfold so_lift at 1.
  set (w1 := mk_hworld (h_table w) (f_tick f)).
  assert (reading payload shard t0 w1) as Hw1 by done.
  destruct r as [valid|st m|fl]; [|by exists j1, w1, (Refuse st m)|done].
  match goal with |- context [if ?c then so_refuse _ _ else _] => destruct c eqn:Ec end.
  { eexists j1, w1, _. split; [reflexivity|]. done. }
  assert (valid = true /\ f_seen f = 7 /\ f_end f <= payload) as (-> & Hseen & Hend).
  { destruct valid; [|done]. cbn in Ec. lia. }
  destruct (Hr eq_refl) as (Ej1 & v & trailing & n & Ev & Hv).
  destruct (tensor_dtype _ _ _ _ _ _ Hv Hseen) as (dtype & Hd).
  run_bind. unfold so_lift at 1. rewrite Hd. cbn [deref]. unfold rd_world. cbn [fst snd].
  pose proof (add_reading heap payload shard t0 name dtype f w1 Hw1 Hf Hend) as A. cbn [h_tick h_table w1] in A |- *.
  destruct (yvex_native_weight_table_add _ _ _ _ _ _ _ _ (h_table w)) as [t [[]|st m|fl]] eqn:Ea; [| |done].
  - eexists _, _, _. split; [reflexivity|]. split; [done|]. split; [done|]. intros _. split; [done|].
    exists v. split; [done|]. exists trailing, n, f, dtype, t. done.
  - eexists _, _, _. split; [reflexivity|]. done.
Qed.

Lemma tensor_complete heap payload shard name j w v rest w' :
  at_level 0 0 j -> js_rest j = v ++ rest -> tensor_text heap payload shard name v w w' ->
  safetensors_tensor heap name payload shard (j, w) = ((set_rest rest j, w'), Done tt).
Proof.
  intros Hl E (trailing & n & f & dtype & t & Hv & Hseen & Hend & Hd & Ha & ->).
  unfold safetensors_tensor. run_bind. cbn [so_get fst snd].
  fold (fields_zero (h_tick w)).
  rewrite (tensor_object_complete heap j _ v rest _ _ _ Hl (fields_zero_ok _) E Hv).
  run_bind. cbn [so_put]. run_bind. unfold so_lift at 1. rewrite Hseen. cbn [negb].
  change (7 =? 7) with true. cbn [negb orb]. replace (payload <? f_end f) with false by lia.
  run_bind. unfold so_lift at 1. rewrite Hd. cbn [deref]. unfold rd_world. cbn [fst snd h_tick h_table].
  by rewrite Ha.
Qed.

(** The value of a header's member and its effect on the table. *)
Definition header_value (heap : nat -> allocator) (payload_bytes : Z) (shard_path : list Z)
    (key v : list Z) (w w' : header_world) : Prop :=
  (key = text_metadata /\ value_text v /\ w' = w)
  \/ (key <> text_metadata /\ tensor_text heap payload_bytes shard_path key v w w').

Lemma header_handles heap payload shard t0 :
  handles (header_member heap payload shard) (header_value heap payload shard) (reading payload shard t0) 0 0.
Proof.
  split.
  - intros key j w Hl Hw. unfold header_member. case_bool_decide as Hk.
    + destruct (skip_value_sound j Hl) as (j' & b & E & Hb).
      run_bind. rewrite (rd_js_run _ _ _ _ _ E). destruct b.
      * destruct (Hb eq_refl) as (Ej & v & Ev & Hv). eexists _, _, _. split; [reflexivity|]. split; [done|].
        split; [done|]. intros _. split; [done|]. exists v. split; [done|]. by left.
      * eexists _, _, _. split; [reflexivity|]. done.
    + destruct (tensor_sound heap payload shard t0 key j w Hl Hw) as (j' & w' & r & E & Hnf & Hw' & Hr).
      run_bind. rewrite E. destruct r as [[]|st m|fl]; [|eexists _, _, _; split; [reflexivity|done]|done].
      eexists _, _, _. split; [reflexivity|]. split; [done|]. split; [done|]. intros _.
      destruct (Hr eq_refl) as (Ej & v & Ev & Hv). split; [done|]. exists v. split; [done|]. by right.
  - intros key j v rest w w' Hl Hw E [(-> & Hv & ->)|(Hk & Hv)] Hrest; unfold header_member.
    + rewrite bool_decide_eq_true_2 by done.
      run_bind. by erewrite (rd_js_run yvex_json_skip_value) by by eapply skip_value_complete.
    + rewrite bool_decide_eq_false_2 by done. run_bind. by erewrite tensor_complete by done.
Qed.

Lemma header_body_loop heap payload shard s :
  header_body heap payload shard s
  = (r ← object_loop (header_member heap payload shard);
     match r with
     | None => so_refuse YVEX_ERR_FORMAT "unexpected JSON token"
     | Some (item, iter) =>
         if match item with YVEX_JSON_ITEM_END => it_trailing_separator iter | _ => true end
         then so_refuse YVEX_ERR_FORMAT "malformed safetensors header" else
         if it_count iter =? 0 then so_refuse YVEX_ERR_FORMAT "empty safetensors header" else
         complete ← rd_js yvex_json_complete;
         if complete : bool then mret tt else so_refuse YVEX_ERR_FORMAT "trailing JSON bytes"
     end) s.
Proof.
  unfold header_body, object_loop. run_bind. run_bind. run_bind.
  destruct (rd_js _ s) as [s1 [[iter|]|st m|f]]; [|done..]. run_bind. run_bind. cbn [so_get].
  run_bind. run_bind. by destruct (json_members _ _ _ s1) as [s2 [[item iter']|st m|f]].
Qed.

Lemma json_complete_run j :
  js_depth j = 0 ->
  yvex_json_complete j
  = (set_rest (skip_while isspace (js_rest j)) j, Done (bool_decide (skip_while isspace (js_rest j) = []))).
Proof.
  intros Hj. unfold yvex_json_complete. erewrite js_bind_eq by apply space_run.
  erewrite js_bind_eq by reflexivity. cbn [js_depth set_rest]. by rewrite Hj, andb_true_r.
Qed.

(** A header: an object with at least one member and no trailing separator,
    surrounded by whitespace. *)
Definition header_text (heap : nat -> allocator) (payload_bytes : Z) (shard_path text : list Z)
    (w w' : header_world) : Prop :=
  exists v q n, text = v ++ q /\ ws q /\ 0 < n
    /\ object_text (header_value heap payload_bytes shard_path) false n v w w'.

Lemma jmembers_nonneg {W} (R : list Z -> list Z -> W -> W -> Prop) first trailing n t w w' :
  jmembers R first trailing n t w w' -> 0 <= n.
Proof. induction 1; lia. Qed.

Lemma header_body_sound heap payload shard t0 j w :
  at_level 0 0 j -> reading payload shard t0 w ->
  exists s r, header_body heap payload shard (j, w) = (s, r) /\ no_fault r /\ reading payload shard t0 s.2
    /\ (r = Done tt -> header_text heap payload shard (js_rest j) w s.2).
Proof.
  intros Hl Hw. rewrite header_body_loop. run_bind.
  destruct (object_loop_sound _ _ _ (header_handles heap payload shard t0) j w Hl Hw)
    as (j1 & w1 & r & E & Hnf & Hw1 & Hr).
  rewrite E. destruct r as [[[item iter]|]|st m|f]; [|by eexists _, _..|done].
  match goal with |- context [if ?c then so_refuse _ _ else _] => destruct c eqn:Ec end; [by eexists _, _|].
  destruct item; [done| |done].
  destruct (Hr iter eq_refl) as (Ej1 & v & Ev & Hv). rewrite Ec in Hv.
  destruct (it_count iter =? 0) eqn:E0; [by eexists _, _|]. run_bind.
  assert (js_depth j1 = 0) as Hd by (rewrite Ej1; apply Hl).
  rewrite (rd_js_run _ _ _ _ _ (json_complete_run j1 Hd)).
  case_bool_decide as Hs; [|by eexists _, _]. eexists _, _. split; [reflexivity|]. split; [done|]. split; [done|].
  intros _. exists v, (js_rest j1), (it_count iter). split; [done|].
  destruct (skip_while_split isspace (js_rest j1)) as (q & Eq & Hq). rewrite Hs, app_nil_r in Eq.
  split; [by rewrite Eq|]. split; [|done]. destruct Hv as (p & t & _ & _ & Ht).
  pose proof (jmembers_nonneg _ _ _ _ _ _ _ Ht). lia.
Qed.

Lemma header_body_complete heap payload shard t0 j w w' :
  at_level 0 0 j -> reading payload shard t0 w -> header_text heap payload shard (js_rest j) w w' ->
  exists j', header_body heap payload shard (j, w) = ((j', w'), Done tt).
Proof.
  intros Hl Hw (v & q & n & Ev & Hq & Hn & Hv). rewrite header_body_loop. run_bind.
  rewrite (object_loop_complete _ _ _ (header_handles heap payload shard t0) j v q _ _ _ _ Hl Hw Ev Hv).
  cbn [it_trailing_separator it_count]. replace (n =? 0) with false by lia. run_bind.
  assert (js_depth (set_rest q j) = 0) as Hd by apply Hl.
  rewrite (rd_js_run _ _ _ _ _ (json_complete_run _ Hd)). cbn [js_rest set_rest].
  replace (skip_while isspace q) with (@nil Z).
  2:{ rewrite <- (app_nil_r q). by rewrite skip_while_app. }
  rewrite bool_decide_eq_true_2 by done. by eexists.
Qed.

Lemma c_text_length l : zlen (c_text l) <= zlen l.
Proof.
  induction l as [|b l IH]; [done|]. cbn. destruct (b =? 0); rewrite ?zlen_cons; [|lia].
  pose proof (zlen_nonneg l). rewrite zlen_nil. lia.
Qed.

Lemma parse_header_ok heap json payload shard t :
  table_ok t -> zlen json < 2 ^ 64 ->
  exists t' r, safetensors_parse_header heap json payload shard t = (t', r) /\ no_fault r
    /\ table_ok t' /\ nt_finalized t' = nt_finalized t /\ appended payload shard t t'
    /\ (forall t2, (t', r) = (t2, Done tt)
          <-> exists k, header_text heap payload shard (c_text json) (mk_hworld t 0) (mk_hworld t2 k)).
Proof.
  intros Ht Hlen. pose proof (c_text_length json).
  assert (at_level 0 0 (yvex_json_init (c_text json))) as Hl by (repeat split; cbn; lia).
  assert (reading payload shard t (mk_hworld t 0)) as Hw by (split; [done|split; [done|apply appended_refl]]).
  destruct (header_body_sound heap payload shard t _ _ Hl Hw) as ([j w] & r & E & Hnf & (H1 & H2 & H3) & Hr).
  unfold safetensors_parse_header. rewrite E. exists (h_table w), r. split; [done|]. split; [done|].
  split; [done|]. split; [done|]. split; [done|]. intros t2. split.
  - intros [= <- ->]. exists (h_tick w). specialize (Hr eq_refl). cbn in Hr. by destruct w.
  - intros (k & Hk). destruct (header_body_complete heap payload shard t _ _ _ Hl Hw Hk) as (j' & E').
    rewrite E in E'. by simplify_eq.
Qed.

(** ** Properties *)

(** C28: The header parser returns on every text, under every allocator and whatever the table already
    holds, and succeeds exactly on the headers of the grammar: one object, at least one member, no
    trailing separator, every tensor with a type, a shape of at most eight 64-bit extents and ordered
    offsets within the payload, and every row accepted by the table; the resulting table is the one
    the grammar denotes. *)
Theorem safetensors_header_exact heap json payload_bytes shard_path t :
  table_ok t -> zlen json < 2 ^ 64 ->
  no_fault (snd (safetensors_parse_header heap json payload_bytes shard_path t))
  /\ forall t', safetensors_parse_header heap json payload_bytes shard_path t = (t', Done tt)
      <-> exists k, header_text heap payload_bytes shard_path (c_text json) (mk_hworld t 0) (mk_hworld t' k).
Proof.
  intros Ht Hlen. destruct (parse_header_ok heap json payload_bytes shard_path t Ht Hlen)
    as (t1 & r & E & Hnf & _ & _ & _ & Hr).
  rewrite E. split; [done|exact Hr].
Qed.

Lemma safetensors_header_exact_witness :
  let t' := fst (safetensors_parse_header (fun _ _ => true) (string_bytes demo_header) 24 [] table_zero) in
  nt_count t' = 1
  /\ exists k, header_text (fun _ _ => true) 24 [] (c_text (string_bytes demo_header))
       (mk_hworld table_zero 0) (mk_hworld t' k).
Proof.
  split; [vm_compute; reflexivity|].
  refine (proj1 (proj2 (safetensors_header_exact (fun _ _ => true) (string_bytes demo_header) 24 [] table_zero
    table_zero_ok ltac:(vm_compute; reflexivity)) _) _).
  vm_compute. reflexivity.
Defined.

Lemma table_ok_headers t a b c s :
  table_ok t -> s_tensor_count s = s_tensor_count (nt_summary t) ->
  s_total_tensor_bytes s = s_total_tensor_bytes (nt_summary t) ->
  s_unknown_dtype_count s = s_unknown_dtype_count (nt_summary t) ->
  table_ok (set_headers a b c (set_summary s t)).
Proof.
  intros [H1 H2 H3 H4 (S1 & S2 & S3 & S4) H6] E1 E2 E3. split; [done|done|done|done| |done].
  unfold summarized. cbn. by rewrite E1, E2, E3.
Qed.

Lemma count_malformed_ok t : table_ok t -> table_ok (count_malformed t).
Proof. intros Ht. by apply table_ok_headers. Qed.

Lemma le64_ok b : zlen b = 8 -> Forall is_u8 b -> exists n, st_le64 b = Done n /\ 0 <= n.
Proof.
  intros Hb Hu. unfold st_le64. change 8 with (Z.of_nat 8). rewrite mapO_read by (unfold zlen in Hb; lia).
  eexists. split; [reflexivity|]. apply Forall_take with (n := 8%nat) in Hu.
  induction Hu as [|x l [Hx _] _ IH]; [done|]. cbn. apply Z.lor_nonneg. split; [done|]. by apply Z.shiftl_nonneg.
Qed.

(** A file with fewer than 2^63 bytes. *)
Definition file_ok (file : header_file) : Prop :=
  Forall is_u8 (file_bytes_of file) /\ zlen (file_bytes_of file) < 2 ^ 63.

Definition facts_of (file : header_file) (len : Z) : yvex_safetensors_file_facts :=
  mk_facts (zlen (file_bytes_of file)) len (8 + len) (zlen (file_bytes_of file) - 8 - len).

(** The payload bound the parser is given. *)
Definition payload_limit (inspect_incomplete : bool) (facts : yvex_safetensors_file_facts) : Z :=
  if inspect_incomplete then UINT64_MAX else fact_payload_bytes facts.

(** The header of a file was read: [len] bytes. *)
Definition parsed (heap : nat -> allocator) (file : header_file) (shard_path : list Z) (len : Z)
    (inspect : bool) (t : yvex_native_weight_table)
    : yvex_native_weight_table * outcome yvex_safetensors_file_facts :=
  match safetensors_parse_header heap (take (Z.to_nat len) (drop 8 (file_bytes_of file)))
          (payload_limit inspect (facts_of file len)) shard_path t with
  | (t, Done _) => (t, Done (facts_of file len))
  | (t, Refuse status reason) => (count_malformed t, Refuse status reason)
  | (t, Fault f) => (t, Fault f)
  end.

(** Reading refuses before the header is parsed, or parses it. *)
Lemma read_cases granted heap file shard_path t :
  file_ok file ->
  (exists t' st m, (t' = t \/ t' = count_malformed t)
     /\ forall inspect, safetensors_read_header granted heap file shard_path inspect t = (t', Refuse st m))
  \/ (exists len a c, 0 < len <= SAFETENSORS_HEADER_LIMIT /\ len <= zlen (file_bytes_of file) - 8
     /\ forall inspect, safetensors_read_header granted heap file shard_path inspect t
        = parsed heap file shard_path len inspect (set_headers a (nt_header_error_count t) c t)).
Proof.
  intros (Hu & Hlen). unfold safetensors_read_header, malformed_header, parsed, facts_of.
  set (bytes := file_bytes_of file) in *. pose proof (zlen_nonneg bytes).
  destruct (negb (file_opens file) || (zlen bytes <? 8)) eqn:E1; [left; eexists _, _, _; split; [by right|done]|].
  destruct (file_streams file); cbn [negb]; [|left; eexists _, _, _; split; [by left|done]].
  destruct (file_length_read file); cbn [negb]; [|left; eexists _, _, _; split; [by right|done]].
  destruct (le64_ok (take 8 bytes)) as (len & Elen & Hn);
    [unfold zlen in *; rewrite length_take; lia|by apply Forall_take|].
  rewrite (u64_id (zlen bytes - 8)) by (unfold is_u64; lia).
  destruct ((len =? 0) || (zlen bytes - 8 <? len) || (SAFETENSORS_HEADER_LIMIT <? len)) eqn:E2.
  { left. eexists _, _, _. split; [by right|]. intros inspect. run_bind. unfold so_lift at 1. by rewrite Elen, E2. }
  destruct granted; cbn [negb].
  2:{ left. eexists _, _, _. split; [by left|]. intros inspect. run_bind. unfold so_lift at 1. by rewrite Elen, E2. }
  destruct (file_header_read file); cbn [negb].
  2:{ left. eexists _, _, _. split; [by right|]. intros inspect. run_bind. unfold so_lift at 1. by rewrite Elen, E2. }
  right. exists len, (u64 (nt_header_read_count t + 1)), (u64 (nt_header_bytes t + len)).
  split; [lia|]. split; [lia|]. intros inspect. run_bind. unfold so_lift at 1. rewrite Elen, E2.
  rewrite (u64_id (zlen bytes - 8 - len)) by (unfold is_u64; lia).
  run_bind. cbn [so_modify]. run_bind. cbn [so_get]. unfold payload_limit. cbn [fact_payload_bytes].
  by destruct (safetensors_parse_header heap _ _ shard_path _) as [t2 [u|st m|f]].
Qed.

(** C30: Reading the header of a file, whatever its bytes, the allocator and the failures of the stream,
    returns, keeps the table's invariant and never removes or changes a row.  When it succeeds, the
    facts partition the file into length, header and payload, and every appended row lies within the
    payload (or within 64 bits when an incomplete file is inspected). *)
Theorem safetensors_read_safe granted heap file shard_path inspect t :
  table_ok t -> file_ok file ->
  let '(t', r) := safetensors_read_header granted heap file shard_path inspect t in
  no_fault r /\ table_ok t' /\ (exists rows, nt_items t' = nt_items t ++ rows)
  /\ forall facts, r = Done facts ->
      fact_file_bytes facts = zlen (file_bytes_of file)
      /\ fact_file_bytes facts = fact_data_region_offset facts + fact_payload_bytes facts
      /\ fact_data_region_offset facts = 8 + fact_header_json_bytes facts
      /\ 0 < fact_header_json_bytes facts <= SAFETENSORS_HEADER_LIMIT /\ 0 <= fact_payload_bytes facts
      /\ appended (payload_limit inspect facts) shard_path t t'.
Proof.
  intros Ht Hf. destruct (read_cases granted heap file shard_path t Hf)
    as [(t' & st & m & Hm & E)|(len & a & c & Hl & Hfit & E)]; rewrite E.
  { split; [done|]. split; [destruct Hm as [->| ->]; [done|by apply count_malformed_ok]|].
    split; [exists []; rewrite app_nil_r; by destruct Hm as [->| ->]|done]. }
  assert (table_ok (set_headers a (nt_header_error_count t) c t)) as Ht1.
  { by apply (table_ok_headers t a _ c (nt_summary t)). }
  unfold parsed. set (json := take (Z.to_nat len) (drop 8 (file_bytes_of file))).
  assert (zlen json < 2 ^ 64) as Hj.
  { unfold json, zlen. rewrite length_take, length_drop. destruct Hf as (_ & Hf). unfold zlen in Hf. lia. }
  destruct (parse_header_ok heap json (payload_limit inspect (facts_of file len)) shard_path _ Ht1 Hj)
    as (t2 & r & Ep & Hnf & Ht2 & _ & Happ & _).
  rewrite Ep. pose proof Happ as (rows & Erows & _).
  destruct r as [u|st m|f]; [| |done].
  - split; [done|]. split; [done|]. split; [by exists rows|]. intros facts [= <-]. unfold facts_of. cbn -[payload_limit].
    split; [done|]. split; [lia|]. split; [done|]. split; [lia|]. split; [lia|]. exact Happ.
  - split; [done|]. split; [by apply count_malformed_ok|]. split; [by exists rows|done].
Qed.

Lemma demo_file_ok : file_ok (demo_file demo_header 24).
Proof. split; [|vm_compute; reflexivity]. apply (bool_decide_unpack _). vm_compute. exact Logic.I. Qed.

Lemma safetensors_read_safe_witness :
  let '(t', r) := safetensors_read_header true (fun _ _ => true) (demo_file demo_header 24) [] false table_zero in
  (exists facts, r = Done facts) /\ table_ok t'.
Proof.
  pose proof (safetensors_read_safe true (fun _ _ => true) (demo_file demo_header 24) [] false table_zero
    table_zero_ok demo_file_ok) as H.
  destruct (safetensors_read_header true (fun _ _ => true) (demo_file demo_header 24) [] false table_zero)
    as [t' r] eqn:E.
  split; [|apply H]. vm_compute in E. injection E as _ <-. eauto.
Defined.

(** ** Inspection of incomplete files *)

Lemma jmembers_mono {W} (R R' : list Z -> list Z -> W -> W -> Prop) first trailing n t w w' :
  (forall key v w w', R key v w w' -> R' key v w w') ->
  jmembers R first trailing n t w w' -> jmembers R' first trailing n t w w'.
Proof. intros HR. induction 1; econstructor; eauto. Qed.

Lemma header_value_mono heap p p' shard key v w w' :
  p <= p' -> header_value heap p shard key v w w' -> header_value heap p' shard key v w w'.
Proof.
  intros Hp [H|(Hk & trailing & n & f & dtype & t & H1 & H2 & H3 & H4)]; [by left|]. right. split; [done|].
  exists trailing, n, f, dtype, t. split; [done|]. split; [done|]. split; [lia|done].
Qed.

Lemma tensor_fields_ok heap trailing n v tick f :
  object_text (tensor_value heap) trailing n v (fields_zero tick) f -> fields_ok f.
Proof.
  intros (p & t & _ & _ & Ht).
  refine (jmembers_keep _ fields_ok _ _ _ _ _ _ _ Ht (fields_zero_ok tick)).
  intros key v' f0 f1 Hv (I1 & I2 & I3 & I4).
  destruct Hv as [(_ & d & _ & _ & ->)|[(_ & dims & Hv & ->)|[(_ & a & b & Hv & ->)|(_ & _ & _ & _ & ->)]]]; [done| | |done].
  - split; [apply (shape_text_facts _ _ Hv)|done].
  - split; [done|apply (offsets_text_facts _ _ _ Hv)].
Qed.

(** A tensor adds one row, which ends where its offsets say. *)
Lemma tensor_text_row heap p shard key v w w' :
  table_ok (h_table w) -> tensor_text heap p shard key v w w' ->
  table_ok (h_table w') /\ exists row, nt_items (h_table w') = nt_items (h_table w) ++ [row]
    /\ forall q, w_data_end row <= q -> tensor_text heap q shard key v w w'.
Proof.
  intros Ht (trailing & n & f & dtype & t & Hv & Hseen & Hend & Hd & Ha & ->).
  destruct (tensor_fields_ok _ _ _ _ _ _ Hv) as (I1 & I2 & I3 & I4). pose proof (zlen_nonneg (f_dims f)).
  pose proof (add_ok (heap (f_tick f)) key shard dtype (zlen (f_dims f)) (f_dims f) (f_start f) (f_end f)
    ltac:(lia) I2 I3 (h_table w) Ht) as A.
  rewrite Ha in A. destruct A as (Ht' & Ei & _). split; [done|]. eexists. split; [exact Ei|].
  intros q Hq. cbn in Hq. exists trailing, n, f, dtype, t. done.
Qed.

(** The headers whose rows all end within [q] are those of the payload [q]. *)
Lemma header_members_within heap p q shard first trailing n t w w' :
  jmembers (header_value heap p shard) first trailing n t w w' -> table_ok (h_table w) ->
  (exists rows, nt_items (h_table w') = nt_items (h_table w) ++ rows)
  /\ (Forall (fun r => w_data_end r <= q) (nt_items (h_table w')) ->
      jmembers (header_value heap q shard) first trailing n t w w').
Proof.
  assert (forall key v w w2, header_value heap p shard key v w w2 -> table_ok (h_table w) ->
    table_ok (h_table w2) /\ (exists rows, nt_items (h_table w2) = nt_items (h_table w) ++ rows)
    /\ (Forall (fun r => w_data_end r <= q) (nt_items (h_table w2)) -> header_value heap q shard key v w w2)) as Hv.
  { intros key v w0 w2 [(-> & Hv & ->)|(Hk & Hv)] Ht0.
    - split; [done|]. split; [exists []; by rewrite app_nil_r|]. by left.
    - destruct (tensor_text_row _ _ _ _ _ _ _ Ht0 Hv) as (Ht2 & row & Ei & Hq). split; [done|].
      split; [by eexists|]. intros Hall. right. split; [done|]. apply Hq. rewrite Ei in Hall.
      apply Forall_app in Hall as (_ & Hr). exact (proj1 (Forall_singleton _ _) Hr). }
  induction 1 as [first p0 w Hp|p0 p' w Hp Hp'|p0 name key v t trailing n w1 w2 w3 Hp Hname HR Ht IH
                 |p0 p' name key v t trailing n w1 w2 w3 Hp Hp' Hname HR Ht IH]; intros Hok.
  1-2: split; [exists []; by rewrite app_nil_r|by constructor].
  all: destruct (Hv _ _ _ _ HR Hok) as (Hok2 & (r1 & E1) & Hq1); destruct (IH Hok2) as ((r2 & E2) & Hq2);
    (split; [exists (r1 ++ r2); by rewrite E2, E1, app_assoc|]); intros Hall;
    (assert (Forall (fun r => w_data_end r <= q) (nt_items (h_table w2))) as Hall2
       by (rewrite E2 in Hall; by apply Forall_app in Hall as [? _]));
    econstructor; eauto.
Qed.

(** Parsing under the widest bound and then comparing is parsing under [q]. *)
Lemma parse_within heap json p q shard t t' :
  table_ok t -> nt_items t = [] -> zlen json < 2 ^ 64 -> q <= p ->
  safetensors_parse_header heap json q shard t = (t', Done tt)
  <-> safetensors_parse_header heap json p shard t = (t', Done tt)
      /\ Forall (fun r => w_data_end r <= q) (nt_items t').
Proof.
  intros Ht Hempty Hlen Hle.
  destruct (parse_header_ok heap json q shard t Ht Hlen) as (tq & rq & Eq & _ & _ & _ & Happ & Hq).
  destruct (parse_header_ok heap json p shard t Ht Hlen) as (tp & rp & Ep & _ & _ & _ & _ & Hp).
  rewrite Eq, Ep. split.
  - intros E. pose proof E as E'. apply Hq in E' as (k & v & s & n & Ev & Hs & Hn & b & u & Ew & Hb & Hu).
    split.
    + apply Hp. exists k, v, s, n. split; [done|]. split; [done|]. split; [done|]. exists b, u.
      split; [done|]. split; [done|]. eapply jmembers_mono; [|exact Hu].
      intros key x w w' Hv. by eapply header_value_mono.
    + injection E as -> _. destruct Happ as (rows & -> & Hrows). rewrite Hempty. cbn.
      eapply Forall_impl; [exact Hrows|]. by intros r [? _].
  - intros (E & Hall). apply Hp in E as (k & v & s & n & Ev & Hs & Hn & b & u & Ew & Hb & Hu).
    apply Hq. exists k, v, s, n. split; [done|]. split; [done|]. split; [done|]. exists b, u.
    split; [done|]. split; [done|]. by eapply header_members_within.
Qed.

(** [existsb] of an excess and [Forall] of the bound. *)
Lemma exceeds_within q (items : list yvex_native_weight_info) :
  existsb (fun row => q <? w_data_end row) items = false <-> Forall (fun r => w_data_end r <= q) items.
Proof.
  induction items as [|r items IH]; cbn; [split; [intros; apply Forall_nil_2|done]|].
  rewrite orb_false_iff, Forall_cons, IH, Z.ltb_ge. done.
Qed.

Lemma done_unit (r : outcome unit) : is_done r = true <-> r = Done tt.
Proof. destruct r as [[]| |]; done. Qed.

(** Inspection never faults, and classifies a file exactly as strict reading does: it answers
    VALID exactly when the header is accepted with every tensor inside the bytes that are present, and
    TRUNCATED exactly when the header is accepted only because the end of the payload is disregarded. *)
Theorem safetensors_extent_exact alloc heap file path :
  file_ok file -> alloc 0%nat = true ->
  let strict := snd (safetensors_read_header (alloc 1%nat) heap file path false table_zero) in
  let lenient := snd (safetensors_read_header (alloc 1%nat) heap file path true table_zero) in
  let extent := yvex_safetensors_inspect_extent alloc heap file path in
  no_fault extent
  /\ (extent = Done YVEX_SAFETENSORS_EXTENT_VALID <-> is_done strict = true)
  /\ (extent = Done YVEX_SAFETENSORS_EXTENT_TRUNCATED <-> is_done lenient = true /\ is_done strict = false).
Proof.
  intros Hf Ha. unfold yvex_safetensors_inspect_extent. rewrite Ha. cbn [negb]. cbn zeta.
  destruct (read_cases (alloc 1%nat) heap file path table_zero Hf)
    as [(t' & st & m & _ & E)|(len & a & c & Hl & Hfit & E)]; rewrite !E.
  { cbn [snd is_done]. destruct (_ || _); (split; [done|]); split; (split; [done|]); naive_solver. }
  set (t0 := set_headers a (nt_header_error_count table_zero) c table_zero).
  assert (table_ok t0) as Ht0 by by apply (table_ok_headers table_zero a _ c summary_zero table_zero_ok).
  unfold parsed. set (json := take (Z.to_nat len) (drop 8 (file_bytes_of file))).
  assert (zlen json < 2 ^ 64) as Hj.
  { unfold json, zlen. rewrite length_take, length_drop. destruct Hf as (_ & Hf). unfold zlen in Hf. lia. }
  set (q := payload_limit false (facts_of file len)). set (p := payload_limit true (facts_of file len)).
  assert (q <= p) as Hqp.
  { unfold q, p, payload_limit, facts_of, UINT64_MAX. cbn [fact_payload_bytes]. destruct Hf as (_ & Hf). lia. }
  pose proof (fun t' => parse_within heap json p q path t0 t' Ht0 eq_refl Hj Hqp) as Hw.
  destruct (parse_header_ok heap json q path t0 Ht0 Hj) as (tq & rq & Eq & Hnq & _).
  destruct (parse_header_ok heap json p path t0 Ht0 Hj) as (tp & rp & Ep & Hnp & _).
  rewrite Eq, Ep in *.
  destruct rp as [[]|st m|f]; [| |done]; cbn [snd].
  - change (fact_payload_bytes (facts_of file len)) with q.
    specialize (Hw tp).
    assert (is_done rq = true <-> existsb (fun row => q <? w_data_end row) (nt_items tp) = false) as Hs.
    { rewrite exceeds_within, done_unit. split.
      - intros ->. destruct (parse_within heap json p q path t0 tq Ht0 eq_refl Hj Hqp) as (Hs & _).
        destruct (Hs Eq) as (E1 & Hall). rewrite Ep in E1. by simplify_eq.
      - intros Hall. destruct Hw as (_ & Hw). specialize (Hw (conj eq_refl Hall)). by simplify_eq. }
    split; [done|]. destruct (existsb _ (nt_items tp)), rq as [[]|st m|f]; cbn in *; naive_solver.
  - assert (is_done rq = false) as Hs.
    { destruct rq as [[]| |]; [|done..]. exfalso.
      destruct (parse_within heap json p q path t0 tq Ht0 eq_refl Hj Hqp) as (Hs & _).
      destruct (Hs Eq) as (E1 & _). rewrite Ep in E1. by simplify_eq. }
    destruct (_ || _), rq as [[]|st' m'|f']; cbn in *; try done; naive_solver.
Qed.

Lemma safetensors_extent_exact_witness :
  is_done (snd (safetensors_read_header true (fun _ _ => true) (demo_file demo_header 24) [] false table_zero)) = true
  /\ yvex_safetensors_inspect_extent (fun _ => true) (fun _ _ => true) (demo_file demo_header 24) []
     = Done YVEX_SAFETENSORS_EXTENT_VALID.
Proof.
  split; [vm_compute; reflexivity|].
  apply (safetensors_extent_exact (fun _ => true) (fun _ _ => true) (demo_file demo_header 24) []);
    [apply demo_file_ok|reflexivity|vm_compute; reflexivity].
Defined.

(** The header is read as a C string: what follows a null byte is not examined,
    although bytes after the object are refused. *)
Example null_byte_hides_bytes :
  let header := string_bytes demo_header in
  let run bytes := is_done (snd (safetensors_parse_header (fun _ _ => true) bytes 24 [] table_zero)) in
  run (header ++ string_bytes "x") = false /\ run (header ++ 0 :: string_bytes "x") = true.
Proof. vm_compute. split; reflexivity. Qed.

(** A trailing separator is refused in the header and accepted in a tensor. *)
Example tensor_trailing_separator :
  let run text := is_done (snd (safetensors_parse_header (fun _ _ => true) (string_bytes (quoted text)) 4 [] table_zero)) in
  run "{'a':{'dtype':'F32','shape':[],'data_offsets':[0,4]},}"%string = false
  /\ run "{'a':{'dtype':'F32','shape':[],'data_offsets':[0,4],}}"%string = true.
Proof. vm_compute. split; reflexivity. Qed.
