(* ===== verification/Float64.v ===== *)
(** * Float64: the IEEE binary64 values carried by IR attributes

    Attribute values of kind [YVEX_IR_ATTR_F64] are doubles.  They are kept as
    their 64-bit patterns (the serializers copy the bits), and the comparisons
    the verifiers make are evaluated on the decoded value with the Standard
    Library's executable floating-point specification. *)

From Stdlib Require Import ZArith Lia Bool SpecFloat.
From stdpp Require Import base numbers.
From S2P Require Import Prelude.

Definition f64_sign (bits : Z) : bool := Z.testbit bits 63.
Definition f64_exponent (bits : Z) : Z := Z.land (Z.shiftr bits 52) 2047.
Definition f64_fraction (bits : Z) : Z := Z.land bits 4503599627370495.

Definition f64_decode (bits : Z) : spec_float :=
  let s := f64_sign bits in
  let e := f64_exponent bits in
  let m := f64_fraction bits in
  if e =? 2047 then (if m =? 0 then S754_infinity s else S754_nan)
  else if e =? 0 then
    match m with Zpos p => S754_finite s p (-1074) | _ => S754_zero s end
  else
    match m + 4503599627370496 with
    | Zpos p => S754_finite s p (e - 1075)
    | _ => S754_zero s
    end.

(** [isfinite] on a double. *)
Definition f64_isfinite (bits : Z) : bool := negb (f64_exponent bits =? 2047).

Definition f64_le (a b : spec_float) : bool := SFleb a b.
Definition f64_lt (a b : spec_float) : bool := SFltb a b.

(** [value <= 0.0] and [value < 0.0] and [value != 0.0]. *)
Definition f64_le_zero (bits : Z) : bool := f64_le (f64_decode bits) (S754_zero false).
Definition f64_lt_zero (bits : Z) : bool := f64_lt (f64_decode bits) (S754_zero false).
Definition f64_ne_zero (bits : Z) : bool := negb (SFeqb (f64_decode bits) (S754_zero false)).
Definition f64_le_one (bits : Z) : bool := f64_le (f64_decode bits) (f64_decode 0x3ff0000000000000).

(** [a < b] on doubles given by their patterns. *)
Definition f64_bits_lt (a b : Z) : bool := f64_lt (f64_decode a) (f64_decode b).

(** Conversion to [float]: round to nearest even at 24 bits of precision. *)
Definition f32_of_f64 (bits : Z) : spec_float :=
  match f64_decode bits with
  | S754_finite s m e =>
      binary_normalize 24 128 (if s then Zneg m else Zpos m) e s
  | x => x
  end.

Definition f32_isfinite (x : spec_float) : bool :=
  match x with S754_infinity _ | S754_nan => false | _ => true end.

Definition f32_le_zero (x : spec_float) : bool := SFleb x (S754_zero false).

(** Conversion of a [float], given by its 32-bit pattern, to [double]: exact on
    numbers and infinities; a NaN keeps its payload and becomes quiet. *)
Definition f64_of_f32 (bits : Z) : Z :=
  let sign := Z.shiftl (Z.shiftr bits 31) 63 in
  let e := Z.land (Z.shiftr bits 23) 255 in
  let m := Z.land bits 8388607 in
  if e =? 255 then
    Z.lor sign (if m =? 0 then Z.shiftl 2047 52
                else Z.lor (Z.shiftl 4095 51) (Z.shiftl m 29))
  else if e =? 0 then
    if m =? 0 then sign
    else let k := Z.log2 m in
         Z.lor sign (Z.lor (Z.shiftl (k + 874) 52) (Z.shiftl (m - 2 ^ k) (52 - k)))
  else Z.lor sign (Z.lor (Z.shiftl (e + 896) 52) (Z.shiftl m 29)).

(** Patterns of the constants used below: 0.0, 1.0, and the greatest float. *)
Definition F64_ZERO : Z := 0.
Definition F64_ONE : Z := 0x3ff0000000000000.
Definition F64_FLT_MAX : Z := 0x47efffffe0000000.
Definition F64_NEG_FLT_MAX : Z := 0xc7efffffe0000000.

Example f64_examples :
  f64_le_zero F64_ONE = false /\ f64_le_zero 0xbff0000000000000 = true /\
  f64_le_zero 0x8000000000000000 = true /\ f64_isfinite 0x7ff0000000000000 = false /\
  f64_isfinite F64_FLT_MAX = true /\ f64_bits_lt F64_NEG_FLT_MAX F64_ONE = true /\
  f32_isfinite (f32_of_f64 F64_FLT_MAX) = true /\
  f32_isfinite (f32_of_f64 0x47effffff0000000) = false.
Proof. vm_compute. tauto. Qed.

(** 1.0, the least positive float (2^-149), the greatest float, minus infinity. *)
Example f32_examples :
  f64_of_f32 0x3f800000 = F64_ONE /\ f64_of_f32 1 = 0x36a0000000000000 /\
  f64_of_f32 0x7f7fffff = F64_FLT_MAX /\ f64_of_f32 0xff800000 = 0xfff0000000000000 /\
  f64_of_f32 0x00400000 = 0x3800000000000000 /\ f64_of_f32 0x7f800001 = 0x7ff8000020000000.
Proof. vm_compute. tauto. Qed.
