(* ===== verification/Qtype.v ===== *)
(** * Qtype: tensor element types and their storage ([src/gguf/qtype.c])

    The registry of the 43 element types of the GGUF format and the computation
    of the bytes a tensor occupies: the row width is divided into blocks, and the
    products are checked for overflow.  The result structure is modelled with the
    fields it holds when a check refuses; its pointer is taken to be present. *)

From Stdlib Require Import ZArith Lia Bool.
From stdpp Require Import base list option numbers strings.
From S2P Require Import Prelude Core.

(** * Code *)

Definition YVEX_GGUF_QTYPE_ABI_UPSTREAM_MAX_ID : Z := 42.
Definition YVEX_GGUF_QTYPE_MAX_DIMS : Z := 4.

Inductive yvex_gguf_qtype_identity_status : Type :=
  | IDENTITY_ADMITTED
  | IDENTITY_REMOVED
  | IDENTITY_RESERVED
  | IDENTITY_OUTSIDE_BASELINE
  | IDENTITY_UNKNOWN.

#[export] Instance identity_status_eq_dec : EqDecision yvex_gguf_qtype_identity_status.
Proof. solve_decision. Defined.

Inductive yvex_gguf_qtype_storage_class : Type :=
  | STORAGE_UNKNOWN
  | STORAGE_SCALAR_FLOAT
  | STORAGE_SCALAR_INTEGER
  | STORAGE_BLOCK_QUANTIZED.

#[export] Instance storage_class_eq_dec : EqDecision yvex_gguf_qtype_storage_class.
Proof. solve_decision. Defined.

Inductive yvex_gguf_qtype_storage_status : Type :=
  | STORAGE_OK
  | STORAGE_INVALID_ARGUMENT
  | STORAGE_UNKNOWN_ID
  | STORAGE_REMOVED_ID
  | STORAGE_RESERVED_ID
  | STORAGE_OUTSIDE_BASELINE
  | STORAGE_GEOMETRY_UNAVAILABLE
  | STORAGE_INVALID_RANK
  | STORAGE_INVALID_DIMENSION
  | STORAGE_ROW_BLOCK_MISMATCH
  | STORAGE_ELEMENT_COUNT_OVERFLOW
  | STORAGE_ROW_BYTE_OVERFLOW
  | STORAGE_ROW_COUNT_OVERFLOW
  | STORAGE_TOTAL_BYTE_OVERFLOW
  | STORAGE_EXPECTED_ACTUAL_MISMATCH.

#[export] Instance storage_status_eq_dec : EqDecision yvex_gguf_qtype_storage_status.
Proof. solve_decision. Defined.

Record yvex_gguf_qtype_geometry : Type := mk_geometry {
  geo_qtype : Z;
  geo_name : string;
  geo_identity_status : yvex_gguf_qtype_identity_status;
  geo_storage_class : yvex_gguf_qtype_storage_class;
  geo_block_size : Z;
  geo_bytes_per_block : Z;
  geo_scalar_width : Z;
  geo_numeric_capability_reserved : Z;
  geo_reason : string
}.

Record yvex_gguf_qtype_storage_result : Type := mk_storage {
  sr_status : yvex_gguf_qtype_storage_status;
  sr_qtype : Z;
  sr_rank : Z;
  sr_row_width : Z;
  sr_row_count : Z;
  sr_element_count : Z;
  sr_row_bytes : Z;
  sr_total_bytes : Z;
  sr_actual_bytes : Z;
  sr_reason : string
}.

Definition qtype_geometry : list yvex_gguf_qtype_geometry :=
  let abi := "storage geometry admitted by pinned GGUF ABI" in
  let gone := "qtype ID was removed from the pinned GGUF ABI" in
  let newer := "qtype identity is newer than the pinned GGUF on-disk baseline" in
  [
    mk_geometry 0 "F32" IDENTITY_ADMITTED STORAGE_SCALAR_FLOAT 1 4 4 0 abi;
    mk_geometry 1 "F16" IDENTITY_ADMITTED STORAGE_SCALAR_FLOAT 1 2 2 0 abi;
    mk_geometry 2 "Q4_0" IDENTITY_ADMITTED STORAGE_BLOCK_QUANTIZED 32 18 0 0 abi;
    mk_geometry 3 "Q4_1" IDENTITY_ADMITTED STORAGE_BLOCK_QUANTIZED 32 20 0 0 abi;
    mk_geometry 4 "Q4_2" IDENTITY_REMOVED STORAGE_UNKNOWN 0 0 0 0 gone;
    mk_geometry 5 "Q4_3" IDENTITY_REMOVED STORAGE_UNKNOWN 0 0 0 0 gone;
    mk_geometry 6 "Q5_0" IDENTITY_ADMITTED STORAGE_BLOCK_QUANTIZED 32 22 0 0 abi;
    mk_geometry 7 "Q5_1" IDENTITY_ADMITTED STORAGE_BLOCK_QUANTIZED 32 24 0 0 abi;
    mk_geometry 8 "Q8_0" IDENTITY_ADMITTED STORAGE_BLOCK_QUANTIZED 32 34 0 0 abi;
    mk_geometry 9 "Q8_1" IDENTITY_ADMITTED STORAGE_BLOCK_QUANTIZED 32 36 0 0 abi;
    mk_geometry 10 "Q2_K" IDENTITY_ADMITTED STORAGE_BLOCK_QUANTIZED 256 84 0 0 abi;
    mk_geometry 11 "Q3_K" IDENTITY_ADMITTED STORAGE_BLOCK_QUANTIZED 256 110 0 0 abi;
    mk_geometry 12 "Q4_K" IDENTITY_ADMITTED STORAGE_BLOCK_QUANTIZED 256 144 0 0 abi;
    mk_geometry 13 "Q5_K" IDENTITY_ADMITTED STORAGE_BLOCK_QUANTIZED 256 176 0 0 abi;
    mk_geometry 14 "Q6_K" IDENTITY_ADMITTED STORAGE_BLOCK_QUANTIZED 256 210 0 0 abi;
    mk_geometry 15 "Q8_K" IDENTITY_ADMITTED STORAGE_BLOCK_QUANTIZED 256 292 0 0 abi;
    mk_geometry 16 "IQ2_XXS" IDENTITY_ADMITTED STORAGE_BLOCK_QUANTIZED 256 66 0 0 abi;
    mk_geometry 17 "IQ2_XS" IDENTITY_ADMITTED STORAGE_BLOCK_QUANTIZED 256 74 0 0 abi;
    mk_geometry 18 "IQ3_XXS" IDENTITY_ADMITTED STORAGE_BLOCK_QUANTIZED 256 98 0 0 abi;
    mk_geometry 19 "IQ1_S" IDENTITY_ADMITTED STORAGE_BLOCK_QUANTIZED 256 50 0 0 abi;
    mk_geometry 20 "IQ4_NL" IDENTITY_ADMITTED STORAGE_BLOCK_QUANTIZED 32 18 0 0 abi;
    mk_geometry 21 "IQ3_S" IDENTITY_ADMITTED STORAGE_BLOCK_QUANTIZED 256 110 0 0 abi;
    mk_geometry 22 "IQ2_S" IDENTITY_ADMITTED STORAGE_BLOCK_QUANTIZED 256 82 0 0 abi;
    mk_geometry 23 "IQ4_XS" IDENTITY_ADMITTED STORAGE_BLOCK_QUANTIZED 256 136 0 0 abi;
    mk_geometry 24 "I8" IDENTITY_ADMITTED STORAGE_SCALAR_INTEGER 1 1 1 0 abi;
    mk_geometry 25 "I16" IDENTITY_ADMITTED STORAGE_SCALAR_INTEGER 1 2 2 0 abi;
    mk_geometry 26 "I32" IDENTITY_ADMITTED STORAGE_SCALAR_INTEGER 1 4 4 0 abi;
    mk_geometry 27 "I64" IDENTITY_ADMITTED STORAGE_SCALAR_INTEGER 1 8 8 0 abi;
    mk_geometry 28 "F64" IDENTITY_ADMITTED STORAGE_SCALAR_FLOAT 1 8 8 0 abi;
    mk_geometry 29 "IQ1_M" IDENTITY_ADMITTED STORAGE_BLOCK_QUANTIZED 256 56 0 0 abi;
    mk_geometry 30 "BF16" IDENTITY_ADMITTED STORAGE_SCALAR_FLOAT 1 2 2 0 abi;
    mk_geometry 31 "Q4_0_4_4" IDENTITY_REMOVED STORAGE_UNKNOWN 0 0 0 0 gone;
    mk_geometry 32 "Q4_0_4_8" IDENTITY_REMOVED STORAGE_UNKNOWN 0 0 0 0 gone;
    mk_geometry 33 "Q4_0_8_8" IDENTITY_REMOVED STORAGE_UNKNOWN 0 0 0 0 gone;
    mk_geometry 34 "TQ1_0" IDENTITY_ADMITTED STORAGE_BLOCK_QUANTIZED 256 54 0 0 abi;
    mk_geometry 35 "TQ2_0" IDENTITY_ADMITTED STORAGE_BLOCK_QUANTIZED 256 66 0 0 abi;
    mk_geometry 36 "IQ4_NL_4_4" IDENTITY_REMOVED STORAGE_UNKNOWN 0 0 0 0 gone;
    mk_geometry 37 "IQ4_NL_4_8" IDENTITY_REMOVED STORAGE_UNKNOWN 0 0 0 0 gone;
    mk_geometry 38 "IQ4_NL_8_8" IDENTITY_REMOVED STORAGE_UNKNOWN 0 0 0 0 gone;
    mk_geometry 39 "MXFP4" IDENTITY_ADMITTED STORAGE_BLOCK_QUANTIZED 32 17 0 0 abi;
    mk_geometry 40 "NVFP4" IDENTITY_OUTSIDE_BASELINE STORAGE_BLOCK_QUANTIZED 64 36 0 0 newer;
    mk_geometry 41 "Q1_0" IDENTITY_OUTSIDE_BASELINE STORAGE_BLOCK_QUANTIZED 128 18 0 0 newer;
    mk_geometry 42 "Q2_0" IDENTITY_OUTSIDE_BASELINE STORAGE_BLOCK_QUANTIZED 64 18 0 0 newer
  ].

Definition yvex_gguf_qtype_geometry_count : Z := zlen qtype_geometry.

Definition yvex_gguf_qtype_geometry_at (index : Z) : option yvex_gguf_qtype_geometry :=
  if yvex_gguf_qtype_geometry_count <=? index then None else zget qtype_geometry index.

(** The table has a row for every identifier up to the greatest, so that the read
    is inside it; [qtype_find_row] below shows it. *)
Definition yvex_gguf_qtype_geometry_find (qtype : Z) : outcome (option yvex_gguf_qtype_geometry) :=
  if YVEX_GGUF_QTYPE_ABI_UPSTREAM_MAX_ID <? qtype then Done None
  else row ← read_at qtype_geometry qtype; Done (Some row).

Definition yvex_gguf_qtype_geometry_find_by_name (name : option string) : option yvex_gguf_qtype_geometry :=
  name ← name;
  snd <$> list_find (fun row => geo_name row = name) qtype_geometry.

Definition yvex_gguf_qtype_name (qtype : Z) : outcome string :=
  geometry ← yvex_gguf_qtype_geometry_find qtype;
  Done (match geometry with Some g => geo_name g | None => "UNKNOWN" end).

Definition yvex_gguf_qtype_identity_status_name (status : yvex_gguf_qtype_identity_status) : string :=
  match status with
  | IDENTITY_ADMITTED => "admitted"
  | IDENTITY_REMOVED => "removed"
  | IDENTITY_RESERVED => "reserved"
  | IDENTITY_OUTSIDE_BASELINE => "outside-baseline"
  | IDENTITY_UNKNOWN => "unknown"
  end.

(** [storage_status_texts]: the name and the reason of a status. *)
Definition storage_status_texts (status : yvex_gguf_qtype_storage_status) : string * string :=
  match status with
  | STORAGE_OK =>
      ("ok",
       "GGUF tensor row geometry accepted")
  | STORAGE_INVALID_ARGUMENT =>
      ("invalid-argument",
       "qtype storage requires dimensions and an output result")
  | STORAGE_UNKNOWN_ID =>
      ("unknown-qtype-id",
       "unknown GGUF qtype ID")
  | STORAGE_REMOVED_ID =>
      ("removed-qtype-id",
       "GGUF qtype ID was removed from the pinned on-disk ABI")
  | STORAGE_RESERVED_ID =>
      ("reserved-qtype-id",
       "GGUF qtype ID is reserved by the pinned on-disk ABI")
  | STORAGE_OUTSIDE_BASELINE =>
      ("outside-on-disk-baseline",
       "GGUF qtype ID is outside the pinned on-disk ABI")
  | STORAGE_GEOMETRY_UNAVAILABLE =>
      ("storage-geometry-unavailable",
       "admitted GGUF qtype has no storage geometry")
  | STORAGE_INVALID_RANK =>
      ("invalid-rank",
       "GGUF tensor rank is outside the admitted range")
  | STORAGE_INVALID_DIMENSION =>
      ("invalid-dimension",
       "GGUF tensor dimension is zero")
  | STORAGE_ROW_BLOCK_MISMATCH =>
      ("row-width-block-mismatch",
       "GGUF row width is not divisible by qtype block width")
  | STORAGE_ELEMENT_COUNT_OVERFLOW =>
      ("element-count-overflow",
       "GGUF tensor element count overflows")
  | STORAGE_ROW_BYTE_OVERFLOW =>
      ("row-byte-overflow",
       "GGUF qtype row byte count overflows")
  | STORAGE_ROW_COUNT_OVERFLOW =>
      ("row-count-overflow",
       "GGUF tensor row count overflows")
  | STORAGE_TOTAL_BYTE_OVERFLOW =>
      ("total-byte-overflow",
       "GGUF tensor total byte count overflows")
  | STORAGE_EXPECTED_ACTUAL_MISMATCH =>
      ("expected-actual-storage-mismatch",
       "GGUF tensor storage bytes do not match qtype row geometry")
  end.

Definition yvex_gguf_qtype_storage_status_name (status : yvex_gguf_qtype_storage_status) : string :=
  (storage_status_texts status).1.

Definition storage_status_reason (status : yvex_gguf_qtype_storage_status) : string :=
  (storage_status_texts status).2.

Definition qtype_admission_status (geometry : option yvex_gguf_qtype_geometry)
    : yvex_gguf_qtype_storage_status :=
  match geometry with
  | None => STORAGE_UNKNOWN_ID
  | Some g =>
      match geo_identity_status g with
      | IDENTITY_ADMITTED =>
          if bool_decide (geo_storage_class g = STORAGE_UNKNOWN) || (geo_block_size g =? 0)
             || (geo_bytes_per_block g =? 0)
          then STORAGE_GEOMETRY_UNAVAILABLE else STORAGE_OK
      | IDENTITY_REMOVED => STORAGE_REMOVED_ID
      | IDENTITY_RESERVED => STORAGE_RESERVED_ID
      | IDENTITY_OUTSIDE_BASELINE => STORAGE_OUTSIDE_BASELINE
      | IDENTITY_UNKNOWN => STORAGE_UNKNOWN_ID
      end
  end.

Definition set_storage_status (out : yvex_gguf_qtype_storage_result) (status : yvex_gguf_qtype_storage_status)
    : yvex_gguf_qtype_storage_result :=
  mk_storage status (sr_qtype out) (sr_rank out) (sr_row_width out) (sr_row_count out)
    (sr_element_count out) (sr_row_bytes out) (sr_total_bytes out) (sr_actual_bytes out)
    (storage_status_reason status).

(** The result after [memset] and the first assignments. *)
Definition storage_start (qtype rank : Z) : yvex_gguf_qtype_storage_result :=
  mk_storage STORAGE_INVALID_ARGUMENT qtype rank 0 0 0 0 0 0 (storage_status_reason STORAGE_INVALID_ARGUMENT).

(** The result once the row width, the row count, the element count, the bytes of
    a row and of the tensor are assigned. *)
Definition storage_fields (qtype rank width count elements row_bytes total : Z) : yvex_gguf_qtype_storage_result :=
  mk_storage STORAGE_INVALID_ARGUMENT qtype rank width count elements row_bytes total 0
    (storage_status_reason STORAGE_INVALID_ARGUMENT).

(** [for (i = 1; i < rank; ++i) if (!mul(row_count, dims[i], &row_count)) return]:
    the last product that fits, and whether every one did. *)
Fixpoint row_count_loop (n : nat) (dims : list Z) (i count : Z) : outcome (Z * bool) :=
  match n with
  | O => Done (count, true)
  | S n =>
      d ← read_at dims i;
      match yvex_core_u64_mul count d with
      | Some product => row_count_loop n dims (i + 1) product
      | None => Done (count, false)
      end
  end.

(** The tensor whose dimensions are [dims]; the status returned is the one the
    result holds. *)
Definition yvex_gguf_qtype_tensor_storage (qtype : Z) (dims : option (list Z)) (rank : Z)
    : outcome yvex_gguf_qtype_storage_result :=
  match dims with
  | None => Done (storage_start qtype rank)
  | Some dims =>
      let start := storage_start qtype rank in
      geometry ← yvex_gguf_qtype_geometry_find qtype;
      let status := qtype_admission_status geometry in
      if negb (bool_decide (status = STORAGE_OK)) then Done (set_storage_status start status) else
      if (rank =? 0) || (YVEX_GGUF_QTYPE_MAX_DIMS <? rank)
      then Done (set_storage_status start STORAGE_INVALID_RANK) else
      zero ← existsO (fun i => d ← read_at dims i; Done (d =? 0)) (zseq rank);
      if zero : bool then Done (set_storage_status start STORAGE_INVALID_DIMENSION) else
      g ← deref geometry;
      width ← read_at dims 0;
      if negb (width mod geo_block_size g =? 0)
      then Done (set_storage_status (storage_fields qtype rank width 0 0 0 0) STORAGE_ROW_BLOCK_MISMATCH) else
      let blocks := width / geo_block_size g in
      match yvex_core_u64_mul blocks (geo_bytes_per_block g) with
      | None => Done (set_storage_status (storage_fields qtype rank width 0 0 0 0) STORAGE_ROW_BYTE_OVERFLOW)
      | Some row_bytes =>
          '(count, fits) ← row_count_loop (Z.to_nat (rank - 1)) dims 1 1;
          if negb fits
          then Done (set_storage_status (storage_fields qtype rank width count 0 row_bytes 0)
                       STORAGE_ROW_COUNT_OVERFLOW) else
          match yvex_core_u64_mul width count with
          | None => Done (set_storage_status (storage_fields qtype rank width count 0 row_bytes 0)
                            STORAGE_ELEMENT_COUNT_OVERFLOW)
          | Some elements =>
              match yvex_core_u64_mul row_bytes count with
              | None => Done (set_storage_status (storage_fields qtype rank width count elements row_bytes 0)
                                STORAGE_TOTAL_BYTE_OVERFLOW)
              | Some total => Done (set_storage_status
                                      (storage_fields qtype rank width count elements row_bytes total) STORAGE_OK)
              end
          end
      end
  end.

Definition yvex_gguf_qtype_validate_tensor_storage (qtype : Z) (dims : option (list Z)) (rank actual : Z)
    : outcome yvex_gguf_qtype_storage_result :=
  out ← yvex_gguf_qtype_tensor_storage qtype dims rank;
  if negb (bool_decide (sr_status out = STORAGE_OK)) then Done out else
  let out := mk_storage (sr_status out) (sr_qtype out) (sr_rank out) (sr_row_width out) (sr_row_count out)
               (sr_element_count out) (sr_row_bytes out) (sr_total_bytes out) actual (sr_reason out) in
  if sr_total_bytes out =? actual then Done out
  else Done (set_storage_status out STORAGE_EXPECTED_ACTUAL_MISMATCH).

Definition yvex_gguf_qtype_supported_for_storage (qtype : Z) : outcome (bool * string) :=
  geometry ← yvex_gguf_qtype_geometry_find qtype;
  let status := qtype_admission_status geometry in
  Done (bool_decide (status = STORAGE_OK), storage_status_reason status).

(** The bytes of one row, or nothing, and the reason. *)
Definition yvex_gguf_qtype_storage_bytes (qtype row_element_count : Z) : outcome (option Z * string) :=
  result ← yvex_gguf_qtype_tensor_storage qtype (Some [row_element_count]) 1;
  Done (if bool_decide (sr_status result = STORAGE_OK) then Some (sr_total_bytes result) else None,
        sr_reason result).

Example qtype_examples :
  (match yvex_gguf_qtype_tensor_storage 12 (Some [512; 3; 0; 0]) 2 with
   | Done r => Some (sr_status r, sr_total_bytes r) | _ => None end) = Some (STORAGE_OK, 864)
  /\ yvex_gguf_qtype_storage_bytes 2 33 = Done (None, "GGUF row width is not divisible by qtype block width")
  /\ yvex_gguf_qtype_name 39 = Done "MXFP4".
Proof. vm_compute. tauto. Qed.

(** * Theorems *)

(** ** The registry *)

(** The facts of the table that the computation relies on. *)
Definition geometry_sane (i : Z) (g : yvex_gguf_qtype_geometry) : bool :=
  (geo_qtype g =? i)
  && (if bool_decide (geo_identity_status g = IDENTITY_ADMITTED)
      then bool_decide (geo_storage_class g <> STORAGE_UNKNOWN) && (0 <? geo_block_size g)
           && (geo_block_size g <=? 256) && (0 <? geo_bytes_per_block g) && (geo_bytes_per_block g <=? 292)
      else true).

Lemma registry_sane i g : zget qtype_geometry i = Some g -> geometry_sane i g = true.
Proof.
  intros H. assert (forallb (fun i => match zget qtype_geometry i with
    Some g => geometry_sane i g | None => false end) (zseq 43) = true) as A by (vm_compute; reflexivity).
  pose proof (zget_Some_range _ _ _ H) as Hi. change (zlen qtype_geometry) with 43 in Hi.
  pose proof (zseq_forallb _ _ A i Hi) as B. cbv beta in B. by rewrite H in B.
Qed.

Lemma qtype_find_row q :
  0 <= q -> yvex_gguf_qtype_geometry_find q = Done (zget qtype_geometry q).
Proof.
  intros Hq. unfold yvex_gguf_qtype_geometry_find, YVEX_GGUF_QTYPE_ABI_UPSTREAM_MAX_ID.
  destruct (42 <? q) eqn:E.
  - rewrite zget_None; [done|]. change (zlen qtype_geometry) with 43. lia.
  - destruct (zget_in qtype_geometry q) as (g & Hg); [change (zlen qtype_geometry) with 43; lia|].
    unfold read_at. by rewrite Hg.
Qed.

(** The row of an admitted element type. *)
Definition qtype_admitted (q : Z) : option yvex_gguf_qtype_geometry :=
  g ← zget qtype_geometry q;
  if bool_decide (geo_identity_status g = IDENTITY_ADMITTED) then Some g else None.

Lemma admission_exact q :
  match qtype_admitted q with
  | Some g => qtype_admission_status (zget qtype_geometry q) = STORAGE_OK
      /\ zget qtype_geometry q = Some g /\ 0 < geo_block_size g <= 256 /\ 0 < geo_bytes_per_block g <= 292
  | None => qtype_admission_status (zget qtype_geometry q) <> STORAGE_OK
  end.
Proof.
  unfold qtype_admitted. destruct (zget qtype_geometry q) as [g|] eqn:E; [|done]. cbn.
  apply registry_sane in E. unfold geometry_sane in E. case_bool_decide as Ha.
  - rewrite Ha. bool_hyps. rewrite bool_decide_eq_true in *.
    rewrite bool_decide_eq_false_2 by done. cbn.
    replace (geo_block_size g =? 0) with false by lia. replace (geo_bytes_per_block g =? 0) with false by lia.
    repeat split; lia.
  - by destruct (geo_identity_status g).
Qed.

(** ** The size of a tensor *)

Definition product (l : list Z) : Z := foldr Z.mul 1 l.

(** The reference: the bytes of a tensor of the element type [q] and the dimensions
    [dims], if the format admits it and its size fits 64 bits. *)
Definition tensor_bytes (q : Z) (dims : list Z) : option Z :=
  g ← qtype_admitted q;
  match dims with
  | [] => None
  | width :: rest =>
      if (zlen dims <=? YVEX_GGUF_QTYPE_MAX_DIMS) && forallb (fun d => 0 <? d) dims
         && (width mod geo_block_size g =? 0) && (product dims <=? ULLONG_MAX)
         && (width / geo_block_size g * geo_bytes_per_block g * product rest <=? ULLONG_MAX)
      then Some (width / geo_block_size g * geo_bytes_per_block g * product rest)
      else None
  end.

Lemma product_pos l : Forall (fun d => 0 < d) l -> 0 < product l.
Proof. induction 1; cbn; [lia|]. change (foldr Z.mul 1 l) with (product l). nia. Qed.

Lemma row_count_spec dims n pre count :
  Forall (fun d => 0 < d /\ is_u64 d) dims -> 0 < count -> is_u64 count ->
  (exists c, row_count_loop (length dims) (pre ++ dims ++ n) (zlen pre) count
    = Done (c, product dims * count <=? ULLONG_MAX)
    /\ (product dims * count <= ULLONG_MAX -> c = product dims * count)).
Proof.
  intros Hd. revert pre count. induction Hd as [|d dims [Hd Hu] Hds IH]; intros pre count Hc Hcu; cbn [length row_count_loop].
  { exists count. cbn. rewrite Z.mul_1_l. unfold is_u64, ULLONG_MAX, UINT64_MAX in *. split; [|done].
    by replace (count <=? 18446744073709551615) with true by lia. }
  cbn [app]. rewrite (proj2 (read_at_Done _ _ _) (zget_middle _ _ _)). cbn [mbind outcome_bind].
  assert (0 < product dims) as Hp by (apply product_pos; eapply Forall_impl; [exact Hds|naive_solver]).
  cbn [product foldr]. change (foldr Z.mul 1 dims) with (product dims).
  replace (d * product dims * count) with (product dims * (count * d)) by lia.
  destruct (yvex_core_u64_mul count d) as [p|] eqn:E.
  - apply u64_mul_Some in E as [-> Hpu]; [|done|done].
    destruct (IH (pre ++ [d]) (count * d)) as (c & E & Hc'); [nia|done|].
    rewrite <- app_assoc, zlen_snoc in E. cbn [app] in E. eauto.
  - exists count. apply u64_mul_None in E as Hn; [|done|done].
    unfold is_u64, ULLONG_MAX, UINT64_MAX in *.
    replace (product dims * (count * d) <=? 18446744073709551615) with false by nia.
    split; [done|]. nia.
Qed.

Lemma existsO_zero dims rest :
  existsO (fun i => d ← read_at (dims ++ rest) i; Done (d =? 0)) (zseq (zlen dims))
  = Done (existsb (fun d => d =? 0) dims).
Proof.
  assert (forall pre mid, existsO (fun i => d ← read_at (pre ++ mid ++ rest) i; Done (d =? 0))
    ((fun k => zlen pre + Z.of_nat k) <$> seq 0 (length mid)) = Done (existsb (fun d => d =? 0) mid)) as A.
  { intros pre mid. revert pre. induction mid as [|d mid IH]; intros pre; [done|]. cbn [length seq fmap list_fmap existsO].
    rewrite Z.add_0_r. cbn [app]. rewrite (proj2 (read_at_Done _ _ _) (zget_middle _ _ _)). cbn.
    destruct (d =? 0); [done|]. cbn. specialize (IH (pre ++ [d])).
    rewrite <- app_assoc in IH. cbn [app] in IH. rewrite <- IH. f_equal. rewrite <- fmap_S_seq, <- list_fmap_compose.
    apply list_fmap_ext. intros k j _. cbn. rewrite zlen_snoc. lia. }
  specialize (A [] dims). cbn [app] in A. rewrite <- A. f_equal. unfold zseq, zlen. rewrite Nat2Z.id.
  apply list_fmap_ext. intros; cbn; lia.
Qed.

Lemma no_zero dims :
  Forall is_u64 dims -> existsb (fun d => d =? 0) dims = negb (forallb (fun d => 0 <? d) dims).
Proof.
  induction 1 as [|d dims Hd _ IH]; [done|]. cbn. rewrite IH. unfold is_u64 in Hd.
  destruct (d =? 0) eqn:E; [replace (0 <? d) with false by lia|replace (0 <? d) with true by lia]; done.
Qed.

(** What the computation returns for the dimensions [dims] of an array that may
    be longer. *)
Definition storage_answer (q : Z) (dims : list Z) (r : yvex_gguf_qtype_storage_result) : Prop :=
  match tensor_bytes q dims with
  | Some total => sr_status r = STORAGE_OK /\ sr_total_bytes r = total /\ sr_element_count r = product dims
  | None => sr_status r <> STORAGE_OK
  end.

Lemma storage_sized q g width dims rest :
  qtype_admitted q = Some g -> zget qtype_geometry q = Some g ->
  0 < geo_block_size g <= 256 -> 0 < geo_bytes_per_block g <= 292 ->
  Forall is_u64 (width :: dims) -> forallb (fun d => 0 <? d) (width :: dims) = true ->
  zlen (width :: dims) <= YVEX_GGUF_QTYPE_MAX_DIMS -> (width mod geo_block_size g =? 0) = true ->
  exists r,
    match yvex_core_u64_mul (width / geo_block_size g) (geo_bytes_per_block g) with
    | None => Done (set_storage_status (storage_fields q (zlen (width :: dims)) width 0 0 0 0) STORAGE_ROW_BYTE_OVERFLOW)
    | Some row_bytes =>
        '(count, fits) ← row_count_loop (length dims) ((width :: dims) ++ rest) 1 1;
        if negb fits
        then Done (set_storage_status (storage_fields q (zlen (width :: dims)) width count 0 row_bytes 0)
                     STORAGE_ROW_COUNT_OVERFLOW) else
        match yvex_core_u64_mul width count with
        | None => Done (set_storage_status (storage_fields q (zlen (width :: dims)) width count 0 row_bytes 0)
                          STORAGE_ELEMENT_COUNT_OVERFLOW)
        | Some elements =>
            match yvex_core_u64_mul row_bytes count with
            | None => Done (set_storage_status (storage_fields q (zlen (width :: dims)) width count elements row_bytes 0)
                              STORAGE_TOTAL_BYTE_OVERFLOW)
            | Some total => Done (set_storage_status
                (storage_fields q (zlen (width :: dims)) width count elements row_bytes total) STORAGE_OK)
            end
        end
    end = Done r /\ storage_answer q (width :: dims) r.
Proof.
  intros Ha Hg Hb Hn Hu Hz Hl Hm. unfold storage_answer, tensor_bytes. rewrite Ha. cbn [mbind option_bind].
  rewrite Hm, Hz. replace (zlen (width :: dims) <=? YVEX_GGUF_QTYPE_MAX_DIMS) with true by lia. cbn [andb].
  apply Forall_cons_1 in Hu as [Hwu Hdu].
  assert (0 < width /\ Forall (fun d => 0 < d /\ is_u64 d) dims) as [Hw Hdp].
  { cbn in Hz. bool_hyps. split; [lia|]. rewrite Forall_forall in *. intros d Hd. split; [|by apply Hdu].
    rewrite forallb_forall in *. match goal with H : forall x, In x dims -> _ |- _ =>
      specialize (H d ltac:(by apply list_elem_of_In)) end. lia. }
  assert (0 < product dims) as Hp by (apply product_pos; eapply Forall_impl; [exact Hdp|naive_solver]).
  set (blocks := width / geo_block_size g). assert (1 <= blocks <= width) as Hbl.
  { subst blocks. split; [|apply Z.div_le_upper_bound; nia].
    assert (width mod geo_block_size g = 0) by lia.
    pose proof (Z.div_mod width (geo_block_size g) ltac:(lia)). nia. }
  cbn [product foldr]. change (foldr Z.mul 1 dims) with (product dims).
  destruct (row_count_spec dims rest [width] 1 Hdp) as (c & Ec & Hc); [lia|done|].
  rewrite Z.mul_1_r in Ec, Hc. cbn [app] in *. change (zlen [width]) with 1 in Ec.
  unfold is_u64, ULLONG_MAX, UINT64_MAX in *. set (M := 18446744073709551615) in *.
  assert (is_u64 blocks /\ is_u64 (geo_bytes_per_block g)) as [Hbu Hgu] by (unfold is_u64; lia).
  destruct (yvex_core_u64_mul blocks (geo_bytes_per_block g)) as [row|] eqn:E1.
  2:{ eexists. split; [reflexivity|].
      apply u64_mul_None in E1 as Hno; [|done|done]. unfold is_u64 in Hno. replace (blocks * geo_bytes_per_block g * product dims <=? M) with false by nia.
      rewrite andb_false_r. done. }
  apply u64_mul_Some in E1 as [-> Hru]; [|done|done].
  rewrite Ec. cbn [mbind outcome_bind].
  destruct (product dims <=? M) eqn:Ep; cbn [negb].
  2:{ eexists. split; [reflexivity|]. replace (width * product dims <=? M) with false by nia. done. }
  specialize (Hc ltac:(lia)). subst c. assert (is_u64 (product dims)) as Hpu by (unfold is_u64; lia).
  assert (is_u64 width) as Hwu' by done.
  destruct (yvex_core_u64_mul width (product dims)) as [el|] eqn:E2.
  2:{ eexists. split; [reflexivity|].
      apply u64_mul_None in E2 as Hno; [|done|done]. unfold is_u64 in Hno. replace (width * product dims <=? M) with false by nia. done. }
  apply u64_mul_Some in E2 as [-> Heu]; [|done|done]. unfold is_u64 in Heu.
  replace (width * product dims <=? M) with true by lia. cbn [andb].
  destruct (yvex_core_u64_mul (blocks * geo_bytes_per_block g) (product dims)) as [total|] eqn:E3.
  - apply u64_mul_Some in E3 as [-> Htu]; [|done|done]. unfold is_u64 in Htu.
    replace (blocks * geo_bytes_per_block g * product dims <=? M) with true by lia.
    eexists. split; [reflexivity|]. done.
  - eexists. split; [reflexivity|].
    apply u64_mul_None in E3 as Hno; [|done|done]. unfold is_u64 in Hno. replace (blocks * geo_bytes_per_block g * product dims <=? M) with false by nia. done.
Qed.

Lemma storage_exact q dims rest :
  0 <= q -> Forall is_u64 dims ->
  exists r, yvex_gguf_qtype_tensor_storage q (Some (dims ++ rest)) (zlen dims) = Done r
    /\ storage_answer q dims r.
Proof.
  intros Hq Hu. unfold yvex_gguf_qtype_tensor_storage. rewrite qtype_find_row by done. cbn [mbind outcome_bind].
  pose proof (admission_exact q) as Ha. unfold storage_answer.
  destruct (qtype_admitted q) as [g|] eqn:Eg.
  2:{ rewrite bool_decide_eq_false_2 by done. eexists. split; [reflexivity|].
      unfold tensor_bytes. by rewrite Eg. }
  destruct Ha as (-> & Hg & Hb & Hn). rewrite bool_decide_eq_true_2 by done. cbn [negb].
  destruct ((zlen dims =? 0) || (YVEX_GGUF_QTYPE_MAX_DIMS <? zlen dims)) eqn:Er.
  { eexists. split; [reflexivity|]. unfold tensor_bytes. rewrite Eg. cbn.
    destruct dims as [|w dims]; [done|]. pose proof (zlen_nonneg dims). autorewrite with zlen in Er.
    rewrite zlen_cons. unfold YVEX_GGUF_QTYPE_MAX_DIMS in *. by replace (zlen dims + 1 <=? 4) with false by lia. }
  rewrite existsO_zero, no_zero by done. cbn [mbind outcome_bind].
  destruct dims as [|w dims]; [done|].
  destruct (forallb (fun d => 0 <? d) (w :: dims)) eqn:Ez; cbn [negb].
  2:{ eexists. split; [reflexivity|]. unfold tensor_bytes. rewrite Eg. cbn [mbind option_bind].
      rewrite Ez, andb_false_r. done. }
  rewrite Hg. cbn [deref mbind outcome_bind app]. change (read_at (w :: dims ++ rest) 0) with (read_at ([] ++ w :: dims ++ rest) (zlen (@nil Z))).
  rewrite (proj2 (read_at_Done _ _ _) (zget_middle _ _ _)). cbn [mbind outcome_bind app].
  destruct (w mod geo_block_size g =? 0) eqn:Em; cbn [negb].
  2:{ eexists. split; [reflexivity|]. unfold tensor_bytes. rewrite Eg. cbn [mbind option_bind].
      rewrite Em, andb_false_r. done. }
  replace (Z.to_nat (zlen (w :: dims) - 1)) with (length dims) by (rewrite zlen_cons; unfold zlen; lia).
  apply orb_false_iff in Er as [_ Er]. apply storage_sized; try done. lia.
Qed.

(** ** Properties *)

(** C26: The bytes computed for a tensor are the reference size.  For every element
    type, every array of dimensions and every rank inside it, the computation
    reads nothing outside the array and succeeds exactly when the type is
    admitted, there are one to four positive dimensions, the block width divides
    the row and no product leaves 64 bits; it then returns the exact bytes and the
    exact number of elements. *)
Theorem qtype_storage_exact q dims rank :
  0 <= q -> Forall is_u64 dims -> 0 <= rank <= zlen dims ->
  exists r, yvex_gguf_qtype_tensor_storage q (Some dims) rank = Done r
    /\ storage_answer q (take (Z.to_nat rank) dims) r.
Proof.
  intros Hq Hu Hr. destruct (storage_exact q (take (Z.to_nat rank) dims) (drop (Z.to_nat rank) dims))
    as (r & E & Ha); [done|by apply Forall_take|].
  rewrite take_drop in E. unfold zlen in *. rewrite length_take, Nat.min_l, Z2Nat.id in E by lia. eauto.
Qed.

Lemma qtype_storage_exact_witness :
  exists r, yvex_gguf_qtype_tensor_storage 12 (Some [512; 3; 0; 0]) 2 = Done r
    /\ sr_status r = STORAGE_OK /\ sr_total_bytes r = 864 /\ sr_element_count r = 1536.
Proof.
  destruct (qtype_storage_exact 12 [512; 3; 0; 0] 2) as (r & E & Ha); [lia| |vm_compute; split; discriminate|].
  - repeat apply Forall_cons_2; try apply Forall_nil_2; unfold is_u64; lia.
  - exists r. split; [exact E|]. vm_compute in Ha. exact Ha.
Defined.

(** The registry lists the identifiers in order, under distinct names: the name of
    a type leads back to its row. *)
Lemma qtype_names_unique q g :
  zget qtype_geometry q = Some g ->
  geo_qtype g = q /\ yvex_gguf_qtype_geometry_find_by_name (Some (geo_name g)) = Some g.
Proof.
  intros H. pose proof (registry_sane _ _ H) as Hs. unfold geometry_sane in Hs. bool_hyps. split; [lia|].
  unfold yvex_gguf_qtype_geometry_find_by_name. cbn [mbind option_bind].
  destruct (list_find (fun row => geo_name row = geo_name g) qtype_geometry) as [[i g']|] eqn:E.
  - apply list_find_Some in E as (E & Hn & _). cbn. f_equal.
    assert (NoDup (geo_name <$> qtype_geometry)) as Hd by (apply (bool_decide_unpack _); vm_compute; exact I).
    pose proof (zget_Some_range _ _ _ H) as Hr. rewrite zget_lookup in H by done.
    assert (Z.to_nat q = i) as <-; [|congruence].
    eapply (NoDup_lookup _ _ _ (geo_name g) Hd); rewrite list_lookup_fmap.
    + by rewrite H.
    + by rewrite E; cbn; rewrite Hn.
  - exfalso. rewrite list_find_None, Forall_forall in E. apply (E g); [by apply zget_elem_of in H|done].
Qed.
