(* ===== verification/Artifact.v ===== *)
(** * Artifact: positioned reads of one file ([src/artifact/core.c])

    An artifact handle is bound to the identity its file had when it was opened.
    Its reads are positioned and exact: they loop over [pread], which may be
    interrupted, fail, or return fewer bytes than asked.  The answers of the
    kernel are arguments; a list of answers describes the calls before the kernel
    returns all that remains, so that every finite behaviour of [pread] is one
    list.  The bytes behind an open handle do not change while it is read;
    [yvex_artifact_snapshot_validate] is how the program checks that. *)

From Stdlib Require Import ZArith Lia Bool.
From stdpp Require Import base list option numbers strings sets.
From S2P Require Import Prelude Core.

(** * Code *)

Definition INT64_MAX : Z := 9223372036854775807.

Record yvex_artifact_snapshot : Type := mk_snapshot {
  sn_device : Z;
  sn_inode : Z;
  sn_size : Z;
  sn_mtime_seconds : Z;
  sn_mtime_nanoseconds : Z;
  sn_ctime_seconds : Z;
  sn_ctime_nanoseconds : Z
}.

#[export] Instance snapshot_eq_dec : EqDecision yvex_artifact_snapshot.
Proof. solve_decision. Defined.

(** An open handle: the size and the identity it captured, and the bytes its
    descriptor reads. *)
Record yvex_artifact : Type := mk_artifact {
  a_size : Z;
  a_snapshot : yvex_artifact_snapshot;
  a_bytes : list Z
}.

Definition yvex_artifact_size (artifact : option yvex_artifact) : Z :=
  match artifact with Some a => a_size a | None => 0 end.

Definition yvex_artifact_snapshot_equal (left right : yvex_artifact_snapshot) : bool :=
  bool_decide (left = right).

(** The bytes [offset .. offset + count) of a file. *)
Definition slice (data : list Z) (offset count : Z) : list Z :=
  take (Z.to_nat count) (drop (Z.to_nat offset) data).

Definition yvex_range_check (file_size offset len : Z) : outcome unit :=
  if file_size <? offset then Refuse YVEX_ERR_BOUNDS "offset exceeds file size" else
  if file_size - offset <? len then Refuse YVEX_ERR_BOUNDS "range exceeds file size" else
  Done tt.

(** What one call of [pread] does when bytes remain to be read. *)
Inductive pread_answer : Type :=
  | PreadInterrupted
  | PreadFailed
  | PreadBytes (n : Z).

(** [while (done < len)]: [got] are the bytes already stored. *)
Fixpoint pread_loop (answers : list pread_answer) (data : list Z) (offset len : Z) (got : list Z)
    : outcome (list Z) :=
  if len <=? zlen got then Done got else
  let current := u64 (offset + zlen got) in
  if INT64_MAX <? current
  then Refuse YVEX_ERR_BOUNDS "artifact offset exceeds positioned IO range" else
  let available := Z.min (len - zlen got) (zlen data - current) in
  match answers with
  | PreadInterrupted :: answers => pread_loop answers data offset len got
  | PreadFailed :: _ => Refuse YVEX_ERR_IO "positioned read failed"
  | PreadBytes n :: answers =>
      if available <=? 0 then Refuse YVEX_ERR_IO "short read"
      else pread_loop answers data offset len
             (got ++ slice data current (Z.max 1 (Z.min n available)))
  | [] =>
      if available <? len - zlen got then Refuse YVEX_ERR_IO "short read"
      else Done (got ++ slice data current available)
  end.

Definition yvex_artifact_read_at (artifact : yvex_artifact) (answers : list pread_answer) (offset len : Z)
    : outcome (list Z) :=
  match yvex_range_check (a_size artifact) offset len with
  | Refuse _ reason => Refuse YVEX_ERR_BOUNDS reason
  | Fault f => Fault f
  | Done _ => pread_loop answers (a_bytes artifact) offset len []
  end.

(** The two identities the kernel reports: of the descriptor and of the path,
    absent when the file cannot be examined or is not a regular file. *)
Definition yvex_artifact_snapshot_validate (artifact : yvex_artifact)
    (stat : option yvex_artifact_snapshot * option yvex_artifact_snapshot) : outcome unit :=
  match stat.1 with
  | None => Refuse YVEX_ERR_IO "artifact-identity-drift: opened file cannot be restated"
  | Some open_snapshot =>
      if negb (yvex_artifact_snapshot_equal (a_snapshot artifact) open_snapshot)
      then Refuse YVEX_ERR_FORMAT "artifact-identity-drift: opened file changed after admission" else
      match stat.2 with
      | None => Refuse YVEX_ERR_FORMAT "artifact-identity-drift: artifact path is unavailable or unsafe"
      | Some path_snapshot =>
          if negb (yvex_artifact_snapshot_equal (a_snapshot artifact) path_snapshot)
          then Refuse YVEX_ERR_FORMAT "artifact-identity-drift: artifact path identity changed"
          else Done tt
      end
  end.

(** * Theorems *)

Lemma slice_length data offset count :
  0 <= offset -> 0 <= count -> offset + count <= zlen data -> zlen (slice data offset count) = count.
Proof. intros. unfold slice, zlen in *. rewrite length_take, length_drop. lia. Qed.

Lemma slice_app data offset a b :
  0 <= offset -> 0 <= a -> 0 <= b -> slice data offset (a + b) = slice data offset a ++ slice data (offset + a) b.
Proof.
  intros. unfold slice. rewrite Z2Nat.inj_add by lia. rewrite <- take_take_drop. f_equal. f_equal.
  rewrite drop_drop. f_equal. lia.
Qed.

Lemma slice_zero data offset : slice data offset 0 = [].
Proof. done. Qed.

Lemma slice_take data offset count k :
  0 <= k <= count -> take (Z.to_nat k) (slice data offset count) = slice data offset k.
Proof. intros. unfold slice. rewrite take_take. f_equal. lia. Qed.

Lemma drop_slice data offset count :
  0 <= offset -> 0 <= count ->
  drop (Z.to_nat offset) data = slice data offset count ++ drop (Z.to_nat (offset + count)) data.
Proof.
  intros. unfold slice. rewrite <- (take_drop (Z.to_nat count) (drop (Z.to_nat offset) data)) at 1. f_equal.
  rewrite drop_drop. f_equal. lia.
Qed.

(** ** Exact reads *)

(** What a read of [len] bytes at [offset] returns once [got] are stored. *)
Definition read_answer (data : list Z) (offset len : Z) (answers : list pread_answer) (r : outcome (list Z)) : Prop :=
  match r with
  | Done bytes => bytes = slice data offset len /\ offset + len <= zlen data
  | Refuse _ _ => PreadFailed ∈ answers \/ zlen data < offset + len \/ INT64_MAX < offset + len
  | Fault _ => False
  end.

Lemma pread_exact answers data offset len got :
  0 <= offset -> offset + len < 2 ^ 64 -> 0 <= len ->
  got = slice data offset (zlen got) -> zlen got <= len -> offset + zlen got <= zlen data ->
  read_answer data offset len answers (pread_loop answers data offset len got).
Proof.
  intros Ho Hl Hn. revert got. induction answers as [|a answers IH]; intros got Hg Hle Hd; cbn [pread_loop];
    pose proof (zlen_nonneg got) as Hz; (destruct (len <=? zlen got) eqn:E1;
      [replace len with (zlen got) by lia; split; [done|lia]|]);
    rewrite u64_id by (unfold is_u64; lia); (destruct (INT64_MAX <? offset + zlen got) eqn:E2;
      [right; right; lia|]); set (available := Z.min (len - zlen got) (zlen data - (offset + zlen got))).
  - destruct (available <? len - zlen got) eqn:E3; [right; left; lia|].
    split; [|lia]. rewrite Hg at 1. rewrite <- slice_app by lia. f_equal. lia.
  - destruct a as [| |n].
    + specialize (IH got Hg Hle Hd). revert IH. unfold read_answer.
      case_match; [done| |done]. set_solver.
    + left. set_solver.
    + destruct (available <=? 0) eqn:E3; [right; left; lia|].
      set (k := Z.max 1 (Z.min n available)).
      assert (zlen (slice data (offset + zlen got) k) = k) as Hk by (apply slice_length; lia).
      specialize (IH (got ++ slice data (offset + zlen got) k)). rewrite zlen_app, Hk in IH.
      assert (read_answer data offset len answers
        (pread_loop answers data offset len (got ++ slice data (offset + zlen got) k))) as A.
      { apply IH; [|lia|lia]. rewrite Hg at 1. by rewrite slice_app by lia. }
      revert A. unfold read_answer. case_match; [done| |done]. set_solver.
Qed.

(** A positioned read is exact.  Whatever [pread] does, the read returns all
    the bytes asked for, taken from the file at the offset, or it refuses; and it
    refuses only a range outside the file, a failed call, or an offset the
    platform cannot address. *)
Theorem artifact_read_exact artifact answers offset len :
  0 <= offset -> 0 <= len -> is_u64 (a_size artifact) ->
  match yvex_artifact_read_at artifact answers offset len with
  | Done bytes => bytes = slice (a_bytes artifact) offset len /\ zlen bytes = len
      /\ offset + len <= a_size artifact
  | Refuse _ _ => a_size artifact < offset + len \/ PreadFailed ∈ answers
      \/ zlen (a_bytes artifact) < offset + len \/ INT64_MAX < offset + len
  | Fault _ => False
  end.
Proof.
  intros Ho Hl Hs. unfold is_u64 in Hs. unfold yvex_artifact_read_at, yvex_range_check.
  destruct (a_size artifact <? offset) eqn:E1; [left; lia|].
  destruct (a_size artifact - offset <? len) eqn:E2; [left; lia|].
  destruct (decide (offset <= zlen (a_bytes artifact))) as [Hin|Hout].
  - pose proof (pread_exact answers (a_bytes artifact) offset len [] Ho ltac:(lia) Hl ltac:(done)
      ltac:(done) ltac:(rewrite zlen_nil; lia)) as H. revert H. unfold read_answer.
    case_match; [|by eauto|done]. intros [-> ?]. split; [done|]. split; [by apply slice_length|lia].
  - assert (forall got, got = [] -> match pread_loop answers (a_bytes artifact) offset len got with
      | Done bytes => len = 0 /\ bytes = [] | Refuse _ _ => True | Fault _ => False end) as A.
    { induction answers as [|a answers IH]; intros got ->; cbn [pread_loop]; rewrite zlen_nil, ?Z.add_0_r.
      - destruct (len <=? 0) eqn:E3; [split; [lia|done]|]. rewrite u64_id by (unfold is_u64; lia).
        destruct (INT64_MAX <? offset); [done|]. destruct (Z.min _ _ <? _) eqn:E4; [done|exfalso; lia].
      - destruct (len <=? 0) eqn:E3; [split; [lia|done]|]. rewrite u64_id by (unfold is_u64; lia).
        destruct (INT64_MAX <? offset); [done|]. destruct a; [by apply IH|done|].
        destruct (Z.min _ _ <=? 0) eqn:E4; [done|exfalso; lia]. }
    specialize (A [] eq_refl). case_match; [|right; right; left; lia|done].
    destruct A as [-> ->]. unfold slice. cbn. split; [done|]. split; [done|lia].
Qed.

Lemma artifact_read_exact_witness :
  match yvex_artifact_read_at (mk_artifact 4 (mk_snapshot 1 2 4 0 0 0 0) [10; 20; 30; 40])
          [PreadBytes 1; PreadInterrupted] 1 2 with
  | Done bytes => bytes = [20; 30]
  | _ => False
  end.
Proof.
  pose proof (artifact_read_exact (mk_artifact 4 (mk_snapshot 1 2 4 0 0 0 0) [10; 20; 30; 40])
    [PreadBytes 1; PreadInterrupted] 1 2 ltac:(lia) ltac:(lia) ltac:(unfold is_u64; cbn; lia)) as H.
  vm_compute in H |- *. exact (proj1 H).
Defined.
