(* ===== verification/GgufReader.v ===== *)
(** * GgufReader: the structural reader of GGUF containers ([src/gguf/core.c])

    A GGUF file starts with a header, a list of typed metadata and a directory of
    tensors; the payloads follow.  The reader decodes the directory from untrusted
    bytes through exact positioned reads, with a budget for every quantity the
    file declares, and returns a view that owns what it decoded.  This file models
    the reader (lines 14-103 and 246-1411 of the source; the JSON helpers between
    them belong to the importers of tokenizers).

    The state of a run is the cursor, with the statistics it points to and the
    parse result, and the object being filled: a value or the view.  The allocator
    answers by the number of bytes reserved so far, which differs at every request
    of a run; the kernel answers each read by the number of reads made so far.
    Memory the program has not allocated is [None]. *)

From Stdlib Require Import ZArith Lia Bool.
From stdpp Require Import base list option numbers strings.
From S2P Require Import Prelude Core Words NameIndex Utf8 Float64 Qtype Artifact.

(** ** Constants *)

Definition YVEX_GGUF_MAGIC : Z := 0x46554747.
Definition YVEX_GGUF_MAX_DIMS : Z := 4.
Definition YVEX_GGUF_HEADER_BYTES : Z := 24.
Definition YVEX_GGUF_SUPPORTED_VERSION : Z := 3.
Definition YVEX_GGUF_DEFAULT_ALIGNMENT : Z := 32.
Definition YVEX_GGUF_MAX_KEY_LEN : Z := 65535.
Definition YVEX_GGUF_MAX_TENSOR_NAME_LEN : Z := 64.

(** Sizes of the structures on LP64. *)
Definition SIZEOF_GGUF : Z := 152.
Definition SIZEOF_VALUE : Z := 32.
Definition SIZEOF_METADATA_ENTRY : Z := 48.
Definition SIZEOF_TENSOR_INFO : Z := 112.
Definition SIZEOF_SLOT : Z := 8.

(** ** Data *)

Inductive yvex_gguf_value_type : Type :=
  | VALUE_UINT8 | VALUE_INT8 | VALUE_UINT16 | VALUE_INT16 | VALUE_UINT32 | VALUE_INT32
  | VALUE_FLOAT32 | VALUE_BOOL | VALUE_STRING | VALUE_ARRAY | VALUE_UINT64 | VALUE_INT64
  | VALUE_FLOAT64 | VALUE_INVALID.

#[export] Instance value_type_eq_dec : EqDecision yvex_gguf_value_type.
Proof. solve_decision. Defined.

(** The enumeration in the order of its codes, which start at zero. *)
Definition value_types : list yvex_gguf_value_type :=
  [VALUE_UINT8; VALUE_INT8; VALUE_UINT16; VALUE_INT16; VALUE_UINT32; VALUE_INT32; VALUE_FLOAT32;
   VALUE_BOOL; VALUE_STRING; VALUE_ARRAY; VALUE_UINT64; VALUE_INT64; VALUE_FLOAT64; VALUE_INVALID].

Definition value_type_code (type : yvex_gguf_value_type) : Z :=
  match type with
  | VALUE_UINT8 => 0 | VALUE_INT8 => 1 | VALUE_UINT16 => 2 | VALUE_INT16 => 3 | VALUE_UINT32 => 4
  | VALUE_INT32 => 5 | VALUE_FLOAT32 => 6 | VALUE_BOOL => 7 | VALUE_STRING => 8 | VALUE_ARRAY => 9
  | VALUE_UINT64 => 10 | VALUE_INT64 => 11 | VALUE_FLOAT64 => 12 | VALUE_INVALID => 13
  end.

Inductive yvex_gguf_parse_section : Type :=
  | SECTION_NONE | SECTION_FILE | SECTION_CONTAINER | SECTION_METADATA | SECTION_TENSOR_INFO
  | SECTION_QTYPE | SECTION_RANGE | SECTION_RESOURCE.

#[export] Instance parse_section_eq_dec : EqDecision yvex_gguf_parse_section.
Proof. solve_decision. Defined.

Inductive yvex_gguf_parse_code : Type :=
  | PARSE_OK | PARSE_INVALID_ARGUMENT | PARSE_FILE_UNREADABLE | PARSE_SHORT_READ | PARSE_INVALID_MAGIC
  | PARSE_UNSUPPORTED_VERSION | PARSE_INVALID_COUNT | PARSE_RESOURCE_LIMIT | PARSE_MALFORMED_KEY
  | PARSE_DUPLICATE_METADATA_KEY | PARSE_UNSUPPORTED_METADATA_TYPE | PARSE_MALFORMED_VALUE
  | PARSE_MALFORMED_STRING | PARSE_MALFORMED_ARRAY | PARSE_INVALID_ALIGNMENT
  | PARSE_MALFORMED_TENSOR_NAME | PARSE_DUPLICATE_TENSOR_NAME | PARSE_INVALID_RANK
  | PARSE_INVALID_DIMENSION | PARSE_REFUSED_QTYPE | PARSE_OFFSET_OVERFLOW | PARSE_INCOMPLETE_DIRECTORY
  | PARSE_ALLOCATION_FAILURE | PARSE_EMPTY_METADATA_KEY | PARSE_EMPTY_TENSOR_NAME
  | PARSE_ELEMENT_COUNT_OVERFLOW | PARSE_ROW_COUNT_OVERFLOW | PARSE_ROW_BYTE_OVERFLOW
  | PARSE_TOTAL_BYTE_OVERFLOW.

#[export] Instance parse_code_eq_dec : EqDecision yvex_gguf_parse_code.
Proof. solve_decision. Defined.

Record yvex_gguf_parse_result : Type := mk_parse_result {
  pr_code : yvex_gguf_parse_code;
  pr_section : yvex_gguf_parse_section;
  pr_byte_offset : Z;
  pr_record_index : Z;
  pr_reason : string
}.

Record yvex_gguf_reader_options : Type := mk_options {
  max_metadata_entries : Z;
  max_tensor_entries : Z;
  max_array_entries : Z;
  max_total_array_entries : Z;
  max_string_bytes : Z;
  max_total_string_bytes : Z;
  max_owned_bytes : Z;
  max_structural_bytes : Z;
  max_array_depth : Z
}.

Record yvex_gguf_reader_stats : Type := mk_stats {
  st_file_size : Z;
  st_structural_bytes_read : Z;
  st_payload_bytes_read : Z;
  st_read_calls : Z;
  st_owned_bytes : Z;
  st_total_string_bytes : Z;
  st_total_array_entries : Z;
  st_directory_end_offset : Z
}.

(** A value: its type and the member of the union its type selects.  The length
    of a string is the length of its bytes; an array that owns items owns a block
    of them. *)
Inductive yvex_gguf_value : Type :=
  | mk_value (type : yvex_gguf_value_type) (as_ : value_union)
with value_union : Type :=
  | As_u64 (u64 : Z)
  | As_i64 (i64 : Z)
  | As_f64 (bits : Z)
  | As_bool (bool_value : Z)
  | As_string (data : option (list Z))
  | As_array (element_type : yvex_gguf_value_type) (count : Z) (items : option (list yvex_gguf_value)).

Definition v_type (v : yvex_gguf_value) : yvex_gguf_value_type := match v with mk_value type _ => type end.
Definition v_as (v : yvex_gguf_value) : value_union := match v with mk_value _ as_ => as_ end.

Record yvex_gguf_metadata_entry : Type := mk_entry {
  e_key : option (list Z);
  e_value : yvex_gguf_value
}.

Record yvex_gguf_tensor_info : Type := mk_tensor {
  t_name : option (list Z);
  t_rank : Z;
  t_dims : list Z;
  t_ggml_type : Z;
  t_ggml_type_name : string;
  t_relative_offset : Z;
  t_absolute_offset : Z;
  t_storage_bytes : Z;
  t_absolute_end_offset : Z;
  t_range_addressable : bool
}.

Record yvex_gguf_header : Type := mk_header {
  h_version : Z;
  h_metadata_count : Z;
  h_tensor_count : Z
}.

(** An index is its slots; its capacity is their number. *)
Record yvex_gguf : Type := mk_gguf {
  g_header : yvex_gguf_header;
  g_metadata : option (list yvex_gguf_metadata_entry);
  g_tensors : option (list yvex_gguf_tensor_info);
  g_metadata_index : list Z;
  g_tensor_index : list Z;
  g_tensor_data_offset : Z;
  g_alignment : Z;
  g_stats : yvex_gguf_reader_stats
}.

(** Zeroed memory. *)
Definition value_zero : yvex_gguf_value := mk_value VALUE_UINT8 (As_u64 0).
Definition metadata_entry_zero : yvex_gguf_metadata_entry := mk_entry None value_zero.
Definition tensor_zero : yvex_gguf_tensor_info := mk_tensor None 0 [0; 0; 0; 0] 0 "" 0 0 0 0 false.
(** A released value. *)
Definition value_invalid : yvex_gguf_value := mk_value VALUE_INVALID (As_u64 0).

(** The zeroed union, read as the member the type selects. *)
Definition union_zero (type : yvex_gguf_value_type) : value_union :=
  match type with
  | VALUE_INT8 | VALUE_INT16 | VALUE_INT32 | VALUE_INT64 => As_i64 0
  | VALUE_FLOAT32 | VALUE_FLOAT64 => As_f64 0
  | VALUE_BOOL => As_bool 0
  | VALUE_STRING => As_string None
  | VALUE_ARRAY => As_array VALUE_UINT8 0 None
  | _ => As_u64 0
  end.

Definition yvex_gguf_reader_options_default : yvex_gguf_reader_options :=
  mk_options 1048576 1048576 16777216 33554432 67108864 1073741824 2147483648 2147483648 16.

Definition gguf_parse_result_reset : yvex_gguf_parse_result :=
  mk_parse_result PARSE_OK SECTION_NONE 0 ULLONG_MAX "GGUF structural reader accepted input".

Definition parse_code_error (code : yvex_gguf_parse_code) : yvex_status :=
  match code with
  | PARSE_OK => YVEX_OK
  | PARSE_INVALID_ARGUMENT => YVEX_ERR_INVALID_ARG
  | PARSE_FILE_UNREADABLE => YVEX_ERR_IO
  | PARSE_SHORT_READ => YVEX_ERR_BOUNDS
  | PARSE_UNSUPPORTED_VERSION | PARSE_UNSUPPORTED_METADATA_TYPE | PARSE_REFUSED_QTYPE => YVEX_ERR_UNSUPPORTED
  | PARSE_RESOURCE_LIMIT | PARSE_OFFSET_OVERFLOW | PARSE_INCOMPLETE_DIRECTORY
  | PARSE_ELEMENT_COUNT_OVERFLOW | PARSE_ROW_COUNT_OVERFLOW | PARSE_ROW_BYTE_OVERFLOW
  | PARSE_TOTAL_BYTE_OVERFLOW => YVEX_ERR_BOUNDS
  | PARSE_ALLOCATION_FAILURE => YVEX_ERR_NOMEM
  | _ => YVEX_ERR_FORMAT
  end.

(** ** The cursor *)

Record yvex_file_cursor : Type := mk_cursor {
  c_offset : Z;
  c_section : yvex_gguf_parse_section;
  c_record_index : Z;
  c_stats : yvex_gguf_reader_stats;
  c_result : yvex_gguf_parse_result
}.

(** Operations on the cursor alone, and on the cursor with an object [D]. *)
Definition GR (A : Type) : Type := SO yvex_file_cursor A.
Definition GD (D A : Type) : Type := SO (yvex_file_cursor * D) A.

Definition on_cursor {D A} (c : GR A) : GD D A := fun '(cur, d) =>
  match c cur with (cur', r) => ((cur', d), r) end.
Definition set_object {D} (d : D) : GD D unit := fun '(cur, _) => ((cur, d), Done tt).
Definition get_object {D} : GD D D := fun '(cur, d) => ((cur, d), Done d).

Definition cursor_move (offset : Z) (stats : yvex_gguf_reader_stats) (c : yvex_file_cursor) : yvex_file_cursor :=
  mk_cursor offset (c_section c) (c_record_index c) stats (c_result c).
Definition set_section (section : yvex_gguf_parse_section) : GR unit := so_modify (fun c =>
  mk_cursor (c_offset c) section (c_record_index c) (c_stats c) (c_result c)).
Definition set_record (index : Z) : GR unit := so_modify (fun c =>
  mk_cursor (c_offset c) (c_section c) index (c_stats c) (c_result c)).

(** [gguf_reader_fail] through [cursor_fail]: the parse result is recorded and the
    status of the code returned. *)
Definition cursor_fail {A} (code : yvex_gguf_parse_code) (section : yvex_gguf_parse_section)
    (reason : string) : GR A := fun c =>
  (mk_cursor (c_offset c) (c_section c) (c_record_index c) (c_stats c)
     (mk_parse_result code section (c_offset c) (c_record_index c) reason),
   Refuse (parse_code_error code) reason).

(** [if (rc != YVEX_OK) return other_failure]. *)
Definition so_or {S A} (c handler : SO S A) : SO S A := fun s =>
  match c s with
  | (s', Refuse _ _) => handler s'
  | r => r
  end.

Section Reader.
  Context (artifact : yvex_artifact) (io : Z -> list pread_answer) (alloc : Z -> bool).
  Context (options : yvex_gguf_reader_options).

Definition reserve_owned (bytes : Z) : GR unit :=
  c ← so_get;
  let st := c_stats c in
  if (ULLONG_MAX - st_owned_bytes st <? bytes) || (max_owned_bytes options <? st_owned_bytes st + bytes)
  then cursor_fail PARSE_RESOURCE_LIMIT SECTION_RESOURCE "GGUF owned-memory budget exceeded" else
  so_put (cursor_move (c_offset c)
    (mk_stats (st_file_size st) (st_structural_bytes_read st) (st_payload_bytes_read st) (st_read_calls st)
       (st_owned_bytes st + bytes) (st_total_string_bytes st) (st_total_array_entries st)
       (st_directory_end_offset st)) c).

(** [malloc] or [calloc] of memory that was just reserved. *)
Definition allocate (reason : string) : GR unit :=
  c ← so_get;
  if alloc (st_owned_bytes (c_stats c)) then mret tt
  else cursor_fail PARSE_ALLOCATION_FAILURE SECTION_RESOURCE reason.

Definition cursor_read_exact (len : Z) (field : string) : GR (list Z) :=
  c ← so_get;
  let st := c_stats c in
  let size := a_size artifact in
  if size - (if c_offset c <=? size then c_offset c else size) <? len
  then cursor_fail PARSE_SHORT_READ (c_section c) field else
  if (ULLONG_MAX - st_structural_bytes_read st <? len)
     || (max_structural_bytes options <? st_structural_bytes_read st + len)
  then cursor_fail PARSE_RESOURCE_LIMIT SECTION_RESOURCE "GGUF structural-read budget exceeded" else
  match yvex_artifact_read_at artifact (io (st_read_calls st)) (c_offset c) len with
  | Done bytes =>
      _ ← so_put (cursor_move (u64 (c_offset c + len))
            (mk_stats (st_file_size st) (st_structural_bytes_read st + len) (st_payload_bytes_read st)
               (u64 (st_read_calls st + 1)) (st_owned_bytes st) (st_total_string_bytes st)
               (st_total_array_entries st) (st_directory_end_offset st)) c);
      mret bytes
  | Refuse _ _ => cursor_fail PARSE_SHORT_READ (c_section c) field
  | Fault f => so_lift (Fault f)
  end.

(** [gguf_u32le_load] and the 64-bit load: the bytes are read one by one. *)
Definition gguf_u32le_load (bytes : list Z) : outcome Z :=
  b ← mapO (read_at bytes) (zseq 4); Done (le_word b).
Definition decode_u64le (bytes : list Z) : outcome Z :=
  b ← mapO (read_at bytes) (zseq 8); Done (le_word b).

Definition cursor_read_u32le (field : string) : GR Z :=
  bytes ← cursor_read_exact 4 field;
  so_lift (gguf_u32le_load bytes).

Definition cursor_read_u64le (field : string) : GR Z :=
  bytes ← cursor_read_exact 8 field;
  so_lift (decode_u64le bytes).

(** ** Strings *)

(** The bytes that follow a lead byte, its value bits and the least value. *)
Definition gguf_utf8_lead (first : Z) : option (Z * Z * Z) :=
  if (0xc2 <=? first) && (first <=? 0xdf) then Some (1, Z.land first 0x1f, 0x80)
  else if (0xe0 <=? first) && (first <=? 0xef) then Some (2, Z.land first 0x0f, 0x800)
  else if (0xf0 <=? first) && (first <=? 0xf4) then Some (3, Z.land first 0x07, 0x10000)
  else None.

Fixpoint utf8_valid_loop (fuel : nat) (text : list Z) (i : Z) : outcome bool :=
  if zlen text <=? i then Done true else
  match fuel with
  | O => Fault OutOfFuel
  | S fuel =>
      first ← read_at text i;
      let i := i + 1 in
      if first <? 0x80 then utf8_valid_loop fuel text i else
      match gguf_utf8_lead first with
      | None => Done false
      | Some (need, codepoint, minimum) =>
          if zlen text - i <? need then Done false else
          r ← utf8_continue (Z.to_nat need) text i codepoint;
          match r with
          | None => Done false
          | Some (codepoint, i) =>
              if (codepoint <? minimum) || (0x10ffff <? codepoint)
                 || ((0xd800 <=? codepoint) && (codepoint <=? 0xdfff))
              then Done false else utf8_valid_loop fuel text i
          end
      end
  end.

Definition utf8_valid (text : list Z) : outcome bool := utf8_valid_loop (length text) text 0.

Definition identifier_code (c : yvex_file_cursor) : yvex_gguf_parse_code :=
  if bool_decide (c_section c = SECTION_METADATA) then PARSE_MALFORMED_KEY else PARSE_MALFORMED_TENSOR_NAME.

Definition string_parse_code (c : yvex_file_cursor) (format_max : Z) : yvex_gguf_parse_code :=
  if format_max =? 0 then PARSE_MALFORMED_STRING else identifier_code c.

Definition empty_identifier_parse_code (c : yvex_file_cursor) : yvex_gguf_parse_code :=
  if bool_decide (c_section c = SECTION_METADATA) then PARSE_EMPTY_METADATA_KEY else PARSE_EMPTY_TENSOR_NAME.

Definition add_string_bytes (len : Z) : GR unit := so_modify (fun c =>
  let st := c_stats c in
  cursor_move (c_offset c)
    (mk_stats (st_file_size st) (st_structural_bytes_read st) (st_payload_bytes_read st) (st_read_calls st)
       (st_owned_bytes st) (st_total_string_bytes st + len) (st_total_array_entries st)
       (st_directory_end_offset st)) c).

(** The bytes of the string; the caller stores them. *)
Definition cursor_read_string (format_max : Z) (reject_empty reject_nul : bool) (field : string) : GR (list Z) :=
  len ← cursor_read_u64le field;
  c ← so_get;
  if reject_empty && (len =? 0)
  then cursor_fail (empty_identifier_parse_code c) (c_section c) "GGUF identifier string is empty" else
  if negb (format_max =? 0) && (format_max <? len)
  then cursor_fail (identifier_code c) (c_section c) "GGUF identifier exceeds the pinned format limit" else
  if max_string_bytes options <? len
  then cursor_fail PARSE_RESOURCE_LIMIT SECTION_RESOURCE "GGUF string exceeds configured limit" else
  if (SIZE_MAX - 1 <? len) || (ULLONG_MAX - st_total_string_bytes (c_stats c) <? len)
     || (max_total_string_bytes options <? st_total_string_bytes (c_stats c) + len)
  then cursor_fail PARSE_RESOURCE_LIMIT SECTION_RESOURCE "GGUF cumulative string budget exceeded" else
  _ ← reserve_owned (len + 1);
  _ ← allocate "failed to allocate GGUF string";
  copy ← (if 0 <? len
          then so_or (cursor_read_exact len field)
                 (cursor_fail (string_parse_code c format_max) (c_section c) field)
          else mret []);
  if reject_nul && bool_decide (0 ∈ copy)
  then cursor_fail (identifier_code c) (c_section c) "GGUF identifier contains an embedded null byte" else
  valid ← so_lift (utf8_valid copy);
  if negb valid
  then cursor_fail (string_parse_code c format_max) (c_section c) "GGUF string is not valid UTF-8" else
  _ ← add_string_bytes len;
  mret copy.

(** The loop of [metadata_key_valid]: [rest] are the characters still to read. *)
Fixpoint key_loop (rest : list Z) (segment_start previous_underscore : bool) : bool :=
  match rest with
  | [] => negb segment_start && negb previous_underscore
  | ch :: rest =>
      if 128 <=? ch then false
      else if ch =? 46 then
        if segment_start || previous_underscore || bool_decide (rest = []) then false
        else key_loop rest true false
      else if segment_start then
        if (ch <? 97) || (122 <? ch) then false else key_loop rest false false
      else if ch =? 95 then
        if previous_underscore then false else key_loop rest segment_start true
      else if negb (((97 <=? ch) && (ch <=? 122)) || ((48 <=? ch) && (ch <=? 57))) then false
      else key_loop rest segment_start false
  end.

Definition metadata_key_valid (key : list Z) : bool :=
  if zlen key =? 0 then false else key_loop key true false.

(** ** Name indexes *)

Definition name_hash (name : list Z) : Z :=
  foldl (fun hash byte => u64 (Z.lxor hash byte * 1099511628211)) 1469598103934665603 name.

(** [while (capacity < wanted)] *)
Fixpoint index_capacity (fuel : nat) (capacity wanted : Z) : GR Z :=
  match fuel with
  | O => so_lift (Fault OutOfFuel)
  | S fuel =>
      if capacity <? wanted then
        if SIZE_MAX / 2 <? capacity
        then cursor_fail PARSE_RESOURCE_LIMIT SECTION_RESOURCE "GGUF identifier index exceeds address space"
        else index_capacity fuel (u64 (capacity * 2)) wanted
      else mret capacity
  end.

(** The slots allocated; none for an empty directory. *)
Definition name_index_allocate (count : Z) : GR (list Z) :=
  if count =? 0 then mret [] else
  if ULLONG_MAX / 2 <? count
  then cursor_fail PARSE_INVALID_COUNT SECTION_RESOURCE "GGUF identifier count overflows index sizing" else
  capacity ← index_capacity 65 8 (count * 2);
  if SIZE_MAX / SIZEOF_SLOT <? capacity
  then cursor_fail PARSE_RESOURCE_LIMIT SECTION_RESOURCE "GGUF identifier index allocation overflows" else
  _ ← reserve_owned (capacity * SIZEOF_SLOT);
  _ ← allocate "failed to allocate GGUF identifier index";
  mret (replicate (Z.to_nat capacity) 0).

Definition name_index_start (slots : list Z) (name : list Z) : Z := slot_home name_hash name (zlen slots).

(** The loop of the four index operations: the position of the name, or the free
    slot where the search ends.  [name_at] reads the name at a position. *)
Fixpoint name_probe (fuel : nat) (name_at : Z -> outcome (list Z)) (slots : list Z) (name : list Z) (slot : Z)
    : outcome (Z + Z) :=
  match fuel with
  | O => Fault OutOfFuel
  | S fuel =>
      v ← read_at slots slot;
      if v =? 0 then Done (inr slot) else
      prior ← name_at (u64 (v - 1));
      if bool_decide (prior = name) then Done (inl (u64 (v - 1)))
      else name_probe fuel name_at slots name (slot_next slot (zlen slots))
  end.

(** ** Values *)

(** [for (i = 0; i < count; ++i) gguf_value_clear(&items[i])] *)
Fixpoint release_items (clear : yvex_gguf_value -> outcome unit) (items : list yvex_gguf_value) (left : Z)
    : outcome unit :=
  if left <=? 0 then Done tt else
  match items with
  | [] => Fault OutOfBounds
  | item :: items => _ ← clear item; release_items clear items (left - 1)
  end.

(** The items are released from the first.  Without a block of items the first
    address is null, which the callee accepts, and the second is not. *)
Fixpoint gguf_value_clear (v : yvex_gguf_value) : outcome unit :=
  match v with
  | mk_value VALUE_STRING (As_string _) => Done tt
  | mk_value VALUE_STRING _ => Fault WrongMember
  | mk_value VALUE_ARRAY (As_array _ count items) =>
      match items with
      | None => if 1 <? count then Fault NullPointer else Done tt
      | Some items => release_items gguf_value_clear items count
      end
  | mk_value VALUE_ARRAY _ => Fault WrongMember
  | _ => Done tt
  end.

Definition parse_value_type (raw : Z) : GR yvex_gguf_value_type :=
  if value_type_code VALUE_FLOAT64 <? raw
  then cursor_fail PARSE_UNSUPPORTED_METADATA_TYPE SECTION_METADATA "unsupported GGUF metadata value type"
  else so_lift (read_at value_types raw).

Inductive scalar_kind : Type := SCALAR_UNSIGNED | SCALAR_SIGNED | SCALAR_FLOAT | SCALAR_BOOL.

(** [scalar_specs]: a type without an entry has zero bytes. *)
Definition scalar_specs (type : yvex_gguf_value_type) : Z * scalar_kind * string :=
  match type with
  | VALUE_UINT8 => (1, SCALAR_UNSIGNED, "truncated uint8 metadata value")
  | VALUE_INT8 => (1, SCALAR_SIGNED, "truncated int8 metadata value")
  | VALUE_UINT16 => (2, SCALAR_UNSIGNED, "truncated uint16 metadata value")
  | VALUE_INT16 => (2, SCALAR_SIGNED, "truncated int16 metadata value")
  | VALUE_UINT32 => (4, SCALAR_UNSIGNED, "truncated uint32 metadata value")
  | VALUE_INT32 => (4, SCALAR_SIGNED, "truncated int32 metadata value")
  | VALUE_FLOAT32 => (4, SCALAR_FLOAT, "truncated float32 metadata value")
  | VALUE_BOOL => (1, SCALAR_BOOL, "truncated bool metadata value")
  | VALUE_UINT64 => (8, SCALAR_UNSIGNED, "truncated uint64 metadata value")
  | VALUE_INT64 => (8, SCALAR_SIGNED, "truncated int64 metadata value")
  | VALUE_FLOAT64 => (8, SCALAR_FLOAT, "truncated float64 metadata value")
  | VALUE_STRING | VALUE_ARRAY | VALUE_INVALID => (0, SCALAR_UNSIGNED, "")
  end.

(** [(long long)(int64_t)bits] *)
Definition as_int64 (bits : Z) : Z := if 2 ^ 63 <=? bits then bits - 2 ^ 64 else bits.

Definition parse_scalar (type : yvex_gguf_value_type) : GD yvex_gguf_value unit :=
  let '(width, kind, truncated) := scalar_specs type in
  if width =? 0 then so_refuse YVEX_ERR_FORMAT "" else
  bytes ← on_cursor (cursor_read_exact width truncated);
  word ← so_lift (mapO (read_at bytes) (zseq width));
  let bits := le_word word in
  match kind with
  | SCALAR_UNSIGNED => set_object (mk_value type (As_u64 bits))
  | SCALAR_SIGNED =>
      let bits := if (width <? 8) && Z.testbit bits (width * 8 - 1)
                  then Z.lor bits (u64 (Z.shiftl ULLONG_MAX (width * 8))) else bits in
      set_object (mk_value type (As_i64 (as_int64 bits)))
  | SCALAR_FLOAT => set_object (mk_value type (As_f64 (if width =? 4 then f64_of_f32 bits else bits)))
  | SCALAR_BOOL =>
      if bits <=? 1 then set_object (mk_value type (As_bool (if bits =? 0 then 0 else 1)))
      else on_cursor (cursor_fail PARSE_MALFORMED_VALUE SECTION_METADATA
                        "GGUF bool metadata value must be zero or one")
  end.

Definition add_array_entries (count : Z) : GR unit := so_modify (fun c =>
  let st := c_stats c in
  cursor_move (c_offset c)
    (mk_stats (st_file_size st) (st_structural_bytes_read st) (st_payload_bytes_read st) (st_read_calls st)
       (st_owned_bytes st) (st_total_string_bytes st) (st_total_array_entries st + count)
       (st_directory_end_offset st)) c).

(** One iteration of the loop over the items: the item is parsed in place, and a
    refusal releases the whole array. *)
Definition array_item (parse : GD yvex_gguf_value unit) (i : Z) : GD yvex_gguf_value unit := fun '(cur, out) =>
  match out with
  | mk_value type (As_array element_type count (Some items)) =>
      match zget items i with
      | None => ((cur, out), Fault OutOfBounds)
      | Some (mk_value _ as_) =>
          match parse (cur, mk_value VALUE_INVALID as_) with
          | ((cur, item), r) =>
              let out := mk_value type (As_array element_type count (Some (zset items i item))) in
              match r with
              | Refuse status reason =>
                  match gguf_value_clear out with
                  | Fault f => ((cur, out), Fault f)
                  | _ => ((cur, value_invalid), Refuse status reason)
                  end
              | r => ((cur, out), r)
              end
          end
      end
  | _ => ((cur, out), Fault NullPointer)
  end.

(** [parse_value] at nesting depth [max_array_depth - levels]. *)
Fixpoint parse_value (levels : nat) (type : yvex_gguf_value_type) : GD yvex_gguf_value unit :=
  _ ← set_object (mk_value type (union_zero type));
  match type with
  | VALUE_STRING =>
      data ← on_cursor (cursor_read_string 0 false false "truncated GGUF metadata string");
      set_object (mk_value type (As_string (Some data)))
  | VALUE_ARRAY =>
      match levels with
      | O => on_cursor (cursor_fail PARSE_RESOURCE_LIMIT SECTION_RESOURCE
                          "GGUF array nesting depth exceeds configured limit")
      | S levels =>
          raw_type ← on_cursor (cursor_read_u32le "truncated GGUF array element type");
          element_type ← on_cursor (parse_value_type raw_type);
          count ← on_cursor (cursor_read_u64le "truncated GGUF array count");
          entries ← on_cursor (c ← so_get; mret (st_total_array_entries (c_stats c)));
          if (max_array_entries options <? count) || (ULLONG_MAX - entries <? count)
             || (max_total_array_entries options <? entries + count)
          then on_cursor (cursor_fail PARSE_RESOURCE_LIMIT SECTION_RESOURCE "GGUF array entry budget exceeded") else
          if SIZE_MAX / SIZEOF_VALUE <? count
          then on_cursor (cursor_fail PARSE_RESOURCE_LIMIT SECTION_RESOURCE
                            "GGUF array allocation exceeds address space") else
          _ ← set_object (mk_value type (As_array element_type count None));
          _ ← on_cursor (add_array_entries count);
          if count =? 0 then mret tt else
          _ ← on_cursor (reserve_owned (count * SIZEOF_VALUE));
          _ ← on_cursor (allocate "failed to allocate GGUF array items");
          _ ← set_object (mk_value type (As_array element_type count
                                            (Some (replicate (Z.to_nat count) value_zero))));
          so_each (array_item (parse_value levels element_type)) (zseq count)
      end
  | VALUE_INVALID =>
      on_cursor (cursor_fail PARSE_UNSUPPORTED_METADATA_TYPE SECTION_METADATA
                   "unsupported GGUF metadata value type")
  | _ => parse_scalar type
  end.

(** ** The view *)

Definition with_header (h : yvex_gguf_header) (g : yvex_gguf) : yvex_gguf :=
  mk_gguf h (g_metadata g) (g_tensors g) (g_metadata_index g) (g_tensor_index g) (g_tensor_data_offset g)
    (g_alignment g) (g_stats g).
Definition with_metadata (m : option (list yvex_gguf_metadata_entry)) (g : yvex_gguf) : yvex_gguf :=
  mk_gguf (g_header g) m (g_tensors g) (g_metadata_index g) (g_tensor_index g) (g_tensor_data_offset g)
    (g_alignment g) (g_stats g).
Definition with_tensors (t : option (list yvex_gguf_tensor_info)) (g : yvex_gguf) : yvex_gguf :=
  mk_gguf (g_header g) (g_metadata g) t (g_metadata_index g) (g_tensor_index g) (g_tensor_data_offset g)
    (g_alignment g) (g_stats g).
Definition with_metadata_index (slots : list Z) (g : yvex_gguf) : yvex_gguf :=
  mk_gguf (g_header g) (g_metadata g) (g_tensors g) slots (g_tensor_index g) (g_tensor_data_offset g)
    (g_alignment g) (g_stats g).
Definition with_tensor_index (slots : list Z) (g : yvex_gguf) : yvex_gguf :=
  mk_gguf (g_header g) (g_metadata g) (g_tensors g) (g_metadata_index g) slots (g_tensor_data_offset g)
    (g_alignment g) (g_stats g).
Definition with_data_offset (offset : Z) (g : yvex_gguf) : yvex_gguf :=
  mk_gguf (g_header g) (g_metadata g) (g_tensors g) (g_metadata_index g) (g_tensor_index g) offset
    (g_alignment g) (g_stats g).
Definition with_alignment (alignment : Z) (g : yvex_gguf) : yvex_gguf :=
  mk_gguf (g_header g) (g_metadata g) (g_tensors g) (g_metadata_index g) (g_tensor_index g)
    (g_tensor_data_offset g) alignment (g_stats g).
Definition with_stats (stats : yvex_gguf_reader_stats) (g : yvex_gguf) : yvex_gguf :=
  mk_gguf (g_header g) (g_metadata g) (g_tensors g) (g_metadata_index g) (g_tensor_index g)
    (g_tensor_data_offset g) (g_alignment g) stats.

(** Reads and writes of [gguf->metadata[i]] and [gguf->tensors[i]]. *)
Definition metadata_at (g : yvex_gguf) (i : Z) : outcome yvex_gguf_metadata_entry :=
  entries ← deref (g_metadata g); read_at entries i.
Definition tensor_at (g : yvex_gguf) (i : Z) : outcome yvex_gguf_tensor_info :=
  tensors ← deref (g_tensors g); read_at tensors i.

Definition put_metadata (i : Z) (f : yvex_gguf_metadata_entry -> yvex_gguf_metadata_entry) : GD yvex_gguf unit :=
  g ← get_object;
  entries ← so_lift (deref (g_metadata g));
  e ← so_lift (read_at entries i);
  set_object (with_metadata (Some (zset entries i (f e))) g).
Definition put_tensor (i : Z) (f : yvex_gguf_tensor_info -> yvex_gguf_tensor_info) : GD yvex_gguf unit :=
  g ← get_object;
  tensors ← so_lift (deref (g_tensors g));
  t ← so_lift (read_at tensors i);
  set_object (with_tensors (Some (zset tensors i (f t))) g).

(** [memcmp] on the name stored at a position. *)
Definition metadata_name_at (g : yvex_gguf) (i : Z) : outcome (list Z) := e ← metadata_at g i; deref (e_key e).
Definition tensor_name_at (g : yvex_gguf) (i : Z) : outcome (list Z) := t ← tensor_at g i; deref (t_name t).

Definition metadata_index_insert (entry_index : Z) : GD yvex_gguf unit :=
  g ← get_object;
  key ← so_lift (metadata_name_at g entry_index);
  let slots := g_metadata_index g in
  found ← so_lift (name_probe (S (length slots)) (metadata_name_at g) slots key (name_index_start slots key));
  match found with
  | inl _ => on_cursor (cursor_fail PARSE_DUPLICATE_METADATA_KEY SECTION_METADATA "duplicate GGUF metadata key")
  | inr slot =>
      slots ← so_lift (write_at slots slot (u64 (entry_index + 1)));
      set_object (with_metadata_index slots g)
  end.

Definition tensor_index_insert (tensor_index : Z) : GD yvex_gguf unit :=
  g ← get_object;
  name ← so_lift (tensor_name_at g tensor_index);
  let slots := g_tensor_index g in
  found ← so_lift (name_probe (S (length slots)) (tensor_name_at g) slots name (name_index_start slots name));
  match found with
  | inl _ => on_cursor (cursor_fail PARSE_DUPLICATE_TENSOR_NAME SECTION_TENSOR_INFO "duplicate GGUF tensor name")
  | inr slot =>
      slots ← so_lift (write_at slots slot (u64 (tensor_index + 1)));
      set_object (with_tensor_index slots g)
  end.

Definition put_header (version metadata_count tensor_count : Z) : GD yvex_gguf unit :=
  g ← get_object;
  set_object (with_header (mk_header version metadata_count tensor_count) g).

Definition parse_header : GD yvex_gguf unit :=
  _ ← on_cursor (set_section SECTION_CONTAINER);
  _ ← on_cursor (set_record ULLONG_MAX);
  _ ← put_header 0 0 0;
  magic ← on_cursor (cursor_read_u32le "truncated GGUF magic");
  if negb (magic =? YVEX_GGUF_MAGIC)
  then on_cursor (cursor_fail PARSE_INVALID_MAGIC SECTION_CONTAINER "invalid GGUF magic") else
  version ← on_cursor (cursor_read_u32le "truncated GGUF version");
  _ ← put_header version 0 0;
  if negb (version =? YVEX_GGUF_SUPPORTED_VERSION)
  then on_cursor (cursor_fail PARSE_UNSUPPORTED_VERSION SECTION_CONTAINER "unsupported GGUF container version") else
  tensor_count ← on_cursor (cursor_read_u64le "truncated GGUF tensor count");
  _ ← put_header version 0 tensor_count;
  metadata_count ← on_cursor (cursor_read_u64le "truncated GGUF metadata count");
  _ ← put_header version metadata_count tensor_count;
  if (max_metadata_entries options <? metadata_count) || (max_tensor_entries options <? tensor_count)
  then on_cursor (cursor_fail PARSE_RESOURCE_LIMIT SECTION_RESOURCE "GGUF directory count exceeds configured limit")
  else mret tt.

(** [parse_value] into the value of an entry. *)
Definition parse_entry_value (i : Z) (type : yvex_gguf_value_type) : GD yvex_gguf unit := fun '(cur, g) =>
  match metadata_at g i with
  | Done e =>
      match parse_value (Z.to_nat (max_array_depth options)) type (cur, e_value e) with
      | ((cur, value), r) =>
          match put_metadata i (fun e => mk_entry (e_key e) value) (cur, g) with
          | (s, Fault f) => (s, Fault f)
          | (s, _) => (s, r)
          end
      end
  | Refuse status reason => ((cur, g), Refuse status reason)
  | Fault f => ((cur, g), Fault f)
  end.

Definition parse_metadata_entry (i : Z) : GD yvex_gguf unit :=
  _ ← on_cursor (set_record i);
  key ← on_cursor (cursor_read_string YVEX_GGUF_MAX_KEY_LEN true true "truncated GGUF metadata key");
  _ ← put_metadata i (fun e => mk_entry (Some key) (e_value e));
  if negb (metadata_key_valid key)
  then on_cursor (cursor_fail PARSE_MALFORMED_KEY SECTION_METADATA
                    "GGUF metadata key violates pinned key grammar") else
  _ ← metadata_index_insert i;
  raw_type ← on_cursor (cursor_read_u32le "truncated GGUF metadata value type");
  type ← on_cursor (parse_value_type raw_type);
  _ ← put_metadata i (fun e => mk_entry (e_key e) value_invalid);
  parse_entry_value i type.

Definition parse_metadata : GD yvex_gguf unit :=
  g ← get_object;
  let count := h_metadata_count (g_header g) in
  _ ← on_cursor (set_section SECTION_METADATA);
  if count =? 0 then mret tt else
  if SIZE_MAX / SIZEOF_METADATA_ENTRY <? count
  then on_cursor (cursor_fail PARSE_INVALID_COUNT SECTION_RESOURCE "GGUF metadata count exceeds address space") else
  _ ← on_cursor (reserve_owned (count * SIZEOF_METADATA_ENTRY));
  _ ← on_cursor (allocate "failed to allocate GGUF metadata table");
  _ ← set_object (with_metadata (Some (replicate (Z.to_nat count) metadata_entry_zero)) g);
  slots ← on_cursor (name_index_allocate count);
  g ← get_object;
  _ ← set_object (with_metadata_index slots g);
  _ ← so_each parse_metadata_entry (zseq count);
  on_cursor (set_record ULLONG_MAX).

(** ** Lookups *)

Definition yvex_gguf_metadata_find (gguf : yvex_gguf) (key : list Z) : outcome (option yvex_gguf_value) :=
  let slots := g_metadata_index gguf in
  if zlen slots =? 0 then Done None else
  found ← name_probe (S (length slots)) (metadata_name_at gguf) slots key (name_index_start slots key);
  match found with
  | inl i => e ← metadata_at gguf i; Done (Some (e_value e))
  | inr _ => Done None
  end.

Definition yvex_gguf_tensor_find (gguf : yvex_gguf) (name : list Z) : outcome (option yvex_gguf_tensor_info) :=
  let slots := g_tensor_index gguf in
  if zlen slots =? 0 then Done None else
  found ← name_probe (S (length slots)) (tensor_name_at gguf) slots name (name_index_start slots name);
  match found with
  | inl i => t ← tensor_at gguf i; Done (Some t)
  | inr _ => Done None
  end.

Definition yvex_gguf_value_type_of (value : option yvex_gguf_value) : yvex_gguf_value_type :=
  match value with Some v => v_type v | None => VALUE_INVALID end.

(** The accessors return the member the type selects, or refuse; reading another
    member would be a fault. *)
Definition yvex_gguf_value_as_u64 (value : option yvex_gguf_value) : outcome Z :=
  match value with
  | Some (mk_value (VALUE_UINT8 | VALUE_UINT16 | VALUE_UINT32 | VALUE_UINT64) as_) =>
      match as_ with As_u64 u => Done u | _ => Fault WrongMember end
  | _ => Refuse YVEX_ERR_INVALID_ARG ""
  end.

Definition yvex_gguf_value_as_i64 (value : option yvex_gguf_value) : outcome Z :=
  match value with
  | Some (mk_value (VALUE_INT8 | VALUE_INT16 | VALUE_INT32 | VALUE_INT64) as_) =>
      match as_ with As_i64 i => Done i | _ => Fault WrongMember end
  | _ => Refuse YVEX_ERR_INVALID_ARG ""
  end.

Definition yvex_gguf_value_as_f64 (value : option yvex_gguf_value) : outcome Z :=
  match value with
  | Some (mk_value (VALUE_FLOAT32 | VALUE_FLOAT64) as_) =>
      match as_ with As_f64 f => Done f | _ => Fault WrongMember end
  | _ => Refuse YVEX_ERR_INVALID_ARG ""
  end.

Definition yvex_gguf_value_as_bool (value : option yvex_gguf_value) : outcome Z :=
  match value with
  | Some (mk_value VALUE_BOOL as_) => match as_ with As_bool b => Done b | _ => Fault WrongMember end
  | _ => Refuse YVEX_ERR_INVALID_ARG ""
  end.

Definition yvex_gguf_value_as_string (value : option yvex_gguf_value) : outcome (option (list Z)) :=
  match value with
  | Some (mk_value VALUE_STRING as_) => match as_ with As_string s => Done s | _ => Fault WrongMember end
  | _ => Refuse YVEX_ERR_INVALID_ARG ""
  end.

Definition yvex_gguf_value_array_info (value : option yvex_gguf_value) : outcome (yvex_gguf_value_type * Z) :=
  match value with
  | Some (mk_value VALUE_ARRAY as_) =>
      match as_ with As_array type count _ => Done (type, count) | _ => Fault WrongMember end
  | _ => Refuse YVEX_ERR_INVALID_ARG ""
  end.

(** [None] is the null pointer. *)
Definition yvex_gguf_value_array_at (value : option yvex_gguf_value) (index : Z) : outcome (option yvex_gguf_value) :=
  match value with
  | Some (mk_value VALUE_ARRAY as_) =>
      match as_ with
      | As_array _ count items =>
          if count <=? index then Done None
          else items ← deref items; item ← read_at items index; Done (Some item)
      | _ => Fault WrongMember
      end
  | _ => Done None
  end.

(** ** Tensors *)

Definition general_alignment : list Z := string_bytes "general.alignment".

Definition derive_alignment : GD yvex_gguf unit :=
  g ← get_object;
  let g := with_alignment YVEX_GGUF_DEFAULT_ALIGNMENT g in
  _ ← set_object g;
  value ← so_lift (yvex_gguf_metadata_find g general_alignment);
  match value with
  | None => mret tt
  | Some v =>
      let refuse :=
        _ ← on_cursor (set_section SECTION_METADATA);
        on_cursor (cursor_fail PARSE_INVALID_ALIGNMENT SECTION_METADATA
                     "general.alignment must be uint32 and nonzero") in
      if negb (bool_decide (yvex_gguf_value_type_of (Some v) = VALUE_UINT32)) then refuse else
      match yvex_gguf_value_as_u64 (Some v) with
      | Done alignment =>
          if (alignment =? 0) || (UINT_MAX <? alignment) then refuse
          else set_object (with_alignment (u32 alignment) g)
      | Refuse _ _ => refuse
      | Fault f => so_lift (Fault f)
      end
  end.

Definition align_offset (offset alignment : Z) : GR Z :=
  if alignment =? 0 then cursor_fail PARSE_INVALID_ALIGNMENT SECTION_RANGE "GGUF alignment is zero" else
  let remainder := offset mod alignment in
  let padding := if remainder =? 0 then 0 else alignment - remainder in
  if ULLONG_MAX - padding <? offset
  then cursor_fail PARSE_OFFSET_OVERFLOW SECTION_RANGE "GGUF tensor-data alignment overflows"
  else mret (offset + padding).

Definition qtype_parse_code (status : yvex_gguf_qtype_storage_status) : yvex_gguf_parse_code :=
  match status with
  | STORAGE_INVALID_RANK => PARSE_INVALID_RANK
  | STORAGE_INVALID_DIMENSION => PARSE_INVALID_DIMENSION
  | STORAGE_ELEMENT_COUNT_OVERFLOW => PARSE_ELEMENT_COUNT_OVERFLOW
  | STORAGE_ROW_COUNT_OVERFLOW => PARSE_ROW_COUNT_OVERFLOW
  | STORAGE_ROW_BYTE_OVERFLOW => PARSE_ROW_BYTE_OVERFLOW
  | STORAGE_TOTAL_BYTE_OVERFLOW => PARSE_TOTAL_BYTE_OVERFLOW
  | _ => PARSE_REFUSED_QTYPE
  end.

(** The loop over the dimensions: the array with the [n] dimensions from [d] read;
    the row is zeroed memory before. *)
Fixpoint parse_dims (n : nat) (d : Z) (dims : list Z) : GR (list Z) :=
  match n with
  | O => mret dims
  | S n =>
      value ← cursor_read_u64le "truncated GGUF tensor dimension";
      dims ← so_lift (write_at dims d value);
      if value =? 0
      then cursor_fail PARSE_INVALID_DIMENSION SECTION_TENSOR_INFO "GGUF tensor dimension is zero"
      else parse_dims n (d + 1) dims
  end.

(** The fields of a row are written when its record is complete; a refusal before
    that leaves the name, which is all that the release of the view reads. *)
Definition parse_tensor (i : Z) : GD yvex_gguf unit :=
  _ ← on_cursor (set_record i);
  name ← on_cursor (cursor_read_string YVEX_GGUF_MAX_TENSOR_NAME_LEN true true "truncated GGUF tensor name");
  _ ← put_tensor i (fun t => mk_tensor (Some name) (t_rank t) (t_dims t) (t_ggml_type t) (t_ggml_type_name t)
        (t_relative_offset t) (t_absolute_offset t) (t_storage_bytes t) (t_absolute_end_offset t)
        (t_range_addressable t));
  _ ← tensor_index_insert i;
  rank ← on_cursor (cursor_read_u32le "truncated GGUF tensor rank");
  if (rank =? 0) || (YVEX_GGUF_MAX_DIMS <? rank)
  then on_cursor (cursor_fail PARSE_INVALID_RANK SECTION_TENSOR_INFO
                    "GGUF tensor rank is outside the admitted range") else
  dims ← on_cursor (parse_dims (Z.to_nat rank) 0 (t_dims tensor_zero));
  type ← on_cursor (cursor_read_u32le "truncated GGUF tensor qtype");
  type_name ← so_lift (yvex_gguf_qtype_name type);
  storage ← so_lift (yvex_gguf_qtype_tensor_storage type (Some dims) rank);
  if negb (bool_decide (sr_status storage = STORAGE_OK))
  then (_ ← on_cursor (set_section SECTION_QTYPE);
        on_cursor (cursor_fail (qtype_parse_code (sr_status storage)) SECTION_QTYPE (sr_reason storage))) else
  _ ← on_cursor (set_section SECTION_TENSOR_INFO);
  relative ← on_cursor (cursor_read_u64le "truncated GGUF tensor relative offset");
  _ ← put_tensor i (fun t => mk_tensor (t_name t) rank dims type type_name relative (t_absolute_offset t)
        (sr_total_bytes storage) (t_absolute_end_offset t) (t_range_addressable t));
  g ← get_object;
  if negb (relative mod g_alignment g =? 0)
  then on_cursor (cursor_fail PARSE_INVALID_ALIGNMENT SECTION_TENSOR_INFO
                    "GGUF tensor relative offset is misaligned")
  else mret tt.

(** The second loop: the absolute range of a tensor. *)
Definition place_tensor (i : Z) : GD yvex_gguf unit :=
  g ← get_object;
  t ← so_lift (tensor_at g i);
  _ ← on_cursor (set_record i);
  if ULLONG_MAX - g_tensor_data_offset g <? t_relative_offset t
  then on_cursor (cursor_fail PARSE_OFFSET_OVERFLOW SECTION_RANGE "GGUF tensor absolute offset overflows") else
  let absolute := g_tensor_data_offset g + t_relative_offset t in
  if ULLONG_MAX - absolute <? t_storage_bytes t
  then on_cursor (cursor_fail PARSE_OFFSET_OVERFLOW SECTION_RANGE "GGUF tensor absolute range overflows") else
  let end_ := absolute + t_storage_bytes t in
  put_tensor i (fun t => mk_tensor (t_name t) (t_rank t) (t_dims t) (t_ggml_type t) (t_ggml_type_name t)
    (t_relative_offset t) absolute (t_storage_bytes t) end_ (end_ <=? a_size artifact)).

Definition set_directory_end : GR unit := so_modify (fun c =>
  let st := c_stats c in
  cursor_move (c_offset c)
    (mk_stats (st_file_size st) (st_structural_bytes_read st) (st_payload_bytes_read st) (st_read_calls st)
       (st_owned_bytes st) (st_total_string_bytes st) (st_total_array_entries st) (c_offset c)) c).

Definition place_data : GD yvex_gguf unit :=
  g ← get_object;
  offset ← on_cursor (c ← so_get; align_offset (c_offset c) (g_alignment g));
  set_object (with_data_offset offset g).

Definition parse_tensors : GD yvex_gguf unit :=
  g ← get_object;
  let count := h_tensor_count (g_header g) in
  _ ← on_cursor (set_section SECTION_TENSOR_INFO);
  if count =? 0 then (_ ← on_cursor set_directory_end; place_data) else
  if SIZE_MAX / SIZEOF_TENSOR_INFO <? count
  then on_cursor (cursor_fail PARSE_INVALID_COUNT SECTION_RESOURCE "GGUF tensor count exceeds address space") else
  _ ← on_cursor (reserve_owned (count * SIZEOF_TENSOR_INFO));
  _ ← on_cursor (allocate "failed to allocate GGUF tensor directory");
  _ ← set_object (with_tensors (Some (replicate (Z.to_nat count) tensor_zero)) g);
  slots ← on_cursor (name_index_allocate count);
  g ← get_object;
  _ ← set_object (with_tensor_index slots g);
  _ ← so_each parse_tensor (zseq count);
  _ ← on_cursor set_directory_end;
  _ ← on_cursor (set_section SECTION_RANGE);
  _ ← on_cursor (set_record ULLONG_MAX);
  _ ← place_data;
  g ← get_object;
  if a_size artifact <? g_tensor_data_offset g
  then on_cursor (cursor_fail PARSE_INCOMPLETE_DIRECTORY SECTION_RANGE
                    "GGUF tensor-data boundary exceeds file size") else
  _ ← so_each place_tensor (zseq count);
  on_cursor (set_record ULLONG_MAX).

(** ** Opening and closing *)

(** [gguf_clear]: every key and value of the metadata table is released, then
    the names, the tables and the indexes. *)
Definition gguf_clear (gguf : yvex_gguf) : outcome unit :=
  _ ← match g_metadata gguf with
      | None => Done tt
      | Some entries =>
          eachO (fun i => e ← read_at entries i; gguf_value_clear (e_value e))
            (zseq (h_metadata_count (g_header gguf)))
      end;
  match g_tensors gguf with
  | None => Done tt
  | Some tensors => eachO (fun i => _ ← read_at tensors i; Done tt) (zseq (h_tensor_count (g_header gguf)))
  end.

Definition yvex_gguf_close (gguf : yvex_gguf) : outcome unit := gguf_clear gguf.

(** The four stages, composed while the status is [YVEX_OK]. *)
Definition parse_stages : GD yvex_gguf unit :=
  _ ← parse_header;
  _ ← parse_metadata;
  _ ← derive_alignment;
  parse_tensors.

Definition stats_start : yvex_gguf_reader_stats := mk_stats (a_size artifact) 0 0 0 SIZEOF_GGUF 0 0 0.

Definition gguf_start : yvex_gguf :=
  mk_gguf (mk_header 0 0 0) None None [] [] 0 YVEX_GGUF_DEFAULT_ALIGNMENT stats_start.

Definition cursor_start : yvex_file_cursor :=
  mk_cursor 0 SECTION_NONE ULLONG_MAX stats_start gguf_parse_result_reset.

Definition options_zero : bool :=
  (max_metadata_entries options =? 0) || (max_tensor_entries options =? 0)
  || (max_array_entries options =? 0) || (max_total_array_entries options =? 0)
  || (max_string_bytes options =? 0) || (max_total_string_bytes options =? 0)
  || (max_owned_bytes options =? 0) || (max_structural_bytes options =? 0) || (max_array_depth options =? 0).

(** A refusal that records its parse result. *)
Definition open_fail (code : yvex_gguf_parse_code) (section : yvex_gguf_parse_section) (reason : string)
    : yvex_gguf_parse_result * outcome yvex_gguf :=
  (mk_parse_result code section 0 ULLONG_MAX reason, Refuse (parse_code_error code) reason).

End Reader.

(** The parse result and the view.  [alloc 0] answers the allocation of the view
    itself, made before anything is reserved. *)
Definition yvex_gguf_open_ex (artifact : option yvex_artifact) (io : Z -> list pread_answer) (alloc : Z -> bool)
    (options : option yvex_gguf_reader_options) : yvex_gguf_parse_result * outcome yvex_gguf :=
  match artifact with
  | None => open_fail PARSE_INVALID_ARGUMENT SECTION_FILE "artifact handle is required"
  | Some artifact =>
      let effective := default yvex_gguf_reader_options_default options in
      if options_zero effective
      then open_fail PARSE_INVALID_ARGUMENT SECTION_RESOURCE "GGUF reader limits must be nonzero" else
      if negb (alloc 0)
      then open_fail PARSE_ALLOCATION_FAILURE SECTION_RESOURCE "failed to allocate GGUF view" else
      if max_owned_bytes effective <? SIZEOF_GGUF
      then match yvex_gguf_close (gguf_start artifact) with
           | Fault f => (gguf_parse_result_reset, Fault f)
           | _ => open_fail PARSE_RESOURCE_LIMIT SECTION_RESOURCE "GGUF view exceeds owned-memory budget"
           end else
      match parse_stages artifact io alloc effective (cursor_start artifact, gguf_start artifact) with
      | ((cur, gguf), Done _) =>
          (mk_parse_result PARSE_OK SECTION_NONE (c_offset cur) ULLONG_MAX "GGUF structural reader accepted input",
           Done (with_stats (c_stats cur) gguf))
      | ((cur, gguf), Refuse status reason) =>
          match yvex_gguf_close gguf with
          | Fault f => (c_result cur, Fault f)
          | _ => (c_result cur, Refuse status reason)
          end
      | ((cur, _), Fault f) => (c_result cur, Fault f)
      end
  end.

Definition yvex_gguf_open (artifact : option yvex_artifact) (io : Z -> list pread_answer) (alloc : Z -> bool)
    : outcome yvex_gguf := (yvex_gguf_open_ex artifact io alloc None).2.

(** ** Probes *)

Definition yvex_gguf_read_header (artifact : option yvex_artifact) (answers : list pread_answer)
    : outcome yvex_gguf_header :=
  match artifact with
  | None => Refuse YVEX_ERR_INVALID_ARG "artifact and output are required"
  | Some a =>
      if yvex_artifact_size artifact <? YVEX_GGUF_HEADER_BYTES
      then Refuse YVEX_ERR_FORMAT "GGUF header is truncated" else
      bytes ← yvex_artifact_read_at a answers 0 YVEX_GGUF_HEADER_BYTES;
      magic ← gguf_u32le_load bytes;
      if negb (magic =? YVEX_GGUF_MAGIC) then Refuse YVEX_ERR_FORMAT "invalid GGUF magic" else
      version ← gguf_u32le_load (drop 4 bytes);
      if negb (version =? YVEX_GGUF_SUPPORTED_VERSION)
      then Refuse YVEX_ERR_UNSUPPORTED "unsupported GGUF container version" else
      tensor_count ← decode_u64le (drop 8 bytes);
      metadata_count ← decode_u64le (drop 16 bytes);
      Done (mk_header version metadata_count tensor_count)
  end.

(** The header of a GGUF file, or [None] for a file that is not one. *)
Definition yvex_gguf_probe_file (artifact : option yvex_artifact) (first second : list pread_answer)
    : outcome (option yvex_gguf_header) :=
  match artifact with
  | None => Refuse YVEX_ERR_INVALID_ARG "artifact and output are required"
  | Some a =>
      is_gguf ← (if 4 <=? yvex_artifact_size artifact
                 then bytes ← yvex_artifact_read_at a first 0 4;
                      magic ← gguf_u32le_load bytes; Done (magic =? YVEX_GGUF_MAGIC)
                 else Done true);
      if negb is_gguf then Done None else
      header ← yvex_gguf_read_header artifact second;
      Done (Some header)
  end.

(** ** Accessors of a view *)

Definition yvex_gguf_metadata_count (gguf : yvex_gguf) : Z := h_metadata_count (g_header gguf).
Definition yvex_gguf_tensor_count (gguf : yvex_gguf) : Z := h_tensor_count (g_header gguf).

Definition yvex_gguf_metadata_key (gguf : yvex_gguf) (index : Z) : outcome (option (list Z)) :=
  if index <? h_metadata_count (g_header gguf) then e ← metadata_at gguf index; Done (e_key e) else Done None.

Definition yvex_gguf_metadata_value (gguf : yvex_gguf) (index : Z) : outcome (option yvex_gguf_value) :=
  if index <? h_metadata_count (g_header gguf)
  then e ← metadata_at gguf index; Done (Some (e_value e)) else Done None.

Definition yvex_gguf_tensor_at (gguf : yvex_gguf) (index : Z) : outcome (option yvex_gguf_tensor_info) :=
  if index <? h_tensor_count (g_header gguf) then t ← tensor_at gguf index; Done (Some t) else Done None.

Definition yvex_gguf_tensor_data_offset (gguf : yvex_gguf) : Z := g_tensor_data_offset gguf.
Definition yvex_gguf_alignment (gguf : yvex_gguf) : Z := g_alignment gguf.
Definition yvex_gguf_file_size (gguf : yvex_gguf) : Z := st_file_size (g_stats gguf).
Definition yvex_gguf_reader_stats_view (gguf : yvex_gguf) : yvex_gguf_reader_stats := g_stats gguf.
