(* ===== verification/GgufSpec.v ===== *)
(** * GgufSpec: how the parsers of the GGUF reader are specified

    A parser consumes bytes at the cursor and updates the object it fills.  Its
    specification is a relation [T d a d' b k]: from the object [d] it returns [a]
    and leaves [d'] after consuming the text [b], at the cost [k] (bytes and calls
    of reads, bytes of strings, entries of arrays, bytes owned).  [spec] states,
    for every file, every budget and every behaviour of the allocator and the
    kernel, that a parser that returns has consumed such a text at that cost, that
    a parser that refuses leaves an object that can be released, and, when the
    environment grants every request, that every such text within the budgets is
    accepted.  Specifications compose along the monad. *)

From Stdlib Require Import ZArith Lia Bool.
From stdpp Require Import base list option numbers strings sets.
From S2P Require Import Prelude Core Words NameIndex Utf8 Float64 Qtype Artifact GgufReader.

(** ** Costs *)

Record cost : Type := mk_cost {
  k_bytes : Z;
  k_reads : Z;
  k_strings : Z;
  k_entries : Z;
  k_owned : Z
}.

Definition cost_zero : cost := mk_cost 0 0 0 0 0.
Definition cost_add (a b : cost) : cost :=
  mk_cost (k_bytes a + k_bytes b) (k_reads a + k_reads b) (k_strings a + k_strings b)
    (k_entries a + k_entries b) (k_owned a + k_owned b).

Definition cost_ok (k : cost) : Prop :=
  0 <= k_reads k <= k_bytes k /\ 0 <= k_strings k /\ 0 <= k_entries k /\ 0 <= k_owned k.

Declare Scope cost_scope.
Delimit Scope cost_scope with cost.
Bind Scope cost_scope with cost.
Notation "a ⊕ b" := (cost_add a b) (at level 50, left associativity) : cost_scope.
Open Scope cost_scope.

Lemma cost_ext a b :
  k_bytes a = k_bytes b -> k_reads a = k_reads b -> k_strings a = k_strings b ->
  k_entries a = k_entries b -> k_owned a = k_owned b -> a = b.
Proof. destruct a, b. cbn. by intros -> -> -> -> ->. Qed.

Ltac cost_eq := apply cost_ext; cbn -[zlen Z.add Z.mul]; lia.

Lemma cost_add_assoc a b c : a ⊕ (b ⊕ c) = a ⊕ b ⊕ c.
Proof. cost_eq. Qed.
Lemma cost_zero_l a : cost_zero ⊕ a = a.
Proof. cost_eq. Qed.
Lemma cost_zero_r a : a ⊕ cost_zero = a.
Proof. cost_eq. Qed.
Lemma cost_add_ok a b : cost_ok a -> cost_ok b -> cost_ok (a ⊕ b).
Proof. unfold cost_ok. cbn. lia. Qed.
Lemma cost_zero_ok : cost_ok cost_zero.
Proof. unfold cost_ok. cbn. lia. Qed.
#[export] Hint Resolve cost_add_ok cost_zero_ok : yvex.

Section Spec.
  Context (artifact : yvex_artifact) (io : Z -> list pread_answer) (alloc : Z -> bool).
  Context (options : yvex_gguf_reader_options).

(** ** Cursors *)

(** The bytes after the cursor. *)
Definition rest (c : yvex_file_cursor) : list Z := drop (Z.to_nat (c_offset c)) (a_bytes artifact).

Record cur_ok (c : yvex_file_cursor) : Prop := {
  co_offset : 0 <= c_offset c <= zlen (a_bytes artifact);
  co_size : c_offset c <= a_size artifact;
  co_structural : st_structural_bytes_read (c_stats c) = c_offset c;
  co_structural_max : c_offset c <= max_structural_bytes options;
  co_calls : 0 <= st_read_calls (c_stats c) <= c_offset c;
  co_owned : 0 <= st_owned_bytes (c_stats c) <= max_owned_bytes options;
  co_strings : 0 <= st_total_string_bytes (c_stats c) <= max_total_string_bytes options;
  co_entries : 0 <= st_total_array_entries (c_stats c) <= max_total_array_entries options
}.

(** The cursor advanced by a cost. *)
Definition spend (k : cost) (st : yvex_gguf_reader_stats) : yvex_gguf_reader_stats :=
  mk_stats (st_file_size st) (st_structural_bytes_read st + k_bytes k) (st_payload_bytes_read st)
    (st_read_calls st + k_reads k) (st_owned_bytes st + k_owned k) (st_total_string_bytes st + k_strings k)
    (st_total_array_entries st + k_entries k) (st_directory_end_offset st).

(** The end of the directory is recorded apart from the other counters. *)
Definition counters (st : yvex_gguf_reader_stats) : yvex_gguf_reader_stats :=
  mk_stats (st_file_size st) (st_structural_bytes_read st) (st_payload_bytes_read st) (st_read_calls st)
    (st_owned_bytes st) (st_total_string_bytes st) (st_total_array_entries st) 0.

Definition moved (k : cost) (c c' : yvex_file_cursor) : Prop :=
  c_offset c' = c_offset c + k_bytes k /\ counters (c_stats c') = spend k (counters (c_stats c)).

Lemma moved_fields k c c' : moved k c c' ->
  c_offset c' = c_offset c + k_bytes k
  /\ st_structural_bytes_read (c_stats c') = st_structural_bytes_read (c_stats c) + k_bytes k
  /\ st_read_calls (c_stats c') = st_read_calls (c_stats c) + k_reads k
  /\ st_owned_bytes (c_stats c') = st_owned_bytes (c_stats c) + k_owned k
  /\ st_total_string_bytes (c_stats c') = st_total_string_bytes (c_stats c) + k_strings k
  /\ st_total_array_entries (c_stats c') = st_total_array_entries (c_stats c) + k_entries k.
Proof. intros [Ho Hs]. injection Hs as _ H1 _ H2 H3 H4 H5. done. Qed.

(** The budgets that remain at [c] cover [k]. *)
Definition within (c : yvex_file_cursor) (k : cost) : Prop :=
  c_offset c + k_bytes k <= max_structural_bytes options
  /\ st_owned_bytes (c_stats c) + k_owned k <= max_owned_bytes options
  /\ st_total_string_bytes (c_stats c) + k_strings k <= max_total_string_bytes options
  /\ st_total_array_entries (c_stats c) + k_entries k <= max_total_array_entries options.

Lemma stats_eta st : spend cost_zero st = st.
Proof. destruct st. unfold spend, counters. cbn. f_equal; lia. Qed.

Lemma moved_zero c c' :
  c_offset c' = c_offset c -> counters (c_stats c') = counters (c_stats c) -> moved cost_zero c c'.
Proof. intros Ho Hs. split; [rewrite Ho; cbn; lia|by rewrite Hs, stats_eta]. Qed.

Lemma moved_refl c : moved cost_zero c c.
Proof. by apply moved_zero. Qed.

Lemma moved_trans k1 k2 c c1 c2 : moved k1 c c1 -> moved k2 c1 c2 -> moved (k1 ⊕ k2) c c2.
Proof.
  intros [H1 H2] [H3 H4]. split; [rewrite H3, H1; cbn; lia|]. rewrite H4, H2. unfold spend, counters. cbn. f_equal; lia.
Qed.

Lemma within_l c k1 k2 : cost_ok k2 -> within c (k1 ⊕ k2) -> within c k1.
Proof. unfold within, cost_ok. cbn. lia. Qed.

Lemma within_r c c1 k1 k2 : moved k1 c c1 -> within c (k1 ⊕ k2) -> within c1 k2.
Proof. intros H%moved_fields. unfold within. cbn. lia. Qed.

Lemma moved_rest k c c' b tail :
  0 <= c_offset c -> moved k c c' -> k_bytes k = zlen b -> rest c = b ++ tail -> rest c' = tail.
Proof.
  intros Ho [H _] Hb Hr. unfold rest in *. rewrite H, Hb. pose proof (zlen_nonneg b).
  rewrite Z2Nat.inj_add by lia. rewrite <- drop_drop, Hr. rewrite to_nat_zlen. by rewrite drop_app_length.
Qed.

Lemma rest_length c : cur_ok c -> zlen (rest c) = zlen (a_bytes artifact) - c_offset c.
Proof. intros H. pose proof (co_offset _ H). unfold rest, zlen in *. rewrite length_drop. lia. Qed.

Lemma moved_ok k c c' b tail :
  cur_ok c -> a_size artifact = zlen (a_bytes artifact) -> moved k c c' -> cost_ok k -> k_bytes k = zlen b ->
  rest c = b ++ tail -> within c k -> cur_ok c'.
Proof.
  intros H Ha Hm Hk Hb Hr Hw. pose proof (rest_length c H) as Hl. rewrite Hr, zlen_app in Hl.
  pose proof (zlen_nonneg tail). pose proof (zlen_nonneg b). apply moved_fields in Hm. destruct H.
  unfold within in Hw. unfold cost_ok in Hk. split; lia.
Qed.

(** The cursor at another section or record. *)
Definition cursor_near (c c' : yvex_file_cursor) : Prop :=
  c_offset c' = c_offset c /\ counters (c_stats c') = counters (c_stats c).

Lemma near_ok c c' : cursor_near c c' -> cur_ok c -> cur_ok c'.
Proof. intros [Ho Hs] H. injection Hs as _ H1 _ H2 H3 H4 H5. destruct H. split; rewrite ?Ho, ?H1, ?H2, ?H3, ?H4, ?H5; done. Qed.

(** ** Specifications *)

(** Every allocation is granted, no read fails, and the file has the size it had
    when it was opened. *)
Definition generous : Prop :=
  (forall n, alloc n = true) /\ (forall n, PreadFailed ∉ io n)
  /\ a_size artifact = zlen (a_bytes artifact) /\ a_size artifact <= INT64_MAX.

(** The refusal recorded is that of the memory of an array. *)
Definition storage_refused (c : yvex_file_cursor) : Prop :=
  pr_reason (c_result c) = "GGUF owned-memory budget exceeded"
  \/ pr_reason (c_result c) = "failed to allocate GGUF array items".

(** The status returned is the one of the code recorded, which is not success. *)
Definition recorded (c : yvex_file_cursor) (status : yvex_status) : Prop :=
  status = parse_code_error (pr_code (c_result c)) /\ pr_code (c_result c) <> PARSE_OK.

Section Object.
  Context {D : Type} (clear : D -> outcome unit).

Definition tolerable (c : yvex_file_cursor) (d : D) : Prop :=
  clear d = Done tt \/ (storage_refused c /\ clear d = Fault NullPointer).

Record spec {A} (pre : yvex_file_cursor -> D -> Prop) (p : GD D A) (T : D -> A -> D -> list Z -> cost -> Prop) : Prop := {
  sp_cost : forall d a d' b k, T d a d' b k -> cost_ok k /\ k_bytes k = zlen b;
  sp_run : forall c d, cur_ok c -> pre c d ->
    match p (c, d) with
    | ((c', d'), Done a) => cur_ok c' /\ exists b k, T d a d' b k /\ rest c = b ++ rest c' /\ moved k c c'
    | ((c', d'), Refuse status _) => tolerable c' d' /\ recorded c' status
    | ((c', _), Fault f) => f = NullPointer /\ storage_refused c'
    end;
  sp_complete : generous -> forall c d a d' b k tail, cur_ok c -> pre c d -> T d a d' b k ->
    rest c = b ++ tail -> within c k -> exists c', p (c, d) = ((c', d'), Done a) /\ moved k c c'
}.

(** Sequencing. *)
Definition then_ {A B} (T : D -> A -> D -> list Z -> cost -> Prop) (U : A -> D -> B -> D -> list Z -> cost -> Prop)
    : D -> B -> D -> list Z -> cost -> Prop := fun d b d' text k =>
  exists a d1 t1 k1 t2 k2, T d a d1 t1 k1 /\ U a d1 b d' t2 k2 /\ text = t1 ++ t2 /\ k = k1 ⊕ k2.

Lemma spec_bind {A B} (pre : yvex_file_cursor -> D -> Prop) (pre2 : A -> yvex_file_cursor -> D -> Prop) (p : GD D A) (q : A -> GD D B) T U :
  spec pre p T -> (forall a, spec (pre2 a) (q a) (U a)) ->
  (forall c c' d a d' b k, cur_ok c -> pre c d -> T d a d' b k -> moved k c c' -> pre2 a c' d') ->
  spec pre (p ≫= q) (then_ T U).
Proof.
  intros Hp Hq Hpre. split.
  - intros d b d' t k (a & d1 & t1 & k1 & t2 & k2 & HT & HU & -> & ->).
    destruct (sp_cost _ _ _ Hp _ _ _ _ _ HT) as [Hk1 Hb1]. destruct (sp_cost _ _ _ (Hq a) _ _ _ _ _ HU) as [Hk2 Hb2].
    split; [auto with yvex|]. cbn. rewrite zlen_app. lia.
  - intros c d Hc Hd. pose proof (sp_run _ _ _ Hp c d Hc Hd) as H. unfold mbind, so_bind.
    destruct (p (c, d)) as [[c1 d1] [a|st r|f]]; [|done|done].
    destruct H as (Hc1 & t1 & k1 & HT & Hr1 & Hm1).
    pose proof (sp_run _ _ _ (Hq a) c1 d1 Hc1 (Hpre _ _ _ _ _ _ _ Hc Hd HT Hm1)) as H.
    destruct (q a (c1, d1)) as [[c2 d2] [b|st r|f]]; [|done|done].
    destruct H as (Hc2 & t2 & k2 & HU & Hr2 & Hm2). split; [done|].
    exists (t1 ++ t2), (k1 ⊕ k2). split; [by exists a, d1, t1, k1, t2, k2|].
    split; [by rewrite Hr1, Hr2, app_assoc|by eapply moved_trans].
  - intros Hg c d b d' t k tail Hc Hd (a & d1 & t1 & k1 & t2 & k2 & HT & HU & -> & ->) Hr Hw.
    rewrite <- app_assoc in Hr.
    destruct (sp_cost _ _ _ Hp _ _ _ _ _ HT) as [Hk1 Hb1].
    destruct (sp_cost _ _ _ (Hq a) _ _ _ _ _ HU) as [Hk2 Hb2].
    pose proof (within_l _ _ _ Hk2 Hw) as Hw1.
    destruct (sp_complete _ _ _ Hp Hg c d a d1 t1 k1 _ Hc Hd HT Hr Hw1) as (c1 & E1 & Hm1).
    pose proof (Hpre _ _ _ _ _ _ _ Hc Hd HT Hm1) as Hd1.
    destruct (sp_complete _ _ _ (Hq a) Hg c1 d1 b d' t2 k2 tail) as (c2 & E2 & Hm2); [|done|done| | |].
    + destruct Hg as (_ & _ & Ha & _). by eapply moved_ok.
    + by eapply moved_rest; [apply (co_offset _ Hc)| | |].
    + by eapply within_r.
    + exists c2. split; [|by eapply moved_trans]. unfold mbind, so_bind. by rewrite E1.
Qed.

(** A specification may be restated, and its precondition strengthened. *)
Lemma spec_iff {A} (pre pre' : yvex_file_cursor -> D -> Prop) (p : GD D A) T U :
  spec pre p T -> (forall c d, pre' c d -> pre c d) ->
  (forall d a d' b k, U d a d' b k -> cost_ok k /\ k_bytes k = zlen b) ->
  (forall c d a d' b k, pre' c d -> T d a d' b k <-> U d a d' b k) -> spec pre' p U.
Proof.
  intros H Hp HU HTU. split; [done| |].
  - intros c d Hc Hd. pose proof (sp_run _ _ _ H c d Hc (Hp _ _ Hd)) as Hr.
    destruct (p (c, d)) as [[c1 d1] [a|st r|f]]; [|done|done].
    destruct Hr as (Hc1 & b & k & HT & Hr). split; [done|]. exists b, k. split; [by eapply HTU|done].
  - intros Hg c d a d' b k tail Hc Hd HU'. apply (sp_complete _ _ _ H Hg); [done|by apply Hp|by eapply HTU].
Qed.

(** The same relation under a stronger precondition. *)
Lemma spec_pre {A} (pre pre' : yvex_file_cursor -> D -> Prop) (p : GD D A) T :
  spec pre p T -> (forall c d, pre' c d -> pre c d) -> spec pre' p T.
Proof. intros H Hp. eapply spec_iff; [done|done|apply (sp_cost _ _ _ H)|done]. Qed.

(** An equivalent relation. *)
Lemma spec_same {A} (pre : yvex_file_cursor -> D -> Prop) (p : GD D A) T U :
  spec pre p T -> (forall d a d' b k, T d a d' b k <-> U d a d' b k) -> spec pre p U.
Proof.
  intros H E. eapply spec_iff; [done|done| |done]. intros d a d' b k HU. apply E in HU. by eapply (sp_cost _ _ _ H).
Qed.

Lemma spec_ext {A} (pre : yvex_file_cursor -> D -> Prop) (p q : GD D A) T :
  (forall s, p s = q s) -> spec pre p T -> spec pre q T.
Proof.
  intros E [H1 H2 H3]. split; [done| |].
  - intros c d. rewrite <- E. apply H2.
  - intros Hg c d a d' b k tail. rewrite <- E. by apply H3.
Qed.

Lemma spec_vacuous {A} (pre : yvex_file_cursor -> D -> Prop) (p : GD D A) T :
  (forall d a d' b k, T d a d' b k -> cost_ok k /\ k_bytes k = zlen b) ->
  (forall c d, pre c d -> False) -> spec pre p T.
Proof. intros Hc H. split; [done| |]; intros; exfalso; eauto. Qed.

(** Returning, refusing, guarding. *)
Definition nothing {A} (x : A) : D -> A -> D -> list Z -> cost -> Prop := fun d a d' b k =>
  a = x /\ d' = d /\ b = [] /\ k = cost_zero.

Lemma spec_ret {A} (pre : yvex_file_cursor -> D -> Prop) (x : A) : spec pre (mret x) (nothing x).
Proof.
  split.
  - intros d a d' b k (-> & -> & -> & ->). split; [apply cost_zero_ok|done].
  - intros c d Hc Hd. cbn. split; [done|]. exists [], cost_zero. split; [done|]. split; [done|apply moved_refl].
  - intros _ c d a d' b k tail Hc Hd (-> & -> & -> & ->) _ _. exists c. split; [done|apply moved_refl].
Qed.

Lemma spec_set (pre : yvex_file_cursor -> D -> Prop) d0 :
  spec pre (set_object d0) (fun d a d' b k => d' = d0 /\ b = [] /\ k = cost_zero).
Proof.
  split.
  - intros d a d' b k (-> & -> & ->). split; [apply cost_zero_ok|done].
  - intros c d Hc Hd. cbn. split; [done|]. exists [], cost_zero. split; [done|]. split; [done|apply moved_refl].
  - intros _ c d [] d' b k tail Hc Hd (-> & -> & ->) _ _. exists c. split; [done|apply moved_refl].
Qed.

Lemma spec_get (pre : yvex_file_cursor -> D -> Prop) :
  spec pre get_object (fun d a d' b k => a = d /\ d' = d /\ b = [] /\ k = cost_zero).
Proof.
  split.
  - intros d a d' b k (-> & -> & -> & ->). split; [apply cost_zero_ok|done].
  - intros c d Hc Hd. cbn. split; [done|]. exists [], cost_zero. split; [done|]. split; [done|apply moved_refl].
  - intros _ c d a d' b k tail Hc Hd (-> & -> & -> & ->) _ _. exists c. split; [done|apply moved_refl].
Qed.

(** A computation that cannot fail. *)
Lemma spec_lift {A} (pre : yvex_file_cursor -> D -> Prop) (r : outcome A) x :
  (forall c d, pre c d -> r = Done x) -> spec pre (so_lift r) (nothing x).
Proof.
  intros Hr. split.
  - intros d a d' b k (-> & -> & -> & ->). split; [apply cost_zero_ok|done].
  - intros c d Hc Hd. unfold so_lift. rewrite (Hr c d Hd).
    split; [done|]. exists [], cost_zero. split; [done|]. split; [done|apply moved_refl].
  - intros _ c d a d' b k tail Hc Hd (-> & -> & -> & ->) _ _. exists c. unfold so_lift. rewrite (Hr c d Hd).
    split; [done|apply moved_refl].
Qed.

Lemma spec_lift_cursor {A} (pre : yvex_file_cursor -> D -> Prop) (r : outcome A) x :
  (forall c d, pre c d -> r = Done x) -> spec pre (on_cursor (so_lift r)) (nothing x).
Proof. intros Hr. eapply spec_ext; [|by apply (spec_lift pre r x)]. by intros [c d]. Qed.

Definition never {A} : D -> A -> D -> list Z -> cost -> Prop := fun _ _ _ _ _ => False.

Lemma fail_run {A} code section reason c d :
  clear d = Done tt -> code <> PARSE_OK ->
  match on_cursor (D := D) (A := A) (cursor_fail code section reason) (c, d) with
  | ((c', d'), Refuse status _) => tolerable c' d' /\ recorded c' status
  | _ => False
  end.
Proof. intros Hd Hc. cbn. split; [by left|done]. Qed.

Lemma spec_fail {A} (pre : yvex_file_cursor -> D -> Prop) code section reason :
  (forall c d, pre c d -> clear d = Done tt) -> code <> PARSE_OK ->
  spec pre (on_cursor (A := A) (cursor_fail code section reason)) never.
Proof.
  intros Hp Hcode. split; [done| |done].
  intros c d Hc Hd. pose proof (fail_run (A := A) code section reason c d (Hp c d Hd) Hcode). done.
Qed.

Definition guarded {A} (g : bool) (T : D -> A -> D -> list Z -> cost -> Prop)
    : D -> A -> D -> list Z -> cost -> Prop := fun d a d' b k => g = false /\ T d a d' b k.

Lemma spec_if {A} (pre : yvex_file_cursor -> D -> Prop) (g : bool) (p q : GD D A) T :
  spec pre p never -> (g = false -> spec pre q T) -> spec pre (if g then p else q) (guarded g T).
Proof.
  intros Hp Hq. destruct g.
  - eapply spec_same; [exact Hp|]. intros. unfold guarded, never. naive_solver.
  - eapply spec_same; [by apply Hq|]. intros. unfold guarded. naive_solver.
Qed.

Lemma spec_cases {A} (pre : yvex_file_cursor -> D -> Prop) (g : bool) (p q : GD D A) T U :
  (g = true -> spec pre p T) -> (g = false -> spec pre q U) ->
  spec pre (if g then p else q) (fun d a d' b k => if g then T d a d' b k else U d a d' b k).
Proof. intros Hp Hq. destruct g; auto. Qed.

(** ** Operations on the cursor *)

(** The relation of an operation that leaves the object alone. *)
Definition cursor_only {A} (T : A -> list Z -> cost -> Prop) : D -> A -> D -> list Z -> cost -> Prop :=
  fun d a d' b k => d' = d /\ T a b k.

Lemma on_cursor_bind {A B} (p : GR A) (q : A -> GR B) s :
  (on_cursor (D := D) p ≫= fun a => on_cursor (q a)) s = on_cursor (p ≫= q) s.
Proof.
  destruct s as [c d]. unfold mbind, so_bind, on_cursor. by destruct (p c) as [c' [a|st r|f]].
Qed.

Lemma spec_cursor_bind {A B} (pre : yvex_file_cursor -> D -> Prop) (pre2 : A -> yvex_file_cursor -> D -> Prop)
    (p : GR A) (q : A -> GR B) T U :
  spec pre (on_cursor p) T -> (forall a, spec (pre2 a) (on_cursor (q a)) (U a)) ->
  (forall c c' d a d' b k, cur_ok c -> pre c d -> T d a d' b k -> moved k c c' -> pre2 a c' d') ->
  spec pre (on_cursor (p ≫= q)) (then_ T U).
Proof. intros Hp Hq H. eapply spec_ext; [apply on_cursor_bind|]. by eapply spec_bind. Qed.

Lemma spec_cursor_if {A} (pre : yvex_file_cursor -> D -> Prop) (g : bool) (p q : GR A) T :
  spec pre (on_cursor p) never -> (g = false -> spec pre (on_cursor q) T) ->
  spec pre (on_cursor (if g then p else q)) (guarded g T).
Proof.
  intros Hp Hq. eapply spec_ext; [|by apply (spec_if pre g (on_cursor p) (on_cursor q))]. by destruct g.
Qed.

Lemma spec_cursor_ret {A} (pre : yvex_file_cursor -> D -> Prop) (x : A) : spec pre (on_cursor (mret x)) (nothing x).
Proof. eapply spec_ext; [|apply spec_ret]. by intros [c d]. Qed.

Lemma spec_near (pre : yvex_file_cursor -> D -> Prop) (f : yvex_file_cursor -> yvex_file_cursor) :
  (forall c, cursor_near c (f c)) ->
  spec pre (on_cursor (so_modify f)) (cursor_only (fun _ b k => b = [] /\ k = cost_zero)).
Proof.
  intros Hf. split.
  - intros d a d' b k (-> & -> & ->). split; [apply cost_zero_ok|done].
  - intros c d Hc Hd. cbn. pose proof (Hf c) as Hn. split; [by eapply near_ok|].
    exists [], cost_zero. split; [done|]. destruct Hn as [Ho Hs]. unfold rest. rewrite Ho. split; [done|by apply moved_zero].
  - intros _ c d [] d' b k tail Hc Hd (-> & -> & ->) _ _. exists (f c). split; [done|].
    destruct (Hf c). by apply moved_zero.
Qed.

Lemma spec_section (pre : yvex_file_cursor -> D -> Prop) section :
  spec pre (on_cursor (set_section section)) (cursor_only (fun _ b k => b = [] /\ k = cost_zero)).
Proof. by apply spec_near. Qed.

Lemma spec_record (pre : yvex_file_cursor -> D -> Prop) index :
  spec pre (on_cursor (set_record index)) (cursor_only (fun _ b k => b = [] /\ k = cost_zero)).
Proof. by apply spec_near. Qed.

(** A change of section or record before a parser. *)
Lemma spec_near_first {A} (pre : yvex_file_cursor -> D -> Prop) (f : yvex_file_cursor -> yvex_file_cursor)
    (q : unit -> GD D A) T :
  (forall c, cursor_near c (f c)) -> (forall c d, pre c d -> pre (f c) d) -> spec pre (q tt) T ->
  spec pre (on_cursor (so_modify f) ≫= q) T.
Proof.
  intros Hf Hpre H.
  assert (forall c c' k, moved k (f c) c' -> moved k c c') as Hm.
  { intros c c' k Hk. rewrite <- (cost_zero_l k). eapply moved_trans; [|exact Hk]. destruct (Hf c). by apply moved_zero. }
  assert (forall c, rest (f c) = rest c) as Hrest by (intros c; unfold rest; by rewrite (proj1 (Hf c))).
  split; [apply (sp_cost _ _ _ H)| |].
  - intros c d Hc Hd. pose proof (sp_run _ _ _ H (f c) d (near_ok _ _ (Hf c) Hc) (Hpre c d Hd)) as Hr.
    change ((on_cursor (so_modify f) ≫= q) (c, d)) with (q tt (f c, d)).
    destruct (q tt (f c, d)) as [[c1 d1] [a|st r|e]]; [|done|done].
    destruct Hr as (Hc1 & b & k & HT & Hr & Hk). rewrite Hrest in Hr. eauto 10.
  - intros Hg c d a d' b k tail Hc Hd HT Hr Hw. change ((on_cursor (so_modify f) ≫= q) (c, d)) with (q tt (f c, d)).
    destruct (sp_complete _ _ _ H Hg (f c) d a d' b k tail (near_ok _ _ (Hf c) Hc) (Hpre c d Hd) HT) as (c' & E & Hk).
    + by rewrite Hrest.
    + destruct (Hf c) as [Ho Hs]. injection Hs as _ _ _ _ H3 H4 H5. unfold within in *. by rewrite Ho, H3, H4, H5.
    + eauto.
Qed.

(** ** Loops *)

(** [n] iterations from [i]. *)
Fixpoint chain (T : Z -> D -> D -> list Z -> cost -> Prop) (n : nat) (i : Z) (d d' : D) (b : list Z) (k : cost)
    : Prop :=
  match n with
  | O => d' = d /\ b = [] /\ k = cost_zero
  | S n => exists d1 b1 k1 b2 k2, T i d d1 b1 k1 /\ chain T n (i + 1) d1 d' b2 k2 /\ b = b1 ++ b2 /\ k = k1 ⊕ k2
  end.

Lemma spec_each (f : Z -> GD D unit) (T : Z -> D -> D -> list Z -> cost -> Prop)
    (inv : Z -> yvex_file_cursor -> D -> Prop) n :
  (forall i, 0 <= i < n -> spec (inv i) (f i) (fun d _ d' b k => T i d d' b k)) ->
  (forall i c c' d d' b k, 0 <= i < n -> cur_ok c -> inv i c d -> T i d d' b k -> moved k c c' -> inv (i + 1) c' d') ->
  spec (inv 0) (so_each f (zseq n)) (fun d _ d' b k => chain T (Z.to_nat n) 0 d d' b k).
Proof.
  intros Hf Hinv.
  assert (forall m i, 0 <= i -> i + Z.of_nat m <= n ->
    spec (inv i) (so_each f ((fun j => i + Z.of_nat j) <$> seq 0 m)) (fun d _ d' b k => chain T m i d d' b k)) as A.
  { induction m as [|m IH]; intros i Hi Hm; cbn [seq fmap list_fmap so_each chain].
    - eapply spec_same; [apply spec_ret|]. intros d [] d' b k. unfold nothing. naive_solver.
    - rewrite Z.add_0_r. eapply spec_same.
      { eapply spec_bind with (pre2 := fun _ => inv (i + 1)); [apply Hf; lia| |intros c c' d a d' b k Hc Hd HT Hm'; apply (Hinv i c c' d d' b k); [lia|done..]].
        intros u. replace ((fun j => i + Z.of_nat j) <$> seq 1 m) with ((fun j => (i + 1) + Z.of_nat j) <$> seq 0 m).
        { apply IH; lia. }
        rewrite <- fmap_S_seq, <- list_fmap_compose. apply list_fmap_ext. intros j x _. cbn. lia. }
      intros d [] d' b k. unfold then_. split.
      + intros (u & d1 & b1 & k1 & b2 & k2 & H1 & H2 & -> & ->). eauto 10.
      + intros (d1 & b1 & k1 & b2 & k2 & H1 & H2 & -> & ->). exists tt. eauto 10. }
  destruct (decide (0 <= n)) as [Hn|Hn].
  - specialize (A (Z.to_nat n) 0 ltac:(lia) ltac:(lia)). eapply spec_ext; [|exact A].
    intros s. f_equal. 
  - replace (zseq n) with (@nil Z) by (unfold zseq; by replace (Z.to_nat n) with 0%nat by lia).
    replace (Z.to_nat n) with 0%nat by lia. eapply spec_same; [apply spec_ret|].
    intros d [] d' b k. unfold nothing. cbn. naive_solver.
Qed.

End Object.
End Spec.

(** ** The elementary readers *)

Record options_ok (options : yvex_gguf_reader_options) : Prop := {
  oo_metadata : is_u64 (max_metadata_entries options);
  oo_tensors : is_u64 (max_tensor_entries options);
  oo_array : is_u64 (max_array_entries options);
  oo_entries : is_u64 (max_total_array_entries options);
  oo_string : is_u64 (max_string_bytes options);
  oo_strings : is_u64 (max_total_string_bytes options);
  oo_owned : is_u64 (max_owned_bytes options);
  oo_structural : is_u64 (max_structural_bytes options);
  oo_depth : is_u32 (max_array_depth options)
}.

(** The file is made of bytes and its size and the limits are machine integers. *)
Record file_ok (artifact : yvex_artifact) (options : yvex_gguf_reader_options) : Prop := {
  fo_size : is_u64 (a_size artifact);
  fo_bytes : Forall is_u8 (a_bytes artifact);
  fo_options : options_ok options
}.

Section Elementary.
  Context (artifact : yvex_artifact) (io : Z -> list pread_answer) (alloc : Z -> bool).
  Context (options : yvex_gguf_reader_options) (Hfile : file_ok artifact options).
  Context {D : Type} (clear : D -> outcome unit) (pre : yvex_file_cursor -> D -> Prop).

Notation spec := (spec artifact io alloc options clear).
Notation cur_ok := (cur_ok artifact options).
Notation rest := (rest artifact).

(** The object can be released, entirely or up to the array that has no items. *)
Definition releasable : Prop := forall c d, pre c d -> clear d = Done tt.
Definition half_releasable : Prop := forall c d, pre c d -> clear d = Done tt \/ clear d = Fault NullPointer.

Definition read_cost (len : Z) : cost := mk_cost len 1 0 0 0.

Lemma read_cost_ok len : 1 <= len -> cost_ok (read_cost len).
Proof. unfold cost_ok. cbn. lia. Qed.

Lemma spec_read len field :
  releasable -> 1 <= len < 2 ^ 64 ->
  spec pre (on_cursor (cursor_read_exact artifact io options len field))
    (cursor_only (fun a b k => a = b /\ zlen b = len /\ Forall is_u8 b /\ k = read_cost len)).
Proof.
  intros Hrel Hlen. destruct Hfile as [Hsize Hbytes [? ? ? ? ? ? ? Hst ?]]. unfold is_u64 in Hsize, Hst. split.
  - intros d a d' b k (-> & -> & Hz & _ & ->). split; [apply read_cost_ok; lia|]. cbn. lia.
  - intros c d Hc Hd. pose proof (Hrel c d Hd) as Hcl. destruct Hc as [Ho Hsz Hs Hm Hcalls Hown Hstr Hent].
    unfold on_cursor, cursor_read_exact, mbind, so_bind, so_get. cbv zeta.
    replace (c_offset c <=? a_size artifact) with true by lia.
    destruct (a_size artifact - c_offset c <? len) eqn:E1; [split; [by left|done]|].
    rewrite Hs. destruct ((_ <? len) || (_ <? _)) eqn:E2; [split; [by left|done]|]. bool_hyps.
    pose proof (artifact_read_exact artifact (io (st_read_calls (c_stats c))) (c_offset c) len
      ltac:(lia) ltac:(lia) Hsize) as Hr.
    destruct (yvex_artifact_read_at _ _ _ _) as [bytes|st r|f]; [|split; [by left|done]|done].
    destruct Hr as (-> & Hz & Hend). unfold slice in Hz. cbn.
    assert (c_offset c + len <= zlen (a_bytes artifact)) as Hin.
    { unfold zlen in Hz |- *. rewrite length_take, length_drop in Hz. lia. }
    rewrite !u64_id by (unfold is_u64; lia). split.
    { split; cbn; lia. }
    eexists _, (read_cost len). split; [split; [done|]; split; [reflexivity|]; split; [done|]; split; [|done]|].
    + by apply Forall_take, Forall_drop.
    + split; [|split; [done|]].
      * unfold rest, GgufSpec.rest. cbn. apply drop_slice; lia.
      * unfold spend, counters. cbn. rewrite Hs. f_equal; lia.
  - intros (Halloc & Hio & Hsame & Hmax) c d a d' b k tail Hc Hd (-> & -> & Hz & Hu & ->) Hr Hw.
    pose proof (rest_length _ _ _ Hc) as Hl. rewrite Hr, zlen_app in Hl. pose proof (zlen_nonneg tail).
    destruct Hc as [Ho Hsz Hs Hm Hcalls Hown Hstr Hent]. unfold within in Hw. cbn in Hw.
    unfold on_cursor, cursor_read_exact, mbind, so_bind, so_get. cbv zeta.
    replace (c_offset c <=? a_size artifact) with true by lia.
    replace (a_size artifact - c_offset c <? len) with false by lia. rewrite Hs.
    replace ((ULLONG_MAX - c_offset c <? len) || (max_structural_bytes options <? c_offset c + len)) with false
      by (unfold ULLONG_MAX, UINT64_MAX; lia).
    pose proof (artifact_read_exact artifact (io (st_read_calls (c_stats c))) (c_offset c) len
      ltac:(lia) ltac:(lia) Hsize) as Hx.
    destruct (yvex_artifact_read_at _ _ _ _) as [bytes|st r|f]; [| |done].
    2:{ exfalso. specialize (Hio (st_read_calls (c_stats c))). destruct Hx as [Hx|[Hx|[Hx|Hx]]]; [lia|done|lia|lia]. }
    destruct Hx as (-> & _ & _). cbn. eexists. split; [f_equal; f_equal|].
    + unfold slice. change (drop (Z.to_nat (c_offset c)) (a_bytes artifact)) with (rest c). rewrite Hr.
      rewrite <- Hz, to_nat_zlen. by rewrite take_app_length.
    + rewrite !u64_id by (unfold is_u64; lia). split; [done|]. unfold spend, counters. cbn. rewrite Hs. f_equal; lia.
Qed.

Lemma load_word n (bytes : list Z) :
  zlen bytes = Z.of_nat n -> mapO (read_at bytes) (zseq (Z.of_nat n)) = Done bytes.
Proof.
  intros H. unfold zlen in H. rewrite mapO_read by lia. f_equal. apply take_ge. lia.
Qed.

(** A read followed by the assembly of a word. *)
Lemma spec_word n (load : list Z -> outcome Z) field :
  releasable -> (1 <= n <= 8)%nat ->
  (forall bytes, zlen bytes = Z.of_nat n -> load bytes = Done (le_word bytes)) ->
  spec pre (on_cursor (bytes ← cursor_read_exact artifact io options (Z.of_nat n) field; so_lift (load bytes)))
    (cursor_only (fun a b k => b = le_bytes n a /\ 0 <= a < 2 ^ (8 * Z.of_nat n) /\ k = read_cost (Z.of_nat n))).
Proof.
  intros Hrel Hn Hload. eapply spec_ext; [intros s; apply on_cursor_bind|].
  eapply spec_iff with (pre := pre).
  - eapply spec_bind with (pre2 := fun bytes c d => zlen bytes = Z.of_nat n).
    + apply spec_read; [done|lia].
    + intros bytes. eapply spec_ext with (p := so_lift (load bytes)); [by intros [c d]|].
      apply (spec_lift _ _ _ _ _ _ _ (le_word bytes)). intros c d Hz. by apply Hload.
    + intros c c' d a d' b k _ _ (_ & -> & Hz & _) _. exact Hz.
  - done.
  - intros d a d' b k (_ & -> & Hr & ->). split; [apply read_cost_ok; lia|]. cbn. by rewrite zlen_le_bytes.
  - intros c d a d' b k _. unfold then_, cursor_only, nothing. split.
    + intros (bytes & d1 & t1 & k1 & t2 & k2 & (-> & -> & Hz & Hu & ->) & (-> & -> & -> & ->) & -> & ->).
      rewrite app_nil_r, cost_zero_r. split; [done|]. split; [|split; [|done]].
      * rewrite <- (le_bytes_word t1) at 1 by done. f_equal. unfold zlen in Hz. lia.
      * pose proof (le_word_range t1 Hu) as Hx. by rewrite Hz in Hx.
    + intros (-> & -> & Hr & ->). exists (le_bytes n a), d, (le_bytes n a), (read_cost (Z.of_nat n)), [], cost_zero.
      rewrite app_nil_r, cost_zero_r. split; [split; [done|]; split; [done|]; split; [apply zlen_le_bytes|]; split; [apply le_bytes_range|done]|].
      split; [|done]. split; [|done]. rewrite le_word_bytes by lia. by rewrite Z.mod_small.
Qed.

Lemma spec_u32 field :
  releasable ->
  spec pre (on_cursor (cursor_read_u32le artifact io options field))
    (cursor_only (fun a b k => b = le_bytes 4 a /\ is_u32 a /\ k = read_cost 4)).
Proof.
  intros Hrel. apply (spec_word 4 gguf_u32le_load); [done|lia|].
  intros bytes Hz. unfold gguf_u32le_load. by rewrite (load_word 4).
Qed.

Lemma spec_u64 field :
  releasable ->
  spec pre (on_cursor (cursor_read_u64le artifact io options field))
    (cursor_only (fun a b k => b = le_bytes 8 a /\ is_u64 a /\ k = read_cost 8)).
Proof.
  intros Hrel. apply (spec_word 8 decode_u64le); [done|lia|].
  intros bytes Hz. unfold decode_u64le. by rewrite (load_word 8).
Qed.

Definition owned_cost (n : Z) : cost := mk_cost 0 0 0 0 n.

Lemma owned_cost_ok n : 0 <= n -> cost_ok (owned_cost n).
Proof. unfold cost_ok. cbn. lia. Qed.

Lemma spec_reserve n :
  half_releasable -> 0 <= n < 2 ^ 64 ->
  spec pre (on_cursor (reserve_owned options n)) (cursor_only (fun _ b k => b = [] /\ k = owned_cost n)).
Proof.
  intros Hrel Hn. destruct Hfile as [Hsize _ [? ? ? ? ? ? Hown ? ?]]. unfold is_u64 in Hown. split.
  - intros d a d' b k (-> & -> & ->). split; [apply owned_cost_ok; lia|done].
  - intros c d Hc Hd. unfold on_cursor, reserve_owned, mbind, so_bind, so_get. cbv zeta.
    destruct ((_ <? n) || (_ <? _)) eqn:E.
    { split; [|done]. destruct (Hrel c d Hd) as [H|H]; [by left|]. right. split; [by left|done]. }
    bool_hyps. destruct Hc. cbn. split; [split; cbn; lia|]. exists [], (owned_cost n). split; [done|]. split; [done|].
    split; cbn; [lia|]. unfold spend, counters. cbn. f_equal; lia.
  - intros _ c d [] d' b k tail Hc Hd (-> & -> & ->) _ Hw. unfold within in Hw. cbn in Hw.
    unfold on_cursor, reserve_owned, mbind, so_bind, so_get. cbv zeta. destruct Hc.
    replace ((ULLONG_MAX - st_owned_bytes (c_stats c) <? n)
      || (max_owned_bytes options <? st_owned_bytes (c_stats c) + n)) with false by (unfold ULLONG_MAX, UINT64_MAX; lia).
    eexists. split; [reflexivity|]. split; cbn; [lia|]. unfold spend, counters. cbn. f_equal; lia.
Qed.

Lemma spec_allocate reason :
  releasable \/ (half_releasable /\ reason = "failed to allocate GGUF array items") ->
  spec pre (on_cursor (allocate alloc reason)) (cursor_only (fun _ b k => b = [] /\ k = cost_zero)).
Proof.
  intros Hrel. split.
  - intros d a d' b k (-> & -> & ->). split; [apply cost_zero_ok|done].
  - intros c d Hc Hd. unfold on_cursor, allocate, mbind, so_bind, so_get.
    destruct (alloc _); cbn.
    + split; [done|]. exists [], cost_zero. split; [done|]. split; [done|apply moved_refl].
    + split; [|done]. destruct Hrel as [Hrel|[Hrel ->]]; [left; by eapply Hrel|].
      destruct (Hrel c d Hd) as [H|H]; [by left|]. right. split; [by right|done].
  - intros (Hal & _) c d [] d' b k tail Hc Hd (-> & -> & ->) _ _.
    unfold on_cursor, allocate, mbind, so_bind, so_get. rewrite Hal. cbn. exists c. split; [done|apply moved_refl].
Qed.

End Elementary.

(** ** Guards on the budgets *)

Section Guards.
  Context (artifact : yvex_artifact) (io : Z -> list pread_answer) (alloc : Z -> bool).
  Context (options : yvex_gguf_reader_options).
  Context {D : Type} (clear : D -> outcome unit).

Notation spec := (spec artifact io alloc options clear).
Notation cur_ok := (cur_ok artifact options).

(** Reading the cursor first. *)
Lemma spec_so_get {A} (pre : yvex_file_cursor -> D -> Prop) (f : yvex_file_cursor -> GR A) T :
  (forall d a d' b k, T d a d' b k -> cost_ok k /\ k_bytes k = zlen b) ->
  (forall c0, cur_ok c0 -> spec (fun c d => c = c0 /\ pre c d) (on_cursor (f c0)) T) ->
  spec pre (on_cursor (c ← so_get; f c)) T.
Proof.
  intros Hcost H. split; [done| |].
  - intros c d Hc Hd. exact (sp_run _ _ _ _ _ _ _ _ (H c Hc) c d Hc (conj eq_refl Hd)).
  - intros Hg c d a d' b k tail Hc Hd HT Hr Hw.
    exact (sp_complete _ _ _ _ _ _ _ _ (H c Hc) Hg c d a d' b k tail Hc (conj eq_refl Hd) HT Hr Hw).
Qed.

(** Reading a counter of the cursor. *)
Lemma spec_read_cursor {A B} (pre : yvex_file_cursor -> D -> Prop) (f : yvex_file_cursor -> B) (q : B -> GD D A) T :
  (forall d a d' b k, T d a d' b k -> cost_ok k /\ k_bytes k = zlen b) ->
  (forall c0, cur_ok c0 -> spec (fun c d => c = c0 /\ pre c d) (q (f c0)) T) ->
  spec pre (on_cursor (c ← so_get; mret (f c)) ≫= q) T.
Proof.
  intros Hcost H. split; [done| |].
  - intros c d Hc Hd. exact (sp_run _ _ _ _ _ _ _ _ (H c Hc) c d Hc (conj eq_refl Hd)).
  - intros Hg c d a d' b k tail Hc Hd HT Hr Hw.
    exact (sp_complete _ _ _ _ _ _ _ _ (H c Hc) Hg c d a d' b k tail Hc (conj eq_refl Hd) HT Hr Hw).
Qed.

(** A guard that no text within the budgets meets. *)
Lemma spec_budget {A} (pre : yvex_file_cursor -> D -> Prop) (c0 : yvex_file_cursor) (g : bool) (p q : GD D A) T :
  (forall d a d' b k, T d a d' b k -> cost_ok k /\ k_bytes k = zlen b) ->
  (forall c d, pre c d -> c = c0) ->
  spec pre p (fun _ _ _ _ _ => False) -> (g = false -> spec pre q T) ->
  (forall d a d' b k, pre c0 d -> T d a d' b k -> within options c0 k -> g = false) ->
  spec pre (if g then p else q) T.
Proof.
  intros Hcost Hc0 Hp Hq Hg. split; [done| |].
  - intros c d Hc Hd. destruct g.
    + pose proof (sp_run _ _ _ _ _ _ _ _ Hp c d Hc Hd) as H. destruct (p (c, d)) as [[c' d'] [a|st r|f]]; [|done|done].
      by destruct H as (_ & b & k & [] & _).
    + by apply (sp_run _ _ _ _ _ _ _ _ (Hq eq_refl)).
  - intros Hgen c d a d' b k tail Hc Hd HT Hr Hw. pose proof (Hc0 _ _ Hd) as ->.
    pose proof (Hg _ _ _ _ _ Hd HT Hw) as ->. exact (sp_complete _ _ _ _ _ _ _ _ (Hq eq_refl) Hgen c0 d a d' b k tail Hc Hd HT Hr Hw).
Qed.

Lemma spec_cursor_budget {A} (pre : yvex_file_cursor -> D -> Prop) (c0 : yvex_file_cursor) (g : bool) (p q : GR A) T :
  (forall d a d' b k, T d a d' b k -> cost_ok k /\ k_bytes k = zlen b) ->
  (forall c d, pre c d -> c = c0) ->
  spec pre (on_cursor p) (fun _ _ _ _ _ => False) -> (g = false -> spec pre (on_cursor q) T) ->
  (forall d a d' b k, pre c0 d -> T d a d' b k -> within options c0 k -> g = false) ->
  spec pre (on_cursor (if g then p else q)) T.
Proof.
  intros Hcost Hc0 Hp Hq Hg. eapply spec_ext; [|by apply (spec_budget pre c0 g (on_cursor p) (on_cursor q))].
  by destruct g.
Qed.

(** Another refusal in place of the one met. *)
Lemma spec_or {A} (pre : yvex_file_cursor -> D -> Prop) (p : GR A) code section reason T :
  (forall c d, pre c d -> clear d = Done tt) -> code <> PARSE_OK ->
  spec pre (on_cursor p) T -> spec pre (on_cursor (so_or p (cursor_fail code section reason))) T.
Proof.
  intros Hrel Hcode H. split; [apply (sp_cost _ _ _ _ _ _ _ _ H)| |].
  - intros c d Hc Hd. pose proof (sp_run _ _ _ _ _ _ _ _ H c d Hc Hd) as Hr. revert Hr.
    unfold on_cursor, so_or. destruct (p c) as [c' [a|st r|f]]; [done| |done].
    intros _. split; [left; by eapply Hrel|done].
  - intros Hg c d a d' b k tail Hc Hd HT Hr Hw.
    destruct (sp_complete _ _ _ _ _ _ _ _ H Hg c d a d' b k tail Hc Hd HT Hr Hw) as (c' & E & Hm).
    exists c'. split; [|done]. revert E. unfold on_cursor, so_or. destruct (p c) as [c1 [x|st r|f]]; [done|done|done].
Qed.

(** Counting: a budget that is checked and then charged. *)
Lemma spec_charge (pre : yvex_file_cursor -> D -> Prop) (f : yvex_file_cursor -> yvex_file_cursor) k :
  cost_ok k -> k_bytes k = 0 ->
  (forall c d, pre c d -> cur_ok c -> cur_ok (f c) /\ moved k c (f c)) ->
  spec pre (on_cursor (so_modify f)) (cursor_only (fun _ b k' => b = [] /\ k' = k)).
Proof.
  intros Hk Hb Hf. split.
  - intros d a d' b k' (-> & -> & ->). split; [done|]. by rewrite Hb.
  - intros c d Hc Hd. cbn. destruct (Hf c d Hd Hc) as [Hc' Hm]. split; [done|]. exists [], k. split; [done|].
    split; [|done]. destruct Hm as [Ho _]. unfold rest. rewrite Ho, Hb, Z.add_0_r. done.
  - intros _ c d [] d' b k' tail Hc Hd (-> & -> & ->) _ _. exists (f c). split; [done|]. by apply (Hf c d).
Qed.

End Guards.

(** ** Runs from a known object *)

Section Known.
  Context (artifact : yvex_artifact) (io : Z -> list pread_answer) (alloc : Z -> bool).
  Context (options : yvex_gguf_reader_options).
  Context {D : Type} (clear : D -> outcome unit).

Notation spec := (spec artifact io alloc options clear).

(** The specification of [p] from the object [d0]: it returns [a] and leaves [d']
    after a text at a cost. *)
Definition run {A} (d0 : D) (p : GD D A) (R : A -> D -> list Z -> cost -> Prop) : Prop :=
  spec (fun _ d => d = d0) p (fun _ a d' b k => R a d' b k).

Lemma run_cost {A} d0 (p : GD D A) R a d' b k : run d0 p R -> R a d' b k -> cost_ok k /\ k_bytes k = zlen b.
Proof. intros H HR. by eapply (sp_cost _ _ _ _ _ _ _ _ H d0). Qed.

Lemma run_iff {A} d0 (p : GD D A) R R' :
  run d0 p R -> (forall a d' b k, R a d' b k <-> R' a d' b k) -> run d0 p R'.
Proof. intros H E. eapply spec_same; [exact H|]. intros. apply E. Qed.

(** A specification may be applied at each object. *)
Lemma spec_known {A} (pre : yvex_file_cursor -> D -> Prop) (p : GD D A) T :
  (forall d a d' b k, T d a d' b k -> cost_ok k /\ k_bytes k = zlen b) ->
  (forall c0 d0, pre c0 d0 -> run d0 p (T d0)) -> spec pre p T.
Proof.
  intros Hk H. split; [done| |].
  - intros c d Hc Hd. by apply (sp_run _ _ _ _ _ _ _ _ (H c d Hd)).
  - intros Hg c d a d' b k tail Hc Hd HT. by apply (sp_complete _ _ _ _ _ _ _ _ (H c d Hd) Hg c d a d' b k tail).
Qed.

(** Sequencing. *)
Lemma run_bind {A B} d0 (p : GD D A) R (q : A -> GD D B) (R2 : A -> D -> B -> D -> list Z -> cost -> Prop) :
  run d0 p R -> (forall a d1 b k, R a d1 b k -> run d1 (q a) (R2 a d1)) ->
  run d0 (p ≫= q) (fun y d' b k => exists a d1 b1 k1 b2 k2,
    R a d1 b1 k1 /\ R2 a d1 y d' b2 k2 /\ b = b1 ++ b2 /\ k = k1 ⊕ k2).
Proof.
  intros Hp Hq. eapply spec_same.
  { apply spec_bind with (pre2 := fun a _ d => exists b k, R a d b k)
      (U := fun a d y d' b k => (exists b k, R a d b k) /\ R2 a d y d' b k).
    - exact Hp.
    - intros a. apply spec_known.
      + intros d y d' b k [(b0 & k0 & HR) HR2]. by eapply run_cost; [eapply Hq|].
      + intros c d (b0 & k0 & HR). eapply run_iff; [by eapply Hq|]. naive_solver.
    - eauto. }
  intros d y d' b k. unfold then_. split.
  - intros (a & d1 & b1 & k1 & b2 & k2 & HR & [_ HR2] & -> & ->). eauto 12.
  - intros (a & d1 & b1 & k1 & b2 & k2 & HR & HR2 & -> & ->). exists a, d1. eauto 12.
Qed.

(** Sequencing when what follows depends on what was read. *)
Lemma run_bind_with {A B X} d0 (p : GD D A) (R : X -> A -> D -> list Z -> cost -> Prop) (q : A -> GD D B)
    (R2 : X -> B -> D -> list Z -> cost -> Prop) :
  run d0 p (fun a d b k => exists x, R x a d b k) -> (forall x a d1 b k, R x a d1 b k -> run d1 (q a) (R2 x)) ->
  run d0 (p ≫= q) (fun y d' b k => exists x a d1 b1 k1 b2 k2,
    R x a d1 b1 k1 /\ R2 x y d' b2 k2 /\ b = b1 ++ b2 /\ k = k1 ⊕ k2).
Proof.
  intros Hp Hq. split.
  - intros d y d' b k (x & a & d1 & b1 & k1 & b2 & k2 & HR & HR2 & -> & ->).
    destruct (run_cost _ _ _ a d1 b1 k1 Hp (ex_intro _ x HR)) as [H1 H2].
    destruct (run_cost _ _ _ _ _ _ _ (Hq _ _ _ _ _ HR) HR2) as [H3 H4]. split; [auto with yvex|]. cbn. rewrite zlen_app. lia.
  - intros c d Hc ->. pose proof (sp_run _ _ _ _ _ _ _ _ Hp c d0 Hc eq_refl) as H. unfold mbind, so_bind.
    destruct (p (c, d0)) as [[c1 d1] [a|st r|f]]; [|done|done]. destruct H as (Hc1 & b1 & k1 & (x & HR) & Hr1 & Hm1).
    pose proof (sp_run _ _ _ _ _ _ _ _ (Hq _ _ _ _ _ HR) c1 d1 Hc1 eq_refl) as H.
    destruct (q a (c1, d1)) as [[c2 d2] [y|st r|f]]; [|done|done]. destruct H as (Hc2 & b2 & k2 & HR2 & Hr2 & Hm2).
    split; [done|]. exists (b1 ++ b2), (k1 ⊕ k2). split; [by eauto 12|].
    split; [by rewrite Hr1, Hr2, app_assoc|by eapply moved_trans].
  - intros Hg c d y d' b k tail Hc -> (x & a & d1 & b1 & k1 & b2 & k2 & HR & HR2 & -> & ->) Hr Hw.
    rewrite <- app_assoc in Hr. destruct (run_cost _ _ _ a d1 b1 k1 Hp (ex_intro _ x HR)) as [Hk1 Hb1].
    destruct (run_cost _ _ _ _ _ _ _ (Hq _ _ _ _ _ HR) HR2) as [Hk2 Hb2].
    destruct (sp_complete _ _ _ _ _ _ _ _ Hp Hg c d0 a d1 b1 k1 _ Hc eq_refl (ex_intro _ x HR) Hr (within_l _ _ _ _ Hk2 Hw))
      as (c1 & E1 & Hm1).
    destruct (sp_complete _ _ _ _ _ _ _ _ (Hq _ _ _ _ _ HR) Hg c1 d1 y d' b2 k2 tail) as (c2 & E2 & Hm2); [|done|done| | |].
    + destruct Hg as (_ & _ & Ha & _). eapply moved_ok; [exact Hc|exact Ha|exact Hm1|done|exact Hb1|exact Hr|].
      by eapply within_l.
    + by eapply moved_rest; [apply (co_offset _ _ _ Hc)| | |].
    + by eapply within_r.
    + exists c2. split; [|by eapply moved_trans]. unfold mbind, so_bind. by rewrite E1.
Qed.

(** A reader that leaves the object alone comes first. *)
Definition reads {A B} (T : A -> list Z -> cost -> Prop) (R : A -> B -> D -> list Z -> cost -> Prop)
    : B -> D -> list Z -> cost -> Prop := fun y d' b k =>
  exists x b1 k1 b2 k2, T x b1 k1 /\ R x y d' b2 k2 /\ b = b1 ++ b2 /\ k = k1 ⊕ k2.

Lemma run_cursor {A B} d0 (p : GR A) T (q : A -> GD D B) R :
  spec (fun _ d => d = d0) (on_cursor p) (cursor_only T) ->
  (forall x b k, T x b k -> run d0 (q x) (R x)) -> run d0 (on_cursor p ≫= q) (reads T R).
Proof.
  intros Hp Hq. eapply run_iff.
  - eapply (run_bind d0 (on_cursor p) (fun x d1 b k => d1 = d0 /\ T x b k) q (fun x _ => R x)).
    + eapply spec_iff; [exact Hp|done| |by intros c d x d' b k ->].
      intros d x d' b k [-> HT]. by apply (sp_cost _ _ _ _ _ _ _ _ Hp d0 x d0).
    + intros x d1 b k [-> HT]. by eapply Hq.
  - intros y d' b k. unfold reads. split.
    + intros (x & d1 & b1 & k1 & b2 & k2 & [-> HT] & HR & -> & ->). eauto 10.
    + intros (x & b1 & k1 & b2 & k2 & HT & HR & -> & ->). exists x, d0. eauto 12.
Qed.

(** A step on the object alone. *)
Lemma run_object {A B} d0 d1 (p : GD D A) x (q : A -> GD D B) R :
  (forall c, p (c, d0) = ((c, d1), Done x)) -> run d1 (q x) R -> run d0 (p ≫= q) R.
Proof.
  intros E H. split.
  - intros d y d' b k. by apply (run_cost d1 (q x)).
  - intros c d Hc ->. rewrite (so_bind_eq _ _ _ (c, d1) x) by apply E. by apply (sp_run _ _ _ _ _ _ _ _ H).
  - intros Hg c d y d' b k tail Hc -> HR Hr Hw. rewrite (so_bind_eq _ _ _ (c, d1) x) by apply E.
    by apply (sp_complete _ _ _ _ _ _ _ _ H Hg c d1 y d' b k tail).
Qed.

Lemma run_last {A} d0 d1 (p : GD D A) x :
  (forall c, p (c, d0) = ((c, d1), Done x)) ->
  run d0 p (fun a d' b k => a = x /\ d' = d1 /\ b = [] /\ k = cost_zero).
Proof.
  intros E. split.
  - intros d y d' b k (-> & -> & -> & ->). split; [apply cost_zero_ok|done].
  - intros c d Hc ->. rewrite E. split; [done|]. exists [], cost_zero. split; [done|]. split; [done|apply moved_refl].
  - intros _ c d y d' b k tail Hc -> (-> & -> & -> & ->) _ _. exists c. split; [apply E|apply moved_refl].
Qed.

(** A change of section or record. *)
Lemma run_near {B} d0 (f : yvex_file_cursor -> yvex_file_cursor) (q : unit -> GD D B) R :
  (forall c, cursor_near c (f c)) -> run d0 (q tt) R -> run d0 (on_cursor (so_modify f) ≫= q) R.
Proof.
  intros Hf H. eapply run_iff.
  - eapply (run_cursor d0 (so_modify f) _ q (fun _ => R)); [by apply spec_near|]. by intros [] b k _.
  - intros y d' b k. unfold reads. split.
    + intros (x & b1 & k1 & b2 & k2 & (-> & ->) & HR & -> & ->). by rewrite cost_zero_l.
    + intros HR. exists tt, [], cost_zero, b, k. by rewrite cost_zero_l.
Qed.

Lemma run_end d0 (p : GD D unit) (f : yvex_file_cursor -> yvex_file_cursor) R :
  (forall c, cursor_near c (f c)) -> run d0 p R -> run d0 (p ≫= fun _ => on_cursor (so_modify f)) R.
Proof.
  intros Hf Hp. eapply run_iff.
  - eapply (run_bind d0 p R _ (fun _ d1 _ d' b k => d' = d1 /\ b = [] /\ k = cost_zero)); [exact Hp|].
    intros a d1 b k _. eapply spec_iff; [by apply (spec_near _ _ _ _ _ (fun _ _ => True))|done| |by intros c d x d' b' k' ->].
    intros d x d' b' k' (_ & -> & ->). split; [apply cost_zero_ok|done].
  - intros [] d' b k. split.
    + intros ([] & d1 & b1 & k1 & b2 & k2 & HR & (-> & -> & ->) & -> & ->). by rewrite app_nil_r, cost_zero_r.
    + intros HR. exists tt, d', b, k, [], cost_zero. by rewrite app_nil_r, cost_zero_r.
Qed.

Lemma run_fail {A} d0 code section reason (R : A -> D -> list Z -> cost -> Prop) :
  clear d0 = Done tt -> code <> PARSE_OK -> (forall a d' b k, R a d' b k -> False) ->
  run d0 (on_cursor (cursor_fail code section reason)) R.
Proof.
  intros Hd Hc HR. eapply spec_same; [apply spec_fail; [by intros c d ->|done]|].
  intros d a d' b k. unfold never. split; [done|apply HR].
Qed.

Lemma run_guard {A} d0 (g : bool) (p q : GD D A) R :
  run d0 p (fun _ _ _ _ => False) -> (g = false -> run d0 q R) ->
  run d0 (if g then p else q) (fun a d' b k => g = false /\ R a d' b k).
Proof.
  intros Hp Hq. destruct g; [eapply run_iff; [exact Hp|naive_solver]|eapply run_iff; [by apply Hq|naive_solver]].
Qed.

Lemma run_if {A} d0 (g : bool) code section reason (q : GD D A) R :
  clear d0 = Done tt -> code <> PARSE_OK -> (g = false -> run d0 q R) ->
  run d0 (if g then on_cursor (cursor_fail code section reason) else q) (fun a d' b k => g = false /\ R a d' b k).
Proof. intros Hd Hc. apply run_guard. by apply run_fail. Qed.

(** A charge to the budgets, with a known result. *)
Lemma run_charge {A B} d0 (p : GR A) T x0 k0 (q : A -> GD D B) R :
  spec (fun _ d => d = d0) (on_cursor p) (cursor_only T) ->
  (forall x b k, T x b k <-> x = x0 /\ b = [] /\ k = k0) -> run d0 (q x0) R ->
  run d0 (on_cursor p ≫= q) (fun y d' b k => exists k', R y d' b k' /\ k = k0 ⊕ k').
Proof.
  intros Hp HT Hq. eapply run_iff; [eapply (run_cursor d0 p T q (fun x y d' b k => x = x0 /\ R y d' b k)); [exact Hp|]|].
  - intros x b k (-> & _ & _)%HT. eapply run_iff; [exact Hq|]. naive_solver.
  - intros y d' b k. unfold reads. split.
    + intros (x & b1 & k1 & b2 & k2 & HTx & [-> HR] & -> & ->). apply HT in HTx as (_ & -> & ->). eauto.
    + intros (k' & HR & ->). exists x0, [], k0, b, k'. rewrite HT. done.
Qed.

(** The object read first. *)
Lemma run_get {A} d0 (q : D -> GD D A) R : run d0 (q d0) R -> run d0 (get_object ≫= q) R.
Proof. intros H. by eapply run_object. Qed.

(** A run that leaves the object alone. *)
Lemma run_only {A} d0 (p : GR A) T :
  run d0 (on_cursor p) (fun a d' b k => d' = d0 /\ T a b k) -> spec (fun _ d => d = d0) (on_cursor p) (cursor_only T).
Proof.
  intros H. eapply spec_iff; [exact H|done| |by intros c d a d' b k ->].
  intros d a d' b k [-> HT]. by eapply (run_cost _ _ _ a d0); [exact H|].
Qed.

Lemma known_spec {A} (pre : yvex_file_cursor -> D -> Prop) (p : GD D A) T d0 :
  spec pre p T -> (forall c, pre c d0) -> run d0 p (T d0).
Proof.
  intros H Hp. eapply spec_iff; [exact H|by intros c d ->| |by intros c d a d' b k ->].
  intros d a d' b k. apply (sp_cost _ _ _ _ _ _ _ _ H).
Qed.

End Known.
