(* ===== verification/GgufText.v ===== *)
(** * GgufText: the strings of GGUF files

    The UTF-8 validator and the key grammar of the reader against references, and
    the specification of the reader of strings. *)

From Stdlib Require Import ZArith Lia Bool.
From stdpp Require Import base list option numbers strings sets.
From S2P Require Import Prelude Core Words NameIndex Utf8 Float64 Qtype Artifact GgufReader GgufSpec.

(** ** UTF-8 *)

(** A sequence of encoded Unicode scalar values. *)
Definition text_ok (data : list Z) : Prop :=
  exists points, Forall (fun p => scalar p = true) points /\ data = encode_all points.

(** One step of the loop is one step of the scalar decoder. *)
Lemma utf8_step fuel text i :
  Forall is_u8 text -> 0 <= i < zlen text ->
  utf8_valid_loop (S fuel) text i
  = (r ← yvex_core_utf8_next text i;
     match r with None => Done false | Some (_, i) => utf8_valid_loop fuel text i end).
Proof.
  intros Hu Hi. cbn [utf8_valid_loop]. unfold yvex_core_utf8_next. replace (zlen text <=? i) with false by lia.
  destruct (zget_in text i Hi) as (first & Hf). rewrite (proj2 (read_at_Done _ _ _) Hf). cbn [mbind outcome_bind].
  assert (is_u8 first) as Hb by (rewrite Forall_forall in Hu; by eapply Hu, zget_elem_of).
  replace (first <? 0x80) with (first <=? 0x7f) by lia. destruct (first <=? 0x7f); [done|].
  unfold gguf_utf8_lead, utf8_lead.
  destruct ((0xc2 <=? first) && (first <=? 0xdf)) eqn:E1;
    [|destruct ((0xe0 <=? first) && (first <=? 0xef)); [|destruct ((0xf0 <=? first) && (first <=? 0xf4)); [|done]]];
    (destruct (zlen text - (i + 1) <? _) eqn:E2; [done|]).
  - change (Z.to_nat 1) with 1%nat. cbn [utf8_continue mbind outcome_bind].
    destruct (zget_in text (i + 1) ltac:(lia)) as (second & Hs). rewrite (proj2 (read_at_Done _ _ _) Hs). cbn [mbind outcome_bind].
    destruct (negb (Z.land second 0xc0 =? 0x80)); [done|]. cbn [mbind outcome_bind].
    change 0x1f with (2 ^ 5 - 1). rewrite land_ones by lia.
    assert (2 <= first mod 2 ^ 5) by (rewrite <- (Z.mod_unique_pos first (2 ^ 5) 6 (first - 192)); lia).
    pose proof (Z.mod_pos_bound first (2 ^ 5) ltac:(lia)). pose proof (Z.mod_pos_bound second 64 ltac:(lia)).
    rewrite append_bits by lia. cbn [Z.eqb andb orb].
    replace (first mod 2 ^ 5 * 64 + second mod 64 <? 128) with false by lia. cbn [orb].
    by destruct (_ || _).
  - destruct (utf8_continue (Z.to_nat 2) text (i + 1) _) as [[[v j]|]|st r|f]; [|done|done|done].
    cbn [mbind outcome_bind Z.eqb andb orb]. rewrite !orb_false_r. by destruct (_ || _).
  - destruct (utf8_continue (Z.to_nat 3) text (i + 1) _) as [[[v j]|]|st r|f]; [|done|done|done].
    cbn [mbind outcome_bind Z.eqb andb orb]. by destruct (_ || _).
Qed.

Lemma text_ok_cons p l : scalar p = true -> text_ok l -> text_ok (encode p ++ l).
Proof. intros Hp (points & Hps & ->). exists (p :: points). split; [by constructor|done]. Qed.

Lemma utf8_loop_exact fuel pre l :
  Forall is_u8 (pre ++ l) -> (length l <= fuel)%nat ->
  exists v, utf8_valid_loop fuel (pre ++ l) (zlen pre) = Done v /\ (v = true <-> text_ok l).
Proof.
  revert pre l. induction fuel as [|fuel IH]; intros pre l Hu Hf.
  { destruct l; [|cbn in Hf; lia]. rewrite app_nil_r. exists true. cbn.
    replace (zlen pre <=? zlen pre) with true by lia. split; [done|]. split; [|done]. by exists []. }
  destruct (decide (l = [])) as [->|Hne].
  { exists true. rewrite app_nil_r. cbn. replace (zlen pre <=? zlen pre) with true by lia.
    split; [done|]. split; [|done]. by exists []. }
  pose proof Hu as Hall. apply Forall_app in Hu as [_ Hl].
  assert (0 <= zlen pre < zlen (pre ++ l)) as Hi.
  { pose proof (zlen_nonneg pre). destruct l as [|x l]; [done|]. pose proof (zlen_nonneg l). autorewrite with zlen. lia. }
  rewrite utf8_step, next_decode by done. cbn [mbind outcome_bind].
  destruct (decode l) as [[p used]|] eqn:Ed.
  - destruct (decode_sound _ _ _ Hl Ed) as (Hp & -> & tail & ->).
    rewrite app_assoc, <- zlen_app. destruct (IH (pre ++ encode p) tail) as (v & -> & Hv).
    { by rewrite <- app_assoc. }
    { rewrite length_app in Hf. pose proof (encode_nonempty p). destruct (encode p); [done|]. cbn in Hf. lia. }
    exists v. split; [done|]. rewrite Hv. split; [by apply text_ok_cons|].
    intros ([|q points] & Hps & E).
    { change (encode_all []) with (@nil Z) in E. apply app_eq_nil in E as [E _]. by destruct (encode_nonempty p). }
    apply Forall_cons_1 in Hps as [Hq Hps]. unfold encode_all in E. cbn in E. fold (encode_all points) in E.
    pose proof (decode_encode q (encode_all points) Hq) as Eq. rewrite <- E, decode_encode in Eq by done.
    simplify_eq. by exists points.
  - exists false. split; [done|]. split; [done|]. intros ([|q points] & Hps & E); [done|].
    apply Forall_cons_1 in Hps as [Hq Hps]. unfold encode_all in E. cbn in E.
    by rewrite E, decode_encode in Ed.
Qed.

Lemma utf8_valid_exact data :
  Forall is_u8 data -> exists v, utf8_valid data = Done v /\ (v = true <-> text_ok data).
Proof. intros H. apply (utf8_loop_exact (length data) [] data); [done|done]. Qed.

(** ** Keys *)

Definition letter (ch : Z) : Prop := 97 <= ch <= 122.
Definition alphanumeric (ch : Z) : Prop := 97 <= ch <= 122 \/ 48 <= ch <= 57.

(** The grammar of metadata keys: lower-case segments separated by dots, each
    starting with a letter; underscores separate parts of a segment. *)
Inductive key_tail : list Z -> Prop :=
  | tail_end : key_tail []
  | tail_char ch l : alphanumeric ch -> key_tail l -> key_tail (ch :: l)
  | tail_underscore ch l : alphanumeric ch -> key_tail l -> key_tail (95 :: ch :: l)
  | tail_dot ch l : letter ch -> key_tail l -> key_tail (46 :: ch :: l).

Definition key_text (key : list Z) : Prop := exists ch l, key = ch :: l /\ letter ch /\ key_tail l.

Lemma key_loop_exact l :
  (key_loop l false false = true <-> key_tail l)
  /\ (key_loop l false true = true <-> exists ch t, l = ch :: t /\ alphanumeric ch /\ key_tail t)
  /\ (key_loop l true false = true <-> exists ch t, l = ch :: t /\ letter ch /\ key_tail t).
Proof.
  induction l as [|ch l (IH1 & IH2 & IH3)]; cbn [key_loop negb andb orb].
  { split; [split; [by constructor|done]|]. split; split; try done; intros (? & ? & [=] & _). }
  destruct (128 <=? ch) eqn:E0.
  { assert (~ alphanumeric ch /\ ~ letter ch /\ ch <> 95 /\ ch <> 46) as (Ha & Hl & H1 & H2)
      by (unfold alphanumeric, letter; lia).
    split; [split; [done|by inversion 1]|]. split; split; try done; intros (? & ? & [= <- <-] & ? & _); done. }
  destruct (ch =? 46) eqn:E1.
  { assert (ch = 46) as -> by lia. assert (~ alphanumeric 46 /\ ~ letter 46) as [Ha Hl] by (unfold alphanumeric, letter; lia).
    split; [|split; split; try done; intros (? & ? & [= <- <-] & ? & _); done].
    case_bool_decide as En.
    - subst l. split; [done|]. inversion 1; done.
    - rewrite IH3. split.
      + intros (x & t & -> & Hx & Ht). by constructor.
      + inversion 1; subst; [done|eauto]. }
  assert (key_tail (ch :: l) <-> (ch = 95 /\ exists x t, l = x :: t /\ alphanumeric x /\ key_tail t)
    \/ (alphanumeric ch /\ key_tail l)) as Ht.
  { split.
    - inversion 1; subst; [by right|left; split; [done|eauto]|lia].
    - intros [(-> & x & t & -> & ? & ?)|[? ?]]; by constructor. }
  destruct (ch =? 95) eqn:E2.
  { assert (ch = 95) as -> by lia. assert (~ alphanumeric 95 /\ ~ letter 95) as [Ha Hl] by (unfold alphanumeric, letter; lia).
    rewrite Ht. split; [rewrite IH2; naive_solver|].
    split; split; try done; intros (? & ? & [= <- <-] & ? & _); done. }
  assert (negb (((97 <=? ch) && (ch <=? 122)) || ((48 <=? ch) && (ch <=? 57))) = false <-> alphanumeric ch) as Ea
    by (unfold alphanumeric; lia).
  assert ((ch <? 97) || (122 <? ch) = false <-> letter ch) as El by (unfold letter; lia).
  rewrite Ht. split; [|split].
  - destruct (negb _) eqn:E3; [split; [done|]|rewrite IH1; naive_solver lia].
    intros [[-> _]|[H _]]; [lia|]. apply Ea in H. congruence.
  - destruct (negb _) eqn:E3; [split; [done|]|rewrite IH1; naive_solver].
    intros (? & ? & [= <- <-] & H & _). apply Ea in H. congruence.
  - destruct ((ch <? 97) || (122 <? ch)) eqn:E3; [split; [done|]|rewrite IH1; naive_solver].
    intros (? & ? & [= <- <-] & H & _). apply El in H. congruence.
Qed.

Lemma key_valid_exact key : metadata_key_valid key = true <-> key_text key.
Proof.
  unfold metadata_key_valid. destruct key as [|ch l]; [split; [done|]; intros (? & ? & [=] & _)|].
  pose proof (zlen_nonneg l). replace (zlen (ch :: l) =? 0) with false by (rewrite zlen_cons; lia).
  apply key_loop_exact.
Qed.

(** ** The reader of strings *)

(** The text of a string and what reading it costs. *)
Definition string_text (data : list Z) : list Z := le_bytes 8 (zlen data) ++ data.
Definition string_cost (data : list Z) : cost :=
  mk_cost (8 + zlen data) (if 0 <? zlen data then 2 else 1) (zlen data) 0 (zlen data + 1).

(** What is asked of a string: its length, its encoding, and for an identifier
    that it is not empty, within the limit of the format and without a null byte. *)
Definition string_ok (options : yvex_gguf_reader_options) (format_max : Z) (nonempty no_nul : bool) (data : list Z)
    : Prop :=
  text_ok data /\ Forall is_u8 data /\ zlen data <= max_string_bytes options
  /\ (nonempty = true -> data <> []) /\ (format_max <> 0 -> zlen data <= format_max)
  /\ (no_nul = true -> 0 ∉ data).

Lemma string_text_length data : zlen (string_text data) = 8 + zlen data.
Proof. unfold string_text. rewrite zlen_app, zlen_le_bytes. lia. Qed.

Lemma string_cost_ok data : cost_ok (string_cost data) /\ k_bytes (string_cost data) = zlen (string_text data).
Proof.
  rewrite string_text_length. pose proof (zlen_nonneg data). unfold cost_ok, string_cost.
  cbn [k_bytes k_reads k_strings k_entries k_owned]. destruct (0 <? zlen data) eqn:E; lia.
Qed.

Section Strings.
  Context (artifact : yvex_artifact) (io : Z -> list pread_answer) (alloc : Z -> bool).
  Context (options : yvex_gguf_reader_options) (Hfile : file_ok artifact options).
  Context {D : Type} (clear : D -> outcome unit) (P : D -> Prop) (Hrel : forall d, P d -> clear d = Done tt).

Notation spec := (spec artifact io alloc options clear).

(** The cost of the bytes of a string once its length is known. *)
Definition body_cost (len : Z) : cost := mk_cost len (if 0 <? len then 1 else 0) len 0 (len + 1).

(** The verdict of the validator. *)
Definition verdict (data : list Z) : bool := match utf8_valid data with Done v => v | _ => false end.

Definition copy_cost (len : Z) : cost := if 0 <? len then read_cost len else cost_zero.

Lemma spec_copy (pre : yvex_file_cursor -> D -> Prop) len code section field :
  releasable clear pre -> 0 <= len < 2 ^ 64 -> code <> PARSE_OK ->
  spec pre (on_cursor (if 0 <? len
                       then so_or (cursor_read_exact artifact io options len field) (cursor_fail code section field)
                       else mret []))
    (cursor_only (fun a b k => a = b /\ zlen b = len /\ Forall is_u8 b /\ k = copy_cost len)).
Proof.
  intros Hr Hl Hcode. unfold copy_cost. destruct (0 <? len) eqn:E.
  - apply spec_or; [exact Hr|done|]. apply spec_read; [done|done|lia].
  - eapply spec_same; [apply spec_cursor_ret|].
    intros d a d' b k. unfold nothing, cursor_only. assert (len = 0) as -> by lia. split.
    + intros (-> & -> & -> & ->). done.
    + intros (-> & -> & Hz & _ & ->). assert (b = []) as ->; [|done].
      destruct b as [|x b]; [done|]. pose proof (zlen_nonneg b). rewrite zlen_cons in Hz. lia.
Qed.

Lemma spec_string_body (c0 : yvex_file_cursor) len format_max no_nul field :
  0 <= len < 2 ^ 64 - 1 ->
  spec (fun c d => P d /\ st_total_string_bytes (c_stats c) + len <= max_total_string_bytes options)
    (on_cursor (
      _ ← reserve_owned options (len + 1);
      _ ← allocate alloc "failed to allocate GGUF string";
      copy ← (if 0 <? len
              then so_or (cursor_read_exact artifact io options len field)
                     (cursor_fail (string_parse_code c0 format_max) (c_section c0) field)
              else mret []);
      if no_nul && bool_decide (0 ∈ copy)
      then cursor_fail (identifier_code c0) (c_section c0) "GGUF identifier contains an embedded null byte" else
      valid ← so_lift (utf8_valid copy);
      if negb valid
      then cursor_fail (string_parse_code c0 format_max) (c_section c0) "GGUF string is not valid UTF-8" else
      _ ← add_string_bytes len;
      mret copy))
    (cursor_only (fun a b k => a = b /\ zlen b = len /\ Forall is_u8 b /\ text_ok b
       /\ (no_nul = true -> 0 ∉ b) /\ k = body_cost len)).
Proof.
  intros Hl.
  assert (forall c d, P d /\ st_total_string_bytes (c_stats c) + len <= max_total_string_bytes options ->
    clear d = Done tt) as Hrel' by (intros c d [Hd _]; by apply Hrel).
  assert (forall c, identifier_code c <> PARSE_OK) as Hic by (intros c; unfold identifier_code; by case_bool_decide).
  assert (forall c, string_parse_code c format_max <> PARSE_OK) as Hsc
    by (intros c; unfold string_parse_code; case_match; [done|apply Hic]).
  eapply spec_same.
  { eapply spec_cursor_bind with (pre2 := fun _ c d => P d /\ st_total_string_bytes (c_stats c) + len <= max_total_string_bytes options).
    { apply spec_reserve; [done| |lia]. intros c d H. left. by apply (Hrel' c). }
    2:{ intros c c' d a d' b k _ [HP Hs] (-> & -> & ->) Hm%moved_fields. cbn in Hm. split; [done|lia]. }
    intros u.
    eapply spec_cursor_bind with (pre2 := fun _ c d => P d /\ st_total_string_bytes (c_stats c) + len <= max_total_string_bytes options).
    { apply spec_allocate. left. exact Hrel'. }
    2:{ intros c c' d a d' b k _ [HP Hs] (-> & -> & ->) Hm%moved_fields. cbn in Hm. split; [done|lia]. }
    intros u2.
    eapply spec_cursor_bind with (pre2 := fun copy c d => (P d /\ st_total_string_bytes (c_stats c) + len <= max_total_string_bytes options)
      /\ Forall is_u8 copy).
    { apply spec_copy; [exact Hrel'|lia|apply Hsc]. }
    2:{ intros c c' d a d' b k _ [HP Hs] (-> & -> & _ & Hu & ->) Hm%moved_fields. split; [|done]. split; [done|].
        unfold copy_cost in Hm. destruct (0 <? len); cbn in Hm; lia. }
    intros copy.
    eapply spec_cursor_if; [apply spec_fail; [naive_solver|apply Hic]|]. intros _.
   
    eapply spec_cursor_bind with (pre2 := fun _ c d => P d /\ st_total_string_bytes (c_stats c) + len <= max_total_string_bytes options).
    { apply (spec_lift_cursor _ _ _ _ _ _ _ (verdict copy)). intros c d [_ Hu].
      destruct (utf8_valid_exact copy Hu) as (v & E & _). unfold verdict. by rewrite E. }
    2:{ intros c c' d a d' b k _ [HP _] (-> & -> & -> & ->) Hm%moved_fields. cbn in Hm. destruct HP. split; [done|lia]. }
    intros valid. eapply spec_cursor_if; [apply spec_fail; [exact Hrel'|apply Hsc]|]. intros _.
   
    eapply spec_cursor_bind with (pre2 := fun _ _ _ => True); [|intros u3; apply spec_cursor_ret|done].
    apply (spec_charge _ _ _ _ _ _ _ (mk_cost 0 0 len 0 0)); [unfold cost_ok; cbn; lia|done|].
    intros c d [_ Hs] Hc. destruct Hc. split; [split; cbn; lia|]. split; cbn; [lia|]. unfold spend, counters. cbn. f_equal; lia. }
  intros d a d' b k. unfold then_, cursor_only, guarded, nothing. split.
  - intros (u1 & d1 & b1 & k1 & b2 & k2 & (-> & -> & ->) & (u2 & d2 & b3 & k3 & b4 & k4 & (-> & -> & ->) &
      (copy & d3 & b5 & k5 & b6 & k6 & (-> & -> & Hz & Hu & ->) & (Hn & v & d4 & b7 & k7 & b8 & k8 & (-> & -> & -> & ->) &
      (Hv & u3 & d5 & b9 & k9 & b10 & k10 & (-> & -> & ->) & (-> & -> & -> & ->) & -> & ->) & -> & ->) & -> & ->) & -> & ->) & -> & ->).
    rewrite !app_nil_r. cbn [app]. split; [done|]. split; [done|]. split; [done|]. split; [done|].
    destruct (utf8_valid_exact b5 Hu) as (v & E & Hx). unfold verdict in Hv. rewrite E in Hv.
    split; [apply Hx; by destruct v|]. split; [|unfold copy_cost, body_cost, read_cost, owned_cost; destruct (0 <? len) eqn:E0; cost_eq].
    intros ->. cbn in Hn. by apply bool_decide_eq_false in Hn.
  - intros (-> & -> & Hz & Hu & Ht & Hn & ->). exists tt, d, [], (owned_cost (len + 1)), b, (mk_cost len (if 0 <? len then 1 else 0) len 0 0).
    split; [done|]. split; [|split; [done|unfold body_cost; cost_eq]].
    exists tt, d, [], cost_zero, b, (mk_cost len (if 0 <? len then 1 else 0) len 0 0). split; [done|]. split; [|split; [done|cost_eq]].
    exists b, d, b, (copy_cost len), [], (mk_cost 0 0 len 0 0). split; [done|].
    split; [|split; [by rewrite app_nil_r|unfold copy_cost; destruct (0 <? len) eqn:E0; [cost_eq|assert (len = 0) as -> by lia; cost_eq]]].
    split; [destruct no_nul; [|done]; cbn; apply bool_decide_eq_false_2; by apply Hn|].
    exists (verdict b), d, [], cost_zero, [], (mk_cost 0 0 len 0 0). split; [done|]. split; [|split; [done|cost_eq]].
    destruct (utf8_valid_exact b Hu) as (v & E & Hx). unfold verdict. rewrite E.
    split; [apply Hx in Ht; by rewrite Ht|]. exists tt, d, [], (mk_cost 0 0 len 0 0), [], cost_zero.
    split; [done|]. split; [done|]. split; [done|cost_eq].
Qed.

Lemma body_cost_ok (b : list Z) len : zlen b = len -> cost_ok (body_cost len) /\ k_bytes (body_cost len) = zlen b.
Proof.
  intros <-. pose proof (zlen_nonneg b). unfold cost_ok, body_cost.
  cbn [k_bytes k_reads k_strings k_entries k_owned]. case_match; lia.
Qed.

(** The bytes of an accepted string of length [len]. *)
Definition string_body format_max nonempty no_nul (len : Z) : D -> list Z -> D -> list Z -> cost -> Prop :=
  cursor_only (fun a b k => a = b /\ zlen b = len /\ k = body_cost len
                 /\ string_ok options format_max nonempty no_nul a).

Lemma string_body_cost format_max nonempty no_nul len d a d' b k :
  string_body format_max nonempty no_nul len d a d' b k -> cost_ok k /\ k_bytes k = zlen b.
Proof.
  intros (-> & -> & Hz & -> & _). by apply body_cost_ok.
Qed.

(** The checks between the length and the bytes. *)
Lemma spec_string_checks format_max nonempty no_nul field len (c0 : yvex_file_cursor) :
  0 <= len < 18446744073709551616 -> cur_ok artifact options c0 ->
  spec (fun c d => c = c0 /\ is_u64 len /\ P d)
    (on_cursor (
      if nonempty && (len =? 0)
      then cursor_fail (empty_identifier_parse_code c0) (c_section c0) "GGUF identifier string is empty" else
      if negb (format_max =? 0) && (format_max <? len)
      then cursor_fail (identifier_code c0) (c_section c0) "GGUF identifier exceeds the pinned format limit" else
      if max_string_bytes options <? len
      then cursor_fail PARSE_RESOURCE_LIMIT SECTION_RESOURCE "GGUF string exceeds configured limit" else
      if (SIZE_MAX - 1 <? len) || (ULLONG_MAX - st_total_string_bytes (c_stats c0) <? len)
         || (max_total_string_bytes options <? st_total_string_bytes (c_stats c0) + len)
      then cursor_fail PARSE_RESOURCE_LIMIT SECTION_RESOURCE "GGUF cumulative string budget exceeded" else
      _ ← reserve_owned options (len + 1);
      _ ← allocate alloc "failed to allocate GGUF string";
      copy ← (if 0 <? len
              then so_or (cursor_read_exact artifact io options len field)
                     (cursor_fail (string_parse_code c0 format_max) (c_section c0) field)
              else mret []);
      if no_nul && bool_decide (0 ∈ copy)
      then cursor_fail (identifier_code c0) (c_section c0) "GGUF identifier contains an embedded null byte" else
      valid ← so_lift (utf8_valid copy);
      if negb valid
      then cursor_fail (string_parse_code c0 format_max) (c_section c0) "GGUF string is not valid UTF-8" else
      _ ← add_string_bytes len;
      mret copy))
    (string_body format_max nonempty no_nul len).
Proof.
  intros Hl Hc0. pose proof (fo_options _ _ Hfile) as Ho.
  pose proof (oo_string _ Ho) as Hms. pose proof (oo_strings _ Ho) as Hmt. pose proof (oo_owned _ Ho) as Hmo.
  unfold is_u64 in Hms, Hmt, Hmo. pose proof (co_strings _ _ _ Hc0) as Hs0. pose proof (co_owned _ _ _ Hc0) as Hw0.
  assert (forall c : yvex_file_cursor, identifier_code c <> PARSE_OK) as Hic
    by (intros c; unfold identifier_code; by case_bool_decide).
  assert (forall (c : yvex_file_cursor) d, c = c0 /\ is_u64 len /\ P d -> clear d = Done tt) as Hrel'
    by (intros c d (_ & _ & Hd); by apply Hrel).
  eapply spec_same.
  { eapply spec_cursor_if; [apply spec_fail; [exact Hrel'|unfold empty_identifier_parse_code; by case_bool_decide]|intros _].
    eapply spec_cursor_if; [apply spec_fail; [exact Hrel'|apply Hic]|intros _].
    eapply spec_cursor_if; [apply spec_fail; [exact Hrel'|done]|intros _].
    eapply spec_cursor_budget with (c0 := c0); [|by intros c d [-> _]|apply spec_fail; [exact Hrel'|done]| |];
      [shelve| |].
    - intros G4. eapply spec_pre; [apply (spec_string_body c0 len format_max no_nul field)|].
      + unfold SIZE_MAX, UINT64_MAX in G4. lia.
      + intros c d (-> & _ & Hd). split; [done|]. lia.
    - intros d a d' b k _ (-> & -> & Hz & _ & _ & _ & ->) Hw. unfold within, body_cost in Hw.
      cbn [k_bytes k_reads k_strings k_entries k_owned] in Hw. unfold SIZE_MAX, ULLONG_MAX, UINT64_MAX. lia.
    Unshelve. intros d a d' b k (-> & -> & Hz & _ & _ & _ & ->). by apply body_cost_ok. }
  intros d a d' b k. unfold guarded, cursor_only, string_body, string_ok. split.
  - intros (G1 & G2 & G3 & -> & -> & Hz & Hu & Ht & Hn & ->). split; [done|]. split; [done|]. split; [done|].
    split; [done|]. split; [done|]. split; [done|]. split; [lia|]. split; [|split; [|done]].
    + intros -> ->. cbn in G1. unfold zlen in Hz. cbn in Hz. lia.
    + intros Hm. lia.
  - intros (-> & -> & Hz & -> & Ht & Hu & Hm & He & Hf & Hn). split; [|split; [|split; [lia|by repeat split]]].
    + destruct nonempty; [|done]. cbn. specialize (He eq_refl). destruct b as [|x b]; [done|].
      pose proof (zlen_nonneg b). rewrite zlen_cons in Hz. lia.
    + destruct (format_max =? 0) eqn:E; [done|]. cbn. specialize (Hf ltac:(lia)). lia.
Qed.

Lemma spec_string format_max nonempty no_nul field :
  spec (fun _ d => P d) (on_cursor (cursor_read_string artifact io alloc options format_max nonempty no_nul field))
    (cursor_only (fun a b k => b = string_text a /\ string_ok options format_max nonempty no_nul a /\ k = string_cost a)).
Proof.
  pose proof (fo_options _ _ Hfile) as Ho.
  pose proof (oo_string _ Ho) as Hms. pose proof (oo_strings _ Ho) as Hmt. unfold is_u64 in Hms, Hmt.
  assert (forall c : yvex_file_cursor, identifier_code c <> PARSE_OK) as Hic
    by (intros c; unfold identifier_code; by case_bool_decide).
  eapply spec_same.
  { eapply spec_cursor_bind with (pre2 := fun len _ d => is_u64 len /\ P d).
    { apply spec_u64; [done|]. intros c d. apply Hrel. }
    2:{ intros c c' d len d' b k _ HP (-> & -> & Hl & _) _. done. }
    intros len. apply spec_so_get with (T := string_body format_max nonempty no_nul len).
    { intros d a d' b k. apply string_body_cost. }
    intros c0 Hc0. destruct (decide (0 <= len < 18446744073709551616)) as [Hl|Hl].
    2:{ apply spec_vacuous; [intros d a d' b k; apply string_body_cost|]. by intros c d (_ & ? & _). }
    by apply spec_string_checks. }
  intros d a d' b k. unfold then_, cursor_only, string_body. split.
  - intros (len & d1 & b1 & k1 & b2 & k2 & (-> & -> & Hl & ->) & (-> & -> & Hz & -> & Hok) & -> & ->).
    split; [done|]. unfold string_text. subst len. split; [done|]. split; [done|].
    unfold body_cost, string_cost, read_cost. destruct (0 <? zlen b2); cost_eq.
  - intros (-> & -> & Hok & ->). exists (zlen a), d, (le_bytes 8 (zlen a)), (read_cost 8), a, (body_cost (zlen a)).
    split; [split; [done|]; split; [done|]; split; [|done]; destruct Hok as (_ & _ & Hm & _);
      pose proof (zlen_nonneg a); unfold is_u64; lia|].
    split; [done|]. split; [done|]. unfold body_cost, string_cost, read_cost. destruct (0 <? zlen a); cost_eq.
Qed.
End Strings.
