(* ===== verification/GgufValues.v ===== *)
(** * GgufValues: the values of GGUF metadata

    The texts of values, as a reference written from the format: fixed-width
    little-endian scalars, counted strings, and arrays of one element type, nested
    up to the depth the limits admit; what each costs; and the specification of
    [parse_value] against them. *)

From Stdlib Require Import ZArith Lia Bool.
From stdpp Require Import base list option numbers strings sets.
From S2P Require Import Prelude Core Words NameIndex Utf8 Float64 Qtype Artifact GgufReader GgufSpec GgufText.

(** ** Reference *)

Definition signed (width bits : Z) : Z :=
  if bits <? 2 ^ (8 * width - 1) then bits else bits - 2 ^ (8 * width).

(** The value of a scalar type whose little-endian word is [bits]. *)
Definition scalar_value (type : yvex_gguf_value_type) (bits : Z) : option value_union :=
  match type with
  | VALUE_UINT8 | VALUE_UINT16 | VALUE_UINT32 | VALUE_UINT64 => Some (As_u64 bits)
  | VALUE_INT8 => Some (As_i64 (signed 1 bits))
  | VALUE_INT16 => Some (As_i64 (signed 2 bits))
  | VALUE_INT32 => Some (As_i64 (signed 4 bits))
  | VALUE_INT64 => Some (As_i64 (signed 8 bits))
  | VALUE_FLOAT32 => Some (As_f64 (f64_of_f32 bits))
  | VALUE_FLOAT64 => Some (As_f64 bits)
  | VALUE_BOOL => if bits <=? 1 then Some (As_bool bits) else None
  | _ => None
  end.

Definition scalar_bytes (type : yvex_gguf_value_type) : nat :=
  match type with
  | VALUE_UINT8 | VALUE_INT8 | VALUE_BOOL => 1
  | VALUE_UINT16 | VALUE_INT16 => 2
  | VALUE_UINT32 | VALUE_INT32 | VALUE_FLOAT32 => 4
  | VALUE_UINT64 | VALUE_INT64 | VALUE_FLOAT64 => 8
  | _ => 0
  end.

Definition scalar_text (type : yvex_gguf_value_type) (v : yvex_gguf_value) (b : list Z) : Prop :=
  exists bits as_, 0 <= bits < 2 ^ (8 * Z.of_nat (scalar_bytes type)) /\ b = le_bytes (scalar_bytes type) bits
    /\ scalar_value type bits = Some as_ /\ v = mk_value type as_.

(** The block an array owns. *)
Definition storage (items : list yvex_gguf_value) : option (list yvex_gguf_value) :=
  match items with [] => None | _ => Some items end.

Definition array_value (element_type : yvex_gguf_value_type) (items : list yvex_gguf_value) : yvex_gguf_value :=
  mk_value VALUE_ARRAY (As_array element_type (zlen items) (storage items)).

Section Values.
  Context (options : yvex_gguf_reader_options).

(** The texts of the values of a type, with [levels] of arrays left. *)
Fixpoint value_text (levels : nat) (type : yvex_gguf_value_type) (v : yvex_gguf_value) (b : list Z) : Prop :=
  match type with
  | VALUE_STRING => exists data, v = mk_value VALUE_STRING (As_string (Some data))
      /\ string_ok options 0 false false data /\ b = string_text data
  | VALUE_ARRAY =>
      match levels with
      | O => False
      | S levels => exists element_type items texts, v = array_value element_type items
          /\ element_type <> VALUE_INVALID /\ zlen items <= max_array_entries options
          /\ Forall2 (value_text levels element_type) items texts
          /\ b = le_bytes 4 (value_type_code element_type) ++ le_bytes 8 (zlen items) ++ concat texts
      end
  | VALUE_INVALID => False
  | _ => scalar_text type v b
  end.

End Values.

(** What reading a value costs. *)
Fixpoint value_cost (v : yvex_gguf_value) : cost :=
  match v with
  | mk_value VALUE_STRING (As_string (Some data)) => string_cost data
  | mk_value VALUE_ARRAY (As_array _ count items) =>
      mk_cost 12 2 0 count (count * SIZEOF_VALUE)
      ⊕ match items with
        | None => cost_zero
        | Some items => foldr cost_add cost_zero (List.map value_cost items)
        end
  | mk_value type _ => read_cost (Z.of_nat (scalar_bytes type))
  end.

Definition values_cost (items : list yvex_gguf_value) : cost := foldr cost_add cost_zero (List.map value_cost items).

Lemma array_cost element_type items :
  value_cost (array_value element_type items)
  = mk_cost 12 2 0 (zlen items) (zlen items * SIZEOF_VALUE) ⊕ values_cost items.
Proof. unfold array_value, storage. by destruct items. Qed.

(** ** Words and types *)

Lemma type_code_read type : type <> VALUE_INVALID -> read_at value_types (value_type_code type) = Done type.
Proof. by destruct type. Qed.

Lemma type_code_range type : type <> VALUE_INVALID -> 0 <= value_type_code type <= value_type_code VALUE_FLOAT64.
Proof. destruct type; cbn; [lia..|done]. Qed.

Lemma type_of_code raw :
  0 <= raw <= value_type_code VALUE_FLOAT64 ->
  exists type, type <> VALUE_INVALID /\ value_type_code type = raw /\ read_at value_types raw = Done type.
Proof.
  intros H. cbn in H.
  assert (raw = 0 \/ raw = 1 \/ raw = 2 \/ raw = 3 \/ raw = 4 \/ raw = 5 \/ raw = 6 \/ raw = 7 \/ raw = 8
    \/ raw = 9 \/ raw = 10 \/ raw = 11 \/ raw = 12) as A by lia.
  repeat destruct A as [->|A]; [| | | | | | | | | | | |subst]; (eexists; split; [|split; [|reflexivity]]; [done|reflexivity]).
Qed.

(** ** Release *)

Notation clear := gguf_value_clear.

Lemma release_done items left :
  Forall (fun v => clear v = Done tt) items -> left <= zlen items -> release_items clear items left = Done tt.
Proof.
  intros H. revert left. induction H as [|v items Hv _ IH]; intros left Hl; cbn [release_items];
    (destruct (left <=? 0) eqn:E; [done|]).
  - rewrite zlen_nil in Hl. lia.
  - rewrite zlen_cons in Hl. rewrite Hv. cbn. apply IH. lia.
Qed.

Lemma release_fault pre v post left :
  Forall (fun v => clear v = Done tt) pre -> clear v = Fault NullPointer -> zlen pre < left ->
  release_items clear (pre ++ v :: post) left = Fault NullPointer.
Proof.
  intros H Hv. revert left. induction H as [|w pre Hw _ IH]; intros left Hl; cbn [app release_items].
  - rewrite zlen_nil in Hl. replace (left <=? 0) with false by lia. by rewrite Hv.
  - rewrite zlen_cons in Hl. pose proof (zlen_nonneg pre). replace (left <=? 0) with false by lia.
    rewrite Hw. cbn. apply IH. lia.
Qed.

Lemma value_text_clear options levels type v b : value_text options levels type v b -> clear v = Done tt.
Proof.
  revert type v b. induction levels as [|levels IH]; intros type v b H.
  - destruct type; cbn in H; try done; try (destruct H as (? & ? & _ & _ & _ & ->); done). by destruct H as (? & -> & _).
  - destruct type; cbn in H; try done; try (destruct H as (? & ? & _ & _ & _ & ->); done); [by destruct H as (? & -> & _)|].
    destruct H as (et & items & texts & -> & _ & _ & H & _). unfold array_value, storage.
    destruct items as [|x items]; [done|]. cbn [gguf_value_clear]. apply release_done; [|lia].
    clear -H IH. revert texts H. generalize (x :: items). intros l. induction l as [|v l IHl]; intros texts H; [apply Forall_nil_2|].
    apply Forall2_cons_inv_l in H as (t & ts & Hv & Hl & _). apply Forall_cons_2; [by eapply IH|by eapply IHl].
Qed.

(** ** Costs *)

Lemma scalar_cost_ok type v b :
  scalar_text type v b -> cost_ok (value_cost v) /\ k_bytes (value_cost v) = zlen b.
Proof.
  intros (bits & as_ & Hr & -> & Hv & ->). rewrite zlen_le_bytes.
  destruct type; try done; cbn; (split; [unfold cost_ok; cbn; lia|done]).
Qed.

Lemma value_cost_ok options levels type v b :
  value_text options levels type v b -> cost_ok (value_cost v) /\ k_bytes (value_cost v) = zlen b.
Proof.
  revert type v b. induction levels as [|levels IH]; intros type v b H.
  - destruct type; try by apply (scalar_cost_ok _ _ _ H); try done.
    all: cbn in H; try done. destruct H as (data & -> & _ & ->). apply string_cost_ok.
  - destruct type; try by apply (scalar_cost_ok _ _ _ H); cbn in H.
    + destruct H as (data & -> & _ & ->). apply string_cost_ok.
    + destruct H as (et & items & texts & -> & _ & _ & H & ->). rewrite array_cost.
      assert (cost_ok (values_cost items) /\ k_bytes (values_cost items) = zlen (concat texts)) as [Hk Hb].
      { clear -H IH. induction H as [|v t items texts Hv _ IHl]; [done|]. destruct (IH _ _ _ Hv). destruct IHl.
        cbn. fold (values_cost items). rewrite zlen_app. split; [auto with yvex|lia]. }
      pose proof (zlen_nonneg items). split.
      * apply cost_add_ok; [|done]. unfold cost_ok, SIZEOF_VALUE. cbn. lia.
      * rewrite !zlen_app, !zlen_le_bytes. cbn [cost_add k_bytes]. rewrite Hb. lia.
    + done.
Qed.

(** ** Scalars *)

(** Sign extension to 64 bits. *)
Definition extended (width bits : Z) : Z :=
  if (width <? 8) && Z.testbit bits (width * 8 - 1)
  then Z.lor bits (u64 (Z.shiftl ULLONG_MAX (width * 8))) else bits.

Lemma testbit_top k bits : 0 <= k -> 0 <= bits < 2 ^ (k + 1) -> Z.testbit bits k = (2 ^ k <=? bits).
Proof.
  intros Hk Hb. assert (0 < 2 ^ k) by (apply Z.pow_pos_nonneg; lia). rewrite Z.pow_add_r, Z.pow_1_r in Hb by lia.
  apply eq_true_iff_eq. rewrite Z.testbit_true, Z.leb_le by done.
  assert (bits / 2 ^ k = 0 \/ bits / 2 ^ k = 1) as [E|E].
  { pose proof (Z.div_pos bits (2 ^ k)). pose proof (Z.div_lt_upper_bound bits (2 ^ k) 2). lia. }
  - rewrite E. split; [done|]. intros. apply Z.div_small_iff in E; lia.
  - rewrite E. split; [|done]. intros _. pose proof (Z.mul_div_le bits (2 ^ k)). lia.
Qed.

Lemma extended_signed width bits :
  In width [1; 2; 4; 8] -> 0 <= bits < 2 ^ (8 * width) -> as_int64 (extended width bits) = signed width bits.
Proof.
  intros Hw Hb. unfold as_int64, extended, signed. cbn in Hw.
  assert (forall w m, width = w -> 0 < w < 8 -> m = 2 ^ (64 - 8 * w) - 1 -> u64 (Z.shiftl ULLONG_MAX (w * 8)) = Z.shiftl m (8 * w) ->
    (if 2 ^ 63 <=? (if (w <? 8) && Z.testbit bits (w * 8 - 1) then Z.lor bits (u64 (Z.shiftl ULLONG_MAX (w * 8))) else bits)
     then (if (w <? 8) && Z.testbit bits (w * 8 - 1) then Z.lor bits (u64 (Z.shiftl ULLONG_MAX (w * 8))) else bits) - 2 ^ 64
     else (if (w <? 8) && Z.testbit bits (w * 8 - 1) then Z.lor bits (u64 (Z.shiftl ULLONG_MAX (w * 8))) else bits))
    = if bits <? 2 ^ (8 * w - 1) then bits else bits - 2 ^ (8 * w)) as A.
  { intros w m -> Hw8 Hm ->. replace (w <? 8) with true by lia. cbn [andb].
    assert (2 ^ (8 * w) = 2 * 2 ^ (8 * w - 1)) as E2 by (rewrite <- Z.pow_succ_r by lia; f_equal; lia).
    assert (2 ^ (8 * w - 1) <= 2 ^ 55) by (apply Z.pow_le_mono_r; lia).
    assert (2 ^ (8 * w) * 2 ^ (64 - 8 * w) = 2 ^ 64) by (rewrite <- Z.pow_add_r by lia; f_equal; lia).
    rewrite testbit_top by (replace (w * 8 - 1 + 1) with (8 * w) by lia; lia).
    replace (w * 8 - 1) with (8 * w - 1) by lia.
    destruct (2 ^ (8 * w - 1) <=? bits) eqn:E.
    - rewrite lor_shiftl_add by (subst m; lia). replace (bits <? 2 ^ (8 * w - 1)) with false by lia.
      replace (2 ^ 63 <=? bits + m * 2 ^ (8 * w)) with true by (subst m; lia). subst m. lia.
    - replace (bits <? 2 ^ (8 * w - 1)) with true by lia. by replace (2 ^ 63 <=? bits) with false by lia. }
  destruct Hw as [<-|[<-|[<-|[<-|[]]]]];
    [apply (A 1 (2 ^ 56 - 1)); [done|lia|done|by vm_compute]|apply (A 2 (2 ^ 48 - 1)); [done|lia|done|by vm_compute]
    |apply (A 4 (2 ^ 32 - 1)); [done|lia|done|by vm_compute]|].
  cbn [Z.ltb Z.compare Pos.compare Pos.compare_cont andb]. change (2 ^ (8 * 8 - 1)) with (2 ^ 63). change (2 ^ (8 * 8)) with (2 ^ 64).
  destruct (2 ^ 63 <=? bits) eqn:E; [by replace (bits <? 2 ^ 63) with false by lia|by replace (bits <? 2 ^ 63) with true by lia].
Qed.

Section ValueSpec.
  Context (artifact : yvex_artifact) (io : Z -> list pread_answer) (alloc : Z -> bool).
  Context (options : yvex_gguf_reader_options) (Hfile : file_ok artifact options).

Notation spec := (spec artifact io alloc options gguf_value_clear).

(** What is done with the word of a scalar. *)
Definition scalar_finish (type : yvex_gguf_value_type) (bits : Z) : GD yvex_gguf_value unit :=
  match (scalar_specs type).1.2 with
  | SCALAR_UNSIGNED => set_object (mk_value type (As_u64 bits))
  | SCALAR_SIGNED => set_object (mk_value type (As_i64 (as_int64 (extended (scalar_specs type).1.1 bits))))
  | SCALAR_FLOAT =>
      set_object (mk_value type (As_f64 (if (scalar_specs type).1.1 =? 4 then f64_of_f32 bits else bits)))
  | SCALAR_BOOL =>
      if bits <=? 1 then set_object (mk_value type (As_bool (if bits =? 0 then 0 else 1)))
      else on_cursor (cursor_fail PARSE_MALFORMED_VALUE SECTION_METADATA
                        "GGUF bool metadata value must be zero or one")
  end.

Definition load (n : Z) (bytes : list Z) : outcome Z := word ← mapO (read_at bytes) (zseq n); Done (le_word word).

Lemma parse_scalar_eq type s :
  (scalar_specs type).1.1 <> 0 ->
  parse_scalar artifact io options type s
  = (bits ← on_cursor (bytes ← cursor_read_exact artifact io options (scalar_specs type).1.1 (scalar_specs type).2;
                       so_lift (load (scalar_specs type).1.1 bytes));
     scalar_finish type bits) s.
Proof.
  intros Hw. unfold parse_scalar, scalar_finish. destruct (scalar_specs type) as [[w kind] trunc]. cbn in Hw.
  replace (w =? 0) with false by lia. destruct s as [c d]. unfold mbind, so_bind, on_cursor, so_lift, load.
  destruct (cursor_read_exact _ _ _ _ _ c) as [c' [bytes|st r|f]]; [|done|done].
  unfold mbind, outcome_bind. by destruct (mapO _ _) as [word|st r|f].
Qed.

Definition word_text (n : nat) : Z -> list Z -> cost -> Prop := fun a b k =>
  b = le_bytes n a /\ 0 <= a < 2 ^ (8 * Z.of_nat n) /\ k = read_cost (Z.of_nat n).

Lemma scalar_finish_spec type bits :
  scalar_bytes type <> 0%nat ->
  spec (fun _ d => gguf_value_clear d = Done tt /\ 0 <= bits < 2 ^ (8 * Z.of_nat (scalar_bytes type)))
    (scalar_finish type bits)
    (fun d _ d' b k => 0 <= bits < 2 ^ (8 * Z.of_nat (scalar_bytes type)) /\
       b = [] /\ k = cost_zero /\ exists as_, scalar_value type bits = Some as_ /\ d' = mk_value type as_).
Proof.
  intros Hn. set (R := 0 <= bits < 2 ^ (8 * Z.of_nat (scalar_bytes type))).
  assert (forall as_, (R -> scalar_value type bits = Some as_) ->
    spec (fun _ d => gguf_value_clear d = Done tt /\ R) (set_object (mk_value type as_))
      (fun d _ d' b k => R /\ b = [] /\ k = cost_zero /\ exists as_, scalar_value type bits = Some as_ /\ d' = mk_value type as_)) as A.
  { intros as_ Ev. destruct (decide R) as [HR|HR].
    - eapply spec_same; [apply spec_set|]. intros d a d' b k. rewrite (Ev HR). naive_solver.
    - apply spec_vacuous; [naive_solver|]. naive_solver. }
  destruct type; try done; unfold scalar_finish; cbn [scalar_specs fst snd];
    try (apply A; intros HR;
         (reflexivity || (cbn [scalar_value]; do 2 f_equal; symmetry; apply extended_signed; [cbn; tauto|exact HR]))).
  destruct (bits <=? 1) eqn:E.
  - apply A. intros HR. cbn [scalar_value]. rewrite E. unfold R in HR. do 2 f_equal. destruct (bits =? 0) eqn:E0; lia.
  - eapply spec_same; [apply spec_fail; [by intros c d []|done]|]. intros d a d' b k. cbn [scalar_value]. rewrite E.
    unfold never. naive_solver.
Qed.

Lemma spec_scalar type :
  scalar_bytes type <> 0%nat ->
  spec (fun _ d => gguf_value_clear d = Done tt) (parse_scalar artifact io options type)
    (fun d _ d' b k => scalar_text type d' b /\ k = value_cost d').
Proof.
  intros Hn. assert ((scalar_specs type).1.1 = Z.of_nat (scalar_bytes type)) as Ew by by destruct type.
  assert (1 <= scalar_bytes type <= 8)%nat as Hw by (destruct type; cbn in *; try done; lia).
  eapply spec_ext; [intros s; symmetry; apply parse_scalar_eq; lia|]. rewrite Ew. eapply spec_iff.
  { eapply spec_bind with (pre2 := fun bits _ d => gguf_value_clear d = Done tt /\ 0 <= bits < 2 ^ (8 * Z.of_nat (scalar_bytes type))).
    - apply (spec_word artifact io alloc options Hfile _ _ (scalar_bytes type)); [intros c d H; exact H|lia|].
      intros bytes Hz. unfold load. by rewrite load_word.
    - intros bits. by apply scalar_finish_spec.
    - intros c c' d bits d' b k _ Hd (-> & _ & Hr & _) _. done. }
  { done. }
  { intros d a d' b k [H ->]. by apply scalar_cost_ok in H. }
  intros c d a d' b k _. unfold then_, cursor_only, scalar_text. split.
  - intros (bits & d1 & b1 & k1 & b2 & k2 & (-> & -> & Hr & ->) & (_ & -> & -> & as_ & Hv & ->) & -> & ->).
    rewrite app_nil_r, cost_zero_r. split; [by eauto 10|]. by destruct type.
  - intros ((bits & as_ & Hr & -> & Hv & ->) & ->).
    exists bits, d, (le_bytes (scalar_bytes type) bits), (read_cost (Z.of_nat (scalar_bytes type))), [], cost_zero.
    rewrite app_nil_r, cost_zero_r. split; [done|]. split; [by eauto 10|]. split; [done|]. by destruct type.
Qed.

Lemma spec_type {D} (clear : D -> outcome unit) (pre : yvex_file_cursor -> D -> Prop) raw :
  releasable clear pre -> (forall c d, pre c d -> 0 <= raw) ->
  GgufSpec.spec artifact io alloc options clear pre (on_cursor (parse_value_type raw))
    (cursor_only (fun type b k => type <> VALUE_INVALID /\ value_type_code type = raw /\ b = [] /\ k = cost_zero)).
Proof.
  intros Hrel Hr. unfold parse_value_type. eapply spec_iff.
  { eapply spec_cursor_if; [by apply spec_fail|]. intros G.
    apply (spec_lift_cursor _ _ _ _ _ _ _ (default VALUE_INVALID (zget value_types raw))).
    intros c d Hd. specialize (Hr c d Hd). destruct (type_of_code raw ltac:(lia)) as (type & _ & _ & E). rewrite E.
    apply read_at_Done in E. by rewrite E. }
  { done. }
  { intros d a d' b k (-> & _ & _ & -> & ->). split; [apply cost_zero_ok|done]. }
  intros c d type d' b k Hd. specialize (Hr c d Hd). unfold guarded, nothing, cursor_only. split.
  - intros (G & -> & -> & -> & ->). destruct (type_of_code raw ltac:(lia)) as (type & Ht & Hc & E).
    apply read_at_Done in E. rewrite E. done.
  - intros (-> & Ht & <- & -> & ->). pose proof (type_code_range type Ht). split; [lia|].
    pose proof (type_code_read type Ht) as E. apply read_at_Done in E. by rewrite E.
Qed.

(** ** Arrays *)

(** The array during its loop: [items] parsed, [n] still zero. *)
Definition partial_array (element_type : yvex_gguf_value_type) (count : Z) (items : list yvex_gguf_value) (n : nat)
    : yvex_gguf_value :=
  mk_value VALUE_ARRAY (As_array element_type count (Some (items ++ replicate n value_zero))).

Lemma partial_array_inj element_type count items items' n n' :
  partial_array element_type count items n = partial_array element_type count items' n' ->
  zlen items = zlen items' -> items = items' /\ n = n'.
Proof.
  intros E Hz. assert (items ++ replicate n value_zero = items' ++ replicate n' value_zero) as E'
    by (unfold partial_array in E; congruence).
  apply app_inj_1 in E' as [-> E']; [|unfold zlen in *; lia]. split; [done|].
  apply (f_equal length) in E'. by rewrite !length_replicate in E'.
Qed.

Definition item_step (levels : nat) (element_type : yvex_gguf_value_type) (count i : Z)
    (d d' : yvex_gguf_value) (b : list Z) (k : cost) : Prop :=
  exists items n v, d = partial_array element_type count items (S n) /\ zlen items = i
    /\ value_text options levels element_type v b /\ k = value_cost v
    /\ d' = partial_array element_type count (items ++ [v]) n.

Definition item_inv (element_type : yvex_gguf_value_type) (count i : Z) (d : yvex_gguf_value) : Prop :=
  exists items, d = partial_array element_type count items (Z.to_nat (count - i)) /\ zlen items = i
    /\ Forall (fun v => gguf_value_clear v = Done tt) items.

Lemma item_inv_clear element_type count i d :
  0 <= i <= count -> item_inv element_type count i d -> gguf_value_clear d = Done tt.
Proof.
  intros Hi (items & -> & Hz & Hf). cbn. apply release_done.
  - apply Forall_app. split; [done|]. apply Forall_replicate. done.
  - rewrite zlen_app, zlen_replicate. lia.
Qed.

Lemma spec_item (parse : GD yvex_gguf_value unit) levels element_type count i :
  spec (fun _ _ => True) parse (fun _ _ d' b k => value_text options levels element_type d' b /\ k = value_cost d') ->
  0 <= i < count ->
  spec (fun _ d => item_inv element_type count i d) (array_item parse i)
    (fun d _ d' b k => item_step levels element_type count i d d' b k).
Proof.
  intros Hp Hi.
  assert (forall items, zlen items = i -> exists m, Z.to_nat (count - i) = S m /\
    forall v, zset (items ++ replicate (S m) value_zero) i v = (items ++ [v]) ++ replicate m value_zero) as Hsplit.
  { intros items Hz. exists (Z.to_nat (count - i - 1)). split; [lia|]. intros v. cbn [replicate].
    rewrite <- Hz, zset_middle. by rewrite <- app_assoc. }
  split.
  - intros d a d' b k (items & n & v & -> & Hz & Hv & -> & ->). by apply value_cost_ok in Hv.
  - intros c d Hc (items & -> & Hz & Hf). destruct (Hsplit items Hz) as (m & Em & Hset). rewrite Em.
    unfold array_item, partial_array.
    assert (zget (items ++ replicate (S m) value_zero) i = Some value_zero) as Hg by (rewrite <- Hz; apply zget_middle).
    rewrite Hg. cbn [value_zero].
    pose proof (sp_run _ _ _ _ _ _ _ _ Hp c (mk_value VALUE_INVALID (As_u64 0)) Hc I) as H.
    destruct (parse (c, mk_value VALUE_INVALID (As_u64 0))) as [[c' v] [u|st r|f]]; rewrite ?Hset.
    + destruct H as (Hc' & b & k & [Hv ->] & Hr & Hm). split; [done|]. exists b, (value_cost v).
      split; [|done]. exists items, m, v. split; [done|]. split; [done|]. split; [done|]. split; [done|].
      unfold partial_array. done.
    + destruct H as [[Ht|[Hs Ht]] Hrec].
      * assert (gguf_value_clear (mk_value VALUE_ARRAY (As_array element_type count
          (Some ((items ++ [v]) ++ replicate m value_zero)))) = Done tt) as ->.
        { cbn [gguf_value_clear]. apply release_done.
          - rewrite !Forall_app, Forall_singleton. split; [done|]. by apply Forall_replicate.
          - rewrite !zlen_app, zlen_replicate, zlen_cons, zlen_nil. lia. }
        split; [by left|done].
      * assert (gguf_value_clear (mk_value VALUE_ARRAY (As_array element_type count
          (Some ((items ++ [v]) ++ replicate m value_zero)))) = Fault NullPointer) as ->.
        { cbn [gguf_value_clear]. rewrite <- app_assoc. apply release_fault; [done|done|lia]. }
        done.
    + done.
  - intros Hg c d [] d' b k tail Hc (items & -> & Hz & Hf) (items' & n & v & E & Hz' & Hv & -> & ->) Hr Hw.
    destruct (Hsplit items Hz) as (m & Em & Hset). rewrite Em in E |- *.
    assert (items' = items /\ n = m) as [-> ->].
    { apply partial_array_inj in E as [-> E]; [|lia]. split; [done|lia]. }
    unfold array_item, partial_array.
    assert (zget (items ++ replicate (S m) value_zero) i = Some value_zero) as Hgt by (rewrite <- Hz; apply zget_middle).
    rewrite Hgt. cbn [value_zero].
    destruct (sp_complete _ _ _ _ _ _ _ _ Hp Hg c (mk_value VALUE_INVALID (As_u64 0)) tt v b (value_cost v) tail Hc I
      (conj Hv eq_refl) Hr Hw) as (c' & -> & Hm).
    exists c'. split; [|done]. by rewrite Hset.
Qed.

(** The loop parses the items one after the other. *)
Lemma items_chain levels element_type count m i items d' b k :
  zlen items = i ->
  chain (item_step levels element_type count) m i (partial_array element_type count items m) d' b k <->
  exists rest texts, length rest = m /\ Forall2 (value_text options levels element_type) rest texts
    /\ d' = partial_array element_type count (items ++ rest) 0 /\ b = concat texts /\ k = values_cost rest.
Proof.
  revert i items b k. induction m as [|m IH]; intros i items b k Hz; cbn [chain].
  - split.
    + intros (-> & -> & ->). exists [], []. rewrite app_nil_r. by repeat split; auto.
    + intros (rest & texts & Hl & Hf & -> & -> & ->). destruct rest; [|done]. apply Forall2_nil_inv_l in Hf. subst.
      by rewrite app_nil_r.
  - split.
    + intros (d1 & b1 & k1 & b2 & k2 & (items' & n & v & E & Hz' & Hv & -> & ->) & Hch & -> & ->).
      assert (items' = items /\ n = m) as [-> ->].
      { apply partial_array_inj in E as [-> E]; [|lia]. split; [done|lia]. }
      apply IH in Hch as (rest & texts & Hl & Hf & -> & -> & ->); [|rewrite zlen_snoc; lia].
      exists (v :: rest), (b1 :: texts). split; [cbn; lia|]. split; [by constructor|].
      rewrite <- app_assoc. done.
    + intros (rest & texts & Hl & Hf & -> & -> & ->). destruct rest as [|v rest]; [done|].
      apply Forall2_cons_inv_l in Hf as (t & ts & Hv & Hf & ->).
      exists (partial_array element_type count (items ++ [v]) m), t, (value_cost v), (concat ts), (values_cost rest).
      split; [by exists items, m, v|]. split; [|done]. apply IH; [rewrite zlen_snoc; lia|].
      exists rest, ts. split; [cbn in Hl; lia|]. split; [done|]. rewrite <- app_assoc. done.
Qed.

(** An array whose storage is not allocated yet. *)
Definition hollow (element_type : yvex_gguf_value_type) (count : Z) : yvex_gguf_value :=
  mk_value VALUE_ARRAY (As_array element_type count None).

Lemma hollow_clear element_type count :
  gguf_value_clear (hollow element_type count) = Done tt
  \/ gguf_value_clear (hollow element_type count) = Fault NullPointer.
Proof. cbn. destruct (1 <? count); auto. Qed.

(** The items of an array of [count] elements. *)
Definition items_text (levels : nat) (element_type : yvex_gguf_value_type) (count : Z) (owned entries : Z)
    : yvex_gguf_value -> unit -> yvex_gguf_value -> list Z -> cost -> Prop := fun _ _ d' b k =>
  exists items texts, zlen items = count /\ Forall2 (value_text options levels element_type) items texts
    /\ d' = array_value element_type items /\ b = concat texts
    /\ k = mk_cost 0 0 0 entries owned ⊕ values_cost items.

Lemma values_cost_ok levels element_type items texts :
  Forall2 (value_text options levels element_type) items texts ->
  cost_ok (values_cost items) /\ k_bytes (values_cost items) = zlen (concat texts).
Proof.
  induction 1 as [|v t items texts Hv _ [IH1 IH2]]; [done|]. apply value_cost_ok in Hv as [H1 H2].
  cbn. fold (values_cost items). rewrite zlen_app. split; [auto with yvex|lia].
Qed.

Lemma items_text_cost levels element_type count owned entries d u d' b k :
  0 <= owned -> 0 <= entries ->
  items_text levels element_type count owned entries d u d' b k -> cost_ok k /\ k_bytes k = zlen b.
Proof.
  intros Ho He (items & texts & Hz & Hf & -> & -> & ->). apply values_cost_ok in Hf as [H1 H2].
  split; [apply cost_add_ok; [unfold cost_ok; cbn; lia|done]|]. cbn. lia.
Qed.

Lemma spec_items parse levels element_type count :
  spec (fun _ _ => True) parse (fun _ _ d' b k => value_text options levels element_type d' b /\ k = value_cost d') ->
  0 < count -> count * SIZEOF_VALUE < 2 ^ 64 ->
  spec (fun _ d => d = hollow element_type count)
    (_ ← on_cursor (reserve_owned options (count * SIZEOF_VALUE));
     _ ← on_cursor (allocate alloc "failed to allocate GGUF array items");
     _ ← set_object (mk_value VALUE_ARRAY (As_array element_type count
                                             (Some (replicate (Z.to_nat count) value_zero))));
     so_each (array_item parse) (zseq count))
    (items_text levels element_type count (count * SIZEOF_VALUE) 0).
Proof.
  intros Hp Hc Hs. unfold SIZEOF_VALUE in *.
  assert (half_releasable gguf_value_clear (fun _ d => d = hollow element_type count)) as Hh
    by (intros c d ->; apply hollow_clear).
  eapply spec_same.
  { eapply spec_bind with (pre2 := fun _ _ d => d = hollow element_type count);
      [apply spec_reserve; [done|done|lia]| |by intros c c' d a d' b k _ Hd (-> & _) _].
    intros u1. eapply spec_bind with (pre2 := fun _ _ d => True);
      [apply spec_allocate; by right| |done].
    intros u2. eapply spec_bind with (pre2 := fun _ _ d => item_inv element_type count 0 d); [apply spec_set| |].
    2:{ intros c c' d a d' b k _ _ (-> & _) _. exists []. rewrite Z.sub_0_r. split; [done|]. split; [done|apply Forall_nil_2]. }
    intros u3. apply spec_each with (T := item_step levels element_type count)
      (inv := fun i _ d => item_inv element_type count i d).
    - intros i Hi. by apply spec_item.
    - intros i c c' d d' b k Hi _ (items & -> & Hz & Hf) (items' & n & v & E & Hz' & Hv & -> & ->) _.
      apply partial_array_inj in E as [-> E]; [|lia]. exists (items' ++ [v]).
      split; [f_equal; lia|]. split; [rewrite zlen_snoc; lia|]. apply Forall_app. split; [done|].
      apply Forall_singleton. by eapply value_text_clear. }
  intros d a d' b k. unfold then_, cursor_only, items_text.
  assert (forall b k, chain (item_step levels element_type count) (Z.to_nat count) 0
      (mk_value VALUE_ARRAY (As_array element_type count (Some (replicate (Z.to_nat count) value_zero)))) d' b k
    <-> exists items texts, zlen items = count /\ Forall2 (value_text options levels element_type) items texts
        /\ d' = array_value element_type items /\ b = concat texts /\ k = values_cost items) as Hch.
  { intros b' k'. rewrite (items_chain levels element_type count (Z.to_nat count) 0 [] d' b' k' eq_refl).
    assert (forall items, zlen items = count ->
      partial_array element_type count ([] ++ items) 0 = array_value element_type items) as Ea.
    { intros items Hz. unfold partial_array, array_value, storage. rewrite app_nil_r, Hz. cbn [app].
      destruct items; [rewrite zlen_nil in Hz; lia|done]. }
    split; intros (items & texts & Hz & Hf & -> & -> & ->); exists items, texts; unfold zlen in *.
    - split; [lia|]. split; [done|]. split; [apply Ea; unfold zlen; lia|done].
    - split; [lia|]. split; [done|]. split; [symmetry; by apply Ea|done]. }
  split.
  - intros (u1 & d1 & b1 & k1 & b2 & k2 & (-> & -> & ->) & (u2 & d2 & b3 & k3 & b4 & k4 & (-> & -> & ->) &
      (u3 & d3 & b5 & k5 & b6 & k6 & (-> & -> & ->) & Hx & -> & ->) & -> & ->) & -> & ->).
    apply Hch in Hx as (items & texts & Hz & Hf & -> & -> & ->). exists items, texts.
    split; [done|]. split; [done|]. split; [done|]. split; [done|]. cost_eq.
  - intros (items & texts & Hz & Hf & -> & -> & ->).
    exists tt, d, [], (owned_cost (count * 32)), (concat texts), (values_cost items). split; [done|]. split; [|split; [done|cost_eq]].
    exists tt, d, [], cost_zero, (concat texts), (values_cost items). split; [done|]. split; [|split; [done|cost_eq]].
    eexists tt, _, [], cost_zero, (concat texts), (values_cost items). split; [done|]. split; [|split; [done|cost_eq]].
    apply Hch. by exists items, texts.
Qed.

(** The array once its element type and its count are read. *)
Definition array_body (levels : nat) (element_type : yvex_gguf_value_type) (count : Z)
    : yvex_gguf_value -> unit -> yvex_gguf_value -> list Z -> cost -> Prop := fun d u d' b k =>
  count <= max_array_entries options
  /\ items_text levels element_type count (count * SIZEOF_VALUE) count d u d' b k.

Lemma array_body_cost levels element_type count d u d' b k :
  array_body levels element_type count d u d' b k -> cost_ok k /\ k_bytes k = zlen b.
Proof.
  intros [_ H]. assert (0 <= count) by (destruct H as (items & _ & <- & _); apply zlen_nonneg).
  eapply items_text_cost; [| |exact H]; unfold SIZEOF_VALUE; lia.
Qed.

Lemma spec_array_body parse levels element_type count (c0 : yvex_file_cursor) :
  spec (fun _ _ => True) parse (fun _ _ d' b k => value_text options levels element_type d' b /\ k = value_cost d') ->
  0 <= count < 18446744073709551616 -> cur_ok artifact options c0 ->
  spec (fun c d => c = c0 /\ gguf_value_clear d = Done tt)
    (if (max_array_entries options <? count) || (ULLONG_MAX - st_total_array_entries (c_stats c0) <? count)
        || (max_total_array_entries options <? st_total_array_entries (c_stats c0) + count)
     then on_cursor (cursor_fail PARSE_RESOURCE_LIMIT SECTION_RESOURCE "GGUF array entry budget exceeded") else
     if SIZE_MAX / SIZEOF_VALUE <? count
     then on_cursor (cursor_fail PARSE_RESOURCE_LIMIT SECTION_RESOURCE
                       "GGUF array allocation exceeds address space") else
     _ ← set_object (mk_value VALUE_ARRAY (As_array element_type count None));
     _ ← on_cursor (add_array_entries count);
     if count =? 0 then mret tt else
     _ ← on_cursor (reserve_owned options (count * SIZEOF_VALUE));
     _ ← on_cursor (allocate alloc "failed to allocate GGUF array items");
     _ ← set_object (mk_value VALUE_ARRAY (As_array element_type count
                                             (Some (replicate (Z.to_nat count) value_zero))));
     so_each (array_item parse) (zseq count))
    (array_body levels element_type count).
Proof.
  intros Hp Hc Hc0. pose proof (fo_options _ _ Hfile) as Ho.
  pose proof (oo_array _ Ho) as Hma. pose proof (oo_entries _ Ho) as Hme. pose proof (oo_owned _ Ho) as Hmo.
  unfold is_u64 in Hma, Hme, Hmo. pose proof (co_entries _ _ _ Hc0) as He0. pose proof (co_owned _ _ _ Hc0) as Hw0.
  assert (forall levels et b k d d', items_text levels et count (count * SIZEOF_VALUE) count d tt d' b k ->
    within options c0 k -> st_owned_bytes (c_stats c0) + count * 32 <= max_owned_bytes options
      /\ st_total_array_entries (c_stats c0) + count <= max_total_array_entries options) as Hwithin.
  { intros l et b k d d' (items & texts & _ & Hf & _ & _ & ->) (_ & H1 & _ & H2).
    apply values_cost_ok in Hf as [(_ & _ & Hk1 & Hk2) _]. unfold SIZEOF_VALUE in *. cbn in H1, H2. lia. }
  apply spec_budget with (c0 := c0); [intros d a d' b k; apply array_body_cost|by intros c d []|by apply spec_fail; [intros c d []|]| |].
  2:{ intros d [] d' b k _ [Hm Ht] Hw. destruct (Hwithin _ _ _ _ _ _ Ht Hw). unfold ULLONG_MAX, UINT64_MAX. lia. }
  intros G1. apply spec_budget with (c0 := c0); [intros d a d' b k; apply array_body_cost|by intros c d []|by apply spec_fail; [intros c d []|]| |].
  2:{ intros d [] d' b k _ [Hm Ht] Hw. destruct (Hwithin _ _ _ _ _ _ Ht Hw).
      change (SIZE_MAX / SIZEOF_VALUE) with 576460752303423487. lia. }
  intros G2. change (SIZE_MAX / SIZEOF_VALUE) with 576460752303423487 in G2.
  eapply spec_same.
  { eapply spec_bind with (pre2 := fun _ c d => st_total_array_entries (c_stats c) = st_total_array_entries (c_stats c0) /\ d = hollow element_type count); [apply spec_set| |].
    2:{ intros c c' d a d' b k _ [-> _] (-> & -> & ->) Hm%moved_fields. cbn in Hm. split; [lia|done]. }
    intros u1. eapply spec_bind with (pre2 := fun _ c d => d = hollow element_type count).
    { apply spec_charge with (k := mk_cost 0 0 0 count 0); [unfold cost_ok; cbn; lia|done|].
      intros c d [Hs _] Hcc. destruct Hcc. split; [split; cbn; rewrite ?Hs in *; lia|].
      split; cbn; [lia|]. unfold spend, counters. cbn. f_equal; lia. }
    2:{ by intros c c' d a d' b k _ [_ ->] (-> & _) _. }
    intros u2. apply spec_cases.
    - intros _. apply spec_ret.
    - intros Hn. apply spec_items; [exact Hp|lia|unfold SIZEOF_VALUE; lia]. }
  intros d [] d' b k. unfold then_, cursor_only, array_body, nothing, items_text. split.
  - intros (u1 & d1 & b1 & k1 & b2 & k2 & (-> & -> & ->) & (u2 & d2 & b3 & k3 & b4 & k4 & (-> & -> & ->) & Hx & -> & ->) & -> & ->).
    split; [lia|]. destruct (count =? 0) eqn:E.
    + destruct Hx as (_ & -> & -> & ->). assert (count = 0) as -> by lia. exists [], []. split; [done|]. split; [constructor|].
      split; [done|]. split; [done|]. cost_eq.
    + destruct Hx as (items & texts & Hz & Hf & -> & -> & ->). exists items, texts. split; [done|]. split; [done|].
      split; [done|]. split; [done|]. cost_eq.
  - intros (Hm & items & texts & Hz & Hf & -> & -> & ->).
    eexists tt, _, [], cost_zero, (concat texts), _. split; [done|]. split; [|split; [done|symmetry; apply cost_zero_l]].
    eexists tt, _, [], (mk_cost 0 0 0 count 0), (concat texts), (mk_cost 0 0 0 0 (count * SIZEOF_VALUE) ⊕ values_cost items).
    split; [done|]. split; [|split; [done|cost_eq]]. destruct (count =? 0) eqn:E.
    + assert (count = 0) as -> by lia. destruct items as [|v items]; [|pose proof (zlen_nonneg items); rewrite zlen_cons in Hz; lia].
      apply Forall2_nil_inv_l in Hf. subst. split; [done|]. split; [done|]. split; [done|]. cost_eq.
    + by exists items, texts.
Qed.

(** ** Values *)

(** The text and the cost of a value. *)
Definition value_step (levels : nat) (type : yvex_gguf_value_type)
    : yvex_gguf_value -> unit -> yvex_gguf_value -> list Z -> cost -> Prop := fun _ _ d' b k =>
  value_text options levels type d' b /\ k = value_cost d'.

Lemma spec_array levels :
  (forall type, spec (fun _ _ => True) (parse_value artifact io alloc options levels type) (value_step levels type)) ->
  spec (fun _ _ => True) (parse_value artifact io alloc options (S levels) VALUE_ARRAY) (value_step (S levels) VALUE_ARRAY).
Proof.
  intros IH. cbn [parse_value]. eapply spec_same.
  { eapply spec_bind with (pre2 := fun _ _ d => gguf_value_clear d = Done tt); [apply spec_set| |by intros c c' d a d' b k _ _ (-> & _) _].
    intros u1. eapply spec_bind with (pre2 := fun raw _ d => gguf_value_clear d = Done tt /\ 0 <= raw).
    { apply spec_u32; [done|]. by intros c d. }
    2:{ intros c c' d raw d' b k _ Hd (-> & _ & Hr & _) _. split; [done|apply Hr]. }
    intros raw. eapply spec_bind with (pre2 := fun _ _ d => gguf_value_clear d = Done tt).
    { apply spec_type; [by intros c d []|by intros c d []]. }
    2:{ by intros c c' d raw' d' b k _ [Hd _] (-> & _) _. }
    intros et. eapply spec_bind with (pre2 := fun count _ d => gguf_value_clear d = Done tt /\ is_u64 count).
    { apply spec_u64; [done|]. by intros c d. }
    2:{ by intros c c' d count d' b k _ Hd (-> & _ & Hr & _) _. }
    intros count. apply spec_read_cursor with (T := array_body levels et count).
    { intros d a d' b k. apply array_body_cost. }
    intros c0 Hc0. destruct (decide (0 <= count < 18446744073709551616)) as [Hc|Hc].
    - eapply spec_pre; [apply spec_array_body; [apply IH|done|done]|]. by intros c d (-> & Hd & _).
    - apply spec_vacuous; [intros d a d' b k; apply array_body_cost|]. by intros c d (_ & _ & ?). }
  intros d [] d' b k. unfold then_, cursor_only, array_body, items_text, value_step. cbn [value_text]. split.
  - intros (u1 & d1 & b1 & k1 & b2 & k2 & (-> & -> & ->) & (raw & d2 & b3 & k3 & b4 & k4 & (-> & -> & Hraw & ->) &
      (et & d3 & b5 & k5 & b6 & k6 & (-> & Het & <- & -> & ->) & (count & d4 & b7 & k7 & b8 & k8 & (-> & -> & Hcount & ->) &
      (Hm & items & texts & <- & Hf & -> & -> & ->) & -> & ->) & -> & ->) & -> & ->) & -> & ->).
    split; [by exists et, items, texts|]. rewrite array_cost. cost_eq.
  - intros [(et & items & texts & -> & Het & Hm & Hf & ->) ->].
    assert (is_u64 (zlen items)) as Hz.
    { pose proof (oo_array _ (fo_options _ _ Hfile)). pose proof (zlen_nonneg items). unfold is_u64 in *. lia. }
    eexists tt, _, [], cost_zero, _, _. split; [done|]. split; [|split; [reflexivity|symmetry; apply cost_zero_l]].
    eexists (value_type_code et), _, _, _, _, _. split; [split; [done|]; split; [done|]; split; [|done];
      pose proof (type_code_range et Het) as Hr; cbn in Hr; unfold is_u32; lia|].
    split; [|split; [reflexivity|]].
    + eexists et, _, [], cost_zero, _, _. split; [done|]. split; [|split; [reflexivity|symmetry; apply cost_zero_l]].
      eexists (zlen items), _, _, _, _, _. split; [done|]. split; [|split; [reflexivity|reflexivity]].
      split; [done|]. by exists items, texts.
    + rewrite array_cost. cost_eq.
Qed.

Lemma spec_value levels type :
  spec (fun _ _ => True) (parse_value artifact io alloc options levels type) (value_step levels type).
Proof.
  assert (forall levels type, (match type with VALUE_ARRAY => False | _ => True end) ->
    spec (fun _ _ => True) (parse_value artifact io alloc options levels type) (value_step levels type)) as Hflat.
  { clear levels type. intros levels type Ha.
    assert (forall (p : GD yvex_gguf_value unit) T, spec (fun _ d => gguf_value_clear d = Done tt) p T ->
      (forall d d1 a d' b k, T d a d' b k <-> T d1 a d' b k) ->
      spec (fun _ _ => True) (_ ← set_object (mk_value type (union_zero type)); p) T) as Hset.
    { intros p T Hp HT. eapply spec_same.
      - eapply spec_bind with (pre2 := fun _ _ d => gguf_value_clear d = Done tt); [apply spec_set|intros u; exact Hp|].
        intros c c' d a d' b k _ _ (-> & _) _. by destruct type.
      - intros d a d' b k. unfold then_. split.
        + intros (u & d1 & b1 & k1 & b2 & k2 & (-> & -> & ->) & H & -> & ->). rewrite cost_zero_l. by eapply HT.
        + intros H. eexists tt, _, [], cost_zero, b, k. split; [done|]. split; [by eapply HT|].
          split; [done|symmetry; apply cost_zero_l]. }
    assert (scalar_bytes type <> 0%nat ->
      spec (fun _ _ => True) (_ ← set_object (mk_value type (union_zero type)); parse_scalar artifact io options type)
        (fun _ _ d' b k => scalar_text type d' b /\ k = value_cost d')) as Hscalar
      by (intros Hn; apply Hset; [by apply spec_scalar|done]).
    destruct levels, type; try done; cbn [parse_value]; try (by apply Hscalar); apply Hset; try done;
      try (eapply spec_same; [by apply spec_fail; [intros c d|]|intros d a d' b k; unfold never, value_step; cbn; naive_solver]).
    all: eapply spec_same;
      [eapply spec_bind with (pre2 := fun _ _ _ => True); [apply (spec_string artifact io alloc options Hfile gguf_value_clear
         (fun d => gguf_value_clear d = Done tt)); done|intros data; apply spec_set|done]|];
      intros d a d' b k; unfold then_, cursor_only, value_step; cbn [value_text]; split;
      [intros (data & d1 & b1 & k1 & b2 & k2 & (-> & -> & Hok & ->) & (-> & -> & ->) & -> & ->);
       rewrite app_nil_r, cost_zero_r; split; [by exists data|done]
      |intros [(data & -> & Hok & ->) ->]; exists data, d, (string_text data), (string_cost data), [], cost_zero;
       rewrite app_nil_r, cost_zero_r; done]. }
  revert type. induction levels as [|levels IH]; intros type;
    (destruct (decide (type = VALUE_ARRAY)) as [->|Hne]; [|apply Hflat; by destruct type]).
  - cbn [parse_value]. eapply spec_same.
    + eapply spec_bind with (pre2 := fun _ _ d => gguf_value_clear d = Done tt); [apply spec_set| |by intros c c' d a d' b k _ _ (-> & _) _].
      intros u. by apply spec_fail; [intros c d|].
    + intros d a d' b k. unfold then_, never, value_step. cbn. naive_solver.
  - by apply spec_array.
Qed.

End ValueSpec.
