(* ===== verification/GgufIndex.v ===== *)
(** * GgufIndex: the identifier indexes of the GGUF reader

    Metadata keys and tensor names are indexed while the directory is read, which
    is how duplicates are refused, and the indexes answer the lookups of a view.
    This file shows that a probe of an index decides membership, and specifies
    the allocation of an index and the claim of a slot. *)

From Stdlib Require Import ZArith Lia Bool.
From stdpp Require Import base list option numbers strings sets.
From S2P Require Import Prelude Core Words NameIndex Qtype Artifact GgufReader GgufSpec.

Lemma nodup_snoc {A} (l : list A) x : NoDup l -> x ∉ l -> NoDup (l ++ [x]).
Proof.
  intros Hl Hx. apply NoDup_app. split; [done|]. split; [|apply NoDup_singleton].
  by intros y Hy ->%list_elem_of_singleton.
Qed.

(** ** Probes *)

Section Probe.
  Context (name_at : Z -> outcome (list Z)) (names : list (list Z)) (slots : list Z).
  Context (Hindex : name_index name_hash names slots) (Hroom : zlen names < zlen slots).
  Context (Hat : forall i name, zget names i = Some name -> name_at i = Done name).

(** The free slot that ends the probes from [h] is unique. *)
Lemma reach_free_unique (s : list Z) h e e' : 0 <= e -> 0 <= e' -> reach s h 0 e -> reach s h 0 e' -> e = e'.
Proof.
  intros He He' [H1 H2] [H3 H4]. destruct (decide (e < e')) as [Hlt|Hge].
  - destruct (H4 e) as (u & Hu & Hn); [lia|]. congruence.
  - destruct (decide (e' < e)) as [Hlt|]; [|lia]. destruct (H2 e') as (u & Hu & Hn); [lia|]. congruence.
Qed.

(** What a search from [home] answers. *)
Definition probe_answer (name : list Z) (r : outcome (Z + Z)) : Prop :=
  (exists i, zget names i = Some name /\ r = Done (inl i))
  \/ (name ∉ names /\ exists e, 0 <= e < zlen slots /\ reach slots (slot_home name_hash name (zlen slots)) 0 e
        /\ r = Done (inr ((slot_home name_hash name (zlen slots) + e) mod zlen slots))).

Lemma indexed_before name i e :
  zget names i = Some name -> 0 <= e -> reach slots (slot_home name_hash name (zlen slots)) 0 e ->
  exists d, 0 <= d < e /\ zget slots ((slot_home name_hash name (zlen slots) + d) mod zlen slots) = Some (i + 1).
Proof.
  intros Hi He [H0 _]. destruct (io_reach _ _ Hindex _ _ Hi) as (d & Hd & [H1 H2]).
  pose proof (zget_Some_range _ _ _ Hi). exists d. split; [|done].
  destruct (decide (d = e)) as [->|]; [rewrite H0 in H1; injection H1; lia|].
  destruct (decide (e < d)); [|lia]. destruct (H2 e) as (u & Hu & Hn); [lia|]. congruence.
Qed.

Lemma probe_from name e fuel d :
  let h := slot_home name_hash name (zlen slots) in
  0 <= e < zlen slots -> reach slots h 0 e -> 0 <= d <= e -> e - d < Z.of_nat fuel -> zlen names < 2 ^ 63 ->
  (forall d' v, 0 <= d' < d -> zget slots ((h + d') mod zlen slots) = Some v -> zget names (v - 1) <> Some name) ->
  probe_answer name (name_probe fuel name_at slots name ((h + d) mod zlen slots)).
Proof.
  intros h He Hr. revert d. induction fuel as [|fuel IH]; intros d Hd Hf Hmax Hno; [lia|]. cbn [name_probe].
  destruct (zget_in slots ((h + d) mod zlen slots)) as (v & Hv); [apply Z.mod_pos_bound; lia|].
  rewrite (proj2 (read_at_Done _ _ _) Hv). cbn [mbind outcome_bind].
  destruct (v =? 0) eqn:Ev.
  - assert (v = 0) as -> by lia. right. assert (d = e) as ->.
    { destruct (decide (d = e)); [done|]. destruct (proj2 Hr d) as (u & Hu & Hn); [lia|]. congruence. }
    split; [|by exists e]. intros (i & Hi)%elem_of_zget.
    destruct (indexed_before name i e Hi) as (d' & Hd' & E); [lia|done|]. apply (Hno d' (i + 1) Hd' E).
    by replace (i + 1 - 1) with i by lia.
  - pose proof (io_range _ _ Hindex _ _ Hv) as Hvr. rewrite u64_id by (unfold is_u64; lia).
    destruct (zget_in names (v - 1)) as (prior & Hp); [lia|]. rewrite (Hat _ _ Hp). cbn [mbind outcome_bind].
    case_bool_decide as Eq; [subst; left; eauto|]. rewrite slot_next_mod by apply (io_size _ _ Hindex).
    assert (d <> e) by (intros ->; destruct Hr as [H0 _]; rewrite H0 in Hv; injection Hv; lia).
    apply IH; [lia|lia|done|]. intros d' w Hd' Hw. destruct (decide (d' = d)) as [->|]; [|apply (Hno d'); [lia|done]].
    rewrite Hv in Hw. injection Hw as <-. rewrite Hp. by intros [= ->].
Qed.

Lemma probe_exact name :
  probe_answer name (name_probe (S (length slots)) name_at slots name (name_index_start slots name)).
Proof.
  destruct (free_slot names slots (slot_home name_hash name (zlen slots)) Hindex Hroom) as (e & He & Hr).
  pose proof (index_size_pos _ (io_size _ _ Hindex)). unfold name_index_start.
  pose proof (slot_home_range name_hash name _ (io_size _ _ Hindex)) as Hh.
  rewrite <- (Z.mod_small (slot_home name_hash name (zlen slots)) (zlen slots)) by done.
  rewrite <- (Z.add_0_r (slot_home name_hash name (zlen slots))) at 1.
  apply (probe_from name e); [done|done|lia|unfold zlen in *; lia|lia|]. intros; lia.
Qed.

End Probe.

(** ** Claims *)

(** [slots'] is [slots] with the first free slot of the name claimed. *)
Definition claimed (slots : list Z) (name : list Z) (v : Z) (slots' : list Z) : Prop :=
  exists e, 0 <= e < zlen slots /\ reach slots (slot_home name_hash name (zlen slots)) 0 e
    /\ slots' = zset slots ((slot_home name_hash name (zlen slots) + e) mod zlen slots) v.

Lemma claimed_unique slots name v s1 s2 : claimed slots name v s1 -> claimed slots name v s2 -> s1 = s2.
Proof.
  intros (e1 & H1 & R1 & ->) (e2 & H2 & R2 & ->). assert (e1 = e2) as -> by (eapply reach_free_unique; [| |done|done]; lia).
  done.
Qed.

Lemma claimed_index names slots name slots' :
  name_index name_hash names slots -> claimed slots name (zlen names + 1) slots' ->
  name_index name_hash (names ++ [name]) slots' /\ zlen slots' = zlen slots.
Proof. intros H (e & He & Hr & ->). split; [by apply claim_index|apply zlen_zset]. Qed.

Lemma claimed_exists names slots name v :
  name_index name_hash names slots -> zlen names < zlen slots -> exists slots', claimed slots name v slots'.
Proof.
  intros H Hlt. destruct (free_slot names slots (slot_home name_hash name (zlen slots)) H Hlt) as (e & He & Hr).
  eexists _, e. done.
Qed.

(** The free slot where the probes from [slot] end, and the table with it claimed. *)
Fixpoint free_from (fuel : nat) (slots : list Z) (slot : Z) : Z :=
  match fuel with
  | O => slot
  | S fuel => if bool_decide (zget slots slot = Some 0) then slot
              else free_from fuel slots (slot_next slot (zlen slots))
  end.

Definition index_add (slots : list Z) (name : list Z) (v : Z) : list Z :=
  zset slots (free_from (length slots) slots (slot_home name_hash name (zlen slots))) v.

(** The table of [cap] slots that indexes the names in their order. *)
Definition index_build (cap : Z) (names : list (list Z)) : list Z :=
  (foldl (fun '(slots, n) name => (index_add slots name (n + 1), n + 1)) (replicate (Z.to_nat cap) 0, 0) names).1.

Lemma free_from_reach slots h e fuel d :
  index_size (zlen slots) -> reach slots h 0 e -> 0 <= d <= e -> e - d <= Z.of_nat fuel ->
  free_from fuel slots ((h + d) mod zlen slots) = (h + e) mod zlen slots.
Proof.
  intros Hs Hr. revert d. induction fuel as [|fuel IH]; intros d Hd Hf; cbn [free_from]; [by replace d with e by lia|].
  case_bool_decide as E.
  - destruct (decide (d = e)) as [->|]; [done|]. destruct (proj2 Hr d) as (u & Hu & Hn); [lia|]. congruence.
  - assert (d <> e) by (intros ->; by destruct Hr). rewrite slot_next_mod by done. apply IH; lia.
Qed.

Lemma claimed_add slots name v slots' :
  index_size (zlen slots) -> claimed slots name v slots' -> slots' = index_add slots name v.
Proof.
  intros Hs (e & He & Hr & ->). unfold index_add. f_equal.
  pose proof (slot_home_range name_hash name _ Hs) as Hh.
  rewrite <- (Z.mod_small (slot_home name_hash name (zlen slots)) (zlen slots)) at 2 by done.
  rewrite <- (Z.add_0_r (slot_home name_hash name (zlen slots))) at 2.
  symmetry. apply free_from_reach; [done|done|lia|unfold zlen in *; lia].
Qed.

Lemma index_build_snoc cap names name :
  index_build cap (names ++ [name]) = index_add (index_build cap names) name (zlen names + 1).
Proof.
  unfold index_build. rewrite foldl_app. cbn.
  assert (forall p, (foldl (fun '(slots, n) name => (index_add slots name (n + 1), n + 1)) p names).2
    = p.2 + zlen names) as E.
  { induction names as [|x names IH]; intros [s n]; cbn [foldl]; [rewrite zlen_nil; cbn; lia|]. rewrite IH, zlen_cons.
    cbn. lia. }
  specialize (E (replicate (Z.to_nat cap) 0, 0)). destruct (foldl _ _ names) as [s n]. cbn in *. by rewrite E.
Qed.

Lemma index_build_ok cap names :
  index_size cap -> zlen names <= cap ->
  name_index name_hash names (index_build cap names) /\ zlen (index_build cap names) = cap.
Proof.
  intros Hc. induction names as [|name names IH] using rev_ind; intros Hl.
  - split; [by apply index_empty|]. cbn. rewrite zlen_replicate. pose proof (index_size_pos _ Hc). lia.
  - rewrite zlen_snoc in Hl. destruct IH as [Hi Hz]; [lia|].
    destruct (claimed_exists names (index_build cap names) name (zlen names + 1) Hi ltac:(lia)) as (s & Hs).
    pose proof (claimed_index _ _ _ _ Hi Hs) as [H1 H2].
    apply claimed_add in Hs; [|apply (io_size _ _ Hi)]. rewrite index_build_snoc, <- Hs. split; [done|lia].
Qed.

(** ** Allocation *)

(** The least power of two that is at least eight and twice the count. *)
Definition index_slots (count : Z) : Z := 2 ^ Z.max 3 (Z.log2_up (2 * count)).

Lemma index_slots_bounds count : 0 < count <= 2 ^ 59 ->
  index_size (index_slots count) /\ count < index_slots count <= 2 ^ 60.
Proof.
  intros Hc. unfold index_slots. assert (0 <= Z.log2_up (2 * count) <= 60) as Hl.
  { split; [apply Z.log2_up_nonneg|]. rewrite <- (Z.log2_up_pow2 60) by lia. apply Z.log2_up_le_mono. lia. }
  split; [exists (Z.max 3 (Z.log2_up (2 * count))); split; [lia|done]|]. split; [|apply Z.pow_le_mono_r; lia].
  pose proof (Z.log2_up_spec (2 * count) ltac:(lia)) as [_ H].
  pose proof (Z.pow_le_mono_r 2 (Z.log2_up (2 * count)) (Z.max 3 (Z.log2_up (2 * count))) ltac:(lia) ltac:(lia)). lia.
Qed.

Lemma index_capacity_run fuel k wanted c :
  3 <= k <= 60 -> 0 < wanted <= 2 ^ 60 -> k = 3 \/ 2 ^ (k - 1) < wanted -> 61 - k < Z.of_nat fuel ->
  index_capacity fuel (2 ^ k) wanted c = (c, Done (2 ^ Z.max 3 (Z.log2_up wanted))).
Proof.
  revert k. induction fuel as [|fuel IH]; intros k Hk Hw Hlow Hf; [lia|]. cbn [index_capacity].
  assert (2 ^ 3 <= 2 ^ k <= 2 ^ 60) as Hp by (split; apply Z.pow_le_mono_r; lia).
  destruct (2 ^ k <? wanted) eqn:E.
  - assert (k < 60) by (destruct (decide (k = 60)) as [->|]; lia).
    change (SIZE_MAX / 2) with 9223372036854775807. replace (9223372036854775807 <? 2 ^ k) with false by lia.
    assert (2 ^ k * 2 = 2 ^ (k + 1)) as Es by (rewrite Z.pow_add_r by lia; lia).
    assert (2 ^ (k + 1) <= 2 ^ 60) by (apply Z.pow_le_mono_r; lia).
    rewrite u64_id by (unfold is_u64; lia). rewrite Es. apply IH; [lia|done| |lia].
    right. replace (k + 1 - 1) with k by lia. lia.
  - assert (k = Z.max 3 (Z.log2_up wanted)) as <-; [|done]. destruct Hlow as [->|Hlow].
    + assert (Z.log2_up wanted <= 3); [|lia]. change 3 with (Z.log2_up (2 ^ 3)). apply Z.log2_up_le_mono. lia.
    + assert (Z.log2_up wanted = k); [|lia]. apply Z.log2_up_unique; [lia|]. unfold Z.pred. replace (k + -1) with (k - 1) by lia. lia.
Qed.

Section Allocate.
  Context (artifact : yvex_artifact) (io : Z -> list pread_answer) (alloc : Z -> bool).
  Context (options : yvex_gguf_reader_options) (Hfile : file_ok artifact options).
  Context {D : Type} (clear : D -> outcome unit).

Notation spec := (spec artifact io alloc options clear).

Lemma spec_index_allocate (pre : yvex_file_cursor -> D -> Prop) count :
  releasable clear pre -> 0 < count <= 2 ^ 59 ->
  spec pre (on_cursor (name_index_allocate alloc options count))
    (cursor_only (fun slots b k => slots = replicate (Z.to_nat (index_slots count)) 0 /\ b = []
                    /\ k = owned_cost (index_slots count * SIZEOF_SLOT))).
Proof.
  intros Hrel Hc. pose proof (index_slots_bounds count Hc) as [_ Hb]. unfold SIZEOF_SLOT.
  eapply spec_ext with (p := on_cursor (
    _ ← reserve_owned options (index_slots count * 8); _ ← allocate alloc "failed to allocate GGUF identifier index";
    mret (replicate (Z.to_nat (index_slots count)) 0))).
  { intros [c d]. unfold name_index_allocate, SIZEOF_SLOT. replace (count =? 0) with false by lia.
    change (ULLONG_MAX / 2) with 9223372036854775807. replace (9223372036854775807 <? count) with false by lia.
    unfold on_cursor at 1 2. rewrite (so_bind_eq _ _ _ c (index_slots count)).
    - change (SIZE_MAX / 8) with 2305843009213693951. by replace (2305843009213693951 <? index_slots count) with false by lia.
    - unfold index_slots. rewrite (Z.mul_comm 2 count). change 8 with (2 ^ 3) at 1. apply index_capacity_run; lia. }
  eapply spec_same.
  { eapply spec_cursor_bind with (pre2 := fun _ _ d => clear d = Done tt).
    { apply spec_reserve; [done| |lia]. intros c d Hd. left. by eapply Hrel. }
    2:{ intros c c' d a d' b k _ Hd (-> & _) _. by eapply Hrel. }
    intros u1. eapply spec_cursor_bind with (pre2 := fun _ _ _ => True);
      [apply spec_allocate; left; by intros c d|intros u2; apply spec_cursor_ret|done]. }
  intros d a d' b k. unfold then_, cursor_only, nothing. split.
  - intros (u1 & d1 & b1 & k1 & b2 & k2 & (-> & -> & ->) & (u2 & d2 & b3 & k3 & b4 & k4 & (-> & -> & ->) &
      (-> & -> & -> & ->) & -> & ->) & -> & ->). split; [done|]. split; [done|]. split; [done|]. cost_eq.
  - intros (-> & -> & -> & ->). eexists tt, d, [], _, [], cost_zero. split; [done|]. split; [|split; [done|cost_eq]].
    eexists tt, d, [], cost_zero, [], cost_zero. split; [done|]. split; [done|]. split; [done|cost_eq].
Qed.

(** Inserting a name, then continuing: the name is new. *)
Lemma run_claim {B} d0 d1 (p : GD D unit) (q : unit -> GD D B) (names : list (list Z)) name R :
  clear d0 = Done tt ->
  (name ∈ names /\ forall c, exists c' st r, p (c, d0) = ((c', d0), Refuse st r) /\ recorded c' st)
  \/ (name ∉ names /\ forall c, p (c, d0) = ((c, d1), Done tt)) ->
  (name ∉ names -> run artifact io alloc options clear d1 (q tt) R) ->
  run artifact io alloc options clear d0 (p ≫= q) (fun a d' b k => name ∉ names /\ R a d' b k).
Proof.
  intros Hd [[Hin Hp]|[Hout Hp]] Hq.
  - split; [by intros d a d' b k []| |by intros _ c d a d' b k tail _ _ []].
    intros c d Hc ->. destruct (Hp c) as (c' & st & r & E & Hr). unfold mbind, so_bind. rewrite E. split; [by left|done].
  - eapply run_iff; [eapply run_object; [exact Hp|by apply Hq]|]. naive_solver.
Qed.

End Allocate.

(** Inserting the next name in a built index. *)
Lemma build_probe name_at names cap name :
  index_size cap -> zlen names < cap -> (forall i n, zget names i = Some n -> name_at i = Done n) ->
  let slots := index_build cap names in
  (exists i, zget names i = Some name
    /\ name_probe (S (length slots)) name_at slots name (name_index_start slots name) = Done (inl i))
  \/ (name ∉ names /\ exists slot,
       name_probe (S (length slots)) name_at slots name (name_index_start slots name) = Done (inr slot)
       /\ write_at slots slot (u64 (zlen names + 1)) = Done (index_build cap (names ++ [name]))).
Proof.
  intros Hc Hl Hat slots. destruct (index_build_ok cap names Hc ltac:(lia)) as [Hi Hz].
  destruct (probe_exact name_at names slots Hi ltac:(unfold slots; lia) Hat name) as [H|[Hout (e & He & Hr & E)]]; [by left|].
  right. split; [done|]. eexists. split; [exact E|]. pose proof (index_size_pos _ Hc). pose proof (zlen_nonneg names).
  rewrite u64_id by (unfold is_u64; lia). rewrite index_build_snoc.
  fold slots. rewrite <- (claimed_add slots name (zlen names + 1)
    (zset slots ((slot_home name_hash name (zlen slots) + e) mod zlen slots) (zlen names + 1)));
    [|apply (io_size _ _ Hi)|by exists e].
  unfold write_at. pose proof (Z.mod_pos_bound (slot_home name_hash name (zlen slots) + e) (zlen slots) ltac:(lia)).
  by replace (_ && _) with true by lia.
Qed.

(** ** Directories *)

(** A directory is a loop that reads records with distinct keys into a view. *)
Section Directory.
  Context (artifact : yvex_artifact) (io : Z -> list pread_answer) (alloc : Z -> bool).
  Context (options : yvex_gguf_reader_options).
  Context {D : Type} (clear : D -> outcome unit).
  Context {X : Type} (key : X -> list Z) (text : X -> list Z -> Prop) (record_cost : X -> cost).
  Context (record_cost_ok : forall x b, text x b -> cost_ok (record_cost x) /\ k_bytes (record_cost x) = zlen b).
  Context (good : X -> Prop) (text_good : forall x b, text x b -> good x).
  (** The object with the records [xs] read and [m] to come. *)
  Context (at_step : list X -> nat -> D).
  Context (at_step_inj : forall xs xs' m m', at_step xs m = at_step xs' m' -> zlen xs = zlen xs' -> xs = xs').
  Context (f : Z -> GD D unit) (count : Z).
  Context (Hstep : forall xs m, zlen xs + 1 + Z.of_nat m = count -> Forall good xs ->
    run artifact io alloc options clear (at_step xs (S m)) (f (zlen xs)) (fun _ d' b k => exists x,
      key x ∉ key <$> xs /\ text x b /\ k = record_cost x /\ d' = at_step (xs ++ [x]) m)).

Definition records_cost (xs : list X) : cost := foldr (fun x k => record_cost x ⊕ k) cost_zero xs.

Definition record_step (i : Z) (d d' : D) (b : list Z) (k : cost) : Prop :=
  exists xs x, zlen xs = i /\ d = at_step xs (Z.to_nat (count - i)) /\ key x ∉ key <$> xs /\ text x b
    /\ k = record_cost x /\ d' = at_step (xs ++ [x]) (Z.to_nat (count - (i + 1))).

Definition records_inv (i : Z) (d : D) : Prop :=
  exists xs, zlen xs = i /\ d = at_step xs (Z.to_nat (count - i)) /\ Forall good xs.

Lemma records_each :
  spec artifact io alloc options clear (fun _ d => records_inv 0 d) (so_each f (zseq count))
    (fun d _ d' b k => chain record_step (Z.to_nat count) 0 d d' b k).
Proof.
  apply (spec_each artifact io alloc options clear _ record_step (fun i _ d => records_inv i d)).
  - intros i Hi. apply spec_known.
    { intros d a d' b k (xs & x & _ & _ & _ & H & -> & _). by eapply record_cost_ok. }
    intros _ d (xs & <- & -> & Hgood).
    assert (Z.to_nat (count - zlen xs) = S (Z.to_nat (count - (zlen xs + 1)))) as En by lia.
    eapply run_iff; [rewrite En; apply Hstep; [lia|done]|]. intros [] d' b k. split.
    + intros (x & Hout & Hx & -> & ->). exists xs, x. done.
    + intros (xs' & x & Hz & E & Hout & Hx & -> & ->). apply at_step_inj in E; [|done]. subst xs'. eauto.
  - intros i c c' d d' b k Hi _ (xs & <- & -> & Hgood) (xs' & x & Hz & E & _ & Hx & _ & ->) _.
    apply at_step_inj in E; [|done]. subst xs'. exists (xs ++ [x]). rewrite zlen_snoc. split; [done|]. split; [done|].
    apply Forall_app. split; [done|]. apply Forall_singleton. by eapply text_good.
Qed.

Lemma records_chain n xs d' b k :
  count = zlen xs + Z.of_nat n -> NoDup (key <$> xs) ->
  chain record_step n (zlen xs) (at_step xs n) d' b k <->
  exists more texts, length more = n /\ NoDup (key <$> (xs ++ more)) /\ Forall2 text more texts
    /\ d' = at_step (xs ++ more) 0 /\ b = concat texts /\ k = records_cost more.
Proof.
  revert xs b k. induction n as [|n IH]; intros xs b k Hc Hnd; cbn [chain].
  - split.
    + intros (-> & -> & ->). exists [], []. by rewrite app_nil_r.
    + intros (more & texts & Hl & _ & Hf & -> & -> & ->). destruct more; [|done]. apply Forall2_nil_inv_l in Hf as ->.
      by rewrite app_nil_r.
  - assert (Z.to_nat (count - (zlen xs + 1)) = n) as En by lia. split.
    + intros (d1 & b1 & k1 & b2 & k2 & (xs' & x & Hz & E & Hout & Hx & -> & ->) & Hch & -> & ->).
      apply at_step_inj in E; [|done]. subst xs'. rewrite En, <- (zlen_snoc xs x) in Hch.
      apply IH in Hch as (more & texts & Hl & Hnd' & Hf & -> & -> & ->);
        [|rewrite zlen_snoc; lia|rewrite fmap_app; by apply nodup_snoc].
      exists (x :: more), (b1 :: texts). rewrite <- app_assoc in *. split; [cbn; lia|]. split; [done|].
      split; [by constructor|]. done.
    + intros (more & texts & Hl & Hnd' & Hf & -> & -> & ->). destruct more as [|x more]; [done|].
      apply Forall2_cons_inv_l in Hf as (b1 & texts' & Hx & Hf & ->).
      assert (NoDup (key <$> (xs ++ [x])) /\ key x ∉ key <$> xs) as [Hn1 Hout].
      { rewrite fmap_app in Hnd'. cbn in Hnd'. apply NoDup_app in Hnd' as (H1 & H2 & H3).
        assert (key x ∉ key <$> xs) by (intros H; apply (H2 _ H); by left). rewrite fmap_app. split; [by apply nodup_snoc|done]. }
      eexists _, b1, (record_cost x), (concat texts'), (records_cost more). split; [exists xs, x|].
      { split; [done|]. split; [f_equal; lia|]. do 3 (split; [done|]). reflexivity. }
      rewrite En, <- (zlen_snoc xs x). split; [|done]. apply IH; [rewrite zlen_snoc; lia|done|].
      exists more, texts'. rewrite <- app_assoc. split; [cbn in Hl; lia|done].
Qed.

Lemma records_cost_ok xs texts :
  Forall2 text xs texts -> cost_ok (records_cost xs) /\ k_bytes (records_cost xs) = zlen (concat texts).
Proof using record_cost_ok.
  induction 1 as [|x b xs texts Hx _ [IH1 IH2]]; [done|]. apply record_cost_ok in Hx as [H1 H2].
  cbn [records_cost foldr concat]. fold (records_cost xs). split; [auto with yvex|]. rewrite zlen_app. cbn. lia.
Qed.

Lemma run_directory :
  0 <= count ->
  run artifact io alloc options clear (at_step [] (Z.to_nat count)) (so_each f (zseq count))
    (fun _ d' b k => exists xs texts, zlen xs = count /\ NoDup (key <$> xs) /\ Forall2 text xs texts
       /\ d' = at_step xs 0 /\ b = concat texts /\ k = records_cost xs).
Proof.
  intros Hc. eapply run_iff.
  - eapply known_spec; [apply records_each|]. intros c. exists []. by rewrite Z.sub_0_r.
  - intros [] d' b k. change 0 with (zlen (@nil X)) at 1.
    rewrite (records_chain (Z.to_nat count) [] d' b k) by (rewrite ?zlen_nil; lia || constructor).
    unfold zlen. split; intros (xs & texts & Hl & H); exists xs, texts; (split; [lia|exact H]).
Qed.

End Directory.
