(* ===== verification/GgufMetadata.v ===== *)
(** * GgufMetadata: the header and the metadata of a GGUF file

    Specifications of the first three stages of the reader: the header, the typed
    metadata, and the alignment derived from it.  The texts, the costs and the
    resulting views are functions of the list of keys and values. *)

From Stdlib Require Import ZArith Lia Bool.
From stdpp Require Import base list option numbers strings sets.
From S2P Require Import Prelude Core Words NameIndex Utf8 Qtype Artifact GgufReader GgufSpec GgufText GgufValues GgufIndex.

(** ** Releasing a view *)

Lemma eachO_ext {A} (f g : A -> outcome unit) l : (forall x, x ∈ l -> f x = g x) -> eachO f l = eachO g l.
Proof.
  intros H. unfold eachO. revert H. induction l as [|x l IH]; intros H; cbn; [done|].
  rewrite (H x) by by left. destruct (g x) as [[]| |]; cbn; [|done|done]. apply IH. intros y Hy. apply H. by right.
Qed.

Lemma eachO_app {A} (f : A -> outcome unit) l k : eachO f (l ++ k) = (_ ← eachO f l; eachO f k).
Proof. unfold eachO. rewrite foldO_app. by destruct (foldO _ l tt) as [[]| |]. Qed.

Lemma eachO_read {A} (f : A -> outcome unit) (l : list A) :
  eachO (fun i => x ← read_at l i; f x) (zseq (zlen l)) = eachO f l.
Proof.
  induction l as [|x l IH] using rev_ind; [done|]. rewrite zlen_snoc, zseq_snoc by apply zlen_nonneg.
  rewrite !eachO_app, <- IH, (eachO_ext _ (fun i => x ← read_at l i; f x) (zseq (zlen l))).
  - destruct (eachO _ (zseq (zlen l))) as [[]| |]; [|done|done]. cbn. unfold read_at. rewrite zget_snoc_eq. cbn.
    by destruct (f x) as [[]| |].
  - intros i Hi%elem_of_zseq. unfold read_at. by rewrite zget_app_l by lia.
Qed.

(** The tables of a view have the sizes its header declares. *)
Definition tables_fit (g : yvex_gguf) : Prop :=
  (forall entries, g_metadata g = Some entries -> zlen entries = h_metadata_count (g_header g))
  /\ (forall tensors, g_tensors g = Some tensors -> zlen tensors = h_tensor_count (g_header g)).

Lemma gguf_clear_eq g :
  tables_fit g ->
  gguf_clear g = match g_metadata g with
                 | None => Done tt
                 | Some entries => eachO (fun e => gguf_value_clear (e_value e)) entries
                 end.
Proof.
  intros [Hm Ht]. unfold gguf_clear.
  assert (match g_tensors g with
          | None => Done tt
          | Some tensors => eachO (fun i => _ ← read_at tensors i; Done tt) (zseq (h_tensor_count (g_header g)))
          end = Done tt) as ->.
  { destruct (g_tensors g) as [ts|]; [|done]. rewrite <- (Ht ts), eachO_read by done. by apply eachO_Done, Forall_true. }
  destruct (g_metadata g) as [es|]; [|done]. rewrite <- (Hm es), eachO_read by done.
  by destruct (eachO _ es) as [[]| |].
Qed.

Lemma eachO_at {A} (f : A -> outcome unit) pre x post :
  Forall (fun x => f x = Done tt) pre -> Forall (fun x => f x = Done tt) post -> eachO f (pre ++ x :: post) = f x.
Proof.
  intros H1%eachO_Done H2%eachO_Done. rewrite eachO_app, H1. unfold eachO in *. cbn. destruct (f x) as [[]| |]; cbn; [|done|done].
  by rewrite H2.
Qed.

(** ** The header *)

Definition header_text (tensors metadata : Z) : list Z :=
  le_bytes 4 YVEX_GGUF_MAGIC ++ le_bytes 4 YVEX_GGUF_SUPPORTED_VERSION ++ le_bytes 8 tensors ++ le_bytes 8 metadata.
Definition header_cost : cost := mk_cost YVEX_GGUF_HEADER_BYTES 4 0 0 0.
Definition header_of (tensors metadata : Z) : yvex_gguf_header :=
  mk_header YVEX_GGUF_SUPPORTED_VERSION metadata tensors.

(** A read of a word, and the cases of its result. *)
Ltac run_word := eapply run_cursor; [first [apply spec_u32|apply spec_u64]; [done|by intros ? ? ->]|].
Ltac known_object := intros ?; reflexivity.

(** ** Keys and entries *)

Lemma ascii_text_ok l : Forall (fun c => 0 <= c < 128) l -> text_ok l.
Proof.
  intros H. exists l. induction H as [|c l Hc _ (IH1 & IH2)]; [done|]. split.
  - constructor; [|done]. unfold scalar. lia.
  - change (c :: l = encode c ++ encode_all l). rewrite <- IH2. unfold encode. by replace (c <? 128) with true by lia.
Qed.

Lemma key_ascii key : key_text key -> Forall (fun c => 0 < c < 128) key.
Proof.
  assert (forall l, key_tail l -> Forall (fun c => 0 < c < 128) l) as H.
  { induction 1; unfold alphanumeric, letter in *; repeat first [apply Forall_nil_2|apply Forall_cons_2]; try done; lia. }
  intros (ch & l & -> & Hc & Hl). unfold letter in Hc. apply Forall_cons_2; [lia|auto].
Qed.

Lemma key_string_ok options key :
  (string_ok options YVEX_GGUF_MAX_KEY_LEN true true key /\ metadata_key_valid key = true)
  <-> (key_text key /\ zlen key <= YVEX_GGUF_MAX_KEY_LEN /\ zlen key <= max_string_bytes options).
Proof.
  rewrite key_valid_exact. unfold string_ok. split.
  - intros ((_ & _ & Hm & _ & Hl & _) & Hk). split; [done|]. split; [by apply Hl|done].
  - intros (Hk & Hl & Hm). split; [|done]. pose proof (key_ascii key Hk) as Ha.
    split; [apply ascii_text_ok; eapply Forall_impl; [exact Ha|cbn; lia]|].
    split; [eapply Forall_impl; [exact Ha|unfold is_u8; cbn; lia]|]. split; [done|].
    split; [intros _ ->; by destruct Hk as (? & ? & ? & _)|]. split; [done|].
    intros _ H. rewrite Forall_forall in Ha. specialize (Ha 0 H). lia.
Qed.

(** The value of the first entry with a key. *)
Fixpoint entry_find (entries : list (list Z * yvex_gguf_value)) (key : list Z) : option yvex_gguf_value :=
  match entries with
  | [] => None
  | (k, v) :: entries => if bool_decide (k = key) then Some v else entry_find entries key
  end.

Lemma value_text_type options levels type v b : value_text options levels type v b -> v_type v = type.
Proof.
  destruct levels, type; cbn; try done; try (by intros (? & ? & _ & _ & _ & ->)); try (by intros (? & -> & _));
    by intros (? & ? & ? & -> & _).
Qed.

Section Entries.
  Context (options : yvex_gguf_reader_options).

(** The text of an entry: the key, the code of the type and the value. *)
Definition entry_text (e : list Z * yvex_gguf_value) (b : list Z) : Prop :=
  key_text e.1 /\ zlen e.1 <= YVEX_GGUF_MAX_KEY_LEN /\ zlen e.1 <= max_string_bytes options
  /\ v_type e.2 <> VALUE_INVALID
  /\ exists bv, value_text options (Z.to_nat (max_array_depth options)) (v_type e.2) e.2 bv
       /\ b = string_text e.1 ++ le_bytes 4 (value_type_code (v_type e.2)) ++ bv.

Definition entry_cost (e : list Z * yvex_gguf_value) : cost := string_cost e.1 ⊕ (read_cost 4 ⊕ value_cost e.2).

Lemma entry_cost_ok e b : entry_text e b -> cost_ok (entry_cost e) /\ k_bytes (entry_cost e) = zlen b.
Proof.
  intros (_ & _ & _ & _ & bv & Hv%value_cost_ok & ->). pose proof (string_cost_ok e.1). pose proof (read_cost_ok 4).
  unfold entry_cost. rewrite !zlen_app, zlen_le_bytes. split; [naive_solver eauto with yvex lia|]. cbn in *. lia.
Qed.

(** An element of the metadata table, and the table while it is filled. *)
Definition stored (e : list Z * yvex_gguf_value) : yvex_gguf_metadata_entry := mk_entry (Some e.1) e.2.

Definition releasable_entries (entries : list (list Z * yvex_gguf_value)) : Prop :=
  Forall (fun e => gguf_value_clear e.2 = Done tt) entries.

End Entries.

Section Metadata.
  Context (artifact : yvex_artifact) (io : Z -> list pread_answer) (alloc : Z -> bool).
  Context (options : yvex_gguf_reader_options) (Hfile : file_ok artifact options).

Notation run := (run artifact io alloc options gguf_clear).

Lemma run_header g0 :
  g_metadata g0 = None -> g_tensors g0 = None ->
  run g0 (parse_header artifact io options) (fun _ g b k => exists tensors metadata,
    is_u64 tensors /\ is_u64 metadata /\ metadata <= max_metadata_entries options
    /\ tensors <= max_tensor_entries options /\ g = with_header (header_of tensors metadata) g0
    /\ b = header_text tensors metadata /\ k = header_cost).
Proof.
  intros Hm Ht. assert (forall h, gguf_clear (with_header h g0) = Done tt) as Hclear.
  { intros h. unfold gguf_clear, with_header. cbn. by rewrite Hm, Ht. }
  unfold parse_header, set_section, set_record. eapply run_iff.
  { apply run_near; [done|]. apply run_near; [done|].
    apply (run_object _ _ _ _ _ _ (with_header (mk_header 0 0 0) g0) _ tt); [known_object|].
    run_word. intros magic b1 k1 _. apply run_if; [apply Hclear|done|]. intros _.
    run_word. intros version b2 k2 _.
    apply (run_object _ _ _ _ _ _ (with_header (mk_header version 0 0) g0) _ tt); [known_object|].
    apply run_if; [apply Hclear|done|]. intros _. run_word. intros tensors b3 k3 _.
    apply (run_object _ _ _ _ _ _ (with_header (mk_header version 0 tensors) g0) _ tt); [known_object|].
    run_word. intros metadata b4 k4 _.
    apply (run_object _ _ _ _ _ _ (with_header (mk_header version metadata tensors) g0) _ tt); [known_object|].
    apply run_if; [apply Hclear|done|]. intros _. apply run_last. known_object. }
  intros [] g b k. unfold reads, header_text, header_of, header_cost, YVEX_GGUF_HEADER_BYTES. split.
  - intros (magic & b1 & k1 & b2 & k2 & (-> & _ & ->) & (G1 & version & b3 & k3 & b4 & k4 & (-> & _ & ->) &
      (G2 & tensors & b5 & k5 & b6 & k6 & (-> & Ht' & ->) & (metadata & b7 & k7 & b8 & k8 & (-> & Hm' & ->) &
      (G3 & _ & -> & -> & ->) & -> & ->) & -> & ->) & -> & ->) & -> & ->).
    bool_hyps. assert (magic = YVEX_GGUF_MAGIC) as -> by lia. assert (version = YVEX_GGUF_SUPPORTED_VERSION) as -> by lia.
    exists tensors, metadata. rewrite app_nil_r. do 5 (split; [done || lia|]). split; [done|cost_eq].
  - intros (tensors & metadata & Ht' & Hm' & Hl1 & Hl2 & -> & -> & ->).
    assert (is_u32 YVEX_GGUF_MAGIC /\ is_u32 YVEX_GGUF_SUPPORTED_VERSION) as [Hu1 Hu2] by (by unfold is_u32).
    eexists YVEX_GGUF_MAGIC, _, _, _, _. split; [done|]. split; [|split; [reflexivity|]].
    { split; [done|]. eexists YVEX_GGUF_SUPPORTED_VERSION, _, _, _, _. split; [done|]. split; [|split; reflexivity].
      split; [done|]. eexists tensors, _, _, _, _. split; [done|]. split; [|split; reflexivity].
      eexists metadata, _, _, _, _. split; [done|]. split; [|split; [symmetry; apply app_nil_r|reflexivity]].
      split; [lia|]. done. }
    cost_eq.
Qed.

(** ** Entries *)

(** The view while its metadata is read. *)
Definition metadata_state (g0 : yvex_gguf) (slots : list Z) (table : list yvex_gguf_metadata_entry) : yvex_gguf :=
  with_metadata_index slots (with_metadata (Some table) g0).

(** The table with [entries] complete, [x] being read and [m] elements to come. *)
Definition table_at (entries : list (list Z * yvex_gguf_value)) (x : yvex_gguf_metadata_entry) (m : nat)
    : list yvex_gguf_metadata_entry := (stored <$> entries) ++ x :: replicate m metadata_entry_zero.

Section Entry.
  Context (g0 : yvex_gguf) (cap : Z) (entries : list (list Z * yvex_gguf_value)) (m : nat).
  Context (Htensors : g_tensors g0 = None).
  Context (Hcount : h_metadata_count (g_header g0) = zlen entries + 1 + Z.of_nat m).
  Context (Hcap : index_size cap) (Hroom : zlen entries < cap) (Hclear : releasable_entries entries).

Let i := zlen entries.
Let keys := entries.*1.

Lemma zlen_keys : zlen keys = i.
Proof. unfold keys, i, zlen. by rewrite length_fmap. Qed.

Lemma state_clear slots x : gguf_clear (metadata_state g0 slots (table_at entries x m)) = gguf_value_clear (e_value x).
Proof.
  rewrite gguf_clear_eq.
  - cbn. unfold table_at. apply (eachO_at (fun e => gguf_value_clear (e_value e))); [|by apply Forall_replicate]. apply Forall_fmap. done.
  - split; cbn; [|by rewrite Htensors]. intros t [= <-]. unfold table_at.
    rewrite zlen_app, zlen_cons, zlen_replicate. unfold zlen in *. rewrite length_fmap. lia.
Qed.

Lemma table_get x : zget (table_at entries x m) i = Some x.
Proof. unfold table_at, i. replace (zlen entries) with (zlen (stored <$> entries)); [apply zget_middle|]. unfold zlen. by rewrite length_fmap. Qed.

Lemma table_set x y : zset (table_at entries x m) i y = table_at entries y m.
Proof. unfold table_at, i. replace (zlen entries) with (zlen (stored <$> entries)); [apply zset_middle|]. unfold zlen. by rewrite length_fmap. Qed.

Lemma put_state slots x f c :
  put_metadata i f (c, metadata_state g0 slots (table_at entries x m))
  = ((c, metadata_state g0 slots (table_at entries (f x) m)), Done tt).
Proof.
  unfold put_metadata, mbind, so_bind, get_object, so_lift. cbn. unfold read_at. rewrite table_get. cbn.
  by rewrite table_set.
Qed.

Lemma name_at_state slots x j name :
  zget keys j = Some name -> metadata_name_at (metadata_state g0 slots (table_at entries x m)) j = Done name.
Proof.
  intros Hj. pose proof (zget_Some_range _ _ _ Hj) as Hr. rewrite zlen_keys in Hr. unfold metadata_name_at, metadata_at. cbn.
  unfold read_at, table_at. rewrite zget_app_l by (unfold i, zlen in *; rewrite length_fmap; lia).
  rewrite zget_lookup in Hj by (rewrite zlen_keys; lia).
  rewrite zget_lookup by (unfold i, zlen in *; rewrite ?length_fmap; lia).
  unfold keys in Hj. rewrite list_lookup_fmap in Hj. rewrite list_lookup_fmap. destruct (entries !! Z.to_nat j) as [[k v]|]; [|done].
  cbn in *. by simplify_eq.
Qed.

Lemma insert_state key v :
  let d := fun slots => metadata_state g0 slots (table_at entries (mk_entry (Some key) v) m) in
  gguf_clear (d (index_build cap keys)) = Done tt ->
  (key ∈ keys /\ forall c, exists c' st r, metadata_index_insert i (c, d (index_build cap keys))
     = ((c', d (index_build cap keys)), Refuse st r) /\ recorded c' st)
  \/ (key ∉ keys /\ forall c, metadata_index_insert i (c, d (index_build cap keys))
        = ((c, d (index_build cap (keys ++ [key]))), Done tt)).
Proof.
  intros d _. assert (forall s j n, zget keys j = Some n -> metadata_name_at (d s) j = Done n) as Hat
    by (intros s j n; apply name_at_state).
  assert (metadata_name_at (d (index_build cap keys)) i = Done key) as Ek.
  { unfold metadata_name_at, metadata_at. cbn. unfold read_at. by rewrite table_get. }
  destruct (build_probe (metadata_name_at (d (index_build cap keys))) keys cap key Hcap)
    as [(j & Hj & E)|(Hout & slot & E & Ew)]; [by rewrite zlen_keys|apply Hat| |].
  - left. split; [by eapply zget_elem_of|]. intros c. do 3 eexists.
    unfold metadata_index_insert, mbind, so_bind, get_object, so_lift.
    rewrite Ek. cbn [g_metadata_index d metadata_state with_metadata_index]. rewrite E. done.
  - right. split; [done|]. intros c. unfold metadata_index_insert, mbind, so_bind, get_object, so_lift.
    rewrite Ek. cbn [g_metadata_index d metadata_state with_metadata_index]. rewrite E.
    rewrite zlen_keys in Ew. by rewrite Ew.
Qed.

(** The value of an entry is parsed in place. *)
Lemma run_entry_value slots key v0 type :
  run (metadata_state g0 slots (table_at entries (mk_entry key v0) m)) (parse_entry_value artifact io alloc options i type)
    (fun _ g b k => exists v, value_text options (Z.to_nat (max_array_depth options)) type v b /\ k = value_cost v
       /\ g = metadata_state g0 slots (table_at entries (mk_entry key v) m)).
Proof.
  pose proof (spec_value artifact io alloc options Hfile (Z.to_nat (max_array_depth options)) type) as Hv.
  set (p := parse_value artifact io alloc options (Z.to_nat (max_array_depth options)) type) in *.
  set (d := fun v => metadata_state g0 slots (table_at entries (mk_entry key v) m)).
  assert (forall c, parse_entry_value artifact io alloc options i type (c, d v0)
    = match p (c, v0) with ((c', v), r) => ((c', d v), r) end) as E.
  { intros c. unfold parse_entry_value, metadata_at. cbn. unfold read_at. rewrite table_get. cbn. fold p.
    destruct (p (c, v0)) as [[c' v] r]. unfold d. by rewrite put_state. }
  assert (forall v, gguf_clear (d v) = gguf_value_clear v) as Hcl by (intros v; apply state_clear).
  split.
  - intros _ a g b k (v & Ht & -> & _). by eapply value_cost_ok.
  - intros c g Hc ->. fold (d v0). rewrite E. pose proof (sp_run _ _ _ _ _ _ _ _ Hv c v0 Hc I) as H. fold p in H.
    destruct (p (c, v0)) as [[c' v] [a|st r|f]]; [| |done].
    + destruct H as (Hc' & b & k & [Ht ->] & H). split; [done|]. exists b, (value_cost v). eauto 10.
    + unfold tolerable in *. by rewrite Hcl.
  - intros Hg c g [] g' b k tail Hc -> (v & Ht & -> & ->) Hr Hw. fold (d v0) (d v). rewrite E.
    destruct (sp_complete _ _ _ _ _ _ _ _ Hv Hg c v0 tt v b (value_cost v) tail Hc I (conj Ht eq_refl) Hr Hw)
      as (c' & E' & Hm). fold p in E'. rewrite E'. eauto.
Qed.

Lemma run_entry :
  run (metadata_state g0 (index_build cap keys) (table_at entries metadata_entry_zero m))
    (parse_metadata_entry artifact io alloc options i)
    (fun _ g b k => exists e, e.1 ∉ keys /\ entry_text options e b /\ k = entry_cost e
       /\ g = metadata_state g0 (index_build cap (keys ++ [e.1])) (table_at entries (stored e) m)).
Proof.
  unfold parse_metadata_entry, set_record. eapply run_iff.
  { apply run_near; [done|]. eapply run_cursor.
    { apply (spec_string artifact io alloc options Hfile gguf_clear (fun d => d = _)). intros d ->. apply state_clear. }
    intros key b1 k1 _. eapply run_object; [intros c; apply put_state|]. cbn [e_value].
    apply run_if; [apply state_clear|done|]. intros _.
    eapply run_claim; [apply state_clear|apply (insert_state key); apply state_clear|]. intros _.
    eapply run_cursor; [apply spec_u32; [done|]; intros c d ->; apply state_clear|]. intros raw b2 k2 (_ & Hraw & _).
    eapply run_cursor; [apply spec_type; [intros c d ->; apply state_clear|intros c d _; apply Hraw]|].
    intros type b3 k3 _. eapply run_object; [intros c; apply put_state|]. cbn [e_key]. apply run_entry_value. }
  intros [] g b k. unfold reads, entry_text, entry_cost. split.
  - intros (key & b1 & k1 & b2 & k2 & (-> & Hs & ->) & (Hv & Hout & raw & b3 & k3 & b4 & k4 & (-> & _ & ->) &
      (type & b5 & k5 & b6 & k6 & (Hi & <- & -> & ->) & (v & Ht & -> & ->) & -> & ->) & -> & ->) & -> & ->).
    exists (key, v). cbn [fst snd]. pose proof (value_text_type _ _ _ _ _ Ht) as <-.
    assert (metadata_key_valid key = true) as Hv' by (by destruct (metadata_key_valid key)).
    destruct (proj1 (key_string_ok options key) (conj Hs Hv')) as (? & ? & ?).
    split; [done|]. split; [by eauto 10|]. split; [by rewrite cost_zero_l|done].
  - intros ([key v] & Hout & (Hk & Hl & Hm & Hi & bv & Ht & ->) & -> & ->). cbn [fst snd] in *.
    destruct (proj2 (key_string_ok options key) (conj Hk (conj Hl Hm))) as [Hs Hv].
    exists key, (string_text key), (string_cost key). do 2 eexists. split; [done|]. split; [|split; reflexivity].
    split; [by rewrite Hv|]. split; [done|]. eexists (value_type_code (v_type v)), _, _, _, _.
    split; [split; [done|]; split; [|done]; pose proof (type_code_range _ Hi) as Hr; cbn in Hr; unfold is_u32; lia|].
    split; [|split; reflexivity]. exists (v_type v), [], cost_zero, bv, (value_cost v).
    split; [done|]. split; [by exists v|]. split; [done|by rewrite cost_zero_l].
Qed.

End Entry.

(** ** The table *)

(** [more] entries read after [entries], in the view. *)
Definition metadata_at_step (g0 : yvex_gguf) (cap : Z) (entries : list (list Z * yvex_gguf_value)) (m : nat) : yvex_gguf :=
  metadata_state g0 (index_build cap entries.*1) ((stored <$> entries) ++ replicate m metadata_entry_zero).

Definition entries_cost : list (list Z * yvex_gguf_value) -> cost := records_cost entry_cost.

Lemma metadata_step_inj g0 cap es es' m m' :
  metadata_at_step g0 cap es m = metadata_at_step g0 cap es' m' -> zlen es = zlen es' -> es = es'.
Proof.
  intros E%(f_equal g_metadata) Hz. injection E as E'.
  apply app_inj_1 in E' as [E' _]; [|rewrite !length_fmap; unfold zlen in Hz; lia].
  apply list_fmap_eq_inj in E'; [done|]. intros [k v] [k' v'] [= -> ->]. done.
Qed.

Lemma entry_text_clear e b : entry_text options e b -> gguf_value_clear e.2 = Done tt.
Proof. intros (_ & _ & _ & _ & bv & H & _). by eapply value_text_clear. Qed.

Lemma run_entries g0 cap count :
  g_tensors g0 = None -> h_metadata_count (g_header g0) = count -> index_size cap -> 0 <= count <= cap ->
  run (metadata_at_step g0 cap [] (Z.to_nat count)) (so_each (parse_metadata_entry artifact io alloc options) (zseq count))
    (fun _ g b k => exists entries texts, zlen entries = count /\ NoDup entries.*1
       /\ Forall2 (entry_text options) entries texts /\ g = metadata_at_step g0 cap entries 0
       /\ b = concat texts /\ k = entries_cost entries).
Proof.
  intros Ht Hcount Hcap Hle.
  apply (run_directory artifact io alloc options gguf_clear fst (entry_text options) entry_cost (entry_cost_ok options)
    (fun e => gguf_value_clear e.2 = Done tt) entry_text_clear (metadata_at_step g0 cap)); [apply metadata_step_inj| |lia].
  intros es m Hm Hgood. eapply run_iff; [apply (run_entry g0 cap es); [done|lia|done|lia|done]|].
  intros [] d' b k. unfold metadata_at_step, table_at.
  split; intros (e & H1 & H2 & H3 & ->); exists e; (do 3 (split; [done|])); by rewrite !fmap_app, <- app_assoc.
Qed.

(** The storage of a directory of [count] records: its table and its index. *)
Definition table_cost (size count : Z) : cost :=
  if count =? 0 then cost_zero else owned_cost (count * size) ⊕ owned_cost (index_slots count * SIZEOF_SLOT).

Definition metadata_view (g0 : yvex_gguf) (entries : list (list Z * yvex_gguf_value)) : yvex_gguf :=
  match entries with [] => g0 | _ => metadata_at_step g0 (index_slots (zlen entries)) entries 0 end.

Lemma run_metadata g0 :
  g_metadata g0 = None -> g_tensors g0 = None -> is_u64 (h_metadata_count (g_header g0)) ->
  run g0 (parse_metadata artifact io alloc options) (fun _ g b k => exists entries texts,
    zlen entries = h_metadata_count (g_header g0) /\ zlen entries <= SIZE_MAX / SIZEOF_METADATA_ENTRY
    /\ NoDup entries.*1 /\ Forall2 (entry_text options) entries texts /\ g = metadata_view g0 entries
    /\ b = concat texts /\ k = table_cost SIZEOF_METADATA_ENTRY (zlen entries) ⊕ entries_cost entries).
Proof.
  intros Hm Ht Hu. unfold parse_metadata. apply run_get. set (count := h_metadata_count (g_header g0)) in *.
  apply run_near; [done|]. change (SIZE_MAX / SIZEOF_METADATA_ENTRY) with 384307168202282325. unfold is_u64 in Hu.
  assert (gguf_clear g0 = Done tt) as Hc0 by (unfold gguf_clear; by rewrite Hm, Ht).
  assert (forall t, zlen t = count -> Forall (fun e => gguf_value_clear (e_value e) = Done tt) t ->
    gguf_clear (with_metadata (Some t) g0) = Done tt) as Hc1.
  { intros t Hz Hf. rewrite gguf_clear_eq; [by apply eachO_Done|]. split; cbn; [by intros ? [= <-]|by rewrite Ht]. }
  destruct (decide (count = 0)) as [E0|E0].
  { replace (count =? 0) with true by lia. eapply run_iff; [apply (run_last _ _ _ _ _ g0); known_object|].
    intros [] g b k. split.
    - intros (_ & -> & -> & ->). exists [], []. rewrite zlen_nil. do 3 (split; [done || lia || constructor|]).
      split; [constructor|]. done.
    - intros (es & texts & Hz & _ & _ & Hf & -> & -> & ->). destruct es; [|rewrite zlen_cons in Hz; pose proof (zlen_nonneg es); lia].
      apply Forall2_nil_inv_l in Hf as ->. done. }
  replace (count =? 0) with false by lia. eapply run_iff.
  { apply run_if; [done|done|]. intros G.
    eapply run_charge; [apply spec_reserve; [done|by intros c d ->; left|unfold SIZEOF_METADATA_ENTRY; lia]| |].
    { intros [] b k. split; [|by intros (_ & ?)]. by intros [-> ->]. }
    eapply run_charge; [apply spec_allocate; left; by intros c d ->| |].
    { intros [] b k. split; [|by intros (_ & ?)]. by intros [-> ->]. }
    eapply run_object; [known_object|].
    eapply run_charge; [apply spec_index_allocate; [done| |lia]|done|].
    { intros c d ->. apply Hc1; [rewrite zlen_replicate; lia|by apply Forall_replicate]. }
    apply run_get.
    eapply (run_object _ _ _ _ _ _ (metadata_at_step g0 (index_slots count) [] (Z.to_nat count))); [known_object|].
    apply run_end; [done|]. destruct (index_slots_bounds count ltac:(lia)) as [Hs Hb].
    apply (run_entries g0 (index_slots count) count); [done|done|done|lia]. }
  intros [] g b k. split.
  - intros (G & k1 & (k2 & (k3 & (es & texts & Hz & Hnd & Hf & -> & -> & ->) & ->) & ->) & ->).
    exists es, texts. rewrite Hz. do 4 (split; [done || lia|]). unfold metadata_view, table_cost.
    replace (count =? 0) with false by lia. split; [|split; [done|cost_eq]].
    destruct es; [rewrite zlen_nil in Hz; lia|by rewrite Hz].
  - intros (es & texts & Hz & Hmax & Hnd & Hf & -> & -> & ->). split; [lia|].
    unfold table_cost. rewrite Hz. replace (count =? 0) with false by lia.
    eexists. split; [|rewrite <- cost_add_assoc; reflexivity].
    eexists. split; [|symmetry; apply cost_zero_l].
    eexists. split; [|reflexivity]. exists es, texts. do 3 (split; [done|]). unfold metadata_view.
    split; [|done]. rewrite Hz. destruct es; [rewrite zlen_nil in Hz; lia|done].
Qed.

(** ** Lookups and the alignment *)

(** The view holds [entries], with their index. *)
Record holds_entries (g : yvex_gguf) (entries : list (list Z * yvex_gguf_value)) : Prop := {
  he_distinct : NoDup entries.*1;
  he_count : zlen entries <= 2 ^ 59;
  he_table : entries <> [] -> g_metadata g = Some (stored <$> entries);
  he_index : g_metadata_index g
    = match entries with [] => [] | _ => index_build (index_slots (zlen entries)) entries.*1 end
}.

Lemma entry_find_at entries i key v :
  NoDup entries.*1 -> zget entries i = Some (key, v) -> entry_find entries key = Some v.
Proof.
  intros Hnd Hi%zget_elem_of. induction entries as [|[k w] entries IH]; [by apply not_elem_of_nil in Hi|].
  cbn in *. apply NoDup_cons in Hnd as [Hk Hnd]. apply elem_of_cons in Hi as [[= -> ->]|Hi]; [by rewrite bool_decide_true|].
  rewrite bool_decide_false; [by apply IH|]. intros ->. apply Hk, list_elem_of_fmap. by exists (key, v).
Qed.

Lemma entry_find_absent entries key : key ∉ entries.*1 -> entry_find entries key = None.
Proof.
  induction entries as [|[k w] entries IH]; [done|]. cbn. intros [H1 H2]%not_elem_of_cons.
  rewrite bool_decide_false by done. by apply IH.
Qed.

Lemma metadata_find_spec g entries key :
  holds_entries g entries -> yvex_gguf_metadata_find g key = Done (entry_find entries key).
Proof.
  intros [Hnd Hmax Htable Hindex]. unfold yvex_gguf_metadata_find.
  destruct (decide (entries = [])) as [->|Hne]; [by rewrite Hindex|].
  assert (0 < zlen entries) as Hpos by (destruct entries; [done|rewrite zlen_cons; pose proof (zlen_nonneg entries); lia]).
  specialize (Htable Hne). destruct (index_slots_bounds (zlen entries) ltac:(lia)) as [Hs Hb].
  assert (zlen entries.*1 = zlen entries) as Hk by (unfold zlen; by rewrite length_fmap).
  assert (g_metadata_index g = index_build (index_slots (zlen entries)) entries.*1) as -> by (rewrite Hindex; by destruct entries).
  pose proof (index_build_ok (index_slots (zlen entries)) entries.*1 Hs ltac:(rewrite Hk; lia)) as [_ Hz]. rewrite Hz.
  replace (index_slots (zlen entries) =? 0) with false by (pose proof (index_size_pos _ Hs); lia).
  assert (forall i n, zget entries.*1 i = Some n -> exists v, zget entries i = Some (n, v)) as Hget.
  { intros i n Hn. pose proof (zget_Some_range _ _ _ Hn). rewrite zget_lookup, list_lookup_fmap in Hn by lia.
    rewrite zget_lookup by lia. destruct (entries !! Z.to_nat i) as [[k v]|]; [|done]. cbn in Hn. simplify_eq. eauto. }
  assert (forall i e, zget entries i = Some e -> metadata_at g i = Done (stored e)) as Hat.
  { intros i e He. pose proof (zget_Some_range _ _ _ He). unfold metadata_at. rewrite Htable. cbn. unfold read_at.
    rewrite zget_lookup in * by (unfold zlen in *; rewrite ?length_fmap; lia). rewrite list_lookup_fmap.
    rewrite zget_lookup in He by done. by rewrite He. }
  destruct (build_probe (metadata_name_at g) entries.*1 (index_slots (zlen entries)) key Hs)
    as [(i & Hi & ->)|(Hout & slot & -> & _)]; [lia| | |].
  - intros i n Hn. destruct (Hget i n Hn) as (v & Hv). unfold metadata_name_at. by rewrite (Hat _ _ Hv).
  - destruct (Hget i key Hi) as (v & Hv). cbn. rewrite (Hat _ _ Hv). cbn. by rewrite (entry_find_at _ _ _ _ Hnd Hv).
  - cbn. by rewrite entry_find_absent.
Qed.

(** The alignment of a file: that of its key, an unsigned 32-bit integer that is
    not zero, or the default. *)
Definition alignment_of (entries : list (list Z * yvex_gguf_value)) : option Z :=
  match entry_find entries general_alignment with
  | None => Some YVEX_GGUF_DEFAULT_ALIGNMENT
  | Some (mk_value VALUE_UINT32 (As_u64 alignment)) => if alignment =? 0 then None else Some alignment
  | Some _ => None
  end.

Lemma entry_find_text entries texts key v :
  Forall2 (entry_text options) entries texts -> entry_find entries key = Some v -> exists b, entry_text options (key, v) b.
Proof.
  induction 1 as [|[k w] b entries texts He _ IH]; [done|]. cbn. case_bool_decide as E; [|done].
  intros [= ->]. subst. eauto.
Qed.

Lemma alignment_range entries texts a :
  Forall2 (entry_text options) entries texts -> alignment_of entries = Some a -> 0 < a < 2 ^ 32.
Proof.
  intros Hf. unfold alignment_of. destruct (entry_find entries general_alignment) as [[type as_]|] eqn:E;
    [|intros [= <-]; unfold YVEX_GGUF_DEFAULT_ALIGNMENT; lia].
  destruct (entry_find_text _ _ _ _ Hf E) as (b & _ & _ & _ & _ & bv & Hv & _). cbn in Hv.
  destruct type; try done. destruct as_ as [word| | | | |]; try done.
  assert (scalar_text VALUE_UINT32 (mk_value VALUE_UINT32 (As_u64 word)) bv) as (bits & as_ & Hb & _ & Ha & Hx)
    by (by destruct (Z.to_nat (max_array_depth options))).
  cbn in Ha, Hb. simplify_eq. destruct (bits =? 0) eqn:E0; [done|]. intros [= <-]. lia.
Qed.

Lemma run_alignment g entries texts :
  holds_entries g entries -> Forall2 (entry_text options) entries texts ->
  (forall a, gguf_clear (with_alignment a g) = Done tt) ->
  run g derive_alignment (fun _ g' b k => b = [] /\ k = cost_zero
    /\ exists a, alignment_of entries = Some a /\ g' = with_alignment a g).
Proof.
  intros Hg Hf Hclear. unfold derive_alignment. apply run_get.
  eapply run_object; [known_object|]. eapply (run_object _ _ _ _ _ _ _ _ (entry_find entries general_alignment)).
  { intros c. unfold so_lift. rewrite (metadata_find_spec (with_alignment _ g) entries); [done|].
    destruct Hg. by split. }
  unfold alignment_of. destruct (entry_find entries general_alignment) as [v|] eqn:E.
  2:{ eapply run_iff; [apply run_last; known_object|]. intros [] g' b k. split.
      - intros (_ & -> & -> & ->). eauto.
      - intros (-> & -> & a & [= <-] & ->). done. }
  assert (forall (R : unit -> yvex_gguf -> list Z -> cost -> Prop), (forall a d b k, ~ R a d b k) ->
    run (with_alignment YVEX_GGUF_DEFAULT_ALIGNMENT g)
      (_ ← on_cursor (set_section SECTION_METADATA);
       on_cursor (cursor_fail PARSE_INVALID_ALIGNMENT SECTION_METADATA "general.alignment must be uint32 and nonzero")) R) as Hrefuse.
  { intros R HR. apply run_near; [done|]. apply run_fail; [apply Hclear|done|done]. }
  destruct v as [type as_]. cbn [yvex_gguf_value_type_of v_type].
  case_bool_decide as Et; cbn [negb].
  2:{ apply Hrefuse. intros a d b k (_ & _ & x & Hx & _). destruct type; done. }
  subst type. destruct (entry_find_text _ _ _ _ Hf E) as (b0 & _ & _ & _ & _ & bv & Hv & _). cbn in Hv.
  assert (scalar_text VALUE_UINT32 (mk_value VALUE_UINT32 as_) bv) as (bits & as1 & Hb & _ & Ha & Hx)
    by (by destruct (Z.to_nat (max_array_depth options))).
  cbn in Ha, Hb. simplify_eq. cbn [yvex_gguf_value_as_u64].
  replace (UINT_MAX <? bits) with false by (unfold UINT_MAX, UINT32_MAX; lia). rewrite orb_false_r.
  destruct (bits =? 0) eqn:E0.
  { apply Hrefuse. by intros a d b k (_ & _ & x & Hx & _). }
  rewrite u32_id by (unfold is_u32; lia). eapply run_iff; [apply run_last; known_object|].
  intros [] g' b k. split.
  - intros (_ & -> & -> & ->). eauto.
  - intros (-> & -> & a & [= <-] & ->). done.
Qed.

Lemma holds_metadata_view g0 entries :
  g_metadata_index g0 = [] -> NoDup entries.*1 -> zlen entries <= 2 ^ 59 -> holds_entries (metadata_view g0 entries) entries.
Proof.
  intros Hi Hnd Hz. destruct entries as [|e entries]; [by split|]. split; [done|done| |done].
  intros _. cbn. by rewrite app_nil_r.
Qed.

End Metadata.
