(* ===== verification/GgufTensors.v ===== *)
(** * GgufTensors: the tensor directory of a GGUF file

    Specifications of the last stage of the reader: the rows of the directory with
    their names, dimensions, element types and offsets, the boundary of the
    payloads, and the absolute range of every tensor. *)

From Stdlib Require Import ZArith Lia Bool.
From stdpp Require Import base list option numbers strings sets.
From S2P Require Import Prelude Core Words NameIndex Utf8 Qtype Artifact GgufReader GgufSpec GgufText GgufValues GgufIndex GgufMetadata.

(** ** Rows *)

Record tensor_row : Type := mk_row {
  r_name : list Z;
  r_dims : list Z;
  r_type : Z;
  r_offset : Z
}.

Definition row_text (r : tensor_row) : list Z :=
  string_text (r_name r) ++ le_bytes 4 (zlen (r_dims r)) ++ concat (le_bytes 8 <$> r_dims r)
  ++ le_bytes 4 (r_type r) ++ le_bytes 8 (r_offset r).

Definition dims_cost (n : Z) : cost := mk_cost (8 * n) n 0 0 0.

Definition row_cost (r : tensor_row) : cost :=
  string_cost (r_name r) ⊕ (read_cost 4 ⊕ (dims_cost (zlen (r_dims r)) ⊕ (read_cost 4 ⊕ read_cost 8))).

(** The bytes of the payload; zero for dimensions that are not admitted. *)
Definition row_bytes (r : tensor_row) : Z := default 0 (tensor_bytes (r_type r) (r_dims r)).

(** A row the reader admits: a name, dimensions whose payload has a size, and an
    offset that is aligned. *)
Record row_ok (options : yvex_gguf_reader_options) (alignment : Z) (r : tensor_row) : Prop := {
  ro_name : string_ok options YVEX_GGUF_MAX_TENSOR_NAME_LEN true true (r_name r);
  ro_dims : Forall is_u64 (r_dims r);
  ro_type : is_u32 (r_type r);
  ro_bytes : is_Some (tensor_bytes (r_type r) (r_dims r));
  ro_offset : is_u64 (r_offset r);
  ro_aligned : r_offset r mod alignment = 0
}.

Definition qtype_label (q : Z) : string :=
  match zget qtype_geometry q with Some g => geo_name g | None => "UNKNOWN" end.

(** The element of the tensor table, before its range is known. *)
Definition row_info (r : tensor_row) : yvex_gguf_tensor_info :=
  mk_tensor (Some (r_name r)) (zlen (r_dims r)) (r_dims r ++ replicate (4 - length (r_dims r)) 0) (r_type r)
    (qtype_label (r_type r)) (r_offset r) 0 (row_bytes r) 0 false.

Lemma tensor_bytes_dims q dims : is_Some (tensor_bytes q dims) -> 1 <= zlen dims <= 4 /\ Forall (fun d => 0 < d) dims.
Proof.
  unfold tensor_bytes. destruct (qtype_admitted q) as [g|]; cbn; [|by intros [? ?]]. destruct dims as [|w dims]; [by intros [? ?]|].
  destruct (_ && _) eqn:E; [|by intros [? ?]]. intros _. bool_hyps. unfold YVEX_GGUF_QTYPE_MAX_DIMS in *.
  pose proof (zlen_nonneg dims). rewrite zlen_cons in *. split; [lia|].
  apply Forall_forall. intros d Hd. rewrite forallb_forall in *. apply list_elem_of_In in Hd.
  match goal with H : forall x, _ |- _ => specialize (H d Hd) end. lia.
Qed.

Lemma row_bytes_nonneg r : 0 <= row_bytes r.
Proof.
  unfold row_bytes. destruct (tensor_bytes (r_type r) (r_dims r)) as [n|] eqn:E; [|done]. cbn.
  destruct (tensor_bytes_dims (r_type r) (r_dims r)) as [_ Hpos]; [by rewrite E|]. revert E. unfold tensor_bytes.
  pose proof (admission_exact (r_type r)) as Ha. destruct (qtype_admitted (r_type r)) as [g|]; cbn; [|done].
  destruct (r_dims r) as [|w dims]; [done|]. destruct (_ && _); [|done]. intros [= <-].
  apply Forall_cons_1 in Hpos as [Hw Hd]. destruct Ha as (_ & _ & Hb & Hs). pose proof (product_pos dims Hd).
  pose proof (Z.div_pos w (geo_block_size g)). apply Z.mul_nonneg_nonneg; [|lia]. apply Z.mul_nonneg_nonneg; lia.
Qed.

Lemma dims_text_length (dims : list Z) : zlen (concat (le_bytes 8 <$> dims)) = 8 * zlen dims.
Proof. induction dims as [|d dims IH]; [done|]. cbn [fmap list_fmap concat]. rewrite zlen_app, IH, zlen_le_bytes, zlen_cons. lia. Qed.

Lemma dims_cost_ok n : 0 <= n -> cost_ok (dims_cost n).
Proof. unfold cost_ok. cbn. lia. Qed.

Lemma row_cost_ok r : cost_ok (row_cost r) /\ k_bytes (row_cost r) = zlen (row_text r).
Proof.
  unfold row_cost, row_text. destruct (string_cost_ok (r_name r)) as [H1 H2]. split.
  - pose proof (dims_cost_ok (zlen (r_dims r)) (zlen_nonneg _)). pose proof (read_cost_ok 4). pose proof (read_cost_ok 8).
    repeat apply cost_add_ok; auto with lia.
  - rewrite !zlen_app, !zlen_le_bytes, dims_text_length. cbn [k_bytes cost_add read_cost dims_cost]. rewrite H2. lia.
Qed.

Section Tensors.
  Context (artifact : yvex_artifact) (io : Z -> list pread_answer) (alloc : Z -> bool).
  Context (options : yvex_gguf_reader_options) (Hfile : file_ok artifact options).

Notation run := (run artifact io alloc options gguf_clear).

(** ** Dimensions *)

Lemma run_dims {D} (clear : D -> outcome unit) d0 n before after :
  clear d0 = Done tt -> (n <= length after)%nat ->
  GgufSpec.run artifact io alloc options clear d0
    (on_cursor (parse_dims artifact io options n (zlen before) (before ++ after)))
    (fun out d b k => d = d0 /\ exists dims, length dims = n /\ Forall (fun d => 0 < d /\ is_u64 d) dims
       /\ out = before ++ dims ++ drop n after /\ b = concat (le_bytes 8 <$> dims) /\ k = dims_cost (Z.of_nat n)).
Proof.
  intros Hd. revert before after. induction n as [|n IH]; intros before after Hn.
  { eapply run_iff; [apply (run_last _ _ _ _ _ d0 d0); known_object|]. intros out d b k. split.
    - intros (-> & -> & -> & ->). split; [done|]. exists []. split; [done|]. split; [constructor|]. done.
    - intros (-> & dims & Hl & _ & -> & -> & ->). by destruct dims. }
  destruct after as [|x after]; [cbn in Hn; lia|].
  eapply spec_ext with (p := value ← on_cursor (cursor_read_u64le artifact io options "truncated GGUF tensor dimension");
    if value =? 0 then on_cursor (cursor_fail PARSE_INVALID_DIMENSION SECTION_TENSOR_INFO "GGUF tensor dimension is zero")
    else on_cursor (parse_dims artifact io options n (zlen (before ++ [value])) ((before ++ [value]) ++ after))).
  { intros s. cbn [parse_dims]. rewrite <- on_cursor_bind. unfold mbind, so_bind. destruct (on_cursor _ s) as [s' [value|st r|f]]; [|done|done].
    rewrite zlen_snoc, <- app_assoc. destruct s' as [c d]. cbn. rewrite write_at_middle. by destruct (value =? 0). }
  eapply run_iff.
  { eapply run_cursor; [apply spec_u64; [done|by intros c d ->]|]. intros value b k _.
    apply run_if; [done|done|]. intros _. apply IH. cbn in Hn. lia. }
  intros out d b k. unfold reads. split.
  - intros (value & b1 & k1 & b2 & k2 & (-> & Hu & ->) & (G & -> & dims & Hl & Hf & -> & -> & ->) & -> & ->).
    split; [done|]. exists (value :: dims). split; [cbn; lia|]. unfold is_u64 in Hu.
    split; [apply Forall_cons_2; [unfold is_u64; lia|done]|]. rewrite <- app_assoc. split; [done|]. split; [done|cost_eq].
  - intros (-> & dims & Hl & Hf & -> & -> & ->). destruct dims as [|value dims]; [done|].
    apply Forall_cons_1 in Hf as [[Hp Hu] Hf]. eexists value, _, _, _, _. split; [done|]. split; [|split; [reflexivity|]].
    + split; [lia|]. split; [done|]. exists dims. split; [cbn in Hl; lia|]. split; [done|].
      rewrite <- app_assoc. split; [done|]. split; reflexivity.
    + cost_eq.
Qed.

(** ** Rows *)

Definition storage_of (q : Z) (dims : list Z) (rank : Z) : yvex_gguf_qtype_storage_result :=
  match yvex_gguf_qtype_tensor_storage q (Some dims) rank with Done r => r | _ => storage_start q rank end.

Lemma qtype_name_label q : 0 <= q -> yvex_gguf_qtype_name q = Done (qtype_label q).
Proof. intros Hq. unfold yvex_gguf_qtype_name. by rewrite qtype_find_row. Qed.

Lemma storage_of_spec q dims rest :
  0 <= q -> Forall is_u64 dims ->
  yvex_gguf_qtype_tensor_storage q (Some (dims ++ rest)) (zlen dims) = Done (storage_of q (dims ++ rest) (zlen dims))
  /\ storage_answer q dims (storage_of q (dims ++ rest) (zlen dims)).
Proof. intros Hq Hd. destruct (storage_exact q dims rest Hq Hd) as (r & E & Ha). unfold storage_of. by rewrite E. Qed.

(** The storage of a row is computed on the padded dimensions. *)
Definition padded (dims : list Z) : list Z := dims ++ drop (length dims) [0; 0; 0; 0].

Lemma padded_ok q dims :
  0 <= q -> Forall is_u64 dims ->
  sr_status (storage_of q (padded dims) (zlen dims)) = STORAGE_OK <-> is_Some (tensor_bytes q dims).
Proof.
  intros Hq Hd. pose proof (proj2 (storage_of_spec q dims (drop (length dims) [0; 0; 0; 0]) Hq Hd)) as Ha.
  unfold storage_answer in Ha. destruct (tensor_bytes q dims); split; [eauto|by destruct Ha|done|by intros [? ?]].
Qed.

Lemma padded_info name q dims offset :
  0 <= q -> Forall is_u64 dims -> is_Some (tensor_bytes q dims) ->
  mk_tensor (Some name) (zlen dims) (padded dims) q (qtype_label q) offset 0
    (sr_total_bytes (storage_of q (padded dims) (zlen dims))) 0 false = row_info (mk_row name dims q offset).
Proof.
  intros Hq Hd Hs. pose proof (proj2 (storage_of_spec q dims (drop (length dims) [0; 0; 0; 0]) Hq Hd)) as Ha.
  unfold storage_answer in Ha. unfold row_info, row_bytes. cbn [r_name r_dims r_type r_offset].
  destruct (tensor_bytes q dims); [|by destruct Hs]. destruct Ha as (_ & Hb & _). fold (padded dims) in Hb. rewrite Hb.
  f_equal. unfold padded. f_equal. apply (drop_replicate _ 4).
Qed.

(** The view while its tensors are read. *)
Definition tensor_state (g0 : yvex_gguf) (slots : list Z) (table : list yvex_gguf_tensor_info) : yvex_gguf :=
  with_tensor_index slots (with_tensors (Some table) g0).

Definition rows_at (rows : list tensor_row) (x : yvex_gguf_tensor_info) (m : nat) : list yvex_gguf_tensor_info :=
  (row_info <$> rows) ++ x :: replicate m tensor_zero.

Lemma tensor_state_clear g0 slots table :
  tables_fit g0 -> gguf_clear g0 = Done tt -> zlen table = h_tensor_count (g_header g0) ->
  gguf_clear (tensor_state g0 slots table) = Done tt.
Proof.
  intros Hfit Hc Hz. rewrite gguf_clear_eq in Hc by done. rewrite gguf_clear_eq; [exact Hc|].
  destruct Hfit as [Hm _]. split; [exact Hm|]. by intros t [= <-].
Qed.

Section Row.
  Context (g0 : yvex_gguf) (cap : Z) (rows : list tensor_row) (m : nat).
  Context (Hfit : tables_fit g0) (Hclear : gguf_clear g0 = Done tt).
  Context (Hcount : h_tensor_count (g_header g0) = zlen rows + 1 + Z.of_nat m).
  Context (Hcap : index_size cap) (Hroom : zlen rows < cap).

Let i := zlen rows.
Let names := r_name <$> rows.

Lemma zlen_infos : zlen (row_info <$> rows) = i.
Proof. unfold i, zlen. by rewrite length_fmap. Qed.

Lemma rows_names_length : zlen names = i.
Proof. unfold names, i, zlen. by rewrite length_fmap. Qed.

Lemma rows_clear slots x : gguf_clear (tensor_state g0 slots (rows_at rows x m)) = Done tt.
Proof.
  apply tensor_state_clear; [done|done|]. unfold rows_at. rewrite zlen_app, zlen_cons, zlen_replicate, zlen_infos.
  unfold i. lia.
Qed.

Lemma rows_get x : zget (rows_at rows x m) i = Some x.
Proof. unfold rows_at. rewrite <- zlen_infos. apply zget_middle. Qed.

Lemma put_row slots x f c :
  put_tensor i f (c, tensor_state g0 slots (rows_at rows x m))
  = ((c, tensor_state g0 slots (rows_at rows (f x) m)), Done tt).
Proof.
  unfold put_tensor, mbind, so_bind, get_object, so_lift. cbn. unfold read_at. rewrite rows_get. cbn.
  unfold rows_at. rewrite <- zlen_infos. by rewrite zset_middle.
Qed.

Lemma tensor_name_state slots x j name :
  zget names j = Some name -> tensor_name_at (tensor_state g0 slots (rows_at rows x m)) j = Done name.
Proof.
  intros Hj. pose proof (zget_Some_range _ _ _ Hj) as Hr. rewrite rows_names_length in Hr. unfold tensor_name_at, tensor_at. cbn.
  unfold read_at, rows_at. rewrite zget_app_l by (rewrite zlen_infos; lia).
  rewrite zget_lookup in Hj by (rewrite rows_names_length; lia). rewrite zget_lookup by (rewrite zlen_infos; lia).
  unfold names in Hj. rewrite list_lookup_fmap in Hj. rewrite list_lookup_fmap.
  destruct (rows !! Z.to_nat j) as [r|]; [|done]. cbn in *. by simplify_eq.
Qed.

Lemma insert_row x name :
  t_name x = Some name ->
  let d := fun slots => tensor_state g0 slots (rows_at rows x m) in
  (name ∈ names /\ forall c, exists c' st r, tensor_index_insert i (c, d (index_build cap names))
     = ((c', d (index_build cap names)), Refuse st r) /\ recorded c' st)
  \/ (name ∉ names /\ forall c, tensor_index_insert i (c, d (index_build cap names))
        = ((c, d (index_build cap (names ++ [name]))), Done tt)).
Proof.
  intros Hname d. assert (forall s j n, zget names j = Some n -> tensor_name_at (d s) j = Done n) as Hat
    by (intros s j n; apply tensor_name_state).
  assert (tensor_name_at (d (index_build cap names)) i = Done name) as Ek.
  { unfold tensor_name_at, tensor_at. cbn. unfold read_at. rewrite rows_get. cbn. by rewrite Hname. }
  destruct (build_probe (tensor_name_at (d (index_build cap names))) names cap name Hcap)
    as [(j & Hj & E)|(Hout & slot & E & Ew)]; [by rewrite rows_names_length|apply Hat| |].
  - left. split; [by eapply zget_elem_of|]. intros c. do 3 eexists.
    unfold tensor_index_insert, mbind, so_bind, get_object, so_lift.
    rewrite Ek. cbn [g_tensor_index d tensor_state with_tensor_index]. rewrite E. done.
  - right. split; [done|]. intros c. unfold tensor_index_insert, mbind, so_bind, get_object, so_lift.
    rewrite Ek. cbn [g_tensor_index d tensor_state with_tensor_index]. rewrite E.
    rewrite rows_names_length in Ew. by rewrite Ew.
Qed.

Lemma run_row :
  run (tensor_state g0 (index_build cap names) (rows_at rows tensor_zero m)) (parse_tensor artifact io alloc options i)
    (fun _ g b k => exists r, r_name r ∉ names /\ row_ok options (g_alignment g0) r /\ b = row_text r /\ k = row_cost r
       /\ g = tensor_state g0 (index_build cap (names ++ [r_name r])) (rows_at rows (row_info r) m)).
Proof.
  unfold parse_tensor. eapply run_iff.
  { apply run_near; [done|]. eapply run_cursor.
    { apply (spec_string artifact io alloc options Hfile gguf_clear (fun d => d = _)). intros d ->. apply rows_clear. }
    intros name b1 k1 _. eapply run_object; [intros c; apply put_row|]. cbn [tensor_zero t_rank t_dims t_ggml_type
      t_ggml_type_name t_relative_offset t_absolute_offset t_storage_bytes t_absolute_end_offset t_range_addressable].
    eapply run_claim; [apply rows_clear|by apply (insert_row _ name)|]. intros _.
    eapply run_cursor; [apply spec_u32; [done|]; intros c d ->; apply rows_clear|]. intros rank b2 k2 (_ & Hrank & _).
    apply run_if; [apply rows_clear|done|]. intros G. bool_hyps. unfold YVEX_GGUF_MAX_DIMS in *.
    eapply run_cursor; [apply run_only, (run_dims gguf_clear _ _ []); [apply rows_clear|cbn; unfold is_u32 in *; lia]|].
    intros out b3 k3 Hout.
    eapply run_cursor; [apply spec_u32; [done|]; intros c d ->; apply rows_clear|]. intros type b4 k4 (_ & Htype & _).
    eapply (run_object _ _ _ _ _ _ _ _ (qtype_label type));
      [intros c; unfold so_lift; rewrite qtype_name_label by apply Htype; reflexivity|].
    eapply (run_object _ _ _ _ _ _ _ _ (storage_of type out rank)).
    { intros c. unfold so_lift. destruct Hout as (dims & Hl & Hd & -> & _). cbn [app].
      assert (zlen dims = rank) as <- by (unfold zlen; rewrite Hl; unfold is_u32 in Hrank; lia).
      rewrite (proj1 (storage_of_spec type dims _ (proj1 Htype) ltac:(eapply Forall_impl; [exact Hd|cbn; tauto]))). reflexivity. }
    eapply run_guard; [apply run_near; [done|]; apply run_fail; [apply rows_clear| |done]|].
    { by destruct (sr_status (storage_of type out rank)). }
    intros Hok. apply run_near; [done|].
    eapply run_cursor; [apply spec_u64; [done|]; intros c d ->; apply rows_clear|]. intros relative b5 k5 _.
    eapply run_object; [intros c; apply put_row|]. cbn [t_name t_absolute_offset t_absolute_end_offset t_range_addressable].
    apply run_get. apply run_if; [apply rows_clear|done|]. intros _. apply run_last. known_object. }
  intros [] g b k. unfold reads, row_text, row_cost. split.
  - intros (name & b1 & k1 & b2 & k2 & (-> & Hs & ->) & (Hout & rank & b3 & k3 & b4 & k4 & (-> & Hrank & ->) &
      (G & out & b5 & k5 & b6 & k6 & (dims & Hl & Hd & -> & -> & ->) & (type & b7 & k7 & b8 & k8 & (-> & Ht & ->) &
      (Hok & relative & b9 & k9 & b10 & k10 & (-> & Hr & ->) & (Ha & _ & -> & -> & ->) & -> & ->) & -> & ->) & -> & ->)
      & -> & ->) & -> & ->).
    assert (zlen dims = rank) as <- by (unfold zlen; rewrite Hl; unfold is_u32 in Hrank; lia).
    rewrite to_nat_zlen, app_nil_l in *. fold (padded dims) (zlen dims) in *.
    assert (Forall is_u64 dims) as Hd' by (eapply Forall_impl; [exact Hd|cbn; tauto]).
    assert (is_Some (tensor_bytes type dims)) as Hb.
    { apply padded_ok; [apply Ht|done|]. by apply negb_false_iff, bool_decide_eq_true in Hok. }
    exists (mk_row name dims type relative). cbn [r_name r_dims r_type r_offset].
    split; [done|]. split; [split; cbn; try done; cbn in Ha; lia|]. rewrite app_nil_r. split; [done|].
    split; [cost_eq|]. rewrite padded_info by (done || apply Ht). done.
  - intros ([name dims type relative] & Hout & [Hs Hd Ht Hb Hr Ha] & -> & -> & ->). cbn [r_name r_dims r_type r_offset] in *.
    destruct (tensor_bytes_dims type dims Hb) as [Hl Hpos].
    exists name, (string_text name), (string_cost name). do 2 eexists. split; [done|]. split; [|split; reflexivity].
    split; [done|]. eexists (zlen dims), _, _, _, _. split; [split; [done|]; split; [unfold is_u32; lia|done]|].
    split; [|split; reflexivity]. split; [unfold YVEX_GGUF_MAX_DIMS; lia|].
    eexists (padded dims), _, _, _, _. split; [|split; [|split; reflexivity]].
    { exists dims. rewrite to_nat_zlen. split; [done|]. split; [|done]. apply Forall_and. by split. }
    eexists type, _, _, _, _. split; [done|]. split; [|split; reflexivity].
    split; [apply negb_false_iff, bool_decide_eq_true, padded_ok; [apply Ht|done|done]|].
    eexists relative, _, _, _, _. split; [done|]. split; [|split; [symmetry; apply app_nil_r|symmetry; apply cost_zero_r]].
    split; [cbn; lia|]. rewrite padded_info by (done || apply Ht). done.
Qed.

End Row.

(** ** The table *)

Definition tensors_at_step (g0 : yvex_gguf) (cap : Z) (rows : list tensor_row) (m : nat) : yvex_gguf :=
  tensor_state g0 (index_build cap (r_name <$> rows)) ((row_info <$> rows) ++ replicate m tensor_zero).

Lemma row_info_inj r r' : row_info r = row_info r' -> r = r'.
Proof.
  destruct r as [name dims q o], r' as [name' dims' q' o']. unfold row_info. cbn. intros E. injection E as -> Hz Hd -> _ -> _.
  f_equal. unfold zlen in Hz. apply app_inj_1 in Hd as [-> _]; [done|lia].
Qed.

Lemma tensors_step_inj g0 cap rows rows' m m' :
  tensors_at_step g0 cap rows m = tensors_at_step g0 cap rows' m' -> zlen rows = zlen rows' -> rows = rows'.
Proof.
  intros E%(f_equal g_tensors) Hz. injection E as E'. apply app_inj_1 in E' as [E' _]; [|rewrite !length_fmap; unfold zlen in Hz; lia].
  apply list_fmap_eq_inj in E'; [done|]. intros r r'. apply row_info_inj.
Qed.

Definition rows_cost : list tensor_row -> cost := records_cost row_cost.

Lemma run_rows g0 cap count :
  tables_fit g0 -> gguf_clear g0 = Done tt -> h_tensor_count (g_header g0) = count -> index_size cap -> 0 <= count <= cap ->
  run (tensors_at_step g0 cap [] (Z.to_nat count)) (so_each (parse_tensor artifact io alloc options) (zseq count))
    (fun _ g b k => exists rows, zlen rows = count /\ NoDup (r_name <$> rows)
       /\ Forall (row_ok options (g_alignment g0)) rows /\ g = tensors_at_step g0 cap rows 0
       /\ b = concat (row_text <$> rows) /\ k = rows_cost rows).
Proof.
  intros Hfit Hclear Hcount Hcap Hle. eapply run_iff.
  - apply (run_directory artifact io alloc options gguf_clear r_name
      (fun r b => row_ok options (g_alignment g0) r /\ b = row_text r) row_cost ltac:(intros r b [_ ->]; apply row_cost_ok)
      (fun _ => True) ltac:(done) (tensors_at_step g0 cap)); [apply tensors_step_inj| |lia].
    intros rows m Hm _. eapply run_iff; [apply (run_row g0 cap rows); [done|done|lia|done|lia]|].
    intros [] d' b k. unfold tensors_at_step, rows_at.
    split; intros (r & H1 & H2 & H3 & H4); exists r; (split; [done|]); [destruct H4 as [-> ->]|destruct H2 as [? ->]; subst d'];
      rewrite !fmap_app, <- app_assoc; done.
  - intros [] g b k. split.
    + intros (rows & texts & Hz & Hnd & Hf & -> & -> & ->). exists rows. do 2 (split; [done|]).
      assert (Forall (row_ok options (g_alignment g0)) rows /\ texts = row_text <$> rows) as [Hrows ->]; [|done].
      clear -Hf. induction Hf as [|r b rows texts [Hr ->] _ [IH1 ->]]; [done|]. split; [by constructor|done].
    + intros (rows & Hz & Hnd & Hf & -> & -> & ->). exists rows, (row_text <$> rows). do 2 (split; [done|]).
      split; [|done]. apply Forall2_fmap_r, Forall_Forall2_diag. eapply Forall_impl; [exact Hf|done].
Qed.

(** ** The two halves of the stage *)

(** The directory, then the placement of the payloads. *)
Definition tensor_front (count : Z) : GD yvex_gguf unit :=
  g ← get_object;
  _ ← on_cursor (set_section SECTION_TENSOR_INFO);
  if count =? 0 then mret tt else
  if SIZE_MAX / SIZEOF_TENSOR_INFO <? count
  then on_cursor (cursor_fail PARSE_INVALID_COUNT SECTION_RESOURCE "GGUF tensor count exceeds address space") else
  _ ← on_cursor (reserve_owned options (count * SIZEOF_TENSOR_INFO));
  _ ← on_cursor (allocate alloc "failed to allocate GGUF tensor directory");
  _ ← set_object (with_tensors (Some (replicate (Z.to_nat count) tensor_zero)) g);
  slots ← on_cursor (name_index_allocate alloc options count);
  g ← get_object;
  _ ← set_object (with_tensor_index slots g);
  so_each (parse_tensor artifact io alloc options) (zseq count).

Definition place_rows (count : Z) : GD yvex_gguf unit :=
  g ← get_object;
  if a_size artifact <? g_tensor_data_offset g
  then on_cursor (cursor_fail PARSE_INCOMPLETE_DIRECTORY SECTION_RANGE
                    "GGUF tensor-data boundary exceeds file size") else
  _ ← so_each (place_tensor artifact) (zseq count);
  on_cursor (set_record ULLONG_MAX).

Definition tensor_tail (count : Z) : GD yvex_gguf unit :=
  _ ← on_cursor set_directory_end;
  if count =? 0 then place_data else
  _ ← on_cursor (set_section SECTION_RANGE);
  _ ← on_cursor (set_record ULLONG_MAX);
  _ ← place_data;
  place_rows count.

Lemma gd_bind_assoc {D A B C} (p : GD D A) (q : A -> GD D B) (r : B -> GD D C) s :
  ((p ≫= q) ≫= r) s = (p ≫= fun a => q a ≫= r) s.
Proof. unfold mbind, so_bind. by destruct (p s) as [s' [a|st m|f]]. Qed.

Lemma gd_bind_ext {D A B} (p : GD D A) (q r : A -> GD D B) s :
  (forall a s, q a s = r a s) -> (p ≫= q) s = (p ≫= r) s.
Proof. intros H. unfold mbind, so_bind. destruct (p s) as [s' [a|st m|f]]; [apply H|done|done]. Qed.

Lemma parse_tensors_split c g :
  parse_tensors artifact io alloc options (c, g)
  = (tensor_front (h_tensor_count (g_header g)) ≫= fun _ => tensor_tail (h_tensor_count (g_header g))) (c, g).
Proof.
  unfold parse_tensors, tensor_front, tensor_tail. rewrite gd_bind_assoc.
  rewrite !(so_bind_eq get_object _ (c, g) (c, g) g) by done. cbv zeta.
  set (count := h_tensor_count (g_header g)). rewrite gd_bind_assoc. apply gd_bind_ext. intros u1 s1.
  destruct (count =? 0); [done|]. destruct (_ <? count); [by destruct s1|].
  do 6 (etransitivity; [|symmetry; apply gd_bind_assoc]; apply gd_bind_ext; intros ? ?). done.
Qed.

(** ** The directory *)

Definition tensors_view (g0 : yvex_gguf) (rows : list tensor_row) : yvex_gguf :=
  match rows with [] => g0 | _ => tensors_at_step g0 (index_slots (zlen rows)) rows 0 end.

Lemma run_front g0 :
  tables_fit g0 -> gguf_clear g0 = Done tt -> g_tensors g0 = None -> is_u64 (h_tensor_count (g_header g0)) ->
  run g0 (tensor_front (h_tensor_count (g_header g0))) (fun _ g b k => exists rows,
    zlen rows = h_tensor_count (g_header g0) /\ zlen rows <= SIZE_MAX / SIZEOF_TENSOR_INFO
    /\ NoDup (r_name <$> rows) /\ Forall (row_ok options (g_alignment g0)) rows /\ g = tensors_view g0 rows
    /\ b = concat (row_text <$> rows) /\ k = table_cost SIZEOF_TENSOR_INFO (zlen rows) ⊕ rows_cost rows).
Proof.
  intros Hfit Hc0 Ht Hu. unfold tensor_front. apply run_get. set (count := h_tensor_count (g_header g0)) in *.
  apply run_near; [done|]. change (SIZE_MAX / SIZEOF_TENSOR_INFO) with 164703072086692425. unfold is_u64 in Hu.
  destruct (decide (count = 0)) as [E0|E0].
  { replace (count =? 0) with true by lia. eapply run_iff; [apply (run_last _ _ _ _ _ g0); known_object|].
    intros [] g b k. split.
    - intros (_ & -> & -> & ->). exists []. rewrite zlen_nil. do 4 (split; [done || lia || constructor|]). done.
    - intros (rows & Hz & _ & _ & _ & -> & -> & ->).
      destruct rows as [|r rows]; [done|]. rewrite zlen_cons in Hz. pose proof (zlen_nonneg rows). lia. }
  replace (count =? 0) with false by lia. eapply run_iff.
  { apply run_if; [done|done|]. intros G.
    eapply run_charge; [apply spec_reserve; [done|by intros c d ->; left|unfold SIZEOF_TENSOR_INFO; lia]| |].
    { intros [] b k. split; [|by intros (_ & ?)]. by intros [-> ->]. }
    eapply run_charge; [apply spec_allocate; left; by intros c d ->| |].
    { intros [] b k. split; [|by intros (_ & ?)]. by intros [-> ->]. }
    eapply run_object; [known_object|].
    eapply run_charge; [apply spec_index_allocate; [done| |lia]|done|].
    { intros c d ->. apply (tensor_state_clear g0 (g_tensor_index g0)); [done|done|]. rewrite zlen_replicate. lia. }
    apply run_get.
    eapply (run_object _ _ _ _ _ _ (tensors_at_step g0 (index_slots count) [] (Z.to_nat count))); [known_object|].
    destruct (index_slots_bounds count ltac:(lia)) as [Hs Hb].
    apply (run_rows g0 (index_slots count) count); [done|done|done|done|lia]. }
  intros [] g b k. split.
  - intros (G & k1 & (k2 & (k3 & (rows & Hz & Hnd & Hf & -> & -> & ->) & ->) & ->) & ->).
    exists rows. rewrite Hz. do 4 (split; [done || lia|]). unfold tensors_view, table_cost.
    replace (count =? 0) with false by lia. split; [|split; [done|cost_eq]].
    destruct rows; [rewrite zlen_nil in Hz; lia|by rewrite Hz].
  - intros (rows & Hz & Hmax & Hnd & Hf & -> & -> & ->). split; [lia|].
    unfold table_cost. rewrite Hz. replace (count =? 0) with false by lia.
    eexists. split; [|rewrite <- cost_add_assoc; reflexivity].
    eexists. split; [|symmetry; apply cost_zero_l].
    eexists. split; [|reflexivity]. exists rows. do 3 (split; [done|]). unfold tensors_view.
    split; [|done]. rewrite Hz. destruct rows; [rewrite zlen_nil in Hz; lia|done].
Qed.

(** ** The placement of the payloads *)

(** The next multiple of the alignment. *)
Definition aligned (offset alignment : Z) : Z :=
  offset + (if offset mod alignment =? 0 then 0 else alignment - offset mod alignment).

(** The element of the tensor table with its range. *)
Definition placed_info (data size : Z) (r : tensor_row) : yvex_gguf_tensor_info :=
  let end_ := data + r_offset r + row_bytes r in
  mk_tensor (Some (r_name r)) (zlen (r_dims r)) (r_dims r ++ replicate (4 - length (r_dims r)) 0) (r_type r)
    (qtype_label (r_type r)) (r_offset r) (data + r_offset r) (row_bytes r) end_ (end_ <=? size).

Section Place.
  Context (g0 : yvex_gguf) (slots : list Z) (data : Z).
  Context (Hdata : g_tensor_data_offset g0 = data).
  Context (Hfit : tables_fit g0) (Hclear : gguf_clear g0 = Done tt).

Definition place_state (before after : list tensor_row) : yvex_gguf :=
  tensor_state g0 slots ((placed_info data (a_size artifact) <$> before) ++ (row_info <$> after)).

Lemma place_clear before after :
  h_tensor_count (g_header g0) = zlen before + zlen after -> gguf_clear (place_state before after) = Done tt.
Proof.
  intros Hc. apply tensor_state_clear; [done|done|]. rewrite zlen_app. unfold zlen in *. rewrite !length_fmap. lia.
Qed.

Lemma run_place before r after :
  h_tensor_count (g_header g0) = zlen before + zlen (r :: after) ->
  run (place_state before (r :: after)) (place_tensor artifact (zlen before))
    (fun _ g b k => data + r_offset r + row_bytes r <= ULLONG_MAX /\ g = place_state (before ++ [r]) after
       /\ b = [] /\ k = cost_zero).
Proof.
  intros Hc. pose proof (place_clear before (r :: after) Hc) as Hcl.
  assert (zlen (placed_info data (a_size artifact) <$> before) = zlen before) as Hz by (unfold zlen; by rewrite length_fmap).
  unfold place_tensor. eapply run_iff.
  { apply run_get. eapply (run_object _ _ _ _ _ _ _ _ (row_info r)).
    { intros c. unfold so_lift, tensor_at. cbn. unfold read_at. rewrite <- Hz, zget_middle. reflexivity. }
    apply run_near; [done|]. apply run_if; [done|done|]. intros _. apply run_if; [done|done|]. intros _.
    apply (run_last _ _ _ _ _ _ (place_state (before ++ [r]) after)). intros c.
    unfold put_tensor, mbind, so_bind, get_object, so_lift. cbn. unfold read_at. rewrite <- Hz, zget_middle. cbn.
    rewrite zset_middle. unfold place_state. rewrite fmap_app, <- app_assoc. cbn. rewrite Hdata. done. }
  intros [] g b k. cbn [g_tensor_data_offset place_state tensor_state with_tensor_index with_tensors row_info
    t_relative_offset t_storage_bytes]. rewrite Hdata. unfold ULLONG_MAX, UINT64_MAX. split.
  - intros (G1 & G2 & _ & -> & -> & ->). split; [lia|done].
  - intros (Hle & -> & -> & ->). pose proof (row_bytes_nonneg r). do 2 (split; [lia|]). done.
Qed.

Lemma run_place_rows before after :
  h_tensor_count (g_header g0) = zlen before + zlen after ->
  run (place_state before after) (so_each (place_tensor artifact) ((fun j => zlen before + Z.of_nat j) <$> seq 0 (length after)))
    (fun _ g b k => Forall (fun r => data + r_offset r + row_bytes r <= ULLONG_MAX) after
       /\ g = place_state (before ++ after) [] /\ b = [] /\ k = cost_zero).
Proof.
  revert before. induction after as [|r after IH]; intros before Hc; cbn [length seq fmap list_fmap so_each].
  { eapply run_iff; [apply run_last; known_object|]. intros [] g b k. rewrite app_nil_r. split.
    - intros (_ & -> & -> & ->). split; [constructor|]. done.
    - by intros (_ & -> & -> & ->). }
  rewrite Z.add_0_r. replace ((fun j => zlen before + Z.of_nat j) <$> seq 1 (length after))
    with ((fun j => zlen (before ++ [r]) + Z.of_nat j) <$> seq 0 (length after)).
  2:{ rewrite <- fmap_S_seq, <- list_fmap_compose. apply list_fmap_ext. intros j x _. cbn. rewrite zlen_snoc. lia. }
  eapply run_iff.
  { eapply (run_bind _ _ _ _ _ _ _ _ _ (fun _ _ => _)); [by apply run_place|]. intros _ d1 b k (_ & -> & _).
    apply IH. rewrite zlen_snoc. rewrite zlen_cons in Hc. lia. }
  intros [] g b k. rewrite <- app_assoc. split.
  - intros ([] & d1 & b1 & k1 & b2 & k2 & (H1 & -> & -> & ->) & (H2 & -> & -> & ->) & -> & ->).
    split; [by constructor|]. done.
  - intros ([H1 H2]%Forall_cons_1 & -> & -> & ->). eexists tt, _, [], cost_zero, [], cost_zero. done.
Qed.

End Place.

(** The boundary of the payloads. *)
Lemma place_data_eq c g :
  0 < g_alignment g ->
  place_data (c, g)
  = if ULLONG_MAX <? aligned (c_offset c) (g_alignment g)
    then on_cursor (cursor_fail PARSE_OFFSET_OVERFLOW SECTION_RANGE "GGUF tensor-data alignment overflows") (c, g)
    else ((c, with_data_offset (aligned (c_offset c) (g_alignment g)) g), Done tt).
Proof.
  intros Ha. unfold place_data, align_offset, aligned, mbind, so_bind, get_object, on_cursor, so_get, set_object.
  replace (g_alignment g =? 0) with false by lia. set (p := if _ =? 0 then _ else _).
  replace (ULLONG_MAX - p <? c_offset c) with (ULLONG_MAX <? c_offset c + p); [by destruct (_ <? _)|].
  apply eq_true_iff_eq. rewrite !Z.ltb_lt. lia.
Qed.

Lemma spec_place_data g o (q : GD yvex_gguf unit) R :
  0 < g_alignment g -> gguf_clear g = Done tt -> run (with_data_offset (aligned o (g_alignment g)) g) q R ->
  spec artifact io alloc options gguf_clear (fun c d => d = g /\ c_offset c = o) (place_data ≫= fun _ => q)
    (fun _ a d' b k => aligned o (g_alignment g) <= ULLONG_MAX /\ R a d' b k).
Proof.
  intros Ha Hc Hq. split.
  - intros d a d' b k [_ HR]. by eapply run_cost.
  - intros c d Hcur [-> <-]. unfold mbind, so_bind. rewrite place_data_eq by done.
    destruct (ULLONG_MAX <? _) eqn:E; [split; [by left|done]|].
    pose proof (sp_run _ _ _ _ _ _ _ _ Hq c _ Hcur eq_refl) as H.
    destruct (q (c, _)) as [[c1 d1] [a|st r|f]]; [|done|done]. destruct H as (Hc1 & b & k & HR & H).
    split; [done|]. exists b, k. split; [|done]. split; [lia|done].
  - intros Hg c d a d' b k tail Hcur [-> <-] [Hle HR] Hr Hw. unfold mbind, so_bind. rewrite place_data_eq by done.
    replace (ULLONG_MAX <? _) with false by lia.
    by apply (sp_complete _ _ _ _ _ _ _ _ Hq Hg c _ a d' b k tail).
Qed.

(** The view of a directory whose text ends at [o]. *)
Definition placed_view (g0 : yvex_gguf) (o : Z) (rows : list tensor_row) : yvex_gguf :=
  let data := aligned o (g_alignment g0) in
  with_data_offset data
    match rows with
    | [] => g0
    | _ => tensor_state g0 (index_build (index_slots (zlen rows)) (r_name <$> rows))
             (placed_info data (a_size artifact) <$> rows)
    end.

(** The boundary is in the file and every range is a machine integer. *)
Definition placement_ok (data : Z) (rows : list tensor_row) : Prop :=
  data <= ULLONG_MAX
  /\ (rows <> [] -> data <= a_size artifact /\ Forall (fun r => data + r_offset r + row_bytes r <= ULLONG_MAX) rows).

Lemma spec_tail g0 rows o :
  tables_fit g0 -> gguf_clear g0 = Done tt -> 0 < g_alignment g0 -> zlen rows = h_tensor_count (g_header g0) ->
  spec artifact io alloc options gguf_clear (fun c d => d = tensors_view g0 rows /\ c_offset c = o)
    (tensor_tail (zlen rows))
    (fun _ _ d' b k => placement_ok (aligned o (g_alignment g0)) rows /\ d' = placed_view g0 o rows
       /\ b = [] /\ k = cost_zero).
Proof.
  intros Hfit Hclear Ha Hcount. unfold tensor_tail. apply spec_near_first; [done|done|].
  destruct rows as [|r rows].
  { rewrite zlen_nil. cbn [Z.eqb]. eapply spec_ext with (p := place_data ≫= fun _ => mret tt).
    { intros s. unfold mbind, so_bind. by destruct (place_data s) as [s' [[]|st m|f]]. }
    eapply spec_same; [apply spec_place_data; [done|done|apply run_last; known_object]|].
    intros d [] d' b k. unfold placement_ok. split.
    - intros (Hle & _ & -> & -> & ->). done.
    - intros ([Hle _] & -> & -> & ->). done. }
  set (all := r :: rows) in *. assert (0 < zlen all) as Hpos by (unfold all; rewrite zlen_cons; pose proof (zlen_nonneg rows); lia).
  replace (zlen all =? 0) with false by lia. do 2 (apply spec_near_first; [done|done|]).
  set (slots := index_build (index_slots (zlen all)) (r_name <$> all)).
  set (data := aligned o (g_alignment g0)). set (g1 := with_data_offset data g0).
  assert (gguf_clear g1 = Done tt) as Hclear1 by exact Hclear.
  assert (tensors_view g0 all = tensor_state g0 slots (row_info <$> all)) as Ev.
  { unfold tensors_view, all, tensors_at_step. cbn [replicate]. by rewrite app_nil_r. }
  eapply spec_same.
  - apply spec_place_data; rewrite Ev; [exact Ha| |].
    { apply tensor_state_clear; [done|done|]. unfold zlen. rewrite length_fmap. exact Hcount. }
    apply run_get. apply run_if; [|done|].
    { apply (place_clear g1 slots data Hfit Hclear1 [] all). rewrite zlen_nil. exact (eq_sym Hcount). }
    intros _. apply run_end; [done|].
    replace (zseq (zlen all)) with ((fun j => zlen (@nil tensor_row) + Z.of_nat j) <$> seq 0 (length all))
      by (unfold zseq; by rewrite to_nat_zlen).
    apply (run_place_rows g1 slots data eq_refl Hfit Hclear1 [] all). rewrite zlen_nil. exact (eq_sym Hcount).
  - intros d [] d' b k. rewrite Ev. cbn [g_alignment tensor_state with_tensor_index with_tensors g_tensor_data_offset with_data_offset].
    fold data. unfold placement_ok, place_state. cbn [app fmap list_fmap].
    rewrite app_nil_r. split.
    + intros (H1 & H2 & H3 & -> & -> & ->). split; [split; [done|]; intros _; split; [lia|done]|]. done.
    + intros ([H1 H2] & -> & -> & ->). destruct (H2 ltac:(done)) as [H3 H4]. split; [done|]. split; [lia|]. done.
Qed.

(** ** Lookups *)

(** The row with a name. *)
Definition row_find (rows : list tensor_row) (name : list Z) : option tensor_row :=
  snd <$> list_find (fun r => r_name r = name) rows.

Lemma row_find_at rows i r :
  NoDup (r_name <$> rows) -> zget rows i = Some r -> row_find rows (r_name r) = Some r.
Proof.
  intros Hnd Hi%zget_elem_of. unfold row_find. induction rows as [|x rows IH]; [by apply not_elem_of_nil in Hi|].
  cbn in *. apply NoDup_cons in Hnd as [Hx Hnd]. apply elem_of_cons in Hi as [<-|Hi].
  - by rewrite decide_True.
  - rewrite decide_False.
    + specialize (IH Hnd Hi). destruct (list_find _ rows) as [[j y]|]; [|done]. cbn in *. done.
    + intros E. apply Hx. rewrite E. apply list_elem_of_fmap. eauto.
Qed.

Lemma row_find_absent rows name : name ∉ r_name <$> rows -> row_find rows name = None.
Proof.
  intros H. unfold row_find. assert (list_find (fun r => r_name r = name) rows = None) as ->; [|done].
  apply list_find_None, Forall_forall. intros r Hr <-. apply H, list_elem_of_fmap. eauto.
Qed.

End Tensors.
