(* ===== verification/GgufOpen.v ===== *)
(** * GgufOpen: what the GGUF reader accepts

    The documents of the format, their texts, costs and views, and the theorems of
    the reader: it accepts exactly the files that start with the text of an
    admissible document within the limits, the view it returns is the one of that
    document, and every refusal releases what was read. *)

From Stdlib Require Import ZArith Lia Bool.
From stdpp Require Import base list option numbers strings sets.
From S2P Require Import Prelude Core Words NameIndex Utf8 Qtype Artifact GgufReader GgufSpec GgufText GgufValues GgufIndex GgufMetadata GgufTensors.

(** ** Documents *)

Record gguf_document : Type := mk_document {
  doc_metadata : list (list Z * yvex_gguf_value);
  doc_tensors : list tensor_row
}.

Definition doc_text (options : yvex_gguf_reader_options) (doc : gguf_document) (b : list Z) : Prop :=
  exists texts, Forall2 (entry_text options) (doc_metadata doc) texts
    /\ b = header_text (zlen (doc_tensors doc)) (zlen (doc_metadata doc)) ++ concat texts
           ++ concat (row_text <$> doc_tensors doc).

Definition doc_cost (doc : gguf_document) : cost :=
  header_cost ⊕ (table_cost SIZEOF_METADATA_ENTRY (zlen (doc_metadata doc)) ⊕ entries_cost (doc_metadata doc))
  ⊕ (table_cost SIZEOF_TENSOR_INFO (zlen (doc_tensors doc)) ⊕ rows_cost (doc_tensors doc)).

(** A document the reader admits, with its alignment: as many records as the
    limits allow, with distinct keys and names, and admissible rows. *)
Record doc_ok (options : yvex_gguf_reader_options) (doc : gguf_document) (alignment : Z) : Prop := {
  dk_metadata : zlen (doc_metadata doc) <= max_metadata_entries options;
  dk_tensors : zlen (doc_tensors doc) <= max_tensor_entries options;
  dk_keys : NoDup (doc_metadata doc).*1;
  dk_alignment : alignment_of (doc_metadata doc) = Some alignment;
  dk_names : NoDup (r_name <$> doc_tensors doc);
  dk_rows : Forall (row_ok options alignment) (doc_tensors doc)
}.

(** The budgets cover the document. *)
Definition doc_within (options : yvex_gguf_reader_options) (doc : gguf_document) : Prop :=
  k_bytes (doc_cost doc) <= max_structural_bytes options
  /\ SIZEOF_GGUF + k_owned (doc_cost doc) <= max_owned_bytes options
  /\ k_strings (doc_cost doc) <= max_total_string_bytes options
  /\ k_entries (doc_cost doc) <= max_total_array_entries options.

(** The view of a document: before the tensors, and complete. *)
Definition view_before (artifact : yvex_artifact) (tensors metadata : Z) (entries : list (list Z * yvex_gguf_value))
    (alignment : Z) : yvex_gguf :=
  with_alignment alignment (metadata_view (with_header (header_of tensors metadata) (gguf_start artifact)) entries).

Definition base_view (artifact : yvex_artifact) (doc : gguf_document) (alignment : Z) : yvex_gguf :=
  view_before artifact (zlen (doc_tensors doc)) (zlen (doc_metadata doc)) (doc_metadata doc) alignment.

Definition doc_stats (artifact : yvex_artifact) (doc : gguf_document) : yvex_gguf_reader_stats :=
  let k := doc_cost doc in
  mk_stats (a_size artifact) (k_bytes k) 0 (k_reads k) (SIZEOF_GGUF + k_owned k) (k_strings k) (k_entries k) (k_bytes k).

Definition doc_view (artifact : yvex_artifact) (doc : gguf_document) (alignment : Z) : yvex_gguf :=
  with_stats (doc_stats artifact doc)
    (placed_view artifact (base_view artifact doc alignment) (k_bytes (doc_cost doc)) (doc_tensors doc)).

Section Open.
  Context (artifact : yvex_artifact) (io : Z -> list pread_answer) (alloc : Z -> bool).
  Context (options : yvex_gguf_reader_options) (Hfile : file_ok artifact options).

Notation run := (run artifact io alloc options gguf_clear).

(** The first part of the stages, up to the end of the directory. *)
Definition directory : GD yvex_gguf Z :=
  _ ← parse_header artifact io options;
  _ ← parse_metadata artifact io alloc options;
  _ ← derive_alignment;
  g ← get_object;
  let count := h_tensor_count (g_header g) in
  _ ← tensor_front artifact io alloc options count;
  mret count.

Lemma stages_split s :
  parse_stages artifact io alloc options s = (directory ≫= fun count => tensor_tail artifact count) s.
Proof.
  unfold parse_stages, directory.
  do 2 (etransitivity; [|symmetry; apply gd_bind_assoc]; apply gd_bind_ext; intros ? ?).
  etransitivity; [|symmetry; apply gd_bind_assoc]. apply gd_bind_ext. intros u [c g]. rewrite parse_tensors_split. etransitivity; [|symmetry; apply gd_bind_assoc].
  rewrite (so_bind_eq get_object _ (c, g) (c, g) g) by done. cbv zeta.
  etransitivity; [|symmetry; apply gd_bind_assoc]. apply gd_bind_ext. intros [] ?. done.
Qed.

Lemma fits_view n m es a : zlen es = m -> tables_fit (view_before artifact n m es a).
Proof.
  intros <-. destruct es as [|e es]; [by split|]. split; [|done]. intros t [= <-]. unfold zlen. cbn.
  rewrite app_nil_r, length_fmap. done.
Qed.

Lemma clear_view n m es texts a :
  zlen es = m -> Forall2 (entry_text options) es texts -> gguf_clear (view_before artifact n m es a) = Done tt.
Proof.
  intros Hz Hf. rewrite gguf_clear_eq by by apply fits_view. unfold view_before.
  destruct es as [|e es]; [done|]. cbn [with_alignment g_metadata metadata_view metadata_at_step
    metadata_state with_metadata_index with_metadata replicate]. rewrite app_nil_r.
  apply eachO_Done, Forall_fmap. clear -Hf. revert Hf. generalize (e :: es). intros l. revert texts.
  induction l as [|x l IH]; intros texts Hf; [apply Forall_nil_2|]. apply Forall2_cons_inv_l in Hf as (b1 & t & Hx & Hf & ->).
  apply Forall_cons_2; [by eapply entry_text_clear|by eapply IH].
Qed.

(** What the first part accepts. *)
Lemma run_directory_part :
  run (gguf_start artifact) directory (fun count g b k => exists doc a,
    doc_text options doc b /\ k = doc_cost doc /\ doc_ok options doc a
    /\ zlen (doc_metadata doc) <= SIZE_MAX / SIZEOF_METADATA_ENTRY
    /\ zlen (doc_tensors doc) <= SIZE_MAX / SIZEOF_TENSOR_INFO
    /\ count = zlen (doc_tensors doc) /\ g = tensors_view (base_view artifact doc a) (doc_tensors doc)).
Proof.
  unfold directory. eapply run_iff.
  { eapply (run_bind_with _ _ _ _ _ _ _ (fun (x : Z * Z) _ g b k => is_u64 x.1 /\ is_u64 x.2
      /\ x.2 <= max_metadata_entries options /\ x.1 <= max_tensor_entries options
      /\ g = with_header (header_of x.1 x.2) (gguf_start artifact) /\ b = header_text x.1 x.2 /\ k = header_cost)).
    { eapply run_iff; [by apply run_header|]. intros [] g b k. split.
      - intros (t & m & H). by exists (t, m).
      - intros ([t m] & H). eauto. }
    intros x a1 g1 b1 k1 (Ht & Hm & _ & _ & -> & _).
    eapply (run_bind_with _ _ _ _ _ _ _ (fun es _ g b k => exists texts,
      zlen es = x.2 /\ zlen es <= SIZE_MAX / SIZEOF_METADATA_ENTRY
      /\ NoDup es.*1 /\ Forall2 (entry_text options) es texts
      /\ g = metadata_view (with_header (header_of x.1 x.2) (gguf_start artifact)) es
      /\ b = concat texts /\ k = table_cost SIZEOF_METADATA_ENTRY (zlen es) ⊕ entries_cost es)).
    { by apply run_metadata. }
    intros es a2 g2 b2 k2 (texts & Hz & Hmax & Hnd & Hf & -> & _).
    change (SIZE_MAX / SIZEOF_METADATA_ENTRY) with 384307168202282325 in Hmax.
    eapply (run_bind_with _ _ _ _ _ _ _ (fun a _ g b k => b = [] /\ k = cost_zero /\ alignment_of es = Some a
      /\ g = with_alignment a (metadata_view (with_header (header_of x.1 x.2) (gguf_start artifact)) es))).
    { eapply run_iff; [apply (run_alignment artifact io alloc options _ es texts); [|done|]|].
      - apply holds_metadata_view; [done|done|lia].
      - intros a. by eapply (clear_view x.1 x.2).
      - naive_solver. }
    intros a a3 g3 b3 k3 (_ & _ & Ha & ->). fold (view_before artifact x.1 x.2 es a). apply run_get.
    assert (h_tensor_count (g_header (view_before artifact x.1 x.2 es a)) = x.1) as Ec by (unfold view_before; by destruct es).
    eapply (run_bind_with _ _ _ _ _ _ _ (fun rows _ g b k => zlen rows = x.1
      /\ zlen rows <= SIZE_MAX / SIZEOF_TENSOR_INFO /\ NoDup (r_name <$> rows) /\ Forall (row_ok options a) rows
      /\ g = tensors_view (view_before artifact x.1 x.2 es a) rows
      /\ b = concat (row_text <$> rows) /\ k = table_cost SIZEOF_TENSOR_INFO (zlen rows) ⊕ rows_cost rows)).
    { cbv zeta. pose proof (run_front artifact io alloc options Hfile (view_before artifact x.1 x.2 es a)) as Hrun.
      rewrite Ec in Hrun. rewrite Ec. apply Hrun; [by apply fits_view|by eapply clear_view|by destruct es|done]. }
    intros rows a4 g4 b4 k4 H. rewrite Ec. destruct H as (_ & _ & _ & _ & -> & _). apply run_last. known_object. }
  intros count g b k. split.
  - intros ([t m] & [] & g1 & b1 & k1 & b2 & k2 & (Ht & Hm & Hlm & Hlt & -> & -> & ->) &
      (es & [] & g2 & b3 & k3 & b4 & k4 & (texts & Hz & Hmax & Hnd & Hf & -> & -> & ->) &
      (a & [] & g3 & b5 & k5 & b6 & k6 & (-> & -> & Ha & ->) &
      (rows & [] & g4 & b7 & k7 & b8 & k8 & (Hr & Hmax' & Hnd' & Hrows & -> & -> & ->) & (-> & -> & -> & ->) & -> & ->)
      & -> & ->) & -> & ->) & -> & ->).
    cbn [fst snd] in *. subst t m. exists (mk_document es rows), a. cbn [doc_metadata doc_tensors].
    split; [exists texts; split; [done|]; by rewrite app_nil_r|]. split; [unfold doc_cost; cbn [doc_metadata doc_tensors]; cost_eq|].
    split; [by split|]. done.
  - intros ([es rows] & a & (texts & Hf & ->) & -> & [Hlm Hlt Hnd Ha Hnd' Hrows] & Hmax & Hmax' & -> & ->).
    cbn [doc_metadata doc_tensors] in *. pose proof (zlen_nonneg es) as He. pose proof (zlen_nonneg rows) as Hr.
    exists (zlen rows, zlen es), tt. do 5 eexists. cbn [fst snd].
    split; [split; [|split; [|split; [done|split; [done|split; [reflexivity|split; reflexivity]]]]]|].
    { change (SIZE_MAX / SIZEOF_TENSOR_INFO) with 164703072086692425 in Hmax'. unfold is_u64. lia. }
    { change (SIZE_MAX / SIZEOF_METADATA_ENTRY) with 384307168202282325 in Hmax. unfold is_u64. lia. }
    split; [|split; [reflexivity|unfold doc_cost; cbn [doc_metadata doc_tensors]; rewrite <- cost_add_assoc; reflexivity]].
    exists es, tt. do 5 eexists. split; [by exists texts|]. split; [|split; reflexivity].
    exists a, tt. do 5 eexists. split; [done|]. split; [|split; [symmetry; apply app_nil_l|symmetry; apply cost_zero_l]].
    exists rows, tt. do 5 eexists. split; [done|]. split; [done|]. split; [symmetry; apply app_nil_r|symmetry; apply cost_zero_r].
Qed.

(** ** Statistics *)

(** The placement of the payloads leaves the counters alone. *)
Definition quiet {D A} (p : GD D A) : Prop := forall c d, c_stats (p (c, d)).1.1 = c_stats c.

Lemma quiet_bind {D A B} (p : GD D A) (q : A -> GD D B) : quiet p -> (forall a, quiet (q a)) -> quiet (p ≫= q).
Proof.
  intros Hp Hq c d. specialize (Hp c d). unfold mbind, so_bind.
  destruct (p (c, d)) as [[c1 d1] [a|st r|f]]; cbn in *; [|done|done]. by rewrite Hq.
Qed.

Lemma quiet_each {D A} (f : A -> GD D unit) l : (forall a, quiet (f a)) -> quiet (so_each f l).
Proof.
  intros Hf. induction l as [|x l IH]; [by intros c d|]. cbn [so_each].
  apply (quiet_bind (f x) (fun _ => so_each f l)); [apply Hf|done].
Qed.

Lemma quiet_if {D A} (b : bool) (p q : GD D A) : quiet p -> quiet q -> quiet (if b then p else q).
Proof. by destruct b. Qed.

Lemma quiet_put i f : quiet (put_tensor i f).
Proof.
  intros c d. unfold put_tensor, mbind, so_bind, get_object, so_lift, set_object.
  destruct (deref (g_tensors d)) as [ts| |]; [|done|done]. by destruct (read_at ts i).
Qed.

Lemma quiet_place_data : quiet place_data.
Proof.
  intros c d. unfold place_data, mbind, so_bind, get_object, on_cursor, so_get, set_object, align_offset.
  destruct (_ =? 0); [done|]. by destruct (_ <? c_offset c).
Qed.

Ltac quiet_steps := repeat first [done | apply quiet_put | apply quiet_place_data | apply quiet_if
  | apply quiet_each; intros ? | apply quiet_bind; [|intros ?]].

Lemma tail_stats count c d :
  c_stats (tensor_tail artifact count (c, d)).1.1 = c_stats (set_directory_end c).1.
Proof.
  assert (quiet (if count =? 0 then place_data else
    _ ← on_cursor (set_section SECTION_RANGE); _ ← on_cursor (set_record ULLONG_MAX); _ ← place_data;
    place_rows artifact count)) as H.
  { unfold place_rows, place_tensor. quiet_steps. }
  apply (H (set_directory_end c).1 d).
Qed.

(** ** The stages *)

(** The file starts with the text [b] of an admissible document within the limits. *)
Definition gguf_file (doc : gguf_document) (a : Z) (b : list Z) : Prop :=
  doc_text options doc b /\ doc_ok options doc a /\ doc_within options doc
  /\ placement_ok artifact (aligned (zlen b) a) (doc_tensors doc)
  /\ exists tail, a_bytes artifact = b ++ tail.

Lemma table_cost_ok size count : 0 <= size -> 0 <= count -> cost_ok (table_cost size count) /\ k_bytes (table_cost size count) = 0.
Proof.
  intros Hs Hc. unfold table_cost. destruct (count =? 0); [done|]. split; [|done].
  apply cost_add_ok; apply owned_cost_ok; [nia|]. unfold index_slots, SIZEOF_SLOT. pose proof (Z.pow_nonneg 2 (Z.max 3 (Z.log2_up (2 * count)))). lia.
Qed.

Lemma doc_cost_ok doc b :
  doc_text options doc b ->
  cost_ok (doc_cost doc) /\ k_bytes (doc_cost doc) = zlen b
  /\ zlen (doc_metadata doc) * SIZEOF_METADATA_ENTRY <= k_owned (doc_cost doc)
  /\ zlen (doc_tensors doc) * SIZEOF_TENSOR_INFO <= k_owned (doc_cost doc).
Proof.
  intros (texts & Hf & ->). pose proof (zlen_nonneg (doc_metadata doc)) as H1. pose proof (zlen_nonneg (doc_tensors doc)) as H2.
  assert (0 <= SIZEOF_METADATA_ENTRY /\ 0 <= SIZEOF_TENSOR_INFO) as [Hs1 Hs2] by done.
  destruct (records_cost_ok (entry_text options) entry_cost (entry_cost_ok options) _ _ Hf) as [He1 He2].
  destruct (records_cost_ok (fun r b => b = row_text r) row_cost (ltac:(intros r b ->; apply row_cost_ok))
    (doc_tensors doc) (row_text <$> doc_tensors doc)) as [Hr1 Hr2].
  { apply Forall2_fmap_r, Forall_Forall2_diag. by apply Forall_true. }
  destruct (table_cost_ok SIZEOF_METADATA_ENTRY _ Hs1 H1) as [Ht1 Ht2].
  destruct (table_cost_ok SIZEOF_TENSOR_INFO _ Hs2 H2) as [Hu1 Hu2].
  assert (forall size count, 0 <= count -> count * size <= k_owned (table_cost size count)) as Htable.
  { intros size count Hc. unfold table_cost. destruct (count =? 0) eqn:E; [cbn; nia|]. cbn [k_owned cost_add owned_cost].
    unfold index_slots, SIZEOF_SLOT. pose proof (Z.pow_nonneg 2 (Z.max 3 (Z.log2_up (2 * count)))). lia. }
  pose proof (Htable SIZEOF_METADATA_ENTRY _ H1). pose proof (Htable SIZEOF_TENSOR_INFO _ H2).
  fold (entries_cost (doc_metadata doc)) in *. fold (rows_cost (doc_tensors doc)) in *. unfold doc_cost.
  split; [repeat apply cost_add_ok; try done; unfold cost_ok; cbn; unfold YVEX_GGUF_HEADER_BYTES; lia|].
  unfold cost_ok in *. cbn [k_bytes k_owned cost_add header_cost].
  split; [|lia]. rewrite !zlen_app. unfold header_text, YVEX_GGUF_HEADER_BYTES. rewrite !zlen_app, !zlen_le_bytes. lia.
Qed.

Definition start : yvex_file_cursor * yvex_gguf := (cursor_start artifact, gguf_start artifact).

Lemma cursor_start_ok : SIZEOF_GGUF <= max_owned_bytes options -> cur_ok artifact options (cursor_start artifact).
Proof.
  intros H. destruct Hfile as [Hs _ [? ? ? ? ? ? ? ? ?]]. unfold is_u64, SIZEOF_GGUF in *.
  pose proof (zlen_nonneg (a_bytes artifact)). split; cbn; unfold SIZEOF_GGUF; lia.
Qed.

(** The placement from the view of a document. *)
Lemma document_tail doc a b :
  doc_text options doc b -> doc_ok options doc a ->
  spec artifact io alloc options gguf_clear
    (fun c d => d = tensors_view (base_view artifact doc a) (doc_tensors doc) /\ c_offset c = zlen b)
    (tensor_tail artifact (zlen (doc_tensors doc)))
    (fun _ _ d' b' k => placement_ok artifact (aligned (zlen b) a) (doc_tensors doc)
       /\ d' = placed_view artifact (base_view artifact doc a) (zlen b) (doc_tensors doc) /\ b' = [] /\ k = cost_zero).
Proof.
  intros (texts & Hf & _) Hok.
  assert (g_alignment (base_view artifact doc a) = a
    /\ h_tensor_count (g_header (base_view artifact doc a)) = zlen (doc_tensors doc)) as [Ea Ec]
    by (unfold base_view, view_before; by destruct (doc_metadata doc)).
  pose proof (alignment_range options _ _ _ Hf (dk_alignment _ _ _ Hok)).
  pose proof (spec_tail artifact io alloc options (base_view artifact doc a) (doc_tensors doc) (zlen b)) as H1.
  rewrite Ea in H1. apply H1; [by apply fits_view|by eapply clear_view|lia|done].
Qed.

Lemma final_stats doc c1 c2 :
  moved (doc_cost doc) (cursor_start artifact) c1 -> c_stats c2 = c_stats (set_directory_end c1).1 ->
  c_stats c2 = doc_stats artifact doc.
Proof.
  intros [Ho Hs] ->. destruct c1 as [o1 s1 r1 [] p1]. cbn -[doc_cost] in Hs, Ho |- *. injection Hs as -> -> -> -> -> -> ->.
  unfold doc_stats. f_equal; cbn -[doc_cost]; lia.
Qed.

Lemma stages_run :
  SIZEOF_GGUF <= max_owned_bytes options ->
  match parse_stages artifact io alloc options start with
  | ((c, g), Done _) => exists doc a b, gguf_file doc a b /\ c_offset c = zlen b /\ c_stats c = doc_stats artifact doc
      /\ g = placed_view artifact (base_view artifact doc a) (zlen b) (doc_tensors doc)
  | ((c, g), Refuse status _) => tolerable gguf_clear c g /\ recorded c status
  | ((c, _), Fault f) => f = NullPointer /\ storage_refused c
  end.
Proof.
  intros Hown. pose proof (cursor_start_ok Hown) as Hc0. unfold start. rewrite stages_split.
  pose proof (sp_run _ _ _ _ _ _ _ _ run_directory_part _ _ Hc0 eq_refl) as H.
  match goal with |- context [(_ ≫= ?q) ?s] => change ((directory ≫= q) s) with
    (match directory s with (s', Done a) => q a s' | (s', Refuse st r) => (s', Refuse st r) | (s', Fault f) => (s', Fault f) end) end.
  destruct (directory _) as [[c1 g1] [count|st r|f]]; [|done|done].
  destruct H as (Hc1 & b & k & (doc & a & Ht & -> & Hok & Hm1 & Hm2 & -> & ->) & Hr & Hmv).
  destruct (doc_cost_ok doc b Ht) as (Hk & Hb & _ & _).
  assert (c_offset c1 = zlen b) as Ho1 by (destruct Hmv as [Ho _]; rewrite Ho, Hb; done).
  pose proof (sp_run _ _ _ _ _ _ _ _ (document_tail doc a b Ht Hok) c1 _ Hc1 (conj eq_refl Ho1)) as H.
  pose proof (tail_stats (zlen (doc_tensors doc)) c1 (tensors_view (base_view artifact doc a) (doc_tensors doc))) as Hst.
  destruct (tensor_tail _ _ _) as [[c2 g2] [u|st r|f]]; [|done|done].
  destruct H as (Hc2 & b2 & k2 & (Hp & -> & -> & ->) & Hr2 & Hmv2). cbn [fst] in Hst.
  pose proof (moved_fields _ _ _ Hmv) as Hfl. pose proof (moved_fields _ _ _ Hmv2) as Hfl2. cbn -[doc_cost] in Hfl, Hfl2.
  exists doc, a, b. split; [|split; [lia|split; [|done]]].
  - split; [done|]. split; [done|]. split; [|split; [done|]].
    + destruct Hc1. unfold doc_within. lia.
    + exists (rest artifact c1). exact Hr.
  - by eapply final_stats.
Qed.

Lemma stages_complete doc a b :
  generous artifact io alloc -> gguf_file doc a b ->
  exists c, c_stats c = doc_stats artifact doc /\ parse_stages artifact io alloc options start
    = ((c, placed_view artifact (base_view artifact doc a) (zlen b) (doc_tensors doc)), Done tt).
Proof.
  intros Hg (Ht & Hok & Hw & Hp & tail & Htail). destruct (doc_cost_ok doc b Ht) as (Hk & Hb & Ho1 & Ho2).
  unfold doc_within, SIZEOF_GGUF in Hw. pose proof Hk as Hk'. unfold cost_ok in Hk'.
  assert (SIZEOF_GGUF <= max_owned_bytes options) as Hown by (unfold SIZEOF_GGUF; lia).
  pose proof (cursor_start_ok Hown) as Hc0. pose proof (oo_owned _ (fo_options _ _ Hfile)) as Hmax. unfold is_u64 in Hmax.
  destruct (sp_complete _ _ _ _ _ _ _ _ run_directory_part Hg (cursor_start artifact) (gguf_start artifact)
    (zlen (doc_tensors doc)) (tensors_view (base_view artifact doc a) (doc_tensors doc)) b (doc_cost doc) tail)
    as (c1 & E1 & Hmv); [done|done| |done| |].
  { exists doc, a. unfold SIZEOF_METADATA_ENTRY, SIZEOF_TENSOR_INFO in *.
    change (SIZE_MAX / 48) with 384307168202282325. change (SIZE_MAX / 112) with 164703072086692425.
    split; [done|]. split; [done|]. split; [done|]. split; [lia|]. split; [lia|]. done. }
  { unfold within. cbn -[doc_cost]. unfold SIZEOF_GGUF. lia. }
  pose proof (moved_fields _ _ _ Hmv) as Hfl. cbn -[doc_cost] in Hfl.
  assert (cur_ok artifact options c1) as Hc1.
  { destruct Hg as (_ & _ & Ha & _). eapply moved_ok; [exact Hc0|exact Ha|exact Hmv|done|exact Hb|exact Htail|].
    unfold within. cbn -[doc_cost]. unfold SIZEOF_GGUF. lia. }
  destruct (sp_complete _ _ _ _ _ _ _ _ (document_tail doc a b Ht Hok) Hg c1
    (tensors_view (base_view artifact doc a) (doc_tensors doc)) tt
    (placed_view artifact (base_view artifact doc a) (zlen b) (doc_tensors doc)) [] cost_zero (rest artifact c1))
    as (c2 & E2 & _); [done|split; [done|lia]|done|done| |].
  { destruct Hc1. unfold within. cbn -[doc_cost]. lia. }
  exists c2. split; [|unfold start; rewrite stages_split; by rewrite (so_bind_eq _ _ _ _ _ E1)].
  pose proof (tail_stats (zlen (doc_tensors doc)) c1 (tensors_view (base_view artifact doc a) (doc_tensors doc))) as Hst.
  rewrite E2 in Hst. by eapply final_stats.
Qed.

(** ** Views *)

Lemma doc_view_eq doc a b :
  doc_text options doc b -> doc_view artifact doc a
  = with_stats (doc_stats artifact doc) (placed_view artifact (base_view artifact doc a) (zlen b) (doc_tensors doc)).
Proof. intros Ht. unfold doc_view. by destruct (doc_cost_ok doc b Ht) as (_ & -> & _). Qed.

Lemma document_size doc a b :
  gguf_file doc a b -> zlen (doc_metadata doc) <= 2 ^ 59 /\ zlen (doc_tensors doc) <= 2 ^ 59.
Proof.
  intros (Ht & _ & Hw & _). destruct (doc_cost_ok doc b Ht) as (_ & _ & H1 & H2).
  pose proof (oo_owned _ (fo_options _ _ Hfile)) as Hmax. unfold is_u64 in Hmax.
  unfold doc_within, SIZEOF_METADATA_ENTRY, SIZEOF_TENSOR_INFO, SIZEOF_GGUF in *. lia.
Qed.

Lemma view_metadata doc a b key :
  gguf_file doc a b -> yvex_gguf_metadata_find (doc_view artifact doc a) key = Done (entry_find (doc_metadata doc) key).
Proof.
  intros H. destruct (document_size _ _ _ H) as [Hs _]. destruct H as (_ & Hok & _). apply metadata_find_spec.
  assert (holds_entries (base_view artifact doc a) (doc_metadata doc)) as [H1 H2 H3 H4].
  { destruct (holds_metadata_view (with_header (header_of (zlen (doc_tensors doc)) (zlen (doc_metadata doc))) (gguf_start artifact))
      (doc_metadata doc) eq_refl (dk_keys _ _ _ Hok) Hs). by split. }
  unfold doc_view, placed_view. destruct (doc_tensors doc); by split.
Qed.

Lemma view_tensor doc a b name :
  gguf_file doc a b ->
  yvex_gguf_tensor_find (doc_view artifact doc a) name
  = Done (placed_info (aligned (zlen b) a) (a_size artifact) <$> row_find (doc_tensors doc) name).
Proof.
  intros H. destruct (document_size _ _ _ H) as [_ Hs]. destruct H as (Ht & Hok & _). rewrite (doc_view_eq doc a b Ht).
  pose proof (dk_names _ _ _ Hok) as Hnd. unfold yvex_gguf_tensor_find.
  assert (g_alignment (base_view artifact doc a) = a) as Ea by (unfold base_view, view_before; by destruct (doc_metadata doc)).
  destruct (doc_tensors doc) as [|r0 rs] eqn:Er.
  { unfold base_view, view_before, placed_view. by destruct (doc_metadata doc). }
  set (rows := r0 :: rs) in *. set (data := aligned (zlen b) a).
  assert (0 < zlen rows) as Hpos by (unfold rows; rewrite zlen_cons; pose proof (zlen_nonneg rs); lia).
  set (g := with_stats _ _).
  assert (g_tensors g = Some (placed_info data (a_size artifact) <$> rows)
    /\ g_tensor_index g = index_build (index_slots (zlen rows)) (r_name <$> rows)) as [Eg Ei].
  { unfold g, placed_view. rewrite Ea. done. }
  rewrite Ei. destruct (index_slots_bounds (zlen rows) ltac:(lia)) as [Hs' Hb].
  assert (zlen (r_name <$> rows) = zlen rows) as Hk by (unfold zlen; by rewrite length_fmap).
  destruct (index_build_ok (index_slots (zlen rows)) (r_name <$> rows) Hs' ltac:(rewrite Hk; lia)) as [_ Hz]. rewrite Hz.
  replace (index_slots (zlen rows) =? 0) with false by (pose proof (index_size_pos _ Hs'); lia).
  assert (forall i n, zget (r_name <$> rows) i = Some n -> exists r, zget rows i = Some r /\ r_name r = n) as Hget.
  { intros i n Hn. pose proof (zget_Some_range _ _ _ Hn) as Hi. rewrite Hk in Hi.
    rewrite zget_lookup, list_lookup_fmap in Hn by (rewrite ?Hk; lia). rewrite zget_lookup by lia.
    destruct (rows !! Z.to_nat i) as [r|]; [|done]. cbn in Hn. simplify_eq. eauto. }
  assert (forall i r, zget rows i = Some r -> tensor_at g i = Done (placed_info data (a_size artifact) r)) as Hat.
  { intros i r Hr. pose proof (zget_Some_range _ _ _ Hr). unfold tensor_at. rewrite Eg. cbn [deref mbind outcome_bind].
    apply read_at_Done. rewrite zget_lookup by (unfold zlen in *; rewrite length_fmap; lia). rewrite list_lookup_fmap.
    rewrite zget_lookup in Hr by done. by rewrite Hr. }
  destruct (build_probe (tensor_name_at g) (r_name <$> rows) (index_slots (zlen rows)) name Hs')
    as [(i & Hi & ->)|(Hout & slot & -> & _)]; [rewrite Hk; lia| | |].
  - intros i n Hn. destruct (Hget i n Hn) as (r & Hr & <-). unfold tensor_name_at. by rewrite (Hat _ _ Hr).
  - destruct (Hget i name Hi) as (r & Hr & <-). cbn [mbind outcome_bind]. rewrite (Hat _ _ Hr). cbn [mbind outcome_bind].
    by rewrite (row_find_at _ _ _ Hnd Hr).
  - cbn [mbind outcome_bind]. by rewrite row_find_absent.
Qed.

End Open.

(** ** The reader *)

Section Reader.
  Context (artifact : yvex_artifact) (io : Z -> list pread_answer) (alloc : Z -> bool).
  Context (options : yvex_gguf_reader_options) (Hfile : file_ok artifact options).

Notation open_ex := (yvex_gguf_open_ex (Some artifact) io alloc (Some options)).

Lemma start_clear : gguf_clear (gguf_start artifact) = Done tt.
Proof. done. Qed.

(** The reader past its first checks. *)
Lemma open_stages :
  options_zero options = false -> alloc 0 = true -> SIZEOF_GGUF <= max_owned_bytes options ->
  open_ex = match parse_stages artifact io alloc options (start artifact) with
            | ((cur, gguf), Done _) =>
                (mk_parse_result PARSE_OK SECTION_NONE (c_offset cur) ULLONG_MAX "GGUF structural reader accepted input",
                 Done (with_stats (c_stats cur) gguf))
            | ((cur, gguf), Refuse status reason) =>
                match yvex_gguf_close gguf with
                | Fault f => (c_result cur, Fault f)
                | _ => (c_result cur, Refuse status reason)
                end
            | ((cur, _), Fault f) => (c_result cur, Fault f)
            end.
Proof.
  intros Hz Ha Ho. unfold yvex_gguf_open_ex. cbv zeta. change (default yvex_gguf_reader_options_default (Some options)) with options. rewrite Hz, Ha. cbn [negb].
  by replace (max_owned_bytes options <? SIZEOF_GGUF) with false by lia.
Qed.

Definition open_answer (r : yvex_gguf_parse_result * outcome yvex_gguf) : Prop :=
  match r with
  | (result, Done g) => pr_code result = PARSE_OK
      /\ exists doc a b, gguf_file artifact options doc a b /\ pr_byte_offset result = zlen b /\ g = doc_view artifact doc a
  | (result, Refuse status _) => status = parse_code_error (pr_code result) /\ pr_code result <> PARSE_OK
  | (result, Fault f) => f = NullPointer /\ pr_reason result
      ∈ ["GGUF owned-memory budget exceeded"; "failed to allocate GGUF array items"]
  end.

Lemma open_spec : open_answer open_ex.
Proof.
  destruct (options_zero options) eqn:Hz; [unfold yvex_gguf_open_ex; cbv zeta; change (default yvex_gguf_reader_options_default (Some options)) with options; by rewrite Hz|].
  destruct (alloc 0) eqn:Ha; [|unfold yvex_gguf_open_ex; cbv zeta; change (default yvex_gguf_reader_options_default (Some options)) with options; by rewrite Hz, Ha].
  destruct (decide (SIZEOF_GGUF <= max_owned_bytes options)) as [Ho|Ho].
  2:{ unfold yvex_gguf_open_ex. cbv zeta. change (default yvex_gguf_reader_options_default (Some options)) with options. rewrite Hz, Ha. cbn [negb].
      by replace (max_owned_bytes options <? SIZEOF_GGUF) with true by lia. }
  rewrite open_stages by done. pose proof (stages_run artifact io alloc options Hfile Ho) as H.
  assert (forall c, storage_refused c -> pr_reason (c_result c)
    ∈ ["GGUF owned-memory budget exceeded"; "failed to allocate GGUF array items"]) as Href.
  { intros c [E|E]; rewrite E; [left|right; left]. }
  destruct (parse_stages _ _ _ _ _) as [[c g] [u|st r|f]].
  - destruct H as (doc & a & b & Hf & Hoff & Hst & ->). split; [done|]. exists doc, a, b. split; [done|]. split; [done|].
    rewrite Hst. symmetry. apply (doc_view_eq artifact options doc a b), Hf.
  - destruct H as [Ht Hr]. unfold yvex_gguf_close.
    destruct Ht as [->|[Hs ->]]; [exact Hr|]. split; [done|by apply Href].
  - destruct H as [-> Hs]. split; [done|by apply Href].
Qed.

End Reader.

(** ** Theorems *)

(** A small file: one metadata entry, one tensor and its payload. *)
Definition sample_document : gguf_document :=
  mk_document [([97], mk_value VALUE_UINT8 (As_u64 7))] [mk_row [119] [2] 0 0].

Definition sample_bytes : list Z :=
  header_text 1 1 ++ (string_text [97] ++ le_bytes 4 0 ++ [7]) ++ row_text (mk_row [119] [2] 0 0)
  ++ replicate 25 0 ++ [0; 0; 128; 63; 0; 0; 0; 64].

Definition sample_artifact : yvex_artifact :=
  mk_artifact (zlen sample_bytes) (mk_snapshot 1 2 (zlen sample_bytes) 0 0 0 0) sample_bytes.

Lemma sample_file_ok : file_ok sample_artifact yvex_gguf_reader_options_default.
Proof.
  split; [by vm_compute| |split; by vm_compute].
  apply Forall_forall. intros x Hx. assert (forallb (fun x => (0 <=? x) && (x <? 256)) sample_bytes = true) as A by (vm_compute; reflexivity).
  rewrite forallb_forall in A. specialize (A x (proj1 (list_elem_of_In _ _) Hx)). unfold is_u8. lia.
Qed.

(** The sample is the file of its document. *)
Lemma sample_is_file :
  gguf_file sample_artifact yvex_gguf_reader_options_default sample_document 32 (take 71 sample_bytes).
Proof.
  assert (forall c, 97 <= c <= 122 -> string_ok yvex_gguf_reader_options_default YVEX_GGUF_MAX_TENSOR_NAME_LEN true true [c]) as Hs.
  { intros c Hc. split; [apply ascii_text_ok; apply Forall_singleton; lia|].
    split; [apply Forall_singleton; unfold is_u8; lia|]. split; [by vm_compute|]. split; [done|]. split; [by vm_compute|].
    intros _ H0%list_elem_of_singleton. lia. }
  split; [|split; [|split; [|split]]].
  - exists [string_text [97] ++ le_bytes 4 0 ++ [7]]. split; [|vm_compute; reflexivity]. constructor; [|constructor].
    split; [exists 97, []; split; [done|]; split; [by unfold letter|constructor]|].
    do 3 (split; [by vm_compute|]). exists [7]. split; [|reflexivity]. by exists 7, (As_u64 7).
  - split; [by vm_compute|by vm_compute|apply NoDup_singleton|reflexivity|apply NoDup_singleton|].
    apply Forall_singleton. split; [by apply Hs|by apply Forall_singleton; unfold is_u64|by vm_compute|by eexists|by vm_compute|done].
  - repeat split; by vm_compute.
  - split; [by vm_compute|]. intros _. split; [by vm_compute|]. apply Forall_singleton. by vm_compute.
  - exists (drop 71 sample_bytes). symmetry. apply take_drop.
Qed.

(** A file of the format is opened when every request is granted. *)
Lemma open_accepts artifact io alloc options doc a b :
  file_ok artifact options -> generous artifact io alloc -> options_zero options = false ->
  gguf_file artifact options doc a b ->
  exists result, yvex_gguf_open_ex (Some artifact) io alloc (Some options) = (result, Done (doc_view artifact doc a)).
Proof.
  intros Hfile Hg Hz Hf. pose proof Hg as (Ha & _).
  destruct (stages_complete artifact io alloc options Hfile doc a b Hg Hf) as (c & Hst & E).
  pose proof Hf as (Ht & _ & Hw & _). destruct (doc_cost_ok options doc b Ht) as (Hk & _).
  rewrite open_stages by (done || unfold doc_within, cost_ok in *; lia). rewrite E, Hst, (doc_view_eq artifact options doc a b Ht).
  eauto.
Qed.

(** C5: The GGUF reader accepts exactly the files of the format.  When the allocator
    and the kernel grant every request, opening a file succeeds if and only if the
    file starts with the text of a document (a header, typed metadata with
    distinct keys of the key grammar, and tensor rows with distinct names,
    admissible element types and aligned offsets), whose records, strings, arrays,
    owned memory and size are within the configured limits and whose payload
    boundary and ranges fit; and the view returned is then the view of that
    document, in every field. *)
Theorem gguf_open_exact artifact io alloc options g :
  file_ok artifact options -> generous artifact io alloc -> options_zero options = false ->
  (exists result, yvex_gguf_open_ex (Some artifact) io alloc (Some options) = (result, Done g))
  <-> exists doc a b, gguf_file artifact options doc a b /\ g = doc_view artifact doc a.
Proof.
  intros Hfile Hg Hz. split.
  - intros (result & E). pose proof (open_spec artifact io alloc options Hfile) as H. rewrite E in H.
    destruct H as (_ & doc & a & b & Hf & _ & ->). eauto.
  - intros (doc & a & b & Hf & ->). by eapply open_accepts.
Qed.

Lemma gguf_open_exact_witness :
  exists doc a b, gguf_file sample_artifact yvex_gguf_reader_options_default doc a b
    /\ st_read_calls (g_stats (doc_view sample_artifact doc a)) = 14.
Proof.
  destruct (yvex_gguf_open_ex (Some sample_artifact) (fun _ => []) (fun _ => true) (Some yvex_gguf_reader_options_default))
    as [result [g| |]] eqn:E; [|by vm_compute in E|by vm_compute in E].
  destruct (proj1 (gguf_open_exact sample_artifact (fun _ => []) (fun _ => true) yvex_gguf_reader_options_default g
    sample_file_ok ltac:(split; [done|]; split; [by intros n ?%not_elem_of_nil|]; split; [done|vm_compute; discriminate])
    eq_refl) (ex_intro _ result E)) as (doc & a & b & Hf & Eg).
  exists doc, a, b. split; [exact Hf|]. rewrite <- Eg. vm_compute in E. injection E as _ <-. reflexivity.
Defined.

(** C23: What the GGUF reader answers, whatever the file, the limits, the allocator
    and the kernel do.  An accepted file starts with the text of an admissible
    document within the limits, the result says how many bytes it has, and the
    view is the one of that document.  A refusal records a parse code other than
    success, whose status is the one returned, and has released what was read.
    The only fault is the release of an array whose storage was refused. *)
Theorem gguf_open_answers artifact io alloc options :
  file_ok artifact options ->
  match yvex_gguf_open_ex (Some artifact) io alloc (Some options) with
  | (result, Done g) => pr_code result = PARSE_OK
      /\ exists doc a b, gguf_file artifact options doc a b /\ pr_byte_offset result = zlen b /\ g = doc_view artifact doc a
  | (result, Refuse status _) => status = parse_code_error (pr_code result) /\ pr_code result <> PARSE_OK
  | (result, Fault f) => f = NullPointer /\ pr_reason result
      ∈ ["GGUF owned-memory budget exceeded"; "failed to allocate GGUF array items"]
  end.
Proof. apply open_spec. Qed.

(** The sample cut inside its directory. *)
Definition cut_artifact : yvex_artifact :=
  mk_artifact 60 (mk_snapshot 1 2 60 0 0 0 0) (take 60 sample_bytes).

Lemma gguf_open_answers_witness :
  exists result reason, yvex_gguf_open_ex (Some cut_artifact) (fun _ => []) (fun _ => true)
      (Some yvex_gguf_reader_options_default) = (result, Refuse (parse_code_error (pr_code result)) reason)
    /\ pr_code result <> PARSE_OK.
Proof.
  pose proof (gguf_open_answers cut_artifact (fun _ => []) (fun _ => true) yvex_gguf_reader_options_default
    ltac:(split; [by vm_compute|apply Forall_take, (fo_bytes _ _ sample_file_ok)|apply (fo_options _ _ sample_file_ok)])) as H.
  destruct (yvex_gguf_open_ex _ _ _ _) as [result [g|status reason|f]] eqn:E; [by vm_compute in E| |by vm_compute in E].
  destruct H as [-> H]. exists result, reason. split; [reflexivity|exact H].
Defined.

(** C24: The lookups of an accepted view answer from the document: a metadata key
    finds the value of its entry and an absent key nothing, and a tensor name
    finds the row of that name with its absolute range, and an absent name
    nothing.  No lookup runs out of slots or reads outside a table. *)
Theorem gguf_lookup_exact artifact io alloc options result g :
  file_ok artifact options ->
  yvex_gguf_open_ex (Some artifact) io alloc (Some options) = (result, Done g) ->
  exists doc a b, gguf_file artifact options doc a b
    /\ (forall key, yvex_gguf_metadata_find g key = Done (entry_find (doc_metadata doc) key))
    /\ (forall name, yvex_gguf_tensor_find g name
          = Done (placed_info (aligned (zlen b) a) (a_size artifact) <$> row_find (doc_tensors doc) name)).
Proof.
  intros Hfile E. pose proof (open_spec artifact io alloc options Hfile) as H. rewrite E in H.
  destruct H as (_ & doc & a & b & Hf & _ & ->). exists doc, a, b. split; [done|]. split; intros x.
  - by eapply view_metadata.
  - by apply (view_tensor artifact options Hfile).
Qed.

Lemma gguf_lookup_exact_witness :
  exists result g, yvex_gguf_open_ex (Some sample_artifact) (fun _ => []) (fun _ => true)
      (Some yvex_gguf_reader_options_default) = (result, Done g)
    /\ yvex_gguf_tensor_find g [120] = Done None
    /\ exists doc a b, gguf_file sample_artifact yvex_gguf_reader_options_default doc a b
         /\ entry_find (doc_metadata doc) [97] = Some (mk_value VALUE_UINT8 (As_u64 7)).
Proof.
  destruct (yvex_gguf_open_ex (Some sample_artifact) (fun _ => []) (fun _ => true) (Some yvex_gguf_reader_options_default))
    as [result [g| |]] eqn:E; [|by vm_compute in E|by vm_compute in E].
  exists result, g. split; [reflexivity|].
  destruct (gguf_lookup_exact _ _ _ _ _ _ sample_file_ok E) as (doc & a & b & Hf & Hm & Ht).
  vm_compute in E. injection E as _ <-. split; [vm_compute; reflexivity|]. exists doc, a, b. split; [exact Hf|].
  specialize (Hm [97]). vm_compute in Hm. injection Hm as Hm. symmetry. exact Hm.
Defined.

Lemma placed_info_inj data size r r' : placed_info data size r = placed_info data size r' -> r = r'.
Proof.
  destruct r as [name dims q o], r' as [name' dims' q' o']. unfold placed_info. cbn. intros E.
  injection E as -> Hz Hd -> _ -> _ _ _. f_equal. unfold zlen in Hz. apply app_inj_1 in Hd as [-> _]; [done|lia].
Qed.

Lemma doc_view_inj artifact d1 a1 d2 a2 : doc_view artifact d1 a1 = doc_view artifact d2 a2 -> d1 = d2.
Proof.
  intros E. assert (forall d a, g_metadata (doc_view artifact d a) = match doc_metadata d with [] => None | es => Some (stored <$> es) end) as Hm.
  { intros d a. unfold doc_view, placed_view, base_view, view_before. destruct (doc_metadata d), (doc_tensors d); cbn; by rewrite ?app_nil_r. }
  assert (forall d a, g_tensors (doc_view artifact d a) = match doc_tensors d with [] => None | rows =>
    Some (placed_info (g_tensor_data_offset (doc_view artifact d a)) (a_size artifact) <$> rows) end) as Ht.
  { intros d a. unfold doc_view, placed_view, base_view, view_before. destruct (doc_metadata d), (doc_tensors d); done. }
  destruct d1 as [es1 rows1], d2 as [es2 rows2]. pose proof (Hm (mk_document es1 rows1) a1) as H1.
  pose proof (Ht (mk_document es1 rows1) a1) as H2. rewrite E, Hm in H1. rewrite E, Ht in H2. cbn [doc_metadata doc_tensors] in H1, H2.
  f_equal.
  - assert (stored <$> es2 = stored <$> es1) as H by (destruct es1, es2; congruence).
    symmetry. apply list_fmap_eq_inj in H; [done|]. by intros [k v] [k' v'] [= -> ->].
  - symmetry. destruct rows1 as [|r1 rows1], rows2 as [|r2 rows2]; [done|done|done|]. apply (inj Some) in H2.
    apply list_fmap_eq_inj in H2; [done|]. intros r r'. apply placed_info_inj.
Qed.

(** The format is unambiguous: a file is the text of at most one document within
    the limits. *)
Lemma documents_unambiguous artifact options d1 a1 b1 d2 a2 b2 :
  file_ok artifact options -> a_size artifact = zlen (a_bytes artifact) -> a_size artifact <= INT64_MAX ->
  gguf_file artifact options d1 a1 b1 -> gguf_file artifact options d2 a2 b2 -> d1 = d2 /\ a1 = a2 /\ b1 = b2.
Proof.
  intros Hfile Hs Hmax H1 H2.
  assert (generous artifact (fun _ => []) (fun _ => true)) as Hg
    by (split; [done|]; split; [by intros n ?%not_elem_of_nil|done]).
  assert (forall doc a b, gguf_file artifact options doc a b ->
    exists c, parse_stages artifact (fun _ => []) (fun _ => true) options (start artifact)
      = ((c, placed_view artifact (base_view artifact doc a) (zlen b) (doc_tensors doc)), Done tt)
      /\ c_stats c = doc_stats artifact doc) as Hrun.
  { intros doc a b Hf. destruct (stages_complete artifact _ _ options Hfile doc a b Hg Hf) as (c & Hst & E). eauto. }
  assert (doc_view artifact d1 a1 = doc_view artifact d2 a2) as E.
  { destruct (Hrun _ _ _ H1) as (c1 & E1 & S1), (Hrun _ _ _ H2) as (c2 & E2 & S2).
    rewrite (doc_view_eq artifact options d1 a1 b1), (doc_view_eq artifact options d2 a2 b2) by (apply H1 || apply H2).
    rewrite <- S1, <- S2. congruence. }
  apply doc_view_inj in E. subst d2. split; [done|].
  destruct H1 as (T1 & O1 & _ & _ & t1 & F1), H2 as (T2 & O2 & _ & _ & t2 & F2).
  split; [pose proof (dk_alignment _ _ _ O1); pose proof (dk_alignment _ _ _ O2); congruence|].
  destruct (doc_cost_ok options d1 b1 T1) as (_ & L1 & _), (doc_cost_ok options d1 b2 T2) as (_ & L2 & _).
  rewrite F1 in F2. apply app_inj_1 in F2 as [-> _]; [done|]. unfold zlen in *. lia.
Qed.

(** C25: What the reader decodes is what was encoded.  When a file whose recorded
    size is its length starts with the text of a document within the limits, then
    whatever the kernel and the allocator do, an open that succeeds returns the
    view of that very document, in every field, and reports the length of its text
    as the end of the directory; and that view is the view of no other document,
    so no two encoded documents decode to the same result. *)
Theorem gguf_decodes_encoded artifact io alloc options doc a b result g :
  file_ok artifact options -> a_size artifact = zlen (a_bytes artifact) -> a_size artifact <= INT64_MAX ->
  gguf_file artifact options doc a b ->
  yvex_gguf_open_ex (Some artifact) io alloc (Some options) = (result, Done g) ->
  g = doc_view artifact doc a /\ pr_byte_offset result = zlen b
  /\ forall doc' a', g = doc_view artifact doc' a' -> doc' = doc.
Proof.
  intros Hfile Hs Hmax Hf E. pose proof (open_spec artifact io alloc options Hfile) as H. rewrite E in H.
  destruct H as (_ & doc1 & a1 & b1 & Hf1 & Hb & ->).
  destruct (documents_unambiguous artifact options doc a b doc1 a1 b1) as (<- & <- & <-); [done..|].
  split; [done|]. split; [done|]. intros doc' a' Hv. by apply doc_view_inj in Hv.
Qed.

Lemma gguf_decodes_encoded_witness :
  exists result, yvex_gguf_open_ex (Some sample_artifact) (fun _ => []) (fun _ => true)
    (Some yvex_gguf_reader_options_default) = (result, Done (doc_view sample_artifact sample_document 32))
  /\ pr_byte_offset result = 71.
Proof.
  destruct (yvex_gguf_open_ex (Some sample_artifact) (fun _ => []) (fun _ => true)
    (Some yvex_gguf_reader_options_default)) as [result [g| |]] eqn:E; [|by vm_compute in E|by vm_compute in E].
  destruct (gguf_decodes_encoded sample_artifact (fun _ => []) (fun _ => true) yvex_gguf_reader_options_default
    sample_document 32 (take 71 sample_bytes) result g sample_file_ok eq_refl ltac:(vm_compute; discriminate)
    sample_is_file E) as (Hg & Hb & _).
  exists result. split; [by rewrite Hg|exact Hb].
Defined.

(** ** A release that faults *)

(** One entry, an array of two bytes, read with a budget that does not cover the
    items of the array. *)
Definition array_bytes : list Z :=
  header_text 0 1 ++ string_text [97] ++ le_bytes 4 9 ++ le_bytes 4 0 ++ le_bytes 8 2 ++ [1; 2].

Definition array_artifact : yvex_artifact :=
  mk_artifact (zlen array_bytes) (mk_snapshot 1 2 (zlen array_bytes) 0 0 0 0) array_bytes.

Definition tight_options : yvex_gguf_reader_options :=
  mk_options 1048576 1048576 16777216 33554432 67108864 1073741824 300 2147483648 16.

(** The count of the array is stored before its memory is reserved, so releasing
    the view walks items that were never allocated. *)
Lemma gguf_budget_refusal_faults :
  yvex_gguf_open_ex (Some array_artifact) (fun _ => []) (fun _ => true) (Some tight_options)
  = (mk_parse_result PARSE_RESOURCE_LIMIT SECTION_RESOURCE 49 0 "GGUF owned-memory budget exceeded", Fault NullPointer).
Proof. vm_compute. reflexivity. Qed.
