(* ===== verification/GgufLayout.v ===== *)
(** * GgufLayout: the canonical byte layout of a GGUF file ([src/gguf/layout_integrity.c])

    A parsed view is admitted when the file is laid out canonically: the payloads
    follow the directory in its order, each starts where the padding of the one
    before ends, all padding is zero, and nothing follows the last one.  The
    validator makes one pass over the tensors, reads only padding, and compares
    the identity of the file before and after.

    The numeric members of the result are a function of their names. *)

From Stdlib Require Import ZArith Lia Bool.
From stdpp Require Import base list option numbers strings sets functions.
From S2P Require Import Prelude Core Words NameIndex Utf8 Qtype Artifact GgufReader GgufSpec GgufText GgufValues GgufIndex GgufMetadata GgufTensors GgufOpen.

(** * Code *)

Definition YVEX_GGUF_LAYOUT_PADDING_CHUNK : Z := 4096.
Definition YVEX_GGUF_LAYOUT_TENSOR_NAME_CAP : Z := 128.

Inductive yvex_gguf_layout_code : Type :=
  | LAYOUT_OK | LAYOUT_INVALID_ARGUMENT | LAYOUT_INVALID_ALIGNMENT_TYPE | LAYOUT_INVALID_ALIGNMENT_VALUE
  | LAYOUT_ALIGNMENT_NOT_POWER_OF_TWO | LAYOUT_ALIGNMENT_OVERFLOW | LAYOUT_STORAGE_REFUSED
  | LAYOUT_FIRST_OFFSET_NOT_ZERO | LAYOUT_OFFSET_REVERSED | LAYOUT_UNEXPECTED_GAP | LAYOUT_DUPLICATE_START
  | LAYOUT_COMPLETE_OVERLAP | LAYOUT_PARTIAL_OVERLAP | LAYOUT_PADDED_OVERLAP | LAYOUT_RAW_END_OVERFLOW
  | LAYOUT_PADDED_END_OVERFLOW | LAYOUT_AGGREGATE_OVERFLOW | LAYOUT_TENSOR_PAYLOAD_TRUNCATED
  | LAYOUT_PADDING_TRUNCATED | LAYOUT_DIRECTORY_PADDING_NONZERO | LAYOUT_TENSOR_PADDING_NONZERO
  | LAYOUT_NONCANONICAL_TAIL | LAYOUT_FILE_IDENTITY_DRIFT | LAYOUT_IO_FAILURE | LAYOUT_VIEW_FILE_MISMATCH
  | LAYOUT_TENSOR_INFO_MISSING | LAYOUT_TENSOR_RANGE_MISMATCH.

#[export] Instance layout_code_eq_dec : EqDecision yvex_gguf_layout_code.
Proof. solve_decision. Defined.

Definition yvex_gguf_layout_code_name (code : yvex_gguf_layout_code) : string :=
  match code with
  | LAYOUT_OK => "ok"
  | LAYOUT_INVALID_ARGUMENT => "invalid-argument"
  | LAYOUT_INVALID_ALIGNMENT_TYPE => "invalid-alignment-type"
  | LAYOUT_INVALID_ALIGNMENT_VALUE => "invalid-alignment-value"
  | LAYOUT_ALIGNMENT_NOT_POWER_OF_TWO => "alignment-not-power-of-two"
  | LAYOUT_ALIGNMENT_OVERFLOW => "alignment-overflow"
  | LAYOUT_STORAGE_REFUSED => "tensor-storage-refused"
  | LAYOUT_FIRST_OFFSET_NOT_ZERO => "first-offset-not-zero"
  | LAYOUT_OFFSET_REVERSED => "tensor-offset-reversed"
  | LAYOUT_UNEXPECTED_GAP => "unexpected-layout-gap"
  | LAYOUT_DUPLICATE_START => "duplicate-tensor-start"
  | LAYOUT_COMPLETE_OVERLAP => "complete-tensor-overlap"
  | LAYOUT_PARTIAL_OVERLAP => "partial-tensor-overlap"
  | LAYOUT_PADDED_OVERLAP => "padded-tensor-overlap"
  | LAYOUT_RAW_END_OVERFLOW => "tensor-raw-end-overflow"
  | LAYOUT_PADDED_END_OVERFLOW => "tensor-padded-end-overflow"
  | LAYOUT_AGGREGATE_OVERFLOW => "layout-aggregate-overflow"
  | LAYOUT_TENSOR_PAYLOAD_TRUNCATED => "tensor-payload-truncated"
  | LAYOUT_PADDING_TRUNCATED => "layout-padding-truncated"
  | LAYOUT_DIRECTORY_PADDING_NONZERO => "directory-padding-nonzero"
  | LAYOUT_TENSOR_PADDING_NONZERO => "tensor-padding-nonzero"
  | LAYOUT_NONCANONICAL_TAIL => "noncanonical-trailing-bytes"
  | LAYOUT_FILE_IDENTITY_DRIFT => "file-identity-drift"
  | LAYOUT_IO_FAILURE => "layout-io-failure"
  | LAYOUT_VIEW_FILE_MISMATCH => "parsed-view-file-mismatch"
  | LAYOUT_TENSOR_INFO_MISSING => "tensor-info-missing"
  | LAYOUT_TENSOR_RANGE_MISMATCH => "tensor-range-mismatch"
  end.

(** The numeric members of [yvex_gguf_layout_result]. *)
Inductive layout_field : Type :=
  | alignment | tensor_count | tensors_validated | tensor_index | expected_relative_offset
  | declared_relative_offset | tensor_raw_size | tensor_padded_size | tensor_raw_end | tensor_padded_end
  | failure_absolute_offset | directory_end | directory_padding_bytes | tensor_data_offset | raw_tensor_bytes
  | inter_tensor_padding_bytes | final_tensor_padding_bytes | total_padding_bytes | data_section_span
  | required_file_end | actual_file_size | trailing_bytes | structural_bytes_read | padding_bytes_read
  | tensor_payload_bytes_read | padding_read_calls.

#[export] Instance layout_field_eq_dec : EqDecision layout_field.
Proof. solve_decision. Defined.

Record yvex_gguf_layout_result : Type := mk_layout_result {
  lr_code : yvex_gguf_layout_code;
  lr_accepted : bool;
  lr_reason : string;
  lr_tensor_name : list Z;
  lr_field : layout_field -> Z
}.

Record layout_cursor : Type := mk_layout_cursor {
  lc_expected : Z;
  lc_previous_start : Z;
  lc_previous_raw_end : Z
}.

Definition layout_result_init : yvex_gguf_layout_result :=
  mk_layout_result LAYOUT_INVALID_ARGUMENT false "layout not evaluated" []
    (<[tensor_index := ULLONG_MAX]> (fun _ => 0)).

(** The state of the validator: the result and the cursor over the data section. *)
Definition LO (A : Type) : Type := SO (yvex_gguf_layout_result * layout_cursor) A.

Definition get_field (f : layout_field) : LO Z := fun s => (s, Done (lr_field s.1 f)).
Definition set_field (f : layout_field) (v : Z) : LO unit := so_modify (fun '(out, cur) =>
  (mk_layout_result (lr_code out) (lr_accepted out) (lr_reason out) (lr_tensor_name out) (<[f := v]> (lr_field out)), cur)).

Definition layout_fail {A} (code : yvex_gguf_layout_code) (reason : string) : LO A := fun '(out, cur) =>
  ((mk_layout_result code false reason (lr_tensor_name out) (lr_field out), cur), Refuse YVEX_ERR_FORMAT reason).

(** The characters of a C string, and [yvex_core_text_copy] of a name. *)
Fixpoint name_text (bytes : list Z) : list Z :=
  match bytes with
  | [] => []
  | c :: bytes => if c =? 0 then [] else c :: name_text bytes
  end.

Definition set_tensor_name (name : option (list Z)) : LO unit := so_modify (fun '(out, cur) =>
  (mk_layout_result (lr_code out) (lr_accepted out) (lr_reason out)
     (take (Z.to_nat (YVEX_GGUF_LAYOUT_TENSOR_NAME_CAP - 1)) (name_text (default [] name))) (lr_field out), cur)).

(** ** Arithmetic *)

(** [None] is [YVEX_GGUF_LAYOUT_AGGREGATE_OVERFLOW]. *)
Definition yvex_gguf_layout_sum_checked (current addition : Z) : option Z :=
  if ULLONG_MAX - current <? addition then None else Some (current + addition).

Definition align_up_power_of_two (value align : Z) : option Z :=
  if (align =? 0) || negb (Z.land align (u32 (align - 1)) =? 0) then None else
  let mask := align - 1 in
  match yvex_gguf_layout_sum_checked value mask with
  | None => None
  | Some sum => Some (Z.land sum (u64 (Z.lnot mask)))
  end.

(** The raw and the padded end of an interval, or the code of the refusal. *)
Definition yvex_gguf_layout_interval_measure (relative_offset raw_size align : Z)
    : (Z * Z) + yvex_gguf_layout_code :=
  if align =? 0 then inr LAYOUT_INVALID_ALIGNMENT_VALUE else
  if negb (Z.land align (u32 (align - 1)) =? 0) then inr LAYOUT_ALIGNMENT_NOT_POWER_OF_TWO else
  if ULLONG_MAX - relative_offset <? raw_size then inr LAYOUT_RAW_END_OVERFLOW else
  let raw_end := relative_offset + raw_size in
  match align_up_power_of_two raw_end align with
  | None => inr LAYOUT_PADDED_END_OVERFLOW
  | Some padded_end => inl (raw_end, padded_end)
  end.

Section Layout.
  Context (artifact : yvex_artifact) (io : Z -> list pread_answer).

(** ** Padding *)

(** The loop over the bytes of a chunk. *)
Fixpoint first_nonzero (bytes : list Z) (i : Z) : option Z :=
  match bytes with
  | [] => None
  | byte :: bytes => if byte =? 0 then first_nonzero bytes (i + 1) else Some i
  end.

(** [while (done < length)]; the kernel answers by the number of reads made. *)
Fixpoint padding_loop (fuel : nat) (offset length done : Z) (nonzero_code : yvex_gguf_layout_code) : LO unit :=
  if length <=? done then mret tt else
  match fuel with
  | O => so_lift (Fault OutOfFuel)
  | S fuel =>
      let remaining := length - done in
      let take := if YVEX_GGUF_LAYOUT_PADDING_CHUNK <? remaining then YVEX_GGUF_LAYOUT_PADDING_CHUNK else remaining in
      calls ← get_field padding_read_calls;
      match yvex_artifact_read_at artifact (io calls) (u64 (offset + done)) take with
      | Refuse _ _ =>
          _ ← set_field failure_absolute_offset (u64 (offset + done));
          layout_fail LAYOUT_IO_FAILURE "required GGUF padding could not be read"
      | Fault f => so_lift (Fault f)
      | Done bytes =>
          read ← get_field padding_bytes_read;
          _ ← set_field padding_bytes_read (u64 (read + take));
          _ ← set_field padding_read_calls (u64 (calls + 1));
          match first_nonzero bytes 0 with
          | Some i =>
              _ ← set_field failure_absolute_offset (u64 (offset + done + i));
              layout_fail nonzero_code
                (if bool_decide (nonzero_code = LAYOUT_DIRECTORY_PADDING_NONZERO)
                 then "GGUF directory-to-data padding contains a nonzero byte"
                 else "GGUF tensor padding contains a nonzero byte")
          | None => padding_loop fuel offset length (done + take) nonzero_code
          end
      end
  end.

Definition read_zero_padding (offset length : Z) (nonzero_code : yvex_gguf_layout_code) : LO unit :=
  padding_loop (S (Z.to_nat (length / YVEX_GGUF_LAYOUT_PADDING_CHUNK + 1))) offset length 0 nonzero_code.

(** ** One tensor *)

(** The refusal of an offset that is not the one expected. *)
Definition offset_refusal (relative_offset raw_end : Z) (cur : layout_cursor) : LO unit :=
  if lc_expected cur <? relative_offset
  then layout_fail LAYOUT_UNEXPECTED_GAP "tensor offset leaves a gap after the previous padded interval" else
  if relative_offset =? lc_previous_start cur
  then layout_fail LAYOUT_DUPLICATE_START "two directory entries declare the same tensor start" else
  if relative_offset <? lc_previous_start cur
  then layout_fail LAYOUT_OFFSET_REVERSED "tensor offset reverses directory order" else
  if relative_offset <? lc_previous_raw_end cur
  then (if raw_end <=? lc_previous_raw_end cur
        then layout_fail LAYOUT_COMPLETE_OVERLAP "tensor interval is contained in the previous tensor payload"
        else layout_fail LAYOUT_PARTIAL_OVERLAP "tensor interval partially overlaps the previous tensor payload") else
  layout_fail LAYOUT_PADDED_OVERLAP "tensor starts inside required padding".

Definition get_cursor : LO layout_cursor := fun s => (s, Done s.2).
Definition set_cursor (cur : layout_cursor) : LO unit := so_modify (fun '(out, _) => (out, cur)).

(** A sum stored in the result, or the refusal of its overflow. *)
Definition add_field (f : layout_field) (addition : Z) (reason : string) : LO unit :=
  v ← get_field f;
  match yvex_gguf_layout_sum_checked v addition with
  | None => layout_fail LAYOUT_AGGREGATE_OVERFLOW reason
  | Some sum => set_field f sum
  end.

Definition layout_validate_tensor (gguf : yvex_gguf) (index : Z) : LO unit :=
  tensor ← so_lift (yvex_gguf_tensor_at gguf index);
  _ ← set_field tensor_index index;
  match tensor with
  | None => layout_fail LAYOUT_TENSOR_INFO_MISSING "parsed tensor directory row is unavailable"
  | Some tensor =>
  _ ← set_tensor_name (t_name tensor);
  cur ← get_cursor;
  _ ← set_field expected_relative_offset (lc_expected cur);
  _ ← set_field declared_relative_offset (t_relative_offset tensor);
  storage ← so_lift (yvex_gguf_qtype_tensor_storage (t_ggml_type tensor) (Some (t_dims tensor)) (t_rank tensor));
  if negb (bool_decide (sr_status storage = STORAGE_OK))
  then layout_fail LAYOUT_STORAGE_REFUSED (sr_reason storage) else
  _ ← set_field tensor_raw_size (sr_total_bytes storage);
  if negb (t_storage_bytes tensor =? sr_total_bytes storage)
  then layout_fail LAYOUT_STORAGE_REFUSED "parsed tensor storage differs from canonical qtype geometry" else
  align ← get_field alignment;
  match yvex_gguf_layout_interval_measure (t_relative_offset tensor) (sr_total_bytes storage) align with
  | inr code => layout_fail code (if bool_decide (code = LAYOUT_RAW_END_OVERFLOW)
                                  then "tensor relative raw end overflows" else "tensor padded end overflows")
  | inl (raw_end, padded_end) =>
  _ ← set_field tensor_raw_end raw_end;
  _ ← set_field tensor_padded_end padded_end;
  _ ← set_field tensor_padded_size (u64 (padded_end - t_relative_offset tensor));
  if (index =? 0) && negb (t_relative_offset tensor =? 0)
  then layout_fail LAYOUT_FIRST_OFFSET_NOT_ZERO "the first tensor must begin at relative offset zero" else
  if (0 <? index) && negb (t_relative_offset tensor =? lc_expected cur)
  then offset_refusal (t_relative_offset tensor) raw_end cur else
  data ← get_field tensor_data_offset;
  size ← get_field actual_file_size;
  match yvex_gguf_layout_sum_checked data (t_relative_offset tensor) with
  | None => layout_fail LAYOUT_AGGREGATE_OVERFLOW "absolute tensor layout arithmetic overflows"
  | Some raw_absolute =>
  match yvex_gguf_layout_sum_checked raw_absolute (sr_total_bytes storage), yvex_gguf_layout_sum_checked data padded_end with
  | Some raw_absolute_end, Some padded_absolute =>
  if negb (t_absolute_offset tensor =? raw_absolute) || negb (t_absolute_end_offset tensor =? raw_absolute_end)
  then layout_fail LAYOUT_TENSOR_RANGE_MISMATCH "parsed tensor absolute range differs from canonical layout" else
  if size <? t_absolute_end_offset tensor
  then (_ ← set_field failure_absolute_offset (t_absolute_end_offset tensor);
        layout_fail LAYOUT_TENSOR_PAYLOAD_TRUNCATED "tensor payload interval exceeds the opened file") else
  if size <? padded_absolute
  then (_ ← set_field failure_absolute_offset (t_absolute_end_offset tensor);
        layout_fail LAYOUT_PADDING_TRUNCATED "required tensor padding exceeds the opened file") else
  _ ← add_field raw_tensor_bytes (sr_total_bytes storage) "aggregate raw tensor bytes overflow";
  let padding_bytes := u64 (padded_end - raw_end) in
  count ← get_field tensor_count;
  _ ← (if u64 (index + 1) <? count
       then add_field inter_tensor_padding_bytes padding_bytes "aggregate inter-tensor padding overflows"
       else set_field final_tensor_padding_bytes padding_bytes);
  _ ← read_zero_padding (t_absolute_end_offset tensor) padding_bytes LAYOUT_TENSOR_PADDING_NONZERO;
  _ ← set_cursor (mk_layout_cursor padded_end (t_relative_offset tensor) raw_end);
  validated ← get_field tensors_validated;
  set_field tensors_validated (u64 (validated + 1))
  | _, _ => layout_fail LAYOUT_AGGREGATE_OVERFLOW "absolute tensor layout arithmetic overflows"
  end
  end
  end
  end.

(** ** The whole layout *)

(** The checks of the alignment the metadata declares. *)
Definition layout_check_alignment (gguf : yvex_gguf) : LO unit :=
  value ← so_lift (yvex_gguf_metadata_find gguf general_alignment);
  align ← get_field alignment;
  _ ← match value with
      | None => mret tt
      | Some v =>
          let refuse := layout_fail LAYOUT_INVALID_ALIGNMENT_TYPE "general.alignment must have GGUF uint32 type" in
          if negb (bool_decide (yvex_gguf_value_type_of (Some v) = VALUE_UINT32)) then refuse else
          match yvex_gguf_value_as_u64 (Some v) with
          | Done declared =>
              if declared =? align then mret tt
              else layout_fail LAYOUT_VIEW_FILE_MISMATCH "parsed alignment differs from metadata"
          | Refuse _ _ => refuse
          | Fault f => so_lift (Fault f)
          end
      end;
  if align =? 0 then layout_fail LAYOUT_INVALID_ALIGNMENT_VALUE "general.alignment must be nonzero" else
  if negb (Z.land align (u32 (align - 1)) =? 0)
  then layout_fail LAYOUT_ALIGNMENT_NOT_POWER_OF_TWO "general.alignment must be a power of two"
  else mret tt.

(** The padding between the directory and the data. *)
Definition layout_check_directory (gguf : yvex_gguf) : LO unit :=
  align ← get_field alignment;
  end_ ← get_field directory_end;
  size ← get_field actual_file_size;
  match align_up_power_of_two end_ align with
  | None => layout_fail LAYOUT_ALIGNMENT_OVERFLOW "directory-to-data alignment overflows"
  | Some data =>
      _ ← set_field tensor_data_offset data;
      if negb (data =? yvex_gguf_tensor_data_offset gguf)
      then layout_fail LAYOUT_VIEW_FILE_MISMATCH "parsed tensor-data offset is not the canonical aligned directory end" else
      let padding := u64 (data - end_) in
      _ ← set_field directory_padding_bytes padding;
      if size <? data
      then (_ ← set_field failure_absolute_offset end_;
            layout_fail LAYOUT_PADDING_TRUNCATED "directory-to-data padding is truncated") else
      read_zero_padding end_ padding LAYOUT_DIRECTORY_PADDING_NONZERO
  end.

(** The sums after the last tensor. *)
Definition layout_check_span : LO unit :=
  cur ← get_cursor;
  _ ← set_field data_section_span (lc_expected cur);
  directory ← get_field directory_padding_bytes;
  inter ← get_field inter_tensor_padding_bytes;
  final ← get_field final_tensor_padding_bytes;
  data ← get_field tensor_data_offset;
  size ← get_field actual_file_size;
  let overflow := layout_fail LAYOUT_AGGREGATE_OVERFLOW "aggregate GGUF layout span overflows" in
  match yvex_gguf_layout_sum_checked directory inter with
  | None => overflow
  | Some total =>
      _ ← set_field total_padding_bytes total;
      match yvex_gguf_layout_sum_checked total final with
      | None => overflow
      | Some total =>
          _ ← set_field total_padding_bytes total;
          match yvex_gguf_layout_sum_checked data (lc_expected cur) with
          | None => overflow
          | Some required =>
              _ ← set_field required_file_end required;
              if size <? required
              then layout_fail LAYOUT_PADDING_TRUNCATED "GGUF file ends before the required padded data span" else
              _ ← set_field trailing_bytes (size - required);
              if negb (size - required =? 0)
              then (_ ← set_field failure_absolute_offset required;
                    layout_fail LAYOUT_NONCANONICAL_TAIL "bytes after the canonical padded data span are not admitted")
              else mret tt
          end
      end
  end.

(** The identity of the file, as the kernel reports it at this point. *)
Definition layout_check_identity (stat : option yvex_artifact_snapshot * option yvex_artifact_snapshot) (reason : string)
    : LO unit :=
  match yvex_artifact_snapshot_validate artifact stat with
  | Done _ => mret tt
  | Refuse _ _ => layout_fail LAYOUT_FILE_IDENTITY_DRIFT reason
  | Fault f => so_lift (Fault f)
  end.

Definition layout_accept : LO unit := so_modify (fun '(out, cur) =>
  (mk_layout_result LAYOUT_OK true "canonical GGUF directory order, padded spans, and zero padding accepted" []
     (<[tensor_index := ULLONG_MAX]> (lr_field out)), cur)).

Definition layout_validate (gguf : yvex_gguf) (before after : option yvex_artifact_snapshot * option yvex_artifact_snapshot)
    : LO unit :=
  _ ← set_field alignment (yvex_gguf_alignment gguf);
  _ ← set_field tensor_count (yvex_gguf_tensor_count gguf);
  _ ← set_field tensor_data_offset (yvex_gguf_tensor_data_offset gguf);
  _ ← set_field actual_file_size (a_size artifact);
  let stats := yvex_gguf_reader_stats_view gguf in
  if negb (st_file_size stats =? a_size artifact)
  then layout_fail LAYOUT_VIEW_FILE_MISMATCH "parsed GGUF view does not describe the opened artifact size" else
  _ ← set_field structural_bytes_read (st_structural_bytes_read stats);
  _ ← set_field directory_end (st_directory_end_offset stats);
  _ ← set_field tensor_payload_bytes_read 0;
  _ ← layout_check_identity before "artifact identity changed before layout validation";
  _ ← layout_check_alignment gguf;
  _ ← layout_check_directory gguf;
  count ← get_field tensor_count;
  _ ← so_each (layout_validate_tensor gguf) (zseq count);
  _ ← layout_check_span;
  _ ← layout_check_identity after "artifact identity changed during layout validation";
  layout_accept.

End Layout.

(** The result and the status. *)
Definition yvex_gguf_layout_validate (artifact : option yvex_artifact) (gguf : option yvex_gguf)
    (io : Z -> list pread_answer) (before after : option yvex_artifact_snapshot * option yvex_artifact_snapshot)
    : yvex_gguf_layout_result * outcome unit :=
  let start := (layout_result_init, mk_layout_cursor 0 0 0) in
  match artifact, gguf with
  | Some artifact, Some gguf =>
      match layout_validate artifact io gguf before after start with ((out, _), r) => (out, r) end
  | _, _ => match layout_fail LAYOUT_INVALID_ARGUMENT "artifact and parsed GGUF view are required" start with
            | ((out, _), r) => (out, r) end
  end.

(** * Theorems *)

(** ** Alignments *)

Lemma land_pred_zero x : 0 < x -> Z.land x (x - 1) = 0 <-> exists k, 0 <= k /\ x = 2 ^ k.
Proof.
  intros Hx. split.
  - intros H. exists (Z.log2 x). split; [apply Z.log2_nonneg|]. pose proof (Z.log2_spec x Hx) as [H1 H2].
    destruct (decide (x = 2 ^ Z.log2 x)) as [|Hne]; [done|]. exfalso.
    assert (Z.log2 (x - 1) = Z.log2 x) as E by (apply Z.log2_unique; [apply Z.log2_nonneg|lia]).
    assert (Z.testbit (Z.land x (x - 1)) (Z.log2 x) = true) as A.
    { rewrite Z.land_spec, Z.bit_log2 by lia. rewrite <- E. rewrite Z.bit_log2; [done|].
      assert (0 < 2 ^ Z.log2 x) by (apply Z.pow_pos_nonneg; [lia|apply Z.log2_nonneg]). lia. }
    rewrite H, Z.bits_0 in A. done.
  - intros (k & Hk & ->). replace (2 ^ k - 1) with (Z.ones k) by (rewrite Z.ones_equiv; lia).
    rewrite Z.land_ones by lia. by apply Z.mod_same, Z.pow_nonzero.
Qed.

Lemma aligned_bounds value a : 0 < a -> value <= aligned value a < value + a.
Proof.
  intros Ha. unfold aligned. pose proof (Z.mod_pos_bound value a Ha). destruct (_ =? 0) eqn:E; lia.
Qed.

Lemma clear_low sum k : 0 <= k <= 63 -> is_u64 sum -> Z.land sum (u64 (Z.lnot (2 ^ k - 1))) = sum - sum mod 2 ^ k.
Proof.
  intros Hk Hs. unfold is_u64 in Hs. assert (0 < 2 ^ k) as Hp by (apply Z.pow_pos_nonneg; lia).
  replace (u64 (Z.lnot (2 ^ k - 1))) with (Z.land (Z.lnot (Z.ones k)) (Z.ones 64)).
  2:{ rewrite Z.land_ones by lia. unfold u64. by rewrite Z.ones_equiv, <- Z.sub_1_r. }
  rewrite Z.land_assoc, <- Z.ldiff_land, Z.ldiff_ones_r by lia. rewrite Z.shiftl_mul_pow2, Z.shiftr_div_pow2 by lia.
  rewrite Z.land_ones by lia. pose proof (Z.div_mod sum (2 ^ k) ltac:(lia)) as E. pose proof (Z.mod_pos_bound sum (2 ^ k) Hp).
  rewrite Z.mod_small; [lia|]. pose proof (Z.div_pos sum (2 ^ k)). nia.
Qed.

Lemma round_up value k : 0 <= k -> (value + (2 ^ k - 1)) - (value + (2 ^ k - 1)) mod 2 ^ k = aligned value (2 ^ k).
Proof.
  intros Hk. assert (0 < 2 ^ k) as Hp by (apply Z.pow_pos_nonneg; lia). set (a := 2 ^ k) in *. unfold aligned.
  pose proof (Z.div_mod value a ltac:(lia)) as E. pose proof (Z.mod_pos_bound value a Hp) as Hm. set (m := value mod a) in *.
  destruct (m =? 0) eqn:Em.
  - rewrite <- (Z.mod_unique (value + (a - 1)) a (value / a) (a - 1)); [lia|left; lia|lia].
  - rewrite <- (Z.mod_unique (value + (a - 1)) a (value / a + 1) (m - 1));
      [lia|left; lia|rewrite Z.mul_add_distr_l; lia].
Qed.

(** Rounding up to an alignment, when the sum fits. *)
Lemma align_up_spec value k :
  0 <= value -> 0 <= k < 32 ->
  align_up_power_of_two value (2 ^ k)
  = if value + (2 ^ k - 1) <=? ULLONG_MAX then Some (aligned value (2 ^ k)) else None.
Proof.
  intros Hv Hk. assert (0 < 2 ^ k <= 2 ^ 31) as Hp by (split; [apply Z.pow_pos_nonneg; lia|apply Z.pow_le_mono_r; lia]).
  unfold align_up_power_of_two, yvex_gguf_layout_sum_checked. replace (2 ^ k =? 0) with false by lia.
  rewrite u32_id by (unfold is_u32; lia). rewrite (proj2 (land_pred_zero (2 ^ k) ltac:(lia))) by (exists k; lia). cbn [Z.eqb negb orb].
  unfold ULLONG_MAX, UINT64_MAX. destruct (_ <? 2 ^ k - 1) eqn:E.
  - by replace (value + (2 ^ k - 1) <=? 18446744073709551615) with false by lia.
  - replace (value + (2 ^ k - 1) <=? 18446744073709551615) with true by lia. f_equal.
    rewrite clear_low by (unfold is_u64; lia). apply round_up. lia.
Qed.

Lemma measure_spec offset size k :
  0 <= offset -> 0 <= size -> offset + size <= ULLONG_MAX -> 0 <= k < 32 ->
  yvex_gguf_layout_interval_measure offset size (2 ^ k)
  = if offset + size + (2 ^ k - 1) <=? ULLONG_MAX then inl (offset + size, aligned (offset + size) (2 ^ k))
    else inr LAYOUT_PADDED_END_OVERFLOW.
Proof.
  intros Ho Hs Hle Hk. unfold yvex_gguf_layout_interval_measure.
  assert (0 < 2 ^ k <= 2 ^ 31) as Hp by (split; [apply Z.pow_pos_nonneg; lia|apply Z.pow_le_mono_r; lia]).
  replace (2 ^ k =? 0) with false by lia. rewrite u32_id by (unfold is_u32; lia).
  rewrite (proj2 (land_pred_zero (2 ^ k) ltac:(lia))) by (exists k; lia). cbn [Z.eqb negb].
  replace (ULLONG_MAX - offset <? size) with false by lia. rewrite align_up_spec by lia. by destruct (_ <=? ULLONG_MAX).
Qed.

(** ** Verdicts *)

Section Verdict.
  Context (artifact : yvex_artifact) (io : Z -> list pread_answer).

(** No read fails and the file has its size. *)
Definition steady : Prop :=
  (forall n, PreadFailed ∉ io n) /\ a_size artifact = zlen (a_bytes artifact) /\ a_size artifact <= INT64_MAX.

(** [p] accepts exactly when [A]: it returns only if [A] holds, leaving a state in
    [Q], and refuses only if it does not, unless a read failed. *)
Definition verdict (p : LO unit) (s : yvex_gguf_layout_result * layout_cursor) (A : Prop)
    (Q : yvex_gguf_layout_result * layout_cursor -> Prop) : Prop :=
  match p s with
  | (s', Done _) => A /\ Q s'
  | (_, Refuse _ _) => steady -> ~ A
  | (_, Fault _) => False
  end.

Lemma verdict_bind p (q : unit -> LO unit) s A B Q R :
  verdict p s A Q -> (A -> forall s', Q s' -> verdict (q tt) s' B R) -> verdict (p ≫= q) s (A /\ B) R.
Proof.
  unfold verdict, mbind, so_bind. intros Hp Hq. destruct (p s) as [s' [[]|st r|f]]; [|naive_solver|done].
  destruct Hp as [HA HQ]. specialize (Hq HA s' HQ). destruct (q tt s') as [s2 [u|st r|f]]; naive_solver.
Qed.

(** A step on the state that always succeeds. *)
Lemma verdict_step {X} (p : LO X) (q : X -> LO unit) s s' x A Q :
  p s = (s', Done x) -> verdict (q x) s' A Q -> verdict (p ≫= q) s A Q.
Proof. unfold verdict, mbind, so_bind. by intros ->. Qed.

Lemma verdict_ret s (Q : _ -> Prop) : Q s -> verdict (mret tt) s True Q.
Proof. done. Qed.

Lemma verdict_last p s s' (Q : _ -> Prop) : p s = (s', Done tt) -> Q s' -> verdict p s True Q.
Proof. unfold verdict. by intros ->. Qed.

Lemma verdict_fail code reason s A Q : (steady -> ~ A) -> verdict (layout_fail code reason) s A Q.
Proof. unfold verdict. destruct s. by cbn. Qed.

(** A refusal that records where. *)
Lemma verdict_fail_at f v code reason s A Q :
  (steady -> ~ A) -> verdict (set_field f v ≫= fun _ => layout_fail code reason) s A Q.
Proof. unfold verdict. destruct s. by cbn. Qed.

Lemma verdict_iff p s A B Q : verdict p s A Q -> (A <-> B) -> verdict p s B Q.
Proof. unfold verdict. destruct (p s) as [s' [u|st r|f]]; naive_solver. Qed.

Lemma verdict_mono p s A (Q R : _ -> Prop) : verdict p s A Q -> (forall s', A -> Q s' -> R s') -> verdict p s A R.
Proof. unfold verdict. destruct (p s) as [s' [u|st r|f]]; naive_solver. Qed.

(** ** Padding *)

Definition zeros (n : Z) : list Z := replicate (Z.to_nat n) 0.

Lemma first_nonzero_None bytes i : first_nonzero bytes i = None <-> bytes = zeros (zlen bytes).
Proof.
  revert i. induction bytes as [|x bytes IH]; intros i; [done|]. cbn [first_nonzero]. unfold zeros in *. rewrite to_nat_zlen in *.
  cbn [length replicate]. destruct (x =? 0) eqn:E; [rewrite IH|]; split; intros H; try done.
  - f_equal; [lia|done].
  - by injection H.
  - injection H as H _. lia.
Qed.

Lemma zeros_app m n : 0 <= m -> 0 <= n -> zeros (m + n) = zeros m ++ zeros n.
Proof. intros. unfold zeros. rewrite Z2Nat.inj_add by lia. apply replicate_add. Qed.

(** The state after a padding was read: only the counters of the reads and the
    offset of the failure may differ. *)
Definition padding_frame (s s' : yvex_gguf_layout_result * layout_cursor) : Prop :=
  s'.2 = s.2 /\ forall f, f <> padding_bytes_read -> f <> padding_read_calls -> f <> failure_absolute_offset ->
    lr_field s'.1 f = lr_field s.1 f.

Lemma padding_verdict fuel offset length done_ code s :
  0 <= offset -> 0 <= done_ <= length -> offset + length <= a_size artifact -> is_u64 (a_size artifact) ->
  length - done_ <= Z.of_nat fuel * 4096 ->
  verdict (padding_loop artifact io fuel offset length done_ code) s
    (slice (a_bytes artifact) (offset + done_) (length - done_) = zeros (length - done_)) (padding_frame s).
Proof.
  revert done_ s. induction fuel as [|fuel IH]; intros d s Ho Hd Hl Hu Hf; cbn [padding_loop];
    unfold is_u64 in Hu; (destruct (length <=? d) eqn:E;
    [replace (length - d) with 0 by lia; eapply verdict_iff; [apply verdict_ret; by split|done]|]); [lia|].
  unfold YVEX_GGUF_LAYOUT_PADDING_CHUNK. set (t := if 4096 <? length - d then 4096 else length - d).
  assert (1 <= t <= 4096 /\ t <= length - d /\ (t = 4096 \/ t = length - d)) as Ht by (unfold t; destruct (4096 <? length - d) eqn:?; lia).
  eapply verdict_step; [reflexivity|]. rewrite u64_id by (unfold is_u64; lia).
  pose proof (artifact_read_exact artifact (io (lr_field s.1 padding_read_calls)) (offset + d) t ltac:(lia) ltac:(lia)
    ltac:(unfold is_u64; lia)) as Hr.
  destruct (yvex_artifact_read_at _ _ _ _) as [bytes|st r|f]; [| |done].
  2:{ apply verdict_fail_at. intros (Hio & Hs & Hmax) _.
      specialize (Hio (lr_field s.1 padding_read_calls)). destruct Hr as [Hr|[Hr|[Hr|Hr]]]; [lia|done|lia|lia]. }
  destruct Hr as (-> & Hz & _). destruct s as [out cur].
  do 3 (eapply verdict_step; [reflexivity|]).
  assert (slice (a_bytes artifact) (offset + d) (length - d)
    = slice (a_bytes artifact) (offset + d) t ++ slice (a_bytes artifact) (offset + (d + t)) (length - (d + t))) as Es.
  { replace (length - d) with (t + (length - (d + t))) by lia. rewrite slice_app by lia. by rewrite Z.add_assoc. }
  assert (zeros (length - d) = zeros t ++ zeros (length - (d + t))) as Ez by (rewrite <- zeros_app by lia; f_equal; lia).
  rewrite Es, Ez. destruct (first_nonzero _ 0) as [i|] eqn:Ef.
  - apply verdict_fail_at. intros _ H. apply app_inj_1 in H as [H _].
    + rewrite (proj2 (first_nonzero_None _ 0)) in Ef; [done|]. by rewrite Hz.
    + unfold zeros, zlen in *. rewrite length_replicate. lia.
  - apply first_nonzero_None in Ef. rewrite Hz in Ef. eapply verdict_iff; [eapply verdict_mono; [apply IH; [lia|lia|done|done|lia]|]|].
    + intros s' _ [H1 H2]. split; [exact H1|]. intros f Hf1 Hf2 Hf3. rewrite H2 by done. cbn.
      rewrite !fn_lookup_insert_ne by done. done.
    + rewrite Ef. split; [by intros ->|]. intros H. by apply app_inv_head in H.
Qed.

Lemma read_padding_verdict offset length code s :
  0 <= offset -> 0 <= length -> offset + length <= a_size artifact -> is_u64 (a_size artifact) ->
  verdict (read_zero_padding artifact io offset length code) s
    (slice (a_bytes artifact) offset length = zeros length) (padding_frame s).
Proof.
  intros Ho Hl Hs Hu. unfold read_zero_padding, YVEX_GGUF_LAYOUT_PADDING_CHUNK.
  pose proof (padding_verdict (S (Z.to_nat (length / 4096 + 1))) offset length 0 code s Ho ltac:(lia) Hs Hu) as H.
  rewrite Z.add_0_r, Z.sub_0_r in H. apply H. pose proof (Z.div_mod length 4096). pose proof (Z.mod_pos_bound length 4096).
  pose proof (Z.div_pos length 4096). lia.
Qed.

End Verdict.

(** ** Tensors *)

Section Tensors.
  Context (artifact : yvex_artifact) (io : Z -> list pread_answer).
  Context (Hsize : is_u64 (a_size artifact)).
  Context (g : yvex_gguf) (data k dpad count : Z) (options : yvex_gguf_reader_options).
  Context (Hdata : 0 <= data) (Hk : 0 <= k < 32) (Hcount : is_u64 count).

Notation verdict := (verdict artifact io).
Notation a := (2 ^ k).
Notation size := (a_size artifact).

Lemma alignment_pos : 0 < a <= 2 ^ 31.
Proof. split; [apply Z.pow_pos_nonneg; lia|apply Z.pow_le_mono_r; lia]. Qed.

(** The state before the tensor [i]: the data section is laid out up to [e], and the
    bytes counted add up to [t]. *)
Record laid (i e t : Z) (s : yvex_gguf_layout_result * layout_cursor) : Prop := {
  la_alignment : lr_field s.1 alignment = a;
  la_data : lr_field s.1 tensor_data_offset = data;
  la_size : lr_field s.1 actual_file_size = size;
  la_count : lr_field s.1 tensor_count = count;
  la_directory : lr_field s.1 directory_padding_bytes = dpad;
  la_expected : lc_expected s.2 = e;
  la_raw : 0 <= lr_field s.1 raw_tensor_bytes;
  la_inter : 0 <= lr_field s.1 inter_tensor_padding_bytes;
  la_final : 0 <= lr_field s.1 final_tensor_padding_bytes;
  la_last : i < count -> lr_field s.1 final_tensor_padding_bytes = 0;
  la_sum : lr_field s.1 raw_tensor_bytes + lr_field s.1 inter_tensor_padding_bytes
           + lr_field s.1 final_tensor_padding_bytes = t
}.

(** The members that only describe the tensor being examined. *)
Definition diagnostic (f : layout_field) : bool :=
  match f with
  | alignment | tensor_data_offset | actual_file_size | tensor_count | directory_padding_bytes | raw_tensor_bytes
  | inter_tensor_padding_bytes | final_tensor_padding_bytes => false
  | _ => true
  end.

Lemma verdict_set i e t f v (q : unit -> LO unit) s A Q :
  diagnostic f = true -> laid i e t s -> (forall s', laid i e t s' -> verdict (q tt) s' A Q) ->
  verdict (set_field f v ≫= q) s A Q.
Proof.
  intros Hf Hs Hq. destruct s as [out cur]. eapply verdict_step; [reflexivity|]. apply Hq.
  destruct Hs. split; cbn [fst snd lr_field] in *; rewrite ?fn_lookup_insert_ne by (by destruct f); done.
Qed.

Lemma verdict_name i e t name (q : unit -> LO unit) s A Q :
  laid i e t s -> (forall s', laid i e t s' -> verdict (q tt) s' A Q) -> verdict (set_tensor_name name ≫= q) s A Q.
Proof.
  intros Hs Hq. destruct s as [out cur]. eapply verdict_step; [reflexivity|]. apply Hq. destruct Hs. by split.
Qed.

Lemma verdict_get f (q : Z -> LO unit) s A Q : verdict (q (lr_field s.1 f)) s A Q -> verdict (get_field f ≫= q) s A Q.
Proof. intros H. by eapply verdict_step. Qed.

Lemma verdict_cursor (q : layout_cursor -> LO unit) s A Q : verdict (q s.2) s A Q -> verdict (get_cursor ≫= q) s A Q.
Proof. intros H. by eapply verdict_step. Qed.

Lemma verdict_lift {X} (c : outcome X) (q : X -> LO unit) s x A Q :
  c = Done x -> verdict (q x) s A Q -> verdict (so_lift c ≫= q) s A Q.
Proof. intros -> H. by eapply verdict_step. Qed.

Lemma laid_frame i e t s s' : padding_frame s s' -> laid i e t s -> laid i e t s'.
Proof. intros [H1 H2] []. split; rewrite ?H1, ?H2 by done; done. Qed.

(** The padding after the payload of a row that starts at [e]. *)
Definition row_end (e : Z) (r : tensor_row) : Z := aligned (e + row_bytes r) a.

Definition row_laid (e : Z) (r : tensor_row) : Prop :=
  r_offset r = e /\ data + row_end e r <= size
  /\ slice (a_bytes artifact) (data + e + row_bytes r) (row_end e r - (e + row_bytes r))
     = zeros (row_end e r - (e + row_bytes r)).

Lemma offset_refused offset raw_end cur s A Q : (steady artifact io -> ~ A) -> verdict (offset_refusal offset raw_end cur) s A Q.
Proof. intros H. unfold offset_refusal. repeat case_match; by apply verdict_fail. Qed.

(** The storage of a row of the view. *)
Lemma placed_storage r align :
  row_ok options align r ->
  exists st, yvex_gguf_qtype_tensor_storage (t_ggml_type (placed_info data size r)) (Some (t_dims (placed_info data size r)))
      (t_rank (placed_info data size r)) = Done st
    /\ sr_status st = STORAGE_OK /\ sr_total_bytes st = row_bytes r.
Proof.
  intros Hr. cbn. destruct (storage_exact (r_type r) (r_dims r) (replicate (4 - length (r_dims r)) 0)) as (st & E & Ha);
    [apply (ro_type _ _ _ Hr)|apply (ro_dims _ _ _ Hr)|].
  exists st. split; [exact E|]. unfold storage_answer in Ha. unfold row_bytes. pose proof (ro_bytes _ _ _ Hr) as Hb.
  destruct (tensor_bytes (r_type r) (r_dims r)); [|by destruct Hb]. by destruct Ha as (-> & -> & _).
Qed.

(** The counters after a tensor. *)
Lemma totals_verdict i e bytes pad r1 r2 (q : unit -> LO unit) s A Q :
  laid i e e s -> 0 <= bytes -> 0 <= pad -> e + bytes + pad <= ULLONG_MAX -> 0 <= i < count ->
  (forall s', laid (i + 1) e (e + bytes + pad) s' -> verdict (q tt) s' A Q) ->
  verdict (add_field raw_tensor_bytes bytes r1 ≫= fun _ => get_field tensor_count ≫= fun n =>
    (if u64 (i + 1) <? n then add_field inter_tensor_padding_bytes pad r2 else set_field final_tensor_padding_bytes pad)
    ≫= q) s A Q.
Proof.
  intros Hs Hb Hp Hle Hi Hq. unfold is_u64 in Hcount. destruct s as [out cur]. destruct Hs. cbn [fst snd] in *.
  assert (forall out f v r, lr_field out f + v <= ULLONG_MAX -> add_field f v r (out, cur)
    = ((mk_layout_result (lr_code out) (lr_accepted out) (lr_reason out) (lr_tensor_name out)
          (<[f := lr_field out f + v]> (lr_field out)), cur), Done tt)) as Hadd.
  { intros o f v r H. unfold add_field, mbind, so_bind, get_field, yvex_gguf_layout_sum_checked. cbn [fst].
    by replace (ULLONG_MAX - lr_field o f <? v) with false by lia. }
  specialize (la_last0 ltac:(lia)).
  eapply verdict_step; [apply Hadd; lia|]. apply verdict_get. cbn [fst lr_field]. rewrite fn_lookup_insert_ne by done.
  rewrite la_count0, u64_id by (unfold is_u64; lia). destruct (i + 1 <? count) eqn:E.
  - eapply verdict_step; [apply Hadd; cbn [lr_field]; rewrite fn_lookup_insert_ne by done; lia|]. apply Hq.
    split; cbn [fst snd lr_field]; rewrite ?fn_lookup_insert, ?fn_lookup_insert_ne, ?fn_lookup_insert, ?fn_lookup_insert_ne by done;
      done || lia.
  - eapply verdict_step; [reflexivity|]. apply Hq.
    split; cbn [fst snd lr_field]; rewrite ?fn_lookup_insert, ?fn_lookup_insert_ne, ?fn_lookup_insert, ?fn_lookup_insert_ne by done;
      done || lia.
Qed.

Lemma tensor_verdict i e r s align :
  yvex_gguf_tensor_at g i = Done (Some (placed_info data size r)) -> row_ok options align r ->
  data + r_offset r + row_bytes r <= ULLONG_MAX -> 0 <= i < count -> (i = 0 -> e = 0) -> 0 <= e -> laid i e e s ->
  verdict (layout_validate_tensor artifact io g i) s (row_laid e r) (laid (i + 1) (row_end e r) (row_end e r)).
Proof.
  intros Hat Hr Hfit Hi H0 He Hs.
  destruct (placed_storage r align Hr) as (st & Est & Eok & Etotal). pose proof (row_bytes_nonneg r) as Hb.
  pose proof (ro_offset _ _ _ Hr) as Hoff. unfold is_u64 in Hoff, Hsize, Hcount. pose proof alignment_pos as Ha.
  pose proof (aligned_bounds (r_offset r + row_bytes r) a ltac:(lia)) as Hal. unfold ULLONG_MAX, UINT64_MAX in *.
  unfold layout_validate_tensor. eapply verdict_lift; [exact Hat|].
  apply (verdict_set i e e); [done|done|]. clear s Hs. intros s Hs.
  apply (verdict_name i e e); [done|]. clear s Hs. intros s Hs. apply verdict_cursor.
  pose proof (la_expected _ _ _ _ Hs) as Ecur. revert Ecur. generalize s.2. intros cur0 Ecur. rewrite Ecur.
  do 2 (apply (verdict_set i e e); [done|done|]; clear s Hs; intros s Hs).
  eapply verdict_lift; [exact Est|]. rewrite Eok, bool_decide_true by done. cbn [negb].
  apply (verdict_set i e e); [done|done|]. clear s Hs. intros s Hs. rewrite Etotal.
  cbn [placed_info t_storage_bytes t_relative_offset t_absolute_offset t_absolute_end_offset]. rewrite Z.eqb_refl. cbn [negb].
  apply verdict_get. rewrite (la_alignment _ _ _ _ Hs).
  rewrite measure_spec by (unfold ULLONG_MAX, UINT64_MAX; lia). unfold ULLONG_MAX, UINT64_MAX.
  unfold row_laid. destruct (_ <=? 18446744073709551615) eqn:E1.
  2:{ apply verdict_fail. intros (_ & _ & Hmax) (<- & Hle & _). unfold row_end, INT64_MAX in *. lia. }
  do 3 (apply (verdict_set i e e); [done|done|]; clear s Hs; intros s Hs).
  destruct ((i =? 0) && negb (r_offset r =? 0)) eqn:E2; [apply verdict_fail; intros _ (<- & _); lia|].
  destruct ((0 <? i) && negb (r_offset r =? e)) eqn:E3; [apply offset_refused; intros _ (<- & _); lia|].
  assert (r_offset r = e) as Eo by (destruct (decide (i = 0)); lia). clear E2 E3.
  apply verdict_get, verdict_get. rewrite (la_data _ _ _ _ Hs), (la_size _ _ _ _ Hs).
  unfold yvex_gguf_layout_sum_checked, ULLONG_MAX, UINT64_MAX.
  replace (18446744073709551615 - data <? r_offset r) with false by lia.
  replace (18446744073709551615 - (data + r_offset r) <? row_bytes r) with false by lia.
  destruct (_ <? aligned _ _) eqn:E4; [apply verdict_fail; intros _ (_ & Hle & _); unfold row_end in Hle; rewrite <- Eo in Hle; lia|].
  rewrite !Z.eqb_refl. cbn [negb orb].
  destruct (size <? _) eqn:E5; [apply verdict_fail_at; intros _ (_ & Hle & _); unfold row_end in Hle; rewrite <- Eo in Hle; lia|].
  destruct (size <? data + _) eqn:E6; [apply verdict_fail_at; intros _ (_ & Hle & _); unfold row_end in Hle; rewrite <- Eo in Hle; lia|].
  rewrite Eo in *. fold (row_end e r) in *. set (pad := row_end e r - (e + row_bytes r)) in *.
  rewrite u64_id by (unfold is_u64; lia). eapply verdict_iff with (A := slice (a_bytes artifact) (data + e + row_bytes r) pad = zeros pad).
  2:{ split; [|tauto]. intros H. split; [done|]. split; [lia|done]. }
  apply (totals_verdict i e); [done|done|lia|unfold ULLONG_MAX, UINT64_MAX; lia|done|].
  replace (e + row_bytes r + pad) with (row_end e r) by lia. clear s Hs. intros s Hs.
  eapply verdict_iff.
  { eapply verdict_bind; [apply read_padding_verdict; [lia|lia|lia|done]|].
    intros _ s' Hf. apply (laid_frame _ _ _ _ _ Hf) in Hs. clear s Hf. destruct s' as [out cur].
    eapply verdict_step; [reflexivity|]. apply verdict_get. eapply verdict_last; [reflexivity|].
    destruct Hs. split; cbn [fst snd lr_field lc_expected] in *; rewrite ?fn_lookup_insert_ne by done; done. }
  tauto.
Qed.

(** ** The data section *)

(** The rows laid out from [e], and where the last one ends. *)
Fixpoint rows_laid (e : Z) (rows : list tensor_row) : Prop :=
  match rows with
  | [] => True
  | r :: rows => row_laid e r /\ rows_laid (row_end e r) rows
  end.

Fixpoint rows_end (e : Z) (rows : list tensor_row) : Z :=
  match rows with [] => e | r :: rows => rows_end (row_end e r) rows end.

Lemma row_end_bounds e r : e <= row_end e r.
Proof. unfold row_end. pose proof alignment_pos. pose proof (row_bytes_nonneg r). pose proof (aligned_bounds (e + row_bytes r) a). lia. Qed.

Lemma rows_verdict align before rows e s :
  (forall i r, zget (before ++ rows) i = Some r -> yvex_gguf_tensor_at g i = Done (Some (placed_info data size r))) ->
  Forall (row_ok options align) rows -> Forall (fun r => data + r_offset r + row_bytes r <= ULLONG_MAX) rows ->
  zlen before + zlen rows = count -> (before = [] -> e = 0) -> 0 <= e -> laid (zlen before) e e s ->
  verdict (so_each (layout_validate_tensor artifact io g) ((fun j => zlen before + Z.of_nat j) <$> seq 0 (length rows))) s
    (rows_laid e rows) (laid count (rows_end e rows) (rows_end e rows)).
Proof.
  revert before e s. induction rows as [|r rows IH]; intros before e s Hat Hrows Hfit Hn H0 He Hs; cbn [length seq fmap list_fmap so_each].
  { apply verdict_ret. cbn [rows_end]. rewrite zlen_nil, Z.add_0_r in Hn. by rewrite Hn in Hs. }
  apply Forall_cons_1 in Hrows as [Hr Hrows]. apply Forall_cons_1 in Hfit as [Hf Hfit]. rewrite zlen_cons in Hn.
  pose proof (zlen_nonneg rows). pose proof (zlen_nonneg before).
  rewrite Z.add_0_r. replace ((fun j => zlen before + Z.of_nat j) <$> seq 1 (length rows))
    with ((fun j => zlen (before ++ [r]) + Z.of_nat j) <$> seq 0 (length rows)).
  2:{ rewrite <- fmap_S_seq, <- list_fmap_compose. apply list_fmap_ext. intros j x _. cbn. rewrite zlen_snoc. lia. }
  cbn [rows_laid rows_end]. pose proof (row_end_bounds e r). eapply verdict_bind.
  { apply (tensor_verdict _ _ _ _ align); [apply Hat, zget_middle|done|done|lia| |done|done].
    intros Hz. apply H0. by destruct before; [|rewrite zlen_cons in Hz; pose proof (zlen_nonneg before); lia]. }
  intros _ s' Hs'. apply IH; [by rewrite <- app_assoc|done|done|rewrite zlen_snoc; lia|by destruct before|lia|].
  by rewrite zlen_snoc.
Qed.

Lemma sum_verdict x y code reason (q : Z -> LO unit) s A Q :
  (ULLONG_MAX < x + y -> ~ A) -> (x + y <= ULLONG_MAX -> verdict (q (x + y)) s A Q) ->
  verdict (match yvex_gguf_layout_sum_checked x y with None => layout_fail code reason | Some z => q z end) s A Q.
Proof.
  intros Hf Hq. unfold yvex_gguf_layout_sum_checked. destruct (ULLONG_MAX - x <? y) eqn:E.
  - apply verdict_fail. intros _. apply Hf. lia.
  - apply Hq. lia.
Qed.

Lemma span_verdict e s :
  0 <= dpad <= data -> 0 <= e -> laid count e e s -> verdict layout_check_span s (data + e = size) (fun _ => True).
Proof.
  intros Hd He Hs. unfold layout_check_span. unfold is_u64 in Hsize.
  assert (size <= ULLONG_MAX) as Hmax by (unfold ULLONG_MAX, UINT64_MAX; lia).
  apply verdict_cursor. rewrite (la_expected _ _ _ _ Hs). apply (verdict_set count e e); [done|done|]. clear s Hs. intros s Hs.
  do 5 apply verdict_get. rewrite (la_directory _ _ _ _ Hs), (la_data _ _ _ _ Hs), (la_size _ _ _ _ Hs).
  pose proof (la_sum _ _ _ _ Hs). pose proof (la_raw _ _ _ _ Hs). pose proof (la_inter _ _ _ _ Hs). pose proof (la_final _ _ _ _ Hs).
  set (inter := lr_field s.1 inter_tensor_padding_bytes) in *. set (final := lr_field s.1 final_tensor_padding_bytes) in *.
  set (raw := lr_field s.1 raw_tensor_bytes) in *. clearbody inter final raw.
  apply sum_verdict; [lia|]. intros _. apply (verdict_set count e e); [done|done|]. clear s Hs. intros s Hs.
  apply sum_verdict; [lia|]. intros _. apply (verdict_set count e e); [done|done|]. clear s Hs. intros s Hs.
  apply sum_verdict; [lia|]. intros _. apply (verdict_set count e e); [done|done|]. clear s Hs. intros s Hs.
  destruct (size <? data + e) eqn:E1; [apply verdict_fail; lia|].
  apply (verdict_set count e e); [done|done|]. clear s Hs. intros s Hs.
  destruct (size - (data + e) =? 0) eqn:E2; cbn [negb]; [|apply verdict_fail_at; lia].
  eapply verdict_iff; [by apply verdict_ret|]. lia.
Qed.

End Tensors.

(** ** The validator *)

Section Validate.
  Context (artifact : yvex_artifact) (io : Z -> list pread_answer).
  Context (options : yvex_gguf_reader_options) (Hfile : file_ok artifact options).
  Context (doc : gguf_document) (al : Z) (b : list Z) (Hdoc : gguf_file artifact options doc al b).

Notation verdict := (verdict artifact io).
Notation g := (doc_view artifact doc al).
Notation data := (aligned (zlen b) al).
Notation rows := (doc_tensors doc).

Lemma view_members :
  yvex_gguf_alignment g = al /\ yvex_gguf_tensor_count g = zlen rows /\ yvex_gguf_tensor_data_offset g = data
  /\ st_file_size (g_stats g) = a_size artifact /\ st_directory_end_offset (g_stats g) = zlen b.
Proof.
  destruct Hdoc as (Ht & _). destruct (doc_cost_ok options doc b Ht) as (_ & Hb & _).
  unfold doc_view, doc_stats, placed_view, base_view, view_before, yvex_gguf_alignment, yvex_gguf_tensor_count, yvex_gguf_tensor_data_offset.
  rewrite <- Hb. by destruct (doc_metadata doc), (doc_tensors doc).
Qed.

Lemma view_row i r : zget rows i = Some r -> yvex_gguf_tensor_at g i = Done (Some (placed_info data (a_size artifact) r)).
Proof.
  intros Hr. pose proof (zget_Some_range _ _ _ Hr) as Hi. destruct view_members as (_ & Hc & Hd & _).
  unfold yvex_gguf_tensor_at. unfold yvex_gguf_tensor_count in Hc. rewrite Hc.
  replace (i <? zlen rows) with true by lia.
  assert (g_tensors g = Some (placed_info data (a_size artifact) <$> rows)) as Eg.
  { assert (rows <> []) as Hne by (intros E; by rewrite E, zget_nil in Hr).
    rewrite <- Hd. unfold doc_view, placed_view, base_view, view_before, yvex_gguf_tensor_data_offset.
    clear -Hne. destruct (doc_metadata doc), (doc_tensors doc); done. }
  unfold tensor_at. rewrite Eg. cbn [deref mbind outcome_bind].
  assert (read_at (placed_info data (a_size artifact) <$> rows) i = Done (placed_info data (a_size artifact) r)) as ->; [|done].
  apply read_at_Done. rewrite zget_lookup by (unfold zlen in *; rewrite length_fmap; lia). rewrite list_lookup_fmap.
  rewrite zget_lookup in Hr by done. by rewrite Hr.
Qed.

(** The kernel reports the identity the handle captured. *)
Definition unchanged (stat : option yvex_artifact_snapshot * option yvex_artifact_snapshot) : Prop :=
  stat = (Some (a_snapshot artifact), Some (a_snapshot artifact)).

Lemma identity_verdict stat reason s (Q : _ -> Prop) : Q s -> verdict (layout_check_identity artifact stat reason) s (unchanged stat) Q.
Proof.
  intros HQ. unfold layout_check_identity, yvex_artifact_snapshot_validate, yvex_artifact_snapshot_equal, unchanged.
  destruct stat as [[x|] [y|]]; cbn [fst snd]; repeat case_bool_decide; cbn [negb];
    try (apply verdict_fail; intros _; congruence). split; [congruence|done].
Qed.

(** The alignment is a power of two. *)
Definition power_of_two (x : Z) : Prop := exists k, 0 <= k /\ x = 2 ^ k.

Lemma alignment_verdict s (Q : _ -> Prop) :
  lr_field s.1 alignment = al -> Q s -> verdict (layout_check_alignment g) s (power_of_two al) Q.
Proof.
  intros Hal HQ. unfold layout_check_alignment.
  pose proof Hdoc as ((texts & Hf & _) & Hok & _). pose proof (dk_alignment _ _ _ Hok) as Ha.
  pose proof (alignment_range options _ _ _ Hf Ha) as Hr.
  eapply verdict_lift; [apply (view_metadata artifact options Hfile doc al b), Hdoc|]. apply verdict_get. rewrite Hal.
  assert (verdict (if al =? 0 then layout_fail LAYOUT_INVALID_ALIGNMENT_VALUE "general.alignment must be nonzero" else
    if negb (Z.land al (u32 (al - 1)) =? 0)
    then layout_fail LAYOUT_ALIGNMENT_NOT_POWER_OF_TWO "general.alignment must be a power of two"
    else mret tt) s (power_of_two al) Q) as Hlast.
  { replace (al =? 0) with false by lia. rewrite u32_id by (unfold is_u32; lia). eapply verdict_iff; [|apply land_pred_zero; lia]. destruct (Z.land al (al - 1) =? 0) eqn:E; cbn [negb].
    - eapply verdict_iff; [by apply verdict_ret|]. lia.
    - apply verdict_fail. lia. }
  unfold alignment_of in Ha. destruct (entry_find (doc_metadata doc) general_alignment) as [[type as_]|] eqn:Ef;
    [|by eapply verdict_step].
  destruct type; try done. destruct as_ as [word| | | | |]; try done.
  destruct (word =? 0) eqn:E0; [done|]. injection Ha as ->. cbn [yvex_gguf_value_type_of v_type yvex_gguf_value_as_u64].
  rewrite bool_decide_true, Z.eqb_refl by done. by eapply verdict_step.
Qed.

(** What the validator accepts. *)
Definition layout_ok : Prop :=
  power_of_two al /\ data <= a_size artifact
  /\ slice (a_bytes artifact) (zlen b) (data - zlen b) = zeros (data - zlen b)
  /\ rows_laid artifact data (Z.log2 al) 0 rows /\ data + rows_end (Z.log2 al) 0 rows = a_size artifact.

Lemma log2_alignment : power_of_two al -> al = 2 ^ Z.log2 al /\ 0 <= Z.log2 al < 32.
Proof.
  intros (k & Hk & E). pose proof Hdoc as ((texts & Hf & _) & Hok & _).
  pose proof (alignment_range options _ _ _ Hf (dk_alignment _ _ _ Hok)) as Hr.
  rewrite E, Z.log2_pow2 by done. split; [done|]. split; [done|]. rewrite E in Hr.
  apply (Z.pow_lt_mono_r_iff 2); lia.
Qed.

(** The result after its first members are set. *)
Record view_fields (s : yvex_gguf_layout_result * layout_cursor) : Prop := {
  pp_alignment : lr_field s.1 alignment = al;
  pp_end : lr_field s.1 directory_end = zlen b;
  pp_size : lr_field s.1 actual_file_size = a_size artifact;
  pp_count : lr_field s.1 tensor_count = zlen rows;
  pp_raw : lr_field s.1 raw_tensor_bytes = 0;
  pp_inter : lr_field s.1 inter_tensor_padding_bytes = 0;
  pp_final : lr_field s.1 final_tensor_padding_bytes = 0;
  pp_expected : lc_expected s.2 = 0
}.

Lemma directory_verdict s :
  power_of_two al -> view_fields s ->
  verdict (layout_check_directory artifact io g) s
    (data <= a_size artifact /\ slice (a_bytes artifact) (zlen b) (data - zlen b) = zeros (data - zlen b))
    (laid artifact data (Z.log2 al) (data - zlen b) (zlen rows) 0 0 0).
Proof.
  intros Hp [H1 H2 H3 H4 H5 H6 H7 H8]. unfold layout_check_directory.
  destruct (log2_alignment Hp) as [Ea Hl]. destruct view_members as (_ & _ & Hd & _).
  pose proof (fo_size _ _ Hfile) as Hsize. unfold is_u64 in Hsize. pose proof (zlen_nonneg b).
  assert (0 < al <= 2 ^ 31) as Hal by (rewrite Ea; split; [apply Z.pow_pos_nonneg; lia|apply Z.pow_le_mono_r; lia]).
  pose proof (aligned_bounds (zlen b) al ltac:(lia)) as Hb.
  do 3 apply verdict_get. rewrite H1, H2, H3. rewrite Ea at 1. rewrite align_up_spec, <- Ea by lia.
  unfold ULLONG_MAX, UINT64_MAX. destruct (_ <=? 18446744073709551615) eqn:E1.
  2:{ apply verdict_fail. intros (_ & _ & Hmax) [Hle _]. unfold INT64_MAX in Hmax. lia. }
  destruct s as [out cur]. cbn [fst snd] in *. eapply verdict_step; [reflexivity|]. rewrite Hd, Z.eqb_refl. cbn [negb].
  eapply verdict_step; [reflexivity|]. destruct (a_size artifact <? data) eqn:E2; [apply verdict_fail_at; lia|].
  rewrite u64_id by (unfold is_u64; lia). eapply verdict_iff; [|split; [intros Hz; split; [lia|exact Hz]|tauto]].
  eapply verdict_mono; [apply read_padding_verdict; [lia|lia|lia|done]|].
  intros s' _ Hfr. eapply laid_frame; [exact Hfr|].
  split; cbn [fst snd lr_field]; rewrite ?fn_lookup_insert, ?fn_lookup_insert_ne, ?fn_lookup_insert, ?fn_lookup_insert_ne by done;
    rewrite ?H5, ?H6, ?H7; done || lia.
Qed.

Lemma validate_verdict before after :
  verdict (layout_validate artifact io g before after) (layout_result_init, mk_layout_cursor 0 0 0)
    (unchanged before /\ layout_ok /\ unchanged after) (fun s => lr_code s.1 = LAYOUT_OK /\ lr_accepted s.1 = true).
Proof.
  destruct view_members as (Ha & Hc & Hd & Hz & He). unfold layout_validate. unfold yvex_gguf_reader_stats_view.
  rewrite Ha, Hc, Hd, Hz, He, Z.eqb_refl. cbn [negb].
  do 7 (eapply verdict_step; [reflexivity|]).
  match goal with |- GgufLayout.verdict _ _ _ ?s0 _ _ =>
    assert (view_fields s0) as Hs by (split; reflexivity); revert Hs; generalize s0 end.
  intros s Hs. pose proof (fo_size _ _ Hfile) as Hsize. pose proof (zlen_nonneg b) as Hbn. pose proof (zlen_nonneg rows) as Hrn.
  destruct (document_size artifact options Hfile doc al b Hdoc) as [_ Hmax].
  pose proof Hdoc as (_ & Hok & _ & Hplace & _).
  eapply verdict_iff.
  { eapply verdict_bind; [by apply (identity_verdict _ _ _ view_fields)|]. intros _ s1 H1.
    eapply verdict_bind; [apply (alignment_verdict _ view_fields); [apply H1|done]|]. intros Hp s2 H2.
    destruct (log2_alignment Hp) as [Ea Hl].
    assert (0 < al) as Hal by (rewrite Ea; apply Z.pow_pos_nonneg; lia). pose proof (aligned_bounds (zlen b) al Hal) as Hdb.
    eapply verdict_bind; [by apply directory_verdict|]. intros [Hle _] s3 H3.
    apply verdict_get. rewrite (la_count _ _ _ _ _ _ _ _ _ H3).
    replace (zseq (zlen rows)) with ((fun j => zlen (@nil tensor_row) + Z.of_nat j) <$> seq 0 (length rows))
      by (unfold zseq; by rewrite to_nat_zlen).
    eapply verdict_bind.
    { apply (rows_verdict artifact io Hsize g data (Z.log2 al) (data - zlen b) (zlen rows) options ltac:(lia) Hl
        ltac:(unfold is_u64; lia) al []); [apply view_row|apply (dk_rows _ _ _ Hok)| |rewrite zlen_nil; lia|done|done|exact H3].
      destruct (decide (rows = [])) as [->|Hne]; [apply Forall_nil_2|]. by apply Hplace. }
    intros Hlaid s4 H4.
    assert (0 <= rows_end (Z.log2 al) 0 rows) as Hend.
    { assert (forall l e, 0 <= e -> 0 <= rows_end (Z.log2 al) e l) as Hpos; [|by apply Hpos].
      induction l as [|r l IH]; intros e Hle'; cbn [rows_end]; [done|]. apply IH.
      pose proof (row_end_bounds (Z.log2 al) Hl e r). lia. }
    eapply verdict_bind; [apply (span_verdict artifact io Hsize data (Z.log2 al) (data - zlen b) (zlen rows)); [lia|done|exact H4]|].
    intros _ s5 _. eapply verdict_bind; [by apply (identity_verdict _ _ _ (fun _ => True))|]. intros _ s6 _. destruct s6 as [out cur].
    eapply verdict_last; [reflexivity|]. done. }
  unfold layout_ok. tauto.
Qed.

End Validate.

(** ** The shape of a canonical file *)

(** The data section from [e]: every payload starts where the padding before it
    ends, and is followed by zeros up to the alignment. *)
Fixpoint payload_text (k e : Z) (rows : list tensor_row) (body : list Z) : Prop :=
  match rows with
  | [] => body = []
  | r :: rows => r_offset r = e /\ exists payload rest, zlen payload = row_bytes r
      /\ body = payload ++ zeros (row_end k e r - (e + row_bytes r)) ++ rest /\ payload_text k (row_end k e r) rows rest
  end.

(** The directory, zeros up to the alignment, the data section, and nothing else. *)
Definition canonical_file (artifact : yvex_artifact) (doc : gguf_document) (a : Z) (b : list Z) : Prop :=
  power_of_two a /\ exists body, a_bytes artifact = b ++ zeros (aligned (zlen b) a - zlen b) ++ body
    /\ payload_text (Z.log2 a) 0 (doc_tensors doc) body.

Lemma zlen_zeros n : 0 <= n -> zlen (zeros n) = n.
Proof. intros H. unfold zeros. rewrite zlen_replicate. lia. Qed.

Lemma drop_zlen (p q : list Z) : drop (Z.to_nat (zlen p)) (p ++ q) = q.
Proof. by rewrite to_nat_zlen, drop_app_length. Qed.

Lemma zlen_drop (l : list Z) n : 0 <= n <= zlen l -> zlen (drop (Z.to_nat n) l) = zlen l - n.
Proof. intros H. unfold zlen in *. rewrite length_drop. lia. Qed.

(** An interval and what follows it. *)
Lemma slice_cut (bytes rest x : list Z) o n :
  0 <= o -> 0 <= n -> o <= zlen bytes ->
  drop (Z.to_nat o) bytes = x ++ rest /\ zlen x = n
  <-> slice bytes o n = x /\ rest = drop (Z.to_nat (o + n)) bytes /\ o + n <= zlen bytes.
Proof.
  intros Ho Hn Hle. split.
  - intros [E Hx]. pose proof (zlen_drop bytes o ltac:(lia)) as Hz. rewrite E, zlen_app in Hz. pose proof (zlen_nonneg rest).
    pose proof (drop_slice bytes o n Ho Hn) as Hs. rewrite E in Hs.
    apply app_inj_1 in Hs as [-> ->]; [split; [done|split; [done|lia]]|].
    pose proof (slice_length bytes o n Ho Hn ltac:(lia)). unfold zlen in *. lia.
  - intros (<- & -> & Hle'). split; [by apply drop_slice|by apply slice_length].
Qed.

Section Shape.
  Context (artifact : yvex_artifact) (data k : Z).
  Context (Hsame : a_size artifact = zlen (a_bytes artifact)) (Hdata : 0 <= data) (Hk : 0 <= k < 32).

Lemma rows_shape e rows :
  0 <= e -> data + e <= a_size artifact ->
  rows_laid artifact data k e rows /\ data + rows_end k e rows = a_size artifact
  <-> payload_text k e rows (drop (Z.to_nat (data + e)) (a_bytes artifact)).
Proof.
  revert e. induction rows as [|r rows IH]; intros e He Hle; cbn [rows_laid rows_end payload_text].
  - pose proof (zlen_drop (a_bytes artifact) (data + e) ltac:(lia)) as Hz. split.
    + intros [_ E]. destruct (drop _ _); [done|]. rewrite zlen_cons in Hz. pose proof (zlen_nonneg l). lia.
    + intros E. rewrite E, zlen_nil in Hz. split; [done|lia].
  - pose proof (row_end_bounds k Hk e r) as Hb. pose proof (row_bytes_nonneg r) as Hn.
    pose proof (aligned_bounds (e + row_bytes r) (2 ^ k) ltac:(apply Z.pow_pos_nonneg; lia)) as Ha.
    fold (row_end k e r) in Ha. set (E := row_end k e r) in *. set (n := row_bytes r) in *. unfold row_laid. fold E. fold n. split.
    + intros [[(Ho & Hle' & Hz) Hrows] Hend]. split; [done|].
      exists (slice (a_bytes artifact) (data + e) n), (drop (Z.to_nat (data + E)) (a_bytes artifact)).
      split; [apply slice_length; lia|]. split; [|by apply IH; [lia|lia|]].
      rewrite (drop_slice _ (data + e) n) by lia. f_equal.
      rewrite (drop_slice _ (data + e + n) (E - (e + n))) by lia. rewrite Hz. f_equal. f_equal. f_equal. lia.
    + intros (Ho & payload & rest & Hp & Hd & Hrest).
      destruct (proj1 (slice_cut (a_bytes artifact) _ payload (data + e) n ltac:(lia) Hn ltac:(lia)) (conj Hd Hp)) as (_ & Hd2 & Hle2).
      destruct (proj1 (slice_cut (a_bytes artifact) rest (zeros (E - (e + n))) (data + e + n) (E - (e + n)) ltac:(lia) ltac:(lia) ltac:(lia)))
        as (Hz & Hd3 & Hle3); [split; [done|apply zlen_zeros; lia]|].
      replace (data + e + n + (E - (e + n))) with (data + E) in * by lia. rewrite Hd3 in Hrest.
      apply IH in Hrest as [H1 H2]; [|lia|lia]. split; [|done]. split; [|done]. split; [done|]. split; [lia|done].
Qed.

End Shape.

Lemma layout_shape artifact options doc a b :
  file_ok artifact options -> gguf_file artifact options doc a b -> a_size artifact = zlen (a_bytes artifact) ->
  layout_ok artifact doc a b <-> canonical_file artifact doc a b.
Proof.
  intros Hfile Hdoc Hsame. unfold layout_ok, canonical_file.
  assert (power_of_two a -> 0 <= Z.log2 a < 32 /\ 0 < a) as Hpow.
  { intros Hp. destruct (log2_alignment artifact options doc a b Hdoc Hp) as [E Hl]. split; [done|].
    rewrite E. apply Z.pow_pos_nonneg; lia. }
  pose proof Hdoc as (_ & _ & _ & _ & tail & Ht). pose proof (zlen_nonneg b) as Hb.
  assert (zlen b <= zlen (a_bytes artifact)) as Hlb by (rewrite Ht, zlen_app; pose proof (zlen_nonneg tail); lia).
  set (data := aligned (zlen b) a). split.
  - intros (Hp & Hle & Hz & Hrows & Hend). destruct (Hpow Hp) as [Hl Ha]. split; [done|].
    pose proof (aligned_bounds (zlen b) a Ha) as Hbd. fold data in Hbd.
    pose proof (proj1 (rows_shape artifact data (Z.log2 a) Hsame ltac:(lia) Hl 0 (doc_tensors doc) ltac:(lia) ltac:(lia)) (conj Hrows Hend)) as Hpay.
    rewrite Z.add_0_r in Hpay. exists (drop (Z.to_nat data) (a_bytes artifact)). split; [|done].
    rewrite Ht at 1. f_equal. rewrite <- (drop_zlen b tail), <- Ht, (drop_slice _ (zlen b) (data - zlen b)) by lia.
    rewrite Hz. f_equal. f_equal. f_equal. lia.
  - intros (Hp & body & E & Hpay). destruct (Hpow Hp) as [Hl Ha]. split; [done|].
    pose proof (aligned_bounds (zlen b) a Ha) as Hbd. fold data in Hbd.
    destruct (proj1 (slice_cut (a_bytes artifact) body (zeros (data - zlen b)) (zlen b) (data - zlen b) Hb ltac:(lia) Hlb)) as (Hz & -> & Hle);
      [split; [rewrite E; apply drop_zlen|apply zlen_zeros; lia]|].
    replace (zlen b + (data - zlen b)) with data in * by lia. split; [lia|]. split; [done|].
    apply (rows_shape artifact data (Z.log2 a) Hsame ltac:(lia) Hl 0 (doc_tensors doc) ltac:(lia) ltac:(lia)). by rewrite Z.add_0_r.
Qed.

(** What the validator answers on the view of a file, in terms of its shape. *)
Lemma validate_spec artifact io options doc a b before after :
  file_ok artifact options -> a_size artifact = zlen (a_bytes artifact) -> gguf_file artifact options doc a b ->
  match yvex_gguf_layout_validate (Some artifact) (Some (doc_view artifact doc a)) io before after with
  | (out, Done _) => lr_code out = LAYOUT_OK /\ lr_accepted out = true
      /\ unchanged artifact before /\ unchanged artifact after /\ canonical_file artifact doc a b
  | (_, Refuse _ _) => steady artifact io ->
      ~ (unchanged artifact before /\ unchanged artifact after /\ canonical_file artifact doc a b)
  | (_, Fault _) => False
  end.
Proof.
  intros Hfile Hsame Hf. pose proof (layout_shape artifact options doc a b Hfile Hf Hsame) as Hshape.
  pose proof (validate_verdict artifact io options Hfile doc a b Hf before after) as H.
  unfold verdict in H. unfold yvex_gguf_layout_validate.
  destruct (layout_validate _ _ _ _ _ _) as [[out cur] [u|st r|f]]; cbn [fst] in *; [|tauto|done].
  destruct H as ((H1 & H2 & H3) & H4 & H5). tauto.
Qed.

(** ** Theorems *)

(** C6: The layout validator accepts exactly the canonical files.  On the view of a
    file the reader accepted, whose recorded size is its length, it returns without a fault; it accepts only when the
    file was unchanged before and after, the alignment is a power of two, and the
    bytes are the directory, zeros up to the alignment, then every payload at its
    declared offset followed by zeros up to the alignment, and nothing else: no
    gap, overlap or trailing byte.  When reads succeed it refuses no such file. *)
Theorem gguf_layout_exact artifact io alloc options result g io2 before after :
  file_ok artifact options -> a_size artifact = zlen (a_bytes artifact) ->
  yvex_gguf_open_ex (Some artifact) io alloc (Some options) = (result, Done g) ->
  exists doc a b, gguf_file artifact options doc a b /\ g = doc_view artifact doc a
    /\ match yvex_gguf_layout_validate (Some artifact) (Some g) io2 before after with
       | (out, Done _) => lr_code out = LAYOUT_OK /\ lr_accepted out = true
           /\ unchanged artifact before /\ unchanged artifact after /\ canonical_file artifact doc a b
       | (_, Refuse _ _) => steady artifact io2 ->
           ~ (unchanged artifact before /\ unchanged artifact after /\ canonical_file artifact doc a b)
       | (_, Fault _) => False
       end.
Proof.
  intros Hfile Hsame E. pose proof (open_spec artifact io alloc options Hfile) as H. rewrite E in H.
  destruct H as (_ & doc & a & b & Hf & _ & ->). exists doc, a, b. split; [done|]. split; [done|].
  by eapply validate_spec.
Qed.

(** The sample of the reader, its payload followed by zeros up to the alignment. *)
Definition canonical_sample : yvex_artifact :=
  let bytes := sample_bytes ++ zeros 24 in
  mk_artifact (zlen bytes) (mk_snapshot 1 2 (zlen bytes) 0 0 0 0) bytes.

Lemma canonical_sample_ok : file_ok canonical_sample yvex_gguf_reader_options_default.
Proof.
  split; [by vm_compute| |apply (fo_options _ _ sample_file_ok)].
  apply Forall_app. split; [apply (fo_bytes _ _ sample_file_ok)|]. apply Forall_replicate. by vm_compute.
Qed.

(** The padded sample is canonical, and the one without the padding is not. *)
Lemma gguf_layout_exact_witness :
  (exists doc a b, gguf_file canonical_sample yvex_gguf_reader_options_default doc a b /\ canonical_file canonical_sample doc a b)
  /\ exists doc a b, gguf_file sample_artifact yvex_gguf_reader_options_default doc a b /\ ~ canonical_file sample_artifact doc a b.
Proof.
  split.
  - set (same := (Some (a_snapshot canonical_sample), Some (a_snapshot canonical_sample))).
    destruct (yvex_gguf_open_ex (Some canonical_sample) (fun _ => []) (fun _ => true) (Some yvex_gguf_reader_options_default))
      as [result [g| |]] eqn:E; [|by vm_compute in E|by vm_compute in E].
    destruct (gguf_layout_exact canonical_sample (fun _ => []) (fun _ => true) yvex_gguf_reader_options_default result g (fun _ => [])
      same same canonical_sample_ok eq_refl E) as (doc & a & b & Hf & _ & H).
    vm_compute in E. injection E as _ <-.
    destruct (yvex_gguf_layout_validate _ _ _ _ _) as [out [u| |]] eqn:V; [|by vm_compute in V|by vm_compute in V].
    exists doc, a, b. split; [exact Hf|apply H].
  - set (same := (Some (a_snapshot sample_artifact), Some (a_snapshot sample_artifact))).
    destruct (yvex_gguf_open_ex (Some sample_artifact) (fun _ => []) (fun _ => true) (Some yvex_gguf_reader_options_default))
      as [result [g| |]] eqn:E; [|by vm_compute in E|by vm_compute in E].
    destruct (gguf_layout_exact sample_artifact (fun _ => []) (fun _ => true) yvex_gguf_reader_options_default result g (fun _ => [])
      same same sample_file_ok eq_refl E) as (doc & a & b & Hf & _ & H).
    vm_compute in E. injection E as _ <-.
    destruct (yvex_gguf_layout_validate _ _ _ _ _) as [out [u| |]] eqn:V; [by vm_compute in V| |by vm_compute in V].
    exists doc, a, b. split; [exact Hf|]. intros Hc. refine (H _ (conj eq_refl (conj eq_refl Hc))).
    split; [by intros n ?%not_elem_of_nil|]. split; [reflexivity|vm_compute; discriminate].
Defined.
