(* ===== verification/GgufWriter.v ===== *)
(** * GgufWriter: planning a GGUF file ([src/gguf/writer.c])

    Before tensors are encoded, the writer plans the file: it serializes the
    header, the metadata and the tensor directory, gives every tensor its range,
    and seals the plan under an identity.  This file models the byte level of the
    serializer, the staging of metadata, the layout of tensors and the plan of an
    explicit list of tensors ([writer_plan_build_tensor_proof]); the plans derived
    from a lowering or a component stage other metadata and call the same
    functions.

    A quantization plan is data: its summary and one decision per tensor.  The
    allocator answers each request; a buffer grows by the bytes it holds.  C text
    is the characters before the terminator. *)

From Stdlib Require Import ZArith Lia Bool SpecFloat.
From stdpp Require Import base list option numbers strings functions.
From S2P Require Import Prelude Core Words Sha256 Text Float64 Qtype Artifact GgufReader.

(** ** Constants *)

Definition WRITER_GGUF_VERSION : Z := 3.
Definition WRITER_DEFAULT_ALIGNMENT : Z := 32.
Definition WRITER_DEFAULT_BUDGET : Z := 128 * 1024 * 1024.
Definition WRITER_METADATA_CAP : Z := 96.
Definition WRITER_KEY_CAP : Z := 128.
Definition YVEX_GGUF_WRITER_SCHEMA_VERSION : Z := 1.
Definition YVEX_GGUF_WRITER_IDENTITY_CAP : Z := 65.
Definition YVEX_GGUF_WRITER_NAME_CAP : Z := 192.
Definition WRITER_PROFILE_NAME_CAP : Z := 64.

(** Sizes of the structures on LP64. *)
Definition SIZEOF_WRITER_PLAN : Z := 1336.
Definition SIZEOF_WRITER_TENSOR : Z := 288.
Definition SIZEOF_POINTER : Z := 8.

Definition strlen (text : string) : Z := Z.of_nat (String.length text).

(** ** Data *)

Inductive yvex_gguf_writer_code : Type :=
  | WRITER_OK | WRITER_INVALID_ARGUMENT | WRITER_UNSEALED_PLAN | WRITER_IDENTITY_MISMATCH
  | WRITER_METADATA_INCOMPLETE | WRITER_DUPLICATE_METADATA | WRITER_UNSUPPORTED_METADATA
  | WRITER_DUPLICATE_TENSOR | WRITER_TENSOR_DIVERGENCE | WRITER_QTYPE_GEOMETRY
  | WRITER_ARITHMETIC_OVERFLOW | WRITER_RESOURCE_LIMIT | WRITER_ALLOCATION | WRITER_SERIALIZATION
  | WRITER_LIFECYCLE.

Record yvex_gguf_writer_failure : Type := mk_writer_failure {
  wf_code : yvex_gguf_writer_code;
  wf_metadata_index : Z;
  wf_tensor_index : Z;
  wf_expected : Z;
  wf_actual : Z;
  wf_name : string
}.

Record yvex_gguf_writer_tensor : Type := mk_writer_tensor {
  wt_name : string;
  wt_rank : Z;
  wt_dims : list Z;
  wt_qtype : Z;
  wt_relative_offset : Z;
  wt_absolute_offset : Z;
  wt_raw_bytes : Z;
  wt_padded_bytes : Z;
  wt_absolute_end : Z;
  wt_padded_end : Z
}.

Definition writer_tensor_zero : yvex_gguf_writer_tensor := mk_writer_tensor "" 0 [0; 0; 0; 0] 0 0 0 0 0 0 0.

(** The numeric members of [yvex_gguf_writer_plan_summary], and its texts. *)
Inductive writer_number : Type :=
  | W_schema_version | W_gguf_version | W_alignment | W_metadata_count | W_tensor_count
  | W_structural_bytes | W_pre_data_padding_bytes | W_tensor_payload_bytes | W_tensor_padding_bytes
  | W_data_section_bytes | W_final_file_bytes | W_source_snapshot_identity | W_mapping_identity
  | W_tokenizer_token_count | W_tokenizer_merge_count | W_tokenizer_embedded_bytes | W_owned_bytes
  | W_payload_bytes_read.

Inductive writer_text : Type :=
  | W_payload_identity | W_transform_identity | W_profile_name | W_profile_identity
  | W_payload_plan_identity | W_required_execution_identity | W_writer_plan_identity.

#[export] Instance writer_number_eq_dec : EqDecision writer_number.
Proof. solve_decision. Defined.
#[export] Instance writer_text_eq_dec : EqDecision writer_text.
Proof. solve_decision. Defined.

(** A plan with its summary. *)
Record yvex_gguf_writer_plan : Type := mk_writer_plan {
  wp_number : writer_number -> Z;
  wp_text : writer_text -> string;
  wp_qtype_tensor_counts : list Z;
  wp_qtype_payload_bytes : list Z;
  wp_complete : bool;
  wp_tensors : list yvex_gguf_writer_tensor;
  wp_prefix : list Z
}.

Record yvex_gguf_writer_plan_options : Type := mk_plan_options {
  po_alignment : Z;
  po_maximum_owned_bytes : Z;
  po_required_execution_identity : option string
}.

Definition yvex_gguf_writer_plan_options_default : yvex_gguf_writer_plan_options :=
  mk_plan_options WRITER_DEFAULT_ALIGNMENT WRITER_DEFAULT_BUDGET None.

(** What the writer reads of a quantization plan. *)
Inductive yvex_quant_plan_state : Type :=
  | QUANT_PLAN_BUILDING | QUANT_PLAN_SEALED | QUANT_PLAN_RELEASED.

#[export] Instance quant_plan_state_eq_dec : EqDecision yvex_quant_plan_state.
Proof. solve_decision. Defined.

Record yvex_quant_decision : Type := mk_decision {
  qd_qtype : Z;
  qd_rank : Z;
  qd_dims : list Z;
  qd_encoded_bytes : Z
}.

Record yvex_quant_plan_summary : Type := mk_quant_summary {
  qs_state : yvex_quant_plan_state;
  qs_profile_name : string;
  qs_profile_identity : string;
  qs_payload_plan_identity : string;
  qs_transform_identity : string;
  qs_source_snapshot_identity : Z;
  qs_required_payload_identity : string;
  qs_mapping_identity : Z;
  qs_terminal_count : Z;
  qs_decision_count : Z;
  qs_encoded_bytes : Z;
  qs_complete : bool
}.

Record yvex_quant_plan : Type := mk_quant_plan {
  qp_summary : yvex_quant_plan_summary;
  qp_decisions : list yvex_quant_decision
}.

Definition yvex_quant_plan_summary_get (plan : option yvex_quant_plan) : option yvex_quant_plan_summary :=
  qp_summary <$> plan.

Definition yvex_quant_plan_decision_at (plan : option yvex_quant_plan) (ordinal : Z)
    : outcome (option yvex_quant_decision) :=
  match plan with
  | None => Done None
  | Some plan =>
      if bool_decide (qs_state (qp_summary plan) = QUANT_PLAN_SEALED)
         && (ordinal <? qs_decision_count (qp_summary plan))
      then d ← read_at (qp_decisions plan) ordinal; Done (Some d)
      else Done None
  end.

(** What the writer reads of imported tokenizer metadata: strings are spans of an arena. *)
Record tokenizer_string_ref : Type := mk_string_ref {
  sref_offset : Z;
  sref_length : Z;
  sref_present : bool
}.

Record yvex_gguf_tokenizer_metadata : Type := mk_tokenizer {
  tm_complete : bool;
  tm_token_count : Z;
  tm_merge_count : Z;
  tm_arena : list Z;
  tm_tokens : list tokenizer_string_ref;
  tm_token_types : list Z;
  tm_merges : list tokenizer_string_ref
}.

Definition yvex_gguf_tokenizer_token_at (metadata : option yvex_gguf_tokenizer_metadata) (index : Z)
    : outcome (option (tokenizer_string_ref * Z)) :=
  match metadata with
  | None => Done None
  | Some m =>
      if negb (tm_complete m) || (tm_token_count m <=? index) then Done None else
      token ← read_at (tm_tokens m) index;
      if negb (sref_present token) then Done None else
      type ← read_at (tm_token_types m) index;
      Done (Some (token, type))
  end.

Definition yvex_gguf_tokenizer_merge_at (metadata : option yvex_gguf_tokenizer_metadata) (index : Z)
    : outcome (option tokenizer_string_ref) :=
  match metadata with
  | None => Done None
  | Some m =>
      if negb (tm_complete m) || (tm_merge_count m <=? index) then Done None else
      merge ← read_at (tm_merges m) index; Done (Some merge)
  end.

(** The bytes of a span. *)
Definition arena_bytes (metadata : option yvex_gguf_tokenizer_metadata) (span : tokenizer_string_ref)
    : outcome (list Z) :=
  match metadata with
  | None => Fault NullPointer
  | Some m =>
      if (sref_offset span <? 0) || (sref_length span <? 0) || (zlen (tm_arena m) <? sref_offset span + sref_length span)
      then Fault OutOfBounds
      else Done (slice (tm_arena m) (sref_offset span) (sref_length span))
  end.

(** ** Bytes *)

(** The buffer of the serializer.  A function that returns 0 refuses. *)
Definition writer_buffer : Type := yvex_core_bytes.
Definition WR (A : Type) : Type := SO writer_buffer A.

Definition writer_stop {S A} : SO S A := so_refuse YVEX_ERR_BOUNDS "writer refused".

Definition writer_align (value align : Z) : option Z :=
  if (align =? 0) || negb (Z.land align (u32 (align - 1)) =? 0) then None else
  let mask := align - 1 in
  if ULLONG_MAX - mask <? value then None
  else Some (Z.land (u64 (value + mask)) (u64 (Z.lnot mask))).

(** The requests of a plan to the allocator; a buffer asks by what it holds. *)
Inductive writer_request : Type :=
  | Request_plan | Request_tensors | Request_names | Request_buffer (count : Z).

(** The 32-bit pattern of a [float]; a NaN is quiet. *)
Definition f32_bits (x : spec_float) : Z :=
  let sign (s : bool) := if s then 0x80000000 else 0 in
  u32 match x with
      | S754_zero s => sign s
      | S754_infinity s => sign s + 0x7f800000
      | S754_nan => 0x7fc00000
      | S754_finite s m e => sign s + (if Zpos m <? 2 ^ 23 then Zpos m else (e + 149) * 2 ^ 23 + Zpos m)
      end.

Example f32_bits_examples :
  f32_bits (f32_of_f64 F64_ONE) = 0x3f800000 /\ f32_bits (f32_of_f64 0xbff8000000000000) = 0xbfc00000
  /\ f32_bits (f32_of_f64 F64_FLT_MAX) = 0x7f7fffff /\ f32_bits (f32_of_f64 0x36a0000000000000) = 1
  /\ f32_bits (f32_of_f64 0x3fb999999999999a) = 0x3dcccccd.
Proof. vm_compute. repeat split. Qed.

Section Bytes.
  Context (alloc : writer_request -> bool).

Definition buffer_append (bytes : list Z) : WR unit := fun b =>
  match yvex_core_bytes_append (alloc (Request_buffer (bytes_count b))) b bytes with
  | Some b => (b, Done tt)
  | None => writer_stop b
  end.

Definition buffer_append_zero (count : Z) : WR unit := fun b =>
  match yvex_core_bytes_append_zero (alloc (Request_buffer (bytes_count b))) b count with
  | Some b => (b, Done tt)
  | None => writer_stop b
  end.

Definition writer_u32 (value : Z) : WR unit := buffer_append (le_bytes 4 value).
Definition writer_u64 (value : Z) : WR unit := buffer_append (le_bytes 8 value).

(** Floating-point values are their patterns. *)
Definition writer_f32 (bits : Z) : WR unit := writer_u32 bits.
Definition writer_f64 (bits : Z) : WR unit := writer_u64 bits.

Definition writer_string (bytes : list Z) : WR unit :=
  _ ← writer_u64 (zlen bytes);
  buffer_append bytes.

End Bytes.

(** ** Metadata *)

Inductive writer_metadata_source : Type :=
  | WRITER_META_SCALAR | WRITER_META_TOKEN_ARRAY | WRITER_META_TOKEN_TYPE_ARRAY | WRITER_META_MERGE_ARRAY
  | WRITER_META_U64_ARRAY | WRITER_META_F64_ARRAY.

#[export] Instance writer_metadata_source_eq_dec : EqDecision writer_metadata_source.
Proof. solve_decision. Defined.

(** Any other code of the enumeration is [LOWERING_METADATA_OTHER]. *)
Inductive yvex_gguf_writer_lowering_metadata_type : Type :=
  | LOWERING_METADATA_STRING | LOWERING_METADATA_U64 | LOWERING_METADATA_F64 | LOWERING_METADATA_BOOL
  | LOWERING_METADATA_U64_ARRAY | LOWERING_METADATA_F64_ARRAY | LOWERING_METADATA_OTHER.

Record yvex_gguf_writer_lowering_metadata : Type := mk_lowering_metadata {
  lm_key : string;
  lm_type : yvex_gguf_writer_lowering_metadata_type;
  lm_string_value : string;
  lm_u64_value : Z;
  lm_f64_value : Z;
  lm_bool_value : bool;
  lm_array_values : list Z;
  lm_f64_array_values : list Z;
  lm_array_count : Z
}.

Record writer_metadata : Type := mk_writer_metadata {
  wm_key : string;
  wm_type : yvex_gguf_value_type;
  wm_source : writer_metadata_source;
  wm_string_bytes : option (list Z);
  wm_string_length : Z;
  wm_u64 : Z;
  wm_f64 : Z;
  wm_boolean : bool;
  wm_element_type : yvex_gguf_value_type;
  wm_count : Z;
  wm_map_entry : option yvex_gguf_writer_lowering_metadata
}.

(** An entry after [memset], with its key. *)
Definition writer_metadata_blank (key : string) : writer_metadata :=
  mk_writer_metadata key VALUE_UINT8 WRITER_META_SCALAR None 0 0 0 false VALUE_UINT8 0 None.

(** The entries staged so far. *)
Definition WM (A : Type) : Type := SO (list writer_metadata) A.

Definition writer_metadata_key_exists (entries : list writer_metadata) (key : string) : bool :=
  existsb (fun e => bool_decide (wm_key e = key)) entries.

(** The new entry is appended, and filled by the caller. *)
Definition writer_metadata_new (key : string) (fill : writer_metadata -> writer_metadata) : WM unit :=
  entries ← so_get;
  if bool_decide (key = "") || (WRITER_KEY_CAP <=? strlen key) || (WRITER_METADATA_CAP <=? zlen entries)
     || writer_metadata_key_exists entries key
  then writer_stop
  else so_put (entries ++ [fill (writer_metadata_blank (yvex_core_text_copy "" WRITER_KEY_CAP (Some key)))]).

Definition writer_metadata_find (entries : list writer_metadata) (key : string) : option writer_metadata :=
  list_find (fun e => wm_key e = key) entries ≫= fun p => Some p.2.

Definition string_entry (bytes : option (list Z)) (length : Z) (e : writer_metadata) : writer_metadata :=
  mk_writer_metadata (wm_key e) VALUE_STRING (wm_source e) bytes length (wm_u64 e) (wm_f64 e) (wm_boolean e)
    (wm_element_type e) (wm_count e) (wm_map_entry e).

Definition number_entry (type : yvex_gguf_value_type) (value : Z) (e : writer_metadata) : writer_metadata :=
  mk_writer_metadata (wm_key e) type (wm_source e) (wm_string_bytes e) (wm_string_length e) value (wm_f64 e)
    (wm_boolean e) (wm_element_type e) (wm_count e) (wm_map_entry e).

Definition double_entry (type : yvex_gguf_value_type) (bits : Z) (e : writer_metadata) : writer_metadata :=
  mk_writer_metadata (wm_key e) type (wm_source e) (wm_string_bytes e) (wm_string_length e) (wm_u64 e) bits
    (wm_boolean e) (wm_element_type e) (wm_count e) (wm_map_entry e).

Definition bool_entry (value : bool) (e : writer_metadata) : writer_metadata :=
  mk_writer_metadata (wm_key e) VALUE_BOOL (wm_source e) (wm_string_bytes e) (wm_string_length e) (wm_u64 e) (wm_f64 e)
    value (wm_element_type e) (wm_count e) (wm_map_entry e).

Definition array_entry (source : writer_metadata_source) (element_type : yvex_gguf_value_type) (count : Z)
    (e : writer_metadata) : writer_metadata :=
  mk_writer_metadata (wm_key e) VALUE_ARRAY source (wm_string_bytes e) (wm_string_length e) (wm_u64 e) (wm_f64 e)
    (wm_boolean e) element_type count (wm_map_entry e).

Definition mapped_entry (m : yvex_gguf_writer_lowering_metadata) (e : writer_metadata) : writer_metadata :=
  mk_writer_metadata (wm_key e) (wm_type e) (wm_source e) (wm_string_bytes e) (wm_string_length e) (wm_u64 e) (wm_f64 e)
    (wm_boolean e) (wm_element_type e) (wm_count e) (Some m).

(** A refusal after the entry was reserved leaves it blank. *)
Definition writer_meta_string (key : string) (bytes : option (list Z)) (byte_count : Z) : WM unit :=
  if bool_decide (bytes = None) && negb (byte_count =? 0)
  then (_ ← writer_metadata_new key id; writer_stop)
  else writer_metadata_new key (string_entry bytes byte_count).

Definition writer_meta_text (key : string) (text : option string) : WM unit :=
  match text with
  | None => writer_stop
  | Some text => writer_meta_string key (Some (string_bytes text)) (strlen text)
  end.

Definition writer_meta_u32 (key : string) (value : Z) : WM unit :=
  if UINT_MAX <? value then writer_stop else writer_metadata_new key (number_entry VALUE_UINT32 value).

Definition writer_meta_bool (key : string) (value : bool) : WM unit := writer_metadata_new key (bool_entry value).

(** [memcmp] of the staged bytes with a text of the same length. *)
Definition same_bytes (bytes : option (list Z)) (length : Z) (text : string) : outcome bool :=
  if length =? 0 then Done true else
  match bytes with
  | None => Fault NullPointer
  | Some l => if zlen l <? length then Fault OutOfBounds else Done (bool_decide (take (Z.to_nat length) l = string_bytes text))
  end.

Definition writer_meta_text_reconcile (key : string) (text : option string) : WM unit :=
  entries ← so_get;
  match writer_metadata_find entries key with
  | None => writer_meta_text key text
  | Some e =>
      match text with
      | None => writer_stop
      | Some text =>
          if bool_decide (wm_type e = VALUE_STRING) && bool_decide (wm_source e = WRITER_META_SCALAR)
             && (wm_string_length e =? strlen text)
          then same ← so_lift (same_bytes (wm_string_bytes e) (wm_string_length e) text);
               if same : bool then mret tt else writer_stop
          else writer_stop
      end
  end.

Definition writer_meta_u32_reconcile (key : string) (value : Z) : WM unit :=
  entries ← so_get;
  match writer_metadata_find entries key with
  | None => writer_meta_u32 key value
  | Some e =>
      if (value <=? UINT_MAX) && bool_decide (wm_type e = VALUE_UINT32)
         && bool_decide (wm_source e = WRITER_META_SCALAR) && (wm_u64 e =? value)
      then mret tt else writer_stop
  end.

Definition writer_meta_bool_reconcile (key : string) (value : bool) : WM unit :=
  entries ← so_get;
  match writer_metadata_find entries key with
  | None => writer_meta_bool key value
  | Some e =>
      if bool_decide (wm_type e = VALUE_BOOL) && bool_decide (wm_source e = WRITER_META_SCALAR)
         && Bool.eqb (wm_boolean e) value
      then mret tt else writer_stop
  end.

(** [!isfinite(x) || fabs(x) > FLT_MAX]. *)
Definition f64_beyond_float (bits : Z) : bool :=
  negb (f64_isfinite bits) || f64_bits_lt F64_FLT_MAX (Z.land bits (2 ^ 63 - 1)).

(** [strncmp(key, "yvex.", 5) == 0]. *)
Definition custom_key (key : string) : bool := String.prefix "yvex." key.

(** The refusals after the entry was reserved leave it as the code filled it. *)
Definition writer_meta_map (map_entry : option yvex_gguf_writer_lowering_metadata) : WM unit :=
  match map_entry with
  | None => writer_stop
  | Some m =>
      let add fill := writer_metadata_new (lm_key m) (fun e => fill (mapped_entry m e)) in
      let refuse_after fill := _ ← add fill; writer_stop in
      let custom := custom_key (lm_key m) in
      match lm_type m with
      | LOWERING_METADATA_STRING => add (string_entry (Some (string_bytes (lm_string_value m))) (strlen (lm_string_value m)))
      | LOWERING_METADATA_U64 =>
          if negb custom && (UINT_MAX <? lm_u64_value m) then refuse_after id
          else add (number_entry (if custom then VALUE_UINT64 else VALUE_UINT32) (lm_u64_value m))
      | LOWERING_METADATA_F64 =>
          if f64_beyond_float (lm_f64_value m) then refuse_after id
          else add (double_entry (if custom then VALUE_FLOAT64 else VALUE_FLOAT32) (lm_f64_value m))
      | LOWERING_METADATA_BOOL => add (bool_entry (lm_bool_value m))
      | LOWERING_METADATA_U64_ARRAY =>
          let fill := array_entry WRITER_META_U64_ARRAY (if custom then VALUE_UINT64 else VALUE_UINT32) (lm_array_count m) in
          if lm_array_count m =? 0 then refuse_after fill else add fill
      | LOWERING_METADATA_F64_ARRAY =>
          let fill := array_entry WRITER_META_F64_ARRAY (if custom then VALUE_FLOAT64 else VALUE_FLOAT32) (lm_array_count m) in
          if lm_array_count m =? 0 then refuse_after fill else add fill
      | LOWERING_METADATA_OTHER => refuse_after id
      end
  end.

Definition writer_meta_dynamic_array (key : string) (source : writer_metadata_source)
    (element_type : yvex_gguf_value_type) (element_count : Z) : WM unit :=
  if element_count =? 0 then (_ ← writer_metadata_new key id; writer_stop)
  else writer_metadata_new key (array_entry source element_type element_count).

(** What the writer reads of a tokenizer summary. *)
Record yvex_gguf_tokenizer_summary : Type := mk_tokenizer_summary {
  ts_token_count : Z;
  ts_merge_count : Z;
  ts_bos_token : option Z;
  ts_eos_token : option Z;
  ts_pad_token : option Z;
  ts_add_bos_token : bool;
  ts_add_eos_token : bool;
  ts_pre_tokenizer : string;
  ts_tokenizer_json_sha256 : string;
  ts_tokenizer_config_sha256 : string;
  ts_tokenizer_json_git_oid : string;
  ts_tokenizer_config_git_oid : string
}.

(** [if (present) ok = writer_meta_u32_reconcile(...)]. *)
Definition optional_token (key : string) (token : option Z) : WM unit :=
  match token with
  | None => mret tt
  | Some id => writer_meta_u32_reconcile key id
  end.

Definition writer_tokenizer_metadata_add (tokenizer : yvex_gguf_tokenizer_summary)
    (raw_json : option (list Z)) (raw_json_bytes : Z) (raw_config : option (list Z)) (raw_config_bytes : Z)
    (tokenizer_model prompt_policy : option string) (standalone : bool) (unk : option Z) : WM unit :=
  if bool_decide (default "" tokenizer_model = "") then writer_stop else
  _ ← writer_meta_text_reconcile "tokenizer.ggml.model" tokenizer_model;
  _ ← writer_meta_text_reconcile "tokenizer.ggml.pre" (Some (ts_pre_tokenizer tokenizer));
  _ ← writer_meta_dynamic_array "tokenizer.ggml.tokens" WRITER_META_TOKEN_ARRAY VALUE_STRING (ts_token_count tokenizer);
  _ ← writer_meta_dynamic_array "tokenizer.ggml.token_type" WRITER_META_TOKEN_TYPE_ARRAY VALUE_INT32 (ts_token_count tokenizer);
  _ ← writer_meta_dynamic_array "tokenizer.ggml.merges" WRITER_META_MERGE_ARRAY VALUE_STRING (ts_merge_count tokenizer);
  _ ← optional_token "tokenizer.ggml.bos_token_id" (ts_bos_token tokenizer);
  _ ← optional_token "tokenizer.ggml.eos_token_id" (ts_eos_token tokenizer);
  _ ← optional_token "tokenizer.ggml.padding_token_id" (ts_pad_token tokenizer);
  _ ← optional_token "tokenizer.ggml.unknown_token_id" unk;
  _ ← writer_meta_bool_reconcile "tokenizer.ggml.add_bos_token" (ts_add_bos_token tokenizer);
  _ ← writer_meta_bool_reconcile "tokenizer.ggml.add_eos_token" (ts_add_eos_token tokenizer);
  _ ← (if standalone then writer_meta_text "yvex.tokenizer.prompt_policy" prompt_policy else mret tt);
  _ ← writer_meta_string "tokenizer.huggingface.json" raw_json raw_json_bytes;
  _ ← writer_meta_string "yvex.tokenizer.config.json" raw_config raw_config_bytes;
  _ ← writer_meta_text "yvex.tokenizer.json.sha256" (Some (ts_tokenizer_json_sha256 tokenizer));
  _ ← writer_meta_text "yvex.tokenizer.config.sha256" (Some (ts_tokenizer_config_sha256 tokenizer));
  _ ← writer_meta_text "yvex.tokenizer.json.git_oid" (Some (ts_tokenizer_json_git_oid tokenizer));
  writer_meta_text "yvex.tokenizer.config.git_oid" (Some (ts_tokenizer_config_git_oid tokenizer)).

(** ** Serialization *)

Section Serialize.
  Context (alloc : writer_request -> bool) (tokenizer : option yvex_gguf_tokenizer_metadata).

Notation writer_u32 := (writer_u32 alloc).
Notation writer_u64 := (writer_u64 alloc).
Notation writer_f32 := (writer_f32 alloc).
Notation writer_f64 := (writer_f64 alloc).
Notation writer_string := (writer_string alloc).

(** The staged bytes of a string entry. *)
Definition staged_bytes (e : writer_metadata) : outcome (list Z) :=
  if wm_string_length e =? 0 then Done [] else
  match wm_string_bytes e with
  | None => Fault NullPointer
  | Some l => if zlen l <? wm_string_length e then Fault OutOfBounds else Done (take (Z.to_nat (wm_string_length e)) l)
  end.

(** The body of the loop over the elements of an array. *)
Definition writer_array_element (e : writer_metadata) (index : Z) : WR unit :=
  match wm_source e with
  | WRITER_META_TOKEN_ARRAY =>
      token ← so_lift (yvex_gguf_tokenizer_token_at tokenizer index);
      match token with
      | None => writer_stop
      | Some (span, _) => bytes ← so_lift (arena_bytes tokenizer span); writer_string bytes
      end
  | WRITER_META_TOKEN_TYPE_ARRAY =>
      token ← so_lift (yvex_gguf_tokenizer_token_at tokenizer index);
      match token with
      | None => writer_stop
      | Some (_, token_type) => writer_u32 (u32 token_type)
      end
  | WRITER_META_MERGE_ARRAY =>
      merge ← so_lift (yvex_gguf_tokenizer_merge_at tokenizer index);
      match merge with
      | None => writer_stop
      | Some span => bytes ← so_lift (arena_bytes tokenizer span); writer_string bytes
      end
  | WRITER_META_U64_ARRAY =>
      m ← so_lift (deref (wm_map_entry e));
      value ← so_lift (read_at (lm_array_values m) index);
      if bool_decide (wm_element_type e = VALUE_UINT32)
      then if UINT_MAX <? value then writer_stop else writer_u32 (u32 value)
      else writer_u64 value
  | WRITER_META_F64_ARRAY =>
      m ← so_lift (deref (wm_map_entry e));
      value ← so_lift (read_at (lm_f64_array_values m) index);
      if f64_beyond_float value then writer_stop else
      if bool_decide (wm_element_type e = VALUE_FLOAT32) then writer_f32 (f32_bits (f32_of_f64 value))
      else writer_f64 value
  | WRITER_META_SCALAR => writer_stop
  end.

Definition writer_metadata_serialize (e : writer_metadata) : WR unit :=
  _ ← writer_string (string_bytes (wm_key e));
  _ ← writer_u32 (value_type_code (wm_type e));
  match wm_type e with
  | VALUE_UINT32 => writer_u32 (u32 (wm_u64 e))
  | VALUE_UINT64 => writer_u64 (wm_u64 e)
  | VALUE_FLOAT32 => writer_f32 (f32_bits (f32_of_f64 (wm_f64 e)))
  | VALUE_FLOAT64 => writer_f64 (wm_f64 e)
  | VALUE_BOOL => buffer_append alloc [if wm_boolean e then 1 else 0]
  | VALUE_STRING => bytes ← so_lift (staged_bytes e); writer_string bytes
  | VALUE_ARRAY =>
      _ ← writer_u32 (value_type_code (wm_element_type e));
      _ ← writer_u64 (wm_count e);
      so_each (writer_array_element e) (zseq (wm_count e))
  | _ => writer_stop
  end.

(** One row of the directory. *)
Definition writer_tensor_serialize (t : yvex_gguf_writer_tensor) : WR unit :=
  _ ← writer_string (string_bytes (wt_name t));
  _ ← writer_u32 (wt_rank t);
  _ ← so_each (fun d => value ← so_lift (read_at (wt_dims t) d); writer_u64 value) (zseq (wt_rank t));
  _ ← writer_u32 (wt_qtype t);
  writer_u64 (wt_relative_offset t).

Definition writer_prefix_serialize (metadata : list writer_metadata) (metadata_count : Z)
    (tensors : list yvex_gguf_writer_tensor) (tensor_count : Z) : WR unit :=
  _ ← writer_u32 YVEX_GGUF_MAGIC;
  _ ← writer_u32 WRITER_GGUF_VERSION;
  _ ← writer_u64 tensor_count;
  _ ← writer_u64 metadata_count;
  _ ← so_each (fun i => e ← so_lift (read_at metadata i); writer_metadata_serialize e) (zseq metadata_count);
  so_each (fun i => t ← so_lift (read_at tensors i); writer_tensor_serialize t) (zseq tensor_count).

End Serialize.

(** ** Plans *)

Definition WP (A : Type) : Type := SO yvex_gguf_writer_plan A.

Definition plan_zero : yvex_gguf_writer_plan :=
  mk_writer_plan (fun _ => 0) (fun _ => "") (replicate 43 0) (replicate 43 0) false [] [].

Definition get_number (f : writer_number) : WP Z := fun p => (p, Done (wp_number p f)).
Definition set_number (f : writer_number) (v : Z) : WP unit := so_modify (fun p =>
  mk_writer_plan (<[f := v]> (wp_number p)) (wp_text p) (wp_qtype_tensor_counts p) (wp_qtype_payload_bytes p)
    (wp_complete p) (wp_tensors p) (wp_prefix p)).
Definition set_text (f : writer_text) (v : string) : WP unit := so_modify (fun p =>
  mk_writer_plan (wp_number p) (<[f := v]> (wp_text p)) (wp_qtype_tensor_counts p) (wp_qtype_payload_bytes p)
    (wp_complete p) (wp_tensors p) (wp_prefix p)).
Definition set_tensors (tensors : list yvex_gguf_writer_tensor) : WP unit := so_modify (fun p =>
  mk_writer_plan (wp_number p) (wp_text p) (wp_qtype_tensor_counts p) (wp_qtype_payload_bytes p)
    (wp_complete p) tensors (wp_prefix p)).
Definition set_qtypes (counts payload : list Z) : WP unit := so_modify (fun p =>
  mk_writer_plan (wp_number p) (wp_text p) counts payload (wp_complete p) (wp_tensors p) (wp_prefix p)).
Definition set_prefix (prefix : list Z) : WP unit := so_modify (fun p =>
  mk_writer_plan (wp_number p) (wp_text p) (wp_qtype_tensor_counts p) (wp_qtype_payload_bytes p)
    (wp_complete p) (wp_tensors p) prefix).
Definition set_complete : WP unit := so_modify (fun p =>
  mk_writer_plan (wp_number p) (wp_text p) (wp_qtype_tensor_counts p) (wp_qtype_payload_bytes p)
    true (wp_tensors p) (wp_prefix p)).
Definition store_row (ordinal : Z) (row : yvex_gguf_writer_tensor) : WP unit :=
  p ← so_get;
  tensors ← so_lift (write_at (wp_tensors p) ordinal row);
  set_tensors tensors.

(** [0] is a refusal. *)
Definition checked {A} (o : option A) : WP A :=
  match o with Some a => mret a | None => writer_stop end.

Definition writer_plan_identity : WP unit :=
  p ← so_get;
  let text f := string_bytes (wp_text p f) in
  digest ← checked (
    hash ← yvex_sha256_update yvex_sha256_init (string_bytes "yvex.gguf.writer.plan.v1");
    hash ← yvex_sha256_update hash (wp_prefix p);
    hash ← yvex_sha256_update hash (le_bytes 8 (wp_number p W_final_file_bytes));
    hash ← yvex_sha256_update hash (text W_profile_identity);
    hash ← yvex_sha256_update hash (text W_payload_plan_identity);
    hash ← yvex_sha256_update hash (text W_required_execution_identity);
    r ← yvex_sha256_final hash; Some r.1);
  set_text W_writer_plan_identity (yvex_sha256_hex digest).

Definition writer_plan_seed (quant : yvex_quant_plan_summary) (tensor_count : Z)
    (options : yvex_gguf_writer_plan_options) : WP unit :=
  let copy f cap text := set_text f (yvex_core_text_copy "" cap (Some text)) in
  _ ← set_number W_schema_version YVEX_GGUF_WRITER_SCHEMA_VERSION;
  _ ← set_number W_gguf_version WRITER_GGUF_VERSION;
  _ ← set_number W_alignment (po_alignment options);
  _ ← set_number W_tensor_count tensor_count;
  _ ← set_number W_source_snapshot_identity (qs_source_snapshot_identity quant);
  _ ← set_number W_mapping_identity (qs_mapping_identity quant);
  _ ← copy W_payload_identity YVEX_GGUF_WRITER_IDENTITY_CAP (qs_required_payload_identity quant);
  _ ← copy W_transform_identity YVEX_GGUF_WRITER_IDENTITY_CAP (qs_transform_identity quant);
  _ ← copy W_profile_name WRITER_PROFILE_NAME_CAP (qs_profile_name quant);
  _ ← copy W_profile_identity YVEX_GGUF_WRITER_IDENTITY_CAP (qs_profile_identity quant);
  _ ← copy W_payload_plan_identity YVEX_GGUF_WRITER_IDENTITY_CAP (qs_payload_plan_identity quant);
  match po_required_execution_identity options with
  | None => mret tt
  | Some text => copy W_required_execution_identity YVEX_GGUF_WRITER_IDENTITY_CAP text
  end.

(** The absolute ranges of a tensor, in the loop of [writer_prefix_finish]. *)
Definition writer_place_tensor (data_offset ordinal : Z) : WP unit :=
  p ← so_get;
  t ← so_lift (read_at (wp_tensors p) ordinal);
  absolute ← checked (yvex_core_u64_add data_offset (wt_relative_offset t));
  absolute_end ← checked (yvex_core_u64_add absolute (wt_raw_bytes t));
  padded_end ← checked (yvex_core_u64_add data_offset (wt_padded_end t));
  store_row ordinal (mk_writer_tensor (wt_name t) (wt_rank t) (wt_dims t) (wt_qtype t) (wt_relative_offset t)
    absolute (wt_raw_bytes t) (wt_padded_bytes t) absolute_end padded_end).

Definition writer_prefix_finish (alloc : writer_request -> bool) (buffer : writer_buffer) (align data_span : Z)
    : WP unit :=
  let structural_unaligned := bytes_count buffer in
  data_offset ← checked (writer_align structural_unaligned align);
  if SIZE_MAX <? data_offset then writer_stop else
  match buffer_append_zero alloc (data_offset - structural_unaligned) buffer with
  | (buffer, Done _) =>
      final_file_bytes ← checked (yvex_core_u64_add data_offset data_span);
      _ ← set_number W_final_file_bytes final_file_bytes;
      tensor_count ← get_number W_tensor_count;
      _ ← so_each (writer_place_tensor data_offset) (zseq tensor_count);
      _ ← set_prefix (bytes_data buffer);
      _ ← set_number W_structural_bytes structural_unaligned;
      _ ← set_number W_pre_data_padding_bytes (data_offset - structural_unaligned);
      set_number W_data_section_bytes data_span
  | (_, Refuse status reason) => so_lift (Refuse status reason)
  | (_, Fault f) => so_lift (Fault f)
  end.

(** [-1] is [None]: the pointers of the tensors are sorted by name, and
    neighbours compared. *)
Definition writer_tensor_names_unique (alloc : writer_request -> bool) (tensors : list yvex_gguf_writer_tensor)
    (tensor_count : Z) : outcome (option bool) :=
  if SIZE_MAX / SIZEOF_POINTER <? tensor_count then Done None else
  if negb (alloc Request_names) then Done None else
  names ← mapO (fun i => t ← read_at tensors i; Done (wt_name t)) (zseq tensor_count);
  let ordered := sort_by String.compare names in
  repeated ← existsO (fun i => a ← read_at ordered i; b ← read_at ordered (i + 1); Done (bool_decide (a = b)))
               (zseq (tensor_count - 1));
  Done (Some (negb repeated)).

Inductive writer_fixture_tensor_status : Type :=
  | WRITER_FIXTURE_TENSOR_OK | WRITER_FIXTURE_TENSOR_INVALID | WRITER_FIXTURE_TENSOR_ARITHMETIC.

(** [return WRITER_FIXTURE_TENSOR_ARITHMETIC] when a computation overflows. *)
Definition or_arithmetic (o : option Z) (k : Z -> WP (writer_fixture_tensor_status * Z))
    : WP (writer_fixture_tensor_status * Z) :=
  match o with
  | None => mret (WRITER_FIXTURE_TENSOR_ARITHMETIC, 0)
  | Some x => k x
  end.

Section Fixtures.
  Context (quant_plan : option yvex_quant_plan) (fixtures : list (option string)) (align : Z).

(** The tests of a fixture before it is projected; [None] is
    [WRITER_FIXTURE_TENSOR_INVALID]. *)
Definition writer_fixture_admit (ordinal : Z) : outcome (option (yvex_quant_decision * string)) :=
  decision ← yvex_quant_plan_decision_at quant_plan ordinal;
  match decision with
  | None => Done None
  | Some d =>
      fixture ← read_at fixtures ordinal;
      match fixture with
      | None => Done None
      | Some name =>
          if bool_decide (name = "") || (YVEX_GGUF_WRITER_NAME_CAP <=? strlen name) then Done None else
          geometry ← yvex_gguf_qtype_validate_tensor_storage (qd_qtype d) (Some (qd_dims d)) (qd_rank d) (qd_encoded_bytes d);
          if bool_decide (sr_status geometry = STORAGE_OK) then Done (Some (d, name)) else Done None
      end
  end.

(** [for (dimension = 0; dimension < rank; ++dimension)] over zeroed dimensions. *)
Definition writer_copy_dims (d : yvex_quant_decision) : outcome (list Z) :=
  foldO (fun dims i => value ← read_at (qd_dims d) i; write_at dims i value) (zseq (qd_rank d))
    (wt_dims writer_tensor_zero).

(** One iteration: the row, the accounts, and where the next tensor starts. *)
Definition writer_fixture_tensor (ordinal relative : Z) : WP (writer_fixture_tensor_status * Z) :=
  admitted ← so_lift (writer_fixture_admit ordinal);
  match admitted with
  | None => mret (WRITER_FIXTURE_TENSOR_INVALID, 0)
  | Some (d, name) =>
      dims ← so_lift (writer_copy_dims d);
      let raw := qd_encoded_bytes d in
      let row padded_bytes padded_end :=
        mk_writer_tensor (yvex_core_text_copy "" YVEX_GGUF_WRITER_NAME_CAP (Some name)) (qd_rank d) dims (qd_qtype d)
          relative 0 raw padded_bytes 0 padded_end in
      _ ← store_row ordinal (row 0 0);
      or_arithmetic (yvex_core_u64_add relative raw) (fun raw_end =>
      or_arithmetic (writer_align raw_end align) (fun padded_end =>
      _ ← store_row ordinal (row 0 padded_end);
      if YVEX_GGUF_QTYPE_ABI_UPSTREAM_MAX_ID <? qd_qtype d then mret (WRITER_FIXTURE_TENSOR_ARITHMETIC, 0) else
      payload ← get_number W_tensor_payload_bytes;
      or_arithmetic (yvex_core_u64_add payload raw) (fun payload =>
      _ ← set_number W_tensor_payload_bytes payload;
      padding ← get_number W_tensor_padding_bytes;
      or_arithmetic (yvex_core_u64_add padding (padded_end - raw_end)) (fun padding =>
      _ ← set_number W_tensor_padding_bytes padding;
      p ← so_get;
      bytes ← so_lift (read_at (wp_qtype_payload_bytes p) (qd_qtype d));
      or_arithmetic (yvex_core_u64_add bytes raw) (fun bytes =>
      payload_bytes ← so_lift (write_at (wp_qtype_payload_bytes p) (qd_qtype d) bytes);
      count ← so_lift (read_at (wp_qtype_tensor_counts p) (qd_qtype d));
      if count =? ULLONG_MAX then mret (WRITER_FIXTURE_TENSOR_ARITHMETIC, 0) else
      _ ← store_row ordinal (row (padded_end - relative) padded_end);
      counts ← so_lift (write_at (wp_qtype_tensor_counts p) (qd_qtype d) (count + 1));
      _ ← set_qtypes counts payload_bytes;
      mret (WRITER_FIXTURE_TENSOR_OK, padded_end))))))
  end.

(** The status, the ordinal that failed and the span of the data. *)
Fixpoint writer_fixture_loop (n : nat) (ordinal relative : Z) : WP (writer_fixture_tensor_status * Z * Z) :=
  match n with
  | O => mret (WRITER_FIXTURE_TENSOR_OK, ULLONG_MAX, relative)
  | S n =>
      r ← writer_fixture_tensor ordinal relative;
      match r with
      | (WRITER_FIXTURE_TENSOR_OK, next) => writer_fixture_loop n (ordinal + 1) next
      | (status, _) => mret (status, ordinal, 0)
      end
  end.

Definition writer_fixture_tensors_build (tensor_count : Z) : WP (writer_fixture_tensor_status * Z * Z) :=
  writer_fixture_loop (Z.to_nat tensor_count) 0 0.

End Fixtures.

Definition writer_fail {A} (code : yvex_gguf_writer_code) (tensor_index expected actual : Z) (status : yvex_status)
    (message : string) : yvex_gguf_writer_failure * outcome A :=
  (mk_writer_failure code ULLONG_MAX tensor_index expected actual "", Refuse status message).

Definition writer_failure_zero : yvex_gguf_writer_failure := mk_writer_failure WRITER_OK 0 0 0 0 "".

(** The two entries of a plan of explicit tensors. *)
Definition proof_metadata (align : Z) : list writer_metadata :=
  [string_entry (Some (string_bytes "yvex-fixture")) (strlen "yvex-fixture") (writer_metadata_blank "general.architecture");
   number_entry VALUE_UINT32 align (writer_metadata_blank "general.alignment")].

(** From the serialized prefix to the sealed plan. *)
Definition writer_proof_finish (alloc : writer_request -> bool) (quant : yvex_quant_plan_summary)
    (options : yvex_gguf_writer_plan_options) (tensor_count : Z) (buffer : writer_buffer) (data_span : Z) : WP unit :=
  _ ← writer_prefix_finish alloc buffer (po_alignment options) data_span;
  _ ← set_number W_metadata_count 2;
  tensor_bytes ← checked (yvex_core_u64_mul tensor_count SIZEOF_WRITER_TENSOR);
  owned ← checked (yvex_core_u64_add SIZEOF_WRITER_PLAN tensor_bytes);
  _ ← set_number W_owned_bytes owned;
  p ← so_get;
  owned ← checked (yvex_core_u64_add owned (zlen (wp_prefix p)));
  _ ← set_number W_owned_bytes owned;
  if (po_maximum_owned_bytes options <? owned)
     || negb (wp_number p W_tensor_payload_bytes =? qs_encoded_bytes quant)
  then writer_stop else
  _ ← writer_plan_identity;
  set_complete.

Definition writer_plan_build_tensor_proof (alloc : writer_request -> bool) (quant_plan : option yvex_quant_plan)
    (fixture_tensors : option (list (option string))) (tensor_count : Z) (options : option yvex_gguf_writer_plan_options)
    : yvex_gguf_writer_failure * outcome yvex_gguf_writer_plan :=
  let invalid expected actual message :=
    writer_fail WRITER_INVALID_ARGUMENT ULLONG_MAX expected actual YVEX_ERR_INVALID_ARG message in
  let unmatched terminals :=
    invalid terminals tensor_count "matching explicit quant and writer fixture tensors are required" in
  match yvex_quant_plan_summary_get quant_plan, fixture_tensors with
  | None, _ => unmatched 0
  | Some quant, None => unmatched (qs_terminal_count quant)
  | Some quant, Some fixtures =>
      if negb (qs_complete quant) || (tensor_count =? 0) || negb (tensor_count =? qs_terminal_count quant)
         || (SIZE_MAX / SIZEOF_WRITER_TENSOR <? tensor_count)
      then unmatched (qs_terminal_count quant) else
      let local := default yvex_gguf_writer_plan_options_default options in
      let align := po_alignment local in
      if (align =? 0) || negb (Z.land align (u32 (align - 1)) =? 0) || (po_maximum_owned_bytes local =? 0)
      then invalid 1 align "fixture writer options are invalid" else
      let allocation_failure :=
        writer_fail WRITER_ALLOCATION ULLONG_MAX tensor_count 0 YVEX_ERR_NOMEM "fixture writer allocation failed" in
      let serialization_failure :=
        writer_fail WRITER_SERIALIZATION ULLONG_MAX 1 0 YVEX_ERR_BOUNDS "fixture writer serialization failed" in
      if negb (alloc Request_plan) || negb (alloc Request_tensors) then allocation_failure else
      match (_ ← set_tensors (replicate (Z.to_nat tensor_count) writer_tensor_zero);
             _ ← writer_plan_seed quant tensor_count local;
             writer_fixture_tensors_build quant_plan fixtures align tensor_count) plan_zero with
      | (_, Fault f) => (writer_failure_zero, Fault f)
      | (_, Refuse _ _) => serialization_failure
      | (_, Done (WRITER_FIXTURE_TENSOR_INVALID, failed_ordinal, _)) =>
          writer_fail WRITER_QTYPE_GEOMETRY failed_ordinal 1 0 YVEX_ERR_FORMAT
            "fixture tensor name or qtype geometry is invalid"
      | (_, Done (WRITER_FIXTURE_TENSOR_ARITHMETIC, _, _)) => serialization_failure
      | (plan, Done (WRITER_FIXTURE_TENSOR_OK, _, data_span)) =>
          match writer_tensor_names_unique alloc (wp_tensors plan) tensor_count with
          | Fault f => (writer_failure_zero, Fault f)
          | Refuse _ _ | Done None => allocation_failure
          | Done (Some false) =>
              writer_fail WRITER_DUPLICATE_TENSOR ULLONG_MAX tensor_count 0 YVEX_ERR_FORMAT
                "fixture tensor names are duplicate"
          | Done (Some true) =>
              match writer_prefix_serialize alloc None (proof_metadata align) 2 (wp_tensors plan) tensor_count
                      (mk_bytes [] 0 (po_maximum_owned_bytes local) 0) with
              | (_, Fault f) => (writer_failure_zero, Fault f)
              | (_, Refuse _ _) => serialization_failure
              | (buffer, Done _) =>
                  match writer_proof_finish alloc quant local tensor_count buffer data_span plan with
                  | (_, Fault f) => (writer_failure_zero, Fault f)
                  | (_, Refuse _ _) => serialization_failure
                  | (plan, Done _) => (writer_failure_zero, Done plan)
                  end
              end
          end
      end
  end.

(** ** Sealed plans *)

(** The summary is part of the plan. *)
Definition yvex_gguf_writer_plan_summary_get (plan : option yvex_gguf_writer_plan) : option yvex_gguf_writer_plan :=
  match plan with
  | None => None
  | Some p => if wp_complete p then Some p else None
  end.

Definition yvex_gguf_writer_plan_tensor_at (plan : option yvex_gguf_writer_plan) (ordinal : Z)
    : outcome (option yvex_gguf_writer_tensor) :=
  match plan with
  | None => Done None
  | Some p => if wp_complete p && (ordinal <? wp_number p W_tensor_count)
              then t ← read_at (wp_tensors p) ordinal; Done (Some t) else Done None
  end.

Definition yvex_gguf_writer_plan_prefix (plan : option yvex_gguf_writer_plan) : option (list Z) :=
  match plan with
  | None => None
  | Some p => if wp_complete p then Some (wp_prefix p) else None
  end.

Definition yvex_gguf_writer_plan_release (plan : option yvex_gguf_writer_plan) : option yvex_gguf_writer_plan := None.
