(* ===== verification/GgufWritten.v ===== *)
(** * GgufWritten: files laid out by the writer are read back

    What the serializer of [GgufWriter] emits is the text the reader of [GgufOpen]
    accepts: rows, metadata and header.  A sealed plan of explicit tensors lays its
    tensors out one after the other, and a file made of its prefix and the padded
    payloads is opened by the reader, which finds every tensor where the plan put
    it, and accepted by the layout validator. *)

From Stdlib Require Import ZArith Lia Bool SpecFloat Sorting.Sorted.
From stdpp Require Import base functions list option numbers strings sets.
From S2P Require Import Prelude Core Words Sha256 Text Float64 NameIndex Utf8 Qtype Artifact GgufReader GgufSpec GgufText GgufValues GgufIndex GgufMetadata GgufTensors GgufOpen GgufLayout GgufWriter.

(** ** What is written *)

Section Writes.
  Context (alloc : writer_request -> bool).

(** [p] appends [bytes], or refuses because they do not fit the budget or the
    allocator refused. *)
Definition emits (p : WR unit) (bytes : list Z) : Prop := forall b, bytes_wf b ->
  match p b with
  | (b', Done _) => bytes_wf b' /\ bytes_data b' = bytes_data b ++ bytes /\ bytes_maximum b' = bytes_maximum b
  | (_, Refuse _ _) => (forall r, alloc r = true) -> bytes_maximum b < bytes_count b + zlen bytes
  | (_, Fault _) => False
  end.

Lemma emits_append bytes : emits (buffer_append alloc bytes) bytes.
Proof.
  intros b Hb. unfold buffer_append. pose proof (bytes_append_spec (alloc (Request_buffer (bytes_count b))) b bytes Hb) as H.
  destruct (yvex_core_bytes_append _ b bytes) as [b'|]; [done|]. cbn. intros Ha. rewrite Ha in H. destruct H; [done|done].
Qed.

Lemma emits_bind p q x y : emits p x -> emits q y -> emits (p ≫= fun _ => q) (x ++ y).
Proof.
  intros Hp Hq b Hb. unfold mbind, so_bind. specialize (Hp b Hb). rewrite zlen_app. pose proof (zlen_nonneg y).
  destruct (p b) as [b1 [u|st r|f]]; [|intros Ha; specialize (Hp Ha); lia|done].
  destruct Hp as (Hb1 & Hd & Hm). specialize (Hq b1 Hb1). unfold bytes_count in *. rewrite Hd, zlen_app in Hq.
  destruct (q b1) as [b2 [v|st r|f]]; [|intros Ha; specialize (Hq Ha); lia|done].
  destruct Hq as (Hb2 & Hd2 & Hm2). rewrite Hd2. rewrite <- app_assoc. split; [done|]. split; [done|congruence].
Qed.

Lemma emits_nil : emits (mret tt) [].
Proof. intros b Hb. cbn. by rewrite app_nil_r. Qed.

Lemma emits_lift {A} (o : outcome A) (a : A) (q : A -> WR unit) x : o = Done a -> emits (q a) x -> emits (so_lift o ≫= q) x.
Proof. intros -> Hq b Hb. by apply Hq. Qed.

Lemma emits_each {A} (f : A -> WR unit) (g : A -> list Z) l :
  (forall a, a ∈ l -> emits (f a) (g a)) -> emits (so_each f l) (concat (g <$> l)).
Proof.
  induction l as [|a l IH]; intros H; cbn; [apply emits_nil|].
  apply emits_bind; [apply H; left|]. apply IH. intros x Hx. apply H. by right.
Qed.

Lemma emits_u32 v : emits (writer_u32 alloc v) (le_bytes 4 v).
Proof. apply emits_append. Qed.
Lemma emits_u64 v : emits (writer_u64 alloc v) (le_bytes 8 v).
Proof. apply emits_append. Qed.
Lemma emits_string data : emits (writer_string alloc data) (string_text data).
Proof. apply emits_bind; [apply emits_u64|apply emits_append]. Qed.

(** A loop over the indices of an array that emits what [g] makes of each element. *)
Lemma emits_indexed {A} (f : Z -> WR unit) (g : A -> list Z) (l : list A) :
  (forall i a, zget l i = Some a -> emits (f i) (g a)) -> emits (so_each f (zseq (zlen l))) (concat (g <$> l)).
Proof.
  intros H.
  assert (forall pre post, l = pre ++ post ->
    emits (so_each f ((fun j => zlen pre + Z.of_nat j) <$> seq 0 (length post))) (concat (g <$> post))) as Hgen.
  2:{ specialize (Hgen [] l eq_refl). unfold zseq. rewrite to_nat_zlen.
      replace (Z.of_nat <$> seq 0 (length l)) with ((fun j => zlen (@nil A) + Z.of_nat j) <$> seq 0 (length l)); [done|].
      apply list_fmap_ext. intros i x _. by rewrite zlen_nil. }
  intros pre post. revert pre. induction post as [|a post IH]; intros pre E; cbn; [apply emits_nil|].
  apply emits_bind.
  - apply H. rewrite E, Z.add_0_r. apply zget_middle.
  - specialize (IH (pre ++ [a])). rewrite zlen_snoc in IH. rewrite <- seq_shift, <- list_fmap_compose.
    rewrite (list_fmap_ext _ (fun j => zlen pre + 1 + Z.of_nat j)); [apply IH; by rewrite <- app_assoc|].
    intros i x _. cbn. lia.
Qed.

End Writes.

(** ** The prefix of a plan of explicit tensors *)

(** The row a planned tensor becomes. *)
Definition row_of (t : yvex_gguf_writer_tensor) : tensor_row :=
  mk_row (string_bytes (wt_name t)) (take (Z.to_nat (wt_rank t)) (wt_dims t)) (wt_qtype t) (wt_relative_offset t).

Definition proof_entries (align : Z) : list (list Z * yvex_gguf_value) :=
  [(string_bytes "general.architecture", mk_value VALUE_STRING (As_string (Some (string_bytes "yvex-fixture"))));
   (string_bytes "general.alignment", mk_value VALUE_UINT32 (As_u64 align))].

(** The document of a plan. *)
Definition plan_document (plan : yvex_gguf_writer_plan) : gguf_document :=
  mk_document (proof_entries (wp_number plan W_alignment)) (row_of <$> wp_tensors plan).

Definition proof_texts (align : Z) : list (list Z) :=
  [string_text (string_bytes "general.architecture") ++ le_bytes 4 8 ++ string_text (string_bytes "yvex-fixture");
   string_text (string_bytes "general.alignment") ++ le_bytes 4 4 ++ le_bytes 4 align].

Section Prefix.
  Context (alloc : writer_request -> bool).

Notation emits := (emits alloc).

Lemma emits_row t : 0 <= wt_rank t <= zlen (wt_dims t) -> emits (writer_tensor_serialize alloc t) (row_text (row_of t)).
Proof.
  intros Hr. set (dims := take (Z.to_nat (wt_rank t)) (wt_dims t)).
  assert (zlen dims = wt_rank t) as Hd by (unfold dims, zlen in *; rewrite length_take; lia).
  unfold row_text, row_of. cbn [r_name r_dims r_type r_offset]. fold dims. unfold writer_tensor_serialize. rewrite <- Hd.
  apply emits_bind; [apply emits_string|]. apply emits_bind; [apply emits_u32|].
  apply emits_bind; [|apply emits_bind; [apply emits_u32|apply emits_u64]].
  apply (emits_indexed alloc _ (le_bytes 8) dims). intros i v Hv. eapply emits_lift; [|apply emits_u64].
  apply read_at_Done. unfold dims in Hv. pose proof (zget_Some_range _ _ _ Hv) as Hi.
  rewrite zget_lookup in * by (unfold zlen in *; rewrite ?length_take in *; lia). by apply lookup_take_Some in Hv as [Hv _].
Qed.

Lemma emits_string_entry key data n : n = zlen data ->
  emits (writer_metadata_serialize alloc None (string_entry (Some data) n (writer_metadata_blank key)))
    (string_text (string_bytes key) ++ le_bytes 4 8 ++ string_text data).
Proof.
  intros ->. unfold writer_metadata_serialize. apply emits_bind; [apply emits_string|]. apply emits_bind; [apply emits_u32|].
  eapply emits_lift; [|apply emits_string]. unfold staged_bytes. cbn [string_entry wm_string_bytes wm_string_length].
  destruct (zlen data =? 0) eqn:E; [destruct data; [done|]; rewrite zlen_cons in E; pose proof (zlen_nonneg data); lia|].
  rewrite Z.ltb_irrefl, to_nat_zlen. by rewrite firstn_all.
Qed.

Lemma emits_u32_entry key v : 0 <= v < 2 ^ 32 ->
  emits (writer_metadata_serialize alloc None (number_entry VALUE_UINT32 v (writer_metadata_blank key)))
    (string_text (string_bytes key) ++ le_bytes 4 4 ++ le_bytes 4 v).
Proof.
  intros Hv. unfold writer_metadata_serialize. apply emits_bind; [apply emits_string|]. apply emits_bind; [apply emits_u32|].
  cbn [number_entry wm_type wm_u64]. rewrite u32_id by (unfold is_u32; lia). apply emits_u32.
Qed.

Lemma emits_entries align : 0 <= align < 2 ^ 32 ->
  emits (so_each (fun i => e ← so_lift (read_at (proof_metadata align) i); writer_metadata_serialize alloc None e) (zseq 2))
    (concat (proof_texts align)).
Proof.
  intros Ha. cbn [concat proof_texts]. change (zseq 2) with [0; 1]. cbn [so_each].
  apply emits_bind; [eapply emits_lift; [reflexivity|]; by apply emits_string_entry|].
  apply emits_bind; [eapply emits_lift; [reflexivity|]; by apply emits_u32_entry|]. apply emits_nil.
Qed.

Lemma emits_prefix align tensors :
  0 <= align < 2 ^ 32 -> Forall (fun t => 0 <= wt_rank t <= zlen (wt_dims t)) tensors ->
  emits (writer_prefix_serialize alloc None (proof_metadata align) 2 tensors (zlen tensors))
    (header_text (zlen tensors) 2 ++ concat (proof_texts align) ++ concat (row_text <$> (row_of <$> tensors))).
Proof.
  intros Ha Ht. unfold header_text. rewrite <- !app_assoc.
  do 2 (apply emits_bind; [apply emits_u32|]). do 2 (apply emits_bind; [apply emits_u64|]).
  apply emits_bind.
  - by apply emits_entries.
  - rewrite <- list_fmap_compose. apply (emits_indexed alloc _ (row_text ∘ row_of) tensors). intros i t Hi.
    eapply emits_lift; [by apply read_at_Done|]. apply emits_row. rewrite Forall_forall in Ht. apply Ht. by eapply zget_elem_of.
Qed.

End Prefix.

(** ** The tensors of a plan *)

(** The widths and sizes of the members of a decision, and of the array of them. *)
Record decision_ok (d : yvex_quant_decision) : Prop := {
  do_qtype : is_u32 (qd_qtype d);
  do_rank : is_u32 (qd_rank d);
  do_length : length (qd_dims d) = 4%nat;
  do_dims : Forall is_u64 (qd_dims d);
  do_bytes : is_u64 (qd_encoded_bytes d)
}.

Definition quant_ok (plan : option yvex_quant_plan) : Prop :=
  match plan with
  | None => True
  | Some p => zlen (qp_decisions p) = qs_decision_count (qp_summary p) /\ Forall decision_ok (qp_decisions p)
  end.

Lemma writer_align_spec value k :
  is_u64 value -> 0 <= k < 32 ->
  writer_align value (2 ^ k) = if value + (2 ^ k - 1) <=? ULLONG_MAX then Some (aligned value (2 ^ k)) else None.
Proof.
  intros Hv Hk. unfold is_u64 in Hv. rewrite <- align_up_spec by lia. unfold writer_align, align_up_power_of_two, yvex_gguf_layout_sum_checked.
  destruct (_ || _); [done|]. assert (0 < 2 ^ k <= 2 ^ 31) by (split; [apply Z.pow_pos_nonneg|apply Z.pow_le_mono_r]; lia).
  unfold ULLONG_MAX, UINT64_MAX. destruct (_ <? value) eqn:E1, (_ <? 2 ^ k - 1) eqn:E2; [done|lia|lia|].
  rewrite (u64_id (value + _)) by (unfold is_u64; lia). done.
Qed.

(** The guard of the builder. *)
Lemma align_guard align :
  is_u32 align -> (align =? 0) || negb (Z.land align (u32 (align - 1)) =? 0) = false ->
  exists k, 0 <= k < 32 /\ align = 2 ^ k.
Proof.
  intros Ha H. unfold is_u32 in Ha. apply orb_false_iff in H as [H0 H1]. apply negb_false_iff in H1.
  rewrite u32_id in H1 by (unfold is_u32; lia). destruct (proj1 (land_pred_zero align ltac:(lia)) ltac:(lia)) as (k & Hk & ->).
  exists k. split; [|done]. split; [done|]. apply (Z.pow_lt_mono_r_iff 2); lia.
Qed.

Lemma copy_dims_spec d :
  decision_ok d -> 0 <= qd_rank d <= 4 ->
  exists dims, writer_copy_dims d = Done dims /\ length dims = 4%nat
    /\ take (Z.to_nat (qd_rank d)) dims = take (Z.to_nat (qd_rank d)) (qd_dims d).
Proof.
  intros [_ _ Hl _ _] Hr. destruct d as [q rank dims bytes]. cbn [qd_dims qd_rank] in *.
  destruct dims as [|a [|b [|c [|e [|]]]]]; try done.
  assert (rank = 0 \/ rank = 1 \/ rank = 2 \/ rank = 3 \/ rank = 4) as [->|[->|[->|[->| ->]]]] by lia;
    eexists; (split; [reflexivity|done]).
Qed.

(** The storage of a tensor, for every rank. *)
Lemma storage_verdict d :
  decision_ok d ->
  exists r, yvex_gguf_qtype_validate_tensor_storage (qd_qtype d) (Some (qd_dims d)) (qd_rank d) (qd_encoded_bytes d) = Done r
    /\ (sr_status r = STORAGE_OK <-> 0 <= qd_rank d <= 4
          /\ tensor_bytes (qd_qtype d) (take (Z.to_nat (qd_rank d)) (qd_dims d)) = Some (qd_encoded_bytes d)).
Proof.
  intros [Hq Hr Hl Hd Hb]. unfold is_u32 in Hq, Hr. unfold yvex_gguf_qtype_validate_tensor_storage.
  destruct (decide (qd_rank d <= 4)) as [Hle|Hgt].
  - destruct (storage_exact (qd_qtype d) (take (Z.to_nat (qd_rank d)) (qd_dims d)) (drop (Z.to_nat (qd_rank d)) (qd_dims d)))
      as (r & E & Ha); [lia|by apply Forall_take|].
    assert (zlen (take (Z.to_nat (qd_rank d)) (qd_dims d)) = qd_rank d) as Hz by (unfold zlen; rewrite length_take; lia).
    rewrite take_drop, Hz in E. rewrite E. cbn [mbind outcome_bind]. unfold storage_answer in Ha.
    destruct (tensor_bytes _ _) as [total|].
    + destruct Ha as (Hs & Ht & _). rewrite Hs. cbn [bool_decide negb]. rewrite bool_decide_eq_true_2 by done. cbn [negb].
      cbn [sr_total_bytes]. rewrite Ht. destruct (total =? qd_encoded_bytes d) eqn:Et; eexists; (split; [reflexivity|]); cbn.
      * split; [intros _; split; [lia|f_equal; lia]|done].
      * split; [done|]. intros [_ [= ->]]. lia.
    + rewrite bool_decide_eq_false_2 by done. eexists. split; [reflexivity|]. split; [done|by intros [_ ?]].
  - unfold yvex_gguf_qtype_tensor_storage. rewrite qtype_find_row by lia. cbn [mbind outcome_bind].
    destruct (bool_decide (qtype_admission_status _ = STORAGE_OK)) eqn:Es; cbn [negb].
    + replace ((_ =? 0) || (YVEX_GGUF_QTYPE_MAX_DIMS <? _)) with true
        by (symmetry; apply orb_true_iff; right; unfold YVEX_GGUF_QTYPE_MAX_DIMS; lia).
      eexists. split; [reflexivity|]. split; [done|lia].
    + cbn [mbind outcome_bind sr_status set_storage_status]. rewrite Es. eexists. split; [reflexivity|]. cbn.
      apply bool_decide_eq_false in Es. split; [done|lia].
Qed.

Section Plan.
  Context (quant_plan : option yvex_quant_plan) (fixtures : list (option string)) (k : Z).
  Context (Hquant : quant_ok quant_plan) (Hk : 0 <= k < 32).

Notation align := (2 ^ k).

(** The decision and the name of an admissible tensor. *)
Record fixture_input (ordinal : Z) (d : yvex_quant_decision) (name : string) : Prop := {
  fi_decision : yvex_quant_plan_decision_at quant_plan ordinal = Done (Some d);
  fi_fixture : zget fixtures ordinal = Some (Some name);
  fi_name : name <> "" /\ strlen name < YVEX_GGUF_WRITER_NAME_CAP;
  fi_ok : decision_ok d;
  fi_rank : 0 <= qd_rank d <= 4;
  fi_bytes : tensor_bytes (qd_qtype d) (take (Z.to_nat (qd_rank d)) (qd_dims d)) = Some (qd_encoded_bytes d)
}.

Lemma decision_at_spec ordinal : 0 <= ordinal ->
  exists r, yvex_quant_plan_decision_at quant_plan ordinal = Done r /\ (forall d, r = Some d -> decision_ok d).
Proof.
  intros Ho. unfold yvex_quant_plan_decision_at, quant_ok in *. destruct quant_plan as [p|]; [|by eexists].
  destruct Hquant as [Hl Hd]. destruct (_ && _) eqn:E; [|by eexists]. bool_hyps.
  destruct (zget (qp_decisions p) ordinal) as [d|] eqn:Ed; [|exfalso; apply zget_None_inv in Ed; lia].
  apply read_at_Done in Ed as Er. rewrite Er. cbn. eexists. split; [done|]. intros d' [= <-].
  rewrite Forall_forall in Hd. apply Hd. by eapply zget_elem_of.
Qed.

Lemma admit_spec ordinal : 0 <= ordinal < zlen fixtures ->
  exists r, writer_fixture_admit quant_plan fixtures ordinal = Done r
    /\ (forall d name, r = Some (d, name) <-> fixture_input ordinal d name).
Proof.
  intros Ho. unfold writer_fixture_admit. destruct (decision_at_spec ordinal ltac:(lia)) as (rd & Ed & Hd). rewrite Ed. cbn [mbind outcome_bind].
  destruct rd as [d|]; [|eexists; split; [done|]; split; [done|by intros [? _ _ _ _ _]; congruence]].
  destruct (zget fixtures ordinal) as [fixture|] eqn:Ef; [|apply zget_None_inv in Ef; lia].
  apply read_at_Done in Ef as Er. rewrite Er. cbn [mbind outcome_bind].
  destruct fixture as [name|]; [|eexists; split; [done|]; split; [done|by intros [_ ? _ _ _ _]; congruence]].
  destruct (bool_decide (name = "") || _) eqn:En.
  { eexists. split; [done|]. split; [done|]. intros [_ Hf [H1 H2] _ _ _]. assert (name0 = name) as -> by congruence.
    rewrite bool_decide_eq_false_2 in En by done. cbn in En. lia. }
  apply orb_false_iff in En as [En1%bool_decide_eq_false En2].
  destruct (storage_verdict d (Hd d eq_refl)) as (r & -> & Hs). cbn [mbind outcome_bind].
  destruct (bool_decide (sr_status r = STORAGE_OK)) eqn:Es; eexists; (split; [reflexivity|]); intros d' name'.
  - apply bool_decide_eq_true, Hs in Es as [Hr Hb]. split.
    + intros [= <- <-]. split; [done|done|split; [done|lia]|by apply Hd|done|done].
    + intros [H1 H2 _ _ _ _]. congruence.
  - apply bool_decide_eq_false in Es. split; [done|]. intros [H1 H2 _ _ H3 H4]. assert (d' = d) as -> by congruence. tauto.
Qed.

(** The row of a tensor that starts at [e]. *)
Definition planned_row (e : Z) (d : yvex_quant_decision) (name : string) (dims : list Z) : yvex_gguf_writer_tensor :=
  let end_ := aligned (e + qd_encoded_bytes d) align in
  mk_writer_tensor name (qd_rank d) dims (qd_qtype d) e 0 (qd_encoded_bytes d) (end_ - e) 0 end_.

(** [t] is the row of the tensor [ordinal] when it starts at [e]. *)
Definition planned (ordinal e : Z) (t : yvex_gguf_writer_tensor) : Prop :=
  exists d name dims, fixture_input ordinal d name /\ length dims = 4%nat
    /\ take (Z.to_nat (qd_rank d)) dims = take (Z.to_nat (qd_rank d)) (qd_dims d)
    /\ t = planned_row e d name dims /\ wt_padded_end t <= ULLONG_MAX.

(** What the loop over the tensors keeps of a plan. *)
Record plan_frame (p p' : yvex_gguf_writer_plan) : Prop := {
  pf_number : forall f, f <> W_tensor_payload_bytes -> f <> W_tensor_padding_bytes -> wp_number p' f = wp_number p f;
  pf_text : wp_text p' = wp_text p;
  pf_counts : length (wp_qtype_tensor_counts p') = 43%nat;
  pf_payload : length (wp_qtype_payload_bytes p') = 43%nat
}.

Lemma text_copy_id name cap : strlen name < cap -> yvex_core_text_copy "" cap (Some name) = name.
Proof.
  intros H. unfold yvex_core_text_copy, strlen in *. replace (cap =? 0) with false by lia. cbn [default].
  assert (forall n s, (String.length s <= n)%nat -> String.substring 0 n s = s) as A.
  { intros n s. revert n. induction s as [|c s IH]; intros [|n] Hn; cbn in *; try done; [lia|]. f_equal. apply IH. lia. }
  apply A. lia.
Qed.

Lemma put_row_middle p pre x post t :
  wp_tensors p = pre ++ x :: post -> store_row (zlen pre) t p = ((set_tensors (pre ++ t :: post) p).1, Done tt).
Proof. intros E. unfold store_row, so_get, so_lift, mbind, so_bind. by rewrite E, write_at_middle. Qed.

(** [c] does not fault or refuse, and a successful status leaves a plan in [Q]. *)
Definition answers (c : WP (writer_fixture_tensor_status * Z)) (p : yvex_gguf_writer_plan)
    (Q : yvex_gguf_writer_plan -> Z -> Prop) : Prop :=
  match c p with
  | (p', Done (WRITER_FIXTURE_TENSOR_OK, next)) => Q p' next
  | (_, Done _) => True
  | _ => False
  end.

Lemma answers_step {A} (c : WP A) f p p' a Q : c p = (p', Done a) -> answers (f a) p' Q -> answers (c ≫= f) p Q.
Proof. unfold answers, mbind, so_bind. by intros ->. Qed.

Lemma answers_lift {A} (o : outcome A) f p a Q : o = Done a -> answers (f a) p Q -> answers (so_lift o ≫= f) p Q.
Proof. intros ->. by eapply answers_step. Qed.

Lemma answers_row p pre x post t f Q :
  wp_tensors p = pre ++ x :: post -> answers (f tt) (set_tensors (pre ++ t :: post) p).1 Q ->
  answers (store_row (zlen pre) t ≫= f) p Q.
Proof. intros E. eapply answers_step. by eapply put_row_middle. Qed.

Lemma answers_or o f p Q : (forall x, o = Some x -> answers (f x) p Q) -> answers (or_arithmetic o f) p Q.
Proof. intros H. destruct o as [x|]; [by apply H|done]. Qed.

Lemma answers_stop (b : bool) f p Q :
  (b = false -> answers f p Q) -> answers (if b then mret (WRITER_FIXTURE_TENSOR_ARITHMETIC, 0) else f) p Q.
Proof. intros H. destruct b; [done|by apply H]. Qed.

Lemma read_some {A} (l : list A) i : 0 <= i < zlen l -> exists x, read_at l i = Done x.
Proof.
  intros Hi. destruct (zget l i) as [x|] eqn:E; [exists x; by apply read_at_Done|]. apply zget_None_inv in E. lia.
Qed.

Lemma write_some {A} (l : list A) i (x : A) : 0 <= i < zlen l -> exists l', write_at l i x = Done l' /\ length l' = length l.
Proof.
  intros Hi. unfold write_at. replace ((0 <=? i) && (i <? zlen l)) with true by lia. eexists. split; [done|].
  pose proof (zlen_zset l i x) as Hz. unfold zlen in Hz. lia.
Qed.

Lemma fixture_tensor_step p pre x post e :
  wp_tensors p = pre ++ x :: post -> zlen pre < zlen fixtures -> is_u64 e ->
  length (wp_qtype_tensor_counts p) = 43%nat -> length (wp_qtype_payload_bytes p) = 43%nat ->
  answers (writer_fixture_tensor quant_plan fixtures align (zlen pre) e) p (fun p' next =>
    exists t, planned (zlen pre) e t /\ next = wt_padded_end t /\ wp_tensors p' = pre ++ t :: post /\ plan_frame p p').
Proof.
  intros Et Hlen He Hc Hp. unfold writer_fixture_tensor. pose proof (zlen_nonneg pre) as Hpre.
  destruct (admit_spec (zlen pre) ltac:(lia)) as (r & Er & Hin). eapply answers_lift; [exact Er|].
  destruct r as [[d name]|]; [|done]. pose proof (proj1 (Hin d name) eq_refl) as Hfi. pose proof Hfi as [_ _ [Hn1 Hn2] Hd Hr Hb].
  destruct (copy_dims_spec d Hd Hr) as (dims & Ed & Hl & Htake). eapply answers_lift; [exact Ed|].
  rewrite text_copy_id by done. destruct Hd as [Hq _ _ _ Hbytes]. unfold is_u32 in Hq. cbv zeta.
  eapply answers_row; [exact Et|]. apply answers_or. intros raw_end [-> Hraw]%u64_add_Some; [|done|done].
  rewrite writer_align_spec by done. apply answers_or. intros padded_end Ep. destruct (_ <=? ULLONG_MAX) eqn:Emax; [|done].
  injection Ep as <-. eapply answers_row; [reflexivity|]. apply answers_stop. intros Eq. unfold YVEX_GGUF_QTYPE_ABI_UPSTREAM_MAX_ID in Eq.
  eapply answers_step; [reflexivity|]. apply answers_or. intros pay _. eapply answers_step; [reflexivity|].
  eapply answers_step; [reflexivity|]. apply answers_or. intros pad _. do 2 (eapply answers_step; [reflexivity|]).
  cbn [fst so_modify set_tensors set_number wp_qtype_payload_bytes wp_qtype_tensor_counts].
  destruct (read_some (wp_qtype_payload_bytes p) (qd_qtype d)) as [bytes Eb]; [unfold zlen; lia|].
  eapply answers_lift; [exact Eb|]. apply answers_or. intros bytes' _.
  destruct (write_some (wp_qtype_payload_bytes p) (qd_qtype d) bytes') as (payload' & Ew & Hw); [unfold zlen; lia|].
  eapply answers_lift; [exact Ew|].
  destruct (read_some (wp_qtype_tensor_counts p) (qd_qtype d)) as [count Ect]; [unfold zlen; lia|].
  eapply answers_lift; [exact Ect|]. apply answers_stop. intros _. eapply answers_row; [reflexivity|].
  destruct (write_some (wp_qtype_tensor_counts p) (qd_qtype d) (count + 1)) as (counts' & Ew2 & Hw2); [unfold zlen; lia|].
  eapply answers_lift; [exact Ew2|]. eapply answers_step; [reflexivity|].
  assert (0 < align) by (apply Z.pow_pos_nonneg; lia).
  pose proof (aligned_bounds (e + qd_encoded_bytes d) align ltac:(lia)).
  eexists. split; [exists d, name, dims; split; [done|]; split; [done|]; split; [done|]; split; [reflexivity|]; cbn; lia|].
  split; [done|]. split; [done|]. split; [|done|by cbn; congruence|by cbn; congruence].
  intros f H1 H2. cbn. by rewrite !fn_lookup_insert_ne by congruence.
Qed.

(** The tensors from [ordinal] on, laid out from [e] to [span]. *)
Fixpoint planned_all (ordinal e : Z) (tensors : list yvex_gguf_writer_tensor) (span : Z) : Prop :=
  match tensors with
  | [] => span = e
  | t :: tensors => planned ordinal e t /\ planned_all (ordinal + 1) (wt_padded_end t) tensors span
  end.

Lemma plan_frame_trans p q r : plan_frame p q -> plan_frame q r -> plan_frame p r.
Proof. intros [H1 H2 _ _] [H3 H4 H5 H6]. split; [|congruence|done|done]. intros f Hf Hg. by rewrite H3, H1. Qed.

Lemma planned_bounds ordinal e t : 0 <= e -> planned ordinal e t ->
  wt_relative_offset t = e /\ 0 <= wt_raw_bytes t /\ e + wt_raw_bytes t <= wt_padded_end t <= ULLONG_MAX
  /\ wt_padded_end t = aligned (e + wt_raw_bytes t) align /\ wt_padded_bytes t = wt_padded_end t - e.
Proof.
  intros He (d & name & dims & [_ _ _ [_ _ _ _ Hb] _ _] & _ & _ & -> & Hle). cbn in *. unfold is_u64 in Hb.
  assert (0 < align) by (apply Z.pow_pos_nonneg; lia).
  pose proof (aligned_bounds (e + qd_encoded_bytes d) align ltac:(lia)). repeat split; lia.
Qed.

Lemma fixture_loop_spec n p pre rest e :
  wp_tensors p = pre ++ rest -> length rest = n -> zlen pre + Z.of_nat n <= zlen fixtures -> is_u64 e ->
  length (wp_qtype_tensor_counts p) = 43%nat -> length (wp_qtype_payload_bytes p) = 43%nat ->
  match writer_fixture_loop quant_plan fixtures align n (zlen pre) e p with
  | (p', Done (WRITER_FIXTURE_TENSOR_OK, _, span)) => exists tensors, length tensors = n
      /\ wp_tensors p' = pre ++ tensors /\ planned_all (zlen pre) e tensors span /\ is_u64 span /\ plan_frame p p'
  | (_, Done _) => True
  | _ => False
  end.
Proof.
  revert p pre rest e. induction n as [|n IH]; intros p pre rest e Et Hn Hf He Hc Hp; cbn [writer_fixture_loop].
  - destruct rest; [|done]. cbn. exists []. repeat split; done || apply He.
  - destruct rest as [|x rest]; [done|]. cbn in Hn.
    pose proof (fixture_tensor_step p pre x rest e Et ltac:(lia) He Hc Hp) as Hs. unfold answers in Hs. unfold mbind at 1, so_bind at 1.
    destruct (writer_fixture_tensor _ _ _ _ _ p) as [p1 [[[] next]|st r|f]]; [|done|done|done|done].
    destruct Hs as (t & Ht & -> & Et1 & Hfr). pose proof Hfr as [_ _ Hc1 Hp1]. unfold is_u64 in He.
    pose proof (planned_bounds (zlen pre) e t ltac:(lia) Ht) as (_ & Hraw & Hend & _). unfold ULLONG_MAX, UINT64_MAX in Hend.
    specialize (IH p1 (pre ++ [t]) rest (wt_padded_end t)). rewrite zlen_snoc in IH. rewrite <- app_assoc in IH.
    specialize (IH Et1 ltac:(lia) ltac:(lia) ltac:(unfold is_u64; lia) Hc1 Hp1).
    destruct (writer_fixture_loop _ _ _ n _ _ p1) as [p2 [[[[] failed] span]|st r|f]]; [|done|done|done|done].
    destruct IH as (ts & Hl & Et2 & Hall & Hspan & Hfr2). exists (t :: ts). rewrite <- app_assoc in Et2.
    split; [cbn; lia|]. split; [done|]. split; [done|]. split; [done|by eapply plan_frame_trans].
Qed.

End Plan.

(** ** Names *)

(** A sorted list whose neighbours differ has no repetition. *)
Lemma sorted_distinct (l : list string) :
  StronglySorted (le_by String.compare) l -> (forall i a b, zget l i = Some a -> zget l (i + 1) = Some b -> a <> b) -> NoDup l.
Proof.
  induction 1 as [|x l Hs IH Hx]; intros Hadj; constructor.
  - intros Hin. destruct l as [|y l]; [by apply not_elem_of_nil in Hin|].
    assert (x <> y) as Hne by exact (Hadj 0 x y (zget_middle [] x (y :: l)) (zget_middle [x] y l)).
    apply Forall_cons_1 in Hx as [Hxy _]. apply StronglySorted_inv in Hs as [_ Hy].
    apply elem_of_cons in Hin as [->|Hin]; [done|]. rewrite Forall_forall in Hy. specialize (Hy x Hin).
    unfold le_by in Hxy, Hy. rewrite String.compare_antisym in Hy. destruct (String.compare x y) eqn:E; cbn in *; [|done|done].
    by apply String.compare_eq_iff in E.
  - apply IH. intros i a b Ha Hb. pose proof (zget_Some_range _ _ _ Ha). apply (Hadj (i + 1)); rewrite zget_cons_succ; [done|lia|done|lia].
Qed.

Lemma mapO_names tensors :
  mapO (fun i => t ← read_at tensors i; Done (wt_name t)) (zseq (zlen tensors)) = Done (wt_name <$> tensors).
Proof.
  apply mapO_Done. apply Forall2_same_length_lookup. split.
  { pose proof (zlen_zseq (zlen tensors) (zlen_nonneg _)) as Hz. unfold zlen in *. rewrite length_fmap. lia. }
  intros j i name Hi Hn. unfold zseq in Hi. apply list_lookup_fmap_Some in Hi as (n & -> & Hs). apply lookup_seq in Hs as [-> Hlt].
  apply list_lookup_fmap_Some in Hn as (t & -> & Ht).
  assert (read_at tensors (Z.of_nat (0 + j)) = Done t) as ->; [|done]. apply read_at_Done.
  rewrite zget_lookup; [by rewrite Nat2Z.id|]. apply lookup_lt_Some in Ht. unfold zlen. lia.
Qed.

Lemma existsO_neighbours (l : list string) n : zlen l = n ->
  existsO (fun i => a ← read_at l i; b ← read_at l (i + 1); Done (bool_decide (a = b))) (zseq (n - 1))
  = Done (existsb (fun i => match zget l i, zget l (i + 1) with Some a, Some b => bool_decide (a = b) | _, _ => false end)
            (zseq (n - 1))).
Proof.
  intros <-. assert (forall js, Forall (fun i => 0 <= i < zlen l - 1) js ->
    existsO (fun i => a ← read_at l i; b ← read_at l (i + 1); Done (bool_decide (a = b))) js
    = Done (existsb (fun i => match zget l i, zget l (i + 1) with Some a, Some b => bool_decide (a = b) | _, _ => false end) js)) as Hgen.
  { induction 1 as [|i js Hi _ IH]; [done|]. cbn [existsO existsb]. rewrite IH.
    destruct (zget_in l i ltac:(lia)) as [a Ha]. destruct (zget_in l (i + 1) ltac:(lia)) as [b Hb].
    rewrite (proj2 (read_at_Done _ _ _) Ha), (proj2 (read_at_Done _ _ _) Hb), Ha, Hb. cbn. by destruct (bool_decide (a = b)). }
  apply Hgen, Forall_forall. intros i Hi%elem_of_zseq. lia.
Qed.

(** The comparison of neighbours finds the repeated names. *)
Lemma names_unique_spec alloc tensors :
  match writer_tensor_names_unique alloc tensors (zlen tensors) with
  | Done (Some unique) => unique = true <-> NoDup (wt_name <$> tensors)
  | Done None => SIZE_MAX / SIZEOF_POINTER < zlen tensors \/ alloc Request_names = false
  | _ => False
  end.
Proof.
  unfold writer_tensor_names_unique. destruct (_ <? zlen tensors) eqn:Es; [left; lia|].
  destruct (alloc Request_names); [|by right]. cbn [negb]. rewrite mapO_names. cbn [mbind outcome_bind].
  set (ordered := sort_by String.compare (wt_name <$> tensors)).
  assert (ordered ≡ₚ wt_name <$> tensors) as Hp by apply sort_by_perm.
  assert (zlen ordered = zlen tensors) as Hl by (unfold zlen; rewrite Hp, length_fmap; done).
  rewrite (existsO_neighbours ordered) by done. cbn [mbind outcome_bind]. rewrite <- Hp.
  rewrite negb_true_iff, <- not_true_iff_false, existsb_exists. split.
  - intros Hnone. apply sorted_distinct; [apply sort_by_sorted; [apply String.compare_antisym|apply strcmp_le_trans]|].
    intros i a b Ha Hb ->. apply Hnone. exists i. pose proof (zget_Some_range _ _ _ Ha). pose proof (zget_Some_range _ _ _ Hb).
    split; [apply list_elem_of_In, elem_of_zseq; lia|]. rewrite Ha, Hb. by apply bool_decide_eq_true.
  - intros Hnd (i & Hi%list_elem_of_In%elem_of_zseq & E).
    destruct (zget ordered i) as [a|] eqn:Ha; [|done]. destruct (zget ordered (i + 1)) as [b|] eqn:Hb; [|done].
    apply bool_decide_eq_true in E as ->. rewrite zget_lookup in Ha, Hb by lia.
    pose proof (NoDup_lookup _ _ _ _ Hnd Ha Hb). lia.
Qed.

(** ** The sealed plan *)

(** [c] does not fault, and a plan it returns is in [Q]. *)
Definition leaves {A} (c : WP A) (p : yvex_gguf_writer_plan) (Q : A -> yvex_gguf_writer_plan -> Prop) : Prop :=
  match c p with
  | (p', Done a) => Q a p'
  | (_, Refuse _ _) => True
  | (_, Fault _) => False
  end.

Lemma leaves_bind {A B} (c : WP A) (f : A -> WP B) p Q R :
  leaves c p Q -> (forall a p', Q a p' -> leaves (f a) p' R) -> leaves (c ≫= f) p R.
Proof. unfold leaves, mbind, so_bind. intros H Hf. destruct (c p) as [p' [a|st r|e]]; [by apply Hf|done|done]. Qed.

Lemma leaves_step {A B} (c : WP A) (f : A -> WP B) p p' a R : c p = (p', Done a) -> leaves (f a) p' R -> leaves (c ≫= f) p R.
Proof. unfold leaves, mbind, so_bind. by intros ->. Qed.

Lemma leaves_checked {A B} (o : option A) (f : A -> WP B) p R :
  (forall a, o = Some a -> leaves (f a) p R) -> leaves (checked o ≫= f) p R.
Proof. intros H. destruct o as [a|]; [by apply H|done]. Qed.

(** The sizes of a planned tensor are machine integers. *)
Definition tensor_sized (t : yvex_gguf_writer_tensor) : Prop :=
  is_u64 (wt_relative_offset t) /\ is_u64 (wt_raw_bytes t) /\ is_u64 (wt_padded_end t).

Definition placed (data : Z) (t : yvex_gguf_writer_tensor) : yvex_gguf_writer_tensor :=
  mk_writer_tensor (wt_name t) (wt_rank t) (wt_dims t) (wt_qtype t) (wt_relative_offset t) (data + wt_relative_offset t)
    (wt_raw_bytes t) (wt_padded_bytes t) (data + wt_relative_offset t + wt_raw_bytes t) (data + wt_padded_end t).

(** What sealing keeps: the texts but the identity, and the numbers seeded. *)
Definition same_seed (p p' : yvex_gguf_writer_plan) : Prop :=
  wp_number p' W_alignment = wp_number p W_alignment /\ wp_number p' W_tensor_count = wp_number p W_tensor_count.

Lemma place_each data p pre post :
  is_u64 data -> Forall tensor_sized post -> wp_tensors p = pre ++ post ->
  leaves (so_each (writer_place_tensor data) ((fun j => zlen pre + Z.of_nat j) <$> seq 0 (length post))) p
    (fun _ p' => wp_tensors p' = pre ++ (placed data <$> post) /\ wp_number p' = wp_number p).
Proof.
  intros Hd Hs. revert p pre. induction Hs as [|t post (H1 & H2 & H3) _ IH]; intros p pre Et; cbn [length seq fmap list_fmap so_each].
  - done.
  - rewrite Z.add_0_r. apply (leaves_bind _ _ _ (fun _ p' => wp_tensors p' = (pre ++ [placed data t]) ++ post /\ wp_number p' = wp_number p)).
    + unfold writer_place_tensor. eapply leaves_step; [reflexivity|]. rewrite Et.
      assert (read_at (pre ++ t :: post) (zlen pre) = Done t) as -> by (apply read_at_Done, zget_middle).
      eapply leaves_step; [reflexivity|]. apply leaves_checked. intros a [-> Ha]%u64_add_Some; [|done|done].
      apply leaves_checked. intros b [-> Hb]%u64_add_Some; [|done|done]. apply leaves_checked. intros c [-> Hc]%u64_add_Some; [|done|done].
      unfold leaves. rewrite (put_row_middle p pre t post _ Et). split; [|done]. cbn. by rewrite <- app_assoc.
    + intros [] p1 [Et1 Hn1]. specialize (IH p1 (pre ++ [placed data t]) Et1). rewrite zlen_snoc in IH.
      rewrite <- seq_shift, <- list_fmap_compose.
      rewrite (list_fmap_ext _ (fun j => zlen pre + 1 + Z.of_nat j)) by (intros i x _; cbn; lia).
      unfold leaves in *. destruct (so_each _ _ p1) as [p2 [u|st r|f]]; [|done|done]. destruct IH as [H4 H5].
      rewrite <- app_assoc in H4. split; [done|congruence].
Qed.

Lemma append_zero_spec alloc b n : bytes_wf b -> 0 <= n ->
  match buffer_append_zero alloc n b with
  | (b', Done _) => bytes_data b' = bytes_data b ++ zeros n
  | (_, Refuse _ _) => True
  | (_, Fault _) => False
  end.
Proof.
  intros Hb Hn. unfold buffer_append_zero, yvex_core_bytes_append_zero.
  pose proof (bytes_reserve_spec (alloc (Request_buffer (bytes_count b))) b n Hb Hn) as H.
  destruct (yvex_core_bytes_reserve _ b n) as [b'|]; [|done]. destruct H as (_ & Hd & _). cbn. by rewrite Hd.
Qed.

Lemma prefix_finish_spec alloc buffer k span p :
  bytes_wf buffer -> 0 <= k < 32 -> is_u64 span -> Forall tensor_sized (wp_tensors p) ->
  wp_number p W_tensor_count = zlen (wp_tensors p) ->
  leaves (writer_prefix_finish alloc buffer (2 ^ k) span) p (fun _ p' =>
    let data := aligned (bytes_count buffer) (2 ^ k) in
    wp_prefix p' = bytes_data buffer ++ zeros (data - bytes_count buffer) /\ wp_tensors p' = placed data <$> wp_tensors p
    /\ wp_number p' W_final_file_bytes = data + span /\ is_u64 data /\ is_u64 (data + span) /\ same_seed p p').
Proof.
  intros Hb Hk Hspan Hs Hcount. unfold writer_prefix_finish. pose proof Hb as (H1 & _ & H3 & _).
  pose proof (zlen_nonneg (bytes_data buffer)) as Hc. fold (bytes_count buffer) in Hc.
  assert (0 < 2 ^ k) as Hpos by (apply Z.pow_pos_nonneg; lia). pose proof (aligned_bounds (bytes_count buffer) (2 ^ k) Hpos) as Hal.
  rewrite writer_align_spec by (unfold is_u64 in *; lia). apply leaves_checked. intros data Ed. destruct (_ <=? ULLONG_MAX) eqn:E; [|done].
  injection Ed as <-. set (data := aligned (bytes_count buffer) (2 ^ k)) in *. unfold ULLONG_MAX, UINT64_MAX in E.
  destruct (SIZE_MAX <? data); [done|].
  pose proof (append_zero_spec alloc buffer (data - bytes_count buffer) Hb ltac:(lia)) as Hz.
  destruct (buffer_append_zero _ _ buffer) as [b' [u|st r|f]]; [|done|done].
  assert (is_u64 data) as Hdata by (unfold is_u64; lia).
  apply leaves_checked. intros final [-> Hf]%u64_add_Some; [|done|done].
  do 2 (eapply leaves_step; [reflexivity|]). cbn [wp_number set_number so_modify fst]. rewrite fn_lookup_insert_ne, Hcount by done.
  eapply leaves_bind.
  { pose proof (place_each data (set_number W_final_file_bytes (data + span) p).1 [] (wp_tensors p) Hdata Hs eq_refl) as Hp.
    unfold zseq. rewrite to_nat_zlen.
    rewrite (list_fmap_ext Z.of_nat (fun j => zlen (@nil yvex_gguf_writer_tensor) + Z.of_nat j)); [exact Hp|].
    intros i x _. by rewrite zlen_nil. }
  intros [] p1 [Ht Hn]. do 3 (eapply leaves_step; [reflexivity|]). unfold leaves. cbn. rewrite Hn. cbn.
  split; [done|]. split; [done|]. rewrite !fn_lookup_insert_ne, fn_lookup_insert by done. split; [done|]. split; [done|]. split; [done|].
  split; cbn; by rewrite !fn_lookup_insert_ne by done.
Qed.

Definition prefix_text (align : Z) (tensors : list yvex_gguf_writer_tensor) : list Z :=
  header_text (zlen tensors) 2 ++ concat (proof_texts align) ++ concat (row_text <$> (row_of <$> tensors)).

(** A sealed plan of [tensors], laid out from zero with the alignment [2 ^ k]. *)
Record sealed (quant_plan : option yvex_quant_plan) (fixtures : list (option string)) (k : Z)
    (tensors : list yvex_gguf_writer_tensor) (plan : yvex_gguf_writer_plan) : Prop := {
  se_shift : 0 <= k < 32;
  se_tensors : tensors <> [];
  se_names : NoDup (wt_name <$> tensors);
  se_complete : wp_complete plan = true;
  se_alignment : wp_number plan W_alignment = 2 ^ k;
  se_count : wp_number plan W_tensor_count = zlen tensors;
  se_layout : exists span, planned_all quant_plan fixtures k 0 0 tensors span
    /\ wp_number plan W_final_file_bytes = aligned (zlen (prefix_text (2 ^ k) tensors)) (2 ^ k) + span
    /\ aligned (zlen (prefix_text (2 ^ k) tensors)) (2 ^ k) + span <= ULLONG_MAX;
  se_prefix : wp_prefix plan = prefix_text (2 ^ k) tensors
    ++ zeros (aligned (zlen (prefix_text (2 ^ k) tensors)) (2 ^ k) - zlen (prefix_text (2 ^ k) tensors));
  se_placed : wp_tensors plan = placed (aligned (zlen (prefix_text (2 ^ k) tensors)) (2 ^ k)) <$> tensors
}.

Lemma leaves_mono {A} (c : WP A) p (Q R : A -> yvex_gguf_writer_plan -> Prop) :
  leaves c p Q -> (forall a p', Q a p' -> R a p') -> leaves c p R.
Proof. unfold leaves. intros H HQ. destruct (c p) as [p' [a|st r|f]]; [by apply HQ|done|done]. Qed.

Lemma identity_spec p :
  leaves writer_plan_identity p (fun _ p' => wp_number p' = wp_number p /\ wp_tensors p' = wp_tensors p /\ wp_prefix p' = wp_prefix p).
Proof. eapply leaves_step; [reflexivity|]. by apply leaves_checked. Qed.

(** After the prefix: the accounts, the budget and the identity. *)
Lemma proof_finish_spec alloc quant options tensor_count buffer span k p :
  po_alignment options = 2 ^ k -> bytes_wf buffer -> 0 <= k < 32 -> is_u64 span -> Forall tensor_sized (wp_tensors p) ->
  wp_number p W_tensor_count = zlen (wp_tensors p) ->
  leaves (writer_proof_finish alloc quant options tensor_count buffer span) p (fun _ p' =>
    let data := aligned (bytes_count buffer) (2 ^ k) in
    wp_prefix p' = bytes_data buffer ++ zeros (data - bytes_count buffer) /\ wp_tensors p' = placed data <$> wp_tensors p
    /\ wp_number p' W_final_file_bytes = data + span /\ is_u64 data /\ is_u64 (data + span) /\ same_seed p p'
    /\ wp_complete p' = true).
Proof.
  intros Ha Hb Hk Hspan Hs Hcount. unfold writer_proof_finish. rewrite Ha.
  eapply leaves_bind; [by apply prefix_finish_spec|]. intros [] p1 (H1 & H2 & H3 & H4 & H5 & H6 & H7).
  eapply leaves_step; [reflexivity|]. apply leaves_checked. intros bytes _. apply leaves_checked. intros owned _.
  do 2 (eapply leaves_step; [reflexivity|]). apply leaves_checked. intros owned' _. eapply leaves_step; [reflexivity|].
  destruct (_ || _); [done|]. eapply leaves_bind; [apply identity_spec|].
  intros [] p2 (E1 & E2 & E3). unfold leaves, same_seed. cbn in *. rewrite E1, E2, E3, !fn_lookup_insert_ne by done. done.
Qed.

(** Seeding changes numbers and texts only. *)
Definition same_tables (p p' : yvex_gguf_writer_plan) : Prop :=
  wp_tensors p' = wp_tensors p /\ wp_qtype_tensor_counts p' = wp_qtype_tensor_counts p
  /\ wp_qtype_payload_bytes p' = wp_qtype_payload_bytes p.

Definition seeds (c : WP unit) (p : yvex_gguf_writer_plan) (Q : (writer_number -> Z) -> Prop) : Prop :=
  exists p', c p = (p', Done tt) /\ Q (wp_number p') /\ same_tables p p'.

Lemma seeds_number f v c p Q :
  (forall q, wp_number q = <[f := v]> (wp_number p) -> seeds c q Q) -> seeds (set_number f v ≫= fun _ => c) p Q.
Proof. intros H. by apply (H (set_number f v p).1). Qed.

Lemma seeds_text f v c p Q :
  (forall q, wp_number q = wp_number p -> seeds c q Q) -> seeds (set_text f v ≫= fun _ => c) p Q.
Proof. intros H. by apply (H (set_text f v p).1). Qed.

Lemma seed_spec quant tensor_count options p :
  seeds (writer_plan_seed quant tensor_count options) p
    (fun number => number W_alignment = po_alignment options /\ number W_tensor_count = tensor_count).
Proof.
  unfold writer_plan_seed. do 6 (apply seeds_number; intros ? ?). do 5 (apply seeds_text; intros ? ?).
  match goal with |- seeds _ ?q ?Q => assert (Q (wp_number q)) as HQ end.
  { cbn beta. repeat match goal with H : wp_number _ = _ |- _ => rewrite H; clear H end.
    by rewrite !fn_lookup_insert_ne, !fn_lookup_insert by done. }
  destruct (po_required_execution_identity options); (eexists; split; [reflexivity|]); by split.
Qed.

Lemma planned_sized quant_plan fixtures k tensors : 0 <= k < 32 -> forall ordinal e span, is_u64 e ->
  planned_all quant_plan fixtures k ordinal e tensors span ->
  Forall tensor_sized tensors /\ Forall (fun t => 0 <= wt_rank t <= zlen (wt_dims t)) tensors.
Proof.
  intros Hk. induction tensors as [|t tensors IH]; intros ordinal e span He; [by split; constructor|]. intros [Ht Hall].
  unfold is_u64 in He. pose proof (planned_bounds quant_plan fixtures k Hk ordinal e t ltac:(lia) Ht) as (H1 & H2 & H3 & _).
  unfold ULLONG_MAX, UINT64_MAX in H3. apply IH in Hall as [H4 H5]; [|unfold is_u64; lia].
  destruct Ht as (d & name & dims & Hin & Hl & _ & -> & _). cbn in *. pose proof (fi_rank _ _ _ _ _ Hin).
  split; (apply Forall_cons_2; [|done]); [unfold tensor_sized, is_u64; cbn; lia|]. cbn. unfold zlen. lia.
Qed.

(** The widths of the options. *)
Definition plan_options_ok (options : option yvex_gguf_writer_plan_options) : Prop :=
  match options with
  | None => True
  | Some o => is_u32 (po_alignment o) /\ is_u64 (po_maximum_owned_bytes o)
  end.

Lemma plan_options_default options : plan_options_ok options ->
  is_u32 (po_alignment (default yvex_gguf_writer_plan_options_default options))
  /\ is_u64 (po_maximum_owned_bytes (default yvex_gguf_writer_plan_options_default options)).
Proof. destruct options as [o|]; [done|]. by vm_compute. Qed.

Lemma empty_buffer maximum : is_u64 maximum -> bytes_wf (mk_bytes [] 0 maximum 0).
Proof. intros H. unfold bytes_wf, bytes_count, is_u64, zlen in *. cbn. lia. Qed.

Lemma build_spec alloc quant_plan fixtures options :
  quant_ok quant_plan -> plan_options_ok options ->
  match writer_plan_build_tensor_proof alloc quant_plan (Some fixtures) (zlen fixtures) options with
  | (_, Done plan) => exists k tensors, sealed quant_plan fixtures k tensors plan /\ zlen tensors = zlen fixtures
      /\ 2 ^ k = po_alignment (default yvex_gguf_writer_plan_options_default options)
  | (failure, Refuse _ _) => wf_code failure <> WRITER_OK
  | (_, Fault _) => False
  end.
Proof.
  intros Hq Ho. unfold writer_plan_build_tensor_proof. cbv zeta. destruct (plan_options_default options Ho) as [Ha Hm].
  destruct (yvex_quant_plan_summary_get quant_plan) as [quant|]; [|done].
  set (local := default yvex_gguf_writer_plan_options_default options) in *.
  destruct (_ || (SIZE_MAX / SIZEOF_WRITER_TENSOR <? _)) eqn:E1; [done|].
  destruct (_ || (po_maximum_owned_bytes local =? 0)) eqn:E2; [done|].
  apply orb_false_iff in E2 as [E2 _]. destruct (align_guard (po_alignment local) Ha E2) as (k & Hk & Ek).
  destruct (_ || negb (alloc Request_tensors)); [done|].
  destruct (seed_spec quant (zlen fixtures) local (set_tensors (replicate (Z.to_nat (zlen fixtures)) writer_tensor_zero) plan_zero).1)
    as (p0 & Es & [Hal Hcount] & Ht0 & Hc0 & Hp0).
  rewrite (so_bind_eq _ _ plan_zero _ _ eq_refl). rewrite (so_bind_eq _ _ _ _ _ Es). rewrite Ek in *.
  pose proof (fixture_loop_spec quant_plan fixtures k Hq Hk (length fixtures) p0 [] (replicate (length fixtures) writer_tensor_zero) 0)
    as Hloop. unfold writer_fixture_tensors_build. rewrite to_nat_zlen in *. change 0 with (zlen (@nil yvex_gguf_writer_tensor)) at 1.
  destruct (writer_fixture_loop _ _ _ _ _ _ p0) as [p1 [[[[] failed] span]|st r|f]]; [|done|done|done|].
  2:{ apply Hloop; [by rewrite Ht0|by rewrite length_replicate|rewrite zlen_nil; unfold zlen; lia|done|by rewrite Hc0|by rewrite Hp0]. }
  destruct Hloop as (tensors & Hl & Et & Hall & Hspan & Hfr);
    [by rewrite Ht0|by rewrite length_replicate|rewrite zlen_nil; unfold zlen; lia|done|by rewrite Hc0|by rewrite Hp0|].
  rewrite zlen_nil in Hall. cbn [app] in Et. destruct (planned_sized quant_plan fixtures k tensors Hk 0 0 span ltac:(done) Hall) as [Hsized Hranks].
  assert (zlen tensors = zlen fixtures) as Hz by (unfold zlen; lia). rewrite Et, <- Hz in *.
  pose proof (names_unique_spec alloc tensors) as Hu. destruct (writer_tensor_names_unique alloc tensors _) as [[[]|]|st r|f]; [|done..].
  destruct Hu as [Hu _]. specialize (Hu eq_refl).
  pose proof (emits_prefix alloc (2 ^ k) tensors ltac:(unfold is_u32 in Ha; lia) Hranks
    (mk_bytes [] 0 (po_maximum_owned_bytes local) 0) (empty_buffer _ Hm)) as Hw.
  destruct (writer_prefix_serialize _ _ _ _ _ _ _) as [buffer [u|st r|f]]; [|done|done].
  destruct Hw as (Hwf & Hd & _). cbn [bytes_data app] in Hd. fold (prefix_text (2 ^ k) tensors) in Hd.
  pose proof (pf_number _ _ Hfr) as Hnum.
  pose proof (proof_finish_spec alloc quant local (zlen tensors) buffer span k p1 Ek Hwf Hk Hspan ltac:(by rewrite Et)
    ltac:(by rewrite Et, Hnum)) as Hfin.
  unfold leaves in Hfin. destruct (writer_proof_finish _ _ _ _ _ _ p1) as [plan [u'|st r|f]]; [|done|done].
  cbv zeta in Hfin. unfold bytes_count in Hfin. rewrite Hd, Et in Hfin. destruct Hfin as (F1 & F2 & F3 & F4 & F5 & [F6 F7] & F8).
  exists k, tensors. split; [|done]. unfold is_u64, ULLONG_MAX, UINT64_MAX in *.
  split; [done| |done|done|by rewrite F6, Hnum|by rewrite F7, Hnum|exists span; split; [done|]; split; [done|unfold ULLONG_MAX, UINT64_MAX; lia]|done|done].
  intros ->. rewrite zlen_nil in *. by rewrite !orb_true_r in E1.
Qed.

(** ** The file of a plan *)

(** The prefix, then every payload followed by its padding. *)
Definition padded (t : yvex_gguf_writer_tensor) (payload : list Z) : list Z :=
  payload ++ zeros (wt_padded_bytes t - wt_raw_bytes t).

Definition plan_file (plan : yvex_gguf_writer_plan) (payloads : list (list Z)) : list Z :=
  wp_prefix plan ++ concat (zip_with padded (wp_tensors plan) payloads).

(** What the reader reports of a planned tensor. *)
Definition describes (t : yvex_gguf_writer_tensor) (info : yvex_gguf_tensor_info) : Prop :=
  t_name info = Some (string_bytes (wt_name t)) /\ t_rank info = wt_rank t
  /\ take (Z.to_nat (wt_rank t)) (t_dims info) = take (Z.to_nat (wt_rank t)) (wt_dims t) /\ t_ggml_type info = wt_qtype t
  /\ t_relative_offset info = wt_relative_offset t /\ t_absolute_offset info = wt_absolute_offset t
  /\ t_storage_bytes info = wt_raw_bytes t /\ t_absolute_end_offset info = wt_absolute_end t.

(** The limits of the reader cover the document. *)
Record limits_cover (options : yvex_gguf_reader_options) (doc : gguf_document) : Prop := {
  lc_metadata : zlen (doc_metadata doc) <= max_metadata_entries options;
  lc_tensors : zlen (doc_tensors doc) <= max_tensor_entries options;
  lc_strings : zlen (string_bytes "general.architecture") <= max_string_bytes options;
  lc_within : doc_within options doc
}.

Lemma aligned_mod value a : 0 < a -> aligned value a mod a = 0.
Proof.
  intros Ha. unfold aligned. pose proof (Z.mod_pos_bound value a Ha). destruct (_ =? 0) eqn:E.
  - rewrite Z.add_0_r. lia.
  - replace (value + (a - value mod a)) with ((value / a + 1) * a) by (pose proof (Z.div_mod value a ltac:(lia)); lia).
    apply Z.mod_mul. lia.
Qed.

Lemma string_bytes_inj a b : string_bytes a = string_bytes b -> a = b.
Proof.
  unfold string_bytes. intros H. assert (String.list_ascii_of_string a = String.list_ascii_of_string b) as E.
  { apply list_fmap_eq_inj in H; [done|]. intros x y Hxy. unfold byte_of_ascii in Hxy. apply N2Z.inj in Hxy.
    by rewrite <- (Ascii.ascii_N_embedding x), <- (Ascii.ascii_N_embedding y), Hxy. }
  by rewrite <- (String.string_of_list_ascii_of_string a), <- (String.string_of_list_ascii_of_string b), E.
Qed.

Lemma string_bytes_u8 s : Forall is_u8 (string_bytes s).
Proof.
  apply Forall_forall. intros x Hx. apply list_elem_of_fmap in Hx as (c & -> & _). unfold byte_of_ascii, is_u8.
  pose proof (Ascii.N_ascii_bounded c). lia.
Qed.

Section Layout.
  Context (quant_plan : option yvex_quant_plan) (fixtures : list (option string)) (k : Z) (Hk : 0 <= k < 32).

Notation planned := (planned quant_plan fixtures k).
Notation planned_all := (planned_all quant_plan fixtures k).

Lemma planned_bytes ordinal e t : planned ordinal e t ->
  tensor_bytes (r_type (row_of t)) (r_dims (row_of t)) = Some (wt_raw_bytes t).
Proof. intros (d & name & dims & Hin & _ & Ht & -> & _). cbn. rewrite Ht. apply (fi_bytes _ _ _ _ _ Hin). Qed.

Lemma planned_row_bytes ordinal e t : planned ordinal e t -> row_bytes (row_of t) = wt_raw_bytes t.
Proof. intros H%planned_bytes. unfold row_bytes. by rewrite H. Qed.

Lemma planned_end ordinal e t : 0 <= e -> planned ordinal e t -> row_end k e (row_of t) = wt_padded_end t.
Proof.
  intros He Ht. pose proof (planned_bounds quant_plan fixtures k Hk ordinal e t He Ht) as (_ & _ & _ & -> & _).
  unfold row_end. by rewrite (planned_row_bytes _ _ _ Ht).
Qed.

Definition sized (t : yvex_gguf_writer_tensor) (payload : list Z) : Prop := zlen payload = wt_raw_bytes t.

(** The data section is the one the validator expects, and it has the span of the plan. *)
Lemma planned_payload tensors payloads : Forall2 sized tensors payloads ->
  forall ordinal e span, 0 <= e -> planned_all ordinal e tensors span ->
  payload_text k e (row_of <$> tensors) (concat (zip_with padded tensors payloads))
  /\ zlen (concat (zip_with padded tensors payloads)) = span - e.
Proof.
  induction 1 as [|t payload tensors payloads Hp _ IH]; intros ordinal e span He Hall; cbn [fmap list_fmap zip_with concat payload_text].
  - cbn in Hall. subst. split; [done|]. rewrite zlen_nil. lia.
  - destruct Hall as [Ht Hall]. pose proof (planned_bounds quant_plan fixtures k Hk ordinal e t He Ht) as (H1 & H2 & H3 & H4 & H5).
    destruct (IH (ordinal + 1) (wt_padded_end t) span ltac:(lia) Hall) as [Htext Hlen]. unfold sized in Hp.
    rewrite (planned_end _ _ _ He Ht), (planned_row_bytes _ _ _ Ht). split.
    + split; [done|]. exists payload, (concat (zip_with padded tensors payloads)). split; [done|]. split; [|done].
      unfold padded. rewrite <- app_assoc. f_equal. f_equal. f_equal. lia.
    + rewrite zlen_app, Hlen. unfold padded. rewrite zlen_app, zlen_zeros by lia. lia.
Qed.

(** The rows are admissible. *)
Lemma planned_rows options tensors : Forall (fun t => string_ok options YVEX_GGUF_MAX_TENSOR_NAME_LEN true true (string_bytes (wt_name t))) tensors ->
  forall ordinal e span, is_u64 e -> e mod 2 ^ k = 0 -> planned_all ordinal e tensors span ->
  Forall (row_ok options (2 ^ k)) (row_of <$> tensors) /\ e <= span
  /\ Forall (fun r => r_offset r + row_bytes r <= span) (row_of <$> tensors).
Proof.
  assert (0 < 2 ^ k) as Hpos by (apply Z.pow_pos_nonneg; lia).
  induction 1 as [|t tensors Hname _ IH]; intros ordinal e span He Hm Hall; cbn [fmap list_fmap].
  - cbn in Hall. subst. repeat split; [constructor|lia|constructor].
  - destruct Hall as [Ht Hall]. unfold is_u64 in He.
    pose proof (planned_bounds quant_plan fixtures k Hk ordinal e t ltac:(lia) Ht) as (H1 & H2 & H3 & H4 & H5). unfold ULLONG_MAX, UINT64_MAX in H3.
    destruct (IH (ordinal + 1) (wt_padded_end t) span) as (Hr & Hs & Hb); [unfold is_u64; lia|rewrite H4; by apply aligned_mod|done|].
    pose proof (planned_bytes _ _ _ Ht) as Hbytes. pose proof (planned_row_bytes _ _ _ Ht) as Hrow.
    split; [|split; [lia|]]; (apply Forall_cons_2; [|done]); [|rewrite Hrow; cbn; lia].
    split; [done| | |by eexists|cbn; unfold is_u64; lia|cbn; by rewrite H1].
    + destruct Ht as (d & name & dims & Hin & _ & Htk & -> & _). cbn in *. rewrite Htk. apply Forall_take, (do_dims d), (fi_ok _ _ _ _ _ Hin).
    + destruct Ht as (d & name & dims & Hin & _ & _ & -> & _). cbn. apply (do_qtype d), (fi_ok _ _ _ _ _ Hin).
Qed.

End Layout.

(** ** The document of a plan *)

Lemma proof_entries_text options align :
  0 < align < 2 ^ 32 -> zlen (string_bytes "general.architecture") <= max_string_bytes options ->
  Forall2 (entry_text options) (proof_entries align) (proof_texts align).
Proof.
  intros Ha Hs. change (zlen (string_bytes "general.architecture")) with 20 in Hs.
  constructor; [|constructor; [|constructor]]; unfold entry_text; cbn [fst snd v_type].
  - split; [by apply key_valid_exact; vm_compute|]. split; [by vm_compute|]. split; [exact Hs|]. split; [done|].
    exists (string_text (string_bytes "yvex-fixture")). split; [|done].
    assert (string_ok options 0 false false (string_bytes "yvex-fixture")) as Hok.
    { split; [apply ascii_text_ok, (bool_decide_unpack _); by vm_compute|].
      split; [apply string_bytes_u8|]. split; [change (zlen _) with 12; lia|]. by repeat split. }
    destruct (Z.to_nat (max_array_depth options)); by exists (string_bytes "yvex-fixture").
  - split; [by apply key_valid_exact; vm_compute|]. split; [by vm_compute|].
    split; [change (zlen _) with 17; lia|]. split; [done|]. exists (le_bytes 4 align). split; [|done].
    destruct (Z.to_nat (max_array_depth options)); exists align, (As_u64 align); (split; [cbn; lia|done]).
Qed.

Lemma proof_entries_alignment align : align <> 0 -> alignment_of (proof_entries align) = Some align.
Proof.
  intros Ha. unfold alignment_of, proof_entries. cbn [entry_find]. rewrite bool_decide_eq_false_2 by (by vm_compute).
  rewrite bool_decide_eq_true_2 by done. by replace (align =? 0) with false by lia.
Qed.

Section Written.
  Context (quant_plan : option yvex_quant_plan) (names : list string) (k : Z) (tensors : list yvex_gguf_writer_tensor).
  Context (plan : yvex_gguf_writer_plan) (Hsealed : sealed quant_plan (Some <$> names) k tensors plan).
  Context (payloads : list (list Z)) (Hsizes : Forall2 sized (wp_tensors plan) payloads).
  Context (artifact : yvex_artifact) (options : yvex_gguf_reader_options).
  Context (Hbytes : a_bytes artifact = plan_file plan payloads) (Hsize : a_size artifact = zlen (a_bytes artifact)).
  Context (Hnames : Forall (fun n => string_ok options YVEX_GGUF_MAX_TENSOR_NAME_LEN true true (string_bytes n)) names).
  Context (Hlimits : limits_cover options (plan_document plan)).

Notation prefix := (prefix_text (2 ^ k) tensors).
Notation data := (aligned (zlen prefix) (2 ^ k)).

Lemma plan_rows : row_of <$> wp_tensors plan = row_of <$> tensors.
Proof. rewrite (se_placed _ _ _ _ _ Hsealed), <- list_fmap_compose. by apply list_fmap_ext. Qed.

Lemma plan_doc : plan_document plan = mk_document (proof_entries (2 ^ k)) (row_of <$> tensors).
Proof. unfold plan_document. by rewrite plan_rows, (se_alignment _ _ _ _ _ Hsealed). Qed.

Lemma tensors_sized : Forall2 sized tensors payloads.
Proof. rewrite (se_placed _ _ _ _ _ Hsealed), Forall2_fmap_l in Hsizes. eapply Forall2_impl; [exact Hsizes|done]. Qed.

Lemma plan_body : zip_with padded (wp_tensors plan) payloads = zip_with padded tensors payloads.
Proof. rewrite (se_placed _ _ _ _ _ Hsealed), zip_with_fmap_l. done. Qed.

Lemma tensor_names : Forall (fun t => string_ok options YVEX_GGUF_MAX_TENSOR_NAME_LEN true true (string_bytes (wt_name t))) tensors.
Proof.
  destruct (se_layout _ _ _ _ _ Hsealed) as (span & Hall & _). clear -Hall Hnames.
  assert (forall l ordinal e, planned_all quant_plan (Some <$> names) k ordinal e l span ->
    Forall (fun t => string_ok options YVEX_GGUF_MAX_TENSOR_NAME_LEN true true (string_bytes (wt_name t))) l) as A; [|by eapply A].
  induction l as [|t l IH]; intros ordinal e; [constructor|]. intros [(d & name & dims & Hin & _ & _ & -> & _) Hl].
  apply Forall_cons_2; [|by eapply IH]. cbn. pose proof (fi_fixture _ _ _ _ _ Hin) as Hf.
  apply zget_elem_of, list_elem_of_fmap in Hf as (n & [= ->] & Hn). rewrite Forall_forall in Hnames. by apply Hnames.
Qed.

Lemma shift_pos : 0 < 2 ^ k < 2 ^ 32.
Proof. pose proof (se_shift _ _ _ _ _ Hsealed). split; [apply Z.pow_pos_nonneg|apply Z.pow_lt_mono_r]; lia. Qed.

(** Where the sections of the file are. *)
Lemma plan_sections : exists span,
  payload_text k 0 (row_of <$> tensors) (concat (zip_with padded tensors payloads))
  /\ zlen (concat (zip_with padded tensors payloads)) = span
  /\ a_bytes artifact = prefix ++ zeros (data - zlen prefix) ++ concat (zip_with padded tensors payloads)
  /\ zlen (a_bytes artifact) = data + span /\ wp_number plan W_final_file_bytes = data + span /\ data + span <= ULLONG_MAX
  /\ Forall (row_ok options (2 ^ k)) (row_of <$> tensors) /\ Forall (fun r => r_offset r + row_bytes r <= span) (row_of <$> tensors).
Proof.
  destruct (se_layout _ _ _ _ _ Hsealed) as (span & Hall & Hfinal & Hmax). pose proof (se_shift _ _ _ _ _ Hsealed) as Hk.
  exists span. destruct (planned_payload quant_plan (Some <$> names) k Hk tensors payloads tensors_sized 0 0 span ltac:(lia) Hall) as [Ht Hl].
  destruct (planned_rows quant_plan (Some <$> names) k Hk options tensors tensor_names 0 0 span ltac:(done) ltac:(done) Hall) as (Hr & _ & Hb).
  assert (a_bytes artifact = prefix ++ zeros (data - zlen prefix) ++ concat (zip_with padded tensors payloads)) as E.
  { rewrite Hbytes. unfold plan_file. rewrite plan_body, (se_prefix _ _ _ _ _ Hsealed). by rewrite <- app_assoc. }
  split; [done|]. split; [lia|]. split; [done|]. pose proof (aligned_bounds (zlen prefix) (2 ^ k) (proj1 shift_pos)).
  split; [rewrite E, !zlen_app, zlen_zeros by lia; lia|]. done.
Qed.

(** The file of a plan is a file of the format, and a canonical one. *)
Lemma plan_is_file : gguf_file artifact options (plan_document plan) (2 ^ k) prefix.
Proof.
  destruct plan_sections as (span & _ & Hl & E & Hz & _ & Hmax & Hr & Hb). pose proof shift_pos as Hp.
  pose proof (zlen_nonneg (concat (zip_with padded tensors payloads))) as Hn.
  destruct Hlimits as [L1 L2 L3 L4]. pose proof (aligned_bounds (zlen prefix) (2 ^ k) ltac:(lia)) as Ha. rewrite plan_doc in *.
  split; [|split; [|split; [|split]]].
  - exists (proof_texts (2 ^ k)). split; [by apply proof_entries_text|]. unfold prefix_text. cbn [doc_tensors doc_metadata].
    replace (zlen (row_of <$> tensors)) with (zlen tensors) by (unfold zlen; by rewrite length_fmap). done.
  - split; [done|done| |by apply proof_entries_alignment; lia| |done].
    + cbn. apply NoDup_cons. split; [|apply NoDup_singleton]. intros H%list_elem_of_singleton. by vm_compute in H.
    + cbn. rewrite <- list_fmap_compose. rewrite (list_fmap_ext _ (string_bytes ∘ wt_name)) by done.
      rewrite list_fmap_compose. apply NoDup_fmap; [exact string_bytes_inj|apply (se_names _ _ _ _ _ Hsealed)].
  - done.
  - split; [lia|]. intros _. split; [lia|]. eapply Forall_impl; [exact Hb|]. cbn beta. intros r Hle. lia.
  - by eexists.
Qed.

Lemma plan_is_canonical : canonical_file artifact (plan_document plan) (2 ^ k) prefix.
Proof.
  destruct plan_sections as (span & Ht & _ & E & _). rewrite plan_doc. pose proof (se_shift _ _ _ _ _ Hsealed).
  split; [exists k; lia|]. exists (concat (zip_with padded tensors payloads)). split; [done|]. by rewrite Z.log2_pow2 by lia.
Qed.

End Written.

(** Every payload is where its row says. *)
Lemma payload_at quant_plan fixtures k tensors payloads : 0 <= k < 32 -> Forall2 sized tensors payloads ->
  forall ordinal e span i t payload, 0 <= e -> planned_all quant_plan fixtures k ordinal e tensors span ->
  zget tensors i = Some t -> zget payloads i = Some payload ->
  exists pre post, concat (zip_with padded tensors payloads) = pre ++ payload ++ post /\ zlen pre = wt_relative_offset t - e
    /\ zlen payload = wt_raw_bytes t.
Proof.
  intros Hk. induction 1 as [|x y tensors payloads Hxy _ IH]; intros ordinal e span i t payload He Hall Hi Hj; [by rewrite zget_nil in Hi|].
  destruct Hall as [Hx Hall]. pose proof (planned_bounds quant_plan fixtures k Hk ordinal e x He Hx) as (H1 & H2 & H3 & H4 & H5).
  unfold sized in Hxy. destruct (decide (i = 0)) as [->|Hne].
  - pose proof (zget_middle [] x tensors : zget (x :: tensors) 0 = Some x) as Z1. pose proof (zget_middle [] y payloads : zget (y :: payloads) 0 = Some y) as Z2.
    rewrite Z1 in Hi. rewrite Z2 in Hj. simplify_eq.
    exists [], (zeros (wt_padded_bytes t - wt_raw_bytes t) ++ concat (zip_with padded tensors payloads)).
    split; [cbn; unfold padded; by rewrite <- app_assoc|]. split; [rewrite zlen_nil; lia|done].
  - pose proof (zget_Some_range _ _ _ Hi). assert (exists j, i = j + 1 /\ 0 <= j) as (j & -> & Hj0) by (exists (i - 1); lia).
    rewrite zget_cons_succ in Hi by done. rewrite zget_cons_succ in Hj by done.
    destruct (IH (ordinal + 1) (wt_padded_end x) span j t payload ltac:(lia) Hall Hi Hj) as (pre & post & E & Hl & Hp).
    exists (padded x y ++ pre), post. cbn. rewrite E. split; [by rewrite <- app_assoc|]. split; [|done].
    unfold padded. rewrite !zlen_app, zlen_zeros by lia. lia.
Qed.

Lemma slice_middle (p x q : list Z) : slice (p ++ x ++ q) (zlen p) (zlen x) = x.
Proof. unfold slice. rewrite !to_nat_zlen, drop_app_length. by rewrite take_app_length. Qed.

Lemma row_described quant_plan fixtures k ordinal e t data size :
  planned quant_plan fixtures k ordinal e t -> describes (placed data t) (placed_info data size (row_of t)).
Proof.
  intros Ht. pose proof (planned_row_bytes _ _ _ _ _ _ Ht) as Hr.
  assert (zlen (r_dims (row_of t)) = wt_rank t) as Hz.
  { destruct Ht as (d & name & dims & Hin & Hl & _ & -> & _). pose proof (fi_rank _ _ _ _ _ Hin). cbn in *.
    unfold zlen. rewrite length_take. lia. }
  unfold describes, placed_info. cbn [t_name t_rank t_dims t_ggml_type t_relative_offset t_absolute_offset t_storage_bytes t_absolute_end_offset].
  rewrite Hz, Hr. repeat split. cbn [placed wt_rank wt_dims].
  replace (Z.to_nat (wt_rank t)) with (length (r_dims (row_of t))) at 1 by (unfold zlen in Hz; lia).
  rewrite take_app_length. cbn. reflexivity.
Qed.

(** A tensor of the loop is planned from some offset. *)
Lemma planned_at quant_plan fixtures k tensors : forall ordinal e span i t,
  planned_all quant_plan fixtures k ordinal e tensors span -> zget tensors i = Some t ->
  exists o e', planned quant_plan fixtures k o e' t.
Proof.
  induction tensors as [|x tensors IH]; intros ordinal e span i t; [by rewrite zget_nil|]. intros [Hx Hall] Hi.
  apply zget_elem_of, elem_of_cons in Hi as [->|Hin]; [eauto|]. apply elem_of_zget in Hin as [j Hj]. by eapply IH.
Qed.

(** ** Theorems *)

(** C7: What the writer plans, the reader reads back.  When a plan of explicit
    tensors is built, the file made of its prefix and the payloads, each followed
    by the planned padding, has exactly the planned size.  When the kernel and the
    allocator grant every request, every name is one the reader admits (valid UTF-8
    of one to 64 bytes without a null byte; the writer plans longer ones, see
    [long_name_planned_not_read]) and the reader's limits cover the directory, the
    reader opens that file, and for every tensor it reports the name, shape,
    element type and range of the plan, at which the file holds the payload; and
    the layout validator accepts the file as canonical. *)
Theorem writer_reader_agree walloc quant_plan names woptions failure plan payloads artifact io alloc options :
  quant_ok quant_plan -> plan_options_ok woptions ->
  writer_plan_build_tensor_proof walloc quant_plan (Some (Some <$> names)) (zlen names) woptions = (failure, Done plan) ->
  Forall2 sized (wp_tensors plan) payloads -> a_bytes artifact = plan_file plan payloads ->
  file_ok artifact options -> generous artifact io alloc -> options_zero options = false ->
  Forall (fun n => string_ok options YVEX_GGUF_MAX_TENSOR_NAME_LEN true true (string_bytes n)) names ->
  limits_cover options (plan_document plan) ->
  zlen (a_bytes artifact) = wp_number plan W_final_file_bytes
  /\ exists result g, yvex_gguf_open_ex (Some artifact) io alloc (Some options) = (result, Done g)
    /\ (forall i t payload, yvex_gguf_writer_plan_tensor_at (Some plan) i = Done (Some t) -> zget payloads i = Some payload ->
          exists info, yvex_gguf_tensor_at g i = Done (Some info) /\ describes t info
            /\ slice (a_bytes artifact) (t_absolute_offset info) (t_storage_bytes info) = payload)
    /\ forall io2, (forall n, PreadFailed ∉ io2 n) ->
         exists out, yvex_gguf_layout_validate (Some artifact) (Some g) io2
           (Some (a_snapshot artifact), Some (a_snapshot artifact)) (Some (a_snapshot artifact), Some (a_snapshot artifact)) = (out, Done tt)
           /\ lr_accepted out = true.
Proof.
  intros Hq Ho Hbuild Hsizes Hbytes Hfile Hg Hz Hnames Hlimits. pose proof Hg as (_ & _ & Hsame & Hmax).
  pose proof (build_spec walloc quant_plan (Some <$> names) woptions Hq Ho) as Hb.
  replace (zlen (Some <$> names)) with (zlen names) in Hb by (unfold zlen; by rewrite length_fmap). rewrite Hbuild in Hb.
  destruct Hb as (k & tensors & Hs & Hl & _).
  pose proof (plan_sections quant_plan names k tensors plan Hs payloads Hsizes artifact options Hbytes Hnames) as (span & _ & _ & E & Hlen & Hfin & _).
  split; [congruence|].
  pose proof (plan_is_file quant_plan names k tensors plan Hs payloads Hsizes artifact options Hbytes Hsame Hnames Hlimits) as Hf.
  pose proof (plan_is_canonical quant_plan names k tensors plan Hs payloads Hsizes artifact options Hbytes Hnames) as Hcan.
  destruct (open_accepts artifact io alloc options _ _ _ Hfile Hg Hz Hf) as (result & Hopen).
  exists result, (doc_view artifact (plan_document plan) (2 ^ k)). split; [done|]. split.
  - intros i t payload Ht Hp.
    unfold yvex_gguf_writer_plan_tensor_at in Ht. destruct (_ && _); [|done].
    apply bind_Done in Ht as (t' & Hread%read_at_Done & [= ->]). rewrite (se_placed _ _ _ _ _ Hs) in Hread.
    pose proof (zget_Some_range _ _ _ Hread) as Hi. rewrite zget_lookup in Hread by done.
    apply list_lookup_fmap_Some in Hread as (t0 & -> & Ht0).
    assert (zget tensors i = Some t0) as Hget by (rewrite zget_lookup; [done|unfold zlen in *; rewrite length_fmap in Hi; lia]).
    destruct (se_layout _ _ _ _ _ Hs) as (span' & Hall & _). pose proof (se_shift _ _ _ _ _ Hs) as Hk.
    destruct (planned_at _ _ _ _ _ _ _ _ _ Hall Hget) as (o & e' & Hpl).
    eexists. split; [|split; [by eapply row_described|]].
    + apply (view_row artifact options (plan_document plan) (2 ^ k) _ Hf). rewrite (plan_doc _ _ _ _ _ Hs). cbn [doc_tensors].
      rewrite zget_lookup; [|pose proof (zget_Some_range _ _ _ Hget); unfold zlen in *; rewrite length_fmap; lia]. by rewrite list_lookup_fmap, Ht0.
    + destruct (payload_at _ _ _ _ _ Hk (tensors_sized _ _ _ _ _ Hs _ Hsizes) 0 0 span' i t0 payload ltac:(lia) Hall Hget Hp) as (pre & post & Ec & Hpre & Hsz).
      cbn [placed_info t_absolute_offset t_storage_bytes r_offset row_of]. rewrite (planned_row_bytes _ _ _ _ _ _ Hpl).
      rewrite E, Ec, <- Hsz, !app_assoc. rewrite <- (app_assoc _ payload post).
      replace (_ + wt_relative_offset t0) with (zlen ((prefix_text (2 ^ k) tensors
        ++ zeros (aligned (zlen (prefix_text (2 ^ k) tensors)) (2 ^ k) - zlen (prefix_text (2 ^ k) tensors))) ++ pre)); [apply slice_middle|].
      pose proof (aligned_bounds (zlen (prefix_text (2 ^ k) tensors)) (2 ^ k) ltac:(apply Z.pow_pos_nonneg; lia)).
      rewrite !zlen_app, zlen_zeros by lia. lia.
  - intros io2 Hio. set (same := (Some (a_snapshot artifact), Some (a_snapshot artifact))).
    pose proof (validate_spec artifact io2 options _ _ _ same same Hfile Hsame Hf) as Hv.
    destruct (yvex_gguf_layout_validate _ _ io2 same same) as [out [[]|st r|f]]; [exists out; split; [done|apply Hv]| |done].
    exfalso. refine (Hv _ (conj eq_refl (conj eq_refl Hcan))). done.
Qed.

(** A plan of two tensors. *)
Definition sample_quant : yvex_quant_plan :=
  mk_quant_plan (mk_quant_summary QUANT_PLAN_SEALED "profile" "p" "q" "t" 1 "r" 2 2 2 42 true)
    [mk_decision 0 1 [2; 0; 0; 0] 8; mk_decision 8 1 [32; 0; 0; 0] 34].

Definition sample_plan : yvex_gguf_writer_plan :=
  match writer_plan_build_tensor_proof (fun _ => true) (Some sample_quant) (Some (Some <$> ["a"; "b"])) 2 None with
  | (_, Done plan) => plan
  | _ => plan_zero
  end.

Definition sample_payloads : list (list Z) := [replicate 8 1; replicate 34 2].

Definition sample_written : yvex_artifact :=
  let bytes := plan_file sample_plan sample_payloads in
  mk_artifact (zlen bytes) (mk_snapshot 1 2 (zlen bytes) 0 0 0 0) bytes.

Lemma sample_quant_ok : quant_ok (Some sample_quant).
Proof.
  split; [done|]. repeat (apply Forall_cons_2; [split; [by vm_compute|by vm_compute|done| |by vm_compute]|]); [..|apply Forall_nil_2];
    apply (bool_decide_unpack _); by vm_compute.
Qed.

Lemma sample_written_ok : file_ok sample_written yvex_gguf_reader_options_default.
Proof.
  split; [by vm_compute| |apply (fo_options _ _ sample_file_ok)]. apply (bool_decide_unpack _). by vm_compute.
Qed.

Lemma writer_reader_agree_witness :
  exists result g info out, yvex_gguf_open_ex (Some sample_written) (fun _ => []) (fun _ => true)
      (Some yvex_gguf_reader_options_default) = (result, Done g)
    /\ yvex_gguf_tensor_at g 1 = Done (Some info) /\ t_name info = Some [98]
    /\ slice (a_bytes sample_written) (t_absolute_offset info) (t_storage_bytes info) = replicate 34 2
    /\ yvex_gguf_layout_validate (Some sample_written) (Some g) (fun _ => [])
         (Some (a_snapshot sample_written), Some (a_snapshot sample_written))
         (Some (a_snapshot sample_written), Some (a_snapshot sample_written)) = (out, Done tt).
Proof.
  destruct (writer_plan_build_tensor_proof (fun _ => true) (Some sample_quant) (Some (Some <$> ["a"; "b"])) (zlen ["a"; "b"]) None)
    as [failure [plan| |]] eqn:E; [|by vm_compute in E|by vm_compute in E].
  assert (plan = sample_plan) as -> by (unfold sample_plan; change 2 with (zlen ["a"; "b"]); rewrite E; reflexivity).
  destruct (writer_reader_agree (fun _ => true) (Some sample_quant) ["a"; "b"] None failure sample_plan sample_payloads sample_written
    (fun _ => []) (fun _ => true) yvex_gguf_reader_options_default sample_quant_ok I E) as (_ & result & g & Ho & Ht & Hl);
    [|reflexivity|exact sample_written_ok| |reflexivity| | |].
  - change (Forall2 (fun t payload => zlen payload = wt_raw_bytes t) (wp_tensors sample_plan) sample_payloads).
    apply (bool_decide_unpack _). by vm_compute.
  - split; [done|]. split; [by intros n ?%not_elem_of_nil|]. split; [reflexivity|by vm_compute].
  - repeat (apply Forall_cons_2; [|]); [..|apply Forall_nil_2];
      (split; [apply ascii_text_ok, (bool_decide_unpack _); by vm_compute|]; split; [apply string_bytes_u8|];
       split; [by vm_compute|]; split; [done|]; split; [by vm_compute|]; intros _; apply (bool_decide_unpack _); by vm_compute).
  - split; [by vm_compute|by vm_compute|by vm_compute|]. repeat split; by vm_compute.
  - destruct (Hl (fun _ => [])) as (out & Hv & _); [by intros n ?%not_elem_of_nil|].
    destruct (yvex_gguf_writer_plan_tensor_at (Some sample_plan) 1) as [[t|]| |] eqn:Et; [|by vm_compute in Et..].
    destruct (Ht 1 t (replicate 34 2) Et eq_refl) as (info & Hi & Hd & Hs). exists result, g, info, out.
    split; [exact Ho|]. split; [exact Hi|]. split; [|split; [exact Hs|exact Hv]].
    destruct Hd as (Hn & _). rewrite Hn. vm_compute in Et. injection Et as <-. reflexivity.
Defined.

(** A name of 65 bytes is planned, and the file is refused by the reader. *)
Definition long_name : string := String.string_of_list_ascii (replicate 65 (Ascii.ascii_of_nat 97)).

Definition long_quant : yvex_quant_plan :=
  mk_quant_plan (mk_quant_summary QUANT_PLAN_SEALED "profile" "p" "q" "t" 1 "r" 2 1 1 8 true) [mk_decision 0 1 [2; 0; 0; 0] 8].

Lemma long_name_planned_not_read :
  match writer_plan_build_tensor_proof (fun _ => true) (Some long_quant) (Some [Some long_name]) 1 None with
  | (_, Done plan) =>
      let bytes := plan_file plan [replicate 8 1] in
      match yvex_gguf_open_ex (Some (mk_artifact (zlen bytes) (mk_snapshot 1 2 (zlen bytes) 0 0 0 0) bytes)) (fun _ => [])
              (fun _ => true) None with
      | (result, Refuse _ _) => pr_code result = PARSE_MALFORMED_TENSOR_NAME
      | _ => False
      end
  | _ => False
  end.
Proof. vm_compute. reflexivity. Qed.
