(* ===== verification/GgufStaging.v ===== *)
(** * GgufStaging: staged metadata is written as the reader expects it

    The entries of a plan are staged by a few functions, each of which refuses a
    key already present.  Whatever calls were made, the keys staged are distinct
    and every entry is consistent: its source, its element type and its bytes
    agree.  Serializing the entries then writes exactly the texts that the reader
    decodes as the staged keys and values. *)

From Stdlib Require Import ZArith Lia Bool SpecFloat.
From stdpp Require Import base functions list option numbers strings sets.
From S2P Require Import Prelude Core Words Float64 NameIndex Utf8 Qtype Artifact GgufReader GgufSpec GgufText GgufValues GgufIndex GgufMetadata GgufTensors GgufOpen GgufWriter GgufWritten.

(** ** Consistent entries *)

(** What the producers of lowered metadata promise: arrays of 64 machine words,
    of which at most 64 are used. *)
Record lowering_ok (m : yvex_gguf_writer_lowering_metadata) : Prop := {
  lo_u64 : is_u64 (lm_u64_value m);
  lo_f64 : is_u64 (lm_f64_value m);
  lo_count : 0 <= lm_array_count m <= 64;
  lo_values : zlen (lm_array_values m) = 64 /\ Forall is_u64 (lm_array_values m);
  lo_doubles : zlen (lm_f64_array_values m) = 64 /\ Forall is_u64 (lm_f64_array_values m)
}.

(** The source of an array and its elements. *)
Definition array_ok (e : writer_metadata) : Prop :=
  0 <= wm_count e /\
  match wm_source e with
  | WRITER_META_SCALAR => False
  | WRITER_META_TOKEN_ARRAY | WRITER_META_MERGE_ARRAY => wm_element_type e = VALUE_STRING
  | WRITER_META_TOKEN_TYPE_ARRAY => wm_element_type e = VALUE_INT32
  | WRITER_META_U64_ARRAY => (wm_element_type e = VALUE_UINT32 \/ wm_element_type e = VALUE_UINT64)
      /\ exists m, wm_map_entry e = Some m /\ lowering_ok m /\ wm_count e <= 64
  | WRITER_META_F64_ARRAY => (wm_element_type e = VALUE_FLOAT32 \/ wm_element_type e = VALUE_FLOAT64)
      /\ exists m, wm_map_entry e = Some m /\ lowering_ok m /\ wm_count e <= 64
  end.

(** The bytes of a string are there. *)
Definition bytes_ok (bytes : option (list Z)) (length : Z) : Prop :=
  length = 0 \/ exists l, bytes = Some l /\ 0 <= length <= zlen l.

Definition entry_ok (e : writer_metadata) : Prop :=
  match wm_type e with
  | VALUE_UINT32 => is_u32 (wm_u64 e)
  | VALUE_UINT64 => is_u64 (wm_u64 e)
  | VALUE_FLOAT32 | VALUE_FLOAT64 => is_u64 (wm_f64 e)
  | VALUE_STRING => bytes_ok (wm_string_bytes e) (wm_string_length e)
  | VALUE_ARRAY => array_ok e
  | _ => True
  end.

(** The invariant of the staged entries. *)
Record staged (entries : list writer_metadata) : Prop := {
  sg_keys : NoDup (wm_key <$> entries);
  sg_count : zlen entries <= WRITER_METADATA_CAP;
  sg_names : Forall (fun e => wm_key e <> "" /\ strlen (wm_key e) < WRITER_KEY_CAP) entries;
  sg_entries : Forall entry_ok entries
}.

(** ** Every call keeps the invariant *)

(** [c] never faults and leaves the entries consistent, whatever it answers. *)
Definition maintains (c : WM unit) : Prop := forall entries, staged entries ->
  staged (c entries).1 /\ forall f, (c entries).2 <> Fault f.

Lemma maintains_stop : maintains writer_stop.
Proof. intros entries Hs. by split. Qed.

Lemma maintains_ret : maintains (mret tt).
Proof. intros entries Hs. by split. Qed.

Lemma maintains_bind c d : maintains c -> maintains d -> maintains (c ≫= fun _ => d).
Proof.
  intros Hc Hd entries Hs. destruct (Hc entries Hs) as [H1 H2]. unfold mbind, so_bind.
  destruct (c entries) as [es [u|st r|f]]; cbn [fst snd] in *; [by apply Hd|by split|by destruct (H2 f)].
Qed.

Lemma key_exists_false entries key : writer_metadata_key_exists entries key = false -> key ∉ (wm_key <$> entries).
Proof.
  intros H (e & -> & He)%list_elem_of_fmap. unfold writer_metadata_key_exists in H. apply not_true_iff_false in H. apply H.
  apply existsb_exists. exists e. split; [by apply list_elem_of_In|by apply bool_decide_eq_true].
Qed.

Lemma maintains_new key fill :
  (forall e, wm_key (fill e) = wm_key e) -> entry_ok (fill (writer_metadata_blank key)) -> maintains (writer_metadata_new key fill).
Proof.
  intros Hkey Hok entries Hs. unfold writer_metadata_new, so_get, mbind, so_bind.
  destruct (_ || writer_metadata_key_exists _ _) eqn:E; [by split|]. unfold so_put. cbn [fst snd]. split; [|done].
  apply orb_false_iff in E as [[[E Elen]%orb_false_iff Ecap]%orb_false_iff Ekey].
  rewrite text_copy_id by lia. destruct Hs as [H1 H2 H3 H4].
  apply bool_decide_eq_false in E. pose proof (Hkey (writer_metadata_blank key)) as Hk. cbn in Hk. split.
  - rewrite fmap_app. cbn. rewrite Hk. apply NoDup_app. split; [done|]. split; [|apply NoDup_singleton].
    intros x Hx ->%list_elem_of_singleton. by apply (key_exists_false entries key).
  - rewrite zlen_snoc. lia.
  - apply Forall_app. split; [done|]. apply Forall_singleton. rewrite Hk. split; [done|lia].
  - apply Forall_app. split; [done|]. by apply Forall_singleton.
Qed.

Lemma maintains_after key fill :
  (forall e, wm_key (fill e) = wm_key e) -> entry_ok (fill (writer_metadata_blank key)) ->
  maintains (_ ← writer_metadata_new key fill; writer_stop).
Proof. intros H1 H2. apply maintains_bind; [by apply maintains_new|apply maintains_stop]. Qed.

Lemma zlen_string_bytes text : zlen (string_bytes text) = strlen text.
Proof. unfold strlen, string_bytes, zlen. rewrite length_fmap. f_equal. induction text; cbn; congruence. Qed.

(** The bytes handed to the writer are there. *)
Definition given (bytes : option (list Z)) (byte_count : Z) : Prop :=
  0 <= byte_count /\ forall l, bytes = Some l -> byte_count <= zlen l.

Lemma maintains_string key bytes n : given bytes n -> maintains (writer_meta_string key bytes n).
Proof.
  intros [Hn Hg]. unfold writer_meta_string. destruct (_ && _) eqn:E; [by apply maintains_after|]. apply maintains_new; [done|].
  cbn. unfold bytes_ok. destruct bytes as [l|]; [right; exists l; by auto|]. left. cbn in E. apply negb_false_iff in E. lia.
Qed.

Lemma given_text text : given (Some (string_bytes text)) (strlen text).
Proof. split; [unfold strlen; lia|]. intros l [= <-]. by rewrite zlen_string_bytes. Qed.

Lemma maintains_text key text : maintains (writer_meta_text key text).
Proof. destruct text as [text|]; [apply maintains_string, given_text|apply maintains_stop]. Qed.

Lemma maintains_u32 key value : 0 <= value -> maintains (writer_meta_u32 key value).
Proof.
  intros Hv. unfold writer_meta_u32. destruct (_ <? _) eqn:E; [apply maintains_stop|]. apply maintains_new; [done|].
  cbn. unfold is_u32, UINT_MAX, UINT32_MAX in *. lia.
Qed.

Lemma maintains_bool key value : maintains (writer_meta_bool key value).
Proof. by apply maintains_new. Qed.

(** A call that looks a key up first. *)
Lemma maintains_found key (c : option writer_metadata -> WM unit) :
  maintains (c None) -> (forall e, entry_ok e -> maintains (c (Some e))) ->
  maintains (entries ← so_get; c (writer_metadata_find entries key)).
Proof.
  intros H1 H2 entries Hs. unfold so_get, mbind, so_bind. unfold writer_metadata_find, mbind, option_bind.
  destruct (list_find _ entries) as [[i e]|] eqn:E; [|by apply H1]. apply list_find_Some in E as (Hi & _).
  apply H2; [|done]. pose proof (sg_entries _ Hs) as He. rewrite Forall_forall in He. apply He. by eapply list_elem_of_lookup_2.
Qed.

Lemma maintains_text_reconcile key text : maintains (writer_meta_text_reconcile key text).
Proof.
  apply (maintains_found key (fun found => match found with None => writer_meta_text key text | Some e => _ end)); [apply maintains_text|].
  intros e He. destruct text as [text|]; [|apply maintains_stop]. destruct (_ && _) eqn:E; [|apply maintains_stop].
  apply andb_true_iff in E as [[Et%bool_decide_eq_true _]%andb_true_iff _].
  assert (exists same, same_bytes (wm_string_bytes e) (wm_string_length e) text = Done same) as [same ->].
  { unfold entry_ok in He. rewrite Et in He. unfold same_bytes. destruct (_ =? 0) eqn:E0; [eauto|].
    destruct He as [H0|(l & -> & Hl)]; [lia|]. replace (zlen l <? _) with false by lia. eauto. }
  intros entries Hs. by destruct same.
Qed.

Lemma maintains_u32_reconcile key value : 0 <= value -> maintains (writer_meta_u32_reconcile key value).
Proof.
  intros Hv. apply (maintains_found key (fun found => match found with None => writer_meta_u32 key value | Some e => _ end)); [by apply maintains_u32|].
  intros e _. destruct (_ && _); [apply maintains_ret|apply maintains_stop].
Qed.

Lemma maintains_bool_reconcile key value : maintains (writer_meta_bool_reconcile key value).
Proof.
  apply (maintains_found key (fun found => match found with None => writer_meta_bool key value | Some e => _ end)); [apply maintains_bool|].
  intros e _. destruct (_ && _); [apply maintains_ret|apply maintains_stop].
Qed.

Lemma maintains_map entry : (forall m, entry = Some m -> lowering_ok m) -> maintains (writer_meta_map entry).
Proof.
  intros Hm. destruct entry as [m|]; [|apply maintains_stop]. specialize (Hm m eq_refl). pose proof Hm as [H1 H2 H3 H4 H5].
  unfold writer_meta_map. set (custom := custom_key (lm_key m)). destruct (lm_type m) eqn:E.
  - apply maintains_new; [done|]. right. eexists. split; [done|]. rewrite zlen_string_bytes. cbn. unfold strlen. lia.
  - destruct (_ && _) eqn:Eu; [by apply maintains_after|]. apply maintains_new; [done|]. unfold UINT_MAX, UINT32_MAX in *. destruct custom; cbn in *; unfold is_u32, is_u64 in *; lia.
  - destruct (f64_beyond_float _); [by apply maintains_after|]. apply maintains_new; [done|]. by destruct custom.
  - by apply maintains_new.
  - assert (entry_ok (array_entry WRITER_META_U64_ARRAY (if custom then VALUE_UINT64 else VALUE_UINT32) (lm_array_count m)
      (mapped_entry m (writer_metadata_blank (lm_key m))))) as Hok.
    { split; [apply H3|]. split; [destruct custom; auto|]. exists m. cbn. split; [done|]. split; [done|lia]. }
    destruct (_ =? 0); [by apply maintains_after|by apply maintains_new].
  - assert (entry_ok (array_entry WRITER_META_F64_ARRAY (if custom then VALUE_FLOAT64 else VALUE_FLOAT32) (lm_array_count m)
      (mapped_entry m (writer_metadata_blank (lm_key m))))) as Hok.
    { split; [apply H3|]. split; [destruct custom; auto|]. exists m. cbn. split; [done|]. split; [done|lia]. }
    destruct (_ =? 0); [by apply maintains_after|by apply maintains_new].
  - by apply maintains_after.
Qed.

(** The source and the element type of an array of the tokenizer. *)
Definition tokenizer_source (source : writer_metadata_source) (type : yvex_gguf_value_type) : Prop :=
  (source = WRITER_META_TOKEN_ARRAY \/ source = WRITER_META_MERGE_ARRAY) /\ type = VALUE_STRING
  \/ source = WRITER_META_TOKEN_TYPE_ARRAY /\ type = VALUE_INT32.

Lemma maintains_dynamic key source type count :
  tokenizer_source source type -> 0 <= count -> maintains (writer_meta_dynamic_array key source type count).
Proof.
  intros Hs Hc. unfold writer_meta_dynamic_array. destruct (_ =? 0); [by apply maintains_after|]. apply maintains_new; [done|].
  split; [done|]. by destruct Hs as [[[-> | ->] ->]|[-> ->]].
Qed.

Lemma maintains_token key token : (forall id, token = Some id -> 0 <= id) -> maintains (optional_token key token).
Proof. intros H. destruct token; [by apply maintains_u32_reconcile, H|apply maintains_ret]. Qed.

Record summary_ok (s : yvex_gguf_tokenizer_summary) : Prop := {
  so_tokens : 0 <= ts_token_count s;
  so_merges : 0 <= ts_merge_count s;
  so_ids : forall id, ts_bos_token s = Some id \/ ts_eos_token s = Some id \/ ts_pad_token s = Some id -> is_u32 id
}.

Create HintDb maintaining.
#[local] Hint Resolve maintains_text maintains_string maintains_bool maintains_u32 maintains_text_reconcile maintains_u32_reconcile maintains_bool_reconcile
  maintains_dynamic maintains_token maintains_ret : maintaining.

Lemma maintains_tokenizer s json json_bytes config config_bytes model policy standalone unk :
  summary_ok s -> given json json_bytes -> given config config_bytes -> (forall id, unk = Some id -> is_u32 id) ->
  maintains (writer_tokenizer_metadata_add s json json_bytes config config_bytes model policy standalone unk).
Proof.
  intros [H1 H2 H3] Hj Hc Hu. unfold writer_tokenizer_metadata_add. destruct (bool_decide _); [apply maintains_stop|].
  assert (forall id, is_u32 id -> 0 <= id) as Hid by (intros id [? _]; done).
  assert (forall id, ts_bos_token s = Some id -> 0 <= id) by eauto. assert (forall id, ts_eos_token s = Some id -> 0 <= id) by eauto.
  assert (forall id, ts_pad_token s = Some id -> 0 <= id) by eauto. assert (forall id, unk = Some id -> 0 <= id) by eauto.
  assert (tokenizer_source WRITER_META_TOKEN_ARRAY VALUE_STRING) by (left; auto).
  assert (tokenizer_source WRITER_META_MERGE_ARRAY VALUE_STRING) by (left; auto).
  assert (tokenizer_source WRITER_META_TOKEN_TYPE_ARRAY VALUE_INT32) by (right; auto).
  repeat (apply maintains_bind; [solve [auto with maintaining]|] || (destruct standalone)); auto with maintaining.
Qed.

(** ** Sequences of calls *)

Inductive staging_call : Type :=
  | Stage_string (key : string) (bytes : option (list Z)) (byte_count : Z)
  | Stage_text (key : string) (text : option string)
  | Stage_u32 (key : string) (value : Z)
  | Stage_bool (key : string) (value : bool)
  | Stage_map (entry : option yvex_gguf_writer_lowering_metadata)
  | Stage_tokenizer (summary : yvex_gguf_tokenizer_summary) (json : option (list Z)) (json_bytes : Z)
      (config : option (list Z)) (config_bytes : Z) (model policy : option string) (standalone : bool) (unk : option Z).

Definition stage (call : staging_call) : WM unit :=
  match call with
  | Stage_string key bytes n => writer_meta_string key bytes n
  | Stage_text key text => writer_meta_text key text
  | Stage_u32 key value => writer_meta_u32 key value
  | Stage_bool key value => writer_meta_bool key value
  | Stage_map entry => writer_meta_map entry
  | Stage_tokenizer s json n config k model policy standalone unk =>
      writer_tokenizer_metadata_add s json n config k model policy standalone unk
  end.

(** Arguments of their C types, and buffers as long as stated. *)
Definition call_ok (call : staging_call) : Prop :=
  match call with
  | Stage_string _ bytes n => given bytes n
  | Stage_u32 _ value => 0 <= value
  | Stage_map entry => forall m, entry = Some m -> lowering_ok m
  | Stage_tokenizer s json n config k _ _ _ unk =>
      summary_ok s /\ given json n /\ given config k /\ forall id, unk = Some id -> is_u32 id
  | _ => True
  end.

Lemma maintains_stage call : call_ok call -> maintains (stage call).
Proof.
  destruct call; cbn; [apply maintains_string|intros _; apply maintains_text|apply maintains_u32|intros _; apply maintains_bool|apply maintains_map|].
  intros (H1 & H2 & H3 & H4). by apply maintains_tokenizer.
Qed.

Lemma maintains_calls calls : Forall call_ok calls -> maintains (so_each stage calls).
Proof. induction 1; cbn; [apply maintains_ret|]. apply maintains_bind; [by apply maintains_stage|done]. Qed.

Lemma staged_nil : staged [].
Proof. split; [constructor|by vm_compute|constructor|constructor]. Qed.

(** ** What the reader must decode *)

Section Meaning.
  Context (tokenizer : option yvex_gguf_tokenizer_metadata).

Definition string_of (bytes : outcome (list Z)) : option yvex_gguf_value :=
  match bytes with
  | Done bytes => Some (mk_value VALUE_STRING (As_string (Some bytes)))
  | _ => None
  end.

(** A [float] is what rounding the double leaves. *)
Definition double_of (type : yvex_gguf_value_type) (bits : Z) : yvex_gguf_value :=
  mk_value type (As_f64 (if bool_decide (type = VALUE_FLOAT32) then f64_of_f32 (f32_bits (f32_of_f64 bits)) else bits)).

Definition element_value (e : writer_metadata) (index : Z) : option yvex_gguf_value :=
  match wm_source e with
  | WRITER_META_SCALAR => None
  | WRITER_META_TOKEN_ARRAY =>
      match yvex_gguf_tokenizer_token_at tokenizer index with
      | Done (Some (span, _)) => string_of (arena_bytes tokenizer span)
      | _ => None
      end
  | WRITER_META_TOKEN_TYPE_ARRAY =>
      match yvex_gguf_tokenizer_token_at tokenizer index with
      | Done (Some (_, token_type)) => Some (mk_value VALUE_INT32 (As_i64 token_type))
      | _ => None
      end
  | WRITER_META_MERGE_ARRAY =>
      match yvex_gguf_tokenizer_merge_at tokenizer index with
      | Done (Some span) => string_of (arena_bytes tokenizer span)
      | _ => None
      end
  | WRITER_META_U64_ARRAY =>
      m ← wm_map_entry e; v ← zget (lm_array_values m) index; Some (mk_value (wm_element_type e) (As_u64 v))
  | WRITER_META_F64_ARRAY =>
      m ← wm_map_entry e; v ← zget (lm_f64_array_values m) index; Some (double_of (wm_element_type e) v)
  end.

Definition staged_value (e : writer_metadata) : option yvex_gguf_value :=
  match wm_type e with
  | VALUE_UINT32 | VALUE_UINT64 => Some (mk_value (wm_type e) (As_u64 (wm_u64 e)))
  | VALUE_FLOAT32 | VALUE_FLOAT64 => Some (double_of (wm_type e) (wm_f64 e))
  | VALUE_BOOL => Some (mk_value VALUE_BOOL (As_bool (if wm_boolean e then 1 else 0)))
  | VALUE_STRING => string_of (staged_bytes e)
  | VALUE_ARRAY => items ← mapM (element_value e) (zseq (wm_count e)); Some (array_value (wm_element_type e) items)
  | _ => None
  end.

(** The imported tokenizer: arrays as long as their counts, and spans inside the arena. *)
Definition span_ok (m : yvex_gguf_tokenizer_metadata) (s : tokenizer_string_ref) : Prop :=
  0 <= sref_offset s /\ 0 <= sref_length s /\ sref_offset s + sref_length s <= zlen (tm_arena m).

Record tokenizer_wf (m : yvex_gguf_tokenizer_metadata) : Prop := {
  tk_tokens : tm_token_count m = zlen (tm_tokens m) /\ Forall (span_ok m) (tm_tokens m);
  tk_types : zlen (tm_token_types m) = zlen (tm_tokens m) /\ Forall (fun t => - 2 ^ 31 <= t < 2 ^ 31) (tm_token_types m);
  tk_merges : tm_merge_count m = zlen (tm_merges m) /\ Forall (span_ok m) (tm_merges m)
}.

Definition tokenizer_ok : Prop := forall m, tokenizer = Some m -> tokenizer_wf m.

End Meaning.

(** ** Within the limits of the reader *)

Section Limits.
  Context (options : yvex_gguf_reader_options).

Definition item_fits (v : yvex_gguf_value) : Prop :=
  forall data, v = mk_value VALUE_STRING (As_string (Some data)) -> string_ok options 0 false false data.

Definition value_fits (v : yvex_gguf_value) : Prop :=
  item_fits v /\ forall type items, v = array_value type items ->
    zlen items <= max_array_entries options /\ 1 <= max_array_depth options /\ Forall item_fits items.

Definition key_fits (key : string) : Prop :=
  key_text (string_bytes key) /\ zlen (string_bytes key) <= YVEX_GGUF_MAX_KEY_LEN
  /\ zlen (string_bytes key) <= max_string_bytes options.

End Limits.

(** ** Serialization *)

Section Produces.
  Context (alloc : writer_request -> bool).

(** [p] never faults, and what it appends when it succeeds satisfies [Q]. *)
Definition produces (p : WR unit) (Q : list Z -> Prop) : Prop := forall b, bytes_wf b ->
  match p b with
  | (b', Done _) => bytes_wf b' /\ exists x, bytes_data b' = bytes_data b ++ x /\ Q x
  | (_, Refuse _ _) => True
  | (_, Fault _) => False
  end.

Lemma produces_emits p x (Q : list Z -> Prop) : emits alloc p x -> Q x -> produces p Q.
Proof.
  intros H HQ b Hb. specialize (H b Hb). destruct (p b) as [b' [u|st r|f]]; [|done|done].
  destruct H as (H1 & H2 & _). split; [done|]. by exists x.
Qed.

Lemma produces_stop Q : produces writer_stop Q.
Proof. by intros b Hb. Qed.

Lemma produces_bind p q P Q : produces p P -> produces q Q ->
  produces (p ≫= fun _ => q) (fun z => exists x y, z = x ++ y /\ P x /\ Q y).
Proof.
  intros Hp Hq b Hb. unfold mbind, so_bind. specialize (Hp b Hb). destruct (p b) as [b1 [u|st r|f]]; [|done|done].
  destruct Hp as (Hb1 & x & E1 & Hx). specialize (Hq b1 Hb1). destruct (q b1) as [b2 [v|st r|f]]; [|done|done].
  destruct Hq as (Hb2 & y & E2 & Hy). split; [done|]. exists (x ++ y). rewrite E2, E1, app_assoc. split; [done|]. eauto.
Qed.

Lemma produces_weaken p (P Q : list Z -> Prop) : produces p P -> (forall x, P x -> Q x) -> produces p Q.
Proof. intros H HQ b Hb. specialize (H b Hb). destruct (p b) as [b' [u|st r|f]]; [|done|done]. naive_solver. Qed.

(** A known text, then the rest. *)
Lemma produces_after p q x Q (R : list Z -> Prop) :
  emits alloc p x -> produces q Q -> (forall y, Q y -> R (x ++ y)) -> produces (p ≫= fun _ => q) R.
Proof.
  intros Hp Hq HR. eapply produces_weaken; [apply produces_bind; [apply (produces_emits p x (eq x)); [done|done]|exact Hq]|].
  intros z (x' & y & -> & <- & Hy). by apply HR.
Qed.

Lemma produces_lift {A} (o : outcome A) (a : A) (q : A -> WR unit) Q : o = Done a -> produces (q a) Q -> produces (so_lift o ≫= q) Q.
Proof. intros -> Hq b Hb. by apply Hq. Qed.

Lemma produces_each {A} (f : A -> WR unit) (Q : A -> list Z -> Prop) l :
  (forall a, a ∈ l -> produces (f a) (Q a)) ->
  produces (so_each f l) (fun z => exists texts, z = concat texts /\ Forall2 Q l texts).
Proof.
  induction l as [|a l IH]; intros H; cbn.
  - eapply produces_emits; [apply emits_nil|]. exists []. split; [done|constructor].
  - eapply produces_weaken; [apply produces_bind; [apply H; left|apply IH; intros x Hx; apply H; by right]|].
    intros z (x & y & -> & Hx & texts & -> & Ht). exists (x :: texts). split; [done|by constructor].
Qed.

End Produces.

Section Serialized.
  Context (alloc : writer_request -> bool) (tokenizer : option yvex_gguf_tokenizer_metadata) (Htok : tokenizer_ok tokenizer).
  Context (options : yvex_gguf_reader_options).

(** The text of an item the reader has room for. *)
Definition item_text (type : yvex_gguf_value_type) (v : yvex_gguf_value) (x : list Z) : Prop :=
  item_fits options v -> forall levels, value_text options levels type v x.

Lemma item_string data : item_text VALUE_STRING (mk_value VALUE_STRING (As_string (Some data))) (string_text data).
Proof. intros Hf levels. assert (string_ok options 0 false false data) by by apply Hf. destruct levels; cbn; eauto. Qed.

Lemma item_scalar type bits as_ x :
  type <> VALUE_ARRAY -> type <> VALUE_STRING -> 0 <= bits < 2 ^ (8 * Z.of_nat (scalar_bytes type)) ->
  scalar_value type bits = Some as_ -> x = le_bytes (scalar_bytes type) bits -> item_text type (mk_value type as_) x.
Proof.
  intros H1 H2 Hb Hv -> _ levels. assert (scalar_text type (mk_value type as_) (le_bytes (scalar_bytes type) bits)) by (exists bits, as_; auto).
  destruct levels, type; done.
Qed.

Lemma token_at_spec index : 0 <= index ->
  exists r, yvex_gguf_tokenizer_token_at tokenizer index = Done r
    /\ forall span type, r = Some (span, type) -> - 2 ^ 31 <= type < 2 ^ 31 /\ exists bytes, arena_bytes tokenizer span = Done bytes.
Proof.
  intros Hi. unfold yvex_gguf_tokenizer_token_at, arena_bytes, tokenizer_ok in *. destruct tokenizer as [m|]; [|by eexists].
  destruct (Htok m eq_refl) as [[T1 T2] [Y1 Y2] _]. destruct (_ || _) eqn:E; [by eexists|]. apply orb_false_iff in E as [_ E].
  destruct (zget_in (tm_tokens m) index ltac:(lia)) as [token Ht]. destruct (zget_in (tm_token_types m) index ltac:(lia)) as [type Hy].
  apply read_at_Done in Ht as Rt. apply read_at_Done in Hy as Ry. rewrite Rt. cbn [mbind outcome_bind].
  destruct (negb _); [by eexists|]. rewrite Ry. cbn [mbind outcome_bind]. eexists. split; [done|]. intros span ty [= <- <-].
  rewrite Forall_forall in T2. rewrite Forall_forall in Y2. split; [apply Y2; by eapply zget_elem_of|].
  destruct (T2 token) as (S1 & S2 & S3); [by eapply zget_elem_of|].
  replace (_ || (zlen (tm_arena m) <? _)) with false by (symmetry; repeat (apply orb_false_iff; split); lia). by eexists.
Qed.

Lemma merge_at_spec index : 0 <= index ->
  exists r, yvex_gguf_tokenizer_merge_at tokenizer index = Done r
    /\ forall span, r = Some span -> exists bytes, arena_bytes tokenizer span = Done bytes.
Proof.
  intros Hi. unfold yvex_gguf_tokenizer_merge_at, arena_bytes, tokenizer_ok in *. destruct tokenizer as [m|]; [|by eexists].
  destruct (Htok m eq_refl) as [_ _ [M1 M2]]. destruct (_ || _) eqn:E; [by eexists|]. apply orb_false_iff in E as [_ E].
  destruct (zget_in (tm_merges m) index ltac:(lia)) as [merge Hm]. apply read_at_Done in Hm as Rm. rewrite Rm. cbn [mbind outcome_bind].
  eexists. split; [done|]. intros span [= <-]. rewrite Forall_forall in M2. destruct (M2 merge) as (S1 & S2 & S3); [by eapply zget_elem_of|].
  replace (_ || (zlen (tm_arena m) <? _)) with false by (symmetry; repeat (apply orb_false_iff; split); lia). by eexists.
Qed.

Lemma signed_u32 z : - 2 ^ 31 <= z < 2 ^ 31 -> signed 4 (u32 z) = z.
Proof.
  intros Hz. unfold signed, u32. change (2 ^ (8 * 4 - 1)) with (2 ^ 31). change (2 ^ (8 * 4)) with 4294967296.
  destruct (decide (0 <= z)) as [H|H].
  - rewrite Z.mod_small by lia. by replace (z <? 2 ^ 31) with true by lia.
  - rewrite <- (Z.mod_add z 1 4294967296) by lia. rewrite Z.mod_small by lia.
    replace (_ <? 2 ^ 31) with false by lia. lia.
Qed.

Lemma item_double type bits x :
  type = VALUE_FLOAT32 /\ x = le_bytes 4 (f32_bits (f32_of_f64 bits)) \/ type = VALUE_FLOAT64 /\ x = le_bytes 8 bits ->
  is_u64 bits -> item_text type (double_of type bits) x.
Proof.
  intros [[-> ->]|[-> ->]] Hb; unfold double_of; (eapply item_scalar; [done|done| |reflexivity|reflexivity]); [|exact Hb].
  apply (u32_range _).
Qed.

Lemma produces_string (o : outcome (list Z)) bytes : o = Done bytes ->
  produces (bytes ← so_lift o; writer_string alloc bytes)
    (fun x => exists v, string_of o = Some v /\ item_text VALUE_STRING v x).
Proof.
  intros ->. eapply produces_lift; [done|]. eapply produces_emits; [apply emits_string|]. eexists. split; [done|]. apply item_string.
Qed.

(** One element of an array. *)
Lemma produces_element e index : array_ok e -> 0 <= index < wm_count e ->
  produces (writer_array_element alloc tokenizer e index)
    (fun x => exists v, element_value tokenizer e index = Some v /\ item_text (wm_element_type e) v x).
Proof.
  intros [_ Ha] Hi. unfold writer_array_element, element_value. destruct (wm_source e) eqn:Es; [done|..].
  - rewrite Ha. destruct (token_at_spec index ltac:(lia)) as (r & Er & Hr). rewrite Er. apply (produces_lift _ r); [done|].
    destruct r as [[span type]|]; [|apply produces_stop]. destruct (Hr span type eq_refl) as (_ & bytes & Eb). by apply (produces_string _ bytes).
  - rewrite Ha. destruct (token_at_spec index ltac:(lia)) as (r & Er & Hr). rewrite Er. apply (produces_lift _ r); [done|].
    destruct r as [[span type]|]; [|apply produces_stop]. destruct (Hr span type eq_refl) as (Ht & _).
    eapply produces_emits; [apply emits_u32|]. eexists. split; [done|].
    apply (item_scalar _ (u32 type)); [done|done|apply (u32_range type)|cbn; by rewrite signed_u32|done].
  - rewrite Ha. destruct (merge_at_spec index ltac:(lia)) as (r & Er & Hr). rewrite Er. apply (produces_lift _ r); [done|].
    destruct r as [span|]; [|apply produces_stop]. destruct (Hr span eq_refl) as (bytes & Eb). by apply (produces_string _ bytes).
  - destruct Ha as (Ht & m & Em & Hm & Hc). destruct (lo_values _ Hm) as [Hl Hu]. rewrite Em.
    destruct (zget_in (lm_array_values m) index ltac:(lia)) as [v Hv]. apply (produces_lift _ m); [done|].
    apply (produces_lift _ v); [by apply read_at_Done|]. cbn [mbind option_bind]. rewrite Hv. cbn [mbind option_bind].
    rewrite Forall_forall in Hu. assert (is_u64 v) as Hv64 by (apply Hu; by eapply zget_elem_of). unfold is_u64 in Hv64.
    destruct Ht as [-> | ->].
    + rewrite bool_decide_true by done. destruct (UINT_MAX <? v) eqn:E; [apply produces_stop|]. unfold UINT_MAX, UINT32_MAX in E.
      rewrite u32_id by (unfold is_u32; lia). eapply produces_emits; [apply emits_u32|]. eexists. split; [done|].
      apply (item_scalar VALUE_UINT32 v); [done|done|cbn; lia|done|done].
    + rewrite bool_decide_false by done. eapply produces_emits; [apply emits_u64|]. eexists. split; [done|].
      apply (item_scalar VALUE_UINT64 v); [done|done|cbn; lia|done|done].
  - destruct Ha as (Ht & m & Em & Hm & Hc). destruct (lo_doubles _ Hm) as [Hl Hu]. rewrite Em.
    destruct (zget_in (lm_f64_array_values m) index ltac:(lia)) as [v Hv]. apply (produces_lift _ m); [done|].
    apply (produces_lift _ v); [by apply read_at_Done|]. cbn [mbind option_bind]. rewrite Hv. cbn [mbind option_bind].
    rewrite Forall_forall in Hu. assert (is_u64 v) as Hv64 by (apply Hu; by eapply zget_elem_of).
    destruct (f64_beyond_float v); [apply produces_stop|].
    destruct Ht as [-> | ->]; case_bool_decide; try done;
      (eapply produces_emits; [apply emits_append|]); (eexists; split; [done|]); apply item_double; auto.
Qed.

Lemma items_texts (f : Z -> option yvex_gguf_value) type l texts :
  Forall2 (fun i x => exists v, f i = Some v /\ item_text type v x) l texts ->
  exists items, mapM f l = Some items /\ length items = length l
    /\ (Forall (item_fits options) items -> forall levels, Forall2 (value_text options levels type) items texts).
Proof.
  induction 1 as [|i x l texts (v & Ev & Hv) _ (items & Em & Hl & Hi)]; [by exists []|]. exists (v :: items).
  cbn. rewrite Ev. cbn. rewrite Em. split; [done|]. split; [by rewrite Hl|].
  intros [Hf1 Hf2]%Forall_cons_1 levels. constructor; [by apply Hv|by apply Hi].
Qed.

Lemma produces_array e : array_ok e ->
  produces (_ ← writer_u32 alloc (value_type_code (wm_element_type e)); _ ← writer_u64 alloc (wm_count e);
            so_each (writer_array_element alloc tokenizer e) (zseq (wm_count e)))
    (fun x => exists items, mapM (element_value tokenizer e) (zseq (wm_count e)) = Some items
       /\ (value_fits options (array_value (wm_element_type e) items) ->
           value_text options (Z.to_nat (max_array_depth options)) VALUE_ARRAY (array_value (wm_element_type e) items) x)).
Proof.
  intros Ha. set (Q := fun i x => exists v, element_value tokenizer e i = Some v /\ item_text (wm_element_type e) v x).
  eapply (produces_after alloc _ _ _ (fun z => exists y, z = le_bytes 8 (wm_count e) ++ y /\ exists texts, y = concat texts
    /\ Forall2 Q (zseq (wm_count e)) texts)); [apply emits_u32| |].
  - eapply produces_after; [apply emits_u64|apply (produces_each alloc _ Q)|by eauto].
    intros i Hi. apply produces_element; [done|]. by apply elem_of_zseq in Hi.
  - intros z (y & -> & texts & -> & Ht). destruct (items_texts _ _ _ _ Ht) as (items & Em & Hl & Hi).
    exists items. split; [done|]. intros [_ Hf]. destruct (Hf _ _ eq_refl) as (H1 & H2 & H3).
    destruct (Z.to_nat (max_array_depth options)) as [|levels] eqn:Ed; [lia|].
    exists (wm_element_type e), items, texts. split; [done|]. split; [|split; [done|split; [by apply Hi|]]].
    + destruct Ha as [_ Ha]. destruct (wm_source e); try done; intros E; rewrite E in Ha; naive_solver.
    + do 3 f_equal. destruct Ha as [H0 _]. unfold zseq in Hl. rewrite length_fmap, length_seq in Hl. unfold zlen. lia.
Qed.

(** A value after the code of its type. *)
Definition value_written (e : writer_metadata) (x : list Z) : Prop :=
  exists v, staged_value tokenizer e = Some v /\ v_type v = wm_type e
    /\ (value_fits options v -> value_text options (Z.to_nat (max_array_depth options)) (wm_type e) v x).

Lemma item_written e v x : staged_value tokenizer e = Some v -> v_type v = wm_type e -> item_text (wm_type e) v x -> value_written e x.
Proof. intros H1 H2 H3. exists v. split; [done|]. split; [done|]. intros [Hf _]. by apply H3. Qed.

(** An entry. *)
Lemma produces_entry e : entry_ok e ->
  produces (writer_metadata_serialize alloc tokenizer e)
    (fun x => exists v, staged_value tokenizer e = Some v
       /\ (key_fits options (wm_key e) -> value_fits options v -> entry_text options (string_bytes (wm_key e), v) x)).
Proof.
  intros He. eapply produces_after; [apply emits_string| |].
  { eapply (produces_after alloc _ _ _ (value_written e)
      (fun z => exists y, z = le_bytes 4 (value_type_code (wm_type e)) ++ y /\ value_written e y)); [apply emits_u32| |by eauto].
    unfold entry_ok in He. destruct (wm_type e) eqn:Et; try apply produces_stop.
    - rewrite u32_id by done. eapply produces_emits; [apply emits_u32|]. unfold is_u32 in He.
      eapply item_written; [unfold staged_value; rewrite Et; done|by rewrite Et|]. rewrite Et. eapply item_scalar; done.
    - eapply produces_emits; [apply emits_append|]. eapply item_written; [unfold staged_value; rewrite Et; done|by rewrite Et|].
      rewrite Et. apply item_double; auto.
    - eapply produces_emits; [apply emits_append|]. eapply item_written; [unfold staged_value; rewrite Et; done|by rewrite Et|].
      rewrite Et. eapply (item_scalar VALUE_BOOL (if wm_boolean e then 1 else 0)); try done; by destruct (wm_boolean e).
    - assert (exists bytes, staged_bytes e = Done bytes) as [bytes Eb].
      { unfold staged_bytes. destruct (_ =? 0) eqn:E0; [eauto|]. destruct He as [?|(l & -> & Hl)]; [lia|].
        replace (zlen l <? _) with false by lia. eauto. }
      eapply produces_weaken; [by apply (produces_string _ bytes)|]. intros x (v & Ev & Hv). rewrite Eb in Ev.
      eapply item_written; [unfold staged_value; rewrite Et, Eb; done| |]; injection Ev as <-; rewrite Et; done.
    - eapply produces_weaken; [by apply produces_array|]. intros x (items & Em & Hx). exists (array_value (wm_element_type e) items).
      unfold staged_value. rewrite Et, Em. done.
    - eapply produces_emits; [apply emits_u64|]. eapply item_written; [unfold staged_value; rewrite Et; done|by rewrite Et|].
      rewrite Et. unfold is_u64 in He. eapply item_scalar; done.
    - eapply produces_emits; [apply emits_append|]. eapply item_written; [unfold staged_value; rewrite Et; done|by rewrite Et|].
      rewrite Et. apply item_double; auto. }
  intros z (y & -> & v & Ev & Ety & Hv). exists v. split; [done|]. intros (K1 & K2 & K3) Hf. repeat split; try done.
  - cbn. rewrite Ety. destruct (wm_type e) eqn:Et; try done. unfold staged_value in Ev. by rewrite Et in Ev.
  - exists y. cbn. rewrite Ety. auto.
Qed.

End Serialized.

(** ** The prefix *)

Lemma indexed_texts {A} (R : Z -> list Z -> Prop) (Q : A -> list Z -> Prop) l texts :
  Forall2 R (zseq (zlen l)) texts -> (forall i a x, zget l i = Some a -> R i x -> Q a x) -> Forall2 Q l texts.
Proof.
  intros H HQ. apply Forall2_lookup. intros i. rewrite Forall2_lookup in H. specialize (H i). unfold zseq in H.
  rewrite to_nat_zlen, list_lookup_fmap in H. destruct (l !! i) as [a|] eqn:E.
  - rewrite lookup_seq_lt in H by (by apply lookup_lt_Some in E). cbn in H. inversion H as [? x Hx|]; subst.
    constructor. apply (HQ (Z.of_nat i)); [by rewrite zget_nat|done].
  - rewrite lookup_seq_ge in H by (by apply lookup_ge_None). inversion H. constructor.
Qed.

Definition entry_written tokenizer options (e : writer_metadata) (x : list Z) : Prop :=
  exists v, staged_value tokenizer e = Some v
    /\ (key_fits options (wm_key e) -> value_fits options v -> entry_text options (string_bytes (wm_key e), v) x).

Lemma produces_prefix alloc tokenizer options entries tensors :
  tokenizer_ok tokenizer -> Forall entry_ok entries -> Forall (fun t => 0 <= wt_rank t <= zlen (wt_dims t)) tensors ->
  produces (writer_prefix_serialize alloc tokenizer entries (zlen entries) tensors (zlen tensors))
    (fun z => exists texts, Forall2 (entry_written tokenizer options) entries texts
       /\ z = header_text (zlen tensors) (zlen entries) ++ concat texts ++ concat (row_text <$> (row_of <$> tensors))).
Proof.
  intros Htok He Ht. set (rows := concat (row_text <$> (row_of <$> tensors))).
  assert (emits alloc (so_each (fun i => t ← so_lift (read_at tensors i); writer_tensor_serialize alloc t) (zseq (zlen tensors))) rows) as Hrows.
  { unfold rows. rewrite <- list_fmap_compose. apply (emits_indexed alloc _ (row_text ∘ row_of) tensors). intros i t Hi.
    eapply emits_lift; [by apply read_at_Done|]. apply emits_row. rewrite Forall_forall in Ht. apply Ht. by eapply zget_elem_of. }
  set (R := fun i x => forall e, zget entries i = Some e -> entry_written tokenizer options e x).
  assert (produces (so_each (fun i => e ← so_lift (read_at entries i); writer_metadata_serialize alloc tokenizer e) (zseq (zlen entries)))
    (fun z => exists texts, z = concat texts /\ Forall2 R (zseq (zlen entries)) texts)) as Hentries.
  { apply (produces_each alloc). intros i Hi%elem_of_zseq. destruct (zget_in entries i Hi) as [e Hget].
    eapply produces_lift; [by apply read_at_Done|]. rewrite Forall_forall in He.
    eapply produces_weaken; [apply (produces_entry alloc tokenizer Htok options); apply He; by eapply zget_elem_of|].
    intros x Hx e' He'. by simplify_eq. }
  pose proof (produces_bind _ _ _ _ Hentries (produces_emits alloc _ _ (eq rows) Hrows eq_refl)) as Hbody.
  set (body := fun z => exists x y, z = x ++ y /\ (exists texts, x = concat texts /\ Forall2 R (zseq (zlen entries)) texts) /\ rows = y) in Hbody.
  unfold writer_prefix_serialize, header_text.
  eapply (produces_after alloc _ _ _ (fun z => exists y, z = (le_bytes 4 3 ++ le_bytes 8 (zlen tensors) ++ le_bytes 8 (zlen entries)) ++ y /\ body y)); [apply emits_u32| |].
  - eapply (produces_after alloc _ _ _ (fun z => exists y, z = (le_bytes 8 (zlen tensors) ++ le_bytes 8 (zlen entries)) ++ y /\ body y)); [apply emits_u32| |].
    + eapply (produces_after alloc _ _ _ (fun z => exists y, z = le_bytes 8 (zlen entries) ++ y /\ body y)); [apply emits_u64| |].
      * eapply produces_after; [apply emits_u64|exact Hbody|by eauto].
      * intros z (y & -> & Hy). exists y. by rewrite <- app_assoc.
    + intros z (y & -> & Hy). exists y. by rewrite <- !app_assoc.
  - intros z (y & -> & x & r & -> & (texts & -> & HR) & <-). exists texts. split; [|by rewrite <- !app_assoc].
    apply (indexed_texts R); [done|]. intros i e x Hi Hx. by apply Hx.
Qed.

(** The entries and the values the reader finds under their keys. *)
Definition staged_entries (entries : list writer_metadata) (values : list yvex_gguf_value) : list (list Z * yvex_gguf_value) :=
  zip (string_bytes ∘ wm_key <$> entries) values.

Lemma staged_keys entries values : length values = length entries ->
  (staged_entries entries values).*1 = string_bytes <$> (wm_key <$> entries).
Proof. intros H. unfold staged_entries. rewrite <- list_fmap_compose. apply fst_zip. rewrite length_fmap. lia. Qed.

Lemma entries_texts tokenizer options entries texts :
  Forall2 (entry_written tokenizer options) entries texts ->
  exists values, Forall2 (fun e v => staged_value tokenizer e = Some v) entries values
    /\ (Forall (fun e => key_fits options (wm_key e)) entries -> Forall (value_fits options) values ->
        Forall2 (entry_text options) (staged_entries entries values) texts).
Proof.
  induction 1 as [|e x entries texts (v & Ev & Hv) _ (values & Hvs & Hts)]; [exists []; by split|].
  exists (v :: values). split; [by constructor|]. intros [K1 K2]%Forall_cons_1 [V1 V2]%Forall_cons_1.
  constructor; [by apply Hv|by apply Hts].
Qed.

(** What the metadata does not decide: the limits on counts and budgets, the
    alignment, the directory and the payloads of the file. *)
Record room_for (artifact : yvex_artifact) (options : yvex_gguf_reader_options) (doc : gguf_document) (a : Z) (b : list Z) : Prop := {
  rm_metadata : zlen (doc_metadata doc) <= max_metadata_entries options;
  rm_tensors : zlen (doc_tensors doc) <= max_tensor_entries options;
  rm_alignment : alignment_of (doc_metadata doc) = Some a;
  rm_names : NoDup (r_name <$> doc_tensors doc);
  rm_rows : Forall (row_ok options a) (doc_tensors doc);
  rm_within : doc_within options doc;
  rm_placement : placement_ok artifact (aligned (zlen b) a) (doc_tensors doc);
  rm_bytes : exists tail, a_bytes artifact = b ++ tail
}.

Lemma room_file artifact options doc a b :
  doc_text options doc b -> NoDup (doc_metadata doc).*1 -> room_for artifact options doc a b -> gguf_file artifact options doc a b.
Proof. intros Ht Hk [H1 H2 H3 H4 H5 H6 H7 H8]. split; [done|]. split; [by split|]. by split. Qed.

Lemma buffer_empty_wf budget : is_u64 budget -> bytes_wf (mk_bytes [] 0 budget 0).
Proof. intros H. unfold bytes_wf, bytes_count, is_u64 in *. cbn in *. rewrite zlen_nil. lia. Qed.

(** ** Theorems *)

(** C8: Staged metadata is read back.  Whatever sequence of staging calls is made
    with arguments of their C types and buffers as long as stated, none faults, and the keys staged are distinct and the entries consistent, also
    after a refusal.  Serializing them with a directory never faults; when it
    succeeds, the bytes are the text of the document whose entries are the staged
    keys with the staged values (floats as rounded), provided the keys follow
    the reader's key grammar and the keys and values are within its limits and its
    encoding (the writer also stages others, which the reader refuses); and a file that starts with those bytes,
    with an admissible directory and room for it within the limits, is opened by
    the reader, which finds every staged value under its key. *)
Theorem staged_metadata_read_back walloc tokenizer calls tensors budget options :
  Forall call_ok calls -> tokenizer_ok tokenizer -> Forall (fun t => 0 <= wt_rank t <= zlen (wt_dims t)) tensors -> is_u64 budget ->
  let '(entries, outcome) := so_each stage calls [] in
  (forall f, outcome <> Fault f) /\ staged entries /\
  match writer_prefix_serialize walloc tokenizer entries (zlen entries) tensors (zlen tensors) (mk_bytes [] 0 budget 0) with
  | (_, Fault _) => False
  | (_, Refuse _ _) => True
  | (b, Done _) => exists values, Forall2 (fun e v => staged_value tokenizer e = Some v) entries values
      /\ let doc := mk_document (staged_entries entries values) (row_of <$> tensors) in
         NoDup (doc_metadata doc).*1
         /\ (Forall (fun e => key_fits options (wm_key e)) entries -> Forall (value_fits options) values ->
             doc_text options doc (bytes_data b)
             /\ forall artifact io alloc a, file_ok artifact options -> generous artifact io alloc -> options_zero options = false ->
                room_for artifact options doc a (bytes_data b) ->
                exists result g, yvex_gguf_open_ex (Some artifact) io alloc (Some options) = (result, Done g)
                  /\ Forall2 (fun e v => yvex_gguf_metadata_find g (string_bytes (wm_key e)) = Done (Some v)) entries values)
  end.
Proof.
  intros Hcalls Htok Hranks Hbudget. destruct (maintains_calls calls Hcalls [] staged_nil) as [Hs Hf].
  destruct (so_each stage calls []) as [entries r]. cbn [fst snd] in Hs, Hf. split; [done|]. split; [done|].
  pose proof (produces_prefix walloc tokenizer options entries tensors Htok (sg_entries _ Hs) Hranks (mk_bytes [] 0 budget 0)
    (buffer_empty_wf budget Hbudget)) as Hp.
  destruct (writer_prefix_serialize _ _ _ _ _ _ _) as [b [v|st' r'|f]]; [|done|done].
  destruct Hp as (_ & x & E & texts & Hts & ->). cbn [bytes_data app] in E.
  destruct (entries_texts _ _ _ _ Hts) as (values & Hv & Hdoc). pose proof (Forall2_length _ _ _ Hv) as Hl.
  exists values. split; [done|]. cbn zeta. assert (NoDup (staged_entries entries values).*1) as Hnd.
  { rewrite staged_keys by done. apply NoDup_fmap; [exact string_bytes_inj|apply (sg_keys _ Hs)]. }
  split; [done|]. intros Hkeys Hvalues.
  assert (doc_text options (mk_document (staged_entries entries values) (row_of <$> tensors)) (bytes_data b)) as Htext.
  { exists texts. split; [by apply Hdoc|]. cbn [doc_metadata doc_tensors]. rewrite E. do 2 f_equal.
    + unfold zlen. by rewrite length_fmap.
    + unfold staged_entries, zlen. rewrite length_zip, length_fmap. lia. }
  split; [done|]. intros artifact io alloc a Hfile Hg Hz Hroom. pose proof (room_file _ _ _ _ _ Htext Hnd Hroom) as Hf'.
  destruct (open_accepts artifact io alloc options _ _ _ Hfile Hg Hz Hf') as (result & Ho).
  exists result. eexists. split; [exact Ho|]. apply Forall2_same_length_lookup_2; [done|]. intros i e v' He Hv'.
  rewrite (view_metadata artifact options Hfile _ _ _ _ Hf'). f_equal. apply (entry_find_at _ (Z.of_nat i)); [done|].
  rewrite zget_nat. cbn [doc_metadata]. unfold staged_entries. apply lookup_zip_with_Some. eexists _, _. split; [done|].
  by rewrite list_lookup_fmap, He.
Qed.

(** A text, an alignment, and an array of words. *)
Definition sample_lowering : yvex_gguf_writer_lowering_metadata :=
  mk_lowering_metadata "yvex.dims" LOWERING_METADATA_U64_ARRAY "" 0 0 false ([7; 2 ^ 40] ++ replicate 62 0) (replicate 64 0) 2.

Definition sample_calls : list staging_call :=
  [Stage_text "general.architecture" (Some "llama"); Stage_u32 "general.alignment" 64; Stage_map (Some sample_lowering)].

Definition sample_entries : list writer_metadata := (so_each stage sample_calls []).1.

Definition sample_buffer : writer_buffer :=
  (writer_prefix_serialize (fun _ => true) None sample_entries (zlen sample_entries) [] (zlen (@nil yvex_gguf_writer_tensor))
     (mk_bytes [] 0 4096 0)).1.

Definition sample_staged : yvex_artifact :=
  let bytes := bytes_data sample_buffer ++ replicate 64 0 in mk_artifact (zlen bytes) (mk_snapshot 1 2 (zlen bytes) 0 0 0 0) bytes.

Lemma sample_calls_ok : Forall call_ok sample_calls.
Proof.
  repeat apply Forall_cons_2; [done|done| |apply Forall_nil_2]. intros m [= <-].
  split; [by vm_compute|by vm_compute|by vm_compute| |]; (split; [by vm_compute|]).
  - change (Forall (fun z => 0 <= z < 18446744073709551616) (lm_array_values sample_lowering)). apply (bool_decide_unpack _). by vm_compute.
  - apply Forall_replicate. by vm_compute.
Qed.

Lemma sample_staged_ok : file_ok sample_staged yvex_gguf_reader_options_default.
Proof. split; [by vm_compute| |apply (fo_options _ _ sample_file_ok)]. apply (bool_decide_unpack _). by vm_compute. Qed.

Lemma array_value_inj t t' x l l' : array_value t (x :: l) = array_value t' l' -> l' = x :: l.
Proof. destruct l' as [|y l']; [done|]. unfold array_value, storage. by intros [= _ _ -> ->]. Qed.

Lemma staged_metadata_read_back_witness :
  exists result g, yvex_gguf_open_ex (Some sample_staged) (fun _ => []) (fun _ => true)
      (Some yvex_gguf_reader_options_default) = (result, Done g)
    /\ yvex_gguf_metadata_find g (string_bytes "yvex.dims")
       = Done (Some (array_value VALUE_UINT64 [mk_value VALUE_UINT64 (As_u64 7); mk_value VALUE_UINT64 (As_u64 (2 ^ 40))])).
Proof.
  pose proof (staged_metadata_read_back (fun _ => true) None sample_calls [] 4096 yvex_gguf_reader_options_default
    sample_calls_ok ltac:(done) ltac:(constructor) ltac:(by vm_compute)) as H.
  assert (so_each stage sample_calls [] = (sample_entries, Done tt)) as E by (vm_compute; reflexivity). rewrite E in H.
  destruct H as (_ & _ & H). change (Z.of_nat 0) with 0 in H.
  assert (writer_prefix_serialize (fun _ => true) None sample_entries (zlen sample_entries) [] (zlen (@nil yvex_gguf_writer_tensor))
    (mk_bytes [] 0 4096 0) = (sample_buffer, Done tt)) as Es by (vm_compute; reflexivity). rewrite Es in H.
  destruct H as (values & Hv & H). apply mapM_Some in Hv.
  assert (mapM (staged_value None) sample_entries = Some [mk_value VALUE_STRING (As_string (Some (string_bytes "llama")));
    mk_value VALUE_UINT32 (As_u64 64);
    array_value VALUE_UINT64 [mk_value VALUE_UINT64 (As_u64 7); mk_value VALUE_UINT64 (As_u64 (2 ^ 40))]]) as Ev by (vm_compute; reflexivity).
  rewrite Ev in Hv. injection Hv as <-.
  destruct H as (_ & H). destruct H as (_ & H).
  - repeat apply Forall_cons_2; [..|apply Forall_nil_2]; (split; [apply key_valid_exact; by vm_compute|]; split; by vm_compute).
  - assert (forall type n, item_fits yvex_gguf_reader_options_default (mk_value type (As_u64 n))) as Hu by by intros type n data [= _ ?].
    repeat apply Forall_cons_2; [..|apply Forall_nil_2]; split; [|by intros ty items [=]|by apply Hu|by intros ty items [=]|by intros data [=]|].
    + intros data [= <-]. split; [apply ascii_text_ok, (bool_decide_unpack _); by vm_compute|].
      split; [apply string_bytes_u8|]. split; [by vm_compute|]. split; [intros [=]|]. split; [by intros []|intros [=]].
    + intros ty items Hi. assert (items = [mk_value VALUE_UINT64 (As_u64 7); mk_value VALUE_UINT64 (As_u64 (2 ^ 40))]) as ->
        by exact (array_value_inj _ _ _ _ _ Hi).
      split; [by vm_compute|]. split; [by vm_compute|]. repeat apply Forall_cons_2; [apply Hu|apply Hu|apply Forall_nil_2].
  - destruct (H sample_staged (fun _ => []) (fun _ => true) 64 sample_staged_ok) as (result & g & Ho & Hg).
    + split; [done|]. split; [by intros n ?%not_elem_of_nil|]. split; [reflexivity|by vm_compute].
    + reflexivity.
    + split; [by vm_compute|by vm_compute|vm_compute; reflexivity|apply NoDup_nil_2|apply Forall_nil_2|repeat split; by vm_compute| |].
      * split; [by vm_compute|by intros []].
      * exists (replicate 64 0). unfold sample_staged. cbn [a_bytes]. reflexivity.
    + exists result, g. split; [exact Ho|]. apply Forall2_cons_1 in Hg as [_ Hg]. apply Forall2_cons_1 in Hg as [_ Hg].
      apply Forall2_cons_1 in Hg as [Hg _]. exact Hg.
Defined.
