(* ===== verification/IrData.v ===== *)
(** * IrData: the native typed program IR, its data and its accessors

    Models [include/yvex/internal/ir.h], [src/ir/private.h] and the accessors,
    equality and validity predicates of [src/ir/module.c].

    Identifiers are 32-bit integers with the sentinel [YVEX_IR_NONE]; an array
    with its count is a list.  [const char *] and [char\[CAP\]] hold the
    characters before the terminator, so a buffer without a terminator has
    length [CAP].  Verifier callbacks are static functions referenced only by
    the built-in operation tables: a function pointer is a value of [verifier],
    interpreted by the dispatch of [IrVerify].  An operations array has an
    address ([operations_array]) because the dialect check compares pointers. *)

From Stdlib Require Import ZArith Lia Bool.
From stdpp Require Import base list option numbers strings sets.
From S2P Require Import Prelude Core Sha256 Float64.

(** ** Constants *)

Definition YVEX_IR_NONE : Z := UINT32_MAX.
Definition YVEX_IR_NAME_CAP : Z := 96.
Definition YVEX_IR_RANK_CAP : Z := 8.
Definition YVEX_IR_AGGREGATE_CAP : Z := 16.
Definition IR_OBJECT_LIMIT : Z := 1048576.
Definition IR_EFFECT_MASK : Z := 31.
Definition IR_STORAGE_LIMIT : Z := 256 * 1024 * 1024.

(** [yvex_ir_scalar] *)
Definition YVEX_IR_BOOL : Z := 1.
Definition YVEX_IR_INDEX : Z := 2.
Definition YVEX_IR_I32 : Z := 3.
Definition YVEX_IR_I64 : Z := 4.
Definition YVEX_IR_F16 : Z := 5.
Definition YVEX_IR_BF16 : Z := 6.
Definition YVEX_IR_F32 : Z := 7.
Definition YVEX_IR_F64 : Z := 8.

(** [yvex_ir_type_kind] *)
Definition YVEX_IR_SCALAR : Z := 1.
Definition YVEX_IR_TENSOR : Z := 2.
Definition YVEX_IR_STATE : Z := 3.
Definition YVEX_IR_TUPLE : Z := 4.
Definition YVEX_IR_PROGRAM : Z := 5.

(** [yvex_ir_attribute_kind] *)
Definition YVEX_IR_ATTR_U64 : Z := 1.
Definition YVEX_IR_ATTR_F64 : Z := 2.
Definition YVEX_IR_ATTR_BOOL : Z := 3.
Definition YVEX_IR_ATTR_TEXT : Z := 4.
Definition YVEX_IR_ATTR_TYPE : Z := 5.
Definition YVEX_IR_ATTR_SYMBOL : Z := 6.

(** [yvex_ir_effect] *)
Definition YVEX_IR_PURE : Z := 0.
Definition YVEX_IR_READ_STATE : Z := 1.
Definition YVEX_IR_WRITE_STATE : Z := 2.
Definition YVEX_IR_RNG : Z := 4.
Definition YVEX_IR_PUBLISH : Z := 8.
Definition YVEX_IR_ORDERED : Z := 16.

(** ** Program data *)

Record yvex_ir_dimension : Type := mk_dimension {
  dim_name : string;
  dim_minimum : Z;
  dim_maximum : Z;
  dim_multiple : Z
}.

Record yvex_ir_extent : Type := mk_extent {
  ext_symbol : Z;
  ext_extent : Z
}.

#[export] Instance yvex_ir_extent_eq_dec : EqDecision yvex_ir_extent.
Proof. solve_decision. Defined.

Definition extent_zero : yvex_ir_extent := mk_extent 0 0.

(** [shape] and [members] are the fixed arrays of [YVEX_IR_RANK_CAP] and
    [YVEX_IR_AGGREGATE_CAP] cells. *)
Record yvex_ir_type : Type := mk_type {
  ty_kind : Z;
  ty_scalar : Z;
  ty_rank : Z;
  ty_shape : list yvex_ir_extent;
  ty_domain : string;
  ty_member_count : Z;
  ty_members : list Z
}.

#[export] Instance yvex_ir_type_eq_dec : EqDecision yvex_ir_type.
Proof. solve_decision. Defined.

(** The tagged union of an attribute; [AttrOther] carries a kind outside the
    vocabulary. *)
Inductive yvex_ir_attribute_value : Type :=
  | AttrU64 (integer : Z)
  | AttrF64 (real_bits : Z)
  | AttrBool (integer : Z)
  | AttrText (text : string)
  | AttrType (type : Z)
  | AttrSymbol (text : string)
  | AttrOther (kind integer : Z).

Record yvex_ir_attribute : Type := mk_attribute {
  attr_name : string;
  attr_value : yvex_ir_attribute_value
}.

Definition attr_kind (a : yvex_ir_attribute) : Z :=
  match attr_value a with
  | AttrU64 _ => YVEX_IR_ATTR_U64
  | AttrF64 _ => YVEX_IR_ATTR_F64
  | AttrBool _ => YVEX_IR_ATTR_BOOL
  | AttrText _ => YVEX_IR_ATTR_TEXT
  | AttrType _ => YVEX_IR_ATTR_TYPE
  | AttrSymbol _ => YVEX_IR_ATTR_SYMBOL
  | AttrOther k _ => k
  end.

(** Reads of the union members [integer], [real], [type] and [text]. *)
Definition value_integer (a : yvex_ir_attribute) : outcome Z :=
  match attr_value a with
  | AttrU64 n | AttrBool n => Done n
  | _ => Fault WrongMember
  end.

Definition value_real (a : yvex_ir_attribute) : outcome Z :=
  match attr_value a with
  | AttrF64 bits => Done bits
  | _ => Fault WrongMember
  end.

Definition value_type (a : yvex_ir_attribute) : outcome Z :=
  match attr_value a with
  | AttrType t => Done t
  | _ => Fault WrongMember
  end.

Definition value_text (a : yvex_ir_attribute) : outcome string :=
  match attr_value a with
  | AttrText s | AttrSymbol s => Done s
  | _ => Fault WrongMember
  end.

Record yvex_ir_attribute_rule : Type := mk_rule {
  rule_name : string;
  rule_kind : Z;
  rule_required : Z
}.

(** ** Operation contracts *)

(** The static verifier functions of the three built-in dialects. *)
Inductive verifier : Type :=
  | V_core_identity | V_core_parameter | V_core_index | V_core_observe | V_core_return
  | V_core_yield | V_core_call | V_core_regions | V_core_state_read | V_core_state_update
  | V_sequence_short_conv | V_sequence_ssd | V_sequence_delta | V_sequence_attention
  | V_neural_unary | V_neural_binary | V_neural_cast | V_neural_indexed_rows
  | V_neural_index_linearize | V_neural_sinusoidal | V_neural_axis_rotary
  | V_neural_reshape | V_neural_linear | V_neural_linear_residual | V_neural_linear_bias
  | V_neural_split_three | V_neural_split_two | V_neural_channel_bias
  | V_neural_interleaved_three | V_neural_swiglu_split | V_neural_weighted_rms
  | V_neural_rms_normalize | V_neural_slice_rows | V_neural_rows | V_neural_grid
  | V_neural_embedding | V_neural_norm | V_neural_routed_swiglu | V_neural_group_norm
  | V_neural_rotary_half | V_neural_attention | V_neural_rotary_tables
  | V_neural_masked_rows | V_neural_mhc_pre | V_neural_mhc_head | V_neural_stream_mean
  | V_neural_mhc_post | V_neural_mean | V_neural_clamp | V_neural_clamped_swiglu
  | V_neural_convolution | V_neural_spatial_convolution | V_neural_spatial_norm
  | V_neural_alias_snake | V_neural_indexed_conditioning.

#[export] Instance verifier_eq_dec : EqDecision verifier.
Proof. solve_decision. Defined.

Record yvex_ir_operation_definition : Type := mk_definition {
  def_name : string;
  def_version : Z;
  def_minimum_operands : Z;
  def_maximum_operands : Z;
  def_minimum_results : Z;
  def_maximum_results : Z;
  def_regions : Z;
  def_effects : Z;
  def_attributes : list yvex_ir_attribute_rule;
  def_terminator : Z;
  def_verify : option verifier
}.

(** Where an operations array lives. *)
Inductive operations_array : Type :=
  | CoreOperations
  | NeuralOperations
  | SequenceOperations
  | ExtensionOperations (address : nat).

#[export] Instance operations_array_eq_dec : EqDecision operations_array.
Proof. solve_decision. Defined.

Record yvex_ir_dialect : Type := mk_dialect {
  dia_address : operations_array;
  dia_operations : list yvex_ir_operation_definition
}.

Record yvex_ir_value : Type := mk_value {
  v_type : Z;
  v_block : Z;
  v_definition : Z;
  v_ordinal : Z
}.

Record yvex_ir_operation : Type := mk_operation {
  op_block : Z;
  op_next : Z;
  op_definition : yvex_ir_operation_definition;
  op_operands : list Z;
  op_results : list Z;
  op_regions : list Z;
  op_attributes : list yvex_ir_attribute
}.

Record yvex_ir_block : Type := mk_block {
  b_function : Z;
  b_parent_operation : Z;
  b_first_operation : Z;
  b_last_operation : Z;
  b_arguments : list Z
}.

Record yvex_ir_function : Type := mk_function {
  f_symbol : string;
  f_body : Z;
  f_results : list Z;
  f_effects : Z
}.

Record yvex_ir_operation_request : Type := mk_request {
  req_operation : string;
  req_operands : list Z;
  req_result_types : list Z;
  req_attributes : list yvex_ir_attribute;
  req_version : Z
}.

(** Capacities of the growable arrays. *)
Record ir_capacities : Type := mk_capacities {
  cap_dimensions : Z;
  cap_types : Z;
  cap_values : Z;
  cap_operations : Z;
  cap_blocks : Z;
  cap_functions : Z
}.

Record yvex_ir_module : Type := mk_module {
  m_references : Z;
  m_name : string;
  m_source_identity : string;
  m_identity : string;
  m_dialects : list yvex_ir_dialect;
  m_dimensions : list yvex_ir_dimension;
  m_types : list yvex_ir_type;
  m_values : list yvex_ir_value;
  m_operations : list yvex_ir_operation;
  m_blocks : list yvex_ir_block;
  m_functions : list yvex_ir_function;
  m_capacities : ir_capacities;
  m_storage_bytes : Z;
  m_sealed : bool
}.

(** ** Names *)

Definition is_alpha (c : Z) : bool :=
  ((97 <=? c) && (c <=? 122)) || ((65 <=? c) && (c <=? 90)).
Definition is_digit (c : Z) : bool := (48 <=? c) && (c <=? 57).
Definition DOT : Z := 46.
Definition UNDERSCORE : Z := 95.

(** The scan of [yvex_ir_name_valid]: the index reached, the character before
    it and whether a dot was seen, or [None] on an illegal character. *)
Fixpoint name_scan (chars : list Z) (index previous : Z) (dot : bool) : option (Z * Z * bool) :=
  match chars with
  | [] => Some (index, previous, dot)
  | c :: chars =>
      if YVEX_IR_NAME_CAP <=? index then Some (index, previous, dot)
      else if c =? DOT then
        if (index =? 0) || (previous =? DOT) then None
        else name_scan chars (index + 1) c true
      else if negb (is_alpha c || (c =? UNDERSCORE) || (negb (index =? 0) && is_digit c))
      then None
      else name_scan chars (index + 1) c dot
  end.

Definition yvex_ir_name_valid (name : string) (qualified : bool) : bool :=
  match string_bytes name with
  | [] => false
  | chars =>
      match name_scan chars 0 0 false with
      | None => false
      | Some (index, previous, dot) =>
          (index <? YVEX_IR_NAME_CAP) && negb (previous =? DOT) && (negb qualified || dot)
      end
  end.

(** ** Types *)

Definition shape_at (t : yvex_ir_type) (i : Z) : yvex_ir_extent :=
  default extent_zero (zget (ty_shape t) i).
Definition member_at (t : yvex_ir_type) (i : Z) : Z := default 0 (zget (ty_members t) i).

(** A cell of the fixed array addressed by a computed index. *)
Definition shape_read (t : yvex_ir_type) (i : Z) : outcome yvex_ir_extent :=
  if (0 <=? i) && (i <? YVEX_IR_RANK_CAP) then Done (shape_at t i) else Fault OutOfBounds.

Definition yvex_ir_extent_equal (left right : yvex_ir_extent) : bool :=
  (ext_symbol left =? ext_symbol right) && (ext_extent left =? ext_extent right).

(** [strnlen(domain, sizeof(domain)) == sizeof(domain)] *)
Definition text_unterminated (text : string) : bool :=
  YVEX_IR_NAME_CAP <=? Z.of_nat (String.length text).

Definition yvex_ir_type_equal (left right : yvex_ir_type) : bool :=
  negb ((YVEX_IR_RANK_CAP <? ty_rank left)
     || (YVEX_IR_AGGREGATE_CAP <? ty_member_count left)
     || text_unterminated (ty_domain left) || text_unterminated (ty_domain right)
     || negb (ty_kind left =? ty_kind right) || negb (ty_scalar left =? ty_scalar right)
     || negb (ty_rank left =? ty_rank right)
     || negb (ty_member_count left =? ty_member_count right)
     || negb (String.eqb (ty_domain left) (ty_domain right)))
  && forallb (fun i => yvex_ir_extent_equal (shape_at left i) (shape_at right i))
       (zseq (ty_rank left))
  && forallb (fun i => member_at left i =? member_at right i) (zseq (ty_member_count left)).

(** One iteration of the element-count loop of [yvex_ir_type_valid]. *)
Definition type_extent_step (m : yvex_ir_module) (t : yvex_ir_type)
    (elements : option Z) (index : Z) : option Z :=
  match elements with
  | None => None
  | Some elements =>
      let extent := shape_at t index in
      let maximum :=
        if ext_symbol extent =? YVEX_IR_NONE then
          if ext_extent extent =? 0 then None else Some (ext_extent extent)
        else
          match zget (m_dimensions m) (ext_symbol extent) with
          | None => None
          | Some d => if negb (ext_extent extent =? 0) then None else Some (dim_maximum d)
          end in
      match maximum with
      | None => None
      | Some maximum =>
          if UINT64_MAX / maximum <? elements then None else Some (elements * maximum)
      end
  end.

Definition yvex_ir_type_valid (m : yvex_ir_module) (t : yvex_ir_type) : bool :=
  if (ty_kind t <? YVEX_IR_SCALAR) || (YVEX_IR_PROGRAM <? ty_kind t)
     || (YVEX_IR_RANK_CAP <? ty_rank t) || (YVEX_IR_AGGREGATE_CAP <? ty_member_count t)
     || text_unterminated (ty_domain t) then false
  else if (ty_kind t =? YVEX_IR_TUPLE) || (ty_kind t =? YVEX_IR_PROGRAM) then
    if negb (ty_scalar t =? 0) || negb (ty_rank t =? 0) || negb (String.eqb (ty_domain t) "")
    then false
    else
      forallb (fun i =>
        match zget (m_types m) (member_at t i) with
        | None => false
        | Some member =>
            negb ((ty_kind t =? YVEX_IR_PROGRAM) && negb (ty_kind member =? YVEX_IR_TUPLE))
        end) (zseq (ty_member_count t))
      && (negb (ty_kind t =? YVEX_IR_PROGRAM) || (ty_member_count t =? 2))
  else if (ty_scalar t <? YVEX_IR_BOOL) || (YVEX_IR_F64 <? ty_scalar t)
     || negb (ty_member_count t =? 0)
     || ((ty_kind t =? YVEX_IR_SCALAR) && negb (ty_rank t =? 0))
     || (if ty_kind t =? YVEX_IR_STATE then negb (yvex_ir_name_valid (ty_domain t) true)
         else negb (String.eqb (ty_domain t) "")) then false
  else
    match foldl (type_extent_step m t) (Some 1) (zseq (ty_rank t)) with
    | None => false
    | Some _ => true
    end.

(** ** Checked views *)

Definition yvex_ir_dimension_at (m : yvex_ir_module) (id : Z) := zget (m_dimensions m) id.
Definition yvex_ir_type_at (m : yvex_ir_module) (id : Z) := zget (m_types m) id.
Definition yvex_ir_value_at (m : yvex_ir_module) (id : Z) := zget (m_values m) id.
Definition yvex_ir_operation_at (m : yvex_ir_module) (id : Z) := zget (m_operations m) id.
Definition yvex_ir_block_at (m : yvex_ir_module) (id : Z) := zget (m_blocks m) id.
Definition yvex_ir_function_at (m : yvex_ir_module) (id : Z) := zget (m_functions m) id.

Definition find_attribute (name : string) (l : list yvex_ir_attribute)
    : option yvex_ir_attribute :=
  List.find (fun a => String.eqb (attr_name a) name) l.

Definition yvex_ir_attribute_get (m : yvex_ir_module) (operation : Z) (name : string)
    : option yvex_ir_attribute :=
  match yvex_ir_operation_at m operation with
  | None => None
  | Some op => find_attribute name (op_attributes op)
  end.

Definition yvex_ir_function_count (m : yvex_ir_module) : Z := zlen (m_functions m).
Definition yvex_ir_operation_count (m : yvex_ir_module) : Z := zlen (m_operations m).

(** First index whose element satisfies a test, as the linear searches return it. *)
Fixpoint find_index {A} (f : A -> bool) (l : list A) (from : Z) : option Z :=
  match l with
  | [] => None
  | x :: l => if f x then Some from else find_index f l (from + 1)
  end.

Definition yvex_ir_function_find (m : yvex_ir_module) (name : string) : option Z :=
  find_index (fun f => String.eqb (f_symbol f) name) (m_functions m) 0.

Definition yvex_ir_identity (m : yvex_ir_module) : option string :=
  if m_sealed m then Some (m_identity m) else None.

Definition yvex_ir_source_identity (m : yvex_ir_module) : option string :=
  if m_sealed m then Some (m_source_identity m) else None.

(** [version ? version : 1u] *)
Definition selected_version (version : Z) : Z := if version =? 0 then 1 else version.

Definition yvex_ir_definition_find (m : yvex_ir_module) (name : string) (version : Z)
    : option yvex_ir_operation_definition :=
  if negb (yvex_ir_name_valid name true) then None
  else List.find
    (fun d => String.eqb (def_name d) name && (def_version d =? selected_version version))
    (concat (dia_operations <$> m_dialects m)).

(** ** Unchecked reads used by the verifiers *)

Definition types_read (m : yvex_ir_module) (id : Z) : outcome yvex_ir_type :=
  read_at (m_types m) id.
Definition values_read (m : yvex_ir_module) (id : Z) : outcome yvex_ir_value :=
  read_at (m_values m) id.
Definition operations_read (m : yvex_ir_module) (id : Z) : outcome yvex_ir_operation :=
  read_at (m_operations m) id.
Definition blocks_read (m : yvex_ir_module) (id : Z) : outcome yvex_ir_block :=
  read_at (m_blocks m) id.
Definition functions_read (m : yvex_ir_module) (id : Z) : outcome yvex_ir_function :=
  read_at (m_functions m) id.

(** [m->values[op->operands[index]].type] and the same for results. *)
Definition operand_type_id (m : yvex_ir_module) (op : yvex_ir_operation) (index : Z)
    : outcome Z :=
  v ← read_at (op_operands op) index; value ← values_read m v; Done (v_type value).
Definition result_type_id (m : yvex_ir_module) (op : yvex_ir_operation) (index : Z)
    : outcome Z :=
  v ← read_at (op_results op) index; value ← values_read m v; Done (v_type value).
Definition operand_type (m : yvex_ir_module) (op : yvex_ir_operation) (index : Z)
    : outcome yvex_ir_type :=
  id ← operand_type_id m op index; types_read m id.
Definition result_type (m : yvex_ir_module) (op : yvex_ir_operation) (index : Z)
    : outcome yvex_ir_type :=
  id ← result_type_id m op index; types_read m id.

(** [yvex_ir_attribute_get(...)->value.integer] of a required attribute, and the
    value of an optional one when it is present. *)
Definition get_integer (m : yvex_ir_module) (id : Z) (name : string) : outcome Z :=
  a ← deref (yvex_ir_attribute_get m id name); value_integer a.
Definition get_real (m : yvex_ir_module) (id : Z) (name : string) : outcome Z :=
  a ← deref (yvex_ir_attribute_get m id name); value_real a.
Definition opt_integer (m : yvex_ir_module) (id : Z) (name : string) : outcome (option Z) :=
  match yvex_ir_attribute_get m id name with
  | None => Done None
  | Some a => n ← value_integer a; Done (Some n)
  end.
Definition opt_real (m : yvex_ir_module) (id : Z) (name : string) : outcome (option Z) :=
  match yvex_ir_attribute_get m id name with
  | None => Done None
  | Some a => n ← value_real a; Done (Some n)
  end.

(** [!attribute || !attribute->value.integer] and
    [!attribute || attribute->value.real <= 0.0]. *)
Definition missing_or_zero (o : option Z) : bool :=
  match o with None => true | Some n => n =? 0 end.
Definition missing_or_nonpositive (o : option Z) : bool :=
  match o with None => true | Some bits => f64_le_zero bits end.

Definition format_refuse {A} (reason : string) : outcome A := Refuse YVEX_ERR_FORMAT reason.
Definition format_if (b : bool) (reason : string) : outcome unit :=
  refuse_if b YVEX_ERR_FORMAT reason.
