(* ===== verification/IrCore.v ===== *)
(** * IrCore: the core control/value dialect

    Models [src/ir/core.c]: the verifier of every core operation and the
    dialect's operation table.  A verifier runs after the operands, results and
    attributes of its operation were checked; its reads are unchecked reads. *)

From Stdlib Require Import ZArith Lia Bool.
From stdpp Require Import base list option numbers strings sets.
From S2P Require Import Prelude Core Sha256 Float64 IrData.

Definition core_identity (m : yvex_ir_module) (id : Z) : outcome unit :=
  op ← operations_read m id;
  a ← operand_type_id m op 0;
  b ← result_type_id m op 0;
  format_if (negb (a =? b)) "identity cannot change a value type".

(** The loop over the inner axes of an expert bank. *)
Definition core_parameter_axes (t : yvex_ir_type) : bool :=
  existsb (fun axis => negb (ext_symbol (shape_at t axis) =? YVEX_IR_NONE)
                       || (ext_extent (shape_at t axis) =? 0)) [1; 2].

Definition core_parameter (m : yvex_ir_module) (id : Z) : outcome unit :=
  op ← operations_read m id;
  let source := yvex_ir_attribute_get m id "source" in
  type ← result_type m op 0;
  bad ← or_else (Done (negb (ty_kind type =? YVEX_IR_TENSOR)))
          (match source with
           | None => Done true
           | Some a => text ← value_text a; Done (negb (yvex_sha256_hex_valid (Some text)))
           end);
  _ ← format_if bad "parameter requires logical tensor and source identity";
  if def_version (op_definition op) =? 2 then
    count ← opt_integer m id "expert_count";
    _ ← format_if
      (match count with
       | None => true
       | Some n => (n =? 0) || negb (ty_rank type =? 3)
           || negb (ext_symbol (shape_at type 0) =? YVEX_IR_NONE)
           || negb (ext_extent (shape_at type 0) =? n)
           || (negb (ty_scalar type =? YVEX_IR_BF16) && negb (ty_scalar type =? YVEX_IR_F32))
       end) "expert bank requires exact outer-axis geometry";
    format_if (core_parameter_axes type) "expert bank cannot have dynamic parameter axes"
  else Done tt.

Definition core_index (m : yvex_ir_module) (id : Z) : outcome unit :=
  op ← operations_read m id;
  type ← result_type m op 0;
  format_if (negb (ty_kind type =? YVEX_IR_SCALAR) || negb (ty_scalar type =? YVEX_IR_INDEX))
    "index literal requires index type".

Definition core_observe (m : yvex_ir_module) (id : Z) : outcome unit :=
  op ← operations_read m id;
  t ← operand_type m op 0;
  format_if (negb (ty_kind t =? YVEX_IR_TENSOR)
             || (negb (ty_scalar t =? YVEX_IR_F32) && negb (ty_scalar t =? YVEX_IR_BF16)))
    "observation requires a floating computational tensor".

Definition core_return (m : yvex_ir_module) (id : Z) : outcome unit :=
  op ← operations_read m id;
  block ← blocks_read m (op_block op);
  function ← functions_read m (b_function block);
  _ ← format_if (negb (b_parent_operation block =? YVEX_IR_NONE)
             || negb (zlen (op_operands op) =? zlen (f_results function)))
    "return does not match function signature";
  eachO (fun index =>
    t ← operand_type_id m op index;
    r ← read_at (f_results function) index;
    format_if (negb (t =? r)) "return type mismatch") (zseq (zlen (op_operands op))).

Definition core_yield (m : yvex_ir_module) (id : Z) : outcome unit :=
  op ← operations_read m id;
  block ← blocks_read m (op_block op);
  match yvex_ir_operation_at m (b_parent_operation block) with
  | None => format_refuse "yield does not match region result signature"
  | Some parent =>
      _ ← format_if (negb (zlen (op_operands op) =? zlen (op_results parent)))
        "yield does not match region result signature";
      eachO (fun index =>
        t ← operand_type_id m op index;
        r ← result_type_id m parent index;
        format_if (negb (t =? r)) "yield type mismatch") (zseq (zlen (op_operands op)))
  end.

Definition core_call (m : yvex_ir_module) (id : Z) : outcome unit :=
  op ← operations_read m id;
  target ← (match yvex_ir_attribute_get m id "callee" with
            | None => Done None
            | Some a => text ← value_text a; Done (yvex_ir_function_find m text)
            end);
  match target with
  | None => format_refuse "call target is unresolved"
  | Some target =>
      function ← functions_read m target;
      body ← blocks_read m (f_body function);
      _ ← format_if (negb (zlen (op_operands op) =? zlen (b_arguments body))
                 || negb (zlen (op_results op) =? zlen (f_results function)))
        "call signature arity mismatch";
      _ ← eachO (fun index =>
        t ← operand_type_id m op index;
        a ← read_at (b_arguments body) index;
        v ← values_read m a;
        format_if (negb (t =? v_type v)) "call argument type mismatch")
        (zseq (zlen (op_operands op)));
      eachO (fun index =>
        t ← result_type_id m op index;
        r ← read_at (f_results function) index;
        format_if (negb (t =? r)) "call result type mismatch") (zseq (zlen (op_results op)))
  end.

(** [core.loop] has one region over the index and the carried values, [core.if]
    two regions over the arguments. *)
Definition core_regions (m : yvex_ir_module) (id : Z) : outcome unit :=
  op ← operations_read m id;
  let loop := String.eqb (def_name (op_definition op)) "core.loop" in
  control ← operand_type m op 0;
  _ ← format_if (negb (ty_kind control =? YVEX_IR_SCALAR)
             || negb (ty_scalar control =? (if loop then YVEX_IR_INDEX else YVEX_IR_BOOL))
             || (loop && negb (zlen (op_results op) + 1 =? zlen (op_operands op))))
    "region control or loop-carried arity is invalid";
  let offset := if loop then 0 else 1 in
  _ ← eachO (fun region =>
    body ← blocks_read m region;
    _ ← format_if (negb (zlen (b_arguments body) =? zlen (op_operands op) - offset))
      "region argument arity mismatch";
    eachO (fun index =>
      a ← read_at (b_arguments body) index;
      v ← values_read m a;
      t ← operand_type_id m op (index + offset);
      format_if (negb (v_type v =? t)) "region argument type mismatch")
      (zseq (zlen (b_arguments body)))) (op_regions op);
  if loop then
    eachO (fun index =>
      r ← result_type_id m op index;
      t ← operand_type_id m op (index + 1);
      format_if (negb (r =? t)) "loop-carried type changes across iteration")
      (zseq (zlen (op_results op)))
  else Done tt.

(** Equality of the first [rank] extents. *)
Definition extents_equal (rank : Z) (a b : yvex_ir_type) : bool :=
  forallb (fun i => yvex_ir_extent_equal (shape_at a i) (shape_at b i)) (zseq rank).

Definition core_state_read (m : yvex_ir_module) (id : Z) : outcome unit :=
  op ← operations_read m id;
  state ← operand_type m op 0;
  result ← result_type m op 0;
  _ ← format_if (negb (ty_kind state =? YVEX_IR_STATE) || negb (ty_kind result =? YVEX_IR_TENSOR)
             || negb (ty_scalar state =? ty_scalar result)
             || negb (ty_rank state =? ty_rank result))
    "state read requires matching logical tensor geometry";
  format_if (negb (extents_equal (ty_rank state) state result)) "state read shape mismatch".

Definition core_state_update (m : yvex_ir_module) (id : Z) : outcome unit :=
  op ← operations_read m id;
  state ← operand_type m op 0;
  value ← operand_type m op 1;
  r ← result_type_id m op 0;
  s ← operand_type_id m op 0;
  _ ← format_if (negb (ty_kind state =? YVEX_IR_STATE) || negb (ty_kind value =? YVEX_IR_TENSOR)
             || negb (r =? s)
             || negb (ty_scalar state =? ty_scalar value)
             || negb (ty_rank state =? ty_rank value))
    "state update changes semantic domain or type";
  format_if (negb (extents_equal (ty_rank state) state value)) "state update shape mismatch".

(** ** Operation table *)

Definition required_u64 (name : string) := mk_rule name YVEX_IR_ATTR_U64 1.
Definition required_f64 (name : string) := mk_rule name YVEX_IR_ATTR_F64 1.
Definition required_bool (name : string) := mk_rule name YVEX_IR_ATTR_BOOL 1.
Definition required_text (name : string) := mk_rule name YVEX_IR_ATTR_TEXT 1.
Definition required_symbol (name : string) := mk_rule name YVEX_IR_ATTR_SYMBOL 1.

Definition yvex_ir_core_dialect : yvex_ir_dialect :=
  let parameter := [required_symbol "parameter"; required_text "source"] in
  let expert_bank := [required_symbol "parameter"; required_text "source";
                      required_u64 "expert_count"] in
  let callee := [required_symbol "callee"] in
  let integer := [required_u64 "value"] in
  let observation := [required_u64 "tag"] in
  let L := IR_OBJECT_LIMIT in
  mk_dialect CoreOperations [
    mk_definition "core.observe" 1 1 1 0 0 0 (Z.lor YVEX_IR_PUBLISH YVEX_IR_ORDERED)
      observation 0 (Some V_core_observe);
    mk_definition "core.identity" 1 1 1 1 1 0 YVEX_IR_PURE [] 0 (Some V_core_identity);
    mk_definition "core.parameter" 1 0 0 1 1 0 YVEX_IR_PURE parameter 0 (Some V_core_parameter);
    mk_definition "core.parameter" 2 0 0 1 1 0 YVEX_IR_PURE expert_bank 0 (Some V_core_parameter);
    mk_definition "core.index" 1 0 0 1 1 0 YVEX_IR_PURE integer 0 (Some V_core_index);
    mk_definition "core.call" 1 0 L 0 L 0 0 callee 0 (Some V_core_call);
    mk_definition "core.return" 1 0 L 0 0 0 0 [] 1 (Some V_core_return);
    mk_definition "core.yield" 1 0 L 0 0 0 0 [] 1 (Some V_core_yield);
    mk_definition "core.loop" 1 1 L 0 L 1 YVEX_IR_ORDERED [] 0 (Some V_core_regions);
    mk_definition "core.if" 1 1 L 0 L 2 YVEX_IR_ORDERED [] 0 (Some V_core_regions);
    mk_definition "state.read" 1 1 1 1 1 0 YVEX_IR_READ_STATE [] 0 (Some V_core_state_read);
    mk_definition "state.update" 1 2 2 1 1 0 (Z.lor YVEX_IR_READ_STATE YVEX_IR_WRITE_STATE)
      [] 0 (Some V_core_state_update)].
