(* ===== verification/IrSequence.v ===== *)
(** * IrSequence: the stateful sequence dialect

    Models [src/ir/sequence.c]: gated convolution, selective state space, gated
    delta and causal attention.  Every geometry product is computed with the
    checked 64-bit arithmetic of [Core]. *)

From Stdlib Require Import ZArith Lia Bool.
From stdpp Require Import base list option numbers strings sets.
From S2P Require Import Prelude Core Sha256 Float64 IrData IrCore.

Definition SIZEOF_FLOAT : Z := 4.

Definition sequence_static (t : yvex_ir_type) (kind scalar : Z) (shape : list Z)
    (domain : option string) : bool :=
  (ty_kind t =? kind) && (ty_scalar t =? scalar) && (ty_rank t =? zlen shape)
  && (match domain with None => true | Some d => String.eqb (ty_domain t) d end)
  && forallb (fun i => (ext_symbol (shape_at t i) =? YVEX_IR_NONE)
                       && (ext_extent (shape_at t i) =? default 0 (zget shape i)))
       (zseq (zlen shape)).

Definition sequence_static_float_parameter (t : yvex_ir_type) (shape : list Z) : bool :=
  sequence_static t YVEX_IR_TENSOR YVEX_IR_BF16 shape None
  || sequence_static t YVEX_IR_TENSOR YVEX_IR_F32 shape None.

Definition sequence_rows (t : yvex_ir_type) (rows : yvex_ir_extent) (width : Z) : bool :=
  (ty_kind t =? YVEX_IR_TENSOR) && (ty_scalar t =? YVEX_IR_BF16) && (ty_rank t =? 2)
  && yvex_ir_extent_equal (shape_at t 0) rows && (ext_symbol (shape_at t 1) =? YVEX_IR_NONE)
  && (ext_extent (shape_at t 1) =? width).

Definition sequence_state_result (m : yvex_ir_module) (op : yvex_ir_operation)
    (input output : Z) : outcome bool :=
  a ← operand_type_id m op input;
  b ← result_type_id m op output;
  Done (a =? b).

Definition sequence_short_conv_verify (m : yvex_ir_module) (id : Z) : outcome unit :=
  op ← operations_read m id;
  projection ← operand_type m op 0;
  width ← get_integer m id "width";
  kernel ← get_integer m id "convolution_kernel";
  weight ← operand_type m op 1;
  state ← operand_type m op 2;
  output ← result_type m op 0;
  successor ← sequence_state_result m op 2 1;
  format_if
    (negb
      (match yvex_core_u64_mul width 3, yvex_core_u64_mul width kernel with
       | Some projected, Some state_values =>
           negb (width =? 0) && negb (kernel <? 2) && negb (64 <? kernel)
           && negb (SIZE_MAX / SIZEOF_FLOAT <? state_values)
           && sequence_rows projection (shape_at projection 0) projected
           && sequence_static weight YVEX_IR_TENSOR YVEX_IR_BF16 [width; 1; kernel] None
           && sequence_static state YVEX_IR_STATE YVEX_IR_F32 [width; kernel]
                (Some "convolution.causal")
           && sequence_rows output (shape_at projection 0) width
           && successor
       | _, _ => false
       end))
    "double-gated convolution geometry or state versions disagree".

(** The checked geometry of a selective state space: channel, convolution and
    projection widths. *)
Definition ssd_geometry (heads head state groups kernel : Z) : option (Z * Z * Z) :=
  width ← yvex_core_u64_mul heads head;
  grouped ← yvex_core_u64_mul groups state;
  twice ← yvex_core_u64_mul grouped 2;
  convolution_width ← yvex_core_u64_add width twice;
  projection_width ← yvex_core_u64_add width convolution_width;
  projection_width ← yvex_core_u64_add projection_width heads;
  convolution_values ← yvex_core_u64_mul convolution_width kernel;
  recurrent_values ← yvex_core_u64_mul width state;
  state_values ← yvex_core_u64_add convolution_values recurrent_values;
  bytes ← yvex_core_u64_mul state_values SIZEOF_FLOAT;
  if SIZE_MAX <? bytes then None else Some (width, convolution_width, projection_width).

Definition sequence_ssd_verify (m : yvex_ir_module) (id : Z) : outcome unit :=
  let reason :=
    "selective SSD operands, state versions or source-derived geometry disagree" in
  op ← operations_read m id;
  projection ← operand_type m op 0;
  heads ← opt_integer m id "heads";
  head ← opt_integer m id "head_dimension";
  state ← opt_integer m id "state_dimension";
  groups ← opt_integer m id "groups";
  kernel ← opt_integer m id "convolution_kernel";
  normalization_groups ← opt_integer m id "normalization_groups";
  epsilon ← opt_real m id "epsilon";
  minimum ← opt_real m id "time_step_minimum";
  maximum ← opt_real m id "time_step_maximum";
  unbounded ← opt_integer m id "time_step_unbounded";
  let norm_before_gate := yvex_ir_attribute_get m id "norm_before_gate" in
  _ ← format_if (negb (ty_kind projection =? YVEX_IR_TENSOR)
             || negb (ty_scalar projection =? YVEX_IR_F32) || negb (ty_rank projection =? 2))
    reason;
  match heads, head, state, groups, kernel, normalization_groups, epsilon, minimum, maximum,
        unbounded, norm_before_gate with
  | Some heads, Some head, Some state, Some groups, Some kernel, Some normalization_groups,
    Some epsilon, Some minimum, Some maximum, Some unbounded, Some _ =>
      _ ← format_if
        ((heads =? 0) || (head =? 0) || (state =? 0) || (groups =? 0)
         || negb (heads mod groups =? 0) || (kernel =? 0)
         || (normalization_groups =? 0) || negb (heads mod normalization_groups =? 0)
         || negb (f32_isfinite (f32_of_f64 epsilon)) || f32_le_zero (f32_of_f64 epsilon)
         || negb (f32_isfinite (f32_of_f64 minimum)) || f64_lt_zero minimum
         || negb (f32_isfinite (f32_of_f64 maximum))
         || (if negb (unbounded =? 0) then f64_ne_zero maximum else f64_bits_lt maximum minimum))
        reason;
      match ssd_geometry heads head state groups kernel with
      | None => format_refuse reason
      | Some (width, convolution_width, projection_width) =>
          _ ← format_if (negb (ext_symbol (shape_at projection 1) =? YVEX_IR_NONE)
                     || negb (ext_extent (shape_at projection 1) =? projection_width)) reason;
          w1 ← operand_type m op 1;
          _ ← format_if (negb (sequence_static_float_parameter w1
                 [convolution_width; 1; kernel])) reason;
          w2 ← operand_type m op 2;
          _ ← format_if (negb (sequence_static_float_parameter w2 [convolution_width])) reason;
          _ ← eachO (fun index =>
                w ← operand_type m op index;
                format_if (negb (sequence_static_float_parameter w [heads])) reason) [3; 4; 5];
          w6 ← operand_type m op 6;
          _ ← format_if (negb (sequence_static_float_parameter w6 [width])) reason;
          w7 ← operand_type m op 7;
          w8 ← operand_type m op 8;
          _ ← format_if
            (negb (sequence_static w7 YVEX_IR_STATE YVEX_IR_F32 [convolution_width; kernel]
                     (Some "convolution.causal"))
             || negb (sequence_static w8 YVEX_IR_STATE YVEX_IR_F32 [heads; head; state]
                     (Some "ssm.selective"))) reason;
          output ← result_type m op 0;
          first ← sequence_state_result m op 7 1;
          second ← sequence_state_result m op 8 2;
          format_if
            (negb (ty_kind output =? YVEX_IR_TENSOR) || negb (ty_scalar output =? YVEX_IR_F32)
             || negb (ty_rank output =? 2)
             || negb (yvex_ir_extent_equal (shape_at output 0) (shape_at projection 0))
             || negb (ext_symbol (shape_at output 1) =? YVEX_IR_NONE)
             || negb (ext_extent (shape_at output 1) =? width)
             || negb first || negb second) reason
      end
  | _, _, _, _, _, _, _, _, _, _, _ => format_refuse reason
  end.

(** Key, value and combined widths of a gated delta rule. *)
Definition delta_geometry (kh vh kd vd : Z) : option (Z * Z) :=
  kw ← yvex_core_u64_mul kh kd;
  vw ← yvex_core_u64_mul vh vd;
  combined ← yvex_core_u64_add kw kw;
  combined ← yvex_core_u64_add combined vw;
  Some (vw, combined).

Definition sequence_delta_verify (m : yvex_ir_module) (id : Z) : outcome unit :=
  let reason := "gated-delta operands, state versions or geometry disagree" in
  op ← operations_read m id;
  qkv ← operand_type m op 0;
  kh ← get_integer m id "key_heads";
  vh ← get_integer m id "value_heads";
  kd ← get_integer m id "key_dimension";
  vd ← get_integer m id "value_dimension";
  kernel ← get_integer m id "convolution_kernel";
  qk_epsilon ← get_real m id "qk_epsilon";
  norm_epsilon ← get_real m id "epsilon";
  scale ← get_real m id "query_scale";
  let rows := shape_at qkv 0 in
  _ ← format_if ((kh =? 0) || (vh =? 0) || (kd =? 0) || (vd =? 0) || (kernel <? 2)
             || negb (vh mod kh =? 0)
             || f64_le_zero qk_epsilon || f64_le_zero norm_epsilon || f64_le_zero scale) reason;
  match delta_geometry kh vh kd vd with
  | None => format_refuse reason
  | Some (vw, combined) =>
      _ ← format_if (negb (sequence_rows qkv rows combined)) reason;
      o1 ← operand_type m op 1;
      o2 ← operand_type m op 2;
      o3 ← operand_type m op 3;
      _ ← format_if (negb (sequence_rows o1 rows vw) || negb (sequence_rows o2 rows vh)
                 || negb (sequence_rows o3 rows vh)) reason;
      o4 ← operand_type m op 4;
      _ ← format_if (negb (sequence_static o4 YVEX_IR_TENSOR YVEX_IR_BF16
                             [combined; 1; kernel] None)) reason;
      _ ← eachO (fun index =>
            let scalar := if (def_version (op_definition op) =? 2) && negb (index =? 6)
                          then YVEX_IR_F32 else YVEX_IR_BF16 in
            o ← operand_type m op index;
            format_if (negb (sequence_static o YVEX_IR_TENSOR scalar
              [if index =? 7 then vd else vh] None)) reason) [5; 6; 7];
      o8 ← operand_type m op 8;
      o9 ← operand_type m op 9;
      output ← result_type m op 0;
      first ← sequence_state_result m op 8 1;
      second ← sequence_state_result m op 9 2;
      format_if
        (negb (sequence_static o8 YVEX_IR_STATE YVEX_IR_F32 [combined; kernel - 1]
                 (Some "convolution.causal"))
         || negb (sequence_static o9 YVEX_IR_STATE YVEX_IR_F32 [vh; kd; vd]
                 (Some "recurrent.gated_delta"))
         || negb (sequence_rows output rows vw) || negb first || negb second) reason
  end.

Definition sequence_attention_verify (m : yvex_ir_module) (id : Z) : outcome unit :=
  op ← operations_read m id;
  let gated := String.eqb (def_name (op_definition op)) "attention.gated_causal" in
  query ← operand_type m op 0;
  position ← operand_type m op (if gated then 5 else 3);
  state ← operand_type m op (if gated then 6 else 4);
  heads ← get_integer m id "query_heads";
  kv_heads ← get_integer m id "kv_heads";
  head ← get_integer m id "head_dimension";
  rotary ← get_integer m id "rotary_dimension";
  context ← get_integer m id "maximum_context";
  theta ← get_integer m id "theta";
  epsilon ← (if gated then get_real m id "qk_epsilon" else Done F64_ONE);
  key ← operand_type m op 1;
  value ← operand_type m op 2;
  norms ← (if gated then
             q ← operand_type m op 3;
             k ← operand_type m op 4;
             Done (sequence_static q YVEX_IR_TENSOR YVEX_IR_BF16 [head] None
                   && sequence_static k YVEX_IR_TENSOR YVEX_IR_BF16 [head] None)
           else Done true);
  output ← result_type m op 0;
  successor ← sequence_state_result m op (if gated then 6 else 4) 1;
  let rows := shape_at query 0 in
  format_if
    ((heads =? 0) || (kv_heads =? 0) || negb (heads mod kv_heads =? 0) || (head =? 0)
     || (context =? 0) || (theta <=? 1)
     || (rotary =? 0) || (head <? rotary) || negb (rotary mod 2 =? 0) || f64_le_zero epsilon
     || negb
       (match yvex_core_u64_mul heads head, yvex_core_u64_mul kv_heads head with
        | Some q_width, Some kv_width =>
            match yvex_core_u64_mul q_width (if gated then 2 else 1) with
            | Some combined =>
                sequence_rows query rows combined && sequence_rows key rows kv_width
                && sequence_rows value rows kv_width && norms
                && (ty_kind position =? YVEX_IR_SCALAR) && (ty_scalar position =? YVEX_IR_INDEX)
                && sequence_static state YVEX_IR_STATE YVEX_IR_BF16 [2; context; kv_heads; head]
                     (Some "attention.causal_kv")
                && sequence_rows output rows q_width && successor
            | None => false
            end
        | _, _ => false
        end))
    "causal attention operands or state geometry disagree".

Definition yvex_ir_sequence_dialect : yvex_ir_dialect :=
  let short_conv := [required_u64 "width"; required_u64 "convolution_kernel"] in
  let ssd := [required_u64 "heads"; required_u64 "head_dimension";
              required_u64 "state_dimension"; required_u64 "groups";
              required_u64 "convolution_kernel"; required_u64 "normalization_groups";
              required_f64 "epsilon"; required_f64 "time_step_minimum";
              required_f64 "time_step_maximum"; required_bool "time_step_unbounded";
              required_bool "norm_before_gate"] in
  let delta := [required_u64 "key_heads"; required_u64 "value_heads";
                required_u64 "key_dimension"; required_u64 "value_dimension";
                required_u64 "convolution_kernel"; required_f64 "qk_epsilon";
                required_f64 "epsilon"; required_f64 "query_scale"] in
  let attention := [required_u64 "query_heads"; required_u64 "kv_heads";
                    required_u64 "head_dimension"; required_u64 "rotary_dimension";
                    required_u64 "maximum_context"; required_u64 "theta";
                    required_f64 "qk_epsilon"] in
  let rw := Z.lor YVEX_IR_READ_STATE YVEX_IR_WRITE_STATE in
  mk_dialect SequenceOperations [
    mk_definition "sequence.double_gated_conv" 1 3 3 2 2 0 rw short_conv 0
      (Some V_sequence_short_conv);
    mk_definition "sequence.selective_ssd" 1 9 9 3 3 0 rw ssd 0 (Some V_sequence_ssd);
    mk_definition "sequence.gated_delta" 1 10 10 3 3 0 rw delta 0 (Some V_sequence_delta);
    mk_definition "sequence.gated_delta" 2 10 10 3 3 0 rw delta 0 (Some V_sequence_delta);
    mk_definition "attention.gated_causal" 1 7 7 2 2 0 rw attention 0
      (Some V_sequence_attention);
    mk_definition "attention.causal" 1 5 5 2 2 0 rw (take 6 attention) 0
      (Some V_sequence_attention)].
