(* ===== verification/IrNeural.v ===== *)
(** * IrNeural: the logical neural dialect

    Models [src/ir/neural.c]: the verifier of every neural operation and the
    dialect's operation table.  A refusing condition [a || b || ...] of the
    source is written as [require] of the conjunction of the negations. *)

From Stdlib Require Import ZArith Lia Bool.
From stdpp Require Import base list option numbers strings sets.
From S2P Require Import Prelude Core Sha256 Float64 IrData IrCore.

Definition neural_input := operand_type.
Definition neural_output := result_type.

Definition require (b : bool) (reason : string) : outcome unit := format_if (negb b) reason.

(** [shape[i].symbol == YVEX_IR_NONE], [shape[i].extent] and equality of two extents. *)
Definition static_at (t : yvex_ir_type) (i : Z) : bool :=
  ext_symbol (shape_at t i) =? YVEX_IR_NONE.
Definition extent_at (t : yvex_ir_type) (i : Z) : Z := ext_extent (shape_at t i).
Definition same_extent (a : yvex_ir_type) (i : Z) (b : yvex_ir_type) (j : Z) : bool :=
  yvex_ir_extent_equal (shape_at a i) (shape_at b j).
Definition index_vector (t : yvex_ir_type) : bool :=
  (ty_kind t =? YVEX_IR_TENSOR) && (ty_scalar t =? YVEX_IR_INDEX) && (ty_rank t =? 1).

Definition neural_float_tensor (t : yvex_ir_type) : bool :=
  (ty_kind t =? YVEX_IR_TENSOR) && negb (ty_rank t =? 0) && (YVEX_IR_F16 <=? ty_scalar t).

Definition float_rank (t : yvex_ir_type) (rank : Z) : bool :=
  neural_float_tensor t && (ty_rank t =? rank).

Definition neural_unary (m : yvex_ir_module) (id : Z) : outcome unit :=
  op ← operations_read m id;
  input ← neural_input m op 0;
  output ← neural_output m op 0;
  require (neural_float_tensor input && yvex_ir_type_equal input output)
    "neural unary operation preserves floating tensor type/shape".

Definition neural_binary (m : yvex_ir_module) (id : Z) : outcome unit :=
  op ← operations_read m id;
  _ ← neural_unary m id;
  a ← neural_input m op 0;
  b ← neural_input m op 1;
  require (yvex_ir_type_equal a b)
    "elementwise operands require equal logical shape; no implicit broadcast".

Definition neural_cast (m : yvex_ir_module) (id : Z) : outcome unit :=
  op ← operations_read m id;
  x ← neural_input m op 0;
  y ← neural_output m op 0;
  _ ← require (neural_float_tensor x && neural_float_tensor y && (ty_rank x =? ty_rank y))
    "precision conversion requires floating tensor values";
  require (extents_equal (ty_rank x) x y) "precision conversion cannot change shape".

(** The loop over (rows, indices) pairs; [total] is the partition's row count. *)
Fixpoint indexed_rows_loop (m : yvex_ir_module) (op : yvex_ir_operation) (y : yvex_ir_type)
    (partition : bool) (reason : string) (pairs : nat) (i total : Z) : outcome Z :=
  match pairs with
  | O => Done total
  | S pairs =>
      x ← neural_input m op i;
      indices ← neural_input m op (i + 1);
      _ ← require (neural_float_tensor x && (ty_scalar x =? ty_scalar y) && (ty_rank x =? 2)
             && same_extent x 1 y 1 && index_vector indices
             && yvex_ir_extent_equal (shape_at indices 0)
                  (if partition then shape_at x 0 else shape_at y 0)) reason;
      if partition then
        _ ← require (static_at x 0) reason;
        match yvex_core_u64_add total (extent_at x 0) with
        | None => format_refuse reason
        | Some total => indexed_rows_loop m op y partition reason pairs (i + 2) total
        end
      else indexed_rows_loop m op y partition reason pairs (i + 2) total
  end.

Definition neural_indexed_rows (m : yvex_ir_module) (id : Z) : outcome unit :=
  let reason := "indexed rows require explicit compatible populations and index streams" in
  op ← operations_read m id;
  let partition := String.eqb (def_name (op_definition op)) "tensor.partition_rows" in
  y ← neural_output m op 0;
  let count := zlen (op_operands op) in
  _ ← require (neural_float_tensor y && (ty_rank y =? 2) && (count mod 2 =? 0)
         && static_at y 1 && negb (partition && negb (static_at y 0))) reason;
  total ← indexed_rows_loop m op y partition reason (Z.to_nat (count / 2)) 0 0;
  require (negb (partition && negb (total =? extent_at y 0))) reason.

Definition neural_index_linearize (m : yvex_ir_module) (id : Z) : outcome unit :=
  op ← operations_read m id;
  major ← neural_input m op 0;
  minor ← neural_input m op 1;
  output ← neural_output m op 0;
  a ← opt_integer m id "major_extent";
  b ← opt_integer m id "minor_extent";
  require (index_vector major && yvex_ir_type_equal major minor
           && yvex_ir_type_equal major output
           && match a, b with
              | Some a, Some b => negb (a =? 0) && negb (b =? 0)
                  && bool_decide (is_Some (yvex_core_u64_mul a b))
              | _, _ => false
              end)
    "index linearization requires equal index streams and nonempty nonoverflowing coordinate domains".

Definition neural_sinusoidal (m : yvex_ir_module) (id : Z) : outcome unit :=
  op ← operations_read m id;
  x ← neural_input m op 0;
  y ← neural_output m op 0;
  period ← opt_real m id "maximum_period";
  require (neural_float_tensor x && (ty_scalar x =? YVEX_IR_F32) && (ty_rank x =? 2)
           && static_at x 1 && (extent_at x 1 =? 1)
           && neural_float_tensor y && (ty_scalar y =? YVEX_IR_F32) && (ty_rank y =? 2)
           && same_extent x 0 y 0 && static_at y 1 && negb (extent_at y 1 =? 0)
           && (extent_at y 1 mod 2 =? 0)
           && match period with Some p => negb (f64_le_one p) | None => false end)
    "sinusoidal embedding requires scalar rows, paired F32 channels and a positive frequency period".

Definition neural_axis_rotary (m : yvex_ir_module) (id : Z) : outcome unit :=
  op ← operations_read m id;
  x ← neural_input m op 0;
  frequency ← neural_input m op 1;
  table ← neural_output m op 0;
  second ← neural_output m op 1;
  let width := w ← yvex_core_u64_mul (extent_at x 1) (extent_at frequency 0);
               yvex_core_u64_mul w 2 in
  require (neural_float_tensor x && (ty_scalar x =? YVEX_IR_F32) && (ty_rank x =? 2)
           && static_at x 1 && neural_float_tensor frequency
           && (ty_scalar frequency =? YVEX_IR_F32) && (ty_rank frequency =? 1)
           && static_at frequency 0
           && match width with
              | Some width => neural_float_tensor table && (ty_scalar table =? YVEX_IR_BF16)
                  && (ty_rank table =? 2) && same_extent x 0 table 0 && static_at table 1
                  && (extent_at table 1 =? width) && yvex_ir_type_equal table second
              | None => false
              end)
    "axis rotary tables require explicit F32 positions/frequencies and paired BF16 result geometry".

(** Insertion of a symbol into the ascending prefix kept by [neural_volume]. *)
Fixpoint volume_insert (symbol : Z) (symbols : list Z) : list Z :=
  match symbols with
  | [] => [symbol]
  | s :: rest => if symbol <? s then symbol :: symbols else s :: volume_insert symbol rest
  end.

Definition volume_step (m : yvex_ir_module) (t : yvex_ir_type)
    (acc : option (Z * list Z)) (axis : Z) : option (Z * list Z) :=
  '(factor, symbols) ← acc;
  let e := shape_at t axis in
  let fold extent :=
    if (extent =? 0) || (UINT64_MAX / factor <? extent) then None
    else Some (factor * extent, symbols) in
  if ext_symbol e =? YVEX_IR_NONE then fold (ext_extent e)
  else
    d ← yvex_ir_dimension_at m (ext_symbol e);
    if negb (dim_minimum d =? dim_maximum d)
    then Some (factor, volume_insert (ext_symbol e) symbols)
    else fold (dim_minimum d).

(** Canonical product of static factors and variable symbols. *)
Definition neural_volume (m : yvex_ir_module) (t : yvex_ir_type) : option (Z * list Z) :=
  foldl (volume_step m t) (Some (1, [])) (zseq (ty_rank t)).

Definition neural_reshape (m : yvex_ir_module) (id : Z) : outcome unit :=
  op ← operations_read m id;
  x ← neural_input m op 0;
  y ← neural_output m op 0;
  require (neural_float_tensor x && neural_float_tensor y && (ty_scalar x =? ty_scalar y)
           && match neural_volume m x, neural_volume m y with
              | Some (xf, xs), Some (yf, ys) => (xf =? yf) && bool_decide (xs = ys)
              | _, _ => false
              end)
    "reshape requires equal proven element populations and unchanged precision".

Definition YVEX_IR_REDUCTION_ROW_DOT : Z := 1.
Definition YVEX_IR_REDUCTION_F32_ACC : Z := 2.

(** Index [rank - 1] of an unsigned rank. *)
Definition last_axis (t : yvex_ir_type) : Z := u32 (ty_rank t - 1).

Definition neural_linear (m : yvex_ir_module) (id : Z) : outcome unit :=
  op ← operations_read m id;
  input ← neural_input m op 0;
  weight ← neural_input m op 1;
  output ← neural_output m op 0;
  reduction ← opt_integer m id "reduction";
  _ ← format_if
    (match reduction with
     | None => false
     | Some r => (negb (r =? YVEX_IR_REDUCTION_ROW_DOT) && negb (r =? YVEX_IR_REDUCTION_F32_ACC))
         || negb (ty_scalar input =? YVEX_IR_F32) || negb (ty_scalar weight =? YVEX_IR_F32)
         || negb (ty_scalar output =? YVEX_IR_F32)
     end) "explicit linear reduction requires admitted class and F32 operands/result";
  let reason := "linear contraction/result geometry is incompatible" in
  _ ← require (neural_float_tensor input && neural_float_tensor weight
         && neural_float_tensor output && (ty_rank weight =? 2)
         && (ty_rank output =? ty_rank input)
         && negb (negb (ty_scalar output =? ty_scalar input)
                  && negb ((ty_scalar input =? YVEX_IR_BF16) && (ty_scalar output =? YVEX_IR_F32)))
         && negb (negb (ty_scalar weight =? ty_scalar input)
                  && negb ((ty_scalar input =? YVEX_IR_F32) && (ty_scalar weight =? YVEX_IR_BF16))))
    reason;
  i ← shape_read input (last_axis input);
  o ← shape_read output (last_axis output);
  _ ← require (yvex_ir_extent_equal i (shape_at weight 1)
         && yvex_ir_extent_equal o (shape_at weight 0)) reason;
  require (extents_equal (ty_rank input - 1) input output)
    "linear changes a non-contracted dimension".

Definition neural_linear_residual (m : yvex_ir_module) (id : Z) : outcome unit :=
  op ← operations_read m id;
  _ ← neural_linear m id;
  a ← neural_input m op 2;
  b ← neural_output m op 0;
  require (yvex_ir_type_equal a b)
    "linear residual requires exact result type and population".

Definition neural_linear_bias (m : yvex_ir_module) (id : Z) : outcome unit :=
  op ← operations_read m id;
  bias ← neural_input m op 2;
  y ← neural_output m op 0;
  _ ← neural_linear m id;
  last ← shape_read y (last_axis y);
  require (neural_float_tensor bias && (ty_rank bias =? 1) && (ty_scalar bias =? ty_scalar y)
           && yvex_ir_extent_equal (shape_at bias 0) last)
    "linear bias requires exact output channel geometry and precision".

(** Two or three equal contiguous channel partitions of a matrix. *)
Definition split_geometry (x y : yvex_ir_type) (parts : Z) : bool :=
  neural_float_tensor x && neural_float_tensor y && (ty_scalar x =? ty_scalar y)
  && (ty_rank x =? 2) && (ty_rank y =? 2) && same_extent x 0 y 0
  && static_at x 1 && static_at y 1
  && (extent_at x 1 mod parts =? 0) && (extent_at x 1 / parts =? extent_at y 1).

Definition neural_split_three (m : yvex_ir_module) (id : Z) : outcome unit :=
  op ← operations_read m id;
  x ← neural_input m op 0;
  y ← neural_output m op 0;
  y1 ← neural_output m op 1;
  y2 ← neural_output m op 2;
  require (split_geometry x y 3 && yvex_ir_type_equal y y1 && yvex_ir_type_equal y y2)
    "split-three requires equal contiguous channel partitions per row".

Definition neural_split_two (m : yvex_ir_module) (id : Z) : outcome unit :=
  op ← operations_read m id;
  x ← neural_input m op 0;
  y ← neural_output m op 0;
  y1 ← neural_output m op 1;
  require (split_geometry x y 2 && yvex_ir_type_equal y y1)
    "split-two requires equal contiguous channel partitions per row".

Definition neural_channel_bias (m : yvex_ir_module) (id : Z) : outcome unit :=
  op ← operations_read m id;
  let count := zlen (op_operands op) in
  x ← neural_input m op 0;
  bias ← neural_input m op (count - 1);
  _ ← neural_unary m id;
  second ← neural_input m op 1;
  require ((ty_rank x =? 2) && neural_float_tensor bias && (ty_rank bias =? 1)
           && (ty_scalar bias =? ty_scalar x) && same_extent x 1 bias 0
           && negb ((count =? 3) && negb (yvex_ir_type_equal x second)))
    "channel operation requires explicit equal-precision vector broadcast".

Definition neural_interleaved_three (m : yvex_ir_module) (id : Z) : outcome unit :=
  op ← operations_read m id;
  head ← opt_integer m id "head_dimension";
  _ ← neural_split_three m id;
  y ← neural_output m op 0;
  require (match head with
           | None => false
           | Some h => negb (h =? 0) && (extent_at y 1 mod h =? 0)
           end) "interleaved partition requires complete channel groups".

Definition neural_swiglu_split (m : yvex_ir_module) (id : Z) : outcome unit :=
  op ← operations_read m id;
  x ← neural_input m op 0;
  y ← neural_output m op 0;
  require (split_geometry x y 2) "SwiGLU split requires two equal channel partitions".

Definition neural_weighted_rms (m : yvex_ir_module) (id : Z) : outcome unit :=
  op ← operations_read m id;
  x ← neural_input m op 0;
  w ← neural_input m op 1;
  y ← neural_output m op 0;
  epsilon ← opt_real m id "epsilon";
  require (neural_float_tensor x && (ty_scalar x =? YVEX_IR_BF16) && (ty_rank x =? 2)
           && static_at x 1 && neural_float_tensor w && (ty_scalar w =? YVEX_IR_F32)
           && (ty_rank w =? 1) && same_extent x 1 w 0 && yvex_ir_type_equal x y
           && negb (missing_or_nonpositive epsilon))
    "weighted RMS requires BF16 rows/results, F32 channel weights and positive F64 epsilon".

Definition neural_rms_normalize (m : yvex_ir_module) (id : Z) : outcome unit :=
  op ← operations_read m id;
  x ← neural_input m op 0;
  group ← opt_integer m id "group_width";
  epsilon ← opt_real m id "epsilon";
  _ ← neural_unary m id;
  require ((ty_rank x =? 2) && static_at x 1
           && match group with
              | None => false
              | Some g => negb (g =? 0) && (extent_at x 1 mod g =? 0)
              end
           && negb (missing_or_nonpositive epsilon))
    "unweighted RMS requires complete groups and positive epsilon".

Definition neural_slice_rows (m : yvex_ir_module) (id : Z) : outcome unit :=
  op ← operations_read m id;
  x ← neural_input m op 0;
  y ← neural_output m op 0;
  start ← opt_integer m id "start";
  require (neural_float_tensor x && neural_float_tensor y && (ty_scalar x =? ty_scalar y)
           && (ty_rank x =? 2) && (ty_rank y =? 2) && same_extent x 1 y 1
           && static_at x 0 && static_at y 0
           && match start with
              | None => false
              | Some s => negb (extent_at x 0 <? s) && negb (extent_at x 0 - s <? extent_at y 0)
              end)
    "row slice must lie within an exact admitted population".

Definition neural_rows (m : yvex_ir_module) (id : Z) : outcome unit :=
  op ← operations_read m id;
  y ← neural_output m op 0;
  _ ← require (neural_float_tensor y && (ty_rank y =? 2) && static_at y 0 && static_at y 1)
    "row construction requires exact floating matrix geometry";
  let count := zlen (op_operands op) in
  rows ← foldO (fun rows i =>
    x ← neural_input m op i;
    _ ← require (neural_float_tensor x && (ty_scalar x =? ty_scalar y) && (ty_rank x =? 2)
           && same_extent x 1 y 1 && static_at x 0)
      "concatenated rows require common width and precision";
    match yvex_core_u64_add rows (extent_at x 0) with
    | None => format_refuse "concatenated rows require common width and precision"
    | Some rows => Done rows
    end) (zseq count) 0;
  require (negb (negb (count =? 0) && negb (rows =? extent_at y 0)))
    "concatenation result must contain every input row exactly once".

Definition neural_grid (m : yvex_ir_module) (id : Z) : outcome unit :=
  op ← operations_read m id;
  y ← neural_output m op 0;
  height ← opt_integer m id "grid_height";
  width ← opt_integer m id "grid_width";
  block ← opt_integer m id "block_size";
  _ ← require
    (match height, width, block with
     | Some h, Some w, Some b =>
         negb (h =? 0) && negb (w =? 0) && negb (b =? 0) && (h mod b =? 0) && (w mod b =? 0)
         && match yvex_core_u64_mul h w with
            | Some rows => neural_float_tensor y && (ty_rank y =? 2) && static_at y 0
                && (extent_at y 0 =? rows) && static_at y 1
            | None => false
            end
     | _, _, _ => false
     end) "grid operation requires exact blocked spatial geometry";
  if String.eqb (def_name (op_definition op)) "tensor.grid_bilinear" then
    table ← neural_input m op 0;
    side ← opt_integer m id "source_side";
    require
      (match side with
       | Some s => negb (s =? 0)
           && match yvex_core_u64_mul s s with
              | Some count => neural_float_tensor table && (ty_scalar table =? ty_scalar y)
                  && (ty_rank table =? 2) && static_at table 0 && (extent_at table 0 =? count)
                  && same_extent table 1 y 1
              | None => false
              end
       | None => false
       end) "bilinear grid source must have exact square/channel geometry"
  else
    theta ← opt_real m id "theta";
    second ← neural_output m op 1;
    require ((ty_scalar y =? YVEX_IR_F32) && (extent_at y 1 mod 4 =? 0)
             && negb (missing_or_nonpositive theta) && yvex_ir_type_equal y second)
      "spatial rotary requires equal F32 tables and quarter-head geometry".

Definition neural_embedding (m : yvex_ir_module) (id : Z) : outcome unit :=
  op ← operations_read m id;
  tokens ← neural_input m op 0;
  weight ← neural_input m op 1;
  output ← neural_output m op 0;
  let reason := "embedding requires index tensor and [vocabulary, width] weights" in
  _ ← require ((ty_kind tokens =? YVEX_IR_TENSOR) && (ty_scalar tokens =? YVEX_IR_INDEX)
         && neural_float_tensor weight && (ty_rank weight =? 2)
         && neural_float_tensor output && (ty_rank output =? u32 (ty_rank tokens + 1))
         && negb (negb (ty_scalar output =? ty_scalar weight)
                  && negb ((ty_scalar weight =? YVEX_IR_BF16) && (ty_scalar output =? YVEX_IR_F32))))
    reason;
  last ← shape_read output (ty_rank tokens);
  _ ← require (yvex_ir_extent_equal last (shape_at weight 1)) reason;
  require (extents_equal (ty_rank tokens) tokens output) "embedding changes input population".

Definition neural_norm (m : yvex_ir_module) (id : Z) : outcome unit :=
  op ← operations_read m id;
  input ← neural_input m op 0;
  weight ← neural_input m op 1;
  epsilon ← opt_real m id "epsilon";
  _ ← neural_unary m id;
  let reason := "normalization requires positive epsilon and exact channel weights" in
  _ ← require (negb (missing_or_nonpositive epsilon) && neural_float_tensor weight
         && (ty_rank weight =? 1)
         && negb (negb (ty_scalar weight =? ty_scalar input)
                  && negb ((ty_scalar input =? YVEX_IR_F32) && (ty_scalar weight =? YVEX_IR_BF16))))
    reason;
  last ← shape_read input (last_axis input);
  _ ← require (yvex_ir_extent_equal last (shape_at weight 0)) reason;
  _ ← (if zlen (op_operands op) =? 3 then
         bias ← neural_input m op 2;
         require (yvex_ir_type_equal weight bias)
           "normalization bias has incompatible geometry"
       else Done tt);
  if def_version (op_definition op) =? 2 then
    offset ← opt_real m id "weight_offset";
    require (String.eqb (def_name (op_definition op)) "nn.rms_norm"
             && (ty_scalar input =? YVEX_IR_BF16) && (ty_scalar weight =? YVEX_IR_BF16)
             && match offset with None => true | Some bits => negb (f64_ne_zero bits) end)
      "rounded-input RMSNorm requires BF16 publication and direct source weights"
  else Done tt.

Definition neural_routed_swiglu (m : yvex_ir_module) (id : Z) : outcome unit :=
  op ← operations_read m id;
  x ← neural_input m op 0;
  logits ← neural_input m op 1;
  bias ← neural_input m op 2;
  gate ← neural_input m op 3;
  up ← neural_input m op 4;
  down ← neural_input m op 5;
  selected ← get_integer m id "selected_experts";
  epsilon ← get_real m id "normalization_epsilon";
  scale ← get_real m id "routed_scale";
  output ← neural_output m op 0;
  require
    (neural_float_tensor x && (ty_scalar x =? YVEX_IR_BF16) && (ty_rank x =? 2)
     && static_at x 1 && yvex_ir_type_equal x output
     && neural_float_tensor logits && (ty_scalar logits =? YVEX_IR_BF16) && (ty_rank logits =? 2)
     && same_extent x 0 logits 0 && static_at logits 1
     && negb (extent_at logits 1 =? 0) && negb (256 <? extent_at logits 1)
     && negb (selected =? 0) && negb (extent_at logits 1 <? selected)
     && f64_isfinite epsilon && negb (f64_le_zero epsilon)
     && f64_isfinite scale && negb (f64_le_zero scale)
     && neural_float_tensor bias && (ty_scalar bias =? YVEX_IR_F32) && (ty_rank bias =? 1)
     && same_extent bias 0 logits 1
     && neural_float_tensor gate && (ty_scalar gate =? YVEX_IR_BF16) && (ty_rank gate =? 3)
     && yvex_ir_type_equal gate up && neural_float_tensor down
     && (ty_scalar down =? YVEX_IR_BF16) && (ty_rank down =? 3)
     && same_extent gate 0 logits 1 && same_extent down 0 gate 0
     && same_extent gate 2 x 1 && same_extent down 1 x 1 && same_extent down 2 gate 1
     && static_at gate 1 && negb (extent_at gate 1 =? 0))
    "routed SwiGLU requires coupled BF16 banks and biased sigmoid geometry".

Definition neural_group_norm (m : yvex_ir_module) (id : Z) : outcome unit :=
  op ← operations_read m id;
  input ← neural_input m op 0;
  weight ← neural_input m op 1;
  epsilon ← opt_real m id "epsilon";
  _ ← neural_unary m id;
  _ ← require ((ty_rank input =? 2) && static_at input 1
         && neural_float_tensor weight && (ty_scalar weight =? ty_scalar input)
         && (ty_rank weight =? 1) && static_at weight 0 && negb (extent_at weight 0 =? 0)
         && (extent_at input 1 mod extent_at weight 0 =? 0)
         && negb (missing_or_nonpositive epsilon))
    "group RMS normalization requires complete static channel groups and positive epsilon";
  require (negb ((def_version (op_definition op) =? 2)
                 && negb (ty_scalar input =? YVEX_IR_BF16)))
    "rounded-input grouped RMSNorm requires BF16".

Definition neural_rotary_half (m : yvex_ir_module) (id : Z) : outcome unit :=
  op ← operations_read m id;
  x ← neural_input m op 0;
  table ← neural_input m op 1;
  head ← opt_integer m id "head_dimension";
  _ ← neural_unary m id;
  second ← neural_input m op 2;
  require
    ((ty_rank x =? 2) && static_at x 1
     && match head with
        | None => false
        | Some h => negb (h =? 0) && (h mod 2 =? 0) && (extent_at x 1 mod h =? 0)
            && neural_float_tensor table
            && (ty_scalar table =? (if String.eqb (def_name (op_definition op))
                                       "tensor.rotary_half_f32"
                                    then YVEX_IR_F32 else ty_scalar x))
            && (ty_rank table =? 2) && same_extent table 0 x 0
            && static_at table 1 && negb (extent_at table 1 =? 0)
            && (extent_at table 1 mod 2 =? 0) && negb (h <? extent_at table 1)
            && yvex_ir_type_equal table second
        end)
    "rotate-half requires complete heads and equal per-position cosine/sine tables".

Definition with_scalar (t : yvex_ir_type) (scalar : Z) : yvex_ir_type :=
  mk_type (ty_kind t) scalar (ty_rank t) (ty_shape t) (ty_domain t) (ty_member_count t)
    (ty_members t).

Definition neural_attention (m : yvex_ir_module) (id : Z) : outcome unit :=
  op ← operations_read m id;
  q ← neural_input m op 0;
  k ← neural_input m op 1;
  head ← opt_integer m id "head_dimension";
  result ← neural_output m op 0;
  _ ← require (neural_float_tensor q
         && yvex_ir_type_equal q (with_scalar result (ty_scalar q))
         && negb (negb (ty_scalar result =? ty_scalar q)
                  && negb ((ty_scalar q =? YVEX_IR_BF16) && (ty_scalar result =? YVEX_IR_F32))))
    "attention result preserves geometry and admitted accumulation precision";
  value ← neural_input m op 2;
  require ((ty_rank q =? 2) && static_at q 1
           && neural_float_tensor k && (ty_scalar k =? ty_scalar q) && (ty_rank k =? 2)
           && static_at k 1 && negb (extent_at k 1 =? 0) && same_extent q 0 k 0
           && match head with
              | None => false
              | Some h => negb (h =? 0) && (extent_at q 1 mod h =? 0)
                  && (extent_at k 1 mod h =? 0) && (extent_at q 1 mod extent_at k 1 =? 0)
                  && yvex_ir_type_equal k value
              end)
    "full attention requires equal sequence populations and integral grouped-query geometry".

Definition neural_rotary_tables (m : yvex_ir_module) (id : Z) : outcome unit :=
  op ← operations_read m id;
  positions ← neural_input m op 0;
  p1 ← neural_input m op 1;
  p2 ← neural_input m op 2;
  table ← neural_output m op 0;
  second ← neural_output m op 1;
  theta ← opt_real m id "theta";
  y ← opt_integer m id "section_y";
  z ← opt_integer m id "section_z";
  require
    (index_vector positions && yvex_ir_type_equal positions p1
     && yvex_ir_type_equal positions p2
     && neural_float_tensor table && (ty_rank table =? 2) && same_extent table 0 positions 0
     && static_at table 1 && negb (extent_at table 1 =? 0) && (extent_at table 1 mod 2 =? 0)
     && yvex_ir_type_equal table second && negb (missing_or_nonpositive theta)
     && match y, z with
        | Some y, Some z => negb (extent_at table 1 / 2 <? y)
            && negb (extent_at table 1 / 2 - y <? z)
        | _, _ => false
        end)
    "rotary tables require three position streams, bounded interleaving sections and equal even-width results".

Definition neural_masked_rows (m : yvex_ir_module) (id : Z) : outcome unit :=
  op ← operations_read m id;
  x ← neural_input m op 0;
  mask ← neural_input m op 2;
  _ ← neural_binary m id;
  require ((ty_rank x =? 2) && neural_float_tensor mask && (ty_scalar mask =? ty_scalar x)
           && (ty_rank mask =? 2) && same_extent x 0 mask 0 && static_at mask 1
           && (extent_at mask 1 =? 1))
    "masked rows require one explicit Boolean-valued mask per row".

Definition neural_mhc_pre (m : yvex_ir_module) (id : Z) : outcome unit :=
  let reason :=
    "mHC ingress requires typed residual/mix dependencies, three results and positive numerical attributes" in
  op ← operations_read m id;
  x ← neural_input m op 0;
  mix ← neural_input m op 1;
  scale ← neural_input m op 2;
  base ← neural_input m op 3;
  y ← neural_output m op 0;
  post ← neural_output m op 1;
  matrix ← neural_output m op 2;
  _ ← eachO (fun name =>
        a ← opt_real m id name;
        require (negb (missing_or_nonpositive a)) reason)
        ["epsilon"; "mhc_epsilon"; "post_multiplier"];
  iterations ← opt_integer m id "sinkhorn_iterations";
  _ ← require (negb (missing_or_zero iterations) && neural_float_tensor x
         && (ty_scalar x =? YVEX_IR_BF16) && (ty_rank x =? 3) && static_at x 1 && static_at x 2)
    reason;
  match (mixing ← yvex_core_u64_add (extent_at x 1) 2; yvex_core_u64_mul mixing (extent_at x 1)) with
  | None => format_refuse reason
  | Some mixing =>
      _ ← require (forallb (fun t => neural_float_tensor t && (ty_scalar t =? YVEX_IR_F32))
             [mix; scale; base; post; matrix]) reason;
      require ((ty_rank mix =? 2) && same_extent mix 0 x 0 && static_at mix 1
               && (extent_at mix 1 =? mixing)
               && (ty_rank scale =? 1) && static_at scale 0 && (extent_at scale 0 =? 3)
               && (ty_rank base =? 1) && same_extent base 0 mix 1
               && neural_float_tensor y && (ty_scalar y =? YVEX_IR_BF16) && (ty_rank y =? 2)
               && same_extent y 0 x 0 && same_extent y 1 x 2
               && (ty_rank post =? 2) && same_extent post 0 x 0 && same_extent post 1 x 1
               && (ty_rank matrix =? 3) && same_extent matrix 0 x 0
               && same_extent matrix 1 x 1 && same_extent matrix 2 x 1) reason
  end.

Definition neural_mhc_head (m : yvex_ir_module) (id : Z) : outcome unit :=
  op ← operations_read m id;
  x ← neural_input m op 0;
  fn ← neural_input m op 1;
  base ← neural_input m op 2;
  scale ← neural_input m op 3;
  norm ← neural_input m op 4;
  y ← neural_output m op 0;
  epsilon ← opt_real m id "epsilon";
  mhc ← opt_real m id "mhc_epsilon";
  let geometry := "mHC head requires explicit stream/channel geometry and epsilons" in
  _ ← require (neural_float_tensor x && (ty_scalar x =? YVEX_IR_F32) && (ty_rank x =? 3)
         && static_at x 1 && static_at x 2) geometry;
  match yvex_core_u64_mul (extent_at x 1) (extent_at x 2) with
  | None => format_refuse geometry
  | Some expanded =>
      _ ← require (negb (expanded =? 0) && negb (missing_or_nonpositive epsilon)
             && negb (missing_or_nonpositive mhc)) geometry;
      _ ← require (forallb (fun t => neural_float_tensor t && (ty_scalar t =? YVEX_IR_F32))
             [fn; base; scale; norm]) "mHC head parameters have F32 logical semantics";
      second ← neural_output m op 1;
      require ((ty_rank fn =? 2) && same_extent fn 0 x 1 && static_at fn 1
               && (extent_at fn 1 =? expanded)
               && (ty_rank base =? 1) && same_extent base 0 x 1
               && (ty_rank scale =? 1) && static_at scale 0 && (extent_at scale 0 =? 1)
               && (ty_rank norm =? 1) && same_extent norm 0 x 2
               && neural_float_tensor y && (ty_rank y =? 2) && (ty_scalar y =? YVEX_IR_BF16)
               && same_extent y 0 x 0 && same_extent y 1 x 2 && yvex_ir_type_equal y second)
        "mHC head parameter/result shapes disagree with stream geometry"
  end.

Definition neural_stream_mean (m : yvex_ir_module) (id : Z) : outcome unit :=
  op ← operations_read m id;
  x ← neural_input m op 0;
  y ← neural_output m op 0;
  require (neural_float_tensor x && (ty_scalar x =? YVEX_IR_F32) && (ty_rank x =? 3)
           && static_at x 1 && static_at x 2
           && neural_float_tensor y && (ty_scalar y =? YVEX_IR_F32) && (ty_rank y =? 2)
           && same_extent x 0 y 0 && same_extent x 2 y 1)
    "stream mean requires exact row/stream/channel geometry".

Definition neural_mhc_post (m : yvex_ir_module) (id : Z) : outcome unit :=
  op ← operations_read m id;
  x ← neural_input m op 0;
  core ← neural_input m op 1;
  post ← neural_input m op 2;
  mix ← neural_input m op 3;
  y ← neural_output m op 0;
  _ ← require (forallb (fun t => neural_float_tensor t && (ty_scalar t =? YVEX_IR_F32)
                                 && same_extent t 0 x 0) [x; core; post; mix])
    "mHC post requires F32 operands with the same row population";
  _ ← require ((ty_rank x =? 3) && (ty_rank core =? 2) && (ty_rank post =? 2) && (ty_rank mix =? 3)
         && static_at x 1 && static_at x 2
         && same_extent core 1 x 2 && same_extent post 1 x 1
         && same_extent mix 1 x 1 && same_extent mix 2 x 1
         && (ty_kind y =? YVEX_IR_TENSOR) && (ty_scalar y =? YVEX_IR_BF16) && (ty_rank y =? 3))
    "mHC post stream/channel geometry or output precision is incompatible";
  require (extents_equal 3 x y) "mHC post preserves residual geometry".

Definition neural_mean (m : yvex_ir_module) (id : Z) : outcome unit :=
  op ← operations_read m id;
  _ ← neural_unary m id;
  first ← neural_input m op 0;
  eachO (fun i =>
    x ← neural_input m op i;
    require (yvex_ir_type_equal first x) "ordered mean requires equal branch shapes and types")
    (drop 1 (zseq (zlen (op_operands op)))).

Definition neural_clamp (m : yvex_ir_module) (id : Z) : outcome unit :=
  _ ← neural_unary m id;
  lower ← get_real m id "lower";
  upper ← get_real m id "upper";
  format_if (f64_bits_lt upper lower || f64_bits_lt lower F64_NEG_FLT_MAX
             || f64_bits_lt F64_FLT_MAX upper) "clamp requires ordered finite F32 bounds".

Definition neural_clamped_swiglu (m : yvex_ir_module) (id : Z) : outcome unit :=
  op ← operations_read m id;
  gate ← neural_input m op 0;
  up ← neural_input m op 1;
  _ ← neural_cast m id;
  output ← neural_output m op 0;
  limit ← get_real m id "limit";
  require ((ty_scalar gate =? YVEX_IR_F32) && yvex_ir_type_equal gate up
           && (ty_scalar output =? YVEX_IR_BF16) && negb (f64_le_zero limit))
    "clamped SwiGLU requires equal F32 operands, positive limit and BF16 result".

(** [neural_unary(...) != YVEX_OK] used as a condition: the refusal's reason is
    replaced by the caller's. *)
Definition accepted (c : outcome unit) : outcome bool :=
  match c with
  | Done _ => Done true
  | Refuse _ _ => Done false
  | Fault f => Fault f
  end.

(** Output length of a transposed convolution, [None] when a step overflows. *)
Definition transposed_length (length_ stride kernel output_padding doubled : Z) : option Z :=
  if UINT64_MAX / stride <? length_ - 1 then None else
  let expected := (length_ - 1) * stride in
  if UINT64_MAX - expected <? kernel then None else
  let expected := expected + kernel in
  if UINT64_MAX - expected <? output_padding then None else
  let expected := expected + output_padding in
  if expected <=? doubled then None else Some (expected - doubled).

(** Output length of an ordinary convolution. *)
Definition convolution_length (length_ stride kernel doubled : Z) : option Z :=
  if (UINT64_MAX - length_ <? doubled) || (length_ + doubled <? kernel) then None
  else Some ((length_ + doubled - kernel) / stride + 1).

Definition neural_convolution (m : yvex_ir_module) (id : Z) : outcome unit :=
  let reason :=
    "Conv1D requires explicit F32 channel/sample contraction, normalization axes and exact output geometry" in
  op ← operations_read m id;
  x ← neural_input m op 0;
  w ← neural_input m op 1;
  y ← neural_output m op 0;
  stride ← get_integer m id "stride";
  dilation ← get_integer m id "dilation";
  padding ← get_integer m id "padding";
  output_padding ← get_integer m id "output_padding";
  flag ← get_integer m id "transposed";
  let transposed := negb (u32 flag =? 0) in
  let normalized := negb (String.eqb (def_name (op_definition op)) "signal.conv1d") in
  let biased := negb (String.eqb (def_name (op_definition op))
                        "signal.normalized_conv1d_unbiased") in
  _ ← require (neural_float_tensor x && neural_float_tensor w && neural_float_tensor y
         && (ty_scalar x =? YVEX_IR_F32) && (ty_scalar w =? ty_scalar x)
         && (ty_scalar y =? ty_scalar x)
         && (ty_rank x =? 3) && (ty_rank w =? 3) && (ty_rank y =? 3)
         && same_extent x 0 y 0 && negb (stride =? 0) && negb (dilation =? 0)
         && (if transposed then output_padding <? stride else output_padding =? 0)) reason;
  _ ← require (forallb (fun axis => static_at w axis && negb (extent_at w axis =? 0)
           && negb (negb (axis =? 0) && (negb (static_at x axis) || negb (static_at y axis))))
         [0; 1; 2]) reason;
  _ ← require (same_extent w (if transposed then 0 else 1) x 1
         && same_extent w (if transposed then 1 else 0) y 1) reason;
  _ ← require (negb ((UINT64_MAX - 1) / dilation <? extent_at w 2 - 1)
         && negb (UINT64_MAX / 2 <? padding)) reason;
  let kernel := (extent_at w 2 - 1) * dilation + 1 in
  let doubled := padding * 2 in
  let length_ := extent_at x 2 in
  _ ← require (negb (length_ =? 0)) reason;
  match (if transposed then transposed_length length_ stride kernel output_padding doubled
         else convolution_length length_ stride kernel doubled) with
  | None => format_refuse reason
  | Some expected =>
      _ ← require (extent_at y 2 =? expected) reason;
      _ ← eachO (fun i =>
            v ← neural_input m op i;
            let channels := if normalized && (i =? 2) then shape_at w 0 else shape_at y 1 in
            require (neural_float_tensor v && (ty_scalar v =? ty_scalar x) && (ty_rank v =? 1)
                     && yvex_ir_extent_equal (shape_at v 0) channels) reason)
            (drop 2 (zseq (zlen (op_operands op))));
      require (zlen (op_operands op) =? 2 + Z.b2z normalized + Z.b2z biased) reason
  end.

Definition neural_spatial_convolution (m : yvex_ir_module) (id : Z) : outcome unit :=
  let reason :=
    "spatial convolution requires explicit kernel plane, channel contraction and exact padded output geometry" in
  op ← operations_read m id;
  x ← neural_input m op 0;
  w ← neural_input m op 1;
  bias ← neural_input m op 2;
  y ← neural_output m op 0;
  _ ← require (neural_float_tensor x && (ty_rank x =? 4) && neural_float_tensor y
         && (ty_rank y =? 4) && (ty_scalar y =? ty_scalar x)
         && neural_float_tensor w && (ty_rank w =? 5) && (ty_scalar w =? ty_scalar x)
         && neural_float_tensor bias && (ty_rank bias =? 1) && (ty_scalar bias =? ty_scalar x)
         && same_extent x 0 y 0 && same_extent x 1 w 1 && same_extent y 1 w 0
         && same_extent bias 0 w 0) reason;
  _ ← require (forallb (fun axis => static_at w axis && negb (extent_at w axis =? 0))
         [0; 1; 2; 3; 4]) reason;
  plane ← get_integer m id "kernel_plane";
  _ ← require (plane <? extent_at w 2) reason;
  eachO (fun '(axis, stride_name, before, after) =>
    stride ← get_integer m id stride_name;
    lo ← get_integer m id before;
    hi ← get_integer m id after;
    _ ← require (negb (stride =? 0) && static_at x (axis + 2) && static_at y (axis + 2)) reason;
    match (padded ← yvex_core_u64_add (extent_at x (axis + 2)) lo;
           yvex_core_u64_add padded hi) with
    | None => format_refuse reason
    | Some padded =>
        require (negb (padded <? extent_at w (axis + 3))
                 && (extent_at y (axis + 2)
                     =? u64 ((padded - extent_at w (axis + 3)) / stride + 1))) reason
    end)
    [(0, "stride_height", "padding_top", "padding_bottom");
     (1, "stride_width", "padding_left", "padding_right")]%string.

Definition neural_spatial_norm (m : yvex_ir_module) (id : Z) : outcome unit :=
  op ← operations_read m id;
  x ← neural_input m op 0;
  w ← neural_input m op 1;
  groups ← get_integer m id "groups";
  unary ← accepted (neural_unary m id);
  bias ← neural_input m op 2;
  epsilon ← get_real m id "epsilon";
  require (unary && (ty_rank x =? 4)
           && neural_float_tensor w && (ty_rank w =? 1) && (ty_scalar w =? ty_scalar x)
           && static_at w 0 && same_extent x 1 w 0 && yvex_ir_type_equal w bias
           && negb (groups =? 0) && (extent_at w 0 mod groups =? 0)
           && static_at x 2 && static_at x 3 && negb (f64_le_zero epsilon))
    "spatial GroupNorm/SiLU requires per-sample channel groups, affine parameters and positive epsilon".

Definition neural_alias_snake (m : yvex_ir_module) (id : Z) : outcome unit :=
  let reason :=
    "alias-free SnakeBeta requires F32 channel-first signals, channel log parameters and two 12-tap filters" in
  op ← operations_read m id;
  x ← neural_input m op 0;
  unary ← accepted (neural_unary m id);
  _ ← require (unary && (ty_scalar x =? YVEX_IR_F32) && (ty_rank x =? 3)
         && static_at x 1 && static_at x 2) reason;
  eachO (fun i =>
    v ← neural_input m op i;
    let width := if i <? 3 then extent_at x 1 else 12 in
    require (neural_float_tensor v && (ty_scalar v =? YVEX_IR_F32) && (ty_rank v =? 1)
             && static_at v 0 && (extent_at v 0 =? width)) reason) [1; 2; 3; 4].

Definition neural_indexed_conditioning (m : yvex_ir_module) (id : Z) : outcome unit :=
  op ← operations_read m id;
  x ← neural_input m op 0;
  table ← neural_input m op 1;
  indices ← neural_input m op 2;
  let gated := zlen (op_operands op) =? 4 in
  output ← neural_output m op 0;
  residual ← (if gated then t ← neural_input m op 3; Done (yvex_ir_type_equal x t)
              else Done true);
  _ ← require (neural_float_tensor x && (ty_rank x =? 2) && static_at x 1
         && yvex_ir_type_equal x output
         && neural_float_tensor table && (ty_rank table =? 3) && (ty_scalar table =? ty_scalar x)
         && static_at table 0 && static_at table 1
         && negb (extent_at table 0 =? 0) && negb (extent_at table 1 =? 0)
         && same_extent x 1 table 2 && index_vector indices && same_extent indices 0 x 0
         && residual)
    "indexed conditioning requires exact table, row and value geometry";
  first ← opt_integer m id (if gated then "gate" else "shift");
  scale ← (if gated then Done None else opt_integer m id "scale");
  let in_table o := match o with None => false | Some n => n <? extent_at table 1 end in
  require (in_table first && (gated || in_table scale))
    "conditioning slot lies outside its declared table".

Definition yvex_ir_neural_dialect : yvex_ir_dialect :=
  let u := required_u64 in
  let f := required_f64 in
  let b := required_bool in
  let routed := [u "selected_experts"; f "normalization_epsilon"; f "routed_scale"] in
  let linear := [mk_rule "reduction" YVEX_IR_ATTR_U64 0] in
  let norm := [f "epsilon"; f "weight_offset"] in
  let mhc := [f "epsilon"; f "mhc_epsilon"] in
  let mhc_pre := [f "epsilon"; f "mhc_epsilon"; f "post_multiplier"; u "sinkhorn_iterations"] in
  let group_norm := [f "epsilon"] in
  let rms_unit := [f "epsilon"; u "group_width"] in
  let gate := [b "gate_first"] in
  let modulation := [u "shift"; u "scale"] in
  let indexed_gate := [u "gate"] in
  let index_domain := [u "major_extent"; u "minor_extent"] in
  let slice := [u "start"] in
  let rotary := [u "head_dimension"] in
  let sinusoidal := [f "maximum_period"] in
  let attention := [u "head_dimension"; b "causal"] in
  let tables := [f "theta"; u "section_y"; u "section_z"] in
  let masked := [b "add"] in
  let clamp := [f "lower"; f "upper"] in
  let activation_limit := [f "limit"] in
  let convolution := [u "stride"; u "dilation"; u "padding"; u "output_padding";
                      b "transposed"] in
  let spatial := [u "stride_height"; u "stride_width"; u "padding_top"; u "padding_bottom";
                  u "padding_left"; u "padding_right"; u "kernel_plane"; b "reflect"] in
  let spatial_norm := [u "groups"; f "epsilon"] in
  let grid := [u "grid_height"; u "grid_width"; u "block_size"; u "source_side"] in
  let grid_rotary := [u "grid_height"; u "grid_width"; u "block_size"; f "theta"] in
  let op name version operands_min operands_max results rules v :=
    mk_definition name version operands_min operands_max results results 0 0 rules 0 (Some v) in
  mk_dialect NeuralOperations [
    op "nn.routed_swiglu" 1 6 6 1 routed V_neural_routed_swiglu;
    op "tensor.index_linearize" 1 2 2 1 index_domain V_neural_index_linearize;
    op "tensor.cast" 1 1 1 1 [] V_neural_cast;
    op "nn.indexed_modulate" 1 3 3 1 modulation V_neural_indexed_conditioning;
    op "nn.indexed_gated_residual" 1 4 4 1 indexed_gate V_neural_indexed_conditioning;
    op "tensor.mean" 1 1 16 1 [] V_neural_mean;
    op "tensor.clamp" 1 1 1 1 clamp V_neural_clamp;
    op "nn.clamped_swiglu" 1 2 2 1 activation_limit V_neural_clamped_swiglu;
    op "signal.conv1d" 1 3 3 1 convolution V_neural_convolution;
    op "signal.conv2d_slice" 1 3 3 1 spatial V_neural_spatial_convolution;
    op "nn.spatial_group_norm_silu" 1 3 3 1 spatial_norm V_neural_spatial_norm;
    op "signal.normalized_conv1d" 1 4 4 1 convolution V_neural_convolution;
    op "signal.normalized_conv1d_unbiased" 1 3 3 1 convolution V_neural_convolution;
    op "signal.alias_snake" 1 5 5 1 [] V_neural_alias_snake;
    op "tensor.reshape" 1 1 1 1 [] V_neural_reshape;
    op "tensor.slice_rows" 1 1 1 1 slice V_neural_slice_rows;
    op "tensor.copy" 1 1 1 1 [] V_neural_unary;
    op "tensor.zeros" 1 0 0 1 [] V_neural_rows;
    op "tensor.concat_rows" 1 2 2 1 [] V_neural_rows;
    op "tensor.channel_bias" 1 2 2 1 [] V_neural_channel_bias;
    op "tensor.scaled_residual" 1 3 3 1 [] V_neural_channel_bias;
    op "tensor.split_interleaved_three" 1 1 1 3 rotary V_neural_interleaved_three;
    op "nn.swiglu_split" 1 1 1 1 gate V_neural_swiglu_split;
    op "nn.rms_normalize" 1 1 1 1 rms_unit V_neural_rms_normalize;
    op "tensor.add" 1 2 2 1 [] V_neural_binary;
    op "tensor.multiply" 1 2 2 1 [] V_neural_binary;
    op "tensor.indexed_rows" 1 2 2 1 [] V_neural_indexed_rows;
    op "tensor.partition_rows" 1 2 16 1 [] V_neural_indexed_rows;
    op "tensor.axis_rotary" 1 2 2 2 [] V_neural_axis_rotary;
    op "nn.sinusoidal_embedding" 1 1 1 1 sinusoidal V_neural_sinusoidal;
    op "nn.linear" 1 2 2 1 linear V_neural_linear;
    op "nn.linear_residual" 1 3 3 1 [] V_neural_linear_residual;
    op "nn.linear_bias" 1 3 3 1 [] V_neural_linear_bias;
    op "tensor.split_three" 1 1 1 3 [] V_neural_split_three;
    op "tensor.split_two" 1 1 1 2 [] V_neural_split_two;
    op "tensor.grid_bilinear" 1 1 1 1 grid V_neural_grid;
    op "tensor.grid_rotary" 1 0 0 2 grid_rotary V_neural_grid;
    op "nn.embedding" 1 2 2 1 [] V_neural_embedding;
    op "nn.rms_norm" 1 2 2 1 norm V_neural_norm;
    op "nn.rms_norm" 2 2 2 1 norm V_neural_norm;
    op "nn.weighted_rms" 1 2 2 1 group_norm V_neural_weighted_rms;
    op "nn.group_rms_norm" 1 2 2 1 group_norm V_neural_group_norm;
    op "nn.group_rms_norm" 2 2 2 1 group_norm V_neural_group_norm;
    op "tensor.rotary_half" 1 3 3 1 rotary V_neural_rotary_half;
    op "tensor.rotary_half_f32" 1 3 3 1 rotary V_neural_rotary_half;
    op "attention.full" 1 3 3 1 attention V_neural_attention;
    op "tensor.rotary_tables" 1 3 3 2 tables V_neural_rotary_tables;
    op "tensor.masked_rows" 1 3 3 1 masked V_neural_masked_rows;
    op "nn.layer_norm" 1 3 3 1 norm V_neural_norm;
    op "nn.layer_norm_unbiased" 1 2 2 1 norm V_neural_norm;
    op "mhc.head_norm" 1 5 5 2 mhc V_neural_mhc_head;
    op "mhc.residual_pre" 1 4 4 3 mhc_pre V_neural_mhc_pre;
    op "tensor.stream_mean" 1 1 1 1 [] V_neural_stream_mean;
    op "mhc.residual_post" 1 4 4 1 [] V_neural_mhc_post;
    op "nn.silu" 1 1 1 1 [] V_neural_unary;
    op "nn.gelu" 1 1 1 1 [] V_neural_unary;
    op "nn.gelu_tanh" 1 1 1 1 [] V_neural_unary;
    op "nn.silu_product" 1 2 2 1 [] V_neural_binary].
