(* ===== verification/IrModule.v ===== *)
(** * IrModule: bounded ownership and construction of IR modules

    Models [src/ir/module.c]: the admission of dialects, the module lifecycle
    ([open], [retain], [close]) and the five constructors through which every
    program is built.  Each constructor returns the module on every path.

    Allocation is an oracle: [alloc k] says whether the [k]-th allocation request
    of the call was granted.  [sizeof] values are those of the LP64 ABI. *)

From Stdlib Require Import ZArith Lia Bool.
From stdpp Require Import base list option numbers strings sets.
From S2P Require Import Prelude Core Sha256 Float64 IrData IrCore IrSequence IrNeural.

Definition allocator : Type := nat -> bool.
Definition after (n : nat) (alloc : allocator) : allocator := fun k => alloc (n + k)%nat.

Definition SIZEOF_ID : Z := 4.
Definition SIZEOF_DIMENSION : Z := 120.
Definition SIZEOF_TYPE : Z := 312.
Definition SIZEOF_VALUE : Z := 16.
Definition SIZEOF_ATTRIBUTE : Z := 200.
Definition SIZEOF_OPERATION : Z := 72.
Definition SIZEOF_BLOCK : Z := 32.
Definition SIZEOF_FUNCTION : Z := 120.

(** ** Field updates *)

Definition set_capacities (c : ir_capacities) (m : yvex_ir_module) : yvex_ir_module :=
  mk_module (m_references m) (m_name m) (m_source_identity m) (m_identity m) (m_dialects m)
    (m_dimensions m) (m_types m) (m_values m) (m_operations m) (m_blocks m) (m_functions m)
    c (m_storage_bytes m) (m_sealed m).
Definition set_references (n : Z) (m : yvex_ir_module) : yvex_ir_module :=
  mk_module n (m_name m) (m_source_identity m) (m_identity m) (m_dialects m)
    (m_dimensions m) (m_types m) (m_values m) (m_operations m) (m_blocks m) (m_functions m)
    (m_capacities m) (m_storage_bytes m) (m_sealed m).
Definition set_dimensions (l : list yvex_ir_dimension) (m : yvex_ir_module) : yvex_ir_module :=
  mk_module (m_references m) (m_name m) (m_source_identity m) (m_identity m) (m_dialects m)
    l (m_types m) (m_values m) (m_operations m) (m_blocks m) (m_functions m)
    (m_capacities m) (m_storage_bytes m) (m_sealed m).
Definition set_types (l : list yvex_ir_type) (m : yvex_ir_module) : yvex_ir_module :=
  mk_module (m_references m) (m_name m) (m_source_identity m) (m_identity m) (m_dialects m)
    (m_dimensions m) l (m_values m) (m_operations m) (m_blocks m) (m_functions m)
    (m_capacities m) (m_storage_bytes m) (m_sealed m).
Definition set_values (l : list yvex_ir_value) (m : yvex_ir_module) : yvex_ir_module :=
  mk_module (m_references m) (m_name m) (m_source_identity m) (m_identity m) (m_dialects m)
    (m_dimensions m) (m_types m) l (m_operations m) (m_blocks m) (m_functions m)
    (m_capacities m) (m_storage_bytes m) (m_sealed m).
Definition set_operations (l : list yvex_ir_operation) (m : yvex_ir_module) : yvex_ir_module :=
  mk_module (m_references m) (m_name m) (m_source_identity m) (m_identity m) (m_dialects m)
    (m_dimensions m) (m_types m) (m_values m) l (m_blocks m) (m_functions m)
    (m_capacities m) (m_storage_bytes m) (m_sealed m).
Definition set_blocks (l : list yvex_ir_block) (m : yvex_ir_module) : yvex_ir_module :=
  mk_module (m_references m) (m_name m) (m_source_identity m) (m_identity m) (m_dialects m)
    (m_dimensions m) (m_types m) (m_values m) (m_operations m) l (m_functions m)
    (m_capacities m) (m_storage_bytes m) (m_sealed m).
Definition set_functions (l : list yvex_ir_function) (m : yvex_ir_module) : yvex_ir_module :=
  mk_module (m_references m) (m_name m) (m_source_identity m) (m_identity m) (m_dialects m)
    (m_dimensions m) (m_types m) (m_values m) (m_operations m) (m_blocks m) l
    (m_capacities m) (m_storage_bytes m) (m_sealed m).
Definition add_storage (n : Z) (m : yvex_ir_module) : yvex_ir_module :=
  mk_module (m_references m) (m_name m) (m_source_identity m) (m_identity m) (m_dialects m)
    (m_dimensions m) (m_types m) (m_values m) (m_operations m) (m_blocks m) (m_functions m)
    (m_capacities m) (m_storage_bytes m + n) (m_sealed m).
Definition seal_with (identity : string) (m : yvex_ir_module) : yvex_ir_module :=
  mk_module (m_references m) (m_name m) (m_source_identity m) identity (m_dialects m)
    (m_dimensions m) (m_types m) (m_values m) (m_operations m) (m_blocks m) (m_functions m)
    (m_capacities m) (m_storage_bytes m) true.

Definition with_cap_dimensions (n : Z) (c : ir_capacities) : ir_capacities :=
  mk_capacities n (cap_types c) (cap_values c) (cap_operations c) (cap_blocks c) (cap_functions c).
Definition with_cap_types (n : Z) (c : ir_capacities) : ir_capacities :=
  mk_capacities (cap_dimensions c) n (cap_values c) (cap_operations c) (cap_blocks c)
    (cap_functions c).
Definition with_cap_values (n : Z) (c : ir_capacities) : ir_capacities :=
  mk_capacities (cap_dimensions c) (cap_types c) n (cap_operations c) (cap_blocks c)
    (cap_functions c).
Definition with_cap_operations (n : Z) (c : ir_capacities) : ir_capacities :=
  mk_capacities (cap_dimensions c) (cap_types c) (cap_values c) n (cap_blocks c)
    (cap_functions c).
Definition with_cap_blocks (n : Z) (c : ir_capacities) : ir_capacities :=
  mk_capacities (cap_dimensions c) (cap_types c) (cap_values c) (cap_operations c) n
    (cap_functions c).
Definition with_cap_functions (n : Z) (c : ir_capacities) : ir_capacities :=
  mk_capacities (cap_dimensions c) (cap_types c) (cap_values c) (cap_operations c) (cap_blocks c) n.

(** ** Storage growth *)

(** The doubling loop; counts are at most [IR_OBJECT_LIMIT], so 21 doublings of
    any nonzero capacity suffice. *)
Fixpoint reserve_grow (fuel : nat) (next count : Z) : Z :=
  match fuel with
  | O => next
  | S fuel => if next <? count then reserve_grow fuel (next * 2) count else next
  end.

Definition ir_reserve (granted : bool) (capacity count item : Z) : option Z :=
  if (IR_OBJECT_LIMIT <? count) || (item =? 0) then None
  else if count <=? capacity then Some capacity
  else
    let next := reserve_grow 21 (if capacity =? 0 then 16 else capacity) count in
    if SIZE_MAX / item <? next then None
    else if granted then Some next else None.

(** [ir_copy] of [count] items: whether a copy exists where one is needed. *)
Definition ir_copy (granted : bool) (count item : Z) : bool :=
  negb ((count =? 0) || (IR_OBJECT_LIMIT <? count) || (SIZE_MAX / item <? count)) && granted.

(** ** Dialect admission *)

(** The operations of a dialect list with their addresses. *)
Definition dialect_entries (d : yvex_ir_dialect)
    : list (operations_array * nat * yvex_ir_operation_definition) :=
  imap (fun i op => (dia_address d, i, op)) (dia_operations d).

Definition builtin_dialects : list yvex_ir_dialect :=
  [yvex_ir_core_dialect; yvex_ir_neural_dialect; yvex_ir_sequence_dialect].

Definition builtin_entries : list (operations_array * nat * yvex_ir_operation_definition) :=
  concat (dialect_entries <$> builtin_dialects).

(** The characters of a name up to and including its first dot. *)
Definition name_space (name : string) : option string :=
  match String.index 0 "." name with
  | Some n => Some (String.substring 0 (n + 1) name)
  | None => None
  end.

Fixpoint builtin_scan (address : operations_array) (index : nat)
    (op : yvex_ir_operation_definition) (reserved : bool)
    (l : list (operations_array * nat * yvex_ir_operation_definition)) : bool :=
  match l with
  | [] => negb reserved
  | (a, i, canonical) :: l =>
      if String.eqb (def_name op) (def_name canonical)
         && (def_version op =? def_version canonical)
      then bool_decide (address = a) && bool_decide (index = i)
      else
        let here := match name_space (def_name canonical) with
                    | Some prefix => String.prefix prefix (def_name op)
                    | None => false
                    end in
        builtin_scan address index op (reserved || here) l
  end.

Definition ir_builtin_definition_valid (address : operations_array) (index : nat)
    (op : yvex_ir_operation_definition) : bool :=
  builtin_scan address index op false builtin_entries.

(** The attribute rules of a definition: legal names and kinds, no duplicates. *)
Fixpoint rules_valid (seen rules : list yvex_ir_attribute_rule) : bool :=
  match rules with
  | [] => true
  | r :: rules =>
      yvex_ir_name_valid (rule_name r) false
      && negb ((rule_kind r <? YVEX_IR_ATTR_U64) || (YVEX_IR_ATTR_SYMBOL <? rule_kind r))
      && ((rule_required r =? 0) || (rule_required r =? 1))
      && negb (existsb (fun s => String.eqb (rule_name r) (rule_name s)) seen)
      && rules_valid (seen ++ [r]) rules
  end.

Definition definition_valid (op : yvex_ir_operation_definition) : bool :=
  yvex_ir_name_valid (def_name op) true && negb (def_version op =? 0)
  && bool_decide (is_Some (def_verify op))
  && negb (def_maximum_operands op <? def_minimum_operands op)
  && negb (def_maximum_results op <? def_minimum_results op)
  && negb (IR_OBJECT_LIMIT <? def_maximum_operands op)
  && negb (IR_OBJECT_LIMIT <? def_maximum_results op)
  && negb (2 <? def_regions op) && (Z.land (def_effects op) (Z.lnot IR_EFFECT_MASK) =? 0)
  && negb (256 <? zlen (def_attributes op))
  && ((def_terminator op =? 0) || (def_terminator op =? 1)).

Definition same_operation (a b : yvex_ir_operation_definition) : bool :=
  String.eqb (def_name a) (def_name b) && (def_version a =? def_version b).

Fixpoint entries_valid (seen : list yvex_ir_operation_definition)
    (l : list (operations_array * nat * yvex_ir_operation_definition)) : bool :=
  match l with
  | [] => true
  | (a, i, op) :: l =>
      definition_valid op && ir_builtin_definition_valid a i op
      && rules_valid [] (def_attributes op)
      && negb (existsb (same_operation op) seen)
      && entries_valid (seen ++ [op]) l
  end.

Definition ir_dialects_valid (dialects : list yvex_ir_dialect) : bool :=
  negb (zlen dialects =? 0) && negb (256 <? zlen dialects)
  && forallb (fun d => negb (zlen (dia_operations d) =? 0)
                       && negb (4096 <? zlen (dia_operations d))) dialects
  && entries_valid [] (concat (dialect_entries <$> dialects)).

(** ** Lifecycle *)

Definition yvex_ir_module_open (alloc : allocator) (name : string) (source_identity : string)
    (dialects : list yvex_ir_dialect) : outcome yvex_ir_module :=
  if negb (yvex_ir_name_valid name false)
     || negb (yvex_sha256_hex_valid (Some source_identity))
     || negb (ir_dialects_valid dialects)
  then Refuse YVEX_ERR_INVALID_ARG
         "module requires source identity and unique static operation contracts"
  else if negb (alloc 0%nat && alloc 1%nat)
  then Refuse YVEX_ERR_NOMEM "IR module allocation failed"
  else Done (mk_module 1 name source_identity "" dialects [] [] [] [] [] []
               (mk_capacities 0 0 0 0 0 0) 0 false).

(** The reference count after [close], and whether the last owner freed the module. *)
Definition yvex_ir_module_close (m : yvex_ir_module) : yvex_ir_module * bool :=
  (set_references (u32 (m_references m - 1)) m, m_references m =? 1).

Definition yvex_ir_module_retain (m : yvex_ir_module) : outcome yvex_ir_module :=
  if negb (m_sealed m)
  then Refuse YVEX_ERR_STATE "only immutable sealed programs may cross owner lifetimes"
  else if (m_references m =? 0) || (m_references m =? UINT_MAX)
  then Refuse YVEX_ERR_BOUNDS "program reference population overflow"
  else Done (set_references (m_references m + 1) m).

(** ** Constructors *)

Definition yvex_ir_dimension_add (alloc : allocator) (d : yvex_ir_dimension)
    : SO yvex_ir_module Z := fun m =>
  if m_sealed m || (IR_STORAGE_LIMIT - SIZEOF_DIMENSION <? m_storage_bytes m)
     || negb (yvex_ir_name_valid (dim_name d) false) || (dim_minimum d =? 0)
     || (dim_maximum d <? dim_minimum d) || (dim_multiple d =? 0)
     || negb (dim_minimum d mod dim_multiple d =? 0)
     || negb (dim_maximum d mod dim_multiple d =? 0)
  then (m, Refuse YVEX_ERR_INVALID_ARG "invalid admitted dimension bounds")
  else if existsb (fun e => String.eqb (dim_name e) (dim_name d)) (m_dimensions m)
  then (m, Refuse YVEX_ERR_FORMAT "dimension symbol is already defined")
  else
    match ir_reserve (alloc 0%nat) (cap_dimensions (m_capacities m)) (zlen (m_dimensions m) + 1)
            SIZEOF_DIMENSION with
    | None => (m, Refuse YVEX_ERR_NOMEM "IR dimension allocation failed")
    | Some cap =>
        (add_storage SIZEOF_DIMENSION
           (set_dimensions (m_dimensions m ++ [d])
              (set_capacities (with_cap_dimensions cap (m_capacities m)) m)),
         Done (zlen (m_dimensions m)))
    end.

Definition yvex_ir_type_intern (alloc : allocator) (t : yvex_ir_type)
    : SO yvex_ir_module Z := fun m =>
  if m_sealed m || negb (yvex_ir_type_valid m t)
     || (IR_STORAGE_LIMIT - SIZEOF_TYPE <? m_storage_bytes m)
  then (m, Refuse YVEX_ERR_FORMAT "invalid logical type or shape")
  else
    match find_index (yvex_ir_type_equal t) (m_types m) 0 with
    | Some index => (m, Done index)
    | None =>
        match ir_reserve (alloc 0%nat) (cap_types (m_capacities m)) (zlen (m_types m) + 1)
                SIZEOF_TYPE with
        | None => (m, Refuse YVEX_ERR_NOMEM "IR type allocation failed")
        | Some cap =>
            (add_storage SIZEOF_TYPE
               (set_types (m_types m ++ [t])
                  (set_capacities (with_cap_types cap (m_capacities m)) m)),
             Done (zlen (m_types m)))
        end
    end.

(** The recursion on [depth]; [fuel] is 65 minus the depth, so it is spent
    exactly when [depth > 64]. *)
Fixpoint ir_aggregate_value_valid (fuel : nat) (m : yvex_ir_module) (id : Z) : outcome bool :=
  match fuel with
  | O => Done false
  | S fuel =>
      type ← types_read m id;
      if negb (ty_kind type =? YVEX_IR_TUPLE) then Done (negb (ty_kind type =? YVEX_IR_STATE))
      else forallO (fun i => ir_aggregate_value_valid fuel m (member_at type i))
             (zseq (ty_member_count type))
  end.

Definition ir_types_present (m : yvex_ir_module) (types : list Z) : outcome bool :=
  if IR_OBJECT_LIMIT <? zlen types then Done false
  else forallO (fun id =>
    match zget (m_types m) id with
    | None => Done false
    | Some t => if ty_kind t =? YVEX_IR_TUPLE then ir_aggregate_value_valid 65 m id
                else Done true
    end) types.

(** Consecutive values appended by a definition. *)
Definition new_values (types : list Z) (block definition : Z) : list yvex_ir_value :=
  imap (fun i t => mk_value t block definition (Z.of_nat i)) types.
Definition new_ids (first : Z) (n : Z) : list Z := (fun i => first + i) <$> zseq n.

Definition ir_block_add (alloc : allocator) (function parent : Z) (types : list Z)
    : SO yvex_ir_module Z := fun m =>
  let count := zlen types in
  let bytes := SIZEOF_BLOCK + count * (SIZEOF_VALUE + SIZEOF_ID) in
  if u64 (IR_STORAGE_LIMIT - m_storage_bytes m) <? bytes
  then (m, Refuse YVEX_ERR_NOMEM "IR block exceeds storage budget")
  else if negb (count =? 0) && negb (alloc 0%nat)
  then (m, Refuse YVEX_ERR_NOMEM "IR block allocation failed")
  else
    match ir_reserve (alloc 1%nat) (cap_blocks (m_capacities m)) (zlen (m_blocks m) + 1)
            SIZEOF_BLOCK with
    | None => (m, Refuse YVEX_ERR_NOMEM "IR block allocation failed")
    | Some cap_b =>
        let m1 := set_capacities (with_cap_blocks cap_b (m_capacities m)) m in
        match ir_reserve (alloc 2%nat) (cap_values (m_capacities m1))
                (zlen (m_values m1) + count) SIZEOF_VALUE with
        | None => (m1, Refuse YVEX_ERR_NOMEM "IR block allocation failed")
        | Some cap_v =>
            let m2 := set_capacities (with_cap_values cap_v (m_capacities m1)) m1 in
            let id := zlen (m_blocks m2) in
            let block := mk_block function parent YVEX_IR_NONE YVEX_IR_NONE
                           (new_ids (zlen (m_values m2)) count) in
            (set_values (m_values m2 ++ new_values types id YVEX_IR_NONE)
               (add_storage bytes (set_blocks (m_blocks m2 ++ [block]) m2)),
             Done id)
        end
    end.

Definition yvex_ir_function_add (alloc : allocator) (symbol : string)
    (arguments results : list Z) (effects : Z) : SO yvex_ir_module Z := fun m =>
  let guard :=
    or_else (Done (m_sealed m || negb (yvex_ir_name_valid symbol false)
                   || negb (Z.land effects (Z.lnot IR_EFFECT_MASK) =? 0)))
      (a ← ir_types_present m arguments;
       if negb a then Done true else
       r ← ir_types_present m results;
       if negb r then Done true else
       Done (bool_decide (is_Some (yvex_ir_function_find m symbol)))) in
  match guard with
  | Fault f => (m, Fault f)
  | Refuse s r => (m, Refuse s r)
  | Done true => (m, Refuse YVEX_ERR_FORMAT "invalid or duplicate function signature")
  | Done false =>
      let results_bytes := zlen results * SIZEOF_ID in
      if u64 (IR_STORAGE_LIMIT - m_storage_bytes m)
         <? SIZEOF_FUNCTION + results_bytes + SIZEOF_BLOCK
            + zlen arguments * (SIZEOF_VALUE + SIZEOF_ID)
      then (m, Refuse YVEX_ERR_NOMEM "IR function exceeds storage budget")
      else if negb (zlen results =? 0) && negb (ir_copy (alloc 0%nat) (zlen results) SIZEOF_ID)
      then (m, Refuse YVEX_ERR_NOMEM "IR function allocation failed")
      else
        match ir_reserve (alloc 1%nat) (cap_functions (m_capacities m))
                (zlen (m_functions m) + 1) SIZEOF_FUNCTION with
        | None => (m, Refuse YVEX_ERR_NOMEM "IR function allocation failed")
        | Some cap =>
            let m1 := set_capacities (with_cap_functions cap (m_capacities m)) m in
            let id := zlen (m_functions m1) in
            (body ← ir_block_add (after 2 alloc) id YVEX_IR_NONE arguments;
             _ ← so_modify (fun m2 =>
                   add_storage (SIZEOF_FUNCTION + results_bytes)
                     (set_functions
                        (m_functions m2 ++ [mk_function symbol body results effects]) m2));
             mret id) m1
        end
  end.

(** The successor link of the previous last operation of a block. *)
Definition set_next (id : Z) (op : yvex_ir_operation) : yvex_ir_operation :=
  mk_operation (op_block op) id (op_definition op) (op_operands op) (op_results op)
    (op_regions op) (op_attributes op).
Definition set_regions (regions : list Z) (op : yvex_ir_operation) : yvex_ir_operation :=
  mk_operation (op_block op) (op_next op) (op_definition op) (op_operands op) (op_results op)
    regions (op_attributes op).
Definition set_first_last (first last : Z) (b : yvex_ir_block) : yvex_ir_block :=
  mk_block (b_function b) (b_parent_operation b) first last (b_arguments b).

Definition request_arity_valid (d : yvex_ir_operation_definition)
    (r : yvex_ir_operation_request) : bool :=
  negb ((zlen (req_operands r) <? def_minimum_operands d)
     || (def_maximum_operands d <? zlen (req_operands r))
     || (zlen (req_result_types r) <? def_minimum_results d)
     || (def_maximum_results d <? zlen (req_result_types r))
     || (zlen (def_attributes d) <? zlen (req_attributes r))).

(** Link operation [id] behind the last operation of its block. *)
Definition link_operation (block_id id : Z) (block : yvex_ir_block) (m : yvex_ir_module)
    : yvex_ir_module :=
  if b_last_operation block =? YVEX_IR_NONE
  then set_blocks (zset (m_blocks m) block_id (set_first_last id id block)) m
  else
    let operations :=
      match zget (m_operations m) (b_last_operation block) with
      | Some last => zset (m_operations m) (b_last_operation block) (set_next id last)
      | None => m_operations m
      end in
    set_blocks (zset (m_blocks m) block_id (set_first_last (b_first_operation block) id block))
      (set_operations operations m).

Definition yvex_ir_operation_add (alloc : allocator) (block_id : Z)
    (r : yvex_ir_operation_request) : SO yvex_ir_module Z := fun m =>
  let unknown := (m, Refuse YVEX_ERR_FORMAT "operation is unknown or has invalid arity/types") in
  if m_sealed m then unknown else
  match zget (m_blocks m) block_id, yvex_ir_definition_find m (req_operation r) (req_version r) with
  | Some block, Some d =>
      if negb (request_arity_valid d r) then unknown else
      match ir_types_present m (req_result_types r) with
      | Fault f => (m, Fault f)
      | Refuse s t => (m, Refuse s t)
      | Done false => unknown
      | Done true =>
          let bytes := SIZEOF_OPERATION + zlen (req_operands r) * SIZEOF_ID
            + zlen (req_result_types r) * (SIZEOF_ID + SIZEOF_VALUE)
            + zlen (req_attributes r) * SIZEOF_ATTRIBUTE in
          if u64 (IR_STORAGE_LIMIT - m_storage_bytes m) <? bytes
          then (m, Refuse YVEX_ERR_NOMEM "IR operation exceeds storage budget")
          else
          match (if b_last_operation block =? YVEX_IR_NONE then Done false
                 else last ← operations_read m (b_last_operation block);
                      Done (negb (def_terminator (op_definition last) =? 0))) with
          | Fault f => (m, Fault f)
          | Refuse s t => (m, Refuse s t)
          | Done true => (m, Refuse YVEX_ERR_FORMAT "operation cannot follow a block terminator")
          | Done false =>
              if negb (forallb (fun v => (0 <=? v) && (v <? zlen (m_values m))) (req_operands r))
              then (m, Refuse YVEX_ERR_FORMAT "operand has no definition")
              else if (negb (zlen (req_operands r) =? 0)
                        && negb (ir_copy (alloc 0%nat) (zlen (req_operands r)) SIZEOF_ID))
                   || (negb (zlen (req_attributes r) =? 0)
                        && negb (ir_copy (alloc 1%nat) (zlen (req_attributes r)) SIZEOF_ATTRIBUTE))
                   || (negb (zlen (req_result_types r) =? 0) && negb (alloc 2%nat))
              then (m, Refuse YVEX_ERR_NOMEM "IR operation allocation failed")
              else
              match ir_reserve (alloc 3%nat) (cap_operations (m_capacities m))
                      (zlen (m_operations m) + 1) SIZEOF_OPERATION with
              | None => (m, Refuse YVEX_ERR_NOMEM "IR operation allocation failed")
              | Some cap_o =>
                  let m1 := set_capacities (with_cap_operations cap_o (m_capacities m)) m in
                  match ir_reserve (alloc 4%nat) (cap_values (m_capacities m1))
                          (zlen (m_values m1) + zlen (req_result_types r)) SIZEOF_VALUE with
                  | None => (m1, Refuse YVEX_ERR_NOMEM "IR operation allocation failed")
                  | Some cap_v =>
                      let m2 := set_capacities (with_cap_values cap_v (m_capacities m1)) m1 in
                      let id := zlen (m_operations m2) in
                      let op := mk_operation block_id YVEX_IR_NONE d (req_operands r)
                        (new_ids (zlen (m_values m2)) (zlen (req_result_types r))) []
                        (req_attributes r) in
                      let m3 := add_storage bytes
                        (set_operations (m_operations m2 ++ [op])
                          (set_values (m_values m2 ++ new_values (req_result_types r) block_id id)
                             m2)) in
                      (link_operation block_id id block m3, Done id)
                  end
              end
          end
      end
  | _, _ => unknown
  end.

Definition yvex_ir_region_add (alloc : allocator) (operation : Z) (arguments : list Z)
    : SO yvex_ir_module Z := fun m =>
  let invalid := (m, Refuse YVEX_ERR_FORMAT "invalid region arguments or owner") in
  if m_sealed m then invalid else
  match zget (m_operations m) operation with
  | None => invalid
  | Some op =>
      match ir_types_present m arguments with
      | Fault f => (m, Fault f)
      | Refuse s t => (m, Refuse s t)
      | Done false => invalid
      | Done true =>
          if def_regions (op_definition op) <=? zlen (op_regions op)
          then (m, Refuse YVEX_ERR_FORMAT "operation region population exceeded")
          else if negb (alloc 0%nat)
          then (m, Refuse YVEX_ERR_NOMEM "IR region allocation failed")
          else
            match blocks_read m (op_block op) with
            | Fault f => (m, Fault f)
            | Refuse s t => (m, Refuse s t)
            | Done owner =>
                (body ← ir_block_add (after 1 alloc) (b_function owner) operation arguments;
                 _ ← so_modify (fun m2 =>
                       set_operations
                         (zset (m_operations m2) operation
                            (set_regions (op_regions op ++ [body]) op)) m2);
                 mret body) m
            end
      end
  end.
