(* ===== verification/IrInvariant.v ===== *)
(** * IrInvariant: the structural invariant of IR modules

    What the constructors of [IrModule] maintain, and the theorems that they do:
    admitted dimensions, canonical valid types, single ownership of every value,
    operation and block, operation chains that list exactly the operations of a
    block in creation order, and exact storage accounting below the budget.  A
    module that satisfies the invariant never drives a constructor into a
    fault, and a refused constructor leaves the program unchanged. *)

From Stdlib Require Import ZArith Lia Bool.
From stdpp Require Import base list option numbers strings sets.
From S2P Require Import Prelude Core Sha256 Float64 IrData IrCore IrSequence IrNeural IrModule.

(** ** The invariant *)

Definition dimension_wf (d : yvex_ir_dimension) : Prop :=
  yvex_ir_name_valid (dim_name d) false = true /\
  0 < dim_minimum d <= dim_maximum d /\ is_u64 (dim_maximum d) /\
  0 < dim_multiple d /\
  dim_minimum d mod dim_multiple d = 0 /\ dim_maximum d mod dim_multiple d = 0.

Record dimensions_wf (dims : list yvex_ir_dimension) : Prop := {
  dims_admitted : Forall dimension_wf dims;
  dims_distinct : NoDup (dim_name <$> dims)
}.

(** Aggregate members were interned before the aggregate. *)
Definition members_before (id : Z) (t : yvex_ir_type) : Prop :=
  (ty_kind t = YVEX_IR_TUPLE \/ ty_kind t = YVEX_IR_PROGRAM) ->
  forall k, 0 <= k < ty_member_count t -> 0 <= member_at t k < id.

Record types_wf (m : yvex_ir_module) : Prop := {
  types_valid : forall i t, zget (m_types m) i = Some t -> yvex_ir_type_valid m t = true;
  types_ranked : forall i t, zget (m_types m) i = Some t -> 0 <= ty_rank t;
  types_ordered : forall i t, zget (m_types m) i = Some t -> members_before i t;
  types_canonical : forall i j s t, zget (m_types m) i = Some s -> zget (m_types m) j = Some t ->
    yvex_ir_type_equal s t = true -> i = j
}.

(** A value is a block argument or an operation result, at its ordinal. *)
Definition value_owned (blocks : list yvex_ir_block) (ops : list yvex_ir_operation)
    (id : Z) (v : yvex_ir_value) : Prop :=
  if v_definition v =? YVEX_IR_NONE
  then exists b, zget blocks (v_block v) = Some b /\ zget (b_arguments b) (v_ordinal v) = Some id
  else exists op, zget ops (v_definition v) = Some op /\ op_block op = v_block v /\
         zget (op_results op) (v_ordinal v) = Some id.

Definition values_wf (m : yvex_ir_module) : Prop :=
  forall i v, zget (m_values m) i = Some v ->
    0 <= v_type v < zlen (m_types m) /\ value_owned (m_blocks m) (m_operations m) i v.

Record operation_wf (m : yvex_ir_module) (id : Z) (op : yvex_ir_operation) : Prop := {
  op_block_in : 0 <= op_block op < zlen (m_blocks m);
  op_admitted : op_definition op ∈ concat (dia_operations <$> m_dialects m);
  op_operands_arity :
    def_minimum_operands (op_definition op) <= zlen (op_operands op)
      <= def_maximum_operands (op_definition op);
  op_results_arity :
    def_minimum_results (op_definition op) <= zlen (op_results op)
      <= def_maximum_results (op_definition op);
  op_attributes_arity : zlen (op_attributes op) <= zlen (def_attributes (op_definition op));
  op_regions_arity : zlen (op_regions op) <= Z.max 0 (def_regions (op_definition op));
  op_operands_in : Forall (fun v => 0 <= v < zlen (m_values m)) (op_operands op);
  op_operands_older : Forall (fun v => Forall (fun r => v < r) (op_results op)) (op_operands op);
  op_results_owned : forall k r, zget (op_results op) k = Some r ->
    exists v, zget (m_values m) r = Some v /\ v_block v = op_block op /\
      v_definition v = id /\ v_ordinal v = k;
  op_regions_owned : forall k r, zget (op_regions op) k = Some r ->
    exists b owner, zget (m_blocks m) r = Some b /\ b_parent_operation b = id /\
      zget (m_blocks m) (op_block op) = Some owner /\ b_function b = b_function owner /\
      op_block op < r
}.

Definition operations_wf (m : yvex_ir_module) : Prop :=
  forall i op, zget (m_operations m) i = Some op -> operation_wf m i op.

(** [nf] bounds the functions a block may belong to: a function's body is
    appended before the function itself. *)
Record block_wf (nf : Z) (m : yvex_ir_module) (id : Z) (b : yvex_ir_block) : Prop := {
  b_function_in : 0 <= b_function b < nf;
  b_parent_in : b_parent_operation b = YVEX_IR_NONE \/
    exists op, zget (m_operations m) (b_parent_operation b) = Some op /\ id ∈ op_regions op;
  b_arguments_owned : forall k a, zget (b_arguments b) k = Some a ->
    exists v, zget (m_values m) a = Some v /\ v_block v = id /\
      v_definition v = YVEX_IR_NONE /\ v_ordinal v = k
}.

Definition blocks_wf (nf : Z) (m : yvex_ir_module) : Prop :=
  forall i b, zget (m_blocks m) i = Some b -> block_wf nf m i b.

Record functions_wf (m : yvex_ir_module) : Prop := {
  functions_bodies : forall i f, zget (m_functions m) i = Some f ->
    exists b, zget (m_blocks m) (f_body f) = Some b /\ b_function b = i /\
      b_parent_operation b = YVEX_IR_NONE;
  functions_results : forall i f, zget (m_functions m) i = Some f ->
    Forall (fun t => 0 <= t < zlen (m_types m)) (f_results f);
  functions_named : forall i f, zget (m_functions m) i = Some f ->
    yvex_ir_name_valid (f_symbol f) false = true;
  functions_distinct : NoDup (f_symbol <$> m_functions m)
}.

(** The operations of a block in creation order, and the linked chain that
    enumerates them. *)
Definition in_block (ops : list yvex_ir_operation) (b i : Z) : bool :=
  match zget ops i with Some op => op_block op =? b | None => false end.

Definition block_ops (ops : list yvex_ir_operation) (b : Z) : list Z :=
  List.filter (in_block ops b) (zseq (zlen ops)).

Inductive linked (ops : list yvex_ir_operation) : Z -> list Z -> Prop :=
  | linked_end : linked ops YVEX_IR_NONE []
  | linked_step i op l : zget ops i = Some op -> linked ops (op_next op) l ->
      linked ops i (i :: l).

Definition chain_wf (ops : list yvex_ir_operation) (id : Z) (b : yvex_ir_block) : Prop :=
  linked ops (b_first_operation b) (block_ops ops id) /\
  b_last_operation b = default YVEX_IR_NONE (last (block_ops ops id)).

Definition chains_wf (m : yvex_ir_module) : Prop :=
  forall i b, zget (m_blocks m) i = Some b -> chain_wf (m_operations m) i b.

(** ** Storage accounting *)

Definition total {A} (f : A -> Z) (l : list A) : Z := foldr (fun x acc => f x + acc) 0 l.

Arguments total : simpl never.

Definition operation_bytes (op : yvex_ir_operation) : Z :=
  SIZEOF_OPERATION + zlen (op_operands op) * SIZEOF_ID
  + zlen (op_results op) * (SIZEOF_ID + SIZEOF_VALUE)
  + zlen (op_attributes op) * SIZEOF_ATTRIBUTE.
Definition block_bytes (b : yvex_ir_block) : Z :=
  SIZEOF_BLOCK + zlen (b_arguments b) * (SIZEOF_VALUE + SIZEOF_ID).
Definition function_bytes (f : yvex_ir_function) : Z :=
  SIZEOF_FUNCTION + zlen (f_results f) * SIZEOF_ID.

Definition accounted_bytes (m : yvex_ir_module) : Z :=
  SIZEOF_DIMENSION * zlen (m_dimensions m) + SIZEOF_TYPE * zlen (m_types m)
  + total operation_bytes (m_operations m) + total block_bytes (m_blocks m)
  + total function_bytes (m_functions m).

Record storage_wf (m : yvex_ir_module) : Prop := {
  storage_exact : m_storage_bytes m = accounted_bytes m;
  storage_bounded : 0 <= m_storage_bytes m <= IR_STORAGE_LIMIT;
  storage_objects : zlen (m_dimensions m) <= IR_OBJECT_LIMIT /\ zlen (m_types m) <= IR_OBJECT_LIMIT
    /\ zlen (m_values m) <= IR_OBJECT_LIMIT /\ zlen (m_operations m) <= IR_OBJECT_LIMIT
    /\ zlen (m_blocks m) <= IR_OBJECT_LIMIT /\ zlen (m_functions m) <= IR_OBJECT_LIMIT
}.

Record module_wf_for (nf : Z) (m : yvex_ir_module) : Prop := {
  wf_dimensions : dimensions_wf (m_dimensions m);
  wf_types : types_wf m;
  wf_values : values_wf m;
  wf_operations : operations_wf m;
  wf_blocks : blocks_wf nf m;
  wf_functions : functions_wf m;
  wf_chains : chains_wf m;
  wf_storage : storage_wf m
}.

Definition module_wf (m : yvex_ir_module) : Prop := module_wf_for (zlen (m_functions m)) m.

(** ** The program a module denotes: everything but capacities and ownership *)

Definition same_program (m m' : yvex_ir_module) : Prop :=
  m_dialects m' = m_dialects m /\ m_dimensions m' = m_dimensions m /\ m_types m' = m_types m /\
  m_values m' = m_values m /\ m_operations m' = m_operations m /\ m_blocks m' = m_blocks m /\
  m_functions m' = m_functions m /\ m_storage_bytes m' = m_storage_bytes m /\
  m_sealed m' = m_sealed m.

(** * Theorems *)

(** ** Sums and index lists *)

Lemma total_app {A} (f : A -> Z) l k : total f (l ++ k) = total f l + total f k.
Proof. unfold total. induction l as [|x l IH]; cbn; [done|]. lia. Qed.

Lemma total_singleton {A} (f : A -> Z) x : total f [x] = f x.
Proof. unfold total. cbn. lia. Qed.

Lemma total_insert {A} (f : A -> Z) l n x y :
  l !! n = Some x -> f y = f x -> total f (<[n:=y]> l) = total f l.
Proof.
  revert n. induction l as [|z l IH]; intros [|n] Hn Hf; simplify_eq/=; unfold total in *; cbn; [lia|].
  all: unfold total in *; cbn; specialize (IH n Hn Hf) || idtac; lia.
Qed.

Lemma total_zset {A} (f : A -> Z) l i x y :
  zget l i = Some x -> f y = f x -> total f (zset l i y) = total f l.
Proof.
  intros Hx Hf. pose proof (zget_Some_range _ _ _ Hx). unfold zset.
  replace ((0 <=? i) && (i <? zlen l)) with true by lia.
  rewrite zget_lookup in Hx by done. by eapply total_insert.
Qed.

Lemma total_nonneg {A} (f : A -> Z) l : (forall x, 0 <= f x) -> 0 <= total f l.
Proof. unfold total. intros H. induction l as [|x l IH]; cbn; [done|]. specialize (H x). lia. Qed.

Lemma zseq_succ n : 0 <= n -> zseq (n + 1) = zseq n ++ [n].
Proof.
  intros H. unfold zseq. replace (Z.to_nat (n + 1)) with (S (Z.to_nat n)) by lia.
  rewrite seq_S, fmap_app. cbn. do 2 f_equal. lia.
Qed.

Lemma NoDup_zseq n : NoDup (zseq n).
Proof. unfold zseq. apply NoDup_fmap_2; [intros ?? ?; lia|]. apply NoDup_seq. Qed.

Lemma zget_new_values types b d k v :
  zget (new_values types b d) k = Some v ->
  exists t, zget types k = Some t /\ v = mk_value t b d k.
Proof.
  intros H. pose proof (zget_Some_range _ _ _ H). rewrite zget_lookup in H by done.
  unfold new_values in H. rewrite list_lookup_imap in H.
  destruct (types !! Z.to_nat k) as [t|] eqn:E; [|done]. simplify_eq/=.
  exists t. rewrite Z2Nat.id by lia. split; [|done].
  rewrite <- E. replace k with (Z.of_nat (Z.to_nat k)) at 1 by lia. apply zget_nat.
Qed.

Lemma zlen_new_values types b d : zlen (new_values types b d) = zlen types.
Proof. unfold zlen, new_values. by rewrite length_imap. Qed.

Lemma new_values_get types b d k t :
  zget types k = Some t -> zget (new_values types b d) k = Some (mk_value t b d k).
Proof.
  intros H. pose proof (zget_Some_range _ _ _ H).
  destruct (zget_in (new_values types b d) k) as [v Hv]; [by rewrite zlen_new_values|].
  destruct (zget_new_values _ _ _ _ _ Hv) as (t' & Ht' & ->). by simplify_eq.
Qed.

Lemma zlen_new_ids first n : 0 <= n -> zlen (new_ids first n) = n.
Proof. intros. unfold zlen, new_ids, zseq. rewrite !length_fmap, length_seq. lia. Qed.

Lemma zget_new_ids first n k : 0 <= k < n -> zget (new_ids first n) k = Some (first + k).
Proof.
  intros H. replace k with (Z.of_nat (Z.to_nat k)) at 1 by lia. rewrite zget_nat.
  unfold new_ids, zseq. rewrite !list_lookup_fmap, lookup_seq_lt by lia. cbn. f_equal. lia.
Qed.

Lemma zget_new_ids_inv first n k r :
  zget (new_ids first n) k = Some r -> 0 <= k < n /\ r = first + k.
Proof.
  intros H. pose proof (zget_Some_range _ _ _ H) as Hr.
  assert (0 <= n) by (destruct (decide (0 <= n)); [done|]; exfalso;
    unfold zlen, new_ids, zseq in Hr; rewrite !length_fmap, length_seq in Hr; lia).
  rewrite zlen_new_ids in Hr by done. rewrite zget_new_ids in H by done. by simplify_eq.
Qed.

Lemma elem_of_new_ids first n r : r ∈ new_ids first n -> first <= r < first + n.
Proof. unfold new_ids. intros (i & -> & Hi%elem_of_zseq)%list_elem_of_fmap. lia. Qed.

#[export] Hint Rewrite zlen_new_values : zlen.

(** ** Capacity growth *)

Lemma reserve_grow_bound n next count :
  0 < next -> count <= next * 2 ^ Z.of_nat n ->
  count <= reserve_grow n next count /\ next <= reserve_grow n next count
  /\ (reserve_grow n next count < 2 * count \/ reserve_grow n next count = next).
Proof.
  revert next. induction n as [|n IH]; intros next Hn Hc; cbn [reserve_grow].
  { rewrite Z.mul_1_r in Hc. lia. }
  destruct (next <? count) eqn:?; [|lia].
  destruct (IH (next * 2)) as (? & ? & ?); [lia| |lia].
  rewrite Nat2Z.inj_succ, Z.pow_succ_r in Hc by lia. lia.
Qed.

(** The capacity returned by the growth routine holds the requested count,
    never shrinks the array and never exceeds what the object limit allows, so
    the byte size of the reallocation cannot overflow; a refusal means that the
    object limit or the allocator refused the request. *)
Theorem ir_reserve_spec granted capacity count item :
  0 <= capacity <= 2 * IR_OBJECT_LIMIT -> 0 < item <= 4096 ->
  match ir_reserve granted capacity count item with
  | Some next => count <= next /\ capacity <= next <= 2 * IR_OBJECT_LIMIT /\
      next * item <= SIZE_MAX
  | None => IR_OBJECT_LIMIT < count \/ granted = false
  end.
Proof.
  unfold ir_reserve, IR_OBJECT_LIMIT, SIZE_MAX, UINT64_MAX. intros Hc Hi.
  destruct (1048576 <? count) eqn:?; cbn [orb]; [left; lia|].
  replace (item =? 0) with false by lia.
  destruct (count <=? capacity) eqn:?; [repeat split; nia|].
  set (c0 := if capacity =? 0 then 16 else capacity).
  assert (0 < c0 /\ capacity <= c0 /\ c0 <= Z.max 16 capacity) as (? & ? & ?)
    by (subst c0; destruct (capacity =? 0) eqn:?; lia).
  pose proof (reserve_grow_bound 21 c0 count) as Hg.
  destruct Hg as (? & ? & ?); [lia| |].
  { change (2 ^ Z.of_nat 21) with 2097152. lia. }
  assert (18446744073709551615 / item <? reserve_grow 21 c0 count = false) as ->.
  { apply Z.ltb_ge. apply Z.div_le_lower_bound; [lia|]. nia. }
  destruct granted; [|by right]. repeat split; nia.
Qed.

Lemma ir_reserve_count granted capacity count item next :
  ir_reserve granted capacity count item = Some next -> count <= IR_OBJECT_LIMIT.
Proof. unfold ir_reserve. destruct (_ <? count) eqn:?; cbn [orb]; [done|lia]. Qed.

(** ** Operation chains *)

Section Chains.
  Implicit Types (ops : list yvex_ir_operation) (l : list Z).

Lemma elem_of_block_ops ops b i :
    i ∈ block_ops ops b <-> exists op, zget ops i = Some op /\ op_block op = b.
  Proof.
    unfold block_ops. rewrite list_elem_of_In, List.filter_In, <- list_elem_of_In, elem_of_zseq.
    unfold in_block. split.
    - intros [_ H]. destruct (zget ops i) as [op|]; [|done]. exists op. split; [done|]. lia.
    - intros (op & Hop & <-). split; [by eapply zget_Some_range|]. rewrite Hop. lia.
  Qed.

Lemma NoDup_block_ops ops b : NoDup (block_ops ops b).
  Proof. unfold block_ops. apply NoDup_ListNoDup, List.NoDup_filter, NoDup_ListNoDup, NoDup_zseq. Qed.

Lemma filter_ext_in {A} (f g : A -> bool) (k : list A) :
    (forall x, x ∈ k -> f x = g x) -> List.filter f k = List.filter g k.
  Proof. intros H. apply List.filter_ext_in. intros x Hx. apply H. by apply list_elem_of_In. Qed.

Lemma block_ops_snoc ops op b :
    block_ops (ops ++ [op]) b = block_ops ops b ++ (if op_block op =? b then [zlen ops] else []).
  Proof.
    unfold block_ops. autorewrite with zlen. rewrite Z.add_0_l, zseq_succ by apply zlen_nonneg.
    rewrite List.filter_app. f_equal.
    - apply filter_ext_in. intros i Hi%elem_of_zseq. unfold in_block.
      by rewrite zget_app_l by lia.
    - cbn. unfold in_block. rewrite zget_snoc_eq. done.
  Qed.

  (** The list of a block's operations ignores every field but the owner. *)
Lemma block_ops_zset ops i op op' b :
    zget ops i = Some op -> op_block op' = op_block op ->
    block_ops (zset ops i op') b = block_ops ops b.
  Proof.
    intros Hi Hb. unfold block_ops. rewrite zlen_zset. apply filter_ext_in. intros j _.
    unfold in_block. destruct (decide (i = j)) as [->|Hne].
    - rewrite zget_zset_eq by (by eapply zget_Some_range). by rewrite Hi, Hb.
    - by rewrite zget_zset_ne.
  Qed.

Lemma linked_ext ops ops' i l :
    (forall j op, j ∈ l -> zget ops j = Some op ->
       exists op', zget ops' j = Some op' /\ op_next op' = op_next op) ->
    linked ops i l -> linked ops' i l.
  Proof.
    intros H Hl. induction Hl as [|i op l Hop Hl IH]; [constructor|].
    destruct (H i op) as (op' & Hop' & Hn); [set_solver|done|].
    econstructor; [done|]. rewrite Hn. apply IH. intros j opj Hj. apply H. set_solver.
  Qed.

Lemma linked_snoc ops ops' i l j opj id op :
    linked ops i (l ++ [j]) -> NoDup (l ++ [j]) -> zget ops j = Some opj ->
    zget ops' j = Some (set_next id opj) ->
    (forall k, k ∈ l -> zget ops' k = zget ops k) ->
    zget ops' id = Some op -> op_next op = YVEX_IR_NONE ->
    linked ops' i (l ++ [j; id]).
  Proof.
    revert i. induction l as [|k l IH]; intros i Hl Hnd Hj Hj' Hk Hid Hn.
    - cbn in *. inversion Hl; subst. econstructor; [done|]. cbn.
      econstructor; [done|]. rewrite Hn. constructor.
    - cbn in *. inversion Hl as [|? op' ? Hop' Hl']; subst.
      econstructor; [rewrite Hk by set_solver; done|].
      apply IH; [done| |done|done| |done|done].
      + by apply NoDup_cons in Hnd as [_ Hnd].
      + intros k' Hk'. apply Hk. set_solver.
  Qed.

Lemma linked_None ops l : ~ (0 <= YVEX_IR_NONE < zlen ops) -> linked ops YVEX_IR_NONE l -> l = [].
  Proof.
    intros Hn H. inversion H as [|? op ? Hop]; subst; [done|].
    by apply zget_Some_range in Hop.
  Qed.

Lemma linked_last_next ops i l j op :
    linked ops i (l ++ [j]) -> zget ops j = Some op -> ~ (0 <= YVEX_IR_NONE < zlen ops) ->
    op_next op = YVEX_IR_NONE.
  Proof.
    revert i. induction l as [|k l IH]; intros i Hl Hj Hn; cbn in *; inversion Hl; subst.
    - simplify_eq. match goal with H : linked _ _ [] |- _ => by inversion H end.
    - eauto.
  Qed.
End Chains.

(** ** Types under growth *)

Section Types.
  Implicit Types (m : yvex_ir_module) (t : yvex_ir_type).

  (** Dimensions and types are only appended. *)
Definition types_extend m m' : Prop :=
    m_dimensions m `prefix_of` m_dimensions m' /\ m_types m `prefix_of` m_types m'.

Lemma zget_prefix {A} (l k : list A) i x : l `prefix_of` k -> zget l i = Some x -> zget k i = Some x.
  Proof. intros [r ->] H. by apply zget_app_Some. Qed.

Lemma zlen_prefix {A} (l k : list A) : l `prefix_of` k -> zlen l <= zlen k.
  Proof. intros [r ->]. rewrite zlen_app. pose proof (zlen_nonneg r). lia. Qed.

Lemma type_extent_step_mono m m' t e i r :
    types_extend m m' -> type_extent_step m t e i = Some r -> type_extent_step m' t e i = Some r.
  Proof.
    intros [Hd _]. unfold type_extent_step. destruct e as [e|]; [|done].
    destruct (ext_symbol (shape_at t i) =? YVEX_IR_NONE); [done|].
    destruct (zget (m_dimensions m) _) as [d|] eqn:E; [|done].
    by rewrite (zget_prefix _ _ _ _ Hd E).
  Qed.

Lemma type_extents_None m t l : foldl (type_extent_step m t) None l = None.
  Proof. induction l; [done|]. by cbn. Qed.

Lemma type_extents_mono m m' t e l r :
    types_extend m m' -> foldl (type_extent_step m t) e l = Some r ->
    foldl (type_extent_step m' t) e l = Some r.
  Proof.
    intros Hx. revert e. induction l as [|i l IH]; intros e H; [done|]. cbn in *.
    destruct (type_extent_step m t e i) as [e'|] eqn:E; [|by rewrite type_extents_None in H].
    rewrite (type_extent_step_mono _ _ _ _ _ _ Hx E). by apply IH.
  Qed.

Lemma type_valid_mono m m' t :
    types_extend m m' -> yvex_ir_type_valid m t = true -> yvex_ir_type_valid m' t = true.
  Proof.
    intros Hx H. unfold yvex_ir_type_valid in *.
    destruct (_ || _ || _ || _ || _); [done|].
    destruct (_ || _) eqn:Hk.
    - destruct (_ || _ || _) in *; [done|]. apply andb_true_iff in H as [H ->].
      rewrite andb_true_r. rewrite forallb_forall in *. intros i Hi. specialize (H i Hi).
      destruct (zget (m_types m) _) as [s|] eqn:E; [|done].
      destruct Hx as [_ Ht]. by rewrite (zget_prefix _ _ _ _ Ht E).
    - destruct (_ || _ || _ || _ || _) in *; [done|].
      destruct (foldl (type_extent_step m t) _ _) as [r|] eqn:E; [|done].
      by rewrite (type_extents_mono _ _ _ _ _ _ Hx E).
  Qed.

Lemma type_valid_members m t k :
    yvex_ir_type_valid m t = true ->
    (ty_kind t = YVEX_IR_TUPLE \/ ty_kind t = YVEX_IR_PROGRAM) ->
    0 <= k < ty_member_count t -> 0 <= member_at t k < zlen (m_types m).
  Proof.
    intros H Hk Hr. unfold yvex_ir_type_valid in H.
    destruct (_ || _ || _ || _ || _); [done|].
    replace ((ty_kind t =? YVEX_IR_TUPLE) || (ty_kind t =? YVEX_IR_PROGRAM)) with true in H by lia.
    destruct (_ || _ || _) in H; [done|]. apply andb_true_iff in H as [H _].
    pose proof (zseq_forallb _ _ H k Hr) as Hm. cbn beta in Hm.
    destruct (zget (m_types m) (member_at t k)) as [s|] eqn:E; [|done].
    by eapply zget_Some_range.
  Qed.

  (** The invariant on types is all that type reachability needs. *)
Lemma aggregate_no_fault m fuel id :
    types_wf m -> 0 <= id < zlen (m_types m) -> no_fault (ir_aggregate_value_valid fuel m id).
  Proof.
    intros Hw. revert id. induction fuel as [|fuel IH]; intros id Hid; cbn; [done|].
    apply no_fault_bind; [by apply no_fault_read_at|]. intros t Ht%read_at_Done.
    destruct (ty_kind t =? YVEX_IR_TUPLE) eqn:Hk; cbn; [|done].
    apply no_fault_forallO. intros k Hr%elem_of_zseq. apply IH.
    apply type_valid_members; [by eapply types_valid| |done]. left. lia.
  Qed.

Lemma types_present_no_fault m l : types_wf m -> no_fault (ir_types_present m l).
  Proof.
    intros Hw. unfold ir_types_present. destruct (_ <? _); [done|].
    apply no_fault_forallO. intros id _. destruct (zget (m_types m) id) as [t|] eqn:E; [|done].
    destruct (_ =? _); [|done]. apply aggregate_no_fault; [done|]. by eapply zget_Some_range.
  Qed.

Lemma types_present_In m l : ir_types_present m l = Done true ->
    Forall (fun id => 0 <= id < zlen (m_types m)) l.
  Proof.
    unfold ir_types_present. destruct (_ <? _); [done|]. rewrite forallO_true.
    intros Hl. eapply Forall_impl; [exact Hl|]. cbn. intros id H. destruct (zget (m_types m) id) as [t|] eqn:E; [|done].
    by eapply zget_Some_range.
  Qed.

Lemma types_present_count m l : ir_types_present m l = Done true -> zlen l <= IR_OBJECT_LIMIT.
  Proof. unfold ir_types_present. destruct (_ <? zlen l) eqn:?; [done|]. lia. Qed.

  (** Structural equality is reflexive on terminated types and symmetric. *)
Lemma type_equal_sym s t : yvex_ir_type_equal s t = yvex_ir_type_equal t s.
  Proof.
    cut (forall a b, yvex_ir_type_equal a b = true -> yvex_ir_type_equal b a = true).
    { intros H. destruct (yvex_ir_type_equal s t) eqn:E1, (yvex_ir_type_equal t s) eqn:E2;
        try done; [apply H in E1|apply H in E2]; congruence. }
    intros a b H. unfold yvex_ir_type_equal in *. bool_hyps.
    repeat match goal with
    | H : negb _ = _ |- _ => apply negb_false_iff in H
    | H : (_ =? _) = true |- _ => apply Z.eqb_eq in H
    | H : String.eqb _ _ = true |- _ => apply String.eqb_eq in H
    end.
    repeat match goal with
    | H : ?f a = ?f b |- _ => progress rewrite <- ?H
    end.
    rewrite !Z.eqb_refl, String.eqb_refl.
    repeat match goal with
    | H : ?x = false |- context [?x] => rewrite H
    end.
    cbn [orb negb andb].
    apply andb_true_iff. split; apply forallb_forall.
    - intros i Hi. match goal with H : forallb _ (zseq (ty_rank a)) = true |- _ =>
        rewrite forallb_forall in H; specialize (H i Hi) end.
      unfold yvex_ir_extent_equal in *. lia.
    - intros i Hi. match goal with H : forallb _ (zseq (ty_member_count a)) = true |- _ =>
        rewrite forallb_forall in H; specialize (H i Hi) end. lia.
  Qed.

Lemma type_equal_refl t :
    ty_rank t <= YVEX_IR_RANK_CAP -> ty_member_count t <= YVEX_IR_AGGREGATE_CAP ->
    text_unterminated (ty_domain t) = false -> yvex_ir_type_equal t t = true.
  Proof.
    intros Hr Hm Hd. unfold yvex_ir_type_equal. rewrite Hd, !Z.eqb_refl, String.eqb_refl.
    replace (YVEX_IR_RANK_CAP <? ty_rank t) with false by lia.
    replace (YVEX_IR_AGGREGATE_CAP <? ty_member_count t) with false by lia. cbn.
    apply andb_true_iff. split; apply forallb_forall; intros i _;
      unfold yvex_ir_extent_equal; lia.
  Qed.

Lemma type_valid_equal_refl m t : yvex_ir_type_valid m t = true -> yvex_ir_type_equal t t = true.
  Proof.
    intros H. unfold yvex_ir_type_valid in H. destruct (_ || _ || _ || _ || _) eqn:E in H; [done|].
    bool_hyps. apply type_equal_refl; [lia..|done].
  Qed.
End Types.

(** ** Growth preserves what older objects rely on *)

Definition block_static (b b' : yvex_ir_block) : Prop :=
  b_function b' = b_function b /\ b_parent_operation b' = b_parent_operation b /\
  b_arguments b' = b_arguments b.

Definition operation_static (op op' : yvex_ir_operation) : Prop :=
  op_block op' = op_block op /\ op_definition op' = op_definition op /\
  op_operands op' = op_operands op /\ op_results op' = op_results op /\
  op_attributes op' = op_attributes op.

Record grows (m m' : yvex_ir_module) : Prop := {
  grows_dialects : m_dialects m' = m_dialects m;
  grows_types : types_extend m m';
  grows_values : forall i v, zget (m_values m) i = Some v -> zget (m_values m') i = Some v;
  grows_blocks : forall i b, zget (m_blocks m) i = Some b ->
    exists b', zget (m_blocks m') i = Some b' /\ block_static b b';
  grows_operations : forall i op, zget (m_operations m) i = Some op ->
    exists op', zget (m_operations m') i = Some op' /\ operation_static op op' /\
      op_regions op `prefix_of` op_regions op'
}.

Lemma grows_range {A} (l l' : list A) (R : A -> A -> Prop) i :
  (forall i x, zget l i = Some x -> exists x', zget l' i = Some x' /\ R x x') ->
  0 <= i < zlen l -> 0 <= i < zlen l'.
Proof.
  intros H Hi. destruct (zget_in l i Hi) as [x Hx].
  destruct (H i x Hx) as (x' & Hx' & _). by eapply zget_Some_range.
Qed.

Section Growth.
  Context {m m' : yvex_ir_module} (G : grows m m').

Lemma grows_value_in i : 0 <= i < zlen (m_values m) -> 0 <= i < zlen (m_values m').
  Proof.
    apply (grows_range _ _ eq). intros j v Hv. exists v. split; [|done]. by apply (grows_values _ _ G).
  Qed.

Lemma grows_block_in i : 0 <= i < zlen (m_blocks m) -> 0 <= i < zlen (m_blocks m').
  Proof. apply (grows_range _ _ block_static). apply (grows_blocks _ _ G). Qed.

Lemma grows_type_in i : 0 <= i < zlen (m_types m) -> 0 <= i < zlen (m_types m').
  Proof. intros H. pose proof (zlen_prefix _ _ (proj2 (grows_types _ _ G))). lia. Qed.

Lemma value_owned_grows i v :
    value_owned (m_blocks m) (m_operations m) i v -> value_owned (m_blocks m') (m_operations m') i v.
  Proof.
    unfold value_owned. destruct (_ =? _).
    - intros (b & Hb & Ha). destruct (grows_blocks _ _ G _ _ Hb) as (b' & ? & ? & ? & Hargs).
      exists b'. by rewrite Hargs.
    - intros (op & Hop & ? & Hr).
      destruct (grows_operations _ _ G _ _ Hop) as (op' & ? & (Hb & _ & _ & Hres & _) & _).
      exists op'. rewrite Hb, Hres. done.
  Qed.

Lemma values_wf_old i v :
    values_wf m -> zget (m_values m) i = Some v ->
    0 <= v_type v < zlen (m_types m') /\ value_owned (m_blocks m') (m_operations m') i v.
  Proof.
    intros Hw Hv. destruct (Hw i v Hv) as [Ht Ho].
    split; [by apply grows_type_in|by apply value_owned_grows].
  Qed.

Lemma operation_wf_old i op op' :
    operation_wf m i op -> operation_static op op' -> op_regions op' = op_regions op ->
    operation_wf m' i op'.
  Proof.
    intros [] (Hb & Hd & Ho & Hr & Ha) Hreg. constructor; rewrite ?Hb, ?Hd, ?Ho, ?Hr, ?Hreg, ?Ha; try done.
    - by apply grows_block_in.
    - by rewrite (grows_dialects _ _ G).
    - eapply Forall_impl; [exact op_operands_in0|]. intros v. apply grows_value_in.
    - intros k r Hk. destruct (op_results_owned0 k r Hk) as (v & Hv & ?).
      exists v. split; [|done]. by apply (grows_values _ _ G).
    - intros k r Hk. destruct (op_regions_owned0 k r Hk) as (b & w & Hr' & ? & Hw & ? & ?).
      destruct (grows_blocks _ _ G _ _ Hr') as (b' & ? & Hf & Hp & _).
      destruct (grows_blocks _ _ G _ _ Hw) as (w' & ? & Hf' & _).
      exists b', w'. rewrite Hf, Hf', Hp. done.
  Qed.

Lemma block_wf_old nf nf' i b b' :
    block_wf nf m i b -> block_static b b' -> nf <= nf' -> block_wf nf' m' i b'.
  Proof.
    intros [Hfn Hp Ha] (Hf & Hpar & Hargs) Hn. constructor; rewrite ?Hf, ?Hpar, ?Hargs.
    - lia.
    - destruct Hp as [Hp|(op & Hop & Hin)]; [by left|right].
      destruct (grows_operations _ _ G _ _ Hop) as (op' & ? & _ & [k Hk]).
      exists op'. split; [done|]. rewrite Hk. set_solver.
    - intros k a Hk. destruct (Ha k a Hk) as (v & Hv & ?).
      exists v. split; [|done]. by apply (grows_values _ _ G).
  Qed.

Lemma function_body_old i f :
    functions_wf m -> zget (m_functions m) i = Some f ->
    (exists b, zget (m_blocks m') (f_body f) = Some b /\ b_function b = i /\
      b_parent_operation b = YVEX_IR_NONE) /\
    Forall (fun t => 0 <= t < zlen (m_types m')) (f_results f).
  Proof.
    intros [Hb Hr _ _] Hf. split.
    - destruct (Hb i f Hf) as (b & Hb' & ? & ?).
      destruct (grows_blocks _ _ G _ _ Hb') as (b' & ? & Hfn & Hp & _).
      exists b'. rewrite Hfn, Hp. done.
    - eapply Forall_impl; [by eapply Hr|]. intros t. apply grows_type_in.
  Qed.

Lemma types_wf_old :
    types_wf m -> m_types m' = m_types m -> types_wf m'.
  Proof.
    intros [Hv Hk Ho Hc] Heq. constructor; rewrite Heq; [|done..].
    intros i t Ht. eapply type_valid_mono; [apply (grows_types _ _ G)|]. by eapply Hv.
  Qed.
End Growth.

Lemma types_extend_refl m m' :
  m_dimensions m' = m_dimensions m -> m_types m' = m_types m -> types_extend m m'.
Proof. intros H1 H2. split; by rewrite ?H1, ?H2. Qed.

Lemma block_static_refl b : block_static b b.
Proof. done. Qed.
Lemma operation_static_refl op : operation_static op op.
Proof. done. Qed.
#[export] Hint Resolve block_static_refl operation_static_refl : yvex.

(** ** Constructors *)

(** What every constructor guarantees on every path: the invariant, growth, no
    fault, and an unchanged program when the call is refused. *)
Definition constructor_post (m : yvex_ir_module) (r : yvex_ir_module * outcome Z) : Prop :=
  module_wf r.1 /\ grows m r.1 /\
  match r.2 with
  | Done _ => m_sealed r.1 = m_sealed m
  | Refuse _ _ => same_program m r.1
  | Fault _ => False
  end.

Lemma same_program_refl m : same_program m m.
Proof. by repeat split. Qed.

Lemma same_program_capacities c m : same_program m (set_capacities c m).
Proof. by repeat split. Qed.

Lemma same_program_grows m m' : same_program m m' -> grows m m'.
Proof.
  intros (Hdia & Hd & Ht & Hv & Ho & Hb & _). constructor.
  - done.
  - by apply types_extend_refl.
  - by rewrite Hv.
  - rewrite Hb. eauto with yvex.
  - rewrite Ho. eauto with yvex.
Qed.

Lemma module_wf_same_program nf m m' : same_program m m' -> module_wf_for nf m -> module_wf_for nf m'.
Proof.
  intros Hs Hw. pose proof (same_program_grows _ _ Hs) as G.
  destruct Hs as (Hdia & Hd & Ht & Hv & Ho & Hb & Hf & Hst & _), Hw. constructor.
  - by rewrite Hd.
  - by apply (types_wf_old G).
  - intros i v. rewrite Hv. intros H. by apply (values_wf_old G).
  - intros i op. rewrite Ho. intros H. apply (operation_wf_old G i op); auto with yvex.
  - intros i b. rewrite Hb. intros H. apply (block_wf_old G nf nf i b); auto with yvex. lia.
  - destruct wf_functions0. constructor; rewrite ?Hf, ?Hb, ?Ht; done.
  - intros i b. rewrite Hb, Ho. apply wf_chains0.
  - destruct wf_storage0. unfold accounted_bytes in *.
    constructor; unfold accounted_bytes; rewrite ?Hst, ?Hd, ?Ht, ?Hv, ?Ho, ?Hb, ?Hf; done.
Qed.

Lemma constructor_post_refuse m m' s r :
  module_wf m -> same_program m m' -> constructor_post m (m', Refuse s r).
Proof.
  intros Hw Hs. split; [|split]; cbn; [|by apply same_program_grows|done].
  unfold module_wf. replace (m_functions m') with (m_functions m) by (symmetry; apply Hs).
  by eapply module_wf_same_program.
Qed.
#[export] Hint Resolve same_program_refl same_program_capacities : yvex.

(** Refused branches close by this tactic. *)
Ltac refused := apply constructor_post_refuse; [assumption|auto with yvex].

Definition added_block (function parent : Z) (types : list Z) (m : yvex_ir_module) : yvex_ir_block :=
  mk_block function parent YVEX_IR_NONE YVEX_IR_NONE (new_ids (zlen (m_values m)) (zlen types)).

Definition block_added (c : ir_capacities) (function parent : Z) (types : list Z)
    (m : yvex_ir_module) : yvex_ir_module :=
  set_values (m_values m ++ new_values types (zlen (m_blocks m)) YVEX_IR_NONE)
    (add_storage (block_bytes (added_block function parent types m))
      (set_blocks (m_blocks m ++ [added_block function parent types m]) (set_capacities c m))).

Lemma block_bytes_added function parent types m :
  block_bytes (added_block function parent types m) = 32 + zlen types * 20.
Proof. unfold block_bytes. cbn. by rewrite zlen_new_ids by apply zlen_nonneg. Qed.
Lemma function_bytes_mk symbol body results effects :
  function_bytes (mk_function symbol body results effects) = 120 + zlen results * 4.
Proof. done. Qed.
Lemma operation_bytes_mk block next d operands results regions attributes :
  operation_bytes (mk_operation block next d operands results regions attributes)
  = 72 + zlen operands * 4 + zlen results * 20 + zlen attributes * 200.
Proof. done. Qed.

(** The storage clause: sizes are literals, so the sums are linear. *)
Ltac accounting Hs :=
  let Hx := fresh in let Hbd := fresh in let Hob := fresh in
  destruct Hs as [Hx Hbd Hob]; unfold accounted_bytes in *;
  constructor; unfold accounted_bytes in *; cbn; autorewrite with zlen in *;
  rewrite ?total_app, ?total_singleton in *;
  rewrite ?block_bytes_added, ?function_bytes_mk, ?operation_bytes_mk in *;
  cbv [SIZEOF_ID SIZEOF_DIMENSION SIZEOF_TYPE SIZEOF_VALUE SIZEOF_ATTRIBUTE SIZEOF_OPERATION
    SIZEOF_BLOCK SIZEOF_FUNCTION IR_STORAGE_LIMIT IR_OBJECT_LIMIT] in *;
  repeat split; lia.

Lemma dimension_add_post alloc d m :
  module_wf m -> is_u64 (dim_minimum d) -> is_u64 (dim_maximum d) -> is_u64 (dim_multiple d) ->
  constructor_post m (yvex_ir_dimension_add alloc d m).
Proof.
  intros Hw Hmin Hmax Hmul. unfold yvex_ir_dimension_add.
  destruct (_ || _) eqn:Hg; [refused|].
  destruct (existsb _ _) eqn:He; [refused|].
  destruct (ir_reserve _ _ _ _) as [cap|] eqn:Hr; [|refused].
  apply ir_reserve_count in Hr. bool_hyps.
  set (m' := add_storage _ _).
  assert (grows m m') as G.
  { constructor; cbn; eauto with yvex. split; cbn; [by eexists|done]. }
  split; [|by split]. destruct Hw as [[Hda Hdd] Ht Hv Ho Hb Hf Hc Hs]. constructor; cbn.
  - constructor.
    + apply Forall_app. split; [done|]. apply Forall_singleton. unfold dimension_wf, is_u64 in *.
      repeat split; try done; lia.
    + rewrite fmap_app. apply NoDup_app. repeat split; [done| |apply NoDup_singleton].
      intros n Hn Hn'. apply list_elem_of_singleton in Hn' as ->.
      apply list_elem_of_fmap in Hn as (e & Heq & Hin).
      enough (existsb (fun e => String.eqb (dim_name e) (dim_name d)) (m_dimensions m) = true) by congruence.
      apply existsb_exists. exists e. split; [by apply list_elem_of_In|].
      apply String.eqb_eq. by rewrite Heq.
  - by apply (types_wf_old G).
  - intros i v Hi. by apply (values_wf_old G).
  - intros i op Hi. apply (operation_wf_old G i op); auto with yvex.
  - intros i b Hi. apply (block_wf_old G (zlen (m_functions m)) _ i b); auto with yvex. cbn. lia.
  - destruct Hf. constructor; done.
  - done.
  - accounting Hs.
Qed.

Lemma find_index_None {A} (f : A -> bool) l from :
  find_index f l from = None <-> Forall (fun x => f x = false) l.
Proof.
  revert from. induction l as [|x l IH]; intros from; cbn; [by split|].
  rewrite Forall_cons. destruct (f x); [naive_solver|]. rewrite IH. naive_solver.
Qed.

Lemma find_index_Some {A} (f : A -> bool) l from i :
  find_index f l from = Some i ->
  exists x, zget l (i - from) = Some x /\ f x = true /\ from <= i.
Proof.
  revert from. induction l as [|x l IH]; intros from H; cbn in *; [done|].
  destruct (f x) eqn:Hx; simplify_eq.
  - exists x. rewrite Z.sub_diag. split; [done|]. split; [done|lia].
  - apply IH in H as (y & Hy & Hfy & Hle). exists y. split; [|split; [done|lia]].
    replace (i - from) with (zlen [x] + (i - (from + 1))) by (rewrite zlen_cons, zlen_nil; lia).
    change (x :: l) with ([x] ++ l). rewrite zget_app_r by lia.
    rewrite <- Hy. f_equal. lia.
Qed.

Lemma type_intern_post alloc t m :
  module_wf m -> 0 <= ty_rank t -> constructor_post m (yvex_ir_type_intern alloc t m).
Proof.
  intros Hw Hrank. unfold yvex_ir_type_intern.
  destruct (_ || _) eqn:Hg; [refused|]. bool_hyps.
  destruct (find_index _ _ _) as [i|] eqn:Hi.
  { split; [done|]. split; [|done]. by apply same_program_grows. }
  destruct (ir_reserve _ _ _ _) as [cap|] eqn:Hr; [|refused].
  apply ir_reserve_count in Hr.
  set (m' := add_storage _ _).
  assert (grows m m') as G.
  { constructor; cbn; eauto with yvex. split; cbn; [done|by eexists]. }
  split; [|by split]. destruct Hw as [Hd [Htv Htr Hto Htc] Hv Ho Hb Hf Hc Hs].
  apply find_index_None in Hi. rewrite Forall_forall in Hi.
  constructor; cbn.
  - done.
  - constructor; cbn.
    + intros i s [Hs'|[-> ->]]%zget_snoc_inv; (eapply type_valid_mono; [apply (grows_types _ _ G)|]);
        [by eapply Htv|done].
    + intros i s [Hs'|[-> ->]]%zget_snoc_inv; [by eapply Htr|done].
    + intros i s [Hs'|[-> ->]]%zget_snoc_inv; [by eapply Hto|].
      intros Hk k Hr'. by apply type_valid_members.
    + intros i j s s' [Hi1|[-> ->]]%zget_snoc_inv [Hj1|[-> ->]]%zget_snoc_inv Heq; [by eapply Htc|..|done].
      * rewrite type_equal_sym, Hi in Heq; [done|by eapply zget_elem_of].
      * rewrite Hi in Heq; [done|by eapply zget_elem_of].
  - intros i v Hi'. by apply (values_wf_old G).
  - intros i op Hi'. apply (operation_wf_old G i op); auto with yvex.
  - intros i b Hi'. apply (block_wf_old G (zlen (m_functions m)) _ i b); auto with yvex. cbn. lia.
  - pose proof Hf as [? ? ? ?]. constructor; cbn; [done| |done..].
    intros i f Hi'. by apply (function_body_old G i f Hf).
  - done.
  - accounting Hs.
Qed.

(** *** Blocks *)

Lemma block_add_cases alloc function parent types m :
  0 <= m_storage_bytes m <= IR_STORAGE_LIMIT ->
  (exists m' s r, ir_block_add alloc function parent types m = (m', Refuse s r) /\ same_program m m') \/
  (exists c, ir_block_add alloc function parent types m
      = (block_added c function parent types m, Done (zlen (m_blocks m))) /\
    zlen (m_blocks m) + 1 <= IR_OBJECT_LIMIT /\
    zlen (m_values m) + zlen types <= IR_OBJECT_LIMIT /\
    m_storage_bytes m + block_bytes (added_block function parent types m) <= IR_STORAGE_LIMIT).
Proof.
  intros Hs. unfold ir_block_add.
  rewrite u64_id by (unfold is_u64, IR_STORAGE_LIMIT in *; lia).
  destruct (_ <? _) eqn:Hb; [left; eauto 10 with yvex|].
  destruct (_ && _); [left; eauto 10 with yvex|].
  destruct (ir_reserve (alloc 1%nat) _ _ _) as [cb|] eqn:Hr1; [|left; eauto 10 with yvex].
  cbn zeta. destruct (ir_reserve (alloc 2%nat) _ _ _) as [cv|] eqn:Hr2; [|left; eauto 10 with yvex].
  right. apply ir_reserve_count in Hr1, Hr2. cbn in Hr2. eexists.
  unfold block_added, block_bytes, added_block. cbn [b_arguments].
  rewrite zlen_new_ids by apply zlen_nonneg. split; [reflexivity|]. repeat split; lia.
Qed.

Lemma values_wf_append m m' types b d :
  grows m m' -> values_wf m -> m_values m' = m_values m ++ new_values types b d ->
  Forall (fun t => 0 <= t < zlen (m_types m)) types ->
  (forall k t, 0 <= k < zlen types -> value_owned (m_blocks m') (m_operations m')
      (zlen (m_values m) + k) (mk_value t b d k)) ->
  values_wf m'.
Proof.
  intros G Hw Heq Ht Ho i v. rewrite Heq. intros Hi.
  destruct (decide (i < zlen (m_values m))) as [Hlt|Hge].
  - rewrite zget_app_l in Hi by done. by apply (values_wf_old G).
  - rewrite zget_app_r in Hi by lia. destruct (zget_new_values _ _ _ _ _ Hi) as (t & Hk & ->).
    pose proof (zget_Some_range _ _ _ Hk). split.
    + cbn. apply (grows_type_in G). rewrite Forall_forall in Ht. apply Ht.
      by eapply zget_elem_of.
    + replace i with (zlen (m_values m) + (i - zlen (m_values m))) at 1 by lia. apply Ho. lia.
Qed.

Lemma value_owned_argument m' b blk n k t d :
  zget (m_blocks m') b = Some blk -> b_arguments blk = new_ids n d -> 0 <= k < d ->
  value_owned (m_blocks m') (m_operations m') (n + k) (mk_value t b YVEX_IR_NONE k).
Proof.
  intros Hb Ha Hk. unfold value_owned. cbn. exists blk. split; [done|].
  rewrite Ha. by apply zget_new_ids.
Qed.

Lemma added_block_wf nf c function parent types m m' :
  m_values m' = m_values (block_added c function parent types m) ->
  0 <= function < nf ->
  (parent = YVEX_IR_NONE \/ exists op, zget (m_operations m') parent = Some op /\
     zlen (m_blocks m) ∈ op_regions op) ->
  block_wf nf m' (zlen (m_blocks m)) (added_block function parent types m).
Proof.
  intros Hv Hf Hp. constructor; [done|done|]. cbn. intros k a [Hk ->]%zget_new_ids_inv.
  rewrite Hv. cbn. rewrite zget_app_r by lia.
  replace (zlen (m_values m) + k - zlen (m_values m)) with k by lia.
  destruct (zget_in types k Hk) as [t Ht]. erewrite new_values_get by done. eauto.
Qed.

Lemma block_ops_fresh m b :
  operations_wf m -> zlen (m_blocks m) <= b -> block_ops (m_operations m) b = [].
Proof.
  intros Ho Hb. destruct (block_ops (m_operations m) b) as [|i l] eqn:E; [done|].
  assert (i ∈ block_ops (m_operations m) b) as Hi by (rewrite E; set_solver).
  apply elem_of_block_ops in Hi as (op & Hop & <-).
  pose proof (op_block_in _ _ _ (Ho i op Hop)). lia.
Qed.

Lemma added_block_chain function parent types m ops :
  block_ops ops (zlen (m_blocks m)) = [] ->
  chain_wf ops (zlen (m_blocks m)) (added_block function parent types m).
Proof. intros H. unfold chain_wf. rewrite H. split; [constructor|done]. Qed.

(** *** Functions *)

Lemma function_add_post alloc symbol arguments results effects m :
  module_wf m -> constructor_post m (yvex_ir_function_add alloc symbol arguments results effects m).
Proof.
  intros Hw. pose proof Hw as [Hd Ht Hv Ho Hb Hf Hc Hs].
  unfold yvex_ir_function_add.
  set (guard := or_else _ _).
  assert (no_fault guard) as Hnf.
  { apply no_fault_or_else; [done|]. intros _.
    apply no_fault_bind; [by apply types_present_no_fault|]. intros [] _; cbn; [|done].
    apply no_fault_bind; [by apply types_present_no_fault|]. by intros [] _. }
  destruct guard as [[]|s r|f] eqn:Hg; [refused| |refused|done].
  apply or_else_false in Hg as [[= Hg1] Hg2]. bool_hyps.
  apply bind_Done in Hg2 as ([] & Ha & Hg2); cbn in Hg2; [|done].
  apply bind_Done in Hg2 as ([] & Hr & Hg2); cbn in Hg2; [|done].
  injection Hg2 as Hfind. apply bool_decide_eq_false in Hfind.
  cbn zeta. rewrite u64_id by (destruct Hs as [_ ? _]; unfold is_u64, IR_STORAGE_LIMIT in *; lia).
  destruct (_ <? _) eqn:Hbytes; [refused|].
  destruct (_ && _); [refused|].
  destruct (ir_reserve _ _ _ _) as [cap|] eqn:Hres; [|refused].
  apply ir_reserve_count in Hres.
  set (m1 := set_capacities _ m).
  destruct (block_add_cases (after 2 alloc) (zlen (m_functions m1)) YVEX_IR_NONE arguments m1)
    as [(m2 & s & r & Hba & Hsame)|(c & Hba & Hnb & Hnv & Hstb)].
  { cbn. apply Hs. }
  { unfold mbind, so_bind. rewrite Hba. by apply constructor_post_refuse. }
  rewrite (so_bind_eq _ _ _ _ _ Hba). cbv [so_modify mbind so_bind mret so_ret].
  set (m' := add_storage (_ + _) _).
  assert (grows m m') as G.
  { constructor; cbn; eauto with yvex. by apply types_extend_refl. }
  split; [|by split]. constructor; cbn.
  - done.
  - by apply (types_wf_old G).
  - eapply (values_wf_append m m' _ _ _ G Hv); [reflexivity|by apply types_present_In|].
    intros k t Hk. eapply value_owned_argument; [apply zget_snoc_eq|reflexivity|done].
  - intros i op Hi. apply (operation_wf_old G i op); auto with yvex.
  - intros i b [Hi|[-> ->]]%zget_snoc_inv.
    + apply (block_wf_old G (zlen (m_functions m)) _ i b); auto with yvex.
      autorewrite with zlen. lia.
    + eapply (added_block_wf _ c _ _ _ m1 m'); [reflexivity| |by left].
      cbn. pose proof (zlen_nonneg (m_functions m)). autorewrite with zlen. lia.
  - pose proof Hf as [Hfb Hfr Hfn Hfd]. constructor; cbn.
    + intros i f [Hi|[-> ->]]%zget_snoc_inv; [by apply (function_body_old G i f Hf)|].
      cbn. eexists. split; [apply zget_snoc_eq|done].
    + intros i f [Hi|[-> ->]]%zget_snoc_inv; [by eapply Hfr|]. by apply types_present_In.
    + intros i f [Hi|[-> ->]]%zget_snoc_inv; [by eapply Hfn|]. done.
    + rewrite fmap_app. apply NoDup_app. repeat split; [done| |apply NoDup_singleton].
      intros n Hn Hn'. apply list_elem_of_singleton in Hn' as ->. apply Hfind.
      unfold yvex_ir_function_find. destruct (find_index _ _ _) eqn:E; [done|].
      apply find_index_None in E. rewrite Forall_forall in E.
      apply list_elem_of_fmap in Hn as (f & Heq & Hin). specialize (E f Hin).
      cbn in Heq. rewrite <- Heq, String.eqb_refl in E. done.
  - intros i b [Hi|[-> ->]]%zget_snoc_inv; [by apply Hc|].
    apply (added_block_chain _ _ _ m1). apply (block_ops_fresh m); [done|]. cbn. lia.
  - cbn in Hnb, Hnv, Hstb. pose proof (zlen_nonneg arguments). pose proof (zlen_nonneg results).
    accounting Hs.
Qed.

(** *** Regions *)

Lemma zget_zset {A} (l : list A) i x j y :
  zget (zset l i x) j = Some y ->
  (i = j /\ y = x /\ 0 <= i < zlen l) \/ (i <> j /\ zget l j = Some y).
Proof.
  intros H. destruct (decide (i = j)) as [->|Hne].
  - left. pose proof (zget_Some_range _ _ _ H) as Hr. rewrite zlen_zset in Hr.
    rewrite zget_zset_eq in H by done. by simplify_eq.
  - right. by rewrite zget_zset_ne in H.
Qed.

Lemma zset_grows {A} (l : list A) i x y (R : A -> A -> Prop) j z :
  (forall a, R a a) -> zget l i = Some x -> R x y -> zget l j = Some z ->
  exists z', zget (zset l i y) j = Some z' /\ R z z'.
Proof.
  intros Hrefl Hi HR Hj. destruct (decide (i = j)) as [->|Hne].
  - exists y. simplify_eq. split; [|done]. apply zget_zset_eq. by eapply zget_Some_range.
  - exists z. rewrite zget_zset_ne by done. eauto.
Qed.

Lemma operation_wf_region m id op r b owner :
  operation_wf m id op -> zlen (op_regions op) < def_regions (op_definition op) ->
  zget (m_blocks m) r = Some b -> b_parent_operation b = id ->
  zget (m_blocks m) (op_block op) = Some owner -> b_function b = b_function owner ->
  op_block op < r ->
  operation_wf m id (set_regions (op_regions op ++ [r]) op).
Proof.
  intros [] Hlt Hr Hp Hw Hf Hlt'. constructor; cbn; try done.
  - autorewrite with zlen. lia.
  - intros k r' [Hk|[-> ->]]%zget_snoc_inv; [by eapply op_regions_owned0|]. eauto 10.
Qed.

Lemma chains_wf_relabel m m' i op op' :
  zget (m_operations m) i = Some op -> m_operations m' = zset (m_operations m) i op' ->
  op_block op' = op_block op -> op_next op' = op_next op ->
  forall j b, chain_wf (m_operations m) j b -> chain_wf (m_operations m') j b.
Proof.
  intros Hi Heq Hb Hn j b [Hl Hlast]. unfold chain_wf. rewrite Heq.
  rewrite (block_ops_zset _ _ op) by done. split; [|done].
  eapply linked_ext; [|done]. intros k opk _ Hk.
  apply (zset_grows _ i op op' (fun a b => op_next b = op_next a) k opk); auto.
Qed.

Lemma region_add_post alloc operation arguments m :
  module_wf m -> constructor_post m (yvex_ir_region_add alloc operation arguments m).
Proof.
  intros Hw. pose proof Hw as [Hd Ht Hv Ho Hb Hf Hc Hs]. unfold yvex_ir_region_add.
  destruct (m_sealed m) eqn:Hsealed; [refused|].
  destruct (zget (m_operations m) operation) as [op|] eqn:Hop; [|refused].
  pose proof (types_present_no_fault m arguments Ht) as Hnf.
  destruct (ir_types_present m arguments) as [[]| |] eqn:Htp; [|refused..|done].
  destruct (_ <=? _) eqn:Hlt; [refused|]. destruct (negb _); [refused|].
  pose proof (op_block_in _ _ _ (Ho _ _ Hop)) as Hbi.
  destruct (zget_in _ _ Hbi) as [owner Howner].
  unfold blocks_read, read_at. rewrite Howner.
  destruct (block_add_cases (after 1 alloc) (b_function owner) operation arguments m)
    as [(m2 & s & r & Hba & Hsame)|(c & Hba & Hnb & Hnv & Hstb)].
  { apply Hs. }
  { unfold mbind, so_bind. rewrite Hba. by apply constructor_post_refuse. }
  rewrite (so_bind_eq _ _ _ _ _ Hba). cbv [so_modify mbind so_bind mret so_ret].
  set (op' := set_regions _ op). set (m' := set_operations _ _).
  assert (grows m m') as G.
  { constructor; cbn; eauto with yvex; [by apply types_extend_refl|].
    intros j z Hj. apply (zset_grows _ operation op op'
      (fun a b => operation_static a b /\ op_regions a `prefix_of` op_regions b) j z); auto with yvex.
    split; [done|]. by eexists. }
  split; [|by split]. constructor; cbn.
  - done.
  - by apply (types_wf_old G).
  - eapply (values_wf_append m m' _ _ _ G Hv); [reflexivity|by apply types_present_In|].
    intros k t Hk. eapply value_owned_argument; [apply zget_snoc_eq|reflexivity|done].
  - intros i opi [(<- & -> & _)|[Hne Hi]]%zget_zset.
    + eapply operation_wf_region.
      * eapply (operation_wf_old G); eauto with yvex.
      * lia.
      * apply zget_snoc_eq.
      * done.
      * cbn. by apply zget_app_Some.
      * done.
      * lia.
    + eapply (operation_wf_old G); eauto with yvex.
  - intros i b [Hi|[-> ->]]%zget_snoc_inv.
    + apply (block_wf_old G (zlen (m_functions m)) _ i b); auto with yvex. cbn. lia.
    + apply (added_block_wf _ c _ _ arguments m m'); [reflexivity| |right].
      * cbn. apply (Hb _ _ Howner).
      * exists op'. split; [apply zget_zset_eq; by eapply zget_Some_range|]. cbn. set_solver.
  - pose proof Hf as [Hfb Hfr Hfn Hfd]. constructor; cbn; [|done..].
    intros i f Hi. by apply (function_body_old G i f Hf).
  - intros i b Hi. apply (chains_wf_relabel m m' operation op op'); [done..|].
    apply zget_snoc_inv in Hi as [Hi|[-> ->]]; [by apply Hc|].
    apply (added_block_chain _ _ _ m). by apply block_ops_fresh.
  - assert (total operation_bytes (zset (m_operations m) operation op')
      = total operation_bytes (m_operations m)) as Htot by (by eapply total_zset).
    pose proof (zlen_nonneg arguments). accounting Hs.
Qed.

(** *** Operations *)

Lemma last_block_op m i b :
  chain_wf (m_operations m) i b -> zlen (m_operations m) <= IR_OBJECT_LIMIT ->
  if b_last_operation b =? YVEX_IR_NONE then block_ops (m_operations m) i = []
  else exists l op, block_ops (m_operations m) i = l ++ [b_last_operation b] /\
         zget (m_operations m) (b_last_operation b) = Some op /\ op_block op = i.
Proof.
  intros [_ Hlast] Hlen. destruct (block_ops (m_operations m) i) as [|j l _] eqn:E using rev_ind.
  { cbn in Hlast. rewrite Hlast. by rewrite Z.eqb_refl. }
  rewrite last_snoc in Hlast. cbn in Hlast. rewrite Hlast.
  assert (j ∈ block_ops (m_operations m) i) as Hj by (rewrite E; set_solver).
  apply elem_of_block_ops in Hj as (op & Hop & Hb).
  pose proof (zget_Some_range _ _ _ Hop).
  replace (j =? YVEX_IR_NONE) with false
    by (unfold YVEX_IR_NONE, UINT32_MAX, IR_OBJECT_LIMIT in *; lia).
  eauto.
Qed.

Definition appended (op : yvex_ir_operation) (m m3 : yvex_ir_module) : Prop :=
  m_operations m3 = m_operations m ++ [op] /\ m_blocks m3 = m_blocks m.

(** Chains that do not mention the relinked predecessor are unaffected. *)
Lemma chain_wf_other m op last oplast i b :
  chain_wf (m_operations m) i b -> op_block op <> i ->
  zget (m_operations m) last = Some oplast -> op_block oplast <> i ->
  chain_wf (zset (m_operations m ++ [op]) last (set_next (zlen (m_operations m)) oplast)) i b.
Proof.
  intros [Hl Hlast] Hne Hlo Hne'. unfold chain_wf.
  rewrite (block_ops_zset _ _ oplast) by (done || by apply zget_app_Some).
  rewrite block_ops_snoc. replace (op_block op =? i) with false by lia. rewrite app_nil_r.
  split; [|done]. eapply linked_ext; [|done]. intros j opj Hj Hopj.
  apply elem_of_block_ops in Hj as (opj' & Hopj' & Hbj). rewrite Hopj in Hopj'. injection Hopj' as ->.
  exists opj'. split; [|done]. rewrite zget_zset_ne by congruence. by apply zget_app_Some.
Qed.

Lemma chain_wf_snoc_other m op i b :
  chain_wf (m_operations m) i b -> op_block op <> i -> chain_wf (m_operations m ++ [op]) i b.
Proof.
  intros [Hl Hlast] Hne. unfold chain_wf.
  rewrite block_ops_snoc. replace (op_block op =? i) with false by lia. rewrite app_nil_r.
  split; [|done]. eapply linked_ext; [|done]. intros j opj _ Hopj.
  exists opj. split; [|done]. by apply zget_app_Some.
Qed.

Lemma link_chains m m3 op block_id block :
  chains_wf m -> zlen (m_operations m) <= IR_OBJECT_LIMIT -> appended op m m3 ->
  zget (m_blocks m) block_id = Some block -> op_block op = block_id -> op_next op = YVEX_IR_NONE ->
  chains_wf (link_operation block_id (zlen (m_operations m)) block m3).
Proof.
  intros Hc Hlen [Hops Hblk] Hb Hob Hon. pose proof (Hc _ _ Hb) as Hcb.
  pose proof (last_block_op _ _ _ Hcb Hlen) as Hlast. unfold link_operation.
  destruct (b_last_operation block =? YVEX_IR_NONE) eqn:Hn.
  - intros i b. cbn. rewrite Hblk, Hops. intros [(<- & -> & _)|[Hne Hi]]%zget_zset.
    + unfold chain_wf. rewrite block_ops_snoc, Hob, Z.eqb_refl, Hlast. cbn. split; [|done].
      econstructor; [apply zget_snoc_eq|]. rewrite Hon. constructor.
    + apply chain_wf_snoc_other; [by apply Hc|]. congruence.
  - destruct Hlast as (l & oplast & Hl & Hoplast & Hobl).
    rewrite Hops, (zget_app_Some _ _ _ _ Hoplast).
    intros i b. cbn. rewrite Hblk. intros [(<- & -> & _)|[Hne Hi]]%zget_zset.
    + unfold chain_wf. rewrite (block_ops_zset _ _ oplast) by (done || by apply zget_app_Some).
      rewrite block_ops_snoc, Hob, Z.eqb_refl. cbn [b_first_operation b_last_operation set_first_last].
      rewrite last_snoc. split; [|done].
      pose proof (NoDup_block_ops (m_operations m) block_id) as Hnd. rewrite Hl in Hnd |- *.
      rewrite <- app_assoc. pose proof (zget_Some_range _ _ _ Hoplast).
      destruct Hcb as [Hlink _]. rewrite Hl in Hlink.
      eapply linked_snoc; [exact Hlink|exact Hnd|exact Hoplast|..].
      * apply zget_zset_eq. autorewrite with zlen. lia.
      * intros k Hk. rewrite zget_zset_ne.
        -- assert (k ∈ block_ops (m_operations m) block_id) as Hk' by (rewrite Hl; set_solver).
           apply elem_of_block_ops in Hk' as (opk & Hopk & _).
           rewrite Hopk. by apply zget_app_Some.
        -- intros <-. apply NoDup_app in Hnd as (_ & Hnd & _).
           apply (Hnd _ Hk). set_solver.
      * rewrite zget_zset_ne by lia. apply zget_snoc_eq.
      * done.
    + apply chain_wf_other; [by apply Hc|congruence|done|congruence].
Qed.

(** Linking changes nothing but the chain fields. *)
Record links (m m' : yvex_ir_module) : Prop := {
  links_program : m_dialects m' = m_dialects m /\ m_dimensions m' = m_dimensions m /\
    m_types m' = m_types m /\ m_values m' = m_values m /\ m_functions m' = m_functions m /\
    m_storage_bytes m' = m_storage_bytes m /\ m_sealed m' = m_sealed m;
  links_lengths : zlen (m_operations m') = zlen (m_operations m) /\
    zlen (m_blocks m') = zlen (m_blocks m);
  links_totals : total operation_bytes (m_operations m') = total operation_bytes (m_operations m) /\
    total block_bytes (m_blocks m') = total block_bytes (m_blocks m);
  links_operations : forall i op, zget (m_operations m) i = Some op ->
    exists op', zget (m_operations m') i = Some op' /\
      (operation_static op op' /\ op_regions op' = op_regions op);
  links_blocks : forall i b, zget (m_blocks m) i = Some b ->
    exists b', zget (m_blocks m') i = Some b' /\ block_static b b'
}.

Lemma link_operation_links block_id id block m :
  zget (m_blocks m) block_id = Some block -> links m (link_operation block_id id block m).
Proof.
  intros Hb. unfold link_operation. destruct (_ =? _).
  - constructor; cbn; autorewrite with zlen; eauto 10 with yvex.
    + split; [done|]. by eapply total_zset.
    + intros i b Hi. eapply (zset_grows _ _ _ _ block_static); eauto with yvex. done.
  - destruct (zget (m_operations m) (b_last_operation block)) as [last|] eqn:Hl;
      constructor; cbn; autorewrite with zlen; eauto 10 with yvex.
    + split; by eapply total_zset.
    + intros i op Hi. eapply (zset_grows _ _ _ _
        (fun a b => operation_static a b /\ op_regions b = op_regions a)); eauto with yvex. done.
    + intros i b Hi. eapply (zset_grows _ _ _ _ block_static); eauto with yvex. done.
    + split; [done|]. by eapply total_zset.
    + intros i b Hi. eapply (zset_grows _ _ _ _ block_static); eauto with yvex. done.
Qed.

Lemma links_back {A} (l l' : list A) (R : A -> A -> Prop) i y :
  (forall i x, zget l i = Some x -> exists x', zget l' i = Some x' /\ R x x') ->
  zlen l' = zlen l -> zget l' i = Some y -> exists x, zget l i = Some x /\ R x y.
Proof.
  intros H Hlen Hy. pose proof (zget_Some_range _ _ _ Hy) as Hr. rewrite Hlen in Hr.
  destruct (zget_in _ _ Hr) as [x Hx]. exists x. split; [done|].
  destruct (H i x Hx) as (x' & Hx' & HR). by simplify_eq.
Qed.

Lemma definition_find_In m name version d :
  yvex_ir_definition_find m name version = Some d -> d ∈ concat (dia_operations <$> m_dialects m).
Proof.
  unfold yvex_ir_definition_find. destruct (negb _); [done|]. intros [H _]%List.find_some.
  by apply list_elem_of_In.
Qed.

(** The module after an admitted operation, before and after linking. *)
Definition added_operation (block_id : Z) (d : yvex_ir_operation_definition)
    (r : yvex_ir_operation_request) (m : yvex_ir_module) : yvex_ir_operation :=
  mk_operation block_id YVEX_IR_NONE d (req_operands r)
    (new_ids (zlen (m_values m)) (zlen (req_result_types r))) [] (req_attributes r).

Definition operation_added (c : ir_capacities) (block_id : Z) (d : yvex_ir_operation_definition)
    (r : yvex_ir_operation_request) (m : yvex_ir_module) : yvex_ir_module :=
  add_storage (operation_bytes (added_operation block_id d r m))
    (set_operations (m_operations m ++ [added_operation block_id d r m])
      (set_values (m_values m ++ new_values (req_result_types r) block_id (zlen (m_operations m)))
        (set_capacities c m))).

Lemma operation_add_cases alloc block_id r m :
  module_wf m ->
  (exists m' s t, yvex_ir_operation_add alloc block_id r m = (m', Refuse s t) /\ same_program m m') \/
  (exists c block d, yvex_ir_operation_add alloc block_id r m
      = (link_operation block_id (zlen (m_operations m)) block (operation_added c block_id d r m),
         Done (zlen (m_operations m))) /\
    m_sealed m = false /\ zget (m_blocks m) block_id = Some block /\
    yvex_ir_definition_find m (req_operation r) (req_version r) = Some d /\
    request_arity_valid d r = true /\ ir_types_present m (req_result_types r) = Done true /\
    Forall (fun v => 0 <= v < zlen (m_values m)) (req_operands r) /\
    (forall last, zget (m_operations m) (b_last_operation block) = Some last ->
       def_terminator (op_definition last) = 0) /\
    zlen (m_operations m) + 1 <= IR_OBJECT_LIMIT /\
    zlen (m_values m) + zlen (req_result_types r) <= IR_OBJECT_LIMIT /\
    m_storage_bytes m + operation_bytes (added_operation block_id d r m) <= IR_STORAGE_LIMIT).
Proof.
  intros Hw. pose proof Hw as [Hd Ht Hv Ho Hb Hf Hc Hs]. unfold yvex_ir_operation_add.
  destruct (m_sealed m) eqn:Hsealed; [left; eauto 10 with yvex|].
  destruct (zget (m_blocks m) block_id) as [block|] eqn:Hblk; [|left; eauto 10 with yvex].
  destruct (yvex_ir_definition_find m _ _) as [d|] eqn:Hdef; [|left; eauto 10 with yvex].
  destruct (negb _) eqn:Har; [left; eauto 10 with yvex|]. apply negb_false_iff in Har.
  pose proof (types_present_no_fault m (req_result_types r) Ht) as Hnf.
  destruct (ir_types_present m _) as [[]| |] eqn:Htp; [|left; eauto 10 with yvex..|done].
  rewrite u64_id by (destruct Hs as [_ ? _]; unfold is_u64, IR_STORAGE_LIMIT in *; lia).
  destruct (_ <? _) eqn:Hbytes; [left; eauto 10 with yvex|].
  destruct Hs as [Hx Hbd Hob].
  pose proof (last_block_op m block_id block (Hc _ _ Hblk) ltac:(lia)) as Hlast.
  set (term := if b_last_operation block =? _ then _ else _).
  assert (exists b, term = Done b /\ (b = false -> forall last,
    zget (m_operations m) (b_last_operation block) = Some last ->
    def_terminator (op_definition last) = 0)) as (b & -> & Hterm).
  { subst term. destruct (_ =? YVEX_IR_NONE) eqn:Hn.
    - exists false. split; [done|]. intros _ last Hl%zget_Some_range.
      unfold YVEX_IR_NONE, UINT32_MAX, IR_OBJECT_LIMIT in *. lia.
    - destruct Hlast as (l & op & _ & Hop & _). unfold operations_read, read_at. rewrite Hop.
      eexists. split; [reflexivity|]. intros Hz last Hl. simplify_eq. lia. }
  destruct b; [left; eauto 10 with yvex|].
  destruct (negb (forallb _ _)) eqn:Hops; [left; eauto 10 with yvex|].
  destruct (_ || _); [left; eauto 10 with yvex|].
  destruct (ir_reserve (alloc 3%nat) _ _ _) as [co|] eqn:Hr1; [|left; eauto 10 with yvex].
  cbn zeta. destruct (ir_reserve (alloc 4%nat) _ _ _) as [cv|] eqn:Hr2; [|left; eauto 10 with yvex].
  right. apply ir_reserve_count in Hr1, Hr2. cbn in Hr2.
  exists (with_cap_values cv (with_cap_operations co (m_capacities m))), block, d.
  unfold operation_added, added_operation. rewrite operation_bytes_mk.
  rewrite zlen_new_ids by apply zlen_nonneg.
  split; [reflexivity|]. repeat split; try done; [|by auto|].
  - apply negb_false_iff in Hops. rewrite forallb_forall in Hops. apply Forall_forall.
    intros v Hin%list_elem_of_In. specialize (Hops v Hin). lia.
  - cbv [SIZEOF_ID SIZEOF_VALUE SIZEOF_ATTRIBUTE SIZEOF_OPERATION] in *. lia.
Qed.

Lemma added_operation_wf c block_id block d r m m' :
  links (operation_added c block_id d r m) m' ->
  zget (m_blocks m) block_id = Some block ->
  yvex_ir_definition_find m (req_operation r) (req_version r) = Some d ->
  request_arity_valid d r = true -> Forall (fun v => 0 <= v < zlen (m_values m)) (req_operands r) ->
  operation_wf m' (zlen (m_operations m)) (added_operation block_id d r m).
Proof.
  intros [(Hdia & _ & _ & Hv & _) [_ Hlb] _ _ _] Hb Hdef Har Hops.
  unfold request_arity_valid in Har. apply negb_true_iff in Har. bool_hyps.
  constructor; cbn.
  - rewrite Hlb. cbn. by eapply zget_Some_range.
  - rewrite Hdia. by eapply definition_find_In.
  - lia.
  - rewrite zlen_new_ids by apply zlen_nonneg. lia.
  - lia.
  - unfold zlen. cbn. lia.
  - rewrite Hv. cbn. autorewrite with zlen. pose proof (zlen_nonneg (req_result_types r)).
    eapply Forall_impl; [exact Hops|]. cbn. lia.
  - eapply Forall_impl; [exact Hops|]. cbn. intros v Hr. apply Forall_forall.
    intros x Hx%elem_of_new_ids. lia.
  - intros k x [Hk ->]%zget_new_ids_inv. rewrite Hv. cbn. rewrite zget_app_r by lia.
    replace (zlen (m_values m) + k - zlen (m_values m)) with k by lia.
    destruct (zget_in _ k Hk) as [t Ht]. erewrite new_values_get by done. eauto.
  - intros k x Hk%zget_Some_range. unfold zlen in Hk. cbn in Hk. lia.
Qed.

Lemma links_grows m m' : links m m' -> grows m m'.
Proof.
  intros [(? & ? & ? & Hv & _) _ _ Ho Hb]. constructor; [done|by apply types_extend_refl| |done|].
  - by rewrite Hv.
  - intros i op Hi. destruct (Ho i op Hi) as (op' & ? & ? & Hr). exists op'. by rewrite Hr.
Qed.

Lemma grows_trans m1 m2 m3 : grows m1 m2 -> grows m2 m3 -> grows m1 m3.
Proof.
  intros G1 G2. constructor.
  - rewrite (grows_dialects _ _ G2). apply G1.
  - destruct (grows_types _ _ G1), (grows_types _ _ G2). split; by etrans.
  - intros i v Hi. by apply (grows_values _ _ G2), (grows_values _ _ G1).
  - intros i b Hi. destruct (grows_blocks _ _ G1 i b Hi) as (b1 & Hb1 & S1).
    destruct (grows_blocks _ _ G2 i b1 Hb1) as (b2 & Hb2 & S2). exists b2. split; [done|].
    unfold block_static in *. intuition congruence.
  - intros i b Hi. destruct (grows_operations _ _ G1 i b Hi) as (b1 & Hb1 & S1 & P1).
    destruct (grows_operations _ _ G2 i b1 Hb1) as (b2 & Hb2 & S2 & P2). exists b2.
    split; [done|]. split; [unfold operation_static in *; intuition congruence|by etrans].
Qed.

Lemma grows_refl m : grows m m.
Proof. apply same_program_grows, same_program_refl. Qed.

Lemma operation_added_grows c block_id d r m : grows m (operation_added c block_id d r m).
Proof. constructor; cbn; eauto with yvex. by apply types_extend_refl. Qed.

Lemma operation_add_post alloc block_id r m :
  module_wf m -> constructor_post m (yvex_ir_operation_add alloc block_id r m).
Proof.
  intros Hw. destruct (operation_add_cases alloc block_id r m Hw)
    as [(m' & s & t & -> & Hsame)|(c & block & d & -> & Hsealed & Hblk & Hdef & Har & Htp & Hops
        & _ & Hno & Hnv & Hst)].
  { by apply constructor_post_refuse. }
  pose proof Hw as [Hd Ht Hv Ho Hb Hf Hc Hs].
  set (m3 := operation_added c block_id d r m). set (id := zlen (m_operations m)).
  assert (links m3 (link_operation block_id id block m3)) as L by (by apply link_operation_links).
  assert (chains_wf (link_operation block_id id block m3)) as Hch.
  { apply (link_chains m m3 (added_operation block_id d r m)); try done. lia. }
  set (m' := link_operation block_id id block m3) in *.
  assert (grows m m') as G
    by (eapply grows_trans; [apply operation_added_grows|apply links_grows, L]).
  pose proof L as [(Hdia & Hdim & Htyp & Hval & Hfun & Hsto & Hsea) [Hlo Hlb] [Hto Htb] Lo Lb].
  split; [|split; [done|cbn; by rewrite Hsea]]. unfold module_wf. cbn. rewrite Hfun. constructor.
  - by rewrite Hdim.
  - by apply (types_wf_old G).
  - eapply (values_wf_append m m' _ _ _ G Hv); [exact Hval|by apply types_present_In|].
    intros k t Hk. unfold value_owned. cbn [v_definition v_block v_ordinal].
    pose proof (zlen_nonneg (m_operations m)).
    replace (zlen (m_operations m) =? YVEX_IR_NONE) with false
      by (unfold YVEX_IR_NONE, UINT32_MAX, IR_OBJECT_LIMIT in *; lia).
    destruct (Lo id (added_operation block_id d r m)) as (op' & Hop' & (Hbl & _ & _ & Hres & _) & _).
    { cbn. apply zget_snoc_eq. }
    exists op'. rewrite Hbl, Hres. cbn. repeat split; [done|]. by apply zget_new_ids.
  - intros i op Hi. destruct (links_back _ _ _ _ _ Lo Hlo Hi) as (op0 & Hop0 & Hst0 & Hrg).
    apply zget_snoc_inv in Hop0 as [Hop0|[-> ->]].
    + by apply (operation_wf_old G i op0); auto.
    + apply (operation_wf_old (grows_refl m') _ (added_operation block_id d r m)); [|done..].
      by eapply added_operation_wf.
  - intros i b Hi. destruct (links_back _ _ _ _ _ Lb Hlb Hi) as (b0 & Hb0 & Hst0).
    apply (block_wf_old G (zlen (m_functions m)) _ i b0); [by apply Hb|done|]. cbn. lia.
  - pose proof Hf as [Hfb Hfr Hfn Hfd]. constructor; rewrite Hfun; cbn; [..|done|done].
    + intros i f Hi. by apply (function_body_old G i f Hf).
    + intros i f Hi. by apply (function_body_old G i f Hf).
  - done.
  - pose proof (zlen_nonneg (req_operands r)). pose proof (zlen_nonneg (req_attributes r)).
    pose proof (zlen_nonneg (req_result_types r)).
    assert (zlen (new_ids (zlen (m_values m)) (zlen (req_result_types r)))
      = zlen (req_result_types r)) as Hni by (by apply zlen_new_ids).
    assert (operation_bytes (added_operation block_id d r m) = 72 + zlen (req_operands r) * 4
      + zlen (req_result_types r) * 20 + zlen (req_attributes r) * 200) as Hby
      by (unfold added_operation; rewrite operation_bytes_mk, Hni; done).
    cbn in Hlo, Hlb, Hto, Htb. rewrite total_app, total_singleton, Hby in Hto.
    destruct Hs as [Hx Hbd Hob]. unfold accounted_bytes in *.
    constructor; unfold accounted_bytes; rewrite ?Hsto, ?Hdim, ?Htyp, ?Hval, ?Hfun, ?Hto, ?Htb, ?Hlo, ?Hlb;
      cbn; rewrite ?Hby in *; autorewrite with zlen in *; repeat split; lia.
Qed.

(** ** Programs are built by sequences of calls *)

(** One constructor call; its integer arguments are machine integers. *)
Inductive ir_call : Type :=
  | CallDimension (d : yvex_ir_dimension)
  | CallType (t : yvex_ir_type)
  | CallFunction (symbol : string) (arguments results : list Z) (effects : Z)
  | CallOperation (block : Z) (r : yvex_ir_operation_request)
  | CallRegion (operation : Z) (arguments : list Z).

Definition ir_call_machine (c : ir_call) : Prop :=
  match c with
  | CallDimension d => is_u64 (dim_minimum d) /\ is_u64 (dim_maximum d) /\ is_u64 (dim_multiple d)
  | CallType t => is_u32 (ty_rank t)
  | _ => True
  end.

Definition ir_run (alloc : allocator) (c : ir_call) : SO yvex_ir_module Z :=
  match c with
  | CallDimension d => yvex_ir_dimension_add alloc d
  | CallType t => yvex_ir_type_intern alloc t
  | CallFunction s a r e => yvex_ir_function_add alloc s a r e
  | CallOperation b r => yvex_ir_operation_add alloc b r
  | CallRegion o a => yvex_ir_region_add alloc o a
  end.

(** Modules a client can hold: opened, then driven by any calls, whether they
    were granted or refused, under any behaviour of the allocator. *)
Inductive ir_reachable : yvex_ir_module -> Prop :=
  | reach_open alloc name source dialects m :
      yvex_ir_module_open alloc name source dialects = Done m -> ir_reachable m
  | reach_call alloc c m : ir_reachable m -> ir_call_machine c -> ir_reachable (ir_run alloc c m).1
  | reach_seal identity m : ir_reachable m -> ir_reachable (seal_with identity m)
  | reach_retain m m' : ir_reachable m -> yvex_ir_module_retain m = Done m' -> ir_reachable m'
  | reach_close m : ir_reachable m -> ir_reachable (yvex_ir_module_close m).1.

Lemma ir_run_post alloc c m :
  module_wf m -> ir_call_machine c -> constructor_post m (ir_run alloc c m).
Proof.
  intros Hw Hc. destruct c; cbn in *.
  - apply dimension_add_post; [done|apply Hc..].
  - apply type_intern_post; [done|apply Hc].
  - by apply function_add_post.
  - by apply operation_add_post.
  - by apply region_add_post.
Qed.

(** The invariant does not read the sealing or ownership fields. *)
Lemma module_wf_fields m m' :
  m_dialects m' = m_dialects m -> m_dimensions m' = m_dimensions m -> m_types m' = m_types m ->
  m_values m' = m_values m -> m_operations m' = m_operations m -> m_blocks m' = m_blocks m ->
  m_functions m' = m_functions m -> m_storage_bytes m' = m_storage_bytes m ->
  module_wf m -> module_wf m'.
Proof.
  intros Hdia Hd Ht Hv Ho Hb Hf Hst Hw.
  set (m0 := mk_module (m_references m') (m_name m') (m_source_identity m') (m_identity m')
    (m_dialects m') (m_dimensions m') (m_types m') (m_values m') (m_operations m') (m_blocks m')
    (m_functions m') (m_capacities m') (m_storage_bytes m') (m_sealed m)).
  assert (module_wf m0) as [].
  { unfold module_wf. subst m0. cbn. rewrite Hf. by apply (module_wf_same_program _ m). }
  constructor; try done.
  - destruct wf_types0. constructor; [|done..]. intros i t Hi.
    eapply (type_valid_mono m0); [by apply types_extend_refl|eauto].
  - intros i op Hi. apply wf_operations0 in Hi as []. by constructor.
  - intros i b Hi. apply wf_blocks0 in Hi as []. by constructor.
  - destruct wf_functions0. by constructor.
  - destruct wf_storage0. by constructor.
Qed.

Lemma module_open_wf alloc name source dialects m :
  yvex_ir_module_open alloc name source dialects = Done m -> module_wf m.
Proof.
  unfold yvex_ir_module_open. destruct (_ || _); [done|]. destruct (negb _); [done|].
  intros [= <-]. constructor; cbn.
  - constructor; constructor.
  - constructor; cbn; intros i; intros; rewrite zget_nil in *; done.
  - intros i v. cbn. by rewrite zget_nil.
  - intros i v. cbn. by rewrite zget_nil.
  - intros i v. cbn. by rewrite zget_nil.
  - constructor; cbn; [intros i f; by rewrite zget_nil..|constructor].
  - intros i v. cbn. by rewrite zget_nil.
  - constructor; cbn; unfold accounted_bytes, total, zlen, IR_STORAGE_LIMIT, IR_OBJECT_LIMIT; cbn; lia.
Qed.

Lemma reachable_wf m : ir_reachable m -> module_wf m.
Proof.
  induction 1 as [| | |m m' _ IH Hr|].
  - by eapply module_open_wf.
  - by apply ir_run_post.
  - by apply (module_wf_fields m).
  - unfold yvex_ir_module_retain in Hr. repeat case_match; try done. simplify_eq.
    by apply (module_wf_fields m).
  - by apply (module_wf_fields m).
Qed.

(** C4: Every module a client can reach, by any sequence of constructor calls
    granted or refused under any allocator, satisfies the structural invariant,
    and the next call never faults: it either returns an identifier or refuses
    and leaves the program exactly as it was. *)
Theorem reachable_calls_safe m alloc c :
  ir_reachable m -> ir_call_machine c ->
  module_wf m /\ module_wf (ir_run alloc c m).1 /\
  match (ir_run alloc c m).2 with
  | Done _ => m_sealed m = false
  | Refuse _ _ => same_program m (ir_run alloc c m).1
  | Fault _ => False
  end.
Proof.
  intros Hr Hc. pose proof (reachable_wf m Hr) as Hw. split; [done|].
  destruct (ir_run_post alloc c m Hw Hc) as (Hw' & _ & Hp). split; [done|].
  destruct (ir_run alloc c m) as [m' [id|s r|f]] eqn:E; cbn in *; [|done..].
  destruct (m_sealed m) eqn:Hs; [|done]. exfalso.
  destruct c; cbn in E.
  - unfold yvex_ir_dimension_add in E. by rewrite Hs in E.
  - unfold yvex_ir_type_intern in E. by rewrite Hs in E.
  - unfold yvex_ir_function_add in E. by rewrite Hs in E.
  - unfold yvex_ir_operation_add in E. by rewrite Hs in E.
  - unfold yvex_ir_region_add in E. by rewrite Hs in E.
Qed.

(** ** Type geometry *)

(** The admitted maximum of one extent: a literal, or the maximum of the
    dimension it names. *)
Definition extent_maximum (m : yvex_ir_module) (e : yvex_ir_extent) : option Z :=
  if ext_symbol e =? YVEX_IR_NONE then if ext_extent e =? 0 then None else Some (ext_extent e)
  else match zget (m_dimensions m) (ext_symbol e) with
       | Some d => if ext_extent e =? 0 then Some (dim_maximum d) else None
       | None => None
       end.

Definition product (l : list Z) : Z := foldr Z.mul 1 l.

Lemma type_extent_step_exact m t e i :
  type_extent_step m t (Some e) i =
  match extent_maximum m (shape_at t i) with
  | Some x => if UINT64_MAX / x <? e then None else Some (e * x)
  | None => None
  end.
Proof.
  unfold type_extent_step, extent_maximum. destruct (ext_symbol _ =? _); [done|].
  destruct (zget _ _); [|done]. by destruct (ext_extent _ =? 0).
Qed.

Lemma extents_product m t l e :
  0 < e <= UINT64_MAX ->
  (forall i x, extent_maximum m (shape_at t i) = Some x -> 0 < x) ->
  forall p, foldl (type_extent_step m t) (Some e) l = Some p <->
    exists xs, Forall2 (fun i x => extent_maximum m (shape_at t i) = Some x) l xs /\
      p = e * product xs /\ p <= UINT64_MAX.
Proof.
  intros He Hpos. revert e He. induction l as [|i l IH]; intros e He p.
  - cbn. split.
    + intros [= <-]. exists []. split; [constructor|]. cbn. lia.
    + intros (xs & Hxs & -> & _). inversion Hxs; subst. cbn. f_equal. lia.
  - cbn [foldl]. rewrite type_extent_step_exact.
    destruct (extent_maximum m (shape_at t i)) as [x|] eqn:Hx.
    + specialize (Hpos i x Hx) as Hx0.
      pose proof (Z.div_mod UINT64_MAX x ltac:(lia)). pose proof (Z.mod_pos_bound UINT64_MAX x Hx0).
      destruct (_ <? e) eqn:Hlt.
      * rewrite type_extents_None. split; [done|].
        intros (xs & Hxs & -> & Hle). exfalso. inversion Hxs as [|? y ? ys Hy Hys]; subst.
        rewrite Hx in Hy. injection Hy as <-. cbn in Hle.
        assert (1 <= product ys).
        { clear -Hys Hpos. induction Hys as [|j y l ys Hy _ IH]; cbn; [lia|].
          specialize (Hpos _ _ Hy). unfold product in *. nia. }
        fold (product ys) in Hle.
        assert (UINT64_MAX < e * x) by nia.
        assert (e * x <= e * x * product ys) by nia. lia.
      * rewrite IH by nia. split; intros (xs & Hxs & -> & Hle).
        -- exists (x :: xs). split; [by constructor|]. unfold product in *. cbn. lia.
        -- inversion Hxs as [|? y ? ys Hy Hys]; subst. rewrite Hx in Hy. injection Hy as <-.
           exists ys. split; [done|]. unfold product in *. cbn in *. lia.
    + rewrite type_extents_None. split; [done|]. intros (xs & Hxs & _).
      inversion Hxs; subst. congruence.
Qed.

(** A logical type of a well-formed module is admitted only when the product
    of the maxima of its extents is representable in 64 bits, and a tensor
    whose header is legal is admitted exactly when every extent names a nonzero
    literal or an admitted dimension and that product fits. *)
Theorem tensor_valid_exact m scalar rank shape :
  module_wf m -> YVEX_IR_BOOL <= scalar <= YVEX_IR_F64 -> 0 <= rank <= YVEX_IR_RANK_CAP ->
  (forall e, e ∈ shape -> is_u64 (ext_extent e)) ->
  let t := mk_type YVEX_IR_TENSOR scalar rank shape "" 0 [] in
  yvex_ir_type_valid m t = true <->
  exists maxima, Forall2 (fun i x => extent_maximum m (shape_at t i) = Some x) (zseq rank) maxima /\
    product maxima <= UINT64_MAX.
Proof.
  intros Hw Hs Hr He t. pose proof (dims_admitted _ (wf_dimensions _ _ Hw)) as Hd.
  rewrite Forall_forall in Hd.
  assert (forall i x, extent_maximum m (shape_at t i) = Some x -> 0 < x) as Hpos.
  { intros i x. unfold extent_maximum. destruct (_ =? YVEX_IR_NONE).
    - destruct (_ =? 0) eqn:Hz; [done|]. intros [= <-]. unfold shape_at in *. cbn in *.
      destruct (zget shape i) as [e|] eqn:E; [|done]. cbn in *.
      specialize (He e (zget_elem_of _ _ _ E)). unfold is_u64 in He. lia.
    - destruct (zget _ _) as [d|] eqn:E; [|done]. destruct (_ =? 0); [|done]. intros [= <-].
      destruct (Hd d (zget_elem_of _ _ _ E)) as (_ & ? & _). lia. }
  pose proof (extents_product m t (zseq rank) 1 ltac:(unfold UINT64_MAX; lia) Hpos) as Hp.
  unfold yvex_ir_type_valid. subst t. cbn [ty_kind ty_scalar ty_rank ty_member_count ty_domain].
  unfold YVEX_IR_BOOL, YVEX_IR_F64, YVEX_IR_RANK_CAP in *.
  replace (8 <? rank) with false by lia. replace (scalar <? 1) with false by lia.
  replace (8 <? scalar) with false by lia. cbn -[foldl zseq type_extent_step product].
  destruct (foldl _ _ _) as [p|] eqn:E.
  - split; [|done]. intros _. destruct (proj1 (Hp p) eq_refl) as (xs & Hxs & -> & Hle). exists xs.
    split; [done|]. by rewrite Z.mul_1_l in Hle.
  - split; [done|]. intros (xs & Hxs & Hle).
    assert (None = Some (1 * product xs)) as Hc; [|done].
    apply Hp. exists xs. split; [done|]. lia.
Qed.

(** ** Interning *)

Lemma find_index_first {A} (f : A -> bool) l from i x :
  zget l i = Some x -> f x = true -> (forall j y, zget l j = Some y -> f y = true -> j = i) ->
  find_index f l from = Some (from + i).
Proof.
  intros Hi Hx Hu. destruct (find_index f l from) as [j|] eqn:E.
  - apply find_index_Some in E as (y & Hy & Hfy & _). rewrite <- (Hu _ _ Hy Hfy). f_equal. lia.
  - apply find_index_None in E. rewrite Forall_forall in E.
    rewrite E in Hx; [done|by eapply zget_elem_of].
Qed.

Lemma type_equal_trans a b c :
  yvex_ir_type_equal a b = true -> yvex_ir_type_equal b c = true -> yvex_ir_type_equal a c = true.
Proof.
  unfold yvex_ir_type_equal. intros H1 H2. bool_hyps.
  repeat match goal with
  | H : (_ =? _) = true |- _ => apply Z.eqb_eq in H
  | H : String.eqb _ _ = true |- _ => apply String.eqb_eq in H
  end.
  repeat match goal with
  | H : ?f a = ?f b |- _ => progress rewrite ?H in *; clear H
  | H : ?f b = ?f c |- _ => progress rewrite ?H in *; clear H
  end.
  rewrite !Z.eqb_refl, String.eqb_refl.
  repeat match goal with H : ?x = false |- context [?x] => rewrite H end.
  cbn [orb negb andb]. apply andb_true_iff.
  split; apply forallb_forall; intros i Hi;
    repeat match goal with H : forallb _ _ = true |- _ => rewrite forallb_forall in H end;
    repeat match goal with H : forall x, List.In x (zseq ?n) -> _, Hi : List.In _ (zseq ?n) |- _ =>
      specialize (H _ Hi) end; unfold yvex_ir_extent_equal in *; lia.
Qed.

(** Interning is canonical: a granted call returns the identifier of a type
    structurally equal to the requested one, two interned types share an
    identifier exactly when they are structurally equal, and interning the same
    type again returns the same identifier and leaves the module untouched. *)
Theorem type_intern_canonical alloc t m m' id :
  module_wf m -> is_u32 (ty_rank t) -> yvex_ir_type_intern alloc t m = (m', Done id) ->
  (exists t', zget (m_types m') id = Some t' /\ yvex_ir_type_equal t t' = true) /\
  (forall alloc' s m'' id', yvex_ir_type_intern alloc' s m' = (m'', Done id') ->
     (id' = id <-> yvex_ir_type_equal t s = true)) /\
  (forall alloc', m_storage_bytes m' <= IR_STORAGE_LIMIT - SIZEOF_TYPE ->
     yvex_ir_type_intern alloc' t m' = (m', Done id)).
Proof.
  intros Hw Hrank Hi. pose proof (type_intern_post alloc t m Hw (proj1 Hrank)) as (Hw' & G & _). rewrite Hi in Hw', G.
  cbn in Hw', G.
  assert (m_sealed m' = false /\ yvex_ir_type_valid m t = true /\
    exists t', zget (m_types m') id = Some t' /\ yvex_ir_type_equal t t' = true) as (Hse & Hv & Ht').
  { unfold yvex_ir_type_intern in Hi. destruct (_ || _) eqn:Hg; [done|]. bool_hyps.
    destruct (find_index _ _ _) as [j|] eqn:Hj.
    - simplify_eq. apply find_index_Some in Hj as (x & Hx & Hfx & _).
      rewrite Z.sub_0_r in Hx. eauto 10.
    - destruct (ir_reserve _ _ _ _); [|done]. simplify_eq. split; [done|]. split; [done|].
      exists t. split; [apply zget_snoc_eq|]. by eapply type_valid_equal_refl. }
  destruct Ht' as (t' & Ht' & Heq). pose proof (wf_types _ _ Hw') as [_ _ _ Hcan].
  assert (forall s j y, zget (m_types m') j = Some y -> yvex_ir_type_equal s y = true ->
    find_index (yvex_ir_type_equal s) (m_types m') 0 = Some j) as Hfind.
  { intros s j y Hy Hsy. rewrite <- (Z.add_0_l j). apply (find_index_first _ _ 0 j y Hy Hsy).
    intros k z Hz Hsz. apply (Hcan k j z y Hz Hy).
    apply type_equal_trans with s; [by rewrite type_equal_sym|done]. }
  split; [eauto|]. split.
  - intros alloc' s m'' id' Hs. unfold yvex_ir_type_intern in Hs.
    destruct (_ || _) eqn:Hg; [done|]. bool_hyps. split.
    + intros ->. destruct (find_index _ (m_types m') 0) as [j|] eqn:Hj.
      * simplify_eq. apply find_index_Some in Hj as (x & Hx & Hfx & _). rewrite Z.sub_0_r in Hx.
        simplify_eq. apply type_equal_trans with t'; [done|]. by rewrite type_equal_sym.
      * destruct (ir_reserve _ _ _ _); [|done]. simplify_eq.
        apply zget_Some_range in Ht'. lia.
    + intros Hts. rewrite (Hfind s id t' Ht') in Hs; [by simplify_eq|].
      apply type_equal_trans with t; [by rewrite type_equal_sym|done].
  - intros alloc' Hst. unfold yvex_ir_type_intern.
    rewrite (type_valid_mono _ _ _ (grows_types _ _ G) Hv), Hse, (Hfind t id t' Ht' Heq).
    replace (_ <? m_storage_bytes m') with false by lia. done.
Qed.

(** ** Dialect admission *)

Lemma same_operation_spec a b :
  same_operation a b = true <-> def_name a = def_name b /\ def_version a = def_version b.
Proof. unfold same_operation. rewrite andb_true_iff, String.eqb_eq, Z.eqb_eq. done. Qed.

(** A definition lives in a built-in namespace when its name starts with the
    namespace of some built-in operation. *)
Definition in_builtin_namespace (op : yvex_ir_operation_definition) : Prop :=
  exists a i c prefix, (a, i, c) ∈ builtin_entries /\ name_space (def_name c) = Some prefix /\
    String.prefix prefix (def_name op) = true.

Lemma builtin_scan_sound a i op reserved l :
  builtin_scan a i op reserved l = true ->
  (exists c, (a, i, c) ∈ l /\ same_operation op c = true) \/
  (reserved = false /\ forall a' i' c prefix, (a', i', c) ∈ l ->
     name_space (def_name c) = Some prefix -> String.prefix prefix (def_name op) = false).
Proof.
  revert reserved. induction l as [|[[a' i'] c] l IH]; intros reserved H; cbn in H.
  { right. split; [by apply negb_true_iff in H|]. set_solver. }
  destruct (String.eqb _ _ && _) eqn:Hs.
  - left. apply andb_true_iff in H as [Ha%bool_decide_eq_true Hi%bool_decide_eq_true].
    subst. exists c. split; [set_solver|done].
  - destruct (IH _ H) as [(c' & Hc' & Hs')|[Hr Hl]]; [left; set_solver|].
    right. apply orb_false_iff in Hr as [-> Hr]. split; [done|].
    intros a2 i2 c2 prefix [Heq|Hin]%elem_of_cons Hp; [|by eapply Hl].
    injection Heq as -> -> ->. by rewrite Hp in Hr.
Qed.

Lemma entries_valid_In seen l a i op :
  entries_valid seen l = true -> (a, i, op) ∈ l -> ir_builtin_definition_valid a i op = true.
Proof.
  revert seen. induction l as [|[[a' i'] op'] l IH]; intros seen H Hin; [by apply not_elem_of_nil in Hin|].
  cbn in H. bool_hyps. apply elem_of_cons in Hin as [Heq|Hin]; [by simplify_eq|eauto].
Qed.

Lemma dialect_entries_In d op :
  op ∈ dia_operations d -> exists i, (dia_address d, i, op) ∈ dialect_entries d /\
    dia_operations d !! i = Some op.
Proof.
  intros [i Hi]%list_elem_of_lookup. exists i. split; [|done].
  apply list_elem_of_lookup. exists i. unfold dialect_entries. rewrite list_lookup_imap, Hi. done.
Qed.

Lemma dialect_entries_back d a i op :
  (a, i, op) ∈ dialect_entries d -> a = dia_address d /\ dia_operations d !! i = Some op.
Proof.
  intros [k Hk]%list_elem_of_lookup. unfold dialect_entries in Hk. rewrite list_lookup_imap in Hk.
  destruct (dia_operations d !! k) eqn:E; [|done]. simplify_eq/=. done.
Qed.

(** An address determines the array stored there. *)
Definition dialects_coherent (dialects : list yvex_ir_dialect) : Prop :=
  forall d b, d ∈ dialects -> b ∈ builtin_dialects -> dia_address d = dia_address b ->
    dia_operations d = dia_operations b.

(** An admitted dialect list can neither redefine nor extend a built-in
    namespace: every admitted operation whose name lies in the namespace of a
    built-in operation is itself one of the built-in definitions. *)
Theorem builtin_namespaces_protected dialects op :
  ir_dialects_valid dialects = true -> dialects_coherent dialects ->
  op ∈ concat (dia_operations <$> dialects) -> in_builtin_namespace op ->
  exists b, b ∈ builtin_dialects /\ op ∈ dia_operations b.
Proof.
  intros Hv Hco Hop (a0 & i0 & c0 & prefix & Hin0 & Hns & Hpre).
  apply list_elem_of_In, in_concat in Hop as (ops & Hops & Hop).
  apply list_elem_of_In, list_elem_of_fmap in Hops as (d & -> & Hd).
  apply list_elem_of_In, dialect_entries_In in Hop as (i & Hentry & Hlook).
  unfold ir_dialects_valid in Hv. bool_hyps.
  assert (ir_builtin_definition_valid (dia_address d) i op = true) as Hb.
  { eapply entries_valid_In; [done|]. apply list_elem_of_In, in_concat.
    exists (dialect_entries d). split; apply list_elem_of_In; [|done]. apply list_elem_of_fmap. eauto. }
  apply builtin_scan_sound in Hb as [(c & Hc & _)|[_ Hnone]].
  - unfold builtin_entries in Hc. apply list_elem_of_In, in_concat in Hc as (es & Hes & Hc).
    apply list_elem_of_In, list_elem_of_fmap in Hes as (b & -> & Hbin).
    apply list_elem_of_In, dialect_entries_back in Hc as [Ha Hl].
    exists b. split; [done|]. rewrite <- (Hco d b Hd Hbin Ha). by eapply list_elem_of_lookup_2.
  - by rewrite (Hnone _ _ _ _ Hin0 Hns) in Hpre.
Qed.

Lemma builtin_coherent : dialects_coherent builtin_dialects.
Proof.
  intros d b Hd Hb Ha. unfold builtin_dialects in *.
  repeat match goal with H : _ ∈ _ :: _ |- _ => apply elem_of_cons in H as [->|H]
    | H : _ ∈ [] |- _ => by apply not_elem_of_nil in H end; try done; discriminate Ha.
Qed.

(** The three built-in dialects are admitted together: their 76 operation
    contracts are well formed, pairwise distinct and registered at their own
    addresses. *)
Theorem builtin_dialects_admitted :
  ir_dialects_valid builtin_dialects = true /\ dialects_coherent builtin_dialects /\
  length builtin_entries = 76%nat.
Proof. split; [vm_compute; reflexivity|]. split; [apply builtin_coherent|reflexivity]. Qed.

(** The dialects clients open modules with: any selection of the built-in ones,
    in any order. *)
Definition native_dialects (dialects : list yvex_ir_dialect) : Prop :=
  forall d, d ∈ dialects -> d ∈ builtin_dialects.

Lemma native_definition dialects d :
  native_dialects dialects -> d ∈ concat (dia_operations <$> dialects) ->
  d ∈ concat (dia_operations <$> builtin_dialects).
Proof.
  intros Hn (ops & Hops & Hd)%list_elem_of_In%in_concat. apply list_elem_of_In, list_elem_of_fmap in Hops as (x & -> & Hx).
  apply list_elem_of_In, in_concat. exists (dia_operations x). split; [|done].
  by apply list_elem_of_In, list_elem_of_fmap_2, Hn.
Qed.

Lemma native_builtin : native_dialects builtin_dialects.
Proof. by intros d. Qed.

(** ** Ownership *)

(** Histories of a module with its live owners: [open] creates one owner, a
    granted [retain] adds one, a [close] that did not free the module removes
    one; constructors and sealing keep the owners. *)
Inductive owned : yvex_ir_module -> Z -> Prop :=
  | owned_open alloc name source dialects m :
      yvex_ir_module_open alloc name source dialects = Done m -> owned m 1
  | owned_retain m m' n : owned m n -> yvex_ir_module_retain m = Done m' -> owned m' (n + 1)
  | owned_close m m' n : owned m n -> yvex_ir_module_close m = (m', false) -> owned m' (n - 1)
  | owned_seal m n identity : owned m n -> owned (seal_with identity m) n
  | owned_call alloc c m n : owned m n -> owned (ir_run alloc c m).1 n.

Lemma block_add_references alloc f p types m :
  m_references (ir_block_add alloc f p types m).1 = m_references m.
Proof. unfold ir_block_add. repeat (destruct (_ <? _) || destruct (_ && _) || destruct (ir_reserve _ _ _ _)); done. Qed.

Lemma so_bind_fst {S A B} (f : S -> Z) (c : SO S A) (k : A -> SO S B) s :
  f (c s).1 = f s -> (forall a s', f (k a s').1 = f s') -> f ((c ≫= k) s).1 = f s.
Proof.
  intros Hc Hk. unfold mbind, so_bind. destruct (c s) as [s' [a| |]]; cbn in *; [|done..].
  by rewrite Hk.
Qed.

Lemma ir_run_references alloc c m : m_references (ir_run alloc c m).1 = m_references m.
Proof.
  destruct c; cbn.
  - unfold yvex_ir_dimension_add. repeat case_match; done.
  - unfold yvex_ir_type_intern. repeat case_match; done.
  - unfold yvex_ir_function_add. destruct (or_else _ _) as [[]| |]; try done. cbn zeta.
    destruct (_ <? _); [done|]. destruct (_ && _); [done|].
    destruct (ir_reserve _ _ _ _); [|done].
    match goal with |- _ (fst (?f ?s)) = _ => change (m_references m) with (m_references s) end.
    apply so_bind_fst; [apply block_add_references|]. done.
  - unfold yvex_ir_operation_add, link_operation. repeat case_match; done.
  - unfold yvex_ir_region_add. repeat (case_match; try done).
    apply so_bind_fst; [apply block_add_references|]. done.
Qed.

(** Reference counting is exact: along every history of opens, retains,
    closes, constructor calls and sealing, the reference count is the number of
    live owners (never zero, never wrapping), so a close frees the module
    exactly when it releases the last owner. *)
Theorem references_exact m n :
  owned m n ->
  m_references m = n /\ 1 <= n <= UINT_MAX /\
  ((yvex_ir_module_close m).2 = true <-> n = 1).
Proof.
  intros H. cut (m_references m = n /\ 1 <= n <= UINT_MAX).
  { intros [Hr Hn]. split; [done|]. split; [done|]. cbn. lia. }
  induction H as [alloc name source dialects m Ho|m m' n _ IH Hr|m m' n _ IH Hc|m n i _ IH|alloc c m n _ IH].
  - unfold yvex_ir_module_open in Ho. repeat case_match; simplify_eq. cbn. unfold UINT_MAX, UINT32_MAX. lia.
  - unfold yvex_ir_module_retain in Hr. destruct (negb _); [done|].
    destruct (_ || _) eqn:Hg; [done|]. bool_hyps. simplify_eq. cbn. lia.
  - unfold yvex_ir_module_close in Hc. simplify_eq. destruct IH as [IH Hn]. cbn.
    rewrite u32_id by (unfold is_u32, UINT_MAX, UINT32_MAX in *; lia). lia.
  - done.
  - by rewrite ir_run_references.
Qed.

(** ** A concrete program: two functions, a call and state-free arithmetic *)

Definition grant : allocator := fun _ => true.

Definition demo_identity : string :=
  "0123456789abcdef0123456789abcdef0123456789abcdef0123456789abcdef".

Definition demo_open : yvex_ir_module :=
  mk_module 1 "demo" demo_identity "" builtin_dialects [] [] [] [] [] []
    (mk_capacities 0 0 0 0 0 0) 0 false.

Definition demo_type : yvex_ir_type :=
  mk_type YVEX_IR_TENSOR YVEX_IR_F32 2 [mk_extent 0 0; mk_extent YVEX_IR_NONE 8] "" 0 [].

Definition demo_calls : list ir_call :=
  [CallDimension (mk_dimension "rows" 1 128 1);
   CallType demo_type;
   CallFunction "helper" [0] [0] 0;
   CallOperation 0 (mk_request "core.identity" [0] [0] [] 0);
   CallOperation 0 (mk_request "core.return" [1] [] [] 0);
   CallFunction "main" [0] [0] 0;
   CallOperation 1 (mk_request "core.call" [2] [0]
     [mk_attribute "callee" (AttrSymbol "helper")] 0);
   CallOperation 1 (mk_request "core.identity" [2] [0] [] 0);
   CallOperation 1 (mk_request "core.return" [3] [] [] 0)].

Definition demo_module : yvex_ir_module :=
  foldl (fun m c => (ir_run grant c m).1) demo_open demo_calls.

Lemma demo_open_reachable : ir_reachable demo_open.
Proof. apply (reach_open grant "demo" demo_identity builtin_dialects). vm_compute. reflexivity. Qed.

Lemma demo_reachable : ir_reachable demo_module.
Proof.
  unfold demo_module. cbn [foldl demo_calls].
  repeat (apply reach_call; [|cbn; unfold is_u64, is_u32; first [exact I|lia]]).
  apply demo_open_reachable.
Qed.

Lemma demo_native : native_dialects (m_dialects demo_module).
Proof. assert (m_dialects demo_module = builtin_dialects) as -> by (vm_compute; reflexivity). apply native_builtin. Qed.

(** The calls build what they describe. *)
Example demo_shape :
  (zlen (m_operations demo_module), zlen (m_values demo_module), m_storage_bytes demo_module,
   block_ops (m_operations demo_module) 1, yvex_ir_function_find demo_module "main")
  = (5, 5, 1424, [2; 3; 4], Some 1).
Proof. vm_compute. reflexivity. Qed.

Lemma ir_reserve_spec_witness :
  ir_reserve true 16 17 72 = Some 32 /\ 17 <= 32 /\ 32 * 72 <= SIZE_MAX.
Proof.
  pose proof (ir_reserve_spec true 16 17 72) as H.
  destruct (ir_reserve true 16 17 72) as [n|] eqn:E; [|vm_compute in E; discriminate E].
  assert (n = 32) as -> by (vm_compute in E; congruence).
  split; [reflexivity|]. destruct H as (? & _ & ?); [unfold IR_OBJECT_LIMIT; lia|lia|]. split; assumption.
Defined.

Lemma reachable_calls_safe_witness :
  module_wf demo_module /\
  (ir_run grant (CallOperation 1 (mk_request "core.identity" [2] [0] [] 0)) demo_module).2
    = Refuse YVEX_ERR_FORMAT "operation cannot follow a block terminator" /\
  same_program demo_module
    (ir_run grant (CallOperation 1 (mk_request "core.identity" [2] [0] [] 0)) demo_module).1.
Proof.
  pose proof (reachable_calls_safe demo_module grant
    (CallOperation 1 (mk_request "core.identity" [2] [0] [] 0)) demo_reachable I) as (Hw & _ & Hp).
  assert ((ir_run grant (CallOperation 1 (mk_request "core.identity" [2] [0] [] 0)) demo_module).2
    = Refuse YVEX_ERR_FORMAT "operation cannot follow a block terminator") as E
    by (vm_compute; reflexivity).
  rewrite E in Hp. split; [exact Hw|]. split; [exact E|exact Hp].
Defined.

Lemma tensor_valid_exact_witness :
  yvex_ir_type_valid demo_module demo_type = true.
Proof.
  apply (tensor_valid_exact demo_module YVEX_IR_F32 2 [mk_extent 0 0; mk_extent YVEX_IR_NONE 8]).
  - apply reachable_wf, demo_reachable.
  - vm_compute. split; discriminate.
  - vm_compute. split; discriminate.
  - intros e He. rewrite !elem_of_cons in He. unfold is_u64.
    destruct He as [->|[->|He]]; cbn; [lia..|]. by apply not_elem_of_nil in He.
  - exists [128; 8]. split; [repeat constructor|vm_compute; discriminate].
Defined.

Lemma type_intern_canonical_witness :
  exists m', yvex_ir_type_intern grant demo_type demo_module = (m', Done 0) /\
    yvex_ir_type_intern grant demo_type m' = (m', Done 0).
Proof.
  assert (yvex_ir_type_intern grant demo_type demo_module = (demo_module, Done 0)) as E
    by (vm_compute; reflexivity).
  exists demo_module. split; [exact E|].
  destruct (type_intern_canonical grant demo_type demo_module demo_module 0) as (_ & _ & H).
  - apply reachable_wf, demo_reachable.
  - vm_compute. split; [discriminate|reflexivity].
  - exact E.
  - apply H. vm_compute. discriminate.
Defined.

Lemma builtin_namespaces_protected_witness :
  exists b, b ∈ builtin_dialects /\
    default (mk_definition "" 0 0 0 0 0 0 0 [] 0 None)
      (yvex_ir_definition_find demo_open "core.call" 1) ∈ dia_operations b.
Proof.
  apply (builtin_namespaces_protected builtin_dialects).
  - vm_compute. reflexivity.
  - apply builtin_coherent.
  - vm_compute. repeat (first [apply list_elem_of_here|apply list_elem_of_further]).
  - exists CoreOperations, 0%nat. eexists _, "core.". split; [apply list_elem_of_here|].
    split; vm_compute; reflexivity.
Defined.

Lemma references_exact_witness :
  owned demo_open 1 /\ m_references demo_open = 1.
Proof.
  assert (owned demo_open 1) as H
    by (apply (owned_open grant "demo" demo_identity builtin_dialects); vm_compute; reflexivity).
  split; [exact H|]. exact (proj1 (references_exact demo_open 1 H)).
Defined.
