(* ===== verification/IrVerify.v ===== *)
(** * IrVerify: the module verifier

    Models [src/ir/verify.c]: attribute conformance, declared effects, SSA
    visibility, state-version consumption, the recursive block verification, the
    call-graph colouring, parameter-symbol consistency and [yvex_ir_verify].

    The marks [visited] and [consumed] are the byte arrays of the C program,
    threaded as state; nesting is bounded by the C depth limit of 64, and a walk
    along an operation chain carries [operation_count + 1] steps of fuel, which
    the invariant of [IrInvariant] shows to be enough. *)

From Stdlib Require Import ZArith Lia Bool Sorting.Sorted.
From stdpp Require Import base list option numbers strings sets.
From S2P Require Import Prelude Core Sha256 Text Float64 IrData IrCore IrSequence IrNeural IrModule IrInvariant.

(** ** Dispatch of the verifier callbacks *)

Definition verifier_run (v : verifier) : yvex_ir_module -> Z -> outcome unit :=
  match v with
  | V_core_identity => core_identity
  | V_core_parameter => core_parameter
  | V_core_index => core_index
  | V_core_observe => core_observe
  | V_core_return => core_return
  | V_core_yield => core_yield
  | V_core_call => core_call
  | V_core_regions => core_regions
  | V_core_state_read => core_state_read
  | V_core_state_update => core_state_update
  | V_sequence_short_conv => sequence_short_conv_verify
  | V_sequence_ssd => sequence_ssd_verify
  | V_sequence_delta => sequence_delta_verify
  | V_sequence_attention => sequence_attention_verify
  | V_neural_unary => neural_unary
  | V_neural_binary => neural_binary
  | V_neural_cast => neural_cast
  | V_neural_indexed_rows => neural_indexed_rows
  | V_neural_index_linearize => neural_index_linearize
  | V_neural_sinusoidal => neural_sinusoidal
  | V_neural_axis_rotary => neural_axis_rotary
  | V_neural_reshape => neural_reshape
  | V_neural_linear => neural_linear
  | V_neural_linear_residual => neural_linear_residual
  | V_neural_linear_bias => neural_linear_bias
  | V_neural_split_three => neural_split_three
  | V_neural_split_two => neural_split_two
  | V_neural_channel_bias => neural_channel_bias
  | V_neural_interleaved_three => neural_interleaved_three
  | V_neural_swiglu_split => neural_swiglu_split
  | V_neural_weighted_rms => neural_weighted_rms
  | V_neural_rms_normalize => neural_rms_normalize
  | V_neural_slice_rows => neural_slice_rows
  | V_neural_rows => neural_rows
  | V_neural_grid => neural_grid
  | V_neural_embedding => neural_embedding
  | V_neural_norm => neural_norm
  | V_neural_routed_swiglu => neural_routed_swiglu
  | V_neural_group_norm => neural_group_norm
  | V_neural_rotary_half => neural_rotary_half
  | V_neural_attention => neural_attention
  | V_neural_rotary_tables => neural_rotary_tables
  | V_neural_masked_rows => neural_masked_rows
  | V_neural_mhc_pre => neural_mhc_pre
  | V_neural_mhc_head => neural_mhc_head
  | V_neural_stream_mean => neural_stream_mean
  | V_neural_mhc_post => neural_mhc_post
  | V_neural_mean => neural_mean
  | V_neural_clamp => neural_clamp
  | V_neural_clamped_swiglu => neural_clamped_swiglu
  | V_neural_convolution => neural_convolution
  | V_neural_spatial_convolution => neural_spatial_convolution
  | V_neural_spatial_norm => neural_spatial_norm
  | V_neural_alias_snake => neural_alias_snake
  | V_neural_indexed_conditioning => neural_indexed_conditioning
  end.

(** ** Attributes *)

Definition ir_attribute_valid (m : yvex_ir_module) (a : yvex_ir_attribute) : bool :=
  yvex_ir_name_valid (attr_name a) false &&
  match attr_value a with
  | AttrU64 _ => true
  | AttrF64 real => f64_isfinite real
  | AttrBool integer => integer <=? 1
  | AttrType type => (0 <=? type) && (type <? zlen (m_types m))
  | AttrSymbol text => yvex_ir_name_valid text false
  | AttrText text => negb (text_unterminated text)
  | AttrOther _ _ => false
  end.

(** The first loop: each attribute is valid, not a duplicate of an earlier one,
    and of the kind its rule declares. *)
Fixpoint attributes_conform (m : yvex_ir_module) (rules : list yvex_ir_attribute_rule)
    (seen attributes : list yvex_ir_attribute) : bool :=
  match attributes with
  | [] => true
  | a :: attributes =>
      ir_attribute_valid m a
      && negb (existsb (fun b => String.eqb (attr_name a) (attr_name b)) seen)
      && match List.find (fun r => String.eqb (attr_name a) (rule_name r)) rules with
         | None => false
         | Some r => attr_kind a =? rule_kind r
         end
      && attributes_conform m rules (seen ++ [a]) attributes
  end.

Definition ir_attributes_verify (m : yvex_ir_module) (op : yvex_ir_operation) : bool :=
  attributes_conform m (def_attributes (op_definition op)) [] (op_attributes op)
  && forallb (fun r => (rule_required r =? 0)
       || existsb (fun a => String.eqb (attr_name a) (rule_name r)) (op_attributes op))
       (def_attributes (op_definition op)).

(** ** Effects *)

Definition is_call (op : yvex_ir_operation) : bool :=
  String.eqb (def_name (op_definition op)) "core.call".

Definition yvex_ir_operation_effects (m : yvex_ir_module) (id : Z) : outcome Z :=
  match yvex_ir_operation_at m id with
  | None => Done IR_EFFECT_MASK
  | Some op =>
      if negb (is_call op) then Done (def_effects (op_definition op))
      else
        match yvex_ir_attribute_get m id "callee" with
        | Some (mk_attribute _ (AttrSymbol text)) =>
            match yvex_ir_function_find m text with
            | Some function => f ← functions_read m function; Done (f_effects f)
            | None => Done IR_EFFECT_MASK
            end
        | _ => Done IR_EFFECT_MASK
        end
  end.

(** ** Visibility *)

(** The walk from a use to its enclosing operations; [fuel] is 64 minus the
    depth already climbed. *)
Fixpoint visible_loop (fuel : nat) (m : yvex_ir_module) (v : yvex_ir_value)
    (op : yvex_ir_operation) (use : Z) : outcome bool :=
  match fuel with
  | O => Done false
  | S fuel =>
      match yvex_ir_block_at m (op_block op) with
      | None => Done false
      | Some block =>
          if op_block op =? v_block v
          then Done ((v_definition v =? YVEX_IR_NONE) || (v_definition v <? use))
          else
            type ← types_read m (v_type v);
            if (ty_kind type =? YVEX_IR_STATE) || (b_parent_operation block =? YVEX_IR_NONE)
            then Done false
            else
              match yvex_ir_operation_at m (b_parent_operation block) with
              | None => Done false
              | Some parent => visible_loop fuel m v parent (b_parent_operation block)
              end
      end
  end.

Definition ir_visible (m : yvex_ir_module) (value use : Z) : outcome bool :=
  match yvex_ir_value_at m value, yvex_ir_operation_at m use with
  | Some v, Some op => visible_loop 64 m v op use
  | _, _ => Done false
  end.

(** ** State versions *)

Record marks : Type := mk_marks {
  visited : list bool;
  consumed : list bool
}.

(** Write of one mark; outside the array it is a fault. *)
Definition mark (l : list bool) (i : Z) : outcome (list bool) :=
  if (0 <=? i) && (i <? zlen l) then Done (zset l i true) else Fault OutOfBounds.

Definition has_effect (effects effect : Z) : bool := negb (Z.land effects effect =? 0).

Definition is_transfer (op : yvex_ir_operation) : bool :=
  negb (def_terminator (op_definition op) =? 0) || negb (def_regions (op_definition op) =? 0)
  || is_call op.

Definition value_is_state (m : yvex_ir_module) (value : Z) : outcome bool :=
  v ← values_read m value; t ← types_read m (v_type v); Done (ty_kind t =? YVEX_IR_STATE).

(** The checks of one operand; [earlier] are the operands before it. *)
Definition state_operand (m : yvex_ir_module) (consumed : list bool) (effects : Z)
    (transfer : bool) (earlier : list Z) (value : Z) : outcome unit :=
  state ← value_is_state m value;
  if negb state then Done tt else
  stale ← read_at consumed value;
  _ ← format_if (stale || (negb transfer && negb (has_effect effects YVEX_IR_READ_STATE)))
    "state version is stale or read effect is undeclared";
  if negb (has_effect effects YVEX_IR_WRITE_STATE) && negb transfer then Done tt
  else format_if (existsb (fun other => other =? value) earlier)
    "state version cannot be consumed twice".

Fixpoint state_operands (m : yvex_ir_module) (consumed : list bool) (effects : Z)
    (transfer : bool) (earlier operands : list Z) : outcome unit :=
  match operands with
  | [] => Done tt
  | value :: operands =>
      _ ← state_operand m consumed effects transfer earlier value;
      state_operands m consumed effects transfer (earlier ++ [value]) operands
  end.

Definition ir_state_verify (m : yvex_ir_module) (id : Z) : SO marks unit := fun s =>
  let checked :=
    op ← operations_read m id;
    effects ← yvex_ir_operation_effects m id;
    let transfer := is_transfer op in
    _ ← state_operands m (consumed s) effects transfer [] (op_operands op);
    _ ← eachO (fun r =>
          state ← value_is_state m r;
          format_if (state && negb transfer && negb (has_effect effects YVEX_IR_WRITE_STATE))
            "state result requires a declared write effect") (op_results op);
    if has_effect effects YVEX_IR_WRITE_STATE || transfer then
      foldO (fun c value =>
        state ← value_is_state m value; if state : bool then mark c value else Done c)
        (op_operands op) (consumed s)
    else Done (consumed s) in
  match checked with
  | Done c => (mk_marks (visited s) c, Done tt)
  | Refuse st r => (s, Refuse st r)
  | Fault f => (s, Fault f)
  end.

(** ** Blocks *)

Definition invalid_operation (m : yvex_ir_module) (id : Z) : string :=
  "operation " +:+ dec id +:+ " ("
  +:+ match yvex_ir_operation_at m id with
      | Some op => def_name (op_definition op)
      | None => "unresolved"
      end
  +:+ "): ownership, attributes or effects are invalid".

(** [!op || visited[id] || op->block != block_id || ...] *)
Definition operation_rejected (m : yvex_ir_module) (block_id : Z) (block : yvex_ir_block)
    (seen : list bool) (id : Z) : outcome bool :=
  match yvex_ir_operation_at m id with
  | None => Done true
  | Some op =>
      or_else (read_at seen id)
        (or_else (Done (negb (op_block op =? block_id)
                        || negb (zlen (op_regions op) =? def_regions (op_definition op))
                        || negb (ir_attributes_verify m op)))
          (effects ← yvex_ir_operation_effects m id;
           f ← functions_read m (b_function block);
           Done (negb (Z.land effects (Z.lnot (f_effects f)) =? 0))))
  end.

(** A value is defined at ordinal [index] by [definition] in [block_id]. *)
Definition value_defined (m : yvex_ir_module) (block_id definition : Z) (value index : Z) : bool :=
  match yvex_ir_value_at m value with
  | None => false
  | Some v => (0 <=? v_type v) && (v_type v <? zlen (m_types m)) && (v_block v =? block_id)
              && (v_definition v =? definition) && (v_ordinal v =? index)
  end.

Definition values_defined (m : yvex_ir_module) (block_id definition : Z) (l : list Z) : bool :=
  forallb (fun p => value_defined m block_id definition (snd p) (Z.of_nat (fst p)))
    (imap (fun i v => (i, v)) l).

(** The checks of one operation that do not change the marks. *)
Definition operation_checked (m : yvex_ir_module) (block_id : Z) (op : yvex_ir_operation) (id : Z)
    : outcome unit :=
  _ ← eachO (fun operand =>
        visible ← ir_visible m operand id;
        format_if (negb visible) "operand definition does not dominate this use") (op_operands op);
  _ ← format_if (negb (values_defined m block_id id (op_results op)))
        "operation result has multiple or invalid definitions";
  verify ← deref (def_verify (op_definition op));
  verifier_run verify m id.

(** One iteration of the operation loop; [recurse] verifies a nested block. *)
Definition operation_verify (recurse : Z -> SO marks unit) (m : yvex_ir_module) (block_id : Z)
    (block : yvex_ir_block) (id : Z) : SO marks unit :=
  s ← so_get;
  rejected ← so_lift (operation_rejected m block_id block (visited s) id);
  _ ← so_refuse_if rejected YVEX_ERR_FORMAT (invalid_operation m id);
  op ← so_lift (operations_read m id);
  seen ← so_lift (mark (visited s) id);
  _ ← so_put (mk_marks seen (consumed s));
  _ ← so_lift (operation_checked m block_id op id);
  _ ← ir_state_verify m id;
  _ ← so_each (fun r =>
        _ ← so_refuse_if
          (match yvex_ir_block_at m r with
           | None => true
           | Some region => negb (b_parent_operation region =? id)
               || negb (b_function region =? b_function block)
           end) YVEX_ERR_FORMAT "region has invalid parent ownership";
        recurse r) (op_regions op);
  so_refuse_if (negb (def_terminator (op_definition op) =? 0) && negb (op_next op =? YVEX_IR_NONE))
    YVEX_ERR_FORMAT "block terminator must be last".

(** The operation loop: the last operation verified. *)
Fixpoint chain_verify (fuel : nat) (recurse : Z -> SO marks unit) (m : yvex_ir_module)
    (block_id : Z) (block : yvex_ir_block) (id last : Z) : SO marks Z :=
  match fuel with
  | O => so_lift (Fault OutOfFuel)
  | S fuel =>
      if id =? YVEX_IR_NONE then mret last else
      _ ← operation_verify recurse m block_id block id;
      op ← so_lift (operations_read m id);
      chain_verify fuel recurse m block_id block (op_next op) id
  end.

Definition chain_fuel (m : yvex_ir_module) : nat := S (length (m_operations m)).

(** [depth] is 65 minus the fuel. *)
Fixpoint ir_block_verify (fuel : nat) (m : yvex_ir_module) (block_id : Z) : SO marks unit :=
  let missing := so_refuse YVEX_ERR_FORMAT "block is missing a body or exceeds nesting limit" in
  match fuel, yvex_ir_block_at m block_id with
  | S fuel, Some block =>
      if negb ((0 <=? b_function block) && (b_function block <? zlen (m_functions m)))
         || (b_first_operation block =? YVEX_IR_NONE) then missing
      else
        _ ← so_refuse_if (negb (values_defined m block_id YVEX_IR_NONE (b_arguments block)))
              YVEX_ERR_FORMAT "block argument has invalid ownership";
        last ← chain_verify (chain_fuel m) (ir_block_verify fuel m) m block_id block
                 (b_first_operation block) YVEX_IR_NONE;
        unterminated ← so_lift (or_else (Done (negb (last =? b_last_operation block)))
          (op ← operations_read m last; Done (def_terminator (op_definition op) =? 0)));
        so_refuse_if unterminated YVEX_ERR_FORMAT "block has no unique final terminator"
  | _, _ => missing
  end.

(** ** Call graph *)

(** Loop over the chain of a block; [visit] colours a callee and [nested] walks
    a region.  A false result ends the walk. *)
Fixpoint calls_chain (fuel : nat) (visit nested : Z -> SO (list Z) bool) (m : yvex_ir_module)
    (id : Z) : SO (list Z) bool :=
  match fuel with
  | O => so_lift (Fault OutOfFuel)
  | S fuel =>
      if id =? YVEX_IR_NONE then mret true else
      op ← so_lift (operations_read m id);
      called ← (if is_call op then
                  match yvex_ir_attribute_get m id "callee" with
                  | None => mret false
                  | Some callee =>
                      text ← so_lift (value_text callee);
                      match yvex_ir_function_find m text with
                      | None => mret false
                      | Some target => visit target
                      end
                  end
                else mret true);
      if negb called then mret false else
      walked ← (fix walk (l : list Z) : SO (list Z) bool :=
                  match l with
                  | [] => mret true
                  | r :: l => ok ← nested r; if ok : bool then walk l else mret false
                  end) (op_regions op);
      if negb walked then mret false else
      calls_chain fuel visit nested m (op_next op)
  end.

(** The body of [ir_call_visit] below the depth test. *)
Definition call_visit_with (calls : Z -> SO (list Z) bool) (m : yvex_ir_module) (function : Z)
    : SO (list Z) bool :=
  colors ← so_get;
  color ← so_lift (read_at colors function);
  if color =? 1 then mret false else
  if color =? 2 then mret true else
  _ ← so_put (zset colors function 1);
  f ← so_lift (functions_read m function);
  ok ← calls (f_body f);
  if negb ok then mret false else
  _ ← so_modify (fun c => zset c function 2);
  mret true.

(** [depth] is 65 minus the fuel. *)
Fixpoint ir_block_calls (fuel : nat) (m : yvex_ir_module) (block : Z) : SO (list Z) bool :=
  match fuel with
  | O => mret false
  | S fuel =>
      b ← so_lift (blocks_read m block);
      calls_chain (chain_fuel m)
        (fun target => match fuel with
                       | O => mret false
                       | S _ => call_visit_with (ir_block_calls fuel m) m target
                       end)
        (ir_block_calls fuel m) m (b_first_operation b)
  end.

Definition ir_call_visit (fuel : nat) (m : yvex_ir_module) (function : Z) : SO (list Z) bool :=
  match fuel with
  | O => mret false
  | S _ => call_visit_with (ir_block_calls fuel m) m function
  end.

(** ** Parameter symbols *)

Record ir_parameter : Type := mk_parameter {
  par_source : string;
  par_symbol : string;
  par_type : Z
}.

(** [strcmp] of the sources, then of the symbols. *)
Definition ir_parameter_compare (a b : ir_parameter) : comparison :=
  match String.compare (par_source a) (par_source b) with
  | Eq => String.compare (par_symbol a) (par_symbol b)
  | c => c
  end.

Definition is_parameter (op : yvex_ir_operation) : bool :=
  String.eqb (def_name (op_definition op)) "core.parameter".

Definition parameter_at (m : yvex_ir_module) (index : Z) : outcome ir_parameter :=
  op ← operations_read m index;
  source ← deref (yvex_ir_attribute_get m index "source");
  source ← value_text source;
  symbol ← deref (yvex_ir_attribute_get m index "parameter");
  symbol ← value_text symbol;
  type ← result_type_id m op 0;
  Done (mk_parameter source symbol type).

Definition parameter_ids (m : yvex_ir_module) : list Z :=
  List.filter (fun i => match zget (m_operations m) i with
                        | Some op => is_parameter op
                        | None => false
                        end) (zseq (zlen (m_operations m))).

(** [qsort]; the order among equal keys is unspecified in C and immaterial to
    the scan below. *)
Definition parameter_sort (l : list ir_parameter) : list ir_parameter :=
  sort_by ir_parameter_compare l.

(** Adjacent equal symbols with different types. *)
Fixpoint parameters_conflict (l : list ir_parameter) : bool :=
  match l with
  | p :: ((q :: _) as l) =>
      (match ir_parameter_compare p q with Eq => negb (par_type p =? par_type q) | _ => false end)
      || parameters_conflict l
  | _ => false
  end.

Definition ir_parameters_verify (granted : bool) (m : yvex_ir_module) : outcome unit :=
  let ids := parameter_ids m in
  if zlen ids =? 0 then Done tt
  else if negb granted
  then Refuse YVEX_ERR_NOMEM "parameter symbol verification allocation failed"
  else
    parameters ← mapO (parameter_at m) ids;
    format_if (parameters_conflict (parameter_sort parameters))
      "one source parameter cannot declare incompatible logical types".

(** ** The whole module *)

Definition verify_function (m : yvex_ir_module) (index : Z) : SO marks unit :=
  function ← so_lift (functions_read m index);
  _ ← so_refuse_if
    (match yvex_ir_block_at m (f_body function) with
     | None => true
     | Some body => negb (b_function body =? index)
         || negb (b_parent_operation body =? YVEX_IR_NONE)
     end) YVEX_ERR_FORMAT "function body ownership is invalid";
  ir_block_verify 65 m (f_body function).

Definition verify_calls (m : yvex_ir_module) (index : Z) : SO (list Z) unit :=
  ok ← ir_call_visit 65 m index;
  so_refuse_if (negb ok) YVEX_ERR_FORMAT "recursive calls require explicit bounded regions".

Definition yvex_ir_verify (alloc : allocator) (m : yvex_ir_module) : outcome unit :=
  if (zlen (m_functions m) =? 0) || (zlen (m_operations m) =? 0)
  then format_refuse "module must contain computational entrypoints"
  else if negb (forallb (yvex_ir_type_valid m) (m_types m))
  then format_refuse "module contains invalid type geometry"
  else if negb (alloc 0%nat && alloc 1%nat && alloc 2%nat)
  then Refuse YVEX_ERR_NOMEM "IR verification allocation failed"
  else
    let functions := zseq (zlen (m_functions m)) in
    let start := mk_marks (replicate (length (m_operations m)) false)
      (replicate (Nat.max 1 (length (m_values m))) false) in
    let '(marks, verified) := so_each (verify_function m) functions start in
    _ ← verified;
    _ ← format_if (existsb negb (visited marks)) "orphan operation";
    _ ← ir_parameters_verify (alloc 3%nat) m;
    (so_each (verify_calls m) functions (replicate (length (m_functions m)) 0)).2.

(** * What verification establishes *)

(** ** Specification *)

(** A definition dominates a use: it is an argument or an earlier operation of
    the block of the use, or, for a value that is not a state, it dominates the
    operation whose region holds the use. *)
Inductive dominates (m : yvex_ir_module) (v : yvex_ir_value) : Z -> Prop :=
  | dominates_here use op :
      zget (m_operations m) use = Some op -> op_block op = v_block v ->
      (v_definition v = YVEX_IR_NONE \/ v_definition v < use) -> dominates m v use
  | dominates_region use op block t :
      zget (m_operations m) use = Some op -> zget (m_blocks m) (op_block op) = Some block ->
      zget (m_types m) (v_type v) = Some t -> ty_kind t <> YVEX_IR_STATE ->
      dominates m v (b_parent_operation block) -> dominates m v use.


(** Facts [verify.c] establishes about one operation. *)
Definition operation_ok (m : yvex_ir_module) (id : Z) : Prop :=
  exists op block f effects,
    zget (m_operations m) id = Some op /\ zget (m_blocks m) (op_block op) = Some block /\
    zget (m_functions m) (b_function block) = Some f /\
    zlen (op_regions op) = def_regions (op_definition op) /\
    ir_attributes_verify m op = true /\
    yvex_ir_operation_effects m id = Done effects /\ Z.land effects (Z.lnot (f_effects f)) = 0 /\
    Forall (fun o => exists v, zget (m_values m) o = Some v /\ dominates m v id) (op_operands op) /\
    values_defined m (op_block op) id (op_results op) = true /\
    (exists verify, def_verify (op_definition op) = Some verify /\
       verifier_run verify m id = Done tt) /\
    (def_terminator (op_definition op) <> 0 -> op_next op = YVEX_IR_NONE).

(** The state values an operation uses, and those it consumes. *)
Definition is_state_value (m : yvex_ir_module) (value : Z) : bool :=
  match zget (m_values m) value with
  | None => false
  | Some v => match zget (m_types m) (v_type v) with
              | None => false
              | Some t => ty_kind t =? YVEX_IR_STATE
              end
  end.

Definition state_uses (m : yvex_ir_module) (id : Z) : list Z :=
  match zget (m_operations m) id with
  | None => []
  | Some op => List.filter (is_state_value m) (op_operands op)
  end.

Definition consumes (m : yvex_ir_module) (id : Z) : list Z :=
  match zget (m_operations m) id, yvex_ir_operation_effects m id with
  | Some op, Done effects =>
      if has_effect effects YVEX_IR_WRITE_STATE || is_transfer op then state_uses m id else []
  | _, _ => []
  end.

(** Operations in the order they are verified never use a state version that an
    earlier one consumed, and never consume one twice. *)
Fixpoint uses_fresh (m : yvex_ir_module) (gone : list Z) (ids : list Z) : Prop :=
  match ids with
  | [] => True
  | id :: ids => Forall (fun v => v ∉ gone) (state_uses m id) /\ NoDup (consumes m id) /\
      uses_fresh m (gone ++ consumes m id) ids
  end.

Lemma uses_fresh_app m gone l k :
  uses_fresh m gone (l ++ k) <->
  uses_fresh m gone l /\ uses_fresh m (gone ++ concat (consumes m <$> l)) k.
Proof.
  revert gone. induction l as [|id l IH]; intros gone; cbn.
  - rewrite app_nil_r. naive_solver.
  - rewrite IH, app_assoc. naive_solver.
Qed.

(** ** The effect of a successful run on the marks *)

Definition marked (l : list bool) (i : Z) : Prop := zget l i = Some true.

(** [ids] is the trace of a successful run from marks [s] to [s']. *)
Record traced (m : yvex_ir_module) (s s' : marks) (ids : list Z) : Prop := {
  traced_lengths : zlen (visited s') = zlen (visited s) /\ zlen (consumed s') = zlen (consumed s);
  traced_visited : forall i, marked (visited s') i <-> marked (visited s) i \/ i ∈ ids;
  traced_once : NoDup ids /\ forall i, i ∈ ids -> ~ marked (visited s) i;
  traced_consumed : forall v, marked (consumed s') v <->
    marked (consumed s) v \/ v ∈ concat (consumes m <$> ids);
  traced_fresh : forall gone, (forall v, v ∈ gone -> marked (consumed s) v) ->
    uses_fresh m gone ids;
  traced_ok : Forall (operation_ok m) ids
}.

Lemma traced_nil m s : traced m s s [].
Proof.
  constructor; try done; cbn.
  - set_solver.
  - split; [constructor|set_solver].
  - set_solver.
Qed.

Lemma traced_app m s1 s2 s3 l k : traced m s1 s2 l -> traced m s2 s3 k -> traced m s1 s3 (l ++ k).
Proof.
  intros [[L1 L1'] V1 [O1 O1'] C1 F1 K1] [[L2 L2'] V2 [O2 O2'] C2 F2 K2]. constructor.
  - split; congruence.
  - intros i. rewrite V2, V1. set_solver.
  - split.
    + apply NoDup_app. split; [done|]. split; [|done]. intros i Hi Hi'.
      apply (O2' i Hi'). apply V1. by right.
    + intros i [Hi|Hi]%elem_of_app; [by apply O1'|]. intros Hm. apply (O2' i Hi). apply V1. by left.
  - intros v. rewrite C2, C1, fmap_app, concat_app. set_solver.
  - intros gone Hg. apply uses_fresh_app. split; [by apply F1|]. apply F2.
    intros v [Hv|Hv]%elem_of_app; apply C1; [left; by apply Hg|by right].
  - by apply Forall_app.
Qed.

(** ** Single steps *)

Lemma visible_loop_dominates fuel m v op use :
  zget (m_operations m) use = Some op -> visible_loop fuel m v op use = Done true -> dominates m v use.
Proof.
  revert op use. induction fuel as [|fuel IH]; intros op use Hop H; cbn in H; [done|].
  unfold yvex_ir_block_at in H. destruct (zget (m_blocks m) (op_block op)) as [block|] eqn:Hb; [|done].
  destruct (op_block op =? v_block v) eqn:Hbv.
  - injection H as H. eapply dominates_here; [done|lia|]. lia.
  - apply bind_Done in H as (t & Ht%read_at_Done & H).
    destruct (_ || _) eqn:Hs; [done|]. bool_hyps.
    unfold yvex_ir_operation_at in H.
    destruct (zget (m_operations m) (b_parent_operation block)) as [parent|] eqn:Hp; [|done].
    eapply dominates_region; [done..|lia|]. by eapply IH.
Qed.

Lemma ir_visible_dominates m value use :
  ir_visible m value use = Done true ->
  exists v, zget (m_values m) value = Some v /\ dominates m v use.
Proof.
  unfold ir_visible, yvex_ir_value_at, yvex_ir_operation_at.
  destruct (zget (m_values m) value) as [v|]; [|done].
  destruct (zget (m_operations m) use) as [op|] eqn:Hop; [|done].
  intros H. exists v. split; [done|]. by eapply visible_loop_dominates.
Qed.

Lemma value_is_state_Done m v b : value_is_state m v = Done b -> is_state_value m v = b.
Proof.
  unfold value_is_state, is_state_value. intros H.
  apply bind_Done in H as (x & Hx%read_at_Done & H). rewrite Hx.
  apply bind_Done in H as (t & Ht%read_at_Done & H). rewrite Ht. by injection H.
Qed.

(** What the operand loop accepts. *)
Lemma state_operands_Done m c effects transfer earlier operands :
  state_operands m c effects transfer earlier operands = Done tt ->
  Forall (fun v => is_state_value m v = true -> zget c v = Some false) operands /\
  (has_effect effects YVEX_IR_WRITE_STATE || transfer = true ->
   NoDup (List.filter (is_state_value m) operands) /\
   (forall v, v ∈ List.filter (is_state_value m) operands -> v ∉ earlier)).
Proof.
  revert earlier. induction operands as [|v operands IH]; intros earlier H; cbn in H.
  { split; [constructor|]. intros _. cbn. split; [constructor|set_solver]. }
  apply bind_Done in H as ([] & H1 & H2). apply IH in H2 as [Hall Hnd].
  unfold state_operand in H1. apply bind_Done in H1 as (st & Hst%value_is_state_Done & H1).
  cbn [List.filter]. destruct st; cbn in H1.
  - apply bind_Done in H1 as (stale & Hs%read_at_Done & H1).
    apply bind_Done in H1 as ([] & Hr%refuse_if_Done & H1).
    apply orb_false_iff in Hr as [-> Hr]. split; [by constructor|].
    intros Hw. specialize (Hnd Hw) as [Hnd1 Hnd2]. rewrite Hst.
    assert (negb (has_effect effects YVEX_IR_WRITE_STATE) && negb transfer = false) as Hn
      by (rewrite <- negb_orb, Hw; done).
    rewrite Hn in H1. apply refuse_if_Done in H1.
    assert (v ∉ earlier) as Hv.
    { intros Hin. enough (existsb (fun other => other =? v) earlier = true) by congruence.
      apply existsb_exists. exists v. split; [by apply list_elem_of_In|lia]. }
    split.
    + constructor; [|done]. intros Hin. apply (Hnd2 v Hin). set_solver.
    + intros x [->|Hx]%elem_of_cons; [done|]. intros Hin. apply (Hnd2 x Hx). set_solver.
  - split; [constructor; [congruence|done]|]. intros Hw. rewrite Hst.
    specialize (Hnd Hw) as [Hnd1 Hnd2]. split; [done|]. intros x Hx Hin. apply (Hnd2 x Hx). set_solver.
Qed.

Lemma mark_Done l i l' :
  mark l i = Done l' -> 0 <= i < zlen l /\ l' = zset l i true.
Proof. unfold mark. destruct (_ && _) eqn:E; [|done]. intros [= <-]. split; [lia|done]. Qed.

Lemma marked_zset l i j :
  0 <= i < zlen l -> marked (zset l i true) j <-> marked l j \/ j = i.
Proof.
  intros Hi. unfold marked. destruct (decide (i = j)) as [->|Hne].
  - rewrite zget_zset_eq by done. naive_solver.
  - rewrite zget_zset_ne by done. naive_solver.
Qed.

Lemma consume_fold m operands c c' :
  foldO (fun c value =>
    state ← value_is_state m value; if state : bool then mark c value else Done c) operands c = Done c' ->
  zlen c' = zlen c /\
  forall v, marked c' v <-> marked c v \/ v ∈ List.filter (is_state_value m) operands.
Proof.
  revert c. induction operands as [|o operands IH]; intros c H; cbn in H.
  { injection H as <-. split; [done|]. set_solver. }
  apply bind_Done in H as (c1 & H1 & H2).
  apply bind_Done in H1 as (st & Hst%value_is_state_Done & H1).
  apply IH in H2 as [Hl Hm]. cbn [List.filter]. rewrite Hst. destruct st.
  - apply mark_Done in H1 as [Hr ->]. split; [by rewrite Hl, zlen_zset|].
    intros v. rewrite Hm, marked_zset by done. set_solver.
  - injection H1 as <-. done.
Qed.

Lemma ir_state_verify_Done m id s s' :
  ir_state_verify m id s = (s', Done tt) ->
  visited s' = visited s /\ zlen (consumed s') = zlen (consumed s) /\
  (forall v, marked (consumed s') v <-> marked (consumed s) v \/ v ∈ consumes m id) /\
  Forall (fun v => ~ marked (consumed s) v) (state_uses m id) /\ NoDup (consumes m id).
Proof.
  unfold ir_state_verify. intros H.
  match type of H with match ?r with _ => _ end = _ => destruct r as [marks| |] eqn:E; [|done..] end.
  injection H as <-. cbn [visited consumed].
  apply bind_Done in E as (op & Hop%read_at_Done & E).
  apply bind_Done in E as (effects & Heff & E).
  apply bind_Done in E as ([] & Hops & E). apply bind_Done in E as ([] & _ & E).
  unfold consumes, state_uses. rewrite Hop, Heff.
  apply state_operands_Done in Hops as [Hall Hnd].
  assert (Forall (fun v => ~ marked (consumed s) v)
            (List.filter (is_state_value m) (op_operands op))) as Huse.
  { apply Forall_forall. intros v Hv%list_elem_of_In. apply List.filter_In in Hv as [Hin Hs].
    rewrite Forall_forall in Hall. apply list_elem_of_In in Hin.
    unfold marked. rewrite (Hall v Hin Hs). done. }
  destruct (_ || _) eqn:Hw.
  - apply consume_fold in E as [Hl Hm]. split; [done|]. split; [done|]. split; [done|].
    split; [done|]. by apply Hnd.
  - injection E as <-. split; [done|]. split; [done|]. split; [set_solver|]. split; [done|constructor].
Qed.

(** The guard, the local checks and the marks of one operation. *)
Lemma operation_rejected_false m block_id block seen id :
  operation_rejected m block_id block seen id = Done false ->
  exists op f effects, zget (m_operations m) id = Some op /\ op_block op = block_id /\
    ~ marked seen id /\ zlen (op_regions op) = def_regions (op_definition op) /\
    ir_attributes_verify m op = true /\ zget (m_functions m) (b_function block) = Some f /\
    yvex_ir_operation_effects m id = Done effects /\ Z.land effects (Z.lnot (f_effects f)) = 0.
Proof.
  unfold operation_rejected, yvex_ir_operation_at.
  destruct (zget (m_operations m) id) as [op|] eqn:Hop; [|done].
  rewrite !or_else_false. intros (Hseen%read_at_Done & [= Hg] & He). bool_hyps.
  apply bind_Done in He as (effects & Heff & He).
  apply bind_Done in He as (f & Hf%read_at_Done & [= He]).
  exists op, f, effects. unfold marked. rewrite Hseen.
  apply negb_false_iff in He. repeat split; try done; lia.
Qed.

Lemma operation_checked_Done m block_id op id :
  operation_checked m block_id op id = Done tt ->
  Forall (fun o => exists v, zget (m_values m) o = Some v /\ dominates m v id) (op_operands op) /\
  values_defined m block_id id (op_results op) = true /\
  exists verify, def_verify (op_definition op) = Some verify /\ verifier_run verify m id = Done tt.
Proof.
  unfold operation_checked. intros H.
  apply bind_Done in H as ([] & Hvis & H). apply eachO_Done in Hvis.
  apply bind_Done in H as ([] & Hres%refuse_if_Done & H).
  apply bind_Done in H as (verify & Hver%deref_Done & H).
  split; [|split; [by apply negb_false_iff in Hres|eauto]].
  eapply Forall_impl; [exact Hvis|]. cbn. intros o Ho.
  apply bind_Done in Ho as (b & Hb & Ho%refuse_if_Done). apply negb_false_iff in Ho as ->.
  by apply ir_visible_dominates.
Qed.

(** ** Traces of nested blocks *)

(** Operations of a block and of the regions nested in it. *)
Inductive in_tree (m : yvex_ir_module) (b : Z) : Z -> Prop :=
  | tree_here i op : zget (m_operations m) i = Some op -> op_block op = b -> in_tree m b i
  | tree_region j op r i : zget (m_operations m) j = Some op -> op_block op = b ->
      r ∈ op_regions op -> in_tree m r i -> in_tree m b i.

Definition in_function (m : yvex_ir_module) (f i : Z) : Prop :=
  exists op block, zget (m_operations m) i = Some op /\
    zget (m_blocks m) (op_block op) = Some block /\ b_function block = f.

(** The block of an operation ends in a terminator. *)
Definition block_terminated (m : yvex_ir_module) (b : Z) : Prop :=
  exists block last, zget (m_blocks m) b = Some block /\
    zget (m_operations m) (b_last_operation block) = Some last /\
    def_terminator (op_definition last) <> 0.

Definition operation_terminated (m : yvex_ir_module) (i : Z) : Prop :=
  exists op, zget (m_operations m) i = Some op /\ block_terminated m (op_block op).

(** Program order: the chain of [op_next] links from an operation, and the
    operations that come after one in its block. *)
Inductive chain_of (m : yvex_ir_module) : Z -> list Z -> Prop :=
  | chain_end : chain_of m YVEX_IR_NONE []
  | chain_step i op l : i <> YVEX_IR_NONE -> zget (m_operations m) i = Some op ->
      chain_of m (op_next op) l -> chain_of m i (i :: l).

Inductive precedes (m : yvex_ir_module) (i : Z) : Z -> Prop :=
  | precedes_next op : zget (m_operations m) i = Some op -> op_next op <> YVEX_IR_NONE ->
      precedes m i (op_next op)
  | precedes_more j op : precedes m i j -> zget (m_operations m) j = Some op ->
      op_next op <> YVEX_IR_NONE -> precedes m i (op_next op).

Lemma chain_of_unique m i l k : chain_of m i l -> chain_of m i k -> l = k.
Proof.
  intros H. revert k. induction H as [|i op l Hne Hop Hl IH]; intros k Hk; inversion Hk; simplify_eq; [done|].
  f_equal. by apply IH.
Qed.

Lemma chain_of_suffix m i l a j b : chain_of m i l -> l = a ++ j :: b -> chain_of m j (j :: b).
Proof.
  intros H. revert a. induction H as [|i op l Hne Hop Hl IH]; intros a E; [by destruct a|].
  destruct a as [|x a]; simplify_eq/=; [by econstructor|]. by eapply IH.
Qed.

Lemma chain_of_precedes m i l j : chain_of m i (i :: l) -> j ∈ l -> precedes m i j.
Proof.
  intros H Hj. inversion H as [|? op ? _ Hop Hl]; subst.
  assert (forall k l', chain_of m k l' -> precedes m i k -> j ∈ l' -> precedes m i j) as Hgen.
  { induction 1 as [|k opk l' Hk Hopk Hl' IH]; intros Hp; [set_solver|]. intros [->|Hin]%elem_of_cons; [done|].
    apply IH; [|done]. eapply precedes_more; [done..|]. intros E. rewrite E in Hl'. inversion Hl'; subst; [set_solver|done]. }
  apply (Hgen (op_next op) l Hl); [|done]. apply precedes_next; [done|]. intros E. rewrite E in Hl. inversion Hl; subst; [set_solver|done].
Qed.

Lemma precedes_chain m i l j : chain_of m i (i :: l) -> precedes m i j -> j ∈ l.
Proof.
  intros H Hp. enough (exists a b, l = a ++ j :: b) as (a & b & ->) by set_solver.
  inversion H as [|? op0 ? _ Hop0 Hl]; subst.
  induction Hp as [op Hop Hne|j op Hp IH Hop Hne]; simplify_eq.
  - inversion Hl; subst; [done|]. by exists [], l0.
  - destruct IH as (a & b & ->). apply (chain_of_suffix _ _ _ a j b) in Hl; [|done].
    inversion Hl as [|? op1 ? _ Hop1 Hb]; simplify_eq. inversion Hb; subst; [done|].
    exists (a ++ [j]), l. by rewrite <- app_assoc.
Qed.

(** A walk over a program: the operations of a chain, each followed by those of
    its regions, and the regions of an operation in turn.  The bodies of the
    functions are regions without a parent. *)
Inductive walk_from : Type :=
  | Chain (block id : Z)
  | Regions (parent : Z) (regions : list Z).

Inductive walk (m : yvex_ir_module) : walk_from -> list Z -> Prop :=
  | walk_end b : walk m (Chain b YVEX_IR_NONE) []
  | walk_op b id op nested rest :
      id <> YVEX_IR_NONE -> zget (m_operations m) id = Some op -> op_block op = b ->
      walk m (Regions id (op_regions op)) nested -> walk m (Chain b (op_next op)) rest ->
      walk m (Chain b id) (id :: nested ++ rest)
  | walk_none p : walk m (Regions p []) []
  | walk_region p r block rs l k :
      zget (m_blocks m) r = Some block -> b_parent_operation block = p ->
      walk m (Chain r (b_first_operation block)) l -> walk m (Regions p rs) k ->
      walk m (Regions p (r :: rs)) (l ++ k).

Definition function_bodies (m : yvex_ir_module) : list Z := f_body <$> m_functions m.

(** A trace that follows program order in the block of [i]. *)
Definition follows (m : yvex_ir_module) (ids : list Z) (i : Z) : Prop :=
  exists op block l, zget (m_operations m) i = Some op /\ zget (m_blocks m) (op_block op) = Some block /\
    chain_of m (b_first_operation block) l /\ i ∈ l /\ l `sublist_of` ids.

Definition ordered (m : yvex_ir_module) (ids : list Z) : Prop := Forall (follows m ids) ids.

Lemma follows_weaken m ids ids' i : follows m ids i -> ids `sublist_of` ids' -> follows m ids' i.
Proof.
  intros (op & block & l & H1 & H2 & H3 & H4 & H5) Hs. exists op, block, l. do 4 (split; [done|]). by etrans.
Qed.

Lemma ordered_weaken m ids ids' : ordered m ids -> ids `sublist_of` ids' -> Forall (follows m ids') ids.
Proof. intros H Hs. eapply Forall_impl; [exact H|]. intros i Hi. by eapply follows_weaken. Qed.

Lemma ordered_app m l k : ordered m l -> ordered m k -> ordered m (l ++ k).
Proof.
  intros Hl Hk. apply Forall_app. split; (eapply ordered_weaken; [done|]);
    [by apply sublist_inserts_r|by apply sublist_inserts_l].
Qed.

Definition block_trace (m : yvex_ir_module) (b f : Z) (s s' : marks) (ids : list Z) : Prop :=
  traced m s s' ids /\ Forall (in_tree m b) ids /\ Forall (in_function m f) ids /\
  Forall (operation_terminated m) ids /\ ordered m ids.

Definition verifies (m : yvex_ir_module) (recurse : Z -> SO marks unit) : Prop :=
  forall r s s', recurse r s = (s', Done tt) ->
    exists region ids, zget (m_blocks m) r = Some region /\
      block_trace m r (b_function region) s s' ids /\ walk m (Chain r (b_first_operation region)) ids.

(** One operation followed by the regions it owns. *)
Lemma regions_trace m recurse block_id block id op l s s' :
  verifies m recurse -> zget (m_operations m) id = Some op -> op_block op = block_id ->
  (forall r, r ∈ l -> r ∈ op_regions op) ->
  so_each (fun r =>
      _ ← so_refuse_if
        (match yvex_ir_block_at m r with
         | None => true
         | Some region => negb (b_parent_operation region =? id)
             || negb (b_function region =? b_function block)
         end) YVEX_ERR_FORMAT "region has invalid parent ownership";
      recurse r) l s = (s', Done tt) ->
  exists ids, block_trace m block_id (b_function block) s s' ids /\ walk m (Regions id l) ids.
Proof.
  intros Hrec Hop Hbl. revert s. induction l as [|r l IH]; intros s Hsub H.
  - cbn in H. injection H as <-. exists []. split; [|constructor]. split; [apply traced_nil|].
    repeat (split; [constructor|]). constructor.
  - cbn [so_each] in H. apply so_bind_Done in H as ([] & s1 & H1 & H2).
    apply so_bind_Done in H1 as ([] & s0 & H0 & H1).
    injection H0 as <- Hg%refuse_if_Done.
    destruct (Hrec _ _ _ H1) as (region & ids & Hreg & (Htr & Htree & Hfun & Hterm & Hord) & Hwalk).
    unfold yvex_ir_block_at in Hg. rewrite Hreg in Hg. bool_hyps.
    apply IH in H2 as (ids2 & (Htr2 & Htree2 & Hfun2 & Hterm2 & Hord2) & Hwalk2); [|set_solver].
    exists (ids ++ ids2). split; [|apply (walk_region _ _ _ region); [done|lia|done..]].
    split; [by eapply traced_app|].
    split; [|split; [|split; [|by apply ordered_app]]]; apply Forall_app; (split; [|done]); [..|done].
    + eapply Forall_impl; [exact Htree|]. intros i Hi. apply (tree_region m _ id op r i); [done..| |done]. apply Hsub. set_solver.
    + eapply Forall_impl; [exact Hfun|]. intros i Hi.
      by replace (b_function block) with (b_function region) by lia.
Qed.

Lemma operation_verify_trace m recurse block_id block id s s' :
  verifies m recurse -> zget (m_blocks m) block_id = Some block ->
  operation_verify recurse m block_id block id s = (s', Done tt) ->
  exists ids op, zget (m_operations m) id = Some op /\ op_block op = block_id /\
    traced m s s' (id :: ids) /\ Forall (in_tree m block_id) (id :: ids) /\
    Forall (in_function m (b_function block)) (id :: ids) /\ Forall (operation_terminated m) ids /\
    ordered m ids /\ walk m (Regions id (op_regions op)) ids.
Proof.
  intros Hrec Hblk H. unfold operation_verify in H.
  apply so_bind_Done in H as (s0 & s1 & H0 & H). injection H0 as <- <-.
  apply so_bind_Done in H as (rej & s1 & H1 & H). injection H1 as <- Hrej.
  apply so_bind_Done in H as ([] & s1 & H1 & H). injection H1 as <- Hr%refuse_if_Done. subst rej.
  apply operation_rejected_false in Hrej
    as (op & f & effects & Hop & Hbl & Hns & Hreg & Hattr & Hf & Heff & Hmask).
  apply so_bind_Done in H as (op' & s1 & H1 & H). injection H1 as <- Hop'%read_at_Done. simplify_eq.
  apply so_bind_Done in H as (seen & s1 & H1 & H). injection H1 as <- Hmark.
  apply mark_Done in Hmark as [Hrange ->].
  apply so_bind_Done in H as ([] & s1 & H1 & H). injection H1 as <-.
  apply so_bind_Done in H as ([] & s1 & H1 & H). injection H1 as <- Hck.
  apply operation_checked_Done in Hck as (Hdom & Hdef & Hver).
  apply so_bind_Done in H as ([] & s1 & Hst & H).
  apply ir_state_verify_Done in Hst as (Hv1 & Hl1 & Hc1 & Hu1 & Hn1). cbn in Hv1, Hl1, Hc1, Hu1.
  apply so_bind_Done in H as ([] & s2 & Hregs & H). injection H as <- Hterm%refuse_if_Done.
  apply (regions_trace m recurse (op_block op) block id op) in Hregs
    as (ids & (Htr & Htree & Hfun & Htm & Hord) & Hwalk); [|done..].
  assert (traced m s s1 [id]) as Htr1.
  { constructor.
    - split; [by rewrite Hv1, zlen_zset|done].
    - intros i. rewrite Hv1, marked_zset by done. set_solver.
    - split; [apply NoDup_singleton|]. intros i ->%list_elem_of_singleton. done.
    - intros v. rewrite Hc1. cbn. by rewrite app_nil_r.
    - intros gone Hg. cbn. split; [|done]. eapply Forall_impl; [exact Hu1|]. cbn. intros v Hv Hin.
      by apply Hv, Hg.
    - apply Forall_singleton. exists op, block, f, effects.
      repeat split; try done. intros Hnz. apply andb_false_iff in Hterm as [Ht|Ht]; lia. }
  exists ids, op. split; [done|]. split; [done|]. split; [by apply (traced_app m s s1 s2 [id] ids)|].
  split; [|split; [|done]]; (constructor; [|done]).
  - by eapply tree_here.
  - exists op, block. done.
Qed.

Definition local_or_terminated (m : yvex_ir_module) (b i : Z) : Prop :=
  (exists op, zget (m_operations m) i = Some op /\ op_block op = b) \/ operation_terminated m i.

Lemma chain_verify_trace fuel m recurse block_id block id last s s' final :
  verifies m recurse -> zget (m_blocks m) block_id = Some block ->
  chain_verify fuel recurse m block_id block id last s = (s', Done final) ->
  exists l ids, traced m s s' ids /\ Forall (in_tree m block_id) ids /\
    Forall (in_function m (b_function block)) ids /\
    Forall (local_or_terminated m block_id) ids /\
    chain_of m id l /\ l `sublist_of` ids /\
    Forall (fun i => (exists op, zget (m_operations m) i = Some op /\ op_block op = block_id) /\ i ∈ l
                     \/ follows m ids i) ids /\
    walk m (Chain block_id id) ids.
Proof.
  intros Hrec Hblk. revert id last s. induction fuel as [|fuel IH]; intros id last s H; cbn in H; [done|].
  destruct (id =? YVEX_IR_NONE) eqn:Hid.
  { injection H as <- <-. exists [], []. split; [apply traced_nil|]. repeat (split; [constructor|]).
    apply Z.eqb_eq in Hid as ->. split; [constructor|]. split; [constructor|]. split; constructor. }
  apply so_bind_Done in H as ([] & s1 & H1 & H).
  apply so_bind_Done in H as (op & s2 & H2 & H). injection H2 as <- Hop%read_at_Done.
  apply operation_verify_trace in H1 as (ids & op' & Hop' & Hb & Htr & Htree & Hfun & Hterm & Hord & Hwalk); [|done..].
  apply IH in H as (l2 & ids2 & Htr2 & Htree2 & Hfun2 & Hterm2 & Hch2 & Hsub2 & Hfol2 & Hwalk2).
  exists (id :: l2), ((id :: ids) ++ ids2). split; [by eapply traced_app|].
  split; [by apply Forall_app|]. split; [by apply Forall_app|]. split.
  { apply Forall_app. split; [|done]. constructor; [left; eauto|]. eapply Forall_impl; [exact Hterm|]. by right. }
  split; [apply (chain_step _ _ op); [lia|done..]|].
  split; [cbn; by apply sublist_skip, sublist_inserts_l|].
  split; [|assert (op' = op) as -> by congruence; apply (walk_op _ _ _ op); [lia|done..]]. apply Forall_app. split; [constructor|].
  - left. split; [eauto|left].
  - eapply Forall_impl; [eapply ordered_weaken; [exact Hord|]|by right].
    cbn. by apply sublist_cons, sublist_inserts_r.
  - eapply Forall_impl; [exact Hfol2|]. intros i [[Hi Hin]|Hi]; [left; split; [done|by right]|right].
    eapply follows_weaken; [done|]. by apply sublist_inserts_l.
Qed.

Lemma block_verify_traces fuel m : verifies m (ir_block_verify fuel m).
Proof.
  induction fuel as [|fuel IH]; intros r s s' H; cbn -[or_else chain_verify] in H.
  { by destruct (yvex_ir_block_at m r). }
  unfold yvex_ir_block_at in H. destruct (zget (m_blocks m) r) as [block|] eqn:Hblk; [|done].
  destruct (_ || _); [done|].
  apply so_bind_Done in H as ([] & s1 & H1 & H). injection H1 as <- _.
  apply so_bind_Done in H as (last & s1 & H1 & H).
  apply so_bind_Done in H as (unterm & s2 & H2 & H). apply so_lift_Done in H2 as [-> Hu].
  injection H as <- ->%refuse_if_Done.
  apply or_else_false in Hu as [[= Hl] Hu]. apply negb_false_iff, Z.eqb_eq in Hl. subst last.
  apply bind_Done in Hu as (lastop & Hlast%read_at_Done & [= Hterm]).
  apply chain_verify_trace in H1 as (l & ids & Htr & Htree & Hfun & Hloc & Hch & Hsub & Hfol & Hwalk); [|done..].
  exists block, ids. split; [done|]. split; [|done]. split; [done|]. split; [done|]. split; [done|].
  split; [|eapply Forall_impl; [exact Hfol|]; intros i [[(op & Hop & Hb) Hi]|Hi]; [|done];
    exists op, block, l; by rewrite Hb].
  eapply Forall_impl; [exact Hloc|]. cbn. intros i [(op & Hop & Hb)|Hi]; [|done].
  exists op. split; [done|]. rewrite Hb. exists block, lastop. split; [done|]. split; [done|]. lia.
Qed.

(** The trace of the function loop: every operation of function [f] is in the
    tree of its body. *)
Definition placed (m : yvex_ir_module) (i : Z) : Prop :=
  exists index f, zget (m_functions m) index = Some f /\ in_tree m (f_body f) i /\
    in_function m index i /\ operation_terminated m i.

Lemma functions_trace m l s s' :
  so_each (verify_function m) l s = (s', Done tt) ->
  exists ids bodies, traced m s s' ids /\ Forall (placed m) ids /\ ordered m ids /\
    Forall2 (fun i b => f_body <$> zget (m_functions m) i = Some b) l bodies /\
    walk m (Regions YVEX_IR_NONE bodies) ids.
Proof.
  revert s. induction l as [|index l IH]; intros s H; cbn [so_each] in H.
  { injection H as <-. exists [], []. split; [apply traced_nil|]. repeat (split; [constructor|]). constructor. }
  apply so_bind_Done in H as ([] & s1 & H1 & H2). apply IH in H2 as (ids2 & bodies & Htr2 & Hp2 & Hord2 & Hb2 & Hwalk2).
  unfold verify_function in H1. apply so_bind_Done in H1 as (f & s0 & H0 & H1).
  injection H0 as <- Hf%read_at_Done.
  apply so_bind_Done in H1 as ([] & s0 & H0 & H1). injection H0 as <- Hg%refuse_if_Done.
  apply block_verify_traces in H1 as (region & ids & Hreg & (Htr & Htree & Hfun & Hterm & Hord) & Hwalk).
  unfold yvex_ir_block_at in Hg. rewrite Hreg in Hg. bool_hyps.
  exists (ids ++ ids2), (f_body f :: bodies). split; [by eapply traced_app|].
  split; [|split; [by apply ordered_app|split; [constructor; [by rewrite Hf|done]|
    apply (walk_region _ _ _ region); [done|lia|done..]]]].
  apply Forall_app. split; [|done].
  rewrite Forall_forall in Htree, Hfun, Hterm. apply Forall_forall. intros i Hi.
  exists index, f. split; [done|]. split; [by apply Htree|].
  replace index with (b_function region) by lia. split; [by apply Hfun|by apply Hterm].
Qed.

Lemma bodies_all m bodies :
  Forall2 (fun i b => f_body <$> zget (m_functions m) i = Some b) (zseq (zlen (m_functions m))) bodies ->
  bodies = function_bodies m.
Proof.
  intros H. apply list_eq. intros i. unfold function_bodies. rewrite list_lookup_fmap.
  pose proof (proj1 (Forall2_lookup _ _ _) H i) as Hi. unfold zseq in Hi. rewrite to_nat_zlen, list_lookup_fmap in Hi.
  destruct (m_functions m !! i) as [f|] eqn:E.
  - rewrite lookup_seq_lt in Hi by (by apply lookup_lt_Some in E). cbn in Hi. inversion Hi as [? b Hb E1 E2|]; subst.
    rewrite zget_nat, E in Hb. by rewrite <- Hb.
  - rewrite lookup_seq_ge in Hi by (by apply lookup_ge_None). inversion Hi. done.
Qed.

(** The complete trace of an accepted module. *)
Lemma verify_trace alloc m :
  yvex_ir_verify alloc m = Done tt ->
  exists ids, (forall i, i ∈ ids <-> 0 <= i < zlen (m_operations m)) /\ NoDup ids /\
    Forall (operation_ok m) ids /\ Forall (placed m) ids /\ uses_fresh m [] ids /\ ordered m ids /\
    walk m (Regions YVEX_IR_NONE (function_bodies m)) ids.
Proof.
  unfold yvex_ir_verify. destruct (_ || _); [done|]. destruct (negb _); [done|].
  destruct (negb _); [done|].
  set (s0 := mk_marks _ _). destruct (so_each (verify_function m) _ s0) as [s r] eqn:E.
  intros H. apply bind_Done in H as ([] & -> & H).
  apply bind_Done in H as ([] & Horph%refuse_if_Done & _).
  apply functions_trace in E as (ids & bodies & [[Hl _] Hv [Hnd _] _ Hfr Hok] & Hp & Hord & Hb & Hwalk).
  apply bodies_all in Hb as ->.
  exists ids. split; [|split; [done|]; split; [done|]; split; [done|]; split; [apply Hfr; set_solver|done]].
  assert (forall i, ~ marked (visited s0) i) as H0.
  { intros i Hi. unfold marked in Hi. apply zget_elem_of in Hi. cbn in Hi.
    apply elem_of_replicate_inv in Hi. done. }
  cbn in Hl. rewrite zlen_replicate in Hl. intros i.
  split.
  - intros Hi. rewrite Forall_forall in Hok. destruct (Hok i Hi) as (op & ? & ? & ? & Hop & _).
    by eapply zget_Some_range.
  - intros Hi. destruct (zget_in (visited s) i) as [b Hb]; [unfold zlen in *; lia|].
    destruct b.
    + apply Hv in Hb as [Hm|Hm]; [|done]. by apply H0 in Hm.
    + exfalso. enough (existsb negb (visited s) = true) by congruence.
      apply existsb_exists. exists false. split; [|done]. apply list_elem_of_In. by eapply zget_elem_of.
Qed.

(** C1: An accepted module is well formed operation by operation: every operation
    has exactly the regions and attributes its contract declares, effects that
    its function declares, operands whose definitions dominate it, results it
    alone defines, a contract check that accepted it, and a block that ends in
    a terminator at its last position. *)
Theorem verify_operations_sound alloc m i op :
  yvex_ir_verify alloc m = Done tt -> zget (m_operations m) i = Some op ->
  operation_ok m i /\ operation_terminated m i.
Proof.
  intros H Hi. destruct (verify_trace alloc m H) as (ids & Hall & _ & Hok & Hp & _).
  rewrite Forall_forall in Hok, Hp.
  assert (i ∈ ids) as Hin by (apply Hall; by eapply zget_Some_range).
  split; [by apply Hok|]. by destruct (Hp i Hin) as (? & ? & _ & _ & _ & ?).
Qed.

(** ** Linearity of state versions *)

(** A state value is used only in the block that defines it. *)
Lemma state_use_local m i v :
  operation_ok m i -> v ∈ state_uses m i ->
  exists op x, zget (m_operations m) i = Some op /\ zget (m_values m) v = Some x /\ op_block op = v_block x.
Proof.
  intros (op & block & f & effects & Hop & _ & _ & _ & _ & _ & _ & Hdom & _) Hv.
  unfold state_uses in Hv. rewrite Hop in Hv. apply list_elem_of_In, List.filter_In in Hv as [Hin Hs].
  rewrite Forall_forall in Hdom. destruct (Hdom v) as (x & Hx & Hd); [by apply list_elem_of_In|].
  exists op, x. split; [done|]. split; [done|]. unfold is_state_value in Hs. rewrite Hx in Hs.
  inversion Hd as [? op' Hop' Hb _|? op' ? t Hop' _ Ht Hk _]; simplify_eq; [done|]. rewrite Ht in Hs. lia.
Qed.

Lemma sublist_order {A} (a b c : list A) (x y : A) ids :
  a ++ x :: b ++ y :: c `sublist_of` ids -> exists before after, ids = before ++ y :: after /\ x ∈ before.
Proof.
  intros (k1 & k2 & -> & _ & H)%sublist_app_l. apply sublist_cons_l in H as (k3 & k4 & -> & H).
  apply sublist_app_l in H as (k5 & k6 & -> & _ & H). apply sublist_cons_l in H as (k7 & k8 & -> & _).
  exists (k1 ++ k3 ++ x :: k5 ++ k7), k8. split; [|set_solver]. by rewrite <- !app_assoc, <- !app_comm_cons, <- app_assoc.
Qed.

(** An operation after a consumer, in the order of a fresh trace, does not use
    what was consumed. *)
Lemma fresh_order m ids before i j after v :
  uses_fresh m [] ids -> ids = before ++ j :: after -> i ∈ before -> v ∈ consumes m i -> v ∉ state_uses m j.
Proof.
  intros Hf -> Hi Hv Hu. apply uses_fresh_app in Hf as [_ Hf]. cbn in Hf. destruct Hf as [Hu' _].
  rewrite Forall_forall in Hu'. apply (Hu' v Hu). apply list_elem_of_In, in_concat. exists (consumes m i).
  split; apply list_elem_of_In; [by apply list_elem_of_fmap_2|done].
Qed.

(** C2: State versions are linear in an accepted module.  When an operation
    consumes a state value, it does so once, and every other operation that uses
    the value, whether it reads or consumes it, comes before the consumer along
    the chain of their block and not after it: in program order no state version
    is used once it was consumed. *)
Theorem verify_state_linear alloc m :
  yvex_ir_verify alloc m = Done tt ->
  forall i v, v ∈ consumes m i -> NoDup (consumes m i) /\
    forall j, v ∈ state_uses m j -> j <> i -> precedes m j i /\ ~ precedes m i j.
Proof.
  intros H. destruct (verify_trace alloc m H) as (ids & Hall & Hnd & Hok & _ & Hfr & Hord & _).
  rewrite Forall_forall in Hok. unfold ordered in Hord. rewrite Forall_forall in Hord.
  assert (forall i v, v ∈ state_uses m i -> i ∈ ids) as Hin.
  { intros i v Hv. apply Hall. unfold state_uses in Hv.
    destruct (zget (m_operations m) i) as [op|] eqn:E; [by eapply zget_Some_range|]. by apply not_elem_of_nil in Hv. }
  intros i v Hi. assert (v ∈ state_uses m i) as Hu.
  { unfold consumes in Hi. repeat case_match; set_solver. }
  split.
  { destruct (list_elem_of_split _ _ (Hin _ _ Hu)) as (l & k & ->).
    apply uses_fresh_app in Hfr as [_ Hfr]. cbn in Hfr. apply Hfr. }
  intros j Hj Hne.
  destruct (state_use_local m i v) as (opi & x & Hopi & Hx & Hbi); [by eapply Hok, Hin|done|].
  destruct (state_use_local m j v) as (opj & y & Hopj & Hy & Hbj); [by eapply Hok, Hin|done|].
  destruct (Hord i) as (op & block & l & ? & Hb & Hch & Hil & Hsub); [by eapply Hin|].
  destruct (Hord j) as (op' & block' & l' & ? & Hb' & Hch' & Hjl & _); [by eapply Hin|]. simplify_eq.
  rewrite <- Hbi in Hbj. rewrite Hbj in Hb'. simplify_eq. pose proof (chain_of_unique _ _ _ _ Hch Hch') as <-.
  assert (forall a b, l = a ++ i :: b -> j ∉ b) as Hafter.
  { intros a b -> (b1 & b2 & ->)%list_elem_of_split. apply sublist_order in Hsub as (before & after & E & Hbef).
    by apply (fresh_order m ids before i j after v Hfr E Hbef Hi). }
  apply list_elem_of_split in Hil as (a & b & ->). specialize (Hafter a b eq_refl).
  split; [|intros Hp; apply Hafter; eapply precedes_chain; [by eapply chain_of_suffix|done]].
  apply elem_of_app in Hjl as [(a1 & a2 & ->)%list_elem_of_split|Hjl]; [|set_solver].
  eapply (chain_of_precedes m j (a2 ++ i :: b)); [|set_solver].
  eapply chain_of_suffix; [exact Hch|]. by rewrite <- app_assoc.
Qed.

(** ** The call graph *)

(** Operation [i] is a call resolved to function [g]. *)
Definition call_edge (m : yvex_ir_module) (i g : Z) : Prop :=
  exists op callee text, zget (m_operations m) i = Some op /\ is_call op = true /\
    yvex_ir_attribute_get m i "callee" = Some callee /\ value_text callee = Done text /\
    yvex_ir_function_find m text = Some g.

Definition calls_from (m : yvex_ir_module) (b g : Z) : Prop :=
  exists i, in_tree m b i /\ call_edge m i g.

(** Finished functions, each listed before (in front of) its callees. *)
Fixpoint topological (m : yvex_ir_module) (fin : list Z) : Prop :=
  match fin with
  | [] => True
  | f :: fin => (forall fn g, zget (m_functions m) f = Some fn -> calls_from m (f_body fn) g -> g ∈ fin)
      /\ topological m fin
  end.

Definition coloured (m : yvex_ir_module) (c : list Z) (fin : list Z) : Prop :=
  topological m fin /\ forall f, zget c f = Some 2 <-> f ∈ fin.

(** A walk that answers true keeps the functions in progress, only adds finished
    functions and establishes [P] of them. *)
Definition walks (m : yvex_ir_module) (run : SO (list Z) bool) (P : list Z -> Prop) : Prop :=
  forall c c' fin, run c = (c', Done true) -> coloured m c fin ->
    exists fin', coloured m c' fin' /\ (forall f, f ∈ fin -> f ∈ fin') /\
      zlen c' = zlen c /\ (forall f, zget c' f = Some 1 <-> zget c f = Some 1) /\ P fin'.

Definition upward (P : list Z -> Prop) : Prop :=
  forall l k, (forall f, f ∈ l -> f ∈ k) -> P l -> P k.

Lemma walks_ret m : walks m (mret true) (fun _ => True).
Proof. intros c c' fin H Hc. injection H as <-. exists fin. done. Qed.

Lemma walks_and m (a b : SO (list Z) bool) P Q :
  upward P -> walks m a P -> walks m b Q ->
  walks m (ok ← a; if negb ok then mret false else b) (fun fin => P fin /\ Q fin).
Proof.
  intros HP Ha Hb c c' fin H Hc. apply so_bind_Done in H as (ok & c1 & H1 & H2).
  destruct ok; cbn in H2; [|done].
  destruct (Ha _ _ _ H1 Hc) as (fin1 & Hc1 & Hs1 & Hl1 & Ha1 & Hp).
  destruct (Hb _ _ _ H2 Hc1) as (fin2 & Hc2 & Hs2 & Hl2 & Ha2 & Hq).
  exists fin2. split; [done|]. split; [auto|]. split; [congruence|].
  split; [intros f; by rewrite Ha2|]. split; [|done]. by apply (HP fin1).
Qed.

Lemma walks_mono m run (P Q : list Z -> Prop) :
  walks m run P -> (forall l, P l -> Q l) -> walks m run Q.
Proof. intros H HPQ c c' fin Hr Hc. destruct (H _ _ _ Hr Hc) as (f & ? & ? & ? & ? & ?). eauto 10. Qed.

(** The region loop inside [calls_chain]. *)
Lemma walks_regions m nested (l : list Z) :
  (forall r, r ∈ l -> walks m (nested r) (fun fin => forall g, calls_from m r g -> g ∈ fin)) ->
  walks m ((fix walk (l : list Z) : SO (list Z) bool :=
              match l with
              | [] => mret true
              | r :: l => ok ← nested r; if ok : bool then walk l else mret false
              end) l)
    (fun fin => forall r g, r ∈ l -> calls_from m r g -> g ∈ fin).
Proof.
  induction l as [|r l IH]; intros H.
  { eapply walks_mono; [apply walks_ret|]. set_solver. }
  intros c c' fin Hr Hc. apply so_bind_Done in Hr as (ok & c1 & H1 & H2). destruct ok; [|done].
  destruct (H r ltac:(set_solver) _ _ _ H1 Hc) as (fin1 & Hc1 & Hs1 & Hl1 & Ha1 & Hp).
  destruct (IH ltac:(set_solver) _ _ _ H2 Hc1) as (fin2 & Hc2 & Hs2 & Hl2 & Ha2 & Hq).
  exists fin2. split; [done|]. split; [auto|]. split; [congruence|].
  split; [intros f; by rewrite Ha2|]. intros r' g [->|Hin]%elem_of_cons Hg; [auto|eauto].
Qed.

Lemma walks_chain fuel visit nested m id l :
  (forall g, walks m (visit g) (fun fin => g ∈ fin)) ->
  (forall r, walks m (nested r) (fun fin => forall g, calls_from m r g -> g ∈ fin)) ->
  linked (m_operations m) id l -> zlen (m_operations m) <= IR_OBJECT_LIMIT ->
  walks m (calls_chain fuel visit nested m id)
    (fun fin => forall j op g, j ∈ l -> zget (m_operations m) j = Some op ->
       (call_edge m j g \/ exists r, r ∈ op_regions op /\ calls_from m r g) -> g ∈ fin).
Proof.
  intros Hv Hn Hl Hlen. revert fuel. induction Hl as [|j op l Hop Hl IH]; intros fuel.
  { destruct fuel; [done|]. cbn. eapply walks_mono; [apply walks_ret|]. set_solver. }
  destruct fuel as [|fuel]; [done|]. cbn [calls_chain].
  pose proof (zget_Some_range _ _ _ Hop) as Hrng.
  replace (j =? YVEX_IR_NONE) with false
    by (unfold YVEX_IR_NONE, UINT32_MAX, IR_OBJECT_LIMIT in *; lia).
  intros c c' fin H Hc. apply so_bind_Done in H as (op' & c0 & H0 & H).
  apply so_lift_Done in H0 as [-> Hop'%read_at_Done]. simplify_eq. revert c c' fin H Hc.
  set (called := if is_call op then _ else _).
  set (walked := (fix walk (l : list Z) : SO (list Z) bool := _) (op_regions op)).
  assert (walks m called (fun fin => forall g, call_edge m j g -> g ∈ fin)) as Hcalled.
  { subst called. destruct (is_call op) eqn:Hcall.
    - destruct (yvex_ir_attribute_get m j "callee") as [callee|] eqn:Hcallee; [|done].
      intros c c' fin H' Hc. apply so_bind_Done in H' as (text & c0 & H0 & H').
      apply so_lift_Done in H0 as [-> Htext].
      destruct (yvex_ir_function_find m text) as [target|] eqn:Hfind; [|done].
      destruct (Hv target _ _ _ H' Hc) as (fin' & ? & ? & ? & ? & Hin).
      exists fin'. repeat (split; [done|]). intros g (op'' & callee' & text' & ? & _ & ? & ? & ?).
      by assert (g = target) as -> by congruence.
    - eapply walks_mono; [apply walks_ret|]. intros fin _ g (op'' & ? & ? & Hop'' & Hc' & _).
      congruence. }
  eapply walks_mono; [eapply walks_and; [|exact Hcalled|]|].
  - intros a b Hab Ha g Hg. by apply Hab, Ha.
  - eapply walks_and; [|apply (walks_regions m nested (op_regions op)); auto|apply IH].
    intros a b Hab Ha r g Hr Hg. by eapply Hab, Ha.
  - cbn. intros fin (H1 & H2 & H3) j' op' g [->|Hj']%elem_of_cons Hop' Hg; [|by eapply H3].
    simplify_eq. destruct Hg as [Hg|(r & Hr & Hg)]; [by apply H1|by eapply H2].
Qed.

Lemma walks_visit m calls target :
  (forall b, walks m (calls b) (fun fin => forall g, calls_from m b g -> g ∈ fin)) ->
  walks m (call_visit_with calls m target) (fun fin => target ∈ fin).
Proof.
  intros Hcalls c c' fin H Hc. unfold call_visit_with in H.
  apply so_bind_Done in H as (c0 & c1 & H0 & H). injection H0 as <- <-.
  apply so_bind_Done in H as (color & c1 & H0 & H). apply so_lift_Done in H0 as [-> Hcol%read_at_Done].
  destruct (color =? 1) eqn:E1; [done|]. destruct (color =? 2) eqn:E2.
  { injection H as <-. exists fin. repeat (split; [done|]). apply Hc. rewrite Hcol. f_equal. lia. }
  apply so_bind_Done in H as ([] & c1 & H0 & H). injection H0 as <-.
  apply so_bind_Done in H as (f & c1 & H0 & H). apply so_lift_Done in H0 as [-> Hf%read_at_Done].
  apply so_bind_Done in H as (ok & c2 & Hrun & H). destruct ok; cbn in H; [|done].
  apply so_bind_Done in H as ([] & c3 & H0 & H). injection H0 as <-. injection H as <-.
  pose proof (zget_Some_range _ _ _ Hcol) as Hr.
  assert (coloured m (zset c target 1) fin) as Hc1.
  { destruct Hc as [Ht Hfin]. split; [done|]. intros x. rewrite <- Hfin.
    destruct (decide (target = x)) as [<-|Hne]; [|by rewrite zget_zset_ne].
    rewrite zget_zset_eq, Hcol by done. split; intros [= ?]; lia. }
  destruct (Hcalls _ _ _ _ Hrun Hc1) as (fin2 & [Ht2 Hf2] & Hs2 & Hl2 & Ha2 & Hp).
  rewrite zlen_zset in Hl2. exists (target :: fin2).
  assert (target ∉ fin2) as Hnin.
  { intros Hin. apply Hf2 in Hin. pose proof (proj2 (Ha2 target)) as Hact.
    rewrite zget_zset_eq in Hact by done. rewrite (Hact eq_refl) in Hin. done. }
  split; [|split; [set_solver|split; [by rewrite zlen_zset|split]]].
  - split; [split; [|done]|].
    + intros fn g Hfn Hg. simplify_eq. by apply Hp.
    + intros x. rewrite elem_of_cons, <- Hf2. destruct (decide (target = x)) as [<-|Hne].
      * rewrite zget_zset_eq by lia. naive_solver.
      * rewrite zget_zset_ne by done. naive_solver.
  - intros x. destruct (decide (target = x)) as [<-|Hne].
    + rewrite zget_zset_eq, Hcol by lia. split; intros [= ?]; lia.
    + rewrite zget_zset_ne, Ha2, zget_zset_ne by done. done.
  - set_solver.
Qed.

Lemma walks_block fuel m b :
  module_wf m -> walks m (ir_block_calls fuel m b) (fun fin => forall g, calls_from m b g -> g ∈ fin).
Proof.
  intros Hw. pose proof Hw as [_ _ _ _ _ _ Hch Hst].
  revert b. induction fuel as [|fuel IH]; intros b; [done|].
  cbn -[calls_chain]. intros c c' fin H Hc.
  apply so_bind_Done in H as (block & c0 & H0 & H). apply so_lift_Done in H0 as [-> Hb%read_at_Done].
  destruct (Hch b block Hb) as [Hl _]. revert c c' fin H Hc.
  eapply walks_mono; [eapply walks_chain; [| |exact Hl|apply Hst]|].
  - intros g. destruct fuel; [done|]. by apply walks_visit.
  - done.
  - cbn. intros fin Hfin g (i & Htree & Hedge). inversion Htree as [? op Hop Hbl|j op r ? Hop Hbl Hr Hi]; subst.
    + apply (Hfin i op g); [apply elem_of_block_ops; eauto|done|by left].
    + apply (Hfin j op g); [apply elem_of_block_ops; eauto|done|].
      right. exists r. split; [done|]. by exists i.
Qed.

Lemma verify_calls_walks m l c c' fin :
  module_wf m -> so_each (verify_calls m) l c = (c', Done tt) -> coloured m c fin ->
  exists fin', coloured m c' fin' /\ (forall f, f ∈ fin -> f ∈ fin') /\ forall f, f ∈ l -> f ∈ fin'.
Proof.
  intros Hw. revert c fin. induction l as [|index l IH]; intros c fin H Hc; cbn [so_each] in H.
  { injection H as <-. exists fin. set_solver. }
  apply so_bind_Done in H as ([] & c1 & H1 & H2). unfold verify_calls in H1.
  apply so_bind_Done in H1 as (ok & c2 & H1 & H3). injection H3 as <- Hok%refuse_if_Done.
  apply negb_false_iff in Hok as ->.
  assert (walks m (call_visit_with (ir_block_calls 65 m) m index) (fun fin => index ∈ fin)) as Hwk
    by (apply walks_visit; intros b; by apply walks_block).
  destruct (Hwk _ _ _ H1 Hc) as (fin1 & Hc1 & Hs1 & _ & _ & Hin).
  destruct (IH _ _ H2 Hc1) as (fin2 & Hc2 & Hs2 & Hall). exists fin2.
  split; [done|]. split; [auto|]. intros f [->|Hf]%elem_of_cons; auto.
Qed.

Lemma topological_Acc m fin (R : Z -> Z -> Prop) :
  topological m fin ->
  (forall f g, R g f -> exists fn, zget (m_functions m) f = Some fn /\ calls_from m (f_body fn) g) ->
  forall f, f ∈ fin -> Acc R f.
Proof.
  intros Ht HR. induction fin as [|f fin IH]; intros x Hx; [by apply not_elem_of_nil in Hx|].
  cbn in Ht. destruct Ht as [Hf Ht]. apply elem_of_cons in Hx as [->|Hx]; [|by apply IH].
  constructor. intros g Hg. destruct (HR _ _ Hg) as (fn & Hfn & Hcall).
  apply IH; [done|]. by eapply Hf.
Qed.

(** C3: The call graph of an accepted module is acyclic: the relation between a
    function and the functions its operations call, at any region depth, is
    well founded, so no chain of calls is infinite. *)
Theorem verify_calls_well_founded alloc m :
  module_wf m -> yvex_ir_verify alloc m = Done tt ->
  well_founded (fun g f => exists i, in_function m f i /\ call_edge m i g).
Proof.
  intros Hw H. destruct (verify_trace alloc m H) as (ids & Hall & _ & _ & Hp & _).
  rewrite Forall_forall in Hp.
  assert (forall f i, in_function m f i ->
    exists fn, zget (m_functions m) f = Some fn /\ in_tree m (f_body fn) i) as Htree.
  { intros f i (op & block & Hop & Hblk & <-).
    destruct (Hp i) as (index & fn & Hfn & Htree & (op' & block' & Hop' & Hblk' & <-) & _).
    { apply Hall. by eapply zget_Some_range. }
    simplify_eq. eauto. }
  unfold yvex_ir_verify in H. destruct (_ || _); [done|]. destruct (negb _); [done|].
  destruct (negb _); [done|].
  destruct (so_each (verify_function m) _ _) as [s r]. apply bind_Done in H as ([] & _ & H).
  apply bind_Done in H as ([] & _ & H). apply bind_Done in H as ([] & _ & H).
  destruct (so_each (verify_calls m) _ _) as [c r'] eqn:E. cbn in H. subst r'.
  destruct (verify_calls_walks m _ _ _ [] Hw E) as (fin & [Ht _] & _ & Hin).
  { split; [done|]. intros f. split; [|set_solver]. intros Hf.
    apply zget_elem_of, elem_of_replicate_inv in Hf. done. }
  intros f. constructor. intros g (i & Hi & Hedge).
  destruct (Htree f i Hi) as (fn & Hfn & Hti).
  assert (Acc (fun g f => exists i, in_function m f i /\ call_edge m i g) f) as [Hacc].
  { eapply topological_Acc; [exact Ht| |apply Hin, elem_of_zseq; by eapply zget_Some_range].
    intros f' g' (i' & Hi' & He'). destruct (Htree f' i' Hi') as (fn' & Hfn' & Hti').
    exists fn'. split; [done|]. by exists i'. }
  apply Hacc. eauto.
Qed.

(** ** Parameter symbols *)

Definition same_symbol (p q : ir_parameter) : Prop :=
  par_source p = par_source q /\ par_symbol p = par_symbol q.

Lemma parameter_compare_Eq p q : ir_parameter_compare p q = Eq <-> same_symbol p q.
Proof.
  unfold ir_parameter_compare, same_symbol. split.
  - destruct (String.compare (par_source p) _) eqn:E; try done.
    intros H. split; by apply String.compare_eq_iff.
  - intros [-> ->]. by rewrite !strcmp_refl.
Qed.

(** The relation sorted lists satisfy between neighbours. *)
Notation parameter_le := (le_by ir_parameter_compare).

Lemma parameter_le_trans p q r : parameter_le p q -> parameter_le q r -> parameter_le p r.
Proof.
  unfold le_by, ir_parameter_compare. intros H1 H2.
  destruct (String.compare (par_source p) (par_source q)) eqn:E1; [| |done];
  destruct (String.compare (par_source q) (par_source r)) eqn:E2; try done.
  - apply String.compare_eq_iff in E1, E2. rewrite E1, E2, strcmp_refl. by eapply strcmp_le_trans.
  - apply String.compare_eq_iff in E1. by rewrite E1, E2.
  - apply String.compare_eq_iff in E2. by rewrite <- E2, E1.
  - by rewrite (strcmp_trans _ _ _ E1 E2).
Qed.

Lemma parameter_compare_antisym p q :
  ir_parameter_compare p q = CompOpp (ir_parameter_compare q p).
Proof.
  unfold ir_parameter_compare. rewrite (String.compare_antisym (par_source p)).
  destruct (String.compare (par_source q) (par_source p)); cbn; [|done..].
  apply String.compare_antisym.
Qed.

Lemma parameter_sort_sorted l : StronglySorted parameter_le (parameter_sort l).
Proof. apply sort_by_sorted; [apply parameter_compare_antisym|apply parameter_le_trans]. Qed.

Lemma parameter_le_antisym p q : parameter_le p q -> parameter_le q p -> same_symbol p q.
Proof.
  unfold le_by. intros H1 H2. apply parameter_compare_Eq.
  rewrite parameter_compare_antisym in H2. destruct (ir_parameter_compare p q); done.
Qed.

(** The scan of neighbours is complete on every sorted list, whatever the order
    of equal symbols. *)
Lemma conflict_free l :
  StronglySorted parameter_le l -> parameters_conflict l = false ->
  forall p q, p ∈ l -> q ∈ l -> same_symbol p q -> par_type p = par_type q.
Proof.
  induction 1 as [|x l Hs IH Hall]; intros Hc p q Hp Hq Hsame; [by apply not_elem_of_nil in Hp|].
  destruct l as [|y l].
  { apply list_elem_of_singleton in Hp as ->, Hq as ->. done. }
  change (parameters_conflict (x :: y :: l)) with
    ((match ir_parameter_compare x y with Eq => negb (par_type x =? par_type y) | _ => false end)
      || parameters_conflict (y :: l)) in Hc.
  apply orb_false_iff in Hc as [Hxy Hc]. specialize (IH Hc).
  assert (forall z, z ∈ y :: l -> same_symbol x z -> par_type x = par_type z) as Hx.
  { intros z Hz Hxz. assert (same_symbol x y) as Hsxy.
    { rewrite Forall_forall in Hall. apply parameter_le_antisym; [apply Hall; set_solver|].
      apply StronglySorted_inv in Hs as [_ Hyl]. rewrite Forall_forall in Hyl.
      assert (parameter_le y z) as Hyz.
      { apply elem_of_cons in Hz as [->|Hz]; [|by apply Hyl].
        unfold le_by. by rewrite (proj2 (parameter_compare_Eq y y)). }
      apply (parameter_le_trans _ z); [done|]. unfold le_by.
      rewrite parameter_compare_antisym, (proj2 (parameter_compare_Eq x z) Hxz). done. }
    rewrite (proj2 (parameter_compare_Eq x y) Hsxy) in Hxy. apply negb_false_iff in Hxy.
    transitivity (par_type y); [lia|]. apply IH; [set_solver|done|].
    unfold same_symbol in *. intuition congruence. }
  apply elem_of_cons in Hp as [->|Hp], Hq as [->|Hq]; [done|auto|..|auto].
  symmetry. apply Hx; [done|]. unfold same_symbol in *. intuition congruence.
Qed.

(** Parameter symbols are consistent in an accepted module: two parameter
    operations that name the same parameter of the same source declare the same
    logical type. *)
Theorem verify_parameters_consistent alloc m i j p q :
  yvex_ir_verify alloc m = Done tt -> i ∈ parameter_ids m -> j ∈ parameter_ids m ->
  parameter_at m i = Done p -> parameter_at m j = Done q -> same_symbol p q ->
  par_type p = par_type q.
Proof.
  unfold yvex_ir_verify. destruct (_ || _); [done|]. destruct (negb _); [done|].
  destruct (negb _); [done|]. destruct (so_each (verify_function m) _ _) as [s r].
  intros H Hi Hj Hp Hq. apply bind_Done in H as ([] & _ & H). apply bind_Done in H as ([] & _ & H).
  apply bind_Done in H as ([] & H & _). unfold ir_parameters_verify in H.
  destruct (zlen (parameter_ids m) =? 0) eqn:Hz.
  { apply elem_of_zget in Hi as [k Hk%zget_Some_range]. lia. }
  destruct (negb _); [done|]. apply bind_Done in H as (ps & Hps%mapO_Done & Hc%refuse_if_Done).
  assert (forall k x, k ∈ parameter_ids m -> parameter_at m k = Done x ->
    x ∈ parameter_sort ps) as Hin.
  { intros k x Hk Hx. unfold parameter_sort; rewrite sort_by_perm.
    apply list_elem_of_lookup in Hk as [n Hn].
    destruct (Forall2_lookup_l _ _ _ _ _ Hps Hn) as (y & Hy & Hyx). cbn in Hyx.
    assert (x = y) as -> by congruence. by eapply list_elem_of_lookup_2. }
  apply (conflict_free (parameter_sort ps)); eauto. apply parameter_sort_sorted.
Qed.

(** ** Concrete programs *)

Definition state_type : yvex_ir_type :=
  mk_type YVEX_IR_STATE YVEX_IR_F32 1 [mk_extent YVEX_IR_NONE 8] "demo.cache" 0 [].
Definition vector_type : yvex_ir_type :=
  mk_type YVEX_IR_TENSOR YVEX_IR_F32 1 [mk_extent YVEX_IR_NONE 8] "" 0 [].

Definition demo_parameter : yvex_ir_operation_request :=
  mk_request "core.parameter" [] [1]
    [mk_attribute "parameter" (AttrSymbol "weight"); mk_attribute "source" (AttrText demo_identity)] 0.

(** One function that reads and replaces a state version. *)
Definition demo_state_calls : list ir_call :=
  [CallType state_type; CallType vector_type;
   CallFunction "step" [0] [0] 3;
   CallOperation 0 demo_parameter;
   CallOperation 0 demo_parameter;
   CallOperation 0 (mk_request "state.read" [0] [1] [] 0);
   CallOperation 0 (mk_request "tensor.add" [3; 1] [1] [] 0);
   CallOperation 0 (mk_request "state.update" [0; 4] [0] [] 0);
   CallOperation 0 (mk_request "core.return" [5] [] [] 0)].

Definition demo_state_module : yvex_ir_module :=
  foldl (fun m c => (ir_run grant c m).1) demo_open demo_state_calls.

Example demo_verified :
  yvex_ir_verify grant demo_module = Done tt /\ yvex_ir_verify grant demo_state_module = Done tt.
Proof. vm_compute. split; reflexivity. Qed.

(** Consuming the state version twice is refused. *)
Example demo_stale :
  yvex_ir_verify grant (foldl (fun m c => (ir_run grant c m).1) demo_open
    [CallType state_type; CallType vector_type; CallFunction "step" [0] [0] 3;
     CallOperation 0 (mk_request "state.read" [0] [1] [] 0);
     CallOperation 0 (mk_request "state.update" [0; 1] [0] [] 0);
     CallOperation 0 (mk_request "state.update" [0; 1] [0] [] 0);
     CallOperation 0 (mk_request "core.return" [3] [] [] 0)])
  = Refuse YVEX_ERR_FORMAT "state version is stale or read effect is undeclared".
Proof. vm_compute. reflexivity. Qed.

Lemma verify_operations_sound_witness :
  operation_ok demo_module 2 /\ operation_terminated demo_module 2.
Proof.
  destruct (zget (m_operations demo_module) 2) as [op|] eqn:E; [|vm_compute in E; discriminate E].
  apply (verify_operations_sound grant demo_module 2 op); [vm_compute; reflexivity|exact E].
Defined.

Lemma verify_state_linear_witness :
  0 ∈ state_uses demo_state_module 2 /\ precedes demo_state_module 2 4 /\ ~ precedes demo_state_module 4 2.
Proof.
  assert (consumes demo_state_module 4 = [0]) as E by (vm_compute; reflexivity).
  assert (state_uses demo_state_module 2 = [0]) as E2 by (vm_compute; reflexivity).
  rewrite E2. split; [apply list_elem_of_here|].
  apply (verify_state_linear grant demo_state_module eq_refl 4 0); [rewrite E; apply list_elem_of_here| |lia].
  rewrite E2. apply list_elem_of_here.
Defined.

Lemma verify_calls_well_founded_witness :
  Acc (fun g f => exists i, in_function demo_module f i /\ call_edge demo_module i g) 1.
Proof.
  apply (verify_calls_well_founded grant demo_module); [apply reachable_wf, demo_reachable|].
  vm_compute. reflexivity.
Defined.

Lemma verify_parameters_consistent_witness :
  exists p q, parameter_at demo_state_module 0 = Done p /\
    parameter_at demo_state_module 1 = Done q /\ par_type p = par_type q.
Proof.
  destruct (parameter_at demo_state_module 0) as [p| |] eqn:Ep; [|vm_compute in Ep; discriminate Ep..].
  destruct (parameter_at demo_state_module 1) as [q| |] eqn:Eq; [|vm_compute in Eq; discriminate Eq..].
  exists p, q. split; [reflexivity|]. split; [reflexivity|].
  apply (verify_parameters_consistent grant demo_state_module 0 1 p q).
  - vm_compute. reflexivity.
  - vm_compute. apply list_elem_of_here.
  - vm_compute. apply list_elem_of_further, list_elem_of_here.
  - exact Ep.
  - exact Eq.
  - vm_compute in Ep, Eq. injection Ep as <-. injection Eq as <-. split; reflexivity.
Defined.
