(* ===== verification/IrSafety.v ===== *)
(** * IrSafety: the verifier reads only what exists

    The verifiers of [IrCore], [IrSequence] and [IrNeural] index operand and
    result arrays, follow value and type identifiers and dereference attributes
    without checks of their own: they rely on the arity the constructor enforced
    and on the attribute rules checked before them.  This file proves that the
    reliance is justified for every built-in operation contract, and that
    verification of a reachable module therefore always returns. *)

From Stdlib Require Import ZArith Lia Bool.
From stdpp Require Import base list option numbers strings sets.
From S2P Require Import Prelude Core Sha256 Float64 IrData IrCore IrSequence IrNeural IrModule IrInvariant IrVerify.

(** ** Attribute rules *)

Definition rule_of (d : yvex_ir_operation_definition) (name : string)
    : option yvex_ir_attribute_rule :=
  List.find (fun r => String.eqb name (rule_name r)) (def_attributes d).

(** An attribute read through a union member is of a kind stored in it. *)
Definition kind_admits (kinds : list Z) (d : yvex_ir_operation_definition) (name : string) : bool :=
  match rule_of d name with
  | None => true
  | Some r => existsb (Z.eqb (rule_kind r)) kinds
  end.

Definition rule_requires (d : yvex_ir_operation_definition) (name : string) : bool :=
  match rule_of d name with
  | None => false
  | Some r => negb (rule_required r =? 0)
  end.

Definition INTEGER_KINDS : list Z := [YVEX_IR_ATTR_U64; YVEX_IR_ATTR_BOOL].
Definition REAL_KINDS : list Z := [YVEX_IR_ATTR_F64].
Definition TEXT_KINDS : list Z := [YVEX_IR_ATTR_TEXT; YVEX_IR_ATTR_SYMBOL].

Lemma attributes_conform_In m rules seen l a :
  attributes_conform m rules seen l = true -> a ∈ l ->
  exists r, List.find (fun r => String.eqb (attr_name a) (rule_name r)) rules = Some r /\
    attr_kind a = rule_kind r /\ ir_attribute_valid m a = true.
Proof.
  revert seen. induction l as [|b l IH]; intros seen H Hin; [by apply not_elem_of_nil in Hin|].
  cbn in H. bool_hyps. apply elem_of_cons in Hin as [->|Hin]; [|eauto].
  destruct (List.find _ rules) as [r|] eqn:E; [|done]. exists r. split; [done|]. split; [lia|done].
Qed.

Lemma find_attribute_Some name l a :
  find_attribute name l = Some a -> a ∈ l /\ attr_name a = name.
Proof.
  unfold find_attribute. intros H. apply List.find_some in H as [Hin Heq].
  split; [by apply list_elem_of_In|]. by apply String.eqb_eq.
Qed.

Section Checked.
  Context (m : yvex_ir_module) (id : Z) (op : yvex_ir_operation).
  Hypothesis Hw : module_wf m.
  Hypothesis Hop : zget (m_operations m) id = Some op.
  Hypothesis Hattr : ir_attributes_verify m op = true.

  Local Notation d := (op_definition op).

Lemma attribute_get_op name : yvex_ir_attribute_get m id name = find_attribute name (op_attributes op).
  Proof. unfold yvex_ir_attribute_get, yvex_ir_operation_at. by rewrite Hop. Qed.

Lemma attribute_kind name a kinds :
    yvex_ir_attribute_get m id name = Some a -> kind_admits kinds d name = true ->
    existsb (Z.eqb (attr_kind a)) kinds = true /\ ir_attribute_valid m a = true.
  Proof.
    rewrite attribute_get_op. intros [Hin Hn]%find_attribute_Some Hk.
    unfold ir_attributes_verify in Hattr. apply andb_true_iff in Hattr as [Hc _].
    destruct (attributes_conform_In _ _ _ _ _ Hc Hin) as (r & Hr & Hkind & Hvalid).
    unfold kind_admits, rule_of in Hk. rewrite Hn in Hr. rewrite Hr in Hk. by rewrite Hkind.
  Qed.

Lemma attribute_present name :
    rule_requires d name = true -> is_Some (yvex_ir_attribute_get m id name).
  Proof.
    rewrite attribute_get_op. unfold rule_requires, rule_of. intros H.
    destruct (List.find _ _) as [r|] eqn:E; [|done]. apply List.find_some in E as [Hin Hn].
    unfold ir_attributes_verify in Hattr. apply andb_true_iff in Hattr as [_ Hreq].
    rewrite forallb_forall in Hreq. specialize (Hreq r Hin). apply orb_true_iff in Hreq as [Hz|Hex]; [lia|].
    apply existsb_exists in Hex as (a & Ha & Heq). apply String.eqb_eq in Hn, Heq.
    unfold find_attribute. destruct (List.find _ (op_attributes op)) eqn:E2; [done|].
    exfalso. apply (List.find_none _ _ E2) in Ha. rewrite Heq, Hn, String.eqb_refl in Ha. done.
  Qed.

Lemma value_integer_safe name a :
    yvex_ir_attribute_get m id name = Some a -> kind_admits INTEGER_KINDS d name = true ->
    no_fault (value_integer a).
  Proof.
    intros Ha Hk. destruct (attribute_kind _ _ _ Ha Hk) as [Hkk Hvv].
    unfold value_integer, attr_kind, ir_attribute_valid in *.
    destruct (attr_value a); try done. by rewrite andb_false_r in Hvv.
  Qed.

Lemma value_real_safe name a :
    yvex_ir_attribute_get m id name = Some a -> kind_admits REAL_KINDS d name = true ->
    no_fault (value_real a).
  Proof.
    intros Ha Hk. destruct (attribute_kind _ _ _ Ha Hk) as [Hkk Hvv].
    unfold value_real, attr_kind, ir_attribute_valid in *.
    destruct (attr_value a); try done. by rewrite andb_false_r in Hvv.
  Qed.

Lemma value_text_safe name a :
    yvex_ir_attribute_get m id name = Some a -> kind_admits TEXT_KINDS d name = true ->
    no_fault (value_text a).
  Proof.
    intros Ha Hk. destruct (attribute_kind _ _ _ Ha Hk) as [Hkk Hvv].
    unfold value_text, attr_kind, ir_attribute_valid in *.
    destruct (attr_value a); try done. by rewrite andb_false_r in Hvv.
  Qed.

  (** ** Safe reads, in continuation form *)

Lemma safe_op {B} (k : yvex_ir_operation -> outcome B) :
    no_fault (k op) -> no_fault (operations_read m id ≫= k).
  Proof. unfold operations_read, read_at. by rewrite Hop. Qed.

Lemma safe_bind {A B} (c : outcome A) (k : A -> outcome B) :
    no_fault c -> (forall a, no_fault (k a)) -> no_fault (c ≫= k).
  Proof. intros Hc Hk. apply no_fault_bind; auto. Qed.

Lemma safe_format {B} b r (k : unit -> outcome B) :
    (b = false -> no_fault (k tt)) -> no_fault (format_if b r ≫= k).
  Proof. unfold format_if, refuse_if. destruct b; cbn; auto. Qed.

Lemma safe_require {B} b r (k : unit -> outcome B) :
    (b = true -> no_fault (k tt)) -> no_fault (require b r ≫= k).
  Proof. unfold require, format_if, refuse_if. destruct b; cbn; auto. Qed.

Lemma value_typed v x : zget (m_values m) v = Some x ->
    exists t, zget (m_types m) (v_type x) = Some t /\ 0 <= ty_rank t <= 8.
  Proof.
    intros Hx. destruct (wf_values _ _ Hw v x Hx) as [Ht _].
    destruct (zget_in _ _ Ht) as [t Hti]. exists t. split; [done|]. split.
    - by eapply types_ranked; [apply Hw|].
    - pose proof (types_valid _ (wf_types _ _ Hw) _ _ Hti) as Hv. unfold yvex_ir_type_valid in Hv.
      destruct (_ || _ || _ || _ || _) eqn:E in Hv; [done|]. bool_hyps.
      unfold YVEX_IR_RANK_CAP in *. lia.
  Qed.

Lemma operand_value i : 0 <= i < zlen (op_operands op) ->
    exists v x, zget (op_operands op) i = Some v /\ zget (m_values m) v = Some x.
  Proof.
    intros Hi. destruct (zget_in _ _ Hi) as [v Hv].
    pose proof (op_operands_in _ _ _ (wf_operations _ _ Hw _ _ Hop)) as Hin.
    rewrite Forall_forall in Hin. specialize (Hin v (zget_elem_of _ _ _ Hv)).
    destruct (zget_in _ _ Hin) as [x Hx]. eauto.
  Qed.

Lemma result_value i : 0 <= i < zlen (op_results op) ->
    exists v x, zget (op_results op) i = Some v /\ zget (m_values m) v = Some x.
  Proof.
    intros Hi. destruct (zget_in _ _ Hi) as [v Hv].
    destruct (op_results_owned _ _ _ (wf_operations _ _ Hw _ _ Hop) _ _ Hv) as (x & Hx & _). eauto.
  Qed.

Lemma safe_operand_id {B} i (k : Z -> outcome B) :
    0 <= i < zlen (op_operands op) -> (forall t, no_fault (k t)) ->
    no_fault (operand_type_id m op i ≫= k).
  Proof.
    intros Hi Hk. destruct (operand_value i Hi) as (v & x & Hv & Hx).
    unfold operand_type_id, values_read, read_at. rewrite Hv. cbn. rewrite Hx. apply Hk.
  Qed.

Lemma safe_result_id {B} i (k : Z -> outcome B) :
    0 <= i < zlen (op_results op) -> (forall t, no_fault (k t)) ->
    no_fault (result_type_id m op i ≫= k).
  Proof.
    intros Hi Hk. destruct (result_value i Hi) as (v & x & Hv & Hx).
    unfold result_type_id, values_read, read_at. rewrite Hv. cbn. rewrite Hx. apply Hk.
  Qed.

Lemma safe_operand {B} i (k : yvex_ir_type -> outcome B) :
    0 <= i < zlen (op_operands op) ->
    (forall t, operand_type m op i = Done t -> 0 <= ty_rank t <= 8 -> no_fault (k t)) ->
    no_fault (operand_type m op i ≫= k).
  Proof.
    intros Hi Hk. destruct (operand_value i Hi) as (v & x & Hv & Hx).
    destruct (value_typed v x Hx) as (t & Ht & Hr).
    assert (operand_type m op i = Done t) as E.
    { unfold operand_type, operand_type_id, values_read, types_read, read_at.
      rewrite Hv. cbn. rewrite Hx. cbn. by rewrite Ht. }
    rewrite E. by apply Hk.
  Qed.

Lemma safe_result {B} i (k : yvex_ir_type -> outcome B) :
    0 <= i < zlen (op_results op) ->
    (forall t, result_type m op i = Done t -> 0 <= ty_rank t <= 8 -> no_fault (k t)) ->
    no_fault (result_type m op i ≫= k).
  Proof.
    intros Hi Hk. destruct (result_value i Hi) as (v & x & Hv & Hx).
    destruct (value_typed v x Hx) as (t & Ht & Hr).
    assert (result_type m op i = Done t) as E.
    { unfold result_type, result_type_id, values_read, types_read, read_at.
      rewrite Hv. cbn. rewrite Hx. cbn. by rewrite Ht. }
    rewrite E. by apply Hk.
  Qed.

Lemma safe_opt_integer {B} name (k : option Z -> outcome B) :
    kind_admits INTEGER_KINDS d name = true -> (forall o, no_fault (k o)) ->
    no_fault (opt_integer m id name ≫= k).
  Proof.
    intros Hkind Hk. apply safe_bind; [|done]. unfold opt_integer.
    destruct (yvex_ir_attribute_get m id name) as [a|] eqn:Ha; [|done].
    apply safe_bind; [|done]. by eapply value_integer_safe.
  Qed.

Lemma safe_opt_real {B} name (k : option Z -> outcome B) :
    kind_admits REAL_KINDS d name = true -> (forall o, no_fault (k o)) ->
    no_fault (opt_real m id name ≫= k).
  Proof.
    intros Hkind Hk. apply safe_bind; [|done]. unfold opt_real.
    destruct (yvex_ir_attribute_get m id name) as [a|] eqn:Ha; [|done].
    apply safe_bind; [|done]. by eapply value_real_safe.
  Qed.

Lemma safe_get_integer {B} name (k : Z -> outcome B) :
    kind_admits INTEGER_KINDS d name && rule_requires d name = true -> (forall o, no_fault (k o)) ->
    no_fault (get_integer m id name ≫= k).
  Proof.
    intros [Hkind Hreq]%andb_true_iff Hk. apply safe_bind; [|done]. unfold get_integer.
    destruct (attribute_present name Hreq) as [a Ha]. rewrite Ha. cbn. by eapply value_integer_safe.
  Qed.

Lemma safe_get_real {B} name (k : Z -> outcome B) :
    kind_admits REAL_KINDS d name && rule_requires d name = true -> (forall o, no_fault (k o)) ->
    no_fault (get_real m id name ≫= k).
  Proof.
    intros [Hkind Hreq]%andb_true_iff Hk. apply safe_bind; [|done]. unfold get_real.
    destruct (attribute_present name Hreq) as [a Ha]. rewrite Ha. cbn. by eapply value_real_safe.
  Qed.

Lemma safe_shape {B} t i (k : yvex_ir_extent -> outcome B) :
    0 <= i < 8 -> (forall e, no_fault (k e)) -> no_fault (shape_read t i ≫= k).
  Proof.
    intros Hi Hk. unfold shape_read, YVEX_IR_RANK_CAP.
    replace ((0 <=? i) && (i <? 8)) with true by lia. apply Hk.
  Qed.
End Checked.

Lemma float_tensor_rank t : neural_float_tensor t = true -> ty_rank t <> 0.
Proof. unfold neural_float_tensor. intros H. bool_hyps. lia. Qed.

Lemma last_axis_range t : 0 <= ty_rank t <= 8 -> ty_rank t <> 0 -> 0 <= last_axis t < 8.
Proof. intros. unfold last_axis. rewrite u32_id by (unfold is_u32; lia). lia. Qed.

(** ** Automation *)

Lemma safe_format_end b r : no_fault (format_if b r).
Proof. apply no_fault_refuse_if. Qed.
Lemma safe_require_end b r : no_fault (require b r).
Proof. apply no_fault_refuse_if. Qed.

Lemma mbind_Done {A} (c : outcome A) : (c ≫= fun a => Done a) = c.
Proof. by destruct c. Qed.

Lemma safe_accepted {B} c (k : bool -> outcome B) :
  no_fault c -> (forall b, no_fault (k b)) -> no_fault (accepted c ≫= k).
Proof. destruct c; cbn; auto. Qed.

Lemma safe_each {A B} (f : A -> outcome unit) l (k : unit -> outcome B) :
  (forall x, x ∈ l -> no_fault (f x)) -> no_fault (k tt) -> no_fault (eachO f l ≫= k).
Proof.
  intros Hf Hk. apply no_fault_bind; [by apply no_fault_eachO|]. by intros [] _.
Qed.

(** Loops that start at a fixed operand, [for (i = k; i < count; ++i)]. *)
Lemma elem_of_drop_zseq k n i : i ∈ drop k (zseq n) -> 0 <= i < n.
Proof. intros H. apply elem_of_zseq. rewrite <- (take_drop k (zseq n)). set_solver. Qed.

(** Accepted sub-verifiers leave facts their callers index with. *)
Lemma unary_accepts m id op :
  zget (m_operations m) id = Some op -> neural_unary m id = Done tt ->
  forall t, operand_type m op 0 = Done t -> neural_float_tensor t = true.
Proof.
  intros Hop H t Ht. unfold neural_unary, operations_read, read_at in H. rewrite Hop in H. cbn in H.
  unfold neural_input in H. rewrite Ht in H. cbn in H.
  apply bind_Done in H as (o & _ & H%refuse_if_Done). apply negb_false_iff in H. by bool_hyps.
Qed.

Lemma linear_accepts m id op :
  zget (m_operations m) id = Some op -> neural_linear m id = Done tt ->
  forall t, result_type m op 0 = Done t -> neural_float_tensor t = true.
Proof.
  intros Hop H t Ht. unfold neural_linear, operations_read, read_at in H. rewrite Hop in H. cbn in H.
  apply bind_Done in H as (x & _ & H). apply bind_Done in H as (w & _ & H).
  unfold neural_output in H. rewrite Ht in H. cbn in H.
  apply bind_Done in H as (r & _ & H). apply bind_Done in H as ([] & _ & H).
  apply bind_Done in H as ([] & H%refuse_if_Done & _). apply negb_false_iff in H. by bool_hyps.
Qed.

Lemma embedding_axis t o :
  0 <= ty_rank t <= 8 -> 0 <= ty_rank o <= 8 -> (ty_rank o =? u32 (ty_rank t + 1)) = true ->
  0 <= ty_rank t < 8.
Proof. intros ? ? H. rewrite u32_id in H by (unfold is_u32; lia). lia. Qed.

Ltac rank_facts :=
  repeat match goal with
  | H : _ && _ = true |- _ => apply andb_true_iff in H; destruct H
  | H : neural_float_tensor ?t = true |- _ => apply float_tensor_rank in H
  | H : forall t, ?r = Done t -> neural_float_tensor t = true, E : ?r = Done _ |- _ =>
      pose proof (H _ E); clear H
  end.

(** Indices are small literals, bounded by the arity of the contract. *)
Ltac index_bound :=
  first [lia | rank_facts; first [lia | apply last_axis_range; assumption
    | eapply embedding_axis; eassumption]].

(** Nested verifiers are unfolded where they end, and remembered where a caller
    continues after them. *)
Ltac unfold_verifier :=
  unfold neural_unary, neural_binary, neural_cast, neural_split_three, neural_linear,
    sequence_state_result, neural_input, neural_output.

(** The (rows, indices) pairs of [neural_indexed_rows]. *)
Lemma safe_indexed_rows m id op y partition reason pairs i total :
  module_wf m -> zget (m_operations m) id = Some op -> 0 <= i ->
  i + 2 * Z.of_nat pairs <= zlen (op_operands op) ->
  no_fault (indexed_rows_loop m op y partition reason pairs i total).
Proof.
  intros Hw Hop. revert i total. induction pairs as [|pairs IH]; intros i total Hi Hle; [done|].
  cbn [indexed_rows_loop]. unfold neural_input.
  apply (safe_operand _ _ _ Hw Hop); [lia|]. intros x _ _.
  apply (safe_operand _ _ _ Hw Hop); [lia|]. intros z _ _.
  apply safe_require. intros _. destruct partition.
  - apply safe_require. intros _. destruct (yvex_core_u64_add _ _); [|done]. apply IH; lia.
  - apply IH; lia.
Qed.

Lemma safe_all_indexed_rows m id op y partition reason :
  module_wf m -> zget (m_operations m) id = Some op ->
  no_fault (indexed_rows_loop m op y partition reason (Z.to_nat (zlen (op_operands op) / 2)) 0 0).
Proof.
  intros Hw Hop. pose proof (zlen_nonneg (op_operands op)).
  pose proof (Z.mul_div_le (zlen (op_operands op)) 2 ltac:(lia)).
  pose proof (Z.div_pos (zlen (op_operands op)) 2 ltac:(lia) ltac:(lia)).
  apply (safe_indexed_rows _ id); [done..|lia|]. rewrite Z2Nat.id by lia. lia.
Qed.

Ltac safe_step Hw Hop Hattr Hd :=
  lazymatch goal with
  | |- no_fault (Done _) => exact I
  | |- no_fault (Refuse _ _) => exact I
  | |- no_fault (format_refuse _) => exact I
  | |- no_fault (format_if _ _) => apply safe_format_end
  | |- no_fault (require _ _) => apply safe_require_end
  | |- no_fault (operations_read _ _ ≫= _) =>
      apply (safe_op _ _ _ Hop); rewrite ?Hd; cbn [def_name def_version String.eqb Ascii.eqb Bool.eqb]
  | |- no_fault (Done ?a ≫= ?k) => change (no_fault (k a))
  | |- no_fault (format_refuse _ ≫= _) => exact I
  | |- no_fault (format_if _ _ ≫= _) => apply safe_format; intros ?
  | |- no_fault (require _ _ ≫= _) => apply safe_require; intros ?
  | |- no_fault (operand_type _ _ _ ≫= _) =>
      apply (safe_operand _ _ _ Hw Hop); [index_bound|intros ? ? ?]
  | |- no_fault (result_type _ _ _ ≫= _) =>
      apply (safe_result _ _ _ Hw Hop); [index_bound|intros ? ? ?]
  | |- no_fault (operand_type_id _ _ _ ≫= _) =>
      apply (safe_operand_id _ _ _ Hw Hop); [index_bound|intros ?]
  | |- no_fault (result_type_id _ _ _ ≫= _) =>
      apply (safe_result_id _ _ _ Hw Hop); [index_bound|intros ?]
  | |- no_fault (opt_integer _ _ _ ≫= _) =>
      apply (safe_opt_integer _ _ _ Hop Hattr); [rewrite Hd; vm_compute; reflexivity|intros ?]
  | |- no_fault (opt_real _ _ _ ≫= _) =>
      apply (safe_opt_real _ _ _ Hop Hattr); [rewrite Hd; vm_compute; reflexivity|intros ?]
  | |- no_fault (get_integer _ _ _ ≫= _) =>
      apply (safe_get_integer _ _ _ Hop Hattr); [rewrite Hd; vm_compute; reflexivity|intros ?]
  | |- no_fault (get_real _ _ _ ≫= _) =>
      apply (safe_get_real _ _ _ Hop Hattr); [rewrite Hd; vm_compute; reflexivity|intros ?]
  | |- no_fault (get_real ?m ?i ?n) => rewrite <- (mbind_Done (get_real m i n))
  | |- no_fault (shape_read _ _ ≫= _) => apply safe_shape; [index_bound|intros ?]
  | |- no_fault (accepted _ ≫= _) => apply safe_accepted; [|intros ?]
  | |- no_fault (neural_unary _ _ ≫= _) =>
      apply no_fault_bind; [|let H := fresh in intros [] H; pose proof (unary_accepts _ _ _ Hop H)]
  | |- no_fault (neural_linear _ _ ≫= _) =>
      apply no_fault_bind; [|let H := fresh in intros [] H; pose proof (linear_accepts _ _ _ Hop H)]
  | |- no_fault (eachO _ (drop _ _) ≫= _) =>
      apply safe_each; [intros ? ?%elem_of_drop_zseq|]
  | |- no_fault (foldO _ (zseq _) _ ≫= _) => apply safe_bind; [|intros ?]
  | |- no_fault (foldO _ (zseq _) _) =>
      apply (no_fault_foldO (fun _ => True)); [exact I|intros ? ? ?%elem_of_zseq _|done]
  | |- no_fault (eachO _ (_ :: _) ≫= _) => unfold eachO; cbn [foldO]
  | |- no_fault (eachO _ (_ :: _)) => unfold eachO; cbn [foldO]
  | |- no_fault (eachO _ (drop _ _)) => apply no_fault_eachO; intros ? ?%elem_of_drop_zseq
  | |- no_fault (or_else _ _ ≫= _) => apply safe_bind; [apply no_fault_or_else; [|intros _]|intros ?]
  | |- no_fault ((_ ≫= _) ≫= _) => apply safe_bind; [|intros ?]
  | |- no_fault (match ?x with _ => _ end ≫= _) => destruct x eqn:?; try discriminate
  | |- no_fault (match ?x with _ => _ end) => destruct x eqn:?; try discriminate
  | |- no_fault (neural_unary _ _) => unfold_verifier
  | |- no_fault (neural_binary _ _) => unfold_verifier
  | |- no_fault (neural_cast _ _) => unfold_verifier
  | |- no_fault (neural_linear _ _) => unfold_verifier
  | |- no_fault (neural_split_three _ _) => unfold_verifier
  | |- no_fault (sequence_state_result _ _ _ _) => unfold_verifier
  | |- no_fault (indexed_rows_loop _ _ _ _ _ _ _ _ ≫= _) =>
      apply safe_bind; [apply (safe_all_indexed_rows _ _ _ _ _ _ Hw Hop)|intros ?]
  | |- no_fault (neural_binary _ _ ≫= _) => apply safe_bind; [|intros ?]
  | |- no_fault (neural_cast _ _ ≫= _) => apply safe_bind; [|intros ?]
  | |- no_fault (neural_split_three _ _ ≫= _) => apply safe_bind; [|intros ?]
  | |- no_fault (sequence_state_result _ _ _ _ ≫= _) => apply safe_bind; [|intros ?]
  end.

Ltac safe Hw Hop Hattr Hd :=
  cbv zeta; unfold neural_input, neural_output;
  repeat (safe_step Hw Hop Hattr Hd; cbv beta zeta iota).

(** ** Every built-in contract *)

(** One contract after another: substitute it, then run the automation. *)
Ltac each_contract Hin Hw Hop Hattr Hd :=
  repeat (apply elem_of_cons in Hin as [->|Hin];
    [cbn [def_minimum_operands def_maximum_operands def_minimum_results def_maximum_results
        def_verify]; intros Ho Hr [= <-]; cbn [verifier_run];
     match goal with |- no_fault (?f _ _) => unfold f end;
     safe Hw Hop Hattr Hd|]);
  try (exfalso; by apply not_elem_of_nil in Hin).

Definition contract_arity (op : yvex_ir_operation) (d : yvex_ir_operation_definition) : Prop :=
  def_minimum_operands d <= zlen (op_operands op) <= def_maximum_operands d /\
  def_minimum_results d <= zlen (op_results op) <= def_maximum_results d.

Section Contracts.
  Context (m : yvex_ir_module) (i : Z) (op : yvex_ir_operation).
  Hypothesis Hw : module_wf m.
  Hypothesis Hop : zget (m_operations m) i = Some op.
  Hypothesis Hattr : ir_attributes_verify m op = true.

Lemma neural_contracts_safe d v :
    op_definition op = d -> d ∈ dia_operations yvex_ir_neural_dialect -> contract_arity op d ->
    def_verify d = Some v -> no_fault (verifier_run v m i).
  Proof.
    intros Hd Hin [Ho Hr]. revert Ho Hr.
    cbv [dia_operations yvex_ir_neural_dialect] in Hin. each_contract Hin Hw Hop Hattr Hd.
  Qed.

Lemma sequence_contracts_safe d v :
    op_definition op = d -> d ∈ dia_operations yvex_ir_sequence_dialect -> contract_arity op d ->
    def_verify d = Some v -> no_fault (verifier_run v m i).
  Proof.
    intros Hd Hin [Ho Hr]. revert Ho Hr.
    cbv [dia_operations yvex_ir_sequence_dialect take] in Hin. each_contract Hin Hw Hop Hattr Hd.
  Qed.

  (** The core contracts that follow blocks, functions and regions. *)

Lemma safe_own_block {B} (k : yvex_ir_block -> outcome B) :
    (forall b, zget (m_blocks m) (op_block op) = Some b -> no_fault (k b)) ->
    no_fault (blocks_read m (op_block op) ≫= k).
  Proof.
    intros Hk. pose proof (op_block_in _ _ _ (wf_operations _ _ Hw _ _ Hop)) as Hb.
    destruct (zget_in _ _ Hb) as [b Hbb]. unfold blocks_read, read_at. rewrite Hbb. by apply Hk.
  Qed.

Lemma safe_block_function {B} id b (k : yvex_ir_function -> outcome B) :
    zget (m_blocks m) id = Some b ->
    (forall f, zget (m_functions m) (b_function b) = Some f -> no_fault (k f)) ->
    no_fault (functions_read m (b_function b) ≫= k).
  Proof.
    intros Hb Hk. pose proof (b_function_in _ _ _ _ (wf_blocks _ _ Hw _ _ Hb)) as Hf.
    destruct (zget_in _ _ Hf) as [f Hff]. unfold functions_read, read_at. rewrite Hff. by apply Hk.
  Qed.

Lemma safe_read {A B} (l : list A) n (k : A -> outcome B) :
    0 <= n < zlen l -> (forall x, zget l n = Some x -> no_fault (k x)) -> no_fault (read_at l n ≫= k).
  Proof. intros Hn Hk. destruct (zget_in _ _ Hn) as [x Hx]. unfold read_at. rewrite Hx. by apply Hk. Qed.

Lemma safe_argument {B} id b n a (k : yvex_ir_value -> outcome B) :
    zget (m_blocks m) id = Some b -> zget (b_arguments b) n = Some a -> (forall x, no_fault (k x)) ->
    no_fault (values_read m a ≫= k).
  Proof.
    intros Hb Ha Hk. destruct (b_arguments_owned _ _ _ _ (wf_blocks _ _ Hw _ _ Hb) _ _ Ha) as (x & Hx & _).
    unfold values_read, read_at. rewrite Hx. apply Hk.
  Qed.

Lemma core_return_safe : no_fault (core_return m i).
  Proof.
    unfold core_return. apply (safe_op _ _ _ Hop), safe_own_block. intros b Hb.
    apply (safe_block_function _ _ _ Hb). intros f Hf. apply safe_format. intros Hg. bool_hyps.
    apply no_fault_eachO. intros n Hn%elem_of_zseq.
    apply (safe_operand_id _ _ _ Hw Hop); [lia|]. intros t.
    apply safe_read; [lia|]. intros r _. apply safe_format_end.
  Qed.

Lemma core_yield_safe : no_fault (core_yield m i).
  Proof.
    unfold core_yield, yvex_ir_operation_at. apply (safe_op _ _ _ Hop), safe_own_block. intros b Hb.
    destruct (zget (m_operations m) (b_parent_operation b)) as [parent|] eqn:Hp; [|done].
    apply safe_format. intros Hg. bool_hyps. apply no_fault_eachO. intros n Hn%elem_of_zseq.
    apply (safe_operand_id _ _ _ Hw Hop); [lia|]. intros t.
    apply (safe_result_id _ _ _ Hw Hp); [lia|]. intros r. apply safe_format_end.
  Qed.

Lemma core_call_safe :
    kind_admits TEXT_KINDS (op_definition op) "callee" = true -> no_fault (core_call m i).
  Proof.
    intros Hk. unfold core_call. apply (safe_op _ _ _ Hop). apply no_fault_bind.
    { destruct (yvex_ir_attribute_get m i "callee") as [a|] eqn:Ha; [|done].
      apply safe_bind; [|done]. by apply (value_text_safe _ _ _ Hop Hattr "callee"). }
    intros target Ht. destruct target as [target|]; [|done].
    assert (exists f, zget (m_functions m) target = Some f) as [f Hf].
    { destruct (yvex_ir_attribute_get m i "callee") as [a|]; [|done].
      apply bind_Done in Ht as (text & _ & [= Ht]). apply find_index_Some in Ht as (f & Hf & _).
      rewrite Z.sub_0_r in Hf. eauto. }
    unfold functions_read. apply safe_read; [by eapply zget_Some_range|]. intros f' Hf'.
    destruct (functions_bodies _ (wf_functions _ _ Hw) _ _ Hf') as (b & Hb & _).
    apply safe_read; [by eapply zget_Some_range|]. intros b' Hb'.
    apply safe_format. intros Hg. bool_hyps. apply safe_each.
    - intros n Hn%elem_of_zseq. apply (safe_operand_id _ _ _ Hw Hop); [lia|]. intros t.
      apply safe_read; [lia|]. intros a Ha. apply (safe_argument _ _ _ _ _ Hb' Ha). intros x.
      apply safe_format_end.
    - apply no_fault_eachO. intros n Hn%elem_of_zseq.
      apply (safe_result_id _ _ _ Hw Hop); [lia|]. intros t.
      apply safe_read; [lia|]. intros a Ha. apply safe_format_end.
  Qed.

Lemma core_regions_safe : 1 <= zlen (op_operands op) -> no_fault (core_regions m i).
  Proof.
    intros Ho. unfold core_regions. apply (safe_op _ _ _ Hop). cbv zeta.
    apply (safe_operand _ _ _ Hw Hop); [lia|]. intros control _ _.
    apply safe_format. intros Hg. bool_hyps.
    set (loop := String.eqb _ "core.loop") in *. apply safe_each.
    - intros r Hr. apply elem_of_zget in Hr as [k Hr].
      destruct (op_regions_owned _ _ _ (wf_operations _ _ Hw _ _ Hop) _ _ Hr) as (b & _ & Hb & _).
      apply safe_read; [by eapply zget_Some_range|]. intros b' Hb'.
      apply safe_format. intros Hn. bool_hyps. apply no_fault_eachO. intros n Hr'%elem_of_zseq.
      apply safe_read; [lia|]. intros a Ha. apply (safe_argument _ _ _ _ _ Hb' Ha). intros x.
      apply (safe_operand_id _ _ _ Hw Hop); [destruct loop; lia|]. intros t. apply safe_format_end.
    - destruct loop; [|done]. apply no_fault_eachO. intros n Hn%elem_of_zseq.
      apply (safe_result_id _ _ _ Hw Hop); [lia|]. intros t.
      apply (safe_operand_id _ _ _ Hw Hop); [cbn in *; lia|]. intros r. apply safe_format_end.
  Qed.

Lemma core_parameter_safe :
    1 <= zlen (op_results op) -> kind_admits TEXT_KINDS (op_definition op) "source" = true ->
    kind_admits INTEGER_KINDS (op_definition op) "expert_count" = true ->
    no_fault (core_parameter m i).
  Proof.
    intros Hr Hs He. unfold core_parameter. apply (safe_op _ _ _ Hop). cbv zeta.
    apply (safe_result _ _ _ Hw Hop); [lia|]. intros t _ _. apply safe_bind.
    { apply no_fault_or_else; [done|]. intros _.
      destruct (yvex_ir_attribute_get m i "source") as [a|] eqn:Ha; [|done].
      apply safe_bind; [|done]. by apply (value_text_safe _ _ _ Hop Hattr "source"). }
    intros bad. apply safe_format. intros _. destruct (_ =? 2); [|done].
    apply (safe_opt_integer _ _ _ Hop Hattr); [done|]. intros count.
    apply safe_format. intros _. apply safe_format_end.
  Qed.

Lemma core_contracts_safe d v :
    op_definition op = d -> d ∈ dia_operations yvex_ir_core_dialect -> contract_arity op d ->
    def_verify d = Some v -> no_fault (verifier_run v m i).
  Proof.
    intros Hd Hin [Ho Hr]. revert Ho Hr.
    cbv [dia_operations yvex_ir_core_dialect] in Hin.
    repeat (apply elem_of_cons in Hin as [->|Hin];
      [cbn [def_minimum_operands def_maximum_operands def_minimum_results def_maximum_results
          def_verify]; intros Ho Hr [= <-]; cbn [verifier_run];
       first [apply core_return_safe | apply core_yield_safe
         | apply core_call_safe; rewrite Hd; vm_compute; reflexivity
         | apply core_regions_safe; lia
         | apply core_parameter_safe; [lia|rewrite Hd; vm_compute; reflexivity..]
         | match goal with |- no_fault (?f _ _) => unfold f end; safe Hw Hop Hattr Hd]|]).
    by apply not_elem_of_nil in Hin.
  Qed.

Lemma builtin_contracts_safe v :
    op_definition op ∈ concat (dia_operations <$> builtin_dialects) ->
    def_verify (op_definition op) = Some v -> no_fault (verifier_run v m i).
  Proof.
    intros Hin Hv. pose proof (wf_operations _ _ Hw _ _ Hop) as [_ _ Ho Hr _ _ _ _ _ _].
    assert (contract_arity op (op_definition op)) as Ha by done.
    unfold builtin_dialects in Hin. cbn [fmap list_fmap concat] in Hin.
    rewrite !elem_of_app in Hin. destruct Hin as [Hin|[Hin|[Hin|Hin]]].
    - by eapply core_contracts_safe.
    - by eapply neural_contracts_safe.
    - by eapply sequence_contracts_safe.
    - by apply not_elem_of_nil in Hin.
  Qed.
End Contracts.

Lemma builtin_verifier d :
  d ∈ concat (dia_operations <$> builtin_dialects) -> is_Some (def_verify d).
Proof.
  intros Hd. assert (Forall (fun d => bool_decide (is_Some (def_verify d)) = true)
    (concat (dia_operations <$> builtin_dialects))) as H by (vm_compute; repeat constructor).
  rewrite Forall_forall in H. by apply H, bool_decide_eq_true in Hd.
Qed.

(** ** Stateful walks *)

(** From a state in [I], the run ends in [I] and does not fault. *)
Definition so_safe {S A} (I : S -> Prop) (c : SO S A) : Prop :=
  forall s, I s -> I (c s).1 /\ no_fault (c s).2.

Section SoSafe.
  Context {S : Type} (I : S -> Prop).

Lemma so_safe_bind {A B} (c : SO S A) (k : A -> SO S B) :
    so_safe I c -> (forall a, so_safe I (k a)) -> so_safe I (c ≫= k).
  Proof.
    intros Hc Hk s Hs. destruct (Hc s Hs) as [Hi Hn]. unfold mbind, so_bind.
    destruct (c s) as [s' [a| |]]; cbn in *; [by apply Hk|done..].
  Qed.

Lemma so_safe_bind_post {A B} (c : SO S A) (k : A -> SO S B) :
    so_safe I c -> (forall a, (exists s s', c s = (s', Done a)) -> so_safe I (k a)) ->
    so_safe I (c ≫= k).
  Proof.
    intros Hc Hk s Hs. destruct (Hc s Hs) as [Hi Hn]. unfold mbind, so_bind.
    destruct (c s) as [s' [a| |]] eqn:E; cbn in *; [apply Hk; eauto|done..].
  Qed.

Lemma so_safe_get {A} (k : S -> SO S A) :
    (forall s, I s -> I (k s s).1 /\ no_fault (k s s).2) -> so_safe I (so_get ≫= k).
  Proof. intros H s Hs. by apply H. Qed.

Lemma so_safe_lift_bind {A B} (c : outcome A) (k : A -> SO S B) :
    no_fault c -> (forall a, c = Done a -> so_safe I (k a)) -> so_safe I (so_lift c ≫= k).
  Proof.
    intros Hc Hk s Hs. unfold mbind, so_bind, so_lift. destruct c as [a| |]; [by apply Hk|done..].
  Qed.

Lemma so_safe_lift {A} (c : outcome A) : no_fault c -> so_safe I (so_lift c).
  Proof. done. Qed.

Lemma so_safe_refuse_if b st r : so_safe I (so_refuse_if b st r).
  Proof. intros s Hs. cbn. split; [done|]. apply no_fault_refuse_if. Qed.

Lemma so_safe_refuse_bind {B} b st r (k : unit -> SO S B) :
    (b = false -> so_safe I (k tt)) -> so_safe I (so_refuse_if b st r ≫= k).
  Proof. intros Hk s Hs. destruct b; cbn; [done|]. by apply Hk. Qed.

Lemma so_safe_each {A} (f : A -> SO S unit) l :
    (forall x, x ∈ l -> so_safe I (f x)) -> so_safe I (so_each f l).
  Proof.
    induction l as [|x l IH]; intros H; cbn [so_each]; [done|].
    apply so_safe_bind; [apply H; set_solver|]. intros _. apply IH. set_solver.
  Qed.

Lemma so_safe_put_bind {B} s' (k : unit -> SO S B) :
    I s' -> so_safe I (k tt) -> so_safe I (so_put s' ≫= k).
  Proof. intros Hs Hk s _. by apply Hk. Qed.
End SoSafe.

Section Verify.
  Context (m : yvex_ir_module).
  Hypothesis Hw : module_wf m.
  Hypothesis Hbuiltin : native_dialects (m_dialects m).

Definition marks_sized (s : marks) : Prop :=
    zlen (visited s) = zlen (m_operations m) /\ zlen (m_values m) <= zlen (consumed s).

Lemma effects_safe id : no_fault (yvex_ir_operation_effects m id).
  Proof.
    unfold yvex_ir_operation_effects. destruct (yvex_ir_operation_at m id); [|done].
    destruct (negb _); [done|].
    destruct (yvex_ir_attribute_get m id "callee") as [[n []]|]; try done.
    destruct (yvex_ir_function_find m _) as [f|] eqn:Hf; [|done].
    apply find_index_Some in Hf as (x & Hx & _). rewrite Z.sub_0_r in Hx.
    apply safe_read; [by eapply zget_Some_range|]. done.
  Qed.

Lemma visible_safe value use : no_fault (ir_visible m value use).
  Proof.
    unfold ir_visible, yvex_ir_value_at. destruct (zget (m_values m) value) as [v|] eqn:Hv; [|done].
    destruct (yvex_ir_operation_at m use) as [op|]; [|done].
    assert (0 <= v_type v < zlen (m_types m)) as Ht by (by eapply wf_values).
    generalize 64%nat as fuel. intros fuel. revert op use.
    induction fuel as [|fuel IH]; intros op use; cbn; [done|].
    destruct (yvex_ir_block_at m _) as [b|]; [|done]. destruct (_ =? v_block v); [done|].
    apply safe_read; [done|]. intros t _. destruct (_ || _); [done|].
    destruct (yvex_ir_operation_at m _); [|done]. apply IH.
  Qed.

Lemma value_is_state_safe v : 0 <= v < zlen (m_values m) -> no_fault (value_is_state m v).
  Proof.
    intros Hv. apply safe_read; [done|]. intros x Hx.
    apply safe_read; [by eapply wf_values|]. done.
  Qed.

Lemma state_operands_safe c effects transfer earlier l :
    zlen (m_values m) <= zlen c -> Forall (fun v => 0 <= v < zlen (m_values m)) l ->
    no_fault (state_operands m c effects transfer earlier l).
  Proof.
    intros Hc. revert earlier. induction l as [|v l IH]; intros earlier Hl; cbn; [done|].
    apply Forall_cons in Hl as [Hv Hl]. apply safe_bind; [|intros _; by apply IH].
    apply safe_bind; [by apply value_is_state_safe|]. intros st. destruct (negb st); [done|].
    apply safe_read; [lia|]. intros stale _. apply safe_format. intros _.
    destruct (_ && _); [done|]. apply safe_format_end.
  Qed.

Lemma state_verify_safe id op :
    zget (m_operations m) id = Some op -> so_safe marks_sized (ir_state_verify m id).
  Proof.
    intros Hop s [Hsv Hsc]. pose proof (wf_operations _ _ Hw _ _ Hop) as Ho.
    pose proof (op_operands_in _ _ _ Ho) as Hin.
    unfold ir_state_verify. set (checked := operations_read m id ≫= _).
    assert (no_fault checked /\ forall c, checked = Done c -> zlen c = zlen (consumed s)) as [Hn Hlen].
    { split.
      - subst checked. apply (safe_op _ _ _ Hop). apply safe_bind; [apply effects_safe|]. intros effects.
        cbv zeta. apply safe_bind; [by apply state_operands_safe|]. intros _.
        apply safe_each.
        { intros r Hr. apply elem_of_zget in Hr as [k Hr].
          destruct (op_results_owned _ _ _ Ho _ _ Hr) as (v & Hv & _).
          apply safe_bind; [apply value_is_state_safe; by eapply zget_Some_range|].
          intros st. apply safe_format_end. }
        destruct (_ || _); [|done].
        apply (no_fault_foldO (fun c => zlen c = zlen (consumed s))); [done|..].
        + intros c v Hv Hc. rewrite Forall_forall in Hin. specialize (Hin v Hv).
          apply safe_bind; [by apply value_is_state_safe|]. intros []; [|done].
          unfold mark. by replace ((0 <=? v) && (v <? zlen c)) with true by lia.
        + intros c v c' Hv Hc Hd. apply bind_Done in Hd as ([] & _ & Hd); [|by simplify_eq].
          apply mark_Done in Hd as [_ ->]. by rewrite zlen_zset.
      - intros c Hc. subst checked. apply bind_Done in Hc as (op' & _ & Hc).
        apply bind_Done in Hc as (e & _ & Hc). apply bind_Done in Hc as ([] & _ & Hc).
        apply bind_Done in Hc as ([] & _ & Hc). destruct (_ || _); [|by simplify_eq].
        by apply consume_fold in Hc as [-> _]. }
    destruct checked as [c| |]; [|done..]. cbn. split; [|done].
    split; [done|]. cbn. by rewrite (Hlen c eq_refl).
  Qed.

Lemma operation_verify_safe recurse block_id block id :
    (forall r, so_safe marks_sized (recurse r)) -> zget (m_blocks m) block_id = Some block ->
    0 <= b_function block < zlen (m_functions m) ->
    so_safe marks_sized (operation_verify recurse m block_id block id).
  Proof.
    intros Hrec Hb Hf. apply so_safe_get. intros s Hs.
    pose proof Hs as [Hsv Hsc]. revert s Hs Hsv Hsc. intros s Hs Hsv Hsc.
    match goal with |- _ (?k s).1 /\ _ => enough (so_safe marks_sized k) as Hk by (by apply Hk) end.
    apply so_safe_lift_bind.
    { unfold operation_rejected, yvex_ir_operation_at.
      destruct (zget (m_operations m) id) as [op|] eqn:Hop; [|done].
      pose proof (zget_Some_range _ _ _ Hop).
      apply no_fault_or_else; [apply no_fault_read_at; lia|]. intros _.
      apply no_fault_or_else; [done|]. intros _.
      apply safe_bind; [apply effects_safe|]. intros e. apply safe_read; [done|]. done. }
    intros rej Hrej. apply so_safe_refuse_bind. intros ->.
    apply operation_rejected_false in Hrej as (op & f & e & Hop & Hbl & _ & Hreg & Hattr & _).
    pose proof (zget_Some_range _ _ _ Hop) as Hrng.
    apply so_safe_lift_bind; [by apply no_fault_read_at|]. intros op' Hop'%read_at_Done.
    assert (op' = op) as -> by congruence.
    assert (mark (visited s) id = Done (zset (visited s) id true)) as Hmark.
    { unfold mark. by replace ((0 <=? id) && (id <? zlen (visited s))) with true by lia. }
    rewrite Hmark. apply so_safe_lift_bind; [done|]. intros seen [= <-].
    apply so_safe_put_bind. { split; cbn; [by rewrite zlen_zset|done]. }
    apply so_safe_lift_bind.
    { unfold operation_checked. apply safe_each.
      { intros o _. apply safe_bind; [apply visible_safe|]. intros vis. apply safe_format_end. }
      apply safe_format. intros _. destruct (def_verify (op_definition op)) as [v|] eqn:Hv.
      - apply (builtin_contracts_safe m id op Hw Hop Hattr); [|done].
        apply (native_definition _ _ Hbuiltin). by apply (op_admitted _ _ _ (wf_operations _ _ Hw _ _ Hop)).
      - exfalso. pose proof (op_admitted _ _ _ (wf_operations _ _ Hw _ _ Hop)) as Hin.
        apply (native_definition _ _ Hbuiltin) in Hin. destruct (builtin_verifier _ Hin) as [v Hv']. congruence. }
    intros _ _. apply so_safe_bind; [by eapply state_verify_safe|]. intros _.
    apply so_safe_bind; [|intros _; apply so_safe_refuse_if].
    apply so_safe_each. intros r _. apply so_safe_refuse_bind. intros _. apply Hrec.
  Qed.

  (** A chain lists distinct operations, so its walk ends within the fuel. *)
Lemma chain_length b : (length (block_ops (m_operations m) b) < chain_fuel m)%nat.
  Proof.
    unfold chain_fuel. apply Nat.lt_succ_r.
    transitivity (length (zseq (zlen (m_operations m)))).
    - unfold block_ops. apply List.filter_length_le.
    - pose proof (zlen_zseq (zlen (m_operations m)) (zlen_nonneg _)). unfold zlen in *. lia.
  Qed.

Lemma chain_verify_safe fuel recurse block_id block id last l :
    (forall r, so_safe marks_sized (recurse r)) -> zget (m_blocks m) block_id = Some block ->
    0 <= b_function block < zlen (m_functions m) ->
    linked (m_operations m) id l -> (length l < fuel)%nat ->
    so_safe marks_sized (chain_verify fuel recurse m block_id block id last).
  Proof.
    intros Hrec Hb Hf Hl. revert fuel last. induction Hl as [|i op l Hop Hl IH]; intros fuel last Hlt.
    { destruct fuel; [cbn in Hlt; lia|]. cbn [chain_verify]. done. }
    destruct fuel as [|fuel]; [cbn in Hlt; lia|]. cbn [chain_verify].
    destruct (i =? YVEX_IR_NONE); [done|].
    apply so_safe_bind; [by apply operation_verify_safe|]. intros _.
    apply so_safe_lift_bind; [apply no_fault_read_at; by eapply zget_Some_range|].
    intros op' Hop'%read_at_Done. assert (op' = op) as -> by congruence. apply IH. cbn in Hlt. lia.
  Qed.

  (** The final operation of a completed chain exists. *)
Lemma chain_verify_last fuel recurse block_id block id last s s' final :
    chain_verify fuel recurse m block_id block id last s = (s', Done final) ->
    final = last \/ 0 <= final < zlen (m_operations m).
  Proof.
    revert id last s. induction fuel as [|fuel IH]; intros id last s H; cbn in H; [done|].
    destruct (id =? YVEX_IR_NONE); [injection H as _ <-; by left|].
    apply so_bind_Done in H as ([] & s1 & _ & H).
    apply so_bind_Done in H as (op & s2 & H2 & H). apply so_lift_Done in H2 as [-> Hop%read_at_Done].
    apply IH in H as [->|H]; [|by right]. right. by eapply zget_Some_range.
  Qed.

Lemma block_verify_safe fuel b : so_safe marks_sized (ir_block_verify fuel m b).
  Proof.
    revert b. induction fuel as [|fuel IH]; intros b.
    { cbn. by destruct (yvex_ir_block_at m b). }
    cbn -[or_else chain_verify]. unfold yvex_ir_block_at.
    destruct (zget (m_blocks m) b) as [block|] eqn:Hb; [|done].
    destruct (_ || _) eqn:Hg; [done|]. bool_hyps.
    apply so_safe_refuse_bind. intros _.
    destruct (wf_chains _ _ Hw _ _ Hb) as [Hl Hlast].
    pose proof (chain_verify_safe (chain_fuel m) (ir_block_verify fuel m) b block
      (b_first_operation block) YVEX_IR_NONE _ IH Hb ltac:(lia) Hl (chain_length b)) as Hchain.
    apply so_safe_bind_post; [exact Hchain|]. intros final (s & s' & E).
    apply so_safe_lift_bind; [|intros u _; apply so_safe_refuse_if].
    apply no_fault_or_else; [done|]. intros [= Heq]. bool_hyps.
    apply chain_verify_last in E as Hf.
    pose proof (last_block_op m b block (conj Hl Hlast) ltac:(apply Hw)) as Hlb.
    destruct (b_last_operation block =? YVEX_IR_NONE) eqn:Hnone.
    - rewrite Hlb in Hl. inversion Hl as [Hx|]; subst. lia.
    - destruct Hlb as (l & op & _ & Hop & _). replace final with (b_last_operation block) by lia.
      apply safe_read; [by eapply zget_Some_range|]. done.
  Qed.

Lemma verify_function_safe index :
    0 <= index < zlen (m_functions m) -> so_safe marks_sized (verify_function m index).
  Proof.
    intros Hi. apply so_safe_lift_bind; [by apply no_fault_read_at|]. intros f _.
    apply so_safe_refuse_bind. intros _. apply block_verify_safe.
  Qed.

  (** ** Call colouring *)

Definition colors_sized (c : list Z) : Prop := zlen c = zlen (m_functions m).

  Hypothesis Hconform : forall i op, zget (m_operations m) i = Some op ->
    ir_attributes_verify m op = true.

Lemma builtin_text_rules d :
    d ∈ concat (dia_operations <$> builtin_dialects) ->
    String.eqb (def_name d) "core.call" = true -> kind_admits TEXT_KINDS d "callee" = true.
  Proof.
    intros Hd. assert (Forall (fun d => implb (String.eqb (def_name d) "core.call")
      (kind_admits TEXT_KINDS d "callee") = true) (concat (dia_operations <$> builtin_dialects))) as H
      by (vm_compute; repeat constructor).
    rewrite Forall_forall in H. specialize (H d Hd). intros Hn. by rewrite Hn in H.
  Qed.

Lemma calls_chain_safe fuel visit nested id l :
    (forall g, 0 <= g < zlen (m_functions m) -> so_safe colors_sized (visit g)) ->
    (forall r, 0 <= r < zlen (m_blocks m) -> so_safe colors_sized (nested r)) ->
    linked (m_operations m) id l -> (length l < fuel)%nat ->
    so_safe colors_sized (calls_chain fuel visit nested m id).
  Proof.
    intros Hv Hn Hl. revert fuel. induction Hl as [|i op l Hop Hl IH]; intros fuel Hlt.
    { destruct fuel; [cbn in Hlt; lia|]. cbn [calls_chain]. done. }
    destruct fuel as [|fuel]; [cbn in Hlt; lia|]. cbn [calls_chain].
    destruct (i =? YVEX_IR_NONE); [done|].
    pose proof (wf_operations _ _ Hw _ _ Hop) as Howf.
    apply so_safe_lift_bind; [apply no_fault_read_at; by eapply zget_Some_range|].
    intros op' Hop'%read_at_Done. assert (op' = op) as -> by congruence.
    apply so_safe_bind.
    { destruct (is_call op) eqn:Hcall; [|done].
      destruct (yvex_ir_attribute_get m i "callee") as [a|] eqn:Ha; [|done].
      apply so_safe_lift_bind.
      - apply (value_text_safe m i op Hop (Hconform _ _ Hop) "callee"); [done|].
        apply builtin_text_rules; [|done]. apply (native_definition _ _ Hbuiltin). apply Howf.
      - intros text _. destruct (yvex_ir_function_find m text) as [g|] eqn:Hg; [|done].
        apply Hv. apply find_index_Some in Hg as (x & Hx & _). rewrite Z.sub_0_r in Hx.
        by eapply zget_Some_range. }
    intros called. destruct (negb called); [done|]. apply so_safe_bind.
    - assert (forall r, r ∈ op_regions op -> 0 <= r < zlen (m_blocks m)) as Hregs.
      { intros r Hr. apply elem_of_zget in Hr as [k Hr].
        destruct (op_regions_owned _ _ _ Howf _ _ Hr) as (b & _ & Hb & _). by eapply zget_Some_range. }
      induction (op_regions op) as [|r rs IHr]; [done|].
      apply so_safe_bind; [apply Hn, Hregs; set_solver|]. intros []; [|done].
      apply IHr. set_solver.
    - intros walked. destruct (negb walked); [done|]. apply IH. cbn in Hlt. lia.
  Qed.

Lemma call_visit_safe calls g :
    (forall b, 0 <= b < zlen (m_blocks m) -> so_safe colors_sized (calls b)) ->
    0 <= g < zlen (m_functions m) -> so_safe colors_sized (call_visit_with calls m g).
  Proof.
    intros Hcalls Hg. apply so_safe_get. intros c Hc.
    match goal with |- _ (?k c).1 /\ _ => enough (so_safe colors_sized k) as Hk by (by apply Hk) end.
    apply so_safe_lift_bind; [apply no_fault_read_at; unfold colors_sized in *; lia|]. intros color _.
    destruct (_ =? 1); [done|]. destruct (_ =? 2); [done|].
    apply so_safe_put_bind; [unfold colors_sized in *; by rewrite zlen_zset|].
    apply so_safe_lift_bind; [by apply no_fault_read_at|]. intros f Hf%read_at_Done.
    apply so_safe_bind.
    - apply Hcalls. destruct (functions_bodies _ (wf_functions _ _ Hw) _ _ Hf) as (b & Hb & _).
      by eapply zget_Some_range.
    - intros ok. destruct (negb ok); [done|]. intros c' Hc'.
      change (colors_sized (zset c' g 2) /\ True). split; [|done].
      unfold colors_sized in *. by rewrite zlen_zset.
  Qed.

Lemma block_calls_safe fuel b :
    0 <= b < zlen (m_blocks m) -> so_safe colors_sized (ir_block_calls fuel m b).
  Proof.
    revert b. induction fuel as [|fuel IH]; intros b Hb; [done|]. cbn -[calls_chain].
    apply so_safe_lift_bind; [by apply no_fault_read_at|]. intros block Hblk%read_at_Done.
    destruct (wf_chains _ _ Hw _ _ Hblk) as [Hl _].
    apply calls_chain_safe with (block_ops (m_operations m) b); [|done|done|apply chain_length].
    intros g Hg. destruct fuel; [done|]. by apply call_visit_safe.
  Qed.

  (** ** Parameters *)

Lemma builtin_parameter_rules d :
    d ∈ concat (dia_operations <$> builtin_dialects) ->
    String.eqb (def_name d) "core.parameter" = true ->
    kind_admits TEXT_KINDS d "source" = true /\ rule_requires d "source" = true /\
    kind_admits TEXT_KINDS d "parameter" = true /\ rule_requires d "parameter" = true /\
    1 <= def_minimum_results d.
  Proof.
    intros Hd. assert (Forall (fun d => implb (String.eqb (def_name d) "core.parameter")
      (kind_admits TEXT_KINDS d "source" && rule_requires d "source"
       && kind_admits TEXT_KINDS d "parameter" && rule_requires d "parameter"
       && (1 <=? def_minimum_results d)) = true) (concat (dia_operations <$> builtin_dialects))) as H
      by (vm_compute; repeat constructor).
    rewrite Forall_forall in H. specialize (H d Hd). intros Hn. rewrite Hn in H. cbn [implb] in H.
    bool_hyps. repeat split; try done. lia.
  Qed.

Lemma parameters_safe granted : no_fault (ir_parameters_verify granted m).
  Proof.
    unfold ir_parameters_verify. destruct (_ =? 0); [done|]. destruct (negb granted); [done|].
    apply safe_bind; [|intros ps; apply safe_format_end].
    apply no_fault_mapO. intros i Hi. unfold parameter_ids in Hi.
    apply list_elem_of_In, List.filter_In in Hi as [_ Hi].
    destruct (zget (m_operations m) i) as [op|] eqn:Hop; [|done].
    pose proof (wf_operations _ _ Hw _ _ Hop) as Howf.
    destruct (builtin_parameter_rules (op_definition op)) as (Hsk & Hsr & Hpk & Hpr & Hres);
      [apply (native_definition _ _ Hbuiltin); apply Howf|done|].
    pose proof (Hconform _ _ Hop) as Hattr.
    unfold parameter_at. apply (safe_op _ _ _ Hop).
    destruct (attribute_present m i op Hop Hattr "source" Hsr) as [a Ha]. rewrite Ha.
    change (no_fault (value_text a ≫= fun source =>
      symbol ← deref (yvex_ir_attribute_get m i "parameter"); symbol ← value_text symbol;
      type ← result_type_id m op 0; Done (mk_parameter source symbol type))).
    apply safe_bind; [by eapply (value_text_safe m i op Hop Hattr)|]. intros source.
    destruct (attribute_present m i op Hop Hattr "parameter" Hpr) as [p Hp]. rewrite Hp.
    change (no_fault (value_text p ≫= fun symbol =>
      type ← result_type_id m op 0; Done (mk_parameter source symbol type))).
    apply safe_bind; [by eapply (value_text_safe m i op Hop Hattr)|]. intros symbol.
    pose proof (op_results_arity _ _ _ Howf).
    apply (safe_result_id _ _ _ Hw Hop); [lia|]. done.
  Qed.
End Verify.

Lemma verify_no_fault alloc m :
  module_wf m -> native_dialects (m_dialects m) -> no_fault (yvex_ir_verify alloc m).
Proof.
  intros Hw Hb. unfold yvex_ir_verify.
  destruct (_ || _) eqn:Hne; [done|]. destruct (negb _) eqn:Hty; [done|].
  destruct (negb (alloc 0%nat && _ && _)) eqn:Hal; [done|].
  set (s0 := mk_marks _ _).
  assert (marks_sized m s0) as Hs0.
  { split; cbn; rewrite zlen_replicate; unfold zlen; lia. }
  destruct (so_safe_each (marks_sized m) (verify_function m) (zseq (zlen (m_functions m)))
    ltac:(intros i Hi%elem_of_zseq; by apply verify_function_safe) s0 Hs0) as [_ Hn].
  destruct (so_each (verify_function m) _ s0) as [s r] eqn:E. cbn in Hn.
  apply no_fault_bind; [done|]. intros [] ->.
  apply no_fault_bind; [apply safe_format_end|]. intros [] Horph.
  assert (forall i op, zget (m_operations m) i = Some op -> ir_attributes_verify m op = true) as Hconf.
  { apply functions_trace in E as (ids & bodies & [[Hl _] Hv _ _ _ Hok] & _).
    intros i op Hop. pose proof (zget_Some_range _ _ _ Hop) as Hi.
    assert (i ∈ ids) as Hin.
    { destruct (zget_in (visited s) i) as [b Hbm].
      { cbn in Hl. rewrite zlen_replicate in Hl. unfold zlen in *. lia. }
      destruct b.
      - apply Hv in Hbm as [Hm|Hm]; [|done]. unfold marked in Hm. cbn in Hm.
        apply zget_elem_of, elem_of_replicate_inv in Hm. done.
      - exfalso. apply refuse_if_Done in Horph.
        enough (existsb negb (visited s) = true) by congruence.
        apply existsb_exists. exists false. split; [|done].
        apply list_elem_of_In. by eapply zget_elem_of. }
    rewrite Forall_forall in Hok. destruct (Hok i Hin) as (op' & ? & ? & ? & Hop' & _ & _ & _ & Ha & _).
    assert (op' = op) as -> by congruence. done. }
  apply no_fault_bind; [by apply parameters_safe|]. intros [] _.
  apply (so_safe_each (colors_sized m)).
  - intros i Hi%elem_of_zseq. unfold verify_calls, ir_call_visit.
    apply so_safe_bind; [|intros ok; apply so_safe_refuse_if].
    apply call_visit_safe; [done| |done]. intros b. by apply block_calls_safe.
  - unfold colors_sized. rewrite zlen_replicate. done.
Qed.

(** C39: Verification is total and memory safe: on every module a client can build
    over any selection of the built-in dialects, in any order, whatever the allocator does, [yvex_ir_verify]
    terminates within its bounds and returns acceptance or a refusal; no
    verifier of the 76 contracts reads an operand, result, value, type, block or
    function out of range, dereferences a missing attribute or reads a union
    through the wrong member. *)
Theorem verify_total alloc m :
  ir_reachable m -> native_dialects (m_dialects m) -> no_fault (yvex_ir_verify alloc m).
Proof.
  intros Hr Hb. apply verify_no_fault; [by apply reachable_wf|done].
Qed.

Lemma verify_total_witness : no_fault (yvex_ir_verify grant demo_module).
Proof. apply (verify_total grant demo_module demo_reachable demo_native). Defined.
