(* ===== verification/IrPrint.v ===== *)
(** * IrPrint: the canonical projection and the identity of a module

    Models [src/ir/print.c]: the textual projection (types, attributes in name
    order, arguments, blocks, dimensions and functions in name order, values
    renumbered per function in printing order) and [yvex_ir_seal], which hashes
    the projection into the identity of the module.

    A C printing function that returns 0 makes [yvex_ir_print] refuse with one
    reason; here it refuses with that reason directly.  Each piece of formatted
    text is limited to 511 characters, as the C buffer is. *)

From Stdlib Require Import ZArith Lia Bool Sorting.Sorted.
From stdpp Require Import base list option numbers strings sets.
From S2P Require Import Prelude Core Sha256 Text Float64 IrData IrCore IrSequence IrNeural IrModule IrInvariant IrVerify IrSafety.

(** [grants] counts the growth requests made to the allocator. *)
Record ir_printer : Type := mk_printer {
  pr_bytes : yvex_core_bytes;
  pr_values : list Z;
  pr_next_value : Z;
  pr_grants : nat
}.

Definition print_failed {A} : outcome A :=
  Refuse YVEX_ERR_NOMEM "IR projection exceeds output/allocation budget".

Section Printer.
  Context (alloc : allocator) (m : yvex_ir_module).

  (** [yvex_core_bytes_append(p->bytes, ...)] *)
Definition pr_append (data : list Z) : SO ir_printer unit := fun p =>
    match yvex_core_bytes_append (alloc (pr_grants p)) (pr_bytes p) data with
    | None => (p, print_failed)
    | Some b => (mk_printer b (pr_values p) (pr_next_value p) (S (pr_grants p)), Done tt)
    end.

  (** [ir_text] of the formatted string *)
Definition ir_text (text : string) : SO ir_printer unit :=
    if (512 <=? String.length text)%nat then so_lift print_failed
    else pr_append (string_bytes text).

Definition ir_quote (text : string) : SO ir_printer unit :=
    ir_text (bytes_string [34]);;
    so_each (fun c =>
      if (c <? 32) || (127 <=? c) || (c =? 92) || (c =? 34)
      then ir_text ("\x" +:+ hex_fixed 2 c)
      else pr_append [c]) (string_bytes text);;
    ir_text (bytes_string [34]).

Definition scalar_names : list string :=
    ["invalid"; "bool"; "index"; "i32"; "i64"; "f16"; "bf16"; "f32"; "f64"].

  (** [a, b, c]: a separator before every item but the first. *)
Fixpoint separated {A} (print : A -> SO ir_printer unit) (first : bool) (l : list A)
      : SO ir_printer unit :=
    match l with
    | [] => mret tt
    | x :: l => (if first then mret tt else ir_text ", ");; print x;; separated print false l
    end.

  (** [depth] is 33 minus the fuel. *)
Fixpoint ir_type_print (fuel : nat) (id : Z) : SO ir_printer unit :=
    match fuel, yvex_ir_type_at m id with
    | S fuel, Some type =>
        if ty_kind type =? YVEX_IR_SCALAR then
          name ← so_lift (read_at scalar_names (ty_scalar type)); ir_text name
        else if (ty_kind type =? YVEX_IR_TUPLE) || (ty_kind type =? YVEX_IR_PROGRAM) then
          ir_text (if ty_kind type =? YVEX_IR_TUPLE then "tuple<" else "program<");;
          separated (fun i => ir_type_print fuel (member_at type i)) true
            (zseq (ty_member_count type));;
          ir_text ">"
        else
          ir_text (if ty_kind type =? YVEX_IR_STATE then "state<" else "tensor<");;
          (if ty_kind type =? YVEX_IR_STATE then ir_text (ty_domain type +:+ "; ") else mret tt);;
          so_each (fun i =>
            let extent := shape_at type i in
            if ext_symbol extent =? YVEX_IR_NONE then ir_text (dec (ext_extent extent) +:+ "x")
            else
              d ← so_lift (deref (yvex_ir_dimension_at m (ext_symbol extent)));
              ir_text ("${" +:+ dim_name d +:+ "}x")) (zseq (ty_rank type));;
          name ← so_lift (read_at scalar_names (ty_scalar type));
          ir_text (name +:+ ">")
    | _, _ => so_lift print_failed
    end.

Definition type_print : Z -> SO ir_printer unit := ir_type_print 33.

Definition ir_attribute_order (a b : yvex_ir_attribute) : comparison :=
    String.compare (attr_name a) (attr_name b).

Definition attribute_print (a : yvex_ir_attribute) : SO ir_printer unit :=
    ir_text (attr_name a +:+ " = ");;
    match attr_value a with
    | AttrU64 n => ir_text ("u64(" +:+ dec n +:+ ")")
    | AttrF64 bits => ir_text ("f64bits(0x" +:+ hex_fixed 16 bits +:+ ")")
    | AttrBool n => ir_text (if n =? 0 then "false" else "true")
    | AttrSymbol text => ir_text ("@" +:+ text)
    | AttrText text => ir_quote text
    | AttrType type => type_print type
    | AttrOther _ _ => so_lift print_failed
    end.

  (** [ordered] has room for 256 attributes. *)
Definition ir_attributes_print (op : yvex_ir_operation) : SO ir_printer unit :=
    if zlen (op_attributes op) =? 0 then mret tt
    else if 256 <? zlen (op_attributes op) then so_lift (Fault OutOfBounds)
    else
      ir_text " {";;
      separated attribute_print true (sort_by ir_attribute_order (op_attributes op));;
      ir_text "}".

  (** [p->values[value] = p->next_value++] *)
Definition pr_number (value : Z) : SO ir_printer Z := fun p =>
    if (0 <=? value) && (value <? zlen (pr_values p))
    then (mk_printer (pr_bytes p) (zset (pr_values p) value (pr_next_value p))
            (u32 (pr_next_value p + 1)) (pr_grants p), Done (pr_next_value p))
    else (p, Fault OutOfBounds).

Definition value_type_print (value : Z) : SO ir_printer unit :=
    v ← so_lift (values_read m value); type_print (v_type v).

Fixpoint arguments_print (first : bool) (l : list Z) : SO ir_printer unit :=
    match l with
    | [] => mret tt
    | value :: l =>
        number ← pr_number value;
        (if first then mret tt else ir_text ", ");;
        ir_text ("%" +:+ dec number +:+ ": ");;
        value_type_print value;;
        arguments_print false l
    end.

Definition ir_arguments_print (block : yvex_ir_block) : SO ir_printer unit :=
    arguments_print true (b_arguments block).

  (** The results of an operation, numbered as they are printed. *)
Fixpoint results_print (first : bool) (l : list Z) : SO ir_printer unit :=
    match l with
    | [] => mret tt
    | value :: l =>
        number ← pr_number value;
        (if first then mret tt else ir_text ", ");;
        ir_text ("%" +:+ dec number);;
        results_print false l
    end.

Definition operand_print (value : Z) : SO ir_printer unit :=
    p ← so_get; number ← so_lift (read_at (pr_values p) value); ir_text ("%" +:+ dec number).

  (** The header line of one operation. *)
Definition operation_line (depth : Z) (id : Z) (op : yvex_ir_operation) : SO ir_printer unit :=
    ir_text (spaces (depth * 2));;
    results_print true (op_results op);;
    (if zlen (op_results op) =? 0 then mret tt else ir_text " = ");;
    ir_text (def_name (op_definition op) +:+ ".v" +:+ dec (def_version (op_definition op)) +:+ "(");;
    separated operand_print true (op_operands op);;
    ir_text ")";;
    ir_attributes_print op;;
    ir_text " -> (";;
    separated value_type_print true (op_results op);;
    effects ← so_lift (yvex_ir_operation_effects m id);
    ir_text (") effects=0x" +:+ hex effects +:+ bytes_string [10]).

  (** The regions of one operation, numbered from [index]. *)
Fixpoint regions_print (nested : Z -> SO ir_printer unit) (depth index : Z) (l : list Z)
      : SO ir_printer unit :=
    match l with
    | [] => mret tt
    | r :: l =>
        ir_text (spaces (depth * 2) +:+ "region " +:+ dec index +:+ "(");;
        region ← so_lift (blocks_read m r);
        ir_arguments_print region;;
        ir_text (") {" +:+ bytes_string [10]);;
        nested r;;
        ir_text (spaces (depth * 2) +:+ "}" +:+ bytes_string [10]);;
        regions_print nested depth (index + 1) l
    end.

Fixpoint chain_print (fuel : nat) (nested : Z -> SO ir_printer unit) (depth id : Z)
      : SO ir_printer unit :=
    match fuel with
    | O => so_lift (Fault OutOfFuel)
    | S fuel =>
        if id =? YVEX_IR_NONE then mret tt else
        op ← so_lift (operations_read m id);
        operation_line depth id op;;
        regions_print nested depth 0 (op_regions op);;
        chain_print fuel nested depth (op_next op)
    end.

  (** [fuel] is 65 minus the depth. *)
Fixpoint ir_block_print (fuel : nat) (depth : Z) (block_id : Z) : SO ir_printer unit :=
    match fuel with
    | O => so_lift print_failed
    | S fuel =>
        block ← so_lift (blocks_read m block_id);
        chain_print (chain_fuel m) (ir_block_print fuel (depth + 1)) depth (b_first_operation block)
    end.

Definition ir_dimension_order (a b : yvex_ir_dimension) : comparison :=
    String.compare (dim_name a) (dim_name b).
Definition ir_function_order (a b : yvex_ir_function) : comparison :=
    String.compare (f_symbol a) (f_symbol b).

Definition dimension_print (d : yvex_ir_dimension) : SO ir_printer unit :=
    ir_text ("  dim $" +:+ dim_name d +:+ " [" +:+ dec (dim_minimum d) +:+ ", "
             +:+ dec (dim_maximum d) +:+ "] multiple=" +:+ dec (dim_multiple d)
             +:+ bytes_string [10]).

Definition function_print (f : yvex_ir_function) : SO ir_printer unit :=
    so_modify (fun p => mk_printer (pr_bytes p) (pr_values p) 0 (pr_grants p));;
    ir_text ("  func @" +:+ f_symbol f +:+ "(");;
    body ← so_lift (blocks_read m (f_body f));
    ir_arguments_print body;;
    ir_text ") -> (";;
    separated type_print true (f_results f);;
    ir_text (") effects=0x" +:+ hex (f_effects f) +:+ " {" +:+ bytes_string [10]);;
    ir_block_print 63 2 (f_body f);;
    ir_text ("  }" +:+ bytes_string [10]).

  (** [arrays] is whether the two pointer arrays were allocated. *)
Definition ir_module_print (arrays : bool) : SO ir_printer unit :=
    if negb arrays then so_lift print_failed else
    ir_text ("yvex.ir.text.v1" +:+ bytes_string [10] +:+ "module @" +:+ m_name m +:+ " source="
             +:+ m_source_identity m +:+ " {" +:+ bytes_string [10]);;
    so_each dimension_print (sort_by ir_dimension_order (m_dimensions m));;
    so_each function_print (sort_by ir_function_order (m_functions m));;
    ir_text ("}" +:+ bytes_string [10]).
End Printer.

(** [alloc] answers the requests of the verifier (0 to 3), of the value table
    (4) and of the pointer arrays (5 and 6); [grow] those of the arena. *)
Definition yvex_ir_print (alloc grow : allocator) (m : yvex_ir_module)
    : SO yvex_core_bytes unit := fun bytes =>
  match yvex_ir_verify alloc m with
  | Fault f => (bytes, Fault f)
  | Refuse s r => (bytes, Refuse s r)
  | Done _ =>
      if negb (alloc 4%nat) then (bytes, print_failed)
      else
        let values := replicate (Nat.max 1 (length (m_values m))) 0 in
        match ir_module_print grow m (alloc 5%nat && alloc 6%nat) (mk_printer bytes values 0 0) with
        | (p, Done _) => (pr_bytes p, Done tt)
        | (p, Refuse s r) =>
            (mk_bytes (take (length (bytes_data bytes)) (bytes_data (pr_bytes p)))
               (bytes_capacity (pr_bytes p)) (bytes_maximum (pr_bytes p))
               (bytes_initial_capacity (pr_bytes p)), Refuse s r)
        | (p, Fault f) => (pr_bytes p, Fault f)
        end
  end.

Definition seal_arena : yvex_core_bytes := mk_bytes [] 0 (64 * 1024 * 1024) 0.

(** The digest of the tagged projection. *)
Definition ir_identity_digest (text : list Z) : option (list Z) :=
  c ← yvex_sha256_update_text yvex_sha256_init (Some "yvex.ir.semantic.v1"%string);
  c ← yvex_sha256_update c text;
  r ← yvex_sha256_final c;
  Some r.1.

Definition yvex_ir_seal (alloc grow : allocator) : SO yvex_ir_module unit := fun m =>
  if m_sealed m then (m, Done tt)
  else
    match yvex_ir_print alloc grow m seal_arena with
    | (_, Refuse s r) => (m, Refuse s r)
    | (_, Fault f) => (m, Fault f)
    | (bytes, Done _) =>
        match ir_identity_digest (bytes_data bytes) with
        | None => (m, Refuse YVEX_ERR_FORMAT "IR identity projection failed")
        | Some digest => (seal_with (yvex_sha256_hex digest) m, Done tt)
        end
    end.

(** * Theorems *)

Arguments ir_text : simpl never.
Arguments pr_append : simpl never.

(** ** Two runs of the printer agree

    [agree c1 c2]: both runs only append, and when both complete from the same
    value numbering they append the same text and leave the same numbering. *)

Definition same_numbering (p q : ir_printer) : Prop :=
  pr_values p = pr_values q /\ pr_next_value p = pr_next_value q.

Definition appended_by {A} (c : SO ir_printer A) (p : ir_printer) (text : list Z) : Prop :=
  bytes_data (pr_bytes (c p).1) = bytes_data (pr_bytes p) ++ text.

Definition agree {A} (c1 c2 : SO ir_printer A) : Prop :=
  forall p1 p2, same_numbering p1 p2 ->
    exists t1 t2, appended_by c1 p1 t1 /\ appended_by c2 p2 t2 /\
      forall a1 a2, (c1 p1).2 = Done a1 -> (c2 p2).2 = Done a2 ->
        a1 = a2 /\ same_numbering (c1 p1).1 (c2 p2).1 /\ t1 = t2.

Lemma agree_lift {A} (c : outcome A) : agree (so_lift c) (so_lift c).
Proof.
  intros p1 p2 Hn. exists [], []. unfold appended_by. cbn. rewrite !app_nil_r.
  split; [done|]. split; [done|]. intros a1 a2 H1 H2. split; [congruence|done].
Qed.

Lemma agree_ret {A} (a : A) : agree (mret a) (mret a).
Proof. apply (agree_lift (Done a)). Qed.

Lemma agree_bind {A B} (c1 c2 : SO ir_printer A) (k1 k2 : A -> SO ir_printer B) :
  agree c1 c2 -> (forall a, agree (k1 a) (k2 a)) -> agree (c1 ≫= k1) (c2 ≫= k2).
Proof.
  intros Hc Hk p1 p2 Hn. destruct (Hc p1 p2 Hn) as (t1 & t2 & H1 & H2 & Hd).
  unfold appended_by in *. unfold mbind, so_bind.
  destruct (c1 p1) as [q1 [a1|s1 m1|f1]] eqn:E1, (c2 p2) as [q2 [a2|s2 m2|f2]] eqn:E2; cbn in *.
  { destruct (Hd a1 a2 eq_refl eq_refl) as (-> & Hn' & ->).
    destruct (Hk a2 q1 q2 Hn') as (u1 & u2 & G1 & G2 & Gd). unfold appended_by in *.
    exists (t2 ++ u1), (t2 ++ u2). rewrite !app_assoc, <- H1, <- H2. split; [done|]. split; [done|].
    intros b1 b2 F1 F2. destruct (Gd b1 b2 F1 F2) as (? & ? & ->). done. }
  1-2: destruct (Hk a1 q1 q1) as (u1 & _ & G1 & _); [by split|]; unfold appended_by in G1;
    exists (t1 ++ u1), t2; rewrite app_assoc, <- H1; done.
  1,4: destruct (Hk a2 q2 q2) as (_ & u2 & _ & G2 & _); [by split|]; unfold appended_by in G2;
    exists t1, (t2 ++ u2); rewrite app_assoc, <- H2; done.
  all: exists t1, t2; done.
Qed.

Section Agree.
  Context (g1 g2 : allocator) (m : yvex_ir_module).

Lemma bytes_append_data granted b data b' :
    yvex_core_bytes_append granted b data = Some b' -> bytes_data b' = bytes_data b ++ data.
  Proof.
    unfold yvex_core_bytes_append, yvex_core_bytes_reserve. intros H.
    repeat case_match; simplify_eq; done.
  Qed.

Lemma agree_append data : agree (pr_append g1 data) (pr_append g2 data).
  Proof.
    intros p1 p2 Hn. unfold appended_by, pr_append.
    destruct (yvex_core_bytes_append (g1 _) _ _) as [b1|] eqn:E1,
      (yvex_core_bytes_append (g2 _) _ _) as [b2|] eqn:E2;
      try apply bytes_append_data in E1; try apply bytes_append_data in E2; cbn.
    - exists data, data. split; [done|]. split; [done|]. intros [] [] _ _.
      split; [done|]. split; [|done]. exact Hn.
    - exists data, []. rewrite app_nil_r. done.
    - exists [], data. rewrite app_nil_r. done.
    - exists [], []. rewrite !app_nil_r. done.
  Qed.

Lemma agree_text text : agree (ir_text g1 text) (ir_text g2 text).
  Proof. unfold ir_text. destruct (_ <=? _)%nat; [apply agree_lift|apply agree_append]. Qed.

Lemma agree_each {A} (f1 f2 : A -> SO ir_printer unit) l :
    (forall x, agree (f1 x) (f2 x)) -> agree (so_each f1 l) (so_each f2 l).
  Proof.
    intros Hf. induction l as [|x l IH]; cbn [so_each]; [apply agree_ret|].
    apply agree_bind; [apply Hf|]. intros _. apply IH.
  Qed.

Lemma agree_if (b : bool) (c1 c2 d1 d2 : SO ir_printer unit) :
    agree c1 c2 -> agree d1 d2 -> agree (if b then c1 else d1) (if b then c2 else d2).
  Proof. by destruct b. Qed.

Lemma agree_separated {A} (f1 f2 : A -> SO ir_printer unit) first l :
    (forall x, agree (f1 x) (f2 x)) -> agree (separated g1 f1 first l) (separated g2 f2 first l).
  Proof.
    intros Hf. revert first. induction l as [|x l IH]; intros first; cbn [separated]; [apply agree_ret|].
    apply agree_bind; [apply agree_if; [apply agree_ret|apply agree_text]|]. intros _.
    apply agree_bind; [apply Hf|]. intros _. apply IH.
  Qed.

Lemma agree_number value : agree (pr_number value) (pr_number value).
  Proof.
    intros p1 p2 [Hv Hn]. unfold appended_by, pr_number. rewrite Hv, Hn. exists [], [].
    destruct (_ && _); cbn; rewrite !app_nil_r; [|done].
    split; [done|]. split; [done|]. intros a1 a2 [= <-] [= <-]. split; [done|].
    split; [|done]. split; done.
  Qed.

Lemma agree_type fuel id : agree (ir_type_print g1 m fuel id) (ir_type_print g2 m fuel id).
  Proof.
    revert id. induction fuel as [|fuel IH]; intros id; cbn.
    { destruct (yvex_ir_type_at m id); apply agree_lift. }
    destruct (yvex_ir_type_at m id) as [t|]; [|apply agree_lift].
    apply agree_if; [apply agree_bind; [apply agree_lift|intros name; apply agree_text]|].
    apply agree_if.
    - apply agree_bind; [apply agree_text|]. intros _.
      apply agree_bind; [apply agree_separated; intros i; apply IH|]. intros _. apply agree_text.
    - apply agree_bind; [apply agree_text|]. intros _.
      apply agree_bind; [apply agree_if; [apply agree_text|apply agree_ret]|]. intros _.
      apply agree_bind.
      + apply agree_each. intros i. apply agree_if; [apply agree_text|].
        apply agree_bind; [apply agree_lift|]. intros d. apply agree_text.
      + intros _. apply agree_bind; [apply agree_lift|]. intros name. apply agree_text.
  Qed.

Lemma agree_quote text : agree (ir_quote g1 text) (ir_quote g2 text).
  Proof.
    apply agree_bind; [apply agree_text|]. intros _. apply agree_bind; [|intros _; apply agree_text].
    apply agree_each. intros c. apply agree_if; [apply agree_text|apply agree_append].
  Qed.

Lemma agree_attribute a : agree (attribute_print g1 m a) (attribute_print g2 m a).
  Proof.
    apply agree_bind; [apply agree_text|]. intros _.
    destruct (attr_value a); first [apply agree_text | apply agree_quote | apply agree_type | apply agree_lift].
  Qed.

Lemma agree_attributes op : agree (ir_attributes_print g1 m op) (ir_attributes_print g2 m op).
  Proof.
    unfold ir_attributes_print. apply agree_if; [apply agree_ret|]. apply agree_if; [apply agree_lift|].
    apply agree_bind; [apply agree_text|]. intros _.
    apply agree_bind; [apply agree_separated, agree_attribute|]. intros _. apply agree_text.
  Qed.

Lemma agree_value_type v : agree (value_type_print g1 m v) (value_type_print g2 m v).
  Proof. apply agree_bind; [apply agree_lift|]. intros x. apply agree_type. Qed.

Lemma agree_arguments b : agree (ir_arguments_print g1 m b) (ir_arguments_print g2 m b).
  Proof.
    unfold ir_arguments_print.
    enough (forall l first, agree (arguments_print g1 m first l) (arguments_print g2 m first l)) by done.
    induction l as [|v l IH]; intros first; [apply agree_ret|]. cbn [arguments_print].
    apply agree_bind; [apply agree_number|]. intros n.
    apply agree_bind; [apply agree_if; [apply agree_ret|apply agree_text]|]. intros _.
    apply agree_bind; [apply agree_text|]. intros _.
    apply agree_bind; [apply agree_value_type|]. intros _. apply IH.
  Qed.

Lemma agree_results first l : agree (results_print g1 first l) (results_print g2 first l).
  Proof.
    revert first. induction l as [|v l IH]; intros first; [apply agree_ret|]. cbn [results_print].
    apply agree_bind; [apply agree_number|]. intros n.
    apply agree_bind; [apply agree_if; [apply agree_ret|apply agree_text]|]. intros _.
    apply agree_bind; [apply agree_text|]. intros _. apply IH.
  Qed.

Lemma agree_operand v : agree (operand_print g1 v) (operand_print g2 v).
  Proof.
    intros p1 p2 Hn. unfold operand_print.
    change ((so_get ≫= ?k) p1) with (k p1 p1). change ((so_get ≫= ?k) p2) with (k p2 p2).
    assert (read_at (pr_values p1) v = read_at (pr_values p2) v) as E by (by rewrite (proj1 Hn)).
    destruct (agree_bind (so_lift (read_at (pr_values p1) v)) (so_lift (read_at (pr_values p2) v))
      (fun n => ir_text g1 ("%" +:+ dec n)) (fun n => ir_text g2 ("%" +:+ dec n))) with p1 p2
      as (t1 & t2 & H); [rewrite E; apply agree_lift|intros n; apply agree_text|done|].
    exists t1, t2. exact H.
  Qed.

Lemma agree_line depth id op : agree (operation_line g1 m depth id op) (operation_line g2 m depth id op).
  Proof.
    repeat first [apply agree_text | apply agree_results | apply agree_separated, agree_operand
      | apply agree_separated, agree_value_type | apply agree_attributes | apply agree_lift
      | apply agree_if; [apply agree_ret|apply agree_text]
      | apply agree_bind; [|intros ?]].
  Qed.

Lemma agree_regions n1 n2 depth index l :
    (forall r, agree (n1 r) (n2 r)) ->
    agree (regions_print g1 m n1 depth index l) (regions_print g2 m n2 depth index l).
  Proof.
    intros Hn. revert index. induction l as [|r l IH]; intros index; [apply agree_ret|].
    cbn [regions_print]. apply agree_bind; [apply agree_text|]. intros _.
    apply agree_bind; [apply agree_lift|]. intros b. apply agree_bind; [apply agree_arguments|]. intros _.
    apply agree_bind; [apply agree_text|]. intros _. apply agree_bind; [apply Hn|]. intros _.
    apply agree_bind; [apply agree_text|]. intros _. apply IH.
  Qed.

Lemma agree_chain fuel n1 n2 depth id :
    (forall r, agree (n1 r) (n2 r)) ->
    agree (chain_print g1 m fuel n1 depth id) (chain_print g2 m fuel n2 depth id).
  Proof.
    intros Hn. revert id. induction fuel as [|fuel IH]; intros id; [apply agree_lift|].
    cbn [chain_print]. apply agree_if; [apply agree_ret|].
    apply agree_bind; [apply agree_lift|]. intros op. apply agree_bind; [apply agree_line|]. intros _.
    apply agree_bind; [by apply agree_regions|]. intros _. apply IH.
  Qed.

Lemma agree_block fuel depth b :
    agree (ir_block_print g1 m fuel depth b) (ir_block_print g2 m fuel depth b).
  Proof.
    revert depth b. induction fuel as [|fuel IH]; intros depth b; [apply agree_lift|].
    cbn -[chain_print]. apply agree_bind; [apply agree_lift|]. intros block. by apply agree_chain.
  Qed.

Lemma agree_function f : agree (function_print g1 m f) (function_print g2 m f).
  Proof.
    apply agree_bind.
    { intros p1 p2 [Hv _]. exists [], []. unfold appended_by. cbn. rewrite !app_nil_r.
      split; [done|]. split; [done|]. intros [] [] _ _. split; [done|]. split; [|done]. by split. }
    intros _. repeat first [apply agree_text | apply agree_lift | apply agree_arguments
      | apply agree_block | (apply agree_separated; intros ?; apply agree_type)
      | apply agree_bind; [|intros ?]].
  Qed.

Lemma agree_module arrays :
    agree (ir_module_print g1 m arrays) (ir_module_print g2 m arrays).
  Proof.
    unfold ir_module_print. apply agree_if; [apply agree_lift|].
    apply agree_bind; [apply agree_text|]. intros _.
    apply agree_bind; [apply agree_each; intros d; apply agree_text|]. intros _.
    apply agree_bind; [apply agree_each, agree_function|]. intros _. apply agree_text.
  Qed.
End Agree.

(** ** The printer reads only what exists *)

Section Safe.
  Context (g : allocator) (m : yvex_ir_module).
  Hypothesis Hw : module_wf m.
  Hypothesis Hbuiltin : native_dialects (m_dialects m).

  (** The value table covers every value. *)
Definition printer_sized (p : ir_printer) : Prop := zlen (m_values m) <= zlen (pr_values p).

Lemma safe_append data : so_safe printer_sized (pr_append g data).
  Proof. intros p Hp. unfold pr_append. destruct (yvex_core_bytes_append _ _ _); done. Qed.

Lemma safe_text text : so_safe printer_sized (ir_text g text).
  Proof. unfold ir_text. destruct (_ <=? _)%nat; [done|]. apply safe_append. Qed.

Lemma safe_ret {A} (a : A) : so_safe printer_sized (mret a).
  Proof. done. Qed.

Lemma safe_seq {B} (c : SO ir_printer unit) (k : unit -> SO ir_printer B) :
    so_safe printer_sized c -> so_safe printer_sized (k tt) -> so_safe printer_sized (c ≫= k).
  Proof. intros Hc Hk. apply so_safe_bind; [done|]. by intros []. Qed.

Lemma safe_separated {A} (f : A -> SO ir_printer unit) first l :
    (forall x, x ∈ l -> so_safe printer_sized (f x)) -> so_safe printer_sized (separated g f first l).
  Proof.
    intros Hf. revert first. induction l as [|x l IH]; intros first; cbn [separated]; [apply safe_ret|].
    apply safe_seq; [destruct first; [apply safe_ret|apply safe_text]|].
    apply safe_seq; [apply Hf; set_solver|]. apply IH. set_solver.
  Qed.

Lemma safe_number value : 0 <= value < zlen (m_values m) -> so_safe printer_sized (pr_number value).
  Proof.
    intros Hv p Hp. unfold pr_number, printer_sized in *.
    replace ((0 <=? value) && (value <? zlen (pr_values p))) with true by lia. cbn.
    rewrite zlen_zset. done.
  Qed.

  (** The geometry of a valid type: its scalar has a name and its symbolic
      extents have a dimension. *)
Lemma type_valid_scalar t :
    yvex_ir_type_valid m t = true -> ty_kind t <> YVEX_IR_TUPLE -> ty_kind t <> YVEX_IR_PROGRAM ->
    0 <= ty_scalar t < zlen scalar_names.
  Proof.
    intros H Ht Hp. unfold yvex_ir_type_valid in H. destruct (_ || _ || _ || _ || _) in H; [done|].
    replace ((ty_kind t =? YVEX_IR_TUPLE) || (ty_kind t =? YVEX_IR_PROGRAM)) with false in H by lia.
    destruct (_ || _ || _ || _ || _) eqn:E in H; [done|]. bool_hyps.
    unfold YVEX_IR_BOOL, YVEX_IR_F64, zlen in *. cbn. lia.
  Qed.

Lemma extents_present t l e :
    foldl (type_extent_step m t) e l <> None -> forall i, i ∈ l ->
    is_Some (extent_maximum m (shape_at t i)).
  Proof.
    revert e. induction l as [|x l IH]; intros e H i Hi; [by apply not_elem_of_nil in Hi|].
    cbn in H. destruct e as [e|]; [|by rewrite type_extents_None in H].
    rewrite type_extent_step_exact in H.
    destruct (extent_maximum m (shape_at t x)) as [n|] eqn:E; [|by rewrite type_extents_None in H].
    apply elem_of_cons in Hi as [->|Hi]; [by rewrite E|]. by eapply IH.
  Qed.

Lemma type_valid_dimension t i :
    yvex_ir_type_valid m t = true -> ty_kind t <> YVEX_IR_TUPLE -> ty_kind t <> YVEX_IR_PROGRAM ->
    0 <= i < ty_rank t -> ext_symbol (shape_at t i) <> YVEX_IR_NONE ->
    is_Some (yvex_ir_dimension_at m (ext_symbol (shape_at t i))).
  Proof.
    intros H Ht Hp Hi Hs. unfold yvex_ir_type_valid in H. destruct (_ || _ || _ || _ || _) in H; [done|].
    replace ((ty_kind t =? YVEX_IR_TUPLE) || (ty_kind t =? YVEX_IR_PROGRAM)) with false in H by lia.
    destruct (_ || _ || _ || _ || _) in H; [done|].
    assert (is_Some (extent_maximum m (shape_at t i))) as [n Hn].
    { eapply extents_present; [|by apply elem_of_zseq]. intros Hf. by rewrite Hf in H. }
    unfold extent_maximum in Hn. replace (_ =? YVEX_IR_NONE) with false in Hn by lia.
    unfold yvex_ir_dimension_at. destruct (zget (m_dimensions m) _); done.
  Qed.

Lemma safe_type fuel id : so_safe printer_sized (ir_type_print g m fuel id).
  Proof.
    revert id. induction fuel as [|fuel IH]; intros id; cbn.
    { by destruct (yvex_ir_type_at m id). }
    unfold yvex_ir_type_at. destruct (zget (m_types m) id) as [t|] eqn:Hid; [|done].
    pose proof (types_valid _ (wf_types _ _ Hw) _ _ Hid) as Hv.
    destruct (ty_kind t =? YVEX_IR_SCALAR) eqn:Hk.
    { apply so_safe_lift_bind; [|intros; apply safe_text]. apply no_fault_read_at.
      apply type_valid_scalar; [done|unfold YVEX_IR_TUPLE, YVEX_IR_PROGRAM, YVEX_IR_SCALAR in *; lia..]. }
    destruct (_ || _) eqn:Ha.
    { apply safe_seq; [apply safe_text|]. apply safe_seq; [|apply safe_text].
      apply safe_separated. intros i _. apply IH. }
    bool_hyps. apply safe_seq; [apply safe_text|].
    apply safe_seq; [destruct (_ =? YVEX_IR_STATE); [apply safe_text|apply safe_ret]|].
    apply safe_seq.
    - apply so_safe_each. intros i Hi%elem_of_zseq.
      destruct (ext_symbol (shape_at t i) =? YVEX_IR_NONE) eqn:He; [apply safe_text|].
      apply so_safe_lift_bind; [|intros; apply safe_text].
      apply no_fault_deref, type_valid_dimension; (done || lia).
    - apply so_safe_lift_bind; [|intros; apply safe_text]. apply no_fault_read_at.
      apply type_valid_scalar; (done || lia).
  Qed.

Lemma safe_attribute a : so_safe printer_sized (attribute_print g m a).
  Proof.
    apply safe_seq; [apply safe_text|].
    destruct (attr_value a); first [apply safe_text | apply safe_type | done | idtac].
    apply safe_seq; [apply safe_text|]. apply safe_seq; [|apply safe_text].
    apply so_safe_each. intros c _. destruct (_ || _); [apply safe_text|apply safe_append].
  Qed.

Lemma builtin_attribute_limit d :
    d ∈ concat (dia_operations <$> builtin_dialects) -> zlen (def_attributes d) <= 256.
  Proof.
    intros Hd. assert (Forall (fun d => (zlen (def_attributes d) <=? 256) = true)
      (concat (dia_operations <$> builtin_dialects))) as H by (vm_compute; repeat constructor).
    rewrite Forall_forall in H. specialize (H d Hd). lia.
  Qed.

Lemma safe_value_type v : 0 <= v < zlen (m_values m) -> so_safe printer_sized (value_type_print g m v).
  Proof.
    intros Hv. apply so_safe_lift_bind; [by apply no_fault_read_at|]. intros x _. apply safe_type.
  Qed.

Lemma safe_arguments b id :
    zget (m_blocks m) id = Some b -> so_safe printer_sized (ir_arguments_print g m b).
  Proof.
    intros Hb. unfold ir_arguments_print.
    assert (forall v, v ∈ b_arguments b -> 0 <= v < zlen (m_values m)) as Hin.
    { intros v Hv. apply elem_of_zget in Hv as [k Hk].
      destruct (b_arguments_owned _ _ _ _ (wf_blocks _ _ Hw _ _ Hb) _ _ Hk) as (x & Hx & _).
      by eapply zget_Some_range. }
    enough (forall l first, (forall v, v ∈ l -> 0 <= v < zlen (m_values m)) ->
      so_safe printer_sized (arguments_print g m first l)) by auto.
    induction l as [|v l IH]; intros first Hl; [apply safe_ret|]. cbn [arguments_print].
    apply so_safe_bind; [apply safe_number, Hl; set_solver|]. intros n.
    apply safe_seq; [destruct first; [apply safe_ret|apply safe_text]|].
    apply safe_seq; [apply safe_text|]. apply safe_seq; [apply safe_value_type, Hl; set_solver|].
    apply IH. set_solver.
  Qed.

Lemma safe_line depth id op :
    zget (m_operations m) id = Some op -> so_safe printer_sized (operation_line g m depth id op).
  Proof.
    intros Hop. pose proof (wf_operations _ _ Hw _ _ Hop) as Ho.
    assert (forall v, v ∈ op_results op -> 0 <= v < zlen (m_values m)) as Hres.
    { intros v Hv. apply elem_of_zget in Hv as [k Hk].
      destruct (op_results_owned _ _ _ Ho _ _ Hk) as (x & Hx & _). by eapply zget_Some_range. }
    pose proof (op_operands_in _ _ _ Ho) as Hin. rewrite Forall_forall in Hin.
    apply safe_seq; [apply safe_text|].
    apply safe_seq.
    { assert (forall l first, (forall v, v ∈ l -> 0 <= v < zlen (m_values m)) ->
        so_safe printer_sized (results_print g first l)) as Hr; [|by apply Hr].
      induction l as [|v l IH]; intros first Hl; [apply safe_ret|]. cbn [results_print].
      apply so_safe_bind; [apply safe_number, Hl; set_solver|]. intros n.
      apply safe_seq; [destruct first; [apply safe_ret|apply safe_text]|].
      apply safe_seq; [apply safe_text|]. apply IH. set_solver. }
    apply safe_seq; [destruct (_ =? 0); [apply safe_ret|apply safe_text]|].
    apply safe_seq; [apply safe_text|]. apply safe_seq.
    { apply safe_separated. intros v Hv. apply so_safe_get. intros p Hp.
      match goal with |- _ (?k p).1 /\ _ => enough (so_safe printer_sized k) as Hk by (by apply Hk) end.
      apply so_safe_lift_bind; [|intros; apply safe_text].
      apply no_fault_read_at. specialize (Hin v Hv). unfold printer_sized in Hp. lia. }
    apply safe_seq; [apply safe_text|]. apply safe_seq.
    { unfold ir_attributes_print. destruct (_ =? 0); [apply safe_ret|].
      pose proof (op_attributes_arity _ _ _ Ho). pose proof (op_admitted _ _ _ Ho) as Had.
      apply (native_definition _ _ Hbuiltin), builtin_attribute_limit in Had.
      replace (256 <? zlen (op_attributes op)) with false by lia.
      apply safe_seq; [apply safe_text|]. apply safe_seq; [|apply safe_text].
      apply safe_separated. intros a _. apply safe_attribute. }
    apply safe_seq; [apply safe_text|].
    apply safe_seq; [apply safe_separated; intros v Hv; by apply safe_value_type, Hres|].
    apply so_safe_lift_bind; [by apply effects_safe|]. intros e _. apply safe_text.
  Qed.

Lemma safe_regions nested depth index l :
    (forall r, 0 <= r < zlen (m_blocks m) -> so_safe printer_sized (nested r)) ->
    (forall r, r ∈ l -> 0 <= r < zlen (m_blocks m)) ->
    so_safe printer_sized (regions_print g m nested depth index l).
  Proof.
    intros Hn. revert index. induction l as [|r l IH]; intros index Hl; [apply safe_ret|].
    cbn [regions_print]. apply safe_seq; [apply safe_text|].
    apply so_safe_lift_bind; [apply no_fault_read_at, Hl; set_solver|]. intros b Hb%read_at_Done.
    apply safe_seq; [by eapply safe_arguments|]. apply safe_seq; [apply safe_text|].
    apply safe_seq; [apply Hn, Hl; set_solver|]. apply safe_seq; [apply safe_text|].
    apply IH. set_solver.
  Qed.

Lemma safe_chain fuel nested depth id l :
    (forall r, 0 <= r < zlen (m_blocks m) -> so_safe printer_sized (nested r)) ->
    linked (m_operations m) id l -> (length l < fuel)%nat ->
    so_safe printer_sized (chain_print g m fuel nested depth id).
  Proof.
    intros Hn Hl. revert fuel. induction Hl as [|i op l Hop Hl IH]; intros fuel Hlt.
    { destruct fuel; [cbn in Hlt; lia|]. cbn [chain_print]. apply safe_ret. }
    destruct fuel as [|fuel]; [cbn in Hlt; lia|]. cbn [chain_print].
    destruct (i =? YVEX_IR_NONE); [apply safe_ret|].
    apply so_safe_lift_bind; [apply no_fault_read_at; by eapply zget_Some_range|].
    intros op' Hop'%read_at_Done. assert (op' = op) as -> by congruence.
    apply safe_seq; [by apply safe_line|]. apply safe_seq.
    - apply safe_regions; [done|]. intros r Hr. apply elem_of_zget in Hr as [k Hr].
      destruct (op_regions_owned _ _ _ (wf_operations _ _ Hw _ _ Hop) _ _ Hr) as (b & _ & Hb & _).
      by eapply zget_Some_range.
    - apply IH. cbn in Hlt. lia.
  Qed.

Lemma safe_block fuel depth b :
    0 <= b < zlen (m_blocks m) -> so_safe printer_sized (ir_block_print g m fuel depth b).
  Proof.
    revert depth b. induction fuel as [|fuel IH]; intros depth b Hb; [done|].
    cbn -[chain_print]. apply so_safe_lift_bind; [by apply no_fault_read_at|]. intros block Hblk%read_at_Done.
    destruct (wf_chains _ _ Hw _ _ Hblk) as [Hl _].
    eapply safe_chain; [|exact Hl|by apply chain_length]. intros r Hr. by apply IH.
  Qed.

Lemma safe_function f : f ∈ m_functions m -> so_safe printer_sized (function_print g m f).
  Proof.
    intros Hf. apply elem_of_zget in Hf as [i Hf].
    destruct (functions_bodies _ (wf_functions _ _ Hw) _ _ Hf) as (b & Hb & _).
    pose proof (zget_Some_range _ _ _ Hb).
    apply safe_seq; [by intros p Hp|]. apply safe_seq; [apply safe_text|].
    apply so_safe_lift_bind; [by apply no_fault_read_at|]. intros body Hbody%read_at_Done.
    apply safe_seq; [by eapply safe_arguments|]. apply safe_seq; [apply safe_text|].
    apply safe_seq; [apply safe_separated; intros t _; apply safe_type|].
    apply safe_seq; [apply safe_text|]. apply safe_seq; [by apply safe_block|]. apply safe_text.
  Qed.

Lemma safe_module arrays : so_safe printer_sized (ir_module_print g m arrays).
  Proof.
    unfold ir_module_print. destruct (negb arrays); [done|].
    apply safe_seq; [apply safe_text|].
    apply safe_seq; [apply so_safe_each; intros d _; apply safe_text|].
    apply safe_seq; [|apply safe_text]. apply so_safe_each. intros f Hf.
    apply safe_function. by rewrite sort_by_perm in Hf.
  Qed.
End Safe.

(** ** The projection *)

Lemma print_spec alloc grow m bytes :
  ir_reachable m -> native_dialects (m_dialects m) ->
  match yvex_ir_print alloc grow m bytes with
  | (bytes', Done _) => yvex_ir_verify alloc m = Done tt /\
      exists text, bytes_data bytes' = bytes_data bytes ++ text
  | (bytes', Refuse _ _) => bytes_data bytes' = bytes_data bytes
  | (_, Fault _) => False
  end.
Proof.
  intros Hr Hb. pose proof (reachable_wf m Hr) as Hw. unfold yvex_ir_print.
  assert (no_fault (yvex_ir_verify alloc m)) as Hv by (by apply verify_no_fault).
  destruct (yvex_ir_verify alloc m) as [[]| |]; [|done..].
  destruct (negb (alloc 4%nat)); [done|].
  set (p0 := mk_printer bytes _ 0 0).
  destruct (safe_module grow m Hw Hb (alloc 5%nat && alloc 6%nat) p0) as [_ Hn].
  { unfold printer_sized. cbn. rewrite zlen_replicate. unfold zlen. lia. }
  destruct (agree_module grow grow m (alloc 5%nat && alloc 6%nat) p0 p0) as (t & _ & Ht & _); [by split|].
  unfold appended_by in Ht. destruct (ir_module_print grow m _ p0) as [p [[]|s r|f]]; cbn in *.
  - split; [done|]. by exists t.
  - rewrite Ht. apply take_app_length.
  - done.
Qed.

Lemma print_same_text alloc1 grow1 alloc2 grow2 m b1 b2 b1' b2' :
  yvex_ir_print alloc1 grow1 m b1 = (b1', Done tt) ->
  yvex_ir_print alloc2 grow2 m b2 = (b2', Done tt) ->
  exists text, bytes_data b1' = bytes_data b1 ++ text /\ bytes_data b2' = bytes_data b2 ++ text.
Proof.
  unfold yvex_ir_print. intros H1 H2.
  destruct (yvex_ir_verify alloc1 m) as [[]| |]; [|done..].
  destruct (yvex_ir_verify alloc2 m) as [[]| |]; [|done..].
  destruct (negb (alloc1 4%nat)); [done|]. destruct (negb (alloc2 4%nat)); [done|].
  destruct (alloc1 5%nat && alloc1 6%nat); [|done]. destruct (alloc2 5%nat && alloc2 6%nat); [|done].
  set (p1 := mk_printer b1 _ 0 0) in *. set (p2 := mk_printer b2 _ 0 0) in *.
  destruct (agree_module grow1 grow2 m true p1 p2) as (t1 & t2 & Ha1 & Ha2 & Hd); [by split|].
  unfold appended_by in *.
  destruct (ir_module_print grow1 m true p1) as [q1 [[]| |]]; [|done..].
  destruct (ir_module_print grow2 m true p2) as [q2 [[]| |]]; [|done..].
  destruct (Hd tt tt eq_refl eq_refl) as (_ & _ & ->). simplify_eq. eauto.
Qed.

(** The canonical projection never depends on the allocator or on the arena
    it is appended to: any two projections of a module that complete append
    exactly the same bytes. *)
Theorem print_deterministic alloc1 grow1 alloc2 grow2 m b1 b2 b1' b2' :
  yvex_ir_print alloc1 grow1 m b1 = (b1', Done tt) ->
  yvex_ir_print alloc2 grow2 m b2 = (b2', Done tt) ->
  exists text, bytes_data b1' = bytes_data b1 ++ text /\ bytes_data b2' = bytes_data b2 ++ text.
Proof. apply print_same_text. Qed.

(** ** Identity *)

(** What the identity digests: the length-prefixed tag, then the projection. *)
Definition identity_message (text : list Z) : list Z :=
  le_bytes 8 19 ++ string_bytes "yvex.ir.semantic.v1" ++ text.

Lemma identity_digest_reference text digest :
  ir_identity_digest text = Some digest -> digest = sha256_reference (identity_message text).
Proof.
  unfold ir_identity_digest, yvex_sha256_update_text, yvex_sha256_update_u64. intros H.
  apply bind_Some in H as (c2 & H12 & H). apply bind_Some in H12 as (c1 & E1 & E2).
  apply bind_Some in H as (c3 & E3 & H). apply bind_Some in H as ([d c4] & E4 & H).
  change (yvex_sha256_update yvex_sha256_init (le_bytes 8 19) = Some c1) in E1.
  change (yvex_sha256_update c1 (string_bytes "yvex.ir.semantic.v1") = Some c2) in E2.
  apply (absorbed_update _ [] _ _ absorbed_init) in E1.
  apply (absorbed_update _ _ _ _ E1) in E2. apply (absorbed_update _ _ _ _ E2) in E3.
  assert (zlen ((([] ++ le_bytes 8 19) ++ string_bytes "yvex.ir.semantic.v1") ++ text) <= UINT64_MAX / 8) as Hl.
  { destruct E3 as (_ & _ & _ & _ & _ & Hlen & Hfin). rewrite <- Hlen.
    unfold yvex_sha256_final in E4. rewrite Hfin in E4. cbn [orb] in E4.
    destruct (UINT64_MAX / 8 <? sha_length c3) eqn:Hlt; [done|lia]. }
  destruct (final_absorbed c3 _ E3 Hl) as (c5 & Hf & _).
  transitivity (sha256_reference ((([] ++ le_bytes 8 19) ++ string_bytes "yvex.ir.semantic.v1") ++ text)).
  - cbn [fst] in H. congruence.
  - unfold identity_message. by rewrite app_nil_l, <- app_assoc.
Qed.

(** Sealing is total and transactional: on every module a client can build
    over the built-in dialects it never faults; a refusal leaves the module
    exactly as it was; success on an unsealed module means that it verified and
    that its identity is the 64-digit hexadecimal SHA-256 of the tagged
    canonical projection, nothing else of the module being changed; and sealing
    a sealed module does nothing. *)
Theorem seal_spec alloc grow m :
  ir_reachable m -> native_dialects (m_dialects m) ->
  match yvex_ir_seal alloc grow m with
  | (m', Done _) =>
      if m_sealed m then m' = m
      else yvex_ir_verify alloc m = Done tt /\
        exists bytes, yvex_ir_print alloc grow m seal_arena = (bytes, Done tt) /\
          m' = seal_with (yvex_sha256_hex (sha256_reference (identity_message (bytes_data bytes)))) m /\
          yvex_sha256_hex_valid (yvex_ir_identity m') = true
  | (m', Refuse _ _) => m' = m
  | (_, Fault _) => False
  end.
Proof.
  intros Hr Hb. unfold yvex_ir_seal. destruct (m_sealed m); [done|].
  pose proof (print_spec alloc grow m seal_arena Hr Hb) as Hp.
  destruct (yvex_ir_print alloc grow m seal_arena) as [bytes [[]| |]] eqn:E; [|done..].
  destruct Hp as [Hv _]. destruct (ir_identity_digest (bytes_data bytes)) as [d|] eqn:Hd; [|done].
  apply identity_digest_reference in Hd as ->. split; [done|]. exists bytes.
  split; [done|]. split; [done|]. apply hex_valid_of_digest.
  unfold sha256_reference. apply sha256_digest_wf.
Qed.

(** The identity of a module is a function of the module alone: two sealings
    that succeed, under any two allocators, give the same identity. *)
Theorem seal_deterministic alloc1 grow1 alloc2 grow2 m m1 m2 :
  yvex_ir_seal alloc1 grow1 m = (m1, Done tt) -> yvex_ir_seal alloc2 grow2 m = (m2, Done tt) -> m1 = m2.
Proof.
  unfold yvex_ir_seal. destruct (m_sealed m); [by intros [= <-] [= <-]|]. intros H1 H2.
  destruct (yvex_ir_print alloc1 grow1 m seal_arena) as [b1 [[]| |]] eqn:E1; [|done..].
  destruct (yvex_ir_print alloc2 grow2 m seal_arena) as [b2 [[]| |]] eqn:E2; [|done..].
  destruct (print_same_text _ _ _ _ _ _ _ _ _ E1 E2) as (text & Ht1 & Ht2).
  cbn in Ht1, Ht2. rewrite Ht1 in H1. rewrite Ht2 in H2.
  destruct (ir_identity_digest text); [|done]. simplify_eq. done.
Qed.

Lemma print_deterministic_witness :
  exists b1 b2 text, yvex_ir_print grant grant demo_module seal_arena = (b1, Done tt) /\
    yvex_ir_print grant grant demo_module (mk_bytes [1; 2; 3] 3 100000 8) = (b2, Done tt) /\
    bytes_data b1 = text /\ bytes_data b2 = [1; 2; 3] ++ text.
Proof.
  destruct (yvex_ir_print grant grant demo_module seal_arena) as [b1 r1] eqn:E1.
  assert (r1 = Done tt) as -> by (vm_compute in E1; congruence).
  destruct (yvex_ir_print grant grant demo_module (mk_bytes [1; 2; 3] 3 100000 8)) as [b2 r2] eqn:E2.
  assert (r2 = Done tt) as -> by (vm_compute in E2; congruence).
  destruct (print_deterministic grant grant grant grant demo_module seal_arena
    (mk_bytes [1; 2; 3] 3 100000 8) b1 b2 E1 E2) as (text & H1 & H2).
  exists b1, b2, text. split; [reflexivity|]. split; [reflexivity|]. split; [exact H1|exact H2].
Defined.

Lemma seal_spec_witness :
  exists m', yvex_ir_seal grant grant demo_module = (m', Done tt) /\ m_sealed m' = true /\
    yvex_sha256_hex_valid (yvex_ir_identity m') = true.
Proof.
  pose proof (seal_spec grant grant demo_module demo_reachable) as H.
  assert (is_done (yvex_ir_seal grant grant demo_module).2 = true) as Hdone by (vm_compute; reflexivity).
  destruct (yvex_ir_seal grant grant demo_module) as [m' r]. cbn [snd] in Hdone. apply is_done_Done in Hdone as [[] ->].
  exists m'. split; [reflexivity|].
  assert (native_dialects (m_dialects demo_module)) as Hd by (intros d; exact id).
  specialize (H Hd). assert (m_sealed demo_module = false) as Hs by (vm_compute; reflexivity).
  rewrite Hs in H. destruct H as (_ & bytes & _ & -> & Hv). split; [reflexivity|exact Hv].
Defined.

Lemma seal_deterministic_witness :
  exists m', yvex_ir_seal grant grant demo_module = (m', Done tt) /\
    yvex_ir_seal (fun k => Nat.leb k 6) grant demo_module = (m', Done tt).
Proof.
  assert (is_done (yvex_ir_seal grant grant demo_module).2 = true) as H1 by (vm_compute; reflexivity).
  assert (is_done (yvex_ir_seal (fun k => Nat.leb k 6) grant demo_module).2 = true) as H2
    by (vm_compute; reflexivity).
  pose proof (seal_deterministic grant grant (fun k => Nat.leb k 6) grant demo_module) as H.
  destruct (yvex_ir_seal grant grant demo_module) as [m1 r1]. cbn [snd] in H1. apply is_done_Done in H1 as [[] ->].
  destruct (yvex_ir_seal (fun k => Nat.leb k 6) grant demo_module) as [m2 r2].
  cbn [snd] in H2. apply is_done_Done in H2 as [[] ->]. exists m1. split; [reflexivity|].
  rewrite (H m1 m2 eq_refl eq_refl). reflexivity.
Defined.
