(* ===== verification/IrPasses.v ===== *)
(** * IrPasses: verified rewrites and the pass pipeline

    Models [src/ir/passes.c]: the rewriting engine that rebuilds a module
    through the constructors, its three passes (alias canonicalization, dead
    pure-value elimination, direct-call inlining) and the transactional
    pipeline with its receipts.

    The rewriter's state is the module under construction and the map from
    input values to output values; the input module, the live set and the map
    of type identifiers do not change while functions are rewritten.  [heap k]
    is the allocator seen by the [k]-th allocating step.  Nesting is bounded by
    the depth limit of 64 of the C program, and a walk along an operation chain
    carries [chain_fuel] steps. *)

From Stdlib Require Import ZArith Lia Bool.
From stdpp Require Import base list option numbers strings sets.
From S2P Require Import Prelude Core Sha256 Text Float64 IrData IrCore IrSequence IrNeural IrModule IrInvariant IrVerify IrSafety IrPrint.

Definition heaps : Type := nat -> allocator.

(** [output] and [values] of [ir_rewrite], and the number of allocating steps
    taken so far. *)
Record ir_rewrite : Type := mk_rewrite {
  rw_output : yvex_ir_module;
  rw_values : list Z;
  rw_clock : nat
}.

Section Rewrite.
  Context (heap : heaps) (m : yvex_ir_module) (live : option (list bool))
    (aliases inline_calls : bool) (types : list Z).

(** The allocator of the next step. *)
Definition rw_alloc : SO ir_rewrite allocator := fun s =>
  (mk_rewrite (rw_output s) (rw_values s) (S (rw_clock s)), Done (heap (rw_clock s))).

(** A constructor call on the output module. *)
Definition rw_construct (c : ir_call) : SO ir_rewrite Z := fun s =>
  let '(output, r) := ir_run (heap (rw_clock s)) c (rw_output s) in
  (mk_rewrite output (rw_values s) (S (rw_clock s)), r).

(** [r->values[dst] = value] and [r->values[dst] = r->values[src]]. *)
Definition rw_write (dst value : Z) : SO ir_rewrite unit := fun s =>
  if (0 <=? dst) && (dst <? zlen (rw_values s))
  then (mk_rewrite (rw_output s) (zset (rw_values s) dst value) (rw_clock s), Done tt)
  else (s, Fault OutOfBounds).

Definition rw_read (src : Z) : SO ir_rewrite Z :=
  s ← so_get; so_lift (read_at (rw_values s) src).

Definition rw_copy (dst src : Z) : SO ir_rewrite unit :=
  value ← rw_read src; rw_write dst value.

(** [for (i...) r->values[dst[i]] = r->values[src[i]]] over the indices of [dst]. *)
Definition rw_copies (dst src : list Z) : SO ir_rewrite unit :=
  so_each (fun index =>
    d ← so_lift (read_at dst index);
    s ← so_lift (read_at src index);
    rw_copy d s) (zseq (zlen dst)).

(** [r->types[r->input->values[id].type]] *)
Definition rw_type (id : Z) : outcome Z :=
  v ← values_read m id; read_at types (v_type v).

(** The last attribute named [callee]. *)
Definition last_callee (op : yvex_ir_operation) : option yvex_ir_attribute :=
  find_attribute "callee" (rev (op_attributes op)).

(** [recurse] is [ir_rewrite_block] one level deeper. *)
Definition ir_rewrite_call (recurse : Z -> Z -> bool -> SO ir_rewrite unit)
    (call : yvex_ir_operation) (target : Z) : SO ir_rewrite unit :=
  resolved ← so_lift (match last_callee call with
                      | None => Done None
                      | Some a => text ← value_text a; Done (yvex_ir_function_find m text)
                      end);
  match resolved with
  | None => so_refuse YVEX_ERR_FORMAT "call legalization requires a resolved function"
  | Some function =>
      f ← so_lift (functions_read m function);
      body ← so_lift (blocks_read m (f_body f));
      _ ← rw_copies (b_arguments body) (op_operands call);
      _ ← recurse (f_body f) target true;
      returned ← so_lift (operations_read m (b_last_operation body));
      rw_copies (op_results call) (op_operands returned)
  end.

Definition rewrite_attribute (a : yvex_ir_attribute) : outcome yvex_ir_attribute :=
  match attr_value a with
  | AttrType t => t' ← read_at types t; Done (mk_attribute (attr_name a) (AttrType t'))
  | _ => Done a
  end.

(** The request that re-creates an operation in the output; the local array of
    attributes has 256 cells. *)
Definition rewrite_request (op : yvex_ir_operation) : SO ir_rewrite yvex_ir_operation_request :=
  operands ← so_map rw_read (op_operands op);
  result_types ← so_lift (mapO rw_type (op_results op));
  attributes ← so_lift (if 256 <? zlen (op_attributes op) then Fault OutOfBounds
                        else mapO rewrite_attribute (op_attributes op));
  mret (mk_request (def_name (op_definition op)) operands result_types attributes
          (def_version (op_definition op))).

(** [count && !malloc(...)] *)
Definition starved {A} (granted : bool) (l : list A) : bool := negb (zlen l =? 0) && negb granted.

Definition rewrite_region (recurse : Z -> Z -> bool -> SO ir_rewrite unit) (created : Z)
    (source : Z) : SO ir_rewrite unit :=
  region ← so_lift (blocks_read m source);
  alloc ← rw_alloc;
  _ ← so_refuse_if (starved (alloc 0%nat) (b_arguments region)) YVEX_ERR_NOMEM
        "pass region allocation failed";
  arguments ← so_lift (mapO rw_type (b_arguments region));
  body ← rw_construct (CallRegion created arguments);
  recurse source body false.

(** An operation that is copied: created in the output, its results mapped and
    its regions rewritten. *)
Definition rewrite_copy (recurse : Z -> Z -> bool -> SO ir_rewrite unit)
    (op : yvex_ir_operation) (target : Z) : SO ir_rewrite unit :=
  alloc ← rw_alloc;
  _ ← so_refuse_if (starved (alloc 0%nat) (op_operands op) || starved (alloc 1%nat) (op_results op))
        YVEX_ERR_NOMEM "pass operand allocation failed";
  request ← rewrite_request op;
  created ← rw_construct (CallOperation target request);
  s ← so_get;
  copy ← so_lift (operations_read (rw_output s) created);
  _ ← so_each (fun index =>
        r ← so_lift (read_at (op_results op) index);
        v ← so_lift (read_at (op_results copy) index);
        rw_write r v) (zseq (zlen (op_results op)));
  so_each (rewrite_region recurse created) (op_regions op).

Definition is_named (name : string) (op : yvex_ir_operation) : bool :=
  String.eqb (def_name (op_definition op)) name.

(** [r->live && !r->live[id]] *)
Definition is_dead (id : Z) : outcome bool :=
  match live with
  | None => Done false
  | Some marks => alive ← read_at marks id; Done (negb alive)
  end.

(** The body of the operation loop. *)
Definition rewrite_operation (recurse : Z -> Z -> bool -> SO ir_rewrite unit)
    (id target : Z) (inlined : bool) : SO ir_rewrite unit :=
  op ← so_lift (operations_read m id);
  dead ← so_lift (is_dead id);
  if dead : bool then mret tt
  else if inlined && is_named "core.return" op then mret tt
  else if inline_calls && is_named "core.call" op then ir_rewrite_call recurse op target
  else if aliases && is_named "core.identity" op then
    result ← so_lift (read_at (op_results op) 0);
    operand ← so_lift (read_at (op_operands op) 0);
    rw_copy result operand
  else rewrite_copy recurse op target.

Fixpoint rewrite_chain (fuel : nat) (recurse : Z -> Z -> bool -> SO ir_rewrite unit)
    (target : Z) (inlined : bool) (id : Z) : SO ir_rewrite unit :=
  match fuel with
  | O => so_lift (Fault OutOfFuel)
  | S fuel =>
      if id =? YVEX_IR_NONE then mret tt else
      _ ← rewrite_operation recurse id target inlined;
      op ← so_lift (operations_read m id);
      rewrite_chain fuel recurse target inlined (op_next op)
  end.

(** [fuel] is 65 minus the depth. *)
Fixpoint ir_rewrite_block (fuel : nat) (source target : Z) (inlined : bool) : SO ir_rewrite unit :=
  match fuel with
  | O => so_refuse YVEX_ERR_BOUNDS "call/region expansion exceeds the compiler nesting bound"
  | S fuel =>
      block ← so_lift (blocks_read m source);
      _ ← (if inlined then mret tt else
           so_each (fun index =>
             s ← so_get;
             created ← so_lift (blocks_read (rw_output s) target);
             a ← so_lift (read_at (b_arguments block) index);
             v ← so_lift (read_at (b_arguments created) index);
             rw_write a v) (zseq (zlen (b_arguments block))));
      rewrite_chain (chain_fuel m) (ir_rewrite_block fuel) target inlined (b_first_operation block)
  end.

(** ** Functions *)

Definition rewrite_signature (f : yvex_ir_function) : SO ir_rewrite unit :=
  block ← so_lift (blocks_read m (f_body f));
  alloc ← rw_alloc;
  _ ← so_refuse_if (starved (alloc 0%nat) (b_arguments block) || starved (alloc 1%nat) (f_results f))
        YVEX_ERR_NOMEM "pass signature allocation failed";
  arguments ← so_lift (mapO rw_type (b_arguments block));
  results ← so_lift (mapO (read_at types) (f_results f));
  _ ← rw_construct (CallFunction (f_symbol f) arguments results (f_effects f));
  mret tt.

Definition rewrite_body (index : Z) : SO ir_rewrite unit :=
  f ← so_lift (functions_read m index);
  s ← so_get;
  created ← so_lift (functions_read (rw_output s) index);
  ir_rewrite_block 65 (f_body f) (f_body created) false.

Definition ir_rewrite_functions : SO ir_rewrite unit :=
  _ ← so_each rewrite_signature (m_functions m);
  so_each rewrite_body (zseq (zlen (m_functions m))).

End Rewrite.

(** ** Modules *)

(** [type.members[member] = rewrite.types[type.members[member]]] over the
    populated members; the other cells of the array keep their contents. *)
Definition rewrite_members (types : list Z) (t : yvex_ir_type) : outcome yvex_ir_type :=
  members ← mapO (fun i => if (0 <=? i) && (i <? ty_member_count t)
                           then read_at types (member_at t i)
                           else Done (member_at t i)) (zseq YVEX_IR_AGGREGATE_CAP);
  if YVEX_IR_AGGREGATE_CAP <? ty_member_count t then Fault OutOfBounds
  else Done (mk_type (ty_kind t) (ty_scalar t) (ty_rank t) (ty_shape t) (ty_domain t)
               (ty_member_count t) members).

(** The loop over the input's types: the identifiers in the output. *)
Fixpoint rewrite_types (heap : heaps) (input : list yvex_ir_type) (types : list Z)
    : SO ir_rewrite (list Z) :=
  match input with
  | [] => mret types
  | t :: input =>
      t' ← so_lift (rewrite_members types t);
      id ← rw_construct heap (CallType t');
      rewrite_types heap input (types ++ [id])
  end.

Definition rw_seal (heap : heaps) : SO ir_rewrite unit := fun s =>
  let '(sealed, r) := yvex_ir_seal (heap (rw_clock s)) (heap (S (rw_clock s))) (rw_output s) in
  (mk_rewrite sealed (rw_values s) (2 + rw_clock s), r).

(** The module before it is sealed. *)
Definition rewrite_build (heap : heaps) (m : yvex_ir_module) (live : option (list bool))
    (aliases inline_calls : bool) : SO ir_rewrite unit :=
  alloc ← rw_alloc heap;
  _ ← so_refuse_if (negb (alloc 0%nat && alloc 1%nat)) YVEX_ERR_NOMEM
        "pass mapping allocation failed";
  _ ← so_each (fun d => _ ← rw_construct heap (CallDimension d); mret tt) (m_dimensions m);
  types ← rewrite_types heap (m_types m) [];
  ir_rewrite_functions heap m live aliases inline_calls types.

(** The published module, or the refusal that closed the output. *)
Definition ir_rewrite_module (heap : heaps) (m : yvex_ir_module) (live : option (list bool))
    (aliases inline_calls : bool) : outcome yvex_ir_module :=
  _ ← yvex_ir_verify (heap 0%nat) m;
  output ← yvex_ir_module_open (heap 1%nat) (m_name m) (m_source_identity m) (m_dialects m);
  match (_ ← rewrite_build heap m live aliases inline_calls; rw_seal heap)
          (mk_rewrite output (replicate (length (m_values m)) YVEX_IR_NONE) 2) with
  | (s, Done _) => Done (rw_output s)
  | (_, Refuse status reason) => Refuse status reason
  | (_, Fault f) => Fault f
  end.

Definition ir_canonicalize (heap : heaps) (m : yvex_ir_module) : outcome yvex_ir_module :=
  ir_rewrite_module heap m None true false.

Definition ir_inline_calls (heap : heaps) (m : yvex_ir_module) : outcome yvex_ir_module :=
  ir_rewrite_module heap m None false true.

(** ** Liveness *)

(** The byte array [live] and the stack of operations to visit (top first). *)
Record liveness : Type := mk_liveness {
  lv_live : list bool;
  lv_stack : list Z
}.

(** The stack has room for [operation_count] entries. *)
Definition ir_mark (id : Z) : SO liveness unit := fun s =>
  if id =? YVEX_IR_NONE then (s, Done tt) else
  match zget (lv_live s) id with
  | None => (s, Fault OutOfBounds)
  | Some true => (s, Done tt)
  | Some false =>
      if zlen (lv_stack s) <? zlen (lv_live s)
      then (mk_liveness (zset (lv_live s) id true) (id :: lv_stack s), Done tt)
      else (s, Fault OutOfBounds)
  end.

(** One iteration of the root loop. *)
Definition mark_root (m : yvex_ir_module) (index : Z) : SO liveness unit :=
  op ← so_lift (operations_read m index);
  rooted ← so_lift (or_else (Done (negb (def_terminator (op_definition op) =? 0)))
             (effects ← yvex_ir_operation_effects m index; Done (negb (effects =? 0))));
  _ ← (if rooted : bool then ir_mark index else mret tt);
  so_each (fun operand =>
    state ← so_lift (value_is_state m operand);
    if state : bool then ir_mark index else mret tt) (op_operands op).

(** The worklist loop. *)
Fixpoint mark_live (fuel : nat) (m : yvex_ir_module) : SO liveness unit := fun s =>
  match fuel with
  | O => (s, Fault OutOfFuel)
  | S fuel =>
      match lv_stack s with
      | [] => (s, Done tt)
      | id :: stack =>
          (op ← so_lift (operations_read m id);
           block ← so_lift (blocks_read m (op_block op));
           _ ← ir_mark (b_parent_operation block);
           _ ← so_each (fun operand =>
                 v ← so_lift (values_read m operand);
                 ir_mark (v_definition v)) (op_operands op);
           mark_live fuel m) (mk_liveness (lv_live s) stack)
      end
  end.

(** Each operation is pushed at most once. *)
Definition live_operations (m : yvex_ir_module) : outcome (list bool) :=
  let start := mk_liveness (replicate (length (m_operations m)) false) [] in
  let '(s, r) := (_ ← so_each (mark_root m) (zseq (zlen (m_operations m)));
                  mark_live (chain_fuel m) m) start in
  _ ← r; Done (lv_live s).

Definition ir_dead_code (heap : heaps) (m : yvex_ir_module) : outcome yvex_ir_module :=
  _ ← yvex_ir_verify (heap 0%nat) m;
  _ ← refuse_if (negb (heap 1%nat 0%nat && heap 1%nat 1%nat)) YVEX_ERR_NOMEM
        "liveness allocation failed";
  live ← live_operations m;
  ir_rewrite_module (fun k => heap (2 + k)%nat) m (Some live) false false.

(** ** Pipeline *)

(** What a pass leaves in [*out]: nothing, a module of its own, or the pointer
    it was given. *)
Inductive pass_output : Type :=
  | NoOutput
  | OwnModule (m : yvex_ir_module)
  | AliasedInput.

(** [run] is a function pointer; [None] is a null pointer. *)
Record yvex_ir_pass : Type := mk_pass {
  pass_name : string;
  pass_version : Z;
  pass_run : option (heaps -> yvex_ir_module -> pass_output * outcome unit)
}.

(** A rewrite leaves its module exactly when it succeeds. *)
Definition publish (r : outcome yvex_ir_module) : pass_output * outcome unit :=
  match r with
  | Done m => (OwnModule m, Done tt)
  | Refuse s t => (NoOutput, Refuse s t)
  | Fault f => (NoOutput, Fault f)
  end.

Definition yvex_ir_canonical_pass : yvex_ir_pass :=
  mk_pass "canonical.value_aliases" 1 (Some (fun heap m => publish (ir_canonicalize heap m))).
Definition yvex_ir_dead_code_pass : yvex_ir_pass :=
  mk_pass "canonical.dead_pure_values" 1 (Some (fun heap m => publish (ir_dead_code heap m))).
Definition yvex_ir_inline_pass : yvex_ir_pass :=
  mk_pass "legalize.direct_calls" 1 (Some (fun heap m => publish (ir_inline_calls heap m))).

Record yvex_ir_pass_evidence : Type := mk_evidence {
  ev_pass : string;
  ev_version : Z;
  ev_input_identity : string;
  ev_output_identity : string;
  ev_input_operations : Z;
  ev_output_operations : Z
}.

(** [pass] has [YVEX_IR_NAME_CAP] cells and the identities 65. *)
Definition receipt (pass : yvex_ir_pass) (previous next : yvex_ir_module) : yvex_ir_pass_evidence :=
  mk_evidence (yvex_core_text_copy "" YVEX_IR_NAME_CAP (Some (pass_name pass))) (pass_version pass)
    (yvex_core_text_copy "" 65 (Some (m_identity previous)))
    (yvex_core_text_copy "" 65 (Some (m_identity next)))
    (zlen (m_operations previous)) (zlen (m_operations next)).

(** One iteration of the pass loop: the next module. *)
Definition pipeline_step (heap : heaps) (previous : yvex_ir_module) (pass : yvex_ir_pass)
    : outcome yvex_ir_module :=
  if negb (yvex_ir_name_valid (pass_name pass) true) || (pass_version pass =? 0)
  then Refuse YVEX_ERR_INVALID_ARG "invalid static pass contract"
  else
  match pass_run pass with
  | None => Refuse YVEX_ERR_INVALID_ARG "invalid static pass contract"
  | Some run =>
      match run heap previous with
      | (_, Fault f) => Fault f
      | (AliasedInput, _) => Refuse YVEX_ERR_STATE "pass must publish distinct immutable ownership"
      | (_, Refuse s t) => Refuse s t
      | (NoOutput, Done _) => Refuse YVEX_ERR_INVALID_ARG "IR module is required"
      | (OwnModule next, Done _) =>
          let '(sealed, r) := yvex_ir_seal (heap 0%nat) (heap 1%nat) next in
          _ ← r; Done sealed
      end
  end.

(** The loop: the current module and the receipts written. *)
Fixpoint pipeline_loop (heap : nat -> heaps) (previous : yvex_ir_module)
    (passes : list yvex_ir_pass) : outcome (yvex_ir_module * list yvex_ir_pass_evidence) :=
  match passes with
  | [] => Done (previous, [])
  | pass :: passes =>
      next ← pipeline_step (heap 0%nat) previous pass;
      rest ← pipeline_loop (fun k => heap (S k)) next passes;
      Done (rest.1, receipt pass previous next :: rest.2)
  end.

Definition yvex_ir_pass_pipeline (heap : nat -> heaps) (granted : bool) (input : yvex_ir_module)
    (passes : list yvex_ir_pass) : outcome (yvex_ir_module * list yvex_ir_pass_evidence) :=
  if negb (m_sealed input) || (zlen passes =? 0) || (64 <? zlen passes)
  then Refuse YVEX_ERR_INVALID_ARG "pipeline requires sealed input and bounded ordered passes"
  else if negb granted then Refuse YVEX_ERR_NOMEM "pass receipt allocation failed"
  else pipeline_loop heap input passes.

(** * Theorems *)

(** ** Liveness *)

(** An operation that must be kept: a terminator, an operation with effects, or
    one that uses a state version. *)
Definition live_root (m : yvex_ir_module) (i : Z) : Prop :=
  exists op, zget (m_operations m) i = Some op /\
    (def_terminator (op_definition op) <> 0 \/
     (exists e, yvex_ir_operation_effects m i = Done e /\ e <> 0) \/
     (exists v, v ∈ op_operands op /\ value_is_state m v = Done true)).

(** [needs i j]: operation [i] uses a result of [j] or is nested in it. *)
Definition needs (m : yvex_ir_module) (i j : Z) : Prop :=
  j <> YVEX_IR_NONE /\
  exists op, zget (m_operations m) i = Some op /\
    ((exists b, zget (m_blocks m) (op_block op) = Some b /\ b_parent_operation b = j) \/
     (exists v value, v ∈ op_operands op /\ zget (m_values m) v = Some value /\
        v_definition value = j)).

(** What dead-code elimination promises to keep. *)
Inductive live_op (m : yvex_ir_module) : Z -> Prop :=
  | live_here i : live_root m i -> live_op m i
  | live_needed i j : live_op m i -> needs m i j -> live_op m j.

Definition count_false (l : list bool) : Z := total (fun b : bool => if b then 0 else 1) l.

Lemma count_false_nonneg l : 0 <= count_false l.
Proof. apply total_nonneg. by intros []. Qed.

Lemma count_false_zset l i :
  zget l i = Some false -> count_false (zset l i true) = count_false l - 1.
Proof.
  intros H. pose proof (zget_Some_range _ _ _ H) as Hr. unfold zset.
  replace ((0 <=? i) && (i <? zlen l)) with true by lia. rewrite zget_lookup in H by done.
  clear Hr. unfold count_false. revert H. generalize (Z.to_nat i) as n.
  induction l as [|b l IH]; intros [|n] H; simplify_eq/=; unfold total; cbn; [lia|].
  fold (total (fun b : bool => if b then 0 else 1) (<[n:=true]> l)). rewrite IH by done.
  unfold total. lia.
Qed.

Lemma count_false_replicate n : count_false (replicate n false) = Z.of_nat n.
Proof. induction n as [|n IH]; [done|]. unfold count_false, total in *. cbn [replicate foldr]. lia. Qed.

Section Liveness.
  Implicit Types (s : liveness) (j : Z).

Definition is_live s j : Prop := zget (lv_live s) j = Some true.
#[global] Instance is_live_dec s j : Decision (is_live s j).
  Proof. unfold is_live. apply _. Defined.

Definition weight s : Z := count_false (lv_live s) + zlen (lv_stack s).

  (** The marks and the stack grow by exactly the operations in [new]. *)
Record marking s s' (new : Z -> Prop) : Prop := {
    marking_len : zlen (lv_live s') = zlen (lv_live s);
    marking_weight : weight s' = weight s;
    marking_marked j : is_live s' j <-> is_live s j \/ new j;
    marking_stack j : j ∈ lv_stack s' <-> j ∈ lv_stack s \/ (new j /\ ~ is_live s j)
  }.

Lemma marking_refl s (new : Z -> Prop) : (forall j, new j -> is_live s j) -> marking s s new.
  Proof. intros H. constructor; [done|done| |]; intros j; specialize (H j); tauto. Qed.

Lemma marking_trans s1 s2 s3 (A B C : Z -> Prop) :
    marking s1 s2 A -> marking s2 s3 B -> (forall j, C j <-> A j \/ B j) -> marking s1 s3 C.
  Proof.
    intros [L1 W1 M1 S1] [L2 W2 M2 S2] HC. constructor; [congruence|lia| |].
    - intros j. rewrite M2, M1, HC. tauto.
    - intros j. rewrite S2, S1, HC. split.
      + rewrite M1. tauto.
      + intros [Hj|[[Ha|Hb] Hn]]; [tauto|tauto|].
        destruct (decide (is_live s2 j)) as [Hm|Hm]; [|tauto].
        apply M1 in Hm. tauto.
  Qed.

Lemma ir_mark_spec id s :
    id = YVEX_IR_NONE \/ 0 <= id < zlen (lv_live s) -> weight s <= zlen (lv_live s) ->
    exists s', ir_mark id s = (s', Done tt) /\ marking s s' (fun j => j = id /\ j <> YVEX_IR_NONE).
  Proof.
    intros Hid Hw. unfold ir_mark. destruct (id =? YVEX_IR_NONE) eqn:E.
    { exists s. split; [done|]. apply marking_refl. intros j [-> ?]. lia. }
    destruct Hid as [->|Hid]; [lia|]. destruct (zget_in _ _ Hid) as [b Hb]. rewrite Hb.
    destruct b; [exists s; split; [done|]; apply marking_refl; by intros j [-> _]|].
    pose proof (count_false_zset _ _ Hb) as Hc.
    pose proof (count_false_nonneg (zset (lv_live s) id true)). unfold weight in *.
    replace (zlen (lv_stack s) <? zlen (lv_live s)) with true by lia.
    eexists. split; [done|]. constructor; cbn.
    - by autorewrite with zlen.
    - unfold weight. cbn. autorewrite with zlen. lia.
    - intros j. unfold is_live. cbn. destruct (decide (j = id)) as [->|Hj].
      + rewrite zget_zset_eq by done. split; [|done]. intros _. right. split; [done|lia].
      + rewrite zget_zset_ne by done. naive_solver.
    - intros j. rewrite elem_of_cons. unfold is_live. split.
      + intros [->|?]; [right|by left]. split; [split; [done|lia]|congruence].
      + intros [?|[[-> _] _]]; [by right|by left].
  Qed.

  (** A sequence of markings. *)
Lemma marking_each {A} (f : A -> SO liveness unit) (new : A -> Z -> Prop) l s :
    weight s <= zlen (lv_live s) ->
    (forall x s1, x ∈ l -> zlen (lv_live s1) = zlen (lv_live s) -> weight s1 <= zlen (lv_live s1) ->
       exists s2, f x s1 = (s2, Done tt) /\ marking s1 s2 (new x)) ->
    exists s', so_each f l s = (s', Done tt) /\ marking s s' (fun j => exists x, x ∈ l /\ new x j).
  Proof.
    revert s. induction l as [|x l IH]; intros s Hw Hf; cbn [so_each].
    { exists s. split; [done|]. apply marking_refl. set_solver. }
    destruct (Hf x s) as (s1 & E1 & M1); [set_solver|done|done|].
    destruct (IH s1) as (s2 & E2 & M2).
    { rewrite (marking_weight _ _ _ M1), (marking_len _ _ _ M1). done. }
    { intros y s3 Hy Hl. apply Hf; [set_solver|]. rewrite Hl. apply M1. }
    exists s2. split; [unfold mbind, so_bind; by rewrite E1|].
    eapply marking_trans; [exact M1|exact M2|]. set_solver.
  Qed.
End Liveness.

Section LiveSet.
  Context (m : yvex_ir_module) (Hwf : module_wf m).

Lemma value_is_state_total op i v :
    zget (m_operations m) i = Some op -> v ∈ op_operands op ->
    exists b value, value_is_state m v = Done b /\ zget (m_values m) v = Some value /\
      (v_definition value = YVEX_IR_NONE \/ 0 <= v_definition value < zlen (m_operations m)).
  Proof.
    intros Hop Hv. pose proof (wf_operations _ _ Hwf _ _ Hop) as Ho.
    pose proof (op_operands_in _ _ _ Ho) as Hin. rewrite Forall_forall in Hin.
    apply Hin in Hv. destruct (zget_in _ _ Hv) as [value Hval].
    destruct (wf_values _ _ Hwf _ _ Hval) as [Ht Hown].
    destruct (zget_in _ _ Ht) as [t Htt]. exists (ty_kind t =? YVEX_IR_STATE), value.
    unfold value_is_state, values_read, types_read, read_at. rewrite Hval. cbn. rewrite Htt.
    split; [done|]. split; [done|]. unfold value_owned in Hown.
    destruct (v_definition value =? YVEX_IR_NONE) eqn:E; [left; lia|right].
    destruct Hown as (o & Ho2 & _). by eapply zget_Some_range.
  Qed.

Lemma effects_total i : exists e, yvex_ir_operation_effects m i = Done e.
  Proof.
    unfold yvex_ir_operation_effects. destruct (yvex_ir_operation_at m i) as [op|]; [|eauto].
    destruct (negb (is_call op)); [eauto|].
    destruct (yvex_ir_attribute_get m i "callee") as [[? []]|]; eauto.
    destruct (yvex_ir_function_find m text) as [f|] eqn:E; [|eauto].
    apply find_index_Some in E as (fn & Hfn & _). unfold functions_read, read_at.
    rewrite Z.sub_0_r in Hfn. rewrite Hfn. eauto.
  Qed.

Lemma mark_root_spec i s :
    0 <= i < zlen (m_operations m) -> zlen (lv_live s) = zlen (m_operations m) ->
    weight s <= zlen (lv_live s) ->
    exists s', mark_root m i s = (s', Done tt) /\ marking s s' (fun j => j = i /\ live_root m i).
  Proof.
    intros Hi Hlen Hw. destruct (zget_in _ _ Hi) as [op Hop].
    destruct (effects_total i) as [e He].
    assert (i <> YVEX_IR_NONE) as Hne.
    { pose proof (storage_objects _ (wf_storage _ _ Hwf)) as Hs.
      unfold IR_OBJECT_LIMIT, YVEX_IR_NONE, UINT32_MAX in *. lia. }
    set (rooted := negb (def_terminator (op_definition op) =? 0) || negb (e =? 0)).
    unfold mark_root, operations_read, read_at. rewrite Hop, He.
    erewrite so_bind_eq by reflexivity.
    assert (or_else (Done (negb (def_terminator (op_definition op) =? 0)))
      (effects ← Done e; Done (negb (effects =? 0))) = Done rooted) as ->
      by (subst rooted; by destruct (_ =? 0)).
    erewrite so_bind_eq by reflexivity.
    assert (exists s1, (if rooted then ir_mark i else mret tt) s = (s1, Done tt) /\
      marking s s1 (fun j => j = i /\ rooted = true)) as (s1 & E1 & M1).
    { destruct rooted.
      - destruct (ir_mark_spec i s) as (s1 & E1 & M1); [right; lia|done|].
        exists s1. split; [done|]. eapply marking_trans;
          [exact M1|by apply (marking_refl _ (fun _ => False))|naive_solver].
      - exists s. split; [done|]. apply marking_refl. by intros j []. }
    erewrite so_bind_eq by exact E1.
    destruct (marking_each (fun operand =>
      state ← so_lift (value_is_state m operand); if state : bool then ir_mark i else mret tt)
      (fun v j => j = i /\ value_is_state m v = Done true) (op_operands op) s1)
      as (s2 & E2 & M2).
    { rewrite (marking_weight _ _ _ M1), (marking_len _ _ _ M1). done. }
    { intros v s3 Hv Hl3 Hw3. destruct (value_is_state_total _ _ _ Hop Hv) as (b & _ & -> & _).
      cbn [so_lift mbind so_bind]. destruct b.
      - destruct (ir_mark_spec i s3) as (s4 & E4 & M4);
          [right; rewrite Hl3, (marking_len _ _ _ M1); lia|done|].
        exists s4. split; [done|]. eapply marking_trans;
          [exact M4|by apply (marking_refl _ (fun _ => False))|naive_solver].
      - exists s3. split; [done|]. apply marking_refl. by intros j []. }
    exists s2. split; [exact E2|]. eapply marking_trans; [exact M1|exact M2|].
    intros j. unfold live_root. rewrite Hop. subst rooted. split.
    - intros [-> (op' & [= <-] & [Ht|[(e' & He' & Hne')|(v & Hv & Hst)]])]; [left..|right; eauto].
      + split; [done|]. apply orb_true_iff. left. lia.
      + rewrite He in He'. simplify_eq. split; [done|]. apply orb_true_iff. right. lia.
    - intros [[-> Hr]|(v & Hv & -> & Hst)]; (split; [done|]); exists op; (split; [done|]); [|eauto].
      apply orb_true_iff in Hr as [Hr|Hr]; [left; lia|right; left]. exists e. split; [done|lia].
  Qed.

  (** One visit marks exactly what the operation needs. *)
Lemma mark_needs_spec i s op :
    zget (m_operations m) i = Some op -> zlen (lv_live s) = zlen (m_operations m) ->
    weight s <= zlen (lv_live s) ->
    exists block s1 s', zget (m_blocks m) (op_block op) = Some block /\
      ir_mark (b_parent_operation block) s = (s1, Done tt) /\
      so_each (fun operand => v ← so_lift (values_read m operand); ir_mark (v_definition v))
        (op_operands op) s1 = (s', Done tt) /\
      marking s s' (needs m i).
  Proof.
    intros Hop Hlen Hw. pose proof (wf_operations _ _ Hwf _ _ Hop) as Ho.
    destruct (zget_in _ _ (op_block_in _ _ _ Ho)) as [block Hb].
    destruct (ir_mark_spec (b_parent_operation block) s) as (s1 & E1 & M1); [|done|].
    { destruct (b_parent_in _ _ _ _ (wf_blocks _ _ Hwf _ _ Hb)) as [?|(o & Ho2 & _)]; [by left|].
      right. rewrite Hlen. by eapply zget_Some_range. }
    destruct (marking_each (fun operand => v ← so_lift (values_read m operand); ir_mark (v_definition v))
      (fun v j => exists value, zget (m_values m) v = Some value /\ j = v_definition value /\
         j <> YVEX_IR_NONE) (op_operands op) s1) as (s2 & E2 & M2).
    { rewrite (marking_weight _ _ _ M1), (marking_len _ _ _ M1). done. }
    { intros v s3 Hv Hl3 Hw3. destruct (value_is_state_total _ _ _ Hop Hv) as (_ & value & _ & Hval & Hd).
      unfold values_read, read_at. rewrite Hval. cbn [so_lift mbind so_bind].
      destruct (ir_mark_spec (v_definition value) s3) as (s4 & E4 & M4); [|done|].
      { rewrite Hl3, (marking_len _ _ _ M1), Hlen. done. }
      exists s4. split; [done|]. eapply marking_trans;
          [exact M4|by apply (marking_refl _ (fun _ => False))|naive_solver]. }
    exists block, s1, s2. split_and!; [done..|].
    eapply marking_trans; [exact M1|exact M2|]. intros j. unfold needs. rewrite Hop. split.
    - intros (Hne & op' & [= <-] & [(b & Hb' & <-)|(v & value & Hv & Hval & <-)]); [left|right].
      + simplify_eq. done.
      + exists v. eauto.
    - intros [[-> Hne]|(v & Hv & value & Hval & -> & Hne)]; (split; [done|]); exists op; (split; [done|]).
      + left. eauto.
      + right. eauto.
  Qed.
End LiveSet.

(** Marked operations that left the stack have all their needs is_live. *)
Record live_inv (m : yvex_ir_module) (s : liveness) : Prop := {
  li_len : zlen (lv_live s) = zlen (m_operations m);
  li_weight : weight s <= zlen (lv_live s);
  li_sound j : is_live s j -> live_op m j;
  li_roots j : live_root m j -> is_live s j;
  li_stack j : j ∈ lv_stack s -> is_live s j;
  li_closed i j : is_live s i -> i ∉ lv_stack s -> needs m i j -> is_live s j
}.

Lemma live_inv_step m s s' id stack :
  lv_stack s = id :: stack -> live_inv m s ->
  marking (mk_liveness (lv_live s) stack) s' (needs m id) -> live_inv m s'.
Proof.
  intros Hst [L W S R K C] [ML MW MM MS]. unfold weight in *. cbn in *.
  assert (forall j, is_live s j -> is_live s' j) as Hmono by (intros j Hj; apply MM; by left).
  assert (is_live s id) as Hid by (apply K; rewrite Hst; set_solver). constructor.
  - congruence.
  - rewrite Hst in W. autorewrite with zlen in W. unfold weight. lia.
  - intros j [Hj|Hj]%MM; [by apply S|]. eapply live_needed; [by apply S|done].
  - auto.
  - intros j [Hj|[Hj _]]%MS; [|apply MM; by right]. apply Hmono, K. rewrite Hst. by right.
  - intros i j Hi Hni Hn. destruct (decide (i = id)) as [->|Hne]; [apply MM; by right|].
    destruct (decide (is_live s i)) as [Hmi|Hmi].
    + apply Hmono, (C i); [done| |done]. rewrite Hst. intros [->|Hin]%elem_of_cons; [done|].
      apply Hni, MS. by left.
    + exfalso. apply Hni, MS. right. split; [|done]. by apply MM in Hi as [?|?].
Qed.

Lemma mark_live_spec m fuel s :
  module_wf m -> live_inv m s -> weight s < Z.of_nat fuel ->
  exists s', mark_live fuel m s = (s', Done tt) /\ live_inv m s' /\ lv_stack s' = [].
Proof.
  intros Hwf. revert s. induction fuel as [|fuel IH]; intros s Hs Hw.
  { pose proof (count_false_nonneg (lv_live s)). pose proof (zlen_nonneg (lv_stack s)).
    unfold weight in Hw. lia. }
  cbn [mark_live]. destruct (lv_stack s) as [|id stack] eqn:Hst; [eauto|].
  assert (is_live s id) as Hid by (apply (li_stack _ _ Hs); rewrite Hst; set_solver).
  apply zget_Some_range in Hid. rewrite (li_len _ _ Hs) in Hid.
  destruct (zget_in _ _ Hid) as [op Hop].
  assert (weight (mk_liveness (lv_live s) stack) = weight s - 1) as Hw1.
  { unfold weight. rewrite Hst. autorewrite with zlen. cbn. lia. }
  pose proof (li_weight _ _ Hs) as Hlw.
  destruct (mark_needs_spec m Hwf id (mk_liveness (lv_live s) stack) op)
    as (block & s1 & s2 & Hb & E1 & E2 & M); [done|apply Hs|cbn; lia|].
  unfold operations_read, blocks_read, read_at. rewrite Hop.
  erewrite so_bind_eq by reflexivity. rewrite Hb.
  erewrite so_bind_eq by reflexivity. erewrite so_bind_eq by exact E1.
  erewrite so_bind_eq by exact E2.
  apply IH; [by eapply live_inv_step|]. rewrite (marking_weight _ _ _ M). lia.
Qed.

Lemma live_set m :
  ir_reachable m ->
  exists live, live_operations m = Done live /\ zlen live = zlen (m_operations m) /\
    forall i, zget live i = Some true <-> live_op m i.
Proof.
  intros Hr. pose proof (reachable_wf m Hr) as Hwf. unfold live_operations.
  set (start := mk_liveness (replicate (length (m_operations m)) false) []).
  assert (zlen (lv_live start) = zlen (m_operations m)) as Hlen.
  { subst start. cbn. autorewrite with zlen. done. }
  assert (weight start <= zlen (lv_live start)) as Hw.
  { unfold weight. subst start. cbn. rewrite count_false_replicate. autorewrite with zlen. lia. }
  assert (forall j, ~ is_live start j) as Hnone.
  { intros j Hj. apply zget_elem_of in Hj. apply elem_of_replicate in Hj. naive_solver. }
  destruct (marking_each (mark_root m) (fun i j => j = i /\ live_root m i)
    (zseq (zlen (m_operations m))) start Hw) as (s1 & E1 & [ML MW MM MS]).
  { intros i s Hi Hl Hws. apply mark_root_spec; [done|by apply elem_of_zseq|congruence|done]. }
  assert (forall j, is_live s1 j <-> live_root m j) as Hroots.
  { intros j. rewrite MM. split; [intros [Hj|(? & _ & -> & ?)]; [by apply Hnone in Hj|done]|].
    intros Hj. right. exists j. split; [|done]. destruct Hj as (op & Hop & _).
    apply elem_of_zseq. by eapply zget_Some_range. }
  assert (live_inv m s1) as Hs1.
  { constructor; [congruence|lia| | | |].
    - intros j Hj. by apply live_here, Hroots.
    - intros j Hj. by apply Hroots.
    - intros j [Hj|[(? & _ & -> & Hj) _]]%MS; [by apply not_elem_of_nil in Hj|]. by apply Hroots.
    - intros i j Hi Hni. exfalso. apply Hni, MS. right. split; [|by apply Hnone].
      apply MM in Hi as [Hi|Hi]; [by apply Hnone in Hi|done]. }
  destruct (mark_live_spec m (chain_fuel m) s1 Hwf Hs1) as (s2 & E2 & Hs2 & Hst).
  { unfold chain_fuel, zlen in *. lia. }
  exists (lv_live s2). erewrite so_bind_eq by exact E1. rewrite E2. cbn.
  split; [done|]. split; [apply Hs2|]. intros i. split; [apply Hs2|].
  induction 1 as [i Hi|i j _ IH Hn]; [by apply Hs2|].
  apply (li_closed _ _ Hs2 i); [done|rewrite Hst; apply not_elem_of_nil|done].
Qed.

(** C12: The worklist of dead-code elimination always terminates within its
    buffers on a well-formed module, and the set it computes is exact: an
    operation is is_live if and only if it is a terminator, has effects, uses a
    state version, or is needed, through any chain of uses and enclosing
    regions, by such an operation. *)
Theorem live_operations_exact m :
  ir_reachable m ->
  exists live, live_operations m = Done live /\ zlen live = zlen (m_operations m) /\
    forall i, zget live i = Some true <-> live_op m i.
Proof. apply live_set. Qed.

(** ** What a rewrite keeps *)

(** [keeps P c]: [c] maintains [P] of the output module on every path. *)
Definition keeps {A} (P : yvex_ir_module -> Prop) (c : SO ir_rewrite A) : Prop :=
  forall s, P (rw_output s) -> P (rw_output (c s).1).

Section Keeps.
  Context (P : yvex_ir_module -> Prop).

Lemma keeps_ret {A} (a : A) : keeps P (mret a).
  Proof. by intros s H. Qed.
Lemma keeps_lift {A} (c : outcome A) : keeps P (so_lift c).
  Proof. by intros s H. Qed.
Lemma keeps_refuse {A} st r : keeps (A:=A) P (so_refuse st r).
  Proof. by intros s H. Qed.
Lemma keeps_refuse_if b st r : keeps P (so_refuse_if b st r).
  Proof. by intros s H. Qed.
Lemma keeps_get : keeps P so_get.
  Proof. by intros s H. Qed.
Lemma keeps_bind {A B} (c : SO ir_rewrite A) (k : A -> SO ir_rewrite B) :
    keeps P c -> (forall a, keeps P (k a)) -> keeps P (c ≫= k).
  Proof.
    intros Hc Hk s H. unfold mbind, so_bind. specialize (Hc s H).
    destruct (c s) as [s1 [a| |]]; cbn in *; [by apply Hk|done..].
  Qed.
Lemma keeps_bind_eq {A B} (c : SO ir_rewrite A) (k : A -> SO ir_rewrite B) :
    keeps P c -> (forall a s s', c s = (s', Done a) -> keeps P (k a)) -> keeps P (c ≫= k).
  Proof.
    intros Hc Hk s H. unfold mbind, so_bind. specialize (Hc s H).
    destruct (c s) as [s1 [a| |]] eqn:E; cbn in *; [by eapply Hk|done..].
  Qed.
  (** A lifted outcome is known in the continuation. *)
Lemma keeps_lift_bind {A B} (c : outcome A) (k : A -> SO ir_rewrite B) :
    (forall a, c = Done a -> keeps P (k a)) -> keeps P (so_lift c ≫= k).
  Proof. intros Hk s H. unfold mbind, so_bind, so_lift. destruct c; cbn; [by apply Hk|done..]. Qed.
Lemma keeps_each {A} (f : A -> SO ir_rewrite unit) l :
    (forall x, x ∈ l -> keeps P (f x)) -> keeps P (so_each f l).
  Proof.
    induction l as [|x l IH]; intros H; cbn; [apply keeps_ret|].
    apply keeps_bind; [apply H; set_solver|intros _; apply IH; set_solver].
  Qed.
Lemma keeps_map {A B} (f : A -> SO ir_rewrite B) l :
    (forall x, keeps P (f x)) -> keeps P (so_map f l).
  Proof.
    intros H. induction l as [|x l IH]; cbn; [apply keeps_ret|].
    apply keeps_bind; [apply H|]. intros y. apply keeps_bind; [apply IH|]. intros ys. apply keeps_ret.
  Qed.
Lemma keeps_write dst v : keeps P (rw_write dst v).
  Proof. intros s H. unfold rw_write. by destruct (_ && _). Qed.
Lemma keeps_alloc heap : keeps P (rw_alloc heap).
  Proof. by intros s H. Qed.
Lemma keeps_construct heap c :
    (forall alloc m, P m -> P (ir_run alloc c m).1) -> keeps P (rw_construct heap c).
  Proof.
    intros Hc s H. unfold rw_construct. specialize (Hc (heap (rw_clock s)) _ H).
    by destruct (ir_run _ c (rw_output s)).
  Qed.
End Keeps.

Create HintDb keeps.
#[export] Hint Resolve keeps_ret keeps_lift keeps_refuse keeps_refuse_if keeps_get keeps_write
  keeps_alloc keeps_map : keeps.

(** Walk a rewriter definition; constructor calls and recursion are left. *)
Ltac keeps_walk :=
  repeat (intros; first
    [ solve [eauto with keeps]
    | apply keeps_lift_bind; intros
    | apply keeps_bind
    | apply keeps_each; intros
    | apply keeps_map; intros
    | match goal with |- keeps _ (if ?b then _ else _) => destruct b eqn:? end
    | match goal with |- keeps _ (match ?x with _ => _ end) => destruct x eqn:? end ]).

Section RewriteKeeps.
  Context (heap : heaps) (m : yvex_ir_module) (live : option (list bool))
    (aliases inline_calls : bool) (types : list Z).
  Context (P : yvex_ir_module -> Prop).

  (** An operation the rewrite copies. *)
Definition retained (id : Z) (op : yvex_ir_operation) : Prop :=
    zget (m_operations m) id = Some op /\ is_dead live id = Done false /\
    aliases && is_named "core.identity" op = false /\
    inline_calls && is_named "core.call" op = false.

Definition retained_request (r : yvex_ir_operation_request) : Prop :=
    exists id op, retained id op /\ req_operation r = def_name (op_definition op) /\
      req_version r = def_version (op_definition op).

  Hypothesis keeps_operation : forall alloc b r out,
    retained_request r -> P out -> P (ir_run alloc (CallOperation b r) out).1.
  Hypothesis keeps_region : forall alloc o a out, P out -> P (ir_run alloc (CallRegion o a) out).1.

Lemma request_spec op s s' r :
    rewrite_request m types op s = (s', Done r) ->
    s' = s /\ req_operation r = def_name (op_definition op) /\
    req_version r = def_version (op_definition op).
  Proof.
    unfold rewrite_request. intros (l & s1 & E1 & H)%so_bind_Done.
    apply so_bind_Done in H as (t & s2 & [-> _]%so_lift_Done & H).
    apply so_bind_Done in H as (a & s3 & [-> _]%so_lift_Done & H).
    injection H as <- <-. split; [|done]. clear -E1. revert l E1.
    induction (op_operands op) as [|v vs IH]; intros l; cbn; [by intros [= <- _]|].
    intros (y & s2 & Hy & H)%so_bind_Done. apply so_bind_Done in H as (ys & s3 & Hys & [= <- _]).
    unfold rw_read in Hy. apply so_bind_Done in Hy as (s' & s4 & [= <- <-] & [-> _]%so_lift_Done).
    eauto.
  Qed.

Lemma copy_keeps recurse id op target :
    retained id op -> (forall a b c, keeps P (recurse a b c)) ->
    keeps P (rewrite_copy heap m types recurse op target).
  Proof.
    intros Hop Hrec. unfold rewrite_copy, rewrite_region.
    apply keeps_bind; [auto with keeps|]. intros alloc. apply keeps_bind; [auto with keeps|].
    intros _. apply keeps_bind_eq; [unfold rewrite_request, rw_read; keeps_walk|].
    intros r s s' (_ & Hn & Hv)%request_spec. keeps_walk; apply keeps_construct.
    - intros. apply keeps_operation; [|done]. by exists id, op.
    - auto.
  Qed.

Lemma call_keeps recurse op target :
    (forall a b c, keeps P (recurse a b c)) -> keeps P (ir_rewrite_call m recurse op target).
  Proof. intros Hrec. unfold ir_rewrite_call, rw_copies, rw_copy, rw_read. keeps_walk. Qed.

Lemma operation_keeps recurse id target inlined :
    (forall a b c, keeps P (recurse a b c)) ->
    keeps P (rewrite_operation heap m live aliases inline_calls types recurse id target inlined).
  Proof.
    intros Hrec. unfold rewrite_operation. apply keeps_lift_bind. intros op Hop.
    apply keeps_lift_bind. intros dead Hd. destruct dead; [apply keeps_ret|].
    destruct (inlined && _); [apply keeps_ret|].
    destruct (inline_calls && is_named "core.call" op) eqn:Ec; [by apply call_keeps|].
    destruct (aliases && is_named "core.identity" op) eqn:Ea.
    { unfold rw_copy, rw_read. keeps_walk. }
    eapply copy_keeps; [|done]. unfold operations_read, read_at in Hop.
    destruct (zget (m_operations m) id) as [o|] eqn:E; [|done]. injection Hop as ->.
    split_and!; [exact E|exact Hd|done..].
  Qed.

Lemma block_keeps fuel source target inlined :
    keeps P (ir_rewrite_block heap m live aliases inline_calls types fuel source target inlined).
  Proof.
    revert source target inlined. induction fuel as [|fuel IH]; intros source target inlined;
      cbn [ir_rewrite_block]; [apply keeps_refuse|].
    apply keeps_lift_bind. intros block _. apply keeps_bind; [destruct inlined; keeps_walk|].
    intros _. generalize (b_first_operation block) as id. generalize (chain_fuel m) as n.
    induction n as [|n IHn]; intros id; cbn [rewrite_chain]; [apply keeps_lift|].
    destruct (id =? YVEX_IR_NONE); [apply keeps_ret|].
    apply keeps_bind; [by apply operation_keeps|]. intros _. apply keeps_lift_bind. auto.
  Qed.
End RewriteKeeps.

(** ** What constructors leave alone *)

Definition origin (m : yvex_ir_module) : string * string * list yvex_ir_dialect :=
  (m_name m, m_source_identity m, m_dialects m).

Lemma origin_native m out : origin out = origin m -> native_dialects (m_dialects m) -> native_dialects (m_dialects out).
Proof. by intros [= _ _ ->]. Qed.

Definition definitions (m : yvex_ir_module) : list yvex_ir_operation_definition :=
  op_definition <$> m_operations m.

Lemma fmap_zset {A B} (f : A -> B) l i x y :
  zget l i = Some x -> f y = f x -> f <$> zset l i y = f <$> l.
Proof.
  intros Hx Hf. pose proof (zget_Some_range _ _ _ Hx). unfold zset.
  replace ((0 <=? i) && (i <? zlen l)) with true by lia. rewrite zget_lookup in Hx by done.
  rewrite list_fmap_insert. apply list_insert_id. by rewrite list_lookup_fmap, Hx, Hf.
Qed.

Lemma block_add_frame {T} (f : yvex_ir_module -> T) alloc function parent types m :
  (forall c m, f (set_capacities c m) = f m) -> (forall l m, f (set_values l m) = f m) ->
  (forall l m, f (set_blocks l m) = f m) -> (forall n m, f (add_storage n m) = f m) ->
  f (ir_block_add alloc function parent types m).1 = f m.
Proof.
  intros Hc Hv Hb Ha. unfold ir_block_add.
  repeat (destruct (_ <? _) || destruct (_ && _) || destruct (ir_reserve _ _ _ _)); cbn [fst];
    repeat first [done | rewrite Ha | rewrite Hb | rewrite Hv | rewrite Hc].
Qed.

Lemma so_bind_frame {S A B T} (f : S -> T) (c : SO S A) (k : A -> SO S B) s :
  f (c s).1 = f s -> (forall a s', f (k a s').1 = f s') -> f ((c ≫= k) s).1 = f s.
Proof.
  intros Hc Hk. unfold mbind, so_bind. destruct (c s) as [s' [a| |]]; cbn in *; [|done..].
  by rewrite Hk.
Qed.

Lemma ir_run_origin alloc c m : origin (ir_run alloc c m).1 = origin m.
Proof.
  destruct c; cbn.
  - unfold yvex_ir_dimension_add. repeat case_match; done.
  - unfold yvex_ir_type_intern. repeat case_match; done.
  - unfold yvex_ir_function_add. destruct (or_else _ _) as [[]| |]; try done. cbn zeta.
    destruct (_ <? _); [done|]. destruct (_ && _); [done|].
    destruct (ir_reserve _ _ _ _); [|done].
    match goal with |- _ (fst (?f ?s)) = _ => change (origin m) with (origin s) end.
    apply so_bind_frame; [by apply block_add_frame|]. done.
  - unfold yvex_ir_operation_add, link_operation. repeat case_match; done.
  - unfold yvex_ir_region_add. repeat (case_match; try done).
    apply so_bind_frame; [by apply block_add_frame|]. done.
Qed.

Lemma link_definitions block_id id block m :
  definitions (link_operation block_id id block m) = definitions m.
Proof.
  unfold link_operation, definitions. destruct (_ =? _); [done|]. cbn.
  destruct (zget _ _) as [last|] eqn:E; [|done]. by eapply fmap_zset.
Qed.

(** Only [operation_add] appends a definition: the one its request names. *)
Lemma ir_run_definitions alloc c m :
  module_wf m ->
  definitions (ir_run alloc c m).1 = definitions m \/
  exists b r d, c = CallOperation b r /\ definitions (ir_run alloc c m).1 = definitions m ++ [d] /\
    yvex_ir_definition_find m (req_operation r) (req_version r) = Some d.
Proof.
  intros Hwf. destruct c as [d|t|s a res e|b r|o a]; cbn; [left..| |left].
  - unfold yvex_ir_dimension_add. repeat case_match; done.
  - unfold yvex_ir_type_intern. repeat case_match; done.
  - unfold yvex_ir_function_add. destruct (or_else _ _) as [[]| |]; try done. cbn zeta.
    destruct (_ <? _); [done|]. destruct (_ && _); [done|].
    destruct (ir_reserve _ _ _ _); [|done].
    match goal with |- _ (fst (?f ?s)) = _ => change (definitions m) with (definitions s) end.
    apply so_bind_frame; [by apply block_add_frame|]. done.
  - destruct (operation_add_cases alloc b r m Hwf)
      as [(m' & s & t & -> & Hs)|(cap & block & d & -> & _ & _ & Hd & _)].
    + left. unfold definitions. cbn. by destruct Hs as (_ & _ & _ & _ & -> & _).
    + right. exists b, r, d. split; [done|]. split; [|done]. cbn [fst].
      rewrite link_definitions. unfold definitions, operation_added. cbn. by rewrite fmap_app.
  - unfold yvex_ir_region_add. destruct (m_sealed m); [done|].
    destruct (zget (m_operations m) o) as [op|] eqn:Ho; [|done].
    destruct (ir_types_present m a) as [[]| |]; try done.
    destruct (_ <=? _); [done|]. destruct (negb _); [done|].
    destruct (blocks_read m (op_block op)) as [owner| |]; [|done..].
    unfold mbind at 1, so_bind at 1.
    destruct (ir_block_add (after 1 alloc) (b_function owner) o a m) as [m1 res] eqn:E.
    assert (m_operations m1 = m_operations m) as Hm1.
    { change m1 with (m1, res).1. rewrite <- E. by apply block_add_frame. }
    destruct res; unfold definitions; [|cbn; by rewrite Hm1..].
    unfold so_modify, mbind, so_bind. cbn. rewrite Hm1. by eapply fmap_zset.
Qed.

(** Only a granted [function_add] changes the functions. *)
Lemma ir_run_functions alloc c m :
  exists added, m_functions (ir_run alloc c m).1 = m_functions m ++ added /\
    match c, (ir_run alloc c m).2 with
    | CallFunction s _ r e, Done _ => exists body, added = [mk_function s body r e]
    | _, _ => added = []
    end.
Proof.
  destruct c as [d|t|s a res e|b r|o a]; cbn.
  - exists []. split; [|done]. unfold yvex_ir_dimension_add. rewrite app_nil_r. repeat case_match; done.
  - exists []. split; [|done]. unfold yvex_ir_type_intern. rewrite app_nil_r. repeat case_match; done.
  - unfold yvex_ir_function_add.
    destruct (or_else _ _) as [[]| |]; cbn; [exists []; by rewrite app_nil_r| |exists []; by rewrite app_nil_r..].
    destruct (_ <? _); [exists []; cbn; by rewrite app_nil_r|].
    destruct (_ && _); [exists []; cbn; by rewrite app_nil_r|].
    destruct (ir_reserve _ _ _ _) as [c|]; [|exists []; cbn; by rewrite app_nil_r].
    unfold mbind at 1 3, so_bind at 1 3.
    match goal with |- context [ir_block_add ?al ?f ?p ?ty ?m1] =>
      pose proof (block_add_frame m_functions al f p ty m1 (fun _ _ => eq_refl) (fun _ _ => eq_refl)
        (fun _ _ => eq_refl) (fun _ _ => eq_refl)) as Hf;
      destruct (ir_block_add al f p ty m1) as [m2 [body| |]] end;
      unfold so_modify, mbind, so_bind; cbn in *; rewrite Hf;
      [eexists; split; [done|by eexists]|exists []; by rewrite app_nil_r..].
  - exists []. split; [|done]. rewrite app_nil_r. unfold yvex_ir_operation_add, link_operation.
    repeat case_match; done.
  - exists []. split; [|done]. rewrite app_nil_r. unfold yvex_ir_region_add. repeat (case_match; try done).
    apply so_bind_frame; [by apply block_add_frame|]. done.
Qed.

(** The signatures a module publishes. *)
Definition interface (m : yvex_ir_module) : list (string * Z * Z) :=
  (fun f => (f_symbol f, f_effects f, zlen (f_results f))) <$> m_functions m.

Lemma ir_run_interface alloc c m :
  interface (ir_run alloc c m).1 =
  interface m ++ match c, (ir_run alloc c m).2 with
                 | CallFunction s _ r e, Done _ => [(s, e, zlen r)]
                 | _, _ => []
                 end.
Proof.
  unfold interface. destruct (ir_run_functions alloc c m) as (added & -> & Ha). rewrite fmap_app.
  f_equal. destruct c; try by subst. destruct (ir_run _ _ m).2; try by subst.
  destruct Ha as [body ->]. done.
Qed.

(** ** Published modules *)

(** A definition is found under its own name and version, which is not the
    wildcard. *)
Lemma builtin_version d : d ∈ concat (dia_operations <$> builtin_dialects) -> def_version d <> 0.
Proof.
  intros Hd. assert (forallb (fun d => negb (def_version d =? 0)) (concat (dia_operations <$> builtin_dialects)) = true) as H
    by (vm_compute; reflexivity). rewrite forallb_forall in H. specialize (H d (proj1 (list_elem_of_In _ _) Hd)). lia.
Qed.

Lemma builtin_found m d e :
  d ∈ concat (dia_operations <$> builtin_dialects) ->
  yvex_ir_definition_find m (def_name d) (def_version d) = Some e ->
  def_name e = def_name d /\ def_version e = def_version d.
Proof.
  intros Hd%builtin_version. unfold yvex_ir_definition_find. destruct (negb _); [done|].
  intros [_ H]%List.find_some. apply andb_true_iff in H as [->%String.eqb_eq H]. split; [done|].
  unfold selected_version in H. destruct (def_version d =? 0) eqn:E; lia.
Qed.

(** Every operation of the output copies the contract of an operation that the
    rewrite retains. *)
Definition derived (m : yvex_ir_module) (live : option (list bool)) (aliases inline_calls : bool)
    (out : yvex_ir_module) : Prop :=
  forall i op', zget (m_operations out) i = Some op' ->
    exists id op, retained m live aliases inline_calls id op /\
      def_name (op_definition op') = def_name (op_definition op) /\
      def_version (op_definition op') = def_version (op_definition op).

Record built (m : yvex_ir_module) (live : option (list bool)) (aliases inline_calls : bool)
    (out : yvex_ir_module) : Prop := {
  built_reachable : ir_reachable out;
  built_unsealed : m_sealed out = false;
  built_origin : origin out = origin m;
  built_derived : derived m live aliases inline_calls out
}.

Lemma definitions_zget m i op :
  zget (m_operations m) i = Some op -> op_definition op ∈ definitions m.
Proof. intros H. unfold definitions. apply list_elem_of_fmap_2, (zget_elem_of _ _ _ H). Qed.

Lemma zget_definitions m d :
  d ∈ definitions m -> exists i op, zget (m_operations m) i = Some op /\ op_definition op = d.
Proof.
  unfold definitions. intros (op & -> & Hop)%list_elem_of_fmap.
  apply elem_of_zget in Hop as [i Hi]. eauto.
Qed.

Lemma seal_Done alloc grow m m' :
  ir_reachable m -> native_dialects (m_dialects m) -> m_sealed m = false ->
  yvex_ir_seal alloc grow m = (m', Done tt) ->
  yvex_ir_verify alloc m = Done tt /\ exists identity, m' = seal_with identity m.
Proof.
  intros Hr Hd Hs. unfold yvex_ir_seal. rewrite Hs. pose proof (print_spec alloc grow m seal_arena Hr Hd) as Hp.
  destruct (yvex_ir_print alloc grow m seal_arena) as [bytes [u|s r|f]]; [|done..].
  destruct (ir_identity_digest (bytes_data bytes)); [|done]. intros [= <-].
  split; [apply Hp|eauto].
Qed.

Section Built.
  Context (m : yvex_ir_module) (live : option (list bool)) (aliases inline_calls : bool).
  Context (Hm : ir_reachable m) (Hdia : native_dialects (m_dialects m)).

Lemma built_run alloc c out :
    built m live aliases inline_calls out -> ir_call_machine c ->
    (forall b r, c = CallOperation b r -> retained_request m live aliases inline_calls r) ->
    built m live aliases inline_calls (ir_run alloc c out).1.
  Proof.
    intros [Hr Hs Ho Hd] Hc Hret. constructor.
    - by apply reach_call.
    - destruct (ir_run_post alloc c out (reachable_wf _ Hr) Hc) as (_ & _ & Hp).
      rewrite <- Hs. destruct (ir_run alloc c out) as [out' [| |]]; cbn in *; [done|apply Hp|done].
    - by rewrite ir_run_origin.
    - intros i op' Hop. apply definitions_zget in Hop.
      assert (op_definition op' ∈ definitions out -> exists id op,
        retained m live aliases inline_calls id op /\
        def_name (op_definition op') = def_name (op_definition op) /\
        def_version (op_definition op') = def_version (op_definition op)) as Hold.
      { intros (j & op & Hj & <-)%zget_definitions. eauto. }
      destruct (ir_run_definitions alloc c out (reachable_wf _ Hr)) as [E|(b & r & d & -> & E & Hf)];
        [rewrite E in Hop; auto|].
      rewrite E in Hop. apply elem_of_app in Hop as [Hop|Hop%list_elem_of_singleton]; [auto|].
      rewrite Hop. destruct (Hret _ _ eq_refl) as (id & op & Hre & Hn & Hv). exists id, op.
      split; [done|]. rewrite Hn, Hv in Hf. eapply builtin_found; [|exact Hf].
      apply (native_definition _ _ Hdia). eapply op_admitted, (wf_operations _ _ (reachable_wf _ Hm)), Hre.
  Qed.

Lemma built_types heap input types :
    (forall t, t ∈ input -> is_u32 (ty_rank t)) ->
    keeps (built m live aliases inline_calls) (rewrite_types heap input types).
  Proof.
    revert types. induction input as [|t input IH]; intros types Ht; cbn; [apply keeps_ret|].
    apply keeps_lift_bind. intros t' Ht'. apply keeps_bind; [|intros; apply IH; set_solver].
    apply keeps_construct. intros alloc out Hout. apply built_run; [done| |done]. cbn.
    unfold rewrite_members in Ht'. apply bind_Done in Ht' as (l & _ & Ht').
    destruct (_ <? _); [done|]. injection Ht' as <-. cbn. apply Ht. set_solver.
  Qed.

Lemma built_dimensions heap :
    keeps (built m live aliases inline_calls) (so_each (fun d => _ ← rw_construct heap (CallDimension d); mret tt) (m_dimensions m)).
  Proof.
    pose proof (reachable_wf _ Hm) as Hwf. keeps_walk. apply keeps_construct. intros alloc out Hout.
    apply built_run; [done| |done]. destruct (wf_dimensions _ _ Hwf) as [Hall _]. rewrite Forall_forall in Hall.
    destruct (Hall x) as (_ & Hmin & Hmax & Hmul & Hmod & _); [done|]. cbn.
    assert (dim_multiple x <= dim_minimum x).
    { apply Z.mod_divide in Hmod; [|lia]. apply Z.divide_pos_le in Hmod; lia. }
    unfold is_u64 in *. lia.
  Qed.

Lemma built_module_types heap : keeps (built m live aliases inline_calls) (rewrite_types heap (m_types m) []).
  Proof.
    pose proof (reachable_wf _ Hm) as Hwf. apply built_types. intros t [i Hi]%elem_of_zget.
    pose proof (types_ranked _ (wf_types _ _ Hwf) _ _ Hi).
    pose proof (types_valid _ (wf_types _ _ Hwf) _ _ Hi) as Hv.
    unfold yvex_ir_type_valid in Hv. destruct (_ || _) eqn:E in Hv; [done|]. bool_hyps.
    unfold is_u32, YVEX_IR_RANK_CAP in *. lia.
  Qed.

Lemma built_signatures heap types :
    keeps (built m live aliases inline_calls) (so_each (rewrite_signature heap m types) (m_functions m)).
  Proof. unfold rewrite_signature. keeps_walk. apply keeps_construct. intros. by apply built_run. Qed.

Lemma built_build heap : keeps (built m live aliases inline_calls)
    (rewrite_build heap m live aliases inline_calls).
  Proof.
    assert (forall types source target inlined, keeps (built m live aliases inline_calls)
      (ir_rewrite_block heap m live aliases inline_calls types 65 source target inlined)) as Hblock.
    { intros. apply block_keeps.
      - intros alloc b r out Hr Hout. apply built_run; [done..|]. intros ? ? [= <- <-]. done.
      - intros. by apply built_run. }
    unfold rewrite_build, ir_rewrite_functions, rewrite_body.
    apply keeps_bind; [apply keeps_alloc|]. intros al. apply keeps_bind; [apply keeps_refuse_if|]. intros _.
    apply keeps_bind; [apply built_dimensions|]. intros _.
    apply keeps_bind; [apply built_module_types|]. intros types.
    apply keeps_bind; [apply built_signatures|]. intros _. keeps_walk.
  Qed.
End Built.

(** ** The interface of the output *)

Section Interface.
  Context (heap : heaps) (m : yvex_ir_module) (live : option (list bool))
    (aliases inline_calls : bool) (types : list Z).

Lemma mapO_length {A B} (f : A -> outcome B) l k : mapO f l = Done k -> zlen k = zlen l.
  Proof.
    revert k. induction l as [|x l IH]; intros k; cbn; [by intros [= <-]|].
    intros (y & _ & (ys & Hys & [= <-])%bind_Done)%bind_Done. autorewrite with zlen.
    by rewrite (IH ys).
  Qed.

Lemma construct_Done c s s' id :
    rw_construct heap c s = (s', Done id) ->
    ir_run (heap (rw_clock s)) c (rw_output s) = (rw_output s', Done id) /\
    rw_values s' = rw_values s.
  Proof.
    unfold rw_construct. destruct (ir_run _ c (rw_output s)) as [out r]. by intros [= <- ->].
  Qed.

Lemma signature_interface f s s' :
    rewrite_signature heap m types f s = (s', Done tt) ->
    interface (rw_output s') = interface (rw_output s) ++ [(f_symbol f, f_effects f, zlen (f_results f))].
  Proof.
    unfold rewrite_signature. intros (b & s1 & [-> _]%so_lift_Done & H)%so_bind_Done.
    apply so_bind_Done in H as (al & s2 & [= <- _] & H).
    apply so_bind_Done in H as ([] & s3 & [-> _]%so_lift_Done & H).
    apply so_bind_Done in H as (args & s4 & [-> _]%so_lift_Done & H).
    apply so_bind_Done in H as (res & s5 & [-> Hres]%so_lift_Done & H).
    apply so_bind_Done in H as (id & s6 & [E _]%construct_Done & [= <-]).
    apply mapO_length in Hres. cbn in E.
    pose proof (ir_run_interface (heap (S (rw_clock s)))
      (CallFunction (f_symbol f) args res (f_effects f)) (rw_output s)) as Hi.
    cbn [ir_run] in Hi, E. rewrite E in Hi. cbn in Hi. by rewrite Hi, Hres.
  Qed.

Lemma signatures_interface fs s s' :
    so_each (rewrite_signature heap m types) fs s = (s', Done tt) ->
    interface (rw_output s') = interface (rw_output s)
      ++ ((fun f => (f_symbol f, f_effects f, zlen (f_results f))) <$> fs).
  Proof.
    revert s. induction fs as [|f fs IH]; intros s; cbn.
    { intros [= <-]. by rewrite app_nil_r. }
    intros ([] & s1 & Hf & H)%so_bind_Done. rewrite (IH _ H), (signature_interface _ _ _ Hf).
    by rewrite <- app_assoc.
  Qed.

Lemma bodies_interface l L :
    keeps (fun out => interface out = L)
      (so_each (rewrite_body heap m live aliases inline_calls types) l).
  Proof.
    apply keeps_each. intros i _. unfold rewrite_body. apply keeps_lift_bind. intros f _.
    apply keeps_bind; [apply keeps_get|]. intros s. apply keeps_lift_bind. intros g _.
    apply block_keeps; intros; rewrite ir_run_interface; by rewrite app_nil_r.
  Qed.
End Interface.

Lemma keeps_Done {A} (P : yvex_ir_module -> Prop) (c : SO ir_rewrite A) s s' a :
  keeps P c -> c s = (s', Done a) -> P (rw_output s) -> P (rw_output s').
Proof. intros Hk E Hs. specialize (Hk s Hs). by rewrite E in Hk. Qed.

Lemma types_keeps (P : yvex_ir_module -> Prop) heap input types :
  (forall alloc t m, P m -> P (ir_run alloc (CallType t) m).1) ->
  keeps P (rewrite_types heap input types).
Proof.
  intros HP. revert types. induction input as [|t input IH]; intros types; cbn; [apply keeps_ret|].
  apply keeps_lift_bind. intros t' _. apply keeps_bind; [|auto]. apply keeps_construct. auto.
Qed.

Lemma build_interface heap m live aliases inline_calls s s' :
  rewrite_build heap m live aliases inline_calls s = (s', Done tt) ->
  interface (rw_output s') = interface (rw_output s) ++ interface m.
Proof.
  unfold rewrite_build. intros (al & s1 & [= <- _] & H)%so_bind_Done.
  apply so_bind_Done in H as ([] & s2 & [-> _]%so_lift_Done & H).
  apply so_bind_Done in H as ([] & s3 & Hdims & H).
  apply so_bind_Done in H as (types & s4 & Htypes & H).
  unfold ir_rewrite_functions in H. apply so_bind_Done in H as ([] & s5 & Hsig & Hbody).
  eapply (keeps_Done (fun out => interface out = interface (rw_output s))) in Hdims; [| |done].
  2:{ apply keeps_each. intros d _. apply keeps_bind; [|intros; apply keeps_ret].
      apply keeps_construct. intros al' out Hout. rewrite ir_run_interface. by rewrite app_nil_r. }
  eapply (keeps_Done (fun out => interface out = interface (rw_output s))) in Htypes; [| |done].
  2:{ apply types_keeps. intros al' t out Hout. rewrite ir_run_interface. by rewrite app_nil_r. }
  apply signatures_interface in Hsig. rewrite Htypes in Hsig.
  by apply (keeps_Done _ _ _ _ _ (bodies_interface _ _ _ _ _ _ _ _) Hbody).
Qed.

(** What a pass that rewrites [m] promises about the module it publishes: it is
    the seal of a verified module built through the constructors, with the name,
    source identity, dialects and function signatures of [m]. *)
Definition published (m out : yvex_ir_module) : Prop :=
  ir_reachable out /\ m_sealed out = true /\
  (exists alloc pre identity, yvex_ir_verify alloc pre = Done tt /\ out = seal_with identity pre) /\
  origin out = origin m /\ interface out = interface m.

Lemma rewrite_published heap m live aliases inline_calls out :
  ir_reachable m -> native_dialects (m_dialects m) ->
  ir_rewrite_module heap m live aliases inline_calls = Done out ->
  yvex_ir_verify (heap 0%nat) m = Done tt /\ published m out /\
  derived m live aliases inline_calls out.
Proof.
  intros Hm Hdia. unfold ir_rewrite_module.
  intros ([] & Hver & (o & Hopen & H)%bind_Done)%bind_Done.
  destruct ((_ ← _; rw_seal heap) _) as [s2 [u| |]] eqn:E; [|done..]. injection H as <-. destruct u.
  apply so_bind_Done in E as ([] & s1 & Eb & Es).
  assert (built m live aliases inline_calls o /\ interface o = []) as [Ho Hi].
  { pose proof (reach_open _ _ _ _ _ Hopen) as Hr. unfold yvex_ir_module_open in Hopen.
    destruct (_ || _); [done|]. destruct (negb _); [done|]. injection Hopen as <-.
    split; [|done]. constructor; [done..|]. intros i op. cbn. by rewrite zget_nil. }
  pose proof (build_interface _ _ _ _ _ _ _ Eb) as Hint. cbn in Hint. rewrite Hi in Hint.
  apply (keeps_Done _ _ _ _ _ (built_build m live aliases inline_calls Hm Hdia heap)) in Eb;
    [|exact Ho]. destruct Eb as [Hr Hs Hor Hd]. unfold rw_seal in Es.
  destruct (yvex_ir_seal _ _ _) as [sealed r] eqn:Eseal. injection Es as <- ->. cbn.
  apply seal_Done in Eseal as (Hv & identity & ->); [|done|by eapply origin_native|done].
  split; [done|]. split; [|done]. split_and!; [by apply reach_seal|done|eauto|done|done].
Qed.


(** ** Pipeline *)

Lemma name_scan_length chars index previous dot i p d :
  0 <= index -> name_scan chars index previous dot = Some (i, p, d) -> i < YVEX_IR_NAME_CAP ->
  i = index + zlen chars.
Proof.
  revert index previous dot. induction chars as [|c chars IH]; intros index previous dot Hi; cbn.
  { intros [= <- _ _] _. unfold zlen. cbn. lia. }
  destruct (YVEX_IR_NAME_CAP <=? index) eqn:E; [intros [= <- _ _]; lia|].
  rewrite zlen_cons. destruct (c =? DOT).
  - destruct (_ || _); [done|]. intros H Hlt. apply IH in H; lia.
  - destruct (negb _); [done|]. intros H Hlt. apply IH in H; lia.
Qed.

Lemma name_valid_length name qualified :
  yvex_ir_name_valid name qualified = true -> Z.of_nat (String.length name) < YVEX_IR_NAME_CAP.
Proof.
  unfold yvex_ir_name_valid. assert (zlen (string_bytes name) = Z.of_nat (String.length name)) as Hl.
  { unfold zlen, string_bytes. rewrite length_fmap. f_equal.
    induction name as [|a name IH]; [done|]. cbn. by rewrite IH. }
  destruct (string_bytes name) as [|c l] eqn:E; [done|]. rewrite <- E in *.
  destruct (name_scan (string_bytes name) 0 0 false) as [[[i p] d]|] eqn:Es; [|done].
  intros H. bool_hyps. apply name_scan_length in Es; lia.
Qed.

Lemma substring_all text n : (String.length text <= n)%nat -> String.substring 0 n text = text.
Proof.
  revert n. induction text as [|a text IH]; intros [|n] H; cbn in *; try done; try lia.
  f_equal. apply IH. lia.
Qed.

(** A copy that fits its buffer is exact. *)
Lemma text_copy_fits dst cap text :
  Z.of_nat (String.length text) < cap -> yvex_core_text_copy dst cap (Some text) = text.
Proof.
  intros H. unfold yvex_core_text_copy. replace (cap =? 0) with false by lia. cbn.
  apply substring_all. lia.
Qed.

(** The receipts of a run: each pass, the module it consumed and the one it
    produced, which is sealed and consumed by the next. *)
Fixpoint pipeline_run (previous : yvex_ir_module) (passes : list yvex_ir_pass)
    (receipts : list yvex_ir_pass_evidence) (out : yvex_ir_module) : Prop :=
  match passes, receipts with
  | [], [] => out = previous
  | pass :: passes, r :: receipts =>
      exists next, m_sealed next = true /\ r = receipt pass previous next /\
        yvex_ir_name_valid (pass_name pass) true = true /\ pipeline_run next passes receipts out
  | _, _ => False
  end.

Lemma pipeline_step_sealed heap previous pass next :
  pipeline_step heap previous pass = Done next ->
  m_sealed next = true /\ yvex_ir_name_valid (pass_name pass) true = true.
Proof.
  unfold pipeline_step. destruct (_ || _) eqn:E; [done|]. bool_hyps.
  destruct (pass_run pass) as [run|]; [|done].
  destruct (run heap previous) as [[|m|] [u| |]]; try done.
  unfold yvex_ir_seal. destruct (m_sealed m) eqn:Es.
  { cbn. intros [= <-]. done. }
  destruct (yvex_ir_print _ _ m seal_arena) as [bytes [u'| |]]; try done.
  destruct (ir_identity_digest (bytes_data bytes)); cbn; [|done]. intros [= <-]. done.
Qed.

Lemma pipeline_loop_run heap previous passes out receipts :
  pipeline_loop heap previous passes = Done (out, receipts) ->
  pipeline_run previous passes receipts out.
Proof.
  revert heap previous receipts. induction passes as [|pass passes IH]; intros heap previous receipts; cbn.
  { by intros [= -> <-]. }
  intros (next & Hstep & ([out' rs] & Hrest & [= -> <-])%bind_Done)%bind_Done.
  apply pipeline_step_sealed in Hstep as [? ?]. exists next. split_and!; [done..|]. eauto.
Qed.

Lemma pipeline_run_links previous passes receipts out :
  pipeline_run previous passes receipts out ->
  length receipts = length passes /\
  (forall r, receipts !! 0%nat = Some r ->
     ev_input_identity r = yvex_core_text_copy "" 65 (Some (m_identity previous)) /\
     ev_input_operations r = zlen (m_operations previous)) /\
  (forall k r r', receipts !! k = Some r -> receipts !! S k = Some r' ->
     ev_output_identity r = ev_input_identity r' /\
     ev_output_operations r = ev_input_operations r') /\
  (forall r, last receipts = Some r ->
     ev_output_identity r = yvex_core_text_copy "" 65 (Some (m_identity out)) /\
     ev_output_operations r = zlen (m_operations out)) /\
  (forall k r, receipts !! k = Some r -> exists pass, passes !! k = Some pass /\
     ev_pass r = pass_name pass /\ ev_version r = pass_version pass).
Proof.
  revert previous receipts. induction passes as [|pass passes IH]; intros previous [|r receipts] H;
    cbn in H; try done. destruct H as (next & _ & -> & Hname & H).
  destruct (IH next receipts H) as (Hlen & Hfirst & Hlink & Hlast & Hpass). split_and!.
  - cbn. lia.
  - intros r [= <-]. done.
  - intros [|k] r r' Hr Hr'; cbn in *; [|by eapply Hlink].
    injection Hr as <-. cbn. destruct (Hfirst r' Hr') as [-> ->]. done.
  - intros r Hr. destruct receipts as [|r' rs]; [|by apply Hlast].
    cbn in Hr. injection Hr as <-. cbn. destruct passes; [|done]. cbn in H. by subst next.
  - intros [|k] r Hr; cbn in *; [|by apply Hpass]. injection Hr as <-. exists pass. cbn.
    split; [done|]. split; [|done]. apply name_valid_length in Hname.
    by apply (text_copy_fits "" YVEX_IR_NAME_CAP).
Qed.

(** The pass pipeline is transactional and its evidence is a chain.  It
    publishes only from a sealed input and at most 64 passes; the published
    module is sealed; there is one receipt per pass, naming that pass and
    version; the first receipt starts at the input's identity and population,
    each receipt starts where the previous one ended, and the last one ends at
    the identity and population of the published module. *)
Theorem pipeline_evidence heap granted input passes out receipts :
  yvex_ir_pass_pipeline heap granted input passes = Done (out, receipts) ->
  m_sealed input = true /\ 1 <= zlen passes <= 64 /\ m_sealed out = true /\
  length receipts = length passes /\
  (forall r, receipts !! 0%nat = Some r ->
     ev_input_identity r = yvex_core_text_copy "" 65 (Some (m_identity input)) /\
     ev_input_operations r = zlen (m_operations input)) /\
  (forall k r r', receipts !! k = Some r -> receipts !! S k = Some r' ->
     ev_output_identity r = ev_input_identity r' /\
     ev_output_operations r = ev_input_operations r') /\
  (forall r, last receipts = Some r ->
     ev_output_identity r = yvex_core_text_copy "" 65 (Some (m_identity out)) /\
     ev_output_operations r = zlen (m_operations out)) /\
  (forall k r, receipts !! k = Some r -> exists pass, passes !! k = Some pass /\
     ev_pass r = pass_name pass /\ ev_version r = pass_version pass).
Proof.
  unfold yvex_ir_pass_pipeline. destruct (_ || _) eqn:E; [done|]. bool_hyps.
  destruct (negb granted); [done|]. intros Hrun%pipeline_loop_run.
  pose proof (zlen_nonneg passes). split; [done|]. split; [lia|].
  split; [|by apply pipeline_run_links].
  assert (m_sealed input = true) as Hin by done. revert Hrun Hin. clear.
  revert input receipts. induction passes as [|p passes IH]; intros input [|r rs] H Hin; cbn in H;
    try done; [by subst|]. destruct H as (next & Hs & _ & _ & H). by eapply IH.
Qed.

(** ** Witnesses *)

Definition demo_heaps : heaps := fun _ => grant.

(** On the demonstration program the call is inlined, the aliases are removed
    and the identity whose result is unused is dropped. *)
Example demo_passes :
  (fun r => match r with Done m => List.map def_name (definitions m) | _ => [] end) <$>
    [ir_canonicalize demo_heaps demo_module; ir_inline_calls demo_heaps demo_module;
     ir_dead_code demo_heaps demo_module]
  = [["core.return"; "core.call"; "core.return"];
     ["core.identity"; "core.return"; "core.identity"; "core.identity"; "core.return"];
     ["core.identity"; "core.return"; "core.call"; "core.return"]].
Proof. vm_compute. reflexivity. Qed.

Lemma live_operations_exact_witness :
  exists live, live_operations demo_module = Done live /\
    live = [true; true; true; false; true] /\ live_op demo_module 0 /\ ~ live_op demo_module 3.
Proof.
  destruct (live_operations_exact demo_module demo_reachable) as (live & Hl & _ & Hex).
  assert (live_operations demo_module = Done [true; true; true; false; true]) as E
    by (vm_compute; reflexivity).
  rewrite E in Hl. injection Hl as <-. exists [true; true; true; false; true].
  split; [exact E|]. split; [reflexivity|]. split; [apply Hex; reflexivity|].
  intros H. apply Hex in H. discriminate H.
Defined.


Definition demo_sealed : yvex_ir_module := seal_with demo_identity demo_module.
Definition demo_pass_list : list yvex_ir_pass :=
  [yvex_ir_inline_pass; yvex_ir_canonical_pass; yvex_ir_dead_code_pass].

Lemma pipeline_evidence_witness :
  exists out receipts,
    yvex_ir_pass_pipeline (fun _ => demo_heaps) true demo_sealed demo_pass_list = Done (out, receipts)
    /\ m_sealed out = true /\ length receipts = 3%nat.
Proof.
  assert (is_done (yvex_ir_pass_pipeline (fun _ => demo_heaps) true demo_sealed demo_pass_list) = true)
    as Ha by (vm_compute; reflexivity).
  apply is_done_Done in Ha as [[out receipts] Ha]. exists out, receipts. split; [exact Ha|].
  destruct (pipeline_evidence (fun _ => demo_heaps) true demo_sealed demo_pass_list out receipts Ha)
    as (_ & _ & Hs & Hl & _). split; [exact Hs|exact Hl].
Defined.
