(* ===== verification/IrPassSafety.v ===== *)
(** * IrPassSafety: the passes are memory safe

    The rewriting engine of [src/ir/passes.c] reads the input module, the live
    set and its two maps without checks.  This file shows that on every module a
    client can hold none of those reads leaves its array, no fuel runs out and
    no pointer is null: each pass publishes a module or refuses. *)

From Stdlib Require Import ZArith Lia Bool.
From stdpp Require Import base list option numbers strings sets.
From S2P Require Import Prelude Core Sha256 Text Float64 IrData IrCore IrSequence IrNeural IrModule IrInvariant IrVerify IrSafety IrPrint IrPasses.

(** ** Verified modules *)

Lemma block_verify_terminated fuel m b s s' :
  ir_block_verify fuel m b s = (s', Done tt) -> block_terminated m b.
Proof.
  intros H. destruct fuel as [|fuel]; cbn -[or_else chain_verify] in H.
  { by destruct (yvex_ir_block_at m b). }
  unfold yvex_ir_block_at in H. destruct (zget (m_blocks m) b) as [block|] eqn:Hblk; [|done].
  destruct (_ || _); [done|].
  apply so_bind_Done in H as ([] & s1 & H1 & H). injection H1 as <- _.
  apply so_bind_Done in H as (last & s1 & H1 & H).
  apply so_bind_Done in H as (unterm & s2 & H2 & H). apply so_lift_Done in H2 as [-> Hu].
  injection H as <- ->%refuse_if_Done.
  apply or_else_false in Hu as [[= Hl] Hu]. apply negb_false_iff, Z.eqb_eq in Hl. subst last.
  apply bind_Done in Hu as (lastop & Hlast%read_at_Done & [= Hterm]).
  exists block, lastop. split; [done|]. split; [done|]. lia.
Qed.

Lemma bodies_terminated alloc m i f :
  yvex_ir_verify alloc m = Done tt -> zget (m_functions m) i = Some f ->
  block_terminated m (f_body f).
Proof.
  unfold yvex_ir_verify. destruct (_ || _); [done|]. destruct (negb _); [done|].
  destruct (negb _); [done|].
  set (s0 := mk_marks _ _). destruct (so_each (verify_function m) _ s0) as [s r] eqn:E.
  intros ([] & -> & _)%bind_Done Hf.
  assert (i ∈ zseq (zlen (m_functions m))) as Hi by (apply elem_of_zseq; by eapply zget_Some_range).
  clearbody s0. revert s0 E Hi. generalize (zseq (zlen (m_functions m))) as l.
  induction l as [|j l IH]; intros s0 E Hi; [by apply not_elem_of_nil in Hi|].
  cbn [so_each] in E. apply so_bind_Done in E as ([] & s1 & E1 & E2).
  apply elem_of_cons in Hi as [<-|Hi]; [|by apply (IH s1)].
  unfold verify_function in E1. apply so_bind_Done in E1 as (f' & s2 & [-> Hf'%read_at_Done]%so_lift_Done & E1).
  apply so_bind_Done in E1 as ([] & s3 & _ & E1). assert (f' = f) as -> by congruence.
  by apply block_verify_terminated in E1.
Qed.

(** Attribute names are distinct, so the first and the last match agree. *)
Lemma attributes_conform_names m rules seen l :
  attributes_conform m rules seen l = true ->
  Forall (fun a => ir_attribute_valid m a = true) l /\ NoDup (attr_name <$> l) /\
  Forall (fun a => attr_name a ∉ attr_name <$> seen) l.
Proof.
  revert seen. induction l as [|a l IH]; intros seen H; cbn in H; [by repeat constructor|].
  bool_hyps. destruct (IH _ H0) as (Hv & Hnd & Hns). split; [by constructor|].
  assert (attr_name a ∉ attr_name <$> seen) as Ha.
  { intros (b & Hb & Hin)%list_elem_of_fmap. apply not_true_iff_false in H2. apply H2.
    apply existsb_exists. exists b. split; [by apply list_elem_of_In|]. by apply String.eqb_eq. }
  rewrite Forall_forall in Hns. split.
  - cbn. constructor; [|done]. intros (b & Hb & Hin)%list_elem_of_fmap.
    apply (Hns b Hin). rewrite <- Hb, fmap_app. set_solver.
  - constructor; [done|]. apply Forall_forall. intros b Hb. specialize (Hns b Hb).
    rewrite fmap_app in Hns. set_solver.
Qed.

Lemma find_attribute_rev name l :
  NoDup (attr_name <$> l) -> find_attribute name (rev l) = find_attribute name l.
Proof.
  intros Hnd. unfold find_attribute.
  destruct (List.find _ (rev l)) as [a|] eqn:E1, (List.find _ l) as [b|] eqn:E2; [| | |done].
  - apply List.find_some in E1 as [Ha Hna]. apply List.find_some in E2 as [Hb Hnb].
    apply in_rev in Ha. apply String.eqb_eq in Hna, Hnb. f_equal.
    apply list_elem_of_In, list_elem_of_lookup in Ha as [i Hi].
    apply list_elem_of_In, list_elem_of_lookup in Hb as [j Hj].
    assert (i = j) as ->; [|congruence]. eapply NoDup_lookup; [exact Hnd|..];
      rewrite list_lookup_fmap; [by rewrite Hi|]. rewrite Hj. cbn. congruence.
  - exfalso. apply List.find_some in E1 as [Ha Hna]. apply in_rev in Ha.
    pose proof (List.find_none _ _ E2 a Ha). congruence.
  - exfalso. apply List.find_some in E2 as [Hb Hnb]. apply in_rev in Hb.
    pose proof (List.find_none _ _ E1 b Hb). congruence.
Qed.

(** Properties of the built-in contracts by evaluation. *)
Lemma builtin_forall (f : yvex_ir_operation_definition -> bool) d :
  forallb f (concat (dia_operations <$> builtin_dialects)) = true ->
  d ∈ concat (dia_operations <$> builtin_dialects) -> f d = true.
Proof. intros H Hd. rewrite forallb_forall in H. by apply H, list_elem_of_In. Qed.

(** A call is checked by [core_call], a terminator by [core_return] or [core_yield]. *)
Definition calls_checked (d : yvex_ir_operation_definition) : bool :=
  implb (String.eqb (def_name d) "core.call") (bool_decide (def_verify d = Some V_core_call)).
Definition terminators_checked (d : yvex_ir_operation_definition) : bool :=
  (def_terminator d =? 0) || bool_decide (def_verify d = Some V_core_return)
  || bool_decide (def_verify d = Some V_core_yield).

Section Verified.
  Context (m : yvex_ir_module) (Hw : module_wf m) (Hbuiltin : native_dialects (m_dialects m))
    (alloc : allocator) (Hver : yvex_ir_verify alloc m = Done tt).

Lemma verified_ok i op : zget (m_operations m) i = Some op -> operation_ok m i.
  Proof.
    intros Hop. destruct (verify_trace alloc m Hver) as (ids & Hall & _ & Hok & _).
    rewrite Forall_forall in Hok. apply Hok, Hall. by eapply zget_Some_range.
  Qed.

Lemma definition_builtin i op :
    zget (m_operations m) i = Some op ->
    op_definition op ∈ concat (dia_operations <$> builtin_dialects).
  Proof. intros Hop. apply (native_definition _ _ Hbuiltin). by eapply op_admitted, (wf_operations _ _ Hw). Qed.

Lemma verified_attributes i op :
    zget (m_operations m) i = Some op ->
    Forall (fun a => ir_attribute_valid m a = true) (op_attributes op) /\
    NoDup (attr_name <$> op_attributes op) /\ zlen (op_attributes op) <= 256.
  Proof.
    intros Hop. destruct (verified_ok _ _ Hop) as (op' & _ & _ & _ & Hop' & _ & _ & _ & Ha & _).
    assert (op' = op) as -> by congruence. unfold ir_attributes_verify in Ha.
    apply andb_true_iff in Ha as [(Hv & Hnd & _)%attributes_conform_names _].
    split; [done|]. split; [done|].
    pose proof (op_attributes_arity _ _ _ (wf_operations _ _ Hw _ _ Hop)) as Har.
    pose proof (builtin_forall (fun d => zlen (def_attributes d) <=? 256) _
      ltac:(vm_compute; reflexivity) (definition_builtin _ _ Hop)) as H. cbv beta in H. lia.
  Qed.

Lemma verified_run i op v :
    zget (m_operations m) i = Some op -> def_verify (op_definition op) = Some v ->
    verifier_run v m i = Done tt.
  Proof.
    intros Hop Hv. destruct (verified_ok _ _ Hop)
      as (op' & _ & _ & _ & Hop' & _ & _ & _ & _ & _ & _ & _ & _ & (w & Hw' & Hrun) & _).
    assert (op' = op) as -> by congruence. congruence.
  Qed.

  (** The function a verified call resolves, with its arity. *)
Lemma verified_call i op :
    zget (m_operations m) i = Some op -> is_named "core.call" op = true ->
    exists a text target f body,
      find_attribute "callee" (op_attributes op) = Some a /\ value_text a = Done text /\
      yvex_ir_function_find m text = Some target /\
      zget (m_functions m) target = Some f /\ zget (m_blocks m) (f_body f) = Some body /\
      zlen (op_operands op) = zlen (b_arguments body) /\
      zlen (op_results op) = zlen (f_results f).
  Proof.
    intros Hop Hn. unfold is_named in Hn.
    pose proof (builtin_forall calls_checked _ ltac:(vm_compute; reflexivity)
      (definition_builtin _ _ Hop)) as Hd. unfold calls_checked in Hd. rewrite Hn in Hd. cbn in Hd.
    apply bool_decide_eq_true in Hd. pose proof (verified_run _ _ _ Hop Hd) as H. cbn in H.
    unfold core_call in H. apply bind_Done in H as (op' & Hop'%read_at_Done & H).
    assert (op' = op) as -> by congruence. unfold yvex_ir_attribute_get, yvex_ir_operation_at in H.
    rewrite Hop in H. destruct (find_attribute "callee" (op_attributes op)) as [a|] eqn:Ha; [|done].
    apply bind_Done in H as (target & Ht & H). apply bind_Done in Ht as (text & Htext & [= Ht]).
    destruct target as [target|]; [|done].
    apply bind_Done in H as (f & Hf%read_at_Done & H).
    apply bind_Done in H as (body & Hbody%read_at_Done & H).
    apply bind_Done in H as ([] & Hg%refuse_if_Done & _). bool_hyps.
    exists a, text, target, f, body. repeat split; try done; lia.
  Qed.

  (** The last operation of a function body returns its results. *)
Lemma verified_return i f body :
    zget (m_functions m) i = Some f -> zget (m_blocks m) (f_body f) = Some body ->
    exists fin, zget (m_operations m) (b_last_operation body) = Some fin /\
      zlen (op_operands fin) = zlen (f_results f).
  Proof.
    intros Hf Hbody. destruct (bodies_terminated _ _ _ _ Hver Hf) as (b & fin & Hb & Hlast & Hterm).
    assert (b = body) as -> by congruence. exists fin. split; [done|].
    destruct (functions_bodies _ (wf_functions _ _ Hw) _ _ Hf) as (b & Hb' & Hbf & Hpar).
    assert (b = body) as -> by congruence.
    assert (op_block fin = f_body f) as Hblock.
    { destruct (wf_chains _ _ Hw _ _ Hbody) as [_ Hl]. rewrite Hl in Hlast.
      destruct (last (block_ops (m_operations m) (f_body f))) as [j|] eqn:Ej.
      - apply last_Some_elem_of in Ej. cbn in Hlast.
        apply elem_of_block_ops in Ej as (o & Ho & Hob). congruence.
      - cbn in Hlast. apply zget_Some_range in Hlast.
        pose proof (storage_objects _ (wf_storage _ _ Hw)).
        unfold IR_OBJECT_LIMIT, YVEX_IR_NONE, UINT32_MAX in *. lia. }
    pose proof (builtin_forall terminators_checked _ ltac:(vm_compute; reflexivity)
      (definition_builtin _ _ Hlast)) as Hd. unfold terminators_checked in Hd.
    replace (def_terminator _ =? 0) with false in Hd by lia. cbn [orb] in Hd. apply orb_true_iff in Hd as [Hd|Hd]; apply bool_decide_eq_true in Hd;
      pose proof (verified_run _ _ _ Hlast Hd) as H; cbn in H.
    - unfold core_return in H. apply bind_Done in H as (o & Ho%read_at_Done & H).
      assert (o = fin) as -> by congruence. rewrite Hblock in H.
      apply bind_Done in H as (b' & Hb''%read_at_Done & H). assert (b' = body) as -> by congruence.
      apply bind_Done in H as (g & Hg%read_at_Done & H). rewrite Hbf in Hg.
      assert (g = f) as -> by congruence.
      apply bind_Done in H as ([] & Hr%refuse_if_Done & _). bool_hyps. lia.
    - unfold core_yield in H. apply bind_Done in H as (o & Ho%read_at_Done & H).
      assert (o = fin) as -> by congruence. rewrite Hblock in H.
      apply bind_Done in H as (b' & Hb''%read_at_Done & H). assert (b' = body) as -> by congruence.
      rewrite Hpar in H. unfold yvex_ir_operation_at in H. rewrite zget_None in H; [done|].
      pose proof (storage_objects _ (wf_storage _ _ Hw)).
      unfold IR_OBJECT_LIMIT, YVEX_IR_NONE, UINT32_MAX in *. lia.
  Qed.
End Verified.

(** ** What a granted constructor call creates *)

Lemma operation_created alloc b r m m' id :
  module_wf m -> yvex_ir_operation_add alloc b r m = (m', Done id) ->
  exists op, zget (m_operations m') id = Some op /\ zlen (op_results op) = zlen (req_result_types r).
Proof.
  intros Hw H. destruct (operation_add_cases alloc b r m Hw)
    as [(m1 & s & t & E & _)|(cap & block & d & E & _ & Hb & _)]; [congruence|].
  rewrite E in H. injection H as <- <-.
  destruct (links_operations _ _ (link_operation_links b (zlen (m_operations m)) block
    (operation_added cap b d r m) Hb) (zlen (m_operations m)) (added_operation b d r m)) as (op & Hop & [Hs _]).
  { unfold operation_added. cbn. apply zget_snoc_eq. }
  exists op. split; [done|]. destruct Hs as (_ & _ & _ & -> & _). cbn. apply zlen_new_ids, zlen_nonneg.
Qed.

Lemma region_created alloc o a m m' id :
  module_wf m -> yvex_ir_region_add alloc o a m = (m', Done id) ->
  exists b, zget (m_blocks m') id = Some b /\ zlen (b_arguments b) = zlen a.
Proof.
  intros Hw H. unfold yvex_ir_region_add in H. destruct (m_sealed m); [done|].
  destruct (zget (m_operations m) o) as [op|]; [|done].
  destruct (ir_types_present m a) as [[]| |]; try done.
  destruct (_ <=? _); [done|]. destruct (negb _); [done|].
  destruct (blocks_read m (op_block op)) as [owner| |]; [|done..].
  destruct (block_add_cases (after 1 alloc) (b_function owner) o a m)
    as [(m2 & s & r & Hba & _)|(c & Hba & _)]; [apply (wf_storage _ _ Hw)| |].
  { unfold mbind, so_bind in H. by rewrite Hba in H. }
  rewrite (so_bind_eq _ _ _ _ _ Hba) in H. cbv [so_modify mbind so_bind mret so_ret] in H.
  injection H as <- <-. eexists. cbn. split; [apply zget_snoc_eq|]. cbn. apply zlen_new_ids, zlen_nonneg.
Qed.

Lemma function_created alloc s a r e m m' id :
  module_wf m -> yvex_ir_function_add alloc s a r e m = (m', Done id) ->
  exists body b, m_functions m' = m_functions m ++ [mk_function s body r e] /\
    zget (m_blocks m') body = Some b /\ zlen (b_arguments b) = zlen a.
Proof.
  intros Hw H. unfold yvex_ir_function_add in H.
  destruct (or_else _ _) as [[]| |]; try done. cbn zeta in H.
  destruct (_ <? _); [done|]. destruct (_ && _); [done|].
  destruct (ir_reserve _ _ _ _) as [cap|]; [|done].
  match type of H with context [ir_block_add ?al ?f ?p ?ty ≫= _] =>
    destruct (block_add_cases al f p ty (set_capacities (with_cap_functions cap (m_capacities m)) m))
      as [(m2 & st & t & Hba & _)|(c & Hba & _)] end; [apply (wf_storage _ _ Hw)| |].
  { unfold mbind, so_bind in H. by rewrite Hba in H. }
  rewrite (so_bind_eq _ _ _ _ _ Hba) in H. cbv [so_modify mbind so_bind mret so_ret] in H.
  injection H as <- <-. do 2 eexists. cbn. split; [reflexivity|].
  split; [apply zget_snoc_eq|]. cbn. apply zlen_new_ids, zlen_nonneg.
Qed.

(** ** A safety logic for the rewriter *)

Section Safety.
  Context (m : yvex_ir_module) (Hw : module_wf m) (Hbuiltin : native_dialects (m_dialects m))
    (valloc : allocator) (Hver : yvex_ir_verify valloc m = Done tt).
  Context (heap : heaps) (live : option (list bool)) (aliases inline_calls : bool) (types : list Z).
  Context (Hlive : forall l, live = Some l -> zlen l = zlen (m_operations m)).

Definition rw_ok (s : ir_rewrite) : Prop :=
    zlen (rw_values s) = zlen (m_values m) /\ module_wf (rw_output s).

  (** The output only grows. *)
Definition evolves (s s' : ir_rewrite) : Prop :=
    grows (rw_output s) (rw_output s') /\
    m_functions (rw_output s) `prefix_of` m_functions (rw_output s').

Lemma evolves_refl s s' : rw_output s' = rw_output s -> evolves s s'.
  Proof. intros E. unfold evolves. rewrite E. split; [apply grows_refl|done]. Qed.

Lemma evolves_trans s1 s2 s3 : evolves s1 s2 -> evolves s2 s3 -> evolves s1 s3.
  Proof. intros [G1 P1] [G2 P2]. split; [by eapply grows_trans|by etrans]. Qed.

  (** No fault from [s], the invariant kept, and [Q] of a result. *)
Definition safe {A} (c : SO ir_rewrite A) (s : ir_rewrite) (Q : A -> ir_rewrite -> Prop) : Prop :=
    rw_ok (c s).1 /\ evolves s (c s).1 /\
    match (c s).2 with Done a => Q a (c s).1 | Refuse _ _ => True | Fault _ => False end.

Definition anything {A} (_ : A) (_ : ir_rewrite) : Prop := True.

Lemma rw_safe_bind {A B} (c : SO ir_rewrite A) (k : A -> SO ir_rewrite B) s P Q :
    safe c s P -> (forall a s1, rw_ok s1 -> evolves s s1 -> P a s1 -> safe (k a) s1 Q) ->
    safe (c ≫= k) s Q.
  Proof.
    unfold safe, mbind, so_bind. intros (Hok & Hev & H) Hk. destruct (c s) as [s1 [a| |]]; cbn in *.
    - destruct (Hk a s1 Hok Hev H) as (? & ? & ?). split; [done|]. split; [by eapply evolves_trans|done].
    - done.
    - done.
  Qed.

Lemma rw_safe_ret {A} (a : A) s (Q : A -> ir_rewrite -> Prop) : rw_ok s -> Q a s -> safe (mret a) s Q.
  Proof. intros. split; [done|]. split; [by apply evolves_refl|done]. Qed.

Lemma rw_safe_lift_bind {A B} (c : outcome A) (k : A -> SO ir_rewrite B) s Q :
    rw_ok s -> no_fault c -> (forall a, c = Done a -> safe (k a) s Q) -> safe (so_lift c ≫= k) s Q.
  Proof.
    intros Hs Hc Hk. apply (rw_safe_bind _ _ _ (fun a s1 => c = Done a /\ s1 = s)).
    - split; [done|]. split; [by apply evolves_refl|]. cbn. by destruct c.
    - intros a s1 _ _ [Ha ->]. by apply Hk.
  Qed.

Lemma rw_safe_get_bind {B} (k : ir_rewrite -> SO ir_rewrite B) s Q :
    rw_ok s -> safe (k s) s Q -> safe (so_get ≫= k) s Q.
  Proof. done. Qed.

Lemma rw_safe_refuse {A} st r s (Q : A -> ir_rewrite -> Prop) : rw_ok s -> safe (so_refuse st r) s Q.
  Proof. intros Hs. split; [done|]. split; [by apply evolves_refl|done]. Qed.

Lemma rw_safe_refuse_if b st r s : rw_ok s -> safe (so_refuse_if b st r) s anything.
  Proof. intros Hs. split; [done|]. split; [by apply evolves_refl|]. by destruct b. Qed.

Lemma rw_safe_alloc s : rw_ok s -> safe (rw_alloc heap) s anything.
  Proof. intros Hs. split; [done|]. split; [by apply evolves_refl|done]. Qed.

Lemma rw_safe_each {A} (f : A -> SO ir_rewrite unit) l s :
    rw_ok s -> (forall x s1, x ∈ l -> rw_ok s1 -> evolves s s1 -> safe (f x) s1 anything) ->
    safe (so_each f l) s anything.
  Proof.
    revert s. induction l as [|x l IH]; intros s Hs Hf; cbn [so_each]; [by apply rw_safe_ret|].
    eapply rw_safe_bind; [apply Hf; [set_solver|done|by apply evolves_refl]|].
    intros _ s1 Hs1 Hev _. apply IH; [done|]. intros y s2 Hy Hs2 Hev2.
    apply Hf; [set_solver|done|by eapply evolves_trans].
  Qed.

Lemma rw_safe_write dst v s : rw_ok s -> 0 <= dst < zlen (m_values m) -> safe (rw_write dst v) s anything.
  Proof.
    intros [Hl Hwf] Hd. unfold safe, rw_write. rewrite Hl.
    replace ((0 <=? dst) && (dst <? zlen (m_values m))) with true by lia. cbn.
    split; [split; cbn; [by autorewrite with zlen|done]|]. split; [by apply evolves_refl|done].
  Qed.

Lemma rw_safe_read src s : rw_ok s -> 0 <= src < zlen (m_values m) -> safe (rw_read src) s anything.
  Proof.
    intros Hs Hd. unfold rw_read. apply rw_safe_get_bind; [done|].
    split; [done|]. split; [by apply evolves_refl|]. cbn. unfold read_at.
    destruct (zget_in (rw_values s) src) as [v ->]; [|done]. destruct Hs as [-> _]. done.
  Qed.

Lemma rw_safe_copy dst src s :
    rw_ok s -> 0 <= dst < zlen (m_values m) -> 0 <= src < zlen (m_values m) ->
    safe (rw_copy dst src) s anything.
  Proof.
    intros Hs Hd Hsrc. eapply rw_safe_bind; [by apply rw_safe_read|]. intros v s1 Hs1 _ _. by apply rw_safe_write.
  Qed.

Definition in_values (l : list Z) : Prop := Forall (fun v => 0 <= v < zlen (m_values m)) l.

Lemma in_values_get l i v : in_values l -> zget l i = Some v -> 0 <= v < zlen (m_values m).
  Proof. unfold in_values. rewrite Forall_forall. intros H Hv. apply H. by eapply zget_elem_of. Qed.

Lemma rw_safe_copies dst src s :
    rw_ok s -> in_values dst -> in_values src -> zlen dst <= zlen src ->
    safe (rw_copies dst src) s anything.
  Proof.
    intros Hs Hd Hsrc Hlen. apply rw_safe_each; [done|]. intros i s1 Hi%elem_of_zseq Hs1 _.
    apply rw_safe_lift_bind; [done|apply no_fault_read_at; lia|]. intros d Hdi%read_at_Done.
    apply rw_safe_lift_bind; [done|apply no_fault_read_at; lia|]. intros v Hvi%read_at_Done.
    apply rw_safe_copy; [done|exact (in_values_get _ _ _ Hd Hdi)|exact (in_values_get _ _ _ Hsrc Hvi)].
  Qed.

Lemma rw_safe_construct c s :
    rw_ok s -> ir_call_machine c ->
    safe (rw_construct heap c) s (fun id s' =>
      ir_run (heap (rw_clock s)) c (rw_output s) = (rw_output s', Done id)).
  Proof.
    intros [Hl Hwf] Hc. unfold safe, rw_construct.
    pose proof (ir_run_post (heap (rw_clock s)) c _ Hwf Hc) as (Hwf' & Hg & Hp).
    destruct (ir_run_functions (heap (rw_clock s)) c (rw_output s)) as (added & Hf & _).
    destruct (ir_run (heap (rw_clock s)) c (rw_output s)) as [out [id| |]]; cbn in *; [| |done];
      (split; [done|]); (split; [|done]); (split; [done|]); cbn; rewrite Hf; by eexists.
  Qed.

  (** ** The rewriter is safe *)

Lemma value_typed_in v : 0 <= v < zlen (m_values m) ->
    exists value, zget (m_values m) v = Some value /\ 0 <= v_type value < zlen (m_types m).
  Proof.
    intros Hv. destruct (zget_in _ _ Hv) as [value Hval]. exists value. split; [done|].
    by apply (wf_values _ _ Hw) in Hval as [? _].
  Qed.

Lemma results_in_values i op : zget (m_operations m) i = Some op -> in_values (op_results op).
  Proof.
    intros Hop. apply Forall_forall. intros r [k Hk]%elem_of_zget.
    destruct (op_results_owned _ _ _ (wf_operations _ _ Hw _ _ Hop) _ _ Hk) as (v & Hv & _).
    by eapply zget_Some_range.
  Qed.

Lemma arguments_in_values i b : zget (m_blocks m) i = Some b -> in_values (b_arguments b).
  Proof.
    intros Hb. apply Forall_forall. intros r [k Hk]%elem_of_zget.
    destruct (b_arguments_owned _ _ _ _ (wf_blocks _ _ Hw _ _ Hb) _ _ Hk) as (v & Hv & _).
    by eapply zget_Some_range.
  Qed.

Lemma operands_in_values i op : zget (m_operations m) i = Some op -> in_values (op_operands op).
  Proof. intros Hop. apply (op_operands_in _ _ _ (wf_operations _ _ Hw _ _ Hop)). Qed.

  Section Blocks.
    Hypothesis Htypes : zlen types = zlen (m_types m).

Lemma rw_types_safe l : in_values l -> no_fault (mapO (rw_type m types) l).
    Proof.
      intros Hl. apply no_fault_mapO. intros v Hv. unfold in_values in Hl.
      rewrite Forall_forall in Hl. destruct (value_typed_in v (Hl v Hv)) as (value & Hval & Ht).
      unfold rw_type, values_read.
      apply no_fault_bind; [apply no_fault_read_at; by eapply zget_Some_range|].
      intros value' Hval'%read_at_Done. simplify_eq. apply no_fault_read_at. lia.
    Qed.

Lemma rw_safe_map_read l s : rw_ok s -> in_values l -> safe (so_map rw_read l) s anything.
    Proof.
      revert s. induction l as [|v l IH]; intros s Hs Hl; cbn [so_map]; [by apply rw_safe_ret|].
      apply Forall_cons in Hl as [Hv Hl]. eapply rw_safe_bind; [by apply rw_safe_read|].
      intros y s1 Hs1 _ _. eapply rw_safe_bind; [by apply IH|]. intros ys s2 Hs2 _ _. by apply rw_safe_ret.
    Qed.

Lemma rw_safe_request i op s :
      rw_ok s -> zget (m_operations m) i = Some op ->
      safe (rewrite_request m types op) s (fun r _ => zlen (req_result_types r) = zlen (op_results op)).
    Proof.
      intros Hs Hop. unfold rewrite_request.
      eapply rw_safe_bind; [apply rw_safe_map_read; [done|by eapply operands_in_values]|].
      intros operands s1 Hs1 _ _.
      apply rw_safe_lift_bind; [done|by eapply rw_types_safe, results_in_values|]. intros rt Hrt.
      destruct (verified_attributes m Hw Hbuiltin valloc Hver _ _ Hop) as (Hv & _ & Hlen).
      apply rw_safe_lift_bind; [done| |].
      { replace (256 <? zlen (op_attributes op)) with false by lia. apply no_fault_mapO. intros a Ha.
        rewrite Forall_forall in Hv. specialize (Hv a Ha). unfold ir_attribute_valid in Hv.
        unfold rewrite_attribute. destruct (attr_value a); try done. bool_hyps.
        apply no_fault_bind; [apply no_fault_read_at; lia|done]. }
      intros at' _. apply rw_safe_ret; [done|]. cbn. by apply mapO_length in Hrt.
    Qed.

    (** A nested rewrite may start when its target block has room for the arguments. *)
Definition target_fits (source target : Z) (inlined : bool) (s : ir_rewrite) : Prop :=
      exists b, zget (m_blocks m) source = Some b /\
        (inlined = false -> exists b', zget (m_blocks (rw_output s)) target = Some b' /\
           zlen (b_arguments b') = zlen (b_arguments b)).

Definition rw_safe_recursion (recurse : Z -> Z -> bool -> SO ir_rewrite unit) : Prop :=
      forall source target inlined s, rw_ok s -> target_fits source target inlined s ->
        safe (recurse source target inlined) s anything.

Lemma rw_safe_region recurse created source s :
      rw_safe_recursion recurse -> rw_ok s -> 0 <= source < zlen (m_blocks m) ->
      safe (rewrite_region heap m types recurse created source) s anything.
    Proof.
      intros Hrec Hs Hsrc. destruct (zget_in _ _ Hsrc) as [b Hb]. unfold rewrite_region.
      apply rw_safe_lift_bind; [done|by apply no_fault_read_at|]. intros b' Hb'%read_at_Done.
      assert (b' = b) as -> by congruence.
      eapply rw_safe_bind; [by apply rw_safe_alloc|]. intros al s1 Hs1 _ _.
      eapply rw_safe_bind; [by apply rw_safe_refuse_if|]. intros _ s2 Hs2 _ _.
      apply rw_safe_lift_bind; [done|by eapply rw_types_safe, arguments_in_values|]. intros args Hargs.
      eapply rw_safe_bind; [by apply rw_safe_construct|]. intros body s3 Hs3 _ Hrun. cbn in Hrun.
      apply region_created in Hrun as (b' & Hb'' & Hlen); [|apply Hs2].
      apply Hrec; [done|]. exists b. split; [done|]. intros _. exists b'. split; [done|].
      apply mapO_length in Hargs. congruence.
    Qed.

Lemma rw_safe_rewrite_copy recurse i op target s :
      rw_safe_recursion recurse -> rw_ok s -> zget (m_operations m) i = Some op ->
      safe (rewrite_copy heap m types recurse op target) s anything.
    Proof.
      intros Hrec Hs Hop. unfold rewrite_copy.
      eapply rw_safe_bind; [by apply rw_safe_alloc|]. intros al s1 Hs1 _ _.
      eapply rw_safe_bind; [by apply rw_safe_refuse_if|]. intros _ s2 Hs2 _ _.
      eapply rw_safe_bind; [by eapply rw_safe_request|]. intros r s3 Hs3 _ Hr. cbn in Hr.
      eapply rw_safe_bind; [by apply rw_safe_construct|]. intros created s4 Hs4 _ Hrun. cbn in Hrun.
      apply operation_created in Hrun as (copy & Hcopy & Hlen); [|apply Hs3].
      apply rw_safe_get_bind; [done|].
      apply rw_safe_lift_bind; [done|apply no_fault_read_at; by eapply zget_Some_range|].
      intros copy' Hcopy'%read_at_Done. assert (copy' = copy) as -> by congruence.
      eapply rw_safe_bind.
      { apply rw_safe_each; [done|]. intros k s5 Hk%elem_of_zseq Hs5 _.
        apply rw_safe_lift_bind; [done|apply no_fault_read_at; lia|]. intros d Hd%read_at_Done.
        apply rw_safe_lift_bind; [done|apply no_fault_read_at; lia|]. intros v _.
        apply rw_safe_write; [done|]. eapply in_values_get; [by eapply results_in_values|done]. }
      intros _ s5 Hs5 _ _. apply rw_safe_each; [done|]. intros x s6 [k Hk]%elem_of_zget Hs6 _.
      apply rw_safe_region; [done..|].
      destruct (op_regions_owned _ _ _ (wf_operations _ _ Hw _ _ Hop) _ _ Hk) as (b & _ & Hb & _).
      by eapply zget_Some_range.
    Qed.

Lemma rw_safe_call recurse i op target s :
      rw_safe_recursion recurse -> rw_ok s -> zget (m_operations m) i = Some op ->
      is_named "core.call" op = true -> safe (ir_rewrite_call m recurse op target) s anything.
    Proof.
      intros Hrec Hs Hop Hn.
      destruct (verified_call m Hw Hbuiltin valloc Hver _ _ Hop Hn)
        as (a & text & g & f & body & Ha & Htext & Hfind & Hf & Hbody & Hargs & Hres).
      destruct (verified_attributes m Hw Hbuiltin valloc Hver _ _ Hop) as (_ & Hnd & _).
      unfold ir_rewrite_call, last_callee. rewrite find_attribute_rev, Ha, Htext by done. cbn [mbind outcome_bind].
      rewrite Hfind. apply rw_safe_lift_bind; [done..|]. intros r [= <-].
      apply rw_safe_lift_bind; [done|apply no_fault_read_at; by eapply zget_Some_range|].
      intros f' Hf'%read_at_Done. assert (f' = f) as -> by congruence.
      apply rw_safe_lift_bind; [done|apply no_fault_read_at; by eapply zget_Some_range|].
      intros b' Hb'%read_at_Done. assert (b' = body) as -> by congruence.
      eapply rw_safe_bind; [apply rw_safe_copies; [done|by eapply arguments_in_values|by eapply operands_in_values|lia]|].
      intros _ s1 Hs1 _ _. eapply rw_safe_bind; [apply Hrec; [done|]; by exists body|].
      intros _ s2 Hs2 _ _.
      destruct (verified_return m Hw Hbuiltin valloc Hver _ _ _ Hf Hbody) as (fin & Hfin & Hlen).
      apply rw_safe_lift_bind; [done|apply no_fault_read_at; by eapply zget_Some_range|].
      intros fin' Hfin'%read_at_Done. assert (fin' = fin) as -> by congruence.
      apply rw_safe_copies; [done|by eapply results_in_values|by eapply operands_in_values|lia].
    Qed.

    (** [core.identity] has one operand and one result. *)
Definition identity_arity (d : yvex_ir_operation_definition) : bool :=
      implb (String.eqb (def_name d) "core.identity")
        ((1 <=? def_minimum_operands d) && (1 <=? def_minimum_results d)).

Lemma rw_safe_operation recurse i target inlined s :
      rw_safe_recursion recurse -> rw_ok s -> 0 <= i < zlen (m_operations m) ->
      safe (rewrite_operation heap m live aliases inline_calls types recurse i target inlined) s anything.
    Proof.
      intros Hrec Hs Hi. destruct (zget_in _ _ Hi) as [op Hop]. unfold rewrite_operation.
      apply rw_safe_lift_bind; [done|by apply no_fault_read_at|]. intros op' Hop'%read_at_Done.
      assert (op' = op) as -> by congruence.
      apply rw_safe_lift_bind; [done| |].
      { unfold is_dead. destruct live as [l|]; [|done].
        apply no_fault_bind; [|done]. apply no_fault_read_at. by rewrite (Hlive l eq_refl). }
      intros dead _. destruct dead; [by apply rw_safe_ret|].
      destruct (inlined && _); [by apply rw_safe_ret|].
      destruct (inline_calls && _) eqn:Ec.
      { apply andb_true_iff in Ec as [_ Ec]. by eapply rw_safe_call. }
      destruct (aliases && _) eqn:Ea; [|by eapply rw_safe_rewrite_copy].
      apply andb_true_iff in Ea as [_ Ea]. unfold is_named in Ea.
      pose proof (builtin_forall identity_arity _ ltac:(vm_compute; reflexivity)
        (definition_builtin m Hw Hbuiltin _ _ Hop)) as Hd.
      unfold identity_arity in Hd. rewrite Ea in Hd. cbn [implb] in Hd. bool_hyps.
      pose proof (op_operands_arity _ _ _ (wf_operations _ _ Hw _ _ Hop)).
      pose proof (op_results_arity _ _ _ (wf_operations _ _ Hw _ _ Hop)).
      apply rw_safe_lift_bind; [done|apply no_fault_read_at; lia|]. intros r Hr%read_at_Done.
      apply rw_safe_lift_bind; [done|apply no_fault_read_at; lia|]. intros v Hv%read_at_Done.
      apply rw_safe_copy; [done|eapply in_values_get; [by eapply results_in_values|done]|].
      eapply in_values_get; [by eapply operands_in_values|done].
    Qed.

Lemma rw_safe_chain fuel recurse target inlined i l s :
      rw_safe_recursion recurse -> rw_ok s -> linked (m_operations m) i l -> (length l < fuel)%nat ->
      safe (rewrite_chain heap m live aliases inline_calls types fuel recurse target inlined i) s anything.
    Proof.
      intros Hrec Hs Hl. revert fuel s Hs. induction Hl as [|i op l Hop Hl IH]; intros fuel s Hs Hlt.
      { destruct fuel; [cbn in Hlt; lia|]. cbn [rewrite_chain]. by apply rw_safe_ret. }
      destruct fuel as [|fuel]; [cbn in Hlt; lia|]. cbn [rewrite_chain].
      destruct (i =? YVEX_IR_NONE); [by apply rw_safe_ret|].
      eapply rw_safe_bind; [apply rw_safe_operation; [done..|]; by eapply zget_Some_range|].
      intros _ s1 Hs1 _ _.
      apply rw_safe_lift_bind; [done|apply no_fault_read_at; by eapply zget_Some_range|].
      intros op' Hop'%read_at_Done. assert (op' = op) as -> by congruence.
      apply IH; [done|]. cbn in Hlt. lia.
    Qed.

Lemma rw_safe_block fuel :
      rw_safe_recursion (ir_rewrite_block heap m live aliases inline_calls types fuel).
    Proof.
      induction fuel as [|fuel IH]; intros source target inlined s Hs (b & Hb & Hfit);
        cbn [ir_rewrite_block]; [by apply rw_safe_refuse|].
      apply rw_safe_lift_bind; [done|apply no_fault_read_at; by eapply zget_Some_range|].
      intros b' Hb'%read_at_Done. assert (b' = b) as -> by congruence.
      eapply (rw_safe_bind _ _ _ anything).
      { destruct inlined; [by apply rw_safe_ret|]. destruct Hfit as (t & Ht & Hlen); [done|].
        apply rw_safe_each; [done|]. intros k s1 Hk%elem_of_zseq Hs1 [Hg _]. apply rw_safe_get_bind; [done|].
        destruct (grows_blocks _ _ Hg _ _ Ht) as (t' & Ht' & _ & _ & Hargs).
        apply rw_safe_lift_bind; [done|apply no_fault_read_at; by eapply zget_Some_range|].
        intros t'' Ht''%read_at_Done. assert (t'' = t') as -> by congruence.
        apply rw_safe_lift_bind; [done|apply no_fault_read_at; lia|]. intros a Ha%read_at_Done.
        apply rw_safe_lift_bind; [done|apply no_fault_read_at; rewrite Hargs; lia|]. intros v _.
        apply rw_safe_write; [done|]. eapply in_values_get; [by eapply arguments_in_values|done]. }
      intros _ s1 Hs1 _ _. destruct (wf_chains _ _ Hw _ _ Hb) as [Hlink _].
      eapply rw_safe_chain; [done..|]. by apply chain_length.
    Qed.
  End Blocks.

  (** *** Types *)

Lemma rewrite_members_safe id t (done_types : list Z) :
    zget (m_types m) id = Some t -> zlen done_types = id -> no_fault (rewrite_members done_types t).
  Proof.
    intros Ht Hlen. pose proof (types_valid _ (wf_types _ _ Hw) _ _ Ht) as Hv.
    pose proof (types_ordered _ (wf_types _ _ Hw) _ _ Ht) as Hm.
    unfold rewrite_members. unfold yvex_ir_type_valid in Hv.
    destruct (_ || _) eqn:E in Hv; [done|]. bool_hyps.
    replace (YVEX_IR_AGGREGATE_CAP <? ty_member_count t) with false by lia.
    apply no_fault_bind; [|done]. apply no_fault_mapO. intros k Hk%elem_of_zseq.
    destruct ((0 <=? k) && (k <? ty_member_count t)) eqn:Ek; [|done]. apply no_fault_read_at.
    destruct ((ty_kind t =? YVEX_IR_TUPLE) || (ty_kind t =? YVEX_IR_PROGRAM)) eqn:Ekind.
    - rewrite Hlen. apply Hm; [|lia]. lia.
    - destruct (_ || _) eqn:Eg in Hv; [done|]. bool_hyps. lia.
  Qed.

Lemma type_machine id t l t' :
    zget (m_types m) id = Some t -> rewrite_members l t = Done t' -> ir_call_machine (CallType t').
  Proof.
    intros Ht H. cbn. unfold rewrite_members in H. apply bind_Done in H as (l' & _ & H).
    destruct (_ <? _); [done|]. injection H as <-. cbn.
    pose proof (types_ranked _ (wf_types _ _ Hw) _ _ Ht).
    pose proof (types_valid _ (wf_types _ _ Hw) _ _ Ht) as Hv.
    unfold yvex_ir_type_valid in Hv. destruct (_ || _) eqn:E in Hv; [done|]. bool_hyps.
    unfold is_u32, YVEX_IR_RANK_CAP in *. lia.
  Qed.

Lemma rw_safe_types input (done_types : list Z) s :
    rw_ok s -> (forall i t, zget input i = Some t -> zget (m_types m) (zlen done_types + i) = Some t) ->
    safe (rewrite_types heap input done_types) s (fun l _ => zlen l = zlen done_types + zlen input).
  Proof.
    revert done_types s. induction input as [|t input IH]; intros l s Hs Hin; cbn [rewrite_types].
    { apply rw_safe_ret; [done|]. rewrite zlen_nil. lia. }
    assert (zget (m_types m) (zlen l) = Some t) as Ht.
    { rewrite <- (Z.add_0_r (zlen l)). by apply Hin. }
    apply rw_safe_lift_bind; [done|by eapply rewrite_members_safe|]. intros t' Ht'.
    eapply rw_safe_bind; [apply rw_safe_construct; [done|by eapply type_machine]|].
    intros id s1 Hs1 _ _. pose proof (IH (l ++ [id]) s1 Hs1) as H.
    autorewrite with zlen in H |- *. replace (zlen l + (zlen input + 1)) with (zlen l + (0 + 1) + zlen input) by lia.
    apply H. intros i u Hu. rewrite <- Z.add_assoc. apply Hin.
    pose proof (zget_Some_range _ _ _ Hu). replace (0 + 1 + i) with (i + 1) by lia.
    rewrite zget_cons_succ by lia. done.
  Qed.

  (** *** Functions *)

  (** The first [k] functions have been declared with their arity. *)
Definition signed (k : Z) (s : ir_rewrite) : Prop :=
    zlen (m_functions (rw_output s)) = k /\
    forall i f, i < k -> zget (m_functions m) i = Some f ->
      exists f' b b', zget (m_functions (rw_output s)) i = Some f' /\
        zget (m_blocks m) (f_body f) = Some b /\
        zget (m_blocks (rw_output s)) (f_body f') = Some b' /\
        zlen (b_arguments b') = zlen (b_arguments b).

Lemma evolves_function s s' i f :
    evolves s s' -> zget (m_functions (rw_output s)) i = Some f ->
    zget (m_functions (rw_output s')) i = Some f.
  Proof. intros [_ [l Hl]] Hf. rewrite Hl. by apply zget_app_Some. Qed.

Lemma evolves_arguments s s' i b :
    evolves s s' -> zget (m_blocks (rw_output s)) i = Some b ->
    exists b', zget (m_blocks (rw_output s')) i = Some b' /\ b_arguments b' = b_arguments b.
  Proof. intros [Hg _] Hb. destruct (grows_blocks _ _ Hg _ _ Hb) as (b' & Hb' & _ & _ & Ha). eauto. Qed.

  Section Functions.
    Hypothesis Htypes : zlen types = zlen (m_types m).

Lemma rw_safe_signature i f s :
      rw_ok s -> signed i s -> zget (m_functions m) i = Some f ->
      safe (rewrite_signature heap m types f) s (fun _ s' => signed (i + 1) s').
    Proof.
      intros Hs Hsig Hf. unfold rewrite_signature.
      destruct (functions_bodies _ (wf_functions _ _ Hw) _ _ Hf) as (b & Hb & _).
      pose proof (functions_results _ (wf_functions _ _ Hw) _ _ Hf) as Hres.
      apply rw_safe_lift_bind; [done|apply no_fault_read_at; by eapply zget_Some_range|].
      intros b' Hb'%read_at_Done. assert (b' = b) as -> by congruence.
      apply (rw_safe_bind _ _ _ (fun _ s1 => signed i s1)).
      { split; [done|]. split; [by apply evolves_refl|done]. }
      intros al s1 Hs1 _ Hsig1. unfold so_refuse_if.
      apply rw_safe_lift_bind; [done|by apply no_fault_refuse_if|]. intros _ _.
      apply rw_safe_lift_bind; [done|by eapply rw_types_safe, arguments_in_values|]. intros args Hargs.
      apply rw_safe_lift_bind; [done| |].
      { apply no_fault_mapO. intros t Ht. rewrite Forall_forall in Hres. apply no_fault_read_at.
        rewrite Htypes. by apply Hres. }
      intros results _. eapply rw_safe_bind; [by apply rw_safe_construct|].
      intros id s2 Hs2 Hev Hrun. cbn in Hrun. apply rw_safe_ret; [done|].
      apply function_created in Hrun as (body & nb & Hfs & Hnb & Hlen); [|apply Hs1].
      destruct Hsig1 as [Hl Hsig1]. split; [rewrite Hfs; autorewrite with zlen; lia|].
      intros j g Hj Hg. destruct (decide (j < i)) as [Hlt|Hge].
      - destruct (Hsig1 j g Hlt Hg) as (g' & c & c' & Hg' & Hc & Hc' & Hca).
        destruct (evolves_arguments _ _ _ _ Hev Hc') as (c2 & Hc2 & Ha2).
        exists g', c, c2. split; [by eapply evolves_function|]. split; [done|]. split; [done|congruence].
      - assert (j = i) as -> by lia. assert (g = f) as -> by congruence.
        exists (mk_function (f_symbol f) body results (f_effects f)), b, nb. rewrite Hfs, <- Hl.
        split; [apply zget_snoc_eq|]. split; [done|]. split; [done|].
        apply mapO_length in Hargs. congruence.
    Qed.

Lemma rw_safe_signatures k fs s :
      rw_ok s -> signed k s -> (forall i f, zget fs i = Some f -> zget (m_functions m) (k + i) = Some f) ->
      safe (so_each (rewrite_signature heap m types) fs) s (fun _ s' => signed (k + zlen fs) s').
    Proof.
      revert k s. induction fs as [|f fs IH]; intros k s Hs Hsig Hin; cbn [so_each].
      { apply rw_safe_ret; [done|]. by rewrite zlen_nil, Z.add_0_r. }
      eapply rw_safe_bind; [apply (rw_safe_signature k); [done..|]; rewrite <- (Z.add_0_r k); by apply Hin|].
      intros u s1 Hs1 _ Hsig1. autorewrite with zlen.
      replace (k + (zlen fs + 1)) with (k + 1 + zlen fs) by lia. apply IH; [done..|].
      intros i g Hg. rewrite <- Z.add_assoc. apply Hin. pose proof (zget_Some_range _ _ _ Hg).
      rewrite Z.add_comm, zget_cons_succ by lia. done.
    Qed.

Lemma rw_safe_functions s :
      rw_ok s -> m_functions (rw_output s) = [] ->
      safe (ir_rewrite_functions heap m live aliases inline_calls types) s anything.
    Proof.
      intros Hs Hnil. unfold ir_rewrite_functions. eapply rw_safe_bind.
      { apply (rw_safe_signatures 0); [done| |by intros].
        split; [by rewrite Hnil|]. intros i f Hi Hf. apply zget_Some_range in Hf. lia. }
      intros _ s1 Hs1 _ [Hl Hsig]. apply rw_safe_each; [done|].
      intros i s2 Hi%elem_of_zseq Hs2 Hev. unfold rewrite_body.
      destruct (zget_in _ _ Hi) as [f Hf].
      destruct (Hsig i f ltac:(lia) Hf) as (f' & b & b' & Hf' & Hb & Hb' & Hlen).
      apply rw_safe_lift_bind; [done|by apply no_fault_read_at|]. intros g Hg%read_at_Done.
      assert (g = f) as -> by congruence. apply rw_safe_get_bind; [done|].
      pose proof (evolves_function _ _ _ _ Hev Hf') as Hf2.
      apply rw_safe_lift_bind; [done|apply no_fault_read_at; by eapply zget_Some_range|].
      intros g Hg'%read_at_Done. assert (g = f') as -> by congruence.
      apply rw_safe_block; [done..|]. exists b. split; [done|]. intros _.
      destruct (evolves_arguments _ _ _ _ Hev Hb') as (b2 & Hb2 & Ha2). exists b2. split; [done|congruence].
    Qed.
  End Functions.
End Safety.

(** ** Passes *)

Lemma seal_safe alloc grow m :
  ir_reachable m -> native_dialects (m_dialects m) -> no_fault (yvex_ir_seal alloc grow m).2.
Proof.
  intros Hr Hb. unfold yvex_ir_seal. destruct (m_sealed m); [done|].
  pose proof (print_spec alloc grow m seal_arena Hr Hb) as Hp.
  destruct (yvex_ir_print alloc grow m seal_arena) as [bytes [u|s r|f]]; [|done..].
  by destruct (ir_identity_digest (bytes_data bytes)).
Qed.

Lemma build_safe m valloc heap live aliases inline_calls s :
  module_wf m -> native_dialects (m_dialects m) -> yvex_ir_verify valloc m = Done tt ->
  (forall l, live = Some l -> zlen l = zlen (m_operations m)) ->
  rw_ok m s -> m_functions (rw_output s) = [] ->
  no_fault (rewrite_build heap m live aliases inline_calls s).2.
Proof.
  intros Hw Hb Hver Hlive Hs Hnil.
  cut (safe m (rewrite_build heap m live aliases inline_calls) s anything).
  { intros (_ & _ & H). unfold no_fault. by destruct (rewrite_build _ _ _ _ _ s).2. }
  unfold rewrite_build. set (nofn := fun s1 : ir_rewrite => m_functions (rw_output s1) = []).
  assert (forall c s1, rw_ok m s1 -> nofn s1 -> ir_call_machine c ->
    match c with CallFunction _ _ _ _ => False | _ => True end ->
    safe m (rw_construct heap c) s1 (fun _ s2 => nofn s2)) as Hcon.
  { intros c s1 Hs1 Hn Hc Hnf. destruct (rw_safe_construct m heap c s1 Hs1 Hc) as (H1 & H2 & H3).
    split; [done|]. split; [done|]. destruct (rw_construct heap c s1) as [s2 [id| |]]; cbn in *; [|done..].
    destruct (ir_run_functions (heap (rw_clock s1)) c (rw_output s1)) as (added & Ha & Hadd).
    rewrite H3 in Ha. cbn in Ha. unfold nofn in *. rewrite Ha, Hn. by destruct c. }
  apply (rw_safe_bind _ _ _ _ (fun _ s1 => nofn s1)).
  { split; [done|]. split; [by apply evolves_refl|done]. }
  intros al s1 Hs1 _ Hn1. unfold so_refuse_if.
  apply rw_safe_lift_bind; [done|by apply no_fault_refuse_if|]. intros _ _.
  apply (rw_safe_bind _ _ _ _ (fun _ s2 => nofn s2)).
  { destruct (wf_dimensions _ _ Hw) as [Hall _]. clear Hs Hnil. revert s1 Hs1 Hn1.
    induction Hall as [|d ds Hd _ IH]; intros s1 Hs1 Hn1; cbn [so_each]; [by apply rw_safe_ret|].
    apply (rw_safe_bind _ _ _ _ (fun _ s2 => nofn s2)); [|intros _ s2 Hs2 _ Hn2; by apply IH].
    eapply rw_safe_bind; [apply Hcon; [done..| |done]|intros id s2 Hs2 _ Hn2; by apply rw_safe_ret].
    destruct Hd as (_ & Hmin & Hmax & Hmul & Hmod & _). cbn.
    assert (dim_multiple d <= dim_minimum d).
    { apply Z.mod_divide in Hmod; [|lia]. apply Z.divide_pos_le in Hmod; lia. }
    unfold is_u64 in *. lia. }
  intros _ s2 Hs2 _ Hn2.
  pose proof (rw_safe_types m Hw heap (m_types m) [] s2 Hs2 ltac:(by intros)) as Ht.
  apply (rw_safe_bind _ _ _ _ (fun l s3 => zlen l = zlen (m_types m) /\ nofn s3)).
  { destruct Ht as (H1 & H2 & H3). split; [done|]. split; [done|].
    destruct (rewrite_types heap (m_types m) [] s2) as [s3 [l| |]] eqn:E; cbn in *; [|done..].
    rewrite zlen_nil in H3. split; [lia|].
    refine (keeps_Done (fun out => m_functions out = []) _ _ _ _ (types_keeps _ _ _ _ _) E Hn2).
    intros alc t out Hout. destruct (ir_run_functions alc (CallType t) out) as (ad & -> & ->).
    by rewrite Hout. }
  intros types s3 Hs3 _ [Hlen Hn3]. by eapply rw_safe_functions.
Qed.

Lemma rewrite_safe heap m live aliases inline_calls :
  ir_reachable m -> native_dialects (m_dialects m) ->
  (forall l, live = Some l -> zlen l = zlen (m_operations m)) ->
  no_fault (ir_rewrite_module heap m live aliases inline_calls).
Proof.
  intros Hr Hb Hlive. pose proof (reachable_wf _ Hr) as Hw. unfold ir_rewrite_module.
  apply no_fault_bind; [by apply verify_no_fault|]. intros [] Hver.
  apply no_fault_bind.
  { unfold yvex_ir_module_open. destruct (_ || _); [done|]. by destruct (negb _). }
  intros out Hopen. set (s0 := mk_rewrite _ _ _).
  assert (built m live aliases inline_calls out /\ m_functions out = []) as [Hbuilt Hnil].
  { pose proof (reach_open _ _ _ _ _ Hopen) as Hro. unfold yvex_ir_module_open in Hopen.
    destruct (_ || _); [done|]. destruct (negb _); [done|]. injection Hopen as <-.
    split; [|done]. constructor; [done..|]. intros i op. cbn. by rewrite zget_nil. }
  assert (no_fault (rewrite_build heap m live aliases inline_calls s0).2) as Hnf.
  { eapply build_safe; try done. split; [cbn; by autorewrite with zlen|].
    apply reachable_wf, Hbuilt. }
  pose proof (built_build m live aliases inline_calls Hr Hb heap s0 Hbuilt) as Hend.
  unfold mbind at 1, so_bind at 1.
  destruct (rewrite_build heap m live aliases inline_calls s0) as [s1 [[]| |]]; cbn in *; [|done..].
  destruct Hend as [Hr1 _ Ho _]. unfold rw_seal.
  pose proof (seal_safe (heap (rw_clock s1)) (heap (S (rw_clock s1))) (rw_output s1) Hr1) as Hseal.
  destruct (yvex_ir_seal _ _ (rw_output s1)) as [sealed [u| |]]; cbn in *; [done..|].
  apply Hseal. by eapply origin_native.
Qed.

(** C36: The three passes are memory safe: on every module a client can build
    over any selection of the built-in dialects, in any order, and under every
    allocator, each of them publishes a module or refuses with a
    status; none reads outside the input, the live set or its value and type
    maps, and none runs out of the nesting or chain bounds. *)
Theorem passes_total heap m :
  ir_reachable m -> native_dialects (m_dialects m) ->
  no_fault (ir_canonicalize heap m) /\ no_fault (ir_inline_calls heap m) /\
  no_fault (ir_dead_code heap m).
Proof.
  intros Hr Hb. split; [by apply rewrite_safe|]. split; [by apply rewrite_safe|].
  unfold ir_dead_code. apply no_fault_bind; [apply verify_no_fault; [by apply reachable_wf|done]|].
  intros _ _. apply no_fault_bind; [apply no_fault_refuse_if|]. intros _ _.
  destruct (live_set m Hr) as (live & -> & Hlen & _). apply rewrite_safe; [done..|].
  by intros l [= <-].
Qed.

(** ** Witnesses *)



Lemma passes_total_witness :
  no_fault (ir_canonicalize demo_heaps demo_module) /\ no_fault (ir_inline_calls demo_heaps demo_module)
  /\ no_fault (ir_dead_code demo_heaps demo_module).
Proof. apply (passes_total demo_heaps demo_module demo_reachable demo_native). Defined.
