(* ===== verification/IrDeadCode.v ===== *)
(** * IrDeadCode: dead-code elimination keeps exactly the live operations

    The rewriter of [IrPasses] walks a verified module in program order.  With a
    live set and neither aliasing nor inlining, it creates one operation in the
    output for every live operation of the input, in that order, and nothing else;
    a dead operation takes its regions with it, and no live operation is nested in
    a dead one. *)

From Stdlib Require Import ZArith Lia Bool.
From stdpp Require Import base list option numbers strings sets.
From S2P Require Import Prelude Core Sha256 Text Float64 IrData IrCore IrSequence IrNeural IrModule IrInvariant IrVerify IrSafety IrPrint IrPasses.

(** ** What an operation is, apart from where it is linked *)

Definition operation_stem : Type := yvex_ir_operation_definition * Z * Z * list yvex_ir_attribute.

Definition stem (op : yvex_ir_operation) : operation_stem :=
  (op_definition op, zlen (op_operands op), zlen (op_results op), op_attributes op).

Definition stems (m : yvex_ir_module) : list operation_stem := stem <$> m_operations m.

Lemma link_stems block_id id block m : stems (link_operation block_id id block m) = stems m.
Proof.
  unfold link_operation, stems. destruct (_ =? _); [done|]. cbn.
  destruct (zget _ _) as [last|] eqn:E; [|done]. by eapply fmap_zset.
Qed.

(** [operation_add] appends what its request asks for. *)
Lemma operation_stems alloc b r m m' id :
  module_wf m -> ir_run alloc (CallOperation b r) m = (m', Done id) ->
  exists d, yvex_ir_definition_find m (req_operation r) (req_version r) = Some d /\
    stems m' = stems m ++ [(d, zlen (req_operands r), zlen (req_result_types r), req_attributes r)].
Proof.
  intros Hwf E. cbn in E.
  destruct (operation_add_cases alloc b r m Hwf) as [(m1 & s & t & E1 & _)|(cap & block & d & E1 & _ & _ & Hd & _)];
    rewrite E1 in E; [done|]. injection E as <- <-. exists d. split; [done|].
  rewrite link_stems. unfold stems, operation_added, added_operation. cbn. rewrite fmap_app. cbn. unfold stem at 2. cbn.
  by rewrite zlen_new_ids by apply zlen_nonneg.
Qed.

(** The other constructors add no operation. *)
Lemma region_stems alloc o a m : stems (ir_run alloc (CallRegion o a) m).1 = stems m.
Proof.
  cbn. unfold yvex_ir_region_add. destruct (m_sealed m); [done|].
  destruct (zget (m_operations m) o) as [op|] eqn:Ho; [|done]. destruct (ir_types_present m a) as [[]| |]; try done.
  destruct (_ <=? _); [done|]. destruct (negb _); [done|]. destruct (blocks_read m (op_block op)) as [owner| |]; [|done..].
  unfold mbind at 1, so_bind at 1. destruct (ir_block_add (after 1 alloc) (b_function owner) o a m) as [m1 res] eqn:E.
  assert (m_operations m1 = m_operations m) as Hm1.
  { change m1 with (m1, res).1. rewrite <- E. by apply block_add_frame. }
  destruct res; unfold stems; [|cbn; by rewrite Hm1..].
  unfold so_modify, mbind, so_bind. cbn. rewrite Hm1. by eapply fmap_zset.
Qed.

Lemma other_stems alloc c m :
  match c with CallOperation _ _ | CallRegion _ _ => True | _ => stems (ir_run alloc c m).1 = stems m end.
Proof.
  destruct c; cbn; [..|done|done].
  - unfold yvex_ir_dimension_add. repeat case_match; done.
  - unfold yvex_ir_type_intern. repeat case_match; done.
  - unfold yvex_ir_function_add. destruct (or_else _ _) as [[]| |]; try done. cbn zeta.
    destruct (_ <? _); [done|]. destruct (_ && _); [done|]. destruct (ir_reserve _ _ _ _); [|done].
    match goal with |- _ (fst (?f ?s)) = _ => change (stems m) with (stems s) end.
    apply so_bind_frame; [by apply block_add_frame|]. done.
Qed.

(** ** Copies *)

(** An attribute of a copy: the same name, and the same value unless it is a
    type, whose identifier belongs to the module. *)
Definition copied_attribute (a a' : yvex_ir_attribute) : Prop :=
  attr_name a' = attr_name a /\
  match attr_value a with
  | AttrType _ => exists t, attr_value a' = AttrType t
  | value => attr_value a' = value
  end.

(** What is kept of operation [id] of [m]: its contract, the number of its
    operands and results, and its attributes. *)
Definition copied (m : yvex_ir_module) (id : Z) (s : operation_stem) : Prop :=
  exists op, zget (m_operations m) id = Some op /\
    let '(d, operands, results, attributes) := s in
    def_name d = def_name (op_definition op) /\ def_version d = def_version (op_definition op) /\
    operands = zlen (op_operands op) /\ results = zlen (op_results op) /\
    Forall2 copied_attribute (op_attributes op) attributes.

Lemma rewrite_attributes types l l' :
  mapO (rewrite_attribute types) l = Done l' -> Forall2 copied_attribute l l'.
Proof.
  intros H%mapO_Done. eapply Forall2_impl; [exact H|]. intros a a'. unfold rewrite_attribute, copied_attribute.
  destruct (attr_value a) eqn:E; try (intros [= <-]; by rewrite E).
  intros (t' & _ & [= <-])%bind_Done. cbn. eauto.
Qed.

Lemma so_map_length {S A B} (f : A -> SO S B) l s s' k : so_map f l s = (s', Done k) -> zlen k = zlen l.
Proof.
  revert s s' k. induction l as [|x l IH]; intros s s' k; cbn; [by intros [= <- <-]|].
  intros (y & s1 & _ & H)%so_bind_Done. apply so_bind_Done in H as (ys & s2 & Hys & [= _ <-]).
  rewrite !zlen_cons. by rewrite (IH _ _ _ Hys).
Qed.

Lemma request_copies m types op s s' r :
  rewrite_request m types op s = (s', Done r) ->
  zlen (req_operands r) = zlen (op_operands op) /\ zlen (req_result_types r) = zlen (op_results op) /\
  Forall2 copied_attribute (op_attributes op) (req_attributes r).
Proof.
  unfold rewrite_request. intros (l & s1 & E1 & H)%so_bind_Done.
  apply so_bind_Done in H as (t & s2 & [-> Ht]%so_lift_Done & H).
  apply so_bind_Done in H as (a & s3 & [-> Ha]%so_lift_Done & H). injection H as _ <-. cbn.
  split; [by eapply so_map_length|]. split; [by eapply mapO_length|].
  destruct (256 <? _); [done|]. by eapply rewrite_attributes.
Qed.

(** ** What a run adds to the output *)

Section Run.
  Context (heap : heaps) (m : yvex_ir_module) (live : list bool) (types : list Z).
  Context (Hm : ir_reachable m) (Hdia : native_dialects (m_dialects m)).

Notation built := (built m (Some live) false false).
Notation block_rewrite := (ir_rewrite_block heap m (Some live) false false types).

(** A run that completes adds a copy of each operation of [ids], in order. *)
Definition adds {A} (c : SO ir_rewrite A) (ids : list Z) : Prop := forall s s' a,
  c s = (s', Done a) -> built (rw_output s) ->
  built (rw_output s') /\ exists l, stems (rw_output s') = stems (rw_output s) ++ l /\ Forall2 (copied m) ids l.

Lemma adds_quiet {A} (c : SO ir_rewrite A) : (forall P, keeps P c) -> adds c [].
  Proof.
    intros Hq s s' a E Hs. assert (rw_output s' = rw_output s) as ->.
    { pose proof (Hq (fun o => o = rw_output s) s eq_refl) as H. by rewrite E in H. }
    split; [done|]. exists []. by rewrite app_nil_r.
  Qed.

Lemma adds_bind_eq {A B} (c : SO ir_rewrite A) (k : A -> SO ir_rewrite B) l1 l2 :
    adds c l1 -> (forall a s s', c s = (s', Done a) -> adds (k a) l2) -> adds (c ≫= k) (l1 ++ l2).
  Proof.
    intros Hc Hk s s' b (a & s1 & E1 & E2)%so_bind_Done Hs. destruct (Hc _ _ _ E1 Hs) as (H1 & x & Ex & Hx).
    destruct (Hk _ _ _ E1 _ _ _ E2 H1) as (H2 & y & Ey & Hy). split; [done|]. exists (x ++ y).
    rewrite Ey, Ex, app_assoc. split; [done|]. by apply Forall2_app.
  Qed.

Lemma adds_skip {A B} (c : SO ir_rewrite A) (k : A -> SO ir_rewrite B) l :
    (forall P, keeps P c) -> (forall a s s', c s = (s', Done a) -> adds (k a) l) -> adds (c ≫= k) l.
  Proof. intros Hc Hk. apply (adds_bind_eq c k [] l); [by apply adds_quiet|done]. Qed.

Lemma adds_region created arguments : adds (rw_construct heap (CallRegion created arguments)) [].
  Proof.
    intros s s' id [E _]%construct_Done Hs. pose proof (region_stems (heap (rw_clock s)) created arguments (rw_output s)) as Hst.
    pose proof (built_run m (Some live) false false Hm Hdia (heap (rw_clock s)) (CallRegion created arguments) (rw_output s) Hs) as Hb.
    rewrite E in Hst, Hb. split; [by apply Hb|]. exists []. by rewrite app_nil_r.
  Qed.

Lemma adds_operation id op target r :
    retained m (Some live) false false id op ->
    req_operation r = def_name (op_definition op) -> req_version r = def_version (op_definition op) ->
    zlen (req_operands r) = zlen (op_operands op) -> zlen (req_result_types r) = zlen (op_results op) ->
    Forall2 copied_attribute (op_attributes op) (req_attributes r) ->
    adds (rw_construct heap (CallOperation target r)) [id].
  Proof.
    intros Hre Hn Hv Ho Hr Ha s s' x [E _]%construct_Done Hs.
    pose proof (built_run m (Some live) false false Hm Hdia (heap (rw_clock s)) (CallOperation target r) (rw_output s) Hs) as Hb.
    destruct (operation_stems _ _ _ _ _ _ (reachable_wf _ (built_reachable _ _ _ _ _ Hs)) E) as (d & Hd & Hst).
    rewrite E in Hb. split; [apply Hb; [done|]; intros b' r' [= <- <-]; by exists id, op|].
    eexists. split; [done|]. constructor; [|constructor]. exists op. split; [apply Hre|].
    rewrite Hn, Hv in Hd. apply builtin_found in Hd as [H1 H2]; [by rewrite Ho, Hr|].
    apply (native_definition _ _ Hdia). eapply op_admitted, (wf_operations _ _ (reachable_wf _ Hm)), Hre.
  Qed.

(** A copied operation with its regions. *)
Lemma adds_copy id op target nested recurse :
    retained m (Some live) false false id op ->
    (forall created, adds (so_each (rewrite_region heap m types recurse created) (op_regions op)) nested) ->
    adds (rewrite_copy heap m types recurse op target) (id :: nested).
  Proof.
    intros Hre Hreg. unfold rewrite_copy. apply adds_skip; [intros P; apply keeps_alloc|]. intros al _ _ _.
    apply adds_skip; [intros P; apply keeps_refuse_if|]. intros [] _ _ _.
    apply adds_skip; [intros P; unfold rewrite_request, rw_read; keeps_walk|]. intros r s s' Hr.
    pose proof (request_spec _ _ _ _ _ _ Hr) as (_ & Hn & Hv). apply request_copies in Hr as (H1 & H2 & H3).
    apply (adds_bind_eq _ _ [id] nested); [by eapply adds_operation|]. intros created _ _ _.
    apply adds_skip; [intros P; apply keeps_get|]. intros s2 _ _ _.
    apply adds_skip; [intros P; apply keeps_lift|]. intros copy _ _ _.
    apply adds_skip; [intros P; keeps_walk|]. intros [] _ _ _. apply Hreg.
  Qed.

(** A block whose chain adds [ids]. *)
Lemma adds_block r block target depth ids :
    zget (m_blocks m) r = Some block ->
    (forall fuel depth target, adds (rewrite_chain heap m (Some live) false false types fuel (block_rewrite depth) target false
       (b_first_operation block)) ids) ->
    adds (block_rewrite depth r target false) ids.
  Proof.
    intros Hb Hc. destruct depth as [|depth]; cbn [ir_rewrite_block]; [by intros s s' a|].
    apply adds_skip; [intros P; apply keeps_lift|]. intros b s s' [_ Hb'%read_at_Done]%so_lift_Done. simplify_eq.
    apply adds_skip; [intros P; keeps_walk|]. intros [] _ _ _. apply Hc.
  Qed.

(** ** The walk *)

Definition alive (id : Z) : bool := bool_decide (zget live id = Some true).

Definition kept (ids : list Z) : list Z := List.filter alive ids.

Lemma kept_app l k : kept (l ++ k) = kept l ++ kept k.
  Proof. apply List.filter_app. Qed.

(** A live operation is nested only in live ones. *)
  Context (Hclosed : forall i j, zget live i = Some true -> needs m i j -> zget live j = Some true).

Lemma walk_live from ids : walk m from ids -> forall i, i ∈ ids -> alive i = true ->
    match from with
    | Chain b _ => forall block, zget (m_blocks m) b = Some block -> b_parent_operation block <> YVEX_IR_NONE ->
        alive (b_parent_operation block) = true
    | Regions p _ => p <> YVEX_IR_NONE -> alive p = true
    end.
  Proof.
    induction 1 as [b|b id op nested rest Hne Hop Hb _ IHn _ IHr|p|p r block rs l k Hblk Hp _ IHl _ IHk]; intros i Hi Ha;
      [by apply not_elem_of_nil in Hi| |by apply not_elem_of_nil in Hi|].
    - intros block Hblk Hpar. assert (alive id = true -> alive (b_parent_operation block) = true) as Hup.
      { unfold alive. rewrite !bool_decide_eq_true. intros Hid. apply (Hclosed id); [done|]. split; [done|].
        exists op. split; [done|]. left. exists block. by rewrite Hb. }
      apply elem_of_cons in Hi as [->|[Hi|Hi]%elem_of_app]; [by apply Hup|apply Hup; by apply (IHn i)|by apply (IHr i)].
    - intros Hpar. apply elem_of_app in Hi as [Hi|Hi]; [|by apply (IHk i)]. subst p. by apply (IHl i Hi Ha block).
  Qed.

Lemma kept_dead from ids : walk m from ids ->
    match from with Regions p _ => p <> YVEX_IR_NONE -> alive p = false -> kept ids = [] | _ => True end.
  Proof.
    intros Hw. destruct from as [|p rs]; [done|]. intros Hne Hp. unfold kept.
    destruct (List.filter alive ids) as [|i l] eqn:E; [done|]. exfalso.
    assert (In i (List.filter alive ids)) as [Hi Ha]%List.filter_In by (rewrite E; by left).
    pose proof (walk_live _ _ Hw i (proj2 (list_elem_of_In _ _) Hi) Ha Hne). congruence.
  Qed.

Lemma walk_adds from ids : walk m from ids ->
    match from with
    | Chain b id => forall fuel depth target,
        adds (rewrite_chain heap m (Some live) false false types fuel (block_rewrite depth) target false id) (kept ids)
    | Regions p rs => forall depth created, adds (so_each (rewrite_region heap m types (block_rewrite depth) created) rs) (kept ids)
    end.
  Proof.
    induction 1 as [b|b id op nested rest Hne Hop Hb Hwn IHn _ IHr|p|p r block rs l k Hblk Hp _ IHl _ IHk].
    - intros [|fuel] depth target; cbn [rewrite_chain]; [by intros s s' a|]. apply adds_quiet. intros P. apply keeps_ret.
    - intros [|fuel] depth target; cbn [rewrite_chain]; [by intros s s' a|].
      replace (id =? YVEX_IR_NONE) with false by lia.
      replace (kept (id :: nested ++ rest)) with (kept (id :: nested) ++ kept rest)
        by (change (id :: nested ++ rest) with ((id :: nested) ++ rest); by rewrite kept_app).
      apply adds_bind_eq; [|intros [] _ _ _; apply adds_skip; [intros P; apply keeps_lift|];
        intros op' s s' [_ Hop'%read_at_Done]%so_lift_Done; simplify_eq; apply IHr].
      unfold rewrite_operation. apply adds_skip; [intros P; apply keeps_lift|].
      intros op' s s' [_ Hop'%read_at_Done]%so_lift_Done. simplify_eq.
      apply adds_skip; [intros P; apply keeps_lift|]. intros dead s1 s1' [_ Hdead]%so_lift_Done.
      pose proof Hdead as Hd. unfold is_dead in Hd. apply bind_Done in Hd as (mark & Hmark%read_at_Done & [= <-]).
      unfold kept. cbn [List.filter]. unfold alive at 1. rewrite Hmark. destruct mark; cbn [negb].
      + rewrite bool_decide_true by done. cbn [andb].
        fold (kept nested). apply (adds_copy id op _ (kept nested)); [by split_and!|]. intros created. by apply IHn.
      + rewrite bool_decide_false by done. fold (kept nested).
        rewrite (kept_dead _ _ Hwn Hne); [apply adds_quiet; intros P; apply keeps_ret|].
        unfold alive. by rewrite Hmark.
    - intros depth created. apply adds_quiet. intros P. apply keeps_ret.
    - intros depth created. cbn [so_each]. rewrite kept_app. apply adds_bind_eq; [|intros [] _ _ _; apply IHk].
      unfold rewrite_region. apply adds_skip; [intros P; apply keeps_lift|].
      intros region s s' [_ Hr%read_at_Done]%so_lift_Done. simplify_eq.
      apply adds_skip; [intros P; apply keeps_alloc|]. intros al _ _ _.
      apply adds_skip; [intros P; apply keeps_refuse_if|]. intros [] _ _ _.
      apply adds_skip; [intros P; apply keeps_lift|]. intros arguments _ _ _.
      apply (adds_bind_eq _ _ [] (kept l)); [apply adds_region|]. intros body _ _ _.
      by apply (adds_block r block).
  Qed.

(** The bodies of all functions. *)
Lemma bodies_add l : forall bodies ids,
    Forall2 (fun i b => f_body <$> zget (m_functions m) i = Some b) l bodies ->
    walk m (Regions YVEX_IR_NONE bodies) ids ->
    adds (so_each (rewrite_body heap m (Some live) false false types) l) (kept ids).
  Proof.
    induction l as [|i l IH]; intros bodies ids Hb Hw; inversion Hb as [|? b ? bs Hi Hl]; subst.
    - inversion Hw; subst. apply adds_quiet. intros P. apply keeps_ret.
    - inversion Hw as [| | |? ? block ? x y Hblk Hp Hwx Hwy]; subst. cbn [so_each]. rewrite kept_app.
      apply adds_bind_eq; [|intros [] _ _ _; by eapply IH]. unfold rewrite_body.
      apply adds_skip; [intros P; apply keeps_lift|]. intros f s s' [_ Hf%read_at_Done]%so_lift_Done.
      rewrite Hf in Hi. injection Hi as ->. apply adds_skip; [intros P; apply keeps_get|]. intros s1 _ _ _.
      apply adds_skip; [intros P; apply keeps_lift|]. intros created _ _ _.
      apply (adds_block b block); [done|]. apply (walk_adds _ _ Hwx).
  Qed.

End Run.

Lemma bodies_indexed m :
  Forall2 (fun i b => f_body <$> zget (m_functions m) i = Some b) (zseq (zlen (m_functions m))) (function_bodies m).
Proof.
  apply Forall2_lookup. intros i. unfold function_bodies, zseq. rewrite to_nat_zlen, !list_lookup_fmap.
  destruct (m_functions m !! i) as [f|] eqn:E.
  - rewrite lookup_seq_lt by (by apply lookup_lt_Some in E). cbn. constructor. by rewrite zget_nat, E.
  - rewrite lookup_seq_ge by (by apply lookup_ge_None). constructor.
Qed.

(** ** The whole pass *)

Lemma build_adds heap m live ids s s' :
  ir_reachable m -> native_dialects (m_dialects m) ->
  (forall i j, zget live i = Some true -> needs m i j -> zget live j = Some true) ->
  walk m (Regions YVEX_IR_NONE (function_bodies m)) ids ->
  rewrite_build heap m (Some live) false false s = (s', Done tt) ->
  built m (Some live) false false (rw_output s) -> m_operations (rw_output s) = [] ->
  Forall2 (copied m) (kept live ids) (stems (rw_output s')).
Proof.
  intros Hm Hdia Hcl Hw H Hb Hnil. assert (stems (rw_output s) = []) as H0 by (unfold stems; by rewrite Hnil).
  unfold rewrite_build in H. apply so_bind_Done in H as (al & s1 & [= <- _] & H).
  apply so_bind_Done in H as ([] & s2 & [-> _]%so_lift_Done & H).
  apply so_bind_Done in H as ([] & s3 & E3 & H). apply so_bind_Done in H as (types & s4 & E4 & H).
  unfold ir_rewrite_functions in H. apply so_bind_Done in H as ([] & s5 & E5 & H).
  assert (built m (Some live) false false (rw_output s5)) as Hb5.
  { eapply (keeps_Done _ _ _ _ _ (built_signatures _ _ _ _ Hm Hdia _ _) E5).
    eapply (keeps_Done _ _ _ _ _ (built_module_types _ _ _ _ Hm Hdia _) E4).
    by eapply (keeps_Done _ _ _ _ _ (built_dimensions _ _ _ _ Hm Hdia _) E3). }
  assert (stems (rw_output s5) = []) as H5.
  { refine (keeps_Done (fun out => stems out = []) _ _ _ _ _ E5 _).
    { unfold rewrite_signature. keeps_walk. apply keeps_construct. intros al' out Hout. by rewrite (other_stems al' (CallFunction _ _ _ _)). }
    refine (keeps_Done (fun out => stems out = []) _ _ _ _ _ E4 _).
    { apply types_keeps. intros al' t out Hout. by rewrite (other_stems al' (CallType t)). }
    refine (keeps_Done (fun out => stems out = []) _ _ _ _ _ E3 H0).
    keeps_walk. apply keeps_construct. intros al' out Hout. by rewrite (other_stems al' (CallDimension x)). }
  destruct (bodies_add heap m live types Hm Hdia Hcl _ _ _ (bodies_indexed m) Hw _ _ _ H Hb5) as (_ & l & E & Hl).
  rewrite E, H5. exact Hl.
Qed.

Lemma kept_sublist live ids : kept live ids `sublist_of` ids.
Proof.
  induction ids as [|i ids IH]; cbn; [done|]. destruct (alive live i); [by apply sublist_skip|by apply sublist_cons].
Qed.

Lemma kept_elem live ids i : i ∈ kept live ids <-> i ∈ ids /\ zget live i = Some true.
Proof.
  unfold kept. rewrite list_elem_of_In, List.filter_In, <- list_elem_of_In. unfold alive. by rewrite bool_decide_eq_true.
Qed.

Lemma rewrite_adds heap m live ids out :
  ir_reachable m -> native_dialects (m_dialects m) ->
  (forall i j, zget live i = Some true -> needs m i j -> zget live j = Some true) ->
  walk m (Regions YVEX_IR_NONE (function_bodies m)) ids ->
  ir_rewrite_module heap m (Some live) false false = Done out -> Forall2 (copied m) (kept live ids) (stems out).
Proof.
  intros Hm Hdia Hcl Hw. unfold ir_rewrite_module. intros ([] & _ & (o & Hopen & H)%bind_Done)%bind_Done.
  destruct ((_ ← _; rw_seal heap) _) as [s2 [u| |]] eqn:E; [|done..]. injection H as <-. destruct u.
  apply so_bind_Done in E as ([] & s1 & Eb & Es).
  assert (built m (Some live) false false o /\ m_operations o = []) as [Ho Hn].
  { pose proof (reach_open _ _ _ _ _ Hopen) as Hr. unfold yvex_ir_module_open in Hopen.
    destruct (_ || _); [done|]. destruct (negb _); [done|]. injection Hopen as <-.
    split; [|done]. constructor; [done..|]. intros i op. cbn. by rewrite zget_nil. }
  pose proof (build_adds _ _ _ _ _ _ Hm Hdia Hcl Hw Eb Ho Hn) as Hadds.
  apply (keeps_Done _ _ _ _ _ (built_build m (Some live) false false Hm Hdia heap)) in Eb; [|exact Ho].
  destruct Eb as [Hr Hs Hor _]. unfold rw_seal in Es. destruct (yvex_ir_seal _ _ _) as [sealed r] eqn:Eseal.
  injection Es as <- ->. apply seal_Done in Eseal as (_ & identity & ->); [done|done|by eapply origin_native|done].
Qed.


