(* ===== verification/IrSerialization.v ===== *)
(** * IrSerialization: the binary form of a module

    Models [src/ir/serialization.c]: the little-endian field codecs, the writer
    of sealed modules and the reader of untrusted bytes, which rebuilds the
    module through the constructors, seals it and compares identities.

    The reader's position, value map and module are threaded as state; every
    access to the input buffer is a checked read of the model, so an access
    outside the buffer would be a fault.  A C reading function that returns 0
    makes [yvex_ir_decode] refuse with one reason; here it refuses with that
    reason directly.  [heap k] is the allocator of the [k]-th allocating step. *)

From Stdlib Require Import ZArith Lia Bool.
From stdpp Require Import base list option numbers strings sets.
From S2P Require Import Prelude Core Words Sha256 Text Float64 IrData IrCore IrSequence IrNeural IrModule IrInvariant IrVerify IrSafety IrPrint IrPasses IrPassSafety.

Definition IR_BINARY_LIMIT : Z := 64 * 1024 * 1024.

(** ** Writer *)

Record ir_encoder : Type := mk_encoder {
  en_bytes : yvex_core_bytes;
  en_grants : nat
}.

Definition encode_failed {A} : outcome A :=
  Refuse YVEX_ERR_NOMEM "binary projection exceeds allocation/output budget".

Section Writer.
  Context (alloc : allocator).

Definition en_append (data : list Z) : SO ir_encoder unit := fun e =>
  match yvex_core_bytes_append (alloc (en_grants e)) (en_bytes e) data with
  | None => (e, encode_failed)
  | Some b => (mk_encoder b (S (en_grants e)), Done tt)
  end.

Definition ir_put (value : Z) : SO ir_encoder unit := en_append (le_bytes 8 value).

Definition ir_put_text (text : string) : SO ir_encoder unit :=
  ir_put (Z.of_nat (String.length text));; en_append (string_bytes text).

Definition ir_type_write (t : yvex_ir_type) : SO ir_encoder unit :=
  ir_put (ty_kind t);; ir_put (ty_scalar t);; ir_put (ty_rank t);;
  ir_put_text (ty_domain t);; ir_put (ty_member_count t);;
  so_each (fun i => ir_put (ext_symbol (shape_at t i));; ir_put (ext_extent (shape_at t i)))
    (zseq (ty_rank t));;
  so_each (fun i => ir_put (member_at t i)) (zseq (ty_member_count t)).

Definition ir_attribute_write (a : yvex_ir_attribute) : SO ir_encoder unit :=
  ir_put_text (attr_name a);; ir_put (attr_kind a);;
  match attr_value a with
  | AttrText text | AttrSymbol text => ir_put_text text
  | AttrF64 bits => ir_put bits
  | AttrType type => ir_put type
  | AttrU64 integer | AttrBool integer => ir_put integer
  | AttrOther _ integer => ir_put integer
  end.

(** The operations of a chain, in order. *)
Fixpoint chain_list (fuel : nat) (m : yvex_ir_module) (id : Z) : outcome (list Z) :=
  match fuel with
  | O => Fault OutOfFuel
  | S fuel =>
      if id =? YVEX_IR_NONE then Done [] else
      op ← operations_read m id; rest ← chain_list fuel m (op_next op); Done (id :: rest)
  end.

(** [m->values[id].type] *)
Definition put_value_type (m : yvex_ir_module) (id : Z) : SO ir_encoder unit :=
  v ← so_lift (values_read m id); ir_put (v_type v).

(** [recurse] writes a nested block. *)
Definition operation_write (recurse : Z -> SO ir_encoder unit) (m : yvex_ir_module) (id : Z)
    : SO ir_encoder unit :=
  op ← so_lift (operations_read m id);
  _ ← ir_put_text (def_name (op_definition op));
  _ ← ir_put (def_version (op_definition op));
  _ ← ir_put (zlen (op_operands op));
  _ ← ir_put (zlen (op_results op));
  _ ← ir_put (zlen (op_attributes op));
  _ ← ir_put (zlen (op_regions op));
  _ ← so_each ir_put (op_operands op);
  _ ← so_each (fun r => ir_put r;; put_value_type m r) (op_results op);
  _ ← so_each ir_attribute_write (op_attributes op);
  so_each (fun r =>
    region ← so_lift (blocks_read m r);
    _ ← ir_put (zlen (b_arguments region));
    _ ← so_each (put_value_type m) (b_arguments region);
    recurse r) (op_regions op).

(** A region lies in a later block than its operation, so nesting is bounded by
    the number of blocks. *)
Fixpoint ir_block_write (fuel : nat) (m : yvex_ir_module) (block_id : Z) : SO ir_encoder unit :=
  match fuel with
  | O => so_lift (Fault OutOfFuel)
  | S fuel =>
      block ← so_lift (blocks_read m block_id);
      _ ← ir_put (zlen (b_arguments block));
      _ ← so_each ir_put (b_arguments block);
      ids ← so_lift (chain_list (chain_fuel m) m (b_first_operation block));
      _ ← ir_put (u32 (zlen ids));
      so_each (operation_write (ir_block_write fuel m) m) ids
  end.

Definition block_fuel (m : yvex_ir_module) : nat := S (length (m_blocks m)).

Definition ir_header_write (m : yvex_ir_module) : SO ir_encoder unit :=
  _ ← ir_put_text "yvex.ir.binary.v1";
  _ ← ir_put_text (m_name m);
  _ ← ir_put_text (m_source_identity m);
  _ ← ir_put_text (m_identity m);
  _ ← ir_put (zlen (m_values m));
  _ ← ir_put (zlen (m_dimensions m));
  _ ← so_each (fun d => ir_put_text (dim_name d);; ir_put (dim_minimum d);;
                        ir_put (dim_maximum d);; ir_put (dim_multiple d)) (m_dimensions m);
  _ ← ir_put (zlen (m_types m));
  _ ← so_each ir_type_write (m_types m);
  _ ← ir_put (zlen (m_functions m));
  so_each (fun f =>
    block ← so_lift (blocks_read m (f_body f));
    _ ← ir_put_text (f_symbol f);
    _ ← ir_put (f_effects f);
    _ ← ir_put (zlen (b_arguments block));
    _ ← ir_put (zlen (f_results f));
    _ ← so_each (put_value_type m) (b_arguments block);
    so_each ir_put (f_results f)) (m_functions m).

Definition encode_body (m : yvex_ir_module) : SO ir_encoder unit :=
  _ ← ir_header_write m;
  so_each (fun f => ir_block_write (block_fuel m) m (f_body f)) (m_functions m).

End Writer.

Definition encode_arena : yvex_core_bytes := mk_bytes [] 0 IR_BINARY_LIMIT 0.

(** The encoding is appended to the caller's arena only when it is complete. *)
Definition yvex_ir_encode (alloc : allocator) (granted : bool) (m : yvex_ir_module)
    : SO yvex_core_bytes unit := fun bytes =>
  if negb (m_sealed m)
  then (bytes, Refuse YVEX_ERR_INVALID_ARG "binary projection requires sealed module")
  else
    match encode_body alloc m (mk_encoder encode_arena 0) with
    | (_, Fault f) => (bytes, Fault f)
    | (_, Refuse s r) => (bytes, Refuse s r)
    | (e, Done _) =>
        match yvex_core_bytes_append granted bytes (bytes_data (en_bytes e)) with
        | None => (bytes, encode_failed)
        | Some bytes' => (bytes', Done tt)
        end
    end.

(** ** Reader *)

Record ir_reader : Type := mk_reader {
  rd_offset : Z;
  rd_values : list Z;
  rd_module : yvex_ir_module;
  rd_clock : nat
}.

Definition malformed {A} : outcome A :=
  Refuse YVEX_ERR_FORMAT "IR binary is malformed, incompatible or unauthenticated".

Definition reject_if (b : bool) : SO ir_reader unit :=
  so_lift (if b then malformed else Done tt).

Section Reader.
  Context (heap : heaps) (data : list Z).

Definition rd_move (offset : Z) : SO ir_reader unit := fun r =>
  (mk_reader offset (rd_values r) (rd_module r) (rd_clock r), Done tt).

(** [r->data[offset .. offset + count)] *)
Definition data_slice (offset count : Z) : outcome (list Z) :=
  mapO (fun i => read_at data (offset + i)) (zseq count).

(** [r->size - r->offset] *)
Definition rd_remaining (r : ir_reader) : Z := u64 (zlen data - rd_offset r).

Definition ir_get : SO ir_reader Z :=
  r ← so_get;
  _ ← reject_if ((zlen data <? rd_offset r) || (rd_remaining r <? 8));
  bytes ← so_lift (data_slice (rd_offset r) 8);
  _ ← rd_move (rd_offset r + 8);
  mret (le_word bytes).

Definition ir_get_count (maximum : Z) : SO ir_reader Z :=
  word ← ir_get; _ ← reject_if (maximum <? word); mret word.

Definition ir_get_text (capacity : Z) : SO ir_reader string :=
  length ← ir_get;
  r ← so_get;
  _ ← reject_if ((capacity <=? length) || (rd_remaining r <? length));
  bytes ← so_lift (data_slice (rd_offset r) length);
  _ ← reject_if (existsb (fun b => b =? 0) bytes);
  _ ← rd_move (rd_offset r + length);
  mret (bytes_string bytes).

(** The record is zeroed first, so unread cells of the arrays are zero. *)
Definition ir_type_read : SO ir_reader yvex_ir_type :=
  kind ← ir_get_count YVEX_IR_PROGRAM;
  scalar ← ir_get_count YVEX_IR_F64;
  rank ← ir_get_count YVEX_IR_RANK_CAP;
  domain ← ir_get_text YVEX_IR_NAME_CAP;
  member_count ← ir_get_count YVEX_IR_AGGREGATE_CAP;
  shape ← so_map (fun _ => symbol ← ir_get_count UINT32_MAX;
                           extent ← ir_get;
                           mret (mk_extent symbol extent)) (zseq rank);
  members ← so_map (fun _ => ir_get_count IR_OBJECT_LIMIT) (zseq member_count);
  mret (mk_type kind scalar rank shape domain member_count members).

Definition ir_attribute_read : SO ir_reader yvex_ir_attribute :=
  name ← ir_get_text YVEX_IR_NAME_CAP;
  kind ← ir_get_count YVEX_IR_ATTR_SYMBOL;
  if kind =? YVEX_IR_ATTR_TEXT then
    text ← ir_get_text YVEX_IR_NAME_CAP; mret (mk_attribute name (AttrText text))
  else if kind =? YVEX_IR_ATTR_SYMBOL then
    text ← ir_get_text YVEX_IR_NAME_CAP; mret (mk_attribute name (AttrSymbol text))
  else
    value ← ir_get;
    if kind =? YVEX_IR_ATTR_F64 then mret (mk_attribute name (AttrF64 value))
    else if kind =? YVEX_IR_ATTR_TYPE then
      r ← so_get;
      _ ← reject_if (zlen (m_types (rd_module r)) <=? value);
      mret (mk_attribute name (AttrType value))
    else if kind =? YVEX_IR_ATTR_U64 then mret (mk_attribute name (AttrU64 value))
    else if kind =? YVEX_IR_ATTR_BOOL then mret (mk_attribute name (AttrBool value))
    else mret (mk_attribute name (AttrOther kind value)).

Definition ir_value_bind (old value : Z) : SO ir_reader unit := fun r =>
  match zget (rd_values r) old with
  | None => (r, malformed)
  | Some bound =>
      if negb (bound =? YVEX_IR_NONE) then (r, malformed)
      else (mk_reader (rd_offset r) (zset (rd_values r) old value) (rd_module r) (rd_clock r), Done tt)
  end.

Definition rd_alloc : SO ir_reader allocator := fun r =>
  (mk_reader (rd_offset r) (rd_values r) (rd_module r) (S (rd_clock r)), Done (heap (rd_clock r))).

(** A constructor call on the module; its refusal is a rejection of the input. *)
Definition rd_construct (c : ir_call) : SO ir_reader Z := fun r =>
  let '(module, result) := ir_run (heap (rd_clock r)) c (rd_module r) in
  (mk_reader (rd_offset r) (rd_values r) module (S (rd_clock r)),
   match result with Refuse _ _ => malformed | _ => result end).

Definition ir_ids_read (count : Z) (operands : bool) : SO ir_reader (list Z) :=
  r ← so_get;
  let maximum := u32 (if operands then zlen (rd_values r) else zlen (m_types (rd_module r))) in
  _ ← reject_if (rd_remaining r / 8 <? count);
  alloc ← rd_alloc;
  _ ← reject_if (negb (alloc 0%nat));
  so_map (fun _ =>
    value ← ir_get_count maximum;
    _ ← reject_if (maximum <=? value);
    if operands then
      r ← so_get;
      bound ← so_lift (read_at (rd_values r) value);
      _ ← reject_if (bound =? YVEX_IR_NONE);
      mret bound
    else mret value) (zseq count).

(** [recurse] is [ir_block_read] one level deeper. *)
Definition region_read (recurse : Z -> SO ir_reader unit) (created : Z) : SO ir_reader unit :=
  argument_count ← ir_get_count IR_OBJECT_LIMIT;
  arguments ← ir_ids_read argument_count false;
  body ← rd_construct (CallRegion created arguments);
  recurse body.

Definition ir_operation_read (recurse : Z -> SO ir_reader unit) (block : Z) : SO ir_reader unit :=
  name ← ir_get_text YVEX_IR_NAME_CAP;
  version ← ir_get_count UINT32_MAX;
  _ ← reject_if (version =? 0);
  r ← so_get;
  match yvex_ir_definition_find (rd_module r) name version with
  | None => so_lift malformed
  | Some definition =>
      input_count ← ir_get_count (def_maximum_operands definition);
      result_count ← ir_get_count (def_maximum_results definition);
      attribute_count ← ir_get_count (u32 (zlen (def_attributes definition)));
      region_count ← ir_get_count (def_regions definition);
      _ ← reject_if (negb (region_count =? def_regions definition));
      inputs ← ir_ids_read input_count true;
      r ← so_get;
      _ ← reject_if (rd_remaining r / 16 <? result_count);
      alloc ← rd_alloc;
      _ ← reject_if (negb (alloc 0%nat && alloc 1%nat));
      results ← so_map (fun _ =>
        r ← so_get;
        old ← ir_get_count (u32 (zlen (rd_values r)));
        type ← ir_get_count (u32 (zlen (m_types (rd_module r))));
        mret (old, type)) (zseq result_count);
      attributes ← (if 256 <? attribute_count then so_lift (Fault OutOfBounds)
                    else so_map (fun _ => ir_attribute_read) (zseq attribute_count));
      created ← rd_construct (CallOperation block
        (mk_request name inputs (snd <$> results) attributes version));
      _ ← so_each (fun index =>
            r ← so_get;
            op ← so_lift (operations_read (rd_module r) created);
            value ← so_lift (read_at (op_results op) index);
            old ← so_lift (read_at (fst <$> results) index);
            ir_value_bind old value) (zseq result_count);
      so_each (fun _ => region_read recurse created) (zseq region_count)
  end.

(** [fuel] is 65 minus the depth. *)
Fixpoint ir_block_read (fuel : nat) (block : Z) : SO ir_reader unit :=
  match fuel with
  | O => so_lift malformed
  | S fuel =>
      count ← ir_get_count IR_OBJECT_LIMIT;
      r ← so_get;
      b ← so_lift (blocks_read (rd_module r) block);
      _ ← reject_if (negb (count =? zlen (b_arguments b)));
      _ ← so_each (fun index =>
            r ← so_get;
            old ← ir_get_count (u32 (zlen (rd_values r)));
            b ← so_lift (blocks_read (rd_module r) block);
            value ← so_lift (read_at (b_arguments b) index);
            ir_value_bind old value) (zseq count);
      count ← ir_get_count IR_OBJECT_LIMIT;
      r ← so_get;
      _ ← reject_if (rd_remaining r / 48 <? count);
      so_each (fun _ => ir_operation_read (ir_block_read fuel) block) (zseq count)
  end.

Definition function_read : SO ir_reader unit :=
  symbol ← ir_get_text YVEX_IR_NAME_CAP;
  effects ← ir_get_count IR_EFFECT_MASK;
  input_count ← ir_get_count IR_OBJECT_LIMIT;
  result_count ← ir_get_count IR_OBJECT_LIMIT;
  arguments ← ir_ids_read input_count false;
  results ← ir_ids_read result_count false;
  _ ← rd_construct (CallFunction symbol arguments results effects);
  mret tt.

Definition ir_functions_read : SO ir_reader unit :=
  count ← ir_get_count IR_OBJECT_LIMIT;
  r ← so_get;
  _ ← reject_if (rd_remaining r / 32 <? count);
  _ ← so_each (fun _ => function_read) (zseq count);
  so_each (fun index =>
    r ← so_get;
    f ← so_lift (functions_read (rd_module r) index);
    ir_block_read 65 (f_body f)) (zseq count).

Definition dimension_read : SO ir_reader unit :=
  name ← ir_get_text YVEX_IR_NAME_CAP;
  minimum ← ir_get;
  maximum ← ir_get;
  multiple ← ir_get;
  _ ← rd_construct (CallDimension (mk_dimension name minimum maximum multiple));
  mret tt.

Definition type_read (index : Z) : SO ir_reader unit :=
  type ← ir_type_read;
  id ← rd_construct (CallType type);
  reject_if (negb (id =? index)).

(** The sections after the header; [values] is the declared population. *)
Definition sections_read (values : Z) : SO ir_reader unit :=
  count ← ir_get_count IR_OBJECT_LIMIT;
  r ← so_get;
  _ ← reject_if (rd_remaining r / 32 <? count);
  _ ← so_each (fun _ => dimension_read) (zseq count);
  count ← ir_get_count IR_OBJECT_LIMIT;
  r ← so_get;
  _ ← reject_if (rd_remaining r / 40 <? count);
  _ ← so_each type_read (zseq count);
  _ ← ir_functions_read;
  r ← so_get;
  _ ← reject_if (negb (rd_offset r =? zlen data)
                 || negb (zlen (m_values (rd_module r)) =? values));
  reject_if (existsb (fun v => v =? YVEX_IR_NONE) (rd_values r)).

(** The fields before the first section. *)
Definition header_read : SO ir_reader (string * string * string * Z) :=
  schema ← ir_get_text 32;
  _ ← reject_if (negb (String.eqb schema "yvex.ir.binary.v1"));
  name ← ir_get_text YVEX_IR_NAME_CAP;
  source ← ir_get_text 65;
  identity ← ir_get_text 65;
  _ ← reject_if (negb (yvex_sha256_hex_valid (Some identity)));
  values ← ir_get_count IR_OBJECT_LIMIT;
  mret (name, source, identity, values).

End Reader.

(** A module that is not yet open has no fields the header codecs could read. *)
Definition unopened : yvex_ir_module :=
  mk_module 0 "" "" "" [] [] [] [] [] [] [] (mk_capacities 0 0 0 0 0 0) 0 false.

Definition yvex_ir_decode (heap : heaps) (granted : bool) (data : list Z)
    (dialects : list yvex_ir_dialect) : outcome yvex_ir_module :=
  if (zlen data =? 0) || (IR_BINARY_LIMIT <? zlen data) then malformed else
  match header_read data (mk_reader 0 [] unopened 0) with
  | (_, Fault f) => Fault f
  | (_, Refuse _ _) => malformed
  | (r, Done (name, source, identity, values)) =>
      match yvex_ir_module_open (heap 0%nat) name source dialects with
      | Fault f => Fault f
      | Refuse _ _ => malformed
      | Done module =>
          if negb granted
          then Refuse YVEX_ERR_NOMEM "IR binary is malformed, incompatible or unauthenticated"
          else
            match sections_read heap data values
                    (mk_reader (rd_offset r) (replicate (Z.to_nat values) YVEX_IR_NONE) module 1) with
            | (_, Fault f) => Fault f
            | (_, Refuse _ _) => malformed
            | (r, Done _) =>
                match yvex_ir_seal (heap (rd_clock r)) (heap (S (rd_clock r))) (rd_module r) with
                | (_, Fault f) => Fault f
                | (_, Refuse _ _) => malformed
                | (sealed, Done _) =>
                    if String.eqb (m_identity sealed) identity then Done sealed else malformed
                end
            end
      end
  end.

Arguments ir_block_read : simpl never.
Arguments ir_block_write : simpl never.

(** * Theorems *)

(** ** Safety of the reader *)

Definition at_offset (offset : Z) (r : ir_reader) : ir_reader :=
  mk_reader offset (rd_values r) (rd_module r) (rd_clock r).

(** The module under construction only grows. *)
Definition rgrows (r r' : ir_reader) : Prop :=
  grows (rd_module r) (rd_module r') /\
  m_functions (rd_module r) `prefix_of` m_functions (rd_module r') /\
  origin (rd_module r') = origin (rd_module r).

Lemma rgrows_refl r r' : rd_module r' = rd_module r -> rgrows r r'.
Proof. intros E. unfold rgrows. rewrite E. split; [apply grows_refl|done]. Qed.

Lemma rgrows_trans r1 r2 r3 : rgrows r1 r2 -> rgrows r2 r3 -> rgrows r1 r3.
Proof.
  intros (G1 & P1 & O1) (G2 & P2 & O2). split; [by eapply grows_trans|]. split; [by etrans|congruence].
Qed.

Section ReadLogic.
  Context (I : ir_reader -> Prop).

Definition rsafe {A} (c : SO ir_reader A) (r : ir_reader) (Q : A -> ir_reader -> Prop) : Prop :=
    I (c r).1 /\ rgrows r (c r).1 /\
    match (c r).2 with Done a => Q a (c r).1 | Refuse _ _ => True | Fault _ => False end.

Definition whatever {A} (_ : A) (_ : ir_reader) : Prop := True.

Lemma rsafe_bind {A B} (c : SO ir_reader A) (k : A -> SO ir_reader B) r P Q :
    rsafe c r P -> (forall a r1, I r1 -> rgrows r r1 -> P a r1 -> rsafe (k a) r1 Q) ->
    rsafe (c ≫= k) r Q.
  Proof.
    unfold rsafe, mbind, so_bind. intros (Hok & Hev & H) Hk. destruct (c r) as [r1 [a| |]]; cbn in *.
    - destruct (Hk a r1 Hok Hev H) as (? & ? & ?). split; [done|]. split; [by eapply rgrows_trans|done].
    - done.
    - done.
  Qed.

Lemma rsafe_mono {A} (c : SO ir_reader A) r (P Q : A -> ir_reader -> Prop) :
    rsafe c r P -> (forall a r1, I r1 -> rgrows r r1 -> P a r1 -> Q a r1) -> rsafe c r Q.
  Proof.
    intros (H1 & H2 & H3) HPQ. split; [done|]. split; [done|]. destruct (c r) as [r1 []]; cbn in *; auto.
  Qed.

Lemma rsafe_ret {A} (a : A) r (Q : A -> ir_reader -> Prop) : I r -> Q a r -> rsafe (mret a) r Q.
  Proof. intros. split; [done|]. split; [by apply rgrows_refl|done]. Qed.

Lemma rsafe_lift_bind {A B} (c : outcome A) (k : A -> SO ir_reader B) r Q :
    I r -> no_fault c -> (forall a, c = Done a -> rsafe (k a) r Q) -> rsafe (so_lift c ≫= k) r Q.
  Proof.
    intros Hs Hc Hk. apply (rsafe_bind _ _ _ (fun a r1 => c = Done a /\ r1 = r)).
    - split; [done|]. split; [by apply rgrows_refl|]. cbn. by destruct c.
    - intros a r1 _ _ [Ha ->]. by apply Hk.
  Qed.

Lemma rsafe_get_bind {B} (k : ir_reader -> SO ir_reader B) r Q :
    I r -> rsafe (k r) r Q -> rsafe (so_get ≫= k) r Q.
  Proof. done. Qed.

Lemma rsafe_malformed {A} r (Q : A -> ir_reader -> Prop) : I r -> rsafe (so_lift malformed) r Q.
  Proof. intros. split; [done|]. split; [by apply rgrows_refl|done]. Qed.

Lemma rsafe_reject_bind {B} b (k : unit -> SO ir_reader B) r Q :
    I r -> (b = false -> rsafe (k tt) r Q) -> rsafe (reject_if b ≫= k) r Q.
  Proof.
    intros Hr Hk. apply rsafe_lift_bind; [done|by destruct b|]. intros [] H. apply Hk. by destruct b.
  Qed.

Lemma rsafe_reject b r (Q : unit -> ir_reader -> Prop) :
    I r -> (b = false -> Q tt r) -> rsafe (reject_if b) r Q.
  Proof.
    intros Hr HQ. split; [done|]. split; [by apply rgrows_refl|]. destruct b; cbn; auto.
  Qed.

Lemma rsafe_each {A} (f : A -> SO ir_reader unit) l r :
    I r -> (forall x r1, x ∈ l -> I r1 -> rgrows r r1 -> rsafe (f x) r1 whatever) ->
    rsafe (so_each f l) r whatever.
  Proof.
    revert r. induction l as [|x l IH]; intros r Hs Hf; cbn [so_each]; [by apply rsafe_ret|].
    eapply rsafe_bind; [apply Hf; [set_solver|done|by apply rgrows_refl]|].
    intros _ r1 Hs1 Hev _. apply IH; [done|]. intros y r2 Hy Hs2 Hev2.
    apply Hf; [set_solver|done|by eapply rgrows_trans].
  Qed.

  (** Collecting loops, with a property of every item. *)
Lemma rsafe_map {A B} (f : A -> SO ir_reader B) (P : B -> Prop) l r :
    I r -> (forall x r1, x ∈ l -> I r1 -> rgrows r r1 -> rsafe (f x) r1 (fun b _ => P b)) ->
    rsafe (so_map f l) r (fun bs _ => zlen bs = zlen l /\ Forall P bs).
  Proof.
    revert r. induction l as [|x l IH]; intros r Hs Hf; cbn [so_map]; [by apply rsafe_ret|].
    eapply rsafe_bind; [apply Hf; [set_solver|done|by apply rgrows_refl]|].
    intros y r1 Hs1 Hev Hy. eapply rsafe_bind.
    { apply IH; [done|]. intros z r2 Hz Hs2 Hev2. apply Hf; [set_solver|done|by eapply rgrows_trans]. }
    intros ys r2 Hs2 _ [Hlen Hys]. apply rsafe_ret; [done|]. autorewrite with zlen.
    split; [by rewrite Hlen|by constructor].
  Qed.

End ReadLogic.

Section ReadSafe.
  Context (data : list Z) (Hdata : Forall is_u8 data) (Hsize : zlen data <= IR_BINARY_LIMIT).
  (** An invariant of the reader that bounds its position and survives moves. *)
  Context (I : ir_reader -> Prop)
    (I_offset : forall r, I r -> 0 <= rd_offset r <= zlen data)
    (I_move : forall r o, I r -> 0 <= o <= zlen data -> I (at_offset o r)).

  Notation rsafe := (rsafe I).

Lemma remaining_exact r : I r -> rd_remaining data r = zlen data - rd_offset r.
  Proof.
    intros Hr. apply I_offset in Hr. unfold rd_remaining. apply u64_id.
    unfold is_u64, IR_BINARY_LIMIT in *. lia.
  Qed.

Lemma slice_safe offset count :
    0 <= offset -> offset + count <= zlen data -> no_fault (data_slice data offset count).
  Proof.
    intros Ho Hc. apply no_fault_mapO. intros i Hi%elem_of_zseq. apply no_fault_read_at. lia.
  Qed.

Lemma slice_Done offset count bytes :
    data_slice data offset count = Done bytes -> 0 <= count -> zlen bytes = count /\ Forall is_u8 bytes.
  Proof.
    intros H Hc. split; [rewrite (mapO_length _ _ _ H); by apply zlen_zseq|].
    unfold data_slice in H. revert bytes H. induction (zseq count) as [|i l IH]; intros bytes; cbn.
    { by intros [= <-]. }
    intros (b & Hb%read_at_Done & (bs & Hbs & [= <-])%bind_Done)%bind_Done. constructor; [|by apply IH].
    rewrite Forall_forall in Hdata. apply Hdata. by eapply zget_elem_of.
  Qed.

Lemma rsafe_move o r : I r -> 0 <= o <= zlen data -> rsafe (rd_move o) r whatever.
  Proof. intros Hr Ho. split; [by apply I_move|]. split; [by apply rgrows_refl|done]. Qed.

Lemma rsafe_word r : I r -> rsafe (ir_get data) r (fun w _ => is_u64 w).
  Proof.
    intros Hr. pose proof (I_offset _ Hr) as Ho. unfold ir_get. apply rsafe_get_bind; [done|].
    apply rsafe_reject_bind; [done|]. intros Hg. apply orb_false_iff in Hg as [_ Hg].
    rewrite remaining_exact in Hg by done.
    apply rsafe_lift_bind; [done|apply slice_safe; lia|]. intros bytes Hb.
    apply slice_Done in Hb as [Hl Hb]; [|done].
    eapply rsafe_bind; [apply rsafe_move; [done|lia]|]. intros _ r1 Hr1 _ _. apply rsafe_ret; [done|].
    pose proof (le_word_range bytes Hb) as H. rewrite Hl in H. unfold is_u64. exact H.
  Qed.

Lemma rsafe_count maximum r :
    I r -> rsafe (ir_get_count data maximum) r (fun w _ => 0 <= w <= maximum /\ is_u64 w).
  Proof.
    intros Hr. eapply rsafe_bind; [by apply rsafe_word|]. intros w r1 Hr1 _ Hw.
    apply rsafe_reject_bind; [done|]. intros Hm. apply rsafe_ret; [done|].
    unfold is_u64 in *. lia.
  Qed.

Lemma rsafe_text capacity r : I r -> rsafe (ir_get_text data capacity) r whatever.
  Proof.
    intros Hr. eapply rsafe_bind; [by apply rsafe_word|]. intros n r1 Hr1 _ Hn.
    apply rsafe_get_bind; [done|]. apply rsafe_reject_bind; [done|]. intros Hg.
    apply orb_false_iff in Hg as [_ Hg]. rewrite remaining_exact in Hg by done.
    pose proof (I_offset _ Hr1). unfold is_u64 in Hn.
    apply rsafe_lift_bind; [done|apply slice_safe; lia|]. intros bytes _.
    apply rsafe_reject_bind; [done|]. intros _.
    eapply rsafe_bind; [apply rsafe_move; [done|lia]|]. intros _ r2 Hr2 _ _. by apply rsafe_ret.
  Qed.
End ReadSafe.

Section ModuleSafe.
  Context (heap : heaps) (data : list Z) (Hdata : Forall is_u8 data)
    (Hsize : zlen data <= IR_BINARY_LIMIT) (n : Z) (Hn : 0 <= n <= IR_OBJECT_LIMIT).

Record rd_ok (r : ir_reader) : Prop := {
    ok_offset : 0 <= rd_offset r <= zlen data;
    ok_values : zlen (rd_values r) = n;
    ok_reachable : ir_reachable (rd_module r);
    ok_dialects : native_dialects (m_dialects (rd_module r));
    ok_unsealed : m_sealed (rd_module r) = false
  }.

Lemma rd_ok_move r o : rd_ok r -> 0 <= o <= zlen data -> rd_ok (at_offset o r).
  Proof. intros [] Ho. by constructor. Qed.

  Notation rsafe := (rsafe rd_ok).
Let word := rsafe_word data Hdata Hsize rd_ok ok_offset rd_ok_move.
Let counted := rsafe_count data Hdata Hsize rd_ok ok_offset rd_ok_move.
Let text := rsafe_text data Hdata Hsize rd_ok ok_offset rd_ok_move.

Lemma rsafe_alloc r : rd_ok r -> rsafe (rd_alloc heap) r whatever.
  Proof. intros []. split; [by constructor|]. split; [by apply rgrows_refl|done]. Qed.

Lemma rsafe_construct c r :
    rd_ok r -> ir_call_machine c ->
    rsafe (rd_construct heap c) r (fun id r' =>
      ir_run (heap (rd_clock r)) c (rd_module r) = (rd_module r', Done id)).
  Proof.
    intros [Ho Hv Hr Hd Hs] Hc. red; unfold rd_construct.
    pose proof (ir_run_post (heap (rd_clock r)) c _ (reachable_wf _ Hr) Hc) as (_ & Hg & Hp).
    pose proof (reach_call (heap (rd_clock r)) c _ Hr Hc) as Hr'.
    pose proof (ir_run_origin (heap (rd_clock r)) c (rd_module r)) as Hor.
    destruct (ir_run_functions (heap (rd_clock r)) c (rd_module r)) as (added & Hf & _).
    assert (m_dialects (ir_run (heap (rd_clock r)) c (rd_module r)).1 = m_dialects (rd_module r)) as Hdia
      by (unfold origin in Hor; congruence).
    destruct (ir_run (heap (rd_clock r)) c (rd_module r)) as [out [id|s t|f]]; cbn in *; [| |done].
    - split; [constructor; cbn; first [congruence|by rewrite Hdia]|]. split; [|done]. split; [done|]. cbn. rewrite Hf.
      split; [by eexists|done].
    - destruct Hp as (_ & _ & _ & _ & _ & _ & _ & _ & Hse).
      split; [constructor; cbn; first [congruence|by rewrite Hdia]|]. split; [|done]. split; [done|]. cbn. rewrite Hf.
      split; [by eexists|done].
  Qed.

Lemma rsafe_bind_value old value r : rd_ok r -> rsafe (ir_value_bind old value) r whatever.
  Proof.
    intros Hr. red; unfold ir_value_bind.
    destruct (zget (rd_values r) old) as [b|]; [destruct (negb _)|]; cbn;
      (split; [|split; [by apply rgrows_refl|done]]); try done.
    destruct Hr. constructor; cbn; try done. by autorewrite with zlen.
  Qed.

Lemma objects_bounded r : rd_ok r -> zlen (m_types (rd_module r)) <= IR_OBJECT_LIMIT.
  Proof. intros Hr. apply (storage_objects _ (wf_storage _ _ (reachable_wf _ (ok_reachable _ Hr)))). Qed.

Lemma rsafe_ids count operands r : rd_ok r -> 0 <= count -> rsafe (ir_ids_read heap data count operands) r whatever.
  Proof.
    intros Hr Hc. unfold ir_ids_read. apply rsafe_get_bind; [done|].
    pose proof (objects_bounded r Hr) as Hob. pose proof (zlen_nonneg (m_types (rd_module r))).
    apply rsafe_reject_bind; [done|]. intros _.
    eapply rsafe_bind; [by apply rsafe_alloc|]. intros al r1 Hr1 _ _.
    apply rsafe_reject_bind; [done|]. intros _.
    eapply rsafe_mono; [apply (rsafe_map _ _ (fun _ => True))|done]; [done|].
    intros x r2 _ Hr2 _. eapply rsafe_bind; [by apply counted|]. intros v r3 Hr3 _ [Hv _].
    apply rsafe_reject_bind; [done|]. intros Hlt. destruct operands; [|by apply rsafe_ret].
    apply rsafe_get_bind; [done|]. apply rsafe_lift_bind; [done| |].
    { apply no_fault_read_at. rewrite (ok_values _ Hr3). rewrite (ok_values _ Hr) in Hlt.
      rewrite u32_id in Hlt by (unfold is_u32, IR_OBJECT_LIMIT in *; lia). lia. }
    intros b _. apply rsafe_reject_bind; [done|]. intros _. by apply rsafe_ret.
  Qed.

Lemma rsafe_type r : rd_ok r -> rsafe (ir_type_read data) r (fun t _ => is_u32 (ty_rank t)).
  Proof.
    intros Hr. unfold ir_type_read.
    eapply rsafe_bind; [by apply counted|]. intros kind r1 Hr1 _ _.
    eapply rsafe_bind; [by apply counted|]. intros scalar r2 Hr2 _ _.
    eapply rsafe_bind; [by apply counted|]. intros rank r3 Hr3 _ [Hrank _].
    eapply rsafe_bind; [by apply text|]. intros domain r4 Hr4 _ _.
    eapply rsafe_bind; [by apply counted|]. intros members r5 Hr5 _ _.
    eapply rsafe_bind; [apply (rsafe_map _ _ (fun _ => True)); [done|]|].
    { intros x r6 _ Hr6 _. eapply rsafe_bind; [by apply counted|]. intros s r7 Hr7 _ _.
      eapply rsafe_bind; [by apply word|]. intros e r8 Hr8 _ _. by apply rsafe_ret. }
    intros shape r6 Hr6 _ _. eapply rsafe_bind; [apply (rsafe_map _ _ (fun _ => True)); [done|]|].
    { intros x r7 _ Hr7 _. eapply rsafe_mono; [by apply counted|done]. }
    intros ms r7 Hr7 _ _. apply rsafe_ret; [done|]. cbn. unfold is_u32, YVEX_IR_RANK_CAP in *. lia.
  Qed.

Lemma rsafe_attribute r : rd_ok r -> rsafe (ir_attribute_read data) r whatever.
  Proof.
    intros Hr. unfold ir_attribute_read. eapply rsafe_bind; [by apply text|]. intros name r1 Hr1 _ _.
    eapply rsafe_bind; [by apply counted|]. intros kind r2 Hr2 _ _.
    destruct (kind =? YVEX_IR_ATTR_TEXT).
    { eapply rsafe_bind; [by apply text|]. intros s r3 Hr3 _ _. by apply rsafe_ret. }
    destruct (kind =? YVEX_IR_ATTR_SYMBOL).
    { eapply rsafe_bind; [by apply text|]. intros s r3 Hr3 _ _. by apply rsafe_ret. }
    eapply rsafe_bind; [by apply word|]. intros v r3 Hr3 _ _.
    destruct (kind =? YVEX_IR_ATTR_F64); [by apply rsafe_ret|].
    destruct (kind =? YVEX_IR_ATTR_TYPE).
    { apply rsafe_get_bind; [done|]. apply rsafe_reject_bind; [done|]. intros _. by apply rsafe_ret. }
    destruct (kind =? YVEX_IR_ATTR_U64); [by apply rsafe_ret|].
    destruct (kind =? YVEX_IR_ATTR_BOOL); by apply rsafe_ret.
  Qed.

  (** A nested read starts at a block that exists. *)
Definition rsafe_recursion (recurse : Z -> SO ir_reader unit) : Prop :=
    forall b r, rd_ok r -> 0 <= b < zlen (m_blocks (rd_module r)) -> rsafe (recurse b) r whatever.

Lemma rsafe_region recurse created r :
    rsafe_recursion recurse -> rd_ok r -> rsafe (region_read heap data recurse created) r whatever.
  Proof.
    intros Hrec Hr. unfold region_read. eapply rsafe_bind; [by apply counted|].
    intros count r1 Hr1 _ [Hc _]. eapply rsafe_bind; [apply rsafe_ids; [done|lia]|].
    intros args r2 Hr2 _ _. eapply rsafe_bind; [by apply rsafe_construct|].
    intros body r3 Hr3 _ Hrun. cbn in Hrun. apply Hrec; [done|].
    apply region_created in Hrun as (b & Hb & _); [by eapply zget_Some_range|].
    apply reachable_wf, (ok_reachable _ Hr2).
  Qed.

Lemma rsafe_operation recurse block r :
    rsafe_recursion recurse -> rd_ok r -> rsafe (ir_operation_read heap data recurse block) r whatever.
  Proof.
    intros Hrec Hr. unfold ir_operation_read. eapply rsafe_bind; [by apply text|].
    intros name r1 Hr1 _ _. eapply rsafe_bind; [by apply counted|]. intros version r2 Hr2 _ _.
    apply rsafe_reject_bind; [done|]. intros _. apply rsafe_get_bind; [done|].
    destruct (yvex_ir_definition_find (rd_module r2) name version) as [d|] eqn:Hd; [|by apply rsafe_malformed].
    apply definition_find_In in Hd. apply (native_definition _ _ (ok_dialects _ Hr2)) in Hd.
    pose proof (builtin_forall (fun d => zlen (def_attributes d) <=? 256) _
      ltac:(vm_compute; reflexivity) Hd) as Hatt. cbv beta in Hatt.
    eapply rsafe_bind; [by apply counted|]. intros inputs r3 Hr3 _ [Hin _].
    eapply rsafe_bind; [by apply counted|]. intros results r4 Hr4 _ [Hres _].
    eapply rsafe_bind; [by apply counted|]. intros attributes r5 Hr5 _ [Ha _].
    eapply rsafe_bind; [by apply counted|]. intros regions r6 Hr6 _ [Hreg _].
    apply rsafe_reject_bind; [done|]. intros _.
    eapply rsafe_bind; [apply rsafe_ids; [done|lia]|]. intros ids r7 Hr7 _ _.
    apply rsafe_get_bind; [done|]. apply rsafe_reject_bind; [done|]. intros _.
    eapply rsafe_bind; [by apply rsafe_alloc|]. intros al r8 Hr8 _ _.
    apply rsafe_reject_bind; [done|]. intros _.
    eapply rsafe_bind; [apply (rsafe_map _ _ (fun _ => True)); [done|]|].
    { intros x r9 _ Hr9 _. apply rsafe_get_bind; [done|]. eapply rsafe_bind; [by apply counted|].
      intros old r10 Hr10 _ _. eapply rsafe_bind; [by apply counted|]. intros t r11 Hr11 _ _.
      by apply rsafe_ret. }
    intros pairs r9 Hr9 _ [Hlen _]. rewrite zlen_zseq in Hlen by lia.
    rewrite u32_id in Ha by (pose proof (zlen_nonneg (def_attributes d)); unfold is_u32; lia).
    replace (256 <? attributes) with false by lia.
    eapply rsafe_bind; [apply (rsafe_map _ _ (fun _ => True)); [done|]|].
    { intros x r10 _ Hr10 _. eapply rsafe_mono; [by apply rsafe_attribute|done]. }
    intros attrs r10 Hr10 _ _. eapply rsafe_bind; [by apply rsafe_construct|].
    intros created r11 Hr11 _ Hrun. cbn in Hrun.
    apply operation_created in Hrun as (op & Hop & Hol); [|apply reachable_wf, (ok_reachable _ Hr10)].
    cbn in Hol. assert (zlen (op_results op) = results) as Hor.
    { rewrite Hol. unfold zlen. rewrite length_fmap. exact Hlen. }
    eapply rsafe_bind.
    { apply rsafe_each; [done|]. intros k r12 Hk%elem_of_zseq Hr12 [Hg _]. apply rsafe_get_bind; [done|].
      destruct (grows_operations _ _ Hg _ _ Hop) as (op' & Hop' & (_ & _ & _ & Hres' & _) & _).
      apply rsafe_lift_bind; [done|apply no_fault_read_at; by eapply zget_Some_range|].
      intros op'' Hop''%read_at_Done. assert (op'' = op') as -> by congruence.
      apply rsafe_lift_bind; [done|apply no_fault_read_at; rewrite Hres'; lia|]. intros v _.
      apply rsafe_lift_bind; [done|apply no_fault_read_at; unfold zlen in *; rewrite length_fmap; lia|].
      intros old _. by apply rsafe_bind_value. }
    intros _ r12 Hr12 _ _. apply rsafe_each; [done|]. intros x r13 _ Hr13 _. by apply rsafe_region.
  Qed.

Lemma rsafe_block fuel : rsafe_recursion (ir_block_read heap data fuel).
  Proof.
    induction fuel as [|fuel IH]; intros b r Hr Hb; unfold ir_block_read; fold ir_block_read; [by apply rsafe_malformed|].
    destruct (zget_in _ _ Hb) as [block Hblk].
    eapply rsafe_bind; [by apply counted|]. intros count r1 Hr1 [Hg1 _] [Hc _].
    apply rsafe_get_bind; [done|].
    destruct (grows_blocks _ _ Hg1 _ _ Hblk) as (b1 & Hb1 & _ & _ & Ha1).
    apply rsafe_lift_bind; [done|apply no_fault_read_at; by eapply zget_Some_range|].
    intros b1' Hb1'%read_at_Done. assert (b1' = b1) as -> by congruence.
    apply rsafe_reject_bind; [done|]. intros Hcount.
    eapply rsafe_bind.
    { apply rsafe_each; [done|]. intros k r2 Hk%elem_of_zseq Hr2 Hev. apply rsafe_get_bind; [done|].
      eapply rsafe_bind; [by apply counted|]. intros old r3 Hr3 Hev3 _.
      destruct (grows_blocks _ _ (proj1 Hev) _ _ Hb1) as (b2 & Hb2 & _ & _ & Ha2).
      apply rsafe_lift_bind; [done|apply no_fault_read_at; by eapply zget_Some_range|].
      intros b2' Hb2'%read_at_Done. assert (b2' = b2) as -> by congruence.
      apply rsafe_lift_bind; [done|apply no_fault_read_at; rewrite Ha2; lia|]. intros v _.
      by apply rsafe_bind_value. }
    intros _ r2 Hr2 Hev2 _. eapply rsafe_bind; [by apply counted|]. intros count2 r3 Hr3 Hev3 _.
    apply rsafe_get_bind; [done|]. apply rsafe_reject_bind; [done|]. intros _.
    apply rsafe_each; [done|]. intros x r4 _ Hr4 _. by apply rsafe_operation.
  Qed.

Lemma rgrows_functions r r' :
    rgrows r r' -> zlen (m_functions (rd_module r)) <= zlen (m_functions (rd_module r')).
  Proof. intros (_ & [l Hl] & _). rewrite Hl. autorewrite with zlen. pose proof (zlen_nonneg l). lia. Qed.

  (** Each function read adds a function. *)
Lemma rsafe_function r :
    rd_ok r -> rsafe (function_read heap data) r (fun _ r' =>
      zlen (m_functions (rd_module r)) + 1 <= zlen (m_functions (rd_module r'))).
  Proof.
    intros Hr. unfold function_read.
    eapply rsafe_bind; [by apply text|]. intros symbol r1 Hr1 G1%rgrows_functions _.
    eapply rsafe_bind; [by apply counted|]. intros effects r2 Hr2 G2%rgrows_functions _.
    eapply rsafe_bind; [by apply counted|]. intros inputs r3 Hr3 G3%rgrows_functions [Hi _].
    eapply rsafe_bind; [by apply counted|]. intros outputs r4 Hr4 G4%rgrows_functions [Ho _].
    eapply rsafe_bind; [apply rsafe_ids; [done|lia]|]. intros args r5 Hr5 G5%rgrows_functions _.
    eapply rsafe_bind; [apply rsafe_ids; [done|lia]|]. intros results r6 Hr6 G6%rgrows_functions _.
    eapply rsafe_bind; [by apply rsafe_construct|]. intros id r7 Hr7 _ Hrun. cbn in Hrun.
    apply function_created in Hrun as (body & b & Hf & _); [|apply reachable_wf, (ok_reachable _ Hr6)].
    apply rsafe_ret; [done|]. rewrite Hf. autorewrite with zlen. lia.
  Qed.

Lemma rsafe_signatures (l : list Z) r :
    rd_ok r -> rsafe (so_each (fun _ => function_read heap data) l) r (fun _ r' =>
      zlen (m_functions (rd_module r)) + zlen l <= zlen (m_functions (rd_module r'))).
  Proof.
    revert r. induction l as [|x l IH]; intros r Hr; cbn [so_each].
    { apply rsafe_ret; [done|]. rewrite zlen_nil. lia. }
    eapply rsafe_bind; [by apply rsafe_function|]. intros u r1 Hr1 _ H1. cbn in H1.
    eapply rsafe_mono; [by apply IH|]. cbn. intros _ r2 _ _ H2. autorewrite with zlen. lia.
  Qed.

Lemma rsafe_functions r : rd_ok r -> rsafe (ir_functions_read heap data) r whatever.
  Proof.
    intros Hr. unfold ir_functions_read. eapply rsafe_bind; [by apply counted|].
    intros count r1 Hr1 _ [Hc _]. apply rsafe_get_bind; [done|].
    apply rsafe_reject_bind; [done|]. intros _.
    eapply rsafe_bind; [by apply rsafe_signatures|]. intros u r2 Hr2 _ Hlen. cbn in Hlen.
    rewrite zlen_zseq in Hlen by lia. pose proof (zlen_nonneg (m_functions (rd_module r1))).
    apply rsafe_each; [done|]. intros i r3 Hi%elem_of_zseq Hr3 G3%rgrows_functions.
    apply rsafe_get_bind; [done|].
    apply rsafe_lift_bind; [done|apply no_fault_read_at; lia|]. intros f Hf%read_at_Done.
    destruct (functions_bodies _ (wf_functions _ _ (reachable_wf _ (ok_reachable _ Hr3))) _ _ Hf)
      as (b & Hb & _).
    apply rsafe_block; [done|]. by eapply zget_Some_range.
  Qed.

Lemma rsafe_sections r : rd_ok r -> rsafe (sections_read heap data n) r (fun _ r' =>
    rd_offset r' = zlen data /\ zlen (m_values (rd_module r')) = n).
  Proof.
    intros Hr. unfold sections_read. eapply rsafe_bind; [by apply counted|]. intros c1 r1 Hr1 _ _.
    apply rsafe_get_bind; [done|]. apply rsafe_reject_bind; [done|]. intros _.
    eapply rsafe_bind.
    { apply rsafe_each; [done|]. intros x r2 _ Hr2 _. unfold dimension_read.
      eapply rsafe_bind; [by apply text|]. intros name r3 Hr3 _ _.
      eapply rsafe_bind; [by apply word|]. intros lo r4 Hr4 _ H1.
      eapply rsafe_bind; [by apply word|]. intros hi r5 Hr5 _ H2.
      eapply rsafe_bind; [by apply word|]. intros mul r6 Hr6 _ H3.
      eapply rsafe_bind; [by apply rsafe_construct|]. intros id r7 Hr7 _ _. by apply rsafe_ret. }
    intros _ r2 Hr2 _ _. eapply rsafe_bind; [by apply counted|]. intros c2 r3 Hr3 _ _.
    apply rsafe_get_bind; [done|]. apply rsafe_reject_bind; [done|]. intros _.
    eapply rsafe_bind.
    { apply rsafe_each; [done|]. intros x r4 _ Hr4 _. unfold type_read.
      eapply rsafe_bind; [by apply rsafe_type|]. intros t r5 Hr5 _ Ht.
      eapply rsafe_bind; [by apply rsafe_construct|]. intros id r6 Hr6 _ _.
      by apply rsafe_reject. }
    intros _ r4 Hr4 _ _. eapply rsafe_bind; [by apply rsafe_functions|]. intros _ r5 Hr5 _ _.
    apply rsafe_get_bind; [done|]. apply rsafe_reject_bind; [done|]. intros Hend. bool_hyps.
    apply rsafe_reject; [done|]. intros _. split; lia.
  Qed.
End ModuleSafe.

(** ** Decoding *)

Definition in_buffer (data : list Z) (r : ir_reader) : Prop := 0 <= rd_offset r <= zlen data.

Lemma header_safe data r :
  Forall is_u8 data -> zlen data <= IR_BINARY_LIMIT -> in_buffer data r ->
  rsafe (in_buffer data) (header_read data) r (fun h _ =>
    0 <= h.2 <= IR_OBJECT_LIMIT /\ yvex_sha256_hex_valid (Some h.1.2) = true).
Proof.
  intros Hd Hs Hr. unfold header_read.
  pose proof (rsafe_text data Hd Hs (in_buffer data) (fun _ H => H) (fun _ _ _ H => H)) as text.
  pose proof (rsafe_count data Hd Hs (in_buffer data) (fun _ H => H) (fun _ _ _ H => H)) as counted.
  eapply rsafe_bind; [by apply text|]. intros schema r1 Hr1 _ _.
  apply rsafe_reject_bind; [done|]. intros _.
  eapply rsafe_bind; [by apply text|]. intros name r2 Hr2 _ _.
  eapply rsafe_bind; [by apply text|]. intros source r3 Hr3 _ _.
  eapply rsafe_bind; [by apply text|]. intros identity r4 Hr4 _ _.
  apply rsafe_reject_bind; [done|]. intros Hid. apply negb_false_iff in Hid.
  eapply rsafe_bind; [by apply counted|]. intros values r5 Hr5 _ [Hv _].
  by apply rsafe_ret.
Qed.

(** What decoding establishes about its result. *)
Definition authenticated (data : list Z) (dialects : list yvex_ir_dialect) (m : yvex_ir_module) : Prop :=
  ir_reachable m /\ m_sealed m = true /\ m_dialects m = dialects /\
  exists r name source values,
    header_read data (mk_reader 0 [] unopened 0) = (r, Done (name, source, m_identity m, values)) /\
    m_name m = name /\ m_source_identity m = source /\ zlen (m_values m) = values /\
    exists alloc grow pre bytes, yvex_ir_verify alloc pre = Done tt /\
      yvex_ir_print alloc grow pre seal_arena = (bytes, Done tt) /\
      m = seal_with (yvex_sha256_hex (sha256_reference (identity_message (bytes_data bytes)))) pre.

Lemma seal_identity alloc grow m m' :
  ir_reachable m -> native_dialects (m_dialects m) -> m_sealed m = false ->
  yvex_ir_seal alloc grow m = (m', Done tt) ->
  exists bytes, yvex_ir_verify alloc m = Done tt /\
    yvex_ir_print alloc grow m seal_arena = (bytes, Done tt) /\
    m' = seal_with (yvex_sha256_hex (sha256_reference (identity_message (bytes_data bytes)))) m.
Proof.
  intros Hr Hd Hs. unfold yvex_ir_seal. rewrite Hs. pose proof (print_spec alloc grow m seal_arena Hr Hd) as Hp.
  destruct (yvex_ir_print alloc grow m seal_arena) as [bytes [[]|s r|f]]; [|done..].
  destruct (ir_identity_digest (bytes_data bytes)) as [d|] eqn:Ed; [|done]. intros [= <-].
  apply identity_digest_reference in Ed as ->. exists bytes. split; [apply Hp|done].
Qed.

Lemma decode_cases heap granted data dialects :
  Forall is_u8 data -> native_dialects dialects ->
  match yvex_ir_decode heap granted data dialects with
  | Done m => authenticated data dialects m
  | Refuse _ _ => True
  | Fault _ => False
  end.
Proof.
  intros Hd Hnat. unfold yvex_ir_decode. destruct (_ || _) eqn:Hsz; [done|]. bool_hyps.
  pose proof (header_safe data (mk_reader 0 [] unopened 0) Hd ltac:(lia)) as Hh.
  destruct Hh as (Ho & _ & Hh); [unfold in_buffer; cbn; pose proof (zlen_nonneg data); lia|].
  destruct (header_read data _) as [r [[[[name source] identity] values]| |]] eqn:Eh; cbn in Hh; [|done..].
  destruct Hh as [Hv Hid]. cbn in Ho.
  destruct (yvex_ir_module_open (heap 0%nat) name source dialects) as [module| |] eqn:Eo;
    [|done|unfold yvex_ir_module_open in Eo; destruct (_ || _); [done|]; by destruct (negb (_ && _))].
  destruct (negb granted); [done|]. set (r0 := mk_reader _ _ _ _).
  assert (rd_ok data values r0) as Hr0.
  { pose proof (reach_open _ _ _ _ _ Eo) as Hre. unfold yvex_ir_module_open in Eo.
    destruct (_ || _); [done|]. destruct (negb (_ && _)); [done|]. injection Eo as <-.
    constructor; cbn; try done. autorewrite with zlen. lia. }
  assert (m_name module = name /\ m_source_identity module = source /\ m_dialects module = dialects) as (Hname & Hsource & Hdias).
  { unfold yvex_ir_module_open in Eo.
    destruct (_ || _); [done|]. destruct (negb (_ && _)); [done|]. by injection Eo as <-. }
  pose proof (rsafe_sections heap data Hd ltac:(lia) values ltac:(lia) r0 Hr0) as (Hok & Hg & Hs).
  destruct (sections_read heap data values r0) as [r1 [[]| |]] eqn:Es; cbn in Hok, Hs, Hg; [|done..].
  destruct Hg as (_ & _ & Hor), Hs as [_ Hvalues]. destruct Hok as [_ _ Hre Hdia Hun].
  unfold origin in Hor. cbn in Hor.
  pose proof (seal_safe (heap (rd_clock r1)) (heap (S (rd_clock r1))) (rd_module r1) Hre Hdia) as Hnf.
  destruct (yvex_ir_seal _ _ (rd_module r1)) as [sealed [[]| |]] eqn:Eseal; [|done..].
  destruct (String.eqb (m_identity sealed) identity) eqn:Eid; [|done]. apply String.eqb_eq in Eid.
  apply seal_identity in Eseal as (bytes & Hver & Hprint & ->); [|done..].
  split; [by apply reach_seal|]. split; [done|]. split; [cbn; congruence|].
  exists r, name, source, values. rewrite Eid. split; [exact Eh|].
  cbn [seal_with m_name m_source_identity m_values].
  split; [congruence|]. split; [congruence|]. split; [exact Hvalues|].
  exists (heap (rd_clock r1)), (heap (S (rd_clock r1))), (rd_module r1), bytes. done.
Qed.

(** C9: The decoder is safe on untrusted input.  For every byte string, whatever
    it contains, over any selection of the built-in dialects, in any order, and
    whatever the allocator does, decoding never reads outside
    the buffer, its value map or the module, never overflows its nesting, and
    either refuses or returns a module. *)
Theorem decode_total heap granted data dialects :
  Forall is_u8 data -> native_dialects dialects -> no_fault (yvex_ir_decode heap granted data dialects).
Proof.
  intros Hd Hn. pose proof (decode_cases heap granted data dialects Hd Hn) as H.
  by destruct (yvex_ir_decode heap granted data dialects).
Qed.

(** C10: A module decoded over any selection of the built-in dialects is
    authentic: it has those dialects, it was built through the constructors,
    verified and sealed, its name, source identity and value population are the
    ones of the header, and the identity in the header is the SHA-256 identity
    of the module's own canonical projection. *)
Theorem decode_authentic heap granted data dialects m :
  Forall is_u8 data -> native_dialects dialects -> yvex_ir_decode heap granted data dialects = Done m ->
  authenticated data dialects m.
Proof. intros Hd Hn H. pose proof (decode_cases heap granted data dialects Hd Hn) as Hc. by rewrite H in Hc. Qed.

(** ** Round trips of the field codecs *)

(** [writes c w]: a completed [c] appends exactly [w]. *)
Definition writes (c : SO ir_encoder unit) (w : list Z) : Prop :=
  forall e e', c e = (e', Done tt) -> bytes_data (en_bytes e') = bytes_data (en_bytes e) ++ w.

(** The module being read declares [n] types. *)
Section RoundTrip.
  Context (n : Z).

(** [reads c w a]: [c] at an occurrence of [w] consumes it and returns [a]. *)
Definition reads {A} (c : list Z -> SO ir_reader A) (w : list Z) (a : A) : Prop :=
  forall data pre post r, data = pre ++ w ++ post -> zlen data <= IR_BINARY_LIMIT ->
    rd_offset r = zlen pre -> zlen (m_types (rd_module r)) = n ->
    c data r = (at_offset (zlen pre + zlen w) r, Done a).

Lemma writes_append alloc data : writes (en_append alloc data) data.
Proof.
  intros e e'. unfold en_append. destruct (yvex_core_bytes_append _ _ data) as [b|] eqn:E; [|done].
  intros [= <-]. cbn. by eapply bytes_append_data.
Qed.

Lemma writes_bind c1 c2 w1 w2 : writes c1 w1 -> writes c2 w2 -> writes (c1;; c2) (w1 ++ w2).
Proof.
  intros H1 H2 e e' ([] & e1 & E1 & E2)%so_bind_Done. rewrite (H2 _ _ E2), (H1 _ _ E1).
  by rewrite app_assoc.
Qed.

Lemma writes_nil : writes (mret tt) [].
Proof. intros e e' [= <-]. by rewrite app_nil_r. Qed.

Lemma writes_each {A} (f : A -> SO ir_encoder unit) (g : A -> list Z) l :
  (forall x, writes (f x) (g x)) -> writes (so_each f l) (concat (g <$> l)).
Proof.
  intros Hf. induction l as [|x l IH]; cbn; [apply writes_nil|]. by apply writes_bind.
Qed.

Lemma at_offset_twice o1 o2 r : at_offset o2 (at_offset o1 r) = at_offset o2 r.
Proof. done. Qed.

Lemma reads_ret {A} (a : A) : reads (fun _ => mret a) [] a.
Proof.
  intros data pre post r -> _ Hr _. rewrite zlen_nil, Z.add_0_r, <- Hr. by destruct r.
Qed.

Lemma reads_bind {A B} (c : list Z -> SO ir_reader A) (k : A -> list Z -> SO ir_reader B) w1 w2 a b :
  reads c w1 a -> reads (k a) w2 b -> reads (fun data => c data ≫= fun x => k x data) (w1 ++ w2) b.
Proof.
  intros H1 H2 data pre post r Hd Hs Hr Hty. rewrite <- app_assoc in Hd.
  rewrite (so_bind_eq _ _ _ _ _ (H1 data pre (w2 ++ post) r Hd Hs Hr Hty)).
  rewrite (H2 data (pre ++ w1) post); [|by rewrite <- app_assoc|done|cbn; by rewrite zlen_app|done].
  rewrite !zlen_app. by rewrite Z.add_assoc.
Qed.

Lemma mapO_Forall2 {A B} (f : A -> outcome B) l k :
  Forall2 (fun x y => f x = Done y) l k -> mapO f l = Done k.
Proof. induction 1 as [|x y l k Hxy _ IH]; cbn; [done|]. by rewrite Hxy, IH. Qed.

Lemma slice_at pre w post :
  data_slice (pre ++ w ++ post) (zlen pre) (zlen w) = Done w.
Proof.
  apply mapO_Forall2. unfold zseq, zlen. rewrite Nat2Z.id.
  apply Forall2_same_length_lookup_2; [by rewrite length_fmap, length_seq|].
  intros i x y Hx Hy. pose proof (lookup_lt_Some _ _ _ Hy).
  rewrite list_lookup_fmap, lookup_seq_lt in Hx by done. injection Hx as <-. cbn.
  unfold read_at. rewrite <- Nat2Z.inj_add, zget_nat, lookup_app_r by lia.
  replace (length pre + i - length pre)%nat with i by lia.
  by rewrite (lookup_app_l_Some _ _ _ _ Hy).
Qed.

Lemma reads_word v : is_u64 v -> reads ir_get (le_bytes 8 v) v.
Proof.
  intros Hv data pre post r Hd Hs Hr _. unfold ir_get.
  assert (zlen (le_bytes 8 v) = 8) as H8 by (unfold zlen; by rewrite length_le_bytes).
  assert (zlen data = zlen pre + 8 + zlen post) as Hlen by (rewrite Hd, !zlen_app; lia).
  pose proof (zlen_nonneg pre). pose proof (zlen_nonneg post).
  erewrite so_bind_eq by reflexivity. unfold rd_remaining, reject_if. rewrite Hr.
  rewrite u64_id by (unfold is_u64, IR_BINARY_LIMIT in *; lia).
  replace ((zlen data <? zlen pre) || (zlen data - zlen pre <? 8)) with false by lia.
  erewrite so_bind_eq by reflexivity.
  rewrite Hd. replace 8 with (zlen (le_bytes 8 v)) at 1 by done. rewrite slice_at.
  erewrite so_bind_eq by reflexivity. erewrite so_bind_eq by reflexivity.
  rewrite le_word_u64 by done. rewrite H8. done.
Qed.

Lemma reads_count maximum v :
  is_u64 v -> v <= maximum -> reads (fun data => ir_get_count data maximum) (le_bytes 8 v) v.
Proof.
  intros Hv Hm. rewrite <- (app_nil_r (le_bytes 8 v)). unfold ir_get_count.
  apply (reads_bind ir_get (fun word _ => _ ← reject_if (maximum <? word); mret word) _ _ v);
    [by apply reads_word|].
  replace (maximum <? v) with false by lia. apply (reads_ret v).
Qed.

(** A C string holds no terminator before its end. *)
Definition no_terminator (text : string) : Prop := Forall (fun b => b <> 0) (string_bytes text).

Lemma string_bytes_length text : zlen (string_bytes text) = Z.of_nat (String.length text).
Proof.
  unfold string_bytes, zlen. rewrite length_fmap. f_equal.
  induction text as [|a text IH]; cbn; [done|]. by rewrite IH.
Qed.

Lemma bytes_string_bytes text : bytes_string (string_bytes text) = text.
Proof.
  unfold bytes_string, string_bytes. rewrite <- list_fmap_compose.
  transitivity (String.string_of_list_ascii (String.list_ascii_of_string text));
    [|apply String.string_of_list_ascii_of_string].
  f_equal. induction (String.list_ascii_of_string text) as [|a l IH]; [done|]. cbn. f_equal; [|done].
  unfold ascii_of_byte, byte_of_ascii. rewrite N2Z.id. apply Ascii.ascii_N_embedding.
Qed.

(** The bytes of a text field. *)
Definition text_bytes (text : string) : list Z :=
  le_bytes 8 (Z.of_nat (String.length text)) ++ string_bytes text.

Lemma writes_text alloc text : writes (ir_put_text alloc text) (text_bytes text).
Proof. apply writes_bind; apply writes_append. Qed.

Lemma reads_text capacity text :
  no_terminator text -> Z.of_nat (String.length text) < capacity <= 4096 ->
  reads (fun data => ir_get_text data capacity) (text_bytes text) text.
Proof.
  intros Hz Hc. unfold text_bytes, ir_get_text. set (k := Z.of_nat (String.length text)) in *.
  apply (reads_bind ir_get (fun length data => r ← so_get;
    _ ← reject_if ((capacity <=? length) || (rd_remaining data r <? length));
    bytes ← so_lift (data_slice data (rd_offset r) length);
    _ ← reject_if (existsb (fun b => b =? 0) bytes);
    _ ← rd_move (rd_offset r + length); mret (bytes_string bytes)) _ _ k);
    [apply reads_word; unfold is_u64; lia|].
  intros data pre post r Hd Hs Hr _. assert (zlen (string_bytes text) = k) as Hn by apply string_bytes_length.
  assert (zlen data = zlen pre + k + zlen post) as Hlen by (rewrite Hd, !zlen_app; lia).
  pose proof (zlen_nonneg pre). pose proof (zlen_nonneg post).
  erewrite so_bind_eq by reflexivity. unfold rd_remaining. rewrite Hr.
  rewrite u64_id by (unfold is_u64, IR_BINARY_LIMIT in *; lia).
  replace ((capacity <=? k) || (zlen data - zlen pre <? k)) with false by lia.
  unfold reject_if. erewrite so_bind_eq by reflexivity. rewrite Hd, <- Hn, slice_at.
  erewrite so_bind_eq by reflexivity.
  assert (existsb (fun b => b =? 0) (string_bytes text) = false) as ->.
  { apply not_true_iff_false. intros (b & Hin & Hb)%existsb_exists. unfold no_terminator in Hz.
    rewrite Forall_forall in Hz. apply (Hz b); [by apply list_elem_of_In|lia]. }
  erewrite so_bind_eq by reflexivity. erewrite so_bind_eq by reflexivity.
  rewrite bytes_string_bytes. done.
Qed.

(** A collecting loop over [n] items reads them in order. *)
Lemma reads_map {A} (f : list Z -> SO ir_reader A) (ws : list (list Z)) (vs : list A) (l : list Z) :
  Forall2 (reads f) ws vs -> length l = length ws ->
  reads (fun data => so_map (fun _ => f data) l) (concat ws) vs.
Proof.
  intros H. revert l. induction H as [|w v ws vs Hf _ IH]; intros [|x l] Hl; try done; cbn [so_map concat].
  { apply (reads_ret []). }
  cbn in Hl. injection Hl as Hl.
  apply (reads_bind f (fun y data => ys ← so_map (fun _ => f data) l; mret (y :: ys)) _ _ v); [done|].
  rewrite <- (app_nil_r (concat ws)).
  apply (reads_bind (fun data => so_map (fun _ => f data) l) (fun ys _ => mret (v :: ys)) _ _ vs); [by apply IH|].
  apply (reads_ret (v :: vs)).
Qed.

Definition name_char_ok (c : Z) : bool :=
  (c =? DOT) || is_alpha c || (c =? UNDERSCORE) || is_digit c.

Lemma name_scan_chars chars index previous dot i p d :
  name_scan chars index previous dot = Some (i, p, d) -> i < YVEX_IR_NAME_CAP ->
  forall c, c ∈ chars -> name_char_ok c = true.
Proof.
  revert index previous dot. induction chars as [|c chars IH]; intros index previous dot H Hi c' Hc';
    [by apply not_elem_of_nil in Hc'|]. cbn in H.
  destruct (YVEX_IR_NAME_CAP <=? index) eqn:E; [injection H as <- _ _; lia|].
  destruct (c =? DOT) eqn:Ed.
  - destruct (_ || _); [done|]. apply elem_of_cons in Hc' as [->|Hc']; [|by eapply IH].
    unfold name_char_ok. by rewrite Ed.
  - destruct (negb _) eqn:En; [done|]. apply negb_false_iff in En.
    apply elem_of_cons in Hc' as [->|Hc']; [|by eapply IH].
    unfold name_char_ok. destruct (is_alpha c), (c =? UNDERSCORE), (is_digit c), (negb _); cbn in *; try done;
      rewrite ?orb_true_r; done.
Qed.

(** Valid names travel as text. *)
Lemma name_valid_text name qualified :
  yvex_ir_name_valid name qualified = true -> no_terminator name.
Proof.
  unfold yvex_ir_name_valid, no_terminator. destruct (string_bytes name) as [|c l] eqn:E; [constructor|].
  rewrite <- E. destruct (name_scan (string_bytes name) 0 0 false) as [[[i p] d]|] eqn:Es; [|by rewrite E in Es |- *].
  rewrite E. intros H. bool_hyps. apply Forall_forall. intros b Hb.
  rewrite <- E in Hb. pose proof (name_scan_chars _ _ _ _ _ _ _ Es ltac:(lia) b Hb) as Hc.
  intros ->. done.
Qed.

(** The values of a type's fields are machine integers. *)
Definition type_fields (t : yvex_ir_type) : Prop :=
  0 <= ty_kind t /\ 0 <= ty_scalar t /\ 0 <= ty_rank t /\ 0 <= ty_member_count t /\
  (forall i, 0 <= i < ty_rank t ->
     is_u32 (ext_symbol (shape_at t i)) /\ is_u64 (ext_extent (shape_at t i))) /\
  (forall i, 0 <= i < ty_member_count t -> 0 <= member_at t i <= IR_OBJECT_LIMIT).

Definition type_bytes (t : yvex_ir_type) : list Z :=
  le_bytes 8 (ty_kind t) ++ le_bytes 8 (ty_scalar t) ++ le_bytes 8 (ty_rank t) ++
  text_bytes (ty_domain t) ++ le_bytes 8 (ty_member_count t) ++
  concat ((fun i => le_bytes 8 (ext_symbol (shape_at t i)) ++ le_bytes 8 (ext_extent (shape_at t i)))
            <$> zseq (ty_rank t)) ++
  concat ((fun i => le_bytes 8 (member_at t i)) <$> zseq (ty_member_count t)).

Lemma writes_type alloc t : writes (ir_type_write alloc t) (type_bytes t).
Proof.
  unfold ir_type_write, type_bytes.
  repeat (apply writes_bind; [first [apply writes_append | apply writes_text |
    apply writes_each; intros; apply writes_bind; apply writes_append]|]).
  apply writes_each. intros. apply writes_append.
Qed.

(** What reading a type yields: the same fields, with only the populated cells. *)
Definition trimmed (t : yvex_ir_type) : yvex_ir_type :=
  mk_type (ty_kind t) (ty_scalar t) (ty_rank t) (shape_at t <$> zseq (ty_rank t)) (ty_domain t)
    (ty_member_count t) (member_at t <$> zseq (ty_member_count t)).

Lemma zget_zseq_map {A} (f : Z -> A) k i : 0 <= i < k -> zget (f <$> zseq k) i = Some (f i).
Proof.
  intros Hi. rewrite zget_lookup by (unfold zlen, zseq; rewrite !length_fmap, length_seq; lia).
  unfold zseq. rewrite !list_lookup_fmap, lookup_seq_lt by lia. cbn. f_equal. f_equal. lia.
Qed.

Lemma trimmed_equal t :
  ty_rank t <= YVEX_IR_RANK_CAP -> ty_member_count t <= YVEX_IR_AGGREGATE_CAP ->
  text_unterminated (ty_domain t) = false -> yvex_ir_type_equal t (trimmed t) = true.
Proof.
  intros Hr Hm Hd. unfold yvex_ir_type_equal.
  change (ty_kind (trimmed t)) with (ty_kind t). change (ty_scalar (trimmed t)) with (ty_scalar t).
  change (ty_rank (trimmed t)) with (ty_rank t). change (ty_domain (trimmed t)) with (ty_domain t).
  change (ty_member_count (trimmed t)) with (ty_member_count t).
  rewrite Hd, !Z.eqb_refl, String.eqb_refl.
  replace (YVEX_IR_RANK_CAP <? ty_rank t) with false by lia.
  replace (YVEX_IR_AGGREGATE_CAP <? ty_member_count t) with false by lia. cbn [orb negb andb].
  apply andb_true_iff. split; apply forallb_forall; intros i Hi%list_elem_of_In%elem_of_zseq.
  - assert (shape_at (trimmed t) i = shape_at t i) as ->
      by (unfold shape_at at 1; cbn [trimmed ty_shape]; by rewrite zget_zseq_map).
    unfold yvex_ir_extent_equal. by rewrite !Z.eqb_refl.
  - assert (member_at (trimmed t) i = member_at t i) as ->
      by (unfold member_at at 1; cbn [trimmed ty_members]; by rewrite zget_zseq_map).
    apply Z.eqb_refl.
Qed.

Lemma reads_type m i t :
  ir_reachable m -> zget (m_types m) i = Some t -> type_fields t ->
  reads ir_type_read (type_bytes t) (trimmed t).
Proof.
  intros Hr Ht (Hk & Hs & Hra & Hmc & Hsh & Hme). pose proof (reachable_wf _ Hr) as Hw.
  pose proof (types_valid _ (wf_types _ _ Hw) _ _ Ht) as Hv.
  assert (ty_kind t <= YVEX_IR_PROGRAM /\ ty_scalar t <= YVEX_IR_F64 /\ ty_rank t <= YVEX_IR_RANK_CAP /\
    ty_member_count t <= YVEX_IR_AGGREGATE_CAP /\ no_terminator (ty_domain t) /\
    Z.of_nat (String.length (ty_domain t)) < YVEX_IR_NAME_CAP) as (B1 & B2 & B3 & B4 & B5 & B6).
  { unfold yvex_ir_type_valid in Hv. destruct (_ || _) eqn:E in Hv; [done|]. bool_hyps.
    unfold text_unterminated in *. destruct (_ || _) eqn:Ek in Hv.
    - destruct (_ || _) eqn:Ec in Hv; [done|]. apply orb_false_iff in Ec as [Ec Edom].
      apply negb_false_iff, String.eqb_eq in Edom. apply orb_false_iff in Ec as [Ec _].
      unfold YVEX_IR_F64. rewrite Edom. repeat split; (lia || constructor).
    - destruct (_ || _) eqn:Ec in Hv; [done|]. apply orb_false_iff in Ec as [Ec Edom].
      bool_hyps. repeat split; try lia.
      destruct (ty_kind t =? YVEX_IR_STATE); apply negb_false_iff in Edom; [by eapply name_valid_text|].
      apply String.eqb_eq in Edom. rewrite Edom. constructor. }
  unfold YVEX_IR_PROGRAM, YVEX_IR_F64, YVEX_IR_RANK_CAP, YVEX_IR_AGGREGATE_CAP, YVEX_IR_NAME_CAP in *.
  unfold type_bytes, ir_type_read.
  eapply reads_bind; [apply reads_count; unfold is_u64; unfold YVEX_IR_PROGRAM; lia|]. cbv beta.
  eapply reads_bind; [apply reads_count; unfold is_u64; unfold YVEX_IR_F64; lia|]. cbv beta.
  eapply reads_bind; [apply reads_count; unfold is_u64; unfold YVEX_IR_RANK_CAP; lia|]. cbv beta.
  eapply reads_bind; [apply reads_text; [done|unfold YVEX_IR_NAME_CAP; lia]|]. cbv beta.
  eapply reads_bind; [apply reads_count; unfold is_u64; unfold YVEX_IR_AGGREGATE_CAP; lia|]. cbv beta.
  eapply reads_bind.
  { apply (reads_map _ _ (shape_at t <$> zseq (ty_rank t))).
    - apply Forall2_fmap, Forall_Forall2_diag, Forall_forall. intros k Hki%elem_of_zseq.
      destruct (Hsh k Hki) as [H1 H2].
      eapply reads_bind; [apply reads_count; unfold is_u32, is_u64, UINT32_MAX in *; lia|]. cbv beta.
      rewrite <- (app_nil_r (le_bytes 8 (ext_extent _))). eapply reads_bind; [by apply reads_word|].
      cbv beta. destruct (shape_at t k) as [sy ex]. apply reads_ret.
    - by rewrite length_fmap. }
  cbv beta. rewrite <- (app_nil_r (concat ((fun i => le_bytes 8 (member_at t i)) <$> _))).
  eapply reads_bind.
  { apply (reads_map _ _ (member_at t <$> zseq (ty_member_count t))).
    - apply Forall2_fmap, Forall_Forall2_diag, Forall_forall. intros k Hki%elem_of_zseq.
      specialize (Hme k Hki). apply reads_count; unfold is_u64, IR_OBJECT_LIMIT in *; lia.
    - by rewrite length_fmap. }
  cbv beta. apply reads_ret.
Qed.

(** The payload of an attribute is a machine integer or a C string. *)
Definition attribute_fields (a : yvex_ir_attribute) : Prop :=
  match attr_value a with
  | AttrU64 v | AttrF64 v | AttrBool v => is_u64 v
  | AttrType t => 0 <= t
  | AttrText text | AttrSymbol text => no_terminator text
  | AttrOther _ _ => True
  end.

Definition attribute_bytes (a : yvex_ir_attribute) : list Z :=
  text_bytes (attr_name a) ++ le_bytes 8 (attr_kind a) ++
  match attr_value a with
  | AttrText text | AttrSymbol text => text_bytes text
  | AttrU64 v | AttrF64 v | AttrBool v | AttrType v | AttrOther _ v => le_bytes 8 v
  end.

Lemma writes_attribute alloc a : writes (ir_attribute_write alloc a) (attribute_bytes a).
Proof.
  unfold ir_attribute_write, attribute_bytes.
  apply writes_bind; [apply writes_text|]. apply writes_bind; [apply writes_append|].
  destruct (attr_value a); (apply writes_append || apply writes_text).
Qed.

Lemma reads_attribute m a :
  zlen (m_types m) = n -> n <= IR_OBJECT_LIMIT ->
  ir_attribute_valid m a = true -> attribute_fields a ->
  reads ir_attribute_read (attribute_bytes a) a.
Proof.
  intros Hty Hlim Hv Hf. unfold ir_attribute_valid in Hv. apply andb_true_iff in Hv as [Hname Hv].
  pose proof (name_valid_length _ _ Hname) as Hnl. pose proof (name_valid_text _ _ Hname) as Hnt.
  unfold attribute_bytes, ir_attribute_read, attribute_fields, attr_kind in *.
  destruct a as [name v]; cbn [attr_name attr_value] in *.
  eapply reads_bind; [apply reads_text; [done|unfold YVEX_IR_NAME_CAP in *; lia]|]. cbv beta.
  eapply reads_bind; [apply reads_count; destruct v; done|]. cbv beta.
  destruct v as [v|v|v|text|ty|text|]; cbn -[reject_if le_bytes]; try done;
    match goal with |- reads _ ?w _ => rewrite <- (app_nil_r w) end.
  - eapply reads_bind; [by apply reads_word|]. cbv beta. apply reads_ret.
  - eapply reads_bind; [by apply reads_word|]. cbv beta. apply reads_ret.
  - eapply reads_bind; [by apply reads_word|]. cbv beta. apply reads_ret.
  - unfold text_unterminated, YVEX_IR_NAME_CAP in Hv.
    eapply reads_bind; [apply reads_text; [done|unfold YVEX_IR_NAME_CAP in *; lia]|]. cbv beta. apply reads_ret.
  - bool_hyps. eapply reads_bind; [apply reads_word; unfold is_u64, IR_OBJECT_LIMIT in *; lia|]. cbv beta.
    intros data pre post r Hd Hs Hr Hn. erewrite so_bind_eq by reflexivity. rewrite Hn.
    replace (n <=? ty) with false by lia. unfold reject_if. erewrite so_bind_eq by reflexivity.
    by apply (reads_ret _ data pre post r).
  - pose proof (name_valid_length _ _ Hv). 
    eapply reads_bind; [apply reads_text; [done|unfold YVEX_IR_NAME_CAP in *; lia]|]. cbv beta. apply reads_ret.
Qed.
End RoundTrip.

(** C11: The binary codecs of types and attributes round-trip.  What the writer
    appends for a type of a client's module, read back at any position of any
    buffer, is consumed exactly and yields an equal type; what it appends for a
    valid attribute yields that attribute. *)
Theorem codecs_round_trip alloc m :
  ir_reachable m ->
  (forall i t, zget (m_types m) i = Some t -> type_fields t ->
     exists w t', writes (ir_type_write alloc t) w /\
       reads (zlen (m_types m)) ir_type_read w t' /\ yvex_ir_type_equal t t' = true) /\
  (forall a, ir_attribute_valid m a = true -> attribute_fields a ->
     exists w, writes (ir_attribute_write alloc a) w /\
       reads (zlen (m_types m)) ir_attribute_read w a).
Proof.
  intros Hr. pose proof (reachable_wf _ Hr) as Hw. split.
  - intros i t Ht Hf. exists (type_bytes t), (trimmed t). split; [apply writes_type|].
    split; [by eapply reads_type|]. pose proof (types_valid _ (wf_types _ _ Hw) _ _ Ht) as Hv.
    unfold yvex_ir_type_valid in Hv. destruct (_ || _) eqn:E in Hv; [done|]. bool_hyps.
    apply trimmed_equal; [lia|lia|done].
  - intros a Hv Hf. exists (attribute_bytes a). split; [apply writes_attribute|].
    eapply reads_attribute; [done| |done..]. apply (storage_objects _ (wf_storage _ _ Hw)).
Qed.

(** ** Witnesses *)

Definition demo_encoded (m : yvex_ir_module) : list Z :=
  bytes_data (yvex_ir_encode grant true (yvex_ir_seal grant grant m).1 encode_arena).1.

(** Both demonstration programs survive the round trip with their identity. *)
Example demo_round_trip :
  (fun m => match yvex_ir_decode demo_heaps true (demo_encoded m) builtin_dialects with
            | Done m' => Some (m_identity m')
            | _ => None
            end) <$> [demo_module; demo_state_module]
  = (fun m => Some (m_identity (yvex_ir_seal grant grant m).1)) <$> [demo_module; demo_state_module].
Proof. vm_compute. reflexivity. Qed.

(** A flipped byte of the first function's body is refused. *)
Example demo_tampered :
  is_done (yvex_ir_decode demo_heaps true (<[600%nat := 9]> (demo_encoded demo_module)) builtin_dialects)
  = false.
Proof. vm_compute. reflexivity. Qed.

Definition small_bytes (l : list Z) : bool := forallb (fun b => (0 <=? b) && (b <? 256)) l.

Lemma small_bytes_u8 l : small_bytes l = true -> Forall is_u8 l.
Proof.
  unfold small_bytes. rewrite forallb_forall. intros H. apply Forall_forall. intros b Hb.
  specialize (H b (proj1 (list_elem_of_In _ _) Hb)). unfold is_u8. lia.
Qed.

Lemma decode_total_witness :
  no_fault (yvex_ir_decode demo_heaps true (demo_encoded demo_module) [yvex_ir_core_dialect]).
Proof.
  apply (decode_total demo_heaps true (demo_encoded demo_module) [yvex_ir_core_dialect]);
    [|intros d ->%list_elem_of_singleton; apply list_elem_of_here].
  apply small_bytes_u8. vm_compute. reflexivity.
Defined.

Lemma decode_authentic_witness :
  exists m, yvex_ir_decode demo_heaps true (demo_encoded demo_module) builtin_dialects = Done m /\
    authenticated (demo_encoded demo_module) builtin_dialects m.
Proof.
  assert (is_done (yvex_ir_decode demo_heaps true (demo_encoded demo_module) builtin_dialects) = true) as H
    by (vm_compute; reflexivity).
  apply is_done_Done in H as [m H]. exists m. split; [exact H|].
  apply (decode_authentic demo_heaps true (demo_encoded demo_module) builtin_dialects m); [|apply native_builtin|exact H].
  apply small_bytes_u8. vm_compute. reflexivity.
Defined.

Lemma codecs_round_trip_witness :
  exists w t', writes (ir_type_write grant demo_type) w /\
    reads 1 ir_type_read w t' /\ yvex_ir_type_equal demo_type t' = true.
Proof.
  destruct (codecs_round_trip grant demo_module demo_reachable) as [H _].
  apply (H 0 demo_type); [vm_compute; reflexivity|].
  unfold type_fields. cbn [demo_type ty_kind ty_scalar ty_rank ty_member_count].
  do 4 (split; [vm_compute; discriminate|]). split; [|intros i Hi; lia].
  intros i Hi. assert (i = 0 \/ i = 1) as [-> | ->] by lia.
  - change (shape_at demo_type 0) with (mk_extent 0 0). unfold is_u32, is_u64. cbn. lia.
  - change (shape_at demo_type 1) with (mk_extent YVEX_IR_NONE 8).
    unfold is_u32, is_u64, YVEX_IR_NONE, UINT32_MAX. cbn. lia.
Defined.
