(* ===== verification/RequestQueue.v ===== *)
(** * The server's bounded request queue ([src/server/request_queue.c])

    A bounded array of pending entries, an array of active serialization keys
    and a pool of worker threads that share one mutex and one condition
    variable.  The operations are functions on the structure; a [world] adds
    the threads (each at one of the places where it does not hold the mutex),
    the control thread that starts, finishes and closes the queue, and the
    trace of what clients and callbacks observe.  [step] runs one critical
    section, chosen by the scheduler, as one atomic transition: every access of
    the shared fields in the source happens between a lock and the matching
    unlock or wait.  Reads and writes outside an array are faults, and so is
    any access to the structure after [close] has freed it.

    The theorems, for the schedules in which the joins and the locks of [finish]
    succeed (the evaluated examples at the end of the file show the use after
    free that follows otherwise): no schedule faults; two workers never execute
    entries with the same key, and the active keys are those of the entries
    being executed; for each key the submitted entries are exactly the completed
    ones, then the one that is executing, then the pending ones, in submission
    order; after a stop no schedule of the workers runs forever, and one that
    cannot be continued has executed every accepted entry and ended every
    worker; serialization keys determine the engine generation and the scope. *)

From Stdlib Require Import ZArith Lia Bool String.
From stdpp Require Import base list option numbers strings sets pretty.
From S2P Require Import Prelude Core Sha256 Text.

(** ** Data *)

Definition SERVER_REQUEST_QUEUE_KEY_CAP : Z := 224.
Definition SIZEOF_QUEUE_ENTRY : Z := 232.
Definition SIZEOF_QUEUE_ACTIVE : Z := 224.
Definition SIZEOF_PTHREAD : Z := 8.

(** [work] is a pointer the queue never follows; zero is the null pointer. *)
Record request_queue_entry : Type := mk_entry {
  entry_work : Z;
  entry_key : string
}.
Definition entry_zero : request_queue_entry := mk_entry 0 "".

#[export] Instance request_queue_entry_eq_dec : EqDecision request_queue_entry.
Proof. solve_decision. Defined.

(** The arrays have their full allocated length; [rq_queue_count] and
    [rq_active_count] delimit the cells in use. *)
Record server_request_queue : Type := mk_request_queue {
  rq_queue : list request_queue_entry;
  rq_active : list string;
  rq_observe : bool;
  rq_queue_capacity : Z;
  rq_queue_count : Z;
  rq_worker_count : Z;
  rq_worker_started : Z;
  rq_active_count : Z;
  rq_mutex_ready : bool;
  rq_condition_ready : bool;
  rq_started : bool;
  rq_stopping : bool;
  rq_finished : bool
}.

Definition set_queue (l : list request_queue_entry) (count : Z) (q : server_request_queue) :=
  mk_request_queue l (rq_active q) (rq_observe q) (rq_queue_capacity q) count (rq_worker_count q)
    (rq_worker_started q) (rq_active_count q) (rq_mutex_ready q) (rq_condition_ready q)
    (rq_started q) (rq_stopping q) (rq_finished q).
Definition set_active (l : list string) (count : Z) (q : server_request_queue) :=
  mk_request_queue (rq_queue q) l (rq_observe q) (rq_queue_capacity q) (rq_queue_count q)
    (rq_worker_count q) (rq_worker_started q) count (rq_mutex_ready q) (rq_condition_ready q)
    (rq_started q) (rq_stopping q) (rq_finished q).
Definition set_worker_started (n : Z) (q : server_request_queue) :=
  mk_request_queue (rq_queue q) (rq_active q) (rq_observe q) (rq_queue_capacity q)
    (rq_queue_count q) (rq_worker_count q) n (rq_active_count q) (rq_mutex_ready q)
    (rq_condition_ready q) (rq_started q) (rq_stopping q) (rq_finished q).
Definition set_phase (started stopping finished : bool) (q : server_request_queue) :=
  mk_request_queue (rq_queue q) (rq_active q) (rq_observe q) (rq_queue_capacity q)
    (rq_queue_count q) (rq_worker_count q) (rq_worker_started q) (rq_active_count q)
    (rq_mutex_ready q) (rq_condition_ready q) started stopping finished.

(** ** Array helpers *)

(** [for (; index + 1 < count; ++index) l[index] = l[index + 1];], with
    [n = count - 1 - index] *)
Fixpoint shift_down {A} (n : nat) (index : Z) (l : list A) : outcome (list A) :=
  match n with
  | O => Done l
  | S n => x ← read_at l (index + 1); l ← write_at l index x; shift_down n (index + 1) l
  end.

(** ** Operations under the mutex *)

Definition request_queue_key_active (q : server_request_queue) (key : string) : outcome bool :=
  existsO (fun index => k ← read_at (rq_active q) index; Done (String.eqb k key))
    (zseq (rq_active_count q)).

Definition request_queue_select_locked (q : server_request_queue)
    : outcome (server_request_queue * option request_queue_entry) :=
  index ← scan (Z.to_nat (rq_queue_count q))
            (fun index => e ← read_at (rq_queue q) index;
                          active ← request_queue_key_active q (entry_key e);
                          Done (negb active)) 0;
  if index =? rq_queue_count q then Done (q, None) else
  entry ← read_at (rq_queue q) index;
  l ← shift_down (Z.to_nat (rq_queue_count q - 1 - index)) index (rq_queue q);
  let count := u64 (rq_queue_count q - 1) in
  l ← write_at l count entry_zero;
  active ← write_at (rq_active q) (rq_active_count q) (entry_key entry);
  Done (set_active active (u64 (rq_active_count q + 1)) (set_queue l count q), Some entry).

Definition request_queue_release_locked (q : server_request_queue) (key : string)
    : outcome server_request_queue :=
  index ← scan (Z.to_nat (rq_active_count q))
            (fun index => k ← read_at (rq_active q) index; Done (String.eqb k key)) 0;
  if index =? rq_active_count q then Done q else
  l ← shift_down (Z.to_nat (rq_active_count q - 1 - index)) index (rq_active q);
  let count := u64 (rq_active_count q - 1) in
  l ← write_at l count ""%string;
  Done (set_active l count q).

(** What an observer callback receives: queued, capacity, active. *)
Definition request_queue_observe_locked (q : server_request_queue) : option (Z * Z * Z) :=
  if rq_observe q then Some (rq_queue_count q, rq_queue_capacity q, rq_active_count q) else None.

(** ** Client operations

    [alloc] answers the four allocations of [open] in order; [locks] tells
    whether [pthread_mutex_lock] succeeds. *)

Definition yvex_server_request_queue_open (alloc : nat -> bool) (mutex condition : bool)
    (queue_capacity worker_count : Z) (execute observe : bool) : outcome server_request_queue :=
  _ ← refuse_if ((queue_capacity =? 0) || (worker_count =? 0) || negb execute
        || (SIZE_MAX / SIZEOF_QUEUE_ENTRY <? queue_capacity)
        || (SIZE_MAX / SIZEOF_PTHREAD <? worker_count)
        || (SIZE_MAX / SIZEOF_QUEUE_ACTIVE <? worker_count)) YVEX_ERR_INVALID_ARG
      "bounded queue, workers, execution callback, and output are required";
  _ ← refuse_if (negb (alloc 0%nat)) YVEX_ERR_NOMEM "request queue allocation failed";
  _ ← refuse_if (negb (alloc 1%nat) || negb (alloc 2%nat) || negb (alloc 3%nat)) YVEX_ERR_NOMEM
      "request queue bounded storage allocation failed";
  _ ← refuse_if (negb mutex) YVEX_ERR_STATE "request queue mutex initialization failed";
  _ ← refuse_if (negb condition) YVEX_ERR_STATE "request queue condition initialization failed";
  Done (mk_request_queue (replicate (Z.to_nat queue_capacity) entry_zero)
          (replicate (Z.to_nat worker_count) ""%string) observe queue_capacity 0 worker_count 0 0
          true true false false false).

(** [snprintf] truncates to the capacity and returns the untruncated length. *)
Definition yvex_server_request_queue_key (engine_generation : Z)
    (serialization_scope : option string) : outcome string :=
  match serialization_scope with
  | None => Refuse YVEX_ERR_INVALID_ARG
      "engine generation, serialization scope, and key output are required"
  | Some scope =>
      _ ← refuse_if ((engine_generation =? 0) || String.eqb scope "") YVEX_ERR_INVALID_ARG
            "engine generation, serialization scope, and key output are required";
      let output := dec engine_generation +:+ ":" +:+ scope in
      _ ← refuse_if (SERVER_REQUEST_QUEUE_KEY_CAP <=? Z.of_nat (String.length output))
            YVEX_ERR_BOUNDS "engine request serialization key exceeds its bound";
      Done output
  end.

(** The new structure and the depth reported in [*queued]. *)
Definition yvex_server_request_queue_submit (locks : bool) (q : server_request_queue) (work : Z)
    (key : string) : outcome (server_request_queue * Z) :=
  _ ← refuse_if ((work =? 0)
        || (SERVER_REQUEST_QUEUE_KEY_CAP <=? Z.of_nat (String.length key))
        || negb (rq_mutex_ready q) || negb locks) YVEX_ERR_INVALID_ARG
        "request queue work and bounded key are required";
  if negb (rq_started q) || rq_stopping q || (rq_queue_count q =? rq_queue_capacity q) then
    if rq_queue_count q =? rq_queue_capacity q
    then Refuse YVEX_ERR_BOUNDS "bounded request queue is full"
    else Refuse YVEX_ERR_STATE "request queue is not accepting work"
  else
    let depth := u64 (rq_queue_count q + 1) in
    l ← write_at (rq_queue q) (rq_queue_count q) (mk_entry work key);
    Done (set_queue l depth q, depth).

(** Whether the stop was recorded, and the condition broadcast with it. *)
Definition yvex_server_request_queue_request_stop (locks : bool) (q : server_request_queue)
    : server_request_queue :=
  if negb (rq_mutex_ready q) || negb locks then q
  else set_phase (rq_started q) true (rq_finished q) q.

(** The locked part of [start]; its loop over [pthread_create] is part of [step]. *)
Definition yvex_server_request_queue_start (locks : bool) (q : server_request_queue)
    : outcome server_request_queue :=
  _ ← refuse_if (negb (rq_mutex_ready q) || negb locks) YVEX_ERR_INVALID_ARG
        "open request queue is required";
  _ ← refuse_if (rq_started q || rq_stopping q) YVEX_ERR_STATE
        "request queue cannot start twice or after stop";
  Done (set_phase true (rq_stopping q) (rq_finished q) q).

Record server_request_queue_summary : Type := mk_queue_summary {
  sum_queued : Z;
  sum_capacity : Z;
  sum_active : Z;
  sum_workers : Z
}.
Definition yvex_server_request_queue_snapshot (locks : bool) (q : option server_request_queue)
    : server_request_queue_summary :=
  match q with
  | Some q =>
      if negb (rq_mutex_ready q) || negb locks then mk_queue_summary 0 0 0 0
      else mk_queue_summary (rq_queue_count q) (rq_queue_capacity q) (rq_active_count q)
             (rq_worker_count q)
  | None => mk_queue_summary 0 0 0 0
  end.

(** ** Threads and traces *)

(** Where a worker is while it does not hold the mutex.  A [Ready] worker waits
    for the mutex and a [Waiting] one for the condition; [inner] tells the wait
    of the inner [while] from the top of the selection loop, where every other
    lock and wait resumes. *)
Inductive worker_state : Type :=
  | Ready (inner : bool)
  | Waiting (inner : bool)
  | Executing (e : request_queue_entry)
  | Exited.

#[export] Instance worker_state_eq_dec : EqDecision worker_state.
Proof. solve_decision. Defined.

Inductive control_call : Type := CallStart | CallFinish | CallClose.

(** Where the thread that controls the queue is: in no control operation, in
    the creation loop of [start], or in the join loop of [finish]. *)
Inductive control : Type :=
  | Idle
  | Starting (index : Z)
  | Joining (call : control_call) (index : Z) (failed : bool).

Inductive event : Type :=
  | Submitted (e : request_queue_entry)
  | Refused (status : yvex_status)
  | Observed (queued capacity active : Z)
  | Began (e : request_queue_entry)
  | Ended (e : request_queue_entry)
  | Returned (call : control_call) (result : outcome unit).

(** [w_queue] is [None] once the structure is freed. *)
Record world : Type := mk_world {
  w_queue : option server_request_queue;
  w_threads : list worker_state;
  w_control : control;
  w_trace : list event
}.

Definition with_queue (q : server_request_queue) (w : world) : world :=
  mk_world (Some q) (w_threads w) (w_control w) (w_trace w).
Definition with_threads (l : list worker_state) (w : world) : world :=
  mk_world (w_queue w) l (w_control w) (w_trace w).
Definition with_control (c : control) (w : world) : world :=
  mk_world (w_queue w) (w_threads w) c (w_trace w).
Definition emit (l : list event) (w : world) : world :=
  mk_world (w_queue w) (w_threads w) (w_control w) (w_trace w ++ l).

Definition wake (t : worker_state) : worker_state :=
  match t with Waiting inner => Ready inner | _ => t end.

(** [pthread_cond_broadcast] *)
Definition broadcast (w : world) : world := with_threads (wake <$> w_threads w) w.

Definition observation (q : server_request_queue) : list event :=
  match request_queue_observe_locked q with
  | Some (queued, capacity, active) => [Observed queued capacity active]
  | None => []
  end.

(** ** The worker loop *)

(** From the inner [while] to the next point without the mutex. *)
Definition worker_inner (q : server_request_queue)
    : outcome (server_request_queue * worker_state * list event) :=
  if (rq_queue_count q =? 0) && negb (rq_stopping q) then Done (q, Waiting true, [])
  else if rq_stopping q && (rq_queue_count q =? 0) then Done (q, Exited, [])
  else
    '(q', selected) ← request_queue_select_locked q;
    match selected with
    | Some entry => Done (q', Executing entry, observation q' ++ [Began entry])
    | None => Done (q', Waiting false, [])
    end.

(** From the top of the selection loop. *)
Definition worker_outer (q : server_request_queue)
    : outcome (server_request_queue * worker_state * list event) :=
  if rq_stopping q && (rq_queue_count q =? 0) then Done (q, Exited, []) else worker_inner q.

(** From the return of [execute] to the unlock that follows. *)
Definition worker_return (q : server_request_queue) (entry : request_queue_entry)
    : outcome (server_request_queue * list event) :=
  q ← request_queue_release_locked q (entry_key entry);
  Done (q, Ended entry :: observation q).

(** ** Control operations *)

(** The join loop at [index], and what follows it. *)
Definition finish_joins (call : control_call) (index : Z) (failed : bool)
    (q : server_request_queue) (w : world) : world :=
  if index <? rq_worker_started q then with_control (Joining call index failed) w
  else
    let w := with_control Idle
      (with_queue (set_phase (rq_started q) (rq_stopping q) true (set_worker_started 0 q)) w) in
    match call with
    | CallStart => emit [Returned CallStart
        (Refuse YVEX_ERR_STATE "request queue worker creation failed")] w
    | CallFinish => emit [Returned CallFinish
        (if failed then Refuse YVEX_ERR_STATE "request queue worker join failed" else Done tt)] w
    | CallClose => mk_world None (w_threads w) Idle (w_trace w ++ [Returned CallClose (Done tt)])
    end.

(** A call of [request_stop]: the condition is broadcast when the stop is recorded. *)
Definition stop_requested (locks : bool) (q : server_request_queue) (w : world) : world :=
  let w := with_queue (yvex_server_request_queue_request_stop locks q) w in
  if rq_mutex_ready q && locks then broadcast w else w.

Definition yvex_server_request_queue_finish (locks : bool) (call : control_call)
    (q : server_request_queue) (w : world) : world :=
  let w := stop_requested locks q w in
  let q := yvex_server_request_queue_request_stop locks q in
  if rq_finished q then
    match call with
    | CallClose => mk_world None (w_threads w) Idle (w_trace w ++ [Returned CallClose (Done tt)])
    | CallFinish => emit [Returned CallFinish (Done tt)] w
    | CallStart => emit [Returned CallStart
        (Refuse YVEX_ERR_STATE "request queue worker creation failed")] w
    end
  else finish_joins call 0 false q w.

(** One iteration of the loop over [pthread_create]; [stops] answers the locks
    of the two stops that follow a failed creation. *)
Definition start_create (granted : bool) (stops : bool * bool) (index : Z) (q : server_request_queue)
    (w : world) : world :=
  if granted then
    let w := with_threads (w_threads w ++ [Ready false])
      (with_queue (set_worker_started (u64 (rq_worker_started q + 1)) q) w) in
    if index + 1 <? rq_worker_count q then with_control (Starting (index + 1)) w
    else emit [Returned CallStart (Done tt)] (with_control Idle w)
  else
    yvex_server_request_queue_finish (snd stops) CallStart
      (yvex_server_request_queue_request_stop (fst stops) q) (stop_requested (fst stops) q w).

(** ** Scheduling *)

(** The choices of a schedule: calls of clients ([Submit], [RequestStop]), the
    control thread ([Start], [Create], [Finish], [Close], [Join]) and worker
    threads ([Turn]: a ready worker gets the mutex; [Return]: a callback
    returns; [Wake]: a wait returns without a broadcast, which POSIX allows).
    [Create] and [Join] carry the result of the library call, and the calls
    that test [pthread_mutex_lock] carry its answer in [locks] or [stops].  The
    workers do not test it: their locks succeed. *)
Inductive choice : Type :=
  | Submit (locks : bool) (work : Z) (key : string)
  | RequestStop (locks : bool)
  | Start (locks : bool)
  | Create (granted : bool) (stops : bool * bool)
  | Finish (locks : bool)
  | Close (locks : bool)
  | Join (joined : bool)
  | Turn (thread : Z)
  | Return (thread : Z)
  | Wake (thread : Z).

(** A client calls only while the queue is open. *)
Definition client (w : world) (k : server_request_queue -> option (outcome world))
    : option (outcome world) :=
  match w_queue w with Some q => k q | None => None end.

(** A thread of the queue uses the structure whether or not it was freed. *)
Definition access (w : world) (k : server_request_queue -> outcome world) : option (outcome world) :=
  Some match w_queue w with Some q => k q | None => Fault UseAfterFree end.

Definition worker_turn (thread : Z) (inner : bool) (w : world) (q : server_request_queue)
    : outcome world :=
  '(q', t, events) ← (if inner then worker_inner q else worker_outer q);
  Done (emit events (with_threads (zset (w_threads w) thread t) (with_queue q' w))).

(** One atomic transition; [None] when the choice is not possible. *)
Definition step (c : choice) (w : world) : option (outcome world) :=
  match c with
  | Submit locks work key => client w (fun q => Some
      match yvex_server_request_queue_submit locks q work key with
      | Done (q', _) => Done (broadcast (emit (Submitted (mk_entry work key) :: observation q')
                                          (with_queue q' w)))
      | Refuse status _ => Done (emit [Refused status] w)
      | Fault f => Fault f
      end)
  | RequestStop locks => client w (fun q => Some (Done (stop_requested locks q w)))
  | Start locks => client w (fun q =>
      match w_control w with
      | Idle => Some
          match yvex_server_request_queue_start locks q with
          | Done q' => Done (with_control (Starting 0) (with_queue q' w))
          | Refuse status reason => Done (emit [Returned CallStart (Refuse status reason)] w)
          | Fault f => Fault f
          end
      | _ => None
      end)
  | Create granted stops =>
      match w_control w with
      | Starting index => access w (fun q => Done (start_create granted stops index q w))
      | _ => None
      end
  | Finish locks => client w (fun q =>
      match w_control w with
      | Idle => Some (Done (yvex_server_request_queue_finish locks CallFinish q w))
      | _ => None
      end)
  | Close locks => client w (fun q =>
      match w_control w with
      | Idle => Some (Done (yvex_server_request_queue_finish locks CallClose q w))
      | _ => None
      end)
  | Join joined =>
      match w_control w with
      | Joining call index failed =>
          match joined, zget (w_threads w) index with
          | true, Some Exited => access w (fun q => Done (finish_joins call (index + 1) failed q w))
          | true, _ => None
          | false, _ => access w (fun q => Done (finish_joins call (index + 1) true q w))
          end
      | _ => None
      end
  | Turn thread =>
      match zget (w_threads w) thread with
      | Some (Ready inner) => access w (worker_turn thread inner w)
      | _ => None
      end
  | Return thread =>
      match zget (w_threads w) thread with
      | Some (Executing e) => access w (fun q =>
          '(q', events) ← worker_return q e;
          Done (broadcast (emit events
            (with_threads (zset (w_threads w) thread (Ready false)) (with_queue q' w)))))
      | _ => None
      end
  | Wake thread =>
      match zget (w_threads w) thread with
      | Some (Waiting inner) => Some (Done (with_threads (zset (w_threads w) thread (Ready inner)) w))
      | _ => None
      end
  end.

(** A schedule, as long as every choice is possible. *)
Fixpoint run (cs : list choice) (w : world) : option (outcome world) :=
  match cs with
  | [] => Some (Done w)
  | c :: cs => match step c w with
               | Some (Done w) => run cs w
               | r => r
               end
  end.

Definition opened (q : server_request_queue) : world := mk_world (Some q) [] Idle [].

(** The library calls whose failure the code does not survive: a failed join
    makes [finish] forget a worker that still runs, and a failed lock makes it
    end without a stop.  ([pthread_join] fails only for threads that are not
    joinable or for a thread that joins itself; [pthread_mutex_lock] does not
    fail on an initialised default mutex.)  Every other failure is a choice:
    thread creation, and the locks of [submit], [request_stop], [start] and one
    of the two stops after a failed creation. *)
Definition dependable (c : choice) : bool :=
  match c with
  | Join false | Finish false | Close false | Create false (false, false) => false
  | _ => true
  end.

(** The worlds that a queue which [open] returned can reach by such choices. *)
Inductive reachable : world -> Prop :=
  | reachable_open alloc mutex condition capacity workers execute observe q :
      0 <= capacity -> 0 <= workers ->
      yvex_server_request_queue_open alloc mutex condition capacity workers execute observe = Done q ->
      reachable (opened q)
  | reachable_step w c w' :
      reachable w -> dependable c = true -> step c w = Some (Done w') -> reachable w'.

(** ** Examples *)

Definition demo_queue : server_request_queue :=
  mk_request_queue (replicate 3 entry_zero) (replicate 2 ""%string) true 3 0 2 0 0
    true true false false false.

Example demo_open :
  yvex_server_request_queue_open (fun _ => true) true true 3 2 true true = Done demo_queue.
Proof. reflexivity. Qed.

(** Two workers; the second entry of session [a] waits for the first. *)
Definition demo_schedule : list choice :=
  [Start true; Create true (true, true); Create true (true, true); Submit true 1 "a";
   Submit true 2 "a"; Submit true 3 "b"; Turn 0; Turn 1; Return 1; Turn 1; Finish true; Turn 1;
   Return 0; Turn 1; Return 1; Turn 0; Turn 1; Join true; Join true; Close true].

Example demo_run : is_Some (run demo_schedule (opened demo_queue)).
Proof. vm_compute. eauto. Qed.

(** * Theorems *)

(** ** Arrays as lists *)

(** Removing an element by moving the ones after it. *)
Lemma shift_down_spec {A} (pre : list A) x post rest :
  exists y, shift_down (length post) (zlen pre) (pre ++ x :: post ++ rest)
            = Done (pre ++ post ++ y :: rest).
Proof.
  revert pre x. induction post as [|p post IH]; intros pre x; [by exists x|].
  cbn [shift_down length]. unfold read_at.
  replace (zget (pre ++ x :: (p :: post) ++ rest) (zlen pre + 1)) with (Some p).
  2: { change (pre ++ x :: (p :: post) ++ rest) with (pre ++ [x] ++ p :: (post ++ rest)).
       rewrite app_assoc. replace (zlen pre + 1) with (zlen (pre ++ [x])) by by rewrite zlen_app.
       by rewrite zget_middle. }
  cbn [mbind outcome_bind]. rewrite write_at_middle. cbn [mbind outcome_bind app].
  destruct (IH (pre ++ [p]) p) as [y Hy]. exists y.
  rewrite <- !app_assoc in Hy. cbn in Hy. rewrite zlen_app in Hy. exact Hy.
Qed.

(** ** The structure as two lists *)

(** [pend] are the pending entries and [act] the active keys, in array order. *)
Record view (q : server_request_queue) (pend : list request_queue_entry) (act : list string) : Prop := {
  v_queue : exists tail, rq_queue q = pend ++ tail;
  v_queue_count : rq_queue_count q = zlen pend;
  v_active : exists tail, rq_active q = act ++ tail;
  v_active_count : rq_active_count q = zlen act;
  v_capacity : zlen (rq_queue q) = rq_queue_capacity q;
  v_workers : zlen (rq_active q) = rq_worker_count q;
  v_capacity_max : rq_queue_capacity q <= SIZE_MAX / SIZEOF_QUEUE_ENTRY;
  v_workers_max : rq_worker_count q <= SIZE_MAX / SIZEOF_QUEUE_ACTIVE;
  v_workers_some : 0 < rq_worker_count q;
  v_mutex : rq_mutex_ready q = true
}.

Definition pending (q : server_request_queue) : list request_queue_entry :=
  take (Z.to_nat (rq_queue_count q)) (rq_queue q).
Definition active_keys (q : server_request_queue) : list string :=
  take (Z.to_nat (rq_active_count q)) (rq_active q).

Lemma view_pending q pend act : view q pend act -> pending q = pend.
Proof.
  intros V. unfold pending. rewrite (v_queue_count _ _ _ V).
  destruct (v_queue _ _ _ V) as [tail ->]. apply take_zlen_app.
Qed.
Lemma view_active q pend act : view q pend act -> active_keys q = act.
Proof.
  intros V. unfold active_keys. rewrite (v_active_count _ _ _ V).
  destruct (v_active _ _ _ V) as [tail ->]. apply take_zlen_app.
Qed.

Lemma view_bounds q pend act :
  view q pend act ->
  zlen pend <= rq_queue_capacity q /\ zlen act <= rq_worker_count q
  /\ rq_queue_capacity q < 2 ^ 63 /\ rq_worker_count q < 2 ^ 63.
Proof.
  intros [[qt Hq] _ [at' Ha] _ Hc Hw Hcm Hwm _ _]. rewrite Hq in Hc. rewrite Ha in Hw.
  autorewrite with zlen in *. pose proof (zlen_nonneg qt). pose proof (zlen_nonneg at').
  assert (SIZE_MAX / SIZEOF_QUEUE_ENTRY < 2 ^ 63) by reflexivity.
  assert (SIZE_MAX / SIZEOF_QUEUE_ACTIVE < 2 ^ 63) by reflexivity. lia.
Qed.

Lemma existsO_pure {A} (f : A -> outcome bool) (p : A -> bool) l :
  Forall (fun x => f x = Done (p x)) l -> existsO f l = Done (existsb p l).
Proof.
  induction 1 as [|x l Hx _ IH]; [done|]. cbn. rewrite Hx. cbn.
  destruct (p x); [done|]. by rewrite IH.
Qed.

Lemma existsb_zseq {A} (p : A -> bool) (l : list A) :
  existsb (fun i => match zget l i with Some x => p x | None => false end) (zseq (zlen l))
  = existsb p l.
Proof.
  apply eq_bool_prop_intro. rewrite !Is_true_true, !existsb_exists. split.
  - intros (i & _ & H). destruct (zget l i) as [x|] eqn:E; [|done]. exists x. split; [|done].
    apply list_elem_of_In. by eapply zget_elem_of.
  - intros (x & Hx%list_elem_of_In & Hp). destruct (elem_of_zget _ _ Hx) as [i Hi]. exists i.
    rewrite Hi. split; [|done]. apply list_elem_of_In, elem_of_zseq. by eapply zget_Some_range.
Qed.

Lemma key_active_spec q pend act key :
  view q pend act -> request_queue_key_active q key = Done (bool_decide (key ∈ act)).
Proof.
  intros V. unfold request_queue_key_active. rewrite (v_active_count _ _ _ V).
  rewrite (existsO_pure _ (fun i => match zget act i with
                                    | Some k => String.eqb k key | None => false end)).
  - rewrite existsb_zseq. f_equal. apply eq_bool_prop_intro.
    rewrite Is_true_true, existsb_exists, bool_decide_spec. setoid_rewrite <- list_elem_of_In.
    setoid_rewrite String.eqb_eq. naive_solver.
  - apply Forall_forall. intros i Hi%elem_of_zseq. destruct (v_active _ _ _ V) as [tail ->].
    unfold read_at. rewrite zget_app_l by lia. destruct (zget_in act i Hi) as [k ->]. done.
Qed.

Lemma view_set_queue q pend act pend' tail :
  view q pend act -> zlen (pend' ++ tail) = zlen (rq_queue q) ->
  view (set_queue (pend' ++ tail) (zlen pend') q) pend' act.
Proof. intros [] H. constructor; cbn; eauto. by rewrite H. Qed.

Lemma view_set_active q pend act act' tail :
  view q pend act -> zlen (act' ++ tail) = zlen (rq_active q) ->
  view (set_active (act' ++ tail) (zlen act') q) pend act'.
Proof. intros [] H. constructor; cbn; eauto. by rewrite H. Qed.

(** The fields outside the two arrays. *)
Definition same_frame (q q' : server_request_queue) : Prop :=
  rq_observe q' = rq_observe q /\ rq_queue_capacity q' = rq_queue_capacity q
  /\ rq_worker_count q' = rq_worker_count q /\ rq_worker_started q' = rq_worker_started q
  /\ rq_started q' = rq_started q /\ rq_stopping q' = rq_stopping q
  /\ rq_finished q' = rq_finished q.

(** Selection takes the first pending entry whose key is not active. *)
Lemma select_spec q pend act :
  view q pend act -> zlen act < rq_worker_count q ->
  (Forall (fun e => entry_key e ∈ act) pend /\ request_queue_select_locked q = Done (q, None))
  \/ exists pre e post q', pend = pre ++ e :: post
       /\ Forall (fun e => entry_key e ∈ act) pre /\ entry_key e ∉ act
       /\ request_queue_select_locked q = Done (q', Some e)
       /\ view q' (pre ++ post) (act ++ [entry_key e]) /\ same_frame q q'.
Proof.
  intros V Hroom. pose proof (view_bounds _ _ _ V) as (_ & _ & Hcap & Hwork).
  pose proof (view_bounds _ _ _ V) as (Hpc & _ & _ & _).
  destruct (v_queue _ _ _ V) as [tail Hq]. unfold request_queue_select_locked.
  rewrite (v_queue_count _ _ _ V), to_nat_zlen.
  destruct (scan_spec (fun e => negb (bool_decide (entry_key e ∈ act)))
    (fun index => e ← read_at (rq_queue q) index;
       active ← request_queue_key_active q (entry_key e); Done (negb active)) [] pend tail)
    as [[Hf E]|(pre & e & post & -> & Hf & He & E)].
  { intros i x Hx _. cbn in Hx. unfold read_at. rewrite Hq, Hx. cbn.
    by rewrite (key_active_spec _ _ _ _ V). }
  - left. split; [eapply Forall_impl; [exact Hf|]; cbn; intros x;
      rewrite negb_false_iff; apply bool_decide_eq_true_1|].
    change (zlen (@nil request_queue_entry)) with 0 in E. rewrite E. cbn. by rewrite Z.eqb_refl.
  - right. apply negb_true_iff, bool_decide_eq_false in He.
    change (zlen (@nil request_queue_entry)) with 0 in E. rewrite E. cbn [mbind outcome_bind app].
    pose proof (zlen_nonneg post). autorewrite with zlen in Hpc |- *.
    replace (zlen pre =? zlen pre + (zlen post + 1)) with false by lia.
    unfold read_at. rewrite Hq, <- app_assoc. cbn [app]. rewrite zget_middle. cbn [mbind outcome_bind app].
    replace (Z.to_nat (zlen pre + (zlen post + 1) - 1 - zlen pre)) with (length post)
      by (unfold zlen; lia).
    destruct (shift_down_spec pre e post tail) as [y ->]. cbn [mbind outcome_bind].
    pose proof (zlen_nonneg pre).
    rewrite (u64_id (zlen pre + (zlen post + 1) - 1)) by (unfold is_u64; lia).
    replace (zlen pre + (zlen post + 1) - 1) with (zlen (pre ++ post)) by (autorewrite with zlen; lia).
    rewrite app_assoc, write_at_middle. cbn [mbind outcome_bind].
    destruct (v_active _ _ _ V) as [atail Ha]. rewrite (v_active_count _ _ _ V), Ha.
    destruct atail as [|a atail].
    { pose proof (v_workers _ _ _ V) as Hw. rewrite Ha, app_nil_r in Hw. lia. }
    rewrite write_at_middle. cbn [mbind outcome_bind]. pose proof (zlen_nonneg act).
    rewrite u64_id by (unfold is_u64; lia).
    exists pre, e, post. eexists. split; [done|].
    split; [eapply Forall_impl; [exact Hf|]; cbn; intros x;
      rewrite negb_false_iff; apply bool_decide_eq_true_1|].
    split; [done|]. split; [done|]. split; [|done].
    change (act ++ entry_key e :: atail) with (act ++ [entry_key e] ++ atail). rewrite app_assoc.
    replace (zlen act + 1) with (zlen (act ++ [entry_key e])) by by rewrite zlen_app.
    apply (view_set_active _ _ act).
    + apply (view_set_queue q _ _ _ _ V). rewrite Hq. autorewrite with zlen. lia.
    + cbn. rewrite Ha. autorewrite with zlen. lia.
Qed.

Lemma release_spec q pend act key :
  view q pend act -> key ∈ act ->
  exists pre post q', act = pre ++ key :: post
    /\ request_queue_release_locked q key = Done q'
    /\ view q' pend (pre ++ post) /\ same_frame q q'.
Proof.
  intros V Hk. pose proof (view_bounds _ _ _ V) as (_ & Hac & _ & Hwork).
  destruct (v_active _ _ _ V) as [tail Ha]. unfold request_queue_release_locked.
  rewrite (v_active_count _ _ _ V), to_nat_zlen.
  destruct (scan_spec (fun k => String.eqb k key)
    (fun index => k ← read_at (rq_active q) index; Done (String.eqb k key)) [] act tail)
    as [[Hf _]|(pre & e & post & -> & _ & He & E)].
  { intros i x Hx _. cbn in Hx. unfold read_at. by rewrite Ha, Hx. }
  { exfalso. rewrite Forall_forall in Hf. apply Hf in Hk. by rewrite String.eqb_refl in Hk. }
  apply String.eqb_eq in He as ->.
  change (zlen (@nil string)) with 0 in E. rewrite E. cbn [mbind outcome_bind app].
  pose proof (zlen_nonneg post). pose proof (zlen_nonneg pre). autorewrite with zlen in Hac |- *.
  replace (zlen pre =? zlen pre + (zlen post + 1)) with false by lia.
  replace (Z.to_nat (zlen pre + (zlen post + 1) - 1 - zlen pre)) with (length post)
    by (unfold zlen; lia).
  rewrite Ha, <- app_assoc. destruct (shift_down_spec pre key post tail) as [y Hy].
  cbn [app] in Hy |- *. rewrite Hy. cbn [mbind outcome_bind].
  rewrite u64_id by (unfold is_u64; lia).
  replace (zlen pre + (zlen post + 1) - 1) with (zlen (pre ++ post)) by (autorewrite with zlen; lia).
  rewrite app_assoc, write_at_middle. cbn [mbind outcome_bind].
  exists pre, post. eexists. split; [done|]. split; [done|]. split; [|done].
  apply (view_set_active q _ _ _ _ V). rewrite Ha. autorewrite with zlen. lia.
Qed.

(** Submission appends to the pending entries, or refuses and changes nothing. *)
Lemma submit_view locks q pend act work key :
  view q pend act ->
  (exists q' depth, yvex_server_request_queue_submit locks q work key = Done (q', depth)
     /\ view q' (pend ++ [mk_entry work key]) act /\ same_frame q q'
     /\ depth = zlen pend + 1 /\ rq_stopping q = false)
  \/ exists status reason, yvex_server_request_queue_submit locks q work key = Refuse status reason.
Proof.
  intros V. unfold yvex_server_request_queue_submit. rewrite (v_mutex _ _ _ V). cbn [negb].
  unfold refuse_if at 1. match goal with |- context [if ?b then Refuse _ _ else Done tt] =>
    destruct b; [right; eauto|] end. cbn [mbind outcome_bind].
  destruct (negb (rq_started q) || rq_stopping q || (rq_queue_count q =? rq_queue_capacity q)) eqn:E.
  { right. destruct (rq_queue_count q =? rq_queue_capacity q); eauto. }
  left. bool_hyps. pose proof (view_bounds _ _ _ V) as (Hpc & _ & Hcap & _).
  destruct (v_queue _ _ _ V) as [tail Hq]. rewrite (v_queue_count _ _ _ V) in *.
  pose proof (v_capacity _ _ _ V) as Hc. rewrite Hq in Hc |- *.
  destruct tail as [|t tail]; [rewrite app_nil_r in Hc; lia|].
  rewrite write_at_middle. cbn [mbind outcome_bind]. pose proof (zlen_nonneg pend).
  rewrite u64_id by (unfold is_u64; lia). do 2 eexists. split; [done|].
  split; [|done].
  change (pend ++ mk_entry work key :: tail) with (pend ++ [mk_entry work key] ++ tail).
  rewrite app_assoc. replace (zlen pend + 1) with (zlen (pend ++ [mk_entry work key])) by by rewrite zlen_app.
  apply (view_set_queue q _ _ _ _ V). rewrite Hq. autorewrite with zlen. lia.
Qed.

(** ** Accounting of entries *)

Definition executing (t : worker_state) : option request_queue_entry :=
  match t with Executing e => Some e | _ => None end.
Definition running (ts : list worker_state) : list request_queue_entry := omap executing ts.
Definition submitted (tr : list event) : list request_queue_entry :=
  omap (fun ev => match ev with Submitted e => Some e | _ => None end) tr.
Definition ended (tr : list event) : list request_queue_entry :=
  omap (fun ev => match ev with Ended e => Some e | _ => None end) tr.
Definition with_key (k : string) (l : list request_queue_entry) : list request_queue_entry :=
  filter (fun e => entry_key e = k) l.

Lemma running_cons t ts :
  running (t :: ts) = match executing t with Some e => e :: running ts | None => running ts end.
Proof. reflexivity. Qed.

Lemma running_wake ts : running (wake <$> ts) = running ts.
Proof.
  induction ts as [|t ts IH]; [done|]. rewrite fmap_cons, !running_cons, IH. by destruct t.
Qed.

Lemma running_app a b : running (a ++ b) = running a ++ running b.
Proof. apply omap_app. Qed.
Lemma submitted_app a b : submitted (a ++ b) = submitted a ++ submitted b.
Proof. apply omap_app. Qed.
Lemma ended_app a b : ended (a ++ b) = ended a ++ ended b.
Proof. apply omap_app. Qed.
Lemma with_key_app k a b : with_key k (a ++ b) = with_key k a ++ with_key k b.
Proof. apply filter_app. Qed.
Lemma observation_silent q : submitted (observation q) = [] /\ ended (observation q) = [].
Proof. unfold observation. by repeat split_match. Qed.

#[local] Hint Rewrite running_wake running_app submitted_app ended_app with_key_app : queue.

Lemma elem_of_running e ts : e ∈ running ts <-> Executing e ∈ ts.
Proof.
  unfold running. rewrite list_elem_of_omap. split.
  - intros (t & Ht & E). destruct t; naive_solver.
  - intros H. by exists (Executing e).
Qed.

Lemma elem_of_wake t (ts : list worker_state) : t ∈ wake <$> ts -> (forall b, t <> Waiting b) /\ (t ∈ ts \/ exists b, t = Ready b).
Proof. intros (t' & -> & H)%list_elem_of_fmap. destruct t'; naive_solver. Qed.

(** ** Invariant *)

Definition control_ok (q : server_request_queue) (ts : list worker_state) (c : control) : Prop :=
  match c with
  | Idle => rq_finished q = false -> rq_worker_started q = zlen ts
  | Starting index =>
      index = zlen ts /\ rq_worker_started q = index /\ index < rq_worker_count q
      /\ rq_finished q = false /\ rq_started q = true
  | Joining _ index _ =>
      rq_stopping q = true /\ rq_finished q = false /\ rq_worker_started q = zlen ts
      /\ 0 <= index < zlen ts /\ (forall i, i < index -> zget ts i = Some Exited \/ i < 0)
  end.

(** What holds whatever the condition variable says. *)
Record core (q : server_request_queue) (pend : list request_queue_entry) (act : list string)
    (ts : list worker_state) (c : control) (tr : list event) : Prop := {
  c_view : view q pend act;
  c_active : act ≡ₚ entry_key <$> running ts;
  c_nodup : NoDup act;
  c_threads : zlen ts <= rq_worker_count q;
  c_exited : Exited ∈ ts -> rq_stopping q = true /\ pend = [];
  c_account : forall k, with_key k (submitted tr)
                        = with_key k (ended tr) ++ with_key k (running ts) ++ with_key k pend;
  c_finished : rq_finished q = true -> rq_stopping q = true /\ Forall (eq Exited) ts;
  c_unstarted : rq_started q = false -> ts = [];
  c_control : control_ok q ts c
}.

(** No lost wake-up: while a worker waits, nothing can be selected and the exit
    condition does not hold. *)
Definition waits (q : server_request_queue) (pend : list request_queue_entry) (act : list string)
    (ts : list worker_state) : Prop :=
  forall b, Waiting b ∈ ts ->
    Forall (fun e => entry_key e ∈ act) pend /\ (rq_stopping q = true -> pend <> []).

Definition world_ok (w : world) : Prop :=
  match w_queue w with
  | Some q => exists pend act, core q pend act (w_threads w) (w_control w) (w_trace w)
                               /\ waits q pend act (w_threads w)
  | None => Forall (eq Exited) (w_threads w) /\ w_control w = Idle
  end.

Lemma waits_wake q pend act ts : waits q pend act (wake <$> ts).
Proof. intros b H%elem_of_wake. naive_solver. Qed.

Lemma control_ok_wake q ts c : control_ok q ts c -> control_ok q (wake <$> ts) c.
Proof.
  unfold control_ok, zlen. rewrite length_fmap. destruct c as [|i|call i f]; [done..|].
  intros (? & ? & ? & ? & Hi). do 4 (split; [done|]). intros j Hj.
  destruct (Hi j Hj) as [Hz|?]; [left|by right].
  destruct (zget_split _ _ _ Hz) as (pre & post & -> & ->). rewrite fmap_app, fmap_cons. cbn.
  replace (zlen pre) with (zlen (wake <$> pre)) by (unfold zlen; by rewrite length_fmap).
  apply zget_middle.
Qed.

Lemma core_wake q pend act ts c tr : core q pend act ts c tr -> core q pend act (wake <$> ts) c tr.
Proof.
  intros []. constructor; autorewrite with queue; try done.
  - unfold zlen in *. by rewrite length_fmap.
  - intros [_ [H|[b Hb]]]%elem_of_wake; [auto|done].
  - intros Hf. destruct (c_finished0 Hf) as [? Hall]. split; [done|].
    rewrite Forall_fmap. eapply Forall_impl; [exact Hall|]. by intros t <-.
  - intros Hs. by rewrite (c_unstarted0 Hs).
  - by apply control_ok_wake.
Qed.

(** A trace extended by events that neither submit nor end an entry. *)
Lemma core_emit q pend act ts c tr l :
  core q pend act ts c tr -> submitted l = [] -> ended l = [] -> core q pend act ts c (tr ++ l).
Proof.
  intros [] Hs He. constructor; try done. intros k. autorewrite with queue.
  by rewrite Hs, He, !app_nil_r.
Qed.

Lemma control_ok_frame q q' ts c : same_frame q q' -> control_ok q ts c -> control_ok q' ts c.
Proof. intros (_ & _ & E1 & E2 & E3 & E4 & E5). unfold control_ok. by rewrite E1, E2, E3, E4, E5. Qed.

Lemma submit_core q q' pend act ts c tr e :
  core q pend act ts c tr -> same_frame q q' -> view q' (pend ++ [e]) act -> rq_stopping q = false ->
  core q' (pend ++ [e]) act ts c (tr ++ Submitted e :: observation q').
Proof.
  intros C F V Hs. pose proof F as (_ & _ & E1 & E2 & E3 & E4 & E5).
  change (tr ++ Submitted e :: observation q') with (tr ++ [Submitted e] ++ observation q').
  rewrite app_assoc.
  destruct (observation_silent q'). apply core_emit; [|done..].
  destruct C. constructor; try done; rewrite ?E1, ?E2, ?E3, ?E4, ?E5; try done.
  - intros [Hx _]%c_exited0. congruence.
  - intros k. autorewrite with queue. rewrite c_account0. cbn. by rewrite !app_nil_r, <- !app_assoc.
  - by eapply control_ok_frame.
Qed.

(** ** Preservation *)

Lemma with_key_fresh k l : k ∉ entry_key <$> l -> with_key k l = [].
Proof.
  intros H. unfold with_key.
  induction l as [|e l IH]; [done|]. rewrite fmap_cons, not_elem_of_cons in H.
  rewrite filter_cons_False by (destruct H; congruence). naive_solver.
Qed.

Lemma with_key_eq e l : with_key (entry_key e) (e :: l) = e :: with_key (entry_key e) l.
Proof. by apply filter_cons_True. Qed.
Lemma with_key_ne k e l : entry_key e <> k -> with_key k (e :: l) = with_key k l.
Proof. intros. by apply filter_cons_False. Qed.

Lemma running_length ts : (length (running ts) <= length ts)%nat.
Proof. induction ts as [|t ts IH]; [done|]. rewrite running_cons. destruct t; cbn; lia. Qed.

Lemma view_set_phase q pend act a b c : view q pend act -> view (set_phase a b c q) pend act.
Proof. by intros []. Qed.
Lemma view_set_worker_started q pend act n : view q pend act -> view (set_worker_started n q) pend act.
Proof. by intros []. Qed.

Lemma stop_core q pend act ts c tr :
  core q pend act ts c tr ->
  core (yvex_server_request_queue_request_stop true q) pend act ts c tr.
Proof.
  intros C. unfold yvex_server_request_queue_request_stop.
  rewrite (v_mutex _ _ _ (c_view _ _ _ _ _ _ C)). cbn. destruct C.
  constructor; cbn; try done.
  - by apply view_set_phase.
  - intros H. split; [done|]. by apply c_exited0.
  - intros H. split; [done|]. by apply c_finished0.
  - destruct c as [|i|call i f]; try done. cbn in *. by destruct c_control0 as (_ & ?).
Qed.

(** A call of [request_stop], whether or not the mutex can be locked. *)
Lemma stop_requested_ok locks q pend act c w :
  core q pend act (w_threads w) c (w_trace w) -> waits q pend act (w_threads w) ->
  let q' := yvex_server_request_queue_request_stop locks q in
  let w' := stop_requested locks q w in
  core q' pend act (w_threads w') c (w_trace w') /\ waits q' pend act (w_threads w')
  /\ w_queue w' = Some q' /\ w_control w' = w_control w
  /\ zlen (w_threads w') = zlen (w_threads w) /\ rq_finished q' = rq_finished q
  /\ rq_worker_started q' = rq_worker_started q /\ rq_stopping q' = locks || rq_stopping q.
Proof.
  intros C W. pose proof (v_mutex _ _ _ (c_view _ _ _ _ _ _ C)) as Hm. cbn zeta.
  pose proof (stop_core _ _ _ _ _ _ C) as C1. revert C1. unfold stop_requested.
  rewrite Hm. destruct locks; cbn; intros C1.
  - split; [by apply core_wake|]. split; [apply waits_wake|]. unfold zlen. rewrite length_fmap.
    unfold yvex_server_request_queue_request_stop. by rewrite Hm.
  - unfold yvex_server_request_queue_request_stop. rewrite orb_true_r. by split_and!.
Qed.

Lemma control_ok_replace q pre t t' post c :
  t <> Exited -> control_ok q (pre ++ t :: post) c -> control_ok q (pre ++ t' :: post) c.
Proof.
  intros Ht. unfold control_ok. autorewrite with zlen. destruct c as [|i|call i f]; [done..|].
  intros (? & ? & ? & Hr & Hi). do 4 (split; [done|]). intros j Hj.
  destruct (Hi j Hj) as [Hz|?]; [left|by right].
  destruct (decide (j = zlen pre)) as [->|Hne].
  { rewrite zget_middle in Hz. by simplify_eq. }
  rewrite <- (zset_middle pre t t' post). by rewrite zget_zset_ne.
Qed.

(** A thread that executes nothing moves to another such place. *)
Lemma replace_core q pend act pre t t' post c tr :
  core q pend act (pre ++ t :: post) c tr -> t <> Exited -> executing t = None ->
  executing t' = None -> (t' = Exited -> rq_stopping q = true /\ pend = []) ->
  core q pend act (pre ++ t' :: post) c tr.
Proof.
  intros C Ht Et Et' Hx.
  assert (running (pre ++ t' :: post) = running (pre ++ t :: post)) as Hr.
  { autorewrite with queue. by rewrite !running_cons, Et, Et'. }
  destruct C. constructor; rewrite ?Hr; try done.
  - by autorewrite with zlen in *.
  - rewrite elem_of_app, elem_of_cons. intros [H|[H|H]]; [apply c_exited0; set_solver|auto|].
    apply c_exited0; set_solver.
  - intros [_ Hf]%c_finished0. apply Forall_app in Hf as [_ Hf]. inversion Hf. by subst.
  - intros H%c_unstarted0. by destruct pre.
  - by eapply control_ok_replace.
Qed.

(** A ready worker selects an entry. *)
Lemma select_core q q' p1 e p2 act pre b post c tr :
  core q (p1 ++ e :: p2) act (pre ++ Ready b :: post) c tr ->
  Forall (fun e => entry_key e ∈ act) p1 -> entry_key e ∉ act ->
  view q' (p1 ++ p2) (act ++ [entry_key e]) -> same_frame q q' ->
  core q' (p1 ++ p2) (act ++ [entry_key e]) (pre ++ Executing e :: post) c
    (tr ++ observation q' ++ [Began e]).
Proof.
  intros C Hp1 He V F. pose proof F as (_ & _ & E1 & E2 & E3 & E4 & E5).
  destruct (observation_silent q') as [Os Oe].
  apply core_emit; [|autorewrite with queue; by rewrite ?Os, ?Oe..].
  destruct C. constructor; rewrite ?E1, ?E2, ?E3, ?E4, ?E5; try done.
  - rewrite c_active0. autorewrite with queue. rewrite !running_cons. cbn [executing].
    rewrite !fmap_app, fmap_cons. rewrite <- app_assoc.
    apply Permutation_app_head. symmetry. apply Permutation_cons_append.
  - apply NoDup_app. split; [done|]. split; [|apply NoDup_singleton]. set_solver.
  - by autorewrite with zlen in *.
  - intros H. destruct c_exited0 as [_ Habs]; [set_solver|]. by destruct p1.
  - intros k. rewrite c_account0. f_equal. autorewrite with queue. rewrite !running_cons.
    cbn [executing]. destruct (decide (entry_key e = k)) as [<-|Hne].
    + rewrite !with_key_eq, (with_key_fresh _ p1).
      2: { intros (x & Ex & Hx)%list_elem_of_fmap. rewrite Forall_forall in Hp1.
           apply Hp1 in Hx. congruence. }
      assert (entry_key e ∉ entry_key <$> running (pre ++ Ready b :: post)) as Hfr.
      { by rewrite <- c_active0. }
      autorewrite with queue in Hfr. rewrite running_cons, fmap_app, not_elem_of_app in Hfr.
      destruct Hfr as [Hf1 Hf2]. cbn in Hf2. by rewrite (with_key_fresh _ _ Hf1), (with_key_fresh _ _ Hf2).
    + by rewrite !with_key_ne.
  - intros [_ Hf]%c_finished0. apply Forall_app in Hf as [_ Hf]. inversion Hf. by subst.
  - intros H%c_unstarted0. by destruct pre.
  - eapply control_ok_frame; [done|]. by apply (control_ok_replace _ _ (Ready b)).
Qed.

(** A callback returns. *)
Lemma release_core q q' pend a1 e a2 pre post c tr :
  core q pend (a1 ++ entry_key e :: a2) (pre ++ Executing e :: post) c tr ->
  view q' pend (a1 ++ a2) -> same_frame q q' ->
  core q' pend (a1 ++ a2) (pre ++ Ready false :: post) c (tr ++ Ended e :: observation q').
Proof.
  intros C V F. pose proof F as (_ & _ & E1 & E2 & E3 & E4 & E5).
  destruct (observation_silent q') as [Os Oe].
  change (tr ++ Ended e :: observation q') with (tr ++ [Ended e] ++ observation q').
  rewrite app_assoc. apply core_emit; [|done..]. destruct C.
  autorewrite with queue in c_active0. rewrite running_cons, fmap_app in c_active0. cbn in c_active0.
  assert (NoDup (entry_key <$> (running pre ++ e :: running post))) as Hnd.
  { rewrite fmap_app, fmap_cons. by rewrite <- c_active0. }
  constructor; rewrite ?E1, ?E2, ?E3, ?E4, ?E5; try done.
  - autorewrite with queue. rewrite running_cons. cbn [executing]. rewrite fmap_app.
    by eapply Permutation_app_inv.
  - apply NoDup_app in c_nodup0 as (? & Hn & [??]%NoDup_cons). apply NoDup_app.
    split; [done|]. split; [set_solver|done].
  - by autorewrite with zlen in *.
  - intros H. apply c_exited0. set_solver.
  - intros k. rewrite submitted_app, ended_app, !with_key_app.
    change (with_key k (submitted [Ended e])) with (@nil request_queue_entry).
    rewrite app_nil_r, c_account0, <- app_assoc. f_equal. change (ended [Ended e]) with [e].
    autorewrite with queue. rewrite !running_cons. cbn [executing].
    destruct (decide (entry_key e = k)) as [<-|Hne].
    + rewrite fmap_app, fmap_cons in Hnd. apply NoDup_app in Hnd as (_ & Hd & [Hp _]%NoDup_cons).
      assert (entry_key e ∉ entry_key <$> running pre) as Hq by (intros H; apply Hd in H; set_solver).
      by rewrite !with_key_eq, (with_key_fresh _ _ Hp), (with_key_fresh _ _ Hq).
    + by rewrite !with_key_ne.
  - intros [_ Hf]%c_finished0. apply Forall_app in Hf as [_ Hf]. inversion Hf. by subst.
  - intros H%c_unstarted0. by destruct pre.
  - eapply control_ok_frame; [done|]. by apply (control_ok_replace _ _ (Executing e)).
Qed.

Lemma core_control q pend act ts c c' tr :
  core q pend act ts c tr -> control_ok q ts c' -> core q pend act ts c' tr.
Proof. by intros [] ?. Qed.

Lemma all_exited ts index :
  zlen ts <= index -> (forall i, i < index -> zget ts i = Some Exited \/ i < 0) ->
  Forall (eq Exited) ts.
Proof.
  intros Hi H. apply Forall_forall. intros t Ht. destruct (elem_of_zget _ _ Ht) as [i Hz].
  pose proof (zget_Some_range _ _ _ Hz). destruct (H i) as [E|?]; [lia|congruence|lia].
Qed.

Lemma finish_joins_ok call index failed q pend act ts c tr w :
  core q pend act ts c tr -> waits q pend act ts -> w_threads w = ts -> w_trace w = tr ->
  w_queue w = Some q -> rq_stopping q = true -> rq_finished q = false ->
  rq_worker_started q = zlen ts -> 0 <= index ->
  (forall i, i < index -> zget ts i = Some Exited \/ i < 0) ->
  world_ok (finish_joins call index failed q w).
Proof.
  intros C W <- <- Hq Hs Hf Hn H0 Hi. unfold finish_joins. rewrite Hn.
  destruct (index <? zlen (w_threads w)) eqn:E.
  { unfold world_ok. cbn. rewrite Hq. exists pend, act. split; [|done].
    eapply core_control; [done|]. cbn. repeat split; try done. lia. }
  assert (Forall (eq Exited) (w_threads w)) as Hall by (eapply all_exited; [|exact Hi]; lia).
  assert (core (set_phase (rq_started q) (rq_stopping q) true (set_worker_started 0 q))
            pend act (w_threads w) Idle (w_trace w)) as C'.
  { destruct C. constructor; cbn; try done. by apply view_set_phase, view_set_worker_started. }
  destruct call; cbn; [| |by split]; exists pend, act; (split; [by apply core_emit|done]).
Qed.

(** [finish], called by a client or by [start] after a failed creation. *)
Lemma finish_ok locks call q pend act c w :
  core q pend act (w_threads w) c (w_trace w) -> waits q pend act (w_threads w) ->
  locks || rq_stopping q = true ->
  (rq_finished q = false -> rq_worker_started q = zlen (w_threads w)) ->
  (c = Idle /\ w_control w = Idle) \/ rq_finished q = false ->
  world_ok (yvex_server_request_queue_finish locks call q w).
Proof.
  intros C W Hl Hn Hc.
  destruct (stop_requested_ok locks _ _ _ _ _ C W) as (C1 & W1 & Hq & Hi & Hz & Hf & Hw & Hs).
  unfold yvex_server_request_queue_finish.
  set (q' := yvex_server_request_queue_request_stop locks q) in *.
  set (w' := stop_requested locks q w) in *. destruct (rq_finished q') eqn:Ef.
  - destruct Hc as [[-> Hi']|Hc]; [|congruence].
    destruct (c_finished _ _ _ _ _ _ C1 Ef) as [_ Hall].
    destruct call; [..|by split]; unfold world_ok; cbn; rewrite Hq, Hi, Hi'; exists pend, act;
      (split; [by apply core_emit|done]).
  - eapply finish_joins_ok; try done; [congruence|rewrite Hw, Hz; apply Hn; congruence|].
    intros i ?. right. lia.
Qed.

Lemma start_ok locks q pend act w :
  core q pend act (w_threads w) Idle (w_trace w) -> waits q pend act (w_threads w) ->
  w_queue w = Some q -> w_control w = Idle ->
  exists w', match yvex_server_request_queue_start locks q with
             | Done q' => Done (with_control (Starting 0) (with_queue q' w))
             | Refuse status reason => Done (emit [Returned CallStart (Refuse status reason)] w)
             | Fault f => Fault f
             end = Done w' /\ world_ok w'.
Proof.
  intros C W Hq Hi. unfold yvex_server_request_queue_start.
  rewrite (v_mutex _ _ _ (c_view _ _ _ _ _ _ C)).
  destruct locks; cbn [negb orb refuse_if mbind outcome_bind].
  2: { eexists. split; [done|]. unfold world_ok. cbn. rewrite Hq, Hi. exists pend, act.
       split; [by apply core_emit|done]. }
  destruct (rq_started q || rq_stopping q) eqn:E; eexists; (split; [done|]).
  - unfold world_ok. cbn. rewrite Hq, Hi. exists pend, act. split; [by apply core_emit|done].
  - bool_hyps. destruct C. pose proof (c_unstarted0 ltac:(done)) as Hts.
    assert (rq_finished q = false) as Hf.
    { destruct (rq_finished q); [|done]. destruct c_finished0; congruence. }
    exists pend, act. cbn. rewrite Hts in *. split; [|by intros b ?%not_elem_of_nil].
    constructor; cbn; try done; [by apply view_set_phase|].
    rewrite c_control0 by done. pose proof (v_workers_some _ _ _ c_view0). done.
Qed.

Lemma create_ok granted stops index q pend act w :
  dependable (Create granted stops) = true ->
  core q pend act (w_threads w) (Starting index) (w_trace w) -> waits q pend act (w_threads w) ->
  world_ok (start_create granted stops index q w).
Proof.
  intros Hd C W. pose proof (c_control _ _ _ _ _ _ C) as (-> & Hs & Hlt & Hf & Hst).
  destruct granted.
  - unfold start_create. pose proof (view_bounds _ _ _ (c_view _ _ _ _ _ _ C)) as (_ & _ & _ & Hmax).
    pose proof (zlen_nonneg (w_threads w)).
    rewrite Hs, u64_id by (unfold is_u64; lia).
    assert (forall c, control_ok (set_worker_started (zlen (w_threads w) + 1) q)
                        (w_threads w ++ [Ready false]) c ->
      core (set_worker_started (zlen (w_threads w) + 1) q) pend act (w_threads w ++ [Ready false]) c
           (w_trace w)) as C'.
    { intros c Hc. destruct C.
      assert (running (w_threads w ++ [Ready false]) = running (w_threads w)) as Hr
        by (autorewrite with queue; apply app_nil_r).
      constructor; cbn; rewrite ?Hr; try done; try congruence.
      - by apply view_set_worker_started.
      - autorewrite with zlen. lia.
      - intros [H'|H']%elem_of_app; [auto|set_solver]. }
    assert (waits (set_worker_started (zlen (w_threads w) + 1) q) pend act
              (w_threads w ++ [Ready false])) as W'.
    { intros b [H'|H']%elem_of_app; [by apply (W b)|set_solver]. }
    case_match eqn:E; exists pend, act; cbn; (split; [|done]); [|apply core_emit; [|done..]];
      apply C'; cbn; autorewrite with zlen; repeat split; try done; lia.
  - unfold start_create.
    destruct (stop_requested_ok (fst stops) _ _ _ _ _ C W) as (C1 & W1 & _ & _ & Hz & Hf1 & Hw & Hs1).
    eapply finish_ok; [exact C1|exact W1|..].
    + rewrite Hs1. destruct stops as [[] []]; cbn in *; rewrite ?orb_true_r; done.
    + intros _. by rewrite Hw, Hz.
    + right. congruence.
Qed.

Lemma waits_replace q pend act pre t t' post :
  waits q pend act (pre ++ t :: post) ->
  (forall b, t' = Waiting b ->
     Forall (fun e => entry_key e ∈ act) pend /\ (rq_stopping q = true -> pend <> [])) ->
  waits q pend act (pre ++ t' :: post).
Proof.
  intros W H b. rewrite elem_of_app, elem_of_cons. intros [Hb|[Hb|Hb]]; [|by apply (H b)|];
    apply (W b); set_solver.
Qed.

(** The worker stopped being ready: it took an entry or left the queue as it was. *)
Definition moved (pend : list request_queue_entry) (t : worker_state)
    (pend' : list request_queue_entry) : Prop :=
  match t with
  | Executing _ => length pend = S (length pend')
  | Ready _ => False
  | _ => pend' = pend
  end.

(** A ready worker gets the mutex, wherever it resumes. *)
Lemma worker_body_ok q pend act pre b post c tr :
  core q pend act (pre ++ Ready b :: post) c tr -> waits q pend act (pre ++ Ready b :: post) ->
  exists q' t events pend' act',
    (if b then worker_inner q else worker_outer q) = Done (q', t, events)
    /\ core q' pend' act' (pre ++ t :: post) c (tr ++ events)
    /\ waits q' pend' act' (pre ++ t :: post) /\ rq_stopping q' = rq_stopping q
    /\ moved pend t pend'.
Proof.
  intros C W. pose proof (c_view _ _ _ _ _ _ C) as V.
  assert (zlen act < rq_worker_count q) as Hroom.
  { pose proof (c_threads _ _ _ _ _ _ C) as Hts. pose proof (c_active _ _ _ _ _ _ C) as Ha.
    apply Permutation_length in Ha. rewrite length_fmap in Ha. autorewrite with queue in Ha.
    rewrite running_cons, length_app in Ha. cbn [executing] in Ha. autorewrite with zlen in Hts.
    pose proof (running_length pre). pose proof (running_length post). unfold zlen in *. lia. }
  pose proof (v_queue_count _ _ _ V) as Hc.
  assert (rq_queue_count q = 0 <-> pend = []) as Hnil.
  { rewrite Hc. split; [|by intros ->]. destruct pend; [done|]. autorewrite with zlen.
    pose proof (zlen_nonneg pend). lia. }
  assert (exists q' t events pend' act', worker_inner q = Done (q', t, events)
    /\ core q' pend' act' (pre ++ t :: post) c (tr ++ events)
    /\ waits q' pend' act' (pre ++ t :: post) /\ rq_stopping q' = rq_stopping q
    /\ moved pend t pend') as Hinner.
  { unfold worker_inner. destruct ((rq_queue_count q =? 0) && negb (rq_stopping q)) eqn:E1.
    { bool_hyps. assert (pend = []) as -> by (apply Hnil; lia).
      exists q, (Waiting true), [], [], act. split; [done|]. split.
      - rewrite app_nil_r. by eapply replace_core.
      - split; [|done]. eapply waits_replace; [done|]. intros _ _. split; [done|congruence]. }
    destruct (rq_stopping q && (rq_queue_count q =? 0)) eqn:E2.
    { bool_hyps. assert (pend = []) as -> by (apply Hnil; lia).
      exists q, Exited, [], [], act. split; [done|]. split.
      - rewrite app_nil_r. by eapply replace_core.
      - split; [by eapply waits_replace|done]. }
    assert (pend <> []) as Hne.
    { intros H%Hnil. rewrite H in *. by destruct (rq_stopping q). }
    destruct (select_spec _ _ _ V Hroom) as [[Hf ->]|(p1 & e & p2 & q' & -> & Hp1 & He & -> & V' & F)];
      cbn [mbind outcome_bind].
    - exists q, (Waiting false), [], pend, act. split; [done|]. split.
      + rewrite app_nil_r. by eapply replace_core.
      + split; [by eapply waits_replace|done].
    - do 5 eexists. split; [done|]. split; [by eapply select_core|].
      split; [|split; [apply F|cbn; rewrite !length_app; cbn; lia]].
      assert (forall b', Waiting b' ∉ pre ++ Ready b :: post) as Hno.
      { intros b' Hb. destruct (W b' Hb) as [Hall _]. apply Forall_app in Hall as [_ Hall].
        by inversion Hall. }
      intros b' Hb. exfalso. apply (Hno b'). set_solver. }
  destruct b; [done|]. unfold worker_outer.
  destruct (rq_stopping q && (rq_queue_count q =? 0)) eqn:E2; [|done].
  bool_hyps. assert (pend = []) as -> by (apply Hnil; lia).
  exists q, Exited, [], [], act. split; [done|]. split.
  - rewrite app_nil_r. by eapply replace_core.
  - split; [by eapply waits_replace|done].
Qed.

Lemma turn_ok thread b q pend act w :
  core q pend act (w_threads w) (w_control w) (w_trace w) -> waits q pend act (w_threads w) ->
  zget (w_threads w) thread = Some (Ready b) ->
  exists w', worker_turn thread b w q = Done w' /\ world_ok w'.
Proof.
  intros C W Hz. destruct (zget_split _ _ _ Hz) as (pre & post & Hts & ->). rewrite Hts in *.
  destruct (worker_body_ok _ _ _ _ _ _ _ _ C W) as (q' & t & events & pend' & act' & E & C' & W' & _).
  unfold worker_turn. rewrite E. cbn [mbind outcome_bind]. rewrite Hts, zset_middle.
  eexists. split; [done|]. exists pend', act'. by cbn.
Qed.

Lemma return_ok thread e q pend act w :
  core q pend act (w_threads w) (w_control w) (w_trace w) ->
  zget (w_threads w) thread = Some (Executing e) ->
  exists w', ('(q', events) ← worker_return q e;
     Done (broadcast (emit events
       (with_threads (zset (w_threads w) thread (Ready false)) (with_queue q' w))))) = Done w'
     /\ world_ok w'.
Proof.
  intros C Hz. destruct (zget_split _ _ _ Hz) as (pre & post & Hts & ->). rewrite Hts in *.
  assert (entry_key e ∈ act) as He.
  { rewrite (c_active _ _ _ _ _ _ C). apply list_elem_of_fmap. exists e. split; [done|].
    apply elem_of_running. set_solver. }
  destruct (release_spec _ _ _ _ (c_view _ _ _ _ _ _ C) He) as (a1 & a2 & q' & -> & E & V & F).
  unfold worker_return. rewrite E. cbn [mbind outcome_bind]. rewrite zset_middle.
  eexists. split; [done|]. exists pend, (a1 ++ a2). cbn. split; [|apply waits_wake].
  apply core_wake. by eapply release_core.
Qed.

(** Every possible choice leads to a world that satisfies the invariant. *)
Lemma step_ok w c r :
  world_ok w -> dependable c = true -> step c w = Some r -> exists w', r = Done w' /\ world_ok w'.
Proof.
  intros Hw Hj Hstep. unfold world_ok in Hw. destruct (w_queue w) as [q|] eqn:Hq.
  2: { destruct Hw as [Hall Hi]. rewrite Forall_forall in Hall.
       destruct c; cbn in Hstep; unfold client in Hstep; rewrite ?Hq, ?Hi in Hstep; try done;
         (destruct (zget (w_threads w) thread) as [t|] eqn:Hz; [|done]);
         apply zget_elem_of, Hall in Hz; by subst. }
  destruct Hw as (pend & act & C & W).
  destruct c; cbn in Hstep; unfold client, access in Hstep; rewrite ?Hq in Hstep; simplify_eq.
  - destruct (submit_view locks q pend act work key (c_view _ _ _ _ _ _ C))
      as [(q' & d & E & V & F & _ & Hs)|(s & reason & E)]; rewrite E in *; eexists; (split; [done|]).
    + exists (pend ++ [mk_entry work key]), act. cbn. split; [|apply waits_wake].
      apply core_wake. by eapply submit_core.
    + unfold world_ok. cbn. rewrite Hq. exists pend, act. split; [by apply core_emit|done].
  - destruct (stop_requested_ok locks _ _ _ _ _ C W) as (C1 & W1 & Hq' & Hc & _).
    eexists. split; [done|]. unfold world_ok. rewrite Hq', Hc. by exists pend, act.
  - destruct (w_control w) eqn:Hi; simplify_eq. by eapply start_ok.
  - destruct (w_control w) eqn:Hi; simplify_eq. eexists. split; [done|]. by eapply create_ok.
  - destruct (w_control w) eqn:Hi; simplify_eq. eexists. split; [done|].
    eapply finish_ok; [exact C|exact W|by destruct locks|apply C|auto].
  - destruct (w_control w) eqn:Hi; simplify_eq. eexists. split; [done|].
    eapply finish_ok; [exact C|exact W|by destruct locks|apply C|auto].
  - destruct (w_control w) as [| |call i f] eqn:Hi; [done..|]. destruct joined; [|done].
    destruct (zget (w_threads w) i) as [[]|] eqn:Hz; simplify_eq. eexists. split; [done|].
    pose proof (c_control _ _ _ _ _ _ C) as (Hs & Hf & Hn & Hr & Hx).
    eapply finish_joins_ok; try done; [lia|]. intros j Hj'.
    destruct (decide (j = i)) as [->|]; [by left|]. apply Hx. lia.
  - destruct (zget (w_threads w) thread) as [[b| | |]|] eqn:Hz; simplify_eq.
    by eapply turn_ok.
  - destruct (zget (w_threads w) thread) as [[| |e|]|] eqn:Hz; simplify_eq.
    by eapply return_ok.
  - destruct (zget (w_threads w) thread) as [[|b| |]|] eqn:Hz; simplify_eq.
    eexists. split; [done|]. unfold world_ok. cbn. rewrite Hq. exists pend, act.
    destruct (zget_split _ _ _ Hz) as (pre & post & Hts & ->). rewrite Hts in *.
    rewrite zset_middle. split; [by eapply replace_core|by eapply waits_replace].
Qed.

Lemma open_ok alloc mutex condition capacity workers execute observe q :
  0 <= capacity -> 0 <= workers ->
  yvex_server_request_queue_open alloc mutex condition capacity workers execute observe = Done q ->
  world_ok (opened q).
Proof.
  intros Hc Hw H. unfold yvex_server_request_queue_open in H.
  repeat (apply bind_Done in H as ([] & ?%refuse_if_Done & H)). bool_hyps. simplify_eq.
  exists [], []. split; [|by intros b ?%not_elem_of_nil]. cbn.
  constructor; cbn; try done; [|apply NoDup_nil_2|by intros ?%not_elem_of_nil].
  constructor; cbn; try done; try (by eexists); autorewrite with zlen; lia.
Qed.

Lemma reachable_ok w : reachable w -> world_ok w.
Proof.
  induction 1 as [alloc mutex condition capacity workers execute observe q Hc Hw Ho
                 |w c w' _ IH Hc Hs].
  { eapply open_ok; [exact Hc|exact Hw|exact Ho]. }
  destruct (step_ok _ _ _ IH Hc Hs) as (w'' & [= ->] & ?). done.
Qed.

(** ** Draining *)

Definition worker_choice (c : choice) : bool :=
  match c with Turn _ | Return _ => true | _ => false end.

(** An entry costs its selection and the wake-ups its completion may cause. *)
Definition thread_weight (n : nat) (t : worker_state) : nat :=
  match t with Ready _ => 1 | Executing _ => S (S n) | _ => 0 end.
Definition drain_measure (n : nat) (ts : list worker_state) (pend : nat) : nat :=
  (list_sum (thread_weight n <$> ts) + S (S n) * pend)%nat.
Definition drain_bound (w : world) : nat :=
  match w_queue w with
  | Some q => drain_measure (length (w_threads w)) (w_threads w) (length (pending q))
  | None => 0%nat
  end.

Arguments drain_measure : simpl never.

Lemma sum_weight_middle n pre t post :
  list_sum (thread_weight n <$> (pre ++ t :: post))
  = (thread_weight n t + list_sum (thread_weight n <$> (pre ++ post)))%nat.
Proof.
  rewrite !fmap_app, fmap_cons, !list_sum_app. unfold list_sum. cbn [foldr]. lia.
Qed.

Lemma sum_weight_wake n ts :
  (list_sum (thread_weight n <$> (wake <$> ts)) <= list_sum (thread_weight n <$> ts) + length ts)%nat.
Proof.
  induction ts as [|t ts IH]; [done|]. rewrite !fmap_cons. unfold list_sum in *.
  destruct t; cbn [foldr length thread_weight wake] in *; lia.
Qed.

(** A worker step after a stop keeps the threads and lowers the measure. *)
Lemma drain_step c w w' q pend act :
  worker_choice c = true -> w_queue w = Some q -> rq_stopping q = true ->
  core q pend act (w_threads w) (w_control w) (w_trace w) -> waits q pend act (w_threads w) ->
  step c w = Some (Done w') ->
  exists q', w_queue w' = Some q' /\ rq_stopping q' = true
    /\ length (w_threads w') = length (w_threads w) /\ (drain_bound w' < drain_bound w)%nat.
Proof.
  intros Hc Hq Hs C W H. unfold drain_bound at 2. rewrite Hq.
  rewrite (view_pending _ _ _ (c_view _ _ _ _ _ _ C)).
  destruct c; try done; cbn in H; unfold access in H; rewrite Hq in H.
  - destruct (zget (w_threads w) thread) as [[b| | |]|] eqn:Hz; simplify_eq.
    destruct (zget_split _ _ _ Hz) as (pre & post & Hts & ->). rewrite Hts in *.
    destruct (worker_body_ok _ _ _ _ _ _ _ _ C W)
      as (q' & t & events & pend' & act' & E & C' & _ & Hst & Hm).
    unfold worker_turn in H. rewrite E in H. cbn [mbind outcome_bind] in H.
    rewrite Hts, zset_middle in H. simplify_eq. exists q'. cbn. split; [done|].
    split; [congruence|]. rewrite !length_app. split; [done|].
    unfold drain_bound. cbn. rewrite (view_pending _ _ _ (c_view _ _ _ _ _ _ C')).
    unfold drain_measure. rewrite !sum_weight_middle.
    destruct t; cbn [thread_weight moved] in *; subst; try rewrite Hm; lia.
  - destruct (zget (w_threads w) thread) as [[| |e|]|] eqn:Hz; simplify_eq.
    destruct (zget_split _ _ _ Hz) as (pre & post & Hts & ->). rewrite Hts in *.
    assert (entry_key e ∈ act) as He.
    { rewrite (c_active _ _ _ _ _ _ C). apply list_elem_of_fmap. exists e. split; [done|].
      apply elem_of_running. set_solver. }
    destruct (release_spec _ _ _ _ (c_view _ _ _ _ _ _ C) He) as (a1 & a2 & q' & -> & E & V & F).
    unfold worker_return in H. rewrite E in H. cbn [mbind outcome_bind] in H.
    rewrite zset_middle in H. simplify_eq. exists q'. cbn. split; [done|].
    split; [destruct F as (_ & _ & _ & _ & _ & -> & _); done|]. rewrite length_fmap, !length_app.
    split; [done|]. unfold drain_bound. cbn. rewrite (view_pending _ _ _ V).
    unfold drain_measure.
    pose proof (sum_weight_wake (length pre + S (length post)) (pre ++ Ready false :: post)) as Hw.
    rewrite !sum_weight_middle in *. rewrite !length_app in Hw. cbn [length thread_weight] in *. lia.
Qed.

(** While a worker has not ended, some worker can go on: when all the others
    wait, a pending entry's key is active, so its worker is executing. *)
Lemma worker_progress q pend act w t :
  w_queue w = Some q -> rq_stopping q = true ->
  core q pend act (w_threads w) (w_control w) (w_trace w) -> waits q pend act (w_threads w) ->
  t ∈ w_threads w -> t <> Exited ->
  exists c, worker_choice c = true /\ is_Some (step c w).
Proof.
  intros Hq Hs C W Ht Hx.
  assert ((exists b, Ready b ∈ w_threads w) \/ exists e, Executing e ∈ w_threads w) as Hgo.
  { destruct t as [b|b|e|]; [eauto| |eauto|done]. right.
    destruct (W b Ht) as [Hall Hne]. destruct pend as [|p pend]; [naive_solver|].
    inversion_clear Hall as [|? ? Hp _]. rewrite (c_active _ _ _ _ _ _ C) in Hp.
    apply list_elem_of_fmap in Hp as (e & _ & He). exists e. by apply elem_of_running. }
  destruct Hgo as [[b Hb]|[e He]].
  - apply elem_of_zget in Hb as [i Hi]. exists (Turn i). split; [done|]. cbn. rewrite Hi.
    unfold access. eauto.
  - apply elem_of_zget in He as [i Hi]. exists (Return i). split; [done|]. cbn. rewrite Hi.
    unfold access. eauto.
Qed.

(** Every accepted entry was executed and every worker ended. *)
Definition drained (w : world) : Prop :=
  Forall (eq Exited) (w_threads w)
  /\ forall k, with_key k (submitted (w_trace w)) = with_key k (ended (w_trace w)).

Lemma exited_drained q pend act w :
  core q pend act (w_threads w) (w_control w) (w_trace w) -> w_threads w <> [] ->
  Forall (eq Exited) (w_threads w) -> drained w.
Proof.
  intros C Hne Hall. split; [done|]. intros k. rewrite (c_account _ _ _ _ _ _ C).
  assert (pend = []) as ->.
  { apply (c_exited _ _ _ _ _ _ C). destruct (w_threads w) as [|t ts]; [done|].
    inversion_clear Hall. set_solver. }
  replace (running (w_threads w)) with (@nil request_queue_entry); [by rewrite app_nil_r|].
  clear -Hall. induction Hall as [|t ts <- _ IH]; [done|]. by rewrite running_cons.
Qed.

Lemma stopped_run cs w w' :
  world_ok w -> (exists q, w_queue w = Some q /\ rq_stopping q = true) ->
  Forall (fun c => worker_choice c = true) cs -> run cs w = Some (Done w') ->
  world_ok w' /\ (exists q, w_queue w' = Some q /\ rq_stopping q = true)
  /\ length (w_threads w') = length (w_threads w)
  /\ (length cs + drain_bound w' <= drain_bound w)%nat.
Proof.
  intros Hw Hq Hcs. revert w Hw Hq. induction Hcs as [|c cs Hc _ IH]; intros w Hw Hq Hr; cbn in Hr.
  { by simplify_eq. }
  destruct (step c w) as [[w1| |]|] eqn:E; simplify_eq.
  assert (world_ok w1) as Hw1.
  { destruct (step_ok _ c _ Hw ltac:(by destruct c) E) as (? & [= ->] & ?). done. }
  destruct Hq as (q & Hq & Hs). unfold world_ok in Hw. rewrite Hq in Hw.
  destruct Hw as (pend & act & C & W).
  destruct (drain_step c w w1 q pend act) as (q1 & Hq1 & Hs1 & Hl & Hlt); try done.
  destruct (IH w1 Hw1 ltac:(eauto) Hr) as (? & ? & ? & ?).
  split; [done|]. split; [done|]. split; [congruence|]. cbn. lia.
Qed.

Lemma stopped_step w :
  world_ok w -> (exists q, w_queue w = Some q /\ rq_stopping q = true) -> w_threads w <> [] ->
  drained w \/ exists c w', worker_choice c = true /\ step c w = Some (Done w') /\ world_ok w'
    /\ (exists q, w_queue w' = Some q /\ rq_stopping q = true) /\ w_threads w' <> []
    /\ (drain_bound w' < drain_bound w)%nat.
Proof.
  intros Hw (q & Hq & Hs) Hne. pose proof Hw as Hw'. unfold world_ok in Hw'. rewrite Hq in Hw'.
  destruct Hw' as (pend & act & C & W).
  destruct (decide (Forall (eq Exited) (w_threads w))) as [Hall|Hall].
  { left. by eapply exited_drained. }
  right. apply not_Forall_Exists in Hall; [|apply _]. apply Exists_exists in Hall as (t & Ht & Hx).
  destruct (worker_progress q pend act w t) as (c & Hc & r & Hr); try done.
  destruct (step_ok _ c _ Hw ltac:(by destruct c) Hr) as (w1 & -> & Hw1).
  destruct (drain_step c w w1 q pend act) as (q1 & Hq1 & Hs1 & Hl & Hlt); try done.
  exists c, w1. repeat split; try done; [by eexists|]. intros E. rewrite E in Hl.
  by destruct (w_threads w).
Qed.

Lemma stopped_finishes n w :
  (drain_bound w <= n)%nat -> world_ok w -> (exists q, w_queue w = Some q /\ rq_stopping q = true) ->
  w_threads w <> [] ->
  exists cs w', Forall (fun c => worker_choice c = true) cs /\ run cs w = Some (Done w') /\ drained w'.
Proof.
  revert w. induction n as [|n IH]; intros w Hn Hw Hq Hne;
    (destruct (stopped_step w Hw Hq Hne) as [Hd|(c & w1 & Hc & E & Hw1 & Hq1 & Hne1 & Hlt)];
      [by exists [], w|]); [lia|].
  destruct (IH w1) as (cs & w2 & Hcs & Hr2 & Hd); try done; [lia|].
  exists (c :: cs), w2. split; [by constructor|]. split; [|done]. cbn. by rewrite E.
Qed.

(** Distinct keys of the running entries, by position. *)
Lemma running_distinct ts i j e1 e2 :
  NoDup (entry_key <$> running ts) -> zget ts i = Some (Executing e1) ->
  zget ts j = Some (Executing e2) -> i <> j -> entry_key e1 <> entry_key e2.
Proof.
  intros Hnd Hi Hj Hne. destruct (zget_split _ _ _ Hi) as (pre & post & -> & ->).
  autorewrite with queue in Hnd. rewrite running_cons in Hnd. cbn [executing] in Hnd.
  rewrite fmap_app, fmap_cons in Hnd. apply NoDup_app in Hnd as (_ & Hd & [Hp _]%NoDup_cons).
  assert (Executing e2 ∈ pre \/ Executing e2 ∈ post) as Hin.
  { destruct (Z.lt_ge_cases j (zlen pre)).
    - rewrite zget_app_l in Hj by done. left. by eapply zget_elem_of.
    - rewrite zget_app_r in Hj by done.
      replace (j - zlen pre) with (j - zlen pre - 1 + 1) in Hj by lia.
      rewrite zget_cons_succ in Hj by lia. right. by eapply zget_elem_of. }
  rewrite <- !elem_of_running in Hin. intros E. destruct Hin as [Hin|Hin].
  - apply (Hd (entry_key e1)); [|set_solver]. rewrite E. by apply list_elem_of_fmap_2.
  - apply Hp. rewrite E. by apply list_elem_of_fmap_2.
Qed.

(** ** Properties *)

(** C13: In every reachable world two workers never execute entries with the same
    serialization key, and until the queue is closed the active keys are exactly
    the keys of the entries that workers execute, each once. *)
Theorem queue_serialized w :
  reachable w ->
  (forall i j e1 e2, zget (w_threads w) i = Some (Executing e1) ->
     zget (w_threads w) j = Some (Executing e2) -> i <> j -> entry_key e1 <> entry_key e2)
  /\ forall q, w_queue w = Some q ->
       NoDup (active_keys q) /\ active_keys q ≡ₚ entry_key <$> running (w_threads w).
Proof.
  intros Hr. apply reachable_ok in Hr. unfold world_ok in Hr.
  destruct (w_queue w) as [q|].
  2: { destruct Hr as [Hall _]. rewrite Forall_forall in Hall. split; [|done].
       intros i j e1 e2 Hi. by apply zget_elem_of, Hall in Hi. }
  destruct Hr as (pend & act & C & _). pose proof (c_nodup _ _ _ _ _ _ C) as Hnd. split.
  2: { intros ? [= <-]. rewrite (view_active _ _ _ (c_view _ _ _ _ _ _ C)). split; [done|apply C]. }
  rewrite (c_active _ _ _ _ _ _ C) in Hnd. intros i j e1 e2. by apply running_distinct.
Qed.

(** C14: In every reachable world, for every key, the accepted entries are, in
    submission order, the completed ones, then at most one that is executing, then the pending ones:
    the queue implements one FIFO per key, and loses and repeats nothing. *)
Theorem queue_refines_fifo w q k :
  reachable w -> w_queue w = Some q ->
  with_key k (submitted (w_trace w))
    = with_key k (ended (w_trace w)) ++ with_key k (running (w_threads w)) ++ with_key k (pending q)
  /\ (length (with_key k (running (w_threads w))) <= 1)%nat.
Proof.
  intros Hr Hq. apply reachable_ok in Hr. unfold world_ok in Hr. rewrite Hq in Hr.
  destruct Hr as (pend & act & C & _). rewrite (view_pending _ _ _ (c_view _ _ _ _ _ _ C)).
  split; [apply C|]. pose proof (c_nodup _ _ _ _ _ _ C) as Hnd.
  rewrite (c_active _ _ _ _ _ _ C) in Hnd. revert Hnd.
  induction (running (w_threads w)) as [|e l IH]; [cbn; lia|].
  rewrite fmap_cons. intros [He Hnd]%NoDup_cons. destruct (decide (entry_key e = k)) as [<-|Hne].
  - rewrite with_key_eq, with_key_fresh by done. cbn. lia.
  - rewrite with_key_ne by done. auto.
Qed.



(** Which calls of [submit] are refused, with which status and in which
    order of precedence, and what an accepted call appends and reports. *)
Theorem submit_exact w q work key :
  reachable w -> w_queue w = Some q ->
  let r := yvex_server_request_queue_submit true q work key in
  if (work =? 0) || (SERVER_REQUEST_QUEUE_KEY_CAP <=? Z.of_nat (String.length key)) then
    r = Refuse YVEX_ERR_INVALID_ARG "request queue work and bounded key are required"
  else if rq_queue_capacity q <=? zlen (pending q) then
    r = Refuse YVEX_ERR_BOUNDS "bounded request queue is full"
  else if negb (rq_started q) || rq_stopping q then
    r = Refuse YVEX_ERR_STATE "request queue is not accepting work"
  else exists q', r = Done (q', zlen (pending q) + 1)
    /\ pending q' = pending q ++ [mk_entry work key] /\ active_keys q' = active_keys q.
Proof.
  intros Hr Hq. cbn zeta. apply reachable_ok in Hr. unfold world_ok in Hr. rewrite Hq in Hr.
  destruct Hr as (pend & act & C & _). pose proof (c_view _ _ _ _ _ _ C) as V.
  rewrite (view_pending _ _ _ V), (view_active _ _ _ V).
  pose proof (view_bounds _ _ _ V) as (Hpc & _). pose proof (submit_view true _ _ _ work key V) as Hv.
  unfold yvex_server_request_queue_submit in *. rewrite (v_mutex _ _ _ V) in *.
  cbn [negb] in *. rewrite !orb_false_r in *.
  destruct ((work =? 0) || (SERVER_REQUEST_QUEUE_KEY_CAP <=? Z.of_nat (String.length key)));
    cbn [refuse_if mbind outcome_bind] in *; [done|].
  rewrite (v_queue_count _ _ _ V) in *. destruct (rq_queue_capacity q <=? zlen pend) eqn:E2.
  { replace (zlen pend =? rq_queue_capacity q) with true by lia. by rewrite orb_true_r. }
  replace (zlen pend =? rq_queue_capacity q) with false in * by lia. rewrite orb_false_r in *.
  destruct (negb (rq_started q) || rq_stopping q); [done|].
  destruct Hv as [(q' & d & -> & V' & _ & -> & _)|(s & reason & E)].
  - exists q'. by rewrite (view_pending _ _ _ V'), (view_active _ _ _ V').
  - unfold write_at in E. by case_match.
Qed.

(** Two keys are equal only for the same engine generation and scope. *)
Theorem key_injective g1 g2 s1 s2 key :
  0 <= g1 -> 0 <= g2 -> yvex_server_request_queue_key g1 s1 = Done key ->
  yvex_server_request_queue_key g2 s2 = Done key ->
  g1 = g2 /\ s1 = s2 /\ (String.length key < 224)%nat.
Proof.
  intros H1 H2 E1 E2. unfold yvex_server_request_queue_key in *.
  destruct s1 as [s1|]; [|done]. destruct s2 as [s2|]; [|done].
  apply bind_Done in E1 as ([] & _ & E1). apply bind_Done in E1 as ([] & Hl%refuse_if_Done & [= <-]).
  apply bind_Done in E2 as ([] & _ & E2). apply bind_Done in E2 as ([] & _ & [= E2]).
  apply split_at_first in E2 as [Hd ->]; [|apply dec_lacks; done..].
  apply dec_inj in Hd; [|done..]. split; [done|]. split; [done|].
  unfold SERVER_REQUEST_QUEUE_KEY_CAP in Hl. lia.
Qed.

(** ** Witnesses *)

Lemma run_reachable cs w w' :
  reachable w -> forallb dependable cs = true -> run cs w = Some (Done w') -> reachable w'.
Proof.
  revert w. induction cs as [|c cs IH]; intros w Hw Hcs H; cbn in *; [by simplify_eq|].
  bool_hyps. destruct (step c w) as [[w1| |]|] eqn:E; try done. apply (IH w1); [|done..].
  by eapply reachable_step.
Qed.

Lemma demo_opened : reachable (opened demo_queue).
Proof. by eapply (reachable_open (fun _ => true) true true 3 2 true true). Qed.

(** The world after the first [n] choices of the demonstration. *)
Definition demo_world (n : nat) : world :=
  match run (take n demo_schedule) (opened demo_queue) with
  | Some (Done w) => w
  | _ => opened demo_queue
  end.

Lemma queue_demo_reachable n : reachable (demo_world n).
Proof.
  unfold demo_world. destruct (run _ _) as [[w| |]|] eqn:E; try apply demo_opened.
  eapply run_reachable; [apply demo_opened| |exact E].
  assert (forallb dependable demo_schedule = true) as H by reflexivity.
  rewrite <- (take_drop n demo_schedule), forallb_app in H. by apply andb_true_iff in H as [? _].
Qed.

(** The structure in a world that was not closed. *)
Definition queue_of (w : world) : server_request_queue := default demo_queue (w_queue w).

Lemma queue_serialized_witness :
  entry_key (mk_entry 1 "a") <> entry_key (mk_entry 3 "b")
  /\ NoDup (active_keys (queue_of (demo_world 8))).
Proof.
  destruct (queue_serialized (demo_world 8)) as [H1 H2]; [apply queue_demo_reachable|]. split.
  - apply (H1 0 1); [vm_compute; reflexivity|vm_compute; reflexivity|lia].
  - apply (H2 (queue_of (demo_world 8))). vm_compute. reflexivity.
Defined.

Lemma queue_refines_fifo_witness :
  with_key "a" (submitted (w_trace (demo_world 8))) = [mk_entry 1 "a"; mk_entry 2 "a"]
  /\ with_key "a" (running (w_threads (demo_world 8))) = [mk_entry 1 "a"]
  /\ (length (with_key "a" (running (w_threads (demo_world 8)))) <= 1)%nat.
Proof.
  split; [vm_compute; reflexivity|]. split; [vm_compute; reflexivity|].
  destruct (queue_refines_fifo (demo_world 8) (queue_of (demo_world 8)) "a") as [_ H];
    [apply queue_demo_reachable|vm_compute; reflexivity|exact H].
Defined.



Definition demo_started : server_request_queue :=
  set_phase true false false (set_worker_started 2 demo_queue).

Lemma submit_exact_witness :
  exists q', yvex_server_request_queue_submit true demo_started 4 "c" = Done (q', 1)
    /\ pending q' = [mk_entry 4 "c"].
Proof.
  destruct (submit_exact (demo_world 3) demo_started 4 "c") as (q' & E & Hp & _);
    [apply queue_demo_reachable|vm_compute; reflexivity|exists q'; split; [exact E|exact Hp]].
Defined.

Lemma key_injective_witness :
  12 = 12 /\ Some "chat"%string = Some "chat"%string /\ (String.length "12:chat" < 224)%nat.
Proof.
  apply (key_injective 12 12 (Some "chat"%string) (Some "chat"%string) "12:chat");
    [lia|lia|reflexivity|reflexivity].
Defined.

(** An entry accepted between the start of [start] and a failed creation of the
    first worker stays pending for ever: [start] stops and finishes the queue,
    and no worker exists that could execute it. *)
Example start_failure_strands_entry :
  exists w, run [Start true; Submit true 1 "a"; Create false (true, true)] (opened demo_queue) = Some (Done w)
    /\ with_key "a" (submitted (w_trace w)) = [mk_entry 1 "a"]
    /\ pending (queue_of w) = [mk_entry 1 "a"] /\ w_threads w = []
    /\ rq_finished (queue_of w) = true.
Proof. eexists. split; [vm_compute; reflexivity|]. by vm_compute. Qed.

(** Why [dependable] excludes a failed join: [close] frees the structure while
    the worker it could not join is alive, and the worker uses it. *)
Example failed_join_use_after_free :
  run [Start true; Create true (true, true); Create true (true, true); Close true; Join false;
       Join false; Turn 0] (opened demo_queue) = Some (Fault UseAfterFree).
Proof. vm_compute. reflexivity. Qed.

(** Why it excludes a failed lock of [finish]: a queue that was finished without
    being stopped can still be started, and a later [close] joins nothing. *)
Example failed_stop_use_after_free :
  run [Finish false; Start true; Create true (true, true); Create true (true, true); Close true;
       Turn 0] (opened demo_queue) = Some (Fault UseAfterFree).
Proof. vm_compute. reflexivity. Qed.
