(* ===== verification/Transaction.v ===== *)
(** * Execution transactions ([src/runtime/transaction.c])

    A transaction retains a resource, runs an admitted number of execution
    quanta through a callback, and publishes the result once or discards it.
    Callbacks, the clock and the resource owner are outside the file: a callback
    is a function of the number of external calls made so far, so each call may
    answer differently, and what it writes to the caller's error is part of its
    answer.  Every callback that may change external state leaves an event in a
    log, and a discard is logged whether or not a discard callback exists.

    The driver of [src/runtime/latent.c] (the loop that executes the quanta,
    resumes after yields, commits, and aborts and closes on every path) is
    modelled on top of it, with its numerical work as further external calls.

    The abstract specification is an automaton over the log: quanta in order,
    publication only after all of them, discard or publication at most once,
    release only after the outcome is decided.  Every sequence of calls refines
    it, and its consequences are stated on logs. *)

From Stdlib Require Import ZArith Lia Bool String.
From stdpp Require Import base list option numbers strings sets.
From S2P Require Import Prelude Core Sha256.

(** ** Data *)

Definition YVEX_SHA256_HEX_BYTES : Z := 65.

Inductive yvex_execution_transaction_state : Type :=
  | YVEX_EXECUTION_TRANSACTION_PREPARED
  | YVEX_EXECUTION_TRANSACTION_EXECUTING
  | YVEX_EXECUTION_TRANSACTION_SAFE
  | YVEX_EXECUTION_TRANSACTION_YIELDED
  | YVEX_EXECUTION_TRANSACTION_READY_TO_COMMIT
  | YVEX_EXECUTION_TRANSACTION_COMMITTED
  | YVEX_EXECUTION_TRANSACTION_ABORTED.

#[export] Instance transaction_state_eq_dec : EqDecision yvex_execution_transaction_state.
Proof. solve_decision. Defined.

(** [None] is the cleared action [0]. *)
Inductive yvex_execution_safe_point_action : Type :=
  | YVEX_EXECUTION_SAFE_POINT_CONTINUE
  | YVEX_EXECUTION_SAFE_POINT_YIELD
  | YVEX_EXECUTION_SAFE_POINT_CANCEL
  | YVEX_EXECUTION_SAFE_POINT_COMMIT.

#[export] Instance safe_point_action_eq_dec : EqDecision yvex_execution_safe_point_action.
Proof. solve_decision. Defined.

(** The answer of a fallible callback: its status, and what it stored in the
    error it was given, if anything. *)
Definition answer : Type := yvex_status * option yvex_error.

Record yvex_execution_resource_lease : Type := mk_lease {
  lease_identity : option string;
  lease_context : bool;
  lease_retain : option (nat -> answer);
  lease_release : option (nat -> answer)
}.

Record yvex_execution_transaction_options : Type := mk_tx_options {
  opt_request_identity : option string;
  opt_quantum_count : Z;
  opt_resource : option yvex_execution_resource_lease;
  opt_execute : option (nat -> Z -> answer);
  opt_cancel_requested : option (nat -> bool);
  opt_yield_requested : option (nat -> bool);
  opt_publish : option (nat -> answer);
  opt_discard : bool
}.

(** The counters of the summary, all [unsigned long long]. *)
Inductive counter : Type :=
  | admitted_quanta | started_quanta | completed_quanta
  | safe_points | yields | resumes | cancellations
  | publications | discards | retained_resources
  | setup_nanoseconds | quantum_wall_nanoseconds | safe_point_nanoseconds.

#[export] Instance counter_eq_dec : EqDecision counter.
Proof. solve_decision. Defined.

Record yvex_execution_transaction_summary : Type := mk_tx_summary {
  sum_state : yvex_execution_transaction_state;
  sum_count : counter -> Z;
  sum_request_identity : string;
  sum_resource_identity : string
}.

Record timespec : Type := mk_timespec { tv_sec : Z; tv_nsec : Z }.

Record transaction : Type := mk_tx {
  tx_options : yvex_execution_transaction_options;
  tx_summary : yvex_execution_transaction_summary;
  tx_quantum_started : timespec;
  tx_resource_retained : bool;
  tx_discarded : bool
}.

Inductive tx_event : Type :=
  | Retained (rc : yvex_status)
  | Executed (ordinal : Z) (rc : yvex_status)
  | Published (rc : yvex_status)
  | Discarded (notified : bool)
  | Released (rc : yvex_status).

(** [x_tx] is the handle the caller holds ([None]: null), [x_err] the caller's
    error ([None]: a null pointer), [x_tick] the number of external calls. *)
Record tx_world : Type := mk_tx_world {
  x_tx : option transaction;
  x_err : option yvex_error;
  x_clock : nat -> option timespec;
  x_tick : nat;
  x_log : list tx_event
}.

(** ** Accessors *)

Definition tx_state (t : transaction) : yvex_execution_transaction_state := sum_state (tx_summary t).
Definition count (c : counter) (t : transaction) : Z := sum_count (tx_summary t) c.

Definition with_summary (f : yvex_execution_transaction_summary -> yvex_execution_transaction_summary)
    (t : transaction) : transaction :=
  mk_tx (tx_options t) (f (tx_summary t)) (tx_quantum_started t) (tx_resource_retained t)
    (tx_discarded t).
Definition set_state (state : yvex_execution_transaction_state) : transaction -> transaction :=
  with_summary (fun s => mk_tx_summary state (sum_count s) (sum_request_identity s)
                           (sum_resource_identity s)).
Definition set_count (c : counter) (n : Z) : transaction -> transaction :=
  with_summary (fun s => mk_tx_summary (sum_state s)
    (fun c' => if decide (c' = c) then n else sum_count s c') (sum_request_identity s)
    (sum_resource_identity s)).
(** [summary.c++] *)
Definition bump (c : counter) (t : transaction) : transaction :=
  set_count c (u64 (count c t + 1)) t.
Definition set_discarded (t : transaction) : transaction :=
  mk_tx (tx_options t) (tx_summary t) (tx_quantum_started t) (tx_resource_retained t) true.
Definition set_quantum_started (at_ : timespec) (t : transaction) : transaction :=
  mk_tx (tx_options t) (tx_summary t) at_ (tx_resource_retained t) (tx_discarded t).
Definition set_retained (b : bool) (t : transaction) : transaction :=
  mk_tx (tx_options t) (tx_summary t) (tx_quantum_started t) b (tx_discarded t).

Definition TX (A : Type) : Type := SO tx_world A.

Definition tx_get : TX transaction := fun w => (w, deref (x_tx w)).
Definition tx_modify (f : transaction -> transaction) : TX unit :=
  so_modify (fun w => mk_tx_world (f <$> x_tx w) (x_err w) (x_clock w) (x_tick w) (x_log w)).
Definition tx_store (t : option transaction) : TX unit :=
  so_modify (fun w => mk_tx_world t (x_err w) (x_clock w) (x_tick w) (x_log w)).
Definition set_err (e : option yvex_error) : TX unit :=
  so_modify (fun w => mk_tx_world (x_tx w) e (x_clock w) (x_tick w) (x_log w)).
Definition log (e : tx_event) : TX unit :=
  so_modify (fun w => mk_tx_world (x_tx w) (x_err w) (x_clock w) (x_tick w) (x_log w ++ [e])).
Definition clear_err : TX unit := w ← so_get; set_err (yvex_error_clear (x_err w)).

(** One external call. *)
Definition ask {A} (f : nat -> A) : TX A :=
  w ← so_get;
  _ ← so_put (mk_tx_world (x_tx w) (x_err w) (x_clock w) (S (x_tick w)) (x_log w));
  mret (f (x_tick w)).
(** A callback that may store into the caller's error. *)
Definition ask_err (f : nat -> answer) : TX yvex_status :=
  '(rc, stored) ← ask f;
  w ← so_get;
  _ ← set_err (old ← x_err w; Some (default old stored));
  mret rc.

(** ** Operations *)

Definition transaction_refuse (status : yvex_status) (reason : string) : TX yvex_status :=
  w ← so_get;
  _ ← set_err (yvex_error_set (x_err w) status (Some "runtime.execution-transaction"%string)
                 (Some reason));
  mret status.

Definition transaction_now : TX (option timespec) := w ← so_get; ask (x_clock w).

(** Differences of the two clock fields are taken in [unsigned long long]. *)
Definition transaction_elapsed (start finish : timespec) : Z :=
  if (tv_sec finish <? tv_sec start)
     || ((tv_sec finish =? tv_sec start) && (tv_nsec finish <? tv_nsec start)) then 0 else
  let seconds := u64 (tv_sec finish - tv_sec start) in
  let clip seconds nanoseconds :=
    if (ULLONG_MAX - nanoseconds) / 1000000000 <? seconds then ULLONG_MAX
    else u64 (seconds * 1000000000 + nanoseconds) in
  if tv_nsec start <=? tv_nsec finish
  then clip seconds (u64 (tv_nsec finish - tv_nsec start))
  else if seconds =? 0 then 0
  else clip (u64 (seconds - 1)) (u64 (u64 (1000000000 + u64 (tv_nsec finish)) - u64 (tv_nsec start))).

Definition transaction_add (total value : Z) : Z :=
  if ULLONG_MAX - total <? value then ULLONG_MAX else u64 (total + value).

Definition transaction_discard : TX unit :=
  t ← tx_get;
  if tx_discarded t || negb (count publications t =? 0) then mret tt else
  _ ← log (Discarded (opt_discard (tx_options t)));
  tx_modify (fun t => bump discards (set_discarded t)).

Definition transaction_stop_quantum : TX unit :=
  t ← tx_get;
  if negb (bool_decide (tx_state t = YVEX_EXECUTION_TRANSACTION_EXECUTING)) then mret tt else
  finish ← transaction_now;
  match finish with
  | None => mret tt
  | Some finish => tx_modify (fun t => set_count quantum_wall_nanoseconds
      (transaction_add (count quantum_wall_nanoseconds t)
         (transaction_elapsed (tx_quantum_started t) finish)) t)
  end.

Definition transaction_cancel : TX unit :=
  _ ← transaction_stop_quantum;
  _ ← tx_modify (bump cancellations);
  _ ← transaction_discard;
  tx_modify (set_state YVEX_EXECUTION_TRANSACTION_ABORTED).

Definition transaction_cancel_requested : TX bool :=
  t ← tx_get;
  match opt_cancel_requested (tx_options t) with
  | None => mret false
  | Some requested => ask requested
  end.

Definition lease_valid (lease : yvex_execution_resource_lease) : bool :=
  yvex_sha256_hex_valid (lease_identity lease) && lease_context lease
  && bool_decide (is_Some (lease_retain lease)) && bool_decide (is_Some (lease_release lease)).

Definition options_valid (options : yvex_execution_transaction_options) : bool :=
  yvex_sha256_hex_valid (opt_request_identity options) && negb (opt_quantum_count options =? 0)
  && bool_decide (is_Some (opt_execute options))
  && match opt_resource options with Some lease => lease_valid lease | None => true end.

Definition prepared (options : yvex_execution_transaction_options) : transaction :=
  mk_tx options
    (mk_tx_summary YVEX_EXECUTION_TRANSACTION_PREPARED
       (fun c => if decide (c = admitted_quanta) then opt_quantum_count options else 0)
       (yvex_core_text_copy "" YVEX_SHA256_HEX_BYTES (opt_request_identity options)) "")
    (mk_timespec 0 0) false false.

(** ... after a successful retain *)
Definition prepared_with (lease : yvex_execution_resource_lease)
    (options : yvex_execution_transaction_options) : transaction :=
  with_summary (fun s => mk_tx_summary (sum_state s) (sum_count s) (sum_request_identity s)
    (yvex_core_text_copy "" YVEX_SHA256_HEX_BYTES (lease_identity lease)))
    (set_count retained_resources 1 (set_retained true (prepared options))).

(** [granted]: whether the allocation succeeds.  The handle is stored last. *)
Definition yvex_runtime_execution_transaction_open (granted : bool)
    (options : yvex_execution_transaction_options) : TX yvex_status :=
  _ ← tx_store None;
  if negb (options_valid options)
  then transaction_refuse YVEX_ERR_INVALID_ARG
         "one bounded identity-bound execution request is required"
  else
  start ← transaction_now;
  if negb granted
  then transaction_refuse YVEX_ERR_NOMEM "execution transaction allocation failed"
  else
  let publish (t : transaction) : TX yvex_status :=
    setup ← match start with
            | None => mret None
            | Some start => finish ← transaction_now; mret (transaction_elapsed start <$> finish)
            end;
    _ ← tx_store (Some match setup with
                       | Some n => set_count setup_nanoseconds n t
                       | None => t
                       end);
    _ ← clear_err;
    mret YVEX_OK in
  match opt_resource options with
  | None => publish (prepared options)
  | Some lease =>
      retain ← so_lift (deref (lease_retain lease));
      rc ← ask_err retain;
      _ ← log (Retained rc);
      if negb (bool_decide (rc = YVEX_OK)) then mret rc else
      publish (prepared_with lease options)
  end.

Definition transaction_quantum_begin (ordinal : Z) : TX yvex_status :=
  t ← tx_get;
  if (negb (bool_decide (tx_state t = YVEX_EXECUTION_TRANSACTION_PREPARED))
      && negb (bool_decide (tx_state t = YVEX_EXECUTION_TRANSACTION_SAFE)))
     || negb (ordinal =? count completed_quanta t) || (count admitted_quanta t <=? ordinal)
  then transaction_refuse YVEX_ERR_STATE "the next admitted execution quantum is required"
  else
  cancelled ← transaction_cancel_requested;
  if cancelled : bool then
    _ ← transaction_cancel;
    transaction_refuse YVEX_ERR_CANCELLED "execution was cancelled before the next quantum"
  else
  _ ← tx_modify (fun t => bump started_quanta
                            (set_state YVEX_EXECUTION_TRANSACTION_EXECUTING t));
  now ← transaction_now;
  _ ← tx_modify (set_quantum_started (default (mk_timespec 0 0) now));
  _ ← clear_err;
  mret YVEX_OK.

(** The status and the action stored for the caller. *)
Definition transaction_safe_point : TX (yvex_status * option yvex_execution_safe_point_action) :=
  t ← tx_get;
  if negb (bool_decide (tx_state t = YVEX_EXECUTION_TRANSACTION_EXECUTING)) then
    rc ← transaction_refuse YVEX_ERR_STATE "one completed execution quantum is required";
    mret (rc, None)
  else
  _ ← transaction_stop_quantum;
  _ ← tx_modify (fun t => bump safe_points (bump completed_quanta t));
  start ← transaction_now;
  cancelled ← transaction_cancel_requested;
  action ←
    (if cancelled : bool then
       _ ← tx_modify (bump cancellations);
       _ ← transaction_discard;
       _ ← tx_modify (set_state YVEX_EXECUTION_TRANSACTION_ABORTED);
       mret YVEX_EXECUTION_SAFE_POINT_CANCEL
     else
       t ← tx_get;
       if count completed_quanta t =? count admitted_quanta t then
         _ ← tx_modify (set_state YVEX_EXECUTION_TRANSACTION_READY_TO_COMMIT);
         mret YVEX_EXECUTION_SAFE_POINT_COMMIT
       else
         yield ← match opt_yield_requested (tx_options t) with
                 | None => mret false
                 | Some requested => ask requested
                 end;
         if yield : bool then
           _ ← tx_modify (fun t => set_state YVEX_EXECUTION_TRANSACTION_YIELDED (bump yields t));
           mret YVEX_EXECUTION_SAFE_POINT_YIELD
         else
           _ ← tx_modify (set_state YVEX_EXECUTION_TRANSACTION_SAFE);
           mret YVEX_EXECUTION_SAFE_POINT_CONTINUE);
  _ ← match start with
      | None => mret tt
      | Some start =>
          finish ← transaction_now;
          match finish with
          | None => mret tt
          | Some finish => tx_modify (fun t => set_count safe_point_nanoseconds
              (transaction_add (count safe_point_nanoseconds t)
                 (transaction_elapsed start finish)) t)
          end
      end;
  _ ← clear_err;
  mret (YVEX_OK, Some action).

(** Whether the caller passed a handle. *)
Definition tx_present : TX bool := w ← so_get; mret (bool_decide (is_Some (x_tx w))).

(** Run [c] with an error of its own, then restore the caller's. *)
Definition with_cleanup {A} (c : TX A) : TX A :=
  w ← so_get;
  _ ← set_err (Some (mk_error YVEX_OK "" ""));
  a ← c;
  _ ← set_err (x_err w);
  mret a.

Definition yvex_runtime_execution_transaction_abort : TX yvex_status :=
  present ← tx_present;
  if negb present then transaction_refuse YVEX_ERR_INVALID_ARG "an execution transaction is required"
  else
  t ← tx_get;
  if bool_decide (tx_state t = YVEX_EXECUTION_TRANSACTION_COMMITTED) then
    transaction_refuse YVEX_ERR_STATE "a committed execution transaction cannot be aborted"
  else
  _ ← (if negb (bool_decide (tx_state t = YVEX_EXECUTION_TRANSACTION_ABORTED)) then
         _ ← transaction_stop_quantum;
         _ ← transaction_discard;
         tx_modify (set_state YVEX_EXECUTION_TRANSACTION_ABORTED)
       else mret tt);
  _ ← clear_err;
  mret YVEX_OK.

Definition yvex_runtime_execution_transaction_execute_quantum
    : TX (yvex_status * option yvex_execution_safe_point_action) :=
  present ← tx_present;
  if negb present then
    rc ← transaction_refuse YVEX_ERR_INVALID_ARG
           "an execution transaction and action output are required";
    mret (rc, None)
  else
  t ← tx_get;
  let ordinal := count completed_quanta t in
  rc ← transaction_quantum_begin ordinal;
  if negb (bool_decide (rc = YVEX_OK)) then mret (rc, None) else
  execute ← so_lift (deref (opt_execute (tx_options t)));
  rc ← ask_err (fun tick => execute tick ordinal);
  _ ← log (Executed ordinal rc);
  if negb (bool_decide (rc = YVEX_OK)) then
    w ← so_get;
    _ ← (if negb (yvex_error_is_set (x_err w))
         then transaction_refuse rc "execution quantum failed without an error"
         else mret rc);
    _ ← with_cleanup yvex_runtime_execution_transaction_abort;
    mret (rc, None)
  else transaction_safe_point.

Definition yvex_runtime_execution_transaction_resume : TX yvex_status :=
  present ← tx_present;
  if negb present then transaction_refuse YVEX_ERR_STATE "a yielded execution transaction is required"
  else
  t ← tx_get;
  if negb (bool_decide (tx_state t = YVEX_EXECUTION_TRANSACTION_YIELDED)) then
    transaction_refuse YVEX_ERR_STATE "a yielded execution transaction is required"
  else
  cancelled ← transaction_cancel_requested;
  if cancelled : bool then
    _ ← transaction_cancel;
    transaction_refuse YVEX_ERR_CANCELLED "yielded execution was cancelled before resumption"
  else
  _ ← tx_modify (fun t => bump resumes (set_state YVEX_EXECUTION_TRANSACTION_SAFE t));
  _ ← clear_err;
  mret YVEX_OK.

Definition yvex_runtime_execution_transaction_commit : TX yvex_status :=
  present ← tx_present;
  if negb present then
    transaction_refuse YVEX_ERR_STATE "a fully executed transaction is required for publication"
  else
  t ← tx_get;
  if negb (bool_decide (tx_state t = YVEX_EXECUTION_TRANSACTION_READY_TO_COMMIT)) then
    transaction_refuse YVEX_ERR_STATE "a fully executed transaction is required for publication"
  else
  cancelled ← transaction_cancel_requested;
  if cancelled : bool then
    _ ← transaction_cancel;
    transaction_refuse YVEX_ERR_CANCELLED "execution was cancelled before publication"
  else
  rc ← match opt_publish (tx_options t) with
       | Some publish => ask_err publish
       | None => mret YVEX_OK
       end;
  _ ← log (Published rc);
  if negb (bool_decide (rc = YVEX_OK)) then
    w ← so_get;
    _ ← (if negb (yvex_error_is_set (x_err w))
         then transaction_refuse rc "transaction publication failed without an error"
         else mret rc);
    _ ← transaction_discard;
    _ ← tx_modify (set_state YVEX_EXECUTION_TRANSACTION_ABORTED);
    mret rc
  else
  _ ← tx_modify (fun t => set_state YVEX_EXECUTION_TRANSACTION_COMMITTED (bump publications t));
  _ ← clear_err;
  mret YVEX_OK.

Definition yvex_runtime_execution_transaction_summary_copy
    : TX (yvex_status * option yvex_execution_transaction_summary) :=
  present ← tx_present;
  if negb present then
    rc ← transaction_refuse YVEX_ERR_INVALID_ARG
           "execution transaction summary storage is required";
    mret (rc, None)
  else
  t ← tx_get;
  _ ← clear_err;
  mret (YVEX_OK, Some (tx_summary t)).

Definition yvex_runtime_execution_transaction_close : TX yvex_status :=
  present ← tx_present;
  if negb present then _ ← clear_err; mret YVEX_OK else
  t ← tx_get;
  _ ← (if negb (bool_decide (tx_state t = YVEX_EXECUTION_TRANSACTION_COMMITTED))
          && negb (bool_decide (tx_state t = YVEX_EXECUTION_TRANSACTION_ABORTED)) then
         _ ← transaction_stop_quantum;
         _ ← transaction_discard;
         tx_modify (set_state YVEX_EXECUTION_TRANSACTION_ABORTED)
       else mret tt);
  rc ← (if tx_resource_retained t then
          lease ← so_lift (deref (opt_resource (tx_options t)));
          release ← so_lift (deref (lease_release lease));
          rc ← ask_err release;
          _ ← log (Released rc);
          _ ← (if bool_decide (rc = YVEX_OK) then tx_modify (set_retained false) else mret tt);
          mret rc
        else mret YVEX_OK);
  if negb (bool_decide (rc = YVEX_OK)) then mret rc else
  _ ← tx_store None;
  _ ← clear_err;
  mret YVEX_OK.

(** ** Call sequences *)

Inductive tx_call : Type :=
  | ExecuteQuantum | Resume | Commit | Abort | SummaryCopy | CloseHandle.

Definition tx_perform (c : tx_call) : TX yvex_status :=
  match c with
  | ExecuteQuantum => r ← yvex_runtime_execution_transaction_execute_quantum; mret (fst r)
  | Resume => yvex_runtime_execution_transaction_resume
  | Commit => yvex_runtime_execution_transaction_commit
  | Abort => yvex_runtime_execution_transaction_abort
  | SummaryCopy => r ← yvex_runtime_execution_transaction_summary_copy; mret (fst r)
  | CloseHandle => yvex_runtime_execution_transaction_close
  end.

(** The statuses returned by a sequence of calls on a transaction that [open]
    returned; the sequence stops when [open] refuses. *)
Definition tx_session (granted : bool) (options : yvex_execution_transaction_options)
    (calls : list tx_call) : TX (list yvex_status) :=
  rc ← yvex_runtime_execution_transaction_open granted options;
  if bool_decide (rc = YVEX_OK) then so_map tx_perform calls else mret [rc].

(** ** The driver of [yvex_runtime_latent_execute]

    Its numerical work (the initial noise, identities, observations) is a list
    of external calls before and after the loop, each skipped once one failed. *)

Record latent_drive : Type := mk_latent_drive {
  ld_options : yvex_execution_transaction_options;
  ld_initialize : list (nat -> answer);
  ld_finalize : list (nat -> answer);
  ld_resume : option (nat -> answer)
}.

Definition latent_refuse (status : yvex_status) (reason : string) : TX yvex_status :=
  w ← so_get;
  _ ← set_err (yvex_error_set (x_err w) status (Some "runtime.latent"%string) (Some reason));
  mret status.

Fixpoint external_steps (rc : yvex_status) (l : list (nat -> answer)) : TX yvex_status :=
  match l with
  | [] => mret rc
  | f :: l => if bool_decide (rc = YVEX_OK) then rc ← ask_err f; external_steps rc l else mret rc
  end.

(** One iteration of the loop at [step]. *)
Definition latent_iteration (d : latent_drive) (step : Z) : TX yvex_status :=
  '(rc, safe_point) ← yvex_runtime_execution_transaction_execute_quantum;
  if negb (bool_decide (rc = YVEX_OK)) then mret rc else
  if bool_decide (safe_point = Some YVEX_EXECUTION_SAFE_POINT_CANCEL) then
    latent_refuse YVEX_ERR_CANCELLED "latent iteration was cancelled at a safe point"
  else
  '(rc, safe_point) ←
    (if bool_decide (safe_point = Some YVEX_EXECUTION_SAFE_POINT_YIELD) then
       resume ← so_lift (deref (ld_resume d));
       rc ← ask_err resume;
       rc ← (if bool_decide (rc = YVEX_OK) then yvex_runtime_execution_transaction_resume else mret rc);
       mret (rc, if bool_decide (rc = YVEX_OK) then Some YVEX_EXECUTION_SAFE_POINT_CONTINUE
                 else safe_point)
     else mret (rc, safe_point) : TX (yvex_status * option yvex_execution_safe_point_action));
  let count := opt_quantum_count (ld_options d) in
  if bool_decide (rc = YVEX_OK)
     && (((u64 (step + 1) =? count)
            && negb (bool_decide (safe_point = Some YVEX_EXECUTION_SAFE_POINT_COMMIT)))
         || ((u64 (step + 1) <? count)
            && negb (bool_decide (safe_point = Some YVEX_EXECUTION_SAFE_POINT_CONTINUE))))
  then latent_refuse YVEX_ERR_STATE "latent safe-point action does not match execution progress"
  else mret rc.

(** [for (step; rc == YVEX_OK && step < count; ++step)], with [n = count - step] *)
Fixpoint latent_loop (n : nat) (d : latent_drive) (step : Z) (rc : yvex_status) : TX yvex_status :=
  match n with
  | O => mret rc
  | S n =>
      if bool_decide (rc = YVEX_OK)
      then rc ← latent_iteration d step; latent_loop n d (step + 1) rc
      else mret rc
  end.

(** The status and the transaction summary stored for the caller. *)
Definition latent_execute_transaction (granted : bool) (d : latent_drive)
    : TX (yvex_status * option yvex_execution_transaction_summary) :=
  rc ← yvex_runtime_execution_transaction_open granted (ld_options d);
  rc ← external_steps rc (ld_initialize d);
  rc ← latent_loop (Z.to_nat (opt_quantum_count (ld_options d))) d 0 rc;
  rc ← external_steps rc (ld_finalize d);
  rc ← (if bool_decide (rc = YVEX_OK) then yvex_runtime_execution_transaction_commit else mret rc);
  present ← tx_present;
  _ ← (if negb (bool_decide (rc = YVEX_OK)) && present
       then _ ← with_cleanup yvex_runtime_execution_transaction_abort; mret tt else mret tt);
  summary ← (if present : bool
             then r ← with_cleanup yvex_runtime_execution_transaction_summary_copy; mret (snd r)
             else mret None);
  w ← so_get;
  _ ← set_err (Some (mk_error YVEX_OK "" ""));
  cleanup_rc ← yvex_runtime_execution_transaction_close;
  cleanup ← so_get;
  _ ← set_err (x_err w);
  if negb (bool_decide (rc = YVEX_OK)) then mret (rc, summary) else
  if negb (bool_decide (cleanup_rc = YVEX_OK)) then
    _ ← set_err (match x_err w with Some _ => x_err cleanup | None => None end);
    mret (cleanup_rc, summary)
  else _ ← clear_err; mret (YVEX_OK, summary).

(** ** Specification: an automaton over the log *)

Inductive tx_phase : Type :=
  | Running (quanta : Z)
  | Failed
  | Committed
  | Aborted.

Record tx_spec : Type := mk_tx_spec { sp_phase : tx_phase; sp_held : bool }.

(** [n] is the number of admitted quanta. *)
Definition spec_step (n : Z) (s : tx_spec) (e : tx_event) : option tx_spec :=
  match e, sp_phase s with
  | Retained rc, Running k =>
      if (k =? 0) && negb (sp_held s)
      then Some (mk_tx_spec (Running k) (bool_decide (rc = YVEX_OK))) else None
  | Executed ordinal rc, Running k =>
      if (ordinal =? k) && (k <? n)
      then Some (mk_tx_spec (if bool_decide (rc = YVEX_OK) then Running (k + 1) else Failed) (sp_held s))
      else None
  | Published rc, Running k =>
      if k =? n
      then Some (mk_tx_spec (if bool_decide (rc = YVEX_OK) then Committed else Failed) (sp_held s))
      else None
  | Discarded _, (Running _ | Failed) => Some (mk_tx_spec Aborted (sp_held s))
  | Released rc, (Committed | Aborted) =>
      if sp_held s then Some (mk_tx_spec (sp_phase s) (negb (bool_decide (rc = YVEX_OK)))) else None
  | _, _ => None
  end.

Definition spec_run (n : Z) (l : list tx_event) : option tx_spec :=
  foldl (fun s e => s ≫= fun s => spec_step n s e) (Some (mk_tx_spec (Running 0) false)) l.

Lemma spec_run_snoc n l e s :
  spec_run n l = Some s -> spec_run n (l ++ [e]) = spec_step n s e.
Proof. intros H. unfold spec_run in *. by rewrite foldl_snoc, H. Qed.

(** ** Weakest preconditions *)

(** [c] returns, and its result satisfies [Q]. *)
Definition wp {A} (c : TX A) (Q : A -> tx_world -> Prop) (w : tx_world) : Prop :=
  exists w' a, c w = (w', Done a) /\ Q a w'.

(** What the proofs track of a world: the open transaction and the log. *)
Definition holds (w : tx_world) (t : transaction) (l : list tx_event) : Prop :=
  x_tx w = Some t /\ x_log w = l.

Section Wp.
Context {A B : Type}.
Implicit Types (Q : A -> tx_world -> Prop).

Lemma wp_bind (c : TX B) (k : B -> TX A) Q w :
  wp c (fun b => wp (k b) Q) w -> wp (c ≫= k) Q w.
Proof.
  intros (w1 & b & E1 & w2 & a & E2 & H). exists w2, a. split; [|done].
  by rewrite (so_bind_eq _ _ _ _ _ E1).
Qed.
Lemma wp_mono (c : TX A) Q Q' w : wp c Q w -> (forall a w', Q a w' -> Q' a w') -> wp c Q' w.
Proof. intros (w' & a & E & H) HQ. exists w', a. auto. Qed.
Lemma wp_ret (a : A) Q w : Q a w -> wp (mret a) Q w.
Proof. intros H. by exists w, a. Qed.
Lemma wp_ask (f : nat -> A) Q w t l :
  holds w t l -> (forall w', holds w' t l -> Q (f (x_tick w)) w') -> wp (ask f) Q w.
Proof. intros [Ht Hl] H. eexists _, _. split; [reflexivity|]. by apply H. Qed.
Lemma wp_lift (c : outcome A) a Q w : c = Done a -> Q a w -> wp (so_lift c) Q w.
Proof. intros -> H. by exists w, a. Qed.
End Wp.

Lemma wp_get (Q : transaction -> tx_world -> Prop) w t l : holds w t l -> Q t w -> wp tx_get Q w.
Proof. intros [E _] H. exists w, t. unfold tx_get. by rewrite E. Qed.
Lemma wp_world (Q : tx_world -> tx_world -> Prop) w : Q w w -> wp so_get Q w.
Proof. intros H. by exists w, w. Qed.
Lemma wp_modify (Q : unit -> tx_world -> Prop) f w t l :
  holds w t l -> (forall w', holds w' (f t) l -> Q tt w') -> wp (tx_modify f) Q w.
Proof.
  intros [E1 E2] H. eexists _, _. split; [reflexivity|]. apply H. split; [|done]. cbn. by rewrite E1.
Qed.
Lemma wp_log (Q : unit -> tx_world -> Prop) e w t l :
  holds w t l -> (forall w', holds w' t (l ++ [e]) -> Q tt w') -> wp (log e) Q w.
Proof.
  intros [E1 E2] H. eexists _, _. split; [reflexivity|]. apply H. split; [done|]. cbn. by rewrite E2.
Qed.
Lemma wp_set_err (Q : unit -> tx_world -> Prop) e w t l :
  holds w t l -> (forall w', holds w' t l -> Q tt w') -> wp (set_err e) Q w.
Proof. intros [Ht Hl] H. eexists _, _. split; [reflexivity|]. by apply H. Qed.
Lemma wp_clear_err (Q : unit -> tx_world -> Prop) w t l :
  holds w t l -> (forall w', holds w' t l -> Q tt w') -> wp clear_err Q w.
Proof. intros [Ht Hl] H. eexists _, _. split; [reflexivity|]. by apply H. Qed.
Lemma wp_refuse (Q : yvex_status -> tx_world -> Prop) status reason w t l :
  holds w t l -> (forall w', holds w' t l -> Q status w') -> wp (transaction_refuse status reason) Q w.
Proof. intros [Ht Hl] H. eexists _, _. split; [reflexivity|]. by apply H. Qed.
Lemma wp_ask_err (Q : yvex_status -> tx_world -> Prop) f w t l :
  holds w t l -> (forall w', holds w' t l -> Q (fst (f (x_tick w))) w') -> wp (ask_err f) Q w.
Proof.
  intros [Ht Hl] H. unfold ask_err. apply wp_bind. eapply wp_ask; [done|]. intros w1 [Ht1 Hl1].
  destruct (f (x_tick w)) as [rc stored]. eexists _, _. split; [reflexivity|]. by apply H.
Qed.
Lemma wp_present (Q : bool -> tx_world -> Prop) w t l : holds w t l -> Q true w -> wp tx_present Q w.
Proof. intros [E _] H. eexists _, _. split; [reflexivity|]. by rewrite E. Qed.
Lemma wp_now (Q : option timespec -> tx_world -> Prop) w t l :
  holds w t l -> (forall r w', holds w' t l -> Q r w') -> wp transaction_now Q w.
Proof. intros [Ht Hl] H. eexists _, _. split; [reflexivity|]. by apply H. Qed.

(** One step of a computation whose head is a primitive. *)
Ltac wp_prim :=
  first
    [ eapply wp_get; [eassumption|]
    | eapply wp_present; [eassumption|]
    | eapply wp_modify; [eassumption|intros ? ?]
    | eapply wp_log; [eassumption|intros ? ?]
    | eapply wp_clear_err; [eassumption|intros ? ?]
    | eapply wp_set_err; [eassumption|intros ? ?]
    | eapply wp_refuse; [eassumption|intros ? ?]
    | eapply wp_ask_err; [eassumption|intros ? ?]
    | eapply wp_now; [eassumption|intros ? ? ?]
    | eapply wp_ask; [eassumption|intros ? ?]
    | apply wp_world
    | apply wp_ret ].
Ltac wp_step :=
  lazymatch goal with |- wp (mbind _ _) _ _ => apply wp_bind | _ => idtac end; wp_prim; cbn beta.

(** ** Callbacks that cooperate *)

(** No callback asks for cancellation and none fails; yields are allowed. *)
Record cooperative (o : yvex_execution_transaction_options) : Prop := {
  co_cancel : forall f i, opt_cancel_requested o = Some f -> f i = false;
  co_execute : forall f i k, opt_execute o = Some f -> fst (f i k) = YVEX_OK;
  co_publish : forall f i, opt_publish o = Some f -> fst (f i) = YVEX_OK;
  co_retain : forall lease f i, opt_resource o = Some lease -> lease_retain lease = Some f ->
                fst (f i) = YVEX_OK;
  co_release : forall lease f i, opt_resource o = Some lease -> lease_release lease = Some f ->
                fst (f i) = YVEX_OK
}.

(** ** Invariant *)

Section Session.
Context (O : yvex_execution_transaction_options).

Definition running_state (n k : Z) (st : yvex_execution_transaction_state) : Prop :=
  match st with
  | YVEX_EXECUTION_TRANSACTION_PREPARED => k = 0
  | YVEX_EXECUTION_TRANSACTION_SAFE | YVEX_EXECUTION_TRANSACTION_YIELDED => 0 < k < n
  | YVEX_EXECUTION_TRANSACTION_READY_TO_COMMIT => k = n
  | _ => False
  end.

(** What does not depend on the phase. *)
Record base (n : Z) (held : bool) (t : transaction) : Prop := {
  b_options : tx_options t = O;
  b_count : 0 < n < 18446744073709551616;
  b_admitted : count admitted_quanta t = n;
  b_execute : is_Some (opt_execute (tx_options t));
  b_held : tx_resource_retained t = held;
  b_lease : held = true -> exists lease, opt_resource (tx_options t) = Some lease
              /\ is_Some (lease_release lease)
}.

(** Neither published nor discarded. *)
Definition undecided (t : transaction) : Prop :=
  count publications t = 0 /\ count discards t = 0 /\ tx_discarded t = false.

(** [k] quanta are complete, and the next one may be executing. *)
Definition progress (k started : Z) (t : transaction) : Prop :=
  count completed_quanta t = k /\ count safe_points t = k /\ count started_quanta t = started.

Definition phase_ok (n : Z) (t : transaction) (p : tx_phase) : Prop :=
  match p with
  | Running k => undecided t /\ 0 <= k <= n /\ progress k k t /\ running_state n k (tx_state t)
  | Failed => False
  | Committed => tx_state t = YVEX_EXECUTION_TRANSACTION_COMMITTED /\ progress n n t
      /\ count publications t = 1 /\ count discards t = 0 /\ tx_discarded t = false
  | Aborted => tx_state t = YVEX_EXECUTION_TRANSACTION_ABORTED
      /\ count publications t = 0 /\ count discards t = 1 /\ tx_discarded t = true
  end.

(** The invariant between calls, at a phase of the specification and a state of
    the code. *)
Definition at_phase (n : Z) (p : tx_phase) (st : yvex_execution_transaction_state) (w : tx_world)
    : Prop :=
  exists t l held, holds w t l /\ spec_run n l = Some (mk_tx_spec p held) /\ base n held t
                   /\ phase_ok n t p /\ tx_state t = st.
Definition at_aborted (n : Z) : tx_world -> Prop := at_phase n Aborted YVEX_EXECUTION_TRANSACTION_ABORTED.

(** Only time measurements differ. *)
Definition timed (t t' : transaction) : Prop :=
  t' = t \/ (exists v, t' = set_count quantum_wall_nanoseconds v t)
  \/ exists v, t' = set_count safe_point_nanoseconds v t.

Lemma base_timed n held t t' : timed t t' -> base n held t -> base n held t'.
Proof. intros [->|[[v ->]|[v ->]]] []; by constructor. Qed.
Lemma undecided_timed t t' : timed t t' -> undecided t -> undecided t'.
Proof. by intros [->|[[v ->]|[v ->]]]. Qed.
Lemma progress_timed k s t t' : timed t t' -> progress k s t -> progress k s t'.
Proof. by intros [->|[[v ->]|[v ->]]]. Qed.
Lemma phase_ok_timed n p t t' : timed t t' -> phase_ok n t p -> phase_ok n t' p.
Proof. by intros [->|[[v ->]|[v ->]]]. Qed.
Lemma state_timed t t' : timed t t' -> tx_state t' = tx_state t.
Proof. by intros [->|[[v ->]|[v ->]]]. Qed.
Lemma options_timed t t' : timed t t' -> tx_options t' = tx_options t.
Proof. by intros [->|[[v ->]|[v ->]]]. Qed.

Lemma wp_stop_quantum (Q : unit -> tx_world -> Prop) w t l :
  holds w t l -> (forall t' w', timed t t' -> holds w' t' l -> Q tt w') ->
  wp transaction_stop_quantum Q w.
Proof.
  intros H HQ. unfold transaction_stop_quantum. wp_step. case_match.
  { wp_step. eapply HQ; [by left|done]. }
  wp_step. destruct r as [finish|].
  - wp_step. eapply HQ; [|done]. right. left. by eexists.
  - wp_step. eapply HQ; [by left|done].
Qed.

Lemma wp_discard (Q : unit -> tx_world -> Prop) w t l :
  holds w t l -> undecided t ->
  (forall w', holds w' (bump discards (set_discarded t))
                (l ++ [Discarded (opt_discard (tx_options t))]) -> Q tt w') ->
  wp transaction_discard Q w.
Proof.
  intros H (Hp & Hd & Hf) HQ. unfold transaction_discard. wp_step.
  rewrite Hf, Hp. cbn [orb negb Z.eqb]. wp_step. wp_step. by apply HQ.
Qed.

(** The phase in which a discard is possible. *)
Definition open_phase (p : tx_phase) : Prop :=
  match p with Running _ | Failed => True | _ => False end.

(** An undecided transaction, after its discard. *)
Lemma aborted_at n b w t l p held :
  holds w (set_state YVEX_EXECUTION_TRANSACTION_ABORTED (bump discards (set_discarded t)))
    (l ++ [Discarded b]) ->
  spec_run n l = Some (mk_tx_spec p held) -> base n held t -> undecided t -> open_phase p ->
  at_aborted n w.
Proof.
  intros H Hs Hb (Hp & Hd & Hf) Hph. eexists _, _, held. split; [done|]. split; [|split].
  - rewrite (spec_run_snoc _ _ _ _ Hs). cbn. by destruct p.
  - destruct Hb. by constructor.
  - split; [|done]. cbn. split; [done|]. split; [exact Hp|]. split; [|done].
    change (u64 (count discards t + 1) = 1). by rewrite Hd.
Qed.

Lemma wp_cancel_requested (Q : bool -> tx_world -> Prop) w t l :
  holds w t l ->
  (forall b w', holds w' t l -> (b = true -> ~ cooperative (tx_options t)) -> Q b w') ->
  wp transaction_cancel_requested Q w.
Proof.
  intros H HQ. unfold transaction_cancel_requested. wp_step.
  destruct (opt_cancel_requested (tx_options t)) as [f|] eqn:E; wp_step; (apply HQ; [done|]); [|done].
  intros Hf C. by rewrite (co_cancel _ C f) in Hf.
Qed.

Lemma wp_cancel (Q : unit -> tx_world -> Prop) n w t l p held :
  holds w t l -> spec_run n l = Some (mk_tx_spec p held) -> base n held t -> undecided t ->
  open_phase p -> (forall w', at_aborted n w' -> Q tt w') -> wp transaction_cancel Q w.
Proof.
  intros H Hs Hb Hu Hph HQ. unfold transaction_cancel. apply wp_bind.
  eapply wp_stop_quantum; [done|]. intros t1 w1 Ht1 H1. wp_step.
  apply (undecided_timed _ _ Ht1) in Hu. apply (base_timed _ _ _ _ Ht1) in Hb.
  apply wp_bind. eapply wp_discard; [done|exact Hu|]. intros w2 H2. wp_step. apply HQ.
  eapply aborted_at; [done|done| |exact Hu|done]. destruct Hb. by constructor.
Qed.

(** Refusals, cleared errors and errors of callbacks keep the phase. *)
Lemma at_refuse n p st status reason w :
  at_phase n p st w ->
  wp (transaction_refuse status reason) (fun rc w' => rc = status /\ at_phase n p st w') w.
Proof. intros (t & l & held & H & Hr). wp_step. split; [done|]. by exists t, l, held. Qed.

Lemma at_set_err n p st e w : at_phase n p st w -> wp (set_err e) (fun _ w' => at_phase n p st w') w.
Proof. intros (t & l & held & H & Hr). wp_step. by exists t, l, held. Qed.

Lemma at_clear_err n p st w : at_phase n p st w -> wp clear_err (fun _ w' => at_phase n p st w') w.
Proof. intros (t & l & held & H & Hr). wp_step. by exists t, l, held. Qed.

Lemma wp_with_cleanup {A} (c : TX A) (Q : A -> tx_world -> Prop) w t l :
  holds w t l ->
  (forall w', holds w' t l -> wp c (fun a w2 => exists n p st, at_phase n p st w2
     /\ forall w3, at_phase n p st w3 -> Q a w3) w') ->
  wp (with_cleanup c) Q w.
Proof.
  intros H Hc. unfold with_cleanup. wp_step. wp_step. apply wp_bind.
  eapply wp_mono; [by apply Hc|]. intros a w2 (n & p & st & Ha & HQ). cbn beta.
  apply wp_bind. eapply wp_mono; [by apply at_set_err|]. intros u w3 Hw3. wp_step. by apply HQ.
Qed.

(** Abort, from any undecided transaction, even while a quantum executes. *)
Lemma abort_undecided n w t l p held :
  holds w t l -> spec_run n l = Some (mk_tx_spec p held) -> base n held t -> undecided t ->
  open_phase p -> tx_state t <> YVEX_EXECUTION_TRANSACTION_COMMITTED ->
  tx_state t <> YVEX_EXECUTION_TRANSACTION_ABORTED ->
  wp yvex_runtime_execution_transaction_abort (fun rc w' => rc = YVEX_OK /\ at_aborted n w') w.
Proof.
  intros H Hs Hb Hu Hph Hc Ha. unfold yvex_runtime_execution_transaction_abort.
  wp_step. cbn [negb]. wp_step. rewrite bool_decide_eq_false_2 by done.
  apply wp_bind. rewrite bool_decide_eq_false_2 by done. cbn [negb].
  apply wp_bind. eapply wp_stop_quantum; [done|]. intros t1 w1 Ht1 H1.
  apply (undecided_timed _ _ Ht1) in Hu. apply (base_timed _ _ _ _ Ht1) in Hb.
  apply wp_bind. eapply wp_discard; [done|exact Hu|]. intros w2 H2. wp_step. wp_step. wp_step.
  split; [done|]. by eapply aborted_at.
Qed.

(** States in which nothing is decided. *)
Lemma running_open n k t :
  phase_ok n t (Running k) ->
  undecided t /\ tx_state t <> YVEX_EXECUTION_TRANSACTION_COMMITTED
  /\ tx_state t <> YVEX_EXECUTION_TRANSACTION_ABORTED.
Proof. intros (Hu & _ & _ & Hst). split; [done|]. split; intros E; by rewrite E in Hst. Qed.

Lemma abort_at n p st w :
  at_phase n p st w ->
  wp yvex_runtime_execution_transaction_abort (fun rc w' =>
    match p with
    | Committed => rc = YVEX_ERR_STATE /\ at_phase n p st w'
    | _ => rc = YVEX_OK /\ at_aborted n w'
    end) w.
Proof.
  intros (t & l & held & H & Hs & Hb & Hp & <-). destruct p as [k| | |]; [|done|..].
  - destruct (running_open _ _ _ Hp) as (Hu & Hc & Ha). by eapply abort_undecided.
  - unfold yvex_runtime_execution_transaction_abort. wp_step. cbn [negb]. wp_step.
    rewrite bool_decide_eq_true_2 by apply Hp. wp_step. split; [done|]. by exists t, l, held.
  - unfold yvex_runtime_execution_transaction_abort. wp_step. cbn [negb]. wp_step.
    destruct Hp as (Hst & Hp). rewrite bool_decide_eq_false_2 by congruence. apply wp_bind.
    rewrite bool_decide_eq_true_2 by done. cbn [negb]. wp_step. wp_step. wp_step. split; [done|].
    exists t, l, held. done.
Qed.

(** ** One quantum *)

(** A transaction whose quantum [k] is executing. *)
Definition executing_at (n k : Z) (w : tx_world) : Prop :=
  exists t l held, holds w t l /\ spec_run n l = Some (mk_tx_spec (Running k) held) /\ base n held t
    /\ undecided t /\ 0 <= k < n /\ progress k (k + 1) t
    /\ tx_state t = YVEX_EXECUTION_TRANSACTION_EXECUTING.

(** The states from which a quantum may start. *)
Definition startable (st : yvex_execution_transaction_state) : bool :=
  match st with
  | YVEX_EXECUTION_TRANSACTION_PREPARED | YVEX_EXECUTION_TRANSACTION_SAFE => true
  | _ => false
  end.

Lemma startable_spec st :
  startable st = negb (negb (bool_decide (st = YVEX_EXECUTION_TRANSACTION_PREPARED))
                       && negb (bool_decide (st = YVEX_EXECUTION_TRANSACTION_SAFE))).
Proof. by destruct st. Qed.

Lemma begin_ok n k st w t l held :
  holds w t l -> spec_run n l = Some (mk_tx_spec (Running k) held) -> base n held t ->
  phase_ok n t (Running k) -> tx_state t = st -> startable st = true ->
  wp (transaction_quantum_begin k) (fun rc w' =>
    (rc = YVEX_OK /\ executing_at n k w' /\ exists t' l', holds w' t' l' /\ tx_options t' = tx_options t)
    \/ (rc = YVEX_ERR_CANCELLED /\ at_aborted n w' /\ ~ cooperative O)) w.
Proof.
  intros H Hs Hb (Hu & Hk & (Hc & Hsp & Hst) & Hrun) <- Hok. unfold transaction_quantum_begin. wp_step.
  rewrite startable_spec, negb_true_iff in Hok. rewrite Hok, Hc, Z.eqb_refl, (b_admitted _ _ _ Hb).
  assert (k < n) as Hlt.
  { pose proof (b_count _ _ _ Hb). destruct (tx_state t); cbn in Hrun; try done; lia. }
  replace (n <=? k) with false by lia. cbn [negb orb]. apply wp_bind.
  eapply wp_cancel_requested; [done|]. rewrite (b_options _ _ _ Hb). intros [|] w1 H1 Hco.
  - apply wp_bind. eapply wp_cancel; [done|done|done|done|done|]. intros w2 H2.
    eapply wp_mono; [by apply at_refuse|]. cbn. intros rc w3 [-> ?]. right. split; [done|]. auto.
  - wp_step. wp_step. wp_step. wp_step. wp_step. left. split; [done|].
    split; [|eexists _, _; split; [done|exact (b_options _ _ _ Hb)]].
    eexists _, l, held. split; [done|]. split; [done|]. split; [destruct Hb; by constructor|].
    split; [done|]. split; [lia|]. split; [|done]. split; [done|]. split; [done|].
    change (u64 (count started_quanta t + 1) = k + 1). rewrite Hst. apply u64_id.
    pose proof (b_count _ _ _ Hb). unfold is_u64. lia.
Qed.

(** The result of the safe point after quantum [k]. *)
Definition safe_point_result (n k : Z) (r : yvex_status * option yvex_execution_safe_point_action)
    (w : tx_world) : Prop :=
  match r with
  | (YVEX_OK, Some YVEX_EXECUTION_SAFE_POINT_CANCEL) => at_aborted n w /\ ~ cooperative O
  | (YVEX_OK, Some YVEX_EXECUTION_SAFE_POINT_COMMIT) =>
      k + 1 = n /\ at_phase n (Running (k + 1)) YVEX_EXECUTION_TRANSACTION_READY_TO_COMMIT w
  | (YVEX_OK, Some YVEX_EXECUTION_SAFE_POINT_YIELD) =>
      k + 1 < n /\ at_phase n (Running (k + 1)) YVEX_EXECUTION_TRANSACTION_YIELDED w
  | (YVEX_OK, Some YVEX_EXECUTION_SAFE_POINT_CONTINUE) =>
      k + 1 < n /\ at_phase n (Running (k + 1)) YVEX_EXECUTION_TRANSACTION_SAFE w
  | _ => False
  end.

(** The measurement that follows the decision keeps the phase. *)
Lemma wp_measure n p st (start : option timespec) w :
  at_phase n p st w ->
  wp match start with
     | None => mret tt
     | Some start =>
         finish ← transaction_now;
         match finish with
         | None => mret tt
         | Some finish => tx_modify (fun t => set_count safe_point_nanoseconds
             (transaction_add (count safe_point_nanoseconds t) (transaction_elapsed start finish)) t)
         end
     end (fun _ w' => at_phase n p st w') w.
Proof.
  intros (t & l & held & H & Hs & Hb & Hp & Hst). destruct start as [start|]; [|wp_step; by exists t, l, held].
  wp_step. destruct r as [finish|]; wp_step; [|by exists t, l, held].
  eexists _, l, held. split; [done|]. split; [done|].
  assert (timed t (set_count safe_point_nanoseconds (transaction_add
    (count safe_point_nanoseconds t) (transaction_elapsed start finish)) t)) as Ht
    by (right; right; by eexists).
  split; [by eapply base_timed|]. split; [by eapply phase_ok_timed|]. by rewrite (state_timed _ _ Ht).
Qed.

Lemma safe_point_ok n k w t l held :
  holds w t l -> spec_run n l = Some (mk_tx_spec (Running (k + 1)) held) -> base n held t ->
  undecided t -> 0 <= k < n -> progress k (k + 1) t ->
  tx_state t = YVEX_EXECUTION_TRANSACTION_EXECUTING ->
  wp transaction_safe_point (safe_point_result n k) w.
Proof.
  intros H Hs Hb Hu Hk Hpr Hst. unfold transaction_safe_point. wp_step.
  rewrite bool_decide_eq_true_2 by done. cbn [negb]. apply wp_bind.
  eapply wp_stop_quantum; [done|]. intros t1 w1 Ht1 H1.
  apply (undecided_timed _ _ Ht1) in Hu. apply (base_timed _ _ _ _ Ht1) in Hb.
  apply (progress_timed _ _ _ _ Ht1) in Hpr. destruct Hpr as (Hc & Hsp & Hss).
  wp_step. set (t2 := bump safe_points (bump completed_quanta t1)) in *.
  assert (base n held t2) as Hb2 by (destruct Hb; by constructor).
  assert (undecided t2) as Hu2 by exact Hu.
  assert (progress (k + 1) (k + 1) t2) as Hp2.
  { pose proof (b_count _ _ _ Hb). repeat split; [| |exact Hss].
    - change (u64 (count completed_quanta t1 + 1) = k + 1). rewrite Hc. apply u64_id. unfold is_u64. lia.
    - change (u64 (count safe_points t1 + 1) = k + 1). rewrite Hsp. apply u64_id. unfold is_u64. lia. }
  clearbody t2. wp_step. apply wp_bind.
  eapply wp_cancel_requested; [done|]. rewrite (b_options _ _ _ Hb2). intros cancelled w3 H3 Hco.
  apply wp_bind.
  apply wp_mono with (Q := fun action => safe_point_result n k (YVEX_OK, Some action)).
  2: { intros action w4 Hw4. apply wp_bind.
       assert (exists p st, at_phase n p st w4 /\ forall w', at_phase n p st w' ->
                 safe_point_result n k (YVEX_OK, Some action) w') as (p & st & Hp & HQ).
       { destruct action; cbn in Hw4; [destruct Hw4 as [? Hw4]..|destruct Hw4 as [Hw4 ?]
           |destruct Hw4 as [? Hw4]]; do 2 eexists; (split; [exact Hw4|]); cbn; auto. }
       eapply wp_mono; [by apply wp_measure|]. intros u w5 Hw5. apply wp_bind.
       eapply wp_mono; [eapply at_clear_err; exact Hw5|]. intros u' w6 Hw6. wp_step. by apply HQ. }
  destruct cancelled.
  { wp_step. apply wp_bind. eapply wp_discard; [done|exact Hu2|]. intros w4 Hw4. wp_step. wp_step.
    split; [|by apply Hco].
    eapply aborted_at; [done|done| |exact Hu2|done]. destruct Hb2. by constructor. }
  wp_step. destruct Hp2 as (Hc2 & Hs2 & Hst2). rewrite Hc2, (b_admitted _ _ _ Hb2).
  destruct (k + 1 =? n) eqn:E.
  { wp_step. wp_step. split; [lia|]. eexists _, l, held. split; [done|]. split; [done|].
    split; [destruct Hb2; by constructor|]. split; [|done]. repeat split; try apply Hu2; try done; cbn; lia. }
  apply wp_bind.
  assert (forall b w', holds w' t2 l ->
    wp (if b : bool then
          _ ← tx_modify (fun t => set_state YVEX_EXECUTION_TRANSACTION_YIELDED (bump yields t));
          mret YVEX_EXECUTION_SAFE_POINT_YIELD
        else
          _ ← tx_modify (set_state YVEX_EXECUTION_TRANSACTION_SAFE);
          mret YVEX_EXECUTION_SAFE_POINT_CONTINUE)
       (fun action => safe_point_result n k (YVEX_OK, Some action)) w') as Hlast.
  { intros b wl Hwl. destruct b; wp_step; wp_step; (split; [lia|]); eexists _, l, held;
      (split; [done|]); (split; [done|]); (split; [destruct Hb2; by constructor|]); (split; [|done]);
      repeat split; try apply Hu2; try done; cbn; lia. }
  destruct (opt_yield_requested (tx_options t2)); wp_step; [by apply Hlast|by apply (Hlast false)].
Qed.

(** Every status but success. *)
Definition failed_status (rc : yvex_status) : Prop := rc <> YVEX_OK.

Lemma execute_at n k st w :
  at_phase n (Running k) st w -> startable st = true ->
  wp yvex_runtime_execution_transaction_execute_quantum (fun r w' =>
    (failed_status (fst r) /\ snd r = None /\ at_aborted n w' /\ ~ cooperative O)
    \/ safe_point_result n k r w') w.
Proof.
  intros (t & l & held & H & Hs & Hb & Hp & Hst) Hok.
  unfold yvex_runtime_execution_transaction_execute_quantum. wp_step. cbn [negb]. wp_step.
  destruct (b_execute _ _ _ Hb) as [execute Hx].
  assert (count completed_quanta t = k) as -> by apply Hp. apply wp_bind.
  eapply wp_mono; [by eapply begin_ok|]. cbn beta. intros rc w1 [(-> & Hw1 & _)|(-> & Ha)].
  2: { cbn. wp_step. left. by split. }
  destruct Hw1 as (t1 & l1 & held1 & H1 & Hs1 & Hb1 & Hu1 & Hk1 & Hp1 & Hst1). cbn [bool_decide negb].
  rewrite bool_decide_eq_true_2 by done. cbn [negb]. apply wp_bind.
  eapply wp_lift; [by rewrite Hx|]. wp_step. wp_step.
  destruct (decide ((execute (x_tick w1) k).1 = YVEX_OK)) as [Hrc|Hrc].
  - rewrite bool_decide_eq_true_2 by done. cbn [negb].
    eapply wp_mono; [eapply safe_point_ok; try done|by right].
    rewrite (spec_run_snoc _ _ _ _ Hs1), Hrc. cbn. rewrite Z.eqb_refl.
    by replace (k <? n) with true by lia.
  - rewrite bool_decide_eq_false_2 by done. cbn [negb]. wp_step. apply wp_bind.
    assert (spec_run n (l1 ++ [Executed k (execute (x_tick w1) k).1])
            = Some (mk_tx_spec Failed held1)) as Hs2.
    { rewrite (spec_run_snoc _ _ _ _ Hs1). cbn. rewrite Z.eqb_refl, bool_decide_eq_false_2 by done.
      by replace (k <? n) with true by lia. }
    assert (forall w2, holds w2 t1 (l1 ++ [Executed k (execute (x_tick w1) k).1]) ->
      wp (_ ← with_cleanup yvex_runtime_execution_transaction_abort;
          mret ((execute (x_tick w1) k).1, None)) (fun r w' =>
        (failed_status (fst r) /\ snd r = None /\ at_aborted n w' /\ ~ cooperative O)
    \/ safe_point_result n k r w') w2)
      as Hfin.
    { intros w2 Hh2. apply wp_bind. eapply wp_with_cleanup; [done|]. intros w3 Hh3.
      eapply wp_mono; [eapply abort_undecided; try done; by rewrite Hst1|]. cbn beta.
      intros rc w4 [_ Ha]. do 3 eexists. split; [exact Ha|]. intros w5 Ha5. wp_step. left.
      split; [done|]. split; [done|]. split; [done|]. intros C. apply Hrc.
      apply (co_execute _ C execute). by rewrite <- (b_options _ _ _ Hb). }
    case_match; wp_step; by apply Hfin.
Qed.

Lemma execute_refused n p st w :
  at_phase n p st w -> startable st = false ->
  wp yvex_runtime_execution_transaction_execute_quantum (fun r w' =>
    r = (YVEX_ERR_STATE, None) /\ at_phase n p st w') w.
Proof.
  intros (t & l & held & H & Hs & Hb & Hp & Hst) Hno.
  unfold yvex_runtime_execution_transaction_execute_quantum. wp_step. cbn [negb]. wp_step.
  apply wp_bind. unfold transaction_quantum_begin. wp_step.
  rewrite <- Hst, startable_spec, negb_false_iff in Hno. rewrite Hno. cbn [orb]. wp_step.
  cbn. wp_step. split; [done|]. by exists t, l, held.
Qed.

(** ** The other operations *)

Lemma resume_at n p st w :
  at_phase n p st w ->
  wp yvex_runtime_execution_transaction_resume (fun rc w' =>
    if decide (st = YVEX_EXECUTION_TRANSACTION_YIELDED)
    then (rc = YVEX_OK /\ at_phase n p YVEX_EXECUTION_TRANSACTION_SAFE w')
         \/ (rc = YVEX_ERR_CANCELLED /\ at_aborted n w' /\ ~ cooperative O)
    else rc = YVEX_ERR_STATE /\ at_phase n p st w') w.
Proof.
  intros Hat. pose proof Hat as (t & l & held & H & Hs & Hb & Hp & Hst).
  unfold yvex_runtime_execution_transaction_resume. wp_step. cbn [negb]. wp_step. rewrite Hst.
  destruct (decide (st = YVEX_EXECUTION_TRANSACTION_YIELDED)) as [->|Hne].
  2: { rewrite bool_decide_eq_false_2 by done. by apply at_refuse. }
  cbn [negb bool_decide decide_rel]. rewrite bool_decide_eq_true_2 by done. cbn [negb].
  destruct p as [k| | |]; cbn in Hp; [|done|destruct Hp; congruence..]. rewrite Hst in Hp.
  destruct Hp as (Hu & Hk & Hpr & Hrun). apply wp_bind.
  eapply wp_cancel_requested; [done|]. rewrite (b_options _ _ _ Hb). intros [|] w1 H1 Hco.
  - apply wp_bind. eapply wp_cancel; [done|done|done|done|done|]. intros w2 Hh2.
    eapply wp_mono; [by apply at_refuse|]. cbn. intros rc w3 [-> ?]. right. split; [done|]. auto.
  - wp_step. wp_step. wp_step. left. split; [done|]. eexists _, l, held. split; [done|].
    split; [done|]. split; [destruct Hb; by constructor|]. split; [|done].
    split; [done|]. split; [done|]. split; [done|]. done.
Qed.

Lemma commit_at n p st w :
  at_phase n p st w ->
  wp yvex_runtime_execution_transaction_commit (fun rc w' =>
    if decide (st = YVEX_EXECUTION_TRANSACTION_READY_TO_COMMIT)
    then (rc = YVEX_OK /\ at_phase n Committed YVEX_EXECUTION_TRANSACTION_COMMITTED w')
         \/ (failed_status rc /\ at_aborted n w' /\ ~ cooperative O)
    else rc = YVEX_ERR_STATE /\ at_phase n p st w') w.
Proof.
  intros Hat. pose proof Hat as (t & l & held & H & Hs & Hb & Hp & Hst).
  unfold yvex_runtime_execution_transaction_commit. wp_step. cbn [negb]. wp_step. rewrite Hst.
  destruct (decide (st = YVEX_EXECUTION_TRANSACTION_READY_TO_COMMIT)) as [->|Hne].
  2: { rewrite bool_decide_eq_false_2 by done. by apply at_refuse. }
  rewrite bool_decide_eq_true_2 by done. cbn [negb].
  destruct p as [k| | |]; cbn in Hp; [|done|destruct Hp; congruence..]. rewrite Hst in Hp.
  destruct Hp as (Hu & Hk & Hpr & Hrun). cbn in Hrun. subst k. apply wp_bind.
  eapply wp_cancel_requested; [done|]. rewrite (b_options _ _ _ Hb). intros [|] w1 H1 Hco.
  { apply wp_bind. eapply wp_cancel; [done|done|done|done|done|]. intros w2 Hh2.
    eapply wp_mono; [by apply at_refuse|]. cbn. intros rc w3 [-> ?]. right. split; [done|]. auto. }
  apply wp_bind.
  assert (forall rc w2, holds w2 t l -> (rc <> YVEX_OK -> ~ cooperative O) ->
    wp (_ ← log (Published rc);
      if negb (bool_decide (rc = YVEX_OK)) then
        w ← so_get;
        _ ← (if negb (yvex_error_is_set (x_err w))
             then transaction_refuse rc "transaction publication failed without an error"
             else mret rc);
        _ ← transaction_discard;
        _ ← tx_modify (set_state YVEX_EXECUTION_TRANSACTION_ABORTED);
        mret rc
      else
      _ ← tx_modify (fun t => set_state YVEX_EXECUTION_TRANSACTION_COMMITTED (bump publications t));
      _ ← clear_err;
      mret YVEX_OK) (fun rc w' =>
        (rc = YVEX_OK /\ at_phase n Committed YVEX_EXECUTION_TRANSACTION_COMMITTED w')
         \/ (failed_status rc /\ at_aborted n w' /\ ~ cooperative O)) w2) as Hpub.
  { intros rc w2 Hh2 Hbad. wp_step. case_bool_decide as Hrc; cbn [negb].
    - wp_step. wp_step. wp_step. left. split; [done|]. eexists _, _, held. split; [done|].
      split; [rewrite (spec_run_snoc _ _ _ _ Hs); cbn; by rewrite Z.eqb_refl, bool_decide_eq_true_2|].
      split; [destruct Hb; by constructor|]. split; [|done]. destruct Hu as (Hu1 & Hu2 & Hu3).
      split; [done|]. split; [done|]. split; [|by split].
      change (u64 (count publications t + 1) = 1). by rewrite Hu1.
    - assert (forall w3, holds w3 t (l ++ [Published rc]) ->
        wp (_ ← transaction_discard; _ ← tx_modify (set_state YVEX_EXECUTION_TRANSACTION_ABORTED);
            mret rc) (fun rc w' =>
          (rc = YVEX_OK /\ at_phase n Committed YVEX_EXECUTION_TRANSACTION_COMMITTED w')
          \/ (failed_status rc /\ at_aborted n w' /\ ~ cooperative O)) w3) as Hdrop.
      { intros w3 Hh3. apply wp_bind. eapply wp_discard; [done|exact Hu|]. intros w4 Hh4. wp_step. wp_step.
        right. split; [done|]. split; [|by apply Hbad].
        eapply aborted_at with (p := Failed); try done.
        rewrite (spec_run_snoc _ _ _ _ Hs). cbn. by rewrite Z.eqb_refl, bool_decide_eq_false_2. }
      wp_step. apply wp_bind. case_match; wp_step; by apply Hdrop. }
  destruct (opt_publish O) as [f|] eqn:Ef; wp_step; apply Hpub; try done.
  intros Hrc C. by apply Hrc, (co_publish _ C f).
Qed.

(** A closed handle: the outcome is decided and the resource was given back. *)
Definition closed (n : Z) (p : tx_phase) (w : tx_world) : Prop :=
  x_tx w = None /\ spec_run n (x_log w) = Some (mk_tx_spec p false) /\ (p = Committed \/ p = Aborted).

Definition closing_phase (p : tx_phase) : tx_phase :=
  match p with Committed => Committed | _ => Aborted end.

(** The decision before the release. *)
Lemma wp_close_decide n p st w t l held :
  holds w t l -> spec_run n l = Some (mk_tx_spec p held) -> base n held t -> phase_ok n t p ->
  tx_state t = st ->
  wp (if negb (bool_decide (tx_state t = YVEX_EXECUTION_TRANSACTION_COMMITTED))
         && negb (bool_decide (tx_state t = YVEX_EXECUTION_TRANSACTION_ABORTED)) then
        _ ← transaction_stop_quantum;
        _ ← transaction_discard;
        tx_modify (set_state YVEX_EXECUTION_TRANSACTION_ABORTED)
      else mret tt) (fun _ w' => exists t' l', holds w' t' l'
        /\ spec_run n l' = Some (mk_tx_spec (closing_phase p) held) /\ base n held t'
        /\ phase_ok n t' (closing_phase p) /\ tx_options t' = tx_options t) w.
Proof.
  intros H Hs Hb Hp Hst. destruct p as [k| | |]; cbn [closing_phase].
  - destruct (running_open _ _ _ Hp) as (Hu & Hc & Ha).
    rewrite !bool_decide_eq_false_2 by done. cbn [negb andb].
    apply wp_bind. eapply wp_stop_quantum; [done|]. intros t1 w1 Ht1 Hh1.
    apply (undecided_timed _ _ Ht1) in Hu. apply (base_timed _ _ _ _ Ht1) in Hb.
    apply wp_bind. eapply wp_discard; [done|exact Hu|]. intros w2 Hh2. wp_step.
    eexists _, _. split; [done|]. destruct Hu as (Hu1 & Hu2 & Hu3).
    split; [by rewrite (spec_run_snoc _ _ _ _ Hs)|]. split; [destruct Hb; by constructor|].
    split; [|exact (options_timed _ _ Ht1)].
    split; [done|]. split; [exact Hu1|]. split; [|done].
    change (u64 (count discards t1 + 1) = 1). by rewrite Hu2.
  - done.
  - rewrite bool_decide_eq_true_2 by apply Hp. cbn. wp_step. by exists t, l.
  - destruct Hp as (Hp & Hrest). rewrite Hp. cbn. wp_step. by exists t, l.
Qed.

Lemma phase_ok_retained n t p b : phase_ok n t p -> phase_ok n (set_retained b t) p.
Proof. by destruct p. Qed.

Definition closing_state (p : tx_phase) : yvex_execution_transaction_state :=
  match p with
  | Committed => YVEX_EXECUTION_TRANSACTION_COMMITTED
  | _ => YVEX_EXECUTION_TRANSACTION_ABORTED
  end.

Lemma closing_state_ok n t p : phase_ok n t (closing_phase p) -> tx_state t = closing_state p.
Proof. by destruct p; intros []. Qed.

Lemma wp_store_none (Q : unit -> tx_world -> Prop) w t l :
  holds w t l -> (forall w', x_tx w' = None -> x_log w' = l -> Q tt w') -> wp (tx_store None) Q w.
Proof. intros [Ht Hl] H. eexists _, _. split; [reflexivity|]. by apply H. Qed.

Lemma close_at n p st w :
  at_phase n p st w ->
  wp yvex_runtime_execution_transaction_close (fun rc w' =>
    (rc = YVEX_OK /\ closed n (closing_phase p) w')
    \/ (failed_status rc /\ at_phase n (closing_phase p) (closing_state p) w'
        /\ Released rc ∈ x_log w' /\ ~ cooperative O)) w.
Proof.
  intros (t & l & held & H & Hs & Hb & Hp & Hst).
  unfold yvex_runtime_execution_transaction_close. wp_step. cbn [negb]. wp_step. apply wp_bind.
  eapply wp_mono; [by eapply wp_close_decide|].
  intros u w1 (t1 & l1 & Hh1 & Hs1 & Hb1 & Hp1 & Ho). apply wp_bind.
  assert (forall w' l', x_tx w' = None -> x_log w' = l' ->
    spec_run n l' = Some (mk_tx_spec (closing_phase p) false) -> closed n (closing_phase p) w') as Hclosed.
  { intros w' l' Hx Hl Hs'. split; [done|]. split; [by rewrite Hl|]. destruct p; cbn; auto. }
  rewrite (b_held _ _ _ Hb). destruct held.
  - destruct (b_lease _ _ _ Hb1 eq_refl) as (lease & Hlease & release & Hrel).
    apply wp_bind. eapply wp_lift; [by rewrite <- Ho, Hlease|].
    apply wp_bind. eapply wp_lift; [by rewrite Hrel|]. wp_step. wp_step. apply wp_bind.
    assert (forall rc, spec_run n (l1 ++ [Released rc])
       = Some (mk_tx_spec (closing_phase p) (negb (bool_decide (rc = YVEX_OK))))) as Hs2.
    { intros rc. rewrite (spec_run_snoc _ _ _ _ Hs1). by destruct p. }
    case_bool_decide as Hrc.
    + wp_step. wp_step. rewrite bool_decide_eq_true_2 by done. cbn [negb]. apply wp_bind.
      eapply wp_store_none; [done|]. intros w2 Hx Hl. eexists _, _. split; [reflexivity|]. left.
      split; [done|]. eapply Hclosed; [exact Hx|exact Hl|].
      by rewrite Hs2, bool_decide_eq_true_2.
    + wp_step. wp_step. rewrite bool_decide_eq_false_2 by done. cbn [negb]. wp_step. right.
      split; [done|]. split.
      2: { split; [match goal with Hw : holds _ t1 (l1 ++ _) |- _ => destruct Hw as [_ ->] end; set_solver|].
           intros C. apply Hrc, (co_release _ C lease); [|done]. by rewrite <- (b_options _ _ _ Hb1). }
      eexists _, _, true. split; [done|].
      split; [by rewrite Hs2, bool_decide_eq_false_2|]. split; [done|]. split; [done|].
      by eapply closing_state_ok.
  - wp_step. cbn. apply wp_bind. eapply wp_store_none; [done|]. intros w2 Hx Hl.
    eexists _, _. split; [reflexivity|]. left. split; [done|]. by eapply Hclosed.
Qed.

(** ** Sequences of calls *)

(** The invariant of a handle that [open] returned. *)
Definition session_ok (n : Z) (w : tx_world) : Prop :=
  (exists p st, at_phase n p st w) \/ (exists p, closed n p w).

Lemma closed_perform n p c w :
  closed n p w -> wp (tx_perform c) (fun _ w' => closed n p w') w.
Proof.
  intros (Hx & Hs & Hp).
  assert (forall e, closed n p (mk_tx_world None e (x_clock w) (x_tick w) (x_log w))) as H by done.
  destruct w as [tx err clock tick l]; cbn in *; subst tx.
  destruct c; eexists _, _; (split; [reflexivity|]); apply H.
Qed.

Lemma perform_ok n c w : session_ok n w -> wp (tx_perform c) (fun _ w' => session_ok n w') w.
Proof.
  intros [(p & st & H)|[p H]].
  2: { eapply wp_mono; [by apply (closed_perform n p)|]. intros rc w' H'. right. by exists p. }
  destruct c; cbn [tx_perform].
  - apply wp_bind. destruct (startable st) eqn:E.
    + pose proof H as (t & l & held & _ & _ & _ & Hp & Hst).
      destruct p as [k| | |]; [|done|destruct Hp as [Hp _]; rewrite Hp in Hst; by subst st..].
      eapply wp_mono; [by eapply execute_at|]. intros [rc action] w' Hr. wp_step. left.
      destruct Hr as [(_ & _ & Ha & _)|Hr]; [by eexists _, _|].
      cbn in Hr. destruct rc, action as [[]|]; try done; destruct Hr as [Hr Hr'];
        (by eexists _, _; exact Hr') || (by eexists _, _; exact Hr).
    + eapply wp_mono; [by eapply execute_refused|]. intros r w' [-> Hr]. wp_step. left. by eexists _, _.
  - eapply wp_mono; [by eapply resume_at|]. cbn beta. intros rc w' Hr. left.
    case_decide; [destruct Hr as [[_ Hr]|(_ & Hr & _)]|destruct Hr as [_ Hr]]; by eexists _, _.
  - eapply wp_mono; [by eapply commit_at|]. cbn beta. intros rc w' Hr. left.
    case_decide; [destruct Hr as [[_ Hr]|(_ & Hr & _)]|destruct Hr as [_ Hr]]; by eexists _, _.
  - eapply wp_mono; [by eapply abort_at|]. cbn beta. intros rc w' Hr. left.
    destruct p; destruct Hr as [_ Hr]; by eexists _, _.
  - destruct H as (t & l & held & H & Hr). apply wp_bind.
    unfold yvex_runtime_execution_transaction_summary_copy. wp_step. cbn [negb]. wp_step. wp_step.
    wp_step. wp_step. left. exists p, st, t, l, held. by split.
  - eapply wp_mono; [by eapply close_at|]. cbn beta.
    intros rc w' [[_ Hr]|(_ & Hr & _)]; [right; by eexists|left; by eexists _, _].
Qed.

Lemma perform_all n calls w :
  session_ok n w -> wp (so_map tx_perform calls) (fun _ w' => session_ok n w') w.
Proof.
  revert w. induction calls as [|c calls IH]; intros w H; cbn [so_map].
  { by apply wp_ret. }
  apply wp_bind. eapply wp_mono; [by apply perform_ok|]. cbn beta. intros rc w1 H1.
  apply wp_bind. eapply wp_mono; [by apply IH|]. cbn beta. intros rcs w2 H2. by apply wp_ret.
Qed.

(** The last part of [open]: time, hand the transaction over, succeed. *)
Lemma open_publish n (start : option timespec) t w w1 rc :
  (setup ← match start with
           | None => mret None
           | Some start => finish ← transaction_now; mret (transaction_elapsed start <$> finish)
           end;
   _ ← tx_store (Some match setup with
                      | Some n => set_count setup_nanoseconds n t
                      | None => t
                      end);
   _ ← clear_err;
   mret YVEX_OK : TX yvex_status) w = (w1, Done rc) ->
  spec_run n (x_log w) = Some (mk_tx_spec (Running 0) (tx_resource_retained t)) ->
  base n (tx_resource_retained t) t -> phase_ok n t (Running 0) ->
  tx_state t = YVEX_EXECUTION_TRANSACTION_PREPARED ->
  at_phase n (Running 0) YVEX_EXECUTION_TRANSACTION_PREPARED w1.
Proof.
  intros H Hs Hb Hp Hst. apply so_bind_Done in H as (setup & w2 & E & H).
  assert (x_log w2 = x_log w) as Hl.
  { destruct start; inversion E; by subst. }
  inversion H; subst; clear H. eexists _, (x_log w), _. split; [by split|]. split; [exact Hs|].
  destruct setup as [v|]; [|done]. split; [destruct Hb; by constructor|]. by split.
Qed.

Lemma tx_open_ok n granted w w1 :
  x_log w = [] -> opt_quantum_count O = n -> 0 <= n < 18446744073709551616 ->
  yvex_runtime_execution_transaction_open granted O w = (w1, Done YVEX_OK) ->
  at_phase n (Running 0) YVEX_EXECUTION_TRANSACTION_PREPARED w1.
Proof.
  intros Hl Hn Hr H. unfold yvex_runtime_execution_transaction_open in H.
  apply so_bind_Done in H as (u & w2 & E & H). inversion E; subst; clear E.
  destruct (options_valid O) eqn:G; [|by inversion H]. cbn [negb] in H. unfold options_valid in G.
  apply andb_true_iff in G as [G Hlease]. apply andb_true_iff in G as [G Hexec].
  apply andb_true_iff in G as [_ Hq%negb_true_iff]. apply bool_decide_eq_true_1 in Hexec.
  apply so_bind_Done in H as (start & w3 & E & H). inversion E; subst; clear E.
  destruct granted; [|by inversion H]. cbn [negb] in H.
  assert (forall t, tx_options t = O -> tx_discarded t = false ->
    tx_state t = YVEX_EXECUTION_TRANSACTION_PREPARED ->
    (forall c, count c t = if decide (c = admitted_quanta) then opt_quantum_count O
                           else if decide (c = retained_resources) then count c t else 0) ->
    (tx_resource_retained t = true -> exists lease, opt_resource O = Some lease
       /\ is_Some (lease_release lease)) ->
    base (opt_quantum_count O) (tx_resource_retained t) t
    /\ phase_ok (opt_quantum_count O) t (Running 0)) as Hnew.
  { intros t Ho Hd Hst Hc Hret. split.
    - constructor; [congruence|lia|by rewrite Hc|by rewrite Ho|done|by rewrite Ho].
    - split; [split; [by rewrite Hc|split; [by rewrite Hc|done]]|]. split; [lia|].
      split; [|by rewrite Hst]. repeat split; by rewrite Hc. }
  destruct (opt_resource O) as [lease|] eqn:Ho.
  - unfold lease_valid in Hlease. bool_hyps.
    repeat match goal with H : bool_decide _ = true |- _ => apply bool_decide_eq_true_1 in H end.
    apply so_bind_Done in H as (retain & w4 & E & H). apply so_lift_Done in E as [-> E].
    apply so_bind_Done in H as (rc & w5 & E5 & H).
    assert (x_log w5 = []) as Hl5.
    { unfold ask_err in E5. apply so_bind_Done in E5 as ([rc' st] & w6 & E6 & E5). inversion E6; subst; inversion E5; subst. exact Hl. }
    apply so_bind_Done in H as ([] & w6 & E6 & H). inversion E6; subst; clear E6.
    case_bool_decide as Hrc; cbn [negb] in H; [|by inversion H].
    edestruct (Hnew (prepared_with lease O) eq_refl eq_refl eq_refl) as [Hb Hp];
      [by intros []|intros _; by eexists|].
    eapply (open_publish _ _ _ _ _ _ H); try done. cbn. by rewrite Hl5, Hrc.
  - edestruct (Hnew (prepared O) eq_refl eq_refl eq_refl) as [Hb Hp]; [by intros []|done|].
    eapply (open_publish _ _ _ _ _ _ H); try done. cbn. by rewrite Hl.
Qed.

(** ** What an accepted log says *)

Definition ordinals (l : list tx_event) : list Z :=
  omap (fun e => match e with Executed i _ => Some i | _ => None end) l.
Definition successes (l : list tx_event) : list Z :=
  omap (fun e => match e with Executed i YVEX_OK => Some i | _ => None end) l.
Definition tx_published (l : list tx_event) : list unit :=
  omap (fun e => match e with Published YVEX_OK => Some tt | _ => None end) l.
Definition discarded (l : list tx_event) : list unit :=
  omap (fun e => match e with Discarded _ => Some tt | _ => None end) l.

Definition log_facts (n : Z) (l : list tx_event) (p : tx_phase) : Prop :=
  (exists m, 0 <= m <= n /\ ordinals l = zseq m)
  /\ length (tx_published l) = match p with Committed => 1%nat | _ => 0%nat end
  /\ length (discarded l) = match p with Aborted => 1%nat | _ => 0%nat end
  /\ match p with
     | Running k => 0 <= k <= n /\ ordinals l = zseq k /\ successes l = zseq k
     | Committed => ordinals l = zseq n /\ successes l = zseq n
     | _ => True
     end.

Lemma spec_run_facts n l s : 0 <= n -> spec_run n l = Some s -> log_facts n l (sp_phase s).
Proof.
  intros Hn. revert s. induction l as [|e l IH] using rev_ind; intros s H.
  { cbn in H. simplify_eq. repeat split; cbn; try lia. exists 0. by split; [lia|]. }
  unfold spec_run in H. rewrite foldl_snoc in H. fold (spec_run n l) in H.
  destruct (spec_run n l) as [s0|]; [|done]. cbn in H.
  destruct (IH s0 eq_refl) as ((m & Hm & Hord) & Hpub & Hdis & Hp). clear IH.
  unfold log_facts, ordinals, tx_published, discarded, successes in *. rewrite !omap_app, !length_app.
  destruct s0 as [p held], e as [rc|i rc|rc|b|rc]; destruct p as [k| | |]; cbn in *; try done.
  - destruct ((k =? 0) && negb held); simplify_eq. cbn. rewrite !app_nil_r. eauto 10 with lia.
  - destruct (i =? k) eqn:Ei; cbn in H; [|done]. destruct (k <? n) eqn:Ek; [|done].
    assert (i = k) as -> by lia. destruct Hp as (Hk & Ho & Hs).
    assert (zseq m = zseq k) as Em by congruence.
    case_bool_decide; simplify_eq; cbn; rewrite ?Ho, ?Hs, <- ?zseq_snoc by lia.
    + repeat split; try lia. exists (k + 1). split; [lia|done].
    + split; [exists (k + 1); split; [lia|done]|]. destruct rc; cbn; repeat split; lia || done.
  - destruct (k =? n) eqn:Ek; [|done]. assert (k = n) as -> by lia. destruct Hp as (Hk & Ho & Hs).
    case_bool_decide as Hrc; simplify_eq; cbn; rewrite !app_nil_r.
    + repeat split; try done; try lia. by exists n.
    + split; [by eauto|]. destruct rc; cbn; repeat split; lia || done.
  - simplify_eq. cbn. rewrite !app_nil_r. repeat split; try lia. by exists m.
  - simplify_eq. cbn. rewrite !app_nil_r. repeat split; try lia. by exists m.
  - destruct held; simplify_eq. cbn. rewrite !app_nil_r. destruct Hp. repeat split; try done; try lia. by exists m.
  - destruct held; simplify_eq. cbn. rewrite !app_nil_r. repeat split; try done; try lia. by exists m.
Qed.

(** ** The driver *)

(** Every external call of the driver succeeds. *)
Definition drive_cooperative (d : latent_drive) : Prop :=
  cooperative (ld_options d)
  /\ Forall (fun f => forall i, fst (f i) = YVEX_OK) (ld_initialize d)
  /\ Forall (fun f => forall i, fst (f i) = YVEX_OK) (ld_finalize d)
  /\ forall f i, ld_resume d = Some f -> fst (f i) = YVEX_OK.

Lemma external_phase rc l w n p st :
  at_phase n p st w ->
  wp (external_steps rc l) (fun rc' w' => at_phase n p st w' /\ (rc <> YVEX_OK -> rc' = rc)
    /\ (rc = YVEX_OK -> rc' <> YVEX_OK -> ~ Forall (fun f => forall i, fst (f i) = YVEX_OK) l)) w.
Proof.
  revert rc w. induction l as [|f l IH]; intros rc w H; cbn [external_steps]; [by apply wp_ret|].
  case_bool_decide as Hrc; [|by apply wp_ret]. pose proof H as (t & tr & held & Hh & Hr).
  apply wp_bind. eapply wp_ask_err; [done|]. intros w' Hh'.
  eapply wp_mono; [apply IH; by exists t, tr, held|]. cbn beta. intros rc' w2 (Hat & Hkeep & Hbad).
  split; [done|]. split; [done|]. intros _ Hf Hall. inversion_clear Hall as [|? ? H1 H2].
  by apply Hbad; [apply H1|..].
Qed.

Lemma at_latent_refuse n p st status reason w :
  at_phase n p st w ->
  wp (latent_refuse status reason) (fun rc w' => rc = status /\ at_phase n p st w') w.
Proof.
  intros (t & l & held & [Ht Hl] & Hr). eexists _, _. split; [reflexivity|]. split; [done|].
  exists t, l, held. done.
Qed.

(** Before iteration [k]: ready for quantum [k], or ready to commit at the end. *)
Definition loop_ready (n k : Z) (w : tx_world) : Prop :=
  exists st, at_phase n (Running k) st w
    /\ (if k =? n then st = YVEX_EXECUTION_TRANSACTION_READY_TO_COMMIT else startable st = true).

(** Some external call failed, and nothing was published. *)
Definition unpublished (n : Z) (d : latent_drive) (w : tx_world) : Prop :=
  (exists p st, at_phase n p st w /\ p <> Committed) /\ ~ drive_cooperative d.

Lemma iteration_ok n d k w :
  ld_options d = O -> opt_quantum_count O = n -> is_Some (ld_resume d) -> 0 <= k < n ->
  n < 18446744073709551616 -> loop_ready n k w ->
  wp (latent_iteration d k) (fun rc w' =>
    if decide (rc = YVEX_OK) then loop_ready n (k + 1) w' else unpublished n d w') w.
Proof.
  intros HO Hn [resume Hres] Hk Hmax (st & Hat & Hst). replace (k =? n) with false in Hst by lia.
  assert (~ cooperative O -> ~ drive_cooperative d) as Hco by (intros Hc (C & _); by rewrite HO in C).
  assert (u64 (k + 1) = k + 1) as Hu by (apply u64_id; unfold is_u64; lia).
  unfold latent_iteration. apply wp_bind. eapply wp_mono; [by eapply execute_at|].
  intros [rc action] w1 [(Hrc & _ & Ha & Hc)|Hr].
  { rewrite bool_decide_eq_false_2 by done. cbn [negb]. apply wp_ret. rewrite decide_False by done.
    split; [by eexists _, _|auto]. }
  cbn in Hr. destruct rc; try done. cbn [negb]. rewrite bool_decide_eq_true_2 by done. cbn [negb].
  rewrite Hu, HO, Hn. destruct action as [[]|]; [..|done].
  - destruct Hr as [Hlt Hr]. do 2 rewrite bool_decide_eq_false_2 by done. apply wp_bind, wp_ret.
    replace (k + 1 =? n) with false by lia. cbn. rewrite andb_false_r. apply wp_ret.
    rewrite decide_True by done. eexists. split; [exact Hr|]. by replace (k + 1 =? n) with false by lia.
  - destruct Hr as [Hlt Hr]. rewrite bool_decide_eq_false_2 by done.
    rewrite bool_decide_eq_true_2 by done. apply wp_bind.
    apply wp_bind. eapply wp_lift; [by rewrite Hres|].
    pose proof Hr as (t & l & held & Hh & Hrest). apply wp_bind. eapply wp_ask_err; [exact Hh|].
    intros w2 Hh2. assert (at_phase n (Running (k + 1)) YVEX_EXECUTION_TRANSACTION_YIELDED w2) as Hr2.
    { by exists t, l, held. }
    apply wp_bind. case_bool_decide as Hrc.
    + eapply wp_mono; [by apply resume_at|]. cbn beta. intros rc w3 Hw3.
      rewrite decide_True in Hw3 by done. apply wp_ret. destruct Hw3 as [[-> Hw3]|(-> & Hw3 & Hc)].
      * cbn. replace (k + 1 =? n) with false by lia. cbn. rewrite andb_false_r. apply wp_ret.
        rewrite decide_True by done. eexists. split; [exact Hw3|].
        by replace (k + 1 =? n) with false by lia.
      * cbn. apply wp_ret. rewrite decide_False by done. split; [by eexists _, _|auto].
    + apply wp_ret, wp_ret. rewrite !bool_decide_eq_false_2 by done. cbn. apply wp_ret.
      rewrite decide_False by done. split; [by eexists _, _|].
      intros (_ & _ & _ & C). by apply Hrc, C.
  - rewrite bool_decide_eq_true_2 by done. destruct Hr as [Hr Hc].
    eapply wp_mono; [by apply at_latent_refuse|].
    cbn beta. intros rc w2 [-> Hr2]. rewrite decide_False by done. split; [by eexists _, _|auto].
  - destruct Hr as [Heq Hr]. do 2 rewrite bool_decide_eq_false_2 by done. apply wp_bind, wp_ret.
    cbn. rewrite andb_false_r. replace (k + 1 <? n) with false by lia. cbn. apply wp_ret.
    rewrite decide_True by done. eexists. split; [exact Hr|]. by replace (k + 1 =? n) with true by lia.
Qed.

(** [open] always returns; a refusal leaves no handle and no execution. *)
Lemma open_total granted options w :
  x_log w = [] ->
  wp (yvex_runtime_execution_transaction_open granted options) (fun rc w' =>
    rc <> YVEX_OK -> x_tx w' = None /\ (x_log w' = [] \/ x_log w' = [Retained rc])
      /\ (granted = true -> options_valid options = true -> ~ cooperative options)) w.
Proof.
  intros Hl. unfold yvex_runtime_execution_transaction_open. apply wp_bind.
  eexists _, _. split; [reflexivity|]. destruct (options_valid options) eqn:G; cbn [negb].
  2: { eexists _, _. split; [reflexivity|]. intros _. split; [done|]. split; [by left|done]. }
  apply wp_bind. eexists _, _. split; [reflexivity|]. destruct granted; cbn [negb].
  2: { eexists _, _. split; [reflexivity|]. intros _. split; [done|]. split; [by left|done]. }
  assert (forall (start : option timespec) t w1 (Q : yvex_status -> tx_world -> Prop),
    (forall w2, Q YVEX_OK w2) ->
    wp (setup ← match start with
           | None => mret None
           | Some start => finish ← transaction_now; mret (transaction_elapsed start <$> finish)
           end;
        _ ← tx_store (Some match setup with
                           | Some n => set_count setup_nanoseconds n t
                           | None => t
                           end);
        _ ← clear_err;
        mret YVEX_OK) Q w1) as Hpub.
  { intros start t w1 Q HQ. destruct start; eexists _, _; (split; [reflexivity|]); apply HQ. }
  destruct (opt_resource options) as [lease|] eqn:Hlease; [|by apply Hpub].
  unfold options_valid in G. rewrite Hlease in G. apply andb_true_iff in G as [_ G].
  unfold lease_valid in G. bool_hyps.
  repeat match goal with H : bool_decide _ = true |- _ => apply bool_decide_eq_true_1 in H end.
  match goal with H : is_Some (lease_retain lease) |- _ => destruct H as [retain Hret] end.
  apply wp_bind. eapply wp_lift; [by rewrite Hret|]. apply wp_bind.
  unfold ask_err. apply wp_bind. eexists _, _. split; [reflexivity|]. cbn [x_tick].
  destruct (retain (S (x_tick w))) as [rc stored] eqn:Er. eexists _, _. split; [reflexivity|].
  apply wp_bind. eexists _, _. split; [reflexivity|]. case_bool_decide as Hrc; cbn [negb].
  - by apply Hpub.
  - eexists _, _. split; [reflexivity|]. intros _. split; [done|].
    split; [right; cbn; by rewrite Hl|]. intros _ _ C. apply Hrc.
    pose proof (co_retain _ C lease retain (S (x_tick w)) Hlease Hret) as E. by rewrite Er in E.
Qed.

Lemma loop_ok n d m k rc w :
  ld_options d = O -> opt_quantum_count O = n -> is_Some (ld_resume d) ->
  n < 18446744073709551616 -> 0 <= k -> k + Z.of_nat m = n ->
  (if decide (rc = YVEX_OK) then loop_ready n k w else unpublished n d w) ->
  wp (latent_loop m d k rc) (fun rc w' =>
    if decide (rc = YVEX_OK) then loop_ready n n w' else unpublished n d w') w.
Proof.
  intros HO Hn Hres Hmax. revert k rc w. induction m as [|m IH]; intros k rc w Hk Hm H; cbn [latent_loop].
  { apply wp_ret. assert (k = n) as -> by lia. done. }
  case_bool_decide as Hrc.
  - rewrite decide_True in H by done. apply wp_bind.
    eapply wp_mono; [by eapply (iteration_ok n); try done; lia|]. cbn beta. intros rc' w' H'.
    apply IH; [lia|lia|done].
  - apply wp_ret. rewrite decide_False by done. by rewrite decide_False in H by done.
Qed.

(** How a run of the driver ends. *)
Inductive drive_end (n : Z) (rc : yvex_status) (w : tx_world) : Prop :=
  | drive_published : rc = YVEX_OK -> closed n Committed w -> drive_end n rc w
  | drive_dropped : rc <> YVEX_OK -> closed n Aborted w -> drive_end n rc w
  | drive_refused : rc <> YVEX_OK -> x_tx w = None ->
      x_log w = [] \/ x_log w = [Retained rc] -> drive_end n rc w
  | drive_stuck p released : rc <> YVEX_OK -> released <> YVEX_OK -> Released released ∈ x_log w ->
      at_phase n p (closing_state p) w -> (p = Committed -> rc = released) -> drive_end n rc w.

(** The outcome once nothing is left undecided. *)
Definition decided (n : Z) (d : latent_drive) (rc : yvex_status) (w : tx_world) : Prop :=
  if decide (rc = YVEX_OK) then at_phase n Committed YVEX_EXECUTION_TRANSACTION_COMMITTED w
  else at_aborted n w /\ ~ drive_cooperative d.

(** Commit and the abort of whatever failed. *)
Lemma commit_or_abort {A} (k : yvex_status -> bool -> TX A) (Q : A -> tx_world -> Prop) n d rc w :
  ld_options d = O ->
  (if decide (rc = YVEX_OK) then loop_ready n n w else unpublished n d w) ->
  (forall rc w', decided n d rc w' -> wp (k rc true) Q w') ->
  wp (rc ← (if bool_decide (rc = YVEX_OK) then yvex_runtime_execution_transaction_commit else mret rc);
      present ← tx_present;
      _ ← (if negb (bool_decide (rc = YVEX_OK)) && present
           then _ ← with_cleanup yvex_runtime_execution_transaction_abort; mret tt else mret tt);
      k rc present) Q w.
Proof.
  intros HO H HQ. unfold decided in HQ. apply wp_bind.
  assert (forall rc w, (if decide (rc = YVEX_OK)
      then at_phase n Committed YVEX_EXECUTION_TRANSACTION_COMMITTED w else unpublished n d w) ->
    wp (present ← tx_present;
      _ ← (if negb (bool_decide (rc = YVEX_OK)) && present
           then _ ← with_cleanup yvex_runtime_execution_transaction_abort; mret tt else mret tt);
      k rc present) Q w) as Hrest.
  { clear rc w H. intros rc w H. case_decide as Hrc.
    - pose proof H as (t & l & held & Hh & _). wp_step. rewrite bool_decide_eq_true_2 by done.
      cbn [negb andb]. wp_step. apply HQ. by rewrite decide_True.
    - destruct H as [(p & st & H & Hp) Hco]. pose proof H as (t & l & held & Hh & Hr). wp_step.
      rewrite bool_decide_eq_false_2 by done. cbn [negb andb]. apply wp_bind. apply wp_bind.
      eapply wp_with_cleanup; [exact Hh|]. intros w1 Hh1.
      eapply wp_mono; [eapply abort_at; by exists t, l, held|]. cbn beta. intros rc' w2 Hw2.
      assert (at_aborted n w2) as Ha by (destruct p; [apply Hw2..|done|apply Hw2]).
      do 3 eexists. split; [exact Ha|]. intros w3 Ha3. wp_step. apply HQ. by rewrite decide_False. }
  case_bool_decide as Hrc.
  - rewrite decide_True in H by done. destruct H as (st & Hat & Hst). rewrite Z.eqb_refl in Hst.
    subst st. eapply wp_mono; [by apply commit_at|]. cbn beta.
    intros rc' w' Hw'. rewrite decide_True in Hw' by done.
    destruct Hw' as [[-> Hw']|(Hf & Hw' & Hc)]; apply Hrest; [done|]. rewrite decide_False by done.
    split; [by eexists _, _|]. intros (C & _). by rewrite HO in C.
  - rewrite decide_False in H by done. apply wp_ret, Hrest. by rewrite decide_False.
Qed.

Lemma decided_phase n d rc w :
  decided n d rc w -> exists p st, at_phase n p st w /\ closing_phase p = p /\ st = closing_state p
    /\ p = (if decide (rc = YVEX_OK) then Committed else Aborted)
    /\ (rc <> YVEX_OK -> ~ drive_cooperative d).
Proof. unfold decided. case_decide; [intros Hw|intros [Hw ?]]; by eexists _, _. Qed.

Lemma at_summary n p st w :
  at_phase n p st w ->
  wp (with_cleanup yvex_runtime_execution_transaction_summary_copy)
    (fun _ w' => at_phase n p st w') w.
Proof.
  intros H. pose proof H as (t & l & held & Hh & Hr). eapply wp_with_cleanup; [exact Hh|].
  intros w1 Hh1. unfold yvex_runtime_execution_transaction_summary_copy. wp_step. cbn [negb].
  wp_step. wp_step. wp_step. exists n, p, st. split; [by exists t, l, held|done].
Qed.

(** The end of the driver: summary, close, and the error that is reported. *)
Lemma drive_close n d rc w :
  ld_options d = O -> decided n d rc w ->
  wp (summary ← (r ← with_cleanup yvex_runtime_execution_transaction_summary_copy; mret (snd r));
      w ← so_get;
      _ ← set_err (Some (mk_error YVEX_OK "" ""));
      cleanup_rc ← yvex_runtime_execution_transaction_close;
      cleanup ← so_get;
      _ ← set_err (x_err w);
      if negb (bool_decide (rc = YVEX_OK)) then mret (rc, summary) else
      if negb (bool_decide (cleanup_rc = YVEX_OK)) then
        _ ← set_err (match x_err w with Some _ => x_err cleanup | None => None end);
        mret (cleanup_rc, summary)
      else _ ← clear_err; mret (YVEX_OK, summary))
    (fun r w' => drive_end n (fst r) w' /\ (fst r <> YVEX_OK -> ~ drive_cooperative d)) w.
Proof.
  intros HO Hd. apply decided_phase in Hd as (p & st & Hat & Hcp & -> & Hp & Hco). apply wp_bind, wp_bind.
  eapply wp_mono; [by apply at_summary|]. intros r w1 H1. wp_step. wp_step. apply wp_bind.
  eapply wp_mono; [eapply at_set_err; exact H1|]. intros u w2 H2. apply wp_bind.
  eapply wp_mono; [eapply close_at; exact H2|]. cbn beta. intros crc w3 H3. wp_step. rewrite Hcp in H3.
  apply wp_bind. eexists _, _. split; [reflexivity|].
  destruct H3 as [[-> H3]|(Hcrc & H3 & Hin & Hc)]; case_bool_decide as Hrc; cbn [negb].
  - rewrite decide_True in Hp by done. subst p. cbn. eexists _, _. split; [reflexivity|].
    split; [|done]. apply drive_published; [done|]. exact H3.
  - rewrite decide_False in Hp by done. subst p. eexists _, _. split; [reflexivity|].
    split; [|done]. apply drive_dropped; [done|]. exact H3.
  - rewrite bool_decide_eq_false_2 by done. cbn [negb]. eexists _, _. split; [reflexivity|].
    split; [|intros _ (C & _); by rewrite HO in C].
    eapply (drive_stuck _ _ _ p crc); [done|done|exact Hin| |done].
    destruct H3 as (t & l & held & Hh & Hr). by exists t, l, held.
  - eexists _, _. split; [reflexivity|].
    split; [|done]. eapply (drive_stuck _ _ _ p crc); [done|done|exact Hin| |].
    + destruct H3 as (t & l & held & Hh & Hr). by exists t, l, held.
    + intros ->. by rewrite decide_False in Hp.
Qed.

Lemma close_none w :
  x_tx w = None ->
  yvex_runtime_execution_transaction_close w
  = (mk_tx_world None (yvex_error_clear (x_err w)) (x_clock w) (x_tick w) (x_log w), Done YVEX_OK).
Proof. destruct w. cbn. intros ->. reflexivity. Qed.

End Session.

(** ** Elapsed time *)

Definition timespec_valid (t : timespec) : Prop :=
  0 <= tv_sec t < 2 ^ 63 /\ 0 <= tv_nsec t < 1000000000.
Definition nanoseconds (t : timespec) : Z := tv_sec t * 1000000000 + tv_nsec t.

(** The measured duration of an interval of the monotonic clock is the exact
    difference in nanoseconds, zero when the clock went backwards, and saturates
    at the largest 64-bit value. *)
Theorem transaction_elapsed_exact start finish :
  timespec_valid start -> timespec_valid finish ->
  transaction_elapsed start finish
  = Z.min ULLONG_MAX (Z.max 0 (nanoseconds finish - nanoseconds start)).
Proof.
  intros [[Hs0 Hs1] [Hn0 Hn1]] [[Hf0 Hf1] [Hm0 Hm1]]. unfold transaction_elapsed, nanoseconds.
  destruct start as [s n], finish as [f m]; cbn [tv_sec tv_nsec] in *.
  unfold ULLONG_MAX, UINT64_MAX.
  destruct ((f <? s) || ((f =? s) && (m <? n))) eqn:E0; [lia|].
  rewrite (u64_id (f - s)) by (unfold is_u64; lia).
  assert (forall sec ns, 0 <= sec < 2 ^ 63 -> 0 <= ns < 1000000000 ->
    (if (18446744073709551615 - ns) / 1000000000 <? sec then 18446744073709551615
     else u64 (sec * 1000000000 + ns))
    = Z.min 18446744073709551615 (sec * 1000000000 + ns)) as Hclip.
  { intros sec ns Hsec Hns. pose proof (Z.div_mod (18446744073709551615 - ns) 1000000000 ltac:(lia)).
    pose proof (Z.mod_pos_bound (18446744073709551615 - ns) 1000000000 ltac:(lia)).
    destruct (_ <? sec) eqn:E; [nia|]. rewrite u64_id by (unfold is_u64; nia). nia. }
  destruct (n <=? m) eqn:E1.
  { rewrite (u64_id (m - n)) by (unfold is_u64; lia). rewrite Hclip by lia. f_equal. lia. }
  destruct (f - s =? 0) eqn:E2; [lia|].
  rewrite (u64_id (f - s - 1)) by (unfold is_u64; lia).
  rewrite (u64_id m), (u64_id n), (u64_id (1000000000 + m)) by (unfold is_u64; lia).
  rewrite (u64_id (1000000000 + m - n)) by (unfold is_u64; lia). rewrite Hclip by lia. f_equal. lia.
Qed.

(** ** Properties *)

(** C15: Every sequence of calls on an opened transaction returns, its log is
    accepted by the specification, and the code's state is the one the
    specification is in: [COMMITTED] exactly after a publication, [ABORTED]
    exactly after a discard, and a freed handle only when the outcome is decided
    and the resource was released. *)
Theorem transaction_refines_spec granted options calls w w1 :
  x_log w = [] -> 0 <= opt_quantum_count options < 18446744073709551616 ->
  yvex_runtime_execution_transaction_open granted options w = (w1, Done YVEX_OK) ->
  exists w' rcs s, so_map tx_perform calls w1 = (w', Done rcs)
    /\ spec_run (opt_quantum_count options) (x_log w') = Some s
    /\ match x_tx w' with
       | None => sp_held s = false /\ (sp_phase s = Committed \/ sp_phase s = Aborted)
       | Some t =>
           sp_held s = tx_resource_retained t
           /\ match tx_state t with
              | YVEX_EXECUTION_TRANSACTION_COMMITTED => sp_phase s = Committed
              | YVEX_EXECUTION_TRANSACTION_ABORTED => sp_phase s = Aborted
              | YVEX_EXECUTION_TRANSACTION_EXECUTING => False
              | _ => sp_phase s = Running (count completed_quanta t)
              end
       end.
Proof.
  intros Hl Hn Ho. eapply tx_open_ok in Ho; [|done..].
  destruct (perform_all options (opt_quantum_count options) calls w1) as (w' & rcs & E & Hs).
  { left. by eexists _, _. }
  destruct Hs as [(p & st & t & l & held & [Ht Hlog] & Hrun & Hb & Hp & Hst)|(p & Hx & Hrun & Hp)].
  - exists w', rcs, (mk_tx_spec p held). split; [done|]. rewrite Hlog. split; [done|]. rewrite Ht.
    split; [symmetry; apply Hb|]. destruct p as [k| | |]; cbn in Hp |- *; [|done|..].
    + destruct Hp as (_ & _ & (-> & _) & Hrs). by destruct (tx_state t).
    + destruct Hp as (-> & _). done.
    + destruct Hp as (-> & _). done.
  - exists w', rcs, (mk_tx_spec p false). split; [done|]. split; [done|]. by rewrite Hx.
Qed.

(** C16: Whatever is called in whatever order, quanta are executed in ordinal
    order without repetition and within the admitted number; at most one
    publication succeeds, only after every admitted quantum succeeded, and then
    nothing is discarded; at most one discard happens, and then nothing is
    published. *)
Theorem transaction_atomic granted options calls w w1 w' rcs :
  x_log w = [] -> 0 <= opt_quantum_count options < 18446744073709551616 ->
  yvex_runtime_execution_transaction_open granted options w = (w1, Done YVEX_OK) ->
  so_map tx_perform calls w1 = (w', Done rcs) ->
  let l := x_log w' in
  (exists m, 0 <= m <= opt_quantum_count options /\ ordinals l = zseq m)
  /\ (length (tx_published l) + length (discarded l) <= 1)%nat
  /\ (tx_published l <> [] -> successes l = zseq (opt_quantum_count options)).
Proof.
  intros Hl Hn Ho E. cbn zeta. eapply tx_open_ok in Ho; [|done..].
  destruct (perform_all options (opt_quantum_count options) calls w1) as (w2 & rcs' & E' & Hs).
  { left. by eexists _, _. }
  rewrite E in E'. simplify_eq.
  assert (exists s, spec_run (opt_quantum_count options) (x_log w2) = Some s) as [s Hrun].
  { destruct Hs as [(p & st & t & l & held & [_ ->] & Hrun & _)|(p & _ & Hrun & _)]; by eexists. }
  apply spec_run_facts in Hrun as (Hord & Hpub & Hdis & Hp); [|lia].
  split; [done|]. split; [rewrite Hpub, Hdis; destruct (sp_phase s); lia|].
  intros Hne. destruct (sp_phase s); try (by destruct (tx_published (x_log w2))). apply Hp.
Qed.

Lemma latent_drive_ends granted d w :
  x_log w = [] -> 0 <= opt_quantum_count (ld_options d) < 18446744073709551616 ->
  is_Some (ld_resume d) ->
  wp (latent_execute_transaction granted d) (fun r w' =>
    drive_end (ld_options d) (opt_quantum_count (ld_options d)) (fst r) w'
    /\ (fst r <> YVEX_OK -> granted = true -> options_valid (ld_options d) = true ->
        ~ drive_cooperative d)) w.
Proof.
  intros Hl Hn Hres. set (n := opt_quantum_count (ld_options d)) in *.
  unfold latent_execute_transaction. apply wp_bind.
  destruct (open_total granted (ld_options d) w Hl) as (w1 & rc & Eo & Href).
  exists w1, rc. split; [exact Eo|]. destruct (decide (rc = YVEX_OK)) as [->|Hrc].
  - eapply tx_open_ok in Eo; [|done..]. fold n in Eo. apply wp_bind.
    eapply wp_mono; [by apply external_phase|]. cbn beta. intros rc2 w2 (H2 & _ & Hbad2). apply wp_bind.
    eapply wp_mono; [eapply (loop_ok (ld_options d) n d); try done; [lia|lia|]|].
    { assert (0 < n) as Hpos by (destruct H2 as (? & ? & ? & _ & _ & Hb & _); apply Hb).
      case_decide as Hrc2.
      - eexists. split; [exact H2|]. by replace (0 =? n) with false by lia.
      - split; [by eexists _, _|]. intros (_ & C & _). by apply Hbad2. }
    cbn beta. intros rc3 w3 H3. apply wp_bind.
    assert (exists p st, at_phase (ld_options d) n p st w3 /\ (rc3 = YVEX_OK ->
              p = Running n /\ st = YVEX_EXECUTION_TRANSACTION_READY_TO_COMMIT)
            /\ p <> Committed /\ (rc3 <> YVEX_OK -> ~ drive_cooperative d))
      as (p & st & Hat & Hp & Hnc & Hco).
    { case_decide; [|destruct H3 as [(p & st & H3 & Hne) ?]; exists p, st; by repeat split].
      destruct H3 as (st & H3 & Hst). rewrite Z.eqb_refl in Hst. subst st. by eexists _, _. }
    eapply wp_mono; [by eapply (external_phase (ld_options d) rc3)|]. cbn beta. intros rc4 w4 (H4 & Hrc4 & Hbad4).
    eapply commit_or_abort with (n := n) (d := d) (O := ld_options d); [done|..].
    + destruct (decide (rc3 = YVEX_OK)) as [Hok3|Hok3].
      * destruct (Hp Hok3) as [-> ->]. destruct (decide (rc4 = YVEX_OK)) as [Hok|Hok].
        -- eexists. split; [exact H4|]. by rewrite Z.eqb_refl.
        -- split; [by eexists _, _|]. intros (_ & _ & C & _). by apply Hbad4.
      * rewrite (Hrc4 Hok3), decide_False by done. split; [by eexists _, _|auto].
    + intros rc5 w5 H5. eapply wp_mono; [by eapply drive_close|]. cbn beta. intros r w6 [? ?]. auto.
  - destruct (Href Hrc) as (Hx & Hlog & Hco).
    assert (forall l : list (nat -> answer), external_steps rc l w1 = (w1, Done rc)) as Hext.
    { intros [|f l]; [done|]. cbn. by rewrite bool_decide_eq_false_2. }
    apply wp_bind. exists w1, rc. split; [apply Hext|].
    apply wp_bind. exists w1, rc. split.
    { fold n. destruct (Z.to_nat n); [done|]. cbn. by rewrite bool_decide_eq_false_2. }
    apply wp_bind. exists w1, rc. split; [apply Hext|].
    rewrite bool_decide_eq_false_2 by done. apply wp_bind, wp_ret.
    rewrite (bool_decide_eq_false_2 (rc = YVEX_OK)) by done. cbn [negb andb].
    apply wp_bind. exists w1, false. split.
    { unfold tx_present. erewrite so_bind_eq by reflexivity. by rewrite Hx. }
    apply wp_bind, wp_ret. apply wp_bind, wp_ret. apply wp_bind, wp_world. apply wp_bind.
    eexists _, _. split; [reflexivity|]. apply wp_bind.
    eexists _, _. split; [by apply close_none|].
    apply wp_bind, wp_world. apply wp_bind. eexists _, _. split; [reflexivity|]. apply wp_ret.
    split; [by apply drive_refused|]. intros _ Hg Hv (C & _). by apply Hco.
Qed.

(** C33: The driver returns on every path.  It succeeds exactly when the result
    was published and the transaction closed; otherwise the transaction was
    refused, or discarded and closed, or the resource owner refused the release,
    the only case in which a handle survives and in which an error can follow a
    publication. *)
Theorem latent_drive_outcome granted d w :
  x_log w = [] -> 0 <= opt_quantum_count (ld_options d) < 18446744073709551616 ->
  is_Some (ld_resume d) ->
  exists w' rc summary, latent_execute_transaction granted d w = (w', Done (rc, summary))
    /\ drive_end (ld_options d) (opt_quantum_count (ld_options d)) rc w'.
Proof.
  intros Hl Hn Hres. destruct (latent_drive_ends granted d w Hl Hn Hres) as (w' & [rc summary] & E & H & _).
  by exists w', rc, summary.
Qed.

(** C34: When the allocation succeeds, the options are valid and no external call
    fails or asks for cancellation, the driver succeeds, whatever the clock says
    and however often the yield callback asks to yield: every admitted quantum
    was executed in order and the result was published exactly once. *)
Theorem latent_drive_completes d w :
  x_log w = [] -> 0 <= opt_quantum_count (ld_options d) < 18446744073709551616 ->
  is_Some (ld_resume d) -> options_valid (ld_options d) = true -> drive_cooperative d ->
  exists w' summary, latent_execute_transaction true d w = (w', Done (YVEX_OK, summary))
    /\ successes (x_log w') = zseq (opt_quantum_count (ld_options d))
    /\ length (tx_published (x_log w')) = 1%nat /\ x_tx w' = None.
Proof.
  intros Hl Hn Hres Hv Hco.
  destruct (latent_drive_ends true d w Hl Hn Hres) as (w' & [rc summary] & E & H & Hbad).
  destruct (decide (rc = YVEX_OK)) as [->|Hrc]; [|by destruct (Hbad Hrc)].
  exists w', summary. split; [done|].
  destruct H as [_ (Hx & Hrun & _)|?|?|?]; [|done..].
  apply spec_run_facts in Hrun as (_ & Hpub & _ & _ & Hs); [|lia]. done.
Qed.

(** ** Witnesses *)

Definition tx_demo_identity : string :=
  "0123456789abcdef0123456789abcdef0123456789abcdef0123456789abcdef".
Definition success : nat -> answer := fun _ => (YVEX_OK, None).
Definition demo_lease (release : nat -> answer) : yvex_execution_resource_lease :=
  mk_lease (Some tx_demo_identity) true (Some success) (Some release).
(** Three quanta; the yield callback asks at every other call. *)
Definition demo_options (release : nat -> answer) : yvex_execution_transaction_options :=
  mk_tx_options (Some tx_demo_identity) 3 (Some (demo_lease release)) (Some (fun _ _ => (YVEX_OK, None)))
    (Some (fun _ => false)) (Some Nat.even) (Some success) true.
Definition demo_drive (release : nat -> answer) : latent_drive :=
  mk_latent_drive (demo_options release) [success] [success] (Some success).
Definition demo_tx_world : tx_world :=
  mk_tx_world None (Some (mk_error YVEX_OK "" "")) (fun i => Some (mk_timespec (Z.of_nat i) 0)) 0 [].
Definition demo_opened : tx_world :=
  fst (yvex_runtime_execution_transaction_open true (demo_options success) demo_tx_world).
Definition tx_demo_calls : list tx_call :=
  [ExecuteQuantum; Resume; ExecuteQuantum; Commit; Resume; ExecuteQuantum; Commit; Abort; CloseHandle].

Lemma demo_open_done :
  yvex_runtime_execution_transaction_open true (demo_options success) demo_tx_world
  = (demo_opened, Done YVEX_OK).
Proof.
  assert (snd (yvex_runtime_execution_transaction_open true (demo_options success) demo_tx_world)
          = Done YVEX_OK) as E by (vm_compute; reflexivity).
  unfold demo_opened. rewrite <- E. apply surjective_pairing.
Qed.

Lemma transaction_refines_spec_witness :
  exists w' rcs s, so_map tx_perform tx_demo_calls demo_opened = (w', Done rcs)
    /\ spec_run 3 (x_log w') = Some s.
Proof.
  destruct (transaction_refines_spec true (demo_options success) tx_demo_calls demo_tx_world demo_opened)
    as (w' & rcs & s & E & Hs & _); [reflexivity|cbn; lia|apply demo_open_done|].
  exists w', rcs, s. split; [exact E|exact Hs].
Defined.

Lemma transaction_atomic_witness :
  let l := x_log (fst (so_map tx_perform tx_demo_calls demo_opened)) in
  (length (tx_published l) + length (discarded l) <= 1)%nat.
Proof.
  destruct (so_map tx_perform tx_demo_calls demo_opened) as [w' r] eqn:E.
  assert (is_done (snd (so_map tx_perform tx_demo_calls demo_opened)) = true) as D
    by (vm_compute; reflexivity).
  rewrite E in D. destruct r as [rcs| |]; [|discriminate..].
  destruct (transaction_atomic true (demo_options success) tx_demo_calls demo_tx_world demo_opened w' rcs)
    as (_ & H & _); [reflexivity|cbn; lia|apply demo_open_done|exact E|exact H].
Defined.

Lemma transaction_elapsed_exact_witness :
  transaction_elapsed (mk_timespec 1 999999999) (mk_timespec 2 5) = 6.
Proof.
  rewrite (transaction_elapsed_exact (mk_timespec 1 999999999) (mk_timespec 2 5));
    [reflexivity|split; cbn; lia|split; cbn; lia].
Defined.

Lemma latent_drive_outcome_witness :
  exists w' rc summary,
    latent_execute_transaction true (demo_drive success) demo_tx_world = (w', Done (rc, summary))
    /\ drive_end (demo_options success) 3 rc w'.
Proof.
  apply (latent_drive_outcome true (demo_drive success) demo_tx_world);
    [reflexivity|cbn; lia|exists success; reflexivity].
Defined.

Lemma demo_cooperative : drive_cooperative (demo_drive success).
Proof.
  split; [constructor|].
  - by intros f i [= <-].
  - by intros f i k [= <-].
  - by intros f i [= <-].
  - by intros lease f i [= <-] [= <-].
  - by intros lease f i [= <-] [= <-].
  - split; [by constructor|]. split; [by constructor|]. by intros f i [= <-].
Qed.

Lemma latent_drive_completes_witness :
  exists w' summary,
    latent_execute_transaction true (demo_drive success) demo_tx_world = (w', Done (YVEX_OK, summary))
    /\ successes (x_log w') = [0; 1; 2].
Proof.
  destruct (latent_drive_completes (demo_drive success) demo_tx_world) as (w' & summary & E & Hs & _);
    [reflexivity|cbn; lia|exists success; reflexivity|vm_compute; reflexivity|apply demo_cooperative|].
  exists w', summary. split; [exact E|exact Hs].
Defined.

(** When the release is refused the driver reports an error although the result
    was published, and the transaction it cannot close stays allocated. *)
Example release_refused_after_publication :
  match latent_execute_transaction true (demo_drive (fun _ => (YVEX_ERR_STATE, None))) demo_tx_world with
  | (w', Done (rc, _)) => rc = YVEX_ERR_STATE /\ length (tx_published (x_log w')) = 1%nat
                          /\ is_Some (x_tx w')
  | _ => False
  end.
Proof. vm_compute. eauto. Qed.
