(* ===== verification/Resource.v ===== *)
(** * The engine's resource catalog ([src/runtime/resource.c])

    A bounded array of slots, each of which owns one live engine resource: a
    borrowed value, a release callback, the number of consumers that borrow the
    value, the number of resources that depend on it, and its byte accounting.
    Handles carry the generation of their registration, so that a handle kept
    after its resource was released does not reach the next occupant of the slot.

    Every operation takes the catalog's mutex.  A release has two critical
    sections with the callback between them, and closing the catalog alternates
    the selection of a releasable resource with its release, so those run as
    threads: [resource_step] executes one critical section, chosen by a schedule, on a
    [resource_world] that holds the catalog, the operations in progress and the
    trace of what clients and callbacks observe.  [locks] is the result of
    [pthread_mutex_lock], and callbacks answer with any status.

    The specification is an abstract machine over the trace: finitely many live
    resources keyed by handle, with guards that say when a resource may be
    borrowed, released, or depended on.  [ResourceInvariant] relates every
    operation to it and [ResourceSafety] every schedule. *)

From Stdlib Require Import ZArith Lia Bool String.
From stdpp Require Import base list option numbers strings sets gmap.
From S2P Require Import Prelude Core Sha256.

(** ** Data *)

Definition YVEX_ENGINE_RESOURCE_NAME_CAP : Z := 48.
Definition YVEX_SHA256_HEX_CAP : Z := 65.
Definition RESOURCE_CAPACITY_MAX : Z := 1024.
(** [sizeof] on LP64 targets. *)
Definition SIZEOF_RESOURCE_SLOT : Z := 440.
Definition SIZEOF_RESOURCE_CATALOG : Z := 368.

(** Enumerations of a request are unchecked integers of the caller. *)
Definition YVEX_ENGINE_RESOURCE_PREPARED_TENSOR : Z := 1.
Definition YVEX_ENGINE_RESOURCE_PREPARED_GROUP : Z := 2.
Definition YVEX_ENGINE_RESOURCE_PREPARED_LAYOUT : Z := 3.
Definition YVEX_ENGINE_RESOURCE_KIND_COUNT : Z := 10.
Definition YVEX_ENGINE_RESOURCE_OWNER_EXECUTION : Z := 5.
Definition YVEX_ENGINE_RESOURCE_LIFETIME_QUANTUM : Z := 6.
Definition YVEX_ENGINE_RESOURCE_NUMERIC_CANONICAL_PACKAGE : Z := 1.
Definition YVEX_ENGINE_RESOURCE_NUMERIC_STATE : Z := 4.

Inductive yvex_engine_resource_state : Type :=
  | YVEX_ENGINE_RESOURCE_DECLARED
  | YVEX_ENGINE_RESOURCE_READY
  | YVEX_ENGINE_RESOURCE_RELEASING
  | YVEX_ENGINE_RESOURCE_FAILED.

#[export] Instance resource_state_eq_dec : EqDecision yvex_engine_resource_state.
Proof. solve_decision. Defined.

Record yvex_engine_resource_bytes : Type := mk_resource_bytes {
  mapped_package_bytes : Z;
  host_resident_bytes : Z;
  device_resident_bytes : Z;
  prepared_bytes : Z;
  sequence_state_bytes : Z;
  workspace_bytes : Z;
  temporary_bytes : Z
}.
Definition resource_bytes_zero : yvex_engine_resource_bytes := mk_resource_bytes 0 0 0 0 0 0 0.

Record yvex_engine_resource_handle : Type := mk_handle {
  h_engine_generation : Z;
  h_slot : Z;
  h_generation : Z
}.
Definition handle_zero : yvex_engine_resource_handle := mk_handle 0 0 0.

#[export] Instance resource_handle_eq_dec : EqDecision yvex_engine_resource_handle.
Proof. solve_decision. Defined.
#[export] Instance resource_handle_countable : Countable yvex_engine_resource_handle.
Proof.
  apply (inj_countable' (fun h => (h_engine_generation h, h_slot h, h_generation h))
    (fun p => mk_handle p.1.1 p.1.2 p.2)). by intros [].
Defined.

(** Strings may be null; [req_value] and [req_release_context] are pointers the
    catalog never follows; [req_release] tells whether a callback is given. *)
Record yvex_engine_resource_request : Type := mk_request {
  req_kind : Z;
  req_owner : Z;
  req_lifetime : Z;
  req_numeric_class : Z;
  req_name : option string;
  req_package_identity : option string;
  req_specialization_identity : option string;
  req_admission_identity : option string;
  req_dependency : yvex_engine_resource_handle;
  req_bytes : yvex_engine_resource_bytes;
  req_preparation_nanoseconds : Z;
  req_value : Z;
  req_release : bool;
  req_release_context : Z;
  req_ready : bool;
  req_evictable : bool
}.

Record yvex_engine_resource_entry : Type := mk_resource_entry {
  re_handle : yvex_engine_resource_handle;
  re_dependency : yvex_engine_resource_handle;
  re_kind : Z;
  re_owner : Z;
  re_lifetime : Z;
  re_numeric_class : Z;
  re_state : yvex_engine_resource_state;
  re_bytes : yvex_engine_resource_bytes;
  re_consumer_count : Z;
  re_dependent_count : Z;
  re_acquisition_count : Z;
  re_preparation_nanoseconds : Z;
  re_name : string;
  re_package_identity : string;
  re_specialization_identity : string;
  re_admission_identity : string;
  re_evictable : bool
}.
Definition resource_entry_zero : yvex_engine_resource_entry :=
  mk_resource_entry handle_zero handle_zero 0 0 0 0 YVEX_ENGINE_RESOURCE_DECLARED
    resource_bytes_zero 0 0 0 0 "" "" "" "" false.

Record engine_resource_slot : Type := mk_slot {
  slot_summary : yvex_engine_resource_entry;
  slot_value : Z;
  slot_release : bool;
  slot_release_context : Z;
  slot_in_use : bool
}.
Definition slot_zero : engine_resource_slot := mk_slot resource_entry_zero 0 false 0 false.

(** The scalar counters of the summary, all [unsigned long long]. *)
Inductive resource_counter : Type :=
  | engine_generation | capacity | resource_count | generation
  | registration_count | release_count | eviction_count | failed_release_count
  | acquisition_count | preparation_nanoseconds | ready_count | failed_count.

#[export] Instance resource_counter_eq_dec : EqDecision resource_counter.
Proof. solve_decision. Defined.

Record yvex_engine_resource_summary : Type := mk_resource_summary {
  rs_count : resource_counter -> Z;
  rs_count_by_kind : list Z;
  rs_bytes : yvex_engine_resource_bytes;
  rs_engine_identity : string;
  rs_closing : bool
}.

Record yvex_engine_resource_catalog : Type := mk_catalog {
  cat_slots : list engine_resource_slot;
  cat_summary : yvex_engine_resource_summary;
  cat_next_generation : Z;
  cat_mutex_ready : bool
}.

(** ** Accessors *)

Definition tally (k : resource_counter) (c : yvex_engine_resource_catalog) : Z :=
  rs_count (cat_summary c) k.
Definition slot_handle (s : engine_resource_slot) : yvex_engine_resource_handle :=
  re_handle (slot_summary s).
Definition slot_state (s : engine_resource_slot) : yvex_engine_resource_state :=
  re_state (slot_summary s).

Definition with_cat_summary (f : yvex_engine_resource_summary -> yvex_engine_resource_summary)
    (c : yvex_engine_resource_catalog) : yvex_engine_resource_catalog :=
  mk_catalog (cat_slots c) (f (cat_summary c)) (cat_next_generation c) (cat_mutex_ready c).
Definition set_tally (k : resource_counter) (n : Z) : yvex_engine_resource_catalog -> _ :=
  with_cat_summary (fun s => mk_resource_summary
    (fun k' => if decide (k' = k) then n else rs_count s k') (rs_count_by_kind s) (rs_bytes s)
    (rs_engine_identity s) (rs_closing s)).
(** [summary.k += n] and [summary.k -= n] in [unsigned long long] *)
Definition add_tally (k : resource_counter) (n : Z) (c : yvex_engine_resource_catalog) :=
  set_tally k (u64 (tally k c + n)) c.
Definition set_cat_bytes (b : yvex_engine_resource_bytes) : yvex_engine_resource_catalog -> _ :=
  with_cat_summary (fun s => mk_resource_summary (rs_count s) (rs_count_by_kind s) b
    (rs_engine_identity s) (rs_closing s)).
Definition set_by_kind (l : list Z) : yvex_engine_resource_catalog -> _ :=
  with_cat_summary (fun s => mk_resource_summary (rs_count s) l (rs_bytes s)
    (rs_engine_identity s) (rs_closing s)).
Definition set_closing : yvex_engine_resource_catalog -> yvex_engine_resource_catalog :=
  with_cat_summary (fun s => mk_resource_summary (rs_count s) (rs_count_by_kind s) (rs_bytes s)
    (rs_engine_identity s) true).
Definition set_slots (l : list engine_resource_slot) (c : yvex_engine_resource_catalog) :=
  mk_catalog l (cat_summary c) (cat_next_generation c) (cat_mutex_ready c).
Definition set_next_generation (n : Z) (c : yvex_engine_resource_catalog) :=
  mk_catalog (cat_slots c) (cat_summary c) n (cat_mutex_ready c).

Definition with_entry (f : yvex_engine_resource_entry -> yvex_engine_resource_entry)
    (s : engine_resource_slot) : engine_resource_slot :=
  mk_slot (f (slot_summary s)) (slot_value s) (slot_release s) (slot_release_context s)
    (slot_in_use s).
Definition entry_counts (state : yvex_engine_resource_state) (consumers dependents acquisitions : Z)
    (e : yvex_engine_resource_entry) : yvex_engine_resource_entry :=
  mk_resource_entry (re_handle e) (re_dependency e) (re_kind e) (re_owner e) (re_lifetime e)
    (re_numeric_class e) state (re_bytes e) consumers dependents acquisitions
    (re_preparation_nanoseconds e) (re_name e) (re_package_identity e)
    (re_specialization_identity e) (re_admission_identity e) (re_evictable e).
Definition set_slot_state (state : yvex_engine_resource_state) : engine_resource_slot -> _ :=
  with_entry (fun e => entry_counts state (re_consumer_count e) (re_dependent_count e)
                         (re_acquisition_count e) e).
Definition set_consumers (consumers acquisitions : Z) : engine_resource_slot -> _ :=
  with_entry (fun e => entry_counts (re_state e) consumers (re_dependent_count e) acquisitions e).
Definition set_dependents (dependents : Z) : engine_resource_slot -> _ :=
  with_entry (fun e => entry_counts (re_state e) (re_consumer_count e) dependents
                         (re_acquisition_count e) e).

Definition write_slot (c : yvex_engine_resource_catalog) (index : Z) (s : engine_resource_slot)
    : outcome yvex_engine_resource_catalog :=
  l ← write_at (cat_slots c) index s; Done (set_slots l c).

(** ** Helpers *)

Definition optional_identity_valid (identity : option string) : bool :=
  match identity with
  | None => true
  | Some s => String.eqb s "" || yvex_sha256_hex_valid identity
  end.

Definition resource_bytes_add (target value : yvex_engine_resource_bytes)
    : option yvex_engine_resource_bytes :=
  a ← yvex_core_u64_add (mapped_package_bytes target) (mapped_package_bytes value);
  b ← yvex_core_u64_add (host_resident_bytes target) (host_resident_bytes value);
  c ← yvex_core_u64_add (device_resident_bytes target) (device_resident_bytes value);
  d ← yvex_core_u64_add (prepared_bytes target) (prepared_bytes value);
  e ← yvex_core_u64_add (sequence_state_bytes target) (sequence_state_bytes value);
  f ← yvex_core_u64_add (workspace_bytes target) (workspace_bytes value);
  g ← yvex_core_u64_add (temporary_bytes target) (temporary_bytes value);
  Some (mk_resource_bytes a b c d e f g).

Definition resource_bytes_subtract (target value : yvex_engine_resource_bytes)
    : yvex_engine_resource_bytes :=
  mk_resource_bytes
    (u64 (mapped_package_bytes target - mapped_package_bytes value))
    (u64 (host_resident_bytes target - host_resident_bytes value))
    (u64 (device_resident_bytes target - device_resident_bytes value))
    (u64 (prepared_bytes target - prepared_bytes value))
    (u64 (sequence_state_bytes target - sequence_state_bytes value))
    (u64 (workspace_bytes target - workspace_bytes value))
    (u64 (temporary_bytes target - temporary_bytes value)).

Definition handle_present (handle : yvex_engine_resource_handle) : bool :=
  negb (h_engine_generation handle =? 0) || negb (h_slot handle =? 0)
  || negb (h_generation handle =? 0).

(** The index of the slot. *)
Definition resource_slot_locked (c : yvex_engine_resource_catalog)
    (handle : yvex_engine_resource_handle) : outcome (option Z) :=
  if negb (h_engine_generation handle =? tally engine_generation c) || (h_slot handle =? 0)
     || (tally capacity c <? h_slot handle) || (h_generation handle =? 0) then Done None else
  slot ← read_at (cat_slots c) (u64 (h_slot handle - 1));
  Done (if slot_in_use slot && (h_generation (slot_handle slot) =? h_generation handle)
        then Some (u64 (h_slot handle - 1)) else None).

Definition text_empty (s : option string) : bool :=
  match s with None => true | Some s => String.eqb s "" end.

Definition resource_request_valid (r : yvex_engine_resource_request) : bool :=
  let prepared := (req_kind r =? YVEX_ENGINE_RESOURCE_PREPARED_TENSOR)
    || (req_kind r =? YVEX_ENGINE_RESOURCE_PREPARED_GROUP)
    || (req_kind r =? YVEX_ENGINE_RESOURCE_PREPARED_LAYOUT) in
  negb ((YVEX_ENGINE_RESOURCE_KIND_COUNT <=? req_kind r)
    || (YVEX_ENGINE_RESOURCE_OWNER_EXECUTION <? req_owner r)
    || (YVEX_ENGINE_RESOURCE_LIFETIME_QUANTUM <? req_lifetime r)
    || (YVEX_ENGINE_RESOURCE_NUMERIC_STATE <? req_numeric_class r)
    || text_empty (req_name r)
    || (YVEX_ENGINE_RESOURCE_NAME_CAP <=? Z.of_nat (String.length (default "" (req_name r))))
    || negb (yvex_sha256_hex_valid (req_package_identity r))
    || negb (optional_identity_valid (req_specialization_identity r))
    || negb (optional_identity_valid (req_admission_identity r))
    || (prepared && (text_empty (req_specialization_identity r)
                     || text_empty (req_admission_identity r)))
    || ((req_numeric_class r =? YVEX_ENGINE_RESOURCE_NUMERIC_CANONICAL_PACKAGE)
        && negb (text_empty (req_specialization_identity r)))
    || (req_evictable r && negb (req_release r))).

Definition resource_dependency_drop_locked (c : yvex_engine_resource_catalog)
    (e : yvex_engine_resource_entry) : outcome yvex_engine_resource_catalog :=
  if negb (handle_present (re_dependency e)) then Done c else
  dependency ← resource_slot_locked c (re_dependency e);
  match dependency with
  | None => Done c
  | Some i =>
      d ← read_at (cat_slots c) i;
      if re_dependent_count (slot_summary d) =? 0 then Done c
      else write_slot c i (set_dependents (u64 (re_dependent_count (slot_summary d) - 1)) d)
  end.

(** [ready_count] or [failed_count] loses a resource in state [state]. *)
Definition leave_state (state : yvex_engine_resource_state) (c : yvex_engine_resource_catalog)
    : yvex_engine_resource_catalog :=
  match state with
  | YVEX_ENGINE_RESOURCE_READY => add_tally ready_count (-1) c
  | YVEX_ENGINE_RESOURCE_FAILED => add_tally failed_count (-1) c
  | _ => c
  end.

Definition resource_remove_locked (c : yvex_engine_resource_catalog) (index : Z) (evicted : bool)
    : outcome yvex_engine_resource_catalog :=
  slot ← read_at (cat_slots c) index;
  c ← resource_dependency_drop_locked c (slot_summary slot);
  slot ← read_at (cat_slots c) index;
  let e := slot_summary slot in
  let c := set_cat_bytes (resource_bytes_subtract (rs_bytes (cat_summary c)) (re_bytes e)) c in
  let c := add_tally resource_count (-1) c in
  n ← read_at (rs_count_by_kind (cat_summary c)) (re_kind e);
  l ← write_at (rs_count_by_kind (cat_summary c)) (re_kind e) (u64 (n - 1));
  let c := leave_state (re_state e) (set_by_kind l c) in
  let c := add_tally release_count 1 c in
  let c := add_tally eviction_count (Z.b2z evicted) c in
  let c := add_tally generation 1 c in
  write_slot c index slot_zero.

(** ** Release

    [resource_release] is [release_begin], the callback, and [release_end]. *)

(** What the callback needs once the mutex is free. *)
Definition release_begin (locks : bool) (c : yvex_engine_resource_catalog)
    (handle : yvex_engine_resource_handle) (evict : bool)
    : outcome (yvex_engine_resource_catalog * (bool * Z)) :=
  _ ← refuse_if (negb (handle_present handle) || negb (cat_mutex_ready c) || negb locks)
        YVEX_ERR_INVALID_ARG "one live engine resource handle is required";
  index ← resource_slot_locked c handle;
  match index with
  | None => Refuse YVEX_ERR_INVALID_ARG "resource is stale, referenced, or still has dependents"
  | Some index =>
      slot ← read_at (cat_slots c) index;
      let e := slot_summary slot in
      if bool_decide (re_state e = YVEX_ENGINE_RESOURCE_RELEASING)
         || negb (re_consumer_count e =? 0) || negb (re_dependent_count e =? 0)
         || (evict && negb (re_evictable e))
      then Refuse YVEX_ERR_STATE
             (if evict && negb (re_evictable e) then "resource is not eligible for eviction"
              else "resource is stale, referenced, or still has dependents")
      else
      c ← write_slot (leave_state (re_state e) c) index
            (set_slot_state YVEX_ENGINE_RESOURCE_RELEASING slot);
      Done (c, (slot_release slot, slot_release_context slot))
  end.

(** [rc]: the answer of the callback, [YVEX_OK] without one. *)
Definition release_end (locks : bool) (c : yvex_engine_resource_catalog)
    (handle : yvex_engine_resource_handle) (evict : bool) (rc : yvex_status)
    : outcome (yvex_engine_resource_catalog * yvex_status) :=
  _ ← refuse_if (negb locks) YVEX_ERR_STATE "resource release synchronization was lost";
  index ← resource_slot_locked c handle;
  match index with
  | None => Refuse YVEX_ERR_STATE "resource generation changed during release"
  | Some index =>
      if bool_decide (rc = YVEX_OK) then
        c ← resource_remove_locked c index evict; Done (c, YVEX_OK)
      else
        slot ← read_at (cat_slots c) index;
        c ← write_slot c index (set_slot_state YVEX_ENGINE_RESOURCE_FAILED slot);
        Done (add_tally failed_release_count 1 (add_tally failed_count 1 c), rc)
  end.

(** ** Capacity *)

(** [memcpy] of the first [n] cells. *)
Definition copy_cells {A} (l : list A) (n : Z) : outcome (list A) :=
  if zlen l <? n then Fault OutOfBounds else Done (take (Z.to_nat n) l).

(** Metadata bytes kept by [wanted] slots, and the peak while [old] slots are
    relocated. *)
Definition catalog_retained (wanted : Z) : option Z :=
  n ← yvex_core_u64_mul wanted SIZEOF_RESOURCE_SLOT;
  yvex_core_u64_add n SIZEOF_RESOURCE_CATALOG.
Definition catalog_peak (old wanted retained : Z) : option Z :=
  if old <? wanted then yvex_core_u64_add retained (u64 (old * SIZEOF_RESOURCE_SLOT))
  else Some retained.

(** The catalog and [*host_bytes]. *)
Definition yvex_runtime_resource_catalog_reserve (locks granted : bool)
    (c : yvex_engine_resource_catalog) (wanted maximum_host_bytes : Z)
    : outcome (yvex_engine_resource_catalog * Z) :=
  _ ← refuse_if ((wanted =? 0) || (RESOURCE_CAPACITY_MAX <? wanted) || negb (cat_mutex_ready c)
        || negb locks) YVEX_ERR_INVALID_ARG "one bounded live resource catalog is required";
  _ ← refuse_if (rs_closing (cat_summary c)) YVEX_ERR_STATE
        "closing resource catalog cannot reserve new capacity";
  let old := tally capacity c in
  let wanted := if wanted <? old then old else wanted in
  match catalog_retained wanted with
  | None => Refuse YVEX_ERR_BOUNDS "resource catalog metadata overflowed"
  | Some retained =>
      match catalog_peak old wanted retained with
      | None => Refuse YVEX_ERR_BOUNDS "resource catalog relocation overflowed"
      | Some peak =>
          _ ← refuse_if ((SIZE_MAX <? peak)
                || (negb (maximum_host_bytes =? 0) && (maximum_host_bytes <? peak)))
                YVEX_ERR_BOUNDS "resource catalog metadata exceeds host budget";
          if negb (old <? wanted) then Done (c, retained) else
          _ ← refuse_if (tally generation c =? ULLONG_MAX) YVEX_ERR_BOUNDS
                "resource catalog generation is exhausted";
          _ ← refuse_if (negb granted) YVEX_ERR_NOMEM
                "resource catalog relocation allocation failed";
          cells ← copy_cells (cat_slots c) old;
          let c := set_slots (cells ++ replicate (Z.to_nat (wanted - old)) slot_zero) c in
          let c := add_tally generation (Z.b2z (negb (old =? 0))) c in
          Done (set_tally capacity wanted c, retained)
      end
  end.

Definition catalog_zero : yvex_engine_resource_catalog :=
  mk_catalog [] (mk_resource_summary (fun _ => 0)
    (replicate (Z.to_nat YVEX_ENGINE_RESOURCE_KIND_COUNT) 0) resource_bytes_zero "" false) 0 false.

(** [alloc]: the catalog, then its slots; [mutex]: whether the mutex was created. *)
Definition yvex_runtime_resource_catalog_open (alloc : nat -> bool) (mutex locks : bool)
    (generation_ : Z) (engine_identity : option string) (wanted : Z)
    : outcome yvex_engine_resource_catalog :=
  _ ← refuse_if ((generation_ =? 0) || negb (yvex_sha256_hex_valid engine_identity)
        || (wanted =? 0) || (RESOURCE_CAPACITY_MAX <? wanted)
        || (SIZE_MAX / SIZEOF_RESOURCE_SLOT <? wanted)) YVEX_ERR_INVALID_ARG
        "bounded engine generation and identity are required";
  _ ← refuse_if (negb (alloc 0%nat) || negb mutex) YVEX_ERR_NOMEM
        "engine resource catalog allocation failed";
  let c := set_tally engine_generation generation_
             (mk_catalog [] (cat_summary catalog_zero) 0 true) in
  '(c, _) ← yvex_runtime_resource_catalog_reserve locks (alloc 1%nat) c wanted 0;
  Done (with_cat_summary (fun s => mk_resource_summary (rs_count s) (rs_count_by_kind s)
          (rs_bytes s) (yvex_core_text_copy "" YVEX_SHA256_HEX_CAP engine_identity)
          (rs_closing s)) c).

(** ** Registration *)

Definition registered_slot (r : yvex_engine_resource_request) (handle : yvex_engine_resource_handle)
    : engine_resource_slot :=
  mk_slot
    (mk_resource_entry handle (req_dependency r) (req_kind r) (req_owner r) (req_lifetime r)
       (req_numeric_class r)
       (if req_ready r then YVEX_ENGINE_RESOURCE_READY else YVEX_ENGINE_RESOURCE_DECLARED)
       (req_bytes r) 0 0 0 (req_preparation_nanoseconds r)
       (yvex_core_text_copy "" YVEX_ENGINE_RESOURCE_NAME_CAP (req_name r))
       (yvex_core_text_copy "" YVEX_SHA256_HEX_CAP (req_package_identity r))
       (match req_specialization_identity r with
        | Some _ => yvex_core_text_copy "" YVEX_SHA256_HEX_CAP (req_specialization_identity r)
        | None => ""
        end)
       (match req_admission_identity r with
        | Some _ => yvex_core_text_copy "" YVEX_SHA256_HEX_CAP (req_admission_identity r)
        | None => ""
        end)
       (req_evictable r))
    (req_value r) (req_release r) (req_release_context r) true.

(** [None]: no dependency is named. *)
Definition request_dependency (c : yvex_engine_resource_catalog)
    (r : yvex_engine_resource_request) : outcome (option Z) :=
  if negb (handle_present (req_dependency r)) then Done None else
  dependency ← resource_slot_locked c (req_dependency r);
  match dependency with
  | None => Refuse YVEX_ERR_STATE "resource dependency is stale or not ready"
  | Some i =>
      d ← read_at (cat_slots c) i;
      _ ← refuse_if (negb (bool_decide (slot_state d = YVEX_ENGINE_RESOURCE_READY)))
            YVEX_ERR_STATE "resource dependency is stale or not ready";
      Done (Some i)
  end.

(** [if (dependency) dependency->summary.dependent_count++] *)
Definition count_dependent (c : yvex_engine_resource_catalog) (dependency : option Z)
    : outcome yvex_engine_resource_catalog :=
  match dependency with
  | None => Done c
  | Some i =>
      d ← read_at (cat_slots c) i;
      write_slot c i (set_dependents (u64 (re_dependent_count (slot_summary d) + 1)) d)
  end.

(** The summary after the slot is written. *)
Definition register_account (c : yvex_engine_resource_catalog) (r : yvex_engine_resource_request)
    (totals : yvex_engine_resource_bytes) (preparation_total : Z)
    : outcome yvex_engine_resource_catalog :=
  let c := set_cat_bytes totals c in
  let c := add_tally resource_count 1 c in
  let c := add_tally registration_count 1 c in
  let c := set_tally preparation_nanoseconds preparation_total c in
  let c := add_tally generation 1 c in
  n ← read_at (rs_count_by_kind (cat_summary c)) (req_kind r);
  l ← write_at (rs_count_by_kind (cat_summary c)) (req_kind r) (u64 (n + 1));
  Done (add_tally ready_count (Z.b2z (req_ready r)) (set_by_kind l c)).

Definition yvex_runtime_resource_register (locks : bool) (c : yvex_engine_resource_catalog)
    (r : yvex_engine_resource_request)
    : outcome (yvex_engine_resource_catalog * yvex_engine_resource_handle) :=
  _ ← refuse_if (negb (resource_request_valid r) || negb (cat_mutex_ready c) || negb locks)
        YVEX_ERR_INVALID_ARG "one complete engine resource declaration is required";
  _ ← refuse_if (rs_closing (cat_summary c)) YVEX_ERR_STATE
        "closing engine resource catalog rejects registration";
  dependency ← request_dependency c r;
  index ← scan (Z.to_nat (tally capacity c))
            (fun index => slot ← read_at (cat_slots c) index; Done (negb (slot_in_use slot))) 0;
  _ ← refuse_if (index =? tally capacity c) YVEX_ERR_NOMEM
        "engine resource catalog capacity is exhausted";
  match resource_bytes_add (rs_bytes (cat_summary c)) (req_bytes r),
        yvex_core_u64_add (tally preparation_nanoseconds c) (req_preparation_nanoseconds r) with
  | Some totals, Some preparation_total =>
      let next := u64 (cat_next_generation c + 1) in
      let next := if next =? 0 then 1 else next in
      let handle := mk_handle (tally engine_generation c) (u64 (index + 1)) next in
      c ← write_slot (set_next_generation next c) index (registered_slot r handle);
      c ← count_dependent c dependency;
      c ← register_account c r totals preparation_total;
      Done (c, handle)
  | _, _ => Refuse YVEX_ERR_BOUNDS "engine resource accounting overflowed"
  end.

(** ** Borrowing *)

(** A live slot that satisfies the test of an operation. *)
Definition admitted_slot (c : yvex_engine_resource_catalog) (handle : yvex_engine_resource_handle)
    (test : yvex_engine_resource_entry -> bool) (reason : string)
    : outcome (Z * engine_resource_slot) :=
  index ← resource_slot_locked c handle;
  match index with
  | None => Refuse YVEX_ERR_STATE reason
  | Some index =>
      slot ← read_at (cat_slots c) index;
      _ ← refuse_if (negb (test (slot_summary slot))) YVEX_ERR_STATE reason;
      Done (index, slot)
  end.

(** The catalog and the borrowed value. *)
Definition yvex_runtime_resource_acquire (locks : bool) (c : yvex_engine_resource_catalog)
    (handle : yvex_engine_resource_handle) : outcome (yvex_engine_resource_catalog * Z) :=
  _ ← refuse_if (negb (cat_mutex_ready c) || negb locks) YVEX_ERR_INVALID_ARG
        "resource catalog and borrowed-value output are required";
  '(index, slot) ← admitted_slot c handle
     (fun e => negb (rs_closing (cat_summary c))
               && bool_decide (re_state e = YVEX_ENGINE_RESOURCE_READY)
               && negb (re_consumer_count e =? ULLONG_MAX)
               && negb (re_acquisition_count e =? ULLONG_MAX)
               && negb (tally acquisition_count c =? ULLONG_MAX))
     "ready non-stale engine resource is required";
  let e := slot_summary slot in
  c ← write_slot c index (set_consumers (u64 (re_consumer_count e + 1))
                            (u64 (re_acquisition_count e + 1)) slot);
  Done (add_tally acquisition_count 1 c, slot_value slot).

Definition yvex_runtime_resource_publish_ready (locks : bool) (c : yvex_engine_resource_catalog)
    (handle : yvex_engine_resource_handle) : outcome yvex_engine_resource_catalog :=
  _ ← refuse_if (negb (cat_mutex_ready c) || negb locks) YVEX_ERR_INVALID_ARG
        "resource catalog is required";
  '(index, slot) ← admitted_slot c handle
     (fun e => negb (rs_closing (cat_summary c))
               && bool_decide (re_state e = YVEX_ENGINE_RESOURCE_DECLARED))
     "one declared resource in an open catalog is required";
  c ← write_slot c index (set_slot_state YVEX_ENGINE_RESOURCE_READY slot);
  Done (add_tally generation 1 (add_tally ready_count 1 c)).

Definition yvex_runtime_resource_drop (locks : bool) (c : yvex_engine_resource_catalog)
    (handle : yvex_engine_resource_handle) : outcome yvex_engine_resource_catalog :=
  _ ← refuse_if (negb (cat_mutex_ready c) || negb locks) YVEX_ERR_INVALID_ARG
        "resource catalog is required";
  '(index, slot) ← admitted_slot c handle (fun e => negb (re_consumer_count e =? 0))
     "one exact borrowed resource generation is required";
  write_slot c index (set_consumers (u64 (re_consumer_count (slot_summary slot) - 1))
                        (re_acquisition_count (slot_summary slot)) slot).

(** ** Observation *)

(** The summary, the entries written, [*entry_count] and the status: all of them
    are stored also when the entries do not fit.  [entry_capacity = 0] is the
    absent output array. *)
Definition yvex_runtime_resource_snapshot (locks : bool) (c : yvex_engine_resource_catalog)
    (entry_capacity : Z)
    : outcome (yvex_engine_resource_summary * list yvex_engine_resource_entry * Z * yvex_status) :=
  _ ← refuse_if (negb (cat_mutex_ready c) || negb locks) YVEX_ERR_INVALID_ARG
        "resource catalog snapshot outputs are required";
  '(entries, count) ← foldO (fun acc index =>
      slot ← read_at (cat_slots c) index;
      if negb (slot_in_use slot) then Done acc else
      let '(entries, count) := acc in
      Done (if count <? entry_capacity then entries ++ [slot_summary slot] else entries,
            u64 (count + 1)))
    (zseq (tally capacity c)) ([], 0);
  Done (cat_summary c, entries, count,
        if negb (entry_capacity =? 0) && (entry_capacity <? count)
        then YVEX_ERR_BOUNDS else YVEX_OK).

(** ** Closing *)

(** The selection loop, from the last slot down. *)
Fixpoint release_candidate (n : nat) (l : list engine_resource_slot)
    : outcome yvex_engine_resource_handle :=
  match n with
  | O => Done handle_zero
  | S n =>
      slot ← read_at l (Z.of_nat n);
      if slot_in_use slot && (re_consumer_count (slot_summary slot) =? 0)
         && (re_dependent_count (slot_summary slot) =? 0)
      then Done (slot_handle slot)
      else release_candidate n l
  end.

Inductive selection : Type :=
  | Candidate (handle : yvex_engine_resource_handle)
  | Exhausted
  | Blocked.

(** One selection under the mutex: at the start of [close] and after each release. *)
Definition close_select (c : yvex_engine_resource_catalog) : outcome selection :=
  candidate ← release_candidate (Z.to_nat (tally capacity c)) (cat_slots c);
  Done (if handle_present candidate then Candidate candidate
        else if negb (tally resource_count c =? 0) then Blocked else Exhausted).

(** ** Threads and traces *)

(** Operations that are between two critical sections: a close that has chosen
    the resource it releases next, a release whose callback runs (within a close
    or within an eviction), a close about to select again. *)
Inductive operation : Type :=
  | Chosen (handle : yvex_engine_resource_handle)
  | InCallback (handle : yvex_engine_resource_handle) (evict release closing : bool)
  | Selecting
  | Returned.

(** Whether the operation is a call of [close]. *)
Definition closes (o : operation) : bool :=
  match o with
  | Chosen _ | Selecting => true
  | InCallback _ _ _ closing => closing
  | Returned => false
  end.

Inductive resource_event : Type :=
  | Registered (handle dependency : yvex_engine_resource_handle) (value : Z) (ready : bool)
  | Published (handle : yvex_engine_resource_handle)
  | Acquired (handle : yvex_engine_resource_handle) (value : Z)
  | Dropped (handle : yvex_engine_resource_handle)
  | ReleaseBegan (handle : yvex_engine_resource_handle)
  | Released (handle : yvex_engine_resource_handle)
  | ReleaseFailed (handle : yvex_engine_resource_handle)
  | Refused (status : yvex_status)
  | Freed.

(** [rw_catalog] is [None] once the catalog is freed. *)
Record resource_world : Type := mk_resource_world {
  rw_catalog : option yvex_engine_resource_catalog;
  rw_operations : list operation;
  rw_trace : list resource_event
}.

Definition opened_catalog (c : yvex_engine_resource_catalog) : resource_world :=
  mk_resource_world (Some c) [] [].

(** Calls of clients, and continuations of the operation at index [thread]:
    [Begin] enters the release a close has chosen, [Return] returns from the
    callback with the status [rc], [Select] is the next selection of a close. *)
Inductive resource_choice : Type :=
  | Reserve (locks granted : bool) (wanted maximum_host_bytes : Z)
  | Register (locks : bool) (request : yvex_engine_resource_request)
  | Publish (locks : bool) (handle : yvex_engine_resource_handle)
  | Acquire (locks : bool) (handle : yvex_engine_resource_handle)
  | Drop_ (locks : bool) (handle : yvex_engine_resource_handle)
  | Evict (locks : bool) (handle : yvex_engine_resource_handle)
  | Close (locks : bool)
  | Begin (thread : Z) (locks : bool)
  | Return (thread : Z) (locks : bool) (rc : yvex_status)
  | Select (thread : Z) (locks : bool).

(** The effect of a critical section: the catalog, and events; a refused call
    leaves the catalog as it was. *)
Definition section_result {A} (w : resource_world) (r : outcome A)
    (k : A -> yvex_engine_resource_catalog * list operation * list resource_event)
    (refused : list operation) : outcome resource_world :=
  match r with
  | Done a => let '(c, operations, events) := k a in
      Done (mk_resource_world (Some c) operations (rw_trace w ++ events))
  | Refuse status _ =>
      Done (mk_resource_world (rw_catalog w) refused (rw_trace w ++ [Refused status]))
  | Fault f => Fault f
  end.

(** A client calls only while it holds the catalog. *)
Definition client_call (w : resource_world)
    (k : yvex_engine_resource_catalog -> outcome resource_world) : option (outcome resource_world) :=
  match rw_catalog w with Some c => Some (k c) | None => None end.

(** An operation in progress uses the catalog whether or not it was freed. *)
Definition continue_call (w : resource_world)
    (k : yvex_engine_resource_catalog -> outcome resource_world) : option (outcome resource_world) :=
  Some match rw_catalog w with Some c => k c | None => Fault UseAfterFree end.

(** What follows a selection of the close that runs at index [thread]: the
    catalog is freed when no resource is left. *)
Definition selected (w : resource_world) (c : yvex_engine_resource_catalog)
    (operations : list operation) (thread : Z) : outcome resource_world :=
  s ← close_select c;
  match s with
  | Candidate handle =>
      Done (mk_resource_world (Some c) (zset operations thread (Chosen handle)) (rw_trace w))
  | Blocked =>
      Done (mk_resource_world (Some c) (zset operations thread Returned)
              (rw_trace w ++ [Refused YVEX_ERR_STATE]))
  | Exhausted =>
      Done (mk_resource_world None (zset operations thread Returned) (rw_trace w ++ [Freed]))
  end.

(** The first critical section of [close]: it selects with [closing] set. *)
Definition yvex_runtime_resource_catalog_close (locks : bool) (w : resource_world)
    (c : yvex_engine_resource_catalog) : outcome resource_world :=
  if negb (cat_mutex_ready c) || negb locks
  then Done (mk_resource_world (Some c) (rw_operations w) (rw_trace w ++ [Refused YVEX_ERR_STATE]))
  else selected w (set_closing c) (rw_operations w ++ [Returned]) (zlen (rw_operations w)).

Definition yvex_runtime_resource_evict (locks : bool) (w : resource_world)
    (c : yvex_engine_resource_catalog) (handle : yvex_engine_resource_handle)
    : outcome resource_world :=
  section_result w (release_begin locks c handle true)
    (fun '(c, (release, _)) =>
       (c, rw_operations w ++ [InCallback handle true release false], [ReleaseBegan handle]))
    (rw_operations w).

(** [resource_release] called by [close]. *)
Definition close_begin (locks : bool) (w : resource_world) (thread : Z)
    (handle : yvex_engine_resource_handle) (c : yvex_engine_resource_catalog)
    : outcome resource_world :=
  section_result w (release_begin locks c handle false)
    (fun '(c, (release, _)) =>
       (c, zset (rw_operations w) thread (InCallback handle false release true),
        [ReleaseBegan handle]))
    (zset (rw_operations w) thread Returned).

(** A close goes on to select after a successful release and returns otherwise. *)
Definition release_return (locks : bool) (w : resource_world) (thread : Z)
    (handle : yvex_engine_resource_handle) (evict release closing : bool) (rc : yvex_status)
    (c : yvex_engine_resource_catalog) : outcome resource_world :=
  section_result w (release_end locks c handle evict (if release then rc else YVEX_OK))
    (fun '(c, rc) =>
       if bool_decide (rc = YVEX_OK)
       then (c, zset (rw_operations w) thread (if closing then Selecting else Returned),
             [Released handle])
       else (c, zset (rw_operations w) thread Returned, [ReleaseFailed handle; Refused rc]))
    (zset (rw_operations w) thread Returned).

(** One critical section; [None] when the choice is not possible.  The owner of
    the catalog closes it from one thread at a time. *)
Definition resource_step (choice : resource_choice) (w : resource_world) : option (outcome resource_world) :=
  match choice with
  | Reserve locks granted wanted maximum => client_call w (fun c =>
      section_result w (yvex_runtime_resource_catalog_reserve locks granted c wanted maximum)
        (fun '(c, _) => (c, rw_operations w, [])) (rw_operations w))
  | Register locks request => client_call w (fun c =>
      section_result w (yvex_runtime_resource_register locks c request)
        (fun '(c, handle) => (c, rw_operations w,
           [Registered handle (req_dependency request) (req_value request) (req_ready request)]))
        (rw_operations w))
  | Publish locks handle => client_call w (fun c =>
      section_result w (yvex_runtime_resource_publish_ready locks c handle)
        (fun c => (c, rw_operations w, [Published handle])) (rw_operations w))
  | Acquire locks handle => client_call w (fun c =>
      section_result w (yvex_runtime_resource_acquire locks c handle)
        (fun '(c, value) => (c, rw_operations w, [Acquired handle value])) (rw_operations w))
  | Drop_ locks handle => client_call w (fun c =>
      section_result w (yvex_runtime_resource_drop locks c handle)
        (fun c => (c, rw_operations w, [Dropped handle])) (rw_operations w))
  | Evict locks handle =>
      client_call w (fun c => yvex_runtime_resource_evict locks w c handle)
  | Close locks =>
      if existsb closes (rw_operations w) then None
      else client_call w (yvex_runtime_resource_catalog_close locks w)
  | Begin thread locks =>
      match zget (rw_operations w) thread with
      | Some (Chosen handle) => continue_call w (close_begin locks w thread handle)
      | _ => None
      end
  | Return thread locks rc =>
      match zget (rw_operations w) thread with
      | Some (InCallback handle evict release closing) =>
          continue_call w (release_return locks w thread handle evict release closing rc)
      | _ => None
      end
  | Select thread locks =>
      match zget (rw_operations w) thread with
      | Some Selecting => continue_call w (fun c =>
          if negb locks
          then Done (mk_resource_world (Some c) (zset (rw_operations w) thread Returned)
                       (rw_trace w ++ [Refused YVEX_ERR_STATE]))
          else selected w c (rw_operations w) thread)
      | _ => None
      end
  end.

Fixpoint resource_run (choices : list resource_choice) (w : resource_world) : option (outcome resource_world) :=
  match choices with
  | [] => Some (Done w)
  | choice :: choices =>
      match resource_step choice w with
      | Some (Done w) => resource_run choices w
      | r => r
      end
  end.

(** ** A run *)

Definition demo_resource_identity : option string :=
  Some "0123456789abcdef0123456789abcdef0123456789abcdef0123456789abcdef".
Definition demo_request (value : Z) (dependency : yvex_engine_resource_handle) (ready : bool)
    : yvex_engine_resource_request :=
  mk_request 0 2 0 0 (Some "resource") demo_resource_identity None None dependency
    (mk_resource_bytes value 0 0 0 0 0 0) 1 value true 0 ready true.
Definition demo_handle (slot generation : Z) : yvex_engine_resource_handle :=
  mk_handle 7 slot generation.
Definition demo_catalog : outcome yvex_engine_resource_catalog :=
  yvex_runtime_resource_catalog_open (fun _ => true) true true 7 demo_resource_identity 2.
Definition demo_run (choices : list resource_choice) : option (outcome resource_world) :=
  match demo_catalog with
  | Done c => resource_run choices (opened_catalog c)
  | _ => None
  end.
Definition demo_trace (choices : list resource_choice) : list resource_event :=
  match demo_run choices with
  | Some (Done w) => rw_trace w
  | _ => []
  end.

Example demo_close :
  demo_trace [Register true (demo_request 11 handle_zero true);
              Register true (demo_request 22 (demo_handle 1 1) true);
              Evict true (demo_handle 1 1); Acquire true (demo_handle 2 2); Close true;
              Drop_ true (demo_handle 2 2); Close true; Begin 1 true; Return 1 true YVEX_OK;
              Select 1 true; Begin 1 true; Return 1 true YVEX_OK; Select 1 true]
  = [Registered (demo_handle 1 1) handle_zero 11 true;
     Registered (demo_handle 2 2) (demo_handle 1 1) 22 true;
     Refused YVEX_ERR_STATE; Acquired (demo_handle 2 2) 22; Refused YVEX_ERR_STATE;
     Dropped (demo_handle 2 2); ReleaseBegan (demo_handle 2 2); Released (demo_handle 2 2);
     ReleaseBegan (demo_handle 1 1); Released (demo_handle 1 1); Freed].
Proof. vm_compute. reflexivity. Qed.

Example demo_slot_reuse :
  demo_trace [Register true (demo_request 11 handle_zero true); Evict true (demo_handle 1 1);
              Return 0 true YVEX_OK; Register true (demo_request 12 handle_zero true);
              Acquire true (demo_handle 1 1); Acquire true (demo_handle 1 2)]
  = [Registered (demo_handle 1 1) handle_zero 11 true; ReleaseBegan (demo_handle 1 1);
     Released (demo_handle 1 1); Registered (demo_handle 1 2) handle_zero 12 true;
     Refused YVEX_ERR_STATE; Acquired (demo_handle 1 2) 12].
Proof. vm_compute. reflexivity. Qed.

(** * Specification

    What clients may rely on, without slots or counters: the live resources by
    handle, and the handles that were ever given out. *)

Record life : Type := mk_life {
  life_state : yvex_engine_resource_state;
  life_value : Z;
  life_dependency : yvex_engine_resource_handle;
  life_consumers : Z
}.
#[export] Instance life_eq_dec : EqDecision life.
Proof. solve_decision. Defined.

Record resource_spec : Type := mk_resource_spec {
  spec_live : gmap yvex_engine_resource_handle life;
  spec_used : gset yvex_engine_resource_handle
}.
Definition spec_start : resource_spec := mk_resource_spec ∅ ∅.

Definition life_with (state : yvex_engine_resource_state) (consumers : Z) (l : life) : life :=
  mk_life state (life_value l) (life_dependency l) consumers.

(** Change one live resource that satisfies a guard. *)
Definition spec_update (s : resource_spec) (handle : yvex_engine_resource_handle)
    (guard : life -> bool) (f : life -> option life) : option resource_spec :=
  l ← spec_live s !! handle;
  if guard l then Some (mk_resource_spec (partial_alter (fun _ => f l) handle (spec_live s))
                          (spec_used s))
  else None.

Definition resource_spec_step (s : resource_spec) (e : resource_event) : option resource_spec :=
  match e with
  | Registered handle dependency value ready =>
      if bool_decide (handle ∈ spec_used s) then None else
      if handle_present dependency
         && negb (bool_decide (life_state <$> spec_live s !! dependency
                               = Some YVEX_ENGINE_RESOURCE_READY)) then None else
      Some (mk_resource_spec
        (<[handle := mk_life (if ready then YVEX_ENGINE_RESOURCE_READY
                              else YVEX_ENGINE_RESOURCE_DECLARED) value dependency 0]> (spec_live s))
        ({[handle]} ∪ spec_used s))
  | Published handle => spec_update s handle
      (fun l => bool_decide (life_state l = YVEX_ENGINE_RESOURCE_DECLARED))
      (fun l => Some (life_with YVEX_ENGINE_RESOURCE_READY (life_consumers l) l))
  | Acquired handle value => spec_update s handle
      (fun l => bool_decide (life_state l = YVEX_ENGINE_RESOURCE_READY) && (life_value l =? value))
      (fun l => Some (life_with (life_state l) (life_consumers l + 1) l))
  | Dropped handle => spec_update s handle (fun l => 0 <? life_consumers l)
      (fun l => Some (life_with (life_state l) (life_consumers l - 1) l))
  | ReleaseBegan handle => spec_update s handle
      (fun l => negb (bool_decide (life_state l = YVEX_ENGINE_RESOURCE_RELEASING))
                && (life_consumers l =? 0)
                && bool_decide (map_Forall (fun _ l' => life_dependency l' <> handle) (spec_live s)))
      (fun l => Some (life_with YVEX_ENGINE_RESOURCE_RELEASING 0 l))
  | Released handle => spec_update s handle
      (fun l => bool_decide (life_state l = YVEX_ENGINE_RESOURCE_RELEASING)) (fun _ => None)
  | ReleaseFailed handle => spec_update s handle
      (fun l => bool_decide (life_state l = YVEX_ENGINE_RESOURCE_RELEASING))
      (fun l => Some (life_with YVEX_ENGINE_RESOURCE_FAILED (life_consumers l) l))
  | Refused _ => Some s
  | Freed => if bool_decide (spec_live s = ∅) then Some s else None
  end.

Fixpoint resource_spec_run (s : resource_spec) (l : list resource_event) : option resource_spec :=
  match l with
  | [] => Some s
  | e :: l => s ← resource_spec_step s e; resource_spec_run s l
  end.
