(* ===== verification/ResourceInvariant.v ===== *)
(** * The invariant of the resource catalog

    What holds of the slots and of the summary between two critical sections of
    [Resource]: handles name their slot and are unique, dependencies are live
    and older than their dependents, dependent counts and every counter of the
    summary are sums over the occupied slots.  Each operation is shown to keep
    it, not to fault, and to take the step of the specification that its events
    name.  An operation that writes two slots passes through a state where one
    dependent count lags; the invariant is stated with that debt. *)

From Stdlib Require Import ZArith Lia Bool String.
From stdpp Require Import base list option numbers strings sets gmap.
From S2P Require Import Prelude Core Sha256 Resource.

(** ** Invariant *)

(** Summands of the counters. *)
Definition in_use_sum (p : engine_resource_slot -> bool) (s : engine_resource_slot) : Z :=
  Z.b2z (slot_in_use s && p s).
Definition in_state (state : yvex_engine_resource_state) (s : engine_resource_slot) : bool :=
  bool_decide (slot_state s = state).
Definition of_kind (kind : Z) (s : engine_resource_slot) : bool := re_kind (slot_summary s) =? kind.
Definition depends_on (handle : yvex_engine_resource_handle) (s : engine_resource_slot) : bool :=
  bool_decide (re_dependency (slot_summary s) = handle).

Definition byte_fields : list (yvex_engine_resource_bytes -> Z) :=
  [mapped_package_bytes; host_resident_bytes; device_resident_bytes; prepared_bytes;
   sequence_state_bytes; workspace_bytes; temporary_bytes].
Definition bytes_ok (b : yvex_engine_resource_bytes) : Prop :=
  Forall (fun f => is_u64 (f b)) byte_fields.
Definition slot_bytes (f : yvex_engine_resource_bytes -> Z) (s : engine_resource_slot) : Z :=
  if slot_in_use s then f (re_bytes (slot_summary s)) else 0.

Definition live_at (l : list engine_resource_slot) (i : Z) (s : engine_resource_slot) : Prop :=
  zget l i = Some s /\ slot_in_use s = true.

(** An occupied slot, for the slots [l], the engine generation and the last
    generation given out.  [debt] is by how much a dependent count lags within
    an operation that changes two slots. *)
Record slot_ok (debt : yvex_engine_resource_handle -> Z) (l : list engine_resource_slot)
    (engine next i : Z) (s : engine_resource_slot) : Prop := mk_slot_ok {
  ok_handle : slot_handle s = mk_handle engine (i + 1) (h_generation (slot_handle s));
  ok_generation : 0 < h_generation (slot_handle s) <= next;
  ok_kind : 0 <= re_kind (slot_summary s) < YVEX_ENGINE_RESOURCE_KIND_COUNT;
  ok_bytes : bytes_ok (re_bytes (slot_summary s));
  ok_consumers : is_u64 (re_consumer_count (slot_summary s));
  ok_dependents : re_dependent_count (slot_summary s) + debt (slot_handle s)
                  = zsum (in_use_sum (depends_on (slot_handle s))) l;
  ok_idle : slot_state s <> YVEX_ENGINE_RESOURCE_READY ->
    re_consumer_count (slot_summary s) = 0 /\ re_dependent_count (slot_summary s) = 0;
  ok_dependency : handle_present (re_dependency (slot_summary s)) = true ->
    exists j d, live_at l j d /\ slot_handle d = re_dependency (slot_summary s)
      /\ h_generation (slot_handle d) < h_generation (slot_handle s)
}.

Record slots_ok (debt : yvex_engine_resource_handle -> Z) (engine next : Z)
    (l : list engine_resource_slot) : Prop := mk_slots_ok {
  ok_slots : forall i s, live_at l i s -> slot_ok debt l engine next i s;
  ok_free : forall i s, zget l i = Some s -> slot_in_use s = false -> s = slot_zero;
  ok_distinct : forall i j s t, live_at l i s -> live_at l j t ->
    h_generation (slot_handle s) = h_generation (slot_handle t) -> i = j
}.

(** The counters of the summary are sums over the slots. *)
Record sums_ok (c : yvex_engine_resource_catalog) : Prop := mk_sums_ok {
  ok_resource_count : tally resource_count c = zsum (in_use_sum (fun _ => true)) (cat_slots c);
  ok_ready_count : tally ready_count c
    = zsum (in_use_sum (in_state YVEX_ENGINE_RESOURCE_READY)) (cat_slots c);
  ok_failed_count : tally failed_count c
    = zsum (in_use_sum (in_state YVEX_ENGINE_RESOURCE_FAILED)) (cat_slots c);
  ok_by_kind : forall k, 0 <= k < YVEX_ENGINE_RESOURCE_KIND_COUNT ->
    zget (rs_count_by_kind (cat_summary c)) k = Some (zsum (in_use_sum (of_kind k)) (cat_slots c));
  ok_bytes_range : bytes_ok (rs_bytes (cat_summary c));
  ok_total_bytes : forall f, f ∈ byte_fields ->
    f (rs_bytes (cat_summary c)) = zsum (slot_bytes f) (cat_slots c)
}.

Record catalog_ok_at (debt : yvex_engine_resource_handle -> Z) (c : yvex_engine_resource_catalog)
    : Prop := mk_catalog_ok {
  ok_mutex : cat_mutex_ready c = true;
  ok_capacity : zlen (cat_slots c) = tally capacity c;
  ok_capacity_bound : 0 <= tally capacity c <= RESOURCE_CAPACITY_MAX;
  ok_engine : 0 < tally engine_generation c /\ is_u64 (tally engine_generation c);
  ok_next : is_u64 (cat_next_generation c);
  ok_array : slots_ok debt (tally engine_generation c) (cat_next_generation c) (cat_slots c);
  ok_sums : sums_ok c
}.
Definition catalog_ok : yvex_engine_resource_catalog -> Prop := catalog_ok_at (fun _ => 0).

(** ** Arrays of slots *)

Lemma live_at_zset l i s s' k t :
  zget l i = Some s ->
  live_at (zset l i s') k t <->
  (k = i /\ t = s' /\ slot_in_use s' = true) \/ (k <> i /\ live_at l k t).
Proof.
  intros Hi. unfold live_at. destruct (decide (k = i)) as [->|Hk].
  - rewrite zget_zset_eq by eauto using zget_Some_range. naive_solver.
  - rewrite zget_zset_ne by done. naive_solver.
Qed.

Lemma in_use_sum_range p s : 0 <= in_use_sum p s <= 1.
Proof. unfold in_use_sum. destruct (_ && _); cbn; lia. Qed.

Lemma in_use_total_range p l : 0 <= zsum (in_use_sum p) l <= zlen l.
Proof.
  split; [apply zsum_nonneg|apply zsum_bound]; intros x _; pose proof (in_use_sum_range p x); lia.
Qed.

Lemma in_use_total_zero p l i s :
  zsum (in_use_sum p) l = 0 -> live_at l i s -> p s = false.
Proof.
  intros H [Hi Hu]. pose proof (zget_elem_of _ _ _ Hi) as Hin.
  apply zsum_zero_inv with (x := s) in H; [|intros x _; apply in_use_sum_range|done].
  unfold in_use_sum in H. rewrite Hu in H. by destruct (p s).
Qed.

Lemma in_use_total_pos p l i s :
  live_at l i s -> p s = true -> 0 < zsum (in_use_sum p) l.
Proof.
  intros Hl Hp. pose proof (in_use_total_range p l).
  destruct (decide (zsum (in_use_sum p) l = 0)) as [E|]; [|lia].
  by rewrite (in_use_total_zero _ _ _ _ E Hl) in Hp.
Qed.

Lemma tally_set k k' n c : tally k (set_tally k' n c) = if decide (k = k') then n else tally k c.
Proof. done. Qed.

Lemma tally_set_slots k l c : tally k (set_slots l c) = tally k c.
Proof. done. Qed.
Lemma tally_set_cat_bytes k b c : tally k (set_cat_bytes b c) = tally k c.
Proof. done. Qed.
Lemma tally_set_by_kind k l c : tally k (set_by_kind l c) = tally k c.
Proof. done. Qed.
Lemma tally_set_next k n c : tally k (set_next_generation n c) = tally k c.
Proof. done. Qed.

Ltac tallies :=
  unfold add_tally;
  rewrite ?tally_set, ?tally_set_slots, ?tally_set_cat_bytes, ?tally_set_by_kind, ?tally_set_next;
  repeat first [rewrite decide_True by done | rewrite decide_False by done].

(** ** One slot changes *)

(** The same resource with other counts or another state. *)
Definition same_resource (s s' : engine_resource_slot) : Prop :=
  slot_in_use s' = slot_in_use s /\ slot_handle s' = slot_handle s
  /\ re_dependency (slot_summary s') = re_dependency (slot_summary s)
  /\ re_kind (slot_summary s') = re_kind (slot_summary s)
  /\ re_bytes (slot_summary s') = re_bytes (slot_summary s).

(** How the counters follow any write to one slot. *)
Lemma sums_zset c c' i s s' :
  sums_ok c -> zget (cat_slots c) i = Some s -> cat_slots c' = zset (cat_slots c) i s' ->
  let moved (p : engine_resource_slot -> bool) := in_use_sum p s' - in_use_sum p s in
  tally resource_count c' = tally resource_count c + moved (fun _ => true) ->
  tally ready_count c' = tally ready_count c + moved (in_state YVEX_ENGINE_RESOURCE_READY) ->
  tally failed_count c' = tally failed_count c + moved (in_state YVEX_ENGINE_RESOURCE_FAILED) ->
  (forall k, 0 <= k < YVEX_ENGINE_RESOURCE_KIND_COUNT ->
   zget (rs_count_by_kind (cat_summary c')) k
   = (fun z => z + moved (of_kind k)) <$> zget (rs_count_by_kind (cat_summary c)) k) ->
  bytes_ok (rs_bytes (cat_summary c')) ->
  (forall f, f ∈ byte_fields ->
   f (rs_bytes (cat_summary c'))
   = f (rs_bytes (cat_summary c)) + (slot_bytes f s' - slot_bytes f s)) ->
  sums_ok c'.
Proof.
  intros [S1 S2 S3 S4 S5 S6] Hi El moved. cbv beta in moved. subst moved. cbv beta.
  intros C1 C2 C3 C4 C5 C6.
  split; rewrite ?El; [..|done|]; try rewrite (zsum_zset _ _ _ _ _ Hi); try lia.
  - intros k Hk. rewrite C4, S4 by done. cbn. f_equal. rewrite (zsum_zset _ _ _ _ _ Hi). lia.
  - intros f Hf. rewrite C6, S6, (zsum_zset _ _ _ _ _ Hi) by done. lia.
Qed.

Lemma free_zset l i s s' :
  zget l i = Some s -> (slot_in_use s' = false -> s' = slot_zero) ->
  (forall k t, zget l k = Some t -> slot_in_use t = false -> t = slot_zero) ->
  forall k t, zget (zset l i s') k = Some t -> slot_in_use t = false -> t = slot_zero.
Proof.
  intros Hi Hs' H k t Ht Hf. destruct (decide (k = i)) as [->|Hk].
  - rewrite zget_zset_eq in Ht by eauto using zget_Some_range. naive_solver.
  - rewrite zget_zset_ne in Ht by done. by apply (H k).
Qed.

(** The dependent sums change only with the dependency of the slot. *)
Lemma dependents_zset l i s s' h :
  zget l i = Some s ->
  zsum (in_use_sum (depends_on h)) (zset l i s')
  = zsum (in_use_sum (depends_on h)) l - in_use_sum (depends_on h) s + in_use_sum (depends_on h) s'.
Proof. apply zsum_zset. Qed.

Section SlotChanges.
Context (debt debt' : yvex_engine_resource_handle -> Z) (engine next : Z).
Context (l : list engine_resource_slot) (i : Z) (s s' : engine_resource_slot).
Hypothesis (Hl : slots_ok debt engine next l).
Hypothesis (Hs : live_at l i s) (Hsame : same_resource s s').

Lemma same_resource_live k t :
  live_at (zset l i s') k t ->
  exists t0, live_at l k t0 /\ same_resource t0 t /\ (k = i /\ t0 = s /\ t = s' \/ k <> i /\ t = t0).
Proof using Hs Hsame.
  intros [(-> & -> & _)|[Hk Ht]]%(live_at_zset _ _ _ _ _ _ (proj1 Hs)).
  - exists s. split; [done|]. split; [done|]. by left.
  - exists t. split; [done|]. split; [done|]. by right.
Qed.

Lemma live_same_resource k t :
  live_at l k t -> exists t', live_at (zset l i s') k t' /\ slot_handle t' = slot_handle t.
Proof using Hs Hsame.
  intros Ht. destruct Hsame as (Su & Sh & _). pose proof (live_at_zset l i s s') as Z.
  destruct (decide (k = i)) as [->|Hk].
  - exists s'. assert (t = s) as -> by (destruct Ht, Hs; congruence). split; [|done].
    apply (Z _ _ (proj1 Hs)). left. split_and!; [done..|]. rewrite Su. apply Hs.
  - exists t. split; [|done]. apply (Z _ _ (proj1 Hs)). by right.
Qed.

(** In-place changes of one live slot. *)
Lemma slots_update :
  is_u64 (re_consumer_count (slot_summary s')) ->
  re_dependent_count (slot_summary s') + debt' (slot_handle s)
  = re_dependent_count (slot_summary s) + debt (slot_handle s) ->
  (forall h, h <> slot_handle s -> debt' h = debt h) ->
  (slot_state s' <> YVEX_ENGINE_RESOURCE_READY ->
   re_consumer_count (slot_summary s') = 0 /\ re_dependent_count (slot_summary s') = 0) ->
  slots_ok debt' engine next (zset l i s').
Proof using Hl Hs Hsame.
  intros Hcons Hdep Hdebt Hidle. split.
  - intros k t Ht. destruct (same_resource_live k t Ht) as (t0 & Ht0 & (_ & Th & Td & Tk & Tb) & Hor).
    destruct (ok_slots _ _ _ _ Hl k t0 Ht0) as [K1 K2 K3 K4 K5 K6 K7 K8].
    split; rewrite ?Th, ?Td, ?Tk, ?Tb; try done.
    + by destruct Hor as [(-> & -> & ->)|[_ ->]].
    + rewrite (dependents_zset _ _ _ _ _ (proj1 Hs)). unfold in_use_sum at 2 3.
      destruct Hsame as (-> & _ & Sd & _). unfold depends_on at 2 3. rewrite Sd.
      destruct Hor as [(-> & -> & ->)|[Hk ->]]; [lia|]. rewrite Hdebt; [lia|].
      intros E. apply Hk. apply (ok_distinct _ _ _ _ Hl k i t0 s Ht0 Hs). by rewrite E.
    + by destruct Hor as [(-> & -> & ->)|[_ ->]].
    + intros Hp. destruct (K8 Hp) as (j & d & Hd & Ed & Hlt).
      destruct (live_same_resource j d Hd) as (d' & Hd' & E). exists j, d'. by rewrite E.
  - apply free_zset with (s := s); [apply Hs| |apply Hl].
    destruct Hsame as (-> & _), Hs as [_ ->]. done.
  - intros k1 k2 t1 t2 H1 H2. destruct (same_resource_live _ _ H1) as (u1 & L1 & (_ & -> & _) & _).
    destruct (same_resource_live _ _ H2) as (u2 & L2 & (_ & -> & _) & _).
    by apply (ok_distinct _ _ _ _ Hl).
Qed.

End SlotChanges.

(** ** Slots by handle *)

Definition handle_ok (h : yvex_engine_resource_handle) : Prop :=
  is_u64 (h_engine_generation h) /\ is_u64 (h_slot h) /\ is_u64 (h_generation h).

Lemma live_handle_unique debt c i j s t :
  catalog_ok_at debt c -> live_at (cat_slots c) i s -> live_at (cat_slots c) j t ->
  slot_handle s = slot_handle t -> i = j /\ s = t.
Proof.
  intros Hc Hs Ht E. assert (i = j) as <- by (eapply (ok_distinct _ _ _ _ (ok_array _ _ Hc)); eauto; by rewrite E).
  split; [done|]. destruct Hs, Ht. congruence.
Qed.

Lemma live_index debt c i s :
  catalog_ok_at debt c -> live_at (cat_slots c) i s -> 0 <= i < RESOURCE_CAPACITY_MAX.
Proof.
  intros Hc [Hi _]. apply zget_Some_range in Hi. pose proof (ok_capacity _ _ Hc).
  pose proof (ok_capacity_bound _ _ Hc). lia.
Qed.

(** What the lookup of a handle returns. *)
Lemma resource_slot_locked_live debt c i s :
  catalog_ok_at debt c -> live_at (cat_slots c) i s ->
  resource_slot_locked c (slot_handle s) = Done (Some i).
Proof.
  intros Hc Hs. pose proof (live_index _ _ _ _ Hc Hs) as Hi.
  destruct (ok_slots _ _ _ _ (ok_array _ _ Hc) _ _ Hs) as [K1 K2 _ _ _ _ _ _].
  pose proof Hs as [Hg Hu]. pose proof (zget_Some_range _ _ _ Hg) as Hr.
  pose proof (ok_capacity _ _ Hc) as Hcap. unfold RESOURCE_CAPACITY_MAX in *.
  unfold resource_slot_locked. rewrite K1. cbn [h_engine_generation h_slot h_generation].
  replace (_ || _) with false by (rewrite Z.eqb_refl; cbn; lia).
  replace (i + 1 - 1) with i by lia. rewrite u64_id by (unfold is_u64; lia).
  unfold read_at. rewrite Hg. cbn. by rewrite Hu, Z.eqb_refl.
Qed.

Lemma resource_slot_locked_stale debt c h :
  catalog_ok_at debt c -> handle_ok h ->
  (forall i s, live_at (cat_slots c) i s -> slot_handle s <> h) ->
  resource_slot_locked c h = Done None.
Proof.
  intros Hc (He & Hs & Hg) Hno. unfold resource_slot_locked. case_match eqn:E; [done|].
  bool_hyps. pose proof (ok_capacity _ _ Hc) as Hcap. unfold is_u64 in *.
  rewrite u64_id by (unfold is_u64; lia).
  destruct (zget_in (cat_slots c) (h_slot h - 1)) as [s Hi]; [lia|].
  unfold read_at. rewrite Hi. cbn. destruct (slot_in_use s) eqn:Hu; [|done]. cbn.
  case_match eqn:Eg; [|done]. exfalso. apply (Hno (h_slot h - 1) s); [done|].
  destruct (ok_slots _ _ _ _ (ok_array _ _ Hc) _ _ (conj Hi Hu)) as [-> _ _ _ _ _ _ _].
  destruct h as [he hs hg]. cbn in *. f_equal; lia.
Qed.

Lemma live_dec debt c h :
  catalog_ok_at debt c ->
  (exists i s, live_at (cat_slots c) i s /\ slot_handle s = h)
  \/ (forall i s, live_at (cat_slots c) i s -> slot_handle s <> h).
Proof.
  intros _. destruct (decide (Exists (fun s => slot_in_use s = true /\ slot_handle s = h)
                                (cat_slots c))) as [H|H].
  - left. apply Exists_exists in H as (s & [i Hi]%elem_of_zget & Hu & Eh). by exists i, s.
  - right. intros i s [Hi Hu] E. apply H. apply Exists_exists. exists s.
    split; [by eapply zget_elem_of|done].
Qed.

(** Every lookup by handle is one of these two. *)
Lemma resource_slot_locked_cases debt c h :
  catalog_ok_at debt c -> handle_ok h ->
  (exists i s, live_at (cat_slots c) i s /\ slot_handle s = h
               /\ resource_slot_locked c h = Done (Some i))
  \/ ((forall i s, live_at (cat_slots c) i s -> slot_handle s <> h)
      /\ resource_slot_locked c h = Done None).
Proof.
  intros Hc Hh. destruct (live_dec _ _ h Hc) as [(i & s & Hs & <-)|Hno].
  - left. exists i, s. split_and!; [done..|]. by eapply resource_slot_locked_live.
  - right. split; [done|]. by eapply resource_slot_locked_stale.
Qed.

Lemma live_handle_ok debt c i s :
  catalog_ok_at debt c -> live_at (cat_slots c) i s ->
  handle_ok (slot_handle s).
Proof.
  intros Hc Hs. pose proof (live_index _ _ _ _ Hc Hs) as Hi. pose proof (ok_next _ _ Hc).
  pose proof (ok_engine _ _ Hc).
  destruct (ok_slots _ _ _ _ (ok_array _ _ Hc) _ _ Hs) as [-> K2 _ _ _ _ _ _]. unfold handle_ok, is_u64 in *.
  unfold RESOURCE_CAPACITY_MAX in *. cbn in K2 |- *. lia.
Qed.

Lemma live_handle_present debt c i s :
  catalog_ok_at debt c -> live_at (cat_slots c) i s -> handle_present (slot_handle s) = true.
Proof.
  intros Hc Hs. destruct (ok_slots _ _ _ _ (ok_array _ _ Hc) _ _ Hs) as [_ K2 _ _ _ _ _ _]. unfold handle_present. lia.
Qed.

Lemma write_at_eq {A} (l : list A) i x y : zget l i = Some x -> write_at l i y = Done (zset l i y).
Proof.
  intros Hi%zget_Some_range. unfold write_at.
  by replace ((0 <=? i) && (i <? zlen l)) with true by lia.
Qed.

Lemma write_slot_eq c i s s' :
  zget (cat_slots c) i = Some s ->
  write_slot c i s' = Done (set_slots (zset (cat_slots c) i s') c).
Proof.
  intros Hi. unfold write_slot. by rewrite (write_at_eq _ _ _ _ Hi).
Qed.

Lemma read_at_eq {A} (l : list A) i x : zget l i = Some x -> read_at l i = Done x.
Proof. unfold read_at. by intros ->. Qed.

(** ** Occupying and vacating a slot *)

Definition owing (h : yvex_engine_resource_handle) (h' : yvex_engine_resource_handle) : Z :=
  if decide (h' = h) then 1 else 0.

Lemma bytes_field f b : f ∈ byte_fields -> bytes_ok b -> is_u64 (f b).
Proof. intros Hf Hb. unfold bytes_ok in Hb. rewrite Forall_forall in Hb. by apply Hb. Qed.

Lemma slots_debt debt debt' engine next l :
  slots_ok debt engine next l ->
  (forall k t, live_at l k t -> debt' (slot_handle t) = debt (slot_handle t)) ->
  slots_ok debt' engine next l.
Proof.
  intros [H1 H2 H3] E. split; [|done..]. intros k t Ht. destruct (H1 k t Ht) as [? ? ? ? ? K ? ?].
  split; try done. by rewrite (E k t Ht).
Qed.

Lemma owing_sum h s : slot_in_use s = true ->
  in_use_sum (depends_on h) s = owing (re_dependency (slot_summary s)) h.
Proof.
  intros Hu. unfold in_use_sum, depends_on, owing. rewrite Hu.
  destruct (decide (re_dependency (slot_summary s) = h)) as [<-|];
    [by rewrite bool_decide_eq_true_2, decide_True
    |by rewrite bool_decide_eq_false_2, decide_False by congruence].
Qed.

Section Occupy.
Context (engine next : Z) (l : list engine_resource_slot) (i : Z) (n : engine_resource_slot).
Hypothesis (Hl : slots_ok (fun _ => 0) engine next l) (Hnext : 0 <= next).
Hypothesis (Hi : zget l i = Some slot_zero) (Hu : slot_in_use n = true).
Hypothesis (Hh : slot_handle n = mk_handle engine (i + 1) (next + 1)).

Lemma occupy_live k t : live_at l k t -> live_at (zset l i n) k t.
Proof using Hi.
  intros [Ht Htu]. apply (live_at_zset _ _ _ _ _ _ Hi). right. split; [|done].
  intros ->. rewrite Hi in Ht. by simplify_eq.
Qed.

Lemma occupy_old k t :
  live_at l k t -> h_generation (slot_handle t) <= next /\ slot_handle t <> slot_handle n.
Proof using Hl Hh.
  intros Ht. destruct (ok_slots _ _ _ _ Hl _ _ Ht) as [_ K2 _ _ _ _ _ _].
  split; [lia|]. rewrite Hh. intros E. rewrite E in K2. cbn in K2. lia.
Qed.

Lemma occupy_no_dependents : zsum (in_use_sum (depends_on (slot_handle n))) l = 0.
Proof using Hl Hh Hnext.
  apply zsum_zero. intros t [k Ht]%elem_of_zget. unfold in_use_sum.
  destruct (slot_in_use t) eqn:Htu; [|done]. unfold depends_on.
  rewrite bool_decide_eq_false_2; [done|]. intros E.
  destruct (ok_slots _ _ _ _ Hl _ _ (conj Ht Htu)) as [_ _ _ _ _ _ _ K8].
  destruct K8 as (j & d & Hd & Ed & _).
  { rewrite E, Hh. unfold handle_present. cbn. lia. }
  destruct (occupy_old j d Hd) as [_ []]. congruence.
Qed.

(** A free slot becomes the resource [n]. *)
Lemma slots_insert :
  0 <= re_kind (slot_summary n) < YVEX_ENGINE_RESOURCE_KIND_COUNT ->
  bytes_ok (re_bytes (slot_summary n)) ->
  re_consumer_count (slot_summary n) = 0 -> re_dependent_count (slot_summary n) = 0 ->
  (handle_present (re_dependency (slot_summary n)) = true ->
   exists j d, live_at l j d /\ slot_handle d = re_dependency (slot_summary n)) ->
  slots_ok (owing (re_dependency (slot_summary n))) engine (next + 1) (zset l i n).
Proof using All.
  intros Hk Hb Hcons Hdeps Hdep.
  assert (Hsum : forall h, zsum (in_use_sum (depends_on h)) (zset l i n)
                 = zsum (in_use_sum (depends_on h)) l + owing (re_dependency (slot_summary n)) h).
  { intros h. rewrite (dependents_zset _ _ _ _ _ Hi), (owing_sum _ n Hu). cbn. lia. }
  split.
  - intros k t [(-> & -> & _)|[Hki Ht]]%(live_at_zset _ _ _ _ _ _ Hi).
    + split; rewrite ?Hcons, ?Hdeps, ?Hsum, ?occupy_no_dependents, ?Hh; try done; [cbn; lia|].
      intros Hp. destruct (Hdep Hp) as (j & d & Hd & Ed). exists j, d.
      split; [by apply occupy_live|]. split; [done|]. destruct (occupy_old _ _ Hd). cbn. lia.
    + destruct (ok_slots _ _ _ _ Hl k t Ht) as [K1 K2 K3 K4 K5 K6 K7 K8].
      split; rewrite ?Hsum; try done; try lia.
      intros Hp. destruct (K8 Hp) as (j & d & Hd & Ed). exists j, d.
      split; [by apply occupy_live|done].
  - apply free_zset with (s := slot_zero); [done|congruence|apply Hl].
  - intros k1 k2 t1 t2 H1 H2 E.
    apply (live_at_zset _ _ _ _ _ _ Hi) in H1 as [(-> & -> & _)|[Hk1 H1]];
      apply (live_at_zset _ _ _ _ _ _ Hi) in H2 as [(-> & -> & _)|[Hk2 H2]]; [done|..].
    + destruct (occupy_old _ _ H2). rewrite Hh in E. cbn in E. lia.
    + destruct (occupy_old _ _ H1). rewrite Hh in E. cbn in E. lia.
    + by apply (ok_distinct _ _ _ _ Hl k1 k2 t1 t2).
Qed.

End Occupy.

(** A live resource without dependents leaves its slot. *)
Lemma slots_remove debt engine next l i s :
  slots_ok debt engine next l -> live_at l i s ->
  zsum (in_use_sum (depends_on (slot_handle s))) l = 0 ->
  (forall k t, live_at l k t ->
   debt (slot_handle t) = owing (re_dependency (slot_summary s)) (slot_handle t)) ->
  slots_ok (fun _ => 0) engine next (zset l i slot_zero).
Proof.
  intros Hl Hs Hnone Hdebt. pose proof Hs as [Hi Hu].
  assert (Hlive : forall k t, live_at (zset l i slot_zero) k t -> k <> i /\ live_at l k t).
  { intros k t [(_ & _ & ?)|H]%(live_at_zset _ _ _ _ _ _ Hi); done. }
  split.
  - intros k t [Hk Ht]%Hlive. destruct (ok_slots _ _ _ _ Hl k t Ht) as [K1 K2 K3 K4 K5 K6 K7 K8].
    split; try done.
    + rewrite (dependents_zset _ _ _ _ _ Hi), (owing_sum _ s Hu). rewrite (Hdebt k t Ht) in K6.
      cbn. lia.
    + intros Hp. destruct (K8 Hp) as (j & d & Hd & Ed & Hlt). exists j, d. split; [|done].
      apply (live_at_zset _ _ _ _ _ _ Hi). right. split; [|done]. intros ->.
      assert (d = s) as -> by (destruct Hd; congruence).
      apply (in_use_total_zero _ _ _ _ Hnone) in Ht. unfold depends_on in Ht.
      apply bool_decide_eq_false_1 in Ht. congruence.
  - by apply free_zset with (s := s); [done|..|apply Hl].
  - intros k1 k2 t1 t2 [_ H1]%Hlive [_ H2]%Hlive. by apply (ok_distinct _ _ _ _ Hl).
Qed.

(** ** Abstraction *)

Definition life_of (s : engine_resource_slot) : life :=
  mk_life (slot_state s) (slot_value s) (re_dependency (slot_summary s))
    (re_consumer_count (slot_summary s)).

Definition represents (m : gmap yvex_engine_resource_handle life) (l : list engine_resource_slot)
    : Prop :=
  forall h x, m !! h = Some x <-> exists i s, live_at l i s /\ slot_handle s = h /\ life_of s = x.

(** The catalog [c] in the specification state [s]. *)
Record spec_ok (s : resource_spec) (c : yvex_engine_resource_catalog) : Prop := mk_spec_ok {
  ok_catalog : catalog_ok c;
  ok_represents : represents (spec_live s) (cat_slots c);
  ok_used : forall h, h ∈ spec_used s ->
    h_engine_generation h = tally engine_generation c /\ h_generation h <= cat_next_generation c;
  ok_registrations : Z.of_nat (size (spec_used s)) = cat_next_generation c
}.

(** The parts of a catalog that an operation on one slot leaves alone. *)
Definition framed (c c' : yvex_engine_resource_catalog) : Prop :=
  cat_mutex_ready c' = cat_mutex_ready c /\ tally capacity c' = tally capacity c
  /\ tally engine_generation c' = tally engine_generation c
  /\ cat_next_generation c' = cat_next_generation c.

Definition accounts_kept (c c' : yvex_engine_resource_catalog) : Prop :=
  tally resource_count c' = tally resource_count c
  /\ rs_count_by_kind (cat_summary c') = rs_count_by_kind (cat_summary c)
  /\ rs_bytes (cat_summary c') = rs_bytes (cat_summary c).

Lemma sums_update c c' i s s' :
  sums_ok c -> live_at (cat_slots c) i s -> same_resource s s' ->
  cat_slots c' = zset (cat_slots c) i s' -> accounts_kept c c' ->
  (forall st k, (st, k) ∈ [(YVEX_ENGINE_RESOURCE_READY, ready_count);
                           (YVEX_ENGINE_RESOURCE_FAILED, failed_count)] ->
   tally k c' = tally k c + (Z.b2z (in_state st s') - Z.b2z (in_state st s))) ->
  sums_ok c'.
Proof.
  intros Hc [Hi Hu] (Su & _ & _ & Sk & Sb) El (A1 & A2 & A3) Hst.
  apply (sums_zset c c' i s s'); try done; unfold in_use_sum, slot_bytes, of_kind;
    rewrite ?Su, ?Hu, ?Sk, ?Sb, ?A1, ?A2, ?A3; try apply Hc; try lia.
  - apply Hst. set_solver.
  - apply Hst. set_solver.
  - intros k Hk. rewrite (ok_by_kind _ Hc k Hk). cbn. f_equal. lia.
Qed.

Lemma represents_update debt c m i s s' :
  catalog_ok_at debt c -> represents m (cat_slots c) -> live_at (cat_slots c) i s ->
  same_resource s s' ->
  represents (<[slot_handle s := life_of s']> m) (zset (cat_slots c) i s').
Proof.
  intros Hc Hm Hs Hsame h x. pose proof Hs as [Hi Hu]. pose proof Hsame as (Su & Sh & _).
  rewrite lookup_insert_Some, (Hm h x). split.
  - intros [[<- <-]|(Hne & j & t & Ht & <- & <-)].
    + exists i, s'. split; [|done]. apply (live_at_zset _ _ _ _ _ _ Hi). left. by rewrite Su.
    + exists j, t. split; [|done]. apply (live_at_zset _ _ _ _ _ _ Hi). right. split; [|done].
      intros ->. destruct Ht. congruence.
  - intros (j & t & [(-> & -> & _)|[Hj Ht]]%(live_at_zset _ _ _ _ _ _ Hi) & <- & <-).
    + left. by rewrite Sh.
    + right. split; [|by exists j, t]. intros E. apply Hj.
      by destruct (live_handle_unique _ _ _ _ _ _ Hc Hs Ht E).
Qed.

Lemma represents_delete debt engine next l m i s :
  slots_ok debt engine next l -> represents m l -> live_at l i s ->
  represents (delete (slot_handle s) m) (zset l i slot_zero).
Proof.
  intros Hl Hm Hs h x. pose proof Hs as [Hi Hu]. rewrite lookup_delete_Some, (Hm h x). split.
  - intros (Hne & j & t & Ht & <- & <-). exists j, t. split; [|done].
    apply (live_at_zset _ _ _ _ _ _ Hi). right. split; [|done]. intros ->. destruct Ht. congruence.
  - intros (j & t & [(_ & _ & ?)|[Hj Ht]]%(live_at_zset _ _ _ _ _ _ Hi) & <- & <-); [done|].
    split; [|by exists j, t]. intros E. apply Hj.
    apply (ok_distinct _ _ _ _ Hl j i t s Ht Hs). by rewrite E.
Qed.

Lemma represents_insert m l i n :
  represents m l -> zget l i = Some slot_zero -> slot_in_use n = true ->
  (forall k t, live_at l k t -> slot_handle t <> slot_handle n) ->
  represents (<[slot_handle n := life_of n]> m) (zset l i n).
Proof.
  intros Hm Hi Hu Hnew h x. rewrite lookup_insert_Some, (Hm h x). split.
  - intros [[<- <-]|(Hne & j & t & Ht & <- & <-)].
    + exists i, n. split; [|done]. apply (live_at_zset _ _ _ _ _ _ Hi). by left.
    + exists j, t. split; [|done]. by apply occupy_live.
  - intros (j & t & [(-> & -> & _)|[Hj Ht]]%(live_at_zset _ _ _ _ _ _ Hi) & <- & <-); [by left|].
    right. split; [|by exists j, t]. intros E. by apply (Hnew j t).
Qed.

(** What every in-place operation does: a guarded update of the specification. *)
Lemma update_refines sp c c' i s s' guard f :
  spec_ok sp c -> live_at (cat_slots c) i s -> same_resource s s' -> framed c c' ->
  cat_slots c' = zset (cat_slots c) i s' -> accounts_kept c c' ->
  is_u64 (re_consumer_count (slot_summary s')) ->
  re_dependent_count (slot_summary s') = re_dependent_count (slot_summary s) ->
  (slot_state s' <> YVEX_ENGINE_RESOURCE_READY ->
   re_consumer_count (slot_summary s') = 0 /\ re_dependent_count (slot_summary s') = 0) ->
  (forall st k, (st, k) ∈ [(YVEX_ENGINE_RESOURCE_READY, ready_count);
                           (YVEX_ENGINE_RESOURCE_FAILED, failed_count)] ->
   tally k c' = tally k c + (Z.b2z (in_state st s') - Z.b2z (in_state st s))) ->
  guard (life_of s) = true -> f (life_of s) = Some (life_of s') ->
  exists sp', spec_update sp (slot_handle s) guard f = Some sp' /\ spec_ok sp' c'.
Proof.
  intros [Hc Hm Hused Hcount] Hs Hsame (F1 & F2 & F3 & F4) El Hacc Hcons Hdep Hidle Hst Hg Hf.
  eexists. split.
  { unfold spec_update. rewrite (proj2 (Hm (slot_handle s) (life_of s))) by eauto. cbn.
    by rewrite Hg, Hf. }
  split; cbn [spec_live spec_used].
  - split; rewrite ?El, ?F1, ?F2, ?F3, ?F4; try apply Hc; [rewrite zlen_zset; apply Hc| |].
    + apply (slots_update _ _ _ _ _ _ _ _ (ok_array _ _ Hc) Hs Hsame); done || lia.
    + by apply (sums_update c c' i s s'); [apply Hc|..].
  - rewrite El. by apply (represents_update (fun _ => 0)).
  - by rewrite F3, F4.
  - by rewrite F4.
Qed.

(** ** Byte accounting *)

Ltac each_field H :=
  unfold byte_fields in H; rewrite !elem_of_cons, elem_of_nil in H;
  destruct H as [->|[->|[->|[->|[->|[->|[->|[]]]]]]]].

Lemma resource_bytes_subtract_field f a b :
  f ∈ byte_fields -> f (resource_bytes_subtract a b) = u64 (f a - f b).
Proof. intros Hf. by each_field Hf. Qed.

Lemma resource_bytes_add_field a b r :
  bytes_ok a -> bytes_ok b -> resource_bytes_add a b = Some r ->
  bytes_ok r /\ forall f, f ∈ byte_fields -> f r = f a + f b.
Proof.
  intros Ha Hb E.
  assert (H : forall f, f ∈ byte_fields -> is_u64 (f r) /\ f r = f a + f b).
  { intros f Hf. pose proof (bytes_field f a Hf Ha). pose proof (bytes_field f b Hf Hb).
    assert (Hadd : yvex_core_u64_add (f a) (f b) = Some (f r)).
    { unfold resource_bytes_add in E. repeat (apply bind_Some in E as (? & ? & E)).
      simplify_eq. by each_field Hf. }
    apply u64_add_Some in Hadd; [|done..]. naive_solver. }
  split; [|intros f Hf; by apply H]. unfold bytes_ok. rewrite Forall_forall.
  intros f Hf. by apply H.
Qed.

Lemma bytes_zero_ok : bytes_ok resource_bytes_zero.
Proof. unfold bytes_ok, byte_fields. by repeat constructor. Qed.

(** ** Operations refine the specification *)

(** [r] does not fault, and when it returns a catalog it refines [events]. *)
Definition refines {A} (sp : resource_spec) (r : outcome A) (events : A -> list resource_event)
    (catalog : A -> yvex_engine_resource_catalog) : Prop :=
  match r with
  | Done a => exists sp', resource_spec_run sp (events a) = Some sp' /\ spec_ok sp' (catalog a)
  | Refuse _ _ => True
  | Fault _ => False
  end.

Lemma spec_run_single sp e c :
  (exists sp', resource_spec_step sp e = Some sp' /\ spec_ok sp' c) ->
  exists sp', resource_spec_run sp [e] = Some sp' /\ spec_ok sp' c.
Proof. intros (sp' & E & H). exists sp'. cbn. by rewrite E. Qed.

Lemma spec_run_app sp l k : resource_spec_run sp (l ++ k) = (resource_spec_run sp l ≫= fun sp => resource_spec_run sp k).
Proof. revert sp. induction l as [|e l IH]; intros sp; cbn; [done|]. destruct (resource_spec_step sp e); cbn; auto. Qed.

(** The live slot an admitted operation works on. *)
Lemma admitted_slot_cases c h test reason :
  catalog_ok c -> handle_ok h ->
  (exists i s, live_at (cat_slots c) i s /\ slot_handle s = h /\ test (slot_summary s) = true
               /\ admitted_slot c h test reason = Done (i, s))
  \/ admitted_slot c h test reason = Refuse YVEX_ERR_STATE reason.
Proof.
  intros Hc Hh. unfold admitted_slot.
  destruct (resource_slot_locked_cases _ _ h Hc Hh) as [(i & s & Hs & Eh & ->)|[_ ->]]; [|by right].
  cbn. rewrite (read_at_eq _ _ _ (proj1 Hs)). cbn.
  destruct (test (slot_summary s)) eqn:Et; [left; by exists i, s|by right].
Qed.

(** Equalities between constructors. *)
Ltac decided :=
  repeat match goal with
  | |- context [bool_decide (?a = ?b)] =>
      first [rewrite (bool_decide_eq_true_2 (a = b)) by done
            |rewrite (bool_decide_eq_false_2 (a = b)) by done]
  end.

Ltac state_counts :=
  let st := fresh "st" in let k := fresh "k" in let H := fresh "H" in
  intros st k H; apply list_elem_of_In in H; cbn in H; destruct H as [H|[H|[]]];
  injection H as <- <-; unfold leave_state; tallies.

Section Operations.
Context (sp : resource_spec) (c : yvex_engine_resource_catalog) (h : yvex_engine_resource_handle).
Hypothesis (Hsp : spec_ok sp c) (Hh : handle_ok h).

Lemma total_bound p : 0 <= zsum (in_use_sum p) (cat_slots c) <= RESOURCE_CAPACITY_MAX.
Proof using Hsp.
  pose proof (in_use_total_range p (cat_slots c)). pose proof (ok_capacity _ _ (ok_catalog _ _ Hsp)).
  pose proof (ok_capacity_bound _ _ (ok_catalog _ _ Hsp)). lia.
Qed.

Lemma state_tallies :
  0 <= tally ready_count c <= RESOURCE_CAPACITY_MAX
  /\ 0 <= tally failed_count c <= RESOURCE_CAPACITY_MAX.
Proof using Hsp.
  rewrite (ok_ready_count _ (ok_sums _ _ (ok_catalog _ _ Hsp))).
  rewrite (ok_failed_count _ (ok_sums _ _ (ok_catalog _ _ Hsp))). split; apply total_bound.
Qed.

Lemma state_tally_live i s :
  live_at (cat_slots c) i s ->
  (slot_state s = YVEX_ENGINE_RESOURCE_READY -> 0 < tally ready_count c)
  /\ (slot_state s = YVEX_ENGINE_RESOURCE_FAILED -> 0 < tally failed_count c).
Proof using Hsp.
  intros Hs. rewrite (ok_ready_count _ (ok_sums _ _ (ok_catalog _ _ Hsp))).
  rewrite (ok_failed_count _ (ok_sums _ _ (ok_catalog _ _ Hsp))).
  split; intros E; (eapply in_use_total_pos; [exact Hs|]); unfold in_state; rewrite E; by decided.
Qed.

Lemma acquire_refines locks :
  refines sp (yvex_runtime_resource_acquire locks c h) (fun r => [Acquired h r.2]) fst.
Proof using Hsp Hh.
  unfold yvex_runtime_resource_acquire. destruct (negb _ || _); [done|]. cbn.
  edestruct admitted_slot_cases as [(i & s & Hs & <- & Ht & ->)| ->];
    [apply Hsp|done| |done]. cbv beta in Ht. bool_hyps. cbn [mbind outcome_bind].
  rewrite (write_slot_eq _ _ _ _ (proj1 Hs)). cbn [mbind outcome_bind refines fst snd id].
  pose proof (ok_slots _ _ _ _ (ok_array _ _ (ok_catalog _ _ Hsp)) _ _ Hs) as [_ _ _ _ K5 _ _ _].
  assert (Hst : slot_state s = YVEX_ENGINE_RESOURCE_READY)
    by (unfold slot_state; by eapply bool_decide_eq_true_1).
  apply spec_run_single. cbn [resource_spec_step].
  eapply (update_refines sp c); [exact Hsp|exact Hs| | |reflexivity|..]; try done.
  - cbn. apply u64_range.
  - state_counts; unfold in_state, slot_state;
      cbn [set_consumers with_entry slot_summary entry_counts re_state]; lia.
  - cbn. by rewrite Hst, Z.eqb_refl.
  - unfold life_of. cbn. unfold life_with. cbn. rewrite u64_id; [done|].
    unfold is_u64, ULLONG_MAX, UINT64_MAX in *. lia.
Qed.

Lemma drop_refines locks :
  refines sp (yvex_runtime_resource_drop locks c h) (fun _ => [Dropped h]) id.
Proof using Hsp Hh.
  unfold yvex_runtime_resource_drop. destruct (negb _ || _); [done|]. cbn.
  edestruct admitted_slot_cases as [(i & s & Hs & <- & Ht & ->)| ->];
    [apply Hsp|done| |done]. cbv beta in Ht. bool_hyps. cbn [mbind outcome_bind].
  rewrite (write_slot_eq _ _ _ _ (proj1 Hs)). cbn [mbind outcome_bind refines fst snd id].
  pose proof (ok_slots _ _ _ _ (ok_array _ _ (ok_catalog _ _ Hsp)) _ _ Hs) as [_ _ _ _ K5 _ K7 _].
  unfold is_u64 in K5.
  apply spec_run_single. cbn [resource_spec_step].
  eapply (update_refines sp c); [exact Hsp|exact Hs| | |reflexivity|..]; try done.
  - cbn. apply u64_range.
  - unfold slot_state. cbn. intros Hst. destruct (K7 Hst). lia.
  - state_counts; unfold in_state, slot_state;
      cbn [set_consumers with_entry slot_summary entry_counts re_state]; lia.
  - cbn. lia.
  - unfold life_of, life_with. cbn. by rewrite u64_id by (unfold is_u64; lia).
Qed.

Lemma publish_refines locks :
  refines sp (yvex_runtime_resource_publish_ready locks c h) (fun _ => [Published h]) id.
Proof using Hsp Hh.
  unfold yvex_runtime_resource_publish_ready. destruct (negb _ || _); [done|]. cbn.
  edestruct admitted_slot_cases as [(i & s & Hs & <- & Ht & ->)| ->];
    [apply Hsp|done| |done]. cbv beta in Ht. bool_hyps. cbn [mbind outcome_bind].
  rewrite (write_slot_eq _ _ _ _ (proj1 Hs)). cbn [mbind outcome_bind refines fst snd id].
  pose proof (ok_slots _ _ _ _ (ok_array _ _ (ok_catalog _ _ Hsp)) _ _ Hs) as [_ _ _ _ K5 _ _ _].
  assert (Hst : slot_state s = YVEX_ENGINE_RESOURCE_DECLARED)
    by (unfold slot_state; by eapply bool_decide_eq_true_1).
  destruct state_tallies as (Hr & _).
  apply spec_run_single. cbn [resource_spec_step].
  eapply (update_refines sp c); [exact Hsp|exact Hs| | |reflexivity|..]; try done.
  - state_counts; unfold in_state; rewrite Hst; cbn; decided; cbn; [|lia].
    rewrite u64_id; [lia|]. unfold is_u64, RESOURCE_CAPACITY_MAX in *. lia.
Qed.

Lemma no_dependents_of h' :
  zsum (in_use_sum (depends_on h')) (cat_slots c) = 0 ->
  map_Forall (fun _ l => life_dependency l <> h') (spec_live sp).
Proof using Hsp.
  intros H k l (i & s & Hs & _ & <-)%(ok_represents _ _ Hsp).
  pose proof (in_use_total_zero _ _ _ _ H Hs) as E. by apply bool_decide_eq_false_1 in E.
Qed.

Lemma release_begin_refines locks evict :
  refines sp (release_begin locks c h evict) (fun _ => [ReleaseBegan h]) fst.
Proof using Hsp Hh.
  unfold release_begin. destruct (negb _ || _ || _); [done|]. cbn [refuse_if mbind outcome_bind].
  pose proof (ok_catalog _ _ Hsp) as Hc.
  destruct (resource_slot_locked_cases _ _ h Hc Hh) as [(i & s & Hs & <- & ->)|[_ ->]]; [|done].
  cbn [mbind outcome_bind]. rewrite (read_at_eq _ _ _ (proj1 Hs)). cbn [mbind outcome_bind].
  destruct (_ || _ || _ || _) eqn:Hg; [done|]. bool_hyps.
  pose proof (ok_slots _ _ _ _ (ok_array _ _ Hc) _ _ Hs) as [_ _ _ _ _ K6 _ _].
  assert (Hz : re_dependent_count (slot_summary s) = 0) by lia.
  assert (Hk : re_consumer_count (slot_summary s) = 0) by lia.
  destruct state_tallies as [Tr Tf], (state_tally_live _ _ Hs) as [Lr Lf].
  unfold RESOURCE_CAPACITY_MAX in *.
  assert (Hst : slot_state s <> YVEX_ENGINE_RESOURCE_RELEASING)
    by (unfold slot_state; by eapply bool_decide_eq_false_1).
  rewrite (write_slot_eq _ _ s) by (destruct (re_state _); apply Hs).
  cbn [mbind outcome_bind refines fst]. apply spec_run_single. cbn [resource_spec_step].
  unfold leave_state. change (re_state (slot_summary s)) with (slot_state s).
  eapply (update_refines sp c _ i s (set_slot_state YVEX_ENGINE_RESOURCE_RELEASING s));
    [exact Hsp|exact Hs|done|by destruct (slot_state s)|by destruct (slot_state s)
    |by destruct (slot_state s)|cbn; by rewrite Hk|done|done|..].
  - state_counts; unfold in_state; destruct (slot_state s) eqn:Es; try done; cbn; tallies; decided; cbn;
      unfold tally in *; try lia; (rewrite u64_id; [lia|]); unfold is_u64;
      try specialize (Lr eq_refl); try specialize (Lf eq_refl); lia.
  - cbn. rewrite Hk, bool_decide_eq_false_2 by done. cbn.
    rewrite bool_decide_eq_true_2; [done|]. apply no_dependents_of. lia.
  - cbn. unfold life_with, life_of. cbn. by rewrite Hk.
Qed.

(** ** Removal *)

(** A resource leaves the dependents of its dependency. *)
Lemma dependency_drop_ok i s :
  live_at (cat_slots c) i s -> re_dependent_count (slot_summary s) = 0 ->
  exists l1 debt, resource_dependency_drop_locked c (slot_summary s) = Done (set_slots l1 c)
    /\ slots_ok debt (tally engine_generation c) (cat_next_generation c) l1
    /\ (forall k t, live_at l1 k t ->
         debt (slot_handle t) = owing (re_dependency (slot_summary s)) (slot_handle t))
    /\ live_at l1 i s /\ zlen l1 = zlen (cat_slots c)
    /\ sums_ok (set_slots l1 c) /\ represents (spec_live sp) l1.
Proof using Hsp.
  intros Hs Hz. pose proof (ok_catalog _ _ Hsp) as Hc. pose proof (ok_array _ _ Hc) as Ha.
  unfold resource_dependency_drop_locked.
  destruct (handle_present (re_dependency (slot_summary s))) eqn:Hp; cbn [negb].
  2: { exists (cat_slots c), (fun _ => 0). split; [by destruct c|]. split; [done|].
       split; [|by destruct c; split_and!; [..|apply Hc|apply Hsp]].
       intros k t Ht. unfold owing. rewrite decide_False; [done|]. intros E.
       rewrite <- E, (live_handle_present _ _ _ _ Hc Ht) in Hp. done. }
  destruct (ok_slots _ _ _ _ Ha _ _ Hs) as [_ _ _ _ _ _ _ K8].
  destruct (K8 Hp) as (j & d & Hd & Ed & Hlt). rewrite <- Ed.
  rewrite (resource_slot_locked_live _ _ _ _ Hc Hd). cbn [mbind outcome_bind].
  rewrite (read_at_eq _ _ _ (proj1 Hd)). cbn [mbind outcome_bind].
  destruct (ok_slots _ _ _ _ Ha _ _ Hd) as [_ _ _ _ D5 D6 D7 _].
  assert (Hpos : 0 < re_dependent_count (slot_summary d)).
  { assert (0 < zsum (in_use_sum (depends_on (slot_handle d))) (cat_slots c)); [|lia].
    apply (in_use_total_pos _ _ _ _ Hs). unfold depends_on. by rewrite bool_decide_eq_true_2. }
  pose proof (total_bound (depends_on (slot_handle d))) as Hb. unfold RESOURCE_CAPACITY_MAX in Hb.
  replace (_ =? 0) with false by lia. rewrite (write_slot_eq _ _ _ _ (proj1 Hd)).
  rewrite u64_id by (unfold is_u64; lia).
  set (d' := set_dependents _ d). assert (Hsame : same_resource d d') by done.
  assert (Hji : j <> i).
  { intros ->. assert (E : d = s) by (destruct Hd, Hs; congruence). rewrite E in Hlt. lia. }
  exists (zset (cat_slots c) j d'), (owing (slot_handle d)). split; [done|].
  split; [|split; [done|split; [|split; [apply zlen_zset|split]]]].
  - apply (slots_update _ _ _ _ _ _ _ _ Ha Hd Hsame); [done|..].
    + cbn. unfold owing. rewrite decide_True by done. lia.
    + intros h' Hne. unfold owing. by rewrite decide_False.
    + intros Hst. destruct (D7 Hst). lia.
  - apply (live_at_zset _ _ _ _ _ _ (proj1 Hd)). by right.
  - apply (sums_update c _ j d d'); try done; [apply Hc|]. state_counts; unfold in_state;
      change (slot_state d') with (slot_state d); lia.
  - replace (spec_live sp) with (<[slot_handle d := life_of d']> (spec_live sp)).
    { by apply (represents_update (fun _ => 0)); [|apply Hsp|..]. }
    apply insert_id. apply Hsp. by exists j, d.
Qed.

(** The counters of a catalog whose slot [i] was vacated by [resource_remove_locked]. *)
Lemma remove_sums c1 c2 i s n :
  sums_ok c1 -> live_at (cat_slots c1) i s -> zlen (cat_slots c1) <= RESOURCE_CAPACITY_MAX ->
  slot_state s = YVEX_ENGINE_RESOURCE_RELEASING ->
  0 <= re_kind (slot_summary s) < YVEX_ENGINE_RESOURCE_KIND_COUNT ->
  zget (rs_count_by_kind (cat_summary c1)) (re_kind (slot_summary s)) = Some n ->
  cat_slots c2 = zset (cat_slots c1) i slot_zero ->
  tally resource_count c2 = u64 (tally resource_count c1 + -1) ->
  tally ready_count c2 = tally ready_count c1 -> tally failed_count c2 = tally failed_count c1 ->
  rs_count_by_kind (cat_summary c2)
  = zset (rs_count_by_kind (cat_summary c1)) (re_kind (slot_summary s)) (u64 (n - 1)) ->
  rs_bytes (cat_summary c2)
  = resource_bytes_subtract (rs_bytes (cat_summary c1)) (re_bytes (slot_summary s)) ->
  (forall k t, live_at (cat_slots c1) k t -> bytes_ok (re_bytes (slot_summary t))) ->
  sums_ok c2.
Proof using.
  intros H1 Hs Hcap Hst Hkind Hn El Cr Cready Cfailed Ck Cb Hb. pose proof Hs as [Hi Hu].
  pose proof (in_use_total_range (fun _ => true) (cat_slots c1)) as R1.
  pose proof (in_use_total_range (of_kind (re_kind (slot_summary s))) (cat_slots c1)) as R2.
  pose proof (in_use_total_pos (fun _ => true) _ _ _ Hs eq_refl) as P1.
  pose proof (in_use_total_pos (of_kind (re_kind (slot_summary s))) _ _ _ Hs (Z.eqb_refl _)) as P2.
  unfold RESOURCE_CAPACITY_MAX in *. destruct H1 as [S1 S2 S3 S4 S5 S6].
  assert (Hfield : forall f, f ∈ byte_fields ->
            f (rs_bytes (cat_summary c2))
            = f (rs_bytes (cat_summary c1)) - f (re_bytes (slot_summary s))
            /\ is_u64 (f (rs_bytes (cat_summary c2)))).
  { intros f Hf. rewrite Cb, resource_bytes_subtract_field by done.
    assert (Hle : slot_bytes f s <= zsum (slot_bytes f) (cat_slots c1)).
    { apply (zsum_le_zset _ _ i); [|done]. intros t [k Ht]%elem_of_zget. unfold slot_bytes.
      destruct (slot_in_use t) eqn:Htu; [|done]. by apply bytes_field, (Hb k). }
    rewrite <- S6 in Hle by done. unfold slot_bytes in Hle. rewrite Hu in Hle.
    pose proof (bytes_field f _ Hf S5) as B1. pose proof (bytes_field f _ Hf (Hb i s Hs)) as B2.
    unfold is_u64 in *. rewrite u64_id by (unfold is_u64; lia). lia. }
  assert (Hnr : in_state YVEX_ENGINE_RESOURCE_READY s = false
                /\ in_state YVEX_ENGINE_RESOURCE_FAILED s = false)
    by (unfold in_state; rewrite Hst; by decided).
  apply (sums_zset c1 c2 i s slot_zero); [by split|done..| | | | | |];
    unfold in_use_sum; rewrite ?Hu, ?(proj1 Hnr), ?(proj2 Hnr), ?Cr, ?Ck;
    cbn [andb slot_zero slot_in_use Z.b2z]; try lia.
  - rewrite u64_id by (unfold is_u64; lia). lia.
  - intros k Hk. rewrite S4 in Hn by done. injection Hn as <-. destruct (of_kind k s) eqn:E; unfold of_kind in E.
    + apply Z.eqb_eq in E as <-. rewrite zget_zset_eq by (eapply zget_is_Some; by rewrite S4).
      rewrite S4 by done. cbn. rewrite u64_id by (unfold is_u64; lia). f_equal; lia.
    + rewrite zget_zset_ne by lia. rewrite S4 by done. cbn. f_equal; lia.
  - unfold bytes_ok. rewrite Forall_forall. intros f Hf. by apply Hfield.
  - intros f Hf. rewrite (proj1 (Hfield f Hf)). unfold slot_bytes. rewrite Hu. cbn. lia.
Qed.

Lemma remove_refines i s evicted :
  live_at (cat_slots c) i s -> slot_state s = YVEX_ENGINE_RESOURCE_RELEASING ->
  exists c', resource_remove_locked c i evicted = Done c'
    /\ spec_ok (mk_resource_spec (delete (slot_handle s) (spec_live sp)) (spec_used sp)) c'.
Proof using Hsp.
  intros Hs Hst. pose proof (ok_catalog _ _ Hsp) as Hc. pose proof (ok_array _ _ Hc) as Ha.
  destruct (ok_slots _ _ _ _ Ha _ _ Hs) as [_ _ K3 _ _ K6 K7 _].
  destruct K7 as [Hcons Hdeps]; [by rewrite Hst|].
  destruct (dependency_drop_ok i s Hs Hdeps) as (l1 & debt & E & Ha1 & Hdebt & Hs1 & Hlen & Hsums & Hrep).
  unfold resource_remove_locked. rewrite (read_at_eq _ _ _ (proj1 Hs)). cbn [mbind outcome_bind].
  rewrite E. cbn [mbind outcome_bind]. rewrite (read_at_eq _ _ s) by apply Hs1.
  cbn [mbind outcome_bind].
  destruct (ok_slots _ _ _ _ Ha1 _ _ Hs1) as [J1 J2 J3 J4 J5 J6 J7 J8].
  pose proof (ok_by_kind _ Hsums _ J3) as Hn. cbn [set_slots cat_slots cat_summary] in Hn.
  erewrite read_at_eq by exact Hn. cbn [mbind outcome_bind].
  erewrite write_at_eq by exact Hn. cbn [mbind outcome_bind].
  change (re_state (slot_summary s)) with (slot_state s). rewrite Hst. cbn [leave_state].
  erewrite write_slot_eq by apply Hs1. eexists. split; [reflexivity|].
  split; cbn [spec_live spec_used].
  - split; tallies; try apply Hc.
    + cbn [set_slots cat_slots]. rewrite zlen_zset. etrans; [apply Hlen|apply Hc].
    + apply (slots_remove debt _ _ l1 i s); try done.
      enough (debt (slot_handle s) = 0) by lia. rewrite (Hdebt i s Hs1).
      unfold owing. rewrite decide_False; [done|]. intros E'.
      destruct J8 as (j & d & Hd & Ed & Hlt).
      * rewrite <- E'. by apply (live_handle_present _ _ _ _ Hc Hs).
      * rewrite Ed, <- E' in Hlt. lia.
    + eapply (remove_sums (set_slots l1 c) _ i s _ Hsums Hs1);
        [|done|done|exact Hn|reflexivity|tallies; done..|reflexivity|reflexivity|].
      * cbn. rewrite Hlen, (ok_capacity _ _ Hc). apply Hc.
      * intros k t Ht. by destruct (ok_slots _ _ _ _ Ha1 k t Ht).
  - by apply (represents_delete debt (tally engine_generation c) (cat_next_generation c)).
  - apply Hsp.
  - apply Hsp.
Qed.

Lemma release_end_refines locks evict rc :
  life_state <$> spec_live sp !! h = Some YVEX_ENGINE_RESOURCE_RELEASING ->
  refines sp (release_end locks c h evict rc)
    (fun r => if bool_decide (r.2 = YVEX_OK) then [Released h] else [ReleaseFailed h]) fst.
Proof using Hsp Hh.
  intros (x & Hx & Hst)%fmap_Some_1. unfold release_end. destruct locks; [|done].
  cbn [negb refuse_if mbind outcome_bind]. pose proof (ok_catalog _ _ Hsp) as Hc.
  pose proof Hx as (i & s & Hs & Eh & <-)%(ok_represents _ _ Hsp). cbn in Hst.
  rewrite <- Eh, (resource_slot_locked_live _ _ _ _ Hc Hs). cbn [mbind outcome_bind].
  destruct (ok_slots _ _ _ _ (ok_array _ _ Hc) _ _ Hs) as [_ _ _ _ _ _ K7 _].
  destruct K7 as [Hcons Hdeps]; [by rewrite <- Hst|].
  case_bool_decide as Hrc.
  - destruct (remove_refines i s evict Hs (eq_sym Hst)) as (c' & -> & Hok).
    cbn [mbind outcome_bind refines fst snd]. rewrite bool_decide_eq_true_2 by done.
    apply spec_run_single. eexists. split; [|exact Hok]. cbn [resource_spec_step]. unfold spec_update.
    rewrite Eh, Hx. cbn. by rewrite <- Hst.
  - rewrite (read_at_eq _ _ _ (proj1 Hs)). cbn [mbind outcome_bind].
    rewrite (write_slot_eq _ _ _ _ (proj1 Hs)). cbn [mbind outcome_bind refines fst snd].
    rewrite bool_decide_eq_false_2 by done. apply spec_run_single. cbn [resource_spec_step].
    eapply (update_refines sp c); [exact Hsp|exact Hs| | |reflexivity|..]; try done.
    + cbn. by rewrite Hcons.
    + destruct state_tallies as [_ Tf]. unfold RESOURCE_CAPACITY_MAX in Tf.
      state_counts; unfold in_state; rewrite <- Hst; cbn; decided; cbn; unfold tally in *; [lia|].
      rewrite u64_id by (unfold is_u64; lia). lia.
    + cbn. by rewrite <- Hst.
Qed.

(** ** Registration *)

Lemma free_slot_scan :
  exists index, scan (Z.to_nat (tally capacity c))
    (fun index => slot ← read_at (cat_slots c) index; Done (negb (slot_in_use slot))) 0 = Done index
  /\ (index = tally capacity c
      \/ (index < tally capacity c /\ zget (cat_slots c) index = Some slot_zero)).
Proof using Hsp.
  pose proof (ok_catalog _ _ Hsp) as Hc. rewrite <- (ok_capacity _ _ Hc), to_nat_zlen.
  destruct (scan_spec (fun s => negb (slot_in_use s))
    (fun index => slot ← read_at (cat_slots c) index; Done (negb (slot_in_use slot)))
    [] (cat_slots c) []) as [[_ E]|(l1 & x & l2 & El & _ & Hx & E)].
  - intros i x. cbn [app]. rewrite app_nil_r. intros Hi _. by rewrite (read_at_eq _ _ _ Hi).
  - exists (zlen (cat_slots c)). split; [exact E|by left].
  - exists (zlen l1). split; [exact E|]. right. rewrite El. autorewrite with zlen.
    pose proof (zlen_nonneg l2). split; [lia|]. rewrite zget_middle. f_equal.
    apply (ok_free _ _ _ _ (ok_array _ _ Hc) (zlen l1)); [rewrite El; apply zget_middle|].
    by apply negb_true_iff.
Qed.

Lemma occupy_sums c2 i n k0 :
  zget (cat_slots c) i = Some slot_zero -> slot_in_use n = true ->
  slot_state n <> YVEX_ENGINE_RESOURCE_FAILED ->
  0 <= re_kind (slot_summary n) < YVEX_ENGINE_RESOURCE_KIND_COUNT ->
  zget (rs_count_by_kind (cat_summary c)) (re_kind (slot_summary n)) = Some k0 ->
  cat_slots c2 = zset (cat_slots c) i n ->
  tally resource_count c2 = u64 (tally resource_count c + 1) ->
  tally ready_count c2
  = u64 (tally ready_count c + Z.b2z (in_state YVEX_ENGINE_RESOURCE_READY n)) ->
  tally failed_count c2 = tally failed_count c ->
  rs_count_by_kind (cat_summary c2)
  = zset (rs_count_by_kind (cat_summary c)) (re_kind (slot_summary n)) (u64 (k0 + 1)) ->
  bytes_ok (rs_bytes (cat_summary c2)) ->
  (forall f, f ∈ byte_fields ->
   f (rs_bytes (cat_summary c2)) = f (rs_bytes (cat_summary c)) + f (re_bytes (slot_summary n))) ->
  sums_ok c2.
Proof using Hsp.
  intros Hi Hu Hst Hkind Hk0 El Cr Cready Cfailed Ck Cb Cf. pose proof (ok_catalog _ _ Hsp) as Hc.
  pose proof (total_bound (fun _ => true)) as R1. destruct state_tallies as [R2 _].
  pose proof (total_bound (of_kind (re_kind (slot_summary n)))) as R3.
  pose proof (ok_sums _ _ Hc) as [S1 S2 S3 S4 S5 S6]. unfold RESOURCE_CAPACITY_MAX in *.
  rewrite S4 in Hk0 by done. injection Hk0 as <-.
  assert (Hf : in_state YVEX_ENGINE_RESOURCE_FAILED n = false) by by apply bool_decide_eq_false_2.
  apply (sums_zset c c2 i slot_zero n); [by split|done..| | | | | |];
    unfold in_use_sum; rewrite ?Hu, ?Hf, ?Cr, ?Cready, ?Ck;
    cbn [andb slot_zero slot_in_use Z.b2z]; try done; try lia.
  - rewrite u64_id by (unfold is_u64; lia). lia.
  - destruct (in_state _ n); cbn; rewrite u64_id by (unfold is_u64; lia); lia.
  - intros k Hk. destruct (of_kind k n) eqn:E; unfold of_kind in E.
    + apply Z.eqb_eq in E as <-. rewrite zget_zset_eq by (eapply zget_is_Some; by rewrite S4).
      rewrite S4 by done. cbn. rewrite u64_id by (unfold is_u64; lia). f_equal; lia.
    + rewrite zget_zset_ne by lia. rewrite S4 by done. cbn. f_equal; lia.
  - intros f Hff. rewrite Cf by done. unfold slot_bytes. rewrite Hu. cbn. lia.
Qed.

Definition request_ok (r : yvex_engine_resource_request) : Prop :=
  handle_ok (req_dependency r) /\ bytes_ok (req_bytes r) /\ 0 <= req_kind r
  /\ is_u64 (req_preparation_nanoseconds r).

Lemma request_dependency_cases r :
  handle_ok (req_dependency r) ->
  match request_dependency c r with
  | Done None => handle_present (req_dependency r) = false
  | Done (Some j) => handle_present (req_dependency r) = true
      /\ exists d, live_at (cat_slots c) j d /\ slot_handle d = req_dependency r
           /\ slot_state d = YVEX_ENGINE_RESOURCE_READY
  | Refuse _ _ => True
  | Fault _ => False
  end.
Proof using Hsp.
  intros Hd. unfold request_dependency. destruct (handle_present (req_dependency r)); [|done].
  cbn [negb]. pose proof (ok_catalog _ _ Hsp) as Hc.
  destruct (resource_slot_locked_cases _ _ _ Hc Hd) as [(j & d & Hj & Ed & ->)|[_ ->]]; [|done].
  cbn [mbind outcome_bind]. rewrite (read_at_eq _ _ _ (proj1 Hj)). cbn [mbind outcome_bind].
  case_bool_decide as Hst; [|done]. cbn. eauto.
Qed.

Definition slots_registered (i : Z) (n : engine_resource_slot)
    (dependency : option (Z * engine_resource_slot)) : list engine_resource_slot :=
  match dependency with
  | None => zset (cat_slots c) i n
  | Some (j, d) => zset (zset (cat_slots c) i n) j
      (set_dependents (u64 (re_dependent_count (slot_summary d) + 1)) d)
  end.

(** The catalog after the new slot is written, and its dependency counts it. *)
Lemma register_catalog cF i n (dependency : option (Z * engine_resource_slot)) :
  zget (cat_slots c) i = Some slot_zero -> i < tally capacity c -> slot_in_use n = true ->
  slot_handle n = mk_handle (tally engine_generation c) (i + 1) (cat_next_generation c + 1) ->
  is_u64 (cat_next_generation c + 1) ->
  0 <= re_kind (slot_summary n) < YVEX_ENGINE_RESOURCE_KIND_COUNT ->
  bytes_ok (re_bytes (slot_summary n)) ->
  re_consumer_count (slot_summary n) = 0 -> re_dependent_count (slot_summary n) = 0 ->
  match dependency with
  | None => handle_present (re_dependency (slot_summary n)) = false
  | Some (j, d) => live_at (cat_slots c) j d /\ slot_handle d = re_dependency (slot_summary n)
      /\ slot_state d = YVEX_ENGINE_RESOURCE_READY
  end ->
  cat_mutex_ready cF = cat_mutex_ready c -> tally capacity cF = tally capacity c ->
  tally engine_generation cF = tally engine_generation c ->
  cat_next_generation cF = cat_next_generation c + 1 ->
  sums_ok (set_slots (zset (cat_slots c) i n) cF) ->
  cat_slots cF = slots_registered i n dependency ->
  catalog_ok cF /\ represents (<[slot_handle n := life_of n]> (spec_live sp)) (cat_slots cF).
Proof using Hsp.
  intros Hi Hcap Hu Hn Hnext Hk Hb Hcons Hdeps Hdep F1 F2 F3 F4 Hsums El.
  pose proof (ok_catalog _ _ Hsp) as Hc. pose proof (ok_array _ _ Hc) as Ha.
  pose proof (ok_next _ _ Hc) as Hnx. unfold is_u64 in Hnx, Hnext.
  assert (Ha1 : slots_ok (owing (re_dependency (slot_summary n))) (tally engine_generation c)
            (cat_next_generation c + 1) (zset (cat_slots c) i n)).
  { apply slots_insert; try done; [lia|]. intros Hp.
    destruct dependency as [[j d]|]; [naive_solver|congruence]. }
  assert (Hr1 : represents (<[slot_handle n := life_of n]> (spec_live sp)) (zset (cat_slots c) i n)).
  { apply represents_insert; try done; [apply Hsp|]. intros k t Ht.
    by apply (occupy_old _ _ _ _ _ Ha Hn k t). }
  assert (Hc1 : catalog_ok_at (owing (re_dependency (slot_summary n)))
                  (set_slots (zset (cat_slots c) i n) cF)).
  { split; rewrite ?tally_set_slots; cbn [set_slots cat_mutex_ready cat_next_generation cat_slots];
      rewrite ?F1, ?F2, ?F3, ?F4, ?zlen_zset; done || apply Hc. }
  destruct dependency as [[j d]|].
  - destruct Hdep as (Hd & Ed & Hst). cbn [slots_registered] in El.
    set (d' := set_dependents _ d) in El.
    assert (Hsame : same_resource d d') by done.
    pose proof (occupy_live _ _ n Hi _ _ Hd) as Hd1.
    destruct (ok_slots _ _ _ _ Ha _ _ Hd) as [_ _ _ _ D5 D6 _ _].
    pose proof (total_bound (depends_on (slot_handle d))) as R. unfold RESOURCE_CAPACITY_MAX in R.
    split.
    + split; try apply Hc1; rewrite ?El, ?zlen_zset.
      * rewrite F2. apply Hc.
      * rewrite F3, F4. apply (slots_update _ _ _ _ _ _ _ _ Ha1 Hd1 Hsame); [done|..].
        -- cbn. unfold owing. rewrite decide_True, u64_id by (done || unfold is_u64; lia). lia.
        -- intros h' Hne. unfold owing. rewrite decide_False; congruence.
        -- intros []. exact Hst.
      * apply (sums_update _ cF j d d' Hsums Hd1 Hsame El); [done|]. state_counts; unfold in_state;
          change (slot_state d') with (slot_state d); lia.
    + rewrite El. set (m := <[_ := _]> (spec_live sp)) in *.
      replace m with (<[slot_handle d := life_of d']> m).
      * apply (represents_update _ _ _ _ _ _ Hc1 Hr1 Hd1 Hsame).
      * apply insert_id. apply Hr1. by exists j, d.
  - assert (E : set_slots (zset (cat_slots c) i n) cF = cF) by (cbn in El; rewrite <- El; by destruct cF).
    cbn in El.
    rewrite E in Hc1. split; [|by rewrite El]. destruct Hc1 as [C1 C2 C3 C4 C5 C6 C7].
    split; try done. eapply slots_debt; [exact C6|]. intros k t Ht. unfold owing.
    rewrite decide_False; [done|]. intros E'.
    rewrite El in Ht. destruct (ok_slots _ _ _ _ Ha1 _ _ Ht) as [_ G _ _ _ _ _ _].
    rewrite <- E' in Hdep. unfold handle_present in Hdep. lia.
Qed.

(** The specification accepts the registration under a new handle. *)
Lemma register_spec cF r n :
  slot_handle n = mk_handle (tally engine_generation c) (h_slot (slot_handle n))
                    (cat_next_generation c + 1) ->
  tally engine_generation cF = tally engine_generation c ->
  cat_next_generation cF = cat_next_generation c + 1 ->
  life_of n = mk_life (if req_ready r then YVEX_ENGINE_RESOURCE_READY
                       else YVEX_ENGINE_RESOURCE_DECLARED) (req_value r) (req_dependency r) 0 ->
  (handle_present (req_dependency r) = true ->
   exists j d, live_at (cat_slots c) j d /\ slot_handle d = req_dependency r
     /\ slot_state d = YVEX_ENGINE_RESOURCE_READY) ->
  catalog_ok cF /\ represents (<[slot_handle n := life_of n]> (spec_live sp)) (cat_slots cF) ->
  exists sp', resource_spec_step sp (Registered (slot_handle n) (req_dependency r) (req_value r) (req_ready r))
              = Some sp' /\ spec_ok sp' cF.
Proof using Hsp.
  intros Hn F1 F2 Hlife Hdep [Hok Hrep]. cbn [resource_spec_step].
  assert (Hnew : slot_handle n ∉ spec_used sp).
  { intros [_ Hle]%(ok_used _ _ Hsp). rewrite Hn in Hle. cbn in Hle. lia. }
  rewrite bool_decide_eq_false_2 by done.
  replace (_ && _) with false.
  2: { destruct (handle_present (req_dependency r)); [|done]. cbn.
       destruct (Hdep eq_refl) as (j & d & Hd & Ed & Hst).
       rewrite (proj2 (ok_represents _ _ Hsp (req_dependency r) (life_of d))) by eauto.
       cbn. rewrite Hst. by decided. }
  eexists. split; [reflexivity|]. rewrite <- Hlife. split; [done|done|..]; cbn [spec_used].
  - intros h' [->%elem_of_singleton|Hin]%elem_of_union; [rewrite Hn, F1, F2; cbn; lia|].
    destruct (ok_used _ _ Hsp h' Hin). lia.
  - rewrite size_union, size_singleton by by apply disjoint_singleton_l.
    pose proof (ok_registrations _ _ Hsp). lia.
Qed.

Lemma register_account_eq c1 r totals preparation n :
  rs_count_by_kind (cat_summary c1) = rs_count_by_kind (cat_summary c) ->
  zget (rs_count_by_kind (cat_summary c)) (req_kind r) = Some n ->
  exists cF, register_account c1 r totals preparation = Done cF
    /\ cat_slots cF = cat_slots c1 /\ cat_mutex_ready cF = cat_mutex_ready c1
    /\ cat_next_generation cF = cat_next_generation c1
    /\ tally capacity cF = tally capacity c1
    /\ tally engine_generation cF = tally engine_generation c1
    /\ tally resource_count cF = u64 (tally resource_count c1 + 1)
    /\ tally ready_count cF = u64 (tally ready_count c1 + Z.b2z (req_ready r))
    /\ tally failed_count cF = tally failed_count c1
    /\ rs_count_by_kind (cat_summary cF)
       = zset (rs_count_by_kind (cat_summary c)) (req_kind r) (u64 (n + 1))
    /\ rs_bytes (cat_summary cF) = totals.
Proof using.
  intros Ek Hn. unfold register_account. cbn zeta.
  rewrite (read_at_eq _ _ n) by (etrans; [|exact Hn]; f_equal; exact Ek). cbn [mbind outcome_bind].
  rewrite (write_at_eq _ _ n) by (etrans; [|exact Hn]; f_equal; exact Ek). cbn [mbind outcome_bind].
  eexists. split; [reflexivity|]. tallies. split_and!; try done. cbn. by rewrite <- Ek.
Qed.

Lemma count_dependent_eq r dep i n c1 :
  handle_ok (req_dependency r) -> request_dependency c r = Done dep ->
  zget (cat_slots c) i = Some slot_zero -> cat_slots c1 = zset (cat_slots c) i n ->
  exists dependency, count_dependent c1 dep = Done (set_slots (slots_registered i n dependency) c1)
    /\ match dependency with
       | None => handle_present (req_dependency r) = false
       | Some (j, d) => live_at (cat_slots c) j d /\ slot_handle d = req_dependency r
           /\ slot_state d = YVEX_ENGINE_RESOURCE_READY
       end.
Proof using Hsp.
  intros Hr E Hi El. pose proof (request_dependency_cases r Hr) as Hdep. rewrite E in Hdep.
  destruct dep as [j|]; [|exists None; split; [cbn; rewrite <- El; by destruct c1|done]].
  destruct Hdep as (_ & d & Hj & Hd). exists (Some (j, d)). split; [|done].
  pose proof (occupy_live _ _ n Hi _ _ Hj) as Hj'. rewrite <- El in Hj'. cbn [count_dependent].
  rewrite (read_at_eq _ _ _ (proj1 Hj')). cbn [mbind outcome_bind].
  rewrite (write_slot_eq _ _ _ _ (proj1 Hj')). by rewrite El.
Qed.

Lemma register_refines locks r :
  request_ok r -> cat_next_generation c < ULLONG_MAX ->
  refines sp (yvex_runtime_resource_register locks c r)
    (fun a => [Registered a.2 (req_dependency r) (req_value r) (req_ready r)]) fst.
Proof using Hsp.
  intros (Rd & Rb & Rk & Rp) Hnext. pose proof (ok_catalog _ _ Hsp) as Hc.
  pose proof (ok_next _ _ Hc) as Hnx. unfold is_u64, ULLONG_MAX, UINT64_MAX in Hnx, Hnext.
  unfold yvex_runtime_resource_register.
  destruct (negb (resource_request_valid r) || _ || _) eqn:Hv; [done|]. bool_hyps.
  cbn [refuse_if mbind outcome_bind]. destruct (rs_closing _); [done|].
  cbn [refuse_if mbind outcome_bind]. pose proof (request_dependency_cases r Rd) as Hdep.
  destruct (request_dependency c r) as [dep| |] eqn:Edep; [|done..]. cbn [mbind outcome_bind].
  destruct free_slot_scan as (i & -> & Hi). cbn [mbind outcome_bind].
  destruct (i =? tally capacity c) eqn:Ei; [done|]. cbn [refuse_if mbind outcome_bind].
  destruct Hi as [Hi|[Hlt Hi]]; [lia|].
  destruct (resource_bytes_add _ _) as [totals|] eqn:Eb; [|done].
  destruct (yvex_core_u64_add _ _) as [preparation|]; [|done].
  apply resource_bytes_add_field in Eb as [Bt Bf]; [|apply Hc|done].
  rewrite (u64_id (cat_next_generation c + 1)) by (unfold is_u64; lia).
  replace (cat_next_generation c + 1 =? 0) with false by lia.
  pose proof (zget_Some_range _ _ _ Hi) as Hr. pose proof (ok_capacity_bound _ _ Hc) as Hcb.
  unfold RESOURCE_CAPACITY_MAX in Hcb. rewrite (u64_id (i + 1)) by (unfold is_u64; lia).
  set (n := registered_slot r _).
  assert (Hkind : 0 <= req_kind r < YVEX_ENGINE_RESOURCE_KIND_COUNT).
  { unfold resource_request_valid in *. bool_hyps. lia. }
  rewrite (write_slot_eq _ _ slot_zero) by done. cbn [mbind outcome_bind].
  pose proof (ok_by_kind _ (ok_sums _ _ Hc) _ Hkind) as Hk0.
  set (c1 := set_slots (zset _ i n) _).
  destruct (count_dependent_eq r dep i n c1 Rd Edep Hi eq_refl) as (dependency & -> & Hd).
  cbn [mbind outcome_bind].
  destruct (register_account_eq (set_slots (slots_registered i n dependency) c1) r totals
              preparation _ eq_refl Hk0) as (cF & -> & G1 & G2 & G3 & G4 & G5 & G6 & G7 & G8 & G9 & G10).
  cbn [mbind outcome_bind refines fst snd].
  apply spec_run_single. apply (register_spec cF r n); try done.
  { intros Hp. destruct dependency as [[j d]|]; [naive_solver|congruence]. }
  apply (register_catalog cF i n dependency); try done; [unfold is_u64; lia|].
  eapply (occupy_sums _ i n _ Hi); [..|exact Hk0| | | | | | |]; try done.
  - cbn. by destruct (req_ready r).
  - rewrite tally_set_slots, G7. unfold in_state. cbn. destruct (req_ready r); by decided.
  - cbn. by rewrite G10.
  - intros f Hf. cbn. rewrite G10. by apply Bf.
Qed.

End Operations.

(** ** Capacity *)

Lemma live_at_extend l n k t : live_at (l ++ replicate n slot_zero) k t <-> live_at l k t.
Proof.
  unfold live_at. split; intros [Hk Hu].
  - destruct (decide (k < zlen l)) as [Hlt|Hge]; [by rewrite zget_app_l in Hk|].
    rewrite zget_app_r in Hk by lia. apply zget_elem_of, elem_of_replicate_inv in Hk as ->. done.
  - split; [by apply zget_app_Some|done].
Qed.

Lemma zsum_extend {A} (f : A -> Z) l n x : f x = 0 -> zsum f (l ++ replicate n x) = zsum f l.
Proof. intros H. rewrite zsum_app, zsum_replicate by done. lia. Qed.

Lemma slots_extend debt engine next l n :
  slots_ok debt engine next l -> slots_ok debt engine next (l ++ replicate n slot_zero).
Proof.
  intros [H1 H2 H3]. split.
  - intros k t Ht. rewrite live_at_extend in Ht. destruct (H1 k t Ht) as [? ? ? ? ? K6 ? K8]. split; try done.
    + by rewrite zsum_extend.
    + intros Hp. destruct (K8 Hp) as (j & d & Hd & ?). exists j, d. by rewrite live_at_extend.
  - intros k t Hk Hf. destruct (decide (k < zlen l)) as [Hlt|Hge].
    + rewrite zget_app_l in Hk by done. by apply (H2 k).
    + rewrite zget_app_r in Hk by lia. by apply zget_elem_of, elem_of_replicate_inv in Hk.
  - intros k1 k2 t1 t2. rewrite !live_at_extend. apply H3.
Qed.

Lemma sums_extend c c' n :
  sums_ok c -> cat_slots c' = cat_slots c ++ replicate n slot_zero ->
  (forall k, k ∈ [resource_count; ready_count; failed_count] -> tally k c' = tally k c) ->
  rs_count_by_kind (cat_summary c') = rs_count_by_kind (cat_summary c) ->
  rs_bytes (cat_summary c') = rs_bytes (cat_summary c) -> sums_ok c'.
Proof.
  intros [S1 S2 S3 S4 S5 S6] El Ht Ek Eb.
  split; rewrite ?El, ?Ek, ?Eb, ?(Ht resource_count), ?(Ht ready_count), ?(Ht failed_count) by set_solver;
    [by rewrite zsum_extend..| |done|]; intros; rewrite zsum_extend by done; auto.
Qed.

Lemma reserve_catalog sp c c' wanted retained locks granted maximum :
  spec_ok sp c ->
  yvex_runtime_resource_catalog_reserve locks granted c wanted maximum = Done (c', retained) ->
  spec_ok sp c' /\ tally capacity c' = Z.max wanted (tally capacity c)
  /\ forall k t, live_at (cat_slots c') k t <-> live_at (cat_slots c) k t.
Proof.
  intros [Hc Hm Hu Hn] E. pose proof (ok_capacity_bound _ _ Hc) as Hb.
  unfold yvex_runtime_resource_catalog_reserve in E. destruct (_ || _ || _ || _) eqn:Hv; [done|].
  bool_hyps. cbn [refuse_if mbind outcome_bind] in E. destruct (rs_closing _); [done|].
  cbn [refuse_if mbind outcome_bind] in E.
  set (wide := if wanted <? tally capacity c then tally capacity c else wanted) in E.
  assert (Hwide : wide = Z.max wanted (tally capacity c)) by (unfold wide; destruct (wanted <? tally capacity c) eqn:?; lia).
  destruct (catalog_retained wide) as [bytes|]; [|done].
  destruct (catalog_peak _ _ _) as [peak|]; [|done].
  destruct (_ || _) in E; [done|]. cbn [refuse_if mbind outcome_bind] in E.
  destruct (tally capacity c <? wide) eqn:Hgrow; cbn [negb] in E.
  2: { injection E as <- <-. split; [by split|]. split; [lia|done]. }
  destruct (tally generation c =? ULLONG_MAX); [done|].
  destruct granted; [|done]. cbn [negb refuse_if mbind outcome_bind] in E.
  unfold copy_cells in E. rewrite (ok_capacity _ _ Hc) in E. rewrite Z.ltb_irrefl in E.
  cbn [mbind outcome_bind] in E. injection E as <- <-.
  rewrite <- (ok_capacity _ _ Hc), to_nat_zlen, firstn_all. unfold RESOURCE_CAPACITY_MAX in *.
  split; [split|split].
  - split; tallies; try apply Hc.
    + cbn. rewrite zlen_app, zlen_replicate. pose proof (ok_capacity _ _ Hc). lia.
    + unfold RESOURCE_CAPACITY_MAX. lia.
    + cbn. apply slots_extend, Hc.
    + eapply (sums_extend c); [apply Hc|reflexivity| |done|done].
      intros k Hk. rewrite !elem_of_cons, elem_of_nil in Hk.
      destruct Hk as [->|[->|[->|[]]]]; by tallies.
  - intros h x. rewrite (Hm h x). cbn. by setoid_rewrite live_at_extend.
  - intros h. tallies. apply Hu.
  - done.
  - tallies. rewrite (ok_capacity _ _ Hc). lia.
  - intros k t. apply live_at_extend.
Qed.

Lemma reserve_refines sp c locks granted wanted maximum :
  spec_ok sp c ->
  refines sp (yvex_runtime_resource_catalog_reserve locks granted c wanted maximum) (fun _ => []) fst.
Proof.
  intros Hsp. destruct (yvex_runtime_resource_catalog_reserve _ _ _ _ _) as [[c' n]| |f] eqn:E;
    [|done|].
  - exists sp. split; [done|]. by eapply reserve_catalog.
  - pose proof (ok_capacity _ _ (ok_catalog _ _ Hsp)) as Hc.
    unfold yvex_runtime_resource_catalog_reserve, refuse_if, copy_cells in E.
    rewrite Hc, Z.ltb_irrefl in E. by repeat (case_match; cbn [mbind outcome_bind] in E; try done).
Qed.

(** ** Opening *)

Lemma empty_ok n :
  0 < n -> is_u64 n ->
  spec_ok spec_start (set_tally engine_generation n (mk_catalog [] (cat_summary catalog_zero) 0 true)).
Proof.
  intros Hn Hu. split; [split| |set_solver|done]; tallies; try done.
  - assert (Hno : forall i (s : engine_resource_slot), zget [] i <> Some s) by (intros i s; by rewrite zget_nil).
    split; unfold live_at; naive_solver.
  - split; tallies; try done; [|apply bytes_zero_ok|by intros f Hf; each_field Hf].
    intros k Hk. cbn. rewrite zget_lookup by done. apply lookup_replicate_2.
    unfold YVEX_ENGINE_RESOURCE_KIND_COUNT in *. lia.
  - intros h x. cbn. rewrite lookup_empty. split; [done|].
    intros (i & s & [Hi _] & _). by rewrite zget_nil in Hi.
Qed.

Lemma catalog_open_ok alloc mutex locks generation_ identity wanted c :
  is_u64 generation_ ->
  yvex_runtime_resource_catalog_open alloc mutex locks generation_ identity wanted = Done c ->
  spec_ok spec_start c.
Proof.
  intros Hg E. unfold yvex_runtime_resource_catalog_open in E.
  destruct (_ || _ || _ || _ || _) eqn:Hv in E; [done|]. bool_hyps.
  cbn [refuse_if mbind outcome_bind] in E. destruct (_ || _) in E; [done|].
  cbn [refuse_if mbind outcome_bind] in E.
  destruct (yvex_runtime_resource_catalog_reserve _ _ _ _ _) as [[c1 n]| |] eqn:Er; [|done..].
  cbn [mbind outcome_bind] in E. injection E as <-.
  apply (reserve_catalog spec_start) in Er as [[[K1 K2 K3 K4 K5 K6 [L1 L2 L3 L4 L5 L6]] Hm Hu Hn] _].
  2: { apply empty_ok; [unfold is_u64 in Hg; lia|done]. }
  split; [split|done..]; try done.
Qed.

(** ** Selection *)

(** The selection returns a live resource without consumers and dependents, or
    no live resource among the first [n] slots is one. *)
Lemma release_candidate_ok debt c n :
  catalog_ok_at debt c -> (n <= length (cat_slots c))%nat ->
  let releasable (s : engine_resource_slot) :=
    re_consumer_count (slot_summary s) = 0 /\ re_dependent_count (slot_summary s) = 0 in
  (exists i s, live_at (cat_slots c) i s /\ releasable s
     /\ release_candidate n (cat_slots c) = Done (slot_handle s))
  \/ (release_candidate n (cat_slots c) = Done handle_zero
      /\ forall i s, i < Z.of_nat n -> live_at (cat_slots c) i s -> ~ releasable s).
Proof.
  intros Hc. induction n as [|n IH]; intros Hn releasable.
  { right. split; [done|]. intros i s Hi [Hs _]. apply zget_Some_range in Hs. lia. }
  destruct (zget_in (cat_slots c) (Z.of_nat n)) as [s Hs]; [unfold zlen; lia|].
  cbn [release_candidate]. rewrite (read_at_eq _ _ _ Hs). cbn [mbind outcome_bind].
  destruct (slot_in_use s && _ && _) eqn:E.
  { left. exists (Z.of_nat n), s. bool_hyps. unfold releasable, live_at. split_and!; done || lia. }
  destruct (IH ltac:(lia)) as [H|[Hz Hnone]]; [by left|]. right. split; [done|].
  intros i t Hi Ht [T1 T2]. destruct (decide (i = Z.of_nat n)) as [->|Hne].
  - destruct Ht as [Ht Hu]. rewrite Hs in Ht. injection Ht as ->. rewrite Hu, T1, T2 in E. done.
  - apply (Hnone i t); [lia|done|done].
Qed.

(** Following dependents from any live resource ends at one that nothing
    depends on: generations grow. *)
Lemma dependents_end debt c i s :
  catalog_ok_at debt c -> (forall h, debt h = 0) -> live_at (cat_slots c) i s ->
  exists j t, live_at (cat_slots c) j t /\ re_dependent_count (slot_summary t) = 0
    /\ h_generation (slot_handle s) <= h_generation (slot_handle t).
Proof.
  intros Hc Hdebt. pose proof (ok_array _ _ Hc) as Ha.
  remember (Z.to_nat (cat_next_generation c - h_generation (slot_handle s))) as n eqn:En.
  revert i s En. induction n as [n IH] using lt_wf_ind. intros i s -> Hs.
  destruct (ok_slots _ _ _ _ Ha _ _ Hs) as [_ G _ _ _ K6 _ _]. rewrite Hdebt in K6.
  destruct (decide (re_dependent_count (slot_summary s) = 0)) as [Hz|Hnz]; [by exists i, s|].
  assert (Hex : Exists (fun t => slot_in_use t = true /\ re_dependency (slot_summary t) = slot_handle s)
                  (cat_slots c)).
  { destruct (decide (Exists (fun t => slot_in_use t = true
        /\ re_dependency (slot_summary t) = slot_handle s) (cat_slots c))) as [|Hno]; [done|].
    exfalso. apply Hnz. rewrite <- (Z.add_0_r (re_dependent_count _)), K6. apply zsum_zero.
    intros t Ht. unfold in_use_sum, depends_on. destruct (slot_in_use t) eqn:Hu; [|done].
    rewrite bool_decide_eq_false_2; [done|]. intros E. apply Hno. apply Exists_exists. eauto. }
  apply Exists_exists in Hex as (t & [k Hk]%elem_of_zget & Hu & Et).
  destruct (ok_slots _ _ _ _ Ha _ _ (conj Hk Hu)) as [_ G' _ _ _ _ _ K8].
  destruct K8 as (j & d & Hd & Ed & Hlt); [rewrite Et; by apply (live_handle_present _ _ _ _ Hc Hs)|].
  rewrite Et in Ed. assert (E' : d = s) by apply (live_handle_unique _ _ _ _ _ _ Hc Hd Hs Ed).
  rewrite E' in Hlt.
  destruct (IH (Z.to_nat (cat_next_generation c - h_generation (slot_handle t))) ltac:(lia) k t eq_refl
              (conj Hk Hu)) as (j' & t' & ? & ? & ?).
  exists j', t'. split_and!; [done..|lia].
Qed.
