(* ===== verification/ResourceSafety.v ===== *)
(** * Schedules of the resource catalog

    The critical sections of [Resource] under every schedule of clients,
    callbacks and lock failures: each step keeps the invariant, refines the
    specification and never faults.  From runs of the specification follow the
    guarantees on traces: a resource is released only after its borrowers and
    dependents are gone, and its handle is dead afterwards.  Closing an idle
    catalog completes, dependents first, and is held up only by a borrower. *)

From Stdlib Require Import ZArith Lia Bool String.
From stdpp Require Import base list option numbers strings sets gmap.
From S2P Require Import Prelude Core Sha256 Resource ResourceInvariant.

(** ** Schedules *)

(** The fields of handles and requests are machine integers. *)
Definition choice_ok (choice : resource_choice) : Prop :=
  match choice with
  | Register _ request => request_ok request
  | Publish _ h | Acquire _ h | Drop_ _ h | Evict _ h => handle_ok h
  | _ => True
  end.

Inductive resource_reachable : resource_world -> Prop :=
  | reachable_open alloc mutex locks generation_ identity wanted c :
      is_u64 generation_ ->
      yvex_runtime_resource_catalog_open alloc mutex locks generation_ identity wanted = Done c ->
      resource_reachable (opened_catalog c)
  | reachable_step w choice w' :
      resource_reachable w -> choice_ok choice -> resource_step choice w = Some (Done w') -> resource_reachable w'.

Definition registrations (l : list resource_event) : Z :=
  zsum (fun e => match e with Registered _ _ _ _ => 1 | _ => 0 end) l.

Definition releasing (sp : resource_spec) (h : yvex_engine_resource_handle) : Prop :=
  life_state <$> spec_live sp !! h = Some YVEX_ENGINE_RESOURCE_RELEASING.

(** ** Runs of the specification *)

Definition spec_wf (sp : resource_spec) : Prop :=
  forall h, is_Some (spec_live sp !! h) -> h ∈ spec_used sp.

Lemma spec_update_inv sp h guard f sp' :
  spec_update sp h guard f = Some sp' ->
  exists l, spec_live sp !! h = Some l /\ guard l = true
    /\ sp' = mk_resource_spec (partial_alter (fun _ => f l) h (spec_live sp)) (spec_used sp).
Proof.
  unfold spec_update. intros (l & Hl & E)%bind_Some. destruct (guard l) eqn:Hg; [|done].
  injection E as <-. eauto.
Qed.

Lemma spec_step_wf sp e sp' : spec_wf sp -> resource_spec_step sp e = Some sp' -> spec_wf sp'.
Proof.
  intros Hwf E h. destruct e as [h' d v r|h'|h' v|h'|h'|h'|h'|st|]; cbn [resource_spec_step] in E;
    try (apply spec_update_inv in E as (l & Hl & _ & ->); cbn [spec_live spec_used];
         destruct (decide (h' = h)) as [->|Hne]; [by intros _; apply Hwf|];
         rewrite lookup_partial_alter_ne by done; apply Hwf).
  - do 2 (case_match; [done|]). injection E as <-. cbn [spec_live spec_used].
    destruct (decide (h' = h)) as [->|Hne]; [set_solver|]. rewrite lookup_insert_ne by done.
    intros ?%Hwf. set_solver.
  - injection E as <-. apply Hwf.
  - case_match; [|done]. injection E as <-. apply Hwf.
Qed.

Lemma spec_run_wf sp l sp' : spec_wf sp -> resource_spec_run sp l = Some sp' -> spec_wf sp'.
Proof.
  revert sp. induction l as [|e l IH]; intros sp Hwf E; [by injection E as <-|].
  cbn in E. apply bind_Some in E as (sp1 & E1 & E). eapply IH; [|exact E]. by eapply spec_step_wf.
Qed.

(** Only the end of its release ends the releasing state. *)
Lemma releasing_step sp e sp' h :
  spec_wf sp -> resource_spec_step sp e = Some sp' -> releasing sp h -> e <> Released h ->
  e <> ReleaseFailed h -> releasing sp' h.
Proof.
  intros Hwf E Hr Hn1 Hn2. unfold releasing in *. destruct e as [h' d v r|h'|h' v|h'|h'|h'|h'|st|];
    cbn [resource_spec_step] in E;
    try (apply spec_update_inv in E as (l & Hl & Hg & ->); cbn [spec_live];
         destruct (decide (h' = h)) as [->|Hne]; [|by rewrite lookup_partial_alter_ne];
         rewrite lookup_partial_alter_eq; rewrite Hl in Hr; cbn in Hr; injection Hr as Hr;
         rewrite ?Hr in Hg; try done; cbn; by rewrite Hr).
  - do 2 (case_match; [done|]). injection E as <-. cbn.
    destruct (decide (h' = h)) as [->|Hne]; [|by rewrite lookup_insert_ne].
    apply fmap_Some_1 in Hr as (l & Hl & _).
    match goal with H : bool_decide _ = false |- _ => apply bool_decide_eq_false_1 in H as [] end.
    apply Hwf. eauto.
  - by injection E as <-.
  - case_match; [|done]. by injection E as <-.
Qed.

Lemma spec_step_used sp e sp' :
  resource_spec_step sp e = Some sp' ->
  Z.of_nat (size (spec_used sp')) = Z.of_nat (size (spec_used sp)) + registrations [e].
Proof.
  intros E. unfold registrations. rewrite zsum_cons. cbn [zsum foldr].
  destruct e as [h d v r|h|h v|h|h|h|h|st|]; cbn [resource_spec_step] in E;
    try (apply spec_update_inv in E as (l & _ & _ & ->); cbn [spec_used]; lia).
  - destruct (bool_decide (h ∈ spec_used sp)) eqn:Hin; [done|]. apply bool_decide_eq_false_1 in Hin.
    case_match; [done|]. injection E as <-. cbn [spec_used].
    rewrite size_union, size_singleton by by apply disjoint_singleton_l. lia.
  - injection E as <-. lia.
  - case_match; [|done]. injection E as <-. lia.
Qed.

Lemma spec_run_used sp l sp' :
  resource_spec_run sp l = Some sp' ->
  Z.of_nat (size (spec_used sp')) = Z.of_nat (size (spec_used sp)) + registrations l.
Proof.
  revert sp. induction l as [|e l IH]; intros sp E.
  { injection E as <-. cbn. lia. }
  cbn in E. apply bind_Some in E as (sp1 & E1 & E). rewrite (IH _ E), (spec_step_used _ _ _ E1).
  change (e :: l) with ([e] ++ l). unfold registrations. rewrite zsum_app. lia.
Qed.

(** ** Operations in progress *)

Definition callback_of (o : operation) : option yvex_engine_resource_handle :=
  match o with InCallback h _ _ _ => Some h | _ => None end.

Definition resource_operation_ok (sp : resource_spec) (o : operation) : Prop :=
  match o with
  | Chosen h => handle_ok h
  | InCallback h _ _ _ => handle_ok h /\ releasing sp h
  | Selecting | Returned => True
  end.

Record operations_ok (sp : resource_spec) (ops : list operation) : Prop := mk_operations_ok {
  ok_operation : forall t o, zget ops t = Some o -> resource_operation_ok sp o;
  ok_callbacks : forall t1 t2 o1 o2 h, zget ops t1 = Some o1 -> zget ops t2 = Some o2 ->
    callback_of o1 = Some h -> callback_of o2 = Some h -> t1 = t2;
  ok_closers : forall t1 t2 o1 o2, zget ops t1 = Some o1 -> zget ops t2 = Some o2 ->
    closes o1 = true -> closes o2 = true -> t1 = t2
}.

(** The specification moves and keeps the releases in progress, [h] apart. *)
Definition keeps_releasing (sp sp' : resource_spec) (except : option yvex_engine_resource_handle)
    : Prop :=
  forall h, releasing sp h -> except <> Some h -> releasing sp' h.

Lemma operations_keep sp sp' ops :
  operations_ok sp ops -> keeps_releasing sp sp' None -> operations_ok sp' ops.
Proof.
  intros [H1 H2 H3] Hk. split; [|done..]. intros t o Ht. specialize (H1 t o Ht).
  destruct o; cbn in *; [done| |done..]. destruct H1. split; [done|]. by apply Hk.
Qed.

(** The operation at [t] continues as [o']. *)
Lemma operations_zset sp sp' ops t o o' :
  operations_ok sp ops -> zget ops t = Some o -> keeps_releasing sp sp' (callback_of o) ->
  resource_operation_ok sp' o' ->
  (closes o' = true -> forall t1 o1, t1 <> t -> zget ops t1 = Some o1 -> closes o1 = false) ->
  (forall h, callback_of o' = Some h -> ~ releasing sp h) ->
  operations_ok sp' (zset ops t o').
Proof.
  intros [H1 H2 H3] Ht Hk Ho Hcl Hnew.
  assert (Hget : forall t1 o1, zget (zset ops t o') t1 = Some o1 ->
            (t1 = t /\ o1 = o') \/ (t1 <> t /\ zget ops t1 = Some o1)).
  { intros t1 o1 E. destruct (decide (t1 = t)) as [->|Hne].
    - rewrite zget_zset_eq in E by eauto using zget_Some_range. left. naive_solver.
    - rewrite zget_zset_ne in E by done. by right. }
  assert (Hrel : forall t1 o1 h, zget ops t1 = Some o1 -> callback_of o1 = Some h -> releasing sp h).
  { intros t1 o1 h E Eh. specialize (H1 t1 o1 E). destruct o1; cbn in *; simplify_eq. apply H1. }
  split.
  - intros t1 o1 [[-> ->]|[Hne E]]%Hget; [done|]. specialize (H1 t1 o1 E).
    destruct o1 as [|h ? ? ?| |]; cbn in *; try done. destruct H1 as [Hh Hr]. split; [done|].
    apply Hk; [done|]. intros Eo. apply Hne. by apply (H2 t1 t _ _ h E Ht).
  - intros t1 t2 o1 o2 h [[-> ->]|[Hn1 E1]]%Hget [[-> ->]|[Hn2 E2]]%Hget C1 C2; [done|..].
    + destruct (Hnew h C1). by eapply Hrel.
    + destruct (Hnew h C2). by eapply Hrel.
    + by apply (H2 t1 t2 o1 o2 h).
  - intros t1 t2 o1 o2 [[-> ->]|[Hn1 E1]]%Hget [[-> ->]|[Hn2 E2]]%Hget C1 C2; [done|..].
    + specialize (Hcl C1 _ _ Hn2 E2). congruence.
    + specialize (Hcl C2 _ _ Hn1 E1). congruence.
    + by apply (H3 t1 t2 o1 o2).
Qed.

(** A new operation starts. *)
Lemma operations_append sp sp' ops o' :
  operations_ok sp ops -> keeps_releasing sp sp' None -> resource_operation_ok sp' o' ->
  (closes o' = true -> forall t o, zget ops t = Some o -> closes o = false) ->
  (forall h, callback_of o' = Some h -> ~ releasing sp h) ->
  operations_ok sp' (ops ++ [o']).
Proof.
  intros [H1 H2 H3] Hk Ho Hcl Hnew.
  assert (Hrel : forall t1 o1 h, zget ops t1 = Some o1 -> callback_of o1 = Some h -> releasing sp h).
  { intros t1 o1 h E Eh. specialize (H1 t1 o1 E). destruct o1; cbn in *; simplify_eq. apply H1. }
  split.
  - intros t1 o1 [?|[E ->]]%zget_snoc_inv; [|done]. specialize (H1 t1 o1 ltac:(done)).
    destruct o1; cbn in *; try done. destruct H1. split; [done|]. by apply Hk.
  - intros t1 t2 o1 o2 h [E1|[-> ->]]%zget_snoc_inv [E2|[-> ->]]%zget_snoc_inv C1 C2; [|..|done].
    + by apply (H2 t1 t2 o1 o2 h).
    + destruct (Hnew h C2). by eapply Hrel.
    + destruct (Hnew h C1). by eapply Hrel.
  - intros t1 t2 o1 o2 [E1|[-> ->]]%zget_snoc_inv [E2|[-> ->]]%zget_snoc_inv C1 C2; [|..|done].
    + by apply (H3 t1 t2 o1 o2).
    + specialize (Hcl C2 _ _ E1). congruence.
    + specialize (Hcl C1 _ _ E2). congruence.
Qed.

(** ** Worlds *)

Record resource_world_ok (w : resource_world) (sp : resource_spec) : Prop := mk_world_ok {
  ok_run : resource_spec_run spec_start (rw_trace w) = Some sp;
  ok_world : match rw_catalog w with
             | Some c => spec_ok sp c
             | None => spec_live sp = ∅ /\ forall t o, zget (rw_operations w) t = Some o -> o = Returned
             end;
  ok_operations : operations_ok sp (rw_operations w)
}.

Lemma world_wf w sp : resource_world_ok w sp -> spec_wf sp.
Proof.
  intros H. eapply spec_run_wf; [|exact (ok_run _ _ H)]. intros h. cbn. rewrite lookup_empty.
  by intros [? ?].
Qed.

Lemma keeps_events w sp events sp' :
  resource_world_ok w sp -> resource_spec_run sp events = Some sp' ->
  (forall h, Released h ∉ events /\ ReleaseFailed h ∉ events) -> keeps_releasing sp sp' None.
Proof.
  intros Hw%world_wf. revert sp Hw. induction events as [|e l IH]; intros sp Hwf E Hno h Hr _.
  { by injection E as <-. }
  cbn in E. apply bind_Some in E as (sp1 & E1 & E).
  apply (IH sp1 (spec_step_wf _ _ _ Hwf E1) E); [|..|done].
  - intros h'. specialize (Hno h'). set_solver.
  - specialize (Hno h). eapply releasing_step; eauto; set_solver.
Qed.

(** A call that leaves the operations in progress alone. *)
Lemma section_ok {A} w sp c (r : outcome A) k events catalog :
  resource_world_ok w sp -> rw_catalog w = Some c -> refines sp r events catalog ->
  (forall a, k a = (catalog a, rw_operations w, events a)) ->
  (forall a h, Released h ∉ events a /\ ReleaseFailed h ∉ events a) ->
  exists w' sp', section_result w r k (rw_operations w) = Done w' /\ resource_world_ok w' sp'.
Proof.
  intros Hw Hcat Hr Hk Hno. pose proof Hw as [H1 H2 H3]. rewrite Hcat in H2.
  destruct r as [a|st reason|f]; cbn [section_result]; [| |done].
  - destruct Hr as (sp' & E & Hok). rewrite Hk. eexists _, sp'. split; [reflexivity|].
    split; cbn [rw_trace rw_catalog rw_operations]; [|done|].
    + rewrite spec_run_app, H1. exact E.
    + eapply operations_keep; [done|]. by eapply keeps_events.
  - eexists _, sp. split; [reflexivity|]. rewrite Hcat.
    split; cbn [rw_trace rw_catalog rw_operations]; [|done..]. by rewrite spec_run_app, H1.
Qed.

Lemma other_closers sp ops t o :
  operations_ok sp ops -> zget ops t = Some o -> closes o = true ->
  forall t1 o1, t1 <> t -> zget ops t1 = Some o1 -> closes o1 = false.
Proof.
  intros H Ht Hc t1 o1 Hne E. destruct (closes o1) eqn:C; [|done].
  destruct Hne. by apply (ok_closers _ _ H t1 t o1 o).
Qed.

Lemma release_began sp h sp' :
  resource_spec_run sp [ReleaseBegan h] = Some sp' ->
  ~ releasing sp h /\ releasing sp' h /\ keeps_releasing sp sp' None.
Proof.
  cbn. intros (sp1 & E & E')%bind_Some. injection E' as <-.
  apply spec_update_inv in E as (l & Hl & Hg & ->). bool_hyps. unfold releasing, keeps_releasing.
  split_and!.
  - rewrite Hl. cbn. intros [= E]. match goal with H : bool_decide _ = false |- _ =>
      by apply bool_decide_eq_false_1 in H end.
  - cbn [spec_live]. rewrite lookup_partial_alter_eq. done.
  - intros h' Hr _. unfold releasing in *. cbn [spec_live]. destruct (decide (h = h')) as [->|Hne].
    + by rewrite lookup_partial_alter_eq.
    + by rewrite lookup_partial_alter_ne.
Qed.

(** A refused section of the operation at [t], which returns. *)
Lemma refused_ok w sp t o status :
  resource_world_ok w sp -> is_Some (rw_catalog w) -> zget (rw_operations w) t = Some o ->
  exists sp', resource_world_ok (mk_resource_world (rw_catalog w) (zset (rw_operations w) t Returned)
                          (rw_trace w ++ [Refused status])) sp'.
Proof.
  intros [H1 H2 H3] [c Hc] Ht. exists sp. rewrite Hc in *.
  split; cbn [rw_trace rw_catalog rw_operations]; [by rewrite spec_run_app, H1|done|].
  by eapply operations_zset; [exact H3|exact Ht|intros h Hr _|..].
Qed.

Lemma evict_ok w sp c locks h :
  resource_world_ok w sp -> rw_catalog w = Some c -> handle_ok h ->
  exists w' sp', yvex_runtime_resource_evict locks w c h = Done w' /\ resource_world_ok w' sp'.
Proof.
  intros [H1 H2 H3] Hcat Hh. rewrite Hcat in H2. unfold yvex_runtime_resource_evict.
  pose proof (release_begin_refines sp c h H2 Hh locks true) as Hr.
  destruct (release_begin _ _ _ _) as [[c' [release ctx]]|st reason|f]; cbn [section_result]; [| |done].
  - destruct Hr as (sp' & E & Hok). eexists _, sp'. split; [reflexivity|].
    destruct (release_began _ _ _ E) as (Hnew & Hrel & Hkeep).
    split; cbn [rw_trace rw_catalog rw_operations]; [by rewrite spec_run_app, H1|done|].
    eapply operations_append; [exact H3|done|done|done|]. by intros h' [= <-].
  - eexists _, sp. split; [reflexivity|]. rewrite Hcat.
    split; cbn [rw_trace rw_catalog rw_operations]; [|done..]. by rewrite spec_run_app, H1.
Qed.

Lemma close_begin_ok w sp c locks t h :
  resource_world_ok w sp -> rw_catalog w = Some c -> zget (rw_operations w) t = Some (Chosen h) ->
  exists w' sp', close_begin locks w t h c = Done w' /\ resource_world_ok w' sp'.
Proof.
  intros Hw Hcat Ht. pose proof Hw as [H1 H2 H3]. rewrite Hcat in H2.
  pose proof (ok_operation _ _ H3 _ _ Ht) as Hh. cbn in Hh. unfold close_begin.
  pose proof (release_begin_refines sp c h H2 Hh locks false) as Hr.
  destruct (release_begin _ _ _ _) as [[c' [release ctx]]|st reason|f]; cbn [section_result]; [| |done].
  - destruct Hr as (sp' & E & Hok). eexists _, sp'. split; [reflexivity|].
    destruct (release_began _ _ _ E) as (Hnew & Hrel & Hkeep).
    split; cbn [rw_trace rw_catalog rw_operations]; [by rewrite spec_run_app, H1|done|].
    eapply operations_zset; [exact H3|exact Ht|done|done|..].
    + intros _. by eapply other_closers.
    + by intros h' [= <-].
  - edestruct refused_ok as [sp' Hok]; [exact Hw|by rewrite Hcat|exact Ht|]. eauto.
Qed.

Lemma release_return_ok w sp c locks t h evict release closing rc :
  resource_world_ok w sp -> rw_catalog w = Some c ->
  zget (rw_operations w) t = Some (InCallback h evict release closing) ->
  exists w' sp', release_return locks w t h evict release closing rc c = Done w' /\ resource_world_ok w' sp'.
Proof.
  intros Hw Hcat Ht. pose proof Hw as [H1 H2 H3]. rewrite Hcat in H2.
  destruct (ok_operation _ _ H3 _ _ Ht) as [Hh Hrel]. unfold release_return.
  pose proof (release_end_refines sp c h H2 Hh locks evict (if release then rc else YVEX_OK) Hrel) as Hr.
  destruct (release_end _ _ _ _ _) as [[c' rc']|st reason|f]; cbn [section_result]; [| |done].
  2: { edestruct refused_ok as [sp' Hok]; [exact Hw|by rewrite Hcat|exact Ht|]. eauto. }
  destruct Hr as (sp' & E & Hok). cbn [fst snd] in *.
  assert (Hkeep : keeps_releasing sp sp' (Some h)).
  { intros h' Hr' Hne. case_bool_decide; cbn [resource_spec_run] in E; apply bind_Some in E as (sp1 & E1 & E2);
      injection E2 as <-; (eapply releasing_step; [by eapply world_wf|exact E1|done|..]); congruence. }
  case_bool_decide; eexists _, sp'; (split; [reflexivity|]);
    (split; cbn [rw_trace rw_catalog rw_operations]; [|exact Hok|]).
  - by rewrite spec_run_app, H1.
  - eapply operations_zset; [exact H3|exact Ht|done|by destruct closing| |by destruct closing].
    destruct closing; [|done]. intros _. by eapply other_closers.
  - rewrite spec_run_app, H1. cbn [mbind option_bind].
    change [ReleaseFailed h; Refused rc'] with ([ReleaseFailed h] ++ [Refused rc']).
    by rewrite spec_run_app, E.
  - by eapply operations_zset.
Qed.

Lemma resource_count_empty sp c : spec_ok sp c -> tally resource_count c = 0 -> spec_live sp = ∅.
Proof.
  intros H E. apply map_empty. intros h. destruct (spec_live sp !! h) as [x|] eqn:Hx; [|done].
  apply (ok_represents _ _ H) in Hx as (i & s & Hs & _).
  rewrite (ok_resource_count _ (ok_sums _ _ (ok_catalog _ _ H))) in E.
  by pose proof (in_use_total_zero _ _ _ _ E Hs).
Qed.

(** A close selects: it goes on with a live resource, or is held up, or frees an
    empty catalog. *)
Lemma selected_ok w sp c ops t o :
  resource_spec_run spec_start (rw_trace w) = Some sp -> spec_ok sp c -> operations_ok sp ops ->
  zget ops t = Some o -> callback_of o = None ->
  (forall t1 o1, t1 <> t -> zget ops t1 = Some o1 -> closes o1 = false) ->
  exists w' sp', selected w c ops t = Done w' /\ resource_world_ok w' sp'.
Proof.
  intros H1 H2 H3 Ht Ho Hcl. pose proof (ok_catalog _ _ H2) as Hc. unfold selected, close_select.
  pose proof (ok_resource_count _ (ok_sums _ _ Hc)) as Hcount.
  assert (Hreturn : operations_ok sp (zset ops t Returned)).
  { by eapply operations_zset; [exact H3|exact Ht|intros h Hr _|..]. }
  destruct (release_candidate_ok _ c (Z.to_nat (tally capacity c)) Hc) as [(i & s & Hs & _ & ->)|[-> Hno]].
  { rewrite <- (ok_capacity _ _ Hc), to_nat_zlen. done. }
  - cbn [mbind outcome_bind]. rewrite (live_handle_present _ _ _ _ Hc Hs).
    eexists _, sp. split; [reflexivity|]. split; cbn [rw_trace rw_catalog rw_operations]; [done..|].
    eapply operations_zset; [exact H3|exact Ht|by intros h Hr _| |done|done].
    by eapply live_handle_ok.
  - cbn [mbind outcome_bind handle_present]. change (handle_present handle_zero) with false. cbn iota.
    destruct (tally resource_count c =? 0) eqn:Ez; cbn [negb]; eexists _, sp; (split; [reflexivity|]);
      (split; cbn [rw_trace rw_catalog rw_operations]; [|done || idtac|done]).
    + rewrite spec_run_app, H1. cbn. rewrite bool_decide_eq_true_2; [done|].
      apply (resource_count_empty sp c); [done|lia].
    + assert (He : spec_live sp = ∅) by (apply (resource_count_empty sp c); [done|lia]).
      split; [done|]. intros t1 o1 E. destruct (decide (t1 = t)) as [->|Hne].
      * rewrite zget_zset_eq in E by eauto using zget_Some_range. by injection E as <-.
      * rewrite zget_zset_ne in E by done. specialize (Hcl t1 o1 Hne E).
        pose proof (ok_operation _ _ H3 _ _ E) as Hop. destruct o1; cbn in *; try done.
        destruct Hop as [_ Hr]. unfold releasing in Hr. by rewrite He, lookup_empty in Hr.
    + by rewrite spec_run_app, H1.
Qed.

Definition step_result (r : option (outcome resource_world)) : Prop :=
  match r with
  | Some (Done w) => exists sp, resource_world_ok w sp
  | Some _ => False
  | None => True
  end.

Lemma client_call_ok w sp k :
  resource_world_ok w sp ->
  (forall c, rw_catalog w = Some c -> exists w' sp', k c = Done w' /\ resource_world_ok w' sp') ->
  step_result (client_call w k).
Proof.
  intros _ H. unfold client_call. destruct (rw_catalog w) as [c|] eqn:E; [|done].
  destruct (H c eq_refl) as (w' & sp' & -> & Hok). by exists sp'.
Qed.

Lemma continue_call_ok w sp t o k :
  resource_world_ok w sp -> zget (rw_operations w) t = Some o -> o <> Returned ->
  (forall c, rw_catalog w = Some c -> exists w' sp', k c = Done w' /\ resource_world_ok w' sp') ->
  step_result (continue_call w k).
Proof.
  intros Hw Ht Ho H. unfold continue_call. destruct (rw_catalog w) as [c|] eqn:E.
  - destruct (H c eq_refl) as (w' & sp' & -> & Hok). by exists sp'.
  - pose proof (ok_world _ _ Hw) as H2. rewrite E in H2. destruct Ho. by eapply H2.
Qed.

(** No schedule faults, and every step refines the specification. *)
Lemma resource_step_ok w sp choice :
  resource_world_ok w sp -> choice_ok choice -> registrations (rw_trace w) < ULLONG_MAX ->
  step_result (resource_step choice w).
Proof.
  intros Hw Hch Hreg. pose proof Hw as [H1 H2 H3].
  destruct choice as [lk gr wanted mx|lk r|lk h|lk h|lk h|lk h|lk|t lk|t lk rc|t lk]; cbn [resource_step choice_ok] in *.
  7: destruct (existsb closes (rw_operations w)) eqn:Hcl; [done|].
  1-7: apply (client_call_ok w sp); [done|]; intros c Hcat; pose proof H2 as Hok; rewrite Hcat in Hok.
  - eapply (section_ok w sp c); [done..|by apply reserve_refines|by intros [? ?]|set_solver].
  - eapply (section_ok w sp c); [done..|apply register_refines; [done..|]|by intros [? ?]|set_solver].
    rewrite <- (ok_registrations _ _ Hok), (spec_run_used _ _ _ H1). done.
  - eapply (section_ok w sp c); [done..|by apply publish_refines|done|set_solver].
  - eapply (section_ok w sp c); [done..|by apply acquire_refines|by intros [? ?]|set_solver].
  - eapply (section_ok w sp c); [done..|by apply drop_refines|done|set_solver].
  - by eapply evict_ok.
  - unfold yvex_runtime_resource_catalog_close. destruct (_ || _).
    + eexists _, sp. split; [reflexivity|].
      split; cbn [rw_trace rw_catalog rw_operations]; [by rewrite spec_run_app, H1|done..].
    + assert (Hno : forall t1 o1, zget (rw_operations w) t1 = Some o1 -> closes o1 = false).
      { intros t1 o1 E%zget_elem_of. destruct (closes o1) eqn:C; [|done].
        rewrite <- Hcl. symmetry. apply existsb_exists. exists o1. by rewrite <- list_elem_of_In. }
      eapply (selected_ok w sp _ _ _ Returned); [done| | | |done|].
      * destruct Hok as [[K1 K2 K3 K4 K5 K6 [L1 L2 L3 L4 L5 L6]] Hm Hu Hn].
        split; [split|done..]; done.
      * by eapply operations_append; [exact H3|intros h Hr _|..].
      * apply zget_snoc_eq.
      * intros t1 o1 Hne [E|[E _]]%zget_snoc_inv; [by eapply Hno|done].
  - destruct (zget (rw_operations w) t) as [[h| | |]|] eqn:Ht; try done.
    eapply continue_call_ok; [done..|]. intros c Hcat. by eapply close_begin_ok.
  - destruct (zget (rw_operations w) t) as [[|h ev rel cl| |]|] eqn:Ht; try done.
    eapply continue_call_ok; [done..|]. intros c Hcat. by eapply release_return_ok.
  - destruct (zget (rw_operations w) t) as [[| | |]|] eqn:Ht; try done.
    eapply continue_call_ok; [done..|]. intros c Hcat. rewrite Hcat in H2. destruct lk; cbn [negb].
    + eapply (selected_ok w sp _ _ _ Selecting); try done. by eapply other_closers.
    + edestruct refused_ok as [sp' Hok]; [exact Hw|by rewrite Hcat|exact Ht|].
      rewrite Hcat in Hok. eauto.
Qed.

Lemma step_trace choice w w' :
  resource_step choice w = Some (Done w') -> exists l, rw_trace w' = rw_trace w ++ l.
Proof.
  assert (Hsec : forall A (r : outcome A) k ops w1, section_result w r k ops = Done w1 ->
            exists l, rw_trace w1 = rw_trace w ++ l).
  { intros A r k ops w1. destruct r as [a| |]; cbn; [destruct (k a) as [[? ?] ?]|..]; intros [= <-]; eauto. }
  assert (Hsel : forall c ops t w1, selected w c ops t = Done w1 -> exists l, rw_trace w1 = rw_trace w ++ l).
  { intros c ops t w1. unfold selected. destruct (close_select c) as [[]| |]; cbn; intros [= <-]; eauto.
    exists []. by rewrite app_nil_r. }
  unfold resource_step, client_call, continue_call. intros E.
  unfold yvex_runtime_resource_evict, yvex_runtime_resource_catalog_close, close_begin, release_return in E.
  repeat (case_match; try done); injection E as E;
    first [by eapply Hsec|by eapply Hsel|subst w'; cbn; eauto].
Qed.

Lemma registrations_mono w w' choice :
  resource_step choice w = Some (Done w') -> registrations (rw_trace w) <= registrations (rw_trace w').
Proof.
  intros [l ->]%step_trace. unfold registrations. rewrite zsum_app.
  pose proof (zsum_nonneg (fun e => match e with Registered _ _ _ _ => 1 | _ => 0 end) l) as H.
  specialize (H ltac:(intros []; lia)). lia.
Qed.

Lemma resource_reachable_ok w :
  resource_reachable w -> registrations (rw_trace w) < ULLONG_MAX -> exists sp, resource_world_ok w sp.
Proof.
  induction 1 as [alloc mutex locks g identity wanted c Hg E|w choice w' Hw IH Hch E]; intros Hreg.
  - exists spec_start. split; [done|by eapply catalog_open_ok|].
    assert (Hno : forall t (o : operation), zget [] t <> Some o) by (intros t o; by rewrite zget_nil).
    split; cbn; naive_solver.
  - pose proof (registrations_mono _ _ _ E). destruct IH as [sp Hok]; [lia|].
    pose proof (resource_step_ok w sp choice Hok Hch ltac:(lia)) as Hs. by rewrite E in Hs.
Qed.

(** ** What the specification says of traces *)

Definition event_handle (e : resource_event) : option yvex_engine_resource_handle :=
  match e with
  | Registered h _ _ _ | Published h | Acquired h _ | Dropped h | ReleaseBegan h | Released h
  | ReleaseFailed h => Some h
  | Refused _ | Freed => None
  end.

Definition borrows (h : yvex_engine_resource_handle) (l : list resource_event) : Z :=
  zsum (fun e => match e with
                 | Acquired h' _ => if decide (h' = h) then 1 else 0
                 | Dropped h' => if decide (h' = h) then -1 else 0
                 | _ => 0
                 end) l.

(** What a history leaves in the specification state. *)
Record history_ok (l : list resource_event) (sp : resource_spec) : Prop := mk_history_ok {
  past_used : forall e h, e ∈ l -> event_handle e = Some h -> h ∈ spec_used sp;
  past_borrows : forall h x, spec_live sp !! h = Some x -> life_consumers x = borrows h l;
  past_dependents : forall h d v r, Registered h d v r ∈ l ->
    Released h ∈ l \/ exists x, spec_live sp !! h = Some x /\ life_dependency x = d
}.

Lemma borrows_snoc h l e : borrows h (l ++ [e]) = borrows h l + borrows h [e].
Proof. apply zsum_app. Qed.

Lemma borrows_unused h l sp :
  (forall e h, e ∈ l -> event_handle e = Some h -> h ∈ spec_used sp) ->
  h ∉ spec_used sp -> borrows h l = 0.
Proof.
  intros H Hn. apply zsum_zero. intros e He. destruct e as [| |h' v|h'| | | | |]; try done;
    destruct (decide (h' = h)) as [->|]; try done; destruct Hn; by eapply H.
Qed.

Lemma history_update l sp h guard f sp' e :
  history_ok l sp -> spec_wf sp -> spec_update sp h guard f = Some sp' -> event_handle e = Some h ->
  (forall h d v r, e <> Registered h d v r) ->
  (forall x x', guard x = true -> f x = Some x' ->
   life_consumers x' = life_consumers x + borrows h [e] /\ life_dependency x' = life_dependency x) ->
  (forall x, f x = None -> e = Released h) ->
  history_ok (l ++ [e]) sp'.
Proof.
  intros [H1 H2 H3] Hwf E He Hnr Hf Hnone. apply spec_update_inv in E as (x & Hx & Hg & ->).
  assert (Hother : forall h', h' <> h -> borrows h' [e] = 0).
  { intros h' Hne. unfold borrows. rewrite zsum_cons. cbn [zsum foldr].
    destruct e; cbn in He; simplify_eq; rewrite ?decide_False by done; lia. }
  split; cbn [spec_live spec_used].
  - intros e' h' [Hin|Heq%list_elem_of_singleton]%elem_of_app; [by apply H1|].
    rewrite Heq, He. intros [= <-]. apply Hwf. eauto.
  - intros h' y. rewrite borrows_snoc. destruct (decide (h = h')) as [<-|Hne].
    + rewrite lookup_partial_alter_eq. intros Hy. destruct (Hf x y Hg Hy) as [-> _].
      by rewrite (H2 h x Hx).
    + rewrite lookup_partial_alter_ne by done. intros Hy. rewrite (H2 h' y Hy), Hother by congruence. lia.
  - intros h' d v r [Hin|Heq%list_elem_of_singleton]%elem_of_app; [|by destruct (Hnr h' d v r)].
    destruct (H3 h' d v r Hin) as [Hrel|(y & Hy & Hd)]; [left; set_solver|].
    destruct (decide (h = h')) as [<-|Hne].
    + rewrite Hx in Hy. injection Hy as <-. destruct (f x) as [x'|] eqn:Efx.
      * right. exists x'. rewrite lookup_partial_alter_eq. split; [done|].
        destruct (Hf x x' Hg Efx) as [_ ->]. done.
      * left. rewrite (Hnone x Efx). set_solver.
    + right. exists y. by rewrite lookup_partial_alter_ne.
Qed.

Lemma history_silent l sp e :
  history_ok l sp -> event_handle e = None -> history_ok (l ++ [e]) sp.
Proof.
  intros [H1 H2 H3] He. split.
  - intros e' h' [Hin|Heq%list_elem_of_singleton]%elem_of_app; [by apply H1|congruence].
  - intros h x Hx. rewrite borrows_snoc, (H2 h x Hx). destruct e; cbn in *; done || lia.
  - intros h d v r [Hin|Heq%list_elem_of_singleton]%elem_of_app; [|by subst].
    destruct (H3 h d v r Hin); [left; set_solver|by right].
Qed.

Lemma history_register l sp h d v r state :
  history_ok l sp -> h ∉ spec_used sp -> spec_wf sp ->
  history_ok (l ++ [Registered h d v r])
    (mk_resource_spec (<[h := mk_life state v d 0]> (spec_live sp)) ({[h]} ∪ spec_used sp)).
Proof.
  intros [H1 H2 H3] Hn Hwf. split; cbn [spec_live spec_used].
  - intros e' h' [Hin|Heq%list_elem_of_singleton]%elem_of_app E.
    + apply elem_of_union. right. by eapply H1.
    + subst e'. injection E as ->. set_solver.
  - intros h' x Hx. rewrite borrows_snoc. change (borrows h' [_]) with 0.
    apply lookup_insert_Some in Hx as [[<- <-]|[_ Hx]].
    + rewrite (borrows_unused h l sp) by done. done.
    + rewrite (H2 h' x Hx). lia.
  - intros h' d' v' r' [Hin|Heq%list_elem_of_singleton]%elem_of_app.
    + assert (h' <> h) by (intros ->; apply Hn; by eapply H1).
      destruct (H3 h' d' v' r' Hin) as [|(x & Hx & Hd)]; [left; set_solver|].
      right. exists x. by rewrite lookup_insert_ne.
    + injection Heq as -> -> -> ->. right. eexists. by rewrite lookup_insert_eq.
Qed.

Lemma history_step l sp e sp' :
  history_ok l sp -> spec_wf sp -> resource_spec_step sp e = Some sp' -> history_ok (l ++ [e]) sp'.
Proof.
  intros H Hwf E. destruct e as [h d v r|h|h v|h|h|h|h|st|]; cbn [resource_spec_step] in E.
  2-7: eapply (history_update _ _ h); [done..|exact E|done|done| |]; try done;
       intros x x' Hg Hx; cbv beta in Hg; cbn in Hx; try (injection Hx as <-);
       unfold borrows; rewrite zsum_cons; cbn [zsum foldr life_with life_consumers life_dependency];
       rewrite ?decide_True by done; bool_hyps; split; try done; lia.
  - destruct (bool_decide (h ∈ spec_used sp)) eqn:Hin; [done|]. apply bool_decide_eq_false_1 in Hin.
    case_match; [done|]. injection E as <-. by apply history_register.
  - injection E as <-. by apply history_silent.
  - case_match; [|done]. injection E as <-. by apply history_silent.
Qed.

Lemma history_run l sp : resource_spec_run spec_start l = Some sp -> history_ok l sp /\ spec_wf sp.
Proof.
  revert sp. induction l as [|e l IH] using rev_ind; intros sp E.
  - injection E as <-. split; [split|]; cbn; try set_solver. intros h. cbn. rewrite lookup_empty.
    by intros [? ?].
  - rewrite spec_run_app in E. apply bind_Some in E as (sp1 & E1 & E). cbn in E.
    apply bind_Some in E as (sp2 & E2 & E). injection E as <-. destruct (IH sp1 E1) as [H Hwf].
    split; [by eapply history_step|by eapply spec_step_wf].
Qed.

(** A handle whose release began: it is never borrowed again. *)
Definition spent (h : yvex_engine_resource_handle) (sp : resource_spec) : Prop :=
  h ∈ spec_used sp /\ forall x, spec_live sp !! h = Some x ->
    life_state x = YVEX_ENGINE_RESOURCE_RELEASING \/ life_state x = YVEX_ENGINE_RESOURCE_FAILED.
(** A handle whose resource is gone. *)
Definition gone (h : yvex_engine_resource_handle) (sp : resource_spec) : Prop :=
  h ∈ spec_used sp /\ spec_live sp !! h = None.

Lemma spent_step h sp e sp' :
  spent h sp -> resource_spec_step sp e = Some sp' -> spent h sp' /\ forall v, e <> Acquired h v.
Proof.
  intros [Hu Hs] E. destruct e as [h' d v r|h'|h' v|h'|h'|h'|h'|st|]; cbn [resource_spec_step] in E.
  2-7: apply spec_update_inv in E as (l & Hl & Hg & ->); cbv beta in Hg; unfold spent;
       cbn [spec_live spec_used]; destruct (decide (h' = h)) as [->|Hne];
       [|rewrite lookup_partial_alter_ne by done; split; [done|congruence]];
       specialize (Hs l Hl); rewrite lookup_partial_alter_eq;
       (split; [split; [done|]|]); try done; bool_hyps;
       try (intros x [= <-]; cbn; by auto);
       try (match goal with H : bool_decide _ = true |- _ => apply bool_decide_eq_true_1 in H end;
            destruct Hs; congruence).
  - destruct (bool_decide (h' ∈ spec_used sp)) eqn:Hin; [done|]. apply bool_decide_eq_false_1 in Hin.
    case_match; [done|]. injection E as <-. split; [|done]. split; cbn; [set_solver|].
    intros x. rewrite lookup_insert_ne by congruence. apply Hs.
  - injection E as <-. done.
  - case_match; [|done]. by injection E as <-.
Qed.

Lemma gone_step h sp e sp' :
  gone h sp -> resource_spec_step sp e = Some sp' -> gone h sp' /\ event_handle e <> Some h.
Proof.
  intros [Hu Hs] E. destruct e as [h' d v r|h'|h' v|h'|h'|h'|h'|st|]; cbn [resource_spec_step] in E.
  2-7: apply spec_update_inv in E as (l & Hl & _ & ->); unfold gone; cbn [spec_live spec_used event_handle];
       destruct (decide (h' = h)) as [->|Hne]; [congruence|];
       rewrite lookup_partial_alter_ne by done; split; [done|congruence].
  - destruct (bool_decide (h' ∈ spec_used sp)) eqn:Hin; [done|]. apply bool_decide_eq_false_1 in Hin.
    case_match; [done|]. injection E as <-. assert (h' <> h) by congruence. unfold gone.
    cbn [spec_live spec_used event_handle]. rewrite lookup_insert_ne by done.
    split; [|congruence]. split; [set_solver|done].
  - injection E as <-. done.
  - case_match; [|done]. by injection E as <-.
Qed.

(** A property kept by every step holds of what follows. *)
Lemma spec_run_kept (I : resource_spec -> Prop) (P : resource_event -> Prop) sp l sp' :
  (forall sp e sp', I sp -> resource_spec_step sp e = Some sp' -> I sp' /\ P e) ->
  I sp -> resource_spec_run sp l = Some sp' -> Forall P l.
Proof.
  intros H. revert sp. induction l as [|e l IH]; intros sp HI E; [done|].
  cbn in E. apply bind_Some in E as (sp1 & E1 & E). destruct (H _ _ _ HI E1) as [HI1 HP].
  constructor; [done|]. by eapply IH.
Qed.

(** ** Closing *)

Lemma represents_size l m :
  represents m l ->
  (forall i j s t, live_at l i s -> live_at l j t -> slot_handle s = slot_handle t -> i = j) ->
  Z.of_nat (size m) = zsum (in_use_sum (fun _ => true)) l.
Proof.
  revert m. induction l as [|x l IH] using rev_ind; intros m Hm Hd.
  { assert (m = ∅) as ->; [|done]. apply map_empty. intros h. destruct (m !! h) as [y|] eqn:E; [|done].
    apply Hm in E as (i & s & [Hi _] & _). by rewrite zget_nil in Hi. }
  rewrite zsum_app, zsum_cons. cbn [zsum foldr]. unfold in_use_sum at 2.
  assert (Hl : forall i s, live_at (l ++ [x]) i s <->
            live_at l i s \/ (i = zlen l /\ s = x /\ slot_in_use x = true)).
  { intros i s. unfold live_at. split.
    - intros [[Hi|[-> ->]]%zget_snoc_inv Hu]; auto.
    - intros [[Hi Hu]|(-> & -> & Hu)]; (split; [|done]); [by apply zget_app_Some|apply zget_snoc_eq]. }
  assert (Hd' : forall i j s t, live_at l i s -> live_at l j t -> slot_handle s = slot_handle t -> i = j).
  { intros i j s t Hs Ht. apply Hd; apply Hl; by left. }
  destruct (slot_in_use x) eqn:Hu; cbn [andb Z.b2z].
  - assert (Hx : m !! slot_handle x = Some (life_of x)).
    { apply Hm. exists (zlen l), x. split; [|done]. apply Hl. by right. }
    rewrite <- (insert_delete_id _ _ _ Hx), map_size_insert_None by apply lookup_delete_eq.
    rewrite <- (IH (delete (slot_handle x) m)); [lia| |done].
    intros h y. rewrite lookup_delete_Some, (Hm h y). split.
    + intros (Hne & i & s & [Hs|(-> & -> & _)]%Hl & <- & <-); [by exists i, s|done].
    + intros (i & s & Hs & <- & <-). split; [|exists i, s; split; [apply Hl; by left|done]].
      intros E. assert (Hi : zlen l = i).
      { apply (Hd _ _ x s); [apply Hl; by right|apply Hl; by left|done]. }
      destruct Hs as [Hs _]. apply zget_Some_range in Hs. lia.
  - rewrite <- (IH m); [lia| |done]. intros h y. rewrite (Hm h y). split.
    + intros (i & s & [Hs|(_ & _ & ?)]%Hl & ?); [by exists i, s|done].
    + intros (i & s & Hs & ?). exists i, s. split; [|done]. apply Hl. by left.
Qed.

Lemma spec_size sp c : spec_ok sp c -> Z.of_nat (size (spec_live sp)) = tally resource_count c.
Proof.
  intros H. pose proof (ok_catalog _ _ H) as Hc. rewrite (ok_resource_count _ (ok_sums _ _ Hc)).
  apply represents_size; [apply H|]. intros i j s t Hs Ht E.
  apply (ok_distinct _ _ _ _ (ok_array _ _ Hc) i j s t Hs Ht). by rewrite E.
Qed.

(** Nothing is borrowed and no release is in progress. *)
Definition quiet (sp : resource_spec) : Prop :=
  map_Forall (fun _ x => life_consumers x = 0 /\ life_state x <> YVEX_ENGINE_RESOURCE_RELEASING)
    (spec_live sp).

(** A selection is held up only by a borrower. *)
Lemma close_select_cases c :
  catalog_ok c ->
  match close_select c with
  | Done (Candidate h) => exists i s, live_at (cat_slots c) i s /\ slot_handle s = h
      /\ re_consumer_count (slot_summary s) = 0 /\ re_dependent_count (slot_summary s) = 0
  | Done Exhausted => forall i s, ~ live_at (cat_slots c) i s
  | Done Blocked => exists i s, live_at (cat_slots c) i s /\ re_consumer_count (slot_summary s) <> 0
      /\ re_dependent_count (slot_summary s) = 0
  | _ => False
  end.
Proof.
  intros Hc. unfold close_select. pose proof (ok_resource_count _ (ok_sums _ _ Hc)) as Hcount.
  destruct (release_candidate_ok _ c (Z.to_nat (tally capacity c)) Hc)
    as [(i & s & Hs & [R1 R2] & ->)|[-> Hno]].
  { rewrite <- (ok_capacity _ _ Hc), to_nat_zlen. done. }
  { cbn [mbind outcome_bind]. rewrite (live_handle_present _ _ _ _ Hc Hs). by exists i, s. }
  cbn [mbind outcome_bind]. change (handle_present handle_zero) with false. cbn iota.
  destruct (tally resource_count c =? 0) eqn:Ez; cbn [negb].
  - intros i s Hs. pose proof (in_use_total_pos (fun _ => true) _ _ _ Hs eq_refl). lia.
  - assert (Hex : exists i s, live_at (cat_slots c) i s).
    { destruct (decide (Exists (fun s => slot_in_use s = true) (cat_slots c))) as [He|Hn].
      - apply Exists_exists in He as (s & [i Hi]%elem_of_zget & Hu). by exists i, s.
      - exfalso. rewrite zsum_zero in Hcount; [lia|]. intros x Hx. unfold in_use_sum.
        destruct (slot_in_use x) eqn:Hu; [|done]. destruct Hn. apply Exists_exists. eauto. }
    destruct Hex as (i & s & Hs).
    destruct (dependents_end _ c i s Hc (fun _ => eq_refl) Hs) as (j & t & Ht & Hz & _).
    exists j, t. split; [done|]. split; [|done]. intros Hcz. apply (Hno j t); [|done|done].
    destruct Ht as [Ht _]. apply zget_Some_range in Ht. rewrite (ok_capacity _ _ Hc) in Ht. lia.
Qed.

Lemma close_select_quiet sp c :
  spec_ok sp c -> quiet sp ->
  (spec_live sp = ∅ /\ close_select c = Done Exhausted)
  \/ exists h x, close_select c = Done (Candidate h) /\ spec_live sp !! h = Some x
       /\ handle_ok h /\ map_Forall (fun _ y => life_dependency y <> h) (spec_live sp).
Proof.
  intros Hsp Hq. pose proof (ok_catalog _ _ Hsp) as Hc. pose proof (close_select_cases c Hc) as H.
  destruct (close_select c) as [[h| |]| |]; try done.
  - right. destruct H as (i & s & Hs & <- & _ & Hz). exists (slot_handle s), (life_of s).
    split; [done|]. split; [apply Hsp; by exists i, s|]. split; [by eapply live_handle_ok|].
    apply (no_dependents_of sp c Hsp). pose proof (ok_slots _ _ _ _ (ok_array _ _ Hc) _ _ Hs) as [? ? ? ? ? K6 ? ?].
    lia.
  - left. split; [|done]. apply map_empty. intros h. destruct (spec_live sp !! h) as [x|] eqn:E; [|done].
    apply (ok_represents _ _ Hsp) in E as (i & s & Hs & _). by destruct (H i s).
  - destruct H as (i & s & Hs & Hn & _). destruct Hn.
    apply (Hq (slot_handle s) (life_of s)). apply Hsp. by exists i, s.
Qed.

(** A live, idle resource without dependents can be released. *)
Lemma release_begin_succeeds sp c h x :
  spec_ok sp c -> quiet sp -> spec_live sp !! h = Some x ->
  map_Forall (fun _ y => life_dependency y <> h) (spec_live sp) ->
  is_done (release_begin true c h false) = true.
Proof.
  intros Hsp Hq Hx Hdep. pose proof (ok_catalog _ _ Hsp) as Hc.
  pose proof (Hq _ _ Hx) as [Hcons Hst]. apply (ok_represents _ _ Hsp) in Hx as (i & s & Hs & <- & <-).
  unfold release_begin. rewrite (live_handle_present _ _ _ _ Hc Hs), (ok_mutex _ _ Hc).
  cbn [negb orb refuse_if mbind outcome_bind]. rewrite (resource_slot_locked_live _ _ _ _ Hc Hs).
  cbn [mbind outcome_bind]. rewrite (read_at_eq _ _ _ (proj1 Hs)). cbn [mbind outcome_bind].
  destruct (ok_slots _ _ _ _ (ok_array _ _ Hc) _ _ Hs) as [_ _ _ _ _ K6 _ _]. cbn in Hcons, Hst.
  assert (Hz : re_dependent_count (slot_summary s) = 0).
  { rewrite <- (Z.add_0_r (re_dependent_count _)), K6. apply zsum_zero. intros t [k Hk]%elem_of_zget.
    unfold in_use_sum, depends_on. destruct (slot_in_use t) eqn:Hu; [|done].
    rewrite bool_decide_eq_false_2; [done|]. intros E.
    apply (Hdep (slot_handle t) (life_of t)); [|done]. apply Hsp. by exists k, t. }
  rewrite Hcons, Hz, bool_decide_eq_false_2 by done. cbn [negb orb andb Z.eqb].
  by rewrite (write_slot_eq _ _ s) by (destruct (re_state _); apply Hs).
Qed.

Lemma release_end_succeeds sp c h evict :
  spec_ok sp c -> releasing sp h ->
  exists c', release_end true c h evict YVEX_OK = Done (c', YVEX_OK).
Proof.
  intros Hsp (x & Hx & Hst)%fmap_Some_1. pose proof (ok_catalog _ _ Hsp) as Hc.
  apply (ok_represents _ _ Hsp) in Hx as (i & s & Hs & <- & <-).
  unfold release_end. cbn [negb refuse_if mbind outcome_bind].
  rewrite (resource_slot_locked_live _ _ _ _ Hc Hs). cbn [mbind outcome_bind].
  destruct (remove_refines sp c Hsp i s evict Hs (eq_sym Hst)) as (c' & -> & _). by exists c'.
Qed.

Lemma world_extends w sp w' sp' l :
  resource_world_ok w sp -> resource_world_ok w' sp' -> rw_trace w' = rw_trace w ++ l -> resource_spec_run sp l = Some sp'.
Proof.
  intros Hw Hw' E. pose proof (ok_run _ _ Hw') as H. rewrite E, spec_run_app, (ok_run _ _ Hw) in H.
  exact H.
Qed.

(** A close that has chosen [h]. *)
Definition chosen (t : Z) (h : yvex_engine_resource_handle) (w : resource_world) (sp : resource_spec)
    : Prop :=
  is_Some (rw_catalog w) /\ zget (rw_operations w) t = Some (Chosen h)
  /\ is_Some (spec_live sp !! h) /\ map_Forall (fun _ y => life_dependency y <> h) (spec_live sp).

Definition selection_done (t : Z) (w w' : resource_world) (sp : resource_spec) : Prop :=
  resource_world_ok w' sp
  /\ (exists l, rw_trace w' = rw_trace w ++ l /\ Forall (fun e => e = Freed) l)
  /\ ((spec_live sp = ∅ /\ rw_catalog w' = None) \/ exists h, chosen t h w' sp).

Lemma selected_quiet w sp c ops t o :
  resource_spec_run spec_start (rw_trace w) = Some sp -> spec_ok sp c -> operations_ok sp ops ->
  zget ops t = Some o -> callback_of o = None ->
  (forall t1 o1, t1 <> t -> zget ops t1 = Some o1 -> closes o1 = false) -> quiet sp ->
  exists w', selected w c ops t = Done w' /\ selection_done t w w' sp.
Proof.
  intros H1 H2 H3 Ht Ho Hcl Hq.
  destruct (selected_ok w sp c ops t o H1 H2 H3 Ht Ho Hcl) as (w' & sp' & E & Hw').
  exists w'. split; [done|]. unfold selected in E. pose proof (zget_Some_range _ _ _ Ht) as Hr.
  destruct (close_select_quiet sp c H2 Hq) as [[Hemp Es]|(h & x & Es & Hx & Hh & Hdep)];
    rewrite Es in E; cbn in E; injection E as <-;
    pose proof (ok_run _ _ Hw') as Hrun; cbn [rw_trace] in Hrun.
  - rewrite spec_run_app, H1 in Hrun. cbn in Hrun. rewrite bool_decide_eq_true_2 in Hrun by done.
    injection Hrun as <-. split; [done|]. split; [|by left].
    exists [Freed]. split; [done|]. by constructor.
  - rewrite H1 in Hrun. injection Hrun as <-. split; [done|].
    split; [exists []; by rewrite app_nil_r|]. right. exists h.
    split_and!; cbn; [done|by apply zget_zset_eq|by rewrite Hx|done].
Qed.

Definition close_round (t : Z) : list resource_choice :=
  [Begin t true; Return t true YVEX_OK; Select t true].

Lemma run_step choice choices w w1 :
  resource_step choice w = Some (Done w1) -> resource_run (choice :: choices) w = resource_run choices w1.
Proof. cbn. by intros ->. Qed.

Lemma released_pair sp sp1 sp2 h :
  resource_spec_run sp [ReleaseBegan h] = Some sp1 -> resource_spec_run sp1 [Released h] = Some sp2 ->
  spec_live sp2 = delete h (spec_live sp).
Proof.
  cbn [resource_spec_run]. intros (sp1' & E1 & [= <-])%bind_Some (sp2' & E2 & [= <-])%bind_Some.
  apply spec_update_inv in E1 as (l & _ & _ & ->). apply spec_update_inv in E2 as (l2 & _ & _ & ->).
  cbn [spec_live]. apply map_eq. intros k. destruct (decide (h = k)) as [<-|Hne].
  - by rewrite lookup_partial_alter_eq, lookup_delete_eq.
  - by rewrite !lookup_partial_alter_ne, lookup_delete_ne by done.
Qed.

Lemma close_begin_succeeds t h w sp :
  resource_world_ok w sp -> quiet sp -> chosen t h w sp ->
  exists w1 sp1 rel, resource_step (Begin t true) w = Some (Done w1) /\ resource_world_ok w1 sp1
    /\ is_Some (rw_catalog w1) /\ rw_trace w1 = rw_trace w ++ [ReleaseBegan h]
    /\ zget (rw_operations w1) t = Some (InCallback h false rel true).
Proof.
  intros Hw Hq ([c Hcat] & Ht & [x Hx] & Hdep).
  pose proof (ok_world _ _ Hw) as Hsp. rewrite Hcat in Hsp.
  pose proof (release_begin_succeeds sp c h x Hsp Hq Hx Hdep) as [[c1 [rel ctx]] Eb]%is_done_Done.
  destruct (close_begin_ok w sp c true t h Hw Hcat Ht) as (w1 & sp1 & E1 & Hw1).
  exists w1, sp1, rel. cbn [resource_step]. rewrite Ht. unfold continue_call. rewrite Hcat, E1.
  unfold close_begin in E1. rewrite Eb in E1. injection E1 as <-.
  split_and!; [done|done|done|done|]. apply zget_zset_eq. by eapply zget_Some_range.
Qed.

Lemma close_return_succeeds t h w sp rel :
  resource_world_ok w sp -> is_Some (rw_catalog w) ->
  zget (rw_operations w) t = Some (InCallback h false rel true) ->
  exists w1 sp1, resource_step (Return t true YVEX_OK) w = Some (Done w1) /\ resource_world_ok w1 sp1
    /\ is_Some (rw_catalog w1) /\ rw_trace w1 = rw_trace w ++ [Released h]
    /\ zget (rw_operations w1) t = Some Selecting.
Proof.
  intros Hw [c Hcat] Ht. pose proof (ok_world _ _ Hw) as Hsp. rewrite Hcat in Hsp.
  destruct (ok_operation _ _ (ok_operations _ _ Hw) _ _ Ht) as [_ Hrel].
  destruct (release_end_succeeds sp c h false Hsp Hrel) as (c1 & Ee).
  destruct (release_return_ok w sp c true t h false rel true YVEX_OK Hw Hcat Ht) as (w1 & sp1 & E1 & Hw1).
  exists w1, sp1. cbn [resource_step]. rewrite Ht. unfold continue_call. rewrite Hcat, E1.
  unfold release_return in E1.
  replace (if rel then YVEX_OK else YVEX_OK) with YVEX_OK in E1 by by destruct rel.
  rewrite Ee in E1. cbn [section_result] in E1. rewrite bool_decide_eq_true_2 in E1 by done.
  injection E1 as <-. split_and!; [done|done|done|done|]. apply zget_zset_eq. by eapply zget_Some_range.
Qed.

(** One release of a close whose callbacks succeed. *)
Lemma close_round_ok t h w sp :
  resource_world_ok w sp -> quiet sp -> chosen t h w sp ->
  exists w' sp', (forall choices, resource_run (close_round t ++ choices) w = resource_run choices w')
    /\ spec_live sp' = delete h (spec_live sp) /\ quiet sp'
    /\ exists w2, rw_trace w2 = rw_trace w ++ [ReleaseBegan h; Released h]
        /\ selection_done t w2 w' sp'.
Proof.
  intros Hw Hq Hch.
  destruct (close_begin_succeeds t h w sp Hw Hq Hch) as (w1 & sp1 & rel & S1 & Hw1 & C1 & T1 & O1).
  destruct (close_return_succeeds t h w1 sp1 rel Hw1 C1 O1) as (w2 & sp2 & S2 & Hw2 & [c2 C2] & T2 & O2).
  assert (Hlive : spec_live sp2 = delete h (spec_live sp)).
  { eapply released_pair; [exact (world_extends _ _ _ _ _ Hw Hw1 T1)|].
    exact (world_extends _ _ _ _ _ Hw1 Hw2 T2). }
  assert (Hq2 : quiet sp2) by (unfold quiet; rewrite Hlive; by apply map_Forall_delete).
  pose proof Hw2 as [R2 Hsp2 Hops2]. rewrite C2 in Hsp2.
  destruct (selected_quiet w2 sp2 c2 (rw_operations w2) t Selecting) as (w3 & E3 & Hd3 & [l T3] & Hor);
    try done; [by eapply other_closers|].
  exists w3, sp2. split_and!; [|done|done|].
  - intros choices. unfold close_round. cbn [app].
    rewrite (run_step _ _ _ _ S1), (run_step _ _ _ _ S2). apply run_step. cbn [resource_step]. rewrite O2.
    unfold continue_call. rewrite C2. cbn [negb]. by rewrite E3.
  - exists w2. split; [by rewrite T2, T1, <- app_assoc|]. split; [done|]. split; [eauto|done].
Qed.

(** Every live resource is released in [l], and before the one it depends on. *)
Definition releases_in_order (live : gmap yvex_engine_resource_handle life)
    (l : list resource_event) : Prop :=
  (forall h, is_Some (live !! h) -> Released h ∈ l)
  /\ forall h x l1 l2, live !! h = Some x -> l = l1 ++ Released (life_dependency x) :: l2 ->
       Released h ∈ l1.

Lemma releases_after_freed live l k :
  Forall (fun e => e = Freed) k -> releases_in_order live l -> releases_in_order live (k ++ l).
Proof.
  induction 1 as [|e k -> _ IH]; [done|]. intros [H1 H2]%IH. split.
  - intros h Hh. apply list_elem_of_further. by apply H1.
  - intros h x [|e l1] l2 Hx E; [done|]. injection E as <- E. apply list_elem_of_further.
    by eapply H2.
Qed.

(** A resource without dependents is released first. *)
Lemma releases_first live h l :
  map_Forall (fun _ y => life_dependency y <> h) live -> releases_in_order (delete h live) l ->
  releases_in_order live (ReleaseBegan h :: Released h :: l).
Proof.
  intros Hno [H1 H2]. split.
  - intros h' Hh. destruct (decide (h = h')) as [<-|Hne]; [set_solver|].
    do 2 apply list_elem_of_further. apply H1. by rewrite lookup_delete_ne.
  - intros h' x l1 l2 Hx E. destruct l1 as [|? [|? l1]]; [done| |].
    { injection E as _ E _. by destruct (Hno h' x Hx). }
    injection E as <- <- E. destruct (decide (h = h')) as [<-|Hne]; [set_solver|].
    do 2 apply list_elem_of_further. eapply H2; [|exact E]. by rewrite lookup_delete_ne.
Qed.

Fixpoint close_rounds (n : nat) (t : Z) : list resource_choice :=
  match n with O => [] | S n => close_round t ++ close_rounds n t end.

Lemma close_rounds_ok n t w sp :
  size (spec_live sp) = n -> resource_world_ok w sp -> quiet sp ->
  ((spec_live sp = ∅ /\ rw_catalog w = None) \/ exists h, chosen t h w sp) ->
  exists w', resource_run (close_rounds n t) w = Some (Done w') /\ rw_catalog w' = None
    /\ exists l, rw_trace w' = rw_trace w ++ l /\ releases_in_order (spec_live sp) l.
Proof.
  revert w sp. induction n as [|n IH]; intros w sp Hn Hw Hq Hor.
  - apply map_size_empty_inv in Hn. destruct Hor as [[_ Hc]|(h & _ & _ & [x Hx] & _)].
    + exists w. split_and!; [done|done|]. exists []. rewrite app_nil_r, Hn. split; [done|]. split.
      * intros h. rewrite lookup_empty. by intros [? ?].
      * intros h x l1 l2. by rewrite lookup_empty.
    + by rewrite Hn, lookup_empty in Hx.
  - destruct Hor as [[He _]|[h Hch]]; [by rewrite He, map_size_empty in Hn|].
    destruct (close_round_ok t h w sp Hw Hq Hch)
      as (w1 & sp1 & Er & Hlive & Hq1 & w0 & T0 & Hw1 & (l1 & T1 & Hf) & Hor1).
    destruct Hch as (_ & _ & Hx & Hno).
    destruct (IH w1 sp1) as (w2 & E2 & C2 & l2 & T2 & Hall); [|done..|].
    { rewrite Hlive, map_size_delete_Some by done. lia. }
    exists w2. split_and!; [cbn [close_rounds]; by rewrite Er|done|].
    exists ([ReleaseBegan h; Released h] ++ l1 ++ l2). split.
    + by rewrite T2, T1, T0, <- !app_assoc.
    + apply releases_first; [done|]. apply releases_after_freed; [done|]. by rewrite <- Hlive.
Qed.

(** ** Snapshots *)

Definition live_entries (l : list engine_resource_slot) : list yvex_engine_resource_entry :=
  slot_summary <$> filter (fun s => slot_in_use s = true) l.

Lemma live_entries_app l k : live_entries (l ++ k) = live_entries l ++ live_entries k.
Proof. unfold live_entries. by rewrite filter_app, fmap_app. Qed.

Lemma live_entries_zlen l : zlen (live_entries l) = zsum (in_use_sum (fun _ => true)) l.
Proof.
  induction l as [|x l IH]; [done|]. change (x :: l) with ([x] ++ l).
  rewrite live_entries_app, zlen_app, IH, zsum_app. f_equal. unfold live_entries, in_use_sum.
  rewrite filter_cons, filter_nil. destruct (slot_in_use x) eqn:E; cbn; by rewrite E.
Qed.

Lemma live_entries_snoc l s :
  live_entries (l ++ [s]) = live_entries l ++ (if slot_in_use s then [slot_summary s] else []).
Proof.
  rewrite live_entries_app. f_equal. unfold live_entries. rewrite filter_cons, filter_nil.
  by destruct (slot_in_use s).
Qed.

Lemma snapshot_loop l entry_capacity n :
  (n <= length l)%nat -> zlen l < ULLONG_MAX -> 0 <= entry_capacity ->
  foldO (fun acc index =>
      slot ← read_at l index;
      if negb (slot_in_use slot) then Done acc else
      let '(entries, count) := acc in
      Done (if count <? entry_capacity then entries ++ [slot_summary slot] else entries,
            u64 (count + 1)))
    (zseq (Z.of_nat n)) ([], 0)
  = Done (take (Z.to_nat entry_capacity) (live_entries (take n l)), zlen (live_entries (take n l))).
Proof.
  intros Hn Hl He. induction n as [|n IH].
  { rewrite take_0. change (live_entries []) with (@nil yvex_engine_resource_entry).
    by rewrite take_nil. }
  specialize (IH ltac:(lia)).
  destruct (zget_in l (Z.of_nat n)) as [s Hs]; [unfold zlen; lia|].
  rewrite Nat2Z.inj_succ, <- Z.add_1_r, zseq_snoc, foldO_app, IH by lia.
  cbn [foldO mbind outcome_bind]. rewrite (read_at_eq _ _ _ Hs). cbn [mbind outcome_bind].
  rewrite (take_snoc_zget _ _ _ Hs), live_entries_snoc.
  destruct (slot_in_use s); cbn [negb mbind outcome_bind]; [|by rewrite app_nil_r].
  set (k := live_entries (take n l)).
  assert (Hk : zlen k <= zlen l).
  { unfold k. rewrite live_entries_zlen. pose proof (in_use_total_range (fun _ => true) (take n l)).
    unfold zlen in *. rewrite length_take in *. lia. }
  rewrite zlen_app, u64_id by (pose proof (zlen_nonneg k); unfold is_u64, ULLONG_MAX, UINT64_MAX in *; lia).
  do 2 f_equal. destruct (zlen k <? entry_capacity) eqn:E; unfold zlen in E.
  - rewrite !take_ge by (rewrite ?length_app; cbn; lia). done.
  - rewrite take_app_le by lia. done.
Qed.

(** ** Properties *)

(** C17: Every schedule of the catalog refines the abstract machine of live
    resources: its trace is a run of the machine, and the occupied slots of the
    catalog are exactly the live resources of the state reached, with the same
    state, value, dependency and number of borrowers. *)
Theorem catalog_refines_spec w :
  resource_reachable w -> registrations (rw_trace w) < ULLONG_MAX ->
  exists sp, resource_spec_run spec_start (rw_trace w) = Some sp
    /\ match rw_catalog w with
       | Some c => represents (spec_live sp) (cat_slots c)
       | None => spec_live sp = ∅
       end.
Proof.
  intros Hw Hr. destruct (resource_reachable_ok w Hw Hr) as [sp [H1 H2 _]]. exists sp. split; [done|].
  destruct (rw_catalog w); [apply H2|by destruct H2].
Qed.

(** C20: No schedule of calls, callbacks and lock failures reads or writes outside
    the slots, or uses the catalog after a close has freed it: no critical
    section faults, with fewer than 2^64 - 1 registrations. *)
Theorem catalog_memory_safe w choice :
  resource_reachable w -> choice_ok choice -> registrations (rw_trace w) < ULLONG_MAX ->
  forall f, resource_step choice w <> Some (Fault f).
Proof.
  intros Hw Hch Hr f E. destruct (resource_reachable_ok w Hw Hr) as [sp Hok].
  pose proof (resource_step_ok w sp choice Hok Hch Hr) as H. by rewrite E in H.
Qed.

(** C21: In every catalog reached with fewer than 2^64 - 1 registrations the
    summary is exact: the counts of resources by state and by kind and the byte totals are the sums over the occupied
    slots, dependent counts are the numbers of resources that name the slot,
    every dependency is live and older, and handles are unique. *)
Theorem catalog_accounts_exact w c :
  resource_reachable w -> registrations (rw_trace w) < ULLONG_MAX -> rw_catalog w = Some c -> catalog_ok c.
Proof.
  intros Hw Hr Hc. destruct (resource_reachable_ok w Hw Hr) as [sp [_ H _]]. rewrite Hc in H. apply H.
Qed.

(** C18: When the release callback of a resource is entered, every borrow of the
    resource has been returned and every resource that was registered as its
    dependent has been released; and it is never borrowed again. *)
Theorem release_exclusive w l1 h l2 :
  resource_reachable w -> registrations (rw_trace w) < ULLONG_MAX ->
  rw_trace w = l1 ++ ReleaseBegan h :: l2 ->
  borrows h l1 = 0
  /\ (forall h' v r, Registered h' h v r ∈ l1 -> Released h' ∈ l1)
  /\ (forall v, Acquired h v ∉ l2).
Proof.
  intros Hw Hr E. destruct (resource_reachable_ok w Hw Hr) as [sp [Hrun _ _]].
  rewrite E, spec_run_app in Hrun. apply bind_Some in Hrun as (sp1 & R1 & Hrun).
  cbn in Hrun. apply bind_Some in Hrun as (sp2 & R2 & Hrun).
  destruct (history_run _ _ R1) as [[_ Hb Hd] Hwf].
  pose proof R2 as (x & Hx & Hg & ->)%spec_update_inv. cbv beta in Hg. bool_hyps.
  match goal with H : bool_decide (map_Forall _ _) = true |- _ => apply bool_decide_eq_true_1 in H as Hno end.
  split_and!.
  - rewrite <- (Hb h x Hx). lia.
  - intros h' v r Hin. destruct (Hd _ _ _ _ Hin) as [|(y & Hy & Ey)]; [done|].
    by destruct (Hno h' y Hy).
  - assert (Hs : Forall (fun e => forall v, e <> Acquired h v) l2).
    { eapply (spec_run_kept (spent h)); [intros; by eapply spent_step| |exact Hrun].
      split; cbn; [apply Hwf; eauto|]. intros y. rewrite lookup_partial_alter_eq.
      intros [= <-]. by left. }
    intros v Hin. rewrite Forall_forall in Hs. by apply (Hs _ Hin v).
Qed.

(** C19: With fewer than 2^64 - 1 registrations a handle is dead once its resource is
    released: no later event of any
    schedule concerns it, so a stale handle reaches neither the next occupant of
    its slot nor a second release. *)
Theorem stale_handles_dead w l1 h l2 :
  resource_reachable w -> registrations (rw_trace w) < ULLONG_MAX ->
  rw_trace w = l1 ++ Released h :: l2 -> Forall (fun e => event_handle e <> Some h) l2.
Proof.
  intros Hw Hr E. destruct (resource_reachable_ok w Hw Hr) as [sp [Hrun _ _]].
  rewrite E, spec_run_app in Hrun. apply bind_Some in Hrun as (sp1 & R1 & Hrun).
  cbn in Hrun. apply bind_Some in Hrun as (sp2 & R2 & Hrun).
  destruct (history_run _ _ R1) as [_ Hwf]. pose proof R2 as (x & Hx & _ & ->)%spec_update_inv.
  eapply (spec_run_kept (gone h)); [intros; by eapply gone_step| |exact Hrun].
  split; cbn; [apply Hwf; eauto|]. by rewrite lookup_partial_alter_eq.
Qed.

(** C22: Closing an idle catalog, in which nothing is borrowed, completes: when
    the callbacks and the locks succeed, one release per resource empties and
    frees the catalog; the close releases every resource that was live, each one
    before the resource it depends on.  Idle means that no operation is in
    progress and no slot is left in the releasing state; the catalog has seen
    fewer than 2^64 - 1 registrations. *)
Theorem close_completes w c :
  resource_reachable w -> registrations (rw_trace w) < ULLONG_MAX -> rw_catalog w = Some c ->
  Forall (fun o => o = Returned) (rw_operations w) ->
  (forall i s, live_at (cat_slots c) i s -> re_consumer_count (slot_summary s) = 0
     /\ slot_state s <> YVEX_ENGINE_RESOURCE_RELEASING) ->
  exists w', resource_run (Close true :: close_rounds (Z.to_nat (tally resource_count c))
                                  (zlen (rw_operations w))) w = Some (Done w')
    /\ rw_catalog w' = None
    /\ exists l, rw_trace w' = rw_trace w ++ l
    /\ (forall i s, live_at (cat_slots c) i s -> Released (slot_handle s) ∈ l)
    /\ forall i s j d l1 l2, live_at (cat_slots c) i s -> live_at (cat_slots c) j d ->
         re_dependency (slot_summary s) = slot_handle d ->
         l = l1 ++ Released (slot_handle d) :: l2 -> Released (slot_handle s) ∈ l1.
Proof.
  intros Hw Hr Hcat Hidle Hfree. destruct (resource_reachable_ok w Hw Hr) as [sp [H1 H2 H3]].
  rewrite Hcat in H2.
  assert (Hq : quiet sp).
  { intros h x (i & s & Hs & _ & <-)%(ok_represents _ _ H2). by apply (Hfree i s). }
  assert (Hno : forall t o, zget (rw_operations w) t = Some o -> closes o = false).
  { intros t o Ht%zget_elem_of. rewrite Forall_forall in Hidle. by rewrite (Hidle o Ht). }
  destruct (selected_quiet w sp (set_closing c) (rw_operations w ++ [Returned])
              (zlen (rw_operations w)) Returned) as (w1 & E1 & Hd).
  { done. }
  { destruct H2 as [[K1 K2 K3 K4 K5 K6 [L1 L2 L3 L4 L5 L6]] Hm Hu Hn]. split; [split|done..]; done. }
  { by eapply operations_append; [exact H3|intros h Hrel _|..]. }
  { apply zget_snoc_eq. }
  { done. }
  { intros t1 o1 Hne [Et|[Et _]]%zget_snoc_inv; [by eapply Hno|done]. }
  { done. }
  destruct Hd as (Hw1 & (l & T1 & Hf) & Hor).
  destruct (close_rounds_ok (Z.to_nat (tally resource_count c)) (zlen (rw_operations w)) w1 sp)
    as (w2 & E2 & C2 & l2 & T2 & Hall); [|done..|].
  { rewrite <- (spec_size sp c H2). lia. }
  exists w2. split_and!; [|done|].
  - rewrite (run_step _ _ w w1); [done|]. cbn [resource_step].
    replace (existsb closes (rw_operations w)) with false.
    + unfold client_call, yvex_runtime_resource_catalog_close. rewrite Hcat.
      rewrite (ok_mutex _ _ (ok_catalog _ _ H2)). cbn [negb orb]. by rewrite E1.
    + symmetry. apply not_true_iff_false. intros (o & Ho%list_elem_of_In & Hc)%existsb_exists.
      apply elem_of_zget in Ho as [t Ht]. by rewrite (Hno t o Ht) in Hc.
  - apply (releases_after_freed _ _ l Hf) in Hall as [Hin Hord]. exists (l ++ l2).
    assert (Hlive : forall i s, live_at (cat_slots c) i s ->
              spec_live sp !! slot_handle s = Some (life_of s)).
    { intros i s Hs. apply H2. by exists i, s. }
    split; [by rewrite T2, T1, <- app_assoc|]. split.
    + intros i s Hs. apply Hin. rewrite (Hlive i s Hs). eauto.
    + intros i s j d l1 l3 Hs _ E. rewrite <- E. by apply (Hord _ (life_of s)), (Hlive i).
Qed.

(** A selection of a close finds a releasable resource unless the catalog is
    empty or some resource is still borrowed: a dependency cycle, which the
    refusal also names, cannot occur. *)
Theorem close_blocked_by_borrower w c :
  resource_reachable w -> registrations (rw_trace w) < ULLONG_MAX -> rw_catalog w = Some c ->
  (forall i s, live_at (cat_slots c) i s -> re_consumer_count (slot_summary s) = 0) ->
  close_select c <> Done Blocked
  /\ (close_select c = Done Exhausted <-> tally resource_count c = 0).
Proof.
  intros Hw Hr Hcat Hfree. destruct (resource_reachable_ok w Hw Hr) as [sp [_ H _]]. rewrite Hcat in H.
  pose proof (ok_catalog _ _ H) as Hc. pose proof (close_select_cases c Hc) as Hs.
  pose proof (ok_resource_count _ (ok_sums _ _ Hc)) as Hn.
  destruct (close_select c) as [[h| |]| |]; try done;
    [split; [done|]..|destruct Hs as (i & s & Hs & Hcons & _); by destruct Hcons; eapply Hfree].
  - destruct Hs as (i & s & Hs & _). pose proof (in_use_total_pos (fun _ => true) _ _ _ Hs eq_refl).
    split; [done|lia].
  - split; [intros _|done]. rewrite Hn. apply zsum_zero. intros s [i Hi]%elem_of_zget.
    unfold in_use_sum. destruct (slot_in_use s) eqn:Hu; [|done]. by destruct (Hs i s).
Qed.

(** A snapshot of a reachable catalog stores the summary, the entries of the
    occupied slots in slot order as far as they fit, and their full number,
    which is the resource count; it reports BOUNDS exactly when an array was
    given and is too short. *)
Theorem snapshot_exact w c entry_capacity :
  resource_reachable w -> registrations (rw_trace w) < ULLONG_MAX -> rw_catalog w = Some c ->
  0 <= entry_capacity ->
  yvex_runtime_resource_snapshot true c entry_capacity
  = Done (cat_summary c, take (Z.to_nat entry_capacity) (live_entries (cat_slots c)),
          tally resource_count c,
          if (0 <? entry_capacity) && (entry_capacity <? tally resource_count c)
          then YVEX_ERR_BOUNDS else YVEX_OK).
Proof.
  intros Hw Hr Hcat He. destruct (resource_reachable_ok w Hw Hr) as [sp [_ H _]]. rewrite Hcat in H.
  pose proof (ok_catalog _ _ H) as Hc. unfold yvex_runtime_resource_snapshot.
  rewrite (ok_mutex _ _ Hc). cbn [negb orb refuse_if mbind outcome_bind].
  pose proof (ok_capacity_bound _ _ Hc). unfold RESOURCE_CAPACITY_MAX in *.
  assert (Hlt : zlen (cat_slots c) < ULLONG_MAX)
    by (rewrite (ok_capacity _ _ Hc); unfold ULLONG_MAX, UINT64_MAX; lia).
  rewrite <- (ok_capacity _ _ Hc).
  change (zlen (cat_slots c)) with (Z.of_nat (length (cat_slots c))).
  rewrite (snapshot_loop _ _ _ (le_n _) Hlt He), firstn_all. cbn [mbind outcome_bind]. rewrite live_entries_zlen, <- (ok_resource_count _ (ok_sums _ _ Hc)).
  do 3 f_equal. destruct (entry_capacity =? 0) eqn:E; cbn [negb andb].
  - by replace (0 <? entry_capacity) with false by lia.
  - by replace (0 <? entry_capacity) with true by lia.
Qed.

(** ** Witnesses *)

Lemma reachable_run choices w w' :
  resource_reachable w -> Forall choice_ok choices -> resource_run choices w = Some (Done w') -> resource_reachable w'.
Proof.
  revert w. induction choices as [|choice choices IH]; intros w Hw Hch E; [by injection E as <-|].
  apply Forall_cons in Hch as [Hc Hch]. cbn in E. destruct (resource_step choice w) as [[w1| |]|] eqn:Es; try done.
  apply (IH w1); [by eapply reachable_step|done|done].
Qed.

Definition demo_catalog_opened : yvex_engine_resource_catalog :=
  match demo_catalog with Done c => c | _ => catalog_zero end.
Definition demo_catalog_world (choices : list resource_choice) : resource_world :=
  match resource_run choices (opened_catalog demo_catalog_opened) with
  | Some (Done w) => w
  | _ => opened_catalog demo_catalog_opened
  end.

Lemma demo_opened_reachable : resource_reachable (opened_catalog demo_catalog_opened).
Proof.
  apply (reachable_open (fun _ => true) true true 7 demo_resource_identity 2); [unfold is_u64; lia|].
  vm_compute. reflexivity.
Qed.

Lemma demo_catalog_reachable choices : Forall choice_ok choices -> resource_reachable (demo_catalog_world choices).
Proof.
  intros H. unfold demo_catalog_world. pose proof demo_opened_reachable as H0.
  destruct (resource_run choices _) as [[w| |]|] eqn:E; try done. by eapply reachable_run.
Qed.

Lemma demo_request_ok value dependency ready :
  is_u64 value -> handle_ok dependency -> request_ok (demo_request value dependency ready).
Proof.
  intros Hv Hd. unfold request_ok, demo_request, bytes_ok, byte_fields, is_u64 in *. cbn.
  split_and!; try done; try lia. repeat apply Forall_cons_2; cbn; try apply Forall_nil_2; lia.
Qed.

(** Two resources, the second depends on the first; the second is borrowed,
    returned and evicted. *)
Definition demo_setup : list resource_choice :=
  [Register true (demo_request 11 handle_zero true);
   Register true (demo_request 22 (demo_handle 1 1) true)].
Definition demo_use : list resource_choice :=
  demo_setup ++ [Acquire true (demo_handle 2 2); Drop_ true (demo_handle 2 2);
                 Evict true (demo_handle 2 2); Return 0 true YVEX_OK;
                 Evict true (demo_handle 1 1); Return 1 true YVEX_OK].

Lemma demo_use_ok : Forall choice_ok demo_use.
Proof.
  repeat apply Forall_cons_2; try apply Forall_nil_2; cbn; try done;
    try (apply demo_request_ok); unfold handle_ok, is_u64; cbn; lia.
Qed.
Lemma demo_setup_ok : Forall choice_ok demo_setup.
Proof. pose proof demo_use_ok as H. by apply Forall_app in H as [H _]. Qed.

Lemma live_check (p : engine_resource_slot -> bool) l :
  forallb (fun s => negb (slot_in_use s) || p s) l = true ->
  forall i s, live_at l i s -> p s = true.
Proof.
  intros H i s [Hi Hu]. rewrite forallb_forall in H.
  specialize (H s ltac:(by apply list_elem_of_In; eapply zget_elem_of)). by rewrite Hu in H.
Qed.

Definition demo_setup_catalog : yvex_engine_resource_catalog :=
  match rw_catalog (demo_catalog_world demo_setup) with Some c => c | None => catalog_zero end.

Lemma catalog_refines_spec_witness :
  exists sp, resource_spec_run spec_start (rw_trace (demo_catalog_world demo_use)) = Some sp
    /\ match rw_catalog (demo_catalog_world demo_use) with
       | Some c => represents (spec_live sp) (cat_slots c)
       | None => spec_live sp = ∅
       end.
Proof.
  apply (catalog_refines_spec (demo_catalog_world demo_use)); [apply demo_catalog_reachable, demo_use_ok|].
  vm_compute. reflexivity.
Defined.

Lemma catalog_memory_safe_witness :
  match resource_step (Evict true (demo_handle 1 1)) (demo_catalog_world demo_setup) with
  | Some (Fault _) => False
  | _ => True
  end.
Proof.
  pose proof (catalog_memory_safe (demo_catalog_world demo_setup) (Evict true (demo_handle 1 1))
    (demo_catalog_reachable _ demo_setup_ok) ltac:(cbn; unfold handle_ok, is_u64; cbn; lia) ltac:(vm_compute; reflexivity)) as H.
  destruct (resource_step _ _) as [[w|status reason|f]|]; [exact I|exact I|exact (H f eq_refl)|exact I].
Defined.

Lemma catalog_accounts_exact_witness : catalog_ok demo_setup_catalog.
Proof.
  apply (catalog_accounts_exact (demo_catalog_world demo_setup)); [apply demo_catalog_reachable, demo_setup_ok|..];
    vm_compute; reflexivity.
Defined.

Lemma release_exclusive_witness :
  rw_trace (demo_catalog_world demo_use)
  = take 6 (rw_trace (demo_catalog_world demo_use)) ++ ReleaseBegan (demo_handle 1 1) :: [Released (demo_handle 1 1)]
  /\ borrows (demo_handle 1 1) (take 6 (rw_trace (demo_catalog_world demo_use))) = 0
  /\ (forall h' v r, Registered h' (demo_handle 1 1) v r ∈ take 6 (rw_trace (demo_catalog_world demo_use)) ->
      Released h' ∈ take 6 (rw_trace (demo_catalog_world demo_use)))
  /\ (forall v, Acquired (demo_handle 1 1) v ∉ [Released (demo_handle 1 1)]).
Proof.
  split; [vm_compute; reflexivity|].
  apply (release_exclusive (demo_catalog_world demo_use)); [apply demo_catalog_reachable, demo_use_ok|..];
    vm_compute; reflexivity.
Defined.

Lemma stale_handles_dead_witness :
  Forall (fun e => event_handle e <> Some (demo_handle 2 2))
    [ReleaseBegan (demo_handle 1 1); Released (demo_handle 1 1)].
Proof.
  apply (stale_handles_dead (demo_catalog_world demo_use) (take 5 (rw_trace (demo_catalog_world demo_use))));
    [apply demo_catalog_reachable, demo_use_ok|..]; vm_compute; reflexivity.
Defined.

Lemma close_completes_witness :
  exists w', resource_run (Close true :: close_rounds 2 0) (demo_catalog_world demo_setup) = Some (Done w')
    /\ rw_catalog w' = None
    /\ exists l, rw_trace w' = rw_trace (demo_catalog_world demo_setup) ++ l
    /\ (forall i s, live_at (cat_slots demo_setup_catalog) i s -> Released (slot_handle s) ∈ l)
    /\ forall i s j d l1 l2, live_at (cat_slots demo_setup_catalog) i s ->
         live_at (cat_slots demo_setup_catalog) j d ->
         re_dependency (slot_summary s) = slot_handle d ->
         l = l1 ++ Released (slot_handle d) :: l2 -> Released (slot_handle s) ∈ l1.
Proof.
  apply (close_completes (demo_catalog_world demo_setup) demo_setup_catalog);
    [apply demo_catalog_reachable, demo_setup_ok|vm_compute; reflexivity|vm_compute; reflexivity| |].
  - vm_compute. constructor.
  - intros i s Hs.
    pose proof (live_check (fun s => (re_consumer_count (slot_summary s) =? 0)
      && negb (in_state YVEX_ENGINE_RESOURCE_RELEASING s))
      (cat_slots demo_setup_catalog) ltac:(vm_compute; reflexivity) i s Hs) as H.
    cbv beta in H. bool_hyps. split; [lia|by eapply bool_decide_eq_false_1].
Defined.

Lemma close_blocked_by_borrower_witness :
  close_select demo_setup_catalog <> Done Blocked
  /\ (close_select demo_setup_catalog = Done Exhausted <-> tally resource_count demo_setup_catalog = 0).
Proof.
  apply (close_blocked_by_borrower (demo_catalog_world demo_setup));
    [apply demo_catalog_reachable, demo_setup_ok|vm_compute; reflexivity|vm_compute; reflexivity|].
  intros i s Hs. apply Z.eqb_eq.
  apply (live_check (fun s => re_consumer_count (slot_summary s) =? 0)
    (cat_slots demo_setup_catalog) ltac:(vm_compute; reflexivity) i s Hs).
Defined.

Lemma snapshot_exact_witness :
  yvex_runtime_resource_snapshot true demo_setup_catalog 1
  = Done (cat_summary demo_setup_catalog, take 1 (live_entries (cat_slots demo_setup_catalog)), 2,
          YVEX_ERR_BOUNDS).
Proof.
  apply (snapshot_exact (demo_catalog_world demo_setup) demo_setup_catalog 1);
    [apply demo_catalog_reachable, demo_setup_ok|vm_compute; reflexivity|vm_compute; reflexivity|lia].
Defined.
